(* ===== verification/_CoqProject ===== *)
-Q . S2P
Prelude.v
Bitmap.v
Spinlock.v
Pidmap.v
Lists.v
Bytes.v
FsDefs.v
Cache.v
CacheList.v
CacheLog.v
CacheOps.v
BlockCache.v
CacheAlloc.v
CacheSpace.v
CacheSwap.v
Str.v
Format.v
Sem.v
Mem.v
Console.v
Inode.v
InodeRead.v
InodeMap.v
InodeWrite.v
InodeDir.v
InodePath.v
Pipe.v
File.v
Pt.v
KernelPt.v
RBTree.v
RBRep.v
RBInsert.v
RBErase.v
RBMap.v
RBSet.v
Cpu.v
CpuInv.v
Sched.v
SchedInv.v
Scheduler.v
Paging.v
PagingInv.v
Proc.v
ProcTree.v
ProcSteps.v
Ipc.v
IpcInv.v
IpcQueue.v
IpcWait.v
Sh.v
ShLex.v
ShGrammar.v
ShParse.v
ShCmd.v
Mkfs.v
MkfsInv.v
MkfsAppend.v
MkfsImage.v
MkfsMain.v
MkfsBoot.v
SdDefs.v
Sd.v
SdInit.v
SdReq.v
SdCard.v
SdSteps.v
SdBlock.v
SysFile.v
Trap.v
ShRun.v
ShMain.v
SysErr.v
Exec.v
SysFd.v
FdProc.v
ExecSafe.v
ExecRun.v
FdSteps.v
ExecDemo.v
