(* ===== verification/Prelude.v ===== *)
(** * A verified model of the teaching kernel of OS-2022

    The repository is an AArch64 kernel with a file system, processes, containers, demand
    paging and message queues, a shell, and the program that makes the disk image.  This
    library translates its C sources (under [src/src/]) into Rocq functions and proves what
    they promise.  This file holds the vocabulary shared by all components.

    ** How the code is modelled

    A C function that reads and writes state is a function in the state monad [M] below,
    whose outcomes are a return, a panic (also a failed assertion), a fault (an access
    outside the object a pointer names), a hang (waiting for what nobody can give) and a
    lack of fuel.  Every theorem that says that a function returns therefore also says that
    it does not panic, fault or loop.  Pointers are addresses or identifiers into maps,
    structs are records with the names of the source, and machine integers are integers in
    [Z] with the wrap-around written out ([u8] to [u64], [i32], [i64]).  Loops that are not
    structural have fuel; the fuel is a bound that the definitions compute from the state
    (the number of nodes of a heap, the bytes that are left, the length of the line), and
    the theorems show that it is enough.  A function that gives up the CPU is cut there: the
    part before and the part that runs when the thread is resumed are two definitions.
    Interleavings are step relations or lists of steps.

    ** The parts, and where they are

    - [common/]: bitmaps ([Bitmap]), spin locks and reference counts ([Spinlock]), intrusive
      lists, the locked queue and the lock-free stack ([Lists]), strings ([Str]), formatted
      output ([Format]), semaphores ([Sem]), the red-black tree ([RBTree] with the code,
      [RBRep] and [RBInsert], [RBErase] with the proofs, [RBMap] and [RBSet] with what its
      clients use), message queues ([Ipc] with the code, [IpcInv], [IpcQueue], [IpcWait]).
    - [fs/]: the on-disk structures ([Bytes], [FsDefs]); the block cache with its write-ahead
      log, block allocator and swap area ([Cache] with the code; [CacheList], [CacheOps],
      [CacheLog], [CacheSpace], [CacheAlloc], [CacheSwap] with the proofs); [BlockCache] is
      the interface of the cache, a class of operations with laws, which [CacheAlloc]
      implements and which is all that the proofs about inodes use; inodes, directories and
      paths ([Inode] with the code; [InodeRead], [InodeMap], [InodeWrite], [InodeDir],
      [InodePath]); pipes ([Pipe]) and open files ([File]).
    - [kernel/]: the page and block allocators ([Mem]), page tables and the zero page ([Pt]), pid bitmaps
      ([Pidmap]), the console ([Console]), CPUs, timers and the clock ([Cpu], [CpuInv]), the
      scheduler ([Sched] with the code, [SchedInv], [Scheduler]), sections, page faults and
      swapping ([Paging], [PagingInv]), processes and containers ([Proc] with the code,
      [ProcTree], [ProcSteps]), the system calls ([SysFile] with the code, [SysErr] for the
      checks of their arguments; [SysFd], [FdProc] and [FdSteps] for the descriptors) and the
      program loader ([Exec] with the code, [ExecSafe], [ExecRun]; [ExecDemo] runs it on an
      image that [mkfs] made).
    - [aarch64/] and [driver/]: the boot page table ([KernelPt]), traps and interrupts
      ([Trap]), and the SD card with the mailbox and the block device on top of it ([SdDefs]
      and [Sd] with the commands and the initialisation, [SdReq] with the requests; [SdInit],
      [SdCard], [SdSteps], [SdBlock] with the proofs).  The hardware is a class of
      operations, [Emmc]; a card that answers is a class of laws on top of it, [SdCard], with
      an instance that can be run.
    - [user/]: the shell (its parser [Sh], with [ShLex], [ShGrammar], [ShParse], [ShCmd];
      running the commands, [ShRun], and the main loop, [ShMain]) and [mkfs] ([Mkfs] with the
      code, [MkfsInv], [MkfsAppend], [MkfsImage], [MkfsMain], [MkfsBoot]).

    The components use each other as in the code: files sit on inodes and pipes, inodes on
    the block cache, the block cache on a device that holds blocks as the SD card does,
    processes on the scheduler, files, page tables and pid maps, the
    scheduler on the red-black tree and the timers, message queues on lists, pages and the
    scheduler, the system calls on all of them.

    ** What is proved

    - Crash safety and caching: a commit of the log is atomic under a crash between any two
      writes and during recovery; the cache is transparent; the log never overflows;
      allocation finds the lowest free block; recovery at boot.
    - Files: reading and writing are inverse and touch nothing else; directories; pipes are
      bounded streams as long as no call sleeps; the image [mkfs] makes holds its files, and the kernel reads them back.
    - Data structures as what they stand for: the red-black tree as a sorted list, with its
      balance; the pid map as a set; the queue as a list; message queues as bounded lists of
      typed messages, for messages of one page and calls that do not wait; the shell's parser as a decision procedure for its grammar,
      and the whole shell as the meaning of the lines of its input.
    - Invariants over every run: free and allocated memory are disjoint, for blocks of at
      most 4088 bytes; mutual exclusion of spin locks; conservation of a semaphore's units;
      the run queues and counters of the scheduler for any tree of containers, its CPUs and
      timers; the tree of processes; the descriptors of all processes and
      the references of the files, over every sequence of system calls.
    - System calls: what the checks of user memory accept; calls on closed descriptors; a
      program that cannot be loaded leaves the process as it was, and one that is loaded
      starts at the entry point in its file with its arguments, a new page directory and
      the sections of its program headers (what its pages hold is checked on an example only).
    - Memory: page tables map exactly the page asked for; copy on write; the boot page table
      maps the memory to itself.
    - Devices: the requests to the SD card are served in their order, as whole blocks, for
      every interleaving and every delay; the block device stores what is written; the
      initialisation of the card ends whatever the hardware does.
    - Behaviour of the code that its callers do not expect is stated as theorems too, for
      example the lock-free stack that hands out a page twice, messages that lose their end,
      a removed queue that does not wake its senders, and a CPU that goes idle because the
      container whose turn it is has all its processes on other CPUs.

    ** What is not modelled

    - Assembly ([start.S], [trap.S], [swtch.S]) and the instructions wrapped by
      [aarch64/intrinsic.h]: registers and hardware, with no logic of their own.  The
      scheduler is modelled up to the switch of registers.
    - The registers of the UART: the console is a stream of characters.  The benchmark of the
      SD card, and the constants of [driver/sddef.h] that no function uses.
    - The disk of the block cache is a map from block numbers to blocks: the cache and the
      driver of the SD card are not composed into one state.
    - The kernel's entry points ([main.c], [kernel/core.c], [kernel/init.c]): the functions
      they call are modelled, the calls themselves are not.
    - The small user programs, the tests and the mock objects of the tests. *)

From stdpp Require Export base numbers list gmap.
From Stdlib Require Export ZArith Lia.
From Corelib Require Export ssreflect.

#[export] Set Default Goal Selector "!".
Global Open Scope general_if_scope.
Global Open Scope Z_scope.

(** ** Outcomes and the state monad of the kernel code

    A C function that reads and writes the kernel's state is a function from
    the state to an outcome.  [Ret] is a normal return; [Panic] is [PANIC()] or
    a failed [ASSERT]; [Fault] is an access outside the object a pointer names
    (a null or dangling pointer, an index past an array); [Hang] is a call that
    would wait forever when nothing else runs (a spinlock that is held, a
    semaphore nobody posts); [Fuel] is a loop cut off by its fuel. *)
Inductive outcome (S A : Type) : Type :=
| Ret (a : A) (s : S)
| Panic
| Fault
| Hang
| Fuel.
Arguments Ret {S A} a s.
Arguments Panic {S A}.
Arguments Fault {S A}.
Arguments Hang {S A}.
Arguments Fuel {S A}.

Definition M (S A : Type) : Type := S → outcome S A.

#[export] Instance M_ret S : MRet (M S) := λ A a s, Ret a s.
#[export] Instance M_bind S : MBind (M S) := λ A B k m s,
  match m s with
  | Ret a s' => k a s'
  | Panic => Panic
  | Fault => Fault
  | Hang => Hang
  | Fuel => Fuel
  end.

Definition get {S} : M S S := λ s, Ret s s.
Definition put {S} (s : S) : M S () := λ _, Ret () s.
Definition gets {S A} (f : S → A) : M S A := λ s, Ret (f s) s.
Definition modify {S} (f : S → S) : M S () := λ s, Ret () (f s).
Definition panic {S A} : M S A := λ _, Panic.
Definition fault {S A} : M S A := λ _, Fault.
Definition hang {S A} : M S A := λ _, Hang.
Definition nofuel {S A} : M S A := λ _, Fuel.
Definition assert_ {S} (b : bool) : M S () := if b then mret () else panic.
Definition of_opt {S A} (o : option A) : M S A :=
  match o with Some a => mret a | None => fault end.

(** ** Total-correctness triples

    [wp m Q s]: run from [s], [m] returns, and [Q] holds of the result and the
    final state.  A panic, a fault, a hang or a lack of fuel falsifies it. *)
Definition wp {S A} (m : M S A) (Q : A → S → Prop) (s : S) : Prop :=
  match m s with Ret a s' => Q a s' | _ => False end.

Section wp_rules.
Context {S : Type}.
Implicit Types s : S.

Lemma wp_ret {A} (a : A) (Q : A → S → Prop) s : Q a s → wp (mret a) Q s.
Proof. done. Qed.

Lemma wp_bind {A B} (m : M S A) (k : A → M S B) Q s :
  wp m (λ a, wp (k a) Q) s → wp (m ≫= k) Q s.
Proof. rewrite /wp /mbind /M_bind. by destruct (m s). Qed.

Lemma wp_bind_inv {A B} (m : M S A) (k : A → M S B) Q s :
  wp (m ≫= k) Q s → wp m (λ a, wp (k a) Q) s.
Proof. rewrite /wp /mbind /M_bind. by destruct (m s). Qed.

Lemma wp_mono {A} (m : M S A) (Q Q' : A → S → Prop) s :
  wp m Q s → (∀ a s', Q a s' → Q' a s') → wp m Q' s.
Proof. rewrite /wp. destruct (m s); naive_solver. Qed.

Lemma wp_run {A} (m : M S A) Q s :
  wp m Q s ↔ ∃ a s', m s = Ret a s' ∧ Q a s'.
Proof.
  rewrite /wp. destruct (m s); split; try naive_solver.
Qed.

Lemma wp_of_run {A} (m : M S A) Q s a s' : m s = Ret a s' → Q a s' → wp m Q s.
Proof. intros H ?. apply wp_run. eauto. Qed.

Lemma wp_gets {A} (f : S → A) Q s : Q (f s) s → wp (gets f) Q s.
Proof. done. Qed.

Lemma wp_get Q s : Q s s → wp get Q s.
Proof. done. Qed.

Lemma wp_put Q s s' : Q () s' → wp (put s') Q s.
Proof. done. Qed.

Lemma wp_modify f Q s : Q () (f s) → wp (modify f) Q s.
Proof. done. Qed.

Lemma wp_assert b Q s : b = true → Q () s → wp (assert_ b) Q s.
Proof. by intros ->. Qed.

Lemma wp_of_opt {A} (o : option A) a Q s : o = Some a → Q a s → wp (of_opt o) Q s.
Proof. by intros ->. Qed.

Lemma bind_run {A B} (m : M S A) (k : A → M S B) s a s' :
  m s = Ret a s' → (m ≫= k) s = k a s'.
Proof. rewrite /mbind /M_bind. by intros ->. Qed.

Lemma bind_fault {A B} (m : M S A) (k : A → M S B) s : m s = Fault → (m ≫= k) s = Fault.
Proof. rewrite /mbind /M_bind. by intros ->. Qed.

Lemma of_opt_run {A} (o : option A) a s : o = Some a → of_opt o s = Ret a s.
Proof. by intros ->. Qed.

Lemma bind_ret_inv {A B} (m : M S A) (k : A → M S B) s b s'' :
  (m ≫= k) s = Ret b s'' → ∃ a s', m s = Ret a s' ∧ k a s' = Ret b s''.
Proof. rewrite /mbind /M_bind. destruct (m s); naive_solver. Qed.
End wp_rules.

Create HintDb wp.
#[export] Hint Resolve wp_ret wp_gets wp_get wp_put wp_modify : wp.

(** One symbolic step through a monadic body. *)
Ltac wp_step :=
  first
    [ apply wp_bind
    | apply wp_ret | apply wp_gets | apply wp_get | apply wp_put | apply wp_modify
    | apply wp_assert
    | progress cbn beta iota ].

(** [lia] with quotients and remainders of constants. *)
Ltac dlia := Z.to_euclidean_division_equations; lia.

(** Unfold the monad in a run equation. *)
Ltac run_simpl := rewrite /mbind /M_bind /mret /M_ret /gets /get /put /modify /assert_ /of_opt /=.

(** ** Frames

    [keeps P m]: whenever [m] returns, the observation [P] of the state is what
    it was. *)
Definition keeps {S A X} (P : S → X) (m : M S A) : Prop :=
  ∀ s a s', m s = Ret a s' → P s' = P s.

Section keeps_rules.
Context {S X : Type} (P : S → X).

Lemma keeps_bind {A B} (m : M S A) (k : A → M S B) :
  keeps P m → (∀ a, keeps P (k a)) → keeps P (m ≫= k).
Proof.
  intros Hm Hk s b s' (a & t & H1 & H2)%bind_ret_inv. rewrite (Hk a t b s' H2). exact (Hm _ _ _ H1).
Qed.

Lemma keeps_ret {A} (a : A) : keeps P (mret a).
Proof. by intros s ? s' [= _ ->]. Qed.
Lemma keeps_get : keeps P get.
Proof. by intros s ? s' [= _ ->]. Qed.
Lemma keeps_gets {A} (f : S → A) : keeps P (gets f).
Proof. by intros s ? s' [= _ ->]. Qed.
Lemma keeps_modify f : (∀ s, P (f s) = P s) → keeps P (modify f).
Proof. by intros H s ? s' [= _ <-]. Qed.
Lemma keeps_of_opt {A} (o : option A) : keeps P (of_opt o).
Proof. destruct o; [apply keeps_ret|]. by intros s ? s' [=]. Qed.
Lemma keeps_hang {A} : keeps P (hang (A := A)).
Proof. by intros s ? s' [=]. Qed.
Lemma keeps_panic {A} : keeps P (panic (A := A)).
Proof. by intros s ? s' [=]. Qed.
Lemma keeps_fault {A} : keeps P (fault (A := A)).
Proof. by intros s ? s' [=]. Qed.
Lemma keeps_nofuel {A} : keeps P (nofuel (A := A)).
Proof. by intros s ? s' [=]. Qed.
Lemma keeps_assert b : keeps P (assert_ b).
Proof. rewrite /assert_. destruct b; [apply keeps_ret|apply keeps_panic]. Qed.
End keeps_rules.

Create HintDb keeps.
#[export] Hint Resolve keeps_ret keeps_get keeps_gets keeps_of_opt keeps_hang keeps_panic keeps_fault keeps_nofuel keeps_assert : keeps.

(** Walk through a body with [keeps_bind], leaving what is not closed by the
    database. *)
Ltac keeps_step :=
  intros;
  lazymatch goal with
  | |- keeps _ (_ ≫= _) => apply keeps_bind
  | |- keeps _ (match ?x with _ => _ end) => destruct x
  | |- keeps _ (modify _) => apply keeps_modify
  | |- keeps _ _ => solve [auto with keeps]
  end.
Ltac keeps_solve := repeat keeps_step.

(** ** Fixed-width integers *)
Definition wrap (n x : Z) : Z := x mod 2 ^ n.
Definition u8 := wrap 8.
Definition u16 := wrap 16.
Definition u32 := wrap 32.
Definition u64 := wrap 64.
(** two's complement conversion to a signed type of [n] bits *)
Definition swrap (n x : Z) : Z := (x + 2 ^ (n - 1)) mod 2 ^ n - 2 ^ (n - 1).
Definition i32 := swrap 32.
Definition i64 := swrap 64.

Lemma wrap_range n x : 0 ≤ n → 0 ≤ wrap n x < 2 ^ n.
Proof. intros. apply Z.mod_pos_bound. lia. Qed.

Lemma wrap_small n x : 0 ≤ x < 2 ^ n → wrap n x = x.
Proof. apply Z.mod_small. Qed.

Lemma i32_small x : - 2 ^ 31 ≤ x < 2 ^ 31 → i32 x = x.
Proof.
  intros. rewrite /i32 /swrap. change (2 ^ (32 - 1)) with (2 ^ 31).
  rewrite Z.mod_small; lia.
Qed.
Lemma i64_small x : - 2 ^ 63 ≤ x < 2 ^ 63 → i64 x = x.
Proof. intros. rewrite /i64 /swrap. change (2 ^ (64 - 1)) with (2 ^ 63). rewrite Z.mod_small; lia. Qed.


(** ** Lists *)
Lemma list_lookup_Z_Some {A} (l : list A) (i : Z) :
  0 ≤ i < Z.of_nat (length l) → is_Some (l !! Z.to_nat i).
Proof. intros. apply lookup_lt_is_Some. lia. Qed.

Lemma filter_ne_notin `{EqDecision A} (w : A) (l : list A) : w ∉ l → filter (λ x, x ≠ w) l = l.
Proof.
  induction l as [|x l IH]; [done|]. intros [? ?]%not_elem_of_cons.
  rewrite filter_cons_True; [congruence|]. by rewrite IH.
Qed.

Lemma length_filter_ne `{EqDecision A} (w : A) (l : list A) :
  NoDup l → w ∈ l → S (length (filter (λ x, x ≠ w) l)) = length l.
Proof.
  induction l as [|x l IH]; intros Hnd Hin; [by apply elem_of_nil in Hin|].
  apply NoDup_cons in Hnd as [Hx Hnd]. destruct (decide (x = w)) as [->|Hne].
  - rewrite filter_cons_False; [naive_solver|]. by rewrite filter_ne_notin.
  - rewrite filter_cons_True // /=. f_equal. apply IH; [done|]. set_solver.
Qed.
