(* ===== verification/Bitmap.v ===== *)
(** * Bitmap: the boolean arrays of [common/bitmap.h]

    A bitmap is an array of 64-bit cells; bit [i] is bit [i mod 64] of cell
    [i / 64].  An index past the array is a [None]. *)

From stdpp Require Import base numbers list.
From S2P Require Import Prelude.

Notation BitmapCell := Z (only parsing).
Definition BITMAP_BITS_PER_CELL : Z := 64.
Definition BITMAP_TO_NUM_CELLS (size : Z) : Z :=
  (size + BITMAP_BITS_PER_CELL - 1) / BITMAP_BITS_PER_CELL.
Definition BIT (i : Z) : Z := u64 (Z.shiftl 1 i).

Definition BITMAP_PARSE_INDEX (index : Z) : Z * Z :=
  (index / BITMAP_BITS_PER_CELL, index mod BITMAP_BITS_PER_CELL).

Definition bitmap_get (bitmap : list BitmapCell) (index : Z) : option bool :=
  let '(idx, offset) := BITMAP_PARSE_INDEX index in
  cell ← bitmap !! Z.to_nat idx;
  Some (negb (Z.land (Z.shiftr cell offset) 1 =? 0)).

Definition bitmap_set (bitmap : list BitmapCell) (index : Z) : option (list BitmapCell) :=
  let '(idx, offset) := BITMAP_PARSE_INDEX index in
  cell ← bitmap !! Z.to_nat idx;
  Some (<[Z.to_nat idx := Z.lor cell (BIT offset)]> bitmap).

Definition bitmap_clear (bitmap : list BitmapCell) (index : Z) : option (list BitmapCell) :=
  let '(idx, offset) := BITMAP_PARSE_INDEX index in
  cell ← bitmap !! Z.to_nat idx;
  Some (<[Z.to_nat idx := Z.land cell (Z.lxor (BIT offset) (Z.ones 64))]> bitmap).

(** ** Bit-level facts *)

(** A cell holds 64 bits. *)
Definition cell_ok (c : BitmapCell) : Prop := 0 ≤ c < 2 ^ 64.

(** The number of bits an array of cells can be indexed by. *)
Definition bitmap_capacity (bitmap : list BitmapCell) : Z :=
  BITMAP_BITS_PER_CELL * Z.of_nat (length bitmap).

Lemma land_1_testbit (c o : Z) : 0 ≤ o → negb (Z.land (Z.shiftr c o) 1 =? 0) = Z.testbit c o.
Proof.
  intros Ho. change 1 with (Z.ones 1). rewrite Z.land_ones; [lia|].
  change (2 ^ 1) with 2. rewrite Zmod_odd -Z.bit0_odd Z.shiftr_spec //.
  rewrite Z.add_0_l. by destruct (Z.testbit c o).
Qed.

Lemma BIT_testbit (o n : Z) : 0 ≤ o < 64 → 0 ≤ n → Z.testbit (BIT o) n = (o =? n).
Proof.
  intros Ho Hn. rewrite /BIT Z.shiftl_1_l /u64 wrap_small.
  - split; [lia|]. apply Z.pow_lt_mono_r; lia.
  - rewrite Z.pow2_bits_eqb //; lia.
Qed.

Lemma lxor_ones_testbit (c n : Z) : 0 ≤ n < 64 →
  Z.testbit (Z.lxor c (Z.ones 64)) n = negb (Z.testbit c n).
Proof.
  intros. rewrite Z.lxor_spec Z.ones_spec_low; [lia|]. by destruct (Z.testbit c n).
Qed.

Lemma bitmap_get_testbit bm i : 0 ≤ i →
  bitmap_get bm i = (λ c, Z.testbit c (i mod 64)) <$> (bm !! Z.to_nat (i / 64)).
Proof.
  intros Hi. rewrite /bitmap_get /BITMAP_PARSE_INDEX /BITMAP_BITS_PER_CELL /=.
  destruct (bm !! Z.to_nat (i / 64)) as [c|] eqn:E; simpl; [|done].
  rewrite land_1_testbit //. apply Z.mod_pos_bound. lia.
Qed.

Lemma bitmap_get_is_Some bm i : 0 ≤ i < bitmap_capacity bm → is_Some (bitmap_get bm i).
Proof.
  rewrite /bitmap_capacity /BITMAP_BITS_PER_CELL => Hi.
  rewrite bitmap_get_testbit; [lia|]. apply fmap_is_Some, list_lookup_Z_Some.
  dlia.
Qed.

(** Two indices share a cell and a bit exactly when they are equal. *)
Lemma bitmap_index_inj i j : 0 ≤ i → 0 ≤ j →
  Z.to_nat (i / 64) = Z.to_nat (j / 64) → i mod 64 = j mod 64 → i = j.
Proof.
  intros Hi Hj Hd Hm.
  assert (i / 64 = j / 64) by (apply Z2Nat.inj; [apply Z.div_pos; lia..|done]).
  rewrite (Z.div_mod i 64) // (Z.div_mod j 64) //. lia.
Qed.

(** [bitmap_set] and [bitmap_clear] both replace one cell; [upd] is the bit they write. *)
Lemma bitmap_get_cell_update bm i j c (c' : Z) (b : bool) :
  0 ≤ i → 0 ≤ j →
  bm !! Z.to_nat (i / 64) = Some c →
  (∀ n, 0 ≤ n < 64 → Z.testbit c' n = if i mod 64 =? n then b else Z.testbit c n) →
  bitmap_get (<[Z.to_nat (i / 64) := c']> bm) j = if i =? j then Some b else bitmap_get bm j.
Proof.
  intros Hi Hj Hc Hc'. rewrite !bitmap_get_testbit //.
  pose proof (Z.mod_pos_bound j 64 ltac:(lia)) as Hjm.
  destruct (decide (Z.to_nat (i / 64) = Z.to_nat (j / 64))) as [Heq|Hne].
  - rewrite -Heq list_lookup_insert_eq; [by eapply lookup_lt_Some, Hc|].
    rewrite Hc /= Hc' //.
    destruct (Z.eqb_spec (i mod 64) (j mod 64)) as [Hm|Hm].
    + rewrite (bitmap_index_inj i j) // Z.eqb_refl //.
    + destruct (Z.eqb_spec i j) as [->|]; naive_solver.
  - rewrite list_lookup_insert_ne //.
    destruct (Z.eqb_spec i j) as [->|]; naive_solver.
Qed.

Lemma bitmap_set_get bm bm' i j :
  0 ≤ i → 0 ≤ j → bitmap_set bm i = Some bm' →
  bitmap_get bm' j = if i =? j then Some true else bitmap_get bm j.
Proof.
  intros Hi Hj. rewrite /bitmap_set /BITMAP_PARSE_INDEX /BITMAP_BITS_PER_CELL /=.
  destruct (bm !! Z.to_nat (i / 64)) as [c|] eqn:E; simpl; [|done]. intros [= <-].
  apply (bitmap_get_cell_update _ _ _ c); try done. intros n Hn.
  rewrite Z.lor_spec BIT_testbit; [apply Z.mod_pos_bound; lia|lia|].
  by destruct (_ =? n), (Z.testbit c n).
Qed.

Lemma bitmap_clear_get bm bm' i j :
  0 ≤ i → 0 ≤ j → bitmap_clear bm i = Some bm' →
  bitmap_get bm' j = if i =? j then Some false else bitmap_get bm j.
Proof.
  intros Hi Hj. rewrite /bitmap_clear /BITMAP_PARSE_INDEX /BITMAP_BITS_PER_CELL /=.
  destruct (bm !! Z.to_nat (i / 64)) as [c|] eqn:E; simpl; [|done]. intros [= <-].
  apply (bitmap_get_cell_update _ _ _ c); try done. intros n Hn.
  rewrite Z.land_spec lxor_ones_testbit // BIT_testbit; [apply Z.mod_pos_bound; lia|lia|].
  by destruct (_ =? n), (Z.testbit c n).
Qed.

Lemma bitmap_set_length bm bm' i : bitmap_set bm i = Some bm' → length bm' = length bm.
Proof.
  rewrite /bitmap_set /=. destruct (_ !! _) eqn:E; simpl; [|done].
  intros [= <-]. by rewrite length_insert.
Qed.

Lemma bitmap_clear_length bm bm' i : bitmap_clear bm i = Some bm' → length bm' = length bm.
Proof.
  rewrite /bitmap_clear /=. destruct (_ !! _) eqn:E; simpl; [|done].
  intros [= <-]. by rewrite length_insert.
Qed.

Lemma bitmap_set_is_Some bm i : is_Some (bitmap_get bm i) → is_Some (bitmap_set bm i).
Proof. rewrite /bitmap_get /bitmap_set /=. destruct (_ !! _); naive_solver. Qed.

Lemma bitmap_clear_is_Some bm i : is_Some (bitmap_get bm i) → is_Some (bitmap_clear bm i).
Proof. rewrite /bitmap_get /bitmap_clear /=. destruct (_ !! _); naive_solver. Qed.

(** A cell stays a 64-bit word under both updates. *)
Lemma cell_ok_testbit c : 0 ≤ c → (∀ n, 64 ≤ n → Z.testbit c n = false) → cell_ok c.
Proof.
  intros H0 Hb. split; [done|].
  destruct (decide (c = 0)) as [->|Hne]; [lia|].
  apply Z.log2_lt_pow2; [lia|]. apply Z.nle_gt. intros Hl.
  specialize (Hb _ Hl). rewrite Z.bit_log2 in Hb; [lia|done].
Qed.

Lemma cell_ok_high c n : cell_ok c → 64 ≤ n → Z.testbit c n = false.
Proof.
  intros [? Hc] Hn. destruct (decide (c = 0)) as [->|]; [by rewrite Z.testbit_0_l|].
  apply Z.bits_above_log2; [done|]. apply Z.log2_lt_pow2; [lia|].
  eapply Z.lt_le_trans; [exact Hc|]. apply Z.pow_le_mono_r; lia.
Qed.

Lemma BIT_ok o : cell_ok (BIT o).
Proof. apply (wrap_range 64). lia. Qed.

Lemma bitmap_set_ok bm bm' i :
  0 ≤ i → Forall cell_ok bm → bitmap_set bm i = Some bm' → Forall cell_ok bm'.
Proof.
  intros Hi Hok. rewrite /bitmap_set /=.
  destruct (_ !! _) as [c|] eqn:E; simpl; [|done]. intros [= <-].
  apply Forall_insert; [done|]. pose proof (Forall_lookup_1 _ _ _ _ Hok E) as Hc.
  apply cell_ok_testbit.
  - apply Z.lor_nonneg. split; [apply Hc|apply BIT_ok].
  - intros n Hn. rewrite Z.lor_spec cell_ok_high // cell_ok_high //. apply BIT_ok.
Qed.

Lemma bitmap_clear_ok bm bm' i :
  0 ≤ i → Forall cell_ok bm → bitmap_clear bm i = Some bm' → Forall cell_ok bm'.
Proof.
  intros Hi Hok. rewrite /bitmap_clear /=.
  destruct (_ !! _) as [c|] eqn:E; simpl; [|done]. intros [= <-].
  apply Forall_insert; [done|]. pose proof (Forall_lookup_1 _ _ _ _ Hok E) as Hc.
  apply cell_ok_testbit.
  - apply Z.land_nonneg. left. apply Hc.
  - intros n Hn. rewrite Z.land_spec cell_ok_high //.
Qed.
