(* ===== verification/Spinlock.v ===== *)
(** * Spinlock: [common/spinlock.c] and [common/rc.c]

    The spinlock and the reference counter every other component uses.  A
    sequential client sees [acquire_spinlock] through a lens on its own state:
    taking a free lock sets it, taking a held lock never returns.  The
    interleaved behaviour of the lock (the unlocked read before the atomic
    test-and-set) is a step relation, over which mutual exclusion is proved. *)

From stdpp Require Import base numbers list.
From S2P Require Import Prelude.

(** ** The lock word *)
Notation SpinLock := bool (only parsing).

Definition init_spinlock : SpinLock := false.

(** [__atomic_test_and_set]: returns the old value and sets the flag. *)
Definition atomic_test_and_set (locked : SpinLock) : bool * SpinLock := (locked, true).

Definition _try_acquire_spinlock (locked : SpinLock) : bool * SpinLock :=
  if locked then (false, locked)
  else let '(old, locked') := atomic_test_and_set locked in (negb old, locked').

Definition _release_spinlock (locked : SpinLock) : SpinLock := false.

(** ** Sequential use, through a lens *)
Record Lens (S A : Type) := mkLens { lget : S → A; lset : A → S → S }.
Arguments mkLens {S A} _ _.
Arguments lget {S A} _ _.
Arguments lset {S A} _ _ _.

(** A computation on a part of the state. *)
Definition zoom {S A X} (L : Lens S A) (m : M A X) : M S X := λ s,
  match m (lget L s) with
  | Ret x v => Ret x (lset L v s)
  | Panic => Panic | Fault => Fault | Hang => Hang | Fuel => Fuel
  end.
Lemma zoom_run {S A X} (L : Lens S A) (m : M A X) s x v : m (lget L s) = Ret x v → zoom L m s = Ret x (lset L v s).
Proof. rewrite /zoom. by intros ->. Qed.
Lemma wp_zoom {S A X} (L : Lens S A) (m : M A X) s x v (Q : X → S → Prop) :
  m (lget L s) = Ret x v → Q x (lset L v s) → wp (zoom L m) Q s.
Proof. intros H ?. by rewrite /wp (zoom_run _ _ _ _ _ H). Qed.

(** The spin loop: with no other thread running, a failed try fails forever. *)
Definition _acquire_spinlock {S} (L : Lens S SpinLock) : M S () :=
  l ← gets (lget L);
  let '(ok, l') := _try_acquire_spinlock l in
  if ok : bool then modify (lset L l') else hang.

Definition release_spinlock {S} (L : Lens S SpinLock) : M S () :=
  l ← gets (lget L); modify (lset L (_release_spinlock l)).

Lemma wp_acquire {S} (L : Lens S SpinLock) Q s :
  lget L s = false → Q () (lset L true s) → wp (_acquire_spinlock L) Q s.
Proof. rewrite /wp /_acquire_spinlock. run_simpl. by intros ->. Qed.

Lemma acquire_run {S} (L : Lens S SpinLock) s :
  _acquire_spinlock L s = if lget L s then Hang else Ret () (lset L true s).
Proof. rewrite /_acquire_spinlock. run_simpl. by destruct (lget L s). Qed.

Lemma release_run {S} (L : Lens S SpinLock) s :
  release_spinlock L s = Ret () (lset L false s).
Proof. done. Qed.

(** Frames of a part of the state and of a lock. *)
Lemma keeps_zoom {S A B X} (P : S → X) (L : Lens S A) (m : M A B) : (∀ v s, P (lset L v s) = P s) → keeps P (zoom L m).
Proof. intros H s b s'. rewrite /zoom. destruct (m (lget L s)); [|done..]. intros [= _ <-]. apply H. Qed.
Lemma keeps_zoom_in {S A B X Y} (P : S → X) (Q : A → Y) (L : Lens S A) (m : M A B) :
  (∀ v s, Q v = Q (lget L s) → P (lset L v s) = P s) → keeps Q m → keeps P (zoom L m).
Proof. intros H Hm s b s'. rewrite /zoom. destruct (m (lget L s)) eqn:E; [|done..]. intros [= _ <-]. apply H. exact (Hm _ _ _ E). Qed.
Lemma keeps_acquire {S X} (P : S → X) (L : Lens S SpinLock) : (∀ v s, P (lset L v s) = P s) → keeps P (_acquire_spinlock L).
Proof. intros H s b s'. rewrite acquire_run. destruct (lget L s); [done|]. intros [= _ <-]. apply H. Qed.
Lemma keeps_release {S X} (P : S → X) (L : Lens S SpinLock) : (∀ v s, P (lset L v s) = P s) → keeps P (release_spinlock L).
Proof. intros H s b s'. rewrite release_run. intros [= _ <-]. apply H. Qed.

(** ** Reference counts *)
Record RefCount := mkRC { count : Z }.
Definition init_rc : RefCount := mkRC 0.
Definition _increment_rc (rc : RefCount) : RefCount := mkRC (i64 (count rc + 1)).
(** Returns whether the count became zero or below. *)
Definition _decrement_rc (rc : RefCount) : bool * RefCount :=
  let r := i64 (count rc - 1) in (r <=? 0, mkRC r).

(** ** Interleaved use: what each thread is doing with one lock *)
Inductive lock_pc := Outside | SawFree | Inside.

#[export] Instance lock_pc_eq_dec : EqDecision lock_pc.
Proof. solve_decision. Defined.

Record lock_sys := mkLockSys { locked_word : SpinLock; pcs : list lock_pc }.

(** One atomic action of one thread.  [try] first reads [lock->locked]
    (non-atomically with what follows), then performs the atomic exchange. *)
Inductive lock_step : lock_sys → lock_sys → Prop :=
| step_read_free l ps t :
    ps !! t = Some Outside → l = false →
    lock_step (mkLockSys l ps) (mkLockSys l (<[t := SawFree]> ps))
| step_read_held l ps t :
    ps !! t = Some Outside → l = true →
    lock_step (mkLockSys l ps) (mkLockSys l ps)
| step_exchange l ps t old l' :
    ps !! t = Some SawFree → atomic_test_and_set l = (old, l') →
    lock_step (mkLockSys l ps)
      (mkLockSys l' (<[t := if old then Outside else Inside]> ps))
| step_release l ps t :
    ps !! t = Some Inside →
    lock_step (mkLockSys l ps) (mkLockSys (_release_spinlock l) (<[t := Outside]> ps)).

(** The threads inside the critical section. *)
Definition holders (s : lock_sys) : list nat :=
  filter (λ t, pcs s !! t = Some Inside) (seq 0 (length (pcs s))).

(** Held exactly when one thread is inside. *)
Definition lock_inv (s : lock_sys) : Prop :=
  if locked_word s
  then ∃ t, pcs s !! t = Some Inside ∧ ∀ t', pcs s !! t' = Some Inside → t' = t
  else ∀ t, pcs s !! t ≠ Some Inside.

Lemma lookup_insert_inside (ps : list lock_pc) t t' x :
  (t < length ps)%nat →
  <[t := x]> ps !! t' = Some Inside ↔ (t = t' ∧ x = Inside) ∨ (t ≠ t' ∧ ps !! t' = Some Inside).
Proof.
  intros Ht. destruct (decide (t = t')) as [<-|Hne].
  - rewrite list_lookup_insert_eq //. naive_solver.
  - rewrite list_lookup_insert_ne //. naive_solver.
Qed.

Lemma lock_step_inv s s' : lock_inv s → lock_step s s' → lock_inv s'.
Proof.
  intros Hinv Hstep. destruct Hstep as [l ps t Ht ->|l ps t Ht ->|l ps t old l' Ht Hx|l ps t Ht].
  - intros t'. specialize (Hinv t'). simpl in *.
    rewrite lookup_insert_inside; [by eapply lookup_lt_Some, Ht|]. naive_solver.
  - done.
  - injection Hx as <- <-. unfold lock_inv in *. destruct l; simpl in *.
    + destruct Hinv as (u & Hu & Huniq). exists u.
      assert (t ≠ u) by (intros ->; congruence). split.
      * rewrite lookup_insert_inside; [by eapply lookup_lt_Some, Ht|]. naive_solver.
      * intros v. rewrite lookup_insert_inside; [by eapply lookup_lt_Some, Ht|]. naive_solver.
    + exists t. split.
      * rewrite lookup_insert_inside; [by eapply lookup_lt_Some, Ht|]. naive_solver.
      * intros v. rewrite lookup_insert_inside; [by eapply lookup_lt_Some, Ht|]. naive_solver.
  - intros v. simpl. rewrite lookup_insert_inside; [by eapply lookup_lt_Some, Ht|].
    unfold lock_inv in *. destruct l; simpl in *; [|naive_solver].
    destruct Hinv as (u & Hu & Huniq). pose proof (Huniq _ Ht).
    intros [?|[? Hv]]; [naive_solver|]. apply Huniq in Hv. congruence.
Qed.

Lemma lock_inv_holders s : lock_inv s → (length (holders s) ≤ 1)%nat.
Proof.
  intros Hinv.
  assert (Hall : ∀ t t', t ∈ holders s → t' ∈ holders s → t = t').
  { intros t t' Ht Ht'. rewrite /holders in Ht Ht'.
    apply list_elem_of_filter in Ht as [Ht _].
    apply list_elem_of_filter in Ht' as [Ht' _]. rewrite /lock_inv in Hinv.
    destruct (locked_word s); [|naive_solver].
    destruct Hinv as (u & _ & Hu). by rewrite (Hu t) // (Hu t'). }
  assert (Hnd : NoDup (holders s)) by (apply NoDup_filter, NoDup_seq).
  destruct (holders s) as [|a [|b l]]; simpl in *; [lia|lia|].
  exfalso. assert (a = b) as <- by (apply Hall; set_solver).
  apply NoDup_cons in Hnd as [Hnd _]. set_solver.
Qed.

(** Start: [n] threads, the lock as [init_spinlock] leaves it. *)
Definition lock_init (n : nat) : lock_sys := mkLockSys init_spinlock (replicate n Outside).

Lemma lock_init_inv n : lock_inv (lock_init n).
Proof. intros t Ht. simpl in Ht. by apply lookup_replicate in Ht as [? _]. Qed.

(** C21: Mutual exclusion.  However the reads, atomic exchanges and releases of
    any number of threads interleave, starting from an initialised lock, at
    most one thread is between its successful [_try_acquire_spinlock] and its
    [_release_spinlock], and the lock word is set exactly while one is. *)
Theorem spinlock_mutual_exclusion n s :
  rtc lock_step (lock_init n) s →
  (length (holders s) ≤ 1)%nat ∧
  (locked_word s = true ↔ ∃ t, pcs s !! t = Some Inside).
Proof.
  intros Hsteps.
  assert (lock_inv s) as Hinv.
  { pose proof (lock_init_inv n) as H0. revert H0.
    induction Hsteps; eauto using lock_step_inv. }
  split; [by apply lock_inv_holders|].
  rewrite /lock_inv in Hinv. destruct (locked_word s); naive_solver.
Qed.

(** Two threads both see the lock free; one wins the exchange. *)
Definition lock_race : lock_sys := mkLockSys true [Inside; Outside].

Lemma spinlock_mutual_exclusion_witness :
  rtc lock_step (lock_init 2) lock_race ∧ (length (holders lock_race) ≤ 1)%nat.
Proof.
  assert (H : rtc lock_step (lock_init 2) lock_race).
  { eapply rtc_l; [by apply (step_read_free false [Outside; Outside] 0)|].
    eapply rtc_l; [by apply (step_read_free false [SawFree; Outside] 1)|].
    eapply rtc_l; [by apply (step_exchange false [SawFree; SawFree] 0 false true)|].
    eapply rtc_l; [by apply (step_exchange true [Inside; SawFree] 1 true true)|].
    apply rtc_refl. }
  split; [exact H|]. exact (proj1 (spinlock_mutual_exclusion 2 lock_race H)).
Defined.
