(* ===== verification/Pidmap.v ===== *)
(** * Pidmap: the process-id allocator of [kernel/pidmap.h]

    A bitmap of used pids, scanned cyclically from the last pid handed out.
    The abstract specification is a set of used pids; the refinement theorems
    say that [get_next_pid] adds a pid that was not in the set and [free_pid]
    removes one. *)

From stdpp Require Import base numbers list gmap sets.
From S2P Require Import Prelude Bitmap Spinlock.

Definition PID_MAX_DEFAULT : Z := 32768.
Definition LOCAL_PID_MAX_DEFAULT : Z := 256.

Record pidmap_t := mkPidmap {
  pid_base : Z;
  pid_namespace_size : Z;
  pid_base_lock : SpinLock;
  nr_free : Z;
  page : list BitmapCell }.

Definition pid_lock_lens : Lens pidmap_t SpinLock :=
  mkLens pid_base_lock
    (λ l p, mkPidmap (pid_base p) (pid_namespace_size p) l (nr_free p) (page p)).

Definition set_page (bm : list BitmapCell) (p : pidmap_t) : pidmap_t :=
  mkPidmap (pid_base p) (pid_namespace_size p) (pid_base_lock p) (nr_free p) bm.
Definition set_nr_free (n : Z) (p : pidmap_t) : pidmap_t :=
  mkPidmap (pid_base p) (pid_namespace_size p) (pid_base_lock p) n (page p).
Definition set_pid_base (b : Z) (p : pidmap_t) : pidmap_t :=
  mkPidmap b (pid_namespace_size p) (pid_base_lock p) (nr_free p) (page p).

(** [kalloc(size/8)] returns memory with some old contents, the argument [mem]
    (one cell per eight bytes); [sizeof(pidmap->page)] is the size of a pointer,
    so [memset] clears the first eight bytes: one cell. *)
Definition init_pidmap (size : Z) (mem : list BitmapCell) : pidmap_t :=
  mkPidmap 0 size init_spinlock (u32 size) (<[0%nat := 0]> mem).

(** The static initialisation used for the global map and the root container:
    the whole array is cleared. *)
Definition init_static_pidmap (base size : Z) (cells : nat) : pidmap_t :=
  mkPidmap base size init_spinlock (u32 size) (replicate cells 0).

Definition test_and_set_pid (offset : Z) (bitmap : list BitmapCell) :
    option (bool * list BitmapCell) :=
  ret ← bitmap_get bitmap offset;
  if ret : bool then Some (ret, bitmap)
  else bm ← bitmap_set bitmap offset; Some (ret, bm).

(** The scanning loop; [None] is a read past the array or a lack of fuel. *)
Fixpoint find_next_zero_bit_loop (fuel : nat) (bitmap : list BitmapCell) (size offset : Z) :
    option Z :=
  if offset <? size then
    match fuel with
    | O => None
    | S fuel =>
        b ← bitmap_get bitmap offset;
        if b : bool then find_next_zero_bit_loop fuel bitmap size (offset + 1)
        else Some offset
    end
  else Some offset.

Definition find_next_zero_bit (bitmap : list BitmapCell) (size offset : Z) : option Z :=
  find_next_zero_bit_loop (Z.to_nat (size - offset)) bitmap size offset.

Definition get_next_pid : M pidmap_t Z :=
  _acquire_spinlock pid_lock_lens;;
  p ← get;
  let pid := pid_base p + 1 in
  let offset := Z.land pid (pid_namespace_size p - 1) in
  if nr_free p =? 0 then release_spinlock pid_lock_lens;; mret (-1)
  else
    offset ← of_opt (find_next_zero_bit (page p) (pid_namespace_size p) offset);
    offset ← (if offset =? pid_namespace_size p
              then of_opt (find_next_zero_bit (page p) (offset - 1) 0)
              else mret offset);
    if offset =? pid_namespace_size p then release_spinlock pid_lock_lens;; mret (-1)
    else
      r ← of_opt (test_and_set_pid offset (page p));
      modify (set_page r.2);;
      if r.1 : bool then release_spinlock pid_lock_lens;; mret (-1)
      else
        modify (λ p, set_nr_free (u32 (nr_free p - 1)) p);;
        modify (set_pid_base offset);;
        release_spinlock pid_lock_lens;; mret offset.

Definition free_pid (pid : Z) : M pidmap_t () :=
  _acquire_spinlock pid_lock_lens;;
  p ← get;
  let offset := Z.land pid (pid_namespace_size p - 1) in
  assert_ (pid <? pid_namespace_size p);;
  modify (λ p, set_nr_free (u32 (nr_free p + 1)) p);;
  bm ← of_opt (bitmap_clear (page p) offset);
  modify (set_page bm);;
  release_spinlock pid_lock_lens.

(** ** The set of free pids *)
Definition free_pids (bm : list BitmapCell) (size : Z) : gset Z :=
  filter (λ i, bitmap_get bm i = Some false) (list_to_set (seqZ 0 size)).

Definition pidmap_ok (p : pidmap_t) : Prop :=
  (∃ k, 0 ≤ k < 32 ∧ pid_namespace_size p = 2 ^ k) ∧
  pid_namespace_size p ≤ bitmap_capacity (page p) ∧
  pid_base_lock p = false ∧
  nr_free p = Z.of_nat (size (free_pids (page p) (pid_namespace_size p))) ∧
  -1 ≤ pid_base p < pid_namespace_size p.

Lemma elem_of_free_pids bm n i :
  i ∈ free_pids bm n ↔ 0 ≤ i < n ∧ bitmap_get bm i = Some false.
Proof.
  rewrite /free_pids elem_of_filter elem_of_list_to_set elem_of_seqZ. naive_solver lia.
Qed.

Lemma free_pids_set bm bm' n i :
  0 ≤ i → bitmap_set bm i = Some bm' → free_pids bm' n = free_pids bm n ∖ {[i]}.
Proof.
  intros Hi Hset. apply set_eq => j.
  rewrite elem_of_difference elem_of_singleton !elem_of_free_pids.
  split.
  - intros [Hj Hg]. rewrite (bitmap_set_get bm bm' i j) // in Hg; [lia|].
    destruct (Z.eqb_spec i j); naive_solver.
  - intros [[Hj Hg] Hne]. split; [done|].
    rewrite (bitmap_set_get bm bm' i j) //; [lia|]. by destruct (Z.eqb_spec i j); subst.
Qed.

Lemma free_pids_clear bm bm' n i :
  0 ≤ i < n → bitmap_clear bm i = Some bm' → free_pids bm' n = {[i]} ∪ free_pids bm n.
Proof.
  intros Hi Hclr. apply set_eq => j.
  rewrite elem_of_union elem_of_singleton !elem_of_free_pids.
  split.
  - intros [Hj Hg]. rewrite (bitmap_clear_get bm bm' i j) // in Hg; [lia..|].
    destruct (Z.eqb_spec i j); naive_solver.
  - intros [->|[Hj Hg]].
    + split; [done|]. rewrite (bitmap_clear_get bm bm' i i) ?Z.eqb_refl //; lia.
    + split; [done|]. rewrite (bitmap_clear_get bm bm' i j) //; [lia..|].
      by destruct (Z.eqb_spec i j).
Qed.

Lemma size_free_pids_le bm n : 0 ≤ n → Z.of_nat (size (free_pids bm n)) ≤ n.
Proof.
  intros Hn.
  assert (size (free_pids bm n) ≤ size (list_to_set (C:=gset Z) (seqZ 0 n)))%nat as Hle.
  { apply subseteq_size. intros j. rewrite elem_of_filter. naive_solver. }
  rewrite size_list_to_set in Hle; [apply NoDup_seqZ|]. rewrite length_seqZ in Hle. lia.
Qed.

(** ** The scan *)
Lemma find_next_zero_bit_loop_spec fuel bm n o :
  n ≤ bitmap_capacity bm → 0 ≤ o ≤ n → (Z.to_nat (n - o) ≤ fuel)%nat →
  ∃ r, find_next_zero_bit_loop fuel bm n o = Some r ∧ o ≤ r ≤ n ∧
       (∀ j, o ≤ j < r → bitmap_get bm j = Some true) ∧
       (r < n → bitmap_get bm r = Some false).
Proof.
  intros Hcap. revert o. induction fuel as [|fuel IH]; intros o Ho Hf; simpl.
  - assert (o = n) as -> by lia. rewrite Z.ltb_irrefl. exists n. naive_solver lia.
  - destruct (Z.ltb_spec o n) as [Hlt|Hge].
    + destruct (bitmap_get_is_Some bm o) as [b Hb]; [lia|]. rewrite Hb /=.
      destruct b.
      * destruct (IH (o + 1)) as (r & Hr & Hb1 & Hset & Hz); [lia..|].
        exists r. split_and!; try done; try lia.
        intros j Hj. destruct (decide (j = o)) as [->|]; [done|]. apply Hset. lia.
      * exists o. naive_solver lia.
    + assert (o = n) as -> by lia. exists n. naive_solver lia.
Qed.

Lemma find_next_zero_bit_spec bm n o :
  n ≤ bitmap_capacity bm → 0 ≤ o ≤ n →
  ∃ r, find_next_zero_bit bm n o = Some r ∧ o ≤ r ≤ n ∧
       (∀ j, o ≤ j < r → bitmap_get bm j = Some true) ∧
       (r < n → bitmap_get bm r = Some false).
Proof. intros. by apply find_next_zero_bit_loop_spec. Qed.

(** The cyclic order of the scan: pids from the one after [pid_base] up to
    the end of the namespace, then from zero. *)
Definition scan_start (p : pidmap_t) : Z := (pid_base p + 1) mod pid_namespace_size p.
Definition scan_rank (p : pidmap_t) (i : Z) : Z :=
  if scan_start p <=? i then i - scan_start p else i - scan_start p + pid_namespace_size p.

Lemma land_size_mod k x : 0 ≤ k → Z.land x (2 ^ k - 1) = x mod 2 ^ k.
Proof. intros. rewrite -Z.land_ones //. f_equal. rewrite Z.ones_equiv. lia. Qed.

(** What [get_next_pid] finds when some pid is free: the first free one in scan order. *)
Lemma scan_finds_first p :
  pidmap_ok p → nr_free p ≠ 0 →
  ∃ r0 r, find_next_zero_bit (page p) (pid_namespace_size p) (scan_start p) = Some r0 ∧
    (if r0 =? pid_namespace_size p
     then find_next_zero_bit (page p) (r0 - 1) 0 else Some r0) = Some r ∧
    r ∈ free_pids (page p) (pid_namespace_size p) ∧
    ∀ i, i ∈ free_pids (page p) (pid_namespace_size p) → scan_rank p r ≤ scan_rank p i.
Proof.
  intros ((k & Hk & Hsz) & Hcap & _ & Hfree & Hbase) Hnz.
  set (n := pid_namespace_size p) in *.
  assert (Hn : 1 ≤ n) by (rewrite Hsz; lia).
  pose proof (Z.mod_pos_bound (pid_base p + 1) n ltac:(lia)) as Hst.
  change ((pid_base p + 1) mod n) with (scan_start p) in Hst.
  destruct (find_next_zero_bit_spec (page p) n (scan_start p)) as (r0 & Hr0 & Hb0 & Hset0 & Hz0);
    [lia..|].
  destruct (Z.eqb_spec r0 n) as [->|Hne].
  - destruct (find_next_zero_bit_spec (page p) (n - 1) 0) as (r & Hr & Hb & Hset & Hz); [lia..|].
    assert (Hex : ∃ j, j ∈ free_pids (page p) n).
    { apply set_choose_L. intros He. rewrite He size_empty in Hfree. lia. }
    destruct Hex as (j & [Hj Hgj]%elem_of_free_pids).
    assert (Hrf : r ∈ free_pids (page p) n).
    { apply elem_of_free_pids. split; [lia|].
      destruct (decide (r < n - 1)) as [|Hge]; [by apply Hz|].
      exfalso. assert (r = n - 1) as -> by lia.
      destruct (decide (scan_start p ≤ j)); [rewrite Hset0 in Hgj; [lia|done]|].
      rewrite Hset in Hgj; [lia|done]. }
    exists n, r. rewrite Z.eqb_refl. split_and!; try done.
    intros i [Hi Hgi]%elem_of_free_pids. apply elem_of_free_pids in Hrf as [Hrr Hgr].
    assert (r < scan_start p).
    { apply Z.nle_gt. intros ?. rewrite Hset0 in Hgr; [lia|done]. }
    assert (i < scan_start p).
    { apply Z.nle_gt. intros ?. rewrite Hset0 in Hgi; [lia|done]. }
    assert (r ≤ i).
    { apply Z.nlt_ge. intros ?. rewrite Hset in Hgi; [lia|done]. }
    rewrite /scan_rank. destruct (Z.leb_spec (scan_start p) r), (Z.leb_spec (scan_start p) i); lia.
  - exists r0, r0. rewrite (proj2 (Z.eqb_neq r0 n)) //. split_and!; try done.
    + apply elem_of_free_pids. split; [lia|]. apply Hz0. lia.
    + intros i [Hi Hgi]%elem_of_free_pids. rewrite /scan_rank. fold n.
      destruct (Z.leb_spec (scan_start p) r0); [|lia].
      destruct (Z.leb_spec (scan_start p) i); [|lia].
      apply Z.sub_le_mono_r, Z.nlt_ge. intros ?. rewrite Hset0 in Hgi; [lia|done].
Qed.

(** ** The operations *)
Lemma test_and_set_free bm i :
  0 ≤ i → bitmap_get bm i = Some false →
  ∃ bm', test_and_set_pid i bm = Some (false, bm') ∧ bitmap_set bm i = Some bm'.
Proof.
  intros Hi Hg. rewrite /test_and_set_pid Hg /=.
  destruct (bitmap_set_is_Some bm i) as [bm' E]; [by rewrite Hg|]. rewrite E /=. eauto.
Qed.

Lemma u32_nr_free n x : 0 ≤ n < 2 ^ 32 → 0 ≤ x ≤ n → u32 x = x.
Proof. intros. apply wrap_small. lia. Qed.

Lemma pidmap_size_bounds p : pidmap_ok p → 1 ≤ pid_namespace_size p < 2 ^ 32.
Proof.
  intros ((k & Hk & ->) & _). split; [lia|]. apply Z.pow_lt_mono_r; lia.
Qed.

Lemma get_next_pid_exhausted_run p :
  pidmap_ok p → nr_free p = 0 → get_next_pid p = Ret (-1) p.
Proof.
  intros (_ & _ & Hl & _) Hz. rewrite /get_next_pid. run_simpl.
  rewrite acquire_run /= Hl Hz /= /release_spinlock. run_simpl. destruct p; simpl in *. by subst.
Qed.

Lemma get_next_pid_run p :
  pidmap_ok p → nr_free p ≠ 0 →
  ∃ r bm',
    get_next_pid p =
      Ret r (mkPidmap r (pid_namespace_size p) false (nr_free p - 1) bm') ∧
    r ∈ free_pids (page p) (pid_namespace_size p) ∧
    (∀ i, i ∈ free_pids (page p) (pid_namespace_size p) → scan_rank p r ≤ scan_rank p i) ∧
    bitmap_set (page p) r = Some bm' ∧
    pidmap_ok (mkPidmap r (pid_namespace_size p) false (nr_free p - 1) bm').
Proof.
  intros Hok Hnz. pose proof (pidmap_size_bounds p Hok) as Hn.
  destruct (scan_finds_first p Hok Hnz) as (r0 & r & Hr0 & Hr & Hin & Hmin).
  destruct Hok as ((k & Hk & Hsz) & Hcap & Hl & Hfree & Hbase).
  pose proof Hin as [Hrr Hg]%elem_of_free_pids.
  destruct (test_and_set_free (page p) r) as (bm' & Hts & Hset); [lia|done|].
  pose proof (size_free_pids_le (page p) (pid_namespace_size p) ltac:(lia)) as Hle.
  exists r, bm'. split; [|split_and!; try done].
  - rewrite /get_next_pid. run_simpl. rewrite acquire_run /= Hl /=.
    rewrite (proj2 (Z.eqb_neq _ _) Hnz) Hsz land_size_mod -?Hsz; [lia|].
    change ((pid_base p + 1) mod pid_namespace_size p) with (scan_start p). rewrite Hr0 /=.
    assert (Hlt : (r =? pid_namespace_size p) = false) by (apply Z.eqb_neq; lia).
    assert (Hu : u32 (nr_free p - 1) = nr_free p - 1)
      by (apply (u32_nr_free (pid_namespace_size p)); lia).
    destruct (r0 =? pid_namespace_size p); [rewrite Hr|injection Hr as ->];
      by rewrite /= Hlt Hts /= Hu.
  - rewrite /pidmap_ok /=. split_and!; try done; try lia; [by eauto|..].
    + rewrite /bitmap_capacity (bitmap_set_length _ _ _ Hset). apply Hcap.
    + rewrite (free_pids_set _ _ _ _ (proj1 Hrr) Hset) Hfree.
      rewrite size_difference; [set_solver|]. rewrite size_singleton.
      assert (size (free_pids (page p) (pid_namespace_size p)) ≠ 0%nat); [|lia].
      intros ?%size_empty_inv. set_solver.
Qed.

Lemma free_pid_run p pid :
  pidmap_ok p → 0 ≤ pid < pid_namespace_size p → bitmap_get (page p) pid = Some true →
  ∃ bm',
    free_pid pid p =
      Ret () (mkPidmap (pid_base p) (pid_namespace_size p) false (nr_free p + 1) bm') ∧
    bitmap_clear (page p) pid = Some bm' ∧
    pidmap_ok (mkPidmap (pid_base p) (pid_namespace_size p) false (nr_free p + 1) bm').
Proof.
  intros Hok Hpid Hg. pose proof (pidmap_size_bounds p Hok) as Hn.
  destruct Hok as ((k & Hk & Hsz) & Hcap & Hl & Hfree & Hbase).
  destruct (bitmap_clear_is_Some (page p) pid) as [bm' Hclr]; [by rewrite Hg|].
  pose proof (free_pids_clear _ _ _ _ Hpid Hclr) as Hset.
  assert (Hsize : size (free_pids bm' (pid_namespace_size p))
                  = S (size (free_pids (page p) (pid_namespace_size p)))).
  { rewrite Hset size_union ?size_singleton; [|lia].
    apply disjoint_singleton_l. rewrite elem_of_free_pids. naive_solver. }
  pose proof (size_free_pids_le bm' (pid_namespace_size p) ltac:(lia)) as Hle.
  exists bm'. split_and!; [|done|].
  - rewrite /free_pid. run_simpl. rewrite acquire_run /= Hl /=.
    rewrite (proj2 (Z.ltb_lt _ _)) /=; [lia|].
    rewrite Hsz land_size_mod -?Hsz; [lia|]. rewrite Z.mod_small // Hclr /=.
    by rewrite (u32_nr_free (pid_namespace_size p)); [lia..|].
  - rewrite /pidmap_ok /=. split_and!; try done; try lia; [by eauto|].
    rewrite /bitmap_capacity (bitmap_clear_length _ _ _ Hclr). apply Hcap.
Qed.

(** ** The abstract allocator: a set of pids in use *)
Inductive pid_op := PGet | PFree (pid : Z).

Definition run_pid_op (op : pid_op) : M pidmap_t Z :=
  match op with
  | PGet => get_next_pid
  | PFree pid => free_pid pid;; mret 0
  end.

Definition all_pids (n : Z) : gset Z := list_to_set (seqZ 0 n).
Definition used_pids (p : pidmap_t) : gset Z :=
  all_pids (pid_namespace_size p) ∖ free_pids (page p) (pid_namespace_size p).

Inductive pid_spec (n : Z) (U : gset Z) : pid_op → Z → gset Z → Prop :=
| spec_get r : r ∈ all_pids n → r ∉ U → pid_spec n U PGet r ({[r]} ∪ U)
| spec_get_none : U = all_pids n → pid_spec n U PGet (-1) U
| spec_free pid : pid ∈ U → pid_spec n U (PFree pid) 0 (U ∖ {[pid]}).

Lemma elem_of_all_pids n i : i ∈ all_pids n ↔ 0 ≤ i < n.
Proof. rewrite /all_pids elem_of_list_to_set elem_of_seqZ. lia. Qed.

Lemma free_pids_subseteq bm n : free_pids bm n ⊆ all_pids n.
Proof. intros i [Hi _]%elem_of_free_pids. by apply elem_of_all_pids. Qed.

Lemma elem_of_used_pids p i :
  pidmap_ok p →
  i ∈ used_pids p ↔ 0 ≤ i < pid_namespace_size p ∧ bitmap_get (page p) i = Some true.
Proof.
  intros (_ & Hcap & _). rewrite /used_pids elem_of_difference elem_of_all_pids elem_of_free_pids.
  split; [|naive_solver]. intros [Hi Hn]. split; [done|].
  destruct (bitmap_get_is_Some (page p) i) as [[] Hb]; naive_solver lia.
Qed.

Lemma pidmap_step_refines p op :
  pidmap_ok p → (∀ pid, op = PFree pid → pid ∈ used_pids p) →
  ∃ r p', run_pid_op op p = Ret r p' ∧ pidmap_ok p' ∧
          pid_namespace_size p' = pid_namespace_size p ∧
          pid_spec (pid_namespace_size p) (used_pids p) op r (used_pids p').
Proof.
  intros Hok Hop. destruct op as [|pid]; simpl.
  - destruct (decide (nr_free p = 0)) as [Hz|Hnz].
    + exists (-1), p. rewrite get_next_pid_exhausted_run //. split_and!; try done.
      constructor. rewrite /used_pids. destruct Hok as (_ & _ & _ & Hf & _).
      assert (free_pids (page p) (pid_namespace_size p) = ∅) as ->; [|set_solver].
      apply leibniz_equiv, size_empty_iff. lia.
    + destruct (get_next_pid_run p Hok Hnz) as (r & bm' & Hrun & Hin & _ & Hset & Hok').
      eexists r, _. split_and!; [exact Hrun|done|done|].
      pose proof (free_pids_subseteq _ _ _ Hin) as Hall.
      apply elem_of_free_pids in Hin as Hr. rewrite /used_pids /= (free_pids_set _ _ _ _ _ Hset); [lia|].
      replace (_ ∖ (_ ∖ {[r]})) with
        ({[r]} ∪ (all_pids (pid_namespace_size p) ∖ free_pids (page p) (pid_namespace_size p))).
      * constructor; [done|]. set_solver.
      * apply set_eq => x. destruct (decide (x = r)); set_solver.
  - specialize (Hop pid eq_refl). pose proof Hop as [Hp Hb]%elem_of_used_pids; [|done].
    destruct (free_pid_run p pid Hok Hp Hb) as (bm' & Hrun & Hclr & Hok').
    eexists 0, _. split_and!; [by rewrite /= (bind_run _ _ _ _ _ Hrun)|done|done|].
    rewrite {2}/used_pids /= (free_pids_clear _ _ _ _ Hp Hclr).
    replace (all_pids _ ∖ ({[pid]} ∪ _)) with (used_pids p ∖ {[pid]}); [by constructor|].
    rewrite /used_pids. set_solver.
Qed.

(** C16: The pid bitmap refines a set of used pids: from a well-formed map,
    [get_next_pid] and [free_pid] (of a pid in use) return without fault,
    panic or deadlock, keep the map well formed, and change the set of used
    pids as the abstract allocator does: a new pid that was not in use (or -1
    exactly when all are), or the removal of the pid freed. *)
Theorem pidmap_refines p op :
  pidmap_ok p → (∀ pid, op = PFree pid → pid ∈ used_pids p) →
  ∃ r p', run_pid_op op p = Ret r p' ∧ pidmap_ok p' ∧
          pid_namespace_size p' = pid_namespace_size p ∧
          pid_spec (pid_namespace_size p) (used_pids p) op r (used_pids p').
Proof. apply pidmap_step_refines. Qed.

(** [get_next_pid] returns the first free pid in cyclic order after the
    last pid it returned, remembers it as the new base, and takes one off the
    free count. *)
Theorem get_next_pid_cyclic_first p :
  pidmap_ok p → nr_free p ≠ 0 →
  ∃ r p', get_next_pid p = Ret r p' ∧
    bitmap_get (page p) r = Some false ∧ bitmap_get (page p') r = Some true ∧
    (∀ i, 0 ≤ i < pid_namespace_size p → bitmap_get (page p) i = Some false →
          scan_rank p r ≤ scan_rank p i) ∧
    pid_base p' = r ∧ nr_free p' = nr_free p - 1.
Proof.
  intros Hok Hnz.
  destruct (get_next_pid_run p Hok Hnz) as (r & bm' & Hrun & Hin & Hmin & Hset & _).
  apply elem_of_free_pids in Hin as [Hr Hg].
  do 2 eexists. split; [exact Hrun|]. split_and!; try done.
  - simpl. rewrite (bitmap_set_get _ _ _ _ _ _ Hset) ?Z.eqb_refl //; lia.
  - intros i Hi Hi'. apply Hmin, elem_of_free_pids. done.
Qed.

(** A map made by [init_pidmap] has only its first 64 pids cleared: every
    later bit keeps whatever the allocated memory held, although the free
    count claims the whole namespace. *)
Theorem init_pidmap_clears_one_cell n mem i :
  (∃ c rest, mem = c :: rest) → 0 ≤ i →
  nr_free (init_pidmap n mem) = u32 n ∧
  bitmap_get (page (init_pidmap n mem)) i =
    if i <? 64 then Some false else bitmap_get mem i.
Proof.
  intros (c & rest & ->) Hi. split; [done|].
  rewrite !bitmap_get_testbit //=.
  destruct (Z.ltb_spec i 64) as [Hlt|Hge].
  - rewrite Z.div_small //= Z.testbit_0_l //.
  - assert (1 ≤ i / 64) by dlia. destruct (Z.to_nat (i / 64)) eqn:E; [lia|done].
Qed.

(** *** Witnesses *)
Definition pids4 : pidmap_t := init_static_pidmap (-1) 4 1.

Lemma pids4_ok : pidmap_ok pids4.
Proof.
  split_and!; [by exists 2|done|done|by vm_compute|done|done].
Qed.

Lemma pidmap_refines_witness : ∃ r p', run_pid_op PGet pids4 = Ret r p' ∧ pidmap_ok p'.
Proof.
  destruct (pidmap_refines pids4 PGet pids4_ok) as (r & p' & H1 & H2 & _); [done|]. eauto.
Defined.

Lemma get_next_pid_cyclic_first_witness :
  ∃ r p', get_next_pid pids4 = Ret r p' ∧ nr_free p' = 3.
Proof.
  destruct (get_next_pid_cyclic_first pids4 pids4_ok) as (r & p' & H1 & _ & _ & _ & _ & H2);
    [by vm_compute|]. eauto.
Defined.

(** A recycled page full of ones: pid 64 looks used in a fresh namespace. *)
Lemma init_pidmap_clears_one_cell_witness :
  bitmap_get (page (init_pidmap LOCAL_PID_MAX_DEFAULT (replicate 4 (2 ^ 64 - 1)))) 64 = Some true.
Proof.
  exact (proj2 (init_pidmap_clears_one_cell LOCAL_PID_MAX_DEFAULT (replicate 4 (2 ^ 64 - 1)) 64
    (ex_intro _ _ (ex_intro _ _ eq_refl)) ltac:(lia))).
Defined.
