(* ===== verification/Lists.v ===== *)
(** * Lists: [common/list.c] and [common/list.h]

    The intrusive circular doubly linked list, the locked FIFO built on it and
    the compare-and-swap stack the page allocator uses.  Nodes live in a heap
    from addresses to nodes; reading or writing an address the heap does not
    hold is a fault, and address 0 is [NULL].

    The representation theorems relate the pointer code to lists of addresses:
    [ring h (x :: l)] says that following [next] from [x] visits [l] and comes
    back to [x], and that [prev] is its inverse. *)

From stdpp Require Import base numbers list gmap.
From S2P Require Import Prelude Spinlock.

Definition NULL : Z := 0.

Record ListNode := mkNode { prev : Z; next : Z }.
Notation heap := (gmap Z ListNode).

(** ** Field access *)
Definition load_node (p : Z) : M heap ListNode := h ← get; of_opt (h !! p).
Definition get_next (p : Z) : M heap Z := n ← load_node p; mret (next n).
Definition get_prev (p : Z) : M heap Z := n ← load_node p; mret (prev n).
Definition set_next (p v : Z) : M heap () :=
  n ← load_node p; modify (<[p := mkNode (prev n) v]>).
Definition set_prev (p v : Z) : M heap () :=
  n ← load_node p; modify (<[p := mkNode v (next n)]>).

(** ** The list operations *)
Definition init_list_node (node : Z) : M heap () :=
  set_prev node node;; set_next node node.

Definition _merge_list (node1 node2 : Z) : M heap Z :=
  if node1 =? NULL then mret node2
  else if node2 =? NULL then mret node1
  else
    node3 ← get_next node1;
    node4 ← get_prev node2;
    set_next node1 node2;;
    set_prev node2 node1;;
    set_next node4 node3;;
    set_prev node3 node4;;
    mret node1.

Definition _insert_into_list (list node : Z) : M heap Z :=
  init_list_node node;; _merge_list list node.

Definition _detach_from_list (node : Z) : M heap Z :=
  p ← get_prev node;
  (p' ← get_prev node; n' ← get_next node; set_next p' n');;
  (n' ← get_next node; p' ← get_prev node; set_prev n' p');;
  init_list_node node;;
  if p =? node then mret NULL else mret p.

Definition _empty_list (list : Z) : M heap bool :=
  n ← get_next list; mret (n =? list).

(** [_for_in_list(valptr, list)]: the values [valptr] takes, in order. *)
Fixpoint _for_in_list_loop (fuel : nat) (flag valptr : Z) : M heap (list Z) :=
  if valptr =? NULL then mret []
  else match fuel with
       | O => nofuel
       | S fuel =>
           nxt ← (if valptr =? flag then mret NULL else get_next valptr);
           rest ← _for_in_list_loop fuel flag nxt;
           mret (valptr :: rest)
       end.

Definition _for_in_list (fuel : nat) (flag : Z) : M heap (list Z) :=
  v ← get_next flag; _for_in_list_loop fuel flag v.

(** ** Shape of a ring, over the two link functions *)
Definition next_of (h : heap) (x : Z) : option Z := next <$> h !! x.
Definition prev_of (h : heap) (x : Z) : option Z := prev <$> h !! x.

Definition link (h : heap) (x y : Z) : Prop := next_of h x = Some y ∧ prev_of h y = Some x.

(** Links inside the list [x :: l]. *)
Fixpoint seg (h : heap) (x : Z) (l : list Z) : Prop :=
  match l with
  | [] => True
  | y :: l' => link h x y ∧ seg h y l'
  end.

Fixpoint plast (x : Z) (l : list Z) : Z :=
  match l with [] => x | y :: l' => plast y l' end.
Definition pfirst (l : list Z) (y : Z) : Z := default y (head l).

Definition ring (h : heap) (l : list Z) : Prop :=
  match l with
  | [] => False
  | x :: l' => NoDup (x :: l') ∧ NULL ∉ x :: l' ∧ seg h x l' ∧ link h (plast x l') x
  end.

Lemma plast_cons x y l : plast x (y :: l) = plast y l.
Proof. done. Qed.

Lemma plast_app x l y l' : plast x (l ++ y :: l') = plast y l'.
Proof.
  revert x. induction l as [|z l IH]; intros x; simpl; [done|]. by rewrite IH.
Qed.

Lemma plast_elem x l : plast x l ∈ x :: l.
Proof.
  revert x. induction l as [|y l IH]; intros x; [by apply list_elem_of_here|].
  rewrite plast_cons. by apply list_elem_of_further.
Qed.

Lemma pfirst_elem l y : pfirst l y ∈ l ++ [y].
Proof. destruct l; set_solver. Qed.

Lemma seg_app h x l y l' :
  seg h x (l ++ y :: l') ↔ seg h x l ∧ link h (plast x l) y ∧ seg h y l'.
Proof.
  revert x. induction l as [|z l IH]; intros x; simpl; [naive_solver|].
  rewrite IH. naive_solver.
Qed.

Lemma seg_frame h h' x l :
  (∀ a, a ∈ x :: l → a ≠ plast x l → next_of h' a = next_of h a) →
  (∀ a, a ∈ l → prev_of h' a = prev_of h a) →
  NoDup (x :: l) → seg h x l → seg h' x l.
Proof.
  revert x. induction l as [|y l IH]; intros x Hn Hp Hnd Hs; simpl in *; [done|].
  destruct Hs as [[Hl1 Hl2] Hs].
  apply NoDup_cons in Hnd as [Hx Hnd]. split.
  - split; [|rewrite Hp //; set_solver]. rewrite Hn //; [set_solver|].
    intros Heq. apply Hx. rewrite Heq. apply plast_elem.
  - apply IH; try done.
    + intros a Ha Hne. apply Hn; [set_solver|done].
    + intros a Ha. apply Hp. set_solver.
Qed.

Lemma ring_next h x l : ring h (x :: l) → next_of h x = Some (pfirst l x).
Proof. intros (_ & _ & Hs & Hl). destruct l; simpl in *; [apply Hl|apply Hs]. Qed.

Lemma ring_prev h x l : ring h (x :: l) → prev_of h x = Some (plast x l).
Proof. intros (_ & _ & _ & Hl). apply Hl. Qed.

Lemma ring_rotate h l l' : l ≠ [] → ring h (l ++ l') → ring h (l' ++ l).
Proof.
  destruct l as [|x l]; [done|]. intros _. simpl.
  destruct l' as [|y l']; simpl; [by rewrite app_nil_r|].
  intros (Hnd & H0 & Hs & Hl).
  apply seg_app in Hs as (Hs1 & Hm & Hs2). rewrite plast_app in Hl. split_and!.
  - change (NoDup ((y :: l') ++ x :: l)).
    rewrite (Permutation_app_comm (y :: l') (x :: l)). exact Hnd.
  - set_solver.
  - by apply seg_app.
  - by rewrite plast_app.
Qed.

Lemma ring_length h l : ring h l → (1 ≤ length l)%nat.
Proof. destruct l; simpl; [done|lia]. Qed.

Lemma ring_in_heap h l x : ring h l → x ∈ l → is_Some (h !! x).
Proof.
  intros Hr Hx. apply list_elem_of_split in Hx as (l1 & l2 & ->).
  assert (Hr' : ring h ((x :: l2) ++ l1)).
  { destruct l1 as [|y l1]; [by rewrite app_nil_r|]. by apply ring_rotate. }
  simpl in Hr'. apply ring_prev in Hr'. rewrite /prev_of in Hr'.
  destruct (h !! x); [eauto|done].
Qed.

(** ** Effect of the field writes *)
Definition hset_next (p v : Z) (h : heap) : heap := alter (λ n, mkNode (prev n) v) p h.
Definition hset_prev (p v : Z) (h : heap) : heap := alter (λ n, mkNode v (next n)) p h.

Lemma set_next_run p v h : is_Some (h !! p) → set_next p v h = Ret () (hset_next p v h).
Proof.
  intros [n Hn]. rewrite /set_next /load_node. run_simpl. rewrite Hn /=. f_equal.
  apply map_eq => i. rewrite lookup_insert lookup_alter. case_decide; subst; by rewrite ?Hn.
Qed.

Lemma set_prev_run p v h : is_Some (h !! p) → set_prev p v h = Ret () (hset_prev p v h).
Proof.
  intros [n Hn]. rewrite /set_prev /load_node. run_simpl. rewrite Hn /=. f_equal.
  apply map_eq => i. rewrite lookup_insert lookup_alter. case_decide; subst; by rewrite ?Hn.
Qed.

Lemma get_next_run p h v : next_of h p = Some v → get_next p h = Ret v h.
Proof.
  rewrite /next_of /get_next /load_node. run_simpl. destruct (h !! p); naive_solver.
Qed.

Lemma get_prev_run p h v : prev_of h p = Some v → get_prev p h = Ret v h.
Proof.
  rewrite /prev_of /get_prev /load_node. run_simpl. destruct (h !! p); naive_solver.
Qed.

Lemma hset_next_is_Some p v h a : is_Some (hset_next p v h !! a) ↔ is_Some (h !! a).
Proof. rewrite /hset_next lookup_alter. case_decide; subst; by rewrite ?fmap_is_Some. Qed.
Lemma hset_prev_is_Some p v h a : is_Some (hset_prev p v h !! a) ↔ is_Some (h !! a).
Proof. rewrite /hset_prev lookup_alter. case_decide; subst; by rewrite ?fmap_is_Some. Qed.

Lemma next_of_hset_next p v h a : is_Some (h !! p) →
  next_of (hset_next p v h) a = if decide (a = p) then Some v else next_of h a.
Proof.
  intros [n Hn]. rewrite /next_of /hset_next lookup_alter.
  repeat case_decide; subst; try done. by rewrite Hn.
Qed.
Lemma prev_of_hset_next p v h a : prev_of (hset_next p v h) a = prev_of h a.
Proof. rewrite /prev_of /hset_next lookup_alter. case_decide; subst; [|done]. by destruct (h !! a). Qed.
Lemma next_of_hset_prev p v h a : next_of (hset_prev p v h) a = next_of h a.
Proof. rewrite /next_of /hset_prev lookup_alter. case_decide; subst; [|done]. by destruct (h !! a). Qed.
Lemma prev_of_hset_prev p v h a : is_Some (h !! p) →
  prev_of (hset_prev p v h) a = if decide (a = p) then Some v else prev_of h a.
Proof.
  intros [n Hn]. rewrite /prev_of /hset_prev lookup_alter.
  repeat case_decide; subst; try done. by rewrite Hn.
Qed.
Lemma hset_next_frame p v h a : a ≠ p → hset_next p v h !! a = h !! a.
Proof. intros ?. rewrite /hset_next lookup_alter. case_decide; congruence. Qed.
Lemma hset_prev_frame p v h a : a ≠ p → hset_prev p v h !! a = h !! a.
Proof. intros ?. rewrite /hset_prev lookup_alter. case_decide; congruence. Qed.

(** A node of the heap stays one under field writes. *)
Ltac heap_alive :=
  repeat first [rewrite hset_next_is_Some | rewrite hset_prev_is_Some]; done.

(** Rewrite the two link functions of an updated heap. *)
Ltac heap_simpl :=
  repeat first
    [ rewrite next_of_hset_prev | rewrite prev_of_hset_next
    | rewrite next_of_hset_next; [heap_alive|]
    | rewrite prev_of_hset_prev; [heap_alive|] ].

Create HintDb lists.
#[export] Hint Resolve plast_elem pfirst_elem : lists.

Lemma init_list_node_run p h :
  is_Some (h !! p) → init_list_node p h = Ret () (hset_next p p (hset_prev p p h)).
Proof.
  intros Hp. rewrite /init_list_node (bind_run _ _ _ _ _ (set_prev_run p p h Hp)).
  rewrite set_next_run //. heap_alive.
Qed.

Lemma init_ring p h : p ≠ NULL → is_Some (h !! p) → ring (hset_next p p (hset_prev p p h)) [p].
Proof.
  intros H0 Hp. split_and!; simpl; try done.
  - apply NoDup_singleton.
  - set_solver.
  - split; heap_simpl; by rewrite decide_True.
Qed.

(** The heap [_merge_list] leaves. *)
Definition merged (n1 n2 n3 n4 : Z) (h : heap) : heap :=
  hset_prev n3 n4 (hset_next n4 n3 (hset_prev n2 n1 (hset_next n1 n2 h))).

Lemma merge_list_run h n1 l1 n2 l2 :
  ring h (n1 :: l1) → ring h (n2 :: l2) →
  _merge_list n1 n2 h = Ret n1 (merged n1 n2 (pfirst l1 n1) (plast n2 l2) h).
Proof.
  intros Hr1 Hr2.
  assert (n1 ≠ NULL ∧ n2 ≠ NULL) as [H1 H2].
  { destruct Hr1 as (_ & ? & _), Hr2 as (_ & ? & _). set_solver. }
  assert (Ha : ∀ x, x ∈ n1 :: l1 → is_Some (h !! x)) by eauto using ring_in_heap.
  assert (Hb : ∀ x, x ∈ n2 :: l2 → is_Some (h !! x)) by eauto using ring_in_heap.
  rewrite /_merge_list (proj2 (Z.eqb_neq _ _) H1) (proj2 (Z.eqb_neq _ _) H2).
  rewrite (bind_run _ _ _ _ _ (get_next_run _ _ _ (ring_next _ _ _ Hr1))).
  rewrite (bind_run _ _ _ _ _ (get_prev_run _ _ _ (ring_prev _ _ _ Hr2))).
  assert (Hp : pfirst l1 n1 ∈ n1 :: l1) by (destruct l1; set_solver).
  pose proof (plast_elem n2 l2) as Hq.
  pose proof (Ha _ Hp). pose proof (Hb _ Hq).
  assert (is_Some (h !! n1)) by (apply Ha; set_solver).
  assert (is_Some (h !! n2)) by (apply Hb; set_solver).
  do 4 (erewrite bind_run; [|first [apply set_next_run|apply set_prev_run]; heap_alive]).
  done.
Qed.

Lemma merged_frame n1 n2 n3 n4 h a :
  a ≠ n1 → a ≠ n2 → a ≠ n3 → a ≠ n4 → merged n1 n2 n3 n4 h !! a = h !! a.
Proof.
  intros. rewrite /merged hset_prev_frame // hset_next_frame // hset_prev_frame //.
  by rewrite hset_next_frame.
Qed.

Lemma merged_ring h n1 l1 n2 l2 :
  ring h (n1 :: l1) → ring h (n2 :: l2) → (∀ x, x ∈ n1 :: l1 → x ∉ n2 :: l2) →
  ring (merged n1 n2 (pfirst l1 n1) (plast n2 l2) h) (n1 :: n2 :: l2 ++ l1).
Proof.
  intros Hr1 Hr2 Hdisj.
  assert (Ha : ∀ x, x ∈ n1 :: l1 → is_Some (h !! x)) by eauto using ring_in_heap.
  assert (Hb : ∀ x, x ∈ n2 :: l2 → is_Some (h !! x)) by eauto using ring_in_heap.
  assert (Hp : pfirst l1 n1 ∈ n1 :: l1) by (destruct l1; set_solver).
  pose proof (plast_elem n2 l2) as Hq.
  pose proof (Ha _ Hp). pose proof (Hb _ Hq).
  assert (is_Some (h !! n1)) by (apply Ha; set_solver).
  assert (is_Some (h !! n2)) by (apply Hb; set_solver).
  destruct Hr1 as (Hnd1 & H01 & Hs1 & Hl1). destruct Hr2 as (Hnd2 & H02 & Hs2 & Hl2).
  set (n3 := pfirst l1 n1) in *. set (n4 := plast n2 l2) in *.
  set (h' := merged n1 n2 n3 n4 h).
  assert (Hn : ∀ a, next_of h' a =
    if decide (a = n4) then Some n3 else if decide (a = n1) then Some n2 else next_of h a).
  { intros a. rewrite /h' /merged. by heap_simpl. }
  assert (Hv : ∀ a, prev_of h' a =
    if decide (a = n3) then Some n4 else if decide (a = n2) then Some n1 else prev_of h a).
  { intros a. rewrite /h' /merged. by heap_simpl. }
  clearbody h'.
  assert (n1 ≠ n4) by (intros E; apply (Hdisj n1); [set_solver|by rewrite E]).
  assert (n3 ≠ n2) by (intros E; apply (Hdisj n3); [done|rewrite E; set_solver]).
  assert (Hlink12 : link h' n1 n2).
  { split; rewrite ?Hn ?Hv; repeat case_decide; congruence. }
  assert (Hlink43 : link h' n4 n3).
  { split; rewrite ?Hn ?Hv; repeat case_decide; congruence. }
  assert (Hseg2 : seg h' n2 l2).
  { apply (seg_frame h); try done.
    - intros a Hin Hne. rewrite Hn !decide_False //. intros ->. apply (Hdisj n1); set_solver.
    - intros a Hin. rewrite Hv !decide_False //; intros ->.
      + apply (Hdisj n3); set_solver.
      + apply NoDup_cons in Hnd2 as [? _]. done. }
  split_and!.
  - change (NoDup (n1 :: (n2 :: l2) ++ l1)).
    apply NoDup_cons in Hnd1 as [Hnd1a Hnd1b].
    apply NoDup_cons. split; [set_solver|]. apply NoDup_app. split_and!; try done. set_solver.
  - set_solver.
  - simpl. split; [done|]. destruct l1 as [|m l1]; [by rewrite app_nil_r|].
    simpl in n3. subst n3. apply seg_app. split_and!; try done.
    apply NoDup_cons in Hnd1 as [Hnd1a Hnd1b]. apply (seg_frame h); [..|done|apply Hs1].
    + intros a Hin Hne. rewrite Hn !decide_False //; intros ->.
      * apply (Hdisj n4); set_solver.
      * done.
    + intros a Hin. rewrite Hv !decide_False //; intros ->.
      * apply NoDup_cons in Hnd1b as [? _]. done.
      * apply (Hdisj n2); set_solver.
  - simpl. destruct l1 as [|m l1]; [by rewrite app_nil_r|].
    rewrite plast_app. simpl in Hl1, n3. subst n3. pose proof (plast_elem m l1) as Hm.
    apply NoDup_cons in Hnd1 as [Hnd1a Hnd1b]. split.
    + rewrite Hn !decide_False; [..|apply Hl1].
      * intros E. apply (Hdisj n4); [rewrite -E; set_solver|done].
      * intros E. apply Hnd1a. by rewrite -E.
    + rewrite Hv !decide_False; [..|apply Hl1].
      * intros E. apply Hnd1a. rewrite E. set_solver.
      * intros E. apply (Hdisj n1); [|rewrite E]; set_solver.
Qed.

(** The heap [_detach_from_list] leaves. *)
Definition detached (node p q : Z) (h : heap) : heap :=
  hset_next node node (hset_prev node node (hset_prev q p (hset_next p q h))).

Lemma detach_run h node l :
  ring h (node :: l) →
  _detach_from_list node h =
    Ret (if decide (l = []) then NULL else plast node l)
        (detached node (plast node l) (pfirst l node) h).
Proof.
  intros Hr.
  assert (Ha : ∀ x, x ∈ node :: l → is_Some (h !! x)) by eauto using ring_in_heap.
  pose proof (ring_next _ _ _ Hr) as Hnx. pose proof (ring_prev _ _ _ Hr) as Hpv.
  assert (is_Some (h !! pfirst l node)) by (apply Ha; destruct l; set_solver).
  pose proof (Ha _ (plast_elem node l)).
  assert (is_Some (h !! node)) by (apply Ha; set_solver).
  rewrite /_detach_from_list (bind_run _ _ _ _ _ (get_prev_run _ _ _ Hpv)).
  erewrite bind_run; last first.
  { rewrite (bind_run _ _ _ _ _ (get_prev_run _ _ _ Hpv)).
    rewrite (bind_run _ _ _ _ _ (get_next_run _ _ _ Hnx)). by apply set_next_run. }
  set (h1 := hset_next (plast node l) (pfirst l node) h).
  assert (Hnx1 : next_of h1 node = Some (pfirst l node))
    by (rewrite /h1; heap_simpl; by case_decide).
  assert (Hpv1 : prev_of h1 node = Some (plast node l)) by (rewrite /h1; by heap_simpl).
  erewrite bind_run; last first.
  { rewrite (bind_run _ _ _ _ _ (get_next_run _ _ _ Hnx1)).
    rewrite (bind_run _ _ _ _ _ (get_prev_run _ _ _ Hpv1)). apply set_prev_run.
    rewrite /h1. heap_alive. }
  erewrite bind_run; last first.
  { apply init_list_node_run. rewrite /h1. heap_alive. }
  destruct Hr as (Hnd & _). case_decide as Hl.
  - subst l. simpl. by rewrite Z.eqb_refl.
  - destruct (Z.eqb_spec (plast node l) node) as [E|]; [|done].
    exfalso. destruct l as [|m l]; [done|]. apply NoDup_cons in Hnd as [Hc _].
    apply Hc. rewrite -{1}E. apply (plast_elem m l).
Qed.

Lemma detached_ring h node l :
  ring h (node :: l) →
  ring (detached node (plast node l) (pfirst l node) h) [node] ∧
  (l ≠ [] → ring (detached node (plast node l) (pfirst l node) h) l) ∧
  ∀ a, a ∉ node :: l → detached node (plast node l) (pfirst l node) h !! a = h !! a.
Proof.
  intros Hr.
  assert (Ha : ∀ x, x ∈ node :: l → is_Some (h !! x)) by eauto using ring_in_heap.
  assert (Hp : pfirst l node ∈ node :: l) by (destruct l; set_solver).
  pose proof (plast_elem node l) as Hq.
  pose proof (Ha _ Hp). pose proof (Ha _ Hq).
  assert (is_Some (h !! node)) by (apply Ha; set_solver).
  destruct Hr as (Hnd & Hz & Hs & Hl). split_and!.
  - rewrite /detached. apply init_ring; [set_solver|heap_alive].
  - intros Hne. destruct l as [|m l]; [done|]. clear Hne.
    change (pfirst (m :: l) node) with m in *. simpl in *. destruct Hs as [Hsm Hs].
    apply NoDup_cons in Hnd as [Hn1 Hn2]. pose proof (plast_elem m l) as Hq'.
    set (p := plast m l) in *. set (h' := detached node p m h).
    assert (Hn : ∀ a, a ∈ m :: l → next_of h' a = if decide (a = p) then Some m else next_of h a).
    { intros a Hin. rewrite /h' /detached. heap_simpl. rewrite decide_False //. set_solver. }
    assert (Hv : ∀ a, a ∈ m :: l → prev_of h' a = if decide (a = m) then Some p else prev_of h a).
    { intros a Hin. rewrite /h' /detached. heap_simpl. rewrite decide_False //. set_solver. }
    clearbody h'. split_and!; [done|set_solver|..].
    + apply (seg_frame h); try done.
      * intros a Hin Hne. rewrite Hn // decide_False //.
      * intros a Hin. rewrite Hv; [set_solver|]. rewrite decide_False //.
        intros ->. by apply NoDup_cons in Hn2 as [? _].
    + split; [rewrite Hn // decide_True //|rewrite Hv; [set_solver|]; by rewrite decide_True].
  - intros a Hin.
    assert (a ≠ node ∧ a ≠ plast node l ∧ a ≠ pfirst l node) as (? & ? & ?)
      by (split_and!; intros ->; set_solver).
    by rewrite /detached hset_next_frame // !hset_prev_frame // hset_next_frame.
Qed.

(** ** The API with a sentinel: [head :: xs] are the sentinel and the elements *)
Lemma insert_run h x l node :
  ring h (x :: l) → node ∉ x :: l → node ≠ NULL → is_Some (h !! node) →
  ∃ h', _insert_into_list x node h = Ret x h' ∧ ring h' (x :: node :: l) ∧
        ∀ a, a ∉ node :: x :: l → h' !! a = h !! a.
Proof.
  intros Hr Hn H0 Hs.
  set (h1 := hset_next node node (hset_prev node node h)).
  assert (Hf : ∀ a, a ≠ node → h1 !! a = h !! a).
  { intros a ?. by rewrite /h1 hset_next_frame // hset_prev_frame. }
  assert (Hr1 : ring h1 (x :: l)).
  { assert (Hne : ∀ a, a ∈ x :: l → a ≠ node) by set_solver.
    pose proof (plast_elem x l) as Hq.
    destruct Hr as (Hnd & Hz & Hseg & Hl1 & Hl2). split; [done|]. split; [done|]. split; [|split].
    - apply (seg_frame h); try done; intros a Ha; [intros _|];
        rewrite /next_of /prev_of Hf //; apply Hne; set_solver.
    - rewrite /next_of Hf //. by apply Hne.
    - rewrite /prev_of Hf //. apply Hne. set_solver. }
  assert (Hr2 : ring h1 [node]) by by apply init_ring.
  exists (merged x node (pfirst l x) node h1). split_and!.
  - rewrite /_insert_into_list (bind_run _ _ _ _ _ (init_list_node_run _ _ Hs)).
    by rewrite (merge_list_run _ _ _ _ _ Hr1 Hr2).
  - apply (merged_ring _ _ _ _ [] Hr1 Hr2). set_solver.
  - intros a Ha. assert (pfirst l x ∈ x :: l) as Hp by (destruct l; set_solver).
    assert (a ≠ x ∧ a ≠ node ∧ a ≠ pfirst l x) as (? & ? & ?).
    { clear -Ha Hp. split_and!; intros ->; set_solver. }
    rewrite merged_frame //. by apply Hf.
Qed.

Lemma ring_middle h x xs y ys : ring h (x :: xs ++ y :: ys) ↔ ring h (y :: ys ++ x :: xs).
Proof. split; apply (ring_rotate h (_ :: _) (_ :: _)); done. Qed.

Lemma for_in_list_loop_run h flag x l fuel :
  ring h (flag :: x ++ l) → (length l < fuel)%nat →
  _for_in_list_loop fuel flag (pfirst l flag) h = Ret (l ++ [flag]) h.
Proof.
  revert x fuel. induction l as [|y l IH]; intros x fuel Hr Hf.
  - destruct fuel as [|fuel]; [lia|]. destruct Hr as (_ & H0 & _).
    rewrite /= (proj2 (Z.eqb_neq flag NULL)); [set_solver|]. rewrite Z.eqb_refl. run_simpl.
    by destruct fuel.
  - destruct fuel as [|fuel]; simpl in Hf; [lia|].
    assert (y ≠ NULL ∧ y ≠ flag) as [Hy1 Hy2].
    { destruct Hr as (Hnd & H0 & _). apply NoDup_cons in Hnd as [Hnd _].
      clear IH. split; intros ->; set_solver. }
    assert (Hny : next_of h y = Some (pfirst l flag)).
    { apply ring_middle in Hr. apply ring_next in Hr. rewrite Hr. by destruct l. }
    change (pfirst (y :: l) flag) with y. simpl.
    rewrite (proj2 (Z.eqb_neq y NULL)) // (proj2 (Z.eqb_neq y flag)) //.
    rewrite (bind_run _ _ _ _ _ (get_next_run _ _ _ Hny)).
    assert (HI : ring h (flag :: (x ++ [y]) ++ l)) by by rewrite -app_assoc.
    by rewrite (bind_run _ _ _ _ _ (IH _ fuel HI ltac:(lia))).
Qed.

(** ** The locked FIFO *)
Record Queue := mkQueue { begin_ : Z; end_ : Z; sz : Z; lk : SpinLock }.
Record qstate := mkQState { qheap : heap; queue : Queue }.

Definition on_heap {A} (m : M heap A) : M qstate A := λ s,
  match m (qheap s) with
  | Ret a h => Ret a (mkQState h (queue s))
  | Panic => Panic | Fault => Fault | Hang => Hang | Fuel => Fuel
  end.

Definition set_ends (b e : Z) (s : qstate) : qstate :=
  mkQState (qheap s) (mkQueue b e (sz (queue s)) (lk (queue s))).
Definition set_sz (n : Z) (s : qstate) : qstate :=
  mkQState (qheap s) (mkQueue (begin_ (queue s)) (end_ (queue s)) n (lk (queue s))).
Definition lk_lens : Lens qstate SpinLock :=
  mkLens (λ s, lk (queue s))
    (λ l s, mkQState (qheap s) (mkQueue (begin_ (queue s)) (end_ (queue s)) (sz (queue s)) l)).

Definition queue_init : M qstate () :=
  modify (λ s, mkQState (qheap s) (mkQueue 0 0 0 init_spinlock)).
Definition queue_lock : M qstate () := _acquire_spinlock lk_lens.
Definition queue_unlock : M qstate () := release_spinlock lk_lens.

Definition queue_push (item : Z) : M qstate () :=
  on_heap (init_list_node item);;
  q ← gets queue;
  (if sz q =? 0 then modify (set_ends item item)
   else
     _ ← on_heap (_merge_list (end_ q) item);
     modify (λ s, set_ends (begin_ (queue s)) item s));;
  modify (λ s, set_sz (i32 (sz (queue s) + 1)) s).

Definition queue_pop : M qstate () :=
  q ← gets queue;
  if sz q =? 0 then panic
  else
    (if sz q =? 1 then modify (set_ends 0 0)
     else
       let t := begin_ q in
       b ← on_heap (get_next t);
       modify (λ s, set_ends b (end_ (queue s)) s);;
       _ ← on_heap (_detach_from_list t);
       mret ());;
    modify (λ s, set_sz (i32 (sz (queue s) - 1)) s).

Definition queue_front : M qstate Z :=
  q ← gets queue;
  if begin_ q =? NULL then panic else mret (begin_ q).

Definition queue_empty : M qstate bool := q ← gets queue; mret (sz q =? 0).

(** The queue holds the nodes [l], front first. *)
Definition queue_rep (s : qstate) (l : list Z) : Prop :=
  sz (queue s) = Z.of_nat (length l) ∧ Z.of_nat (length l) < 2 ^ 31 ∧
  match l with
  | [] => begin_ (queue s) = 0 ∧ end_ (queue s) = 0
  | x :: l' => begin_ (queue s) = x ∧ end_ (queue s) = plast x l' ∧ ring (qheap s) l
  end.

Lemma on_heap_run {A} (m : M heap A) h q a h' :
  m h = Ret a h' → on_heap m (mkQState h q) = Ret a (mkQState h' q).
Proof. rewrite /on_heap /=. by intros ->. Qed.

Lemma plast_snoc x l y : plast x (l ++ [y]) = y.
Proof. by rewrite plast_app. Qed.

Lemma plast_split x l : ∃ l', x :: l = l' ++ [plast x l].
Proof.
  revert x. induction l as [|y l IH]; intros x; [by exists []|].
  destruct (IH y) as [l' Hl']. exists (x :: l'). by rewrite /= Hl'.
Qed.

Lemma queue_push_run s l item :
  queue_rep s l → Z.of_nat (length l) + 1 < 2 ^ 31 →
  item ≠ NULL → item ∉ l → is_Some (qheap s !! item) →
  ∃ s', queue_push item s = Ret () s' ∧ queue_rep s' (l ++ [item]) ∧ lk (queue s') = lk (queue s).
Proof.
  destruct s as [h [b e z k]]. intros (Hsz & _ & Hrep) Hlen Hi0 Hin Hal. simpl in *. subst z.
  set (h1 := hset_next item item (hset_prev item item h)).
  assert (Hrun : init_list_node item h = Ret () h1) by by apply init_list_node_run.
  assert (Hi : i32 (Z.of_nat (length l) + 1) = Z.of_nat (length (l ++ [item]))).
  { rewrite length_app /= i32_small; lia. }
  destruct l as [|x l].
  - destruct Hrep as [-> ->]. eexists. split_and!.
    + rewrite /queue_push (bind_run _ _ _ _ _ (on_heap_run _ _ _ _ _ Hrun)) //.
    + rewrite /queue_rep. split; [exact Hi|]. split; [simpl; lia|].
      split; [done|]. split; [done|]. by apply init_ring.
    + done.
  - destruct Hrep as (-> & -> & Hr).
    assert (Hf : ∀ a, a ≠ item → h1 !! a = h !! a).
    { intros a ?. by rewrite /h1 hset_next_frame // hset_prev_frame. }
    destruct (plast_split x l) as [l' Hl'].
    assert (Hrot : ring h (plast x l :: l')).
    { rewrite Hl' in Hr. destruct l' as [|y l'']; [done|].
      apply (ring_rotate h (y :: l'') [plast x l]) in Hr; done. }
    assert (Hni : item ∉ plast x l :: l').
    { intros Hc. apply Hin. rewrite Hl'. clear -Hc. set_solver. }
    destruct (insert_run h (plast x l) l' item Hrot Hni Hi0 Hal) as (h' & Hins & Hring & _).
    rewrite /_insert_into_list (bind_run _ _ _ _ _ Hrun) in Hins.
    eexists. split_and!.
    + rewrite /queue_push (bind_run _ _ _ _ _ (on_heap_run _ _ _ _ _ Hrun)).
      erewrite bind_run; [|done]. simpl (sz _).
      assert (Hne : (Z.of_nat (length (x :: l)) =? 0) = false) by done. simpl in Hne.
      erewrite bind_run; last first.
      { simpl. rewrite (bind_run _ _ _ _ _ (on_heap_run _ _ _ _ _ Hins)). done. }
      done.
    + rewrite /queue_rep. split; [exact Hi|].
      split; [rewrite length_app /=; simpl in Hlen; lia|].
      split; [done|]. split; [by rewrite plast_snoc|].
      assert (Hring' : ring h' ([plast x l; item] ++ l')) by done.
      change (x :: l ++ [item]) with ((x :: l) ++ [item]). rewrite Hl' -app_assoc /=.
      by apply ring_rotate in Hring'.
    + done.
Qed.

Lemma queue_pop_run s x l :
  queue_rep s (x :: l) →
  ∃ s', queue_pop s = Ret () s' ∧ queue_rep s' l ∧ lk (queue s') = lk (queue s).
Proof.
  destruct s as [h [b e z k]]. intros (Hsz & Hlt & Hb & He & Hr). simpl in Hsz, Hb, He, Hr.
  subst b e z. cbn [length] in Hlt |- *.
  assert (Hi : i32 (Z.of_nat (S (length l)) - 1) = Z.of_nat (length l)) by (rewrite i32_small; lia).
  destruct l as [|y l].
  - eexists. split; [done|]. by split_and!.
  - pose proof (ring_next _ _ _ Hr) as Hnx. simpl in Hnx.
    pose proof (detach_run _ _ _ Hr) as Hdet.
    pose proof (detached_ring _ _ _ Hr) as (_ & Hring & _). specialize (Hring ltac:(done)).
    eexists. split.
    + rewrite /queue_pop. erewrite bind_run; [|done]. cbn [queue sz].
      rewrite (proj2 (Z.eqb_neq _ 0)); [simpl; lia|].
      rewrite (proj2 (Z.eqb_neq _ 1)); [simpl; lia|]. cbn [begin_].
      erewrite bind_run; last first.
      { rewrite (bind_run _ _ _ _ _ (on_heap_run _ _ _ _ _ (get_next_run _ _ _ Hnx))).
        erewrite bind_run; [|done].
        by rewrite (bind_run _ _ _ _ _ (on_heap_run _ _ _ _ _ Hdet)). }
      done.
    + split; [|done]. rewrite /queue_rep. split; [exact Hi|]. split; [lia|].
      split; [done|]. split; [done|]. exact Hring.
Qed.

(** ** The abstract FIFO *)
Inductive qop := QPush (item : Z) | QPop | QFront | QEmpty.

Definition run_qop (op : qop) : M qstate Z :=
  match op with
  | QPush item => queue_push item;; mret 0
  | QPop => queue_pop;; mret 0
  | QFront => queue_front
  | QEmpty => b ← queue_empty; mret (if b : bool then 1 else 0)
  end.

(** What each operation returns and leaves on a list of nodes, front first;
    [None] where the code panics. *)
Definition fifo_spec (op : qop) (l : list Z) : option (Z * list Z) :=
  match op, l with
  | QPush item, _ => Some (0, l ++ [item])
  | QPop, x :: l' => Some (0, l')
  | QFront, x :: _ => Some (x, l)
  | QEmpty, _ => Some (if decide (l = []) then 1 else 0, l)
  | _, [] => None
  end.

(** What the caller of [queue_push] must guarantee. *)
Definition qop_pre (op : qop) (s : qstate) (l : list Z) : Prop :=
  match op with
  | QPush item => item ≠ NULL ∧ item ∉ l ∧ is_Some (qheap s !! item) ∧
                  Z.of_nat (length l) + 1 < 2 ^ 31
  | _ => True
  end.

Lemma qop_refines s l op :
  queue_rep s l → qop_pre op s l →
  match fifo_spec op l with
  | Some (r, l') => ∃ s', run_qop op s = Ret r s' ∧ queue_rep s' l'
  | None => run_qop op s = Panic
  end.
Proof.
  intros Hrep Hpre. destruct op as [item| | |]; simpl.
  - destruct Hpre as (H0 & Hin & Hal & Hlen).
    destruct (queue_push_run s l item) as (s' & Hrun & Hrep' & _); try done.
    exists s'. split; [by rewrite (bind_run _ _ _ _ _ Hrun)|done].
  - destruct l as [|x l]; simpl.
    + destruct Hrep as (Hz & _). rewrite /queue_pop. run_simpl. by rewrite Hz.
    + destruct (queue_pop_run s x l Hrep) as (s' & Hrun & Hrep' & _).
      exists s'. split; [by rewrite (bind_run _ _ _ _ _ Hrun)|done].
  - destruct l as [|x l]; simpl; rewrite /queue_front; run_simpl.
    + destruct Hrep as (_ & _ & -> & _). done.
    + pose proof Hrep as (_ & _ & -> & _ & _ & H0 & _).
      rewrite (proj2 (Z.eqb_neq _ _)); [set_solver|]. eauto.
  - exists s. rewrite /queue_empty. run_simpl. destruct Hrep as (Hz & ?). split; [|done].
    rewrite Hz. destruct l; done.
Qed.

(** ** The compare-and-swap stack

    [QueueNode] has only a [next] field.  In one thread the compare-and-swap
    loops run once; a weak exchange that fails spuriously repeats the body. *)
Record lfstate := mkLF { lfnext : gmap Z Z; lfhead : Z }.

Definition lf_set_next (p v : Z) : M lfstate () :=
  s ← get; _ ← of_opt (lfnext s !! p); put (mkLF (<[p := v]> (lfnext s)) (lfhead s)).
Definition lf_get_next (p : Z) : M lfstate Z := s ← get; of_opt (lfnext s !! p).

(** [__atomic_compare_exchange_n(head, &expected, desired, ...)]; [spurious] is
    the freedom of the weak form to fail although the values agree.  Returns
    the success flag and the new value of [expected]. *)
Definition lf_cas (spurious : bool) (expected desired : Z) : M lfstate (bool * Z) :=
  s ← get;
  if (lfhead s =? expected) && negb spurious
  then put (mkLF (lfnext s) desired);; mret (true, expected)
  else mret (false, lfhead s).

(** The argument lists the spurious failures before the exchange that counts. *)
Fixpoint add_to_queue (spurious : list bool) (node : Z) : M lfstate Z :=
  hd ← gets lfhead;
  lf_set_next node hd;;
  nx ← lf_get_next node;
  r ← lf_cas (match spurious with b :: _ => b | [] => false end) nx node;
  lf_set_next node (if r.1 then nx else r.2);;
  if r.1 : bool then mret node
  else match spurious with _ :: sp => add_to_queue sp node | [] => nofuel end.

Fixpoint fetch_from_queue (spurious : list bool) : M lfstate Z :=
  node ← gets lfhead;
  if node =? NULL then mret node
  else
    nx ← lf_get_next node;
    r ← lf_cas (match spurious with b :: _ => b | [] => false end) node nx;
    if r.1 : bool then mret node
    else match spurious with _ :: sp => fetch_from_queue sp | [] => nofuel end.

Definition fetch_all_from_queue : M lfstate Z :=
  s ← get; put (mkLF (lfnext s) NULL);; mret (lfhead s).

(** The stack holds [l], last added first. *)
Fixpoint lf_chain (nx : gmap Z Z) (p : Z) (l : list Z) : Prop :=
  match l with
  | [] => p = NULL
  | x :: l' => p = x ∧ x ≠ NULL ∧ ∃ q, nx !! x = Some q ∧ lf_chain nx q l'
  end.
Definition lf_rep (s : lfstate) (l : list Z) : Prop := NoDup l ∧ lf_chain (lfnext s) (lfhead s) l.

Lemma lf_chain_insert nx p l x v : x ∉ l → lf_chain nx p l → lf_chain (<[x := v]> nx) p l.
Proof.
  revert p. induction l as [|y l IH]; intros p Hx; simpl; [done|].
  intros (-> & H0 & q & Hq & Hc). split_and!; [done|done|]. exists q.
  rewrite lookup_insert_ne; [set_solver|]. split; [done|]. apply IH; set_solver.
Qed.

Lemma add_to_queue_run sp s l node :
  lf_rep s l → node ≠ NULL → node ∉ l → is_Some (lfnext s !! node) →
  ∃ s', add_to_queue sp node s = Ret node s' ∧ lf_rep s' (node :: l) ∧
        dom (lfnext s') = dom (lfnext s).
Proof.
  intros Hrep H0 Hin. revert s Hrep.
  induction sp as [|b sp IH]; intros [nx hd] [Hnd Hch] [v Hv]; simpl in *.
  all: rewrite /lf_set_next /lf_get_next /lf_cas; run_simpl.
  all: rewrite Hv /= lookup_insert_eq /= Z.eqb_refl /=.
  2: destruct b; simpl.
  all: rewrite lookup_insert_eq /= insert_insert_eq.
  - eexists. split; [done|]. rewrite dom_insert_lookup_L; [by eauto|]. split; [|done].
    split; [by apply NoDup_cons|]. simpl. split_and!; try done.
    exists hd. rewrite lookup_insert_eq. split; [done|]. by apply lf_chain_insert.
  - destruct (IH (mkLF (<[node := hd]> nx) hd)) as (s' & Hrun & Hrep & Hdom).
    + split; [done|]. by apply lf_chain_insert.
    + by rewrite /= lookup_insert_eq.
    + exists s'. rewrite Hrun Hdom /= dom_insert_lookup_L; eauto.
  - eexists. split; [done|]. rewrite dom_insert_lookup_L; [by eauto|]. split; [|done].
    split; [by apply NoDup_cons|]. simpl. split_and!; try done.
    exists hd. rewrite lookup_insert_eq. split; [done|]. by apply lf_chain_insert.
Qed.

Lemma fetch_from_queue_run sp s l :
  lf_rep s l →
  fetch_from_queue sp s = match l with
    | [] => Ret NULL s
    | x :: l' => Ret x (mkLF (lfnext s) (pfirst l' NULL))
    end ∧
  (∀ x l', l = x :: l' → lf_rep (mkLF (lfnext s) (pfirst l' NULL)) l').
Proof.
  destruct s as [nx hd]. intros [Hnd Hch]. simpl in Hch. split.
  - destruct l as [|x l]; simpl in Hch.
    + subst. by destruct sp.
    + destruct Hch as (-> & H0 & q & Hq & Hc).
      assert (Hp : q = pfirst l NULL) by (destruct l; simpl in Hc; naive_solver).
      induction sp as [|b sp IH]; simpl; rewrite /lf_get_next /lf_cas; run_simpl;
        rewrite (proj2 (Z.eqb_neq _ _) H0) Hq /= Z.eqb_refl /= -?Hp; [done|].
      destruct b; simpl; [by rewrite IH Hp|done].
  - intros x l' ->. apply NoDup_cons in Hnd as [_ Hnd]. split; [done|].
    destruct Hch as (-> & H0 & q & Hq & Hc). simpl.
    assert (Hp : q = pfirst l' NULL) by (destruct l'; simpl in Hc; naive_solver).
    by rewrite -Hp.
Qed.

(** *** Interleaved use of the stack

    What a thread is doing, between two atomic actions. *)
Inductive lf_pc :=
| LIdle
| LAdd (node : Z)            (* at the top of [add_to_queue]'s loop *)
| LAddCas (node : Z)         (* [node->next = *head] done, exchange next *)
| LFetch                     (* at the top of [fetch_from_queue]'s loop *)
| LFetchRead (node : Z)      (* [node = *head] done, non-null *)
| LFetchCas (node nx : Z).   (* [node->next] read as the new head, exchange next *)

(** [lfheld]: the nodes each thread got from [fetch_from_queue] and has not
    given back. *)
Record lfsys := mkLFSys { lfshared : lfstate; lfthreads : list lf_pc; lfheld : list (nat * Z) }.

Inductive lf_action := AStartAdd (node : Z) | AStartFetch | AStep.

Definition lf_run {A} (m : M lfstate A) (s : lfstate) : option (A * lfstate) :=
  match m s with Ret a s' => Some (a, s') | _ => None end.

(** One atomic action of thread [t]. *)
Definition lf_step (t : nat) (a : lf_action) (w : lfsys) : option lfsys :=
  pc ← lfthreads w !! t;
  let goto pc' sh held := Some (mkLFSys sh (<[t := pc']> (lfthreads w)) held) in
  match a, pc with
  | AStartAdd node, LIdle =>
      if decide ((t, node) ∈ lfheld w)
      then goto (LAdd node) (lfshared w) (filter (λ p, p ≠ (t, node)) (lfheld w))
      else None
  | AStartFetch, LIdle => goto LFetch (lfshared w) (lfheld w)
  | AStep, LAdd node =>
      r ← lf_run (hd ← gets lfhead; lf_set_next node hd) (lfshared w);
      goto (LAddCas node) r.2 (lfheld w)
  | AStep, LAddCas node =>
      r ← lf_run (nx ← lf_get_next node; lf_cas false nx node) (lfshared w);
      if r.1.1 : bool then goto LIdle r.2 (lfheld w) else goto (LAdd node) r.2 (lfheld w)
  | AStep, LFetch =>
      let node := lfhead (lfshared w) in
      if node =? NULL then goto LIdle (lfshared w) (lfheld w)
      else goto (LFetchRead node) (lfshared w) (lfheld w)
  | AStep, LFetchRead node =>
      r ← lf_run (lf_get_next node) (lfshared w);
      goto (LFetchCas node r.1) (lfshared w) (lfheld w)
  | AStep, LFetchCas node nx =>
      r ← lf_run (lf_cas false node nx) (lfshared w);
      if r.1.1 : bool then goto LIdle r.2 ((t, node) :: lfheld w)
      else goto LFetch r.2 (lfheld w)
  | _, _ => None
  end.

Fixpoint lf_steps (tr : list (nat * lf_action)) (w : lfsys) : option lfsys :=
  match tr with
  | [] => Some w
  | (t, a) :: tr' => w' ← lf_step t a w; lf_steps tr' w'
  end.

(** Thread 0 reads the head and its successor and is delayed; thread 1 takes
    both nodes and puts the first one back; thread 0's exchange then succeeds
    and makes the node thread 1 still owns the head again. *)
Definition aba_trace : list (nat * lf_action) :=
  [(0%nat, AStartFetch); (0%nat, AStep); (0%nat, AStep);
   (1%nat, AStartFetch); (1%nat, AStep); (1%nat, AStep); (1%nat, AStep);
   (1%nat, AStartFetch); (1%nat, AStep); (1%nat, AStep); (1%nat, AStep);
   (1%nat, AStartAdd 4096); (1%nat, AStep); (1%nat, AStep);
   (0%nat, AStep);
   (0%nat, AStartFetch); (0%nat, AStep); (0%nat, AStep); (0%nat, AStep)].

Definition two_pages : lfsys :=
  mkLFSys (mkLF {[4096 := 8192; 8192 := NULL]} 4096) [LIdle; LIdle] [].

(** ** Properties *)

(** [_merge_list] joins two disjoint rings: it returns [node1], [node1] is
    followed by [node2], then the rest of the second ring, then the rest of the
    first, with every [prev] the inverse of [next]; nodes outside both rings
    are untouched. *)
Theorem merge_list_joins_rings h n1 l1 n2 l2 :
  ring h (n1 :: l1) → ring h (n2 :: l2) → (∀ x, x ∈ n1 :: l1 → x ∉ n2 :: l2) →
  ∃ h', _merge_list n1 n2 h = Ret n1 h' ∧ ring h' (n1 :: n2 :: l2 ++ l1) ∧
        ∀ a, a ∉ n1 :: l1 → a ∉ n2 :: l2 → h' !! a = h !! a.
Proof.
  intros Hr1 Hr2 Hd. eexists. split; [exact (merge_list_run _ _ _ _ _ Hr1 Hr2)|]. split; [by apply merged_ring|].
  intros a H1 H2. assert (pfirst l1 n1 ∈ n1 :: l1) by (destruct l1; set_solver).
  pose proof (plast_elem n2 l2). apply merged_frame; intros ->; set_solver.
Qed.

(** [_detach_from_list] takes a node out of the middle of a ring with a
    sentinel: the ring closes around it in the same order, the node becomes a
    ring of its own, the predecessor is returned, and nothing else changes. *)
Theorem detach_from_list_unlinks h head xs node ys :
  ring h (head :: xs ++ node :: ys) →
  ∃ h', _detach_from_list node h = Ret (plast head xs) h' ∧
        ring h' (head :: xs ++ ys) ∧ ring h' [node] ∧
        ∀ a, a ∉ head :: xs ++ node :: ys → h' !! a = h !! a.
Proof.
  intros Hr. apply ring_middle in Hr.
  pose proof (detached_ring _ _ _ Hr) as (H1 & H2 & H3).
  assert (Hne : ys ++ head :: xs ≠ []) by (destruct ys; discriminate). specialize (H2 Hne).
  exists (detached node (plast node (ys ++ head :: xs)) (pfirst (ys ++ head :: xs) node) h). split.
  - rewrite (detach_run _ _ _ Hr) decide_False //. f_equal. apply plast_app.
  - split_and!; [|done|].
    + destruct ys as [|y ys]; [by rewrite app_nil_r|].
      apply (ring_rotate _ (y :: ys) (head :: xs)) in H2; done.
    + intros a Ha. apply H3. set_solver.
Qed.

(** [_for_in_list] visits every element of the list once, in order, then
    the sentinel, and stops; it changes nothing. *)
Theorem for_in_list_visits h flag l :
  ring h (flag :: l) → _for_in_list (S (length l)) flag h = Ret (l ++ [flag]) h.
Proof.
  intros Hr. rewrite /_for_in_list (bind_run _ _ _ _ _ (get_next_run _ _ _ (ring_next _ _ _ Hr))).
  by apply (for_in_list_loop_run h flag []).
Qed.

(** The locked queue is a FIFO: each operation returns what it returns on
    the list of queued nodes and leaves a queue holding the list it leaves;
    [queue_pop] and [queue_front] panic exactly on the empty queue. *)
Theorem queue_refines_fifo s l op :
  queue_rep s l → qop_pre op s l →
  match fifo_spec op l with
  | Some (r, l') => ∃ s', run_qop op s = Ret r s' ∧ queue_rep s' l'
  | None => run_qop op s = Panic
  end.
Proof. apply qop_refines. Qed.

(** Used by one thread, the compare-and-swap queue is a stack: after
    [add_to_queue] of a node, [fetch_from_queue] returns that node and
    restores the previous contents, whatever spurious exchange failures the
    weak compare-and-swap goes through. *)
Theorem add_then_fetch sp sp' s l node :
  lf_rep s l → node ≠ NULL → node ∉ l → is_Some (lfnext s !! node) →
  ∃ s' s'', add_to_queue sp node s = Ret node s' ∧ lf_rep s' (node :: l) ∧
            fetch_from_queue sp' s' = Ret node s'' ∧ lf_rep s'' l.
Proof.
  intros Hrep H0 Hin Hal.
  destruct (add_to_queue_run sp s l node) as (s' & Hadd & Hrep' & _); try done.
  destruct (fetch_from_queue_run sp' s' (node :: l) Hrep') as [Hf Hr]. eauto 10.
Qed.

(** With two threads fetching, the stack hands the same node out twice (the
    ABA problem): from a stack of two free pages, the interleaving [aba_trace]
    leaves page 8192 fetched by thread 1 and fetched again by thread 0, with no
    [add_to_queue] of it in between. *)
Theorem fetch_from_queue_aba :
  ∃ w, lf_steps aba_trace two_pages = Some w ∧
       (1%nat, 8192) ∈ lfheld w ∧ (0%nat, 8192) ∈ lfheld w ∧
       ∀ t, (t, AStartAdd 8192) ∉ aba_trace.
Proof.
  eexists. split; [vm_compute; reflexivity|]. split_and!.
  - apply list_elem_of_In. vm_compute. tauto.
  - apply list_elem_of_In. vm_compute. tauto.
  - intros t Ht. apply list_elem_of_In in Ht. vm_compute in Ht. naive_solver.
Qed.

(** *** Witnesses *)
Definition three_nodes : heap := {[8 := mkNode 8 8; 16 := mkNode 24 24; 24 := mkNode 16 16]}.

Lemma three_nodes_ring1 : ring three_nodes [8].
Proof. split; [apply NoDup_singleton|]. split; [set_solver|]. by vm_compute. Qed.
Lemma three_nodes_ring2 : ring three_nodes [16; 24].
Proof.
  split; [apply NoDup_cons; split; [set_solver|apply NoDup_singleton]|].
  split; [set_solver|]. by vm_compute.
Qed.

Lemma merge_list_joins_rings_witness :
  ∃ h', _merge_list 8 16 three_nodes = Ret 8 h' ∧ ring h' [8; 16; 24].
Proof.
  destruct (merge_list_joins_rings three_nodes 8 [] 16 [24]
              three_nodes_ring1 three_nodes_ring2 ltac:(set_solver)) as (h' & H1 & H2 & _).
  eauto.
Defined.

Lemma detach_from_list_unlinks_witness :
  ∃ h', _detach_from_list 24 three_nodes = Ret 16 h' ∧ ring h' [16].
Proof.
  destruct (detach_from_list_unlinks three_nodes 16 [] 24 [] three_nodes_ring2)
    as (h' & H1 & H2 & _). eauto.
Defined.

Lemma for_in_list_visits_witness :
  _for_in_list 2 16 three_nodes = Ret [24; 16] three_nodes.
Proof. exact (for_in_list_visits three_nodes 16 [24] three_nodes_ring2). Defined.

Definition one_item : qstate := mkQState three_nodes (mkQueue 8 8 1 false).

Lemma queue_refines_fifo_witness :
  ∃ s', run_qop (QPush 16) one_item = Ret 0 s' ∧ queue_rep s' [8; 16].
Proof.
  apply (queue_refines_fifo one_item [8] (QPush 16)).
  - split; [done|]. split; [done|]. split; [done|]. split; [done|]. apply three_nodes_ring1.
  - split_and!; [done|set_solver|by eexists|done].
Defined.

Lemma add_then_fetch_witness :
  ∃ s' s'', add_to_queue [true] 8 (mkLF {[8 := 0]} NULL) = Ret 8 s' ∧ lf_rep s' [8] ∧
            fetch_from_queue [] s' = Ret 8 s'' ∧ lf_rep s'' [].
Proof.
  apply (add_then_fetch [true] [] (mkLF {[8 := 0]} NULL) [] 8).
  - split; [apply NoDup_nil_2|done].
  - done.
  - set_solver.
  - by eexists.
Defined.
