(* ===== verification/Bytes.v ===== *)
(** * Bytes: little-endian words in byte buffers

    The on-disk structures are C structs read and written as raw bytes on a
    little-endian machine.  This file holds the conversions and the splice of
    a byte range ([memmove] into the middle of a buffer). *)

From stdpp Require Import base numbers list.
From S2P Require Import Prelude.

Definition byte_ok (b : Z) : Prop := 0 ≤ b < 256.
Definition bytes_ok (l : list Z) : Prop := Forall byte_ok l.

(** The [n] low-order bytes of [z], least significant first. *)
Fixpoint le_bytes (n : nat) (z : Z) : list Z :=
  match n with
  | O => []
  | S n => z mod 256 :: le_bytes n (z / 256)
  end.

Fixpoint le_val (l : list Z) : Z :=
  match l with
  | [] => 0
  | b :: l => b + 256 * le_val l
  end.

(** [n] consecutive words of [w] bytes each. *)
Fixpoint words (w n : nat) (l : list Z) : list Z :=
  match n with
  | O => []
  | S n => le_val (take w l) :: words w n (drop w l)
  end.

Definition unwords (w : nat) (ws : list Z) : list Z := ws ≫= le_bytes w.

Lemma length_le_bytes n z : length (le_bytes n z) = n.
Proof. revert z. induction n as [|n IH]; intros z; simpl; [done|by rewrite IH]. Qed.

Lemma le_bytes_ok n z : bytes_ok (le_bytes n z).
Proof.
  revert z. induction n as [|n IH]; intros z; simpl; [constructor|].
  constructor; [|apply IH]. apply Z.mod_pos_bound. lia.
Qed.

Lemma le_val_bytes n z : 0 ≤ z < 256 ^ Z.of_nat n → le_val (le_bytes n z) = z.
Proof.
  revert z. induction n as [|n IH]; intros z Hz; simpl.
  - change (256 ^ Z.of_nat 0) with 1 in Hz. lia.
  - rewrite IH.
    + rewrite Nat2Z.inj_succ Z.pow_succ_r in Hz; [lia|]. dlia.
    + dlia.
Qed.

Lemma le_val_range l : bytes_ok l → 0 ≤ le_val l < 256 ^ Z.of_nat (length l).
Proof.
  induction 1 as [|b l Hb Hl IH]; simpl; [done|].
  rewrite Nat2Z.inj_succ Z.pow_succ_r; [lia|]. rewrite /byte_ok in Hb. lia.
Qed.

Lemma le_bytes_val l : bytes_ok l → le_bytes (length l) (le_val l) = l.
Proof.
  induction 1 as [|b l Hb Hl IH]; simpl; [done|]. rewrite /byte_ok in Hb.
  rewrite Z.mul_comm Z.mod_add // Z.div_add // Z.mod_small // Z.div_small // Z.add_0_l IH //.
Qed.

Lemma words_unwords w n ws :
  length ws = n → Forall (λ z, 0 ≤ z < 256 ^ Z.of_nat w) ws → words w n (unwords w ws) = ws.
Proof.
  intros <-. induction 1 as [|z ws Hz Hws IH]; simpl; [done|].
  rewrite take_app_length' ?length_le_bytes // drop_app_length' ?length_le_bytes //.
  rewrite le_val_bytes // IH //.
Qed.

Lemma length_unwords w ws : length (unwords w ws) = (w * length ws)%nat.
Proof.
  induction ws as [|z ws IH]; simpl; [lia|]. rewrite length_app length_le_bytes IH. lia.
Qed.

Lemma unwords_ok w ws : bytes_ok (unwords w ws).
Proof.
  induction ws as [|z ws IH]; simpl; [constructor|].
  apply Forall_app. split; [apply le_bytes_ok|done].
Qed.

Lemma length_words w n l : length (words w n l) = n.
Proof. revert l. induction n as [|n IH]; intros l; simpl; [done|by rewrite IH]. Qed.

Lemma unwords_words w n l :
  length l = (w * n)%nat → bytes_ok l → unwords w (words w n l) = l.
Proof.
  revert l. induction n as [|n IH]; intros l Hlen Hok; simpl.
  - rewrite Nat.mul_0_r in Hlen. by apply nil_length_inv in Hlen as ->.
  - rewrite IH.
    + rewrite length_drop. lia.
    + by apply Forall_drop.
    + assert (Hw : length (take w l) = w) by (rewrite length_take; lia).
      rewrite -{1}Hw le_bytes_val; [by apply Forall_take|]. by rewrite take_drop.
Qed.

Lemma words_range w n l :
  length l = (w * n)%nat → bytes_ok l → Forall (λ z, 0 ≤ z < 256 ^ Z.of_nat w) (words w n l).
Proof.
  revert l. induction n as [|n IH]; intros l Hlen Hok; simpl; [constructor|].
  constructor.
  - assert (Hw : length (take w l) = w) by (rewrite length_take; lia).
    pose proof (le_val_range (take w l)) as Hr. rewrite Hw in Hr. apply Hr. by apply Forall_take.
  - apply IH; [rewrite length_drop; lia|by apply Forall_drop].
Qed.

Lemma words_app w n l l' : length l = (w * n)%nat → words w n (l ++ l') = words w n l.
Proof.
  revert l. induction n as [|n IH]; intros l Hl; simpl; [done|].
  rewrite take_app_le; [lia|]. rewrite drop_app_le; [lia|]. rewrite IH //. rewrite length_drop. lia.
Qed.

(** ** Overwriting a range: [memmove(l + n, l', length l')] *)
Definition splice (l : list Z) (n : nat) (l' : list Z) : list Z :=
  take n l ++ l' ++ drop (n + length l') l.

(** Reading a range: [memmove(dest, l + n, k)] *)
Definition slice (l : list Z) (n k : nat) : list Z := take k (drop n l).

Lemma length_splice l n l' : (n + length l' ≤ length l)%nat → length (splice l n l') = length l.
Proof. intros. rewrite /splice !length_app length_take length_drop. lia. Qed.

Lemma length_slice l n k : (n + k ≤ length l)%nat → length (slice l n k) = k.
Proof. intros. rewrite /slice length_take length_drop. lia. Qed.

Lemma lookup_splice l n l' i :
  (n + length l' ≤ length l)%nat →
  splice l n l' !! i = if decide (n ≤ i < n + length l')%nat then l' !! (i - n)%nat else l !! i.
Proof.
  intros Hlen. rewrite /splice. case_decide as Hi.
  - rewrite lookup_app_r length_take; [lia|]. rewrite lookup_app_l; [lia|]. f_equal. lia.
  - destruct (decide (i < n)%nat).
    + rewrite lookup_app_l ?length_take; [lia|]. by rewrite lookup_take_lt.
    + rewrite lookup_app_r ?length_take; [lia|]. rewrite lookup_app_r; [lia|].
      rewrite lookup_drop. f_equal. lia.
Qed.

Lemma lookup_slice l n k i : slice l n k !! i = if decide (i < k)%nat then l !! (n + i)%nat else None.
Proof.
  rewrite /slice. case_decide.
  - rewrite lookup_take_lt // lookup_drop //.
  - apply lookup_ge_None. rewrite length_take. lia.
Qed.

(** Reading back what was written, and what was not. *)
Lemma slice_splice_same l n l' :
  (n + length l' ≤ length l)%nat → slice (splice l n l') n (length l') = l'.
Proof.
  intros. apply list_eq => i. rewrite lookup_slice. case_decide as Hi.
  - rewrite lookup_splice // decide_True; [lia|]. f_equal. lia.
  - symmetry. apply lookup_ge_None. lia.
Qed.

Lemma slice_splice_other l n l' m k :
  (n + length l' ≤ length l)%nat → (m + k ≤ n ∨ n + length l' ≤ m)%nat →
  slice (splice l n l') m k = slice l m k.
Proof.
  intros ? ?. apply list_eq => i. rewrite !lookup_slice. case_decide as Hi; [|done].
  rewrite lookup_splice // decide_False //. lia.
Qed.

Lemma splice_ok l n l' : bytes_ok l → bytes_ok l' → bytes_ok (splice l n l').
Proof.
  intros. apply Forall_app. split; [by apply Forall_take|].
  apply Forall_app. split; [done|by apply Forall_drop].
Qed.

Lemma slice_ok l n k : bytes_ok l → bytes_ok (slice l n k).
Proof. intros. by apply Forall_take, Forall_drop. Qed.
