(* ===== verification/FsDefs.v ===== *)
(** * FsDefs: the on-disk structures of [fs/defines.h]

    Constants of the disk layout and the byte encodings of the log header, the
    inode entry, the indirect block and the directory entry. *)

From stdpp Require Import base numbers list.
From S2P Require Import Prelude Bytes.

Definition BLOCK_SIZE : Z := 512.
Definition SWAP_SIZE : Z := 200.
Definition SWAP_START : Z := 800.
Definition SWAP_END : Z := 1000.
(** [(BLOCK_SIZE - sizeof(usize)) / sizeof(usize)] *)
Definition LOG_MAX_SIZE : Z := (BLOCK_SIZE - 8) / 8.
Definition INODE_NUM_DIRECT : Z := 12.
Definition INODE_NUM_INDIRECT : Z := BLOCK_SIZE / 4.
Definition INODE_MAX_BLOCKS : Z := INODE_NUM_DIRECT + INODE_NUM_INDIRECT.
Definition INODE_MAX_BYTES : Z := INODE_MAX_BLOCKS * BLOCK_SIZE.
Definition FILE_NAME_MAX_LENGTH : Z := 14.
Definition INODE_INVALID : Z := 0.
Definition INODE_DIRECTORY : Z := 1.
Definition INODE_REGULAR : Z := 2.
Definition INODE_DEVICE : Z := 3.
Definition ROOT_INODE_NO : Z := 1.
Definition BIT_PER_BLOCK : Z := BLOCK_SIZE * 8.

Record SuperBlock := mkSuper {
  num_blocks : Z;
  num_data_blocks : Z;
  num_inodes : Z;
  num_log_blocks : Z;
  log_start : Z;
  inode_start : Z;
  bitmap_start : Z }.

(** A block of the disk or of the cache is [BLOCK_SIZE] bytes. *)
Definition block_ok (d : list Z) : Prop := length d = 512%nat ∧ bytes_ok d.

(** ** [LogHeader]: 64 words of eight bytes *)
Record LogHeader := mkHeader { lh_num_blocks : Z; lh_block_no : list Z }.

Definition encode_header (h : LogHeader) : list Z :=
  unwords 8 (lh_num_blocks h :: lh_block_no h).
Definition decode_header (d : list Z) : LogHeader :=
  match words 8 64 d with
  | n :: l => mkHeader n l
  | [] => mkHeader 0 []
  end.

Definition header_ok (h : LogHeader) : Prop :=
  0 ≤ lh_num_blocks h < 2 ^ 64 ∧ length (lh_block_no h) = 63%nat ∧
  Forall (λ b, 0 ≤ b < 2 ^ 64) (lh_block_no h).

Lemma decode_encode_header h : header_ok h → decode_header (encode_header h) = h.
Proof.
  intros (Hn & Hl & Hb). rewrite /decode_header /encode_header words_unwords.
  - simpl. by rewrite Hl.
  - constructor; [done|]. exact Hb.
  - by destruct h.
Qed.

Lemma encode_header_ok h : length (lh_block_no h) = 63%nat → block_ok (encode_header h).
Proof.
  intros Hl. split; [|apply unwords_ok]. by rewrite /encode_header length_unwords /= Hl.
Qed.

Lemma decode_header_ok d : block_ok d → header_ok (decode_header d).
Proof.
  intros [Hl Hok]. rewrite /decode_header.
  pose proof (length_words 8 64 d) as Hlen.
  pose proof (words_range 8 64 d Hl Hok) as Hr.
  destruct (words 8 64 d) as [|n l]; [done|]. injection Hlen as Hlen.
  apply Forall_cons in Hr as [Hn Hr]. split; [exact Hn|]. split; [exact Hlen|exact Hr].
Qed.

Lemma encode_decode_header d : block_ok d → encode_header (decode_header d) = d.
Proof.
  intros [Hl Hok]. rewrite /encode_header /decode_header.
  pose proof (unwords_words 8 64 d Hl Hok) as Hu.
  pose proof (length_words 8 64 d) as Hlen.
  destruct (words 8 64 d) as [|n l]; [done|]. exact Hu.
Qed.

(** ** [InodeEntry] (64 bytes), [IndirectBlock], [DirEntry] (16 bytes) *)
Record InodeEntry := mkEntry {
  ie_type : Z;
  ie_major : Z;
  ie_minor : Z;
  ie_num_links : Z;
  ie_num_bytes : Z;
  ie_addrs : list Z;
  ie_indirect : Z }.

Definition sizeof_InodeEntry : Z := 64.
Definition INODE_PER_BLOCK : Z := BLOCK_SIZE / sizeof_InodeEntry.

Definition encode_entry (e : InodeEntry) : list Z :=
  unwords 2 [ie_type e; ie_major e; ie_minor e; ie_num_links e]
  ++ le_bytes 4 (ie_num_bytes e) ++ unwords 4 (ie_addrs e) ++ le_bytes 4 (ie_indirect e).

Definition decode_entry (d : list Z) : InodeEntry :=
  let w2 i := le_val (slice d (2 * i) 2) in
  let w4 i := le_val (slice d (4 * i) 4) in
  mkEntry (w2 0%nat) (w2 1%nat) (w2 2%nat) (w2 3%nat) (w4 2%nat)
    (words 4 12 (drop 12 d)) (w4 15%nat).

Definition entry_ok (e : InodeEntry) : Prop :=
  0 ≤ ie_type e < 2 ^ 16 ∧ 0 ≤ ie_major e < 2 ^ 16 ∧ 0 ≤ ie_minor e < 2 ^ 16 ∧
  0 ≤ ie_num_links e < 2 ^ 16 ∧ 0 ≤ ie_num_bytes e < 2 ^ 32 ∧
  length (ie_addrs e) = 12%nat ∧ Forall (λ a, 0 ≤ a < 2 ^ 32) (ie_addrs e) ∧
  0 ≤ ie_indirect e < 2 ^ 32.

Record DirEntry := mkDirEntry { de_inode_no : Z; de_name : list Z }.
Definition sizeof_DirEntry : Z := 16.
Definition encode_dirent (e : DirEntry) : list Z := le_bytes 2 (de_inode_no e) ++ de_name e.
Definition decode_dirent (d : list Z) : DirEntry :=
  mkDirEntry (le_val (take 2 d)) (take 14 (drop 2 d)).

Lemma length_encode_entry e : entry_ok e → length (encode_entry e) = 64%nat.
Proof.
  intros (_ & _ & _ & _ & _ & Hl & _).
  by rewrite /encode_entry !length_app !length_unwords !length_le_bytes Hl.
Qed.

Lemma decode_encode_entry e : entry_ok e → decode_entry (encode_entry e) = e.
Proof.
  intros (H1 & H2 & H3 & H4 & H5 & Hl & H6 & H7).
  assert (Hdrop : drop 12 (encode_entry e) = unwords 4 (ie_addrs e) ++ le_bytes 4 (ie_indirect e)).
  { done. }
  rewrite /decode_entry Hdrop.
  assert (Hw : words 4 12 (unwords 4 (ie_addrs e) ++ le_bytes 4 (ie_indirect e)) = ie_addrs e).
  { rewrite words_app; [by rewrite length_unwords Hl|]. by apply words_unwords. }
  rewrite Hw.
  assert (Hind : slice (encode_entry e) (4 * 15) 4 = le_bytes 4 (ie_indirect e)).
  { rewrite /slice. change (4 * 15)%nat with (12 + 48)%nat. rewrite -drop_drop Hdrop.
    rewrite drop_app_length' ?length_unwords ?Hl //. }
  rewrite Hind le_val_bytes //.
  destruct e as [t ma mi nl nb ad ind]; simpl in *.
  f_equal; try by apply (le_val_bytes 2); done.
  by apply (le_val_bytes 4).
Qed.
