(* ===== verification/Cache.v ===== *)
(** * Cache: the block cache and the write-ahead log of [fs/cache.c]

    The state holds the disk, the list of cached blocks (most recently used
    first, as [head.next] leads it), the in-memory log header and the log
    counters.  A [Block*] is the number of the block it caches: a block struct
    never changes its number and the list never holds two blocks with one
    number ([cache_ok]).  A read or write of a block the disk does not have is
    a fault.  [wtrace] records the device writes in order, so that a crash is a
    prefix of it.  [OpContext*] is an identifier of a context in [ctxs]; [None]
    is the null pointer. *)

From stdpp Require Import base numbers list gmap.
From S2P Require Import Prelude Bitmap Spinlock Bytes FsDefs.

Definition OP_MAX_NUM_BLOCKS : Z := 10.
Definition EVICTION_THRESHOLD : Z := 20.

Record Block := mkBlock {
  block_no : Z;
  acquired : bool;
  pinned : bool;
  lock_val : Z;      (* the count of the block's sleep lock *)
  valid : bool;
  data : list Z }.

Record LOG := mkLog {
  max_size : Z;
  outstanding : Z;
  log_used : Z;
  committing : bool;
  log_lock : SpinLock;
  log_sem_waiters : nat;           (* threads asleep on [log_sem] *)
  log_commit_sem_waiters : nat }.  (* threads asleep on [log_commit_sem] *)

Record cstate := mkCState {
  sblock : SuperBlock;
  disk : gmap Z (list Z);
  wtrace : list (Z * list Z);
  lock : SpinLock;
  head : list Block;
  header : LogHeader;
  cache_cnt : Z;
  swap_bitmap : list Z;
  log : LOG;
  ctxs : gmap Z Z }.               (* each open context's [rm] *)

(** ** Field updates *)
Definition set_disk d (s : cstate) := mkCState (sblock s) d (wtrace s) (lock s) (head s) (header s) (cache_cnt s) (swap_bitmap s) (log s) (ctxs s).
Definition set_wtrace w (s : cstate) := mkCState (sblock s) (disk s) w (lock s) (head s) (header s) (cache_cnt s) (swap_bitmap s) (log s) (ctxs s).
Definition set_head l (s : cstate) := mkCState (sblock s) (disk s) (wtrace s) (lock s) l (header s) (cache_cnt s) (swap_bitmap s) (log s) (ctxs s).
Definition set_header h (s : cstate) := mkCState (sblock s) (disk s) (wtrace s) (lock s) (head s) h (cache_cnt s) (swap_bitmap s) (log s) (ctxs s).
Definition set_cache_cnt n (s : cstate) := mkCState (sblock s) (disk s) (wtrace s) (lock s) (head s) (header s) n (swap_bitmap s) (log s) (ctxs s).
Definition set_swap_bitmap b (s : cstate) := mkCState (sblock s) (disk s) (wtrace s) (lock s) (head s) (header s) (cache_cnt s) b (log s) (ctxs s).
Definition set_log g (s : cstate) := mkCState (sblock s) (disk s) (wtrace s) (lock s) (head s) (header s) (cache_cnt s) (swap_bitmap s) g (ctxs s).
Definition set_ctxs c (s : cstate) := mkCState (sblock s) (disk s) (wtrace s) (lock s) (head s) (header s) (cache_cnt s) (swap_bitmap s) (log s) c.
Definition cache_lock : Lens cstate SpinLock :=
  mkLens lock (λ l s, mkCState (sblock s) (disk s) (wtrace s) l (head s) (header s) (cache_cnt s) (swap_bitmap s) (log s) (ctxs s)).
Definition log_lock_lens : Lens cstate SpinLock :=
  mkLens (λ s, log_lock (log s))
    (λ l s, set_log (mkLog (max_size (log s)) (outstanding (log s)) (log_used (log s)) (committing (log s)) l
                       (log_sem_waiters (log s)) (log_commit_sem_waiters (log s))) s).

Definition set_acquired (v : bool) (b : Block) := mkBlock (block_no b) v (pinned b) (lock_val b) (valid b) (data b).
Definition set_pinned (v : bool) (b : Block) := mkBlock (block_no b) (acquired b) v (lock_val b) (valid b) (data b).
Definition set_lock_val (v : Z) (b : Block) := mkBlock (block_no b) (acquired b) (pinned b) v (valid b) (data b).
Definition set_data (d : list Z) (b : Block) := mkBlock (block_no b) (acquired b) (pinned b) (lock_val b) (valid b) d.

Definition set_num_blocks (n : Z) (s : cstate) := set_header (mkHeader n (lh_block_no (header s))) s.
Definition set_log_counts (out used : Z) (s : cstate) :=
  set_log (mkLog (max_size (log s)) out used (committing (log s)) (log_lock (log s))
             (log_sem_waiters (log s)) (log_commit_sem_waiters (log s))) s.
Definition set_committing (c : bool) (s : cstate) :=
  set_log (mkLog (max_size (log s)) (outstanding (log s)) (log_used (log s)) c (log_lock (log s))
             (log_sem_waiters (log s)) (log_commit_sem_waiters (log s))) s.
Definition set_waiters (a b : nat) (s : cstate) :=
  set_log (mkLog (max_size (log s)) (outstanding (log s)) (log_used (log s)) (committing (log s))
             (log_lock (log s)) a b) s.

(** ** Device access *)
Definition dev_read (bno : Z) : M cstate (list Z) := s ← get; of_opt (disk s !! bno).
Definition dev_write (bno : Z) (d : list Z) : M cstate () :=
  s ← get; _ ← of_opt (disk s !! bno);
  modify (set_disk (<[bno := d]> (disk s)));; modify (set_wtrace (wtrace s ++ [(bno, d)])).

Definition read_header : M cstate () :=
  sb ← gets sblock; d ← dev_read (log_start sb); modify (set_header (decode_header d)).
Definition write_header : M cstate () :=
  sb ← gets sblock; h ← gets header; dev_write (log_start sb) (encode_header h).

(** ** Cached blocks *)
Definition init_block : Block := mkBlock 0 false false 1 false (replicate 512 0).

Fixpoint find_block (bno : Z) (l : list Block) : option Block :=
  match l with
  | [] => None
  | b :: l' => if decide (block_no b = bno) then Some b else find_block bno l'
  end.

(** Dereference a [Block*]. *)
Definition load_block (bno : Z) : M cstate Block := l ← gets head; of_opt (find_block bno l).
(** Write a field through a [Block*]. *)
Definition upd_block (bno : Z) (f : Block → Block) : M cstate () :=
  _ ← load_block bno;
  modify (λ s, set_head ((λ b, if decide (block_no b = bno) then f b else b) <$> head s) s).

(** [device_write(block)] *)
Definition device_write (bno : Z) : M cstate () := b ← load_block bno; dev_write (block_no b) (data b).

Definition get_num_cached_blocks : M cstate Z := gets cache_cnt.

(** The loop of [LRU_shrink], on the blocks from the tail towards the head:
    what stays, and the remaining count. *)
Fixpoint LRU_shrink_loop (l : list Block) (cnt : Z) : list Block * Z :=
  match l with
  | [] => ([], cnt)
  | b :: l' =>
      if EVICTION_THRESHOLD <=? cnt then
        if negb (pinned b) && negb (acquired b) then LRU_shrink_loop l' (cnt - 1)
        else let '(r, c) := LRU_shrink_loop l' cnt in (b :: r, c)
      else (l, cnt)
  end.
Definition LRU_shrink : M cstate () :=
  s ← get;
  let '(r, c) := LRU_shrink_loop (reverse (head s)) (cache_cnt s) in
  modify (set_head (reverse r));; modify (set_cache_cnt c).

(** [get_sem] and [post_sem] on the block's sleep lock, the count only. *)
Definition get_sem_block (bno : Z) : M cstate () :=
  upd_block bno (λ b, if 0 <? lock_val b then set_lock_val (lock_val b - 1) b else b).
Definition post_sem_block (bno : Z) : M cstate () :=
  upd_block bno (λ b, set_lock_val (lock_val b + 1) b).

(** One pass of [cache_acquire] from the label [__back]: [true] when the block
    is now held, [false] when the caller must sleep on the block's lock and
    come back with [if_back] set. *)
Definition cache_acquire_back (if_back : bool) (bno : Z) : M cstate bool :=
  _acquire_spinlock cache_lock;;
  l ← gets head;
  match find_block bno l with
  | Some cached_block =>
      if acquired cached_block then release_spinlock cache_lock;; mret false
      else
        modify (λ s, set_head (cached_block :: filter (λ b, block_no b ≠ bno) (head s)) s);;
        (if if_back : bool then mret () else get_sem_block bno);;
        upd_block bno (set_acquired true);;
        release_spinlock cache_lock;; mret true
  | None =>
      n ← get_num_cached_blocks;
      (if EVICTION_THRESHOLD <=? n then LRU_shrink else mret ());;
      modify (λ s, set_cache_cnt (cache_cnt s + 1) s);;
      d ← dev_read bno;
      modify (λ s, set_head (mkBlock bno (acquired init_block) (pinned init_block)
                               (lock_val init_block) true d :: head s) s);;
      get_sem_block bno;;
      upd_block bno (set_acquired true);;
      release_spinlock cache_lock;; mret true
  end.

(** With nobody else running, sleeping on a held block never ends. *)
Definition cache_acquire (bno : Z) : M cstate Z :=
  ok ← cache_acquire_back false bno;
  if ok : bool then mret bno else hang.

Definition cache_release (bno : Z) : M cstate () :=
  _acquire_spinlock cache_lock;;
  upd_block bno (set_acquired false);;
  post_sem_block bno;;
  release_spinlock cache_lock.

(** ** The log *)
Fixpoint recover_loop (n : nat) (i : Z) : M cstate () :=
  match n with
  | O => mret ()
  | S n =>
      sb ← gets sblock; h ← gets header;
      temp ← dev_read (log_start sb + i + 1);
      bno ← of_opt (lh_block_no h !! Z.to_nat i);
      dev_write bno temp;;
      recover_loop n (i + 1)
  end.

Definition recover_from_log : M cstate () :=
  read_header;;
  h ← gets header;
  recover_loop (Z.to_nat (lh_num_blocks h)) 0;;
  modify (set_num_blocks 0);;
  write_header.

(** [memset(swap_bitmap, 0, 25)]: the array is 25 bytes; the fourth 64-bit cell
    the code reads and writes has one byte of it, the rest is what follows it. *)
Definition clear_swap_bitmap (cells : list Z) : list Z :=
  [0; 0; 0; Z.shiftl (Z.shiftr (default 0 (cells !! 3%nat)) 8) 8].

Definition init_bcache : M cstate () :=
  s ← get;
  let sb := sblock s in
  put (mkCState sb (disk s) (wtrace s) init_spinlock [] (header s) 0 (swap_bitmap s)
         (mkLog (Z.min (u32 (num_log_blocks sb - 1)) LOG_MAX_SIZE) 0 0 false init_spinlock 0 0)
         (ctxs s));;
  recover_from_log;;
  modify (λ s, set_swap_bitmap (clear_swap_bitmap (swap_bitmap s)) s).

(** One round of the loop of [cache_begin_op]: [false] when the caller goes to
    sleep on [log_sem] (with [log_lock] released) and will try again. *)
Definition cache_begin_op_try (ctx : Z) : M cstate bool :=
  _acquire_spinlock log_lock_lens;;
  s ← get;
  let g := log s in
  if committing g || (max_size g <? log_used g + i32 (lh_num_blocks (header s)) + OP_MAX_NUM_BLOCKS)
  then
    modify (λ s, set_waiters (S (log_sem_waiters (log s))) (log_commit_sem_waiters (log s)) s);;
    release_spinlock log_lock_lens;; mret false
  else
    modify (set_log_counts (outstanding g + 1) (log_used g + OP_MAX_NUM_BLOCKS));;
    modify (λ s, set_ctxs (<[ctx := OP_MAX_NUM_BLOCKS]> (ctxs s)) s);;
    release_spinlock log_lock_lens;; mret true.

Definition cache_begin_op (ctx : Z) : M cstate () :=
  ok ← cache_begin_op_try ctx; if ok : bool then mret () else hang.

Definition cache_sync (ctx : option Z) (bno : Z) : M cstate () :=
  match ctx with
  | Some c =>
      _acquire_spinlock log_lock_lens;;
      b ← load_block bno;
      h ← gets header;
      let n := lh_num_blocks h in
      (if decide (block_no b ∈ take (Z.to_nat n) (lh_block_no h)) then mret ()
       else
         (if n <? LOG_MAX_SIZE
          then modify (set_header (mkHeader n (<[Z.to_nat n := block_no b]> (lh_block_no h))))
          else fault);;
         upd_block bno (set_pinned true);;
         cs ← gets ctxs; rm ← of_opt (cs !! c);
         if 0 <? rm then
           modify (λ s, set_ctxs (<[c := rm - 1]> (ctxs s)) s);;
           modify (λ s, set_log_counts (outstanding (log s)) (log_used (log s) - 1) s);;
           modify (λ s, set_num_blocks (lh_num_blocks (header s) + 1) s)
         else panic);;
      release_spinlock log_lock_lens
  | None => device_write bno
  end.

Fixpoint write_block_to_log_loop (n : nat) (i : Z) : M cstate () :=
  match n with
  | O => mret ()
  | S n =>
      sb ← gets sblock; h ← gets header;
      bno ← of_opt (lh_block_no h !! Z.to_nat i);
      b_op ← cache_acquire bno;
      b ← load_block b_op;
      dev_write (log_start sb + 1 + i) (data b);;
      upd_block b_op (set_pinned false);;
      cache_release b_op;;
      write_block_to_log_loop n (i + 1)
  end.
Definition write_block_to_log : M cstate () :=
  h ← gets header; write_block_to_log_loop (Z.to_nat (lh_num_blocks h)) 0.

Fixpoint persist_from_log_loop (n : nat) (i : Z) : M cstate () :=
  match n with
  | O => mret ()
  | S n =>
      sb ← gets sblock; h ← gets header;
      d ← dev_read (log_start sb + 1 + i);
      bno ← of_opt (lh_block_no h !! Z.to_nat i);
      b_op ← cache_acquire bno;
      upd_block b_op (set_data d);;
      device_write b_op;;
      cache_release b_op;;
      persist_from_log_loop n (i + 1)
  end.
Definition persist_from_log : M cstate () :=
  h ← gets header; persist_from_log_loop (Z.to_nat (lh_num_blocks h)) 0.

Definition checkpoint : M cstate () :=
  h ← gets header;
  if lh_num_blocks h <=? 0 then mret ()
  else
    write_block_to_log;;
    write_header;;
    persist_from_log;;
    modify (set_num_blocks 0);;
    write_header.

(** [true] when this thread committed, [false] when it goes to sleep on
    [log_commit_sem] until the last operation commits.  [post_all_sem] wakes
    every sleeper. *)
Definition cache_end_op (ctx : Z) : M cstate bool :=
  _acquire_spinlock log_lock_lens;;
  s ← get;
  rm ← of_opt (ctxs s !! ctx);
  modify (set_log_counts (outstanding (log s) - 1) (log_used (log s) - rm));;
  modify (λ s, set_ctxs (delete ctx (ctxs s)) s);;
  g ← gets log;
  if outstanding g =? 0 then
    modify (set_committing true);;
    release_spinlock log_lock_lens;;
    checkpoint;;
    modify (set_committing false);;
    modify (set_waiters 0 0);;
    mret true
  else
    modify (λ s, set_waiters 0 (S (log_commit_sem_waiters (log s))) s);;
    release_spinlock log_lock_lens;;
    mret false.

(** ** The block allocator *)
Definition data_cells (d : list Z) : list Z := words 8 64 d.
Definition cells_data (c : list Z) : list Z := unwords 8 c.

(** The number of blocks [cache_alloc] hands out: the swap area is excluded. *)
Definition alloc_bound (sb : SuperBlock) : Z := u32 (num_blocks sb - SWAP_SIZE).

(** The inner scan for a clear bit from [i]: [Some (Some i)] found, [Some None]
    not found, [None] a read past the bitmap. *)
Fixpoint scan_bitmap (fuel : nat) (bitmap : list Z) (index i bound : Z) : option (option Z) :=
  match fuel with
  | O => Some None
  | S fuel =>
      if (i <? BIT_PER_BLOCK) && (index + i <? bound) then
        if_valid ← bitmap_get bitmap i;
        if if_valid : bool then scan_bitmap fuel bitmap index (i + 1) bound
        else Some (Some i)
      else Some None
  end.

Fixpoint cache_alloc_loop (fuel : nat) (ctx : option Z) (index : Z) : M cstate Z :=
  sb ← gets sblock;
  if index <? alloc_bound sb then
    match fuel with
    | O => nofuel
    | S fuel =>
        bitmap_block ← cache_acquire (index / BIT_PER_BLOCK + bitmap_start sb);
        b ← load_block bitmap_block;
        r ← of_opt (scan_bitmap (Z.to_nat BIT_PER_BLOCK) (data_cells (data b)) index 0 (alloc_bound sb));
        match r with
        | Some i =>
            bm ← of_opt (bitmap_set (data_cells (data b)) i);
            upd_block bitmap_block (set_data (cells_data bm));;
            cache_sync ctx bitmap_block;;
            cache_release bitmap_block;;
            alloc_block ← cache_acquire (index + i);
            upd_block alloc_block (set_data (replicate 512 0));;
            cache_sync ctx alloc_block;;
            cache_release alloc_block;;
            mret (index + i)
        | None =>
            cache_release bitmap_block;;
            cache_alloc_loop fuel ctx (index + BIT_PER_BLOCK)
        end
    end
  else panic.

(** One round per bitmap block up to the bound, and one for the exit test. *)
Definition cache_alloc (ctx : option Z) : M cstate Z :=
  sb ← gets sblock;
  cache_alloc_loop (S (Z.to_nat (alloc_bound sb / BIT_PER_BLOCK))) ctx 0.

Definition cache_free (ctx : option Z) (bno : Z) : M cstate () :=
  sb ← gets sblock;
  bitmap_block ← cache_acquire (bno / BIT_PER_BLOCK + bitmap_start sb);
  b ← load_block bitmap_block;
  let index := bno mod BIT_PER_BLOCK in
  if_valid ← of_opt (bitmap_get (data_cells (data b)) index);
  if if_valid : bool then
    bm ← of_opt (bitmap_clear (data_cells (data b)) index);
    upd_block bitmap_block (set_data (cells_data bm));;
    cache_sync ctx bitmap_block;;
    cache_release bitmap_block
  else panic.

(** ** The swap area: eight consecutive blocks at a time *)
Fixpoint release_8_blocks_loop (n : nat) (i : Z) : M cstate () :=
  match n with
  | O => mret ()
  | S n =>
      bm ← gets swap_bitmap;
      bm' ← of_opt (bitmap_clear bm (u32 (i - SWAP_START)));
      modify (set_swap_bitmap bm');;
      release_8_blocks_loop n (i + 1)
  end.
Definition release_8_blocks (bno : Z) : M cstate () := release_8_blocks_loop 8 bno.

Fixpoint set_8_blocks_loop (n : nat) (j : Z) : M cstate () :=
  match n with
  | O => mret ()
  | S n =>
      bm ← gets swap_bitmap;
      bm' ← of_opt (bitmap_set bm (u32 (j - SWAP_START)));
      modify (set_swap_bitmap bm');;
      set_8_blocks_loop n (j + 1)
  end.

Fixpoint find_and_set_8_blocks_loop (n : nat) (i cnt ret : Z) : M cstate Z :=
  match n with
  | O => panic
  | S n =>
      bm ← gets swap_bitmap;
      b ← of_opt (bitmap_get bm (i - SWAP_START));
      let '(cnt, ret) :=
        if b : bool then (0, ret) else (cnt + 1, if cnt =? 0 then i else ret) in
      if cnt =? 8 then set_8_blocks_loop 8 ret;; mret ret
      else find_and_set_8_blocks_loop n (i + 1) cnt ret
  end.
Definition find_and_set_8_blocks : M cstate Z :=
  find_and_set_8_blocks_loop (Z.to_nat (SWAP_END - SWAP_START)) SWAP_START 0 0.
