(* ===== verification/CacheList.v ===== *)
(** * CacheList: the list of cached blocks

    How the cache operations change the list of blocks, and the invariant that
    no block number is cached twice. *)

From stdpp Require Import base numbers list gmap.
From S2P Require Import Prelude Spinlock Bytes FsDefs Cache.

Definition block_nos (l : list Block) : list Z := block_no <$> l.

Definition cache_ok (s : cstate) : Prop :=
  lock s = false ∧ NoDup (block_nos (head s)) ∧ cache_cnt s = Z.of_nat (length (head s)).

(** ** Looking blocks up *)
Lemma find_block_Some b l x : find_block b l = Some x → x ∈ l ∧ block_no x = b.
Proof.
  induction l as [|y l IH]; simpl; [done|]. case_decide; [|set_solver].
  intros [= ->]. set_solver.
Qed.

Lemma find_block_None b l : find_block b l = None ↔ b ∉ block_nos l.
Proof.
  induction l as [|y l IH]; simpl; [set_solver|]. case_decide; set_solver.
Qed.

Lemma find_block_elem b l : b ∈ block_nos l → is_Some (find_block b l).
Proof.
  intros Hb. destruct (find_block b l) eqn:E; [eauto|]. by apply find_block_None in E.
Qed.

(** A function that leaves the block number alone. *)
Definition keeps_no (f : Block → Block) : Prop := ∀ x, block_no (f x) = block_no x.

Definition map_block (b : Z) (f : Block → Block) (l : list Block) : list Block :=
  (λ x, if decide (block_no x = b) then f x else x) <$> l.

Lemma map_block_nos b f l : keeps_no f → block_nos (map_block b f l) = block_nos l.
Proof.
  intros Hf. rewrite /block_nos /map_block -list_fmap_compose. apply list_fmap_ext.
  intros i x _. simpl. case_decide; [apply Hf|done].
Qed.

Lemma find_map_block b f l b' :
  keeps_no f →
  find_block b' (map_block b f l) =
    (if decide (b' = b) then f else id) <$> find_block b' l.
Proof.
  intros Hf. induction l as [|x l IH]; simpl; [done|].
  destruct (decide (block_no x = b)) as [Hx|Hx]; rewrite ?Hf IH;
    destruct (decide (b' = b)); destruct (decide (block_no x = b')); simpl; congruence.
Qed.

Definition to_front (b : Z) (x : Block) (l : list Block) : list Block :=
  x :: filter (λ y, block_no y ≠ b) l.

Lemma find_filter_ne b b' l : b' ≠ b → find_block b' (filter (λ y, block_no y ≠ b) l) = find_block b' l.
Proof.
  intros Hne. induction l as [|x l IH]; [done|]. rewrite filter_cons. simpl.
  destruct (decide (block_no x ≠ b)) as [H|H]; simpl; destruct (decide (block_no x = b')); try done.
  exfalso. apply H. congruence.
Qed.

Lemma block_nos_filter b l : block_nos (filter (λ y, block_no y ≠ b) l) = filter (λ n, n ≠ b) (block_nos l).
Proof.
  induction l as [|x l IH]; [done|]. rewrite filter_cons /= filter_cons.
  destruct (decide (block_no x ≠ b)); simpl; by rewrite ?IH.
Qed.

Lemma find_to_front b x l b' :
  block_no x = b → find_block b' (to_front b x l) = if decide (b' = b) then Some x else find_block b' l.
Proof.
  intros Hx. simpl. destruct (decide (b' = b)) as [->|Hne].
  - by rewrite decide_True.
  - rewrite decide_False; [congruence|]. by apply find_filter_ne.
Qed.

Lemma to_front_nodup b x l : block_no x = b → NoDup (block_nos l) → NoDup (block_nos (to_front b x l)).
Proof.
  intros Hx Hnd. rewrite /to_front /=. apply NoDup_cons. rewrite block_nos_filter. split.
  - rewrite list_elem_of_filter. naive_solver.
  - by apply NoDup_filter.
Qed.

Lemma length_filter_one b l :
  NoDup (block_nos l) → b ∈ block_nos l →
  S (length (filter (λ y, block_no y ≠ b) l)) = length l.
Proof.
  induction l as [|x l IH]; simpl; [set_solver|]. intros Hnd Hb.
  apply NoDup_cons in Hnd as [Hx Hnd]. rewrite filter_cons.
  destruct (decide (block_no x ≠ b)) as [Hne|He]; simpl.
  - f_equal. apply IH; [done|]. set_solver.
  - apply dec_stable in He. subst b. f_equal.
    clear IH Hnd Hb. induction l as [|y l IH]; [done|]. rewrite filter_cons.
    rewrite decide_True; [set_solver|]. simpl. f_equal. apply IH. set_solver.
Qed.

Lemma length_to_front b x l :
  block_no x = b → NoDup (block_nos l) → b ∈ block_nos l → length (to_front b x l) = length l.
Proof. intros. simpl. by apply length_filter_one. Qed.

(** ** Runs of the primitives *)
Lemma dev_read_run a d s : disk s !! a = Some d → dev_read a s = Ret d s.
Proof. intros Hx. rewrite /dev_read. run_simpl. by rewrite Hx. Qed.

Lemma load_block_run b s x : find_block b (head s) = Some x → load_block b s = Ret x s.
Proof. intros Hx. rewrite /load_block. run_simpl. by rewrite Hx. Qed.

Lemma upd_block_run b f s :
  is_Some (find_block b (head s)) → upd_block b f s = Ret () (set_head (map_block b f (head s)) s).
Proof. intros [x Hx]. by rewrite /upd_block (bind_run _ _ _ _ _ (load_block_run _ _ _ Hx)). Qed.

Lemma keeps_set_acquired v : keeps_no (set_acquired v). Proof. done. Qed.
Lemma keeps_set_pinned v : keeps_no (set_pinned v). Proof. done. Qed.
Lemma keeps_set_data v : keeps_no (set_data v). Proof. done. Qed.
Lemma keeps_get_sem : keeps_no (λ b, if 0 <? lock_val b then set_lock_val (lock_val b - 1) b else b).
Proof. intros x. by destruct (0 <? lock_val x). Qed.
Lemma keeps_post_sem : keeps_no (λ b, set_lock_val (lock_val b + 1) b). Proof. done. Qed.
#[export] Hint Resolve keeps_set_acquired keeps_set_pinned keeps_set_data keeps_get_sem keeps_post_sem : core.

(** What [get_sem] and [post_sem] leave of the lock count. *)
Definition sem_taken (x : Block) : Block :=
  if 0 <? lock_val x then set_lock_val (lock_val x - 1) x else x.

(** [l'] caches the same blocks as [l], with [f] applied to block [b]. *)
Definition changes (b : Z) (f : Block → Block) (l l' : list Block) : Prop :=
  NoDup (block_nos l') ∧ length l' = length l ∧
  ∀ b', find_block b' l' = (if decide (b' = b) then f else id) <$> find_block b' l.

Lemma map_block_changes b f l : keeps_no f → NoDup (block_nos l) → changes b f l (map_block b f l).
Proof.
  intros Hf Hnd. split_and!.
  - by rewrite map_block_nos.
  - by rewrite /map_block length_fmap.
  - intros b'. by apply find_map_block.
Qed.

Lemma changes_trans b f g l l' l'' :
  changes b f l l' → changes b g l' l'' → changes b (g ∘ f) l l''.
Proof.
  intros (H1 & H2 & H3) (H4 & H5 & H6). split_and!; [done|lia|].
  intros b'. rewrite H6 H3. case_decide; by destruct (find_block b' l).
Qed.

Lemma to_front_changes b x l :
  NoDup (block_nos l) → find_block b l = Some x → changes b id l (to_front b x l).
Proof.
  intros Hnd Hx. pose proof (find_block_Some _ _ _ Hx) as [Hin Hb]. split_and!.
  - by apply to_front_nodup.
  - apply length_to_front; [done..|]. subst b. by apply list_elem_of_fmap_2.
  - intros b'. rewrite find_to_front //. destruct (decide (b' = b)) as [->|]; [by rewrite Hx|].
    by destruct (find_block b' l).
Qed.

Lemma cache_acquire_hit s b x :
  cache_ok s → find_block b (head s) = Some x → acquired x = false →
  ∃ l', cache_acquire b s = Ret b (set_head l' s) ∧
        changes b (set_acquired true ∘ sem_taken) (head s) l'.
Proof.
  intros (Hl & Hnd & Hcnt) Hx Hacq.
  pose proof (to_front_changes _ _ _ Hnd Hx) as Hc1.
  set (l1 := to_front b x (head s)) in *.
  pose proof (map_block_changes b sem_taken l1 keeps_get_sem (proj1 Hc1)) as Hc2.
  set (l2 := map_block b sem_taken l1) in *.
  pose proof (map_block_changes b (set_acquired true) l2 (keeps_set_acquired _) (proj1 Hc2)) as Hc3.
  set (l3 := map_block b (set_acquired true) l2) in *.
  assert (Hs1 : is_Some (find_block b l1)).
  { rewrite (proj2 (proj2 Hc1)) decide_True // Hx. eauto. }
  assert (Hs2 : is_Some (find_block b l2)).
  { rewrite (proj2 (proj2 Hc2)) decide_True //. by apply fmap_is_Some. }
  exists l3. split.
  - rewrite /cache_acquire /cache_acquire_back. unfold mbind at 1, M_bind at 1.
    rewrite (bind_run _ _ _ () (lset cache_lock true s)); [by rewrite acquire_run /= Hl|].
    erewrite bind_run; [|done]. simpl (head _). rewrite Hx Hacq.
    erewrite bind_run; [|done].
    erewrite bind_run; last first. { apply upd_block_run. exact Hs1. }
    erewrite bind_run; last first. { apply upd_block_run. exact Hs2. }
    rewrite /release_spinlock. run_simpl. destruct s; simpl in *. by subst.
  - pose proof (changes_trans _ _ _ _ _ _ (changes_trans _ _ _ _ _ _ Hc1 Hc2) Hc3) as Hc.
    exact Hc.
Qed.

Lemma cache_release_run s b x :
  cache_ok s → find_block b (head s) = Some x →
  ∃ l', cache_release b s = Ret () (set_head l' s) ∧
        changes b ((λ y, set_lock_val (lock_val y + 1) y) ∘ set_acquired false) (head s) l'.
Proof.
  intros (Hl & Hnd & Hcnt) Hx.
  pose proof (map_block_changes b (set_acquired false) (head s) (keeps_set_acquired _) Hnd) as Hc1.
  set (l1 := map_block b (set_acquired false) (head s)) in *.
  pose proof (map_block_changes b _ l1 keeps_post_sem (proj1 Hc1)) as Hc2.
  assert (Hs1 : is_Some (find_block b l1)).
  { rewrite (proj2 (proj2 Hc1)) decide_True // Hx. eauto. }
  eexists. split; [|exact (changes_trans _ _ _ _ _ _ Hc1 Hc2)].
  rewrite /cache_release.
  rewrite (bind_run _ _ _ () (lset cache_lock true s)); [by rewrite acquire_run /= Hl|].
  erewrite bind_run; last first. { apply upd_block_run. simpl. rewrite Hx. eauto. }
  erewrite bind_run; last first. { apply upd_block_run. exact Hs1. }
  rewrite release_run. destruct s; simpl in *. by subst.
Qed.

Lemma cache_ok_set_head s l : cache_ok s → NoDup (block_nos l) → length l = length (head s) →
  cache_ok (set_head l s).
Proof. intros (? & ? & ?) ? Hlen. split_and!; simpl; try done. by rewrite Hlen. Qed.

Lemma cache_ok_changes s b f l : cache_ok s → changes b f (head s) l → cache_ok (set_head l s).
Proof. intros ? (? & ? & _). by apply cache_ok_set_head. Qed.
