(* ===== verification/CacheLog.v ===== *)
(** * CacheLog: the write-ahead log commits atomically

    What [checkpoint] and [recover_from_log] of [fs/cache.c] write to the disk,
    and why a crash between any two of those writes, during the commit or
    during any number of recoveries, leaves either all the logged blocks or
    none of them. *)

From stdpp Require Import base numbers list gmap.
From S2P Require Import Prelude Spinlock Bytes FsDefs Cache CacheList.

Notation write := (Z * list Z)%type (only parsing).
Notation disk_t := (gmap Z (list Z)) (only parsing).

(** ** Sequences of device writes *)
Definition apply_writes (ws : list write) (D : disk_t) : disk_t :=
  foldl (λ D w, <[w.1 := w.2]> D) D ws.

Definition do_writes (ws : list write) (s : cstate) : cstate :=
  set_wtrace (wtrace s ++ ws) (set_disk (apply_writes ws (disk s)) s).

(** Consecutive blocks from [a]. *)
Fixpoint log_writes (a : Z) (ds : list (list Z)) : list write :=
  match ds with
  | [] => []
  | d :: ds => (a, d) :: log_writes (a + 1) ds
  end.

Lemma apply_writes_app ws ws' D : apply_writes (ws ++ ws') D = apply_writes ws' (apply_writes ws D).
Proof. apply foldl_app. Qed.

Lemma do_writes_app ws ws' s : do_writes ws' (do_writes ws s) = do_writes (ws ++ ws') s.
Proof. destruct s. rewrite /do_writes /set_wtrace /set_disk /=. by rewrite apply_writes_app -app_assoc. Qed.

Lemma set_head_do_writes l l' ws s : set_head l (do_writes ws (set_head l' s)) = do_writes ws (set_head l s).
Proof. by destruct s. Qed.

Lemma do_writes_nil s : do_writes [] s = s.
Proof. destruct s. by rewrite /do_writes /set_wtrace /set_disk /= app_nil_r. Qed.

Lemma apply_writes_notin ws D a : a ∉ ws.*1 → apply_writes ws D !! a = D !! a.
Proof.
  revert D. induction ws as [|[b d] ws IH]; intros D Ha; simpl; [done|].
  rewrite IH; [set_solver|]. rewrite lookup_insert_ne //. set_solver.
Qed.

Lemma apply_writes_in ws D a d : NoDup ws.*1 → (a, d) ∈ ws → apply_writes ws D !! a = Some d.
Proof.
  revert D. induction ws as [|[b e] ws IH]; intros D; simpl; [set_solver|].
  intros [Hb Hnd]%NoDup_cons [[= -> ->]|Hin]%elem_of_cons.
  - rewrite apply_writes_notin //. apply lookup_insert_eq.
  - by apply IH.
Qed.

Lemma apply_writes_is_Some ws D a : is_Some (D !! a) → is_Some (apply_writes ws D !! a).
Proof.
  revert D. induction ws as [|[b d] ws IH]; intros D Ha; simpl; [done|].
  apply IH. destruct (decide (b = a)) as [->|]; [rewrite lookup_insert_eq|rewrite lookup_insert_ne //]; eauto.
Qed.

Lemma elem_log_writes a ds b : b ∈ (log_writes a ds).*1 ↔ a ≤ b < a + Z.of_nat (length ds).
Proof.
  revert a. induction ds as [|d ds IH]; intros a; simpl; [set_solver by lia|].
  rewrite elem_of_cons IH. lia.
Qed.

Lemma log_writes_nodup a ds : NoDup (log_writes a ds).*1.
Proof.
  revert a. induction ds as [|d ds IH]; intros a; simpl; constructor; [|apply IH].
  rewrite elem_log_writes. lia.
Qed.

Lemma log_writes_elem a ds i d : ds !! i = Some d → (a + Z.of_nat i, d) ∈ log_writes a ds.
Proof.
  revert a i. induction ds as [|e ds IH]; intros a i; [done|].
  destruct i as [|i].
  - intros [= ->]. rewrite Z.add_0_r. apply list_elem_of_here.
  - intros Hi. apply (IH (a + 1)) in Hi. rewrite Nat2Z.inj_succ.
    replace (a + Z.succ (Z.of_nat i)) with (a + 1 + Z.of_nat i) by lia. by right.
Qed.

Lemma length_log_writes a ds : length (log_writes a ds) = length ds.
Proof. revert a. induction ds as [|d ds IH]; intros a; simpl; [done|by rewrite IH]. Qed.

Lemma zip_fst {A B} (l : list A) (k : list B) : length l = length k → (zip l k).*1 = l.
Proof. intros. apply fst_zip. lia. Qed.

(** ** Disks that agree outside the log *)
Definition in_log (sb : SuperBlock) (a : Z) : Prop :=
  log_start sb ≤ a < log_start sb + num_log_blocks sb.

Definition eq_off (sb : SuperBlock) (D D' : disk_t) : Prop := ∀ a, ¬ in_log sb a → D !! a = D' !! a.

#[export] Instance eq_off_equivalence sb : Equivalence (eq_off sb).
Proof.
  split; [done| |].
  - intros D D' H a Ha. symmetry. by apply H.
  - intros D D' D'' H H' a Ha. etrans; [by apply H|by apply H'].
Qed.

#[export] Instance apply_writes_proper sb ws : Proper (eq_off sb ==> eq_off sb) (apply_writes ws).
Proof.
  induction ws as [|[b d] ws IH]; intros D D' H; [done|]. simpl. apply IH.
  intros a Ha. destruct (decide (b = a)) as [->|]; [by rewrite !lookup_insert_eq|].
  rewrite !lookup_insert_ne //. by apply H.
Qed.

(** Writes into the log are invisible outside it. *)
Lemma apply_in_log sb ws D : Forall (λ w, in_log sb w.1) ws → eq_off sb (apply_writes ws D) D.
Proof.
  intros Hws a Ha. apply apply_writes_notin. intros ([b d] & -> & Hin)%list_elem_of_fmap.
  apply Ha. rewrite Forall_forall in Hws. by apply (Hws _ Hin).
Qed.

(** ** Cached contents, up to the order and the lock words of the blocks *)
Definition view (l : list Block) (b : Z) : option (bool * list Z) :=
  (λ x, (acquired x, data x)) <$> find_block b l.

Definition same_data (l l' : list Block) : Prop :=
  NoDup (block_nos l') ∧ length l' = length l ∧ ∀ b, view l' b = view l b.

Lemma same_data_refl l : NoDup (block_nos l) → same_data l l.
Proof. done. Qed.

Lemma same_data_trans l l' l'' : same_data l l' → same_data l' l'' → same_data l l''.
Proof.
  intros (_ & H1 & H2) (H3 & H4 & H5). split_and!; [done|congruence|].
  intros b. by rewrite H5.
Qed.

Lemma changes_same_data b f l l' :
  changes b f l l' →
  (∀ x, find_block b l = Some x → acquired (f x) = acquired x ∧ data (f x) = data x) →
  same_data l l'.
Proof.
  intros (H1 & H2 & H3) Hf. split_and!; [done..|]. intros b'. rewrite /view H3.
  destruct (decide (b' = b)) as [->|]; [|by destruct (find_block b' l)].
  destruct (find_block b l) as [x|] eqn:E; [|done]. destruct (Hf x) as [Ha Hd]; [done|].
  by rewrite /= Ha Hd.
Qed.

Lemma view_Some l b a d :
  view l b = Some (a, d) → ∃ x, find_block b l = Some x ∧ acquired x = a ∧ data x = d.
Proof. rewrite /view. intros (x & Hx & [= -> ->])%fmap_Some. eauto. Qed.

Lemma dev_write_run a d s : is_Some (disk s !! a) → dev_write a d s = Ret () (do_writes [(a, d)] s).
Proof. intros [x Hx]. rewrite /dev_write. run_simpl. by rewrite Hx. Qed.

(** Acquire a block nobody holds, do something to it that keeps the list of
    blocks but for [g] on that block, and release it. *)
Lemma acquire_use_release s b x ws g :
  cache_ok s → find_block b (head s) = Some x → acquired x = false →
  keeps_no g → acquired ∘ g = acquired → (data (g (set_acquired true (sem_taken x))) = data x) →
  ∃ l1 l',
    cache_acquire b s = Ret b (set_head l1 s) ∧
    find_block b l1 = Some (set_acquired true (sem_taken x)) ∧
    cache_release b (do_writes ws (set_head (map_block b g l1) s)) = Ret () (do_writes ws (set_head l' s)) ∧
    find_block b (map_block b g l1) = Some (g (set_acquired true (sem_taken x))) ∧
    same_data (head s) l'.
Proof.
  intros Hok Hx Hacq Hg Hga Hgd.
  destruct (cache_acquire_hit _ _ _ Hok Hx Hacq) as (l1 & Hrun & Hc1).
  pose proof (map_block_changes b g l1 Hg (proj1 Hc1)) as Hc2.
  assert (Hf1 : find_block b l1 = Some (set_acquired true (sem_taken x))).
  { by rewrite (proj2 (proj2 Hc1)) decide_True // Hx. }
  assert (Hf2 : find_block b (map_block b g l1) = Some (g (set_acquired true (sem_taken x)))).
  { by rewrite (proj2 (proj2 Hc2)) decide_True // Hf1. }
  pose proof (changes_trans _ _ _ _ _ _ Hc1 Hc2) as Hc12.
  destruct (cache_release_run (do_writes ws (set_head (map_block b g l1) s)) b
              (g (set_acquired true (sem_taken x)))) as (l' & Hrun' & Hc3).
  { destruct s. exact (cache_ok_changes _ _ _ _ Hok Hc12). }
  { done. }
  exists l1, l'. split_and!; [done|done| |done|].
  - rewrite Hrun'. by destruct s.
  - eapply changes_same_data; [exact (changes_trans _ _ _ _ _ _ Hc12 Hc3)|].
    intros y Hy. rewrite Hx in Hy. injection Hy as <-. simpl. by rewrite Hgd Hacq.
Qed.

Lemma cache_ok_do_writes ws s l :
  cache_ok s → same_data (head s) l → cache_ok (do_writes ws (set_head l s)).
Proof. intros Hok (H1 & H2 & _). destruct s. by apply (cache_ok_set_head _ l) in Hok. Qed.

(** The blocks to commit: their numbers in the header from index [i] on, and
    their cached contents, held by nobody. *)
Definition pending (s : cstate) (i : nat) (bs : list Z) (ds : list (list Z)) : Prop :=
  (∀ k b, bs !! k = Some b → lh_block_no (header s) !! (i + k)%nat = Some b) ∧
  Forall2 (λ b d, view (head s) b = Some (false, d)) bs ds.

Lemma pending_cons s i b bs d ds :
  pending s i (b :: bs) (d :: ds) →
  lh_block_no (header s) !! i = Some b ∧ view (head s) b = Some (false, d) ∧ pending s (S i) bs ds.
Proof.
  intros [H1 H2]. apply Forall2_cons in H2 as [H2 H3]. split_and!; [|done|].
  - rewrite -(H1 0%nat b) //. by rewrite Nat.add_0_r.
  - split; [|done]. intros k b' Hk. rewrite -(H1 (S k) b') //. f_equal. lia.
Qed.

Lemma pending_same_data s s' i bs ds :
  header s' = header s → same_data (head s) (head s') → pending s i bs ds → pending s' i bs ds.
Proof.
  intros Hh (_ & _ & Hv) [H1 H2]. split; [by rewrite Hh|].
  eapply Forall2_impl; [exact H2|]. intros b d <-. apply Hv.
Qed.

Lemma write_block_to_log_loop_run bs ds : ∀ s i,
  cache_ok s → pending s i bs ds →
  (∀ k, (k < length ds)%nat → is_Some (disk s !! (log_start (sblock s) + 1 + Z.of_nat (i + k)))) →
  ∃ l', write_block_to_log_loop (length bs) (Z.of_nat i) s =
          Ret () (do_writes (log_writes (log_start (sblock s) + 1 + Z.of_nat i) ds) (set_head l' s)) ∧
        same_data (head s) l'.
Proof.
  revert ds. induction bs as [|b bs IH]; intros ds s i Hok Hp Hdisk.
  { destruct Hp as [_ Hp]. apply Forall2_nil_inv_l in Hp as ->. exists (head s).
    split; [|by apply same_data_refl, Hok]. simpl. rewrite do_writes_nil. by destruct s. }
  pose proof (proj2 Hp) as Hp2. apply Forall2_cons_inv_l in Hp2 as (d & ds' & _ & _ & ->). rename ds' into ds.
  apply pending_cons in Hp as (Hb & Hv & Hp).
  apply view_Some in Hv as (x & Hx & Hacq & Hd).
  set (a := log_start (sblock s) + 1 + Z.of_nat i).
  destruct (acquire_use_release s b x [(a, d)] (set_pinned false) Hok Hx Hacq) as
    (l1 & l' & Hrun1 & Hf1 & Hrun2 & _ & Hsame); [done|done|by simpl; rewrite /sem_taken; case_match|].
  assert (Hd1 : data (set_acquired true (sem_taken x)) = d).
  { rewrite -Hd /sem_taken. by destruct (0 <? lock_val x). }
  destruct (IH ds (do_writes [(a, d)] (set_head l' s)) (S i)) as (l'' & Hrun3 & Hsame').
  { by apply cache_ok_do_writes. }
  { eapply pending_same_data; [| |exact Hp]; done. }
  { intros k Hk. apply apply_writes_is_Some. specialize (Hdisk (S k)). simpl in *.
    replace (S (i + k)) with (i + S k)%nat by lia. apply Hdisk. lia. }
  exists l''. split.
  - simpl length. simpl write_block_to_log_loop.
    erewrite bind_run; [|done]. erewrite bind_run; [|done]. rewrite Nat2Z.id.
    erewrite bind_run; [|exact (of_opt_run _ _ _ Hb)]. erewrite bind_run; [|exact Hrun1].
    erewrite bind_run; [|exact (load_block_run _ (set_head l1 s) _ Hf1)]. rewrite Hd1.
    erewrite bind_run; last first.
    { apply dev_write_run. specialize (Hdisk 0%nat). rewrite Nat.add_0_r in Hdisk.
      apply Hdisk. simpl. lia. }
    erewrite bind_run; last first. { apply upd_block_run. simpl. by rewrite Hf1. }
    erewrite bind_run; last first.
    { destruct s. exact Hrun2. }
    replace (Z.of_nat i + 1) with (Z.of_nat (S i)) by lia. rewrite Hrun3. f_equal.
    simpl. rewrite -/a. replace (log_start (sblock s) + 1 + Z.of_nat (S i)) with (a + 1) by lia.
    by rewrite set_head_do_writes do_writes_app.
  - exact (same_data_trans _ _ _ Hsame Hsame').
Qed.

Lemma persist_from_log_loop_run bs ds : ∀ s i,
  cache_ok s → pending s i bs ds →
  (∀ k d, ds !! k = Some d → disk s !! (log_start (sblock s) + 1 + Z.of_nat (i + k)) = Some d) →
  Forall (λ b, is_Some (disk s !! b) ∧
               ¬ (log_start (sblock s) + 1 + Z.of_nat i ≤ b
                  < log_start (sblock s) + 1 + Z.of_nat (i + length ds))) bs →
  ∃ l', persist_from_log_loop (length bs) (Z.of_nat i) s = Ret () (do_writes (zip bs ds) (set_head l' s)) ∧
        same_data (head s) l'.
Proof.
  revert ds. induction bs as [|b bs IH]; intros ds s i Hok Hp Hlog Hout.
  { exists (head s). split; [|by apply same_data_refl, Hok]. simpl. rewrite do_writes_nil. by destruct s. }
  pose proof (proj2 Hp) as Hp2. apply Forall2_cons_inv_l in Hp2 as (d & ds' & _ & _ & ->). rename ds' into ds.
  apply pending_cons in Hp as (Hb & Hv & Hp).
  apply view_Some in Hv as (x & Hx & Hacq & Hd).
  apply Forall_cons in Hout as [[Hbd Hbn] Hout]. simpl length in *.
  destruct (acquire_use_release s b x [(b, d)] (set_data d) Hok Hx Hacq) as
    (l1 & l' & Hrun1 & Hf1 & Hrun2 & Hf2 & Hsame); [done|done|done|].
  pose proof (proj2 (find_block_Some _ _ _ Hf1)) as Hno.
  destruct (IH ds (do_writes [(b, d)] (set_head l' s)) (S i)) as (l'' & Hrun3 & Hsame').
  { by apply cache_ok_do_writes. }
  { eapply pending_same_data; [| |exact Hp]; done. }
  { intros k e Hk. simpl. pose proof (Hlog (S k) e Hk) as He. apply lookup_lt_Some in Hk.
    rewrite lookup_insert_ne; [lia|]. by replace (S (i + k)) with (i + S k)%nat by lia. }
  { eapply Forall_impl; [exact Hout|]. intros c [Hc Hcn]. split; [by apply (apply_writes_is_Some [(b, d)])|].
    simpl. lia. }
  exists l''. split.
  - simpl persist_from_log_loop.
    erewrite bind_run; [|done]. erewrite bind_run; [|done]. rewrite Nat2Z.id.
    erewrite bind_run; last first.
    { apply dev_read_run. pose proof (Hlog 0%nat d eq_refl) as H0. rewrite Nat.add_0_r in H0. exact H0. }
    erewrite bind_run; [|exact (of_opt_run _ _ _ Hb)]. erewrite bind_run; [|exact Hrun1].
    erewrite bind_run; last first. { apply upd_block_run. simpl. by rewrite Hf1. }
    erewrite bind_run; last first.
    { rewrite /device_write. erewrite bind_run; [|apply load_block_run; exact Hf2].
      simpl block_no in *. simpl data. rewrite Hno. apply dev_write_run. exact Hbd. }
    erewrite bind_run; last first. { destruct s. exact Hrun2. }
    replace (Z.of_nat i + 1) with (Z.of_nat (S i)) by lia. rewrite Hrun3. f_equal.
    by rewrite set_head_do_writes do_writes_app.
  - exact (same_data_trans _ _ _ Hsame Hsame').
Qed.

Lemma recover_loop_run bs ds : ∀ s i,
  (∀ k b, bs !! k = Some b → lh_block_no (header s) !! (i + k)%nat = Some b) →
  length bs = length ds →
  (∀ k d, ds !! k = Some d → disk s !! (log_start (sblock s) + Z.of_nat (i + k) + 1) = Some d) →
  Forall (λ b, is_Some (disk s !! b) ∧
               ¬ (log_start (sblock s) + 1 + Z.of_nat i ≤ b
                  < log_start (sblock s) + 1 + Z.of_nat (i + length ds))) bs →
  recover_loop (length bs) (Z.of_nat i) s = Ret () (do_writes (zip bs ds) s).
Proof.
  revert ds. induction bs as [|b bs IH]; intros [|d ds] s i Hb Hlen Hlog Hout; try done.
  { by rewrite /= do_writes_nil. }
  apply Forall_cons in Hout as [[Hbd Hbn] Hout]. simpl length in *. simpl recover_loop.
  erewrite bind_run; [|done]. erewrite bind_run; [|done]. rewrite Nat2Z.id.
  erewrite bind_run; last first.
  { apply dev_read_run. pose proof (Hlog 0%nat d eq_refl) as H0. rewrite Nat.add_0_r in H0. exact H0. }
  erewrite bind_run; last first.
  { apply of_opt_run. pose proof (Hb 0%nat b eq_refl) as H0. rewrite Nat.add_0_r in H0. exact H0. }
  erewrite bind_run; [|apply dev_write_run; exact Hbd].
  replace (Z.of_nat i + 1) with (Z.of_nat (S i)) by lia.
  rewrite (IH ds).
  - intros k c Hk. replace (S i + k)%nat with (i + S k)%nat by lia. by apply (Hb (S k)).
  - lia.
  - intros k e Hk. simpl. pose proof (Hlog (S k) e Hk) as He. apply lookup_lt_Some in Hk.
    rewrite lookup_insert_ne; [lia|]. by replace (S (i + k)) with (i + S k)%nat by lia.
  - eapply Forall_impl; [exact Hout|]. intros c [Hc Hcn]. split; [by apply (apply_writes_is_Some [(b, d)])|].
    simpl. lia.
  - by rewrite do_writes_app.
Qed.

(** ** What the log on a disk says *)
Lemma apply_writes_dep ws D D' a : a ∈ ws.*1 → apply_writes ws D !! a = apply_writes ws D' !! a.
Proof.
  revert D D'. induction ws as [|[b d] ws IH]; intros D D'; simpl; [set_solver|].
  intros Ha. destruct (decide (a ∈ ws.*1)) as [Hin|Hin]; [by apply IH|].
  rewrite !apply_writes_notin //. apply elem_of_cons in Ha as [->|]; [|done].
  by rewrite !lookup_insert_eq.
Qed.

(** Writing a part of some writes first changes nothing. *)
Lemma apply_writes_absorb ws ws' D :
  ws'.*1 ⊆ ws.*1 → apply_writes ws (apply_writes ws' D) = apply_writes ws D.
Proof.
  intros Hsub. apply map_eq => a. destruct (decide (a ∈ ws.*1)) as [Hin|Hin].
  - by apply apply_writes_dep.
  - rewrite !(apply_writes_notin ws) // apply_writes_notin //. set_solver.
Qed.

(** The log on [D] holds the contents [ds] of the blocks [bs], all outside the
    log area. *)
Definition log_holds (sb : SuperBlock) (D : disk_t) (bs : list Z) (ds : list (list Z)) : Prop :=
  ∃ hd, D !! log_start sb = Some hd ∧ block_ok hd ∧
    lh_num_blocks (decode_header hd) = Z.of_nat (length bs) ∧
    (∀ k b, bs !! k = Some b → lh_block_no (decode_header hd) !! k = Some b) ∧
    length bs = length ds ∧ Z.of_nat (length ds) < num_log_blocks sb ∧
    (∀ k d, ds !! k = Some d → D !! (log_start sb + 1 + Z.of_nat k) = Some d) ∧
    Forall (λ b, is_Some (D !! b) ∧ ¬ in_log sb b) bs.

(** A recovery from [D] leads to [T], outside the log. *)
Definition commits (sb : SuperBlock) (D T : disk_t) : Prop :=
  ∃ bs ds, log_holds sb D bs ds ∧ eq_off sb (apply_writes (zip bs ds) D) T.

Lemma recover_from_log_run s bs ds :
  log_holds (sblock s) (disk s) bs ds →
  ∃ h0, header_ok h0 ∧ lh_num_blocks h0 = 0 ∧
    recover_from_log s =
      Ret () (do_writes (zip bs ds ++ [(log_start (sblock s), encode_header h0)]) (set_header h0 s)).
Proof.
  intros (hd & Hhd & Hok & Hn & Hb & Hlen & Hlt & Hd & Hout).
  destruct (decode_header_ok hd Hok) as (_ & Hl63 & Hrange).
  exists (mkHeader 0 (lh_block_no (decode_header hd))). split_and!; [done|done|].
  rewrite /recover_from_log /read_header.
  erewrite bind_run; last first.
  { erewrite bind_run; [|done]. erewrite bind_run; [|apply dev_read_run; exact Hhd]. done. }
  erewrite bind_run; [|done]. simpl header. rewrite Hn Nat2Z.id.
  erewrite bind_run; last first.
  { apply (recover_loop_run bs ds _ 0%nat); [done|done| |].
    - intros k d Hk. simpl. rewrite -(Hd k d Hk). f_equal. lia.
    - eapply Forall_impl; [exact Hout|]. rewrite /in_log. intros b [? Hb']. split; [done|]. simpl. lia. }
  erewrite bind_run; [|done]. rewrite /write_header.
  erewrite bind_run; [|done]. erewrite bind_run; [|done].
  rewrite dev_write_run.
  - apply apply_writes_is_Some. simpl. by rewrite Hhd.
  - rewrite -do_writes_app. destruct s. done.
Qed.

Lemma log_holds_outside sb D ws bs ds :
  log_holds sb D bs ds → Forall (λ w, ¬ in_log sb w.1) ws → log_holds sb (apply_writes ws D) bs ds.
Proof.
  intros (hd & Hhd & Hok & Hn & Hb & Hlen & Hlt & Hd & Hout) Hws.
  assert (Hin : ∀ a, in_log sb a → apply_writes ws D !! a = D !! a).
  { intros a Ha. apply apply_writes_notin. intros ([b d] & -> & Hw)%list_elem_of_fmap.
    rewrite Forall_forall in Hws. by apply (Hws _ Hw). }
  exists hd. split_and!; try done.
  - rewrite Hin //. rewrite /in_log. lia.
  - intros k d Hk. rewrite Hin; [|by apply Hd]. apply lookup_lt_Some in Hk. rewrite /in_log. lia.
  - eapply Forall_impl; [exact Hout|]. intros b [? ?]. split; [by apply apply_writes_is_Some|done].
Qed.

Lemma log_holds_empty sb D h0 :
  header_ok h0 → lh_num_blocks h0 = 0 → 0 < num_log_blocks sb →
  D !! log_start sb = Some (encode_header h0) → log_holds sb D [] [].
Proof.
  intros Hok H0 Hl HD. exists (encode_header h0).
  split_and!; [done|by apply encode_header_ok, Hok|by rewrite decode_encode_header|done..|constructor].
Qed.

(** A crash after any number of the writes that copy the logged blocks home and
    then clear the header. *)
Lemma commit_prefix sb D bs ds h0 j :
  log_holds sb D bs ds → header_ok h0 → lh_num_blocks h0 = 0 →
  commits sb (apply_writes (take j (zip bs ds ++ [(log_start sb, encode_header h0)])) D)
             (apply_writes (zip bs ds) D).
Proof.
  intros Hlog Hok H0. pose proof Hlog as (hd & _ & _ & _ & _ & Hlen & Hlt & _ & Hout).
  assert (Hz : Forall (λ w, ¬ in_log sb w.1) (zip bs ds)).
  { apply Forall_forall. intros [b d] Hw. rewrite Forall_forall in Hout. simpl. apply (Hout b).
    rewrite -(zip_fst bs ds Hlen). by apply (list_elem_of_fmap_2 fst) in Hw. }
  destruct (decide (j ≤ length (zip bs ds))%nat) as [Hj|Hj].
  - rewrite take_app_le //. exists bs, ds. split.
    + apply log_holds_outside; [done|]. by apply Forall_take.
    + rewrite apply_writes_absorb //. rewrite -{2}(take_drop j (zip bs ds)) fmap_app. set_solver.
  - rewrite take_ge; [rewrite length_app /=; lia|]. exists [], []. split.
    + apply (log_holds_empty _ _ h0); [done|done|lia|]. rewrite apply_writes_app /=. apply lookup_insert_eq.
    + rewrite /= apply_writes_app. apply apply_in_log. constructor; [|constructor].
      rewrite /in_log /=. lia.
Qed.

(** Recovery, cut short after some of its writes. *)
Definition crashed_recovery (sb : SuperBlock) (D D' : disk_t) : Prop :=
  ∃ s s' ws j, sblock s = sb ∧ disk s = D ∧ recover_from_log s = Ret () s' ∧
    wtrace s' = wtrace s ++ ws ∧ D' = apply_writes (take j ws) D.

Lemma commits_crashed sb D D' T : commits sb D T → crashed_recovery sb D D' → commits sb D' T.
Proof.
  intros (bs & ds & Hlog & Heq) (s & s' & ws & j & <- & <- & Hrun & Hw & ->).
  destruct (recover_from_log_run s bs ds Hlog) as (h0 & Hok & H0 & Hrun').
  rewrite Hrun' in Hrun. injection Hrun as <-. simpl in Hw. apply app_inv_head in Hw as <-.
  destruct (commit_prefix _ _ _ _ h0 j Hlog Hok H0) as (bs' & ds' & Hlog' & Heq').
  exists bs', ds'. split; [done|]. by rewrite Heq'.
Qed.

Lemma commits_recover s T :
  commits (sblock s) (disk s) T →
  ∃ s', recover_from_log s = Ret () s' ∧ eq_off (sblock s) (disk s') T ∧
        lh_num_blocks (header s') = 0 ∧ log_holds (sblock s) (disk s') [] [].
Proof.
  intros (bs & ds & Hlog & Heq). pose proof Hlog as (_ & _ & _ & _ & _ & _ & Hlt & _).
  destruct (recover_from_log_run s bs ds Hlog) as (h0 & Hok & H0 & Hrun).
  eexists. split; [exact Hrun|]. simpl. split_and!; [|done|].
  - rewrite apply_writes_app -Heq. apply apply_in_log. constructor; [|constructor].
    rewrite /in_log /=. lia.
  - apply (log_holds_empty _ _ h0); [done|done|lia|]. rewrite apply_writes_app /=. apply lookup_insert_eq.
Qed.

(** ** The commit *)
(** The header lists the blocks [bs] to commit, all cached with contents [ds]
    and held by nobody; they and the log area are on the disk and disjoint, and
    the log on the disk is empty. *)
Definition log_wf (s : cstate) (bs : list Z) (ds : list (list Z)) : Prop :=
  cache_ok s ∧ pending s 0 bs ds ∧
  header_ok (header s) ∧ lh_num_blocks (header s) = Z.of_nat (length bs) ∧
  Z.of_nat (length bs) < num_log_blocks (sblock s) ∧
  (∀ k, (k < length bs)%nat → is_Some (disk s !! (log_start (sblock s) + 1 + Z.of_nat k))) ∧
  Forall (λ b, is_Some (disk s !! b) ∧ ¬ in_log (sblock s) b) bs ∧
  log_holds (sblock s) (disk s) [] [].

Definition commit_writes (s : cstate) (bs : list Z) (ds : list (list Z)) : list write :=
  log_writes (log_start (sblock s) + 1) ds ++ [(log_start (sblock s), encode_header (header s))]
  ++ zip bs ds ++ [(log_start (sblock s), encode_header (mkHeader 0 (lh_block_no (header s))))].

Lemma write_header_run s :
  is_Some (disk s !! log_start (sblock s)) →
  write_header s = Ret () (do_writes [(log_start (sblock s), encode_header (header s))] s).
Proof. intros. rewrite /write_header. do 2 (erewrite bind_run; [|done]). by apply dev_write_run. Qed.

(** After the log blocks and the header are written, the log holds them. *)
Lemma log_written s bs ds :
  log_wf s bs ds →
  log_holds (sblock s)
    (apply_writes (log_writes (log_start (sblock s) + 1) ds
                   ++ [(log_start (sblock s), encode_header (header s))]) (disk s)) bs ds.
Proof.
  intros (Hok & (Hp1 & Hp2) & Hh & Hn & Hlt & Hlog & Hout & Hempty).
  pose proof (Forall2_length _ _ _ Hp2) as Hlen.
  exists (encode_header (header s)). rewrite decode_encode_header // apply_writes_app.
  split_and!; try done.
  - rewrite /=. apply lookup_insert_eq.
  - apply encode_header_ok, Hh.
  - by rewrite -Hlen.
  - intros k d Hk. simpl. rewrite lookup_insert_ne; [lia|].
    apply apply_writes_in; [apply log_writes_nodup|by apply log_writes_elem].
  - eapply Forall_impl; [exact Hout|]. intros b [? ?]. split; [|done].
    by apply apply_writes_is_Some, apply_writes_is_Some.
Qed.

Lemma checkpoint_run s bs ds :
  log_wf s bs ds → bs ≠ [] →
  ∃ l', checkpoint s =
          Ret () (do_writes (commit_writes s bs ds)
                    (set_head l' (set_header (mkHeader 0 (lh_block_no (header s))) s))) ∧
        same_data (head s) l'.
Proof.
  intros Hwf Hne. pose proof (log_written _ _ _ Hwf) as Hw.
  destruct Hw as (hd & Hhd & _ & _ & _ & Hlen & Hlt & Hd & Hout).
  destruct Hwf as (Hok & Hp & Hh & Hn & _ & Hlog & Hout' & (hd0 & Hhd0 & _)).
  destruct (write_block_to_log_loop_run bs ds s 0 Hok Hp) as (l1 & Hrun1 & Hs1).
  { intros k Hk. apply Hlog. lia. }
  set (w1 := log_writes (log_start (sblock s) + 1) ds) in *.
  set (w2 := [(log_start (sblock s), encode_header (header s))]) in *.
  set (s1 := do_writes w2 (do_writes w1 (set_head l1 s))).
  destruct (persist_from_log_loop_run bs ds s1 0) as (l2 & Hrun2 & Hs2).
  { subst s1. rewrite do_writes_app. by apply cache_ok_do_writes. }
  { eapply pending_same_data; [| |exact Hp]; done. }
  { intros k d Hk. pose proof (Hd k d Hk) as H. rewrite apply_writes_app in H. exact H. }
  { eapply Forall_impl; [exact Hout|]. rewrite /in_log apply_writes_app. intros b [? ?].
    split; [done|]. simpl. lia. }
  exists l2. split; [|exact (same_data_trans _ _ _ Hs1 Hs2)].
  rewrite /checkpoint. erewrite bind_run; [|done]. rewrite Hn.
  rewrite (proj2 (Z.leb_gt _ _)); [destruct bs; [done|simpl; lia]|].
  erewrite bind_run; last first.
  { rewrite /write_block_to_log. erewrite bind_run; [|done]. rewrite Hn Nat2Z.id. exact Hrun1. }
  rewrite Z.add_0_r. erewrite bind_run; last first.
  { apply write_header_run, apply_writes_is_Some. simpl. by rewrite Hhd0. }
  erewrite bind_run; last first.
  { rewrite /persist_from_log. erewrite bind_run; [|done]. simpl header. rewrite Hn Nat2Z.id. exact Hrun2. }
  erewrite bind_run; [|done].
  rewrite write_header_run; [|rewrite /commit_writes -!do_writes_app; by destruct s].
  apply (apply_writes_is_Some (zip bs ds)), apply_writes_is_Some, apply_writes_is_Some. simpl. by rewrite Hhd0.
Qed.

(** A crash after any prefix of the writes of a commit. *)
Lemma commit_crash s bs ds k :
  log_wf s bs ds →
  commits (sblock s) (apply_writes (take k (commit_writes s bs ds)) (disk s))
    (if decide (k ≤ length bs)%nat then disk s else apply_writes (zip bs ds) (disk s)).
Proof.
  intros Hwf. pose proof (log_written _ _ _ Hwf) as Hw.
  destruct Hwf as (Hok & (_ & Hp) & Hh & Hn & Hlt & Hlog & Hout & Hempty).
  pose proof (Forall2_length _ _ _ Hp) as Hlen.
  set (w1 := log_writes (log_start (sblock s) + 1) ds) in *.
  assert (Hw1 : Forall (λ w, in_log (sblock s) w.1 ∧ w.1 ≠ log_start (sblock s)) w1).
  { apply Forall_forall. intros w Hin%(list_elem_of_fmap_2 fst).
    apply elem_log_writes in Hin. rewrite /in_log. lia. }
  rewrite /commit_writes -/w1. case_decide as Hk.
  - rewrite take_app_le; [by rewrite length_log_writes -Hlen|]. exists [], [].
    apply (Forall_take _ k) in Hw1. split; last first.
    { change (eq_off (sblock s) (apply_writes (take k w1) (disk s)) (disk s)). apply apply_in_log. eapply Forall_impl; [exact Hw1|]. naive_solver. }
    destruct Hempty as (hd & Hhd & H1 & H2 & _ & _ & H3 & _). exists hd. split_and!; try done.
    rewrite apply_writes_notin //. intros (w & Hw' & Hin)%list_elem_of_fmap.
    rewrite Forall_forall in Hw1. by apply (Hw1 w Hin).
  - rewrite app_assoc take_app_ge; [rewrite length_app length_log_writes /=; lia|].
    rewrite apply_writes_app.
    destruct (commit_prefix _ _ _ _ (mkHeader 0 (lh_block_no (header s)))
                (k - length (w1 ++ [(log_start (sblock s), encode_header (header s))])) Hw)
      as (bs' & ds' & Hlog' & Heq); [by destruct Hh as (_ & ? & ?)|done|].
    exists bs', ds'. split; [exact Hlog'|]. rewrite Heq. apply apply_writes_proper.
    rewrite apply_writes_app. etrans.
    + apply apply_in_log. constructor; [|constructor]. rewrite /in_log /=. lia.
    + apply apply_in_log. eapply Forall_impl; [exact Hw1|]. naive_solver.
Qed.

(** C1: A commit is atomic.  When the header lists the cached blocks [bs] with
    contents [ds], [checkpoint] returns with its writes done, the header empty
    and the cached contents unchanged.  If power fails after any number [k] of
    those device writes, and then again in the middle of any number of
    recoveries, the recovery that completes leaves, outside the log area, either
    the disk as it was before the commit (when [k] writes did not reach the log
    header) or that disk with every block of [bs] updated (when they did):
    never a part of them. *)
Theorem checkpoint_crash_atomic s bs ds :
  log_wf s bs ds → bs ≠ [] →
  ∃ s', checkpoint s = Ret () s' ∧
    wtrace s' = wtrace s ++ commit_writes s bs ds ∧
    disk s' = apply_writes (commit_writes s bs ds) (disk s) ∧
    lh_num_blocks (header s') = 0 ∧ same_data (head s) (head s') ∧
    ∀ k t, rtc (crashed_recovery (sblock s))
               (apply_writes (take k (commit_writes s bs ds)) (disk s)) (disk t) →
      sblock t = sblock s →
      ∃ t', recover_from_log t = Ret () t' ∧ lh_num_blocks (header t') = 0 ∧
        eq_off (sblock s) (disk t')
          (if decide (k ≤ length bs)%nat then disk s else apply_writes (zip bs ds) (disk s)).
Proof.
  intros Hwf Hne. destruct (checkpoint_run _ _ _ Hwf Hne) as (l' & Hrun & Hsame).
  eexists. split_and!; [exact Hrun|done|done|done|done|].
  intros k t Hcrash Hsb. pose proof (commit_crash s bs ds k Hwf) as Hc.
  assert (Ht : commits (sblock t) (disk t)
                 (if decide (k ≤ length bs)%nat then disk s else apply_writes (zip bs ds) (disk s))).
  { rewrite Hsb. revert Hc. induction Hcrash as [D|D D' D'' Hstep _ IH]; [done|].
    intros Hc. apply IH. exact (commits_crashed _ _ _ _ Hc Hstep). }
  destruct (commits_recover t _ Ht) as (t' & Hr & Heq & Hz & _). rewrite Hsb in Heq. eauto.
Qed.

(** *** A disk of ten blocks with a log of three, one dirty block *)
Definition demo_sb : SuperBlock := mkSuper 10 4 1 3 2 5 6.
Definition zero_block : list Z := replicate 512 0.
Definition demo_disk : disk_t := list_to_map ((λ i, (Z.of_nat i, zero_block)) <$> seq 0 10).
Definition demo_state : cstate :=
  mkCState demo_sb demo_disk [] false [mkBlock 7 false true 1 true (replicate 512 1)]
    (mkHeader 1 (7 :: replicate 62 0)) 1 [0; 0; 0; 0] (mkLog 2 0 0 true false 0 0) ∅.

Lemma checkpoint_crash_atomic_witness :
  log_wf demo_state [7] [replicate 512 1] ∧
  ∃ s', checkpoint demo_state = Ret () s' ∧
        disk s' = apply_writes (commit_writes demo_state [7] [replicate 512 1]) (disk demo_state).
Proof.
  assert (Hwf : log_wf demo_state [7] [replicate 512 1]).
  { rewrite /log_wf. split_and!.
    - rewrite /cache_ok. split_and!; [done| |done]. apply NoDup_singleton.
    - split; [intros [|k] b [= <-]; done|]. by repeat constructor.
    - rewrite /header_ok. split_and!; [done|done|done|]. apply Forall_forall. intros x [->|Hx]%elem_of_cons; [lia|].
      apply elem_of_replicate in Hx as [-> _]. lia.
    - done.
    - done.
    - intros [|k] Hk; [by eexists|simpl in Hk; lia].
    - apply Forall_singleton. split; [by eexists|]. rewrite /in_log /=. lia.
    - exists zero_block. split_and!; try done.
      split; [done|]. apply Forall_replicate. rewrite /byte_ok. lia. }
  split; [exact Hwf|].
  destruct (checkpoint_crash_atomic demo_state [7] [replicate 512 1] Hwf ltac:(discriminate))
    as (s' & H1 & _ & H2 & _).
  exists s'. split; [exact H1|exact H2].
Defined.
