(* ===== verification/CacheOps.v ===== *)
(** * CacheOps: the block cache is transparent

    Eviction, acquisition, synchronisation and release of [fs/cache.c] against
    the contents a client sees: the cached copy of a block, or the disk's. *)

From stdpp Require Import base numbers list gmap sorting.
From S2P Require Import Prelude Bitmap Spinlock Bytes FsDefs Cache CacheList.

(** ** Eviction *)
Definition evictable (x : Block) : Prop := pinned x = false ∧ acquired x = false.

Lemma LRU_shrink_loop_spec l c r c' :
  LRU_shrink_loop l c = (r, c') →
  r `sublist_of` l ∧ c' = c - (Z.of_nat (length l) - Z.of_nat (length r)) ∧
  (∀ x, x ∈ l → x ∈ r ∨ evictable x) ∧
  (c' < EVICTION_THRESHOLD ∨ ∀ x, x ∈ r → ¬ evictable x).
Proof.
  revert c r c'. induction l as [|x l IH]; intros c r c'; simpl.
  { intros [= <- <-]. split_and!; [done|simpl; lia|set_solver|right; set_solver]. }
  destruct (EVICTION_THRESHOLD <=? c) eqn:Ec; last first.
  { apply Z.leb_gt in Ec. intros [= <- <-]. split_and!; [done|simpl; lia|set_solver|by left]. }
  destruct (negb (pinned x) && negb (acquired x)) eqn:Ex.
  - intros (H1 & H2 & H3 & H4)%IH. split_and!; [by constructor|simpl; lia| |done].
    intros y [->|Hy]%elem_of_cons; [|by apply H3]. right. rewrite /evictable.
    by destruct (pinned x), (acquired x).
  - destruct (LRU_shrink_loop l c) as [r0 c0] eqn:E. intros [= <- <-].
    destruct (IH _ _ _ E) as (H1 & H2 & H3 & H4). split_and!; [by constructor|simpl; lia| |].
    + intros y [->|Hy]%elem_of_cons; [left; left|]. destruct (H3 _ Hy); [left; by right|by right].
    + destruct H4 as [H4|H4]; [by left|right]. intros y [->|Hy]%elem_of_cons; [|by apply H4].
      intros [Hp Ha]. by rewrite Hp Ha in Ex.
Qed.

Lemma find_block_elem_iff l b x :
  NoDup (block_nos l) → find_block b l = Some x ↔ x ∈ l ∧ block_no x = b.
Proof.
  intros Hnd. split; [apply find_block_Some|]. intros [Hx <-].
  induction l as [|y l IH]; [set_solver|]. simpl.
  apply NoDup_cons in Hnd as [Hy Hnd]. apply elem_of_cons in Hx as [->|Hx].
  - by rewrite decide_True.
  - rewrite decide_False; [|by apply IH]. intros E. apply Hy. rewrite E. by apply list_elem_of_fmap_2.
Qed.

Lemma sublist_reverse {A} (l k : list A) : l `sublist_of` k → reverse l `sublist_of` reverse k.
Proof.
  induction 1; rewrite ?reverse_cons; [done| |].
  - by apply sublist_app.
  - by apply sublist_inserts_r.
Qed.

(** The state after [LRU_shrink]: a sublist of the blocks, the rest evictable. *)
Lemma LRU_shrink_run s :
  NoDup (block_nos (head s)) → cache_cnt s = Z.of_nat (length (head s)) →
  ∃ l, LRU_shrink s = Ret () (set_cache_cnt (Z.of_nat (length l)) (set_head l s)) ∧
    l `sublist_of` head s ∧
    (∀ b x, find_block b (head s) = Some x → find_block b l = Some x ∨ evictable x) ∧
    (∀ b x, find_block b l = Some x → find_block b (head s) = Some x) ∧
    NoDup (block_nos l) ∧
    (Z.of_nat (length l) < EVICTION_THRESHOLD ∨ ∀ x, x ∈ l → ¬ evictable x).
Proof.
  intros Hnd Hcnt.
  destruct (LRU_shrink_loop (reverse (head s)) (cache_cnt s)) as [r c] eqn:E.
  destruct (LRU_shrink_loop_spec _ _ _ _ E) as (H1 & H2 & H3 & H4).
  assert (Hsub : reverse r `sublist_of` head s).
  { rewrite -(reverse_involutive (head s)). by apply sublist_reverse. }
  assert (Hnd' : NoDup (block_nos (reverse r))).
  { eapply sublist_NoDup; [exact Hnd|]. by apply fmap_sublist. }
  exists (reverse r). rewrite length_reverse. split_and!; try done.
  - rewrite /LRU_shrink. erewrite bind_run; [|done]. rewrite E.
    run_simpl. rewrite Hcnt length_reverse in H2. replace c with (Z.of_nat (length r)) by lia. done.
  - intros b x Hx. apply find_block_elem_iff in Hx as [Hx Hb]; [|done].
    destruct (H3 x) as [Hr|]; [by rewrite elem_of_reverse| |by right].
    left. apply find_block_elem_iff; [done|]. by rewrite elem_of_reverse.
  - intros b x Hx. apply find_block_elem_iff in Hx as [Hx Hb]; [|done].
    apply find_block_elem_iff; [done|]. split; [|done]. exact (elem_of_sublist _ _ _ Hx Hsub).
  - rewrite Hcnt length_reverse in H2. destruct H4 as [H4|H4]; [left; lia|right].
    intros x Hx. rewrite elem_of_reverse in Hx. exact (H4 x Hx).
Qed.

(** ** What a client sees *)
Definition content (s : cstate) (b : Z) : option (list Z) :=
  match find_block b (head s) with
  | Some x => Some (data x)
  | None => disk s !! b
  end.

(** A cached block is backed by the disk, and equal to it unless it is in use or
    waits in the log. *)
Definition blk_ok (D : gmap Z (list Z)) (b : Z) (x : Block) : Prop :=
  block_ok (data x) ∧ is_Some (D !! b) ∧ (evictable x → D !! b = Some (data x)).

(** The blocks listed in the log header. *)
Definition logged (s : cstate) : list Z :=
  take (Z.to_nat (lh_num_blocks (header s))) (lh_block_no (header s)).

Definition cache_wf (s : cstate) : Prop :=
  cache_ok s ∧ log_lock (log s) = false ∧
  (∀ b d, disk s !! b = Some d → block_ok d) ∧
  (∀ b x, find_block b (head s) = Some x → blk_ok (disk s) b x) ∧
  length (lh_block_no (header s)) = 63%nat ∧ 0 ≤ lh_num_blocks (header s) ≤ 63 ∧
  (∀ b, b ∈ logged s → ∃ x, find_block b (head s) = Some x ∧ pinned x = true).

(** Whether a client holds block [b]. *)
Definition held (s : cstate) (b : Z) : bool :=
  match find_block b (head s) with Some x => acquired x | None => false end.

(** What no cache operation but the log's own touches. *)
Definition log_part (s : cstate) : LogHeader * LOG * gmap Z Z * SuperBlock * list Z :=
  (header s, log s, ctxs s, sblock s, swap_bitmap s).

Lemma cache_wf_set_head s l :
  cache_wf s → NoDup (block_nos l) → length l = length (head s) →
  (∀ b x, find_block b l = Some x → blk_ok (disk s) b x) →
  (∀ b, b ∈ logged s → ∃ x, find_block b l = Some x ∧ pinned x = true) →
  cache_wf (set_head l s).
Proof.
  intros (H1 & H2 & H3 & _ & H5 & H6 & _) ????. split_and!; try done; try apply H6.
  by apply cache_ok_set_head.
Qed.

Lemma sem_taken_fields x :
  block_no (sem_taken x) = block_no x ∧ acquired (sem_taken x) = acquired x ∧
  pinned (sem_taken x) = pinned x ∧ data (sem_taken x) = data x.
Proof. rewrite /sem_taken. by destruct (0 <? lock_val x). Qed.

Lemma not_evictable_acquired x : acquired x = true → ¬ evictable x.
Proof. intros H [_ H']. congruence. Qed.

Lemma not_evictable_pinned x : pinned x = true → ¬ evictable x.
Proof. intros H [H' _]. congruence. Qed.

(** A block that may be released: not cached, or on the disk as cached, or in
    the log. *)
Definition clean (s : cstate) (b : Z) : Prop :=
  ∀ x, find_block b (head s) = Some x → pinned x = true ∨ disk s !! b = Some (data x).

Lemma unheld_clean s b : cache_wf s → held s b = false → clean s b.
Proof.
  intros (_ & _ & _ & Hblk & _) Hh x Hx. rewrite /held Hx in Hh.
  destruct (pinned x) eqn:Hp; [by left|right]. by apply (Hblk _ _ Hx).
Qed.

(** A block stays clean when its disk copy does not change and its cached copy
    keeps its data and its pin. *)
Lemma clean_keep s s' b :
  disk s' !! b = disk s !! b →
  (∀ x', find_block b (head s') = Some x' →
     (∃ x, find_block b (head s) = Some x ∧ pinned x' = pinned x ∧ data x' = data x) ∨
     disk s !! b = Some (data x')) →
  clean s b → clean s' b.
Proof.
  intros Hd Hf Hc x' Hx'. rewrite Hd. destruct (Hf x' Hx') as [(x & Hx & -> & ->)|]; [by apply Hc|by right].
Qed.

Lemma clean_changes s l b f b' :
  changes b f (head s) l →
  (b' = b → ∀ x, find_block b (head s) = Some x → pinned (f x) = pinned x ∧ data (f x) = data x) →
  clean s b' → clean (set_head l s) b'.
Proof.
  intros (_ & _ & Hf) He. apply clean_keep; [done|]. intros x'. rewrite /= Hf.
  destruct (find_block b' (head s)) as [x|] eqn:E; [|done]. intros [= <-]. left. exists x.
  destruct (decide (b' = b)) as [->|]; [|done]. split; [done|]. by apply He.
Qed.

(** What [cache_acquire] guarantees of the state [s'] it leaves. *)
Definition acquired_from (s : cstate) (b : Z) (d : list Z) (s' : cstate) : Prop :=
  cache_wf s' ∧ log_part s' = log_part s ∧ disk s' = disk s ∧ wtrace s' = wtrace s ∧
  (∃ x, find_block b (head s') = Some x ∧ acquired x = true ∧ data x = d) ∧
  (∀ b', content s' b' = content s b') ∧
  (∀ b', held s' b' = if decide (b' = b) then true else held s b') ∧
  (∀ b', clean s b' → clean s' b').

Lemma acquire_hit_spec s b x :
  cache_wf s → find_block b (head s) = Some x → acquired x = false →
  ∃ s', cache_acquire b s = Ret b s' ∧ acquired_from s b (data x) s'.
Proof.
  intros Hwf Hx Hacq. pose proof Hwf as (Hok & _ & _ & Hblk & _ & _ & Hlog).
  destruct (cache_acquire_hit _ _ _ Hok Hx Hacq) as (l & Hrun & Hnd & Hlen & Hf).
  destruct (sem_taken_fields x) as (_ & _ & Hp & Hd).
  exists (set_head l s). split; [done|]. split_and!; try done.
  - apply cache_wf_set_head; try done.
    + intros b' y. rewrite Hf. destruct (decide (b' = b)) as [->|].
      * rewrite Hx. intros [= <-]. destruct (Hblk _ _ Hx) as (? & ? & _).
        split_and!; [by rewrite /= Hd|done|]. intros []. done.
      * destruct (find_block b' (head s)) eqn:E; [|done]. intros [= <-]. by apply Hblk.
    + intros b' Hb'. destruct (Hlog _ Hb') as (y & Hy & Hpy). rewrite Hf Hy.
      destruct (decide (b' = b)) as [->|]; [|by eexists].
      eexists. split; [done|]. rewrite Hx in Hy. injection Hy as <-. by rewrite /= Hp.
  - exists (set_acquired true (sem_taken x)). by rewrite /= Hf decide_True // Hx.
  - intros b'. rewrite /content /= Hf. destruct (decide (b' = b)) as [->|].
    + by rewrite Hx /= Hd.
    + by destruct (find_block b' (head s)).
  - intros b'. rewrite /held /= Hf. destruct (decide (b' = b)) as [->|]; [by rewrite Hx|].
    by destruct (find_block b' (head s)).
  - intros b'. eapply (clean_changes _ _ b); [split_and!; [exact Hnd|exact Hlen|exact Hf]|].
    intros _ y Hy. assert (y = x) as -> by congruence. by rewrite /= Hp Hd.
Qed.

Lemma map_block_notin b f l : b ∉ block_nos l → map_block b f l = l.
Proof.
  induction l as [|x l IH]; simpl; [done|]. intros [? ?]%not_elem_of_cons.
  rewrite decide_False; [congruence|]. f_equal. by apply IH.
Qed.

(** The optional eviction that precedes the allocation of a block. *)
Lemma shrink_run s :
  NoDup (block_nos (head s)) → cache_cnt s = Z.of_nat (length (head s)) →
  ∃ l, (if EVICTION_THRESHOLD <=? cache_cnt s then LRU_shrink else mret ()) s =
         Ret () (set_cache_cnt (Z.of_nat (length l)) (set_head l s)) ∧
    (∀ b x, find_block b (head s) = Some x → find_block b l = Some x ∨ evictable x) ∧
    (∀ b x, find_block b l = Some x → find_block b (head s) = Some x) ∧
    NoDup (block_nos l).
Proof.
  intros Hnd Hcnt. destruct (EVICTION_THRESHOLD <=? cache_cnt s).
  - destruct (LRU_shrink_run s Hnd Hcnt) as (l & ? & _ & ? & ? & ? & _). by exists l.
  - exists (head s). split_and!; auto. rewrite -Hcnt. by destruct s.
Qed.

Lemma acquire_miss_run s b d :
  cache_ok s → find_block b (head s) = None → disk s !! b = Some d →
  ∃ l, cache_acquire b s =
         Ret b (set_cache_cnt (Z.of_nat (length l) + 1)
                  (set_head (mkBlock b true false 0 true d :: l) s)) ∧
    (∀ b x, find_block b (head s) = Some x → find_block b l = Some x ∨ evictable x) ∧
    (∀ b x, find_block b l = Some x → find_block b (head s) = Some x) ∧
    NoDup (block_nos l).
Proof.
  intros (Hl & Hnd & Hcnt) Hb Hd.
  destruct (shrink_run (lset cache_lock true s) Hnd Hcnt) as (l & Hrun & H1 & H2 & H3).
  exists l. split_and!; try done.
  assert (Hn : b ∉ block_nos l).
  { intros Hin. destruct (find_block_elem _ _ Hin) as [x Hx]. apply H2 in Hx. simpl in Hx. congruence. }
  set (new := mkBlock b false false 1 true d).
  assert (Hnew : ∀ f x, block_no x = b → map_block b f (x :: l) = f x :: l).
  { intros f x <-. rewrite /map_block fmap_cons decide_True //. f_equal. by apply map_block_notin. }
  rewrite /cache_acquire. rewrite (bind_run _ _ _ true
    (set_cache_cnt (Z.of_nat (length l) + 1) (set_head (set_acquired true (sem_taken new) :: l) s))); [|done].
  rewrite /cache_acquire_back.
  rewrite (bind_run _ _ _ () (lset cache_lock true s)); [by rewrite acquire_run /= Hl|].
  erewrite bind_run; [|done]. simpl (head _). rewrite Hb.
  erewrite bind_run; [|done]. erewrite bind_run; [|exact Hrun]. erewrite bind_run; [|done].
  erewrite bind_run; [|apply dev_read_run; exact Hd]. erewrite bind_run; [|done].
  erewrite bind_run; last first. { apply upd_block_run. simpl. by rewrite decide_True. }
  simpl head. rewrite (Hnew _ new) //.
  erewrite bind_run; last first. { apply upd_block_run. simpl. by rewrite decide_True. }
  simpl head. rewrite (Hnew _ (sem_taken new)) //.
  rewrite (bind_run _ _ _ _ _ (release_run _ _)). destruct s; simpl in *. by subst.
Qed.

Lemma acquire_miss_spec s b d :
  cache_wf s → find_block b (head s) = None → disk s !! b = Some d →
  ∃ s', cache_acquire b s = Ret b s' ∧ acquired_from s b d s'.
Proof.
  intros Hwf Hb Hd. pose proof Hwf as (Hok & Hll & Hdisk & Hblk & Hh1 & Hh2 & Hlog).
  destruct (acquire_miss_run _ _ _ Hok Hb Hd) as (l & Hrun & H1 & H2 & H3).
  assert (Hbl : find_block b l = None).
  { destruct (find_block b l) eqn:E; [|done]. apply H2 in E. congruence. }
  assert (Hne : ∀ b' x, find_block b' (head s) = Some x → b ≠ b') by (intros; congruence).
  eexists. split; [exact Hrun|]. split_and!; try done.
  - split_and!; try done; simpl; try apply Hh2.
    + split_and!; [apply Hok| |simpl; lia]. apply NoDup_cons. split; [|done]. by apply find_block_None.
    + intros b' x. case_decide as Hbb; [|by intros ?%H2%Hblk].
      subst b'. intros [= <-]. split_and!; [exact (Hdisk _ _ Hd)|rewrite Hd; eauto|by intros []].
    + intros b' Hb'. destruct (Hlog _ Hb') as (x & Hx & Hp). exists x.
      rewrite decide_False; [exact (Hne _ _ Hx)|]. split; [|done].
      destruct (H1 _ _ Hx) as [|[]]; congruence.
  - eexists. simpl. by rewrite decide_True.
  - intros b'. rewrite /content /=. case_decide as Hbb; [subst b'; by rewrite Hb|].
    destruct (find_block b' l) as [x|] eqn:E; [by rewrite (H2 _ _ E)|].
    destruct (find_block b' (head s)) as [x|] eqn:E'; [|done].
    destruct (H1 _ _ E') as [|Hev]; [congruence|]. by apply (Hblk _ _ E').
  - intros b'. rewrite /held /=. destruct (decide (b' = b)) as [->|Hbb]; [by rewrite decide_True|].
    rewrite decide_False; [congruence|].
    destruct (find_block b' l) as [x|] eqn:E; [by rewrite (H2 _ _ E)|].
    destruct (find_block b' (head s)) as [x|] eqn:E'; [|done].
    destruct (H1 _ _ E') as [|[]]; congruence.
  - intros b'. apply clean_keep; [done|]. simpl. intros x'. case_decide as Hbb.
    + subst b'. intros [= <-]. by right.
    + intros ?%H2. left. by exists x'.
Qed.

(** [cache_acquire] is transparent, whether or not it evicts other blocks. *)
Lemma acquire_spec s b d :
  cache_wf s → content s b = Some d → held s b = false →
  ∃ s', cache_acquire b s = Ret b s' ∧ acquired_from s b d s'.
Proof.
  rewrite /content /held. intros Hwf Hc Hh. destruct (find_block b (head s)) as [x|] eqn:E.
  - injection Hc as <-. by apply acquire_hit_spec.
  - by apply acquire_miss_spec.
Qed.

(** ** Releasing, writing and synchronising a held block *)
(** [f] on block [b] of the cache, everything else as it was. *)
Lemma content_set_head s l b f :
  changes b f (head s) l → is_Some (find_block b (head s)) →
  ∀ b', content (set_head l s) b' =
    if decide (b' = b) then (data ∘ f) <$> find_block b (head s) else content s b'.
Proof.
  intros (_ & _ & Hf) [x Hx] b'. rewrite /content /= Hf.
  destruct (decide (b' = b)) as [->|]; [by rewrite Hx|]. by destruct (find_block b' (head s)).
Qed.

Lemma held_set_head s l b f :
  changes b f (head s) l → is_Some (find_block b (head s)) →
  ∀ b', held (set_head l s) b' =
    if decide (b' = b) then default false ((acquired ∘ f) <$> find_block b (head s)) else held s b'.
Proof.
  intros (_ & _ & Hf) [x Hx] b'. rewrite /held /= Hf.
  destruct (decide (b' = b)) as [->|]; [by rewrite Hx|]. by destruct (find_block b' (head s)).
Qed.

Lemma cache_wf_changes s l b f x :
  cache_wf s → changes b f (head s) l → find_block b (head s) = Some x →
  blk_ok (disk s) b (f x) → (pinned x = true → pinned (f x) = true) → cache_wf (set_head l s).
Proof.
  intros Hwf Hc Hx Hf Hp. pose proof Hwf as (_ & _ & _ & Hblk & _ & _ & Hlog).
  pose proof Hc as (H1 & H2 & H3). apply cache_wf_set_head; try done.
  - intros b' y. rewrite H3. destruct (decide (b' = b)) as [->|].
    + rewrite Hx. by intros [= <-].
    + destruct (find_block b' (head s)) eqn:E; [|done]. intros [= <-]. by apply Hblk.
  - intros b' Hb'. destruct (Hlog _ Hb') as (y & Hy & Hpy). rewrite H3 Hy.
    destruct (decide (b' = b)) as [->|]; [|by eexists].
    rewrite Hx in Hy. injection Hy as <-. eexists. split; [done|by apply Hp].
Qed.

(** A store to the data of a held block. *)
Lemma store_spec s b x d :
  cache_wf s → find_block b (head s) = Some x → acquired x = true → block_ok d →
  ∃ s', upd_block b (set_data d) s = Ret () s' ∧ cache_wf s' ∧ log_part s' = log_part s ∧
    disk s' = disk s ∧ wtrace s' = wtrace s ∧
    find_block b (head s') = Some (set_data d x) ∧
    (∀ b', content s' b' = if decide (b' = b) then Some d else content s b') ∧
    (∀ b', held s' b' = held s b') ∧
    (∀ b', b' ≠ b → clean s b' → clean s' b').
Proof.
  intros Hwf Hx Ha Hd. pose proof Hwf as (Hok & _ & _ & Hblk & _).
  pose proof (map_block_changes b (set_data d) (head s) (keeps_set_data d) (proj1 (proj2 Hok))) as Hc.
  eexists. split; [apply upd_block_run; rewrite Hx; eauto|]. split_and!; try done.
  - eapply cache_wf_changes; [done|exact Hc|exact Hx| |done].
    destruct (Hblk _ _ Hx) as (_ & ? & _). split_and!; [done|done|]. by intros ?%(not_evictable_acquired (set_data d x)).
  - rewrite /= (proj2 (proj2 Hc)) decide_True // Hx //.
  - intros b'. rewrite (content_set_head _ _ _ _ Hc); [by rewrite Hx|]. by rewrite Hx.
  - intros b'. rewrite (held_set_head _ _ _ _ Hc); [by rewrite Hx|]. rewrite Hx /=.
    case_decide; [|done]. subst. by rewrite /held Hx.
  - intros b' Hb'. by apply (clean_changes _ _ _ _ _ Hc).
Qed.

(** Releasing a block that is on the disk as cached, or waits in the log. *)
Lemma release_spec s b x :
  cache_wf s → find_block b (head s) = Some x → pinned x = true ∨ disk s !! b = Some (data x) →
  ∃ s', cache_release b s = Ret () s' ∧ cache_wf s' ∧ log_part s' = log_part s ∧
    disk s' = disk s ∧ wtrace s' = wtrace s ∧
    (∀ b', content s' b' = content s b') ∧
    (∀ b', held s' b' = if decide (b' = b) then false else held s b') ∧
    (∀ b', clean s b' → clean s' b').
Proof.
  intros Hwf Hx Hpd. pose proof Hwf as (Hok & _ & _ & Hblk & _).
  destruct (cache_release_run _ _ _ Hok Hx) as (l & Hrun & Hc).
  eexists. split; [exact Hrun|]. split_and!; try done.
  - eapply cache_wf_changes; [done|exact Hc|exact Hx| |done].
    destruct (Hblk _ _ Hx) as (? & ? & _). split_and!; [done|done|].
    intros [Hp _]. destruct Hpd; simpl in *; congruence.
  - intros b'. rewrite (content_set_head _ _ _ _ Hc); [by rewrite Hx|]. rewrite Hx /=.
    case_decide; [|done]. subst. by rewrite /content Hx.
  - intros b'. rewrite (held_set_head _ _ _ _ Hc); [by rewrite Hx|]. by rewrite Hx.
  - intros b'. by apply (clean_changes _ _ _ _ _ Hc).
Qed.

(** The operation [ctx] may still add [n] blocks to the log. *)
Definition sync_room (ctx : option Z) (n : Z) (s : cstate) : Prop :=
  match ctx with
  | None => True
  | Some c => ∃ rm, ctxs s !! c = Some rm ∧ n ≤ rm ∧ lh_num_blocks (header s) + rm ≤ 63
  end.

(** What of the log [cache_sync] changes. *)
Definition synced (ctx : option Z) (b : Z) (d : list Z) (s s' : cstate) : Prop :=
  sblock s' = sblock s ∧ swap_bitmap s' = swap_bitmap s ∧
  match ctx with
  | None =>
      log_part s' = log_part s ∧ disk s' = <[b := d]> (disk s) ∧ wtrace s' = wtrace s ++ [(b, d)]
  | Some c =>
      disk s' = disk s ∧ wtrace s' = wtrace s ∧
      (b ∈ logged s ∧ log_part s' = log_part s ∨
       b ∉ logged s ∧ logged s' = logged s ++ [b] ∧
       lh_num_blocks (header s') = lh_num_blocks (header s) + 1 ∧
       ∃ rm, ctxs s !! c = Some rm ∧ ctxs s' = <[c := rm - 1]> (ctxs s) ∧
             log s' = log (set_log_counts (outstanding (log s)) (log_used (log s) - 1) s))
  end.

Lemma take_insert_end {A} (l : list A) n x :
  (n < length l)%nat → take (S n) (<[n := x]> l) = take n l ++ [x].
Proof.
  intros Hn. erewrite take_S_r; [|by apply list_lookup_insert_eq].
  by rewrite take_insert_ge.
Qed.

Lemma sync_log_run c s b x rm :
  log_lock (log s) = false → find_block b (head s) = Some x →
  length (lh_block_no (header s)) = 63%nat → 0 ≤ lh_num_blocks (header s) < 63 →
  ctxs s !! c = Some rm → 0 < rm → b ∉ logged s →
  cache_sync (Some c) b s =
    Ret () (set_num_blocks (lh_num_blocks (header s) + 1)
             (set_log_counts (outstanding (log s)) (log_used (log s) - 1)
               (set_ctxs (<[c := rm - 1]> (ctxs s))
                 (set_head (map_block b (set_pinned true) (head s))
                   (set_header (mkHeader (lh_num_blocks (header s))
                      (<[Z.to_nat (lh_num_blocks (header s)) := b]> (lh_block_no (header s)))) s))))).
Proof.
  intros Hl Hx Hlen Hn Hrm Hpos Hb. rewrite /cache_sync.
  pose proof (proj2 (find_block_Some _ _ _ Hx)) as Hno.
  rewrite (bind_run _ _ _ () (lset log_lock_lens true s)); [by rewrite acquire_run /= Hl|].
  erewrite bind_run; [|exact (load_block_run _ (lset log_lock_lens true s) _ Hx)].
  erewrite bind_run; [|done]. rewrite Hno. simpl header.
  rewrite decide_False //. rewrite /LOG_MAX_SIZE /BLOCK_SIZE.
  rewrite (proj2 (Z.ltb_lt _ _)); [vm_compute ((_ - _) / _); lia|].
  erewrite bind_run; last first.
  { erewrite bind_run; [|done]. erewrite bind_run; last first.
    { apply upd_block_run. simpl. rewrite Hx. eauto. }
    erewrite bind_run; [|done]. erewrite bind_run; [|apply of_opt_run; exact Hrm].
    rewrite (proj2 (Z.ltb_lt 0 rm)) //. }
  rewrite release_run. destruct s as [? ? ? ? ? ? ? ? [] ?]; simpl in *. by subst.
Qed.

Lemma sync_through_run s b x :
  find_block b (head s) = Some x → is_Some (disk s !! b) →
  cache_sync None b s =
    Ret () (set_wtrace (wtrace s ++ [(b, data x)]) (set_disk (<[b := data x]> (disk s)) s)).
Proof.
  intros Hx [d Hd]. rewrite /cache_sync /device_write.
  erewrite bind_run; [|exact (load_block_run _ _ _ Hx)].
  rewrite (proj2 (find_block_Some _ _ _ Hx)) /dev_write. run_simpl. by rewrite Hd.
Qed.

Lemma sync_absorb_run c s b x :
  log_lock (log s) = false → find_block b (head s) = Some x → b ∈ logged s →
  cache_sync (Some c) b s = Ret () s.
Proof.
  intros Hl Hx Hb. rewrite /cache_sync.
  rewrite (bind_run _ _ _ () (lset log_lock_lens true s)); [by rewrite acquire_run /= Hl|].
  erewrite bind_run; [|exact (load_block_run _ (lset log_lock_lens true s) _ Hx)].
  erewrite bind_run; [|done]. simpl header. rewrite (proj2 (find_block_Some _ _ _ Hx)).
  rewrite decide_True //. destruct s as [? ? ? ? ? ? ? ? [] ?]; simpl in *. by subst.
Qed.

(** What [cache_sync] guarantees: the held block [x] now is on the disk or waits
    in the log, and nothing a client sees has changed. *)
Definition synced_from (ctx : option Z) (s : cstate) (b : Z) (x : Block) (s' : cstate) : Prop :=
  cache_wf s' ∧ synced ctx b (data x) s s' ∧
  (∃ x', find_block b (head s') = Some x' ∧ data x' = data x ∧ acquired x' = acquired x ∧
         (pinned x' = true ∨ disk s' !! b = Some (data x'))) ∧
  (∀ b', content s' b' = content s b') ∧ (∀ b', held s' b' = held s b') ∧
  (∀ b', b' ≠ b → clean s b' → clean s' b').

Lemma sync_through_spec s b x :
  cache_wf s → find_block b (head s) = Some x →
  ∃ s', cache_sync None b s = Ret () s' ∧ synced_from None s b x s'.
Proof.
  intros Hwf Hx. pose proof Hwf as (Hok & Hl & Hdisk & Hblk & Hh1 & Hh2 & Hlog).
  destruct (Hblk _ _ Hx) as (Hd & Hon & Hev). destruct (Hon) as [d0 Hd0].
  eexists. split; [by apply (sync_through_run _ _ x); rewrite ?Hd0|].
  assert (Hlk : ∀ b', b' ≠ b → <[b := data x]> (disk s) !! b' = disk s !! b').
  { intros. apply lookup_insert_ne. congruence. }
  split_and!; try done.
  - split_and!; try done; simpl; try apply Hh2.
    + intros b' d'. destruct (decide (b' = b)) as [->|]; [rewrite lookup_insert_eq; by intros [= <-]|].
      rewrite Hlk //. apply Hdisk.
    + intros b' y Hy. destruct (Hblk _ _ Hy) as (? & ? & ?). split_and!; [done| |].
      * destruct (decide (b' = b)) as [->|]; [rewrite lookup_insert_eq|rewrite Hlk //]; eauto.
      * intros He. destruct (decide (b' = b)) as [->|]; [|rewrite Hlk //; auto].
        rewrite lookup_insert_eq. congruence.
  - exists x. split_and!; [done..|]. right. apply lookup_insert_eq.
  - intros b'. rewrite /content /=. destruct (find_block b' (head s)) eqn:E; [done|].
    apply Hlk. congruence.
  - intros b' Hb' Hc y Hy. rewrite /= Hlk //. by apply Hc.
Qed.

Lemma sync_log_spec c s b x :
  cache_wf s → find_block b (head s) = Some x → sync_room (Some c) 1 s →
  ∃ s', cache_sync (Some c) b s = Ret () s' ∧ synced_from (Some c) s b x s'.
Proof.
  intros Hwf Hx (rm & Hrm & Hpos & Hroom). pose proof Hwf as (Hok & Hl & Hdisk & Hblk & Hh1 & Hh2 & Hlog).
  destruct (decide (b ∈ logged s)) as [Hin|Hin].
  { exists s. split; [exact (sync_absorb_run c s b x Hl Hx Hin)|]. split_and!; try done.
    - split_and!; try done. by left.
    - destruct (Hlog _ Hin) as (y & Hy & Hp). exists x. split_and!; try done. left. congruence. }
  eexists. split; [apply (sync_log_run c s b x rm); try done; lia|].
  set (n := lh_num_blocks (header s)) in *.
  assert (Hlg : logged (set_num_blocks (n + 1) (set_header (mkHeader n (<[Z.to_nat n:=b]> (lh_block_no (header s)))) s))
                = logged s ++ [b]).
  { rewrite /logged /=. replace (Z.to_nat (n + 1)) with (S (Z.to_nat n)) by lia.
    apply take_insert_end. lia. }
  pose proof (map_block_changes b (set_pinned true) (head s) (keeps_set_pinned true) (proj1 (proj2 Hok))) as Hc.
  assert (Hfx : find_block b (map_block b (set_pinned true) (head s)) = Some (set_pinned true x)).
  { by rewrite (proj2 (proj2 Hc)) decide_True // Hx. }
  split_and!; try done.
  - destruct (cache_wf_changes s _ b (set_pinned true) x Hwf Hc Hx) as (G1 & _ & _ & G4 & _ & _ & G7); [|done|].
    { destruct (Hblk _ _ Hx) as (? & ? & _). split_and!; [done..|]. by intros ?%(not_evictable_pinned (set_pinned true x)). }
    split_and!; try done; simpl; [by rewrite length_insert|lia|lia|].
    intros b' Hb'. rewrite /logged in Hlg. simpl in Hlg. rewrite /logged /= Hlg in Hb'.
    apply elem_of_app in Hb' as [Hb'|Hb']; [by apply G7|].
    apply list_elem_of_singleton in Hb' as ->. exists (set_pinned true x). by rewrite Hfx.
  - split_and!; try done. right. split_and!; try done. eauto.
  - exists (set_pinned true x). rewrite /= Hfx. split_and!; try done. by left.
  - intros b'. transitivity (content (set_head (map_block b (set_pinned true) (head s)) s) b'); [done|].
    rewrite (content_set_head _ _ _ _ Hc); [by rewrite Hx|]. case_decide; [|done].
    subst. by rewrite Hx /content Hx.
  - intros b'. transitivity (held (set_head (map_block b (set_pinned true) (head s)) s) b'); [done|].
    rewrite (held_set_head _ _ _ _ Hc); [by rewrite Hx|]. case_decide; [|done].
    subst. by rewrite Hx /held Hx.
  - intros b' Hb' Hcl. exact (clean_changes _ _ _ _ b' Hc ltac:(done) Hcl).
Qed.

Lemma sync_spec ctx s b x :
  cache_wf s → find_block b (head s) = Some x → sync_room ctx 1 s →
  ∃ s', cache_sync ctx b s = Ret () s' ∧ synced_from ctx s b x s'.
Proof. destruct ctx; [apply sync_log_spec|intros; by apply sync_through_spec]. Qed.

Lemma synced_room ctx b d s s' n : synced ctx b d s s' → sync_room ctx (n + 1) s → sync_room ctx n s'.
Proof.
  destruct ctx as [c|]; [|done]. intros (_ & _ & _ & _ & Hs) (rm & Hrm & Hn & Hle).
  destruct Hs as [[_ Hlp]|(_ & _ & Hnum & rm' & Hrm' & Hctx & _)].
  - injection Hlp as Hh _ Hc _ _. exists rm. rewrite Hc Hh. split_and!; [done|lia|done].
  - assert (rm' = rm) as -> by congruence. exists (rm - 1). rewrite Hctx lookup_insert_eq Hnum.
    split_and!; [done|lia|lia].
Qed.
