(* ===== verification/BlockCache.v ===== *)
(** * BlockCache: what the block cache promises to the inode layer

    The struct [BlockCache] of [fs/cache.h] is a table of operations that
    [fs/inode.c] receives.  Here it is a class: the operations, what a client can
    observe of the state (the contents of the blocks, which blocks are held,
    which held blocks have unsynchronised changes, how much an operation may
    still add to the log), and the laws of each operation.  [Cache.v]'s
    operations are an instance ([CacheAlloc.v]); the inode layer is proved
    against the class alone. *)

From stdpp Require Import base numbers list gmap.
From S2P Require Import Prelude Bitmap Bytes FsDefs Cache.

Class BlockCache (S : Type) := {
  bc_acquire : Z → M S Z;
  bc_release : Z → M S ();
  bc_sync : option Z → Z → M S ();
  bc_alloc : option Z → M S Z;
  bc_free : option Z → Z → M S ();
  (** reading and writing the array [block->data] of a held block *)
  bc_data : Z → M S (list Z);
  bc_store : Z → list Z → M S ();
  (** observations *)
  bc_wf : S → Prop;
  bc_content : S → Z → option (list Z);
  bc_held : S → Z → bool;
  bc_clean : S → Z → Prop;
  bc_room : option Z → Z → S → Prop;
}.

(** From [s] to [s'], the contents become [c] and the held blocks [h]. *)
Definition bc_goes {S} `{BlockCache S} (s' : S) (c : Z → option (list Z)) (h : Z → bool) : Prop :=
  bc_wf s' ∧ (∀ b, bc_content s' b = c b) ∧ (∀ b, bc_held s' b = h b).

(** [f] with [v] at [k]. *)
Definition upd {A} (f : Z → A) (k : Z) (v : A) : Z → A := λ x, if decide (x = k) then v else f x.

Lemma upd_eq {A} (f : Z → A) k v : upd f k v k = v.
Proof. by rewrite /upd decide_True. Qed.
Lemma upd_ne {A} (f : Z → A) k v x : x ≠ k → upd f k v x = f x.
Proof. intros. by rewrite /upd decide_False. Qed.

(** ** The block bitmap *)
Section bitmap.
Context (sb : SuperBlock).

Definition bitmap_block_of (b : Z) : Z := b / BIT_PER_BLOCK + bitmap_start sb.

(** Whether block [b] is marked used, when the contents are [c]. *)
Definition used (c : Z → option (list Z)) (b : Z) : option bool :=
  d ← c (bitmap_block_of b); bitmap_get (data_cells d) (b mod BIT_PER_BLOCK).

(** Every allocatable block has its bit in a bitmap block nobody holds, and a
    free block is on the disk, not held, and no bitmap block itself. *)
Definition alloc_ok (c : Z → option (list Z)) (h : Z → bool) : Prop :=
  ∀ b, 0 ≤ b < alloc_bound sb →
    is_Some (c (bitmap_block_of b)) ∧ h (bitmap_block_of b) = false ∧
    (used c b = Some false →
       is_Some (c b) ∧ h b = false ∧ ∀ b', 0 ≤ b' < alloc_bound sb → b ≠ bitmap_block_of b').
End bitmap.

(** ** The laws *)
Class BlockOpsLaws (S : Type) `{BlockCache S} (sb_of : S → SuperBlock) := {
  content_law s b d : bc_wf s → bc_content s b = Some d → block_ok d;
  room_law ctx n m s : n ≤ m → bc_room ctx m s → bc_room ctx n s;
  acquire_law s b d :
    bc_wf s → bc_content s b = Some d → bc_held s b = false →
    ∃ s', bc_acquire b s = Ret b s' ∧ bc_goes s' (bc_content s) (upd (bc_held s) b true) ∧
      sb_of s' = sb_of s ∧
      bc_clean s' b ∧ (∀ b', b' ≠ b → bc_clean s b' → bc_clean s' b') ∧
      (∀ ctx n, bc_room ctx n s → bc_room ctx n s');
  data_law s b d :
    bc_wf s → bc_content s b = Some d → bc_held s b = true → bc_data b s = Ret d s;
  store_law s b d :
    bc_wf s → bc_held s b = true → block_ok d →
    ∃ s', bc_store b d s = Ret () s' ∧ bc_goes s' (upd (bc_content s) b (Some d)) (bc_held s) ∧
      sb_of s' = sb_of s ∧
      (∀ b', b' ≠ b → bc_clean s b' → bc_clean s' b') ∧
      (∀ ctx n, bc_room ctx n s → bc_room ctx n s');
  sync_law ctx n s b :
    bc_wf s → bc_held s b = true → 0 ≤ n → bc_room ctx (n + 1) s →
    ∃ s', bc_sync ctx b s = Ret () s' ∧ bc_goes s' (bc_content s) (bc_held s) ∧
      sb_of s' = sb_of s ∧
      bc_clean s' b ∧ (∀ b', b' ≠ b → bc_clean s b' → bc_clean s' b') ∧ bc_room ctx n s';
  release_law s b :
    bc_wf s → bc_held s b = true → bc_clean s b →
    ∃ s', bc_release b s = Ret () s' ∧ bc_goes s' (bc_content s) (upd (bc_held s) b false) ∧
      sb_of s' = sb_of s ∧
      (∀ b', b' ≠ b → bc_clean s b' → bc_clean s' b') ∧
      (∀ ctx n, bc_room ctx n s → bc_room ctx n s');
}.

Class BlockCacheLaws (S : Type) `{BlockCache S} (sb_of : S → SuperBlock) := {
  #[global] block_ops :: BlockOpsLaws S sb_of;
  alloc_law ctx n s :
    bc_wf s → 0 ≤ n → bc_room ctx (n + 2) s → alloc_ok (sb_of s) (bc_content s) (bc_held s) →
    (∃ b, 0 ≤ b < alloc_bound (sb_of s) ∧ used (sb_of s) (bc_content s) b = Some false) →
    ∃ b s', bc_alloc ctx s = Ret b s' ∧ 0 ≤ b < alloc_bound (sb_of s) ∧
      used (sb_of s) (bc_content s) b = Some false ∧
      (∀ b', 0 ≤ b' < b → used (sb_of s) (bc_content s) b' = Some true) ∧
      bc_wf s' ∧ sb_of s' = sb_of s ∧ (∀ b', bc_held s' b' = bc_held s b') ∧
      bc_content s' b = Some (replicate 512 0) ∧
      (∀ b', b' ≠ b → b' ≠ bitmap_block_of (sb_of s) b → bc_content s' b' = bc_content s b') ∧
      (∀ b', 0 ≤ b' < alloc_bound (sb_of s) → used (sb_of s) (bc_content s') b' =
               if decide (b' = b) then Some true else used (sb_of s) (bc_content s) b') ∧
      (∀ b', bc_held s b' = true → bc_clean s b' → bc_clean s' b') ∧ bc_room ctx n s';
  free_law ctx n s b :
    bc_wf s → 0 ≤ n → bc_room ctx (n + 1) s → 0 ≤ b →
    used (sb_of s) (bc_content s) b = Some true → bc_held s (bitmap_block_of (sb_of s) b) = false →
    ∃ s', bc_free ctx b s = Ret () s' ∧
      bc_wf s' ∧ sb_of s' = sb_of s ∧ (∀ b', bc_held s' b' = bc_held s b') ∧
      (∀ b', b' ≠ bitmap_block_of (sb_of s) b → bc_content s' b' = bc_content s b') ∧
      (∀ b', 0 ≤ b' → used (sb_of s) (bc_content s') b' =
               if decide (b' = b) then Some false else used (sb_of s) (bc_content s) b') ∧
      (∀ b', bc_held s b' = true → bc_clean s b' → bc_clean s' b') ∧ bc_room ctx n s';
}.

(** ** Derived: whole reads and writes of a block nobody holds *)
Section sessions.
Context {S : Type} `{BlockOpsLaws S sb_of}.

(** [upd] at a point that already has the value. *)
Lemma goes_ext (s' : S) c c' h h' :
  (∀ b, c b = c' b) → (∀ b, h b = h' b) → bc_goes s' c h → bc_goes s' c' h'.
Proof. intros Hc Hh (? & H1 & H2). split_and!; [done| |]; intros b; by rewrite ?H1 ?H2. Qed.

(** Acquire, change the data, synchronise, release. *)
Lemma session_write ctx n s b d d' :
  bc_wf s → bc_content s b = Some d → bc_held s b = false → block_ok d' →
  0 ≤ n → bc_room ctx (n + 1) s →
  ∃ s1 s2 s3 s4,
    bc_acquire b s = Ret b s1 ∧ bc_data b s1 = Ret d s1 ∧ bc_store b d' s1 = Ret () s2 ∧
    bc_sync ctx b s2 = Ret () s3 ∧ bc_release b s3 = Ret () s4 ∧
    bc_goes s4 (upd (bc_content s) b (Some d')) (bc_held s) ∧ sb_of s4 = sb_of s ∧
    (∀ b', bc_held s b' = true → bc_clean s b' → bc_clean s4 b') ∧ bc_room ctx n s4.
Proof.
  intros Hwf Hd Hh Hok Hn Hroom.
  destruct (acquire_law s b d Hwf Hd Hh) as (s1 & R1 & (W1 & C1 & H1) & SB1 & _ & CL1 & RM1).
  assert (Hb1 : bc_held s1 b = true) by by rewrite H1 upd_eq.
  destruct (store_law s1 b d' W1 Hb1 Hok) as (s2 & R2 & (W2 & C2 & H2) & SB2 & CL2 & RM2).
  assert (Hb2 : bc_held s2 b = true) by by rewrite H2.
  destruct (sync_law ctx n s2 b W2 Hb2 Hn (RM2 _ _ (RM1 _ _ Hroom))) as
    (s3 & R3 & (W3 & C3 & H3) & SB3 & CB3 & CL3 & RM3).
  destruct (release_law s3 b W3) as (s4 & R4 & (W4 & C4 & H4) & SB4 & CL4 & RM4); [by rewrite H3|done|].
  exists s1, s2, s3, s4. rewrite /bc_goes. split_and!; try done.
  - apply data_law; [done|by rewrite C1|done].
  - intros b'. rewrite C4 C3 C2 /upd C1 //.
  - intros b'. rewrite H4 /upd H3 H2 H1 /upd. case_decide; [by subst|done].
  - congruence.
  - intros b' Hb' Hcl. assert (b' ≠ b) by congruence. auto.
  - auto.
Qed.

(** Acquire, read, release. *)
Lemma session_read s b d :
  bc_wf s → bc_content s b = Some d → bc_held s b = false →
  ∃ s1 s2, bc_acquire b s = Ret b s1 ∧ bc_data b s1 = Ret d s1 ∧ bc_release b s1 = Ret () s2 ∧
    bc_goes s2 (bc_content s) (bc_held s) ∧ sb_of s2 = sb_of s ∧
    (∀ b', bc_held s b' = true → bc_clean s b' → bc_clean s2 b') ∧
    (∀ ctx n, bc_room ctx n s → bc_room ctx n s2).
Proof.
  intros Hwf Hd Hh.
  destruct (acquire_law s b d Hwf Hd Hh) as (s1 & R1 & (W1 & C1 & H1) & SB1 & CB1 & CL1 & RM1).
  assert (Hb1 : bc_held s1 b = true) by by rewrite H1 upd_eq.
  destruct (release_law s1 b W1 Hb1 CB1) as (s2 & R2 & (W2 & C2 & H2) & SB2 & CL2 & RM2).
  exists s1, s2. rewrite /bc_goes. split_and!; try done.
  - apply data_law; [done|by rewrite C1|done].
  - intros b'. by rewrite C2.
  - intros b'. rewrite H2 /upd H1 /upd. case_decide; [by subst|done].
  - congruence.
  - intros b' Hb' Hcl. assert (b' ≠ b) by congruence. auto.
  - auto.
Qed.
End sessions.
