(* ===== verification/CacheAlloc.v ===== *)
(** * CacheAlloc: the block allocator, and the cache as a [BlockCache]

    [cache_alloc], [cache_free] and the swap-area allocator of [fs/cache.c], and
    the proof that the operations of [Cache.v] keep the promises of
    [BlockCache.v]. *)

From stdpp Require Import base numbers list gmap.
From S2P Require Import Prelude Bitmap Spinlock Bytes FsDefs Cache CacheList CacheOps BlockCache.

#[export] Instance cache_ops : BlockCache cstate := {|
  bc_acquire := cache_acquire;
  bc_release := cache_release;
  bc_sync := cache_sync;
  bc_alloc := cache_alloc;
  bc_free := cache_free;
  bc_data b := x ← load_block b; mret (data x);
  bc_store b d := upd_block b (set_data d);
  bc_wf := cache_wf;
  bc_content := content;
  bc_held := held;
  bc_clean := clean;
  bc_room := sync_room |}.

Lemma room_log_part ctx n s s' : log_part s' = log_part s → sync_room ctx n s → sync_room ctx n s'.
Proof.
  intros H. injection H as Hh _ Hc _ _. destruct ctx; [|done]. rewrite /sync_room Hh Hc. done.
Qed.

Lemma held_find s b : held s b = true → ∃ x, find_block b (head s) = Some x ∧ acquired x = true.
Proof. rewrite /held. destruct (find_block b (head s)); [eauto|done]. Qed.

Lemma sb_log_part s s' : log_part s' = log_part s → sblock s' = sblock s.
Proof. by intros [=]. Qed.

#[export] Instance cache_ops_laws : BlockOpsLaws cstate sblock.
Proof.
  split.
  - intros s b d (_ & _ & Hdisk & Hblk & _). rewrite /bc_content /= /content.
    destruct (find_block b (head s)) as [x|] eqn:Hx; [intros [= <-]; apply (Hblk _ _ Hx)|apply Hdisk].
  - intros [ctx|] n m s Hnm; [|done]. intros (rm & ? & ? & ?). exists rm. split_and!; [done|lia|done].
  - intros s b d Hwf Hd Hh.
    destruct (acquire_spec s b d Hwf Hd Hh) as (s' & Hrun & W & LP & _ & _ & _ & C & H & CL).
    exists s'. split_and!; try done.
    + by apply sb_log_part.
    + apply CL. by apply unheld_clean.
    + intros. by apply CL.
    + intros ctx n. by apply room_log_part.
  - intros s b d Hwf Hd (x & Hx & _)%held_find. rewrite /bc_content /= /content Hx in Hd.
    rewrite /bc_data /=. erewrite bind_run; [|exact (load_block_run _ _ _ Hx)]. by injection Hd as <-.
  - intros s b d Hwf (x & Hx & Ha)%held_find Hok.
    destruct (store_spec s b x d Hwf Hx Ha Hok) as (s' & Hrun & W & LP & _ & _ & _ & C & H & CL).
    exists s'. split_and!; try done.
    + by apply sb_log_part.
    + intros ctx n. by apply room_log_part.
  - intros ctx n s b Hwf (x & Hx & Ha)%held_find Hn Hroom.
    destruct (sync_spec ctx s b x Hwf Hx) as (s' & Hrun & W & SY & (x' & Hx' & _ & _ & Hcl) & C & H & CL).
    { destruct ctx; [|done]. destruct Hroom as (rm & ? & ? & ?). exists rm. split_and!; [done|lia|done]. }
    exists s'. split_and!; try done.
    + by apply SY.
    + intros y Hy. by simplify_eq.
    + exact (synced_room _ _ _ _ _ _ SY Hroom).
  - intros s b Hwf (x & Hx & Ha)%held_find Hcl.
    destruct (release_spec s b x Hwf Hx (Hcl _ Hx)) as (s' & Hrun & W & LP & _ & _ & C & H & CL).
    exists s'. split_and!; try done.
    + by apply sb_log_part.
    + intros. by apply CL.
    + intros ctx n. by apply room_log_part.
Qed.

Local Notation cache_session_write := (@session_write cstate cache_ops sblock cache_ops_laws).
Local Notation cache_session_read := (@session_read cstate cache_ops sblock cache_ops_laws).

(** ** Scanning a bitmap block *)
Lemma scan_bitmap_spec fuel bm index bound : ∀ i,
  length bm = 64%nat → 0 ≤ i → BIT_PER_BLOCK - i ≤ Z.of_nat fuel →
  match scan_bitmap fuel bm index i bound with
  | None => False
  | Some (Some j) =>
      i ≤ j < BIT_PER_BLOCK ∧ index + j < bound ∧ bitmap_get bm j = Some false ∧
      ∀ k, i ≤ k < j → bitmap_get bm k = Some true
  | Some None => ∀ k, i ≤ k < BIT_PER_BLOCK → index + k < bound → bitmap_get bm k = Some true
  end.
Proof.
  induction fuel as [|fuel IH]; intros i Hlen Hi Hf; simpl; [lia|].
  destruct (i <? BIT_PER_BLOCK) eqn:E1; simpl; [apply Z.ltb_lt in E1|apply Z.ltb_ge in E1; lia].
  destruct (index + i <? bound) eqn:E2; simpl; [apply Z.ltb_lt in E2|apply Z.ltb_ge in E2; lia].
  assert (is_Some (bitmap_get bm i)) as [v Hv].
  { apply bitmap_get_is_Some. rewrite /bitmap_capacity Hlen. split; [done|exact E1]. }
  rewrite Hv /=. destruct v.
  - specialize (IH (i + 1) Hlen ltac:(lia) ltac:(lia)).
    destruct (scan_bitmap fuel bm index (i + 1) bound) as [[j|]|]; [|..|done].
    + destruct IH as (? & ? & ? & Hk). split_and!; [lia|lia|done|done|].
      intros k Hk'. destruct (decide (k = i)) as [->|]; [done|]. apply Hk. lia.
    + intros k Hk ?. destruct (decide (k = i)) as [->|]; [done|]. apply IH; lia.
  - split_and!; [lia|done|done|done|]. intros. lia.
Qed.

(** ** Bits and blocks *)
Lemma length_data_cells d : length (data_cells d) = 64%nat.
Proof. apply length_words. Qed.

Lemma data_cells_ok d : block_ok d → Forall cell_ok (data_cells d).
Proof. intros [Hl Hok]. by apply (words_range 8 64). Qed.

Lemma cells_data_ok c : length c = 64%nat → block_ok (cells_data c).
Proof. intros Hl. split; [|apply unwords_ok]. by rewrite /cells_data length_unwords Hl. Qed.

Lemma data_cells_data c : length c = 64%nat → Forall cell_ok c → data_cells (cells_data c) = c.
Proof. intros. by apply words_unwords. Qed.

Lemma div_mod_4096 index i : 0 ≤ index → index mod BIT_PER_BLOCK = 0 → 0 ≤ i < BIT_PER_BLOCK →
  (index + i) / BIT_PER_BLOCK = index / BIT_PER_BLOCK ∧ (index + i) mod BIT_PER_BLOCK = i.
Proof. rewrite /BIT_PER_BLOCK /BLOCK_SIZE. intros. split; dlia. Qed.

(** The bits after one bitmap block is overwritten with one bit changed. *)
Lemma used_upd sb c c' b d bm v b' :
  0 ≤ b → c (bitmap_block_of sb b) = Some d →
  c' (bitmap_block_of sb b) = Some (cells_data bm) →
  (bitmap_block_of sb b' ≠ bitmap_block_of sb b →
     c' (bitmap_block_of sb b') = c (bitmap_block_of sb b')) →
  length bm = 64%nat → Forall cell_ok bm →
  (∀ j, 0 ≤ j → bitmap_get bm j = if b mod BIT_PER_BLOCK =? j then Some v else bitmap_get (data_cells d) j) →
  0 ≤ b' → used sb c' b' = if decide (b' = b) then Some v else used sb c b'.
Proof.
  intros Hb0 Hd Hc' Hoth Hlen Hok Hget Hb'. rewrite /used.
  assert (Hm : 0 ≤ b' mod BIT_PER_BLOCK) by (apply Z.mod_pos_bound; done).
  destruct (decide (bitmap_block_of sb b' = bitmap_block_of sb b)) as [He|Hne].
  - rewrite He Hc' Hd /= data_cells_data // Hget //.
    destruct (Z.eqb_spec (b mod BIT_PER_BLOCK) (b' mod BIT_PER_BLOCK)) as [E|E].
    + rewrite decide_True //. rewrite /bitmap_block_of /BIT_PER_BLOCK /BLOCK_SIZE in He E. dlia.
    + rewrite decide_False //. congruence.
  - rewrite Hoth // decide_False //. congruence.
Qed.

(** What an allocation of [b] makes of the contents [c] and held blocks [h]. *)
Definition alloc_post (sb : SuperBlock) (ctx : option Z) (n : Z) (c : Z → option (list Z)) (h : Z → bool)
    (cl : Z → Prop) (b : Z) (s' : cstate) : Prop :=
  0 ≤ b < alloc_bound sb ∧ used sb c b = Some false ∧
  (∀ b', 0 ≤ b' < b → used sb c b' = Some true) ∧
  cache_wf s' ∧ sblock s' = sb ∧ (∀ b', held s' b' = h b') ∧
  content s' b = Some (replicate 512 0) ∧
  (∀ b', b' ≠ b → b' ≠ bitmap_block_of sb b → content s' b' = c b') ∧
  (∀ b', 0 ≤ b' < alloc_bound sb → used sb (content s') b' = if decide (b' = b) then Some true else used sb c b') ∧
  (∀ b', h b' = true → cl b' → clean s' b') ∧ sync_room ctx n s'.

Lemma used_ext sb c c' b : (∀ x, c x = c' x) → used sb c b = used sb c' b.
Proof. intros H. by rewrite /used H. Qed.

Lemma alloc_ok_ext sb c c' h h' :
  (∀ x, c x = c' x) → (∀ x, h x = h' x) → alloc_ok sb c h → alloc_ok sb c' h'.
Proof.
  intros Hc Hh Hok b Hb. destruct (Hok b Hb) as (H1 & H2 & H3).
  rewrite -!Hc -!Hh -(used_ext sb _ _ _ Hc). done.
Qed.

Lemma alloc_post_ext sb ctx n c c' h h' (cl cl' : Z → Prop) b s' :
  (∀ x, c x = c' x) → (∀ x, h x = h' x) → (∀ x, h x = true → cl x → cl' x) →
  alloc_post sb ctx n c' h' cl' b s' → alloc_post sb ctx n c h cl b s'.
Proof.
  intros Hc Hh Hcl (P1 & P2 & P3 & P4 & P5 & P6 & P7 & P8 & P9 & P10 & P11).
  rewrite /alloc_post (used_ext sb c c' b Hc). split_and!; try done.
  - apply P1.
  - apply P1.
  - intros. rewrite (used_ext sb c c' _ Hc). by apply P3.
  - intros. by rewrite Hh.
  - intros. rewrite Hc. by apply P8.
  - intros. rewrite (used_ext sb c c' _ Hc). by apply P9.
  - intros b' Hb' Hcl'. apply P10; [by rewrite -Hh|]. by apply Hcl.
Qed.

Lemma zero_block_ok : block_ok (replicate 512 0).
Proof. split; [done|]. apply Forall_replicate. rewrite /byte_ok. lia. Qed.

(** The branch that found bit [i] of a bitmap block clear. *)
Definition alloc_found (ctx : option Z) (bitmap_block : Z) (b : Block) (index i : Z) : M cstate Z :=
  bm ← of_opt (bitmap_set (data_cells (data b)) i);
  upd_block bitmap_block (set_data (cells_data bm));;
  cache_sync ctx bitmap_block;;
  cache_release bitmap_block;;
  alloc_block ← cache_acquire (index + i);
  upd_block alloc_block (set_data (replicate 512 0));;
  cache_sync ctx alloc_block;;
  cache_release alloc_block;;
  mret (index + i).

Lemma alloc_found_spec ctx n s s1 x d index i :
  cache_wf s → 0 ≤ n → sync_room ctx (n + 2) s → alloc_ok (sblock s) (content s) (held s) →
  0 ≤ index → index mod BIT_PER_BLOCK = 0 → 0 ≤ i < BIT_PER_BLOCK → index + i < alloc_bound (sblock s) →
  let bb := bitmap_block_of (sblock s) (index + i) in
  content s bb = Some d →
  bitmap_get (data_cells d) i = Some false →
  (∀ b', 0 ≤ b' < index + i → used (sblock s) (content s) b' = Some true) →
  cache_acquire bb s = Ret bb s1 → find_block bb (head s1) = Some x →
  ∃ s', alloc_found ctx bb x index i s1 = Ret (index + i) s' ∧
        alloc_post (sblock s) ctx n (content s) (held s) (clean s) (index + i) s'.
Proof.
  intros Hwf Hn Hroom Hok H0 Hmod Hi Hlt bb Hd Hbit Hbelow Hacq Hx.
  destruct (div_mod_4096 index i H0 Hmod Hi) as [Ediv Emod].
  assert (Hfree : used (sblock s) (content s) (index + i) = Some false).
  { rewrite /used -/bb Hd /= Emod. done. }
  destruct (Hok (index + i)) as (_ & Hheld & Hfr); [lia|]. destruct (Hfr Hfree) as ([d2 Hd2] & Hheld2 & Hnb).
  destruct (bitmap_set_is_Some (data_cells d) i) as [bm Hbm]; [by rewrite Hbit|].
  assert (Hlen : length bm = 64%nat) by by rewrite (bitmap_set_length _ _ _ Hbm) length_data_cells.
  pose proof (cells_data_ok bm Hlen) as Hbmok.
  replace (n + 2) with (n + 1 + 1) in Hroom by lia.
  destruct (cache_session_write ctx (n + 1) s bb d _ Hwf Hd Hheld Hbmok ltac:(lia) Hroom)
    as (t1 & s2 & s3 & s4 & R1 & R1' & R2 & R3 & R4 & (W4 & C4 & H4) & SB4 & CL4 & RM4).
  assert (t1 = s1) as -> by (simpl in R1; congruence).
  assert (Hxd : data x = d).
  { simpl in R1'. rewrite (bind_run _ _ _ _ _ (load_block_run _ _ _ Hx)) in R1'. by injection R1'. }
  assert (Hdok : block_ok d).
  { rewrite /content in Hd. destruct (find_block bb (head s)) as [y|] eqn:Ey.
    - injection Hd as <-. by apply (proj1 (proj2 (proj2 (proj2 Hwf))) _ _ Ey).
    - by apply (proj1 (proj2 (proj2 Hwf)) _ _ Hd). }
  assert (Hne : bb ≠ index + i) by (intros E; by apply (Hnb (index + i)); [lia|]).
  simpl in C4, H4, CL4.
  destruct (cache_session_write ctx n s4 (index + i) d2 (replicate 512 0) W4)
    as (u1 & u2 & u3 & u4 & Q1 & _ & Q2 & Q3 & Q4 & (W' & C' & H') & SB' & CL' & RM').
  { simpl. rewrite C4 upd_ne //. congruence. }
  { simpl. by rewrite H4. }
  { apply zero_block_ok. }
  { done. }
  { done. }
  exists u4. split.
  - rewrite /alloc_found Hxd. erewrite bind_run; [|apply of_opt_run; exact Hbm].
    erewrite bind_run; [|exact R2]. erewrite bind_run; [|exact R3]. erewrite bind_run; [|exact R4].
    erewrite bind_run; [|exact Q1]. erewrite bind_run; [|exact Q2]. erewrite bind_run; [|exact Q3].
    by erewrite bind_run; [|exact Q4].
  - simpl in C', H', CL'. split_and!; try done; try lia.
    + congruence.
    + intros. by rewrite H' H4.
    + by rewrite C' upd_eq.
    + intros b' Hb' Hb''. rewrite C' upd_ne // C4 upd_ne //.
    + intros b' Hb'. apply (used_upd _ _ _ _ d bm); try done; try lia.
      * rewrite C' upd_ne // C4 upd_eq //.
      * intros Hne'. rewrite C' upd_ne; [|by rewrite C4 upd_ne].
        intros E. by apply (Hnb b').
      * apply (bitmap_set_ok _ _ _ (proj1 Hi) (data_cells_ok d Hdok) Hbm).
      * intros j Hj. rewrite (bitmap_set_get _ _ _ _ (proj1 Hi) Hj Hbm) Emod //.
    + intros b' Hb' Hcl. apply CL'; [by rewrite H4|]. by apply CL4.
Qed.

Lemma content_ok s b d : cache_wf s → content s b = Some d → block_ok d.
Proof.
  intros (_ & _ & Hdisk & Hblk & _). rewrite /content.
  destruct (find_block b (head s)) as [y|] eqn:Ey; [|by apply Hdisk].
  intros [= <-]. by apply (Hblk _ _ Ey).
Qed.

Lemma alloc_loop_step ctx fuel index s x s1 bb :
  index < alloc_bound (sblock s) → bb = index / BIT_PER_BLOCK + bitmap_start (sblock s) →
  cache_acquire bb s = Ret bb s1 → find_block bb (head s1) = Some x →
  cache_alloc_loop (S fuel) ctx index s =
    (r ← of_opt (scan_bitmap (Z.to_nat BIT_PER_BLOCK) (data_cells (data x)) index 0 (alloc_bound (sblock s)));
     match r with
     | Some i => alloc_found ctx bb x index i
     | None => cache_release bb;; cache_alloc_loop fuel ctx (index + BIT_PER_BLOCK)
     end) s1.
Proof.
  intros Hlt -> Hacq Hx. cbn [cache_alloc_loop].
  rewrite (bind_run _ _ s (sblock s) s); [reflexivity|].
  rewrite (proj2 (Z.ltb_lt _ _) Hlt). rewrite (bind_run _ _ _ _ _ Hacq).
  rewrite (bind_run _ _ _ _ _ (load_block_run _ _ _ Hx)). reflexivity.
Qed.

Lemma cache_alloc_loop_spec ctx n fuel : ∀ s index,
  cache_wf s → 0 ≤ n → sync_room ctx (n + 2) s → alloc_ok (sblock s) (content s) (held s) →
  0 ≤ index → index mod BIT_PER_BLOCK = 0 → alloc_bound (sblock s) - index ≤ BIT_PER_BLOCK * Z.of_nat fuel →
  (∀ b, 0 ≤ b < index → b < alloc_bound (sblock s) → used (sblock s) (content s) b = Some true) →
  (∃ b, 0 ≤ b < alloc_bound (sblock s) ∧ used (sblock s) (content s) b = Some false) →
  ∃ b s', cache_alloc_loop fuel ctx index s = Ret b s' ∧
          alloc_post (sblock s) ctx n (content s) (held s) (clean s) b s'.
Proof.
  induction fuel as [|fuel IH]; intros s index Hwf Hn Hroom Hok H0 Hmod Hfuel Hbelow Hex.
  all: assert (Hlt : index < alloc_bound (sblock s)) by
    (destruct Hex as (b & Hb & Hu); destruct (decide (index ≤ b)); [lia|];
     rewrite Hbelow in Hu; [lia|lia|done]).
  { lia. }
  destruct (div_mod_4096 index 0 H0 Hmod ltac:(done)) as [Ediv Emod].
  destruct (Hok index) as ([d Hd] & Hheld & _); [lia|].
  set (bb := bitmap_block_of (sblock s) index) in *.
  destruct (cache_session_read s bb d Hwf Hd Hheld) as
    (s1 & s2 & R1 & Rd & R2 & (W2 & C2 & H2) & SB2 & CL2 & RM2).
  simpl in R1, Rd, R2, C2, H2, CL2, RM2.
  apply bind_ret_inv in Rd as (x & t & Hx & Hxd). injection Hxd as Hxd ->.
  assert (Hfx : find_block bb (head s1) = Some x).
  { revert Hx. rewrite /load_block. run_simpl. destruct (find_block bb (head s1)); [by intros [= ->]|done]. }
  rewrite (alloc_loop_step ctx fuel index s x s1 bb Hlt eq_refl R1 Hfx) Hxd.
  pose proof (scan_bitmap_spec (Z.to_nat BIT_PER_BLOCK) (data_cells d) index (alloc_bound (sblock s)) 0
                (length_data_cells d) ltac:(lia) ltac:(done)) as Hscan.
  assert (Hbits : ∀ k, 0 ≤ k < BIT_PER_BLOCK → used (sblock s) (content s) (index + k) = bitmap_get (data_cells d) k).
  { intros k Hk. destruct (div_mod_4096 index k H0 Hmod Hk) as [Ed Em].
    rewrite /used /bitmap_block_of Ed Em. fold (bitmap_block_of (sblock s) index). by rewrite -/bb Hd. }
  destruct (scan_bitmap _ _ _ _ _) as [[i|]|]; [| |done];
    (erewrite bind_run; [|reflexivity]).
  - destruct Hscan as (Hi & Hib & Hget & Hlow).
    assert (Ebb : bitmap_block_of (sblock s) (index + i) = bb).
    { destruct (div_mod_4096 index i H0 Hmod Hi) as [Ed _]. by rewrite /bb /bitmap_block_of Ed. }
    assert (Hbelow' : ∀ b', 0 ≤ b' < index + i → used (sblock s) (content s) b' = Some true).
    { intros b' Hb'. destruct (decide (b' < index)); [apply Hbelow; lia|].
      replace b' with (index + (b' - index)) by lia. rewrite Hbits; [lia|]. apply Hlow. lia. }
    destruct (alloc_found_spec ctx n s s1 x d index i) as (s' & Hrun & Hpost); rewrite ?Ebb; try done.
    exists (index + i), s'. rewrite Ebb in Hrun. done.
  - destruct (IH s2 (index + BIT_PER_BLOCK)) as (b & s' & Hrun & Hpost).
    + done.
    + done.
    + by apply RM2.
    + rewrite SB2. by apply (alloc_ok_ext _ (content s) _ (held s)).
    + rewrite /BIT_PER_BLOCK /BLOCK_SIZE. lia.
    + rewrite -Hmod /BIT_PER_BLOCK /BLOCK_SIZE. dlia.
    + rewrite SB2. lia.
    + rewrite SB2. intros b Hb. intros Hlt'. rewrite (used_ext _ _ (content s)) //.
      destruct (decide (b < index)); [apply Hbelow; lia|].
      replace b with (index + (b - index)) by lia. rewrite Hbits; [lia|]. apply Hscan; lia.
    + rewrite SB2. destruct Hex as (b & Hb & Hu). exists b. by rewrite (used_ext _ _ (content s)).
    + exists b, s'. split; [by rewrite (bind_run _ _ _ _ _ R2)|]. rewrite SB2 in Hpost.
      eapply alloc_post_ext; [| | |exact Hpost]; [done|done|exact CL2].
Qed.

Lemma alloc_fuel sb : alloc_bound sb - 0 ≤ BIT_PER_BLOCK * Z.of_nat (S (Z.to_nat (alloc_bound sb / BIT_PER_BLOCK))).
Proof.
  pose proof (wrap_range 32 (num_blocks sb - SWAP_SIZE) ltac:(lia)) as Hr.
  rewrite -/(u32 _) -/(alloc_bound sb) in Hr. rewrite /BIT_PER_BLOCK /BLOCK_SIZE. dlia.
Qed.

Lemma cache_alloc_spec ctx n s :
  cache_wf s → 0 ≤ n → sync_room ctx (n + 2) s → alloc_ok (sblock s) (content s) (held s) →
  (∃ b, 0 ≤ b < alloc_bound (sblock s) ∧ used (sblock s) (content s) b = Some false) →
  ∃ b s', cache_alloc ctx s = Ret b s' ∧ alloc_post (sblock s) ctx n (content s) (held s) (clean s) b s'.
Proof.
  intros Hwf Hn Hroom Hok Hex. unfold cache_alloc. rewrite (bind_run _ _ s (sblock s) s); [reflexivity|].
  apply cache_alloc_loop_spec; [done..|apply alloc_fuel| |done]. intros. lia.
Qed.

(** With every block used, the scan ends in the panic. *)
Lemma cache_alloc_loop_full ctx fuel : ∀ s index,
  cache_wf s → alloc_ok (sblock s) (content s) (held s) →
  0 ≤ index → index mod BIT_PER_BLOCK = 0 → alloc_bound (sblock s) - index ≤ BIT_PER_BLOCK * Z.of_nat fuel →
  (∀ b, 0 ≤ b < alloc_bound (sblock s) → used (sblock s) (content s) b = Some true) →
  cache_alloc_loop fuel ctx index s = Panic.
Proof.
  induction fuel as [|fuel IH]; intros s index Hwf Hok H0 Hmod Hfuel Hall.
  all: destruct (decide (index < alloc_bound (sblock s))) as [Hlt|Hge];
    [|cbn [cache_alloc_loop]; rewrite (bind_run _ _ s (sblock s) s); [reflexivity|];
      by rewrite (proj2 (Z.ltb_ge _ _)); [lia|]].
  { lia. }
  destruct (Hok index) as ([d Hd] & Hheld & _); [lia|].
  set (bb := bitmap_block_of (sblock s) index) in *.
  destruct (cache_session_read s bb d Hwf Hd Hheld) as
    (s1 & s2 & R1 & Rd & R2 & (W2 & C2 & H2) & SB2 & CL2 & RM2).
  simpl in R1, Rd, R2, C2, H2, CL2, RM2.
  apply bind_ret_inv in Rd as (x & t & Hx & Hxd). injection Hxd as Hxd ->.
  assert (Hfx : find_block bb (head s1) = Some x).
  { revert Hx. rewrite /load_block. run_simpl. destruct (find_block bb (head s1)); [by intros [= ->]|done]. }
  rewrite (alloc_loop_step ctx fuel index s x s1 bb Hlt eq_refl R1 Hfx) Hxd.
  pose proof (scan_bitmap_spec (Z.to_nat BIT_PER_BLOCK) (data_cells d) index (alloc_bound (sblock s)) 0
                (length_data_cells d) ltac:(lia) ltac:(done)) as Hscan.
  destruct (scan_bitmap _ _ _ _ _) as [[i|]|]; [| |done]; (erewrite bind_run; [|reflexivity]).
  - exfalso. destruct Hscan as (Hi & Hib & Hget & _).
    destruct (div_mod_4096 index i H0 Hmod Hi) as [Ed Em].
    pose proof (Hall (index + i) ltac:(lia)) as Hu. rewrite /used /bitmap_block_of Ed Em in Hu.
    fold (bitmap_block_of (sblock s) index) in Hu. rewrite -/bb Hd /= in Hu. congruence.
  - cbv beta iota. rewrite (bind_run _ _ _ _ _ R2). apply IH; rewrite ?SB2; try done.
    + by apply (alloc_ok_ext _ (content s) _ (held s)).
    + rewrite /BIT_PER_BLOCK /BLOCK_SIZE. lia.
    + rewrite -Hmod /BIT_PER_BLOCK /BLOCK_SIZE. dlia.
    + lia.
    + intros b Hb. rewrite (used_ext _ _ (content s)) //. by apply Hall.
Qed.

Lemma cache_alloc_full ctx s :
  cache_wf s → alloc_ok (sblock s) (content s) (held s) →
  (∀ b, 0 ≤ b < alloc_bound (sblock s) → used (sblock s) (content s) b = Some true) →
  cache_alloc ctx s = Panic.
Proof.
  intros. unfold cache_alloc. rewrite (bind_run _ _ s (sblock s) s); [reflexivity|].
  apply cache_alloc_loop_full; [done..|apply alloc_fuel|done].
Qed.

Lemma cache_free_spec ctx n s b :
  cache_wf s → 0 ≤ n → sync_room ctx (n + 1) s → 0 ≤ b →
  used (sblock s) (content s) b = Some true → held s (bitmap_block_of (sblock s) b) = false →
  ∃ s', cache_free ctx b s = Ret () s' ∧
    cache_wf s' ∧ sblock s' = sblock s ∧ (∀ b', held s' b' = held s b') ∧
    (∀ b', b' ≠ bitmap_block_of (sblock s) b → content s' b' = content s b') ∧
    (∀ b', 0 ≤ b' → used (sblock s) (content s') b' =
             if decide (b' = b) then Some false else used (sblock s) (content s) b') ∧
    (∀ b', held s b' = true → clean s b' → clean s' b') ∧ sync_room ctx n s'.
Proof.
  intros Hwf Hn Hroom Hb Hu Hheld. set (bb := bitmap_block_of (sblock s) b) in *.
  rewrite /used -/bb in Hu. destruct (content s bb) as [d|] eqn:Hd; [|done]. simpl in Hu.
  pose proof (content_ok s bb d Hwf Hd) as Hdok.
  set (i := b mod BIT_PER_BLOCK) in *.
  assert (Hi : 0 ≤ i < BIT_PER_BLOCK) by (apply Z.mod_pos_bound; done).
  destruct (bitmap_clear_is_Some (data_cells d) i) as [bm Hbm]; [by rewrite Hu|].
  assert (Hlen : length bm = 64%nat) by by rewrite (bitmap_clear_length _ _ _ Hbm) length_data_cells.
  destruct (cache_session_write ctx n s bb d _ Hwf Hd Hheld (cells_data_ok bm Hlen) Hn Hroom)
    as (s1 & s2 & s3 & s4 & R1 & R1' & R2 & R3 & R4 & (W4 & C4 & H4) & SB4 & CL4 & RM4).
  simpl in R1, R1', R2, R3, R4, C4, H4, CL4.
  apply bind_ret_inv in R1' as (x & t & Hx & Hxd). injection Hxd as Hxd ->.
  exists s4. split_and!; try done.
  - unfold cache_free. rewrite (bind_run _ _ s (sblock s) s); [reflexivity|].
    rewrite (bind_run _ _ _ _ _ R1) (bind_run _ _ _ _ _ Hx) Hxd.
    rewrite (bind_run _ _ _ _ _ (of_opt_run _ _ s1 Hu)).
    rewrite (bind_run _ _ _ _ _ (of_opt_run _ _ s1 Hbm)).
    by rewrite (bind_run _ _ _ _ _ R2) (bind_run _ _ _ _ _ R3).
  - intros b' Hb'. by rewrite C4 upd_ne.
  - intros b' Hb'. apply (used_upd _ _ _ _ d bm); try done.
    + by rewrite C4 upd_eq.
    + intros Hne. by rewrite C4 upd_ne.
    + apply (bitmap_clear_ok _ _ _ (proj1 Hi) (data_cells_ok d Hdok) Hbm).
    + intros j Hj. by rewrite (bitmap_clear_get _ _ _ _ (proj1 Hi) Hj Hbm).
Qed.

(** The cache keeps every promise of the interface. *)
#[export] Instance cache_laws : BlockCacheLaws cstate sblock.
Proof.
  split; [apply _| |].
  - intros ctx n s Hwf Hn Hroom Hok Hex.
    destruct (cache_alloc_spec ctx n s Hwf Hn Hroom Hok Hex) as (b & s' & Hrun & Hpost).
    exists b, s'. split; [exact Hrun|exact Hpost].
  - intros ctx n s b. apply cache_free_spec.
Qed.

(** ** The claims on acquisition and allocation *)
(** A disk of ten blocks: the bitmap is block 6 and marks blocks 0 to 6; blocks
    0 to 8 can be allocated. *)
Definition demo2_sb : SuperBlock := mkSuper 209 4 1 3 2 5 6.
Definition demo2_bm : list Z := 127 :: replicate 511 0.
Definition demo2_disk : gmap Z (list Z) :=
  <[6 := demo2_bm]> (list_to_map ((λ i, (Z.of_nat i, replicate 512 0)) <$> seq 0 10)).
Definition demo2 : cstate :=
  mkCState demo2_sb demo2_disk [] false [] (mkHeader 0 (replicate 63 0)) 0 [0; 0; 0; 0]
    (mkLog 2 1 10 false false 0 0) {[ 1 := 10 ]}.

Lemma demo2_bm_ok : block_ok demo2_bm.
Proof.
  split; [done|]. rewrite /demo2_bm. apply Forall_cons_2; [rewrite /byte_ok; lia|].
  apply Forall_replicate. rewrite /byte_ok. lia.
Qed.

Lemma demo2_wf : cache_wf demo2.
Proof.
  split_and!; try done.
  - rewrite /cache_ok. split_and!; [done|apply NoDup_nil_2|done].
  - intros b d. simpl. rewrite /demo2_disk. destruct (decide (b = 6)) as [->|].
    + rewrite lookup_insert_eq. intros Hd. injection Hd as <-. apply demo2_bm_ok.
    + rewrite lookup_insert_ne; [congruence|]. intros Hd%elem_of_list_to_map_2.
      apply list_elem_of_fmap in Hd as (i & [= _ ->] & _). apply zero_block_ok.
  - intros b Hb. by apply elem_of_nil in Hb.
Qed.

Lemma demo2_alloc_ok : alloc_ok (sblock demo2) (content demo2) (held demo2).
Proof.
  intros b Hb. change (alloc_bound _) with 9 in Hb.
  assert (Hbb : ∀ b', 0 ≤ b' < 9 → bitmap_block_of (sblock demo2) b' = 6).
  { intros b' Hb'. rewrite /bitmap_block_of /BIT_PER_BLOCK /BLOCK_SIZE Z.div_small /=; lia. }
  rewrite Hbb //. split_and!; [by eexists|done|]. intros Hu.
  assert (b = 7 ∨ b = 8) as Hcase.
  { destruct (decide (b < 7)); [exfalso|lia].
    assert (b ∈ [0; 1; 2; 3; 4; 5; 6]) as Hin by (rewrite !elem_of_cons; lia). clear -Hu Hin.
    repeat (apply elem_of_cons in Hin as [->|Hin]; [vm_compute in Hu; discriminate|]).
    by apply elem_of_nil in Hin. }
  split_and!; [destruct Hcase as [->| ->]; by eexists|by destruct Hcase as [->| ->]|].
  intros b' Hb'. change (alloc_bound _) with 9 in Hb'. rewrite Hbb //. lia.
Qed.

(** C2: The cache is transparent.  Acquiring a block nobody holds returns it,
    held, with the contents a client last saw, whether it is cached or must be
    read and whether or not other blocks are evicted to make room: no block's
    contents change, no other block becomes or ceases to be held, the disk and
    the log are untouched, and the cache stays well formed (its count exact, no
    block cached twice, every logged block still cached and pinned). *)
Theorem cache_acquire_transparent s b d :
  cache_wf s → content s b = Some d → held s b = false →
  ∃ s', cache_acquire b s = Ret b s' ∧ cache_wf s' ∧
    (∃ x, find_block b (head s') = Some x ∧ acquired x = true ∧ data x = d) ∧
    (∀ b', content s' b' = content s b') ∧
    (∀ b', held s' b' = if decide (b' = b) then true else held s b') ∧
    disk s' = disk s ∧ wtrace s' = wtrace s ∧ log_part s' = log_part s.
Proof.
  intros Hwf Hd Hh.
  destruct (acquire_spec s b d Hwf Hd Hh) as (s' & Hrun & W & LP & D & WT & X & C & H & _).
  exists s'. by split_and!.
Qed.

Lemma cache_acquire_transparent_witness :
  content demo2 6 = Some demo2_bm ∧
  ∃ s', cache_acquire 6 demo2 = Ret 6 s' ∧ held s' 6 = true.
Proof.
  split; [reflexivity|].
  destruct (cache_acquire_transparent demo2 6 demo2_bm demo2_wf) as (s' & H1 & _ & _ & _ & H2 & _);
    [reflexivity|reflexivity|].
  exists s'. split; [exact H1|]. rewrite H2. reflexivity.
Defined.

(** C19: Block allocation.  With a free block below the swap area and room for
    two more blocks in the log, [cache_alloc] returns the lowest-numbered free
    block: its bit becomes set and no other, its contents become zeros, no other
    block but the one bitmap block changes, nothing stays held.  With every
    block used it panics, as [cache.h] promises. *)
Theorem cache_alloc_first_free ctx n s :
  cache_wf s → 0 ≤ n → sync_room ctx (n + 2) s → alloc_ok (sblock s) (content s) (held s) →
  ((∃ b, 0 ≤ b < alloc_bound (sblock s) ∧ used (sblock s) (content s) b = Some false) →
   ∃ b s', cache_alloc ctx s = Ret b s' ∧
           alloc_post (sblock s) ctx n (content s) (held s) (clean s) b s') ∧
  ((∀ b, 0 ≤ b < alloc_bound (sblock s) → used (sblock s) (content s) b = Some true) →
   cache_alloc ctx s = Panic).
Proof. intros Hwf Hn Hroom Hok. split; [by apply cache_alloc_spec|by apply cache_alloc_full]. Qed.

Lemma cache_alloc_first_free_witness :
  ∃ b s', cache_alloc (Some 1) demo2 = Ret b s' ∧ used demo2_sb (content demo2) b = Some false.
Proof.
  destruct (cache_alloc_first_free (Some 1) 8 demo2 demo2_wf ltac:(lia)) as [H _].
  - exists 10. split; [reflexivity|]. split; [lia|]. simpl. lia.
  - exact demo2_alloc_ok.
  - destruct H as (b & s' & H1 & H2).
    + exists 7. split; [split; [lia|reflexivity]|]. vm_compute. reflexivity.
    + exists b, s'. split; [exact H1|]. exact (proj1 (proj2 H2)).
Defined.
