(* ===== verification/CacheSpace.v ===== *)
(** * CacheSpace: the log never overflows

    The accounting of log space in [cache_begin_op], [cache_sync] and
    [cache_end_op] of [fs/cache.c], over every sequence of their steps. *)

From stdpp Require Import base numbers list gmap.
From S2P Require Import Prelude Bitmap Spinlock Bytes FsDefs Cache CacheList CacheLog CacheOps.

(** The blocks reserved by the open operations. *)
Definition sum_rm (m : gmap Z Z) : Z := map_fold (λ _ rm acc, rm + acc) 0 m.

Lemma sum_rm_empty : sum_rm ∅ = 0.
Proof. apply map_fold_empty. Qed.

Lemma sum_rm_insert m c rm : m !! c = None → sum_rm (<[c := rm]> m) = rm + sum_rm m.
Proof. intros. rewrite /sum_rm map_fold_insert_L //. intros. lia. Qed.

Lemma sum_rm_delete m c rm : m !! c = Some rm → sum_rm m = rm + sum_rm (delete c m).
Proof. intros. rewrite /sum_rm (map_fold_delete_L _ _ c rm m) //. intros. lia. Qed.

Lemma sum_rm_update m c rm rm' : m !! c = Some rm → sum_rm (<[c := rm']> m) = sum_rm m - rm + rm'.
Proof.
  intros Hc. rewrite (sum_rm_delete _ _ _ Hc) -insert_delete_eq sum_rm_insert; [|lia].
  apply lookup_delete_eq.
Qed.

Lemma sum_rm_nonneg m : map_Forall (λ _ rm, 0 ≤ rm) m → 0 ≤ sum_rm m.
Proof.
  induction m as [|c rm m Hc IH] using map_ind; [by rewrite sum_rm_empty|].
  intros [H1 H2]%map_Forall_insert; [|done]. rewrite sum_rm_insert //. specialize (IH H2). lia.
Qed.

(** The invariant: what the open operations may still add fits in the log. *)
Definition log_inv (s : cstate) : Prop :=
  length (lh_block_no (header s)) = 63%nat ∧ 0 ≤ lh_num_blocks (header s) ∧
  map_Forall (λ _ rm, 0 ≤ rm ≤ OP_MAX_NUM_BLOCKS) (ctxs s) ∧
  log_used (log s) = sum_rm (ctxs s) ∧
  outstanding (log s) = Z.of_nat (size (ctxs s)) ∧
  lh_num_blocks (header s) + log_used (log s) ≤ max_size (log s) ∧
  max_size (log s) ≤ LOG_MAX_SIZE.

(** ** What the commit leaves alone *)
Definition acct (s : cstate) := (log s, ctxs s, lh_block_no (header s)).
Definition hdr (s : cstate) := (log s, ctxs s, header s).

Section frames.
Context {X : Type} (P : cstate → X).
Hypothesis P_head : ∀ l s, P (set_head l s) = P s.
Hypothesis P_lock : ∀ l s, P (lset cache_lock l s) = P s.
Hypothesis P_cnt : ∀ n s, P (set_cache_cnt n s) = P s.
Hypothesis P_disk : ∀ d s, P (set_disk d s) = P s.
Hypothesis P_wtrace : ∀ w s, P (set_wtrace w s) = P s.

Lemma keeps_acquire_lock : keeps P (_acquire_spinlock cache_lock).
Proof. intros s a s'. rewrite acquire_run. destruct (lget cache_lock s); [done|]. intros [= _ <-]. apply P_lock. Qed.
Lemma keeps_release_lock : keeps P (release_spinlock cache_lock).
Proof. intros s a s'. rewrite release_run. intros [= _ <-]. apply P_lock. Qed.
Lemma keeps_dev_read b : keeps P (dev_read b).
Proof. rewrite /dev_read. keeps_solve. Qed.
Lemma keeps_dev_write b d : keeps P (dev_write b d).
Proof. rewrite /dev_write. keeps_solve; auto. Qed.
Lemma keeps_load_block b : keeps P (load_block b).
Proof. rewrite /load_block. keeps_solve. Qed.
Hint Resolve keeps_acquire_lock keeps_release_lock keeps_dev_read keeps_dev_write keeps_load_block : keeps.
Lemma keeps_upd_block b f : keeps P (upd_block b f).
Proof. rewrite /upd_block. keeps_solve; auto. Qed.
Hint Resolve keeps_upd_block : keeps.
Lemma keeps_get_num : keeps P get_num_cached_blocks.
Proof. rewrite /get_num_cached_blocks. keeps_solve. Qed.
Lemma keeps_LRU_shrink : keeps P LRU_shrink.
Proof. rewrite /LRU_shrink. keeps_solve; auto. Qed.
Hint Resolve keeps_get_num keeps_LRU_shrink : keeps.
Lemma keeps_get_sem_block b : keeps P (get_sem_block b).
Proof. apply keeps_upd_block. Qed.
Lemma keeps_post_sem_block b : keeps P (post_sem_block b).
Proof. apply keeps_upd_block. Qed.
Hint Resolve keeps_get_sem_block keeps_post_sem_block : keeps.
Lemma keeps_cache_acquire b : keeps P (cache_acquire b).
Proof. rewrite /cache_acquire /cache_acquire_back. keeps_solve; auto. Qed.
Lemma keeps_cache_release b : keeps P (cache_release b).
Proof. rewrite /cache_release. keeps_solve. Qed.
Hint Resolve keeps_cache_acquire keeps_cache_release : keeps.
Lemma keeps_device_write b : keeps P (device_write b).
Proof. rewrite /device_write. keeps_solve. Qed.
Hint Resolve keeps_device_write : keeps.
Lemma keeps_write_header : keeps P write_header.
Proof. rewrite /write_header. keeps_solve. Qed.
Lemma keeps_write_log n i : keeps P (write_block_to_log_loop n i).
Proof. revert i. induction n as [|n IH]; intros i; simpl; keeps_solve. Qed.
Lemma keeps_persist n i : keeps P (persist_from_log_loop n i).
Proof. revert i. induction n as [|n IH]; intros i; simpl; keeps_solve. Qed.
End frames.

(** [checkpoint] empties the header and touches no other part of the account. *)
Lemma checkpoint_acct s s' :
  checkpoint s = Ret () s' → 0 ≤ lh_num_blocks (header s) →
  acct s' = acct s ∧ lh_num_blocks (header s') = 0.
Proof.
  rewrite /checkpoint. intros (h & t & [= <- <-] & H)%bind_ret_inv Hn.
  destruct (lh_num_blocks (header s) <=? 0) eqn:E.
  { injection H as <-. apply Z.leb_le in E. split; [done|lia]. }
  apply bind_ret_inv in H as ([] & s1 & H1 & H).
  apply bind_ret_inv in H as ([] & s2 & H2 & H).
  apply bind_ret_inv in H as ([] & s3 & H3 & H).
  apply bind_ret_inv in H as ([] & s4 & [= <-] & H).
  apply bind_ret_inv in H1 as (h1 & t1 & [= _ <-] & H1).
  apply bind_ret_inv in H3 as (h3 & t3 & [= _ <-] & H3).
  apply (keeps_write_log hdr) in H1; [|done..].
  apply (keeps_write_header hdr) in H2; [|done..].
  apply (keeps_persist hdr) in H3; [|done..].
  apply (keeps_write_header hdr) in H; [|done..].
  rewrite H1 in H2. rewrite H2 in H3. injection H3 as E1 E2 E3. injection H as F1 F2 F3.
  rewrite /acct. split; [|by rewrite F3].
  rewrite F3 /= F1 F2 /= E1 E2 E3. done.
Qed.

(** ** The steps *)
Inductive log_step : cstate → cstate → Prop :=
| step_begin c ok s s' : ctxs s !! c = None → cache_begin_op_try c s = Ret ok s' → log_step s s'
| step_sync c b s s' : cache_sync (Some c) b s = Ret () s' → log_step s s'
| step_end c r s s' : cache_end_op c s = Ret r s' → log_step s s'
| step_acquire b s s' : cache_acquire b s = Ret b s' → log_step s s'
| step_release b s s' : cache_release b s = Ret () s' → log_step s s'
| step_store b d s s' : upd_block b (set_data d) s = Ret () s' → log_step s s'.

Lemma log_inv_hdr s s' : hdr s' = hdr s → log_inv s → log_inv s'.
Proof. intros H. injection H as H1 H2 H3. by rewrite /log_inv H1 H2 H3. Qed.

Lemma LOG_MAX_SIZE_63 : LOG_MAX_SIZE = 63.
Proof. done. Qed.

Lemma log_inv_bounds s : log_inv s → 0 ≤ lh_num_blocks (header s) ≤ 63 ∧ 0 ≤ log_used (log s).
Proof.
  rewrite /log_inv LOG_MAX_SIZE_63. intros (_ & H0 & Hrm & Hu & _ & Hle & Hmax).
  assert (0 ≤ sum_rm (ctxs s)); [|lia]. apply sum_rm_nonneg. eapply map_Forall_impl; [exact Hrm|]. naive_solver lia.
Qed.

Lemma begin_inv c ok s s' :
  ctxs s !! c = None → cache_begin_op_try c s = Ret ok s' → log_inv s → log_inv s'.
Proof.
  intros Hc Hrun Hinv. pose proof (log_inv_bounds s Hinv) as [Hn Hu].
  destruct Hinv as (H1 & H2 & H3 & H4 & H5 & H6 & H7).
  rewrite /cache_begin_op_try in Hrun. apply bind_ret_inv in Hrun as ([] & s1 & Ha & Hrun).
  rewrite acquire_run in Ha. destruct (lget log_lock_lens s); [done|]. injection Ha as <-.
  apply bind_ret_inv in Hrun as (? & ? & [= <- <-] & Hrun). simpl in Hrun. rewrite i32_small in Hrun; [lia|].
  destruct (committing (log s) || _) eqn:E; injection Hrun as _ <-.
  - rewrite /log_inv /=. done.
  - apply orb_false_iff in E as [_ E]. apply Z.ltb_ge in E.
    rewrite /log_inv /=. split_and!; try done; try lia.
    + apply map_Forall_insert; [done|]. split; [rewrite /OP_MAX_NUM_BLOCKS; lia|done].
    + rewrite sum_rm_insert // H4. lia.
    + rewrite map_size_insert_None // H5. lia.
Qed.

Lemma sync_inv c b s s' : cache_sync (Some c) b s = Ret () s' → log_inv s → log_inv s'.
Proof.
  intros Hrun Hinv. pose proof (log_inv_bounds s Hinv) as [Hn Hu].
  destruct Hinv as (H1 & H2 & H3 & H4 & H5 & H6 & H7).
  rewrite /cache_sync in Hrun. apply bind_ret_inv in Hrun as ([] & s1 & Ha & Hrun).
  rewrite acquire_run in Ha. destruct (lget log_lock_lens s); [done|]. injection Ha as <-.
  apply bind_ret_inv in Hrun as (x & t & Hx & Hrun). apply (keeps_load_block id) in Hx. simpl in Hx. subst t.
  apply bind_ret_inv in Hrun as (? & ? & [= <- <-] & Hrun). simpl in Hrun.
  apply bind_ret_inv in Hrun as ([] & s2 & Hb & Hrun). injection Hrun as <-.
  case_decide; [injection Hb as <-; rewrite /log_inv /=; done|].
  apply bind_ret_inv in Hb as ([] & s3 & Hw & Hb).
  destruct (lh_num_blocks (header s) <? LOG_MAX_SIZE) eqn:E; [|done]. injection Hw as <-.
  apply bind_ret_inv in Hb as ([] & s4 & Hp & Hb).
  apply (keeps_upd_block hdr) in Hp; [|done]. injection Hp as P1 P2 P3.
  apply bind_ret_inv in Hb as (? & ? & [= <- <-] & Hb).
  apply bind_ret_inv in Hb as (rm & t & Hrm & Hb). rewrite P2 /= in Hrm.
  destruct (ctxs s !! c) as [rm'|] eqn:Ec; [|done]. injection Hrm as -> <-.
  destruct (0 <? rm) eqn:Er; [|done]. apply Z.ltb_lt in Er. injection Hb as <-.
  rewrite /log_inv /= P1 P2 P3 /=. split_and!; try done; try lia.
  - by rewrite length_insert.
  - apply map_Forall_insert_2; [|done]. pose proof (map_Forall_lookup_1 _ _ _ _ H3 Ec) as Hb. simpl in Hb. lia.
  - rewrite (sum_rm_update _ _ _ _ Ec). lia.
  - by rewrite map_size_insert_Some.
Qed.

Lemma end_inv c r s s' : cache_end_op c s = Ret r s' → log_inv s → log_inv s'.
Proof.
  intros Hrun (H1 & H2 & H3 & H4 & H5 & H6 & H7).
  rewrite /cache_end_op in Hrun. apply bind_ret_inv in Hrun as ([] & s1 & Ha & Hrun).
  rewrite acquire_run in Ha. destruct (lget log_lock_lens s); [done|]. injection Ha as <-.
  apply bind_ret_inv in Hrun as (? & ? & [= <- <-] & Hrun). simpl in Hrun.
  apply bind_ret_inv in Hrun as (rm & t & Hrm & Hrun).
  destruct (ctxs s !! c) as [rm'|] eqn:Ec; [|done]. injection Hrm as -> <-.
  do 2 (apply bind_ret_inv in Hrun as (? & ? & [= _ <-] & Hrun)).
  apply bind_ret_inv in Hrun as (? & ? & [= <- <-] & Hrun). simpl in Hrun.
  pose proof (map_Forall_lookup_1 _ _ _ _ H3 Ec) as Hrm. simpl in Hrm.
  assert (Hsz : Z.of_nat (size (delete c (ctxs s))) = Z.of_nat (size (ctxs s)) - 1).
  { rewrite map_size_delete_Some; [rewrite Ec; eauto|].
    assert (size (ctxs s) ≠ 0%nat); [|lia]. intros E%map_size_empty_inv. by rewrite E in Ec. }
  pose proof (sum_rm_delete _ _ _ Ec) as Hsum.
  assert (Hdel : map_Forall (λ _ rm, 0 ≤ rm ≤ OP_MAX_NUM_BLOCKS) (delete c (ctxs s))) by by apply map_Forall_delete.
  destruct (outstanding (log s) - 1 =? 0) eqn:E.
  - do 2 (apply bind_ret_inv in Hrun as (? & ? & [= _ <-] & Hrun)).
    apply bind_ret_inv in Hrun as ([] & s2 & Hc & Hrun).
    do 2 (apply bind_ret_inv in Hrun as (? & ? & [= _ <-] & Hrun)). injection Hrun as _ <-.
    apply checkpoint_acct in Hc as [HA H0]; [|done]. injection HA as A1 A2 A3.
    rewrite /log_inv /= A1 A2 A3 H0 /=. split_and!; try done; lia.
  - do 2 (apply bind_ret_inv in Hrun as (? & ? & [= _ <-] & Hrun)). injection Hrun as _ <-.
    rewrite /log_inv /=. split_and!; try done; lia.
Qed.

Lemma log_step_inv s s' : log_step s s' → log_inv s → log_inv s'.
Proof.
  destruct 1 as [c ok s s' Hc H|c b s s' H|c r s s' H|b s s' H|b s s' H|b d s s' H].
  - exact (begin_inv _ _ _ _ Hc H).
  - exact (sync_inv _ _ _ _ H).
  - exact (end_inv _ _ _ _ H).
  - apply log_inv_hdr. by apply (keeps_cache_acquire hdr) in H.
  - apply log_inv_hdr. by apply (keeps_cache_release hdr) in H.
  - apply log_inv_hdr. by apply (keeps_upd_block hdr) in H.
Qed.

(** After [init_bcache]: no operation open, an empty header. *)
Definition log_fresh (s : cstate) : Prop :=
  ctxs s = ∅ ∧ outstanding (log s) = 0 ∧ log_used (log s) = 0 ∧
  max_size (log s) = Z.min (u32 (num_log_blocks (sblock s) - 1)) LOG_MAX_SIZE ∧
  lh_num_blocks (header s) = 0 ∧ length (lh_block_no (header s)) = 63%nat.

Lemma log_fresh_inv s : log_fresh s → log_inv s.
Proof.
  intros (H1 & H2 & H3 & H4 & H5 & H6). rewrite /log_inv H1 H2 H3 H4 H5 sum_rm_empty map_size_empty.
  split_and!; try done.
  - pose proof (wrap_range 32 (num_log_blocks (sblock s) - 1) ltac:(lia)).
    rewrite /u32 LOG_MAX_SIZE_63. lia.
  - lia.
Qed.

(** C3: The log never overflows.  In every state reached from a fresh cache by
    any interleaving of [cache_begin_op], [cache_sync], [cache_end_op] and cache
    accesses of any number of operations: the blocks in the header plus what the
    open operations may still add fit in the log (at most 63); [log.log_used] is
    the sum of the contexts' [rm] and [log.outstanding] their number; and
    [cache_sync] on a cached block returns, without the panic or a write past
    [header.block_no], for every context that has not used up its 10 blocks. *)
Theorem log_space_invariant s0 s :
  log_fresh s0 → rtc log_step s0 s →
  lh_num_blocks (header s) + log_used (log s) ≤ max_size (log s) ≤ LOG_MAX_SIZE ∧
  log_used (log s) = sum_rm (ctxs s) ∧ outstanding (log s) = Z.of_nat (size (ctxs s)) ∧
  ∀ c b x rm, log_lock (log s) = false → find_block b (head s) = Some x →
    ctxs s !! c = Some rm → 0 < rm → ∃ s', cache_sync (Some c) b s = Ret () s'.
Proof.
  intros Hf Hrtc.
  assert (Hinv : log_inv s).
  { apply log_fresh_inv in Hf. induction Hrtc; [done|]. eauto using log_step_inv. }
  pose proof (log_inv_bounds s Hinv) as [Hn Hu].
  destruct Hinv as (H1 & H2 & H3 & H4 & H5 & H6 & H7). split_and!; try done.
  intros c b x rm Hl Hx Hc Hrm. destruct (decide (b ∈ logged s)) as [Hin|Hin].
  - eexists. exact (sync_absorb_run c s b x Hl Hx Hin).
  - eexists. apply (sync_log_run c s b x rm); try done.
    assert (rm ≤ log_used (log s)); [|rewrite LOG_MAX_SIZE_63 in H7; lia].
    rewrite H4 (sum_rm_delete _ _ _ Hc).
    assert (0 ≤ sum_rm (delete c (ctxs s))); [|lia]. apply sum_rm_nonneg, map_Forall_delete.
    eapply map_Forall_impl; [exact H3|]. naive_solver lia.
Qed.

(** *** One operation on a one-block cache *)
Definition space_demo : cstate :=
  mkCState (mkSuper 10 4 1 13 2 5 6) ∅ [] false [mkBlock 7 true false 0 true []]
    (mkHeader 0 (replicate 63 0)) 1 [] (mkLog 12 0 0 false false 0 0) ∅.
Definition space_demo' : cstate :=
  match cache_begin_op_try 1 space_demo with Ret _ s => s | _ => space_demo end.

Lemma log_space_invariant_witness :
  log_fresh space_demo ∧ log_used (log space_demo') = 10 ∧
  ∃ s', cache_sync (Some 1) 7 space_demo' = Ret () s'.
Proof.
  assert (Hf : log_fresh space_demo) by (split_and!; reflexivity).
  split; [exact Hf|]. split; [reflexivity|].
  destruct (log_space_invariant space_demo space_demo' Hf) as (_ & _ & _ & H).
  - eapply rtc_l; [|apply rtc_refl]. apply (step_begin 1 true); reflexivity.
  - apply (H 1 7 (mkBlock 7 true false 0 true []) 10); reflexivity.
Defined.

(** C20: Boot.  From any disk whose log holds the blocks [bs] with contents [ds]
    (none, when the last shutdown was clean), [init_bcache] returns with those
    blocks copied home, the log on the disk empty, the cache empty and the log
    account fresh, whatever the variables held before. *)
Theorem init_bcache_recovers s bs ds :
  log_holds (sblock s) (disk s) bs ds → ctxs s = ∅ →
  ∃ s', init_bcache s = Ret () s' ∧ sblock s' = sblock s ∧
    eq_off (sblock s) (disk s') (apply_writes (zip bs ds) (disk s)) ∧
    log_holds (sblock s) (disk s') [] [] ∧
    cache_ok s' ∧ head s' = [] ∧ log_fresh s'.
Proof.
  intros Hlog Hc. rewrite /init_bcache. erewrite bind_run; [|reflexivity]. erewrite bind_run; [|reflexivity].
  set (s0 := mkCState _ _ _ _ _ _ _ _ _ _).
  destruct (recover_from_log_run s0 bs ds Hlog) as (h0 & Hok & H0 & Hrun).
  destruct (commits_recover s0 (apply_writes (zip bs ds) (disk s))) as (s1 & Hrun' & Heq & _ & Hempty).
  { exists bs, ds. split; [exact Hlog|reflexivity]. }
  assert (E : s1 = _) by (rewrite Hrun in Hrun'; injection Hrun' as <-; reflexivity).
  erewrite bind_run; [|exact Hrun]. rewrite E in Heq, Hempty.
  eexists. split; [reflexivity|]. split_and!; try done.
  - split_and!; [done|apply NoDup_nil_2|done].
  - split_and!; try done. apply Hok.
Qed.

Lemma init_bcache_recovers_witness :
  ∃ s', init_bcache demo_state = Ret () s' ∧ head s' = [] ∧ log_fresh s'.
Proof.
  destruct (init_bcache_recovers demo_state [] []) as (s' & H1 & _ & _ & _ & _ & H2 & H3).
  - exists zero_block. split_and!; try reflexivity; try done.
    split; [reflexivity|]. apply Forall_replicate. rewrite /byte_ok. lia.
  - reflexivity.
  - exists s'. split; [exact H1|]. split; [exact H2|exact H3].
Defined.
