(* ===== verification/CacheSwap.v ===== *)
(** * CacheSwap: the allocator of the swap area

    [find_and_set_8_blocks] and [release_8_blocks] of [fs/cache.c]: runs of eight
    blocks between [SWAP_START] and [SWAP_END]. *)

From stdpp Require Import base numbers list gmap.
From S2P Require Import Prelude Bitmap Bytes FsDefs Cache.

(** Whether swap block [b] is taken. *)
Definition swap_bit (s : cstate) (b : Z) : option bool := bitmap_get (swap_bitmap s) (b - SWAP_START).

(** Eight free blocks from [r]. *)
Definition free_run (s : cstate) (r : Z) : Prop :=
  SWAP_START ≤ r ∧ r + 8 ≤ SWAP_END ∧ ∀ b, r ≤ b < r + 8 → swap_bit s b = Some false.

Definition swap_wf (s : cstate) : Prop := length (swap_bitmap s) = 4%nat.

Lemma swap_bit_is_Some s b : swap_wf s → SWAP_START ≤ b < SWAP_END → is_Some (swap_bit s b).
Proof.
  intros Hl Hb. apply bitmap_get_is_Some. rewrite /bitmap_capacity Hl /BITMAP_BITS_PER_CELL.
  rewrite /SWAP_START /SWAP_END in Hb. rewrite /SWAP_START. lia.
Qed.

Lemma u32_swap b : SWAP_START ≤ b < SWAP_END → u32 (b - SWAP_START) = b - SWAP_START.
Proof. rewrite /SWAP_START /SWAP_END /u32. intros. apply wrap_small. lia. Qed.

(** Both loops over eight blocks, as one bitmap update [op] that leaves value
    [v] in the bit. *)
Section eight.
Context (op : list Z → Z → option (list Z)) (v : bool).
Context (loop : nat → Z → M cstate ()).
Hypothesis loop_O : ∀ i s, loop 0 i s = Ret () s.
Hypothesis loop_S : ∀ n i s, loop (S n) i s =
  (bm ← gets swap_bitmap; bm' ← of_opt (op bm (u32 (i - SWAP_START)));
   modify (set_swap_bitmap bm');; loop n (i + 1)) s.
Hypothesis op_get : ∀ bm bm' i j, 0 ≤ i → 0 ≤ j → op bm i = Some bm' →
  bitmap_get bm' j = if i =? j then Some v else bitmap_get bm j.
Hypothesis op_length : ∀ bm bm' i, op bm i = Some bm' → length bm' = length bm.
Hypothesis op_is_Some : ∀ bm i, is_Some (bitmap_get bm i) → is_Some (op bm i).

Lemma eight_loop n : ∀ s i,
  swap_wf s → SWAP_START ≤ i → i + Z.of_nat n ≤ SWAP_END →
  ∃ bm, loop n i s = Ret () (set_swap_bitmap bm s) ∧ length bm = 4%nat ∧
    ∀ b, SWAP_START ≤ b < SWAP_END →
      bitmap_get bm (b - SWAP_START) = if decide (i ≤ b < i + Z.of_nat n) then Some v else swap_bit s b.
Proof.
  induction n as [|n IH]; intros s i Hwf H1 H2.
  - exists (swap_bitmap s). rewrite loop_O. split_and!; [by destruct s|done|].
    intros b _. rewrite decide_False; [lia|]. done.
  - destruct (op_is_Some (swap_bitmap s) (i - SWAP_START)) as [bm Hbm].
    { apply swap_bit_is_Some; [done|]. lia. }
    destruct (IH (set_swap_bitmap bm s) (i + 1)) as (bm' & Hrun & Hlen & Hget).
    { rewrite /swap_wf /= (op_length _ _ _ Hbm). exact Hwf. }
    { lia. }
    { lia. }
    exists bm'. rewrite loop_S u32_swap; [lia|]. split_and!; [|done|].
    + erewrite bind_run; [|reflexivity]. erewrite bind_run; [|exact (of_opt_run _ _ s Hbm)].
      erewrite bind_run; [|reflexivity]. rewrite Hrun. by destruct s.
    + intros b Hb. rewrite (Hget b Hb) /swap_bit /= (op_get _ _ _ _ _ _ Hbm); [lia|lia|].
      destruct (Z.eqb_spec (i - SWAP_START) (b - SWAP_START)); repeat case_decide; try lia; done.
Qed.
End eight.

Lemma set_8_blocks_run s r :
  swap_wf s → SWAP_START ≤ r → r + 8 ≤ SWAP_END →
  ∃ bm, set_8_blocks_loop 8 r s = Ret () (set_swap_bitmap bm s) ∧ length bm = 4%nat ∧
    ∀ b, SWAP_START ≤ b < SWAP_END →
      bitmap_get bm (b - SWAP_START) = if decide (r ≤ b < r + 8) then Some true else swap_bit s b.
Proof.
  apply (eight_loop bitmap_set true set_8_blocks_loop (λ _ _, eq_refl) (λ _ _ _, eq_refl)
           bitmap_set_get bitmap_set_length bitmap_set_is_Some 8).
Qed.

Lemma release_8_blocks_run s r :
  swap_wf s → SWAP_START ≤ r → r + 8 ≤ SWAP_END →
  ∃ bm, release_8_blocks r s = Ret () (set_swap_bitmap bm s) ∧ length bm = 4%nat ∧
    ∀ b, SWAP_START ≤ b < SWAP_END →
      bitmap_get bm (b - SWAP_START) = if decide (r ≤ b < r + 8) then Some false else swap_bit s b.
Proof.
  apply (eight_loop bitmap_clear false release_8_blocks_loop (λ _ _, eq_refl) (λ _ _ _, eq_refl)
           bitmap_clear_get bitmap_clear_length bitmap_clear_is_Some 8).
Qed.

(** The scan: [cnt] free blocks end at [i - 1]; no free run ends before [i]. *)
Lemma find_8_loop n : ∀ s i cnt ret,
  swap_wf s → SWAP_START ≤ i → i + Z.of_nat n = SWAP_END →
  0 ≤ cnt < 8 → SWAP_START ≤ i - cnt → (0 < cnt → ret = i - cnt) →
  (∀ b, i - cnt ≤ b < i → swap_bit s b = Some false) →
  (SWAP_START = i - cnt ∨ swap_bit s (i - cnt - 1) = Some true) →
  (∀ r, r < i - cnt → ¬ free_run s r) →
  match find_and_set_8_blocks_loop n i cnt ret s with
  | Ret r s' => free_run s r ∧ (∀ r', r' < r → ¬ free_run s r') ∧ set_8_blocks_loop 8 r s = Ret () s'
  | Panic => ∀ r, ¬ free_run s r
  | _ => False
  end.
Proof.
  induction n as [|n IH]; intros s i cnt ret Hwf Hi Hn Hcnt Hlow Hret Hrun Hmax Hno; simpl.
  { intros r (Hr1 & Hr2 & Hr3). destruct (decide (r < i - cnt)) as [Hr|Hr]; [by apply (Hno r Hr)|]. lia. }
  destruct (swap_bit_is_Some s i Hwf ltac:(lia)) as [v Hv]. rewrite /swap_bit in Hv.
  erewrite bind_run; [|reflexivity]. erewrite bind_run; [|exact (of_opt_run _ _ s Hv)].
  destruct v.
  - apply IH; [done|lia|lia|lia|lia|lia|lia| |].
    + right. by replace (i + 1 - 0 - 1) with i by lia.
    + intros r Hr Hfree. destruct (decide (r < i - cnt)) as [Hr'|Hr']; [by apply (Hno r Hr')|].
      destruct Hfree as (? & ? & Hf). destruct (decide (r ≤ i)); [|lia].
      specialize (Hf i ltac:(lia)). rewrite /swap_bit in Hf. congruence.
  - assert (Hnew : (if cnt =? 0 then i else ret) = i - cnt).
    { destruct (Z.eqb_spec cnt 0); [lia|]. apply Hret. lia. }
    rewrite Hnew.
    assert (Hrun' : ∀ b, i - cnt ≤ b < i + 1 → swap_bit s b = Some false).
    { intros b Hb. destruct (decide (b = i)) as [->|]; [done|]. apply Hrun. lia. }
    destruct (Z.eqb_spec (cnt + 1) 8) as [E|E].
    + assert (Hfree : free_run s (i - cnt)).
      { split_and!; [lia|lia|]. intros b Hb. apply Hrun'. lia. }
      destruct (set_8_blocks_run s (i - cnt) Hwf) as (bm & Hset & _); [lia|lia|].
      rewrite (bind_run _ _ _ _ _ Hset). split_and!; [done|done|exact Hset].
    + apply IH; [done|lia|lia|lia|lia|lia| | |].
      * intros b Hb. apply Hrun'. lia.
      * by replace (i + 1 - (cnt + 1)) with (i - cnt) by lia.
      * intros r Hr. apply Hno. lia.
Qed.

(** The swap allocator.  [find_and_set_8_blocks] returns the lowest run of
    eight free swap blocks inside the swap area and marks exactly those eight as
    taken; with no such run it panics; it never reads outside the bitmap.
    [release_8_blocks] on the run it returned gives back exactly the bits of
    before. *)
Theorem swap_alloc_release s :
  swap_wf s →
  match find_and_set_8_blocks s with
  | Ret r s' =>
      free_run s r ∧ (∀ r', r' < r → ¬ free_run s r') ∧ swap_wf s' ∧
      (∀ b, SWAP_START ≤ b < SWAP_END →
         swap_bit s' b = if decide (r ≤ b < r + 8) then Some true else swap_bit s b) ∧
      ∃ s'', release_8_blocks r s' = Ret () s'' ∧
        ∀ b, SWAP_START ≤ b < SWAP_END → swap_bit s'' b = swap_bit s b
  | Panic => ∀ r, ¬ free_run s r
  | _ => False
  end.
Proof.
  intros Hwf. rewrite /find_and_set_8_blocks.
  pose proof (find_8_loop (Z.to_nat (SWAP_END - SWAP_START)) s SWAP_START 0 0 Hwf) as H.
  do 5 (specialize (H ltac:(done || lia))).
  specialize (H ltac:(lia) ltac:(by left) ltac:(intros ? ? [? _]; lia)).
  destruct (find_and_set_8_blocks_loop _ _ _ _ _) as [r s'| | | |]; try done.
  destruct H as (Hfree & Hleast & Hset).
  pose proof Hfree as (Hr1 & Hr2 & Hr3).
    destruct (set_8_blocks_run s r Hwf Hr1 Hr2) as (bm & Hset' & Hlen & Hget).
    rewrite Hset in Hset'. injection Hset' as ->.
    destruct (release_8_blocks_run (set_swap_bitmap bm s) r Hlen Hr1 Hr2) as (bm' & Hrel & _ & Hget').
    split_and!; try done. eexists. split; [exact Hrel|]. intros b Hb. rewrite {1}/swap_bit /= (Hget' b Hb).
    case_decide as Hd; [symmetry; by apply Hr3|]. rewrite /swap_bit /= (Hget b Hb). by rewrite decide_False.
Qed.

Definition swap_demo : cstate :=
  mkCState (mkSuper 1000 4 1 3 2 5 6) ∅ [] false [] (mkHeader 0 []) 0 [8; 0; 0; 0] (mkLog 2 0 0 false false 0 0) ∅.

Lemma swap_alloc_release_witness :
  swap_wf swap_demo ∧ free_run swap_demo 804.
Proof.
  assert (H : swap_wf swap_demo) by reflexivity. split; [exact H|].
  generalize (swap_alloc_release swap_demo H).
  assert (E : ∃ s', find_and_set_8_blocks swap_demo = Ret 804 s') by (eexists; vm_compute; reflexivity).
  destruct E as [s' ->]. intros (Hf & _). exact Hf.
Defined.
