(* ===== verification/Str.v ===== *)
(** * Str: the memory and string functions of [common/string.c]

    Memory is a map from addresses to bytes; a load or a store at an address
    that is not mapped is a fault.  [char] is unsigned, as on AArch64. *)

From stdpp Require Import base numbers list gmap.
From S2P Require Import Prelude.

Definition mem : Type := gmap Z Z.

Definition load (a : Z) : M mem Z := m ← get; of_opt (m !! a).
Definition store (a v : Z) : M mem () :=
  m ← get; _ ← of_opt (m !! a); modify (<[a := v]>).

Fixpoint memset_loop (n : nat) (i s c : Z) : M mem () :=
  match n with
  | O => mret ()
  | S n => store (s + i) (u8 (Z.land c 255));; memset_loop n (i + 1) s c
  end.
Definition memset (s c : Z) (n : nat) : M mem Z := memset_loop n 0 s c;; mret s.

Fixpoint memcpy_loop (n : nat) (i dest src : Z) : M mem () :=
  match n with
  | O => mret ()
  | S n => v ← load (src + i); store (dest + i) v;; memcpy_loop n (i + 1) dest src
  end.
Definition memcpy (dest src : Z) (n : nat) : M mem Z := memcpy_loop n 0 dest src;; mret dest.

Fixpoint memcmp_loop (n : nat) (i s1 s2 : Z) : M mem Z :=
  match n with
  | O => mret 0
  | S n =>
      c1 ← load (s1 + i); c2 ← load (s2 + i);
      if negb (c1 =? c2) then mret (c1 - c2) else memcmp_loop n (i + 1) s1 s2
  end.
Definition memcmp (s1 s2 : Z) (n : nat) : M mem Z := memcmp_loop n 0 s1 s2.

(** [while (n-- > 0) *--d = *--s;] *)
Fixpoint memmove_down (n : nat) (d s : Z) : M mem () :=
  match n with
  | O => mret ()
  | S n => v ← load (s - 1); store (d - 1) v;; memmove_down n (d - 1) (s - 1)
  end.
(** [while (n-- > 0) *d++ = *s++;] *)
Fixpoint memmove_up (n : nat) (d s : Z) : M mem () :=
  match n with
  | O => mret ()
  | S n => v ← load s; store d v;; memmove_up n (d + 1) (s + 1)
  end.
Definition memmove (dest src : Z) (n : nat) : M mem Z :=
  (if (src <? dest) && (dest - src <? Z.of_nat n)
   then memmove_down n (dest + Z.of_nat n) (src + Z.of_nat n)
   else memmove_up n dest src);;
  mret dest.

Fixpoint pad_loop (n : nat) (i dest : Z) : M mem () :=
  match n with
  | O => mret ()
  | S n => store (dest + i) 0;; pad_loop n (i + 1) dest
  end.
Fixpoint strncpy_loop (n : nat) (i dest src : Z) : M mem () :=
  match n with
  | O => mret ()
  | S n' =>
      c ← load (src + i);
      if negb (c =? 0) then store (dest + i) c;; strncpy_loop n' (i + 1) dest src
      else pad_loop n i dest
  end.
Definition strncpy (dest src : Z) (n : nat) : M mem Z := strncpy_loop n 0 dest src;; mret dest.

Fixpoint strncpy_fast_loop (n : nat) (i dest src : Z) : M mem () :=
  match n with
  | O => mret ()
  | S n =>
      c ← load (src + i);
      if negb (c =? 0) then store (dest + i) c;; strncpy_fast_loop n (i + 1) dest src
      else store (dest + i) 0
  end.
Definition strncpy_fast (dest src : Z) (n : nat) : M mem Z := strncpy_fast_loop n 0 dest src;; mret dest.

Fixpoint strncmp_loop (n : nat) (i s1 s2 : Z) : M mem Z :=
  match n with
  | O => mret 0
  | S n =>
      c1 ← load (s1 + i); c2 ← load (s2 + i);
      if negb (c1 =? c2) then mret (c1 - c2)
      else if (c1 =? 0) || (c2 =? 0) then mret 0
      else strncmp_loop n (i + 1) s1 s2
  end.
Definition strncmp (s1 s2 : Z) (n : nat) : M mem Z := strncmp_loop n 0 s1 s2.

Fixpoint strlen_loop (fuel : nat) (i s : Z) : M mem Z :=
  match fuel with
  | O => nofuel
  | S fuel => c ← load (s + i); if negb (c =? 0) then strlen_loop fuel (i + 1) s else mret i
  end.
Definition strlen (fuel : nat) (s : Z) : M mem Z := strlen_loop fuel 0 s.

(** ** Runs *)
Lemma load_run a v m : m !! a = Some v → load a m = Ret v m.
Proof. intros H. rewrite /load. run_simpl. by rewrite H. Qed.

Lemma store_run a v m : is_Some (m !! a) → store a v m = Ret () (<[a := v]> m).
Proof. intros [x H]. rewrite /store. run_simpl. by rewrite H. Qed.

(** [n] mapped bytes from [a]. *)
Definition mapped (m : mem) (a : Z) (n : nat) : Prop := ∀ i, a ≤ i < a + Z.of_nat n → is_Some (m !! i).

Lemma mapped_insert m a n b v : mapped m a n → mapped (<[b := v]> m) a n.
Proof. intros H i Hi. rewrite lookup_insert_is_Some'. right. by apply H. Qed.

Lemma mapped_sub m a n b k : mapped m a n → a ≤ b → b + Z.of_nat k ≤ a + Z.of_nat n → mapped m b k.
Proof. intros H ?? i Hi. apply H. lia. Qed.

(** [m'] is [m] with the [n] bytes at [d] replaced by what [m] has at [s]. *)
Definition moved (m m' : mem) (d s : Z) (n : nat) : Prop :=
  ∀ a, m' !! a = if decide (d ≤ a < d + Z.of_nat n) then m !! (s + (a - d)) else m !! a.

Lemma memmove_up_run n : ∀ d s m,
  mapped m d n → mapped m s n → d ≤ s ∨ s + Z.of_nat n ≤ d →
  ∃ m', memmove_up n d s m = Ret () m' ∧ moved m m' d s n.
Proof.
  induction n as [|n IH]; intros d s m Hd Hs Hov.
  { exists m. split; [done|]. intros a. rewrite decide_False //. lia. }
  destruct (Hs s) as [v Hv]; [lia|].
  destruct (IH (d + 1) (s + 1) (<[d := v]> m)) as (m' & Hrun & Hm').
  { apply mapped_insert, (mapped_sub m d (S n)); [done|lia|lia]. }
  { apply mapped_insert, (mapped_sub m s (S n)); [done|lia|lia]. }
  { lia. }
  exists m'. split.
  - simpl. erewrite bind_run; [|exact (load_run _ _ _ Hv)].
    erewrite bind_run; [|apply store_run, Hd; lia]. exact Hrun.
  - intros a. rewrite Hm'. repeat case_decide; try lia.
    + rewrite lookup_insert_ne; [lia|]. f_equal. lia.
    + assert (a = d) as -> by lia. rewrite lookup_insert_eq -Hv. f_equal. lia.
    + rewrite lookup_insert_ne //. lia.
Qed.

Lemma memmove_down_run n : ∀ d s m,
  mapped m (d - Z.of_nat n) n → mapped m (s - Z.of_nat n) n → s ≤ d →
  ∃ m', memmove_down n d s m = Ret () m' ∧ moved m m' (d - Z.of_nat n) (s - Z.of_nat n) n.
Proof.
  induction n as [|n IH]; intros d s m Hd Hs Hov.
  { exists m. split; [done|]. intros a. rewrite decide_False //. lia. }
  destruct (Hs (s - 1)) as [v Hv]; [lia|].
  destruct (IH (d - 1) (s - 1) (<[d - 1 := v]> m)) as (m' & Hrun & Hm').
  { eapply mapped_insert, mapped_sub; [exact Hd|lia|lia]. }
  { eapply mapped_insert, mapped_sub; [exact Hs|lia|lia]. }
  { lia. }
  exists m'. split.
  - simpl. erewrite bind_run; [|exact (load_run _ _ _ Hv)].
    erewrite bind_run; [|apply store_run, Hd; lia]. exact Hrun.
  - intros a. rewrite Hm'. repeat case_decide; try lia.
    + rewrite lookup_insert_ne; [lia|]. f_equal. lia.
    + assert (a = d - 1) as -> by lia. rewrite lookup_insert_eq -Hv. f_equal. lia.
    + rewrite lookup_insert_ne //. lia.
Qed.

(** C24: [memmove] copies correctly whatever the overlap.  For any source and
    destination ranges of mapped memory, in either order, apart, overlapping or
    equal, it returns [dest], the destination holds the bytes the source held
    before the call, and no byte outside the destination changes. *)
Theorem memmove_any_overlap dest src n m :
  mapped m dest n → mapped m src n →
  ∃ m', memmove dest src n m = Ret dest m' ∧ moved m m' dest src n.
Proof.
  intros Hd Hs. rewrite /memmove. destruct ((src <? dest) && (dest - src <? Z.of_nat n)) eqn:E.
  - apply andb_true_iff in E as [E1%Z.ltb_lt E2%Z.ltb_lt].
    destruct (memmove_down_run n (dest + Z.of_nat n) (src + Z.of_nat n) m) as (m' & Hrun & Hm').
    { by replace (dest + Z.of_nat n - Z.of_nat n) with dest by lia. }
    { by replace (src + Z.of_nat n - Z.of_nat n) with src by lia. }
    { lia. }
    exists m'. rewrite (bind_run _ _ _ _ _ Hrun). split; [done|].
    replace (dest + Z.of_nat n - Z.of_nat n) with dest in Hm' by lia.
    by replace (src + Z.of_nat n - Z.of_nat n) with src in Hm' by lia.
  - destruct (memmove_up_run n dest src m Hd Hs) as (m' & Hrun & Hm').
    { apply andb_false_iff in E as [E%Z.ltb_ge|E%Z.ltb_ge]; lia. }
    exists m'. by rewrite (bind_run _ _ _ _ _ Hrun).
Qed.

Definition mem_demo : mem := list_to_map (zip (seqZ 0 6) [1; 2; 3; 4; 5; 6]).

Lemma memmove_any_overlap_witness :
  ∃ m', memmove 2 0 4 mem_demo = Ret 2 m' ∧ m' !! 5 = Some 4.
Proof.
  destruct (memmove_any_overlap 2 0 4 mem_demo) as (m' & H & Hm).
  - intros i Hi. assert (i = 2 ∨ i = 3 ∨ i = 4 ∨ i = 5) as [->|[->|[->| ->]]] by lia; eexists; reflexivity.
  - intros i Hi. assert (i = 0 ∨ i = 1 ∨ i = 2 ∨ i = 3) as [->|[->|[->| ->]]] by lia; eexists; reflexivity.
  - exists m'. split; [exact H|]. rewrite Hm. reflexivity.
Defined.

(** ** Strings *)
(** The bytes before the first zero. *)
Fixpoint until0 (l : list Z) : list Z :=
  match l with
  | [] => []
  | c :: l => if decide (c = 0) then [] else c :: until0 l
  end.

(** The string of at most [n] bytes an array of bytes holds. *)
Definition strn (n : nat) (l : list Z) : list Z := until0 (take n l).

(** Memory holds the bytes [l] from [p]. *)
Definition holds (m : mem) (p : Z) (l : list Z) : Prop :=
  ∀ i x, l !! i = Some x → m !! (p + Z.of_nat i) = Some x.

(** A read of up to [n] bytes that stops at a zero stays inside [l]. *)
Definition readable (n : nat) (l : list Z) : Prop := (n ≤ length l)%nat ∨ 0 ∈ l.

Lemma holds_cons m p x l : holds m p (x :: l) ↔ m !! p = Some x ∧ holds m (p + 1) l.
Proof.
  split.
  - intros H. split; [rewrite -(H 0%nat x) //; f_equal; lia|].
    intros i y Hi. rewrite -(H (S i) y) //. f_equal. lia.
  - intros [H1 H2] [|i] y; simpl.
    + intros [= <-]. rewrite -H1. f_equal. lia.
    + intros Hi. rewrite -(H2 i y Hi). f_equal. lia.
Qed.

Lemma readable_cons n x l : x ≠ 0 → readable (S n) (x :: l) → readable n l.
Proof.
  intros Hx [H|H]; [left; simpl in H; lia|right]. apply elem_of_cons in H as [H|?]; [congruence|done].
Qed.

Lemma readable_nil n : ¬ readable (S n) [].
Proof. intros [H|H]; [simpl in H; lia|by apply elem_of_nil in H]. Qed.

Lemma strn_cons n x l : strn (S n) (x :: l) = if decide (x = 0) then [] else x :: strn n l.
Proof. done. Qed.

Lemma strncmp_loop_spec n : ∀ l1 l2 i s1 s2 m,
  holds m (s1 + i) l1 → holds m (s2 + i) l2 → readable n l1 → readable n l2 →
  ∃ r, strncmp_loop n i s1 s2 m = Ret r m ∧ (r = 0 ↔ strn n l1 = strn n l2).
Proof.
  induction n as [|n IH]; intros l1 l2 i s1 s2 m H1 H2 R1 R2; simpl.
  { exists 0. done. }
  destruct l1 as [|c1 l1]; [by apply readable_nil in R1|].
  destruct l2 as [|c2 l2]; [by apply readable_nil in R2|].
  apply holds_cons in H1 as [L1 H1]. apply holds_cons in H2 as [L2 H2].
  erewrite bind_run; [|exact (load_run _ _ _ L1)]. erewrite bind_run; [|exact (load_run _ _ _ L2)].
  rewrite !strn_cons. destruct (Z.eqb_spec c1 c2) as [->|Hne]; simpl; last first.
  { exists (c1 - c2). split; [done|]. split; [lia|]. repeat case_decide; congruence. }
  rewrite orb_diag. destruct (Z.eqb_spec c2 0) as [->|Hz].
  { exists 0. split; [done|]. done. }
  rewrite -Z.add_assoc in H1. rewrite -Z.add_assoc in H2.
  destruct (IH l1 l2 (i + 1) s1 s2 m H1 H2) as (r & Hrun & Hr).
  { exact (readable_cons _ _ _ Hz R1). }
  { exact (readable_cons _ _ _ Hz R2). }
  exists r. split; [done|]. rewrite !decide_False // Hr. split; [by intros ->|by intros [=]].
Qed.

Lemma strncmp_spec n l1 l2 s1 s2 m :
  holds m s1 l1 → holds m s2 l2 → readable n l1 → readable n l2 →
  ∃ r, strncmp s1 s2 n m = Ret r m ∧ (r = 0 ↔ strn n l1 = strn n l2).
Proof. intros. apply strncmp_loop_spec; rewrite ?Z.add_0_r; done. Qed.

(** [m'] is [m] with [l] at [p]. *)
Definition written (m m' : mem) (p : Z) (l : list Z) : Prop :=
  holds m' p l ∧ ∀ a, ¬ (p ≤ a < p + Z.of_nat (length l)) → m' !! a = m !! a.

Lemma written_nil m p : written m m p [].
Proof. by split. Qed.

Lemma written_cons m m' p x l : written (<[p := x]> m) m' (p + 1) l → written m m' p (x :: l).
Proof.
  intros [H1 H2]. split.
  - apply holds_cons. split; [|done]. rewrite H2; [lia|]. apply lookup_insert_eq.
  - intros a Ha. simpl in Ha. rewrite H2; [lia|]. apply lookup_insert_ne. lia.
Qed.

Lemma pad_loop_run n : ∀ i dest m,
  mapped m (dest + i) n →
  ∃ m', pad_loop n i dest m = Ret () m' ∧ written m m' (dest + i) (replicate n 0).
Proof.
  induction n as [|n IH]; intros i dest m Hd; simpl.
  { exists m. split; [done|apply written_nil]. }
  destruct (IH (i + 1) dest (<[dest + i := 0]> m)) as (m' & Hrun & Hw).
  { apply mapped_insert. eapply mapped_sub; [exact Hd|lia|lia]. }
  exists m'. erewrite bind_run; [|apply store_run, Hd; lia]. split; [done|].
  apply written_cons. by rewrite -Z.add_assoc.
Qed.

(** What [strncpy] writes: the string, padded with zeros to [n] bytes. *)
Definition padded (n : nat) (l : list Z) : list Z :=
  strn n l ++ replicate (n - length (strn n l)) 0.

Lemma padded_cons n x l : x ≠ 0 → padded (S n) (x :: l) = x :: padded n l.
Proof. intros. rewrite /padded strn_cons decide_False //. Qed.

Lemma length_strn n l : (length (strn n l) ≤ n)%nat.
Proof.
  revert l. induction n as [|n IH]; intros l; [done|]. destruct l as [|x l]; simpl; [lia|].
  rewrite /strn /=. case_decide; simpl; [lia|]. specialize (IH l). rewrite /strn in IH. lia.
Qed.

Lemma length_padded n l : length (padded n l) = n.
Proof. rewrite /padded length_app length_replicate. pose proof (length_strn n l). lia. Qed.

Lemma strn_padded n l : strn n (padded n l) = strn n l.
Proof.
  revert l. induction n as [|n IH]; intros l; [done|].
  destruct l as [|x l].
  - by rewrite /padded /=.
  - destruct (decide (x = 0)) as [->|Hx].
    + done.
    + by rewrite padded_cons // !strn_cons IH.
Qed.

(** Outside the [n] destination bytes. *)
Definition apart (d s : Z) (n k : nat) : Prop := s + Z.of_nat k ≤ d ∨ d + Z.of_nat n ≤ s.

Lemma holds_insert m p l a v :
  holds m p l → ¬ (p ≤ a < p + Z.of_nat (length l)) → holds (<[a := v]> m) p l.
Proof.
  intros H Ha i x Hi. rewrite lookup_insert_ne; [|by apply H].
  apply lookup_lt_Some in Hi. lia.
Qed.

Lemma strncpy_loop_run n : ∀ l i dest src m,
  holds m (src + i) l → readable n l → mapped m (dest + i) n →
  apart (dest + i) (src + i) n (length l) →
  ∃ m', strncpy_loop n i dest src m = Ret () m' ∧ written m m' (dest + i) (padded n l).
Proof.
  induction n as [|n IH]; intros l i dest src m Hl Hr Hd Hap.
  { exists m. split; [done|apply written_nil]. }
  destruct l as [|x l]; [by apply readable_nil in Hr|].
  apply holds_cons in Hl as [Hx Hl]. cbn [strncpy_loop].
  erewrite bind_run; [|exact (load_run _ _ _ Hx)].
  destruct (Z.eqb_spec x 0) as [->|Hz]; cbn [negb].
  - destruct (pad_loop_run (S n) i dest m Hd) as (m' & Hrun & Hw). exists m'. split; [exact Hrun|].
    exact Hw.
  - rewrite /apart /= in Hap.
    destruct (IH l (i + 1) dest src (<[dest + i := x]> m)) as (m' & Hrun & Hw).
    + rewrite Z.add_assoc. apply holds_insert; [done|]. lia.
    + exact (readable_cons _ _ _ Hz Hr).
    + apply mapped_insert. eapply mapped_sub; [exact Hd|lia|lia].
    + rewrite /apart. lia.
    + exists m'. erewrite bind_run; [|apply store_run, Hd; lia]. split; [done|].
      rewrite padded_cons //. apply written_cons. by rewrite -Z.add_assoc.
Qed.

Lemma strncpy_run n l dest src m :
  holds m src l → readable n l → mapped m dest n → apart dest src n (length l) →
  ∃ m', strncpy dest src n m = Ret dest m' ∧ written m m' dest (padded n l).
Proof.
  intros Hl Hr Hd Hap.
  destruct (strncpy_loop_run n l 0 dest src m) as (m' & Hrun & Hw); rewrite ?Z.add_0_r //.
  rewrite Z.add_0_r in Hw. exists m'. rewrite /strncpy. by rewrite (bind_run _ _ _ _ _ Hrun).
Qed.

(** [strncpy] then [strncmp] round trip, the pair directory entries rely on.
    [strncpy] writes exactly [n] bytes, the source string cut to [n] and padded
    with zeros, and nothing else; afterwards [strncmp] of the copy with another
    string [l'] is zero exactly when that string agrees with the source up to [n]
    bytes, so it is zero for the source itself. *)
Theorem strncpy_strncmp n l l' dest src p m :
  holds m src l → readable n l → mapped m dest n → apart dest src n (length l) →
  holds m p l' → readable n l' → apart dest p n (length l') →
  ∃ m' r r0, strncpy dest src n m = Ret dest m' ∧ written m m' dest (padded n l) ∧
    strncmp dest p n m' = Ret r m' ∧ (r = 0 ↔ strn n l = strn n l') ∧
    strncmp dest src n m' = Ret r0 m' ∧ r0 = 0.
Proof.
  intros Hl Hr Hd Hap Hl' Hr' Hap'.
  destruct (strncpy_run n l dest src m Hl Hr Hd Hap) as (m' & Hrun & Hw).
  pose proof Hw as [Hh Hout].
  assert (Hkeep : ∀ q k, holds m q k → apart dest q n (length k) → holds m' q k).
  { intros q k Hk Hq i x Hi. rewrite Hout; [|by apply Hk].
    rewrite length_padded. apply lookup_lt_Some in Hi. rewrite /apart in Hq. lia. }
  assert (Hpr : readable n (padded n l)) by (left; by rewrite length_padded).
  destruct (strncmp_spec n (padded n l) l' dest p m') as (r & Hr1 & Hr2); [done|by apply Hkeep|done|done|].
  destruct (strncmp_spec n (padded n l) l dest src m') as (r0 & Hr3 & Hr4); [done|by apply Hkeep|done|done|].
  rewrite strn_padded in Hr2, Hr4. exists m', r, r0. split_and!; try done. by apply Hr4.
Qed.

Definition str_demo : mem := list_to_map (zip (seqZ 0 12) [104; 105; 0; 104; 111; 0; 9; 9; 9; 9; 9; 9]).

Lemma strncpy_strncmp_witness :
  ∃ m', strncpy 6 0 4 str_demo = Ret 6 m' ∧ strncmp 6 0 4 m' = Ret 0 m'.
Proof.
  destruct (strncpy_strncmp 4 [104; 105; 0] [104; 111; 0] 6 0 3 str_demo)
    as (m' & r & r0 & H1 & _ & _ & _ & H2 & H3).
  - intros [|[|[|i]]] x Hi; inversion Hi; reflexivity.
  - right. repeat constructor.
  - intros i Hi. assert (i = 6 ∨ i = 7 ∨ i = 8 ∨ i = 9) as [->|[->|[->| ->]]] by lia; eexists; reflexivity.
  - left. simpl. lia.
  - intros [|[|[|i]]] x Hi; inversion Hi; reflexivity.
  - right. repeat constructor.
  - left. simpl. lia.
  - exists m'. split; [exact H1|]. rewrite H3 in H2. exact H2.
Defined.
