(* ===== verification/Format.v ===== *)
(** * Format: formatted output, [common/format.c]

    [put_char] is the caller's; what it is given, in order, is the state.  The
    variadic arguments are a list; [va_arg] with a type converts the next one to
    that type, and an argument of the wrong kind, or none, is a fault. *)

From stdpp Require Import base numbers list.
From S2P Require Import Prelude.

Notation output := (list Z) (only parsing).
Definition put_char (c : Z) : M output () := modify (λ o, o ++ [c]).

Definition c_minus : Z := 45.
Definition c_percent : Z := 37.
Definition digit (d : Z) : Z := if d <? 10 then 48 + d else 97 + (d - 10).

(** The first [do ... while]: the digits in [buf], least significant first.  The
    array has 64 places. *)
Fixpoint fill_buf (fuel : nat) (buf : list Z) (v base : Z) : M output (list Z) :=
  match fuel with
  | O => nofuel
  | S fuel =>
      if (Z.of_nat (length buf) <? 64) && negb (base =? 0) then
        let buf := buf ++ [digit (v mod base)] in
        let v := v / base in
        if negb (v =? 0) then fill_buf fuel buf v base else mret buf
      else fault
  end.
Fixpoint put_rev (buf : list Z) : M output () :=
  match buf with
  | [] => mret ()
  | c :: buf => put_rev buf;; put_char c
  end.

Definition _print_int (u _base : Z) (is_signed : bool) : M output () :=
  let v := u64 u in
  let base := u64 _base in
  v ← (if is_signed && (u <? 0) then put_char c_minus;; mret (u64 (- v)) else mret v);
  buf ← fill_buf 65 [] v base;
  put_rev buf.

(** ** The format string *)
Inductive va := VInt (z : Z) | VStr (s : option (list Z)).

Fixpoint starts (p l : list Z) : bool :=
  match p, l with
  | [], _ => true
  | a :: p, b :: l => (a =? b) && starts p l
  | _ :: _, [] => false
  end.

(** The conversions of [_INT_CASE], in the order they are tried: the letters, the
    conversion of the argument to its type and then to [i64], base and sign. *)
Record conv := mkConv { ident : list Z; va_type : Z → Z; cbase : Z; csigned : bool }.
Definition int_cases : list conv :=
  [ mkConv [117] u32 10 false;                        (* u *)
    mkConv [108; 108; 117] u64 10 false;              (* llu *)
    mkConv [100] i32 10 true;                         (* d *)
    mkConv [108; 108; 100] i64 10 true;               (* lld *)
    mkConv [120] u32 16 false;                        (* x *)
    mkConv [108; 108; 120] u64 16 false;              (* llx *)
    mkConv [112] u64 16 false;                        (* p *)
    mkConv [122; 117] u64 10 false;                   (* zu *)
    mkConv [122; 100] i64 10 true ].                  (* zd *)

Definition find_case (pos : list Z) : option conv := list_find (λ c, Is_true (starts (ident c) pos)) int_cases ≫= λ p, Some p.2.

Definition null_str : list Z := [40; 110; 117; 108; 108; 41].  (* (null) *)

Fixpoint put_str (s : list Z) : M output () :=
  match s with [] => mret () | c :: s => put_char c;; put_str s end.

(** [vformat] on the rest [fmt] of the format string; each round consumes at
    least one character, so the fuel is the length. *)
Fixpoint vformat_loop (fuel : nat) (fmt : list Z) (arg : list va) : M output () :=
  match fmt with
  | [] => mret ()
  | c :: pos =>
      match fuel with
      | O => nofuel
      | S fuel =>
          if c =? c_percent then
            match pos with
            | 37 :: pos' => put_char c_percent;; vformat_loop fuel pos' arg
            | 99 :: pos' =>   (* c *)
                match arg with
                | VInt z :: arg => put_char (u8 (i32 z));; vformat_loop fuel pos' arg
                | _ => fault
                end
            | 115 :: pos' =>  (* s *)
                match arg with
                | VStr s :: arg => put_str (default null_str s);; vformat_loop fuel pos' arg
                | _ => fault
                end
            | _ =>
                match find_case pos with
                | Some k =>
                    match arg with
                    | VInt z :: arg =>
                        _print_int (i64 (va_type k z)) (cbase k) (csigned k);;
                        vformat_loop fuel (drop (length (ident k)) pos) arg
                    | _ => fault
                    end
                | None => put_char c;; vformat_loop fuel pos arg
                end
            end
          else put_char c;; vformat_loop fuel pos arg
      end
  end.
Definition vformat (fmt : list Z) (arg : list va) : M output () := vformat_loop (length fmt) fmt arg.

(** ** Numerals *)
Definition undigit (c : Z) : Z := if c <? 58 then c - 48 else c - 87.
(** The value of a numeral, most significant digit first. *)
Definition numeral (base : Z) (l : list Z) : Z := foldl (λ acc c, acc * base + undigit c) 0 l.
(** A numeral as C reads it back: digits below the base, no superfluous zero. *)
Definition numeral_ok (base : Z) (l : list Z) : Prop :=
  l ≠ [] ∧ Forall (λ c, ∃ d, 0 ≤ d < base ∧ c = digit d) l ∧ (l = [48] ∨ hd 48 l ≠ 48).

Lemma undigit_digit d : 0 ≤ d < 16 → undigit (digit d) = d.
Proof. intros Hd. rewrite /undigit /digit. destruct (Z.ltb_spec d 10); case_match; lia. Qed.

Lemma digit_zero d : 0 ≤ d < 16 → digit d = 48 → d = 0.
Proof. intros Hd. rewrite /digit. destruct (Z.ltb_spec d 10); lia. Qed.

Lemma numeral_snoc base l c : numeral base (l ++ [c]) = numeral base l * base + undigit c.
Proof. by rewrite /numeral foldl_app. Qed.

Lemma put_rev_run buf o : put_rev buf o = Ret () (o ++ reverse buf).
Proof.
  revert o. induction buf as [|c buf IH]; intros o; simpl.
  - by rewrite /= app_nil_r.
  - rewrite (bind_run _ _ _ _ _ (IH o)). rewrite /put_char /modify reverse_cons app_assoc. done.
Qed.

Lemma fill_buf_run base : 2 ≤ base ≤ 16 → ∀ n fuel buf v,
  (n ≤ fuel)%nat → (length buf + n ≤ 64)%nat → (1 ≤ n)%nat → 0 ≤ v < base ^ Z.of_nat n →
  ∃ ds, (∀ o, fill_buf fuel buf v base o = Ret (buf ++ ds) o) ∧ numeral_ok base (reverse ds) ∧
        numeral base (reverse ds) = v ∧ (length ds ≤ n)%nat.
Proof.
  intros Hbase. induction n as [|n IH]; intros fuel buf v Hf Hl H1 Hv; [lia|].
  destruct fuel as [|fuel]; [lia|]. cbn [fill_buf].
  rewrite (proj2 (Z.ltb_lt _ 64)); [lia|]. rewrite (proj2 (Z.eqb_neq base 0)); [lia|]. cbn [andb negb].
  assert (Hm : 0 ≤ v mod base < base) by (apply Z.mod_pos_bound; lia).
  pose proof (Z.div_mod v base ltac:(lia)) as Hdm.
  destruct (Z.eqb_spec (v / base) 0) as [E|E]; cbn [negb].
  - exists [digit (v mod base)]. split_and!; [done| | |simpl; lia].
    + change (reverse [digit (v mod base)]) with [digit (v mod base)]. rewrite /numeral_ok.
      split_and!; [done|constructor; [by exists (v mod base)|constructor]|].
      destruct (decide (v mod base = 0)) as [->|Hne]; [by left|right]. simpl. intros H%digit_zero; lia.
    + change (reverse [digit (v mod base)]) with [digit (v mod base)].
      rewrite /numeral /= undigit_digit; lia.
  - assert (Hv' : 0 ≤ v / base < base ^ Z.of_nat n).
    { split; [apply Z.div_pos; lia|]. apply Z.div_lt_upper_bound; [lia|].
      rewrite -Z.pow_succ_r; [lia|]. rewrite -Nat2Z.inj_succ. apply Hv. }
    assert (Hn : (1 ≤ n)%nat).
    { destruct n; [|lia]. simpl in Hv'. exfalso. lia. }
    destruct (IH fuel (buf ++ [digit (v mod base)]) (v / base)) as (ds & Hrun & (Hne & Hall & Hlead) & Hval & Hlen);
      [lia|rewrite length_app /=; lia|done|done|].
    exists (digit (v mod base) :: ds). rewrite reverse_cons. split_and!.
    + intros o. by rewrite Hrun -app_assoc.
    + rewrite /numeral_ok. split_and!.
      * by destruct (reverse ds).
      * apply Forall_app. split; [done|]. constructor; [by exists (v mod base)|constructor].
      * right. destruct Hlead as [Hz|Hz]; [|by destruct (reverse ds)].
        exfalso. rewrite Hz in Hval. change (numeral base [48]) with (0 * base + 0) in Hval. lia.
    + rewrite numeral_snoc Hval undigit_digit; lia.
    + simpl. lia.
Qed.

Lemma print_int_run u base is_signed :
  - 2 ^ 63 ≤ u < 2 ^ 63 → 2 ≤ base ≤ 16 →
  ∃ ds, (∀ o, _print_int u base is_signed o =
          Ret () (o ++ (if is_signed && (u <? 0) then [c_minus] else []) ++ ds)) ∧
    numeral_ok base ds ∧
    numeral base ds = (if is_signed then Z.abs u else u mod 2 ^ 64).
Proof.
  intros Hu Hb. set (v := if is_signed then Z.abs u else u mod 2 ^ 64).
  assert (Hv : 0 ≤ v < base ^ Z.of_nat 64).
  { assert (0 ≤ v < 2 ^ 64).
    { subst v. destruct is_signed; [lia|]. by apply Z.mod_pos_bound. }
    split; [lia|]. eapply Z.lt_le_trans; [apply H|]. apply Z.pow_le_mono_l. lia. }
  assert (Hbase : u64 base = base) by (apply wrap_small; lia).
  set (sign := if is_signed && (u <? 0) then [c_minus] else []).
  assert (Hsign : ∀ o, (if is_signed && (u <? 0) then put_char c_minus;; mret (u64 (- u64 u)) else mret (u64 u)) o
                  = Ret v (o ++ sign)).
  { intros o. subst v sign. rewrite /u64 /wrap. destruct is_signed; simpl; [|by rewrite app_nil_r].
    destruct (Z.ltb_spec u 0); simpl.
    - rewrite /put_char. run_simpl. f_equal. dlia.
    - rewrite app_nil_r. f_equal. dlia. }
  destruct (fill_buf_run base Hb 64 65 [] v) as (ds & Hrun & Hok & Hval & _);
    [lia|simpl; lia|lia|done|].
  exists (reverse ds). split_and!; [|done|done]. intros o.
  rewrite /_print_int Hbase. rewrite (bind_run _ _ _ _ _ (Hsign o)) (bind_run _ _ _ _ _ (Hrun _)).
  by rewrite put_rev_run -app_assoc.
Qed.

(** C25: Printing an integer loses nothing.  For every [i64] value and every base
    from 2 to 16, [_print_int] returns, never writing outside its 64-place
    buffer; it emits a minus sign exactly for a negative number printed as
    signed, then a numeral without superfluous zeros whose value is the
    magnitude of the number (also for the smallest [i64], whose magnitude is no
    [i64]), or, unsigned, the value of the same bits as [u64]. *)
Theorem print_int_numeral u base is_signed o :
  - 2 ^ 63 ≤ u < 2 ^ 63 → 2 ≤ base ≤ 16 →
  ∃ ds, _print_int u base is_signed o =
          Ret () (o ++ (if is_signed && (u <? 0) then [c_minus] else []) ++ ds) ∧
    numeral_ok base ds ∧
    numeral base ds = (if is_signed then Z.abs u else u mod 2 ^ 64).
Proof.
  intros Hu Hb. destruct (print_int_run u base is_signed Hu Hb) as (ds & Hrun & H). by exists ds.
Qed.

Lemma print_int_numeral_witness :
  ∃ ds, _print_int (- 2 ^ 63) 10 true [] = Ret () (c_minus :: ds) ∧ numeral 10 ds = 2 ^ 63.
Proof.
  destruct (print_int_numeral (- 2 ^ 63) 10 true [] ltac:(lia) ltac:(lia)) as (ds & H1 & _ & H2).
  exists ds. split; [exact H1|exact H2].
Defined.

(** ** Whole format strings *)
(** A format string and its arguments, piece by piece. *)
Inductive piece :=
| Lit (c : Z)                      (* a character other than [%] *)
| Percent                          (* [%%] *)
| Bare                             (* a [%] that starts no conversion *)
| Char (z : Z)                     (* [%c] *)
| Str (s : option (list Z))        (* [%s] *)
| Int (k : conv) (z : Z).          (* one of the integer conversions *)

(** The conversions: what may follow a [%]. *)
Definition conversions : list (list Z) := [c_percent] :: [99] :: [115] :: (ident <$> int_cases).

Definition piece_fmt (p : piece) : list Z :=
  match p with
  | Lit c => [c]
  | Percent => [c_percent; c_percent]
  | Bare => [c_percent]
  | Char _ => [c_percent; 99]
  | Str _ => [c_percent; 115]
  | Int k _ => c_percent :: ident k
  end.
Definition piece_args (p : piece) : list va :=
  match p with Char z => [VInt z] | Int _ z => [VInt z] | Str s => [VStr s] | _ => [] end.

(** [piece_ok p rest]: [p] is a piece of a format that goes on with [rest]. *)
Definition piece_ok (p : piece) (rest : list Z) : Prop :=
  match p with
  | Lit c => c ≠ c_percent
  | Bare => Forall (λ w, ¬ w `prefix_of` rest) conversions
  | Int k _ => k ∈ int_cases
  | _ => True
  end.
Fixpoint format_ok (ps : list piece) : Prop :=
  match ps with [] => True | p :: ps => piece_ok p (ps ≫= piece_fmt) ∧ format_ok ps end.

(** What a piece prints: an integer as a sign and a numeral of its value. *)
Definition piece_out (p : piece) (o : list Z) : Prop :=
  match p with
  | Lit c => o = [c]
  | Percent | Bare => o = [c_percent]
  | Char z => o = [u8 (i32 z)]
  | Str s => o = default null_str s
  | Int k z =>
      ∃ ds, o = (if csigned k && (i64 (va_type k z) <? 0) then [c_minus] else []) ++ ds ∧
        numeral_ok (cbase k) ds ∧
        numeral (cbase k) ds = (if csigned k then Z.abs (i64 (va_type k z)) else i64 (va_type k z) mod 2 ^ 64)
  end.

Lemma put_str_run s o : put_str s o = Ret () (o ++ s).
Proof.
  revert o. induction s as [|c s IH]; intros o; simpl; [by rewrite app_nil_r|].
  rewrite (bind_run _ _ _ () (o ++ [c])) // IH -app_assoc //.
Qed.

Lemma i64_range x : - 2 ^ 63 ≤ i64 x < 2 ^ 63.
Proof. rewrite /i64 /swrap. pose proof (Z.mod_pos_bound (x + 2 ^ (64 - 1)) (2 ^ 64)). lia. Qed.

Lemma starts_spec p l : starts p l = true ↔ p `prefix_of` l.
Proof.
  revert l. induction p as [|c p IH]; intros l; [split; [intros _; apply prefix_nil|done]|].
  destruct l as [|d l]; simpl; split.
  - done.
  - by intros H%prefix_nil_not.
  - intros [->%Z.eqb_eq H%IH]%andb_prop. by apply prefix_cons.
  - intros H. apply andb_true_intro. split; [by apply Z.eqb_eq, (prefix_cons_inv_1 _ _ _ _ H)|].
    by apply IH, (prefix_cons_inv_2 _ _ _ _ H).
Qed.

Lemma find_case_none l : find_case l = None ↔ Forall (λ w, ¬ w `prefix_of` l) (ident <$> int_cases).
Proof.
  rewrite /find_case Forall_fmap. split.
  - intros H. destruct (list_find _ int_cases) as [[i k]|] eqn:E; [done|].
    apply list_find_None in E. eapply Forall_impl; [exact E|]. intros k Hk Hp%starts_spec.
    apply Hk. by rewrite Hp.
  - intros H. assert (list_find (λ c, Is_true (starts (ident c) l)) int_cases = None) as ->; [|done].
    apply list_find_None. eapply Forall_impl; [exact H|]. intros k Hk Hp%Is_true_true.
    by apply Hk, starts_spec.
Qed.

(** The first conversion that matches is the one written. *)
Lemma find_case_ident k l :
  k ∈ int_cases → find_case (ident k ++ l) = Some k ∧ 2 ≤ cbase k ≤ 16 ∧
  hd 0 (ident k) ≠ 37 ∧ hd 0 (ident k) ≠ 99 ∧ hd 0 (ident k) ≠ 115 ∧ ident k ≠ [].
Proof.
  rewrite /int_cases. intros Hk.
  repeat (apply elem_of_cons in Hk as [->|Hk]; [split_and!; try done; simpl; lia|]).
  by apply elem_of_nil in Hk.
Qed.

(** A [%] that starts no conversion is printed. *)
Lemma vformat_bare fuel l arg o :
  Forall (λ w, ¬ w `prefix_of` l) conversions →
  vformat_loop (S fuel) (c_percent :: l) arg o = vformat_loop fuel l arg (o ++ [c_percent]).
Proof.
  intros (H1 & (H2 & (H3 & Hf%find_case_none)%Forall_cons)%Forall_cons)%Forall_cons.
  cbn [vformat_loop]. rewrite Z.eqb_refl. destruct l as [|c l]; [done|].
  assert (Hne : ∀ d, ¬ [d] `prefix_of` c :: l → c ≠ d).
  { intros d Hd ->. apply Hd. by exists l. }
  apply Hne in H1, H2, H3. rewrite Hf. destruct c as [|c|c]; try reflexivity.
  rewrite /c_percent in H1. repeat (destruct c as [c|c|]; try reflexivity; try lia).
Qed.

(** One round of the loop on one piece. *)
Lemma vformat_piece p fuel l arg o :
  piece_ok p l →
  ∃ x, vformat_loop (S fuel) (piece_fmt p ++ l) (piece_args p ++ arg) o = vformat_loop fuel l arg (o ++ x) ∧
       piece_out p x.
Proof.
  destruct p as [c| | |z|s|k z]; intros Hok.
  - exists [c]. split; [|done]. simpl. rewrite (proj2 (Z.eqb_neq _ _) Hok). done.
  - by exists [c_percent].
  - exists [c_percent]. split; [|done]. by apply vformat_bare.
  - by exists [u8 (i32 z)].
  - exists (default null_str s). split; [|done].
    cbn -[put_str]. by rewrite (bind_run _ _ _ _ _ (put_str_run _ o)).
  - destruct (find_case_ident k l Hok) as (Hf & Hb & H1 & H2 & H3 & H4).
    destruct (print_int_run (i64 (va_type k z)) (cbase k) (csigned k) (i64_range _) Hb) as (ds & Hrun & Hds).
    exists ((if csigned k && (i64 (va_type k z) <? 0) then [c_minus] else []) ++ ds). split; [|by exists ds].
    destruct (ident k) as [|c w] eqn:Ek; [done|]. simpl in H1, H2, H3.
    assert (Hstep : vformat_loop (S fuel) (c_percent :: (c :: w) ++ l) (VInt z :: arg) o =
      (_print_int (i64 (va_type k z)) (cbase k) (csigned k);;
       vformat_loop fuel (drop (length (ident k)) ((c :: w) ++ l)) arg) o).
    { cbn [vformat_loop app]. rewrite Z.eqb_refl. rewrite -/app. 
      destruct (decide (c = 37)); [done|]. destruct (decide (c = 99)); [done|].
      destruct (decide (c = 115)); [done|].
      revert Hf. cbn [app]. intros Hf. rewrite Hf. destruct c as [|c|c]; try reflexivity.
      repeat (destruct c as [c|c|]; try reflexivity; try lia). }
    simpl piece_fmt. simpl piece_args. rewrite Ek. simpl app in *. rewrite Hstep.
    rewrite (bind_run _ _ _ _ _ (Hrun o)). f_equal. rewrite Ek /=. by rewrite drop_app_length.
Qed.

Lemma vformat_pieces ps : ∀ fuel o,
  format_ok ps → (length (ps ≫= piece_fmt) ≤ fuel)%nat →
  ∃ xs, vformat_loop fuel (ps ≫= piece_fmt) (ps ≫= piece_args) o = Ret () (o ++ mjoin xs) ∧
        Forall2 piece_out ps xs.
Proof.
  induction ps as [|p ps IH]; intros fuel o Hok Hf.
  - exists []. split; [|constructor]. simpl. by rewrite app_nil_r; destruct fuel.
  - destruct Hok as [Hp Hok]. rewrite bind_cons length_app in Hf.
    assert (1 ≤ length (piece_fmt p))%nat by (destruct p; simpl; lia).
    destruct fuel as [|fuel]; [lia|].
    destruct (vformat_piece p fuel (ps ≫= piece_fmt) (ps ≫= piece_args) o Hp) as (x & Hx & Hout).
    destruct (IH fuel (o ++ x) Hok) as (xs & Hrun & Hxs); [lia|].
    exists (x :: xs). split; [|by constructor]. rewrite !bind_cons Hx Hrun /= -app_assoc //.
Qed.

Lemma conversion_piece w :
  w ∈ conversions → ∃ p, piece_fmt p = c_percent :: w ∧ ∀ rest, piece_ok p rest.
Proof.
  rewrite /conversions. intros [->|[->|[->|(k & -> & Hk)%list_elem_of_fmap]%elem_of_cons]%elem_of_cons]%elem_of_cons.
  - by exists Percent.
  - by exists (Char 0).
  - by exists (Str None).
  - by exists (Int k 0).
Qed.

(** Every format is made of pieces. *)
Lemma format_split l : ∃ ps, format_ok ps ∧ ps ≫= piece_fmt = l.
Proof.
  induction l as [l IH] using (induction_ltof1 _ length). destruct l as [|c l]; [by exists []|].
  assert (Hgo : ∀ p l', piece_ok p l' → c :: l = piece_fmt p ++ l' → (length l' ≤ length l)%nat →
    ∃ ps, format_ok ps ∧ ps ≫= piece_fmt = c :: l).
  { intros p l' Hp Heq Hl. destruct (IH l') as (ps & Hok & Hps); [rewrite /ltof /=; lia|].
    exists (p :: ps). cbn [format_ok]. by rewrite bind_cons Hps Heq. }
  destruct (decide (c = c_percent)) as [->|Hc]; [|by apply (Hgo (Lit c) l)].
  destruct (decide (Exists (λ w, w `prefix_of` l) conversions)) as [(w & Hw & l' & ->)%Exists_exists|Hno].
  - destruct (conversion_piece w Hw) as (p & Hfmt & Hp). apply (Hgo p l'); [done|by rewrite Hfmt|].
    rewrite length_app. lia.
  - apply (Hgo Bare l); [|done|done]. by apply not_Exists_Forall in Hno; [|apply _].
Qed.

(** C26: [vformat] prints what the format says.  Every format string is made of
    ordinary characters, [%%], [%c], [%s], the nine integer conversions, and
    percent signs that no conversion follows; and with arguments of the right
    kinds [vformat] returns and emits, in order, each ordinary character, one
    percent sign for [%%] and for a percent sign that starts no conversion, the
    character or string given (or a marker for a null pointer), and for an
    integer conversion the sign and numeral of the argument converted to the
    conversion's type. *)
Theorem vformat_renders :
  (∀ l, ∃ ps, format_ok ps ∧ ps ≫= piece_fmt = l) ∧
  (∀ ps o, format_ok ps →
     ∃ xs, vformat (ps ≫= piece_fmt) (ps ≫= piece_args) o = Ret () (o ++ mjoin xs) ∧
           Forall2 piece_out ps xs).
Proof. split; [apply format_split|]. intros ps o Hok. by apply vformat_pieces. Qed.

Lemma vformat_renders_witness :
  ∃ xs, vformat [120; 37; 100; 37; 61] [VInt (-42)] [] = Ret () (mjoin xs) ∧
        Forall2 piece_out [Lit 120; Int (mkConv [100] i32 10 true) (-42); Bare; Lit 61] xs.
Proof.
  destruct (proj2 vformat_renders [Lit 120; Int (mkConv [100] i32 10 true) (-42); Bare; Lit 61] []) as (xs & H1 & H2).
  - repeat constructor; try discriminate; by intros [? ?].
  - exists xs. split; [exact H1|exact H2].
Defined.
