(* ===== verification/Sem.v ===== *)
(** * Sem: semaphores and sleep locks, [common/sem.c]

    [sleeplist] is the ring of sleeping waiters, newest first, as
    [_insert_into_list(&sem->sleeplist, ...)] builds it; a [WaitData*] is an
    identifier into [waits].  [_wait_sem] is cut at the call to [sched]: the part
    before, and the part that runs when the thread is resumed, either by
    [_post_sem] or by another source (an alert).  [activated] records the calls
    of [activate_proc].  A signed overflow of [val] is a fault. *)

From stdpp Require Import base numbers list gmap.
From S2P Require Import Prelude Spinlock.

Record WaitData := mkWait { up : bool; wproc : nat }.

Record Semaphore := mkSem {
  sem_lock : SpinLock;
  val : Z;
  sleeplist : list nat;
  waits : gmap nat WaitData;
  activated : list nat }.

Definition set_val v (s : Semaphore) := mkSem (sem_lock s) v (sleeplist s) (waits s) (activated s).
Definition set_sleeplist l (s : Semaphore) := mkSem (sem_lock s) (val s) l (waits s) (activated s).
Definition set_waits w (s : Semaphore) := mkSem (sem_lock s) (val s) (sleeplist s) w (activated s).
Definition set_activated a (s : Semaphore) := mkSem (sem_lock s) (val s) (sleeplist s) (waits s) a.
Definition sem_lens : Lens Semaphore SpinLock :=
  mkLens sem_lock (λ l s, mkSem l (val s) (sleeplist s) (waits s) (activated s)).

Definition INT_MAX : Z := 2147483647.
Definition INT_MIN : Z := -2147483648.

(** [++sem->val] and [--sem->val]: the new value. *)
Definition inc_val : M Semaphore Z :=
  v ← gets val; if v =? INT_MAX then fault else modify (set_val (v + 1));; mret (v + 1).
Definition dec_val : M Semaphore Z :=
  v ← gets val; if v =? INT_MIN then fault else modify (set_val (v - 1));; mret (v - 1).

Definition init_sem (v : Z) : Semaphore := mkSem init_spinlock v [] ∅ [].
Definition init_sleeplock : Semaphore := init_sem 1.

Definition _lock_sem : M Semaphore () := _acquire_spinlock sem_lens.
Definition _unlock_sem : M Semaphore () := release_spinlock sem_lens.

Definition _get_sem : M Semaphore bool :=
  v ← gets val;
  if 0 <? v then modify (set_val (v - 1));; mret true else mret false.
Definition _query_sem : M Semaphore Z := gets val.

Definition get_all_sem : M Semaphore Z :=
  _lock_sem;;
  v ← gets val;
  ret ← (if 0 <? v then modify (set_val 0);; mret v else mret 0);
  _unlock_sem;;
  mret ret.

(** [_detach_from_list(&wait->slnode)] *)
Definition detach (w : nat) : M Semaphore () := modify (λ s, set_sleeplist (filter (λ x, x ≠ w) (sleeplist s)) s).
Definition set_up (w : nat) : M Semaphore () :=
  ws ← gets waits; d ← of_opt (ws !! w); modify (set_waits (<[w := mkWait true (wproc d)]> ws)).
Definition activate_proc (p : nat) : M Semaphore () := modify (λ s, set_activated (activated s ++ [p]) s).

Definition _post_sem : M Semaphore () :=
  v ← inc_val;
  if v <=? 0 then
    l ← gets sleeplist;
    match last l with
    | None => panic
    | Some w =>
        set_up w;;
        detach w;;
        ws ← gets waits; d ← of_opt (ws !! w);
        activate_proc (wproc d)
    end
  else mret ().

Definition post_sem : M Semaphore () := _lock_sem;; _post_sem;; _unlock_sem.
Definition get_sem : M Semaphore bool := _lock_sem;; r ← _get_sem; _unlock_sem;; mret r.

(** [post_all_sem]: the loop runs once more than there are sleepers. *)
Fixpoint post_all_loop (fuel : nat) (ret : Z) : M Semaphore Z :=
  match fuel with
  | O => nofuel
  | S fuel =>
      _post_sem;;
      got ← _get_sem;
      if got : bool then mret (ret + 1) else post_all_loop fuel (ret + 1)
  end.
Definition post_all_sem : M Semaphore Z :=
  _lock_sem;;
  s ← get;
  ret ← post_all_loop (S (Z.to_nat (- val s))) (-1);
  _unlock_sem;;
  mret ret.

(** [_wait_sem] up to [sched], called with the lock held; [w] is the fresh
    [WaitData] of [kalloc].  [true]: returned true without sleeping. *)
Definition wait_sem_before (w p : nat) : M Semaphore bool :=
  v ← dec_val;
  if 0 <=? v then _unlock_sem;; mret true
  else
    modify (λ s, set_waits (<[w := mkWait false p]> (waits s)) s);;
    modify (λ s, set_sleeplist (w :: sleeplist s) s);;
    _unlock_sem;;
    mret false.

(** [_wait_sem] after [sched]: the return value. *)
Definition wait_sem_after (w : nat) : M Semaphore bool :=
  _acquire_spinlock sem_lens;;
  ws ← gets waits; d ← of_opt (ws !! w);
  (if up d then mret ()
   else v ← inc_val; assert_ (v <=? 0);; detach w);;
  release_spinlock sem_lens;;
  modify (λ s, set_waits (delete w (waits s)) s);;
  mret (up d).

(** ** The invariant *)
(** The sleepers are those not yet granted, and there are as many as [val] is
    below zero. *)
Definition sem_wf (s : Semaphore) : Prop :=
  INT_MIN ≤ val s ≤ INT_MAX ∧
  Z.of_nat (length (sleeplist s)) = Z.max 0 (- val s) ∧
  NoDup (sleeplist s) ∧
  (∀ w d, waits s !! w = Some d → (w ∈ sleeplist s ↔ up d = false)) ∧
  (∀ w, w ∈ sleeplist s → is_Some (waits s !! w)).

(** ** The steps of the threads that use one semaphore

    [granted] counts the waits that have been granted (returned true without
    sleeping, or marked up), [posts] the posts. *)
Record sem_sys := mkSys { sem : Semaphore; granted : Z; posts : Z }.

Inductive sem_step : sem_sys → sem_sys → Prop :=
| st_wait w p b s s' g n :
    waits s !! w = None → w ∉ sleeplist s →
    (_lock_sem;; wait_sem_before w p) s = Ret b s' →
    sem_step (mkSys s g n) (mkSys s' (if b : bool then g + 1 else g) n)
| st_resume w b s s' g n :
    wait_sem_after w s = Ret b s' → sem_step (mkSys s g n) (mkSys s' g n)
| st_post s s' g n :
    post_sem s = Ret () s' →
    sem_step (mkSys s g n) (mkSys s' (if val s <? 0 then g + 1 else g) (n + 1))
| st_get b s s' g n :
    get_sem s = Ret b s' → sem_step (mkSys s g n) (mkSys s' (if b : bool then g + 1 else g) n)
| st_get_all r s s' g n :
    get_all_sem s = Ret r s' → sem_step (mkSys s g n) (mkSys s' (g + r) n)
| st_post_all r s s' g n :
    post_all_sem s = Ret r s' → sem_step (mkSys s g n) (mkSys s' (g + r) (n + r)).

(** ** What each step does *)
Lemma sleepers_last s :
  sem_wf s → val s < 0 → ∃ l w d, sleeplist s = l ++ [w] ∧ waits s !! w = Some d ∧ w ∉ l.
Proof.
  intros (Hr & Hlen & Hnd & Hup & Hw) Hv.
  destruct (sleeplist s) as [|w l _] eqn:E using rev_ind; [simpl in Hlen; lia|].
  destruct (Hw w) as [d Hd]; [set_solver|]. exists l, w, d. split_and!; [done|done|].
  apply NoDup_app in Hnd as (_ & Hd' & _). intros Hin. apply (Hd' _ Hin). set_solver.
Qed.

Lemma post_sleeping s l w d :
  sem_wf s → val s < 0 → sleeplist s = l ++ [w] → waits s !! w = Some d → w ∉ l →
  let s' := mkSem (sem_lock s) (val s + 1) l (<[w := mkWait true (wproc d)]> (waits s))
              (activated s ++ [wproc d]) in
  _post_sem s = Ret () s' ∧ sem_wf s'.
Proof.
  intros (Hr & Hlen & Hnd & Hup & Hw) Hv Hl Hd Hnin. split.
  - rewrite /_post_sem /inc_val. rewrite /INT_MAX in Hr |- *.
    erewrite bind_run; last first.
    { erewrite bind_run; [|reflexivity]. rewrite (proj2 (Z.eqb_neq _ _)); [lia|]. reflexivity. }
    rewrite (proj2 (Z.leb_le _ _)); [lia|]. erewrite bind_run; [|reflexivity].
    simpl sleeplist. rewrite Hl last_snoc. rewrite /set_up.
    erewrite bind_run; last first.
    { erewrite bind_run; [|reflexivity]. erewrite bind_run; [|exact (of_opt_run _ _ _ Hd)]. reflexivity. }
    erewrite bind_run; [|reflexivity]. erewrite bind_run; [|reflexivity].
    erewrite bind_run; [|apply of_opt_run; apply lookup_insert_eq].
    rewrite /activate_proc /modify. f_equal. destruct s as [lk v sl ws ac]. simpl in *. subst sl.
    rewrite /set_activated /=. f_equal.
    rewrite filter_app filter_ne_notin // filter_cons_False; [naive_solver|]. apply app_nil_r.
  - rewrite Hl length_app /= in Hlen. rewrite /INT_MAX /INT_MIN in Hr.
    rewrite /sem_wf /= /INT_MAX /INT_MIN. split_and!; try lia.
    + rewrite Hl in Hnd. by apply NoDup_app in Hnd as (? & _).
    + intros x y. destruct (decide (x = w)) as [->|Hx].
      * rewrite lookup_insert_eq. intros [= <-]. simpl. split; done.
      * rewrite lookup_insert_ne; [congruence|]. intros Hy. rewrite -(Hup _ _ Hy) Hl. set_solver.
    + intros x Hx. rewrite lookup_insert_is_Some'. right. apply Hw. rewrite Hl. set_solver.
Qed.

Lemma post_idle s :
  sem_wf s → 0 ≤ val s < INT_MAX → _post_sem s = Ret () (set_val (val s + 1) s) ∧ sem_wf (set_val (val s + 1) s).
Proof.
  intros (Hr & Hlen & Hnd & Hup & Hw) Hv. split.
  - rewrite /_post_sem /inc_val. erewrite bind_run; last first.
    { erewrite bind_run; [|reflexivity]. rewrite (proj2 (Z.eqb_neq _ _)); [lia|]. reflexivity. }
    rewrite (proj2 (Z.leb_gt _ _)); [lia|]. done.
  - rewrite /INT_MAX /INT_MIN in Hr, Hv. rewrite /sem_wf /= /INT_MAX /INT_MIN. split_and!; try done; lia.
Qed.

Lemma sem_wf_ext s s' :
  val s' = val s → sleeplist s' = sleeplist s → waits s' = waits s → sem_wf s → sem_wf s'.
Proof. rewrite /sem_wf. by intros -> -> ->. Qed.

Lemma post_all_loop_S n ret s :
  post_all_loop (S n) ret s =
    (_post_sem;; got ← _get_sem; if got : bool then mret (ret + 1) else post_all_loop n (ret + 1)) s.
Proof. done. Qed.

(** [post_all_sem]'s loop: wakes everybody, oldest first. *)
Lemma post_all_loop_run : ∀ n s ret,
  sem_wf s → val s = - Z.of_nat n →
  ∃ s', post_all_loop (S n) ret s = Ret (ret + Z.of_nat n + 1) s' ∧ sem_wf s' ∧ val s' = 0 ∧
    sleeplist s' = [] ∧ sem_lock s' = sem_lock s ∧
    (∀ w d, waits s !! w = Some d → waits s' !! w = Some (mkWait true (wproc d))) ∧
    activated s' = activated s ++ reverse (omap (λ w, wproc <$> waits s !! w) (sleeplist s)).
Proof.
  induction n as [|n IH]; intros s ret Hwf Hv.
  - destruct (post_idle s Hwf) as [Hrun Hwf']; [rewrite /INT_MAX; lia|].
    pose proof Hwf as (_ & Hlen & _ & Hup & _).
    assert (Hnil : sleeplist s = []).
    { apply length_zero_iff_nil. lia. }
    exists (set_val 0 (set_val (val s + 1) s)). split_and!.
    + rewrite post_all_loop_S (bind_run _ _ _ _ _ Hrun) /_get_sem.
      erewrite bind_run; last first.
      { erewrite bind_run; [|reflexivity]. change (val (set_val (val s + 1) s)) with (val s + 1). rewrite (proj2 (Z.ltb_lt _ _)); [lia|].
        replace (val s + 1 - 1) with 0 by lia. reflexivity. }
      simpl. f_equal. lia.
    + apply (sem_wf_ext s); [simpl; lia|done|done|done].
    + done.
    + done.
    + done.
    + intros w d Hw. simpl. rewrite Hw. destruct d as [u p].
      assert (u = true) as ->; [|done]. destruct u; [done|].
      assert (Hin : w ∈ sleeplist s) by by apply (Hup _ _ Hw). rewrite Hnil in Hin. by apply elem_of_nil in Hin.
    + simpl. by rewrite Hnil /= app_nil_r.
  - destruct (sleepers_last s Hwf) as (l & w & d & Hl & Hd & Hnin); [lia|].
    destruct (post_sleeping s l w d Hwf) as [Hrun Hwf']; [lia|done..|].
    set (s1 := mkSem _ _ _ _ _) in *.
    destruct (IH s1 (ret + 1)) as (s' & Hrun' & H1 & H2 & H3 & H4 & H5 & H6); [done|simpl; lia|].
    exists s'. split_and!; try done.
    + rewrite post_all_loop_S (bind_run _ _ _ _ _ Hrun) /_get_sem.
      erewrite bind_run; last first.
      { erewrite bind_run; [|reflexivity]. change (val s1) with (val s + 1). rewrite (proj2 (Z.ltb_ge _ _)); [lia|]. reflexivity. }
      cbv beta iota. rewrite Hrun'. f_equal. lia.
    + intros x y Hx. destruct (decide (x = w)) as [->|Hne].
      * assert (y = d) as -> by congruence. by apply (H5 w (mkWait true (wproc d))), lookup_insert_eq.
      * apply H5. simpl. rewrite lookup_insert_ne //. congruence.
    + rewrite H6 Hl omap_app reverse_app /= Hd /= -app_assoc /=. do 3 f_equal.
      apply list_omap_ext, Forall_Forall2_diag, Forall_forall. intros x Hx. simpl.
      rewrite lookup_insert_ne //. congruence.
Qed.

Definition locked (s : Semaphore) : Semaphore := mkSem true (val s) (sleeplist s) (waits s) (activated s).

Lemma lock_run s : sem_lock s = false → _lock_sem s = Ret () (locked s).
Proof. intros H. rewrite /_lock_sem acquire_run /= H. done. Qed.

Lemma lock_inv {A} (k : M Semaphore A) s a s' :
  (_lock_sem;; k) s = Ret a s' → sem_lock s = false ∧ k (locked s) = Ret a s'.
Proof.
  intros ([] & t & H1 & H2)%bind_ret_inv. rewrite /_lock_sem acquire_run in H1.
  destruct (lget sem_lens s) eqn:E; [done|]. injection H1 as <-. split; [exact E|exact H2].
Qed.

Definition unlocked (s : Semaphore) : Semaphore := mkSem false (val s) (sleeplist s) (waits s) (activated s).

Lemma sem_wf_unlocked s : sem_wf s → sem_wf (unlocked s).
Proof. by apply sem_wf_ext. Qed.
Lemma sem_wf_locked s : sem_wf s → sem_wf (locked s).
Proof. by apply sem_wf_ext. Qed.

(** [s'] follows from [s] by a step with the changes [dg] and [dn] of the
    counters. *)
Definition sem_ok_step (s s' : Semaphore) (dg dn : Z) : Prop :=
  sem_wf s' ∧ sem_lock s' = false ∧ dg + Z.max 0 (val s') = dn + Z.max 0 (val s).

Lemma wait_before_step w p b s s' :
  sem_wf s → waits s !! w = None → w ∉ sleeplist s →
  (_lock_sem;; wait_sem_before w p) s = Ret b s' → sem_ok_step s s' (if b : bool then 1 else 0) 0.
Proof.
  intros (Hr & Hlen & Hnd & Hup & Hw) Hnone Hnin (Hl & H)%lock_inv.
  rewrite /wait_sem_before /dec_val in H. apply bind_ret_inv in H as (v & s1 & Hv & H).
  apply bind_ret_inv in Hv as (? & ? & [= <- <-] & Hv). simpl in Hv.
  destruct (Z.eqb_spec (val s) INT_MIN); [done|]. injection Hv as <- <-.
  rewrite /INT_MIN /INT_MAX in Hr, n.
  destruct (Z.leb_spec 0 (val s - 1)); injection H as <- <-; rewrite /sem_ok_step /sem_wf /= /INT_MIN /INT_MAX.
  - split_and!; try done; try lia.
  - split_and!; try done; try lia.
    + by constructor.
    + intros x y. destruct (decide (x = w)) as [->|Hx].
      * rewrite lookup_insert_eq. intros [= <-]. set_solver.
      * rewrite lookup_insert_ne; [congruence|]. intros Hy. rewrite -(Hup _ _ Hy). set_solver.
    + intros x [->|Hx]%elem_of_cons; [rewrite lookup_insert_eq; eauto|].
      rewrite lookup_insert_is_Some'. right. by apply Hw.
Qed.

Lemma wait_after_run w d s :
  sem_wf s → sem_lock s = false → waits s !! w = Some d →
  ∃ s', wait_sem_after w s = Ret (up d) s' ∧ sem_ok_step s s' 0 0 ∧ waits s' = delete w (waits s) ∧
        sleeplist s' = filter (λ x, x ≠ w) (sleeplist s).
Proof.
  intros (Hr & Hlen & Hnd & Hup & Hw) Hl Hd. rewrite /INT_MIN /INT_MAX in Hr.
  assert (Hdel : ∀ l : list nat, (∀ x, x ∈ l ↔ x ∈ sleeplist s ∧ x ≠ w) →
    (∀ x y, delete w (waits s) !! x = Some y → (x ∈ l ↔ up y = false)) ∧
    (∀ x, x ∈ l → is_Some (delete w (waits s) !! x))).
  { intros l Hl'. split.
    - intros x y [Hne Hy]%lookup_delete_Some. rewrite Hl' (Hup _ _ Hy). naive_solver.
    - intros x [Hx Hne]%Hl'. rewrite lookup_delete_ne; [congruence|]. by apply Hw. }
  rewrite /wait_sem_after.
  erewrite bind_run; [|exact (lock_run s Hl)]. erewrite bind_run; [|reflexivity].
  erewrite bind_run; [|exact (of_opt_run _ _ _ Hd)]. destruct (up d) eqn:Eup.
  - eexists. split; [reflexivity|]. assert (Hn : w ∉ sleeplist s).
    { intros Hin. apply (Hup _ _ Hd) in Hin. congruence. }
    destruct (Hdel (sleeplist s)) as [H1 H2]; [set_solver|].
    by rewrite filter_ne_notin.
  - assert (Hin : w ∈ sleeplist s) by by apply (Hup _ _ Hd).
    pose proof (length_filter_ne w (sleeplist s) Hnd Hin) as Hlf.
    erewrite bind_run; last first.
    { rewrite /inc_val. erewrite bind_run; last first.
      { erewrite bind_run; [|reflexivity]. change (val (locked s)) with (val s). rewrite (proj2 (Z.eqb_neq _ _)); [rewrite /INT_MAX; lia|].
        reflexivity. }
      change (val (locked s)) with (val s); rewrite (proj2 (Z.leb_le _ _)); [lia|]. reflexivity. }
    eexists. split; [reflexivity|]. simpl.
    destruct (Hdel (filter (λ x, x ≠ w) (sleeplist s))) as [H1 H2].
    { intros x. rewrite list_elem_of_filter. naive_solver. }
    split_and!; try done. rewrite /sem_ok_step /sem_wf /= /INT_MIN /INT_MAX. split_and!; try done; try lia.
    by apply NoDup_filter.
Qed.

Lemma post_step s s' :
  sem_wf s → post_sem s = Ret () s' → sem_ok_step s s' (if val s <? 0 then 1 else 0) 1.
Proof.
  intros Hwf (Hl & H)%lock_inv. apply sem_wf_locked in Hwf as Hwf'. apply bind_ret_inv in H as ([] & t & Hp & H).
  injection H as <-. destruct (Z.ltb_spec (val s) 0) as [Hv|Hv].
  - destruct (sleepers_last (locked s) Hwf' Hv) as (l & w & d & H1 & H2 & H3).
    destruct (post_sleeping (locked s) l w d Hwf' Hv H1 H2 H3) as [Hrun Hok].
    rewrite Hrun in Hp. injection Hp as <-. split_and!; [by apply sem_wf_unlocked in Hok|done|simpl; lia].
  - destruct (decide (val s = INT_MAX)) as [E|E].
    { exfalso. rewrite /_post_sem /inc_val in Hp. apply bind_ret_inv in Hp as (? & ? & Hp & _).
      apply bind_ret_inv in Hp as (? & ? & [= <- <-] & Hp). simpl in Hp.
      by rewrite E Z.eqb_refl in Hp. }
    destruct (post_idle (locked s) Hwf') as [Hrun Hok].
    { destruct Hwf as (? & _). simpl. lia. }
    rewrite Hrun in Hp. injection Hp as <-. split_and!; [by apply sem_wf_unlocked in Hok|done|simpl; lia].
Qed.

Lemma get_step b s s' : sem_wf s → get_sem s = Ret b s' → sem_ok_step s s' (if b : bool then 1 else 0) 0.
Proof.
  intros Hwf (Hl & H)%lock_inv. pose proof Hwf as (Hr & Hlen & Hnd & Hup & Hw). rewrite /_get_sem in H.
  apply bind_ret_inv in H as (v & s1 & Hv & H). injection H as <- <-.
  apply bind_ret_inv in Hv as (? & ? & [= <- <-] & Hv). simpl in Hv.
  destruct (Z.ltb_spec 0 (val s)); injection Hv as <- <-.
  - rewrite /INT_MIN /INT_MAX in Hr. rewrite /sem_ok_step /sem_wf /= /INT_MIN /INT_MAX. split_and!; try done; lia.
  - split_and!; [by apply sem_wf_unlocked|done|done].
Qed.

Lemma get_all_step r s s' : sem_wf s → get_all_sem s = Ret r s' → sem_ok_step s s' r 0.
Proof.
  intros Hwf (Hl & H)%lock_inv. pose proof Hwf as (Hr & Hlen & Hnd & Hup & Hw).
  apply bind_ret_inv in H as (? & ? & [= <- <-] & H). apply bind_ret_inv in H as (ret & t & Hv & H).
  injection H as <- <-. simpl in Hv. destruct (Z.ltb_spec 0 (val s)); injection Hv as <- <-.
  - rewrite /sem_ok_step /sem_wf /= /INT_MIN /INT_MAX. split_and!; try done; lia.
  - split_and!; [by apply sem_wf_unlocked|done|simpl; lia].
Qed.

Lemma post_all_run s :
  sem_wf s → sem_lock s = false → val s < INT_MAX →
  ∃ s', post_all_sem s = Ret (Z.max 0 (- val s)) s' ∧ sem_wf s' ∧ sem_lock s' = false ∧
    val s' = Z.max 0 (val s) ∧ sleeplist s' = [] ∧
    (∀ w d, waits s !! w = Some d → waits s' !! w = Some (mkWait true (wproc d))) ∧
    activated s' = activated s ++ reverse (omap (λ w, wproc <$> waits s !! w) (sleeplist s)).
Proof.
  intros Hwf Hl Hmax. apply sem_wf_locked in Hwf as Hwf'.
  rewrite /post_all_sem (bind_run _ _ _ _ _ (lock_run s Hl)). erewrite bind_run; [|reflexivity].
  change (val (locked s)) with (val s). destruct (decide (val s ≤ 0)) as [Hv|Hv].
  - destruct (post_all_loop_run (Z.to_nat (- val s)) (locked s) (-1) Hwf') as
      (s1 & Hrun & H1 & H2 & H3 & H4 & H5 & H6); [simpl; lia|].
    rewrite (bind_run _ _ _ _ _ Hrun). exists (unlocked s1). split_and!; try done.
    + rewrite (bind_run _ _ _ _ _ (release_run _ _)). f_equal. lia.
    + simpl. lia.
  - replace (Z.to_nat (- val s)) with 0%nat by lia.
    destruct (post_idle (locked s) Hwf') as [Hrun Hok]; [simpl; lia|].
    pose proof Hwf as (_ & Hlen & _ & Hup & _).
    assert (Hnil : sleeplist s = []) by (apply length_zero_iff_nil; lia).
    exists s. rewrite (bind_run _ _ _ 0 (locked s)).
    { rewrite post_all_loop_S (bind_run _ _ _ _ _ Hrun) /_get_sem. erewrite bind_run; last first.
      { erewrite bind_run; [|reflexivity]. rewrite (proj2 (Z.ltb_lt _ _)); [simpl; lia|]. reflexivity. }
      rewrite /mret /M_ret. f_equal. simpl. rewrite /locked /set_val /=. f_equal. lia. }
    split_and!; try done.
    + rewrite (bind_run _ _ _ _ _ (release_run _ _)). rewrite /mret /M_ret. f_equal; [lia|].
      destruct s; simpl in *. by subst.
    + lia.
    + intros w d Hw. rewrite Hw. destruct d as [u p].
      assert (u = true) as ->; [|done]. destruct u; [done|].
      assert (Hin : w ∈ sleeplist s) by by apply (Hup _ _ Hw). rewrite Hnil in Hin. by apply elem_of_nil in Hin.
    + by rewrite Hnil /= app_nil_r.
Qed.

Lemma post_all_step r s s' : sem_wf s → post_all_sem s = Ret r s' → sem_ok_step s s' r r.
Proof.
  intros Hwf Hrun. pose proof Hrun as (Hl & H)%lock_inv.
  destruct (decide (val s = INT_MAX)) as [E|E].
  { exfalso. apply bind_ret_inv in H as (? & ? & [= <- <-] & H). apply bind_ret_inv in H as (? & ? & H & _).
    rewrite post_all_loop_S in H. apply bind_ret_inv in H as (? & ? & Hp & _).
    rewrite /_post_sem /inc_val in Hp. apply bind_ret_inv in Hp as (? & ? & Hp & _).
    apply bind_ret_inv in Hp as (? & ? & [= <- <-] & Hp). simpl in Hp. by rewrite E Z.eqb_refl in Hp. }
  destruct (post_all_run s Hwf Hl) as (s1 & Hrun' & H1 & H2 & H3 & _).
  { destruct Hwf as ([_ ?] & _). lia. }
  rewrite Hrun' in Hrun. injection Hrun as <- <-. split_and!; [done|done|lia].
Qed.

(** The invariant of the whole system started with the value [v0]. *)
Definition sys_inv (v0 : Z) (σ : sem_sys) : Prop :=
  sem_wf (sem σ) ∧ sem_lock (sem σ) = false ∧ granted σ + Z.max 0 (val (sem σ)) = v0 + posts σ.

Lemma sem_step_inv v0 σ σ' : sem_step σ σ' → sys_inv v0 σ → sys_inv v0 σ'.
Proof.
  intros Hstep (Hwf & Hl & Heq). rewrite /sys_inv.
  destruct Hstep as [w p b s s' g n Hn Hin H|w b s s' g n H|s s' g n H|b s s' g n H|r s s' g n H|r s s' g n H];
    simpl in *.
  - destruct (wait_before_step _ _ _ _ _ Hwf Hn Hin H) as (? & ? & ?). split_and!; [done..|]. destruct b; lia.
  - rewrite /wait_sem_after in H. pose proof H as H'.
    apply bind_ret_inv in H' as ([] & t & Ha & H'). rewrite acquire_run in Ha.
    destruct (lget sem_lens s); [done|]. injection Ha as <-.
    apply bind_ret_inv in H' as (? & ? & [= <- <-] & H'). apply bind_ret_inv in H' as (d & ? & Hd & _).
    simpl in Hd. destruct (waits s !! w) as [d'|] eqn:Ed; [|done].
    destruct (wait_after_run w d' s Hwf Hl Ed) as (s1 & Hrun & (? & ? & ?) & _).
    rewrite /wait_sem_after in Hrun. rewrite Hrun in H. injection H as _ <-. split_and!; [done..|lia].
  - destruct (post_step _ _ Hwf H) as (? & ? & ?). split_and!; [done..|]. destruct (val s <? 0); lia.
  - destruct (get_step _ _ _ Hwf H) as (? & ? & ?). split_and!; [done..|]. destruct b; lia.
  - destruct (get_all_step _ _ _ Hwf H) as (? & ? & ?). split_and!; [done..|lia].
  - destruct (post_all_step _ _ _ Hwf H) as (? & ? & ?). split_and!; [done..|lia].
Qed.

(** C15: A semaphore grants exactly what it was given.  However waits, posts,
    gets and wake-ups by other sources interleave, in every reachable state the
    grants plus the remaining value equal the initial value plus the posts (so a
    sleep lock is held by at most one thread); the sleepers are as many as the
    value is negative; and the two assertions of [sem.c] cannot fail: a resumed
    waiter finishes with the answer its [up] flag gives, and a post returns. *)
Theorem semaphore_conservation v0 σ :
  0 ≤ v0 ≤ INT_MAX → rtc sem_step (mkSys (init_sem v0) 0 0) σ →
  granted σ + Z.max 0 (val (sem σ)) = v0 + posts σ ∧
  Z.of_nat (length (sleeplist (sem σ))) = Z.max 0 (- val (sem σ)) ∧
  (∀ w d, waits (sem σ) !! w = Some d → ∃ s', wait_sem_after w (sem σ) = Ret (up d) s') ∧
  (val (sem σ) < INT_MAX → ∃ s', post_sem (sem σ) = Ret () s').
Proof.
  intros Hv Hrtc. assert (Hinv : sys_inv v0 σ).
  { assert (H0 : sys_inv v0 (mkSys (init_sem v0) 0 0)).
    { rewrite /sys_inv /sem_wf /= /INT_MIN. split_and!; try done; try lia; [apply NoDup_nil_2|].
      intros w Hw. by apply elem_of_nil in Hw. }
    induction Hrtc; eauto using sem_step_inv. }
  destruct Hinv as (Hwf & Hl & Heq). split_and!; [done|by apply Hwf| |].
  - intros w d Hd. destruct (wait_after_run w d _ Hwf Hl Hd) as (s' & H & _). eauto.
  - intros Hmax. apply sem_wf_locked in Hwf as Hwf'. rewrite /post_sem (bind_run _ _ _ _ _ (lock_run _ Hl)).
    destruct (decide (val (sem σ) < 0)) as [Hneg|Hneg].
    + destruct (sleepers_last _ Hwf' Hneg) as (l & w & d & H1 & H2 & H3).
      destruct (post_sleeping _ l w d Hwf' Hneg H1 H2 H3) as [Hrun _]. rewrite (bind_run _ _ _ _ _ Hrun). eauto.
    + destruct (post_idle _ Hwf') as [Hrun _]; [simpl; lia|]. rewrite (bind_run _ _ _ _ _ Hrun). eauto.
Qed.

Definition sem_run1 : sem_sys := mkSys (mkSem false (-1) [0%nat] {[0%nat := mkWait false 7]} []) 0 0.

Lemma semaphore_conservation_witness :
  rtc sem_step (mkSys (init_sem 0) 0 0) sem_run1 ∧ ∃ s', post_sem (sem sem_run1) = Ret () s'.
Proof.
  assert (H : rtc sem_step (mkSys (init_sem 0) 0 0) sem_run1).
  { eapply rtc_l; [|apply rtc_refl]. apply (st_wait 0 7 false); [reflexivity| |reflexivity].
    simpl. intros Hin. by apply elem_of_nil in Hin. }
  split; [exact H|].
  destruct (semaphore_conservation 0 sem_run1 ltac:(rewrite /INT_MAX; lia) H) as (_ & _ & _ & Hp).
  apply Hp. rewrite /INT_MAX /=. lia.
Defined.

(** [post_all_sem] wakes everyone and nobody else.  From any well-formed
    semaphore it returns the number of sleepers, leaves none asleep and the value
    at zero (or unchanged when nobody slept), marks every waiter up, and
    activates their processes in the order they went to sleep. *)
Theorem post_all_sem_wakes_all s :
  sem_wf s → sem_lock s = false → val s < INT_MAX →
  ∃ s', post_all_sem s = Ret (Z.of_nat (length (sleeplist s))) s' ∧ sem_wf s' ∧
    val s' = Z.max 0 (val s) ∧ sleeplist s' = [] ∧
    (∀ w d, waits s !! w = Some d → waits s' !! w = Some (mkWait true (wproc d))) ∧
    activated s' = activated s ++ reverse (omap (λ w, wproc <$> waits s !! w) (sleeplist s)).
Proof.
  intros Hwf Hl Hmax. destruct (post_all_run s Hwf Hl Hmax) as (s' & H1 & H2 & _ & H3 & H4 & H5 & H6).
  exists s'. split_and!; try done. rewrite H1. f_equal. symmetry. apply Hwf.
Qed.

Definition sem_two : Semaphore :=
  mkSem false (-2) [1%nat; 0%nat] {[0%nat := mkWait false 7; 1%nat := mkWait false 8]} [].

Lemma post_all_sem_wakes_all_witness :
  ∃ s', post_all_sem sem_two = Ret 2 s' ∧ activated s' = [7%nat; 8%nat].
Proof.
  destruct (post_all_sem_wakes_all sem_two) as (s' & H1 & _ & _ & _ & _ & H2).
  - rewrite /sem_wf /INT_MIN /INT_MAX. split_and!; try (simpl; lia).
    + repeat constructor; set_solver.
    + intros w d Hw. simpl in *. destruct (decide (w = 0%nat)) as [->|].
      { rewrite lookup_insert_eq in Hw. injection Hw as <-. split; [done|]. intros _. right. left. }
      rewrite lookup_insert_ne in Hw; [congruence|].
      apply lookup_singleton_Some in Hw as [<- <-]. split; [done|]. intros _. left.
    + intros w Hw. simpl in *. apply elem_of_cons in Hw as [->|Hw]; [by eexists|].
      apply elem_of_cons in Hw as [->|Hw]; [by eexists|]. by apply elem_of_nil in Hw.
  - reflexivity.
  - rewrite /INT_MAX /=. lia.
  - exists s'. split; [exact H1|exact H2].
Defined.
