(* ===== verification/Mem.v ===== *)
(** * Mem: the page allocator and the small-object allocator, [kernel/mem.c]

    The queues of free pages and of free blocks are stacks ([Lists.v] shows that
    [add_to_queue] and [fetch_from_queue], used by one thread at a time, are push
    and pop); the links they keep inside free memory are not modelled again.
    [words] holds the 64-bit words [kalloc] writes in front of each block. *)

From stdpp Require Import base numbers list gmap.
From S2P Require Import Prelude Spinlock.

Definition PAGE_SIZE : Z := 4096.
Definition KSPACE_MASK : Z := 18446462598732840960.   (* 0xffff000000000000 *)
Definition K2P (addr : Z) : Z := u64 (addr - KSPACE_MASK).
Definition P2K (addr : Z) : Z := u64 (addr + KSPACE_MASK).
Definition PAGE_BASE (addr : Z) : Z := Z.land addr (Z.lnot (PAGE_SIZE - 1)).
Definition PHYSTOP : Z := 1056964608.                  (* 0x3f000000 *)
Definition MIN_BLOCK_SIZE : Z := 8.
Definition MIN_BLOCK_ORDER : Z := 3.
Definition MAX_ORDER : Z := PAGE_SIZE / MIN_BLOCK_SIZE.

Record page := mkPage { ref : RefCount; ref_lock : SpinLock }.

Record mstate := mkMem {
  pages : list Z;
  free_mem : list (list Z);
  pages_ref : gmap Z page;
  words : gmap Z Z;
  alloc_page_cnt : RefCount;
  _left_page_cnt : RefCount;
  mem_list_lock : SpinLock;
  kend : Z }.                        (* the linker symbol [end] *)

Definition set_pages p (s : mstate) := mkMem p (free_mem s) (pages_ref s) (words s) (alloc_page_cnt s) (_left_page_cnt s) (mem_list_lock s) (kend s).
Definition set_free_mem f (s : mstate) := mkMem (pages s) f (pages_ref s) (words s) (alloc_page_cnt s) (_left_page_cnt s) (mem_list_lock s) (kend s).
Definition set_pages_ref r (s : mstate) := mkMem (pages s) (free_mem s) r (words s) (alloc_page_cnt s) (_left_page_cnt s) (mem_list_lock s) (kend s).
Definition set_words w (s : mstate) := mkMem (pages s) (free_mem s) (pages_ref s) w (alloc_page_cnt s) (_left_page_cnt s) (mem_list_lock s) (kend s).
Definition set_alloc_cnt c (s : mstate) := mkMem (pages s) (free_mem s) (pages_ref s) (words s) c (_left_page_cnt s) (mem_list_lock s) (kend s).
Definition set_left_cnt c (s : mstate) := mkMem (pages s) (free_mem s) (pages_ref s) (words s) (alloc_page_cnt s) c (mem_list_lock s) (kend s).
Definition mem_lock : Lens mstate SpinLock :=
  mkLens mem_list_lock (λ l s, mkMem (pages s) (free_mem s) (pages_ref s) (words s) (alloc_page_cnt s) (_left_page_cnt s) l (kend s)).

(** Only pages from this address on are given back. *)
Definition first_page (s : mstate) : Z := PAGE_BASE (kend s) + PAGE_SIZE.

(** [define_early_init(pages)]: the loop, from page [p] on. *)
Fixpoint init_pages_loop (n : nat) (p top : Z) : M mstate () :=
  match n with
  | O => mret ()
  | S n =>
      if p <? top then
        modify (λ s, set_pages (p :: pages s) s);;
        modify (λ s, set_left_cnt (_increment_rc (_left_page_cnt s)) s);;
        init_pages_loop n (p + PAGE_SIZE) top
      else mret ()
  end.
(** [sizeof(struct page)] is 16. *)
Definition PAGES_REF_SIZE : Z := 16 * (PHYSTOP / PAGE_SIZE).
Definition init_pages : M mstate () :=
  s ← get;
  modify (set_left_cnt init_rc);;
  init_pages_loop (Z.to_nat (PHYSTOP / PAGE_SIZE)) (first_page s) (P2K PHYSTOP - PAGES_REF_SIZE).

Definition page_num_of (ka : Z) : Z := K2P ka / PAGE_SIZE.

Definition kalloc_page : M mstate Z :=
  modify (λ s, set_alloc_cnt (_increment_rc (alloc_page_cnt s)) s);;
  modify (λ s, set_left_cnt (_decrement_rc (_left_page_cnt s)).2 s);;
  ps ← gets pages;
  ret ← (match ps with [] => mret 0 | p :: ps => modify (set_pages ps);; mret p end);
  refs ← gets pages_ref;
  _ ← of_opt (refs !! page_num_of ret);
  modify (set_pages_ref (<[page_num_of ret := mkPage (mkRC 0) init_spinlock]> refs));;
  mret ret.

Definition ref_lens (n : Z) : Lens mstate SpinLock :=
  mkLens (λ s, default false (ref_lock <$> pages_ref s !! n))
    (λ l s, set_pages_ref (alter (λ p, mkPage (ref p) l) n (pages_ref s)) s).

Definition kfree_page (p : Z) : M mstate () :=
  s ← get;
  if p <? first_page s then mret ()
  else
    modify (set_alloc_cnt (_decrement_rc (alloc_page_cnt s)).2);;
    _ ← of_opt (pages_ref s !! page_num_of p);
    _acquire_spinlock (ref_lens (page_num_of p));;
    modify (λ s, set_pages_ref (alter (λ q, mkPage (_decrement_rc (ref q)).2 (ref_lock q)) (page_num_of p) (pages_ref s)) s);;
    refs ← gets pages_ref;
    q ← of_opt (refs !! page_num_of p);
    (if count (ref q) <=? 0 then
       modify (λ s, set_pages (p :: pages s) s);;
       modify (λ s, set_left_cnt (_increment_rc (_left_page_cnt s)) s)
     else mret ());;
    release_spinlock (ref_lens (page_num_of p)).

Definition __get_idx (sz : Z) : Z :=
  let idx := i32 (Z.shiftr sz MIN_BLOCK_ORDER) in
  if sz =? idx * MIN_BLOCK_SIZE then idx - 1 else idx.

(** [add_to_queue(&free_mem[idx], dst)] and [fetch_from_queue(&free_mem[idx])] *)
Definition push_free (idx dst : Z) : M mstate () :=
  fm ← gets free_mem;
  if idx <? 0 then fault
  else l ← of_opt (fm !! Z.to_nat idx); modify (set_free_mem (<[Z.to_nat idx := dst :: l]> fm)).
Definition pop_free (idx : Z) : M mstate Z :=
  fm ← gets free_mem;
  if idx <? 0 then fault
  else
    l ← of_opt (fm !! Z.to_nat idx);
    match l with
    | [] => mret 0
    | a :: l => modify (set_free_mem (<[Z.to_nat idx := l]> fm));; mret a
    end.

(** [while(idx < MAX_ORDER && free_mem[idx] == NULL) ++idx;] *)
Fixpoint find_order (fuel : nat) (fm : list (list Z)) (idx : Z) : option Z :=
  if idx <? MAX_ORDER then
    match fuel with
    | O => None
    | S fuel =>
        if idx <? 0 then None
        else l ← fm !! Z.to_nat idx;
             match l with [] => find_order fuel fm (idx + 1) | _ => Some idx end
    end
  else Some idx.

Definition kalloc (size : Z) : M mstate Z :=
  let size := size + 8 in
  let idx := __get_idx size in
  let size := (idx + 1) * MIN_BLOCK_SIZE in
  let pos := idx in
  _acquire_spinlock mem_lock;;
  fm ← gets free_mem;
  idx ← of_opt (find_order (Z.to_nat MAX_ORDER) fm idx);
  ret ← (if idx =? MAX_ORDER then
      new_page ← kalloc_page;
      (if size <? PAGE_SIZE then push_free ((PAGE_SIZE - size) / MIN_BLOCK_SIZE - 1) (new_page + size)
       else mret ());;
      modify (λ s, set_words (<[new_page := pos]> (words s)) s);;
      mret (new_page + 8)
    else
      new_addr ← pop_free idx;
      let rest := (idx + 1) * MIN_BLOCK_SIZE - size in
      (if negb (rest =? 0) then push_free (rest / MIN_BLOCK_SIZE - 1) (new_addr + size) else mret ());;
      modify (λ s, set_words (<[new_addr := pos]> (words s)) s);;
      mret (new_addr + 8));
  release_spinlock mem_lock;;
  mret ret.

Definition kfree (p : Z) : M mstate () :=
  let p := p - 8 in
  ws ← gets words;
  idx ← of_opt (ws !! p);
  if i32 idx =? MAX_ORDER - 1 then kfree_page p else push_free (i32 idx) p.

Definition left_page_cnt : M mstate Z := gets (λ s, u64 (count (_left_page_cnt s))).

(** ** Regions of memory, as 8-byte words *)
(** A region [(a, i)] has the [i + 1] words from [a]; a page is [(p, 511)]. *)
Notation region := (Z * Z)%type (only parsing).
Definition words_of (r : region) : list Z := (λ i, r.1 + 8 * i) <$> seqZ 0 (r.2 + 1).
Definition page_region (p : Z) : region := (p, 511).

Fixpoint free_from (k : Z) (fm : list (list Z)) : list region :=
  match fm with
  | [] => []
  | l :: fm => ((λ a, (a, k)) <$> l) ++ free_from (k + 1) fm
  end.

(** Every region there is: free pages, free blocks, and what is in use: blocks
    of [kalloc] ([lb]) and pages of [kalloc_page] ([lp]). *)
Definition regions (s : mstate) (lb : list region) (lp : list Z) : list region :=
  (page_region <$> pages s) ++ free_from 0 (free_mem s) ++ lb ++ (page_region <$> lp).
Definition all_words (s : mstate) lb lp : list Z := regions s lb lp ≫= words_of.

Lemma elem_words_of a i x : x ∈ words_of (a, i) ↔ ∃ k, 0 ≤ k ≤ i ∧ x = a + 8 * k.
Proof.
  rewrite /words_of list_elem_of_fmap. simpl. split.
  - intros (k & -> & Hk%elem_of_seqZ). exists k. split; [lia|done].
  - intros (k & Hk & ->). exists k. split; [done|]. apply elem_of_seqZ. lia.
Qed.

Lemma words_split a pos i :
  0 ≤ pos < i → words_of (a, i) = words_of (a, pos) ++ words_of (a + 8 * (pos + 1), i - pos - 1).
Proof.
  intros H. rewrite /words_of /=.
  rewrite (_ : i + 1 = (pos + 1) + (i - pos - 1 + 1)); [lia|].
  rewrite seqZ_app; [lia|lia|]. rewrite fmap_app. f_equal.
  replace (0 + (pos + 1)) with (pos + 1 + 0) by lia. rewrite -(fmap_add_seqZ (pos + 1) 0 (i - pos - 1 + 1)) -list_fmap_compose.
  apply list_fmap_ext. intros k x _. simpl. lia.
Qed.

Lemma free_from_insert fm : ∀ k i l l',
  fm !! i = Some l →
  free_from k (<[i := l']> fm) ++ ((λ a, (a, k + Z.of_nat i)) <$> l)
  ≡ₚ free_from k fm ++ ((λ a, (a, k + Z.of_nat i)) <$> l').
Proof.
  induction fm as [|l0 fm IH]; intros k i l l' Hi; [done|]. destruct i as [|i]; simpl in *.
  - injection Hi as ->. rewrite Z.add_0_r. rewrite -!app_assoc.
    rewrite (Permutation_app_comm (free_from (k + 1) fm) _).
    rewrite (Permutation_app_comm (free_from (k + 1) fm) ((λ a, (a, k)) <$> l')).
    by rewrite !app_assoc (Permutation_app_comm ((λ a, (a, k)) <$> l')).
  - rewrite -!app_assoc. apply Permutation_app; [done|].
    specialize (IH (k + 1) i l l' Hi).
    replace (k + 1 + Z.of_nat i) with (k + Z.of_nat (S i)) in IH by lia.
    simpl in IH. exact IH.
Qed.

Lemma free_from_push fm i a l :
  fm !! i = Some l → free_from 0 (<[i := a :: l]> fm) ≡ₚ (a, Z.of_nat i) :: free_from 0 fm.
Proof.
  intros Hi. pose proof (free_from_insert fm 0 i l (a :: l) Hi) as H. simpl in H.
  rewrite (Permutation_app_comm (free_from 0 fm)) /= in H.
  rewrite (Permutation_app_comm (_ <$> l) (free_from 0 fm)) app_comm_cons in H.
  by apply Permutation_app_inv_r in H.
Qed.

Lemma free_from_pop fm i a l :
  fm !! i = Some (a :: l) → free_from 0 fm ≡ₚ (a, Z.of_nat i) :: free_from 0 (<[i := l]> fm).
Proof.
  intros Hi. rewrite -(free_from_push (<[i := l]> fm) i a l).
  - apply list_lookup_insert_eq. exact (lookup_lt_Some _ _ _ Hi).
  - by rewrite list_insert_insert_eq list_insert_id.
Qed.

Lemma bind_words_perm (l l' : list region) : l ≡ₚ l' → l ≫= words_of ≡ₚ l' ≫= words_of.
Proof. by intros ->. Qed.

(** ** The invariant *)
(** A page the allocator manages, with its reference count. *)
Definition page_ok (s : mstate) (p : Z) (P : page → Prop) : Prop :=
  p mod PAGE_SIZE = 0 ∧ first_page s ≤ p ∧ KSPACE_MASK ≤ p < 2 ^ 64 ∧
  ∃ pg, pages_ref s !! page_num_of p = Some pg ∧ P pg.

(** in use, by whom is counted *)
Definition in_use (pg : page) : Prop := ref_lock pg = false.
(** in use as one block of [kalloc], not mapped anywhere *)
Definition in_use_block (pg : page) : Prop := ref_lock pg = false ∧ count (ref pg) = 0.

Definition mem_inv (s : mstate) (lb : list region) (lp : list Z) : Prop :=
  length (free_mem s) = 512%nat ∧ free_mem s !! 511%nat = Some [] ∧ mem_list_lock s = false ∧
  NoDup (all_words s lb lp) ∧
  Forall (λ p, page_ok s p (λ _, True)) (pages s) ∧
  Forall (λ p, page_ok s p in_use) lp ∧
  Forall (λ r, 0 ≤ r.2 < 512 ∧ words s !! r.1 = Some r.2 ∧
               (r.2 = 511 → page_ok s r.1 in_use_block)) lb ∧
  pages_ref s !! page_num_of 0 = None.

Lemma page_num_inj s p q P Q :
  page_ok s p P → page_ok s q Q → page_num_of p = page_num_of q → p = q.
Proof.
  intros (Hp & _ & Hpr & _) (Hq & _ & Hqr & _).
  rewrite /page_num_of /K2P /u64 /PAGE_SIZE. rewrite /PAGE_SIZE in Hp, Hq. rewrite /KSPACE_MASK in Hpr, Hqr |- *.
  rewrite (wrap_small 64 (p - _)); [lia|]. rewrite (wrap_small 64 (q - _)); [lia|]. intros. dlia.
Qed.

(** Two regions of a list without repeated words start at different addresses. *)
Lemma regions_distinct (r : region) rs r' :
  NoDup ((r :: rs) ≫= words_of) → 0 ≤ r.2 → 0 ≤ r'.2 → r' ∈ rs → r'.1 ≠ r.1.
Proof.
  intros Hnd H1 H2 Hin E. rewrite bind_cons in Hnd. apply NoDup_app in Hnd as (_ & Hd & _).
  apply (Hd r.1).
  - destruct r as [a i]. apply elem_words_of. exists 0. simpl in *. split; [lia|lia].
  - apply list_elem_of_bind. exists r'. split; [|done].
    destruct r' as [a' i']. apply elem_words_of. exists 0. simpl in *. split; [lia|lia].
Qed.

Lemma kalloc_page_run s p ps pg :
  pages s = p :: ps → pages_ref s !! page_num_of p = Some pg →
  kalloc_page s = Ret p (mkMem ps (free_mem s) (<[page_num_of p := mkPage (mkRC 0) false]> (pages_ref s))
                           (words s) (_increment_rc (alloc_page_cnt s)) (_decrement_rc (_left_page_cnt s)).2
                           (mem_list_lock s) (kend s)).
Proof.
  intros Hp Hr. rewrite /kalloc_page. do 2 (erewrite bind_run; [|reflexivity]).
  erewrite bind_run; [|reflexivity]. simpl pages. rewrite Hp.
  erewrite bind_run; [|reflexivity]. erewrite bind_run; [|reflexivity].
  erewrite bind_run; [|apply of_opt_run; exact Hr]. done.
Qed.

Lemma kfree_page_run s p pg :
  first_page s ≤ p → pages_ref s !! page_num_of p = Some pg → ref_lock pg = false →
  kfree_page p s =
    let pg' := mkPage (_decrement_rc (ref pg)).2 false in
    let freed := count (ref pg') <=? 0 in
    Ret () (mkMem (if freed then p :: pages s else pages s) (free_mem s)
              (<[page_num_of p := pg']> (pages_ref s)) (words s) (_decrement_rc (alloc_page_cnt s)).2
              (if freed then _increment_rc (_left_page_cnt s) else _left_page_cnt s)
              (mem_list_lock s) (kend s)).
Proof.
  intros Hp Hr Hl. set (n := page_num_of p) in *. rewrite /kfree_page.
  erewrite bind_run; [|reflexivity]. rewrite (proj2 (Z.ltb_ge _ _)); [done|].
  erewrite bind_run; [|reflexivity]. erewrite bind_run; [|apply of_opt_run; exact Hr].
  rewrite (bind_run _ _ _ () (lset (ref_lens n) true (set_alloc_cnt (_decrement_rc (alloc_page_cnt s)).2 s))).
  { rewrite acquire_run. by rewrite /= Hr /= Hl. }
  erewrite bind_run; [|reflexivity]. erewrite bind_run; [|reflexivity].
  simpl pages_ref. erewrite bind_run; last first.
  { apply of_opt_run. rewrite lookup_alter_eq lookup_alter_eq Hr. reflexivity. }
  simpl ref. cbv zeta. simpl ref. destruct pg as [rc lk]. simpl ref in *. simpl ref_lock in *. subst lk.
  assert (Hmap : ∀ f g h : page → page, alter h n (alter g n (alter f n (pages_ref s)))
                 = <[n := h (g (f (mkPage rc false)))]> (pages_ref s)).
  { intros f g h. apply map_eq. intros i. destruct (decide (i = n)) as [->|Hi].
    - by rewrite !lookup_alter_eq lookup_insert_eq Hr.
    - rewrite !lookup_alter_ne; [congruence..|]. rewrite lookup_insert_ne //. congruence. }
  change (count {| count := i64 (count rc - 1) |}) with (count (_decrement_rc rc).2).
  destruct (count (_decrement_rc rc).2 <=? 0).
  - erewrite bind_run; last first. { reflexivity. }
    rewrite release_run. f_equal. rewrite /set_left_cnt /set_pages /set_pages_ref /set_alloc_cnt /=.
    f_equal. by rewrite Hmap.
  - erewrite bind_run; [|reflexivity]. rewrite release_run. f_equal.
    rewrite /set_pages_ref /set_alloc_cnt /=. f_equal. by rewrite Hmap.
Qed.

Lemma push_free_run s i a l :
  free_mem s !! i = Some l → push_free (Z.of_nat i) a s = Ret () (set_free_mem (<[i := a :: l]> (free_mem s)) s).
Proof.
  intros Hi. rewrite /push_free. erewrite bind_run; [|reflexivity].
  rewrite (proj2 (Z.ltb_ge _ _)); [lia|]. rewrite Nat2Z.id. by erewrite bind_run; [|exact (of_opt_run _ _ _ Hi)].
Qed.

Lemma pop_free_run s i a l :
  free_mem s !! i = Some (a :: l) → pop_free (Z.of_nat i) s = Ret a (set_free_mem (<[i := l]> (free_mem s)) s).
Proof.
  intros Hi. rewrite /pop_free. erewrite bind_run; [|reflexivity].
  rewrite (proj2 (Z.ltb_ge _ _)); [lia|]. rewrite Nat2Z.id. by erewrite bind_run; [|exact (of_opt_run _ _ _ Hi)].
Qed.

Lemma find_order_spec fuel fm : ∀ idx,
  length fm = 512%nat → 0 ≤ idx ≤ 512 → 512 - idx ≤ Z.of_nat fuel →
  ∃ j, find_order fuel fm idx = Some j ∧ idx ≤ j ≤ 512 ∧
    (∀ k, idx ≤ k < j → fm !! Z.to_nat k = Some []) ∧
    (j < 512 → ∃ a l, fm !! Z.to_nat j = Some (a :: l)).
Proof.
  induction fuel as [|fuel IH]; intros idx Hlen Hi Hf.
  - exists 512. assert (idx = 512) as -> by lia. split_and!; try done; try lia.
  - cbn [find_order]. change MAX_ORDER with 512. destruct (Z.ltb_spec idx 512).
    + rewrite (proj2 (Z.ltb_ge _ _)); [lia|].
      destruct (list_lookup_Z_Some fm idx) as [l Hl]; [lia|]. rewrite Hl /=. destruct l as [|a l].
      * destruct (IH (idx + 1)) as (j & Hj & Hb & Hk & Hex); [done|lia|lia|].
        exists j. split_and!; try done; try lia. intros k Hk'.
        destruct (decide (k = idx)) as [->|]; [done|]. apply Hk. lia.
      * exists idx. split_and!; try done; try lia. eauto.
    + exists idx. split_and!; try done; try lia.
Qed.

Lemma get_idx_spec n : 0 ≤ n ≤ 4088 →
  let pos := __get_idx (n + 8) in 0 ≤ pos < 512 ∧ n + 8 ≤ (pos + 1) * 8 ∧ (pos + 1) * 8 < n + 16.
Proof.
  intros Hn pos. assert (Hp : pos = (n + 7) / 8).
  { subst pos. rewrite /__get_idx /MIN_BLOCK_ORDER /MIN_BLOCK_SIZE Z.shiftr_div_pow2; [lia|].
    change (2 ^ 3) with 8. rewrite /i32 /swrap Z.mod_small; [dlia|].
    rewrite (_ : (n + 8) / 8 + 2 ^ (32 - 1) - 2 ^ (32 - 1) = (n + 8) / 8); [lia|].
    destruct (Z.eqb_spec (n + 8) ((n + 8) / 8 * 8)); dlia. }
  rewrite Hp. dlia.
Qed.

(** The part of the invariant about pages, when only queues and words change. *)
Lemma page_ok_frame s s' p P :
  pages_ref s' = pages_ref s → kend s' = kend s → page_ok s p P → page_ok s' p P.
Proof. rewrite /page_ok /first_page. by intros -> ->. Qed.

Lemma all_words_perm s s' lb lb' lp lp' :
  regions s lb lp ≡ₚ regions s' lb' lp' → all_words s lb lp ≡ₚ all_words s' lb' lp'.
Proof. apply bind_words_perm. Qed.

(** Splitting a region [(a, i)] into a block [(a, pos)] and the rest. *)
Lemma split_perm a pos i (rs : list region) :
  0 ≤ pos < i →
  ((a, i) :: rs) ≫= words_of = ((a, pos) :: (a + 8 * (pos + 1), i - pos - 1) :: rs) ≫= words_of.
Proof. intros H. rewrite !bind_cons (words_split a pos i) // -app_assoc //. Qed.

Lemma lb_fresh s lb lp a pos :
  NoDup (((a, pos) :: regions s lb lp) ≫= words_of) → 0 ≤ pos →
  Forall (λ r : region, 0 ≤ r.2 < 512) lb → Forall (λ r : region, r.1 ≠ a) lb.
Proof.
  intros Hnd Hpos Hlb. apply Forall_forall. intros r Hr. rewrite Forall_forall in Hlb.
  specialize (Hlb r Hr). apply (regions_distinct _ _ r Hnd); [simpl; lia|simpl in *; lia|].
  rewrite /regions !elem_of_app. auto.
Qed.

(** What a [kalloc] of [n] bytes has done. *)
Definition kalloc_post (n : Z) (s : mstate) lb lp (r : Z) (s' : mstate) : Prop :=
  ∃ a pos, r = a + 8 ∧ 0 ≤ pos ∧ n + 8 ≤ 8 * (pos + 1) < n + 16 ∧
    mem_inv s' ((a, pos) :: lb) lp ∧ all_words s' ((a, pos) :: lb) lp ≡ₚ all_words s lb lp.

(** ** Moving one region between the parts *)
Lemma regions_pop s lb lp i a l :
  free_mem s !! i = Some (a :: l) →
  regions s lb lp ≡ₚ (a, Z.of_nat i) :: regions (set_free_mem (<[i := l]> (free_mem s)) s) lb lp.
Proof.
  intros Hi. rewrite /regions /=. rewrite (free_from_pop _ _ _ _ Hi) /=. symmetry. apply Permutation_middle.
Qed.
Lemma regions_push s lb lp i a l :
  free_mem s !! i = Some l →
  regions (set_free_mem (<[i := a :: l]> (free_mem s)) s) lb lp ≡ₚ (a, Z.of_nat i) :: regions s lb lp.
Proof.
  intros Hi. rewrite /regions /=. rewrite (free_from_push _ _ _ _ Hi) /=. symmetry. apply Permutation_middle.
Qed.
Lemma regions_lb s r lb lp : regions s (r :: lb) lp ≡ₚ r :: regions s lb lp.
Proof. rewrite /regions /= !app_assoc. symmetry. rewrite -app_assoc. apply Permutation_middle. Qed.
Lemma regions_lp s lb p lp : regions s lb (p :: lp) ≡ₚ page_region p :: regions s lb lp.
Proof. rewrite /regions /= !app_assoc. symmetry. apply Permutation_middle. Qed.
Lemma regions_page s lb lp p ps :
  pages s = p :: ps → regions s lb lp ≡ₚ page_region p :: regions (set_pages ps s) lb lp.
Proof. intros Hp. by rewrite /regions /= Hp. Qed.
Lemma regions_fields s s' lb lp :
  pages s' = pages s → free_mem s' = free_mem s → regions s' lb lp = regions s lb lp.
Proof. rewrite /regions. by intros -> ->. Qed.

(** The invariant after a region became the block [(a, pos)]. *)
Lemma inv_alloc s s' lb lp a pos :
  mem_inv s lb lp →
  length (free_mem s') = 512%nat → free_mem s' !! 511%nat = Some [] → mem_list_lock s' = false →
  words s' = <[a := pos]> (words s) → 0 ≤ pos < 512 →
  all_words s' ((a, pos) :: lb) lp ≡ₚ all_words s lb lp →
  (∀ q, q ∈ pages s' → q ∈ pages s) →
  (∀ q P, q ∈ pages s' ∨ q ∈ lp ∨ (q, 511) ∈ lb → page_ok s q P → page_ok s' q P) →
  (pos = 511 → page_ok s' a in_use_block) →
  pages_ref s' !! page_num_of 0 = None →
  mem_inv s' ((a, pos) :: lb) lp.
Proof.
  intros (_ & _ & _ & Hnd & Hps & Hlp & Hlb & _) H1 H2 H3 Hw Hpos Hperm Hsub Hok Hnew H0.
  assert (Hnd' : NoDup (all_words s' ((a, pos) :: lb) lp)) by by rewrite Hperm.
  rewrite Forall_forall in Hps. rewrite Forall_forall in Hlp.
  split_and!; try done.
  - apply Forall_forall. intros q Hq. apply Hok; auto.
  - apply Forall_forall. intros q Hq. apply Hok; auto.
  - constructor.
    + simpl. rewrite Hw lookup_insert_eq. done.
    + assert (Hfresh : Forall (λ r : region, r.1 ≠ a) lb).
      { apply (lb_fresh s' lb lp a pos); [|lia|eapply Forall_impl; [exact Hlb|naive_solver]].
        rewrite -(bind_words_perm _ _ (regions_lb s' (a, pos) lb lp)). exact Hnd'. }
      rewrite Forall_forall in Hfresh. rewrite Forall_forall in Hlb. apply Forall_forall.
      intros [b k] Hr. destruct (Hlb _ Hr) as (? & ? & Hp). simpl in *. split_and!; try lia.
      * rewrite Hw lookup_insert_ne //. specialize (Hfresh _ Hr). simpl in Hfresh. congruence.
      * intros ->. apply Hok; [by right; right|]. by apply Hp.
Qed.

Lemma all_words_split s' lb lp a pos i rs :
  0 ≤ pos ≤ i → i < 512 →
  regions s' ((a, pos) :: lb) lp ≡ₚ
    (a, pos) :: (if decide (pos = i) then [] else [(a + 8 * (pos + 1), i - pos - 1)]) ++ rs →
  all_words s' ((a, pos) :: lb) lp ≡ₚ ((a, i) :: rs) ≫= words_of.
Proof.
  intros Hpos Hi H. rewrite /all_words (bind_words_perm _ _ H). case_decide as E.
  - by subst.
  - by rewrite (split_perm a pos i rs) //; lia.
Qed.

Lemma kalloc_block s lb lp n j a l :
  mem_inv s lb lp → 0 ≤ n ≤ 4088 → __get_idx (n + 8) ≤ Z.of_nat j → (j < 512)%nat →
  find_order (Z.to_nat MAX_ORDER) (free_mem s) (__get_idx (n + 8)) = Some (Z.of_nat j) →
  free_mem s !! j = Some (a :: l) →
  ∃ r s', kalloc n s = Ret r s' ∧ kalloc_post n s lb lp r s'.
Proof.
  intros Hinv Hn Hle Hj Hfind Hl. destruct (get_idx_spec n Hn) as (Hpos & Hsz & Hsz').
  set (pos := __get_idx (n + 8)) in *. pose proof Hinv as (Hlen & H511 & Hlock & _).
  assert (Hj' : j ≠ 511%nat) by (intros ->; congruence).
  set (fm1 := <[j := l]> (free_mem s)). set (size := (pos + 1) * MIN_BLOCK_SIZE).
  assert (Hsize : size = 8 * (pos + 1)) by (rewrite /size /MIN_BLOCK_SIZE; lia).
  set (i2 := Z.to_nat (Z.of_nat j - pos - 1)).
  assert (Hex : ∃ fm2, (if negb ((Z.of_nat j + 1) * MIN_BLOCK_SIZE - size =? 0)
      then push_free (((Z.of_nat j + 1) * MIN_BLOCK_SIZE - size) / MIN_BLOCK_SIZE - 1) (a + size) else mret ())
      (set_free_mem fm1 (lset mem_lock true s)) = Ret () (set_free_mem fm2 (lset mem_lock true s)) ∧
      length fm2 = 512%nat ∧ fm2 !! 511%nat = Some [] ∧
      regions (set_free_mem fm2 s) lb lp ≡ₚ
        (if decide (pos = Z.of_nat j) then [] else [(a + 8 * (pos + 1), Z.of_nat j - pos - 1)]) ++
        regions (set_free_mem fm1 s) lb lp).
  { rewrite Hsize /MIN_BLOCK_SIZE. case_decide as E.
    - exists fm1. rewrite (proj2 (Z.eqb_eq _ 0)); [lia|]. split_and!; try done.
      + by rewrite length_insert.
      + by rewrite list_lookup_insert_ne.
    - rewrite (proj2 (Z.eqb_neq _ 0)); [lia|].
      destruct (lookup_lt_is_Some_2 fm1 i2) as [l2 Hl2]; [rewrite length_insert Hlen /i2; lia|].
      exists (<[i2 := (a + size) :: l2]> fm1). split_and!.
      + cbn [negb]. replace (((Z.of_nat j + 1) * 8 - 8 * (pos + 1)) / 8 - 1) with (Z.of_nat i2); last first.
        { rewrite (_ : (Z.of_nat j + 1) * 8 - 8 * (pos + 1) = (Z.of_nat j - pos) * 8); [lia|].
          rewrite Z.div_mul; [lia|]. rewrite /i2. lia. }
        rewrite -Hsize. by rewrite (push_free_run (set_free_mem fm1 (lset mem_lock true s)) i2 _ l2).
      + by rewrite !length_insert.
      + rewrite list_lookup_insert_ne; [rewrite /i2; lia|]. by rewrite list_lookup_insert_ne.
      + rewrite (regions_push (set_free_mem fm1 s) lb lp i2 (a + size) l2 Hl2) Hsize.
        rewrite /i2 Z2Nat.id; [lia|]. done. }
  destruct Hex as (fm2 & Hrun2 & Hlen2 & H5112 & Hperm2).
  set (s' := set_words (<[a := pos]> (words s)) (set_free_mem fm2 s)).
  exists (a + 8), s'. split.
  - rewrite /kalloc. fold pos. fold size.
    rewrite (bind_run _ _ _ () (lset mem_lock true s)); [by rewrite acquire_run /= Hlock|].
    erewrite bind_run; [|reflexivity]. erewrite bind_run; [|exact (of_opt_run _ _ _ Hfind)].
    rewrite (proj2 (Z.eqb_neq _ _)); [change MAX_ORDER with 512; lia|].
    erewrite bind_run; last first.
    { erewrite bind_run; [|exact (pop_free_run (lset mem_lock true s) j a l Hl)].
      erewrite bind_run; [|exact Hrun2]. erewrite bind_run; [|reflexivity]. reflexivity. }
    rewrite (bind_run _ _ _ _ _ (release_run _ _)). rewrite /mret /M_ret. f_equal.
    rewrite /s'. clear -Hlock. destruct s. simpl in Hlock. by subst.
  - assert (Hw : all_words s' ((a, pos) :: lb) lp ≡ₚ all_words s lb lp).
    { rewrite (all_words_split s' lb lp a pos (Z.of_nat j) (regions (set_free_mem fm1 s) lb lp)); [lia|lia| |].
      - rewrite regions_lb (regions_fields (set_free_mem fm2 s) s') // Hperm2 //.
      - symmetry. apply bind_words_perm. exact (regions_pop s lb lp j a l Hl). }
    exists a, pos. split_and!; try lia; try done.
    apply (inv_alloc s); try done; [lia|]. apply Hinv.
Qed.

(** Replacing the entry of page [p] does not touch other pages. *)
Lemma page_ok_other s s' p q P Q pg :
  page_ok s p Q → kend s' = kend s → pages_ref s' = <[page_num_of p := pg]> (pages_ref s) →
  q ≠ p → page_ok s q P → page_ok s' q P.
Proof.
  intros Hp Hk Hr Hne Hq. pose proof Hq as (? & ? & ? & ?). rewrite /page_ok /first_page Hk Hr.
  split_and!; try done; try lia. rewrite lookup_insert_ne //. intros E. by apply Hne, (page_num_inj s _ _ P Q).
Qed.

Lemma page_ok_same s s' p Q pg (P : page → Prop) :
  page_ok s p Q → kend s' = kend s → pages_ref s' = <[page_num_of p := pg]> (pages_ref s) →
  P pg → page_ok s' p P.
Proof.
  intros (? & ? & ? & _) Hk Hr HP. rewrite /page_ok /first_page Hk Hr. split_and!; try done; try lia.
  exists pg. by rewrite lookup_insert_eq.
Qed.

(** A free page is none of the pages in use. *)
Lemma page_fresh s lb lp p ps q :
  mem_inv s lb lp → pages s = p :: ps → q ∈ ps ∨ q ∈ lp ∨ (q, 511) ∈ lb → q ≠ p.
Proof.
  intros (_ & _ & _ & Hnd & _) Hp Hq.
  rewrite /all_words (bind_words_perm _ _ (regions_page s lb lp p ps Hp)) in Hnd.
  apply (regions_distinct _ _ (page_region q) Hnd); simpl; [lia|lia|].
  rewrite /regions /= !elem_of_app.
  destruct Hq as [Hq|[Hq|Hq]]; [left|right; right; right|right; right; left]; try by apply list_elem_of_fmap_2.
  done.
Qed.

(** The null pointer has no page entry. *)
Lemma null_page_none s lb lp (p : Z) pg pg' :
  mem_inv s lb lp → pages_ref s !! page_num_of p = Some pg →
  <[page_num_of p := pg']> (pages_ref s) !! page_num_of 0 = None.
Proof. intros (_ & _ & _ & _ & _ & _ & _ & H0) Hp. rewrite lookup_insert_ne //. congruence. Qed.

Lemma find_order_512_not_page s lb lp n p ps :
  mem_inv s lb lp → 0 ≤ n ≤ 4088 →
  find_order (Z.to_nat MAX_ORDER) (free_mem s) (__get_idx (n + 8)) = Some 512 →
  pages s = p :: ps →
  ∃ r s', kalloc n s = Ret r s' ∧ kalloc_post n s lb lp r s'.
Proof.
  intros Hinv Hn Hfind Hp. destruct (get_idx_spec n Hn) as (Hpos & Hsz & Hsz').
  set (pos := __get_idx (n + 8)) in *. pose proof Hinv as (Hlen & H511 & Hlock & _ & Hps & _).
  rewrite Hp in Hps. apply Forall_cons in Hps as [Hpok _].
  pose proof Hpok as (_ & _ & _ & pg & Hpg & _).
  set (size := (pos + 1) * MIN_BLOCK_SIZE).
  assert (Hsize : size = 8 * (pos + 1)) by (rewrite /size /MIN_BLOCK_SIZE; lia).
  set (s1 := mkMem ps (free_mem s) (<[page_num_of p := mkPage (mkRC 0) false]> (pages_ref s)) (words s)
              (_increment_rc (alloc_page_cnt s)) (_decrement_rc (_left_page_cnt s)).2 false (kend s)).
  set (i2 := Z.to_nat (510 - pos)).
  assert (Hex : ∃ fm2, (if size <? PAGE_SIZE
      then push_free ((PAGE_SIZE - size) / MIN_BLOCK_SIZE - 1) (p + size) else mret ())
      (lset mem_lock true s1) = Ret () (set_free_mem fm2 (lset mem_lock true s1)) ∧
      length fm2 = 512%nat ∧ fm2 !! 511%nat = Some [] ∧
      regions (set_free_mem fm2 s1) lb lp ≡ₚ
        (if decide (pos = 511) then [] else [(p + 8 * (pos + 1), 511 - pos - 1)]) ++ regions s1 lb lp).
  { rewrite Hsize /MIN_BLOCK_SIZE /PAGE_SIZE. case_decide as E.
    - exists (free_mem s). rewrite (proj2 (Z.ltb_ge _ _)); [lia|]. split_and!; done.
    - rewrite (proj2 (Z.ltb_lt _ _)); [lia|].
      destruct (lookup_lt_is_Some_2 (free_mem s) i2) as [l2 Hl2]; [rewrite Hlen /i2; lia|].
      exists (<[i2 := (p + size) :: l2]> (free_mem s)). split_and!.
      + replace ((4096 - 8 * (pos + 1)) / 8 - 1) with (Z.of_nat i2); last first.
        { rewrite (_ : 4096 - 8 * (pos + 1) = (511 - pos) * 8); [lia|].
          rewrite Z.div_mul; [lia|]. rewrite /i2. lia. }
        rewrite -Hsize. by rewrite (push_free_run (lset mem_lock true s1) i2 _ l2).
      + by rewrite length_insert.
      + rewrite list_lookup_insert_ne //. rewrite /i2. lia.
      + rewrite (regions_push s1 lb lp i2 (p + size) l2 Hl2) Hsize.
        rewrite /i2 Z2Nat.id; [lia|]. by replace (511 - pos - 1) with (510 - pos) by lia. }
  destruct Hex as (fm2 & Hrun2 & Hlen2 & H5112 & Hperm2).
  set (s' := set_words (<[p := pos]> (words s1)) (set_free_mem fm2 s1)).
  exists (p + 8), s'. split.
  - rewrite /kalloc. fold pos. fold size.
    rewrite (bind_run _ _ _ () (lset mem_lock true s)); [by rewrite acquire_run /= Hlock|].
    erewrite bind_run; [|reflexivity]. erewrite bind_run; [|exact (of_opt_run _ _ _ Hfind)].
    change (512 =? MAX_ORDER) with true. cbv iota.
    erewrite bind_run; last first.
    { erewrite bind_run; [|exact (kalloc_page_run (lset mem_lock true s) p ps pg Hp Hpg)].
      erewrite bind_run; [|exact Hrun2]. erewrite bind_run; [|reflexivity]. reflexivity. }
    by rewrite (bind_run _ _ _ _ _ (release_run _ _)).
  - assert (Hw : all_words s' ((p, pos) :: lb) lp ≡ₚ all_words s lb lp).
    { rewrite (all_words_split s' lb lp p pos 511 (regions s1 lb lp)); [lia|lia| |].
      - rewrite regions_lb (regions_fields (set_free_mem fm2 s1) s') // Hperm2 //.
      - symmetry. apply bind_words_perm. exact (regions_page s lb lp p ps Hp). }
    exists p, pos. split_and!; try lia; try done.
    apply (inv_alloc s); try done.
    + rewrite Hp. simpl. intros q Hq. by right.
    + intros q P Hq. apply (page_ok_other s s' p q P _ (mkPage (mkRC 0) false) Hpok); try done.
      exact (page_fresh s lb lp p ps q Hinv Hp Hq).
    + intros _. by apply (page_ok_same s s' p _ (mkPage (mkRC 0) false) _ Hpok).
    + exact (null_page_none s lb lp p pg _ Hinv Hpg).
Qed.

(** [kalloc] either returns a block or finds no memory left, which is a fault on
    the null page. *)
Lemma kalloc_cases s lb lp n :
  mem_inv s lb lp → 0 ≤ n ≤ 4088 →
  (∃ r s', kalloc n s = Ret r s' ∧ kalloc_post n s lb lp r s') ∨ (pages s = [] ∧ kalloc n s = Fault).
Proof.
  intros Hinv Hn. destruct (get_idx_spec n Hn) as (Hpos & _ & _).
  destruct (find_order_spec (Z.to_nat MAX_ORDER) (free_mem s) (__get_idx (n + 8))) as (j & Hfind & Hj & _ & Hex);
    [apply Hinv|lia|change MAX_ORDER with 512; lia|].
  destruct (decide (j = 512)) as [->|Hne].
  - destruct (pages s) as [|p ps] eqn:E; [right|left; exact (find_order_512_not_page s lb lp n p ps Hinv Hn Hfind E)].
    split; [done|]. pose proof Hinv as (_ & _ & Hlock & _ & _ & _ & _ & H0).
    rewrite /kalloc. rewrite (bind_run _ _ _ () (lset mem_lock true s)); [by rewrite acquire_run /= Hlock|].
    erewrite bind_run; [|reflexivity]. erewrite bind_run; [|exact (of_opt_run _ _ _ Hfind)].
    change (512 =? MAX_ORDER) with true. cbv iota.
    rewrite {1}/mbind {1}/M_bind. rewrite {1}/mbind {1}/M_bind.
    assert (kalloc_page (lset mem_lock true s) = Fault) as ->; [|done].
    rewrite /kalloc_page. do 2 (erewrite bind_run; [|reflexivity]). erewrite bind_run; [|reflexivity].
    simpl pages. rewrite E. erewrite bind_run; [|reflexivity]. erewrite bind_run; [|reflexivity].
    rewrite /mbind /M_bind. simpl pages_ref. by rewrite H0.
  - left. destruct Hex as (a & l & Hl); [lia|]. apply (kalloc_block s lb lp n (Z.to_nat j) a l); try done; try lia.
    by rewrite Z2Nat.id; [lia|].
Qed.

(** ** Giving memory back *)
Lemma page_used_fresh s lb lp a q rs :
  mem_inv s lb lp → regions s lb lp ≡ₚ page_region a :: rs → page_region q ∈ rs → q ≠ a.
Proof.
  intros (_ & _ & _ & Hnd & _) Hp Hq. rewrite /all_words (bind_words_perm _ _ Hp) in Hnd.
  apply (regions_distinct _ _ (page_region q) Hnd); simpl; [lia|lia|done].
Qed.

(** The invariant after page [p], in use until now, is freed. *)
Lemma inv_free_page s s' lb lp lb' lp' p pg Q :
  mem_inv s lb lp → regions s lb lp ≡ₚ page_region p :: regions s lb' lp' → page_ok s p Q →
  lb' ⊆ lb → lp' ⊆ lp →
  pages s' = p :: pages s → free_mem s' = free_mem s → words s' = words s → mem_list_lock s' = false →
  kend s' = kend s → pages_ref s' = <[page_num_of p := pg]> (pages_ref s) → ref_lock pg = false →
  mem_inv s' lb' lp' ∧ all_words s' lb' lp' ≡ₚ all_words s lb lp.
Proof.
  intros Hinv Hreg Hp Hlb Hlp E1 E2 E3 E4 E5 E6 E7.
  assert (Hperm : all_words s' lb' lp' ≡ₚ all_words s lb lp).
  { apply bind_words_perm. rewrite Hreg. by rewrite /regions E1 E2. }
  assert (Hother : ∀ q P, page_region q ∈ regions s lb' lp' → page_ok s q P → page_ok s' q P).
  { intros q P Hq. apply (page_ok_other s s' p q P Q pg); try done.
    exact (page_used_fresh _ _ _ _ _ _ Hinv Hreg Hq). }
  pose proof Hinv as (H1 & H2 & H3 & Hnd & Hps & Hlps & Hlbs & H0).
  rewrite Forall_forall in Hps. rewrite Forall_forall in Hlps. rewrite Forall_forall in Hlbs.
  split; [|done]. rewrite /mem_inv E1 E2 E3 E4. split_and!; try done.
  - by rewrite Hperm.
  - constructor; [by apply (page_ok_same s s' p Q pg)|]. apply Forall_forall. intros q Hq.
    apply Hother; [|by apply Hps]. rewrite /regions !elem_of_app. left. by apply list_elem_of_fmap_2.
  - apply Forall_forall. intros q Hq. apply Hother; [|by apply Hlps, Hlp].
    rewrite /regions !elem_of_app. right; right; right. by apply list_elem_of_fmap_2.
  - apply Forall_forall. intros [b k] Hr. destruct (Hlbs (b, k)) as (? & ? & Hpg); [by apply Hlb|].
    split_and!; try done; try lia. simpl. intros ->. apply Hother; [|by apply Hpg].
    rewrite /regions !elem_of_app. by right; right; left.
  - rewrite E6. destruct Hp as (_ & _ & _ & pg0 & Hpg0 & _). exact (null_page_none s lb lp p pg0 _ Hinv Hpg0).
Qed.

Lemma mem_inv_perm s lb lb' lp lp' : lb ≡ₚ lb' → lp ≡ₚ lp' → mem_inv s lb lp → mem_inv s lb' lp'.
Proof.
  intros Hb Hp (H1 & H2 & H3 & H4 & H5 & H6 & H7 & H8).
  assert (Hr : regions s lb lp ≡ₚ regions s lb' lp') by by rewrite /regions Hb Hp.
  split_and!; try done.
  - by rewrite /all_words -(bind_words_perm _ _ Hr).
  - by rewrite -Hp.
  - by rewrite -Hb.
Qed.

Lemma kfree_spec s lb lp a pos :
  mem_inv s ((a, pos) :: lb) lp →
  ∃ s', kfree (a + 8) s = Ret () s' ∧ mem_inv s' lb lp ∧
        all_words s' lb lp ≡ₚ all_words s ((a, pos) :: lb) lp.
Proof.
  intros Hinv. pose proof Hinv as (Hlen & H511 & Hlock & Hnd & Hps & Hlps & Hlbs & H0).
  apply Forall_cons in Hlbs as [(Hpos & Hword & Hpage) Hlbs]. simpl in Hpos, Hword, Hpage.
  assert (Hi32 : i32 pos = pos) by (rewrite /i32 /swrap Z.mod_small; lia).
  rewrite /kfree. replace (a + 8 - 8) with a by lia. erewrite bind_run; [|reflexivity].
  erewrite bind_run; [|exact (of_opt_run _ _ _ Hword)]. rewrite Hi32. change (MAX_ORDER - 1) with 511.
  destruct (Z.eqb_spec pos 511) as [->|Hne].
  - destruct (Hpage eq_refl) as (Hal & Hfirst & Hrng & pg & Hpg & [Hl Hc]).
    rewrite (kfree_page_run s a pg Hfirst Hpg Hl). cbv zeta.
    set (pg' := mkPage (_decrement_rc (ref pg)).2 false).
    assert (Hcnt : count (ref pg') <=? 0 = true) by (rewrite /pg' /= Hc; done).
    rewrite Hcnt. eexists. split; [reflexivity|].
    apply (inv_free_page s _ ((a, 511) :: lb) lp lb lp a pg' in_use_block); try done.
    + apply regions_lb.
    + by apply Hpage.
    + set_solver.
  - destruct (list_lookup_Z_Some (free_mem s) pos) as [l Hl]; [lia|].
    rewrite -{1}(Z2Nat.id pos); [lia|]. rewrite (push_free_run s _ a l Hl).
    eexists. split; [reflexivity|].
    assert (Hperm : all_words (set_free_mem (<[Z.to_nat pos := a :: l]> (free_mem s)) s) lb lp
                    ≡ₚ all_words s ((a, pos) :: lb) lp).
    { apply bind_words_perm. rewrite (regions_push s lb lp _ a l Hl) regions_lb Z2Nat.id //. lia. }
    split; [|done]. split_and!; try done; simpl.
    + by rewrite length_insert.
    + rewrite list_lookup_insert_ne //. lia.
    + by rewrite Hperm.
Qed.

Lemma kalloc_page_spec s lb lp p ps :
  mem_inv s lb lp → pages s = p :: ps →
  ∃ s', kalloc_page s = Ret p s' ∧ mem_inv s' lb (p :: lp) ∧ all_words s' lb (p :: lp) ≡ₚ all_words s lb lp.
Proof.
  intros Hinv Hp. pose proof Hinv as (Hlen & H511 & Hlock & Hnd & Hps & Hlps & Hlbs & H0).
  rewrite Hp in Hps. apply Forall_cons in Hps as [Hpok Hps]. pose proof Hpok as (_ & _ & _ & pg & Hpg & _).
  rewrite (kalloc_page_run s p ps pg Hp Hpg). eexists. split; [reflexivity|].
  set (s' := mkMem _ _ _ _ _ _ _ _).
  assert (Hperm : all_words s' lb (p :: lp) ≡ₚ all_words s lb lp).
  { apply bind_words_perm. rewrite regions_lp (regions_page s lb lp p ps Hp). done. }
  assert (Hother : ∀ q P, q ∈ ps ∨ q ∈ lp ∨ (q, 511) ∈ lb → page_ok s q P → page_ok s' q P).
  { intros q P Hq. apply (page_ok_other s s' p q P _ (mkPage (mkRC 0) false) Hpok); try done.
    exact (page_fresh s lb lp p ps q Hinv Hp Hq). }
  rewrite Forall_forall in Hps. rewrite Forall_forall in Hlps. rewrite Forall_forall in Hlbs.
  split; [|done]. split_and!; try done.
  - by rewrite Hperm.
  - apply Forall_forall. intros q Hq. apply Hother; auto.
  - constructor; [by apply (page_ok_same s s' p _ (mkPage (mkRC 0) false) _ Hpok)|].
    apply Forall_forall. intros q Hq. apply Hother; auto.
  - apply Forall_forall. intros [b k] Hr. destruct (Hlbs (b, k) Hr) as (? & ? & Hpage).
    split_and!; try done; try lia. simpl. intros ->. apply Hother; [by right; right|by apply Hpage].
  - exact (null_page_none s lb lp p pg _ Hinv Hpg).
Qed.

(** Freeing a page in use: it goes back to the queue when its last reference
    goes. *)
Lemma kfree_page_spec s lb lp p :
  mem_inv s lb (p :: lp) →
  ∃ s', kfree_page p s = Ret () s' ∧
    (pages s' = p :: pages s ∧ mem_inv s' lb lp ∧ all_words s' lb lp ≡ₚ all_words s lb (p :: lp) ∨
     pages s' = pages s ∧ mem_inv s' lb (p :: lp) ∧ all_words s' lb (p :: lp) ≡ₚ all_words s lb (p :: lp)).
Proof.
  intros Hinv. pose proof Hinv as (Hlen & H511 & Hlock & Hnd & Hps & Hlps & Hlbs & H0).
  apply Forall_cons in Hlps as [Hpok Hlps].
  pose proof Hpok as (Hal & Hfirst & Hrng & pg & Hpg & Hl).
  rewrite (kfree_page_run s p pg Hfirst Hpg Hl). cbv zeta.
  set (pg' := mkPage (_decrement_rc (ref pg)).2 false).
  eexists. split; [reflexivity|]. destruct (count (ref pg') <=? 0) eqn:E.
  - left. split; [done|]. apply (inv_free_page s _ lb (p :: lp) lb lp p pg' in_use); try done.
    + apply regions_lp.
    + set_solver.
  - right. set (s' := mkMem _ _ _ _ _ _ _ _). split; [done|].
    assert (Hreg : regions s lb (p :: lp) ≡ₚ page_region p :: regions s lb lp) by apply regions_lp.
    assert (Hother : ∀ q P, page_region q ∈ regions s lb lp → page_ok s q P → page_ok s' q P).
    { intros q P Hq. apply (page_ok_other s s' p q P in_use pg'); try done.
      exact (page_used_fresh _ _ _ _ _ _ Hinv Hreg Hq). }
    rewrite Forall_forall in Hps. rewrite Forall_forall in Hlps. rewrite Forall_forall in Hlbs.
    split; [|done]. split_and!; try done.
    + apply Forall_forall. intros q Hq. apply Hother; [|by apply Hps].
      rewrite /regions !elem_of_app. left. by apply list_elem_of_fmap_2.
    + constructor; [by apply (page_ok_same s s' p in_use pg')|]. apply Forall_forall. intros q Hq.
      apply Hother; [|by apply Hlps]. rewrite /regions !elem_of_app. right; right; right. by apply list_elem_of_fmap_2.
    + apply Forall_forall. intros [b k] Hr. destruct (Hlbs (b, k) Hr) as (? & ? & Hpage).
      split_and!; try done; try lia. simpl. intros ->. apply Hother; [|by apply Hpage].
      rewrite /regions !elem_of_app. by right; right; left.
    + exact (null_page_none s lb (p :: lp) p pg _ Hinv Hpg).
Qed.

(** ** Boot *)
Lemma PAGE_BASE_mod a : 0 ≤ a → PAGE_BASE a = a - a mod 4096.
Proof.
  intros Ha. rewrite /PAGE_BASE /PAGE_SIZE. change (4096 - 1) with (Z.ones 12).
  rewrite -Z.ldiff_land Z.ldiff_ones_r; [lia|]. rewrite Z.shiftl_mul_pow2; [lia|]. rewrite Z.shiftr_div_pow2; [lia|].
  change (2 ^ 12) with 4096. dlia.
Qed.

Lemma init_pages_loop_run n : ∀ p top s,
  ∃ k c, (k ≤ n)%nat ∧ init_pages_loop n p top s =
    Ret () (set_left_cnt c (set_pages (reverse ((λ i, p + 4096 * i) <$> seqZ 0 (Z.of_nat k)) ++ pages s) s)) ∧
    (∀ i, 0 ≤ i < Z.of_nat k → p + 4096 * i < top).
Proof.
  induction n as [|n IH]; intros p top s.
  { exists 0%nat, (_left_page_cnt s). split_and!; [done|by destruct s|simpl; lia]. }
  cbn [init_pages_loop]. destruct (Z.ltb_spec p top) as [Hlt|Hge]; last first.
  { exists 0%nat, (_left_page_cnt s). split_and!; [lia|by destruct s|simpl; lia]. }
  do 2 (erewrite bind_run; [|reflexivity]).
  destruct (IH (p + PAGE_SIZE) top
    (set_left_cnt (_increment_rc (_left_page_cnt (set_pages (p :: pages s) s))) (set_pages (p :: pages s) s)))
    as (k & c & Hk & Hrun & Hall).
  exists (S k), c. split_and!; [lia| |].
  - rewrite Hrun. f_equal. rewrite /set_left_cnt /set_pages /=. f_equal.
    rewrite (_ : Z.of_nat (S k) = 1 + Z.of_nat k); [lia|]. rewrite seqZ_app; [lia|lia|].
    rewrite fmap_app reverse_app -app_assoc. f_equal.
    + f_equal. rewrite (_ : 0 + 1 = 1 + 0); [lia|].
      rewrite -(fmap_add_seqZ 1 0 (Z.of_nat k)) -list_fmap_compose. apply list_fmap_ext.
      intros i x _. rewrite /= /PAGE_SIZE. lia.
    + change (seqZ 0 1) with [0]. simpl. f_equal. lia.
  - intros i Hi. destruct (decide (i = 0)) as [->|]; [lia|]. specialize (Hall (i - 1) ltac:(lia)).
    rewrite /PAGE_SIZE in Hall. lia.
Qed.

(** Distinct aligned pages share no word. *)
Lemma pages_nodup (l : list Z) :
  NoDup l → Forall (λ p, p mod 4096 = 0) l → NoDup ((page_region <$> l) ≫= words_of).
Proof.
  induction l as [|p l IH]; intros Hnd Hal; [constructor|]. rewrite fmap_cons bind_cons.
  apply NoDup_cons in Hnd as [Hp Hnd]. apply Forall_cons in Hal as [Hpa Hal]. apply NoDup_app. split_and!.
  - rewrite /words_of. apply NoDup_fmap_2; [|apply NoDup_seqZ]. intros x y Hxy. lia.
  - intros x (k & Hk & ->)%elem_words_of (r & Hx & (q & -> & Hq)%list_elem_of_fmap)%list_elem_of_bind.
    apply elem_words_of in Hx as (k' & Hk' & E). rewrite Forall_forall in Hal. specialize (Hal q Hq).
    assert (p = q) by dlia. by subst.
  - by apply IH.
Qed.

(** The variables before [define_early_init(pages)] runs: empty queues, and the
    array [pages_ref] with an entry per physical page. *)
Definition boot_ok (s : mstate) : Prop :=
  pages s = [] ∧ free_mem s = replicate 512 [] ∧ mem_list_lock s = false ∧
  KSPACE_MASK ≤ kend s < KSPACE_MASK + PHYSTOP ∧
  (∀ n, 0 ≤ n < PHYSTOP / PAGE_SIZE → is_Some (pages_ref s !! n)) ∧ pages_ref s !! page_num_of 0 = None.

Lemma free_from_empty n : ∀ k, free_from k (replicate n []) = [].
Proof. induction n as [|n IH]; intros k; simpl; [done|apply IH]. Qed.

Lemma init_pages_inv s :
  boot_ok s → ∃ s', init_pages s = Ret () s' ∧ mem_inv s' [] [].
Proof.
  intros (H1 & H2 & H3 & Hend & Href & H0). rewrite /init_pages. do 2 (erewrite bind_run; [|reflexivity]).
  destruct (init_pages_loop_run (Z.to_nat (PHYSTOP / PAGE_SIZE)) (first_page s) (P2K PHYSTOP - PAGES_REF_SIZE)
              (set_left_cnt init_rc s)) as (k & c & _ & Hrun & Hall).
  rewrite Hrun. eexists. split; [reflexivity|]. simpl pages in *. rewrite H1 app_nil_r.
  set (l := (λ i, first_page s + 4096 * i) <$> seqZ 0 (Z.of_nat k)).
  assert (Htop : P2K PHYSTOP - PAGES_REF_SIZE = KSPACE_MASK + PHYSTOP - 4128768) by reflexivity.
  assert (Hfp : first_page s = kend s - kend s mod 4096 + 4096).
  { rewrite /first_page PAGE_BASE_mod //. rewrite /KSPACE_MASK in Hend. lia. }
  assert (Hl : ∀ p, p ∈ l → p mod 4096 = 0 ∧ first_page s ≤ p < KSPACE_MASK + PHYSTOP).
  { intros p (i & -> & Hi%elem_of_seqZ)%list_elem_of_fmap. specialize (Hall i ltac:(lia)).
    rewrite Hfp. rewrite Htop Hfp in Hall. split; [dlia|lia]. }
  split_and!; simpl; try done.
  - by rewrite H2.
  - by rewrite H2.
  - rewrite /all_words /regions /= H2 free_from_empty !app_nil_r.
    apply pages_nodup.
    + rewrite reverse_Permutation. apply NoDup_fmap_2; [|apply NoDup_seqZ]. intros x y Hxy. lia.
    + apply Forall_forall. intros p Hp. rewrite elem_of_reverse in Hp. apply (Hl p Hp).
  - apply Forall_forall. intros p Hp. rewrite elem_of_reverse in Hp. apply Hl in Hp as [Ha Hr].
    rewrite /page_ok /first_page /=. fold (first_page s).
    assert (Hk : KSPACE_MASK ≤ p < 2 ^ 64).
    { rewrite Hfp in Hr. rewrite /KSPACE_MASK /PHYSTOP in Hr, Hend |- *.
      pose proof (Z.mod_pos_bound (kend s) 4096 ltac:(lia)). lia. }
    split_and!; try lia; [done|].
    destruct (Href (page_num_of p)) as [pg Hpg]; [|by exists pg].
    rewrite /page_num_of /K2P /u64 wrap_small; [rewrite /KSPACE_MASK in Hk |- *; lia|].
    rewrite /PAGE_SIZE. split; [apply Z.div_pos; lia|]. apply Z.div_lt_upper_bound; [lia|].
    rewrite /PHYSTOP in Hr |- *. change (4096 * (1056964608 / 4096)) with 1056964608. lia.
Qed.

(** ** The claims *)
(** The clients of the allocators: the state with the blocks and pages in use.
    A client frees what it was given, once. *)
Inductive mem_step : mstate * list region * list Z → mstate * list region * list Z → Prop :=
| ms_kalloc n r s lb lp s' :
    0 ≤ n ≤ 4088 → kalloc n s = Ret r s' →
    mem_step (s, lb, lp) (s', (r - 8, __get_idx (n + 8)) :: lb, lp)
| ms_kfree a pos s lb lb' lp s' :
    lb ≡ₚ (a, pos) :: lb' → kfree (a + 8) s = Ret () s' → mem_step (s, lb, lp) (s', lb', lp)
| ms_kalloc_page p s lb lp s' :
    kalloc_page s = Ret p s' → mem_step (s, lb, lp) (s', lb, p :: lp)
| ms_kfree_page p s lb lp lp' s' :
    lp ≡ₚ p :: lp' → kfree_page p s = Ret () s' → pages s' = p :: pages s →
    mem_step (s, lb, lp) (s', lb, lp')
| ms_kfree_page_shared p s lb lp s' :
    p ∈ lp → kfree_page p s = Ret () s' → pages s' = pages s → mem_step (s, lb, lp) (s', lb, lp).

Lemma kalloc_post_idx n s lb lp r s' :
  0 ≤ n ≤ 4088 → kalloc_post n s lb lp r s' →
  mem_inv s' ((r - 8, __get_idx (n + 8)) :: lb) lp ∧
  all_words s' ((r - 8, __get_idx (n + 8)) :: lb) lp ≡ₚ all_words s lb lp.
Proof.
  intros Hn (a & pos & -> & H0 & Hsz & Hinv & Hperm). destruct (get_idx_spec n Hn) as (? & ? & ?).
  replace (a + 8 - 8) with a by lia. by replace (__get_idx (n + 8)) with pos by lia.
Qed.

Lemma list_cons_ne {A} (x : A) l : x :: l ≠ l.
Proof. intros H. apply (f_equal length) in H. simpl in H. lia. Qed.

Definition inv3 (σ : mstate * list region * list Z) : Prop := mem_inv σ.1.1 σ.1.2 σ.2.
Definition words3 (σ : mstate * list region * list Z) : list Z := all_words σ.1.1 σ.1.2 σ.2.

Lemma kalloc_page_empty s lb lp p s' :
  mem_inv s lb lp → pages s = [] → kalloc_page s ≠ Ret p s'.
Proof.
  intros (_ & _ & _ & _ & _ & _ & _ & H0) E Hrun.
  rewrite /kalloc_page in Hrun. do 2 (apply bind_ret_inv in Hrun as (? & ? & [= _ <-] & Hrun)).
  apply bind_ret_inv in Hrun as (? & ? & [= <- <-] & Hrun). simpl pages in Hrun. rewrite E in Hrun.
  do 2 (apply bind_ret_inv in Hrun as (? & ? & [= <- <-] & Hrun)).
  apply bind_ret_inv in Hrun as (? & ? & Hrun & _). simpl pages_ref in Hrun. by rewrite H0 in Hrun.
Qed.

Lemma mem_step_inv σ σ' : mem_step σ σ' → inv3 σ → inv3 σ' ∧ words3 σ' ≡ₚ words3 σ.
Proof.
  intros Hstep Hinv.
  destruct Hstep as [n r s lb lp s' Hn Hrun|a pos s lb lb' lp s' Hlb Hrun|p s lb lp s' Hrun
                    |p s lb lp lp' s' Hlp Hrun Hps|p s lb lp s' Hin Hrun Hps]; rewrite /inv3 /words3 /= in Hinv |- *.
  - destruct (kalloc_cases s lb lp n Hinv Hn) as [(r' & s1 & Hrun' & Hpost)|[_ Hf]]; [|congruence].
    rewrite Hrun in Hrun'. injection Hrun' as <- <-. by apply kalloc_post_idx.
  - apply (mem_inv_perm _ _ _ _ lp Hlb) in Hinv; [|done].
    destruct (kfree_spec s lb' lp a pos Hinv) as (s1 & Hrun' & Hinv' & Hp).
    rewrite Hrun in Hrun'. injection Hrun' as <-. split; [done|]. rewrite Hp.
    apply bind_words_perm. by rewrite /regions Hlb.
  - destruct (pages s) as [|q ps] eqn:E; [by destruct (kalloc_page_empty s lb lp p s' Hinv E)|].
    destruct (kalloc_page_spec s lb lp q ps Hinv E) as (s1 & Hrun' & Hinv' & Hp).
    rewrite Hrun in Hrun'. by injection Hrun' as <- <-.
  - apply (mem_inv_perm _ lb lb _ _ ltac:(done) Hlp) in Hinv.
    destruct (kfree_page_spec s lb lp' p Hinv) as (s1 & Hrun' & Hcase).
    rewrite Hrun in Hrun'. injection Hrun' as <-. destruct Hcase as [(_ & Hinv' & Hp)|(Hps' & _)].
    + split; [done|]. rewrite Hp. apply bind_words_perm. by rewrite /regions Hlp.
    + exfalso. rewrite Hps in Hps'. by apply list_cons_ne in Hps'.
  - apply elem_of_Permutation in Hin as (lp0 & Hlp).
    apply (mem_inv_perm _ lb lb _ _ ltac:(done) Hlp) in Hinv.
    destruct (kfree_page_spec s lb lp0 p Hinv) as (s1 & Hrun' & Hcase).
    rewrite Hrun in Hrun'. injection Hrun' as <-. destruct Hcase as [(Hps' & _)|(_ & Hinv' & Hp)].
    + exfalso. rewrite Hps in Hps'. symmetry in Hps'. by apply list_cons_ne in Hps'.
    + split; [apply (mem_inv_perm s' lb lb (p :: lp0) lp); [done|by symmetry|exact Hinv']|].
      transitivity (all_words s' lb (p :: lp0)); [apply bind_words_perm; by rewrite /regions Hlp|].
      rewrite Hp. apply bind_words_perm. by rewrite /regions Hlp.
Qed.

(** C23: The kernel's memory is never handed out twice and never lost.  From boot
    on, however calls of [kalloc] for at most 4088 bytes, [kfree] of a block in
    use, [kalloc_page] and [kfree_page] of a page in use follow each other, the free pages, the free blocks of every size class, the blocks
    in use and the pages in use share no word, and together they are exactly the
    words of the pages the boot loop found.  (A block for 4089 to 4096 bytes is
    longer than its page: [kalloc_past_page].) *)
Theorem kernel_memory_disjoint s0 s1 s lb lp :
  boot_ok s0 → init_pages s0 = Ret () s1 → rtc mem_step (s1, [], []) (s, lb, lp) →
  NoDup (all_words s lb lp) ∧ all_words s lb lp ≡ₚ all_words s1 [] [].
Proof.
  intros Hboot Hinit Hrtc.
  assert (Hinv : mem_inv s1 [] []).
  { destruct (init_pages_inv s0 Hboot) as (s1' & H & Hi). rewrite Hinit in H. by injection H as <-. }
  assert (H : inv3 (s, lb, lp) ∧ words3 (s, lb, lp) ≡ₚ words3 (s1, [], [])).
  { clear Hinit. revert Hinv. change (mem_inv s1 [] []) with (inv3 (s1, [], [])).
    induction Hrtc as [σ|σ σ' σ'' Hs _ IH]; intros Hinv; [done|].
    destruct (mem_step_inv _ _ Hs Hinv) as [Hinv' Hp]. destruct (IH Hinv') as [H1 H2]. by rewrite -Hp. }
  destruct H as [H1 H2]. split; [apply H1|exact H2].
Qed.

(** *** A machine whose kernel image ends at the first megabyte *)
Definition boot_demo : mstate :=
  mkMem [] (replicate 512 []) (gset_to_gmap (mkPage (mkRC 0) false) (list_to_set (seqZ 0 (PHYSTOP / PAGE_SIZE))))
    ∅ init_rc init_rc false (KSPACE_MASK + 1048576).

Lemma boot_demo_ok : boot_ok boot_demo.
Proof.
  rewrite /boot_ok /boot_demo. cbn [pages free_mem mem_list_lock kend pages_ref].
  split_and!; [reflexivity|reflexivity|reflexivity|lia|rewrite /PHYSTOP; lia| |].
  - intros n Hn. exists (mkPage (mkRC 0) false). apply lookup_gset_to_gmap_Some. split; [|reflexivity].
    apply elem_of_list_to_set, elem_of_seqZ. lia.
  - apply lookup_gset_to_gmap_None. rewrite elem_of_list_to_set elem_of_seqZ.
    change (page_num_of 0) with 68719476736. change (PHYSTOP / PAGE_SIZE) with 258048. lia.
Qed.

(** The boot loop finds a page, so there is one to allocate. *)
Lemma init_pages_loop_grows top : ∀ n p s s',
  init_pages_loop n p top s = Ret () s' → pages s ≠ [] → pages s' ≠ [].
Proof.
  induction n as [|n IH]; intros p s s'; cbn [init_pages_loop]; [by intros [= <-]|].
  destruct (p <? top); [|by intros [= <-]]. intros Hrun _.
  apply bind_ret_inv in Hrun as ([] & s2 & [= <-] & Hrun). apply bind_ret_inv in Hrun as ([] & s3 & [= <-] & Hrun).
  by apply (IH _ _ _ Hrun).
Qed.
Lemma init_pages_loop_some n p top s s' :
  (0 < n)%nat → p < top → init_pages_loop n p top s = Ret () s' → pages s' ≠ [].
Proof.
  destruct n as [|n]; [lia|]. intros _ Hp. cbn [init_pages_loop]. rewrite (proj2 (Z.ltb_lt _ _) Hp). intros Hrun.
  apply bind_ret_inv in Hrun as ([] & s2 & [= <-] & Hrun). apply bind_ret_inv in Hrun as ([] & s3 & [= <-] & Hrun).
  by apply (init_pages_loop_grows _ _ _ _ _ Hrun).
Qed.
Lemma boot_demo_pages s1 : init_pages boot_demo = Ret () s1 → pages s1 ≠ [].
Proof.
  rewrite /init_pages. intros Hrun. apply bind_ret_inv in Hrun as (s & s2 & H0 & Hrun).
  assert (s = boot_demo) as -> by (symmetry; exact (f_equal (λ r, match r with Ret x _ => x | _ => s end) H0)).
  apply bind_ret_inv in Hrun as (? & ? & _ & Hrun).
  apply init_pages_loop_some in Hrun; [done|apply Nat2Z.inj_lt; rewrite Z2Nat.id; done|reflexivity].
Qed.

Lemma kernel_memory_disjoint_witness :
  ∃ s1 s2 r, init_pages boot_demo = Ret () s1 ∧ kalloc 100 s1 = Ret r s2 ∧
    NoDup (all_words s2 [(r - 8, 13)] []) ∧ all_words s2 [(r - 8, 13)] [] ≡ₚ all_words s1 [] [].
Proof.
  destruct (init_pages_inv boot_demo boot_demo_ok) as (s1 & H & Hinv).
  destruct (kalloc_cases s1 [] [] 100 Hinv ltac:(lia)) as [(r & s2 & Hrun & _)|[Hnil _]];
    [|destruct (boot_demo_pages s1 H Hnil)].
  exists s1, s2, r. split; [exact H|split; [exact Hrun|]].
  apply (kernel_memory_disjoint boot_demo s1 s2 [(r - 8, 13)] [] boot_demo_ok H).
  apply rtc_once. apply (ms_kalloc 100 r s1 [] [] s2); [lia|exact Hrun].
Defined.

(** [kalloc] and [kfree].  In every state the allocator reaches, while free
    pages remain, [kalloc n] for [n] up to 4088 returns the address after the
    header of a block of at least [n] bytes whose words nobody else has; [kfree]
    of that address then returns, and the words it took are free again. *)
Theorem kalloc_then_kfree s lb lp n :
  mem_inv s lb lp → 0 ≤ n ≤ 4088 → pages s ≠ [] →
  ∃ a pos s' s'', kalloc n s = Ret (a + 8) s' ∧ a + 8 + n ≤ a + 8 * (pos + 1) ∧
    mem_inv s' ((a, pos) :: lb) lp ∧ NoDup (all_words s' ((a, pos) :: lb) lp) ∧
    kfree (a + 8) s' = Ret () s'' ∧ mem_inv s'' lb lp ∧ all_words s'' lb lp ≡ₚ all_words s lb lp.
Proof.
  intros Hinv Hn Hps.
  destruct (kalloc_cases s lb lp n Hinv Hn) as [(r & s' & Hrun & Hpost)|[? _]]; [|done].
  destruct Hpost as (a & pos & -> & H0 & Hsz & Hinv' & Hp).
  destruct (kfree_spec s' lb lp a pos Hinv') as (s'' & Hrun' & Hinv'' & Hp').
  exists a, pos, s', s''. split_and!; try done; try lia; [apply Hinv'|]. by rewrite Hp'.
Qed.

(** One free page at the second megabyte. *)
Definition one_page : mstate :=
  mkMem [KSPACE_MASK + 2097152] (replicate 512 []) {[512 := mkPage (mkRC 0) false]} ∅ init_rc init_rc false
    (KSPACE_MASK + 1048576).

Lemma one_page_inv : mem_inv one_page [] [].
Proof.
  rewrite /mem_inv /all_words /regions. cbn [pages free_mem mem_list_lock pages_ref one_page].
  rewrite free_from_empty !app_nil_r. split_and!; try done.
  - apply pages_nodup; [apply NoDup_singleton|by repeat constructor].
  - constructor; [|constructor]. rewrite /page_ok. split_and!; try done. by eexists.
Qed.

Lemma kalloc_then_kfree_witness :
  ∃ a pos s' s'', kalloc 100 one_page = Ret (a + 8) s' ∧ a + 8 + 100 ≤ a + 8 * (pos + 1) ∧ kfree (a + 8) s' = Ret () s''.
Proof.
  destruct (kalloc_then_kfree one_page [] [] 100 one_page_inv ltac:(lia) ltac:(discriminate))
    as (a & pos & s' & s'' & H1 & H2 & _ & _ & H3 & _).
  exists a, pos, s', s''. split; [exact H1|]. split; [exact H2|exact H3].
Defined.

(** The size limit of [kalloc] is not checked.  For a request of 4089 to 4096
    bytes [kalloc] still returns: the start of a fresh page plus the 8 bytes of
    the header, so the last bytes of the block lie past the end of the page, in
    memory that belongs to someone else; and [kfree] of it uses an index past the
    end of [free_mem]. *)
Theorem kalloc_past_page s lb lp n p ps :
  mem_inv s lb lp → 4088 < n ≤ 4096 → pages s = p :: ps →
  ∃ s', kalloc n s = Ret (p + 8) s' ∧ p + PAGE_SIZE < p + 8 + n ∧ kfree (p + 8) s' = Fault.
Proof.
  intros Hinv Hn Hp. pose proof Hinv as (Hlen & _ & Hlock & _ & Hps & _).
  rewrite Hp in Hps. apply Forall_cons in Hps as [(_ & _ & _ & pg & Hpg & _) _].
  assert (Hidx : __get_idx (n + 8) = 512).
  { assert (n ∈ seqZ 4089 8) as Hin by (apply elem_of_seqZ; lia). clear -Hin.
    repeat (apply elem_of_cons in Hin as [->|Hin]; [reflexivity|]). by apply elem_of_nil in Hin. }
  rewrite /kalloc Hidx. rewrite (bind_run _ _ _ () (lset mem_lock true s)); [by rewrite acquire_run /= Hlock|].
  erewrite bind_run; [|reflexivity].
  assert (Hfind : ∀ fm, find_order (Z.to_nat MAX_ORDER) fm 512 = Some 512).
  { intros fm. destruct (Z.to_nat MAX_ORDER) as [|k]; reflexivity. }
  erewrite bind_run; [|exact (of_opt_run _ _ _ (Hfind _))].
  change (512 =? MAX_ORDER) with true. cbv iota.
  change ((512 + 1) * MIN_BLOCK_SIZE <? PAGE_SIZE) with false. cbv iota.
  erewrite bind_run; last first.
  { erewrite bind_run; [|exact (kalloc_page_run (lset mem_lock true s) p ps pg Hp Hpg)].
    erewrite bind_run; [|reflexivity]. erewrite bind_run; [|reflexivity]. reflexivity. }
  rewrite (bind_run _ _ _ _ _ (release_run _ _)). eexists. split; [reflexivity|]. split; [rewrite /PAGE_SIZE; lia|].
  rewrite /kfree. replace (p + 8 - 8) with p by lia. erewrite bind_run; [|reflexivity].
  erewrite bind_run; [|apply of_opt_run; apply lookup_insert_eq].
  change (i32 512 =? MAX_ORDER - 1) with false. cbv iota. change (i32 512) with 512.
  rewrite /push_free. erewrite bind_run; [|reflexivity]. change (512 <? 0) with false. cbv iota.
  rewrite /mbind /M_bind. cbn [free_mem lset mem_lock set_words].
  by rewrite (lookup_ge_None_2 (free_mem s)); [rewrite Hlen; done|].
Qed.

Lemma kalloc_past_page_witness :
  ∃ s', kalloc 4096 one_page = Ret (KSPACE_MASK + 2097152 + 8) s' ∧
        kfree (KSPACE_MASK + 2097152 + 8) s' = Fault.
Proof.
  destruct (kalloc_past_page one_page [] [] 4096 (KSPACE_MASK + 2097152) [] one_page_inv ltac:(lia) eq_refl)
    as (s' & H1 & _ & H2).
  exists s'. split; [exact H1|exact H2].
Defined.
