(* ===== verification/Console.v ===== *)
(** * Console: line input and output, [kernel/console.c]

    [uart] is what was sent to the serial port.  [getc] is the list of characters
    an interrupt finds, ended by 0xff.  A read that must wait for a line when no
    post is pending returns -1 ([None]) if its sleep is cut short by an alert
    ([alerted]), and is a [Hang] otherwise; the inode whose lock a read gives up is
    represented by the count of its sleep lock.  [kill] records the pid. *)

From stdpp Require Import base numbers list.
From S2P Require Import Prelude Spinlock.

Module Con.

Definition INPUT_BUF : Z := 128.
Definition C_D : Z := 4.          (* control-D *)
Definition C_U : Z := 21.
Definition C_C : Z := 3.
Definition BACKSPACE : Z := 127.
Definition nl : Z := 10.
Definition cr : Z := 13.

Record cons := mkCons {
  buf : list Z;
  r : Z; w : Z; e : Z;
  ilock : SpinLock;
  can_read : Z;                   (* the count of [can_read_sem] *)
  uart : list Z;
  ip_sem : Z;                     (* the count of the inode's sleep lock *)
  cur_pid : Z;
  killed : list Z }.

Definition set_buf b (s : cons) := mkCons b (r s) (w s) (e s) (ilock s) (can_read s) (uart s) (ip_sem s) (cur_pid s) (killed s).
Definition set_r v (s : cons) := mkCons (buf s) v (w s) (e s) (ilock s) (can_read s) (uart s) (ip_sem s) (cur_pid s) (killed s).
Definition set_w v (s : cons) := mkCons (buf s) (r s) v (e s) (ilock s) (can_read s) (uart s) (ip_sem s) (cur_pid s) (killed s).
Definition set_e v (s : cons) := mkCons (buf s) (r s) (w s) v (ilock s) (can_read s) (uart s) (ip_sem s) (cur_pid s) (killed s).
Definition set_can_read v (s : cons) := mkCons (buf s) (r s) (w s) (e s) (ilock s) v (uart s) (ip_sem s) (cur_pid s) (killed s).
Definition set_uart v (s : cons) := mkCons (buf s) (r s) (w s) (e s) (ilock s) (can_read s) v (ip_sem s) (cur_pid s) (killed s).
Definition set_ip_sem v (s : cons) := mkCons (buf s) (r s) (w s) (e s) (ilock s) (can_read s) (uart s) v (cur_pid s) (killed s).
Definition set_killed v (s : cons) := mkCons (buf s) (r s) (w s) (e s) (ilock s) (can_read s) (uart s) (ip_sem s) (cur_pid s) v.
Definition input_lock : Lens cons SpinLock :=
  mkLens ilock (λ l s, mkCons (buf s) (r s) (w s) (e s) l (can_read s) (uart s) (ip_sem s) (cur_pid s) (killed s)).

Definition console_init : cons := mkCons (replicate 128 0) 0 0 0 init_spinlock 0 [] 0 2 [].

(** [uart_put_char]: a newline is followed by a carriage return. *)
Definition uart_put_char (c : Z) : M cons () :=
  modify (λ s, set_uart (uart s ++ (if c =? nl then [nl; cr] else [c])) s).
Fixpoint uart_put (l : list Z) : M cons () :=
  match l with [] => mret () | c :: l => uart_put_char c;; uart_put l end.

Definition ip_unlock : M cons () := modify (λ s, set_ip_sem (ip_sem s + 1) s).
Definition ip_lock : M cons () :=
  v ← gets ip_sem; if 0 <? v then modify (set_ip_sem (v - 1)) else hang.

Definition console_write (src : list Z) : M cons Z :=
  ip_unlock;;
  _acquire_spinlock input_lock;;
  uart_put ((λ c, Z.land c 255) <$> src);;
  release_spinlock input_lock;;
  ip_lock;;
  mret (Z.of_nat (length src)).

(** The loop of [console_read]: the bytes stored so far are [dst], newest last. *)
Fixpoint console_read_loop (fuel : nat) (alerted : bool) (n target : Z) (dst : list Z) : M cons (option (list Z)) :=
  if 0 <? n then
    match fuel with
    | O => nofuel
    | S fuel =>
        s ← get;
        ok ← (if r s =? w s then
                release_spinlock input_lock;;
                v ← gets can_read;
                if 0 <? v then modify (set_can_read (v - 1));; _acquire_spinlock input_lock;; mret true
                else if alerted then mret false else hang
              else mret true);
        if negb ok then mret None
        else
          s ← get;
          let r' := u64 (r s + 1) mod INPUT_BUF in
          modify (set_r r');;
          c ← of_opt (buf s !! Z.to_nat r');
          if c =? C_D then
            (if n <? target then modify (set_r (u64 (r' - 1))) else mret ());;
            mret (Some dst)
          else if c =? nl then mret (Some (dst ++ [c]))
          else console_read_loop fuel alerted (n - 1) target (dst ++ [c])
    end
  else mret (Some dst).

(** Returns the bytes stored in [dst]; their number is the return value. *)
Definition console_read (alerted : bool) (n : Z) : M cons (option (list Z)) :=
  ip_unlock;;
  _acquire_spinlock input_lock;;
  dst ← console_read_loop (Z.to_nat n) alerted n n [];
  match dst with
  | None => mret None
  | Some dst =>
      release_spinlock input_lock;;
      ip_lock;;
      mret (Some dst)
  end.

Definition post_can_read : M cons () := modify (λ s, set_can_read (can_read s + 1) s).
Definition store_buf (i c : Z) : M cons () :=
  b ← gets buf; _ ← of_opt (b !! Z.to_nat i); modify (set_buf (<[Z.to_nat i := c]> b)).
Definition rub_out : M cons () := uart_put_char 8;; uart_put_char 32;; uart_put_char 8.

(** The control-U loop: at most [INPUT_BUF] characters are between [w] and [e]. *)
Fixpoint kill_line (fuel : nat) : M cons () :=
  s ← get;
  if e s =? w s then mret ()
  else
    match fuel with
    | O => nofuel
    | S fuel =>
        let e' := u64 (e s - 1) mod INPUT_BUF in
        c ← of_opt (buf s !! Z.to_nat e');
        if c =? nl then mret ()
        else modify (set_e e');; rub_out;; kill_line fuel
    end.

(** One character of the loop of [console_intr]. *)
Definition console_char (c : Z) : M cons () :=
  let c := if c =? cr then nl else c in
  s ← get;
  if c =? BACKSPACE then
    (if negb (e s =? w s) then
       modify (set_e (u64 (e s - 1) mod INPUT_BUF));; rub_out
     else mret ())
  else if c =? C_U then kill_line (Z.to_nat INPUT_BUF)
  else if c =? C_D then
    (if u64 (e s + 1) mod INPUT_BUF =? r s then mret ()
     else
       let e' := u64 (e s + 1) mod INPUT_BUF in
       modify (set_e e');; store_buf e' c;; uart_put_char c;;
       modify (set_w e');; post_can_read)
  else if c =? C_C then
    uart_put_char 94;; uart_put_char 67;;
    (if (cur_pid s =? -1) || (cur_pid s =? 0) || (cur_pid s =? 1) then mret ()
     else modify (λ s, set_killed (killed s ++ [cur_pid s]) s))
  else
    (if u64 (e s + 1) mod INPUT_BUF =? r s then mret ()
     else
       let e' := u64 (e s + 1) mod INPUT_BUF in
       modify (set_e e');; store_buf e' c;; uart_put_char c;;
       s ← get;
       if (c =? nl) || (u64 (e s + 1) mod INPUT_BUF =? r s) then
         modify (set_w (e s));; post_can_read
       else mret ()).

Fixpoint console_chars (getc : list Z) : M cons () :=
  match getc with
  | [] => mret ()
  | c :: getc => if c =? 255 then mret () else console_char c;; console_chars getc
  end.

Definition console_intr (getc : list Z) : M cons () :=
  _acquire_spinlock input_lock;;
  console_chars getc;;
  release_spinlock input_lock.

(** ** The ring as two lists: committed lines and the line being edited *)
(** The [n] characters after position [a]. *)
Definition ring (b : list Z) (a : Z) (n : nat) : list Z :=
  (λ i, default 0 (b !! Z.to_nat ((a + 1 + Z.of_nat i) mod 128))) <$> seq 0 n.

Definition pending_lines (s : cons) : list Z := ring (buf s) (r s) (Z.to_nat ((w s - r s) mod 128)).
Definition editing (s : cons) : list Z := ring (buf s) (w s) (Z.to_nat ((e s - w s) mod 128)).

Definition cons_ok (s : cons) : Prop :=
  length (buf s) = 128%nat ∧ 0 ≤ r s < 128 ∧ 0 ≤ w s < 128 ∧ 0 ≤ e s < 128 ∧
  (w s - r s) mod 128 + (e s - w s) mod 128 < 128 ∧ ilock s = false.

Lemma lookup_ring b a n i :
  length b = 128%nat → (i < n)%nat → ring b a n !! i = b !! Z.to_nat ((a + 1 + Z.of_nat i) mod 128).
Proof.
  intros Hb Hi. rewrite /ring list_lookup_fmap lookup_seq_lt //. simpl.
  destruct (list_lookup_Z_Some b ((a + 1 + Z.of_nat i) mod 128)) as [x Hx].
  { rewrite Hb. apply (Z.mod_pos_bound (a + 1 + Z.of_nat i) 128). lia. }
  by rewrite Hx.
Qed.

Lemma length_ring b a n : length (ring b a n) = n.
Proof. by rewrite /ring length_fmap length_seq. Qed.

Lemma ring_cons b a n :
  ring b a (S n) = default 0 (b !! Z.to_nat ((a + 1) mod 128)) :: ring b ((a + 1) mod 128) n.
Proof.
  rewrite /ring. cbn [seq]. rewrite fmap_cons. f_equal; [by rewrite Z.add_0_r|].
  rewrite -fmap_S_seq -list_fmap_compose. apply list_fmap_ext. intros i x _. simpl.
  do 2 f_equal. rewrite Nat2Z.inj_succ. f_equal. dlia.
Qed.

Lemma ring_snoc b a n : ring b a (S n) = ring b a n ++ [default 0 (b !! Z.to_nat ((a + 1 + Z.of_nat n) mod 128))].
Proof. by rewrite /ring seq_S fmap_app. Qed.

(** A store outside the ring is not seen. *)
Lemma ring_insert b a n p c :
  0 ≤ p < 128 → (∀ i, (i < n)%nat → (a + 1 + Z.of_nat i) mod 128 ≠ p) → ring (<[Z.to_nat p := c]> b) a n = ring b a n.
Proof.
  intros Hp Hne. rewrite /ring. apply list_fmap_ext. intros k i Hk.
  apply lookup_seq in Hk as [-> Hk]. rewrite list_lookup_insert_ne //. specialize (Hne k Hk).
  assert (0 ≤ (a + 1 + Z.of_nat k) mod 128) by (apply Z.mod_pos_bound; lia). simpl. lia.
Qed.

Definition idx_ok (s : cons) : Prop :=
  length (buf s) = 128%nat ∧ 0 ≤ r s < 128 ∧ 0 ≤ w s < 128 ∧ 0 ≤ e s < 128.

(** A character with no meaning of its own. *)
Definition plain (c : Z) : Prop :=
  0 ≤ c < 255 ∧ c ≠ nl ∧ c ≠ cr ∧ c ≠ BACKSPACE ∧ c ≠ C_U ∧ c ≠ C_D ∧ c ≠ C_C.

(** How many characters are in the ring. *)
Definition fill (s : cons) : Z := (e s - r s) mod 128.

Lemma next_mod x : 0 ≤ x < 128 → u64 (x + 1) mod INPUT_BUF = (x + 1) mod 128.
Proof. intros. rewrite /u64 wrap_small; [lia|done]. Qed.

Lemma not_full s : idx_ok s → fill s < 127 → (e s + 1) mod 128 ≠ r s.
Proof. intros (_ & ? & ? & ?). rewrite /fill. intros ? E. dlia. Qed.

Definition after_store (c : Z) (s : cons) : cons :=
  set_buf (<[Z.to_nat ((e s + 1) mod 128) := c]> (buf s)) (set_e ((e s + 1) mod 128) s).

Lemma after_store_ok c s : idx_ok s → idx_ok (after_store c s).
Proof.
  intros (? & ? & ? & ?). rewrite /idx_ok /=. split_and!; try lia; [by rewrite length_insert|dlia|dlia].
Qed.

Lemma after_store_fill c s : idx_ok s → fill s < 127 → fill (after_store c s) = fill s + 1.
Proof. intros (_ & ? & ? & ?). rewrite /fill /=. intros. dlia. Qed.

Lemma after_store_ring c s :
  idx_ok s → fill s < 127 →
  ring (buf (after_store c s)) (r s) (Z.to_nat (fill s + 1)) = ring (buf s) (r s) (Z.to_nat (fill s)) ++ [c].
Proof.
  intros (Hb & Hr & Hw & He) Hf.
  assert (Hf0 : 0 ≤ fill s) by (apply Z.mod_pos_bound; lia).
  replace (Z.to_nat (fill s + 1)) with (S (Z.to_nat (fill s))) by lia. rewrite ring_snoc. simpl.
  assert (Hpos : (r s + 1 + Z.of_nat (Z.to_nat (fill s))) mod 128 = (e s + 1) mod 128).
  { rewrite Z2Nat.id //. rewrite /fill. dlia. }
  f_equal.
  - apply ring_insert; [dlia|]. intros i Hi. rewrite -Hpos. intros E. rewrite Z2Nat.id // in E.
    assert (Z.of_nat i < fill s) by lia. clear -E H Hf. dlia.
  - rewrite Hpos list_lookup_insert_eq //. rewrite Hb. assert (0 ≤ (e s + 1) mod 128 < 128) by dlia. lia.
Qed.

Lemma store_buf_run i c s :
  length (buf s) = 128%nat → 0 ≤ i < 128 → store_buf i c s = Ret () (set_buf (<[Z.to_nat i := c]> (buf s)) s).
Proof.
  intros Hb Hi. rewrite /store_buf. erewrite bind_run; [|reflexivity].
  destruct (list_lookup_Z_Some (buf s) i) as [x Hx]; [lia|].
  by erewrite bind_run; [|exact (of_opt_run _ _ _ Hx)].
Qed.

Lemma char_plain_run c s :
  idx_ok s → plain c → fill s < 126 →
  console_char c s = Ret () (set_uart (uart s ++ [c]) (after_store c s)).
Proof.
  intros Hok (Hc & H1 & H2 & H3 & H4 & H5 & H6) Hf. pose proof Hok as (Hb & Hr & Hw & He).
  rewrite /console_char. rewrite !(proj2 (Z.eqb_neq c _)) //.
  erewrite bind_run; [|reflexivity]. rewrite next_mod //.
  rewrite (proj2 (Z.eqb_neq _ _) (not_full s Hok ltac:(lia))).
  erewrite bind_run; [|reflexivity].
  erewrite bind_run; [|apply store_buf_run; [done|dlia]].
  erewrite bind_run; [|reflexivity]. erewrite bind_run; [|reflexivity].
  rewrite (proj2 (Z.eqb_neq c nl)) // orb_false_l. simpl e. simpl r.
  rewrite (next_mod ((e s + 1) mod 128)); [by apply Z.mod_pos_bound|]. rewrite (proj2 (Z.eqb_neq _ _)); last first.
  { by rewrite /mret /M_ret. }
  apply (not_full (after_store c s)); [by apply after_store_ok|].
  rewrite after_store_fill //; lia.
Qed.

(** Typing plain characters extends the line being edited. *)
Lemma chars_plain_run l : ∀ s rest,
  idx_ok s → Forall plain l → fill s + Z.of_nat (length l) < 127 →
  ∃ b', console_chars (l ++ rest) s =
          console_chars rest (set_uart (uart s ++ l) (set_buf b' (set_e ((e s + Z.of_nat (length l)) mod 128) s))) ∧
        length b' = 128%nat ∧
        ring b' (r s) (Z.to_nat (fill s + Z.of_nat (length l))) = ring (buf s) (r s) (Z.to_nat (fill s)) ++ l.
Proof.
  induction l as [|c l IH]; intros s rest Hok Hl Hf; pose proof Hok as (Hb & Hr & Hw & He).
  - exists (buf s). simpl. rewrite Z.add_0_r Z.mod_small // !app_nil_r Z.add_0_r. split_and!; [by destruct s|done|done].
  - apply Forall_cons in Hl as [Hc Hl]. simpl length in Hf.
    assert (Hf' : fill s < 126) by lia.
    set (s1 := set_uart (uart s ++ [c]) (after_store c s)).
    assert (Hok1 : idx_ok s1) by (exact (after_store_ok c s Hok)).
    assert (Hfill1 : fill s1 = fill s + 1) by (apply after_store_fill; [done|lia]).
    destruct (IH s1 rest Hok1 Hl) as (b' & Hrun & Hb' & Hring); [lia|].
    exists b'. split_and!; [|done|].
    + simpl app. cbn [console_chars]. destruct Hc as [Hc0 Hc].
      rewrite (proj2 (Z.eqb_neq c 255)); [lia|].
      rewrite (bind_run _ _ _ _ _ (char_plain_run c s Hok (conj Hc0 Hc) Hf')).
      fold s1. rewrite Hrun. f_equal.
      replace ((e s1 + Z.of_nat (length l)) mod 128) with ((e s + Z.of_nat (length (c :: l))) mod 128); last first.
      { simpl. dlia. }
      rewrite /s1 /after_store. destruct s. rewrite /set_uart /set_buf /set_e /=. by rewrite -app_assoc.
    + rewrite Hfill1 in Hring. simpl length. replace (fill s + Z.of_nat (S (length l))) with (fill s + 1 + Z.of_nat (length l)) by lia.
      change (r s1) with (r s) in Hring. rewrite Hring.
      change (buf s1) with (buf (after_store c s)). rewrite after_store_ring; [done|lia|]. by rewrite -app_assoc.
Qed.

Lemma char_nl_run s :
  idx_ok s → fill s < 127 →
  console_char nl s =
    Ret () (set_can_read (can_read s + 1) (set_w ((e s + 1) mod 128) (set_uart (uart s ++ [nl; cr]) (after_store nl s)))).
Proof.
  intros Hok Hf. pose proof Hok as (Hb & Hr & Hw & He).
  rewrite /console_char. erewrite bind_run; [|reflexivity]. simpl. rewrite next_mod //.
  rewrite (proj2 (Z.eqb_neq _ _) (not_full s Hok Hf)).
  erewrite bind_run; [|reflexivity].
  erewrite bind_run; [|apply store_buf_run; [done|dlia]]. done.
Qed.

(** Reading a line that is complete in the ring. *)
Lemma read_line_run l : ∀ fuel alerted s n target dst,
  length (buf s) = 128%nat → 0 ≤ r s < 128 → 0 ≤ w s < 128 →
  (w s - r s) mod 128 = Z.of_nat (length l) + 1 →
  ring (buf s) (r s) (S (length l)) = l ++ [nl] →
  Forall plain l → Z.of_nat (length l) + 1 ≤ n → (length l < fuel)%nat →
  console_read_loop fuel alerted n target dst s = Ret (Some (dst ++ l ++ [nl])) (set_r (w s) s).
Proof.
  induction l as [|c l IH]; intros fuel alerted s n target dst Hb Hr Hw Hlen Hring Hl Hn Hf; simpl length in *.
  all: destruct fuel as [|fuel]; [lia|]; cbn [console_read_loop]; rewrite (proj2 (Z.ltb_lt 0 n)); [lia|].
  all: erewrite bind_run; [|reflexivity];
       rewrite (proj2 (Z.eqb_neq (r s) (w s))); [intros E; rewrite E Z.sub_diag Zmod_0_l in Hlen; lia|].
  all: erewrite bind_run; [|reflexivity]; cbn [negb]; erewrite bind_run; [|reflexivity];
       rewrite next_mod //; erewrite bind_run; [|reflexivity].
  all: rewrite ring_cons in Hring;
       destruct (list_lookup_Z_Some (buf s) ((r s + 1) mod 128)) as [x Hx];
         [rewrite Hb; dlia|]; rewrite Hx /= in Hring.
  - injection Hring as ->. erewrite bind_run; [|exact (of_opt_run _ _ _ Hx)]. change (nl =? C_D) with false. cbv iota.
    change (nl =? nl) with true. cbv iota. rewrite /mret /M_ret. f_equal. f_equal. dlia.
  - injection Hring as -> Hring. apply Forall_cons in Hl as [(Hc0 & H1 & H2 & H3 & H4 & H5 & H6) Hl].
    erewrite bind_run; [|exact (of_opt_run _ _ _ Hx)].
    rewrite (proj2 (Z.eqb_neq c C_D)) // (proj2 (Z.eqb_neq c nl)) //.
    rewrite (IH fuel alerted (set_r ((r s + 1) mod 128) s) (n - 1) target (dst ++ [c])); simpl; try done; try lia.
    + dlia.
    + dlia.
    + rewrite -app_assoc. done.
Qed.

Lemma fill_empty s : e s = r s → fill s = 0.
Proof. intros E. by rewrite /fill E Z.sub_diag. Qed.

(** C27: A typed line comes out as typed.  From any state with an empty ring,
    wherever its indices stand, an interrupt that delivers up to 125 plain
    characters and a newline echoes them (the newline with a carriage return),
    posts one line, and the next read asking for enough bytes returns exactly
    that line, newline included, without waiting, gives the inode lock back and
    leaves the ring empty.  The post stays: [can_read] is one higher after the
    read than before the line was typed, see [console_typeahead_stale]. *)
Theorem console_line_roundtrip s l n alerted :
  idx_ok s → r s = w s → w s = e s → ilock s = false → 0 ≤ ip_sem s →
  Forall plain l → (length l ≤ 125)%nat → Z.of_nat (length l) + 1 ≤ n →
  ∃ s1 s2, console_intr (l ++ [nl; 255]) s = Ret () s1 ∧
    uart s1 = uart s ++ l ++ [nl; cr] ∧ can_read s1 = can_read s + 1 ∧
    console_read alerted n s1 = Ret (Some (l ++ [nl])) s2 ∧
    r s2 = w s2 ∧ w s2 = e s2 ∧ ilock s2 = false ∧ ip_sem s2 = ip_sem s ∧ can_read s2 = can_read s1.
Proof.
  intros Hok Hrw Hwe Hlk Hip Hl Hlen Hn. pose proof Hok as (Hb & Hr & Hw & He).
  set (s0 := lset input_lock true s).
  assert (Hf0 : fill s0 = 0) by (apply fill_empty; simpl; congruence).
  destruct (chars_plain_run l s0 [nl; 255] Hok Hl) as (b' & Hrun & Hb' & Hring); [lia|].
  rewrite Hf0 Z.add_0_l /= Nat2Z.id in Hring.
  set (t := set_uart (uart s0 ++ l) (set_buf b' (set_e ((e s0 + Z.of_nat (length l)) mod 128) s0))) in *.
  assert (Hokt : idx_ok t) by (rewrite /idx_ok /=; split_and!; try lia; dlia).
  assert (Hft : fill t = Z.of_nat (length l)) by (rewrite /fill /= Hrw Hwe; dlia).
  pose proof (char_nl_run t Hokt ltac:(lia)) as Hnl.
  set (t1 := set_can_read _ _) in Hnl.
  set (s1 := lset input_lock false t1).
  assert (Hring1 : ring (buf s1) (r s1) (S (length l)) = l ++ [nl]).
  { pose proof (after_store_ring nl t Hokt ltac:(lia)) as H. rewrite Hft Nat2Z.id in H.
    replace (Z.to_nat (Z.of_nat (length l) + 1)) with (S (length l)) in H by lia.
    change (ring (buf (after_store nl t)) (r t) (S (length l)) = l ++ [nl]). rewrite H. f_equal. exact Hring. }
  exists s1, (set_r (w s1) s1). split_and!; try done.
  - rewrite /console_intr. rewrite (bind_run _ _ _ () s0); [by rewrite acquire_run /= Hlk|].
    rewrite (bind_run _ _ _ () t1); last by rewrite release_run.
    rewrite Hrun. cbn [console_chars]. change (nl =? 255) with false. cbv iota.
    by rewrite (bind_run _ _ _ _ _ Hnl).
  - simpl. by rewrite -app_assoc.
  - rewrite /console_read. erewrite bind_run; [|reflexivity].
    rewrite (bind_run _ _ _ () (lset input_lock true (set_ip_sem (ip_sem s1 + 1) s1))); [by rewrite acquire_run|].
    erewrite bind_run; last first.
    { apply (read_line_run l); try done.
      - by rewrite length_insert.
      - simpl. dlia.
      - simpl. rewrite Hrw Hwe. dlia.
      - lia. }
    rewrite app_nil_l. rewrite (bind_run _ _ _ _ _ (release_run _ _)).
    rewrite /ip_lock. erewrite bind_run; last first.
    { erewrite (bind_run _ _ _ (ip_sem s + 1)); [|reflexivity]. rewrite (proj2 (Z.ltb_lt 0 (ip_sem s + 1))); [lia|]. reflexivity. }
    rewrite /mret /M_ret. f_equal. replace (ip_sem s + 1 - 1) with (ip_sem s) by lia. reflexivity.
Qed.

Lemma console_line_roundtrip_witness :
  ∃ s1 s2, console_intr [104; 105; nl; 255] console_init = Ret () s1 ∧
    console_read false 10 s1 = Ret (Some [104; 105; nl]) s2.
Proof.
  destruct (console_line_roundtrip console_init [104; 105] 10 false) as (s1 & s2 & H1 & _ & _ & H2 & _);
    try reflexivity; try (simpl; lia).
  - rewrite /idx_ok /=. lia.
  - repeat constructor; try lia; discriminate.
  - exists s1, s2. split; [exact H1|exact H2].
Defined.

(** Type-ahead makes a later read return stale bytes.  When a line arrives
    before anybody waits for it, the read that takes the line leaves its post in
    [can_read_sem]; the next read finds the ring empty, takes that post instead
    of waiting, and goes on to bytes that are not in the ring: here one line of
    two bytes is typed, read, and read again, and the second read returns 126
    bytes nobody typed followed by the newline of the first line. *)
Theorem console_typeahead_stale :
  ∃ s1 s2 s3 stale,
    console_intr [97; nl; 255] console_init = Ret () s1 ∧
    console_read false 200 s1 = Ret (Some [97; nl]) s2 ∧ r s2 = w s2 ∧
    console_read false 200 s2 = Ret (Some (stale ++ [97; nl])) s3 ∧ length stale = 126%nat.
Proof.
  do 3 eexists. exists (replicate 126 0). split; [vm_compute; reflexivity|]. split; [vm_compute; reflexivity|].
  split; [vm_compute; reflexivity|]. split; [vm_compute; reflexivity|reflexivity].
Qed.

End Con.
