(* ===== verification/Inode.v ===== *)
(** * Inode: files, directories and paths, [fs/inode.c]

    Over any block cache ([BlockCache.v]).  An [Inode*] is an identifier into
    [itab]; [ihead] is the list of in-memory inodes, newest first.  A sleep lock
    is its count; taking one that is held is a [Hang].  A C string is the list of
    its bytes without the terminator; comparing and copying names is as [Str.v]
    proves of [strncmp] and [strncpy].  A read returns the bytes it stores. *)

From stdpp Require Import base numbers list gmap.
From S2P Require Import Prelude Bitmap Spinlock Bytes Str FsDefs BlockCache Console.

Record Inode := mkInode {
  i_lock : Z;
  i_rc : RefCount;
  inode_no : Z;
  i_valid : bool;
  entry : InodeEntry }.

Definition set_i_lock v (i : Inode) := mkInode v (i_rc i) (inode_no i) (i_valid i) (entry i).
Definition set_i_rc v (i : Inode) := mkInode (i_lock i) v (inode_no i) (i_valid i) (entry i).
Definition set_i_valid v (i : Inode) := mkInode (i_lock i) (i_rc i) (inode_no i) v (entry i).
Definition set_entry v (i : Inode) := mkInode (i_lock i) (i_rc i) (inode_no i) (i_valid i) v.
Definition set_ie_type v (e : InodeEntry) := mkEntry v (ie_major e) (ie_minor e) (ie_num_links e) (ie_num_bytes e) (ie_addrs e) (ie_indirect e).
Definition set_ie_num_bytes v (e : InodeEntry) := mkEntry (ie_type e) (ie_major e) (ie_minor e) (ie_num_links e) v (ie_addrs e) (ie_indirect e).
Definition set_ie_addrs v (e : InodeEntry) := mkEntry (ie_type e) (ie_major e) (ie_minor e) (ie_num_links e) (ie_num_bytes e) v (ie_indirect e).
Definition set_ie_indirect v (e : InodeEntry) := mkEntry (ie_type e) (ie_major e) (ie_minor e) (ie_num_links e) (ie_num_bytes e) (ie_addrs e) v.

(** An entry whose 64 bytes are zero, and [init_inode]. *)
Definition zero_entry : InodeEntry := mkEntry 0 0 0 0 0 (replicate 12 0) 0.
Definition init_inode : Inode := mkInode 1 init_rc 0 false zero_entry.

Section inode.
Context {S : Type} `{BlockCache S} (sb_of : S → SuperBlock).

Record istate := mkI {
  icache : S;
  itab_lock : SpinLock;
  ihead : list Z;
  itab : gmap Z Inode;
  inext : Z;                     (* the next address [kalloc] gives *)
  iroot : option Z;
  icwd : Z;
  icons : Con.cons }.

Definition set_icache v (s : istate) := mkI v (itab_lock s) (ihead s) (itab s) (inext s) (iroot s) (icwd s) (icons s).
Definition set_ihead v (s : istate) := mkI (icache s) (itab_lock s) v (itab s) (inext s) (iroot s) (icwd s) (icons s).
Definition set_itab v (s : istate) := mkI (icache s) (itab_lock s) (ihead s) v (inext s) (iroot s) (icwd s) (icons s).
Definition set_inext v (s : istate) := mkI (icache s) (itab_lock s) (ihead s) (itab s) v (iroot s) (icwd s) (icons s).
Definition set_iroot v (s : istate) := mkI (icache s) (itab_lock s) (ihead s) (itab s) (inext s) v (icwd s) (icons s).
Definition set_icons v (s : istate) := mkI (icache s) (itab_lock s) (ihead s) (itab s) (inext s) (iroot s) (icwd s) v.
Definition itab_lens : Lens istate SpinLock :=
  mkLens itab_lock (λ l s, mkI (icache s) l (ihead s) (itab s) (inext s) (iroot s) (icwd s) (icons s)).

(** Run a cache operation. *)
Definition lift {A} (m : M S A) : M istate A := λ s,
  match m (icache s) with
  | Ret a c => Ret a (set_icache c s)
  | Panic => Panic | Fault => Fault | Hang => Hang | Fuel => Fuel
  end.

(** Dereference an [Inode*], and write a field of it. *)
Definition iget (ip : Z) : M istate Inode := t ← gets itab; of_opt (t !! ip).
Definition iupd (ip : Z) (f : Inode → Inode) : M istate () :=
  t ← gets itab; i ← of_opt (t !! ip); modify (set_itab (<[ip := f i]> t)).

Definition sblock_of : M istate SuperBlock := gets (λ s, sb_of (icache s)).

Definition to_block_no (sb : SuperBlock) (ino : Z) : Z := inode_start sb + ino / INODE_PER_BLOCK.
(** The byte offset of the entry in its block. *)
Definition get_entry (ino : Z) : nat := Z.to_nat (64 * (ino mod INODE_PER_BLOCK)).
Definition get_addrs (d : list Z) : list Z := Bytes.words 4 128 d.
Definition put_addrs (a : list Z) : list Z := unwords 4 a.

(** The loop of [inode_alloc] from [i] on. *)
Fixpoint inode_alloc_loop (n : nat) (ctx : option Z) (type i : Z) : M istate Z :=
  sb ← sblock_of;
  if i <? num_inodes sb then
    match n with
    | O => nofuel
    | Datatypes.S n =>
        block ← lift (bc_acquire (to_block_no sb i));
        d ← lift (bc_data block);
        if ie_type (decode_entry (slice d (get_entry i) 64)) =? INODE_INVALID then
          lift (bc_store block (splice d (get_entry i) (encode_entry (set_ie_type type zero_entry))));;
          lift (bc_sync ctx block);;
          lift (bc_release block);;
          mret i
        else
          lift (bc_release block);;
          inode_alloc_loop n ctx type (i + 1)
    end
  else panic.
Definition inode_alloc (ctx : option Z) (type : Z) : M istate Z :=
  assert_ (negb (type =? INODE_INVALID));;
  sb ← sblock_of;
  inode_alloc_loop (Z.to_nat (num_inodes sb)) ctx type 1.

Definition inode_lock (ip : Z) : M istate () :=
  i ← iget ip; assert_ (0 <? count (i_rc i));;
  if 0 <? i_lock i then iupd ip (set_i_lock (i_lock i - 1)) else hang.
Definition inode_unlock (ip : Z) : M istate () :=
  i ← iget ip; assert_ (0 <? count (i_rc i));;
  iupd ip (set_i_lock (i_lock i + 1)).

Definition inode_sync (ctx : option Z) (ip : Z) (do_write : bool) : M istate () :=
  i ← iget ip;
  sb ← sblock_of;
  block ← lift (bc_acquire (to_block_no sb (inode_no i)));
  d ← lift (bc_data block);
  (if i_valid i && do_write then
     lift (bc_store block (splice d (get_entry (inode_no i)) (encode_entry (entry i))));;
     lift (bc_sync ctx block)
   else if negb (i_valid i) then
     iupd ip (set_i_valid true);;
     iupd ip (set_entry (decode_entry (slice d (get_entry (inode_no i)) 64)))
   else mret ());;
  lift (bc_release block).

(** The list scan of [inode_get]. *)
Fixpoint find_inode (t : gmap Z Inode) (l : list Z) (ino : Z) : option (option Z) :=
  match l with
  | [] => Some None
  | p :: l =>
      match t !! p with
      | None => None
      | Some i => if (inode_no i =? ino) && (0 <? count (i_rc i)) then Some (Some p) else find_inode t l ino
      end
  end.

Definition inode_get (ino : Z) : M istate Z :=
  sb ← sblock_of;
  assert_ (0 <? ino);;
  assert_ (ino <? num_inodes sb);;
  _acquire_spinlock itab_lens;;
  s ← get;
  found ← of_opt (find_inode (itab s) (ihead s) ino);
  match found with
  | Some ip =>
      iupd ip (λ i, set_i_rc (_increment_rc (i_rc i)) i);;
      release_spinlock itab_lens;;
      inode_lock ip;;
      inode_unlock ip;;
      mret ip
  | None =>
      let ip := inext s in
      modify (set_inext (ip + 1));;
      modify (λ s, set_itab (<[ip := init_inode]> (itab s)) s);;
      modify (λ s, set_ihead (ip :: ihead s) s);;
      iupd ip (λ i, mkInode (i_lock i) (i_rc i) ino (i_valid i) (entry i));;
      iupd ip (λ i, set_i_rc (_increment_rc (i_rc i)) i);;
      inode_lock ip;;
      release_spinlock itab_lens;;
      inode_sync None ip false;;
      inode_unlock ip;;
      mret ip
  end.

Definition init_inodes : M istate () :=
  modify (λ s, lset itab_lens init_spinlock s);;
  modify (set_ihead []);;
  sb ← sblock_of;
  if ROOT_INODE_NO <? num_inodes sb then
    ip ← inode_get ROOT_INODE_NO; modify (set_iroot (Some ip))
  else mret ().

(** Free every nonzero address of a list. *)
Fixpoint free_addrs (ctx : option Z) (l : list Z) : M istate () :=
  match l with
  | [] => mret ()
  | a :: l => (if negb (a =? 0) then lift (bc_free ctx a) else mret ());; free_addrs ctx l
  end.

Definition inode_clear (ctx : option Z) (ip : Z) : M istate () :=
  i ← iget ip;
  free_addrs ctx (ie_addrs (entry i));;
  iupd ip (λ i, set_entry (set_ie_addrs (replicate 12 0) (entry i)) i);;
  i ← iget ip;
  (if negb (ie_indirect (entry i) =? 0) then
     block ← lift (bc_acquire (ie_indirect (entry i)));
     d ← lift (bc_data block);
     free_addrs ctx (get_addrs d);;
     lift (bc_release block);;
     lift (bc_free ctx (ie_indirect (entry i)));;
     iupd ip (λ i, set_entry (set_ie_indirect 0 (entry i)) i)
   else mret ());;
  iupd ip (λ i, set_entry (set_ie_num_bytes 0 (entry i)) i);;
  inode_sync ctx ip true.

Definition inode_share (ip : Z) : M istate Z :=
  _acquire_spinlock itab_lens;;
  iupd ip (λ i, set_i_rc (_increment_rc (i_rc i)) i);;
  release_spinlock itab_lens;;
  mret ip.

Definition inode_put (ctx : option Z) (ip : Z) : M istate () :=
  _acquire_spinlock itab_lens;;
  i ← iget ip;
  if (count (i_rc i) =? 1) && (ie_num_links (entry i) =? 0) && i_valid i then
    inode_lock ip;;
    modify (λ s, set_ihead (filter (λ x, x ≠ ip) (ihead s)) s);;
    release_spinlock itab_lens;;
    inode_clear ctx ip;;
    iupd ip (λ i, set_entry (set_ie_type INODE_INVALID (entry i)) i);;
    inode_sync ctx ip true;;
    iupd ip (set_i_valid false);;
    inode_unlock ip;;
    modify (λ s, set_itab (delete ip (itab s)) s)
  else
    iupd ip (λ i, set_i_rc (_decrement_rc (i_rc i)).2 i);;
    release_spinlock itab_lens.

(** The block of [ip] where block index [offset] lives, allocated if need be; and
    whether the inode was modified. *)
Definition inode_map (ctx : option Z) (ip offset : Z) : M istate (Z * bool) :=
  i ← iget ip;
  if offset <? INODE_NUM_DIRECT then
    bno ← of_opt (ie_addrs (entry i) !! Z.to_nat offset);
    if bno =? 0 then
      bno ← lift (bc_alloc ctx);
      iupd ip (λ i, set_entry (set_ie_addrs (<[Z.to_nat offset := u32 bno]> (ie_addrs (entry i))) (entry i)) i);;
      mret (bno, true)
    else mret (bno, false)
  else if offset - INODE_NUM_DIRECT <? INODE_NUM_INDIRECT then
    let offset := offset - INODE_NUM_DIRECT in
    '(bno, modified) ←
      (if ie_indirect (entry i) =? 0 then
         bno ← lift (bc_alloc ctx);
         iupd ip (λ i, set_entry (set_ie_indirect (u32 bno) (entry i)) i);;
         mret (bno, true)
       else mret (ie_indirect (entry i), false));
    block ← lift (bc_acquire bno);
    d ← lift (bc_data block);
    bno ← of_opt (get_addrs d !! Z.to_nat offset);
    if bno =? 0 then
      bno ← lift (bc_alloc ctx);
      d ← lift (bc_data block);
      lift (bc_store block (put_addrs (<[Z.to_nat offset := u32 bno]> (get_addrs d))));;
      lift (bc_sync ctx block);;
      lift (bc_release block);;
      mret (bno, true)
    else
      lift (bc_release block);;
      mret (bno, modified)
  else panic.

(** Run a console operation on behalf of inode [ip]. *)
Definition run_console {A} (ip : Z) (m : M Con.cons A) : M istate A := λ s,
  match itab s !! ip with
  | None => Fault
  | Some i =>
      match m (Con.set_ip_sem (i_lock i) (icons s)) with
      | Ret a c => Ret a (set_icons c (set_itab (<[ip := set_i_lock (Con.ip_sem c) i]> (itab s)) s))
      | Panic => Panic | Fault => Fault | Hang => Hang | Fuel => Fuel
      end
  end.

(** The loop of [inode_read]; [left] is [count - have_read].  Returns the bytes
    and the flag of the last [inode_map]. *)
Fixpoint inode_read_loop (n : nat) (ip offset left : Z) (modified : bool) : M istate (list Z * bool) :=
  if 0 <? left then
    match n with
    | O => nofuel
    | Datatypes.S n =>
        '(bno, modified) ← inode_map None ip (offset / BLOCK_SIZE);
        block ← lift (bc_acquire bno);
        let o := offset mod BLOCK_SIZE in
        let sz := if left <? BLOCK_SIZE - o then left else BLOCK_SIZE - o in
        d ← lift (bc_data block);
        lift (bc_release block);;
        '(rest, modified) ← inode_read_loop n ip (offset + sz) (left - sz) modified;
        mret (slice d (Z.to_nat o) (Z.to_nat sz) ++ rest, modified)
    end
  else mret ([], modified).

Definition inode_read (alerted : bool) (ip offset count : Z) : M istate (Z * list Z) :=
  i ← iget ip;
  let e := entry i in
  if ie_type e =? INODE_DEVICE then
    assert_ (ie_major e =? 1);;
    r ← run_console ip (Con.console_read alerted (i64 count));
    mret (match r with Some l => (Z.of_nat (length l), l) | None => (u64 (-1), []) end)
  else
    let count := if ie_num_bytes e <? u64 (count + offset) then u64 (ie_num_bytes e - offset) else count in
    let end_ := u64 (offset + count) in
    assert_ (offset <=? ie_num_bytes e);;
    assert_ (end_ <=? ie_num_bytes e);;
    assert_ (offset <=? end_);;
    '(l, modified) ← inode_read_loop (Z.to_nat count) ip offset count false;
    assert_ (negb modified);;
    mret (count, l).

Fixpoint inode_write_loop (n : nat) (ctx : option Z) (ip : Z) (src : list Z) (offset left : Z) (modified : bool)
    : M istate bool :=
  if 0 <? left then
    match n with
    | O => nofuel
    | Datatypes.S n =>
        '(bno, this_modified) ← inode_map ctx ip (offset / BLOCK_SIZE);
        block ← lift (bc_acquire bno);
        let o := offset mod BLOCK_SIZE in
        let sz := if left <? BLOCK_SIZE - o then left else BLOCK_SIZE - o in
        d ← lift (bc_data block);
        lift (bc_store block (splice d (Z.to_nat o) (take (Z.to_nat sz) src)));;
        lift (bc_sync ctx block);;
        lift (bc_release block);;
        inode_write_loop n ctx ip (drop (Z.to_nat sz) src) (offset + sz) (left - sz) (this_modified || modified)
    end
  else mret modified.

(** [src] holds at least [count] bytes. *)
Definition inode_write (ctx : option Z) (ip : Z) (src : list Z) (offset count : Z) : M istate Z :=
  i ← iget ip;
  let e := entry i in
  let end_ := u64 (offset + count) in
  if ie_type e =? INODE_DEVICE then
    assert_ (ie_major e =? 1);;
    run_console ip (Con.console_write (take (Z.to_nat count) src))
  else
    assert_ (offset <=? ie_num_bytes e);;
    assert_ (end_ <=? INODE_MAX_BYTES);;
    assert_ (offset <=? end_);;
    modified ← inode_write_loop (Z.to_nat count) ctx ip src offset count false;
    i ← iget ip;
    (if modified || (ie_num_bytes (entry i) <? end_) then
       iupd ip (λ i, set_entry (set_ie_num_bytes (u32 end_) (entry i)) i);;
       inode_sync ctx ip true
     else mret ());;
    mret count.

(** ** Directories *)
(** The scan of a directory from byte [i]: the first entry [P] holds of. *)
Fixpoint dir_scan (n : nat) (ip i : Z) (P : DirEntry → bool) : M istate (option (Z * DirEntry)) :=
  ino ← iget ip;
  if i <? ie_num_bytes (entry ino) then
    match n with
    | O => nofuel
    | Datatypes.S n =>
        '(_, l) ← inode_read false ip i sizeof_DirEntry;
        let de := decode_dirent l in
        if P de then mret (Some (i, de)) else dir_scan n ip (i + sizeof_DirEntry) P
    end
  else mret None.

Definition dir_fuel (e : InodeEntry) : nat := Z.to_nat (ie_num_bytes e).

Definition name_matches (name : list Z) (de : DirEntry) : bool :=
  negb (de_inode_no de =? 0) && bool_decide (strn 14 (de_name de) = strn 14 name).

(** The inode number found, or 0, and the index stored through [index]. *)
Definition inode_lookup (ip : Z) (name : list Z) : M istate (Z * option Z) :=
  i ← iget ip;
  assert_ (ie_type (entry i) =? INODE_DIRECTORY);;
  r ← dir_scan (dir_fuel (entry i)) ip 0 (name_matches name);
  mret (match r with Some (k, de) => (de_inode_no de, Some k) | None => (0, None) end).

Definition inode_insert (ctx : option Z) (ip : Z) (name : list Z) (ino : Z) : M istate Z :=
  i ← iget ip;
  assert_ (ie_type (entry i) =? INODE_DIRECTORY);;
  '(found, _) ← inode_lookup ip name;
  if negb (found =? 0) then mret (u64 (-1))
  else
    r ← dir_scan (dir_fuel (entry i)) ip 0 (λ de, de_inode_no de =? 0);
    i ← iget ip;
    (* without a free entry the loop stops at the first multiple of the entry
       size that is not below [num_bytes] *)
    let k := match r with
             | Some (k, _) => k
             | None => sizeof_DirEntry * ((ie_num_bytes (entry i) + sizeof_DirEntry - 1) / sizeof_DirEntry)
             end in
    _ ← inode_write ctx ip (encode_dirent (mkDirEntry (u16 ino) (padded 14 name))) k sizeof_DirEntry;
    mret k.

Definition inode_remove (ctx : option Z) (ip index : Z) : M istate () :=
  i ← iget ip;
  assert_ (ie_type (entry i) =? INODE_DIRECTORY);;
  _ ← inode_write ctx ip (encode_dirent (mkDirEntry 0 (replicate 14 0))) index sizeof_DirEntry;
  mret ().

(** ** Paths *)
Definition slash : Z := 47.
Fixpoint skip_slashes (p : list Z) : list Z :=
  match p with c :: p' => if c =? slash then skip_slashes p' else p | [] => [] end.
Fixpoint element (p : list Z) : list Z * list Z :=
  match p with
  | c :: p' => if c =? slash then ([], p) else let '(a, b) := element p' in (c :: a, b)
  | [] => ([], [])
  end.

(** The rest of the path and the new contents of the array [name]; [None] is the
    null pointer. *)
Definition skipelem (path name : list Z) : option (list Z * list Z) :=
  let path := skip_slashes path in
  match path with
  | [] => None
  | _ =>
      let '(s, rest) := element path in
      let len := Z.of_nat (length s) in
      let name' :=
        if FILE_NAME_MAX_LENGTH <=? len then splice name 0 (take 14 s)
        else splice name 0 (s ++ [0]) in
      Some (skip_slashes rest, name')
  end.

(** [namex] after the start inode is taken: [path] is null after a [skipelem]
    that found nothing, and reading it then is a fault. *)
Fixpoint namex_loop (n : nat) (path : option (list Z)) (nameiparent : bool) (name : list Z) (ctx : option Z)
    (p : Z) : M istate (option Z * list Z) :=
  match path with
  | None => fault
  | Some [] => mret (Some p, name)
  | Some path =>
      match n with
      | O => nofuel
      | Datatypes.S n =>
          let r := skipelem path name in
          let path := fst <$> r in
          let name := default name (snd <$> r) in
          if nameiparent && bool_decide (path = None) then inode_put ctx p;; mret (None, name)
          else if nameiparent && bool_decide (path = Some []) then mret (Some p, name)
          else
            inode_lock p;;
            i ← iget p;
            if negb (ie_type (entry i) =? INODE_DIRECTORY) then
              inode_unlock p;; inode_put ctx p;; mret (None, name)
            else
              '(ino, _) ← inode_lookup p (until0 name);
              inode_unlock p;;
              inode_put ctx p;;
              if ino =? 0 then mret (None, name)
              else p ← inode_get ino; namex_loop n path nameiparent name ctx p
      end
  end.

Definition namex (path : list Z) (nameiparent : bool) (name : list Z) (ctx : option Z) : M istate (option Z * list Z) :=
  s ← get;
  p ← (match path with
       | 47 :: _ => root ← of_opt (iroot s); inode_share root
       | _ => inode_share (icwd s)
       end);
  namex_loop (Datatypes.S (length path)) (Some path) nameiparent name ctx p.

(** The array [name] of [namei] is not initialised: [garbage] is what it holds. *)
Definition namei (garbage path : list Z) (ctx : option Z) : M istate (option Z) :=
  '(p, _) ← namex path false garbage ctx; mret p.
Definition nameiparent (path name : list Z) (ctx : option Z) : M istate (option Z * list Z) := namex path true name ctx.

Record stat := mkStat { st_dev : Z; st_ino : Z; st_nlink : Z; st_size : Z; st_mode : Z }.
Definition S_IFREG : Z := 32768.
Definition S_IFDIR : Z := 16384.
Definition stati (ip : Z) : M istate stat :=
  i ← iget ip;
  let e := entry i in
  mode ← (if ie_type e =? INODE_REGULAR then mret S_IFREG
          else if ie_type e =? INODE_DIRECTORY then mret S_IFDIR
          else if ie_type e =? INODE_DEVICE then mret 0 else panic);
  mret (mkStat 1 (inode_no i) (ie_num_links e) (ie_num_bytes e) mode).
End inode.
