(* ===== verification/InodeRead.v ===== *)
(** * InodeRead: reading a file

    What a file holds, seen through the block cache: block [k] of the file is
    found through the entry's direct addresses or its indirect block.
    [inode_read] returns exactly the requested bytes and leaves every block as
    it was, whatever block cache satisfies the laws of [BlockCache.v]. *)

From stdpp Require Import base numbers list gmap.
From S2P Require Import Prelude Bitmap Spinlock Bytes FsDefs BlockCache Cache CacheOps CacheAlloc Console Inode.

(** The address of block [k] of a file whose entry is [e]; 0 is "not allocated". *)
Definition block_index (c : Z → option (list Z)) (e : InodeEntry) (k : Z) : option Z :=
  if k <? INODE_NUM_DIRECT then ie_addrs e !! Z.to_nat k
  else if k - INODE_NUM_DIRECT <? INODE_NUM_INDIRECT then
    if ie_indirect e =? 0 then Some 0
    else d ← c (ie_indirect e); get_addrs d !! Z.to_nat (k - INODE_NUM_DIRECT)
  else None.

(** Byte [n] of the file. *)
Definition file_byte (c : Z → option (list Z)) (e : InodeEntry) (n : Z) : option Z :=
  b ← block_index c e (n / BLOCK_SIZE);
  if b =? 0 then None else d ← c b; d !! Z.to_nat (n mod BLOCK_SIZE).

Section read.
Context {S : Type} `{BC : BlockCache S} (sb_of : S → SuperBlock) {laws : BlockOpsLaws S sb_of}.
Implicit Types s : istate (S := S).

(** The cache looks the same to its clients. *)
Definition same (c c' : S) : Prop :=
  bc_goes c' (bc_content c) (bc_held c) ∧ sb_of c' = sb_of c ∧
  (∀ b, bc_held c b = true → bc_clean c b → bc_clean c' b) ∧
  (∀ ctx n, bc_room ctx n c → bc_room ctx n c').

Lemma same_refl c : bc_wf c → same c c.
Proof. by repeat split. Qed.

Lemma same_trans c1 c2 c3 : same c1 c2 → same c2 c3 → same c1 c3.
Proof.
  intros ((W1 & C1 & H1) & B1 & L1 & R1) ((W2 & C2 & H2) & B2 & L2 & R2). split; [split_and!|split_and!].
  - done.
  - intros b. by rewrite C2 C1.
  - intros b. by rewrite H2 H1.
  - congruence.
  - intros b Hb Hc. apply L2; [by rewrite H1|]. by apply L1.
  - auto.
Qed.

Lemma same_wf c c' : same c c' → bc_wf c'.
Proof. by intros ((? & _) & _). Qed.
Lemma same_content c c' b : same c c' → bc_content c' b = bc_content c b.
Proof. intros ((_ & ? & _) & _). auto. Qed.
Lemma same_held c c' b : same c c' → bc_held c' b = bc_held c b.
Proof. intros ((_ & _ & ?) & _). auto. Qed.

Lemma lift_run {A} (m : M S A) s a c' : m (icache s) = Ret a c' → lift m s = Ret a (set_icache c' s).
Proof. rewrite /lift. by intros ->. Qed.

Lemma iget_run ip s i : itab s !! ip = Some i → iget ip s = Ret i s.
Proof. intros Hi. rewrite /iget. erewrite bind_run; [|reflexivity]. exact (of_opt_run _ _ _ Hi). Qed.

Lemma iupd_run ip s i f : itab s !! ip = Some i → iupd ip f s = Ret () (set_itab (<[ip := f i]> (itab s)) s).
Proof.
  intros Hi. rewrite /iupd. erewrite bind_run; [|reflexivity].
  erewrite bind_run; [|exact (of_opt_run _ _ _ Hi)]. done.
Qed.

(** A whole read of a block: acquire, read, release. *)
Lemma read_session s b d :
  bc_wf (icache s) → bc_content (icache s) b = Some d → bc_held (icache s) b = false →
  ∃ c1 c2, lift (bc_acquire b) s = Ret b (set_icache c1 s) ∧
    lift (bc_data b) (set_icache c1 s) = Ret d (set_icache c1 s) ∧
    lift (bc_release b) (set_icache c1 s) = Ret () (set_icache c2 s) ∧ same (icache s) c2.
Proof.
  intros W C Hh. destruct (session_read _ b d W C Hh) as (c1 & c2 & A & D & R & G & B & L & RM).
  exists c1, c2. split_and!.
  - exact (lift_run _ _ _ _ A).
  - exact (lift_run _ (set_icache c1 s) _ _ D).
  - exact (lift_run _ (set_icache c1 s) _ _ R).
  - done.
Qed.

(** Whether the blocks through which block [k] is reached can be taken. *)
Definition path_free (c : S) (e : InodeEntry) (k : Z) : Prop :=
  k < INODE_NUM_DIRECT ∨ bc_held c (ie_indirect e) = false.

Lemma map_present ctx s ip i k b :
  itab s !! ip = Some i → bc_wf (icache s) →
  block_index (bc_content (icache s)) (entry i) k = Some b → b ≠ 0 → path_free (icache s) (entry i) k →
  ∃ c', inode_map ctx ip k s = Ret (b, false) (set_icache c' s) ∧ same (icache s) c'.
Proof.
  intros Hi W Hb Hb0 Hp. rewrite /inode_map. erewrite bind_run; [|exact (iget_run _ _ _ Hi)].
  rewrite /block_index in Hb. rewrite /path_free in Hp. destruct (Z.ltb_spec k INODE_NUM_DIRECT).
  - erewrite bind_run; [|exact (of_opt_run _ _ _ Hb)].
    rewrite (proj2 (Z.eqb_neq b 0) Hb0). exists (icache s). split; [by destruct s|by apply same_refl].
  - destruct Hp as [?|Hp]; [lia|]. destruct (_ <? INODE_NUM_INDIRECT); [|done].
    destruct (ie_indirect (entry i) =? 0); [congruence|].
    apply bind_Some in Hb as (d & Hd & Hb).
    erewrite bind_run; [|reflexivity]. cbv beta iota.
    destruct (read_session s _ d W Hd Hp) as (c1 & c2 & A & D & R & Sm).
    erewrite bind_run; [|exact A]. erewrite bind_run; [|exact D].
    erewrite bind_run; [|exact (of_opt_run _ _ _ Hb)].
    rewrite (proj2 (Z.eqb_neq b 0) Hb0). erewrite bind_run; [|exact R]. by exists c2.
Qed.

(** The file has block [k]: allocated, on the disk, and nobody holds it. *)
Definition has_block (c : S) (e : InodeEntry) (k : Z) : Prop :=
  path_free c e k ∧
  ∃ b, block_index (bc_content c) e k = Some b ∧ b ≠ 0 ∧ is_Some (bc_content c b) ∧ bc_held c b = false.

Lemma block_index_ext c c' e k : (∀ b, c b = c' b) → block_index c e k = block_index c' e k.
Proof. intros H. rewrite /block_index H //. Qed.

Lemma file_byte_ext c c' e n : (∀ b, c b = c' b) → file_byte c e n = file_byte c' e n.
Proof.
  intros H. rewrite /file_byte (block_index_ext c c') //. destruct (block_index c' e _) as [b|]; [|done].
  simpl. by rewrite H.
Qed.

Lemma has_block_same c c' e k : same c c' → has_block c e k → has_block c' e k.
Proof.
  intros Hs (Hp & b & Hb & ? & ? & ?). split.
  - destruct Hp as [?|?]; [by left|right]. by rewrite (same_held _ _ _ Hs).
  - exists b. rewrite (same_content _ _ _ Hs) (same_held _ _ _ Hs). split_and!; try done.
    rewrite -Hb. apply block_index_ext => b'. exact (same_content _ _ _ Hs).
Qed.

Definition chunk (offset left : Z) : Z :=
  if left <? BLOCK_SIZE - offset mod BLOCK_SIZE then left else BLOCK_SIZE - offset mod BLOCK_SIZE.

Lemma chunk_bounds offset left : 0 < left → 0 < chunk offset left ≤ left ∧ offset mod BLOCK_SIZE + chunk offset left ≤ BLOCK_SIZE.
Proof.
  intros. rewrite /chunk. pose proof (Z.mod_pos_bound offset BLOCK_SIZE ltac:(done)).
  destruct (Z.ltb_spec left (BLOCK_SIZE - offset mod BLOCK_SIZE)); lia.
Qed.

(** A byte of the chunk is in the block of its first byte. *)
Lemma chunk_div offset left j :
  0 ≤ offset → 0 < left → 0 ≤ j < chunk offset left →
  (offset + j) / BLOCK_SIZE = offset / BLOCK_SIZE ∧ (offset + j) mod BLOCK_SIZE = offset mod BLOCK_SIZE + j.
Proof.
  intros Ho Hl Hj. pose proof (chunk_bounds offset left Hl) as [_ Hc].
  rewrite /BLOCK_SIZE in Hc |- *. dlia.
Qed.

Lemma read_loop n : ∀ s ip i offset left m,
  itab s !! ip = Some i → bc_wf (icache s) → 0 ≤ offset → left ≤ Z.of_nat n →
  (∀ k, 0 ≤ k → offset < (k + 1) * BLOCK_SIZE → k * BLOCK_SIZE < offset + left → has_block (icache s) (entry i) k) →
  ∃ l m' c', inode_read_loop n ip offset left m s = Ret (l, m') (set_icache c' s) ∧ same (icache s) c' ∧
    m' = (if 0 <? left then false else m) ∧ length l = Z.to_nat left ∧
    ∀ j, 0 ≤ j < left → l !! Z.to_nat j = file_byte (bc_content (icache s)) (entry i) (offset + j).
Proof.
  induction n as [|n IH]; intros s ip i offset left m Hi W Ho Hn Hblk; simpl.
  { rewrite (proj2 (Z.ltb_ge 0 left) ltac:(lia)). exists [], m, (icache s). split_and!.
    - by destruct s.
    - by apply same_refl.
    - done.
    - by replace (Z.to_nat left) with 0%nat by lia.
    - lia. }
  destruct (Z.ltb_spec 0 left) as [Hl|Hl]; last first.
  { exists [], m, (icache s). split_and!.
    - by destruct s.
    - by apply same_refl.
    - done.
    - by replace (Z.to_nat left) with 0%nat by lia.
    - lia. }
  pose proof (chunk_bounds offset left Hl) as [Hsz Hsz2].
  destruct (Hblk (offset / BLOCK_SIZE)) as (Hp & b & Hb & Hb0 & [d Hd] & Hh).
  { by apply Z.div_pos. }
  { rewrite /BLOCK_SIZE. dlia. }
  { rewrite /BLOCK_SIZE. dlia. }
  destruct (map_present None s ip i _ b Hi W Hb Hb0 Hp) as (c1 & Hmap & S1).
  erewrite bind_run; [|exact Hmap]. cbv beta iota.
  destruct (read_session (set_icache c1 s) b d) as (c2 & c3 & A & D & R & S2).
  { by apply (same_wf _ _ S1). }
  { by rewrite (same_content _ _ _ S1). }
  { by rewrite (same_held _ _ _ S1). }
  pose proof (same_trans _ _ _ S1 S2) as S3.
  erewrite bind_run; [|exact A]. erewrite bind_run; [|exact D]. erewrite bind_run; [|exact R].
  change (if left <? BLOCK_SIZE - offset mod BLOCK_SIZE then left else BLOCK_SIZE - offset mod BLOCK_SIZE)
    with (chunk offset left).
  destruct (IH (set_icache c3 s) ip i (offset + chunk offset left) (left - chunk offset left) false)
    as (l & m' & c4 & Hrun & S4 & Hm & Hlen & Hl').
  { done. }
  { exact (same_wf _ _ S3). }
  { lia. }
  { lia. }
  { intros k ? ? ?. apply (has_block_same _ _ _ _ S3). apply Hblk; lia. }
  erewrite bind_run; [|exact Hrun]. cbv beta iota.
  assert (Hd' : length d = 512%nat) by apply (content_law _ _ _ W Hd).
  assert (Hsl : length (slice d (Z.to_nat (offset mod BLOCK_SIZE)) (Z.to_nat (chunk offset left)))
                = Z.to_nat (chunk offset left)).
  { apply length_slice. pose proof (Z.mod_pos_bound offset BLOCK_SIZE ltac:(done)).
    rewrite Hd'. assert (BLOCK_SIZE = 512) by done. lia. }
  eexists _, _, c4. split_and!.
  - reflexivity.
  - exact (same_trans _ _ _ S3 S4).
  - rewrite Hm. by destruct (0 <? _).
  - rewrite length_app Hsl Hlen. lia.
  - intros j Hj. destruct (decide (j < chunk offset left)) as [Hjc|Hjc].
    + rewrite lookup_app_l; [rewrite Hsl; lia|]. rewrite lookup_slice decide_True; [lia|].
      destruct (chunk_div offset left j) as [E1 E2]; [done|done|lia|].
      rewrite /file_byte E1 Hb /=. rewrite (proj2 (Z.eqb_neq b 0) Hb0) Hd /= E2. f_equal.
      pose proof (Z.mod_pos_bound offset BLOCK_SIZE ltac:(done)). lia.
    + rewrite lookup_app_r; [rewrite Hsl; lia|]. rewrite Hsl.
      replace (Z.to_nat j - Z.to_nat (chunk offset left))%nat with (Z.to_nat (j - chunk offset left)) by lia.
      rewrite Hl'; [lia|]. rewrite (file_byte_ext _ (bc_content (icache s))).
      { intros b'. exact (same_content _ _ _ S3). }
      f_equal. lia.
Qed.

(** [inode_read] returns the bytes asked for, up to the end of the file. *)
Lemma inode_read_spec alerted s ip i offset cnt :
  itab s !! ip = Some i → bc_wf (icache s) → ie_type (entry i) ≠ INODE_DEVICE →
  0 ≤ offset ≤ ie_num_bytes (entry i) → ie_num_bytes (entry i) < 2 ^ 32 → 0 ≤ cnt < 2 ^ 32 →
  (∀ k, 0 ≤ k → k * BLOCK_SIZE < ie_num_bytes (entry i) → has_block (icache s) (entry i) k) →
  ∃ l c', inode_read alerted ip offset cnt s =
            Ret (Z.min cnt (ie_num_bytes (entry i) - offset), l) (set_icache c' s) ∧
    same (icache s) c' ∧
    length l = Z.to_nat (Z.min cnt (ie_num_bytes (entry i) - offset)) ∧
    ∀ j, 0 ≤ j < Z.min cnt (ie_num_bytes (entry i) - offset) →
      l !! Z.to_nat j = file_byte (bc_content (icache s)) (entry i) (offset + j).
Proof.
  intros Hi W Ht Ho Hnb Hc Hblk. set (count := Z.min cnt (ie_num_bytes (entry i) - offset)).
  rewrite /inode_read. erewrite bind_run; [|exact (iget_run _ _ _ Hi)].
  rewrite (proj2 (Z.eqb_neq _ _) Ht). rewrite /u64 (wrap_small 64 (cnt + offset)); [lia|].
  rewrite (_ : (if ie_num_bytes (entry i) <? cnt + offset then wrap 64 (ie_num_bytes (entry i) - offset) else cnt) = count).
  { rewrite /count. destruct (Z.ltb_spec (ie_num_bytes (entry i)) (cnt + offset)); [|lia].
    rewrite wrap_small; lia. }
  assert (Hcount : 0 ≤ count ∧ offset + count ≤ ie_num_bytes (entry i)) by (rewrite /count; lia).
  rewrite wrap_small; [lia|].
  rewrite !(proj2 (Z.leb_le _ _)); [lia..|].
  destruct (read_loop (Z.to_nat count) s ip i offset count false) as (l & m & c' & Hrun & Sm & -> & Hlen & Hl);
    [done|done|lia|lia| |].
  { intros k ? ? ?. apply Hblk; lia. }
  do 3 (erewrite bind_run; [|reflexivity]). erewrite bind_run; [|exact Hrun]. cbv beta iota.
  assert (negb (if 0 <? count then false else false) = true) as -> by by destruct (0 <? count).
  erewrite bind_run; [|reflexivity]. by exists l, c'.
Qed.
End read.

(** C22: Over the block cache of the kernel, on a regular file or a directory with a block for every byte of its size,
    none of them held, and for an offset inside the file, inode_read returns the
    bytes of the file from the offset on, cut at the end of the file, reports how
    many there are, and changes neither the inode table nor the contents of any
    block nor who holds it: no block is allocated and the assertion on the flag
    holds. *)
Theorem inode_read_returns_file_bytes alerted (s : istate (S := cstate)) ip i offset cnt :
  itab s !! ip = Some i → cache_wf (icache s) → ie_type (entry i) ≠ INODE_DEVICE →
  0 ≤ offset ≤ ie_num_bytes (entry i) → ie_num_bytes (entry i) < 2 ^ 32 → 0 ≤ cnt < 2 ^ 32 →
  (∀ k, 0 ≤ k → k * BLOCK_SIZE < ie_num_bytes (entry i) → has_block (icache s) (entry i) k) →
  ∃ l c', inode_read alerted ip offset cnt s =
            Ret (Z.min cnt (ie_num_bytes (entry i) - offset), l) (set_icache c' s) ∧
    (∀ b, content c' b = content (icache s) b) ∧ (∀ b, held c' b = held (icache s) b) ∧ cache_wf c' ∧
    length l = Z.to_nat (Z.min cnt (ie_num_bytes (entry i) - offset)) ∧
    ∀ j, 0 ≤ j < Z.min cnt (ie_num_bytes (entry i) - offset) →
      l !! Z.to_nat j = file_byte (content (icache s)) (entry i) (offset + j).
Proof.
  intros Hi W Ht Ho Hnb Hc Hblk.
  destruct (inode_read_spec (BC := cache_ops) sblock (laws := cache_ops_laws) alerted s ip i offset cnt Hi W Ht Ho Hnb Hc Hblk) as
    (l & c' & R & ((W' & C & Hh) & _) & Hlen & Hl).
  exists l, c'. split_and!; done.
Qed.

(** Inode 1 is a file of 600 bytes in blocks 4 and 3 of the ten-block disk. *)
Definition demo_entry : InodeEntry := mkEntry INODE_REGULAR 0 0 1 600 (4 :: 3 :: replicate 10 0) 0.
Definition demo_inode : Inode := mkInode 0 (mkRC 1) 1 true demo_entry.
Definition demo_inodes : istate (S := cstate) :=
  mkI demo2 false [5] {[ 5 := demo_inode ]} 6 (Some 5) 5 Con.console_init.

Lemma demo_has_block k : 0 ≤ k → k * BLOCK_SIZE < 600 → has_block demo2 demo_entry k.
Proof.
  intros H0 H1. split; [left; rewrite /INODE_NUM_DIRECT; rewrite /BLOCK_SIZE in H1; lia|].
  assert (k = 0 ∨ k = 1) as [-> | ->] by (rewrite /BLOCK_SIZE in H1; lia).
  - exists 4. by split_and!; [..|eexists|].
  - exists 3. by split_and!; [..|eexists|].
Qed.

Lemma inode_read_returns_file_bytes_witness :
  ∃ l c', inode_read false 5 500 200 demo_inodes = Ret (100, l) (set_icache c' demo_inodes) ∧
    length l = 100%nat.
Proof.
  destruct (inode_read_returns_file_bytes false demo_inodes 5 demo_inode 500 200) as (l & c' & H1 & _ & _ & _ & H2 & _).
  - reflexivity.
  - exact demo2_wf.
  - done.
  - simpl. lia.
  - simpl. lia.
  - lia.
  - exact demo_has_block.
  - exists l, c'. split; [exact H1|exact H2].
Defined.
