(* ===== verification/InodeMap.v ===== *)
(** * InodeMap: the blocks of a file

    Which blocks a file owns, and how [inode_map] extends it: the block of a file
    offset is found or allocated, no other block of the file moves, and no block
    that belongs to something else changes. *)

From stdpp Require Import base numbers list gmap.
From S2P Require Import Prelude Bitmap Spinlock Bytes FsDefs BlockCache Cache Console Inode InodeRead.

Section volume.
Context {S : Type} `{BC : BlockCache S} (sb_of : S → SuperBlock) {laws : BlockCacheLaws S sb_of}.
Implicit Types c : S.

Local Notation bound c := (alloc_bound (sb_of c)).

Definition is_bitmap c (p : Z) : Prop := ∃ b, 0 ≤ b < bound c ∧ p = bitmap_block_of (sb_of c) b.

(** [p] is allocated: its bit is set, it is on the disk, it is no bitmap block. *)
Definition own c (p : Z) : Prop :=
  0 ≤ p < bound c ∧ used (sb_of c) (bc_content c) p = Some true ∧ is_Some (bc_content c p) ∧ ¬ is_bitmap c p.

(** [p] is not up for allocation, and no bitmap block. *)
Definition kept c (p : Z) : Prop :=
  ¬ (0 ≤ p < bound c ∧ used (sb_of c) (bc_content c) p = Some false) ∧ ¬ is_bitmap c p.

(** At least [n] blocks are free. *)
Definition frees c (n : nat) : Prop :=
  ∃ l, NoDup l ∧ (n ≤ length l)%nat ∧
    Forall (λ b, 0 ≤ b < bound c ∧ used (sb_of c) (bc_content c) b = Some false) l.

(** The allocator can work, addresses fit in the 32 bits an inode has for them,
    and block 0, which an address of 0 does not name, is in use. *)
Definition vol_ok c : Prop :=
  bc_wf c ∧ alloc_ok (sb_of c) (bc_content c) (bc_held c) ∧ 0 < bound c ≤ 2 ^ 32 ∧
  used (sb_of c) (bc_content c) 0 = Some true.

Lemma own_kept c p : own c p → kept c p.
Proof. intros (? & ? & ? & ?). split; [|done]. intros [_ ?]. congruence. Qed.

(** [c'] is [c] up to allocated blocks. *)
Definition agree c c' : Prop :=
  sb_of c' = sb_of c ∧
  (∀ b, bc_content c' b = bc_content c b ∨ own c b ∧ is_Some (bc_content c' b)) ∧
  (∀ b, bc_held c' b = bc_held c b ∨ own c b).

Section agree.
Context {c c' : S} (A : agree c c').

Lemma agree_bitmap_eq p : is_bitmap c' p ↔ is_bitmap c p.
Proof. rewrite /is_bitmap. by rewrite (proj1 A). Qed.

Lemma agree_bitmap b : 0 ≤ b < bound c →
  bc_content c' (bitmap_block_of (sb_of c) b) = bc_content c (bitmap_block_of (sb_of c) b) ∧
  bc_held c' (bitmap_block_of (sb_of c) b) = bc_held c (bitmap_block_of (sb_of c) b).
Proof.
  intros Hb. destruct A as (_ & HC & HH).
  assert (¬ own c (bitmap_block_of (sb_of c) b)) by (intros (_ & _ & _ & []); by exists b).
  destruct (HC (bitmap_block_of (sb_of c) b)) as [?|[? _]]; [|done].
  destruct (HH (bitmap_block_of (sb_of c) b)); [done|done].
Qed.

Lemma agree_used b : 0 ≤ b < bound c →
  used (sb_of c) (bc_content c') b = used (sb_of c) (bc_content c) b.
Proof. intros Hb. rewrite /used. by rewrite (proj1 (agree_bitmap b Hb)). Qed.

Lemma agree_some b : is_Some (bc_content c b) → is_Some (bc_content c' b).
Proof. destruct (proj1 (proj2 A) b) as [->|[_ ?]]; done. Qed.

Lemma agree_own p : own c p → own c' p.
Proof.
  intros (? & Hu & ? & ?). split; [by rewrite (proj1 A)|]. split_and!.
  - by rewrite (proj1 A) agree_used.
  - by apply agree_some.
  - by rewrite agree_bitmap_eq.
Qed.

Lemma agree_kept p : kept c p → kept c' p.
Proof.
  intros [Hu ?]. split; [|by rewrite agree_bitmap_eq]. rewrite (proj1 A) => -[? Hf].
  apply Hu. split; [done|]. by rewrite agree_used in Hf.
Qed.

Lemma agree_frees n : frees c n → frees c' n.
Proof.
  intros (l & ? & ? & Hl). exists l. split_and!; [done..|]. eapply Forall_impl; [exact Hl|].
  intros b [? ?]. rewrite (proj1 A). split; [done|]. by rewrite agree_used.
Qed.

Lemma agree_vol : vol_ok c → bc_wf c' → vol_ok c'.
Proof.
  intros (_ & Hal & Hbd & Hz) HW. destruct (proj2 A) as [HC HH]. split_and!; try (rewrite (proj1 A); lia); try done.
  - intros b Hb. rewrite (proj1 A) in Hb |- *. destruct (Hal b Hb) as (H1 & H2 & H3).
    destruct (agree_bitmap b Hb) as [-> ->]. split_and!; [done..|]. intros Hf.
    rewrite agree_used // in Hf.
    destruct (H3 Hf) as (? & Hh & ?). split_and!; [by apply agree_some| |done].
    destruct (HH b) as [->|(_ & ? & _)]; [done|congruence].
  - rewrite (proj1 A) agree_used //. lia.
Qed.
End agree.

(** The operations on an allocated block. *)
Lemma acquire_step c p d :
  vol_ok c → own c p → bc_content c p = Some d → bc_held c p = false →
  ∃ c', bc_acquire p c = Ret p c' ∧ bc_data p c' = Ret d c' ∧ vol_ok c' ∧ agree c c' ∧
    (∀ b, bc_content c' b = bc_content c b) ∧ (∀ b, bc_held c' b = upd (bc_held c) p true b) ∧
    bc_clean c' p ∧ (∀ ctx n, bc_room ctx n c → bc_room ctx n c').
Proof.
  intros V O Hd Hh. destruct (acquire_law c p d (proj1 V) Hd Hh) as (c' & R & (W & C & Hl) & SB & CL & _ & RM).
  assert (agree c c') as A.
  { split_and!; [done|by left; rewrite C|]. intros b. rewrite Hl /upd. case_decide; [subst; by right|by left]. }
  exists c'. split_and!; try done.
  - apply data_law; [done|by rewrite C|by rewrite Hl upd_eq].
  - by apply (agree_vol A).
Qed.

Lemma store_step c p d :
  vol_ok c → own c p → bc_held c p = true → block_ok d →
  ∃ c', bc_store p d c = Ret () c' ∧ vol_ok c' ∧ agree c c' ∧
    (∀ b, bc_content c' b = upd (bc_content c) p (Some d) b) ∧ (∀ b, bc_held c' b = bc_held c b) ∧
    (∀ ctx n, bc_room ctx n c → bc_room ctx n c').
Proof.
  intros V O Hh Hd. destruct (store_law c p d (proj1 V) Hh Hd) as (c' & R & (W & C & Hl) & SB & _ & RM).
  assert (agree c c') as A.
  { split_and!; [done| |by left]. intros b. rewrite C /upd. case_decide; [subst; by right; eauto|by left]. }
  exists c'. split_and!; try done. by apply (agree_vol A).
Qed.

Lemma sync_step ctx n c p :
  vol_ok c → bc_held c p = true → 0 ≤ n → bc_room ctx (n + 1) c →
  ∃ c', bc_sync ctx p c = Ret () c' ∧ vol_ok c' ∧ agree c c' ∧
    (∀ b, bc_content c' b = bc_content c b) ∧ (∀ b, bc_held c' b = bc_held c b) ∧
    bc_clean c' p ∧ bc_room ctx n c'.
Proof.
  intros V Hh Hn Hr. destruct (sync_law ctx n c p (proj1 V) Hh Hn Hr) as (c' & R & (W & C & Hl) & SB & CL & _ & RM).
  assert (agree c c') as A by (split_and!; [done|by left|by left]).
  exists c'. split_and!; try done. by apply (agree_vol A).
Qed.

Lemma release_step c p :
  vol_ok c → own c p → bc_held c p = true → bc_clean c p →
  ∃ c', bc_release p c = Ret () c' ∧ vol_ok c' ∧ agree c c' ∧
    (∀ b, bc_content c' b = bc_content c b) ∧ (∀ b, bc_held c' b = upd (bc_held c) p false b) ∧
    (∀ ctx n, bc_room ctx n c → bc_room ctx n c').
Proof.
  intros V O Hh Hc. destruct (release_law c p (proj1 V) Hh Hc) as (c' & R & (W & C & Hl) & SB & _ & RM).
  assert (agree c c') as A.
  { split_and!; [done|by left; rewrite C|]. intros b. rewrite Hl /upd. case_decide; [subst; by right|by left]. }
  exists c'. split_and!; try done. by apply (agree_vol A).
Qed.

Lemma agree_trans c1 c2 c3 : agree c1 c2 → agree c2 c3 → agree c1 c3.
Proof.
  intros A1 A2. pose proof A1 as (B1 & C1 & H1). pose proof A2 as (B2 & C2 & H2).
  assert (Hown : ∀ b, own c2 b → own c1 b).
  { intros b (Hr & Hu & Hs & Hb). rewrite B1 in Hr Hu. split; [done|]. split_and!.
    - by rewrite -(agree_used A1).
    - destruct (C1 b) as [E|[(_ & _ & ? & _) _]]; [by rewrite -E|done].
    - by rewrite -(agree_bitmap_eq A1). }
  split_and!; [congruence| |].
  - intros b. destruct (C2 b) as [E2|[O2 S2]]; [|by right; auto].
    rewrite E2. destruct (C1 b) as [->|[O1 S1]]; [by left|by right].
  - intros b. destruct (H2 b) as [->|O2]; [|by right; auto]. destruct (H1 b) as [->|]; [by left|by right].
Qed.

(** One block less is free, whichever it is. *)
Lemma frees_minus c c' b n :
  sb_of c' = sb_of c → 0 ≤ b < bound c →
  (∀ b', 0 ≤ b' < bound c → used (sb_of c) (bc_content c') b' =
           if decide (b' = b) then Some true else used (sb_of c) (bc_content c) b') →
  frees c (Datatypes.S n) → frees c' n.
Proof.
  intros SB Hb Hu (l & Hnd & Hlen & Hl). exists (filter (λ x, x ≠ b) l). split_and!.
  - by apply NoDup_filter.
  - destruct (decide (b ∈ l)) as [Hin|Hin].
    + pose proof (length_filter_ne b l Hnd Hin). lia.
    + rewrite filter_ne_notin //. lia.
  - apply Forall_forall. intros x [Hx1 Hx2]%list_elem_of_filter. rewrite Forall_forall in Hl.
    destruct (Hl x Hx2). rewrite SB. split; [done|]. by rewrite Hu // decide_False.
Qed.

(** Allocation: a fresh zeroed block, nothing else of use changes. *)
Lemma alloc_step ctx n m c :
  vol_ok c → 0 ≤ n → bc_room ctx (n + 2) c → frees c (Datatypes.S m) →
  ∃ b c', bc_alloc ctx c = Ret b c' ∧ vol_ok c' ∧ 0 < b < 2 ^ 32 ∧ own c' b ∧ bc_held c' b = false ∧
    (0 ≤ b < bound c ∧ used (sb_of c) (bc_content c) b = Some false) ∧
    bc_content c' b = Some (replicate 512 0) ∧ sb_of c' = sb_of c ∧
    (∀ p, kept c p → bc_content c' p = bc_content c p ∧ kept c' p) ∧ (∀ p, own c p → own c' p) ∧
    (∀ p, bc_held c' p = bc_held c p) ∧
    (∀ p, bc_held c p = true → bc_clean c p → bc_clean c' p) ∧ bc_room ctx n c' ∧ frees c' m.
Proof.
  intros (W & Hal & Hbd & Hz) Hn Hroom Hfr.
  assert (Hex : ∃ b, 0 ≤ b < bound c ∧ used (sb_of c) (bc_content c) b = Some false).
  { destruct Hfr as ([|b l] & _ & Hlen & Hl); [simpl in Hlen; lia|]. exists b. by apply Forall_cons in Hl as [? _]. }
  destruct (alloc_law ctx n c W Hn Hroom Hal Hex) as
    (b & c' & R & Hb & Hf & _ & W' & SB & Hh & Cb & Co & Hu & CL & RM).
  destruct (Hal b Hb) as (Hbs & Hbh & Hfb). destruct (Hfb Hf) as (Hsb & Hhb & Hnb).
  assert (Hnbm : ∀ p, ¬ is_bitmap c p → p ≠ bitmap_block_of (sb_of c) b).
  { intros p Hp ->. apply Hp. by exists b. }
  assert (Hbm : ∀ p, is_bitmap c' p ↔ is_bitmap c p) by (intros p; by rewrite /is_bitmap SB).
  assert (Hkc : ∀ p, kept c p → bc_content c' p = bc_content c p).
  { intros p [Hk1 Hk2]. apply Co; [intros ->; by apply Hk1|by apply Hnbm]. }
  assert (Hub : used (sb_of c) (bc_content c') b = Some true) by (rewrite Hu // decide_True //).
  assert (Hb0 : b ≠ 0) by congruence.
  exists b, c'. split; [done|]. split; [|split; [lia|]; split; [|split; [by rewrite Hh|]; split_and!; try done; try lia]].
  - split; [done|]. split; [|rewrite SB; split; [lia|]; rewrite Hu; [lia|]; rewrite decide_False //; congruence].
    intros b' Hb'. rewrite SB in Hb' |- *. destruct (Hal b' Hb') as (E1 & E2 & E3). split_and!.
    + destruct (decide (bitmap_block_of (sb_of c) b' = bitmap_block_of (sb_of c) b)) as [E|E].
      * rewrite E. rewrite /used in Hub. by apply bind_Some in Hub as (d & -> & _).
      * rewrite Co; [|done|done]. intros E'. exact (Hnb b' Hb' (eq_sym E')).
    + by rewrite Hh.
    + rewrite Hu // => Hf'. case_decide; [done|]. destruct (E3 Hf') as (? & ? & E4). split_and!; [|by rewrite Hh|done].
      rewrite Co //. intros ->. by apply (E4 b).
  - split; [by rewrite SB|]. split_and!; [by rewrite SB|by rewrite Cb|].
    rewrite Hbm. intros (b' & ? & ->). by apply (Hnb b').
  - intros p Hp. split; [by apply Hkc|]. destruct Hp as [Hp1 Hp2]. split; [|by rewrite Hbm].
    rewrite SB => -[Hr Hf']. rewrite Hu // in Hf'. case_decide; [done|]. by apply Hp1.
  - intros p Hp. pose proof (own_kept _ _ Hp) as Hk. destruct Hp as (Hp1 & Hp2 & Hp3 & Hp4).
    split; [by rewrite SB|]. split_and!.
    + rewrite SB Hu //. by case_decide.
    + by rewrite Hkc.
    + by rewrite Hbm.
  - by apply (frees_minus c c' b).
Qed.

(** ** The blocks of a file *)

(** Pointer [-1] is the indirect block, pointer [k] block [k] of the data. *)
Definition slot c (e : InodeEntry) (r : Z) : option Z :=
  if r =? -1 then Some (ie_indirect e) else block_index (bc_content c) e r.

Definition in_file (r : Z) : Prop := -1 ≤ r < INODE_MAX_BLOCKS.
Lemma in_file_ind : in_file (-1).
Proof. by split. Qed.

(** Every pointer names an allocated block nobody holds, and no two the same. *)
Record file_ok c (e : InodeEntry) : Prop := {
  fo_vol : vol_ok c;
  fo_len : length (ie_addrs e) = 12%nat;
  fo_ptr r p : in_file r → slot c e r = Some p → p ≠ 0 → own c p ∧ bc_held c p = false;
  fo_inj r r' p : in_file r → in_file r' → slot c e r = Some p → slot c e r' = Some p → p ≠ 0 → r = r' }.

Lemma slot_data c e k : 0 ≤ k → slot c e k = block_index (bc_content c) e k.
Proof. intros. rewrite /slot. destruct (Z.eqb_spec k (-1)); [lia|done]. Qed.

Lemma slot_some c e r : file_ok c e → in_file r → is_Some (slot c e r).
Proof.
  intros F Hr. rewrite /slot. destruct (Z.eqb_spec r (-1)); [by eexists|].
  rewrite /in_file /INODE_MAX_BLOCKS in Hr.
  rewrite /block_index. destruct (Z.ltb_spec r INODE_NUM_DIRECT) as [Hk|Hk].
  { apply lookup_lt_is_Some. rewrite (fo_len _ _ F). rewrite /INODE_NUM_DIRECT in Hk. lia. }
  rewrite (proj2 (Z.ltb_lt _ _)); [lia|]. destruct (Z.eqb_spec (ie_indirect e) 0) as [E|E]; [by eexists|].
  destruct (fo_ptr _ _ F (-1) (ie_indirect e)) as [(_ & _ & [d Hd] & _) _]; [exact in_file_ind|done|done|].
  rewrite Hd /=. apply lookup_lt_is_Some. rewrite /get_addrs length_words.
  assert (INODE_NUM_INDIRECT = 128) by done. lia.
Qed.

(** The file gets block [b] at pointer [r]. *)
Lemma file_extend c e c' e' r b :
  file_ok c e → vol_ok c' → length (ie_addrs e') = 12%nat →
  (∀ p, own c p → own c' p) → (∀ p, bc_held c' p = bc_held c p) →
  own c' b → bc_held c' b = false → b ≠ 0 → (∀ p, own c p → p ≠ b) →
  (∀ r', in_file r' → slot c' e' r' = upd (slot c e) r (Some b) r') → file_ok c' e'.
Proof.
  intros F V L O Hh Ob Hb Hb0 Hfresh Hs.
  assert (Hne : ∀ r', in_file r' → slot c e r' ≠ Some b).
  { intros r' Hr' Hb'. destruct (fo_ptr _ _ F r' b) as [Ho _]; [done..|]. by apply (Hfresh b). }
  split; [done|done| |].
  - intros r' p Hr'. rewrite Hs // /upd. case_decide; [by intros [= <-]|].
    intros Hp Hp0. destruct (fo_ptr _ _ F r' p) as [Ho Hhp]; [done..|]. split; [by apply O|by rewrite Hh].
  - intros r1 r2 p Hr1 Hr2. rewrite !Hs // /upd. repeat case_decide; subst; try done.
    + intros [= <-] Hp. by destruct (Hne r2).
    + intros Hp [= <-]. by destruct (Hne r1).
    + by apply (fo_inj _ _ F).
Qed.

(** The file stays as it is when its pointers do. *)
Lemma file_stays c e c' :
  file_ok c e → vol_ok c' → (∀ p, own c p → own c' p) → (∀ p, bc_held c' p = bc_held c p) →
  (∀ r, in_file r → slot c' e r = slot c e r) → file_ok c' e.
Proof.
  intros F V O Hh Hs. split; [done|apply F| |].
  - intros r p Hr. rewrite Hs // => Hp Hp0. destruct (fo_ptr _ _ F r p) as [??]; [done..|].
    split; [by apply O|by rewrite Hh].
  - intros r1 r2 p Hr1 Hr2. rewrite !Hs //. by apply (fo_inj _ _ F).
Qed.

Lemma slot_ext c c' e r :
  (ie_indirect e ≠ 0 → bc_content c' (ie_indirect e) = bc_content c (ie_indirect e)) → slot c' e r = slot c e r.
Proof.
  intros Hi. rewrite /slot /block_index. destruct (Z.eqb_spec (ie_indirect e) 0) as [E|E]; [done|].
  by rewrite Hi.
Qed.

Definition need (e : InodeEntry) : nat := if ie_indirect e =? 0 then 1%nat else 0%nat.
Definition meta (e : InodeEntry) : Z * Z * Z * Z * Z :=
  (ie_type e, ie_major e, ie_minor e, ie_num_links e, ie_num_bytes e).

(** What [inode_map] promises for block [k]. *)
Record map_post (ctx : option Z) (n : Z) (m : nat) c e k b (md : bool) c' e' : Prop := {
  mp_file : file_ok c' e';
  mp_slot : slot c' e' k = Some b;
  mp_nz : b ≠ 0;
  mp_other k' : 0 ≤ k' < INODE_MAX_BLOCKS → k' ≠ k → slot c' e' k' = slot c e k';
  mp_md : md = bool_decide (slot c e k = Some 0);
  mp_old : md = false → slot c e k = Some b ∧ e' = e;
  mp_new : md = true → bc_content c' b = Some (replicate 512 0) ∧ ¬ kept c b;
  mp_kept p : kept c p → kept c' p ∧ (bc_content c' p = bc_content c p ∨ p = ie_indirect e ∧ p ≠ 0);
  mp_own p : own c p → own c' p;
  mp_held p : bc_held c' p = bc_held c p;
  mp_sb : sb_of c' = sb_of c;
  mp_meta : meta e' = meta e;
  mp_ind : ie_indirect e' = ie_indirect e ∨ ie_indirect e = 0 ∧ ¬ kept c (ie_indirect e');
  mp_room : bc_room ctx (n + 2 * Z.of_nat (need e')) c';
  mp_frees : frees c' (m + need e') }.

(** ** [inode_map] *)
Implicit Types s : istate (S := S).

(** The block is there. *)
Lemma map_post_present ctx n m c e k b c' :
  file_ok c e → 0 ≤ k < INODE_MAX_BLOCKS → slot c e k = Some b → b ≠ 0 → same sb_of c c' → 0 ≤ n →
  bc_room ctx (n + 3 + 2 * Z.of_nat (need e)) c → frees c (m + 1 + need e) →
  map_post ctx n m c e k b false c' e.
Proof.
  intros F Hk Hs Hb Sm Hn Hr Hf. pose proof Sm as ((W & C & Hh) & SB & _ & RM).
  assert (agree c c') as A by (split_and!; [done|by left|by left]).
  split; try done.
  - apply (file_stays c); [done|exact (agree_vol A (fo_vol _ _ F) W)|intros p; apply (agree_own A)|done|].
    intros r Hr'. by apply slot_ext.
  - rewrite -Hs. by apply slot_ext.
  - intros k' _ _. by apply slot_ext.
  - rewrite Hs bool_decide_eq_false_2 //. congruence.
  - intros p Hp. split; [by apply (agree_kept A)|left; by rewrite C].
  - intros p. apply (agree_own A).
  - by left.
  - eapply room_law; [|apply RM, Hr]. lia.
  - apply (agree_frees A). destruct Hf as (l & ? & ? & ?). exists l. split_and!; [done|lia|done].
Qed.

Lemma frees_le c n n' : (n ≤ n')%nat → frees c n' → frees c n.
Proof. intros ? (l & ? & ? & ?). exists l. split_and!; [done|lia|done]. Qed.

(** A freshly allocated block belongs to nobody. *)
Lemma fresh_ne c b p :
  0 ≤ b < bound c ∧ used (sb_of c) (bc_content c) b = Some false → own c p → p ≠ b.
Proof. intros [_ Hu] (_ & Hu' & _) ->. congruence. Qed.

Lemma fresh_not_kept c b : 0 ≤ b < bound c ∧ used (sb_of c) (bc_content c) b = Some false → ¬ kept c b.
Proof. by intros Hb [? _]. Qed.

(** A direct pointer is set. *)
Lemma slot_set_direct c e k b r :
  length (ie_addrs e) = 12%nat → 0 ≤ k < INODE_NUM_DIRECT → -1 ≤ r →
  slot c (set_ie_addrs (<[Z.to_nat k := b]> (ie_addrs e)) e) r = upd (slot c e) k (Some b) r.
Proof.
  intros L Hk Hr. rewrite /upd. case_decide as E.
  - subst r. rewrite slot_data; [lia|]. rewrite /block_index (proj2 (Z.ltb_lt _ _)) /=; [lia|].
    rewrite list_lookup_insert_eq //. rewrite L. rewrite /INODE_NUM_DIRECT in Hk. lia.
  - rewrite /slot. destruct (Z.eqb_spec r (-1)); [done|]. rewrite /block_index.
    destruct (r <? INODE_NUM_DIRECT); [|done]. simpl. rewrite list_lookup_insert_ne //. lia.
Qed.

Lemma set_entry_id i : set_entry (entry i) i = i.
Proof. by destruct i. Qed.
Lemma iupd_id s ip i : itab s !! ip = Some i → set_itab (<[ip := set_entry (entry i) i]> (itab s)) s = s.
Proof. intros Hi. rewrite set_entry_id insert_id //. by destruct s. Qed.

Definition map_state s ip i c' e' : istate :=
  set_itab (<[ip := set_entry e' i]> (itab s)) (set_icache c' s).

Lemma map_state_id s ip i c' : itab s !! ip = Some i → map_state s ip i c' (entry i) = set_icache c' s.
Proof. intros Hi. exact (iupd_id (set_icache c' s) ip i Hi). Qed.

Lemma map_direct_alloc ctx n m s ip i k :
  itab s !! ip = Some i → file_ok (icache s) (entry i) → 0 ≤ k < INODE_NUM_DIRECT →
  slot (icache s) (entry i) k = Some 0 → 0 ≤ n →
  bc_room ctx (n + 3 + 2 * Z.of_nat (need (entry i))) (icache s) → frees (icache s) (m + 1 + need (entry i)) →
  ∃ b c' e', inode_map ctx ip k s = Ret (b, true) (map_state s ip i c' e') ∧
    map_post ctx n m (icache s) (entry i) k b true c' e'.
Proof.
  intros Hi F Hk Hs Hn Hr Hf. set (e := entry i) in *. set (c := icache s) in *.
  destruct (alloc_step ctx (n + 1 + 2 * Z.of_nat (need e)) (m + need e) c) as
    (b & c' & R & V & Hb & Ob & Hhb & Fb & Cb & SB & K & O & Hh & _ & RM & FR).
  { apply F. }
  { lia. }
  { eapply room_law; [|exact Hr]. lia. }
  { eapply frees_le; [|exact Hf]. lia. }
  exists b, c', (set_ie_addrs (<[Z.to_nat k := b]> (ie_addrs e)) e).
  assert (Hold : ∀ r, slot c' e r = slot c e r).
  { intros r. apply slot_ext => Hi0. apply K, own_kept.
    exact (proj1 (fo_ptr _ _ F (-1) _ in_file_ind eq_refl Hi0)). }
  assert (Hup : ∀ r, -1 ≤ r → slot c' (set_ie_addrs (<[Z.to_nat k:=b]> (ie_addrs e)) e) r = upd (slot c e) k (Some b) r).
  { intros r Hr'. rewrite slot_set_direct; [apply F|done|done|]. rewrite /upd. case_decide; [done|apply Hold]. }
  split.
  - rewrite /inode_map. erewrite bind_run; [|exact (iget_run _ _ _ Hi)].
    rewrite (proj2 (Z.ltb_lt _ _)); [lia|].
    erewrite bind_run; [|apply of_opt_run; rewrite slot_data in Hs; [lia|]; rewrite /block_index (proj2 (Z.ltb_lt _ _)) in Hs; [lia|exact Hs]].
    change (0 =? 0) with true. cbv iota.
    erewrite bind_run; [|exact (lift_run _ _ _ _ R)].
    erewrite bind_run; [|exact (iupd_run _ (set_icache c' s) i _ Hi)].
    rewrite /u32 wrap_small; [lia|]. done.
  - split; try done.
    + apply (file_extend c e c' _ k b); try done; try lia.
      * simpl. by rewrite length_insert (fo_len _ _ F).
      * intros p. by apply fresh_ne.
      * intros r [? ?]. by apply Hup.
    + rewrite Hup; [lia|]. apply upd_eq.
    + lia.
    + intros k' ? ?. rewrite Hup; [lia|]. by apply upd_ne.
    + by rewrite Hs bool_decide_eq_true_2.
    + intros _. split; [done|]. by apply fresh_not_kept.
    + intros p Hp. destruct (K p Hp) as [-> ?]. auto.
    + by left.
    + eapply room_law; [|exact RM]. simpl. rewrite /need /=. lia.
Qed.

(** The part of [inode_map] after the indirect block is known. *)
Definition ind_tail (ctx : option Z) (off bno : Z) (modified : bool) : M istate (Z * bool) :=
  block ← lift (bc_acquire bno);
  d ← lift (bc_data block);
  bno ← of_opt (get_addrs d !! Z.to_nat off);
  if bno =? 0 then
    bno ← lift (bc_alloc ctx);
    d ← lift (bc_data block);
    lift (bc_store block (put_addrs (<[Z.to_nat off := u32 bno]> (get_addrs d))));;
    lift (bc_sync ctx block);;
    lift (bc_release block);;
    mret (bno, true)
  else
    lift (bc_release block);;
    mret (bno, modified).

Lemma inode_map_indirect ctx s ip i k :
  itab s !! ip = Some i → INODE_NUM_DIRECT ≤ k < INODE_MAX_BLOCKS →
  inode_map ctx ip k s =
    ('(bno, modified) ←
      (if ie_indirect (entry i) =? 0 then
         bno ← lift (bc_alloc ctx);
         iupd ip (λ i, set_entry (set_ie_indirect (u32 bno) (entry i)) i);;
         mret (bno, true)
       else mret (ie_indirect (entry i), false));
     ind_tail ctx (k - INODE_NUM_DIRECT) bno modified) s.
Proof.
  intros Hi Hk. rewrite /inode_map. erewrite bind_run; [|exact (iget_run _ _ _ Hi)].
  rewrite (proj2 (Z.ltb_ge _ _)); [lia|]. rewrite (proj2 (Z.ltb_lt _ _)); [|done].
  assert (INODE_MAX_BLOCKS = INODE_NUM_DIRECT + INODE_NUM_INDIRECT) by done. lia.
Qed.

(** What a pointer of the indirect block is. *)
Lemma slot_indirect c e k d :
  INODE_NUM_DIRECT ≤ k < INODE_MAX_BLOCKS → ie_indirect e ≠ 0 → bc_content c (ie_indirect e) = Some d →
  slot c e k = get_addrs d !! Z.to_nat (k - INODE_NUM_DIRECT).
Proof.
  intros Hk Hi Hd. assert (INODE_MAX_BLOCKS = INODE_NUM_DIRECT + INODE_NUM_INDIRECT) by done.
  assert (INODE_NUM_DIRECT = 12) by done. rewrite slot_data; [lia|].
  rewrite /block_index (proj2 (Z.ltb_ge _ _)); [lia|]. rewrite (proj2 (Z.ltb_lt _ _)); [lia|].
  by rewrite (proj2 (Z.eqb_neq _ _) Hi) Hd.
Qed.

Lemma get_put_addrs l : length l = 128%nat → Forall (λ a, 0 ≤ a < 2 ^ 32) l → get_addrs (put_addrs l) = l.
Proof. intros. by apply words_unwords. Qed.

Lemma get_addrs_range d : block_ok d → length (get_addrs d) = 128%nat ∧ Forall (λ a, 0 ≤ a < 2 ^ 32) (get_addrs d).
Proof. intros [Hl Hd]. split; [apply length_words|]. by apply (words_range 4 128). Qed.

Lemma put_addrs_ok l : length l = 128%nat → block_ok (put_addrs l).
Proof. intros Hl. split; [by rewrite length_unwords Hl|apply unwords_ok]. Qed.

(** A pointer of the indirect block is set. *)
Lemma slot_set_indirect c c' e k d b r :
  block_ok d → bc_content c (ie_indirect e) = Some d → ie_indirect e ≠ 0 → 0 ≤ b < 2 ^ 32 →
  INODE_NUM_DIRECT ≤ k < INODE_MAX_BLOCKS → in_file r →
  bc_content c' (ie_indirect e) =
    Some (put_addrs (<[Z.to_nat (k - INODE_NUM_DIRECT) := b]> (get_addrs d))) →
  slot c' e r = upd (slot c e) k (Some b) r.
Proof.
  intros Hd Hc Hi Hb Hk Hr Hc'. destruct (get_addrs_range d Hd) as [Hl Hf].
  assert (HM : INODE_MAX_BLOCKS = 140) by done. assert (HD : INODE_NUM_DIRECT = 12) by done.
  rewrite /in_file in Hr.
  destruct (decide (INODE_NUM_DIRECT ≤ r)) as [Hr'|Hr'].
  - rewrite (slot_indirect c' e r _ _ Hi Hc'); [lia|]. rewrite get_put_addrs.
    { by rewrite length_insert. }
    { by apply Forall_insert. }
    rewrite /upd. case_decide as E.
    + subst r. rewrite list_lookup_insert_eq //. lia.
    + rewrite list_lookup_insert_ne; [lia|]. symmetry. apply slot_indirect; [lia|done|done].
  - rewrite upd_ne; [lia|]. rewrite /slot. destruct (Z.eqb_spec r (-1)); [done|].
    by rewrite /block_index (proj2 (Z.ltb_lt _ _)); [lia|].
Qed.

Lemma ind_tail_present ctx s e k b md :
  file_ok (icache s) e → INODE_NUM_DIRECT ≤ k < INODE_MAX_BLOCKS → ie_indirect e ≠ 0 →
  slot (icache s) e k = Some b → b ≠ 0 →
  ∃ c', ind_tail ctx (k - INODE_NUM_DIRECT) (ie_indirect e) md s = Ret (b, md) (set_icache c' s) ∧ same sb_of (icache s) c'.
Proof.
  intros F Hk Hi Hs Hb. destruct (fo_ptr _ _ F (-1) _ in_file_ind eq_refl Hi) as [(_ & _ & [d Hd] & _) Hh].
  destruct (read_session sb_of s _ d (proj1 (fo_vol _ _ F)) Hd Hh) as (c1 & c2 & A & D & R & Sm).
  rewrite /ind_tail. erewrite bind_run; [|exact A]. erewrite bind_run; [|exact D].
  rewrite (slot_indirect _ _ _ d) // in Hs. erewrite bind_run; [|exact (of_opt_run _ _ _ Hs)].
  rewrite (proj2 (Z.eqb_neq b 0) Hb). erewrite bind_run; [|exact R]. by exists c2.
Qed.

Lemma ind_tail_alloc ctx n m s e k md :
  file_ok (icache s) e → INODE_NUM_DIRECT ≤ k < INODE_MAX_BLOCKS → ie_indirect e ≠ 0 →
  slot (icache s) e k = Some 0 → 0 ≤ n → bc_room ctx (n + 3) (icache s) → frees (icache s) (m + 1) →
  ∃ b c', ind_tail ctx (k - INODE_NUM_DIRECT) (ie_indirect e) md s = Ret (b, true) (set_icache c' s) ∧
    map_post ctx n m (icache s) e k b true c' e.
Proof.
  intros F Hk Hi Hs Hn Hr Hf. set (c := icache s) in *. set (p := ie_indirect e) in *.
  destruct (fo_ptr _ _ F (-1) p in_file_ind eq_refl Hi) as [Op Hh]. pose proof Op as (_ & _ & [d Hd] & _).
  assert (Hdok : block_ok d) by exact (content_law _ _ _ (proj1 (fo_vol _ _ F)) Hd).
  destruct (acquire_step c p d (fo_vol _ _ F) Op Hd Hh) as (c1 & R1 & D1 & V1 & A1 & C1 & H1 & CL1 & RM1).
  assert (Hh1 : bc_held c1 p = true) by by rewrite H1 upd_eq.
  destruct (alloc_step ctx (n + 1) m c1) as
    (b & c2 & R2 & V2 & Hb & Ob & Hhb & Fb & Cb & SB & K & O & H2 & CL2 & RM2 & FR2); [done|lia| | |].
  { apply RM1. eapply room_law; [|exact Hr]. lia. }
  { apply (agree_frees A1). eapply frees_le; [|exact Hf]. lia. }
  pose proof (agree_own A1 p Op) as Op1. pose proof (O p Op1) as Op2.
  assert (Hh2 : bc_held c2 p = true) by by rewrite H2.
  assert (Hd2 : bc_content c2 p = Some d) by by rewrite (proj1 (K p (own_kept _ _ Op1))) C1.
  destruct (get_addrs_range d Hdok) as [Hl Hrange].
  set (d' := put_addrs (<[Z.to_nat (k - INODE_NUM_DIRECT) := b]> (get_addrs d))).
  destruct (store_step c2 p d' V2 Op2 Hh2) as (c3 & R3 & V3 & A3 & C3 & H3 & RM3).
  { apply put_addrs_ok. by rewrite length_insert. }
  assert (Hh3 : bc_held c3 p = true) by by rewrite H3.
  destruct (sync_step ctx n c3 p V3 Hh3 Hn (RM3 _ _ RM2)) as (c4 & R4 & V4 & A4 & C4 & H4 & CL4 & RM4).
  pose proof (agree_own A4 p (agree_own A3 p Op2)) as Op4.
  destruct (release_step c4 p V4 Op4) as (c5 & R5 & V5 & A5 & C5 & H5 & RM5); [by rewrite H4|done|].
  pose proof (agree_trans _ _ _ A3 (agree_trans _ _ _ A4 A5)) as A35.
  assert (C25 : ∀ x, bc_content c5 x = upd (bc_content c2) p (Some d') x) by (intros x; by rewrite C5 C4 C3).
  assert (Hheld : ∀ x, bc_held c5 x = bc_held c x).
  { intros x. rewrite H5 /upd. case_decide; [by subst|]. rewrite H4 H3 H2 H1 upd_ne //. }
  assert (Hfresh : 0 ≤ b < bound c ∧ used (sb_of c) (bc_content c) b = Some false).
  { destruct Fb as [F1 F2]. rewrite (proj1 A1) in F1 F2. split; [done|]. by rewrite -(agree_used A1). }
  assert (Hpb : p ≠ b) by exact (fresh_ne c b p Hfresh Op).
  assert (Hsl : ∀ r, in_file r → slot c5 e r = upd (slot c e) k (Some b) r).
  { intros r Hr'. apply (slot_set_indirect c c5 e k d b r); try done; try lia. by rewrite C25 upd_eq. }
  exists b, c5. split.
  - rewrite /ind_tail. erewrite bind_run; [|exact (lift_run _ _ _ _ R1)].
    erewrite bind_run; [|exact (lift_run _ (set_icache c1 s) _ _ D1)].
    rewrite (slot_indirect _ _ _ d) // in Hs. erewrite bind_run; [|exact (of_opt_run _ _ _ Hs)].
    change (0 =? 0) with true. cbv iota.
    erewrite bind_run; [|exact (lift_run _ (set_icache c1 s) _ _ R2)].
    erewrite bind_run; [|apply (lift_run _ (set_icache c2 s)), (data_law c2 p d (proj1 V2) Hd2 Hh2)].
    rewrite /u32 wrap_small; [lia|].
    erewrite bind_run; [|exact (lift_run _ (set_icache c2 s) _ _ R3)].
    erewrite bind_run; [|exact (lift_run _ (set_icache c3 s) _ _ R4)].
    erewrite bind_run; [|exact (lift_run _ (set_icache c4 s) _ _ R5)]. done.
  - assert (HM : INODE_MAX_BLOCKS = 140) by done. assert (HD : INODE_NUM_DIRECT = 12) by done.
    assert (Hown : ∀ x, own c x → own c5 x).
    { intros x Hx. apply (agree_own A35), O, (agree_own A1), Hx. }
    split; try done.
    + apply (file_extend c e c5 e k b); try done; try lia.
      * apply F.
      * by apply (agree_own A35).
      * rewrite H2 H1 upd_ne in Hhb; [congruence|]. by rewrite Hheld.
      * intros x. by apply fresh_ne.
    + rewrite Hsl; [rewrite /in_file; lia|]. apply upd_eq.
    + lia.
    + intros k' ? ?. rewrite Hsl; [rewrite /in_file; lia|]. by apply upd_ne.
    + by rewrite Hs bool_decide_eq_true_2.
    + intros _. rewrite C25 upd_ne; [congruence|]. split; [done|]. by apply fresh_not_kept.
    + intros x Hx. pose proof (agree_kept A1 x Hx) as Hx1. destruct (K x Hx1) as [Kx1 Kx2].
      split; [by apply (agree_kept A35)|]. rewrite C25 /upd. case_decide; [subst; by right|left].
      by rewrite Kx1 C1.
    + rewrite (proj1 A5) (proj1 A4) (proj1 A3) SB. apply A1.
    + by left.
    + rewrite /need (proj2 (Z.eqb_neq _ _) Hi). eapply room_law; [|apply RM5, RM4]. lia.
    + rewrite /need (proj2 (Z.eqb_neq _ _) Hi). apply (agree_frees A35). eapply frees_le; [|exact FR2]. lia.
Qed.

(** The indirect pointer is set, to a zeroed block. *)
Lemma slot_new_indirect c c' e b r :
  ie_indirect e = 0 → b ≠ 0 → bc_content c' b = Some (replicate 512 0) → in_file r →
  slot c' (set_ie_indirect b e) r = upd (slot c e) (-1) (Some b) r.
Proof.
  intros Hi Hb Hc Hr. rewrite /upd. case_decide as E; [by subst r|].
  assert (HM : INODE_MAX_BLOCKS = 140) by done. assert (HD : INODE_NUM_DIRECT = 12) by done.
  rewrite /in_file in Hr. destruct (decide (r < INODE_NUM_DIRECT)).
  - rewrite !slot_data; [lia..|]. rewrite /block_index (proj2 (Z.ltb_lt r _)) //.
  - rewrite (slot_indirect c' _ r (replicate 512 0)) //; [lia|].
    rewrite slot_data; [lia|]. rewrite /block_index Hi (proj2 (Z.ltb_ge r _)); [lia|].
    rewrite (proj2 (Z.ltb_lt _ INODE_NUM_INDIRECT)); [by assert (INODE_NUM_INDIRECT = 128) by done; lia|].
    change (get_addrs (replicate 512 0)) with (replicate 128 0).
    change (0 =? 0) with true. cbv iota. apply lookup_replicate. split; [done|lia].
Qed.

Lemma map_indirect_new ctx n m s ip i k :
  itab s !! ip = Some i → file_ok (icache s) (entry i) → INODE_NUM_DIRECT ≤ k < INODE_MAX_BLOCKS →
  ie_indirect (entry i) = 0 → 0 ≤ n → bc_room ctx (n + 5) (icache s) → frees (icache s) (m + 2) →
  ∃ b c' e', inode_map ctx ip k s = Ret (b, true) (map_state s ip i c' e') ∧
    map_post ctx n m (icache s) (entry i) k b true c' e'.
Proof.
  intros Hi F Hk Hz Hn Hr Hf. rewrite (inode_map_indirect ctx s ip i k Hi Hk).
  set (e := entry i) in *. set (c := icache s) in *.
  destruct (alloc_step ctx (n + 3) (m + 1) c) as
    (b1 & c1 & R1 & V1 & Hb1 & Ob1 & Hhb1 & Fb1 & Cb1 & SB1 & K1 & O1 & H1 & _ & RM1 & FR1).
  { apply F. }
  { lia. }
  { eapply room_law; [|exact Hr]. lia. }
  { eapply frees_le; [|exact Hf]. lia. }
  set (e1 := set_ie_indirect b1 e).
  assert (Hsl : ∀ r, in_file r → slot c1 e1 r = upd (slot c e) (-1) (Some b1) r).
  { intros r Hr'. apply slot_new_indirect; [done|lia|done|done]. }
  assert (F1 : file_ok c1 e1).
  { apply (file_extend c e c1 e1 (-1) b1); try done; try lia.
    - apply F.
    - intros p. by apply fresh_ne. }
  assert (HM : INODE_MAX_BLOCKS = 140) by done. assert (HD : INODE_NUM_DIRECT = 12) by done.
  assert (Hsk : slot c e k = Some 0).
  { rewrite slot_data; [lia|]. rewrite /block_index (proj2 (Z.ltb_ge _ _)); [lia|].
    rewrite (proj2 (Z.ltb_lt _ INODE_NUM_INDIRECT)); [by assert (INODE_NUM_INDIRECT = 128) by done; lia|].
    by rewrite Hz. }
  set (s1 := map_state s ip i c1 e1).
  destruct (ind_tail_alloc ctx n m s1 e1 k true) as (b & c' & R2 & P); try done.
  { simpl. lia. }
  { change (slot c1 e1 k = Some 0). rewrite Hsl; [rewrite /in_file; lia|]. rewrite upd_ne //. lia. }
  exists b, c', e1. split.
  - rewrite Hz. change (0 =? 0) with true. cbv iota.
    erewrite bind_run; [|erewrite bind_run; [|exact (lift_run _ _ _ _ R1)];
      erewrite bind_run; [|exact (iupd_run _ (set_icache c1 s) i _ Hi)]; reflexivity].
    cbv beta iota. rewrite /u32 wrap_small; [lia|]. exact R2.
  - assert (Hb1k : ¬ kept c b1) by by apply fresh_not_kept.
    split; try done; try apply P.
    + intros k' Hk' Hne. rewrite (mp_other _ _ _ _ _ _ _ _ _ _ P) //.
      change (slot c1 e1 k' = slot c e k'). rewrite Hsl; [rewrite /in_file; lia|]. apply upd_ne. lia.
    + by rewrite Hsk bool_decide_eq_true_2.
    + intros Hmd. destruct (mp_new _ _ _ _ _ _ _ _ _ _ P Hmd) as [? Hnk]. split; [done|].
      intros Hk'. apply Hnk. by apply K1.
    + intros p Hp. destruct (K1 p Hp) as [E Hp1]. destruct (mp_kept _ _ _ _ _ _ _ _ _ _ P p Hp1) as [? [Hc|[-> _]]].
      * split; [done|left]. etrans; [exact Hc|exact E].
      * by destruct Hb1k.
    + intros p Hp. apply (mp_own _ _ _ _ _ _ _ _ _ _ P), O1, Hp.
    + intros p. rewrite (mp_held _ _ _ _ _ _ _ _ _ _ P). apply H1.
    + rewrite (mp_sb _ _ _ _ _ _ _ _ _ _ P). exact SB1.
    + by right.
Qed.

(** [inode_map] finds the block or extends the file by it. *)
Lemma inode_map_spec ctx n m s ip i k :
  itab s !! ip = Some i → file_ok (icache s) (entry i) → 0 ≤ k < INODE_MAX_BLOCKS → 0 ≤ n →
  bc_room ctx (n + 3 + 2 * Z.of_nat (need (entry i))) (icache s) → frees (icache s) (m + 1 + need (entry i)) →
  ∃ b md c' e', inode_map ctx ip k s = Ret (b, md) (map_state s ip i c' e') ∧
    map_post ctx n m (icache s) (entry i) k b md c' e'.
Proof.
  intros Hi F Hk Hn Hr Hf.
  destruct (slot_some _ _ k F) as [b Hs]; [rewrite /in_file; lia|].
  destruct (decide (b = 0)) as [->|Hb].
  - destruct (decide (k < INODE_NUM_DIRECT)).
    { destruct (map_direct_alloc ctx n m s ip i k) as (b & c' & e' & R & P); [done|done|lia|done..|].
      by exists b, true, c', e'. }
    destruct (decide (ie_indirect (entry i) = 0)) as [Hz|Hz].
    { destruct (map_indirect_new ctx n m s ip i k) as (b & c' & e' & R & P);
        [done|done|lia|done|done|..|by exists b, true, c', e'].
      - eapply room_law; [|exact Hr]. rewrite /need Hz. simpl. lia.
      - eapply frees_le; [|exact Hf]. rewrite /need Hz. simpl. lia. }
    destruct (ind_tail_alloc ctx n m s (entry i) k false) as (b & c' & R & P); try done; try lia.
    { eapply room_law; [|exact Hr]. lia. }
    { eapply frees_le; [|exact Hf]. lia. }
    exists b, true, c', (entry i). split; [|done].
    rewrite (inode_map_indirect _ _ _ i) //; [lia|]. rewrite (proj2 (Z.eqb_neq _ _) Hz) map_state_id //.
  - destruct (map_present sb_of ctx s ip i k b) as (c' & R & Sm); try done.
    { apply F. }
    { by rewrite slot_data in Hs; [lia|]. }
    { rewrite /path_free. destruct (decide (k < INODE_NUM_DIRECT)); [by left|right].
      destruct (decide (ie_indirect (entry i) = 0)) as [Hz|Hz].
      - rewrite slot_data in Hs; [lia|]. rewrite /block_index (proj2 (Z.ltb_ge _ _)) in Hs; [lia|].
        rewrite Hz in Hs. destruct (_ <? _); [|done]. simpl in Hs. congruence.
      - exact (proj2 (fo_ptr _ _ F (-1) _ in_file_ind eq_refl Hz)). }
    exists b, false, c', (entry i). rewrite map_state_id //. split; [done|].
    by apply map_post_present.
Qed.

End volume.
