(* ===== verification/InodeWrite.v ===== *)
(** * InodeWrite: writing a file

    [inode_write] overwrites and extends a file: the bytes written are what a
    later look at the file finds, every other byte of the file and every block of
    anything else stays, the size grows to cover the write, and the inode's entry
    on its block is brought up to date. *)

From stdpp Require Import base numbers list gmap.
From S2P Require Import Prelude Bitmap Spinlock Bytes FsDefs BlockCache Cache CacheList CacheOps CacheAlloc Console Inode InodeRead InodeMap.

Section write.
Context {S : Type} `{BC : BlockCache S} (sb_of : S → SuperBlock) {laws : BlockCacheLaws S sb_of}.
Implicit Types c : S.
Implicit Types s : istate (S := S).
Local Notation own := (own sb_of).
Local Notation kept := (kept sb_of).
Local Notation file_ok := (file_ok sb_of).

Local Notation byte c e n := (file_byte (bc_content c) e n).
Local Notation len l := (Z.of_nat (length l)).

(** From [(c, e)] to [(c', e')] the bytes [l] were written at [off]; [md] says
    whether a block was added. *)
Record wrote c e (off : Z) (l : list Z) (md : bool) c' e' : Prop := {
  w_file : file_ok c' e';
  w_meta : meta e' = meta e;
  w_held p : bc_held c' p = bc_held c p;
  w_sb : sb_of c' = sb_of c;
  w_kept p : kept c p → kept c' p ∧
    (bc_content c' p = bc_content c p ∨ ∃ r, in_file r ∧ slot c e r = Some p ∧ p ≠ 0);
  w_own p : own c p → own c' p;
  w_slot k : 0 ≤ k < INODE_MAX_BLOCKS → slot c e k ≠ Some 0 → slot c' e' k = slot c e k;
  w_new r p : in_file r → slot c' e' r = Some p → slot c e r = Some p ∨ ¬ kept c p ∨ p = 0;
  w_cov k : 0 ≤ k < INODE_MAX_BLOCKS → l ≠ [] → off < (k + 1) * BLOCK_SIZE → k * BLOCK_SIZE < off + len l →
    slot c' e' k ≠ Some 0;
  w_byte n : 0 ≤ n < INODE_MAX_BYTES →
    (off ≤ n < off + len l → byte c' e' n = l !! Z.to_nat (n - off)) ∧
    (¬ (off ≤ n < off + len l) → slot c e (n / BLOCK_SIZE) ≠ Some 0 → byte c' e' n = byte c e n);
  w_old : md = false → e' = e;
  w_md : md = true → ∃ k, 0 ≤ k < INODE_MAX_BLOCKS ∧ k * BLOCK_SIZE < off + len l ∧ slot c e k = Some 0 }.

Lemma wrote_nil c e off : file_ok c e → wrote c e off [] false c e.
Proof.
  intros F. split; try done.
  - intros p Hp. split; [done|by left].
  - intros r p _ ?. by left.
  - intros n _. split; [simpl; lia|done].
Qed.

Lemma max_block n : 0 ≤ n < INODE_MAX_BYTES → 0 ≤ n / BLOCK_SIZE < INODE_MAX_BLOCKS.
Proof.
  intros [? ?]. split; [by apply Z.div_pos|]. apply Z.div_lt_upper_bound; [done|]. rewrite Z.mul_comm. done.
Qed.

Lemma block_range n : n / BLOCK_SIZE * BLOCK_SIZE ≤ n < (n / BLOCK_SIZE + 1) * BLOCK_SIZE.
Proof. rewrite /BLOCK_SIZE. dlia. Qed.

Lemma wrote_app c e off l1 md1 c1 e1 l2 md2 c2 e2 :
  wrote c e off l1 md1 c1 e1 → wrote c1 e1 (off + len l1) l2 md2 c2 e2 →
  wrote c e off (l1 ++ l2) (md1 || md2) c2 e2.
Proof.
  intros W1 W2. split.
  - apply W2.
  - rewrite (w_meta _ _ _ _ _ _ _ W2). apply W1.
  - intros p. rewrite (w_held _ _ _ _ _ _ _ W2). apply W1.
  - rewrite (w_sb _ _ _ _ _ _ _ W2). apply W1.
  - intros p Hp. destruct (w_kept _ _ _ _ _ _ _ W1 p Hp) as [Hp1 [E1|?]].
    + destruct (w_kept _ _ _ _ _ _ _ W2 p Hp1) as [Hp2 [E2|(r & Hr & Hs & Hp0)]].
      * split; [done|left]. congruence.
      * split; [done|right]. destruct (w_new _ _ _ _ _ _ _ W1 r p Hr Hs) as [?|[?|?]]; [by eauto|done|done].
    + split; [|by right]. by apply (w_kept _ _ _ _ _ _ _ W2).
  - intros p Hp. by apply (w_own _ _ _ _ _ _ _ W2), (w_own _ _ _ _ _ _ _ W1).
  - intros k Hk Hs. rewrite -(w_slot _ _ _ _ _ _ _ W1 k Hk Hs). apply (w_slot _ _ _ _ _ _ _ W2); [done|].
    by rewrite (w_slot _ _ _ _ _ _ _ W1).
  - intros r p Hr Hs. destruct (w_new _ _ _ _ _ _ _ W2 r p Hr Hs) as [Hs1|[Hn| ->]].
    + by apply (w_new _ _ _ _ _ _ _ W1).
    + right; left. intros Hk. apply Hn. by apply (w_kept _ _ _ _ _ _ _ W1).
    + by right; right.
  - intros k Hk Hl H1 H2. rewrite length_app in H2. destruct (decide (l1 = [])) as [->|Hl1].
    { apply (w_cov _ _ _ _ _ _ _ W2); simpl in *; try done; lia. }
    destruct (decide (k * BLOCK_SIZE < off + len l1)) as [Hlt|Hge].
    + rewrite (w_slot _ _ _ _ _ _ _ W2 k Hk); by apply (w_cov _ _ _ _ _ _ _ W1).
    + apply (w_cov _ _ _ _ _ _ _ W2 k Hk); [|rewrite /BLOCK_SIZE in Hge |- *; lia|lia]. intros ->. simpl in H2. lia.
  - intros n Hn. rewrite length_app Nat2Z.inj_add. pose proof (max_block n Hn) as Hk.
    destruct (w_byte _ _ _ _ _ _ _ W1 n Hn) as [B1 B1']. destruct (w_byte _ _ _ _ _ _ _ W2 n Hn) as [B2 B2'].
    split.
    + intros Hr. destruct (decide (n < off + len l1)) as [Hlt|Hge].
      * rewrite B2'; [lia| |rewrite B1; [lia|]; rewrite lookup_app_l //; lia].
        pose proof (block_range n). apply (w_cov _ _ _ _ _ _ _ W1); [done|intros ->; simpl in *; lia|lia|lia].
      * rewrite B2; [lia|]. rewrite lookup_app_r; [lia|]. f_equal. lia.
    + intros Hr Hs. rewrite B2'; [lia| |apply B1'; [lia|done]]. by rewrite (w_slot _ _ _ _ _ _ _ W1).
  - intros [-> ->]%orb_false_iff. rewrite (w_old _ _ _ _ _ _ _ W2) //. by apply W1.
  - intros Hmd. rewrite length_app Nat2Z.inj_add. destruct md1.
    + destruct (w_md _ _ _ _ _ _ _ W1 eq_refl) as (k & ? & ? & ?). exists k. split_and!; [lia|lia|lia|done].
    + destruct (w_md _ _ _ _ _ _ _ W2 Hmd) as (k & ? & ? & Hs). rewrite (w_old _ _ _ _ _ _ _ W1 eq_refl) in Hs.
      exists k. split_and!; [lia|lia|lia|].
      destruct (decide (slot c e k = Some 0)) as [|Hne]; [done|].
      pose proof (w_slot _ _ _ _ _ _ _ W1 k ltac:(lia) Hne) as E. rewrite (w_old _ _ _ _ _ _ _ W1 eq_refl) in E. congruence.
Qed.

(** Writing a whole data block of the file. *)
Lemma write_data ctx n c e k b d d' :
  file_ok c e → 0 ≤ k < INODE_MAX_BLOCKS → slot c e k = Some b → b ≠ 0 →
  bc_content c b = Some d → block_ok d' → 0 ≤ n → bc_room ctx (n + 1) c →
  ∃ c1 c2 c3 c4, bc_acquire b c = Ret b c1 ∧ bc_data b c1 = Ret d c1 ∧ bc_store b d' c1 = Ret () c2 ∧
    bc_sync ctx b c2 = Ret () c3 ∧ bc_release b c3 = Ret () c4 ∧
    file_ok c4 e ∧ agree sb_of c c4 ∧ (∀ p, bc_content c4 p = upd (bc_content c) b (Some d') p) ∧
    (∀ p, bc_held c4 p = bc_held c p) ∧ (∀ r, slot c4 e r = slot c e r) ∧ bc_room ctx n c4.
Proof.
  intros F Hk Hs Hb Hd Hok Hn Hr. assert (Hin : in_file k) by (rewrite /in_file; lia).
  destruct (fo_ptr _ _ _ F k b Hin Hs Hb) as [O Hh].
  destruct (session_write ctx n c b d d' (proj1 (fo_vol _ _ _ F)) Hd Hh Hok Hn Hr) as
    (c1 & c2 & c3 & c4 & R1 & R2 & R3 & R4 & R5 & (W & C & HH) & SB & _ & RM).
  assert (A : agree sb_of c c4).
  { split_and!; [done| |by left]. intros x. rewrite C /upd. case_decide; [subst; right; by eauto|by left]. }
  assert (Hsl : ∀ r, slot c4 e r = slot c e r).
  { intros r. apply slot_ext => Hi. rewrite C upd_ne //. intros E.
    assert (k = -1); [|lia]. apply (fo_inj _ _ _ F k (-1) b Hin in_file_ind Hs); [by rewrite -E|done]. }
  exists c1, c2, c3, c4. split_and!; try done.
  apply (file_stays sb_of c); [done|exact (agree_vol sb_of A (fo_vol _ _ _ F) W)|intros x; apply (agree_own sb_of A)|done|done].
Qed.

Lemma byte_eq c e n k p d :
  0 ≤ n → n / BLOCK_SIZE = k → slot c e k = Some p → p ≠ 0 → bc_content c p = Some d →
  byte c e n = d !! Z.to_nat (n mod BLOCK_SIZE).
Proof.
  intros Hn <- Hs Hp Hd. rewrite slot_data in Hs; [by apply Z.div_pos|].
  by rewrite /file_byte Hs /= (proj2 (Z.eqb_neq _ _) Hp) Hd.
Qed.

Lemma byte_same c e c' e' n k p :
  0 ≤ n → n / BLOCK_SIZE = k → slot c e k = Some p → slot c' e' k = Some p → bc_content c' p = bc_content c p →
  byte c' e' n = byte c e n.
Proof.
  intros Hn <- Hs Hs' Hc. assert (0 ≤ n / BLOCK_SIZE) by by apply Z.div_pos.
  rewrite slot_data // in Hs. rewrite slot_data // in Hs'. by rewrite /file_byte Hs Hs' /= Hc.
Qed.

(** A data block is not the indirect block of the file. *)
Lemma data_not_ind c e k p : file_ok c e → 0 ≤ k < INODE_MAX_BLOCKS → slot c e k = Some p → p ≠ 0 → p ≠ ie_indirect e.
Proof.
  intros F Hk Hs Hp E. assert (k = -1); [|lia].
  apply (fo_inj _ _ _ F k (-1) p); [rewrite /in_file; lia|exact in_file_ind|done|by rewrite E|done].
Qed.

(** The block found by [inode_map] keeps what it held. *)
Lemma map_content ctx n m c e k b md c' e' p k' :
  file_ok c e → map_post sb_of ctx n m c e k b md c' e' → 0 ≤ k' < INODE_MAX_BLOCKS →
  slot c e k' = Some p → p ≠ 0 → bc_content c' p = bc_content c p ∧ kept c p.
Proof.
  intros F P Hk Hs Hp. destruct (fo_ptr _ _ _ F k' p) as [O _]; [rewrite /in_file; lia|done|done|].
  pose proof (own_kept sb_of _ _ O) as K. split; [|done].
  destruct (mp_kept _ _ _ _ _ _ _ _ _ _ _ P p K) as [_ [E|[E _]]]; [done|].
  by destruct (data_not_ind c e k' p).
Qed.

Lemma map_absent ctx n m c e k b c' e' : map_post sb_of ctx n m c e k b true c' e' → slot c e k = Some 0.
Proof. intros P. pose proof (mp_md _ _ _ _ _ _ _ _ _ _ _ P) as Hmd. by apply eq_sym, bool_decide_eq_true in Hmd. Qed.

(** One round of the loop writes its chunk. *)
Lemma chunk_wrote ctx n m c e off l b md c1 e1 d c2 :
  file_ok c e → 0 ≤ off → l ≠ [] → off mod BLOCK_SIZE + len l ≤ BLOCK_SIZE → off / BLOCK_SIZE < INODE_MAX_BLOCKS →
  map_post sb_of ctx n m c e (off / BLOCK_SIZE) b md c1 e1 →
  bc_content c1 b = Some d → length d = 512%nat →
  file_ok c2 e1 → agree sb_of c1 c2 → (∀ r, slot c2 e1 r = slot c1 e1 r) → (∀ p, bc_held c2 p = bc_held c1 p) →
  (∀ p, bc_content c2 p = upd (bc_content c1) b (Some (splice d (Z.to_nat (off mod BLOCK_SIZE)) l)) p) →
  wrote c e off l md c2 e1.
Proof.
  intros F Hoff Hl Hfit Hmax P Hd Hlen F2 A2 S2 H2 C2. set (k := off / BLOCK_SIZE) in *.
  assert (Hk : 0 ≤ k < INODE_MAX_BLOCKS) by (split; [by apply Z.div_pos|done]).
  pose proof (mp_slot _ _ _ _ _ _ _ _ _ _ _ P) as Hs1. pose proof (mp_nz _ _ _ _ _ _ _ _ _ _ _ P) as Hb0.
  pose proof (Z.mod_pos_bound off BLOCK_SIZE ltac:(done)) as Ho.
  assert (Hoffk : off = k * BLOCK_SIZE + off mod BLOCK_SIZE) by (rewrite /k /BLOCK_SIZE; dlia).
  split.
  - done.
  - apply P.
  - intros p. rewrite H2. apply P.
  - rewrite (proj1 A2). apply P.
  - intros p Hp. destruct (mp_kept _ _ _ _ _ _ _ _ _ _ _ P p Hp) as [Hp1 Hor].
    split; [by apply (agree_kept sb_of A2)|]. rewrite C2 /upd. case_decide as E.
    + subst p. right. exists k. destruct md.
      * by destruct (mp_new _ _ _ _ _ _ _ _ _ _ _ P eq_refl).
      * destruct (mp_old _ _ _ _ _ _ _ _ _ _ _ P eq_refl) as [? _]. split; [rewrite /in_file; lia|done].
    + destruct Hor as [?|[-> ?]]; [by left|right]. exists (-1). split; [exact in_file_ind|done].
  - intros p Hp. by apply (agree_own sb_of A2), (mp_own _ _ _ _ _ _ _ _ _ _ _ P).
  - intros k' Hk' Hs. rewrite S2. destruct (decide (k' = k)) as [->|]; [|by apply P].
    rewrite Hs1. destruct md.
    + exfalso. apply Hs. exact (map_absent _ _ _ _ _ _ _ _ _ P).
    + by destruct (mp_old _ _ _ _ _ _ _ _ _ _ _ P eq_refl) as [-> _].
  - intros r p Hr. rewrite S2. destruct (decide (r = k)) as [->|Hrk].
    { rewrite Hs1 => -[= <-]. destruct md.
      - right; left. by destruct (mp_new _ _ _ _ _ _ _ _ _ _ _ P eq_refl).
      - left. by destruct (mp_old _ _ _ _ _ _ _ _ _ _ _ P eq_refl). }
    destruct (decide (r = -1)) as [->|].
    + intros [= <-]. destruct (mp_ind _ _ _ _ _ _ _ _ _ _ _ P) as [->|[_ ?]]; [by left|by right; left].
    + intros Hs. left. rewrite -Hs. symmetry. apply P; [rewrite /in_file in Hr; lia|done].
  - intros k' Hk' _ Hr1 Hr2. assert (k' = k) as ->; [rewrite /BLOCK_SIZE in Hr1 Hr2 Hfit Ho Hoffk; lia|].
    rewrite S2 Hs1. congruence.
  - intros x Hx. pose proof (max_block x Hx) as Hkx. pose proof (block_range x) as Hrx.
    assert (Hb2 : bc_content c2 b = Some (splice d (Z.to_nat (off mod BLOCK_SIZE)) l)) by by rewrite C2 upd_eq.
    assert (Hin : off ≤ x < off + len l → x / BLOCK_SIZE = k) by (rewrite /BLOCK_SIZE in Hrx Hfit Ho Hoffk |- *; lia).
    assert (Hmod : x / BLOCK_SIZE = k → x = k * BLOCK_SIZE + x mod BLOCK_SIZE) by (intros <-; rewrite /BLOCK_SIZE; dlia).
    pose proof (Z.mod_pos_bound x BLOCK_SIZE ltac:(done)) as Hxm.
    assert (Hsp : (Z.to_nat (off mod BLOCK_SIZE) + length l ≤ length d)%nat) by (rewrite Hlen; rewrite /BLOCK_SIZE in Hfit Ho |- *; lia).
    split.
    + intros Hr. specialize (Hin Hr). specialize (Hmod Hin).
      rewrite (byte_eq c2 e1 x k b _ ltac:(lia) Hin ltac:(by rewrite S2) Hb0 Hb2).
      rewrite lookup_splice // decide_True; [lia|]. f_equal. lia.
    + intros Hr Hs. destruct (decide (x / BLOCK_SIZE = k)) as [E|E].
      * specialize (Hmod E). rewrite E in Hs. destruct md.
        { exfalso. apply Hs. exact (map_absent _ _ _ _ _ _ _ _ _ P). }
        destruct (mp_old _ _ _ _ _ _ _ _ _ _ _ P eq_refl) as [Hold _].
        destruct (map_content _ _ _ _ _ _ _ _ _ _ b k F P Hk Hold Hb0) as [Hc _].
        rewrite (byte_eq c2 e1 x k b _ ltac:(lia) E ltac:(by rewrite S2) Hb0 Hb2).
        rewrite (byte_eq c e x k b d ltac:(lia) E Hold Hb0 ltac:(congruence)).
        rewrite lookup_splice // decide_False //. lia.
      * destruct (slot_some sb_of c e (x / BLOCK_SIZE) F) as [p Hp]; [rewrite /in_file; lia|].
        assert (p ≠ 0) as Hp0 by congruence.
        destruct (map_content _ _ _ _ _ _ _ _ _ _ p _ F P Hkx Hp Hp0) as [Hc _].
        assert (Hp2 : slot c2 e1 (x / BLOCK_SIZE) = Some p).
        { rewrite S2 -Hp. by apply P. }
        apply (byte_same _ _ _ _ x _ p ltac:(lia) eq_refl Hp Hp2). rewrite C2 upd_ne //. intros ->.
        apply E. apply (fo_inj _ _ _ F2 _ _ b); [rewrite /in_file; lia|rewrite /in_file; lia|done|by rewrite S2|done].
  - intros Hmd. by apply (mp_old _ _ _ _ _ _ _ _ _ _ _ P Hmd).
  - intros ->. exists k. split; [done|]. split.
    + destruct l; [done|]. simpl. rewrite /BLOCK_SIZE in Hoffk Ho |- *. lia.
    + exact (map_absent _ _ _ _ _ _ _ _ _ P).
Qed.

(** How many blocks a write touches. *)
Definition nblocks (off left : Z) : Z :=
  if 0 <? left then (off + left - 1) / BLOCK_SIZE - off / BLOCK_SIZE + 1 else 0.

Lemma nblocks_step off left : 0 ≤ off → 0 < left →
  nblocks off left = 1 + nblocks (off + chunk off left) (left - chunk off left) ∧
  0 ≤ nblocks (off + chunk off left) (left - chunk off left).
Proof.
  intros Ho Hl. rewrite /nblocks /chunk (proj2 (Z.ltb_lt 0 left)) //. rewrite /BLOCK_SIZE.
  destruct (Z.ltb_spec left (512 - off mod 512)).
  - rewrite (proj2 (Z.ltb_ge 0 _)); [lia|]. dlia.
  - destruct (Z.ltb_spec 0 (left - (512 - off mod 512))); dlia.
Qed.

Lemma write_loop ctx n r m : ∀ s ip i src off left md,
  itab s !! ip = Some i → file_ok (icache s) (entry i) → bytes_ok src →
  0 ≤ off → 0 ≤ left ≤ Z.of_nat n → left ≤ len src → off + left ≤ INODE_MAX_BYTES → 0 ≤ r →
  bc_room ctx (r + 4 * nblocks off left + 2 * Z.of_nat (need (entry i))) (icache s) →
  frees sb_of (icache s) (m + Z.to_nat (nblocks off left) + need (entry i)) →
  ∃ md' c' e', inode_write_loop n ctx ip src off left md s = Ret (md' || md) (map_state s ip i c' e') ∧
    wrote (icache s) (entry i) off (take (Z.to_nat left) src) md' c' e' ∧ bc_room ctx r c'.
Proof.
  induction n as [|n IH]; intros s ip i src off left md Hi F Hok Ho Hl Hsrc Hmax Hr Hroom Hfr; simpl.
  { rewrite (proj2 (Z.ltb_ge 0 left)); [lia|]. exists false, (icache s), (entry i).
    replace left with 0 in * by lia. rewrite map_state_id //. split_and!; [by destruct s|by apply wrote_nil|].
    eapply room_law; [|exact Hroom]. rewrite /nblocks /=. lia. }
  destruct (Z.ltb_spec 0 left) as [Hpos|Hneg]; last first.
  { exists false, (icache s), (entry i). replace left with 0 in * by lia. rewrite map_state_id //.
    split_and!; [by destruct s|by apply wrote_nil|]. eapply room_law; [|exact Hroom]. rewrite /nblocks /=. lia. }
  destruct (nblocks_step off left Ho Hpos) as [Hnb Hnb0]. destruct (chunk_bounds off left Hpos) as [Hsz Hfit].
  set (sz := chunk off left) in *. set (nb := nblocks (off + sz) (left - sz)) in *.
  assert (Hk : 0 ≤ off / BLOCK_SIZE < INODE_MAX_BLOCKS) by (apply max_block; lia).
  destruct (inode_map_spec sb_of ctx (r + 4 * nb + 1) (m + Z.to_nat nb) s ip i (off / BLOCK_SIZE)) as
    (b & md1 & c1 & e1 & R1 & P); [done|done|done|lia| | |].
  { eapply room_law; [|exact Hroom]. lia. }
  { eapply frees_le; [|exact Hfr]. lia. }
  pose proof (mp_file _ _ _ _ _ _ _ _ _ _ _ P) as F1.
  destruct (fo_ptr _ _ _ F1 (off / BLOCK_SIZE) b) as [(_ & _ & [d Hd] & _) _];
    [rewrite /in_file; lia|apply P|apply P|].
  assert (Hdok : block_ok d) by exact (content_law _ _ _ (proj1 (fo_vol _ _ _ F1)) Hd).
  set (l := take (Z.to_nat sz) src).
  assert (Hlen : length l = Z.to_nat sz) by (rewrite length_take; lia).
  pose proof (Z.mod_pos_bound off BLOCK_SIZE ltac:(done)) as Hom.
  assert (Hd'ok : block_ok (splice d (Z.to_nat (off mod BLOCK_SIZE)) l)).
  { destruct Hdok as [Hdl Hdb]. split; [|apply splice_ok; [done|by apply Forall_take]].
    rewrite length_splice //. rewrite Hdl Hlen. rewrite /BLOCK_SIZE in Hfit Hom |- *. lia. }
  destruct (write_data ctx (r + 4 * nb + 2 * Z.of_nat (need e1)) c1 e1 (off / BLOCK_SIZE) b d _ F1 Hk
              (mp_slot _ _ _ _ _ _ _ _ _ _ _ P) (mp_nz _ _ _ _ _ _ _ _ _ _ _ P) Hd Hd'ok) as
    (c2 & c3 & c4 & c5 & Q1 & Q2 & Q3 & Q4 & Q5 & F5 & A5 & C5 & H5 & S5 & RM5); [lia| |].
  { eapply room_law; [|apply (mp_room _ _ _ _ _ _ _ _ _ _ _ P)]. lia. }
  assert (W1 : wrote (icache s) (entry i) off l md1 c5 e1).
  { apply (chunk_wrote ctx (r + 4 * nb + 1) (m + Z.to_nat nb) _ _ off l b md1 c1 e1 d c5); try done.
    - intros E. rewrite E /= in Hlen. lia.
    - rewrite Hlen. lia.
    - lia.
    - apply Hdok. }
  set (s1 := map_state s ip i c1 e1) in *. set (s5 := set_icache c5 s1).
  set (i1 := set_entry e1 i).
  assert (Hi5 : itab s5 !! ip = Some i1) by apply lookup_insert_eq.
  destruct (IH s5 ip i1 (drop (Z.to_nat sz) src) (off + sz) (left - sz) (md1 || md)) as
    (md2 & c' & e' & R2 & W2 & RM2); [done|done|by apply Forall_drop|lia|lia|rewrite length_drop; lia|lia|lia| | |].
  { eapply room_law; [|exact RM5]. simpl. rewrite -/nb. lia. }
  { eapply frees_le; [|apply (agree_frees sb_of A5), (mp_frees _ _ _ _ _ _ _ _ _ _ _ P)]. simpl. rewrite -/nb. lia. }
  exists (md1 || md2), c', e'. split_and!; [| |done].
  - erewrite bind_run; [|exact R1]. cbv beta iota.
    erewrite bind_run; [|exact (lift_run _ s1 _ _ Q1)].
    change (if left <? BLOCK_SIZE - off mod BLOCK_SIZE then left else BLOCK_SIZE - off mod BLOCK_SIZE) with sz.
    erewrite bind_run; [|exact (lift_run _ (set_icache c2 s1) _ _ Q2)].
    erewrite bind_run; [|exact (lift_run _ (set_icache c2 s1) _ _ Q3)].
    erewrite bind_run; [|exact (lift_run _ (set_icache c3 s1) _ _ Q4)].
    erewrite bind_run; [|exact (lift_run _ (set_icache c4 s1) _ _ Q5)].
    change (set_icache c5 (set_icache c4 s1)) with s5. rewrite R2. f_equal.
    + by destruct md1, md2, md.
    + rewrite /s5 /s1 /i1 /map_state /=. rewrite /set_itab /set_icache /= insert_insert_eq //.
  - replace (take (Z.to_nat left) src) with (l ++ take (Z.to_nat (left - sz)) (drop (Z.to_nat sz) src)).
    + apply (wrote_app _ _ off l md1 c5 e1); [done|]. rewrite Hlen Z2Nat.id; [lia|]. exact W2.
    + rewrite take_take_drop. f_equal. lia.
Qed.

(** ** The entry on its block *)

(** Block [ib] holds the entry [e] of inode [ino], and belongs to no file. *)
Definition at_home c (e f : InodeEntry) (ino ib : Z) : Prop :=
  0 < ib ∧ own c ib ∧ bc_held c ib = false ∧ (∀ r, in_file r → slot c f r ≠ Some ib) ∧
  ∃ d, bc_content c ib = Some d ∧ slice d (get_entry ino) 64 = encode_entry e.

Lemma get_entry_fits ino : 0 ≤ ino → (get_entry ino + 64 ≤ 512)%nat.
Proof.
  intros. rewrite /get_entry. pose proof (Z.mod_pos_bound ino INODE_PER_BLOCK ltac:(done)) as Hm.
  assert (INODE_PER_BLOCK = 8) by done. lia.
Qed.

Lemma encode_entry_bytes e : length (ie_addrs e) = 12%nat → length (encode_entry e) = 64%nat ∧ bytes_ok (encode_entry e).
Proof.
  intros Hl. split; [by rewrite /encode_entry !length_app !length_unwords !length_le_bytes Hl|].
  apply Forall_app. split; [apply unwords_ok|]. apply Forall_app. split; [apply le_bytes_ok|].
  apply Forall_app. split; [apply unwords_ok|apply le_bytes_ok].
Qed.

(** [inode_sync] writes the entry. *)
Lemma sync_entry ctx s ip i d :
  itab s !! ip = Some i → i_valid i = true → file_ok (icache s) (entry i) → 0 ≤ inode_no i →
  own (icache s) (to_block_no (sb_of (icache s)) (inode_no i)) →
  bc_held (icache s) (to_block_no (sb_of (icache s)) (inode_no i)) = false →
  bc_content (icache s) (to_block_no (sb_of (icache s)) (inode_no i)) = Some d →
  bc_room ctx 1 (icache s) →
  ∃ c', inode_sync sb_of ctx ip true s = Ret () (set_icache c' s) ∧ bc_wf c' ∧ agree sb_of (icache s) c' ∧
    (∀ p, bc_held c' p = bc_held (icache s) p) ∧
    ∀ p, bc_content c' p =
      upd (bc_content (icache s)) (to_block_no (sb_of (icache s)) (inode_no i))
        (Some (splice d (get_entry (inode_no i)) (encode_entry (entry i)))) p.
Proof.
  intros Hi Hv F Hino O Hh Hd Hr. set (c := icache s) in *. set (ib := to_block_no (sb_of c) (inode_no i)) in *.
  pose proof (proj1 (fo_vol _ _ _ F)) as W. destruct (content_law _ _ _ W Hd) as [Hdl Hdb].
  destruct (encode_entry_bytes (entry i) (fo_len _ _ _ F)) as [Hel Heb].
  destruct (session_write ctx 0 c ib d (splice d (get_entry (inode_no i)) (encode_entry (entry i))) W Hd Hh) as
    (c1 & c2 & c3 & c4 & R1 & R2 & R3 & R4 & R5 & (W4 & C & HH) & SB & _ & _); [|done|done|].
  { split; [|by apply splice_ok]. rewrite length_splice //. rewrite Hel Hdl. by apply get_entry_fits. }
  exists c4. split_and!; try done.
  - rewrite /inode_sync. erewrite bind_run; [|exact (iget_run _ _ _ Hi)].
    erewrite bind_run; [|reflexivity].
    erewrite bind_run; [|exact (lift_run _ s _ _ R1)].
    erewrite bind_run; [|exact (lift_run _ (set_icache c1 s) _ _ R2)].
    rewrite Hv. cbv beta iota delta [andb].
    erewrite bind_run; [|erewrite bind_run; [|exact (lift_run _ (set_icache c1 s) _ _ R3)];
      exact (lift_run _ (set_icache c2 s) _ _ R4)].
    exact (lift_run _ (set_icache c3 s) _ _ R5).
  - split_and!; [done| |by left]. intros p. rewrite C /upd. case_decide; [subst; right; by eauto|by left].
Qed.

Lemma file_ok_size c e v : file_ok c e → file_ok c (set_ie_num_bytes v e).
Proof. intros [V L Pt Ij]. by split. Qed.

(** The last step of [inode_write]: record the new size, if need be. *)
Lemma wrote_home c e off l md c' e' f ino ib :
  wrote c e off l md c' e' → at_home c f e ino ib → at_home c' f e' ino ib.
Proof.
  intros W (Hib & O & Hh & Hs & d & Hd & Hsl).
  assert (Hc : bc_content c' ib = bc_content c ib).
  { destruct (w_kept _ _ _ _ _ _ _ W ib (own_kept _ _ _ O)) as [_ [?|(r & Hr & ? & _)]]; [done|].
    by destruct (Hs r Hr). }
  split_and!; [done|by apply (w_own _ _ _ _ _ _ _ W)|by rewrite (w_held _ _ _ _ _ _ _ W)| |exists d; by rewrite Hc].
  intros r Hr Hs'. destruct (w_new _ _ _ _ _ _ _ W r ib Hr Hs') as [?|[Hk|?]]; [by destruct (Hs r Hr)| |lia].
  by apply Hk, own_kept.
Qed.

Definition no_holes c (e : InodeEntry) : Prop :=
  ∀ k, 0 ≤ k → k * BLOCK_SIZE < ie_num_bytes e → slot c e k ≠ Some 0.

(** What a write of [l] at [off] is to achieve. *)
Record write_post c e (off : Z) (l : list Z) (ino ib : Z) c' e' : Prop := {
  wr_file : file_ok c' e';
  wr_meta : (ie_type e', ie_major e', ie_minor e', ie_num_links e') = (ie_type e, ie_major e, ie_minor e, ie_num_links e);
  wr_size : ie_num_bytes e' = Z.max (ie_num_bytes e) (off + len l);
  wr_byte n : 0 ≤ n < ie_num_bytes e' →
    byte c' e' n = if decide (off ≤ n < off + len l) then l !! Z.to_nat (n - off) else byte c e n;
  wr_holes : no_holes c' e';
  wr_home : at_home c' e' e' ino ib;
  wr_frame p : kept c p → p ≠ ib → (∀ r, in_file r → slot c e r ≠ Some p) → bc_content c' p = bc_content c p;
  wr_held p : bc_held c' p = bc_held c p }.

(** The bytes of the file after the loop. *)
Lemma wrote_bytes c e off l md c' e' n :
  wrote c e off l md c' e' → no_holes c e → 0 ≤ off ≤ ie_num_bytes e → off + len l ≤ INODE_MAX_BYTES →
  ie_num_bytes e ≤ INODE_MAX_BYTES → 0 ≤ n < Z.max (ie_num_bytes e) (off + len l) →
  byte c' e' n = if decide (off ≤ n < off + len l) then l !! Z.to_nat (n - off) else byte c e n.
Proof.
  intros W Hh Ho Hm Hnb Hn. destruct (w_byte _ _ _ _ _ _ _ W n ltac:(lia)) as [B1 B2]. case_decide as Hc; [by apply B1|].
  apply B2; [done|]. pose proof (block_range n). apply Hh; [by apply Z.div_pos; [lia|]|lia].
Qed.

Lemma wrote_holes c e off l md c' e' v :
  wrote c e off l md c' e' → no_holes c e → 0 ≤ off ≤ ie_num_bytes e → off + len l ≤ INODE_MAX_BYTES →
  ie_num_bytes e ≤ INODE_MAX_BYTES → v = Z.max (ie_num_bytes e) (off + len l) →
  no_holes c' (set_ie_num_bytes v e').
Proof.
  intros W Hh Ho Hm Hnb -> k Hk0 Hk. simpl in Hk. change (slot c' e' k ≠ Some 0).
  assert (HMB : INODE_MAX_BYTES = INODE_MAX_BLOCKS * BLOCK_SIZE) by done.
  assert (Hkm : 0 ≤ k < INODE_MAX_BLOCKS) by (rewrite /BLOCK_SIZE in Hk HMB; lia).
  destruct (decide (k * BLOCK_SIZE < ie_num_bytes e)) as [Hin|Hout].
  - by rewrite (w_slot _ _ _ _ _ _ _ W k Hkm); apply Hh.
  - apply (w_cov _ _ _ _ _ _ _ W k Hkm); [intros ->; simpl in *; lia|rewrite /BLOCK_SIZE in Hout |- *; lia|lia].
Qed.

(** After the loop and the synchronisation of the grown entry. *)
Lemma post_of_sync c e off l md c1 e1 v ib ino d c3 (e2 := set_ie_num_bytes v e1) :
  wrote c e off l md c1 e1 → no_holes c e → 0 ≤ off ≤ ie_num_bytes e → off + len l ≤ INODE_MAX_BYTES →
  ie_num_bytes e ≤ INODE_MAX_BYTES → v = Z.max (ie_num_bytes e) (off + len l) → 0 ≤ ino →
  at_home c e e ino ib → bc_content c1 ib = Some d → bc_wf c3 → agree sb_of c1 c3 →
  (∀ p, bc_held c3 p = bc_held c1 p) →
  (∀ p, bc_content c3 p = upd (bc_content c1) ib (Some (splice d (get_entry ino) (encode_entry e2))) p) →
  write_post c e off l ino ib c3 e2.
Proof.
  intros W Hh Ho Hm Hnb Hv Hino Hhome Hd W3 A3 H3 C3.
  pose proof (wrote_home _ _ _ _ _ _ _ _ _ _ W Hhome) as (Hib0 & O1 & Hh1 & Hs1 & _).
  pose proof (file_ok_size c1 e1 v (w_file _ _ _ _ _ _ _ W)) as F2. fold e2 in F2.
  pose proof (w_meta _ _ _ _ _ _ _ W) as Hmeta. rewrite /meta in Hmeta. injection Hmeta as M1 M2 M3 M4 M5.
  destruct (encode_entry_bytes e2 (fo_len _ _ _ F2)) as [Hel Heb].
  destruct (content_law _ _ _ (proj1 (fo_vol _ _ _ F2)) Hd) as [Hdl _].
  assert (Hslot : ∀ r, slot c3 e2 r = slot c1 e2 r).
  { intros r. apply slot_ext => Hi0. rewrite C3 upd_ne //. intros E.
    apply (Hs1 (-1) in_file_ind). by rewrite /slot /= -E. }
  split.
  - apply (file_stays sb_of c1); try done.
    + exact (agree_vol sb_of A3 (fo_vol _ _ _ F2) W3).
    + intros p. apply (agree_own sb_of A3).
  - rewrite /= M1 M2 M3 M4 //.
  - exact Hv.
  - intros n Hn. rewrite /= Hv in Hn.
    rewrite -(wrote_bytes c e off l md c1 e1 n W Hh Ho Hm Hnb Hn).
    assert (Hkn : 0 ≤ n / BLOCK_SIZE < INODE_MAX_BLOCKS) by (apply max_block; lia).
    destruct (slot_some sb_of c1 e2 (n / BLOCK_SIZE) F2) as [p Hp]; [rewrite /in_file; lia|].
    apply (byte_same c1 e2 c3 e2 n (n / BLOCK_SIZE) p); [lia|done|done|by rewrite Hslot|].
    rewrite C3 upd_ne //. intros ->. apply (Hs1 (n / BLOCK_SIZE)); [rewrite /in_file; lia|exact Hp].
  - intros k Hk0 Hk. rewrite Hslot. by apply (wrote_holes c e off l md).
  - split_and!; [done|by apply (agree_own sb_of A3)|by rewrite H3|intros r Hr; rewrite Hslot; by apply Hs1|].
    eexists. rewrite C3 upd_eq. split; [done|]. rewrite -Hel. apply slice_splice_same.
    rewrite Hel Hdl. by apply get_entry_fits.
  - intros p Hp Hne Hs. rewrite C3 upd_ne //.
    destruct (w_kept _ _ _ _ _ _ _ W p Hp) as [_ [?|(r & Hr & ? & _)]]; [done|]. by destruct (Hs r Hr).
  - intros p. rewrite H3. apply W.
Qed.

Lemma inode_write_spec ctx s ip i src off cnt ib :
  itab s !! ip = Some i → i_valid i = true → ie_type (entry i) ≠ INODE_DEVICE → 0 ≤ inode_no i →
  file_ok (icache s) (entry i) → no_holes (icache s) (entry i) → bytes_ok src →
  0 ≤ off ≤ ie_num_bytes (entry i) → 0 ≤ cnt ≤ len src → off + cnt ≤ INODE_MAX_BYTES →
  ie_num_bytes (entry i) ≤ INODE_MAX_BYTES →
  ib = to_block_no (sb_of (icache s)) (inode_no i) → at_home (icache s) (entry i) (entry i) (inode_no i) ib →
  bc_room ctx (1 + 4 * nblocks off cnt + 2 * Z.of_nat (need (entry i))) (icache s) →
  frees sb_of (icache s) (Z.to_nat (nblocks off cnt) + need (entry i)) →
  ∃ c' e', inode_write sb_of ctx ip src off cnt s = Ret cnt (map_state s ip i c' e') ∧
    write_post (icache s) (entry i) off (take (Z.to_nat cnt) src) (inode_no i) ib c' e'.
Proof.
  intros Hi Hv Ht Hino F Hh Hok Ho Hc Hm Hnb Hib Hhome Hroom Hfr.
  set (c := icache s) in *. set (e := entry i) in *. set (l := take (Z.to_nat cnt) src).
  assert (Hlen : len l = cnt) by (rewrite length_take; lia).
  destruct (write_loop ctx (Z.to_nat cnt) 1 0 s ip i src off cnt false) as (md & c1 & e1 & R & W & RM);
    [done|done|done|lia|lia|lia|done|lia|done|done|]. rewrite orb_false_r in R.
  assert (Hmax : INODE_MAX_BYTES = 71680) by done.
  pose proof (w_meta _ _ _ _ _ _ _ W) as Hmeta. rewrite /meta in Hmeta. injection Hmeta as M1 M2 M3 M4 M5.
  assert (Hgrow : md || (ie_num_bytes e1 <? off + cnt) = negb (off + cnt <=? ie_num_bytes e)).
  { rewrite M5. destruct (Z.leb_spec (off + cnt) (ie_num_bytes e)) as [Hle|Hlt]; simpl.
    - rewrite (proj2 (Z.ltb_ge _ _)) // orb_false_r. destruct md; [|done].
      destruct (w_md _ _ _ _ _ _ _ W eq_refl) as (k & Hk & Hk' & Hs). rewrite Hlen in Hk'.
      exfalso. apply (Hh k); [lia|lia|done].
    - rewrite (proj2 (Z.ltb_lt _ _)) //. apply orb_true_r. }
  set (s1 := map_state s ip i c1 e1) in *.
  assert (Hi1 : itab s1 !! ip = Some (set_entry e1 i)) by apply lookup_insert_eq.
  assert (Hrun : inode_write sb_of ctx ip src off cnt s =
    ((if negb (off + cnt <=? ie_num_bytes e)
      then iupd ip (λ i, set_entry (set_ie_num_bytes (u32 (off + cnt)) (entry i)) i);; inode_sync sb_of ctx ip true
      else mret ());; mret cnt) s1).
  { rewrite /inode_write. erewrite bind_run; [|exact (iget_run _ _ _ Hi)]. rewrite (proj2 (Z.eqb_neq _ _) Ht).
    rewrite /u64 wrap_small; [lia|]. rewrite (proj2 (Z.leb_le off (ie_num_bytes _))); [exact (proj2 Ho)|].
    rewrite (proj2 (Z.leb_le (off + cnt) INODE_MAX_BYTES)) //.
    rewrite (proj2 (Z.leb_le off (off + cnt))); [lia|].
    do 3 (erewrite bind_run; [|reflexivity]). erewrite bind_run; [|exact R].
    erewrite bind_run; [|exact (iget_run _ _ _ Hi1)]. by rewrite [entry (set_entry e1 i)]/= Hgrow. }
  rewrite Hrun. pose proof (wrote_home _ _ _ _ _ _ _ _ _ _ W Hhome) as Hhome1.
  destruct (Z.leb_spec (off + cnt) (ie_num_bytes e)) as [Hle|Hlt]; simpl negb; cbv iota.
  - assert (e1 = e) as ->.
    { destruct md; [|by apply (w_old _ _ _ _ _ _ _ W)]. done. }
    exists c1, e. split; [done|]. split.
    + apply W.
    + done.
    + rewrite Hlen. lia.
    + intros n Hn. apply (wrote_bytes c e off l md); try done; lia.
    + pose proof (wrote_holes c e off l md c1 e (ie_num_bytes e) W Hh Ho ltac:(lia) Hnb ltac:(lia)) as Hnh. exact Hnh.
    + done.
    + intros p Hp _ Hs. destruct (w_kept _ _ _ _ _ _ _ W p Hp) as [_ [?|(r & Hr & ? & _)]]; [done|].
      by destruct (Hs r Hr).
    + apply W.
  - set (e2 := set_ie_num_bytes (off + cnt) e1). rewrite /u32 wrap_small; [lia|].
    set (s2 := set_itab (<[ip := set_entry e2 (set_entry e1 i)]> (itab s1)) s1).
    assert (F2 : file_ok c1 e2) by apply file_ok_size, W.
    destruct Hhome1 as (Hib0 & O1 & Hh1 & Hs1 & d & Hd & Hsl).
    assert (Hibc : to_block_no (sb_of c1) (inode_no i) = ib) by by rewrite (w_sb _ _ _ _ _ _ _ W) -/c Hib.
    destruct (sync_entry ctx s2 ip (set_entry e2 (set_entry e1 i)) d) as (c3 & R3 & W3 & A3 & H3 & C3);
      [apply lookup_insert_eq|done|done|done|by rewrite Hibc..|done|].
    assert (C3' : ∀ p, bc_content c3 p = upd (bc_content c1) ib (Some (splice d (get_entry (inode_no i)) (encode_entry e2))) p).
    { intros p. rewrite C3 Hibc //. }
    exists c3, e2. split.
    { erewrite bind_run; [|erewrite bind_run; [|exact (iupd_run _ _ _ _ Hi1)]; exact R3].
      rewrite /mret /M_ret. f_equal. rewrite /s2 /s1 /map_state /set_itab /set_icache /= !insert_insert_eq //. }
    apply (post_of_sync c e off l md c1 e1 (off + cnt) ib (inode_no i) d c3); try done; lia.
Qed.

(** A file without holes can be read. *)
Lemma file_has_blocks c e :
  file_ok c e → no_holes c e → ie_num_bytes e ≤ INODE_MAX_BYTES →
  ∀ k, 0 ≤ k → k * BLOCK_SIZE < ie_num_bytes e → has_block c e k.
Proof.
  intros F Hh Hm k Hk Hlt. assert (HMB : INODE_MAX_BYTES = INODE_MAX_BLOCKS * BLOCK_SIZE) by done.
  assert (Hin : in_file k) by (rewrite /in_file; rewrite /BLOCK_SIZE in Hlt HMB; lia).
  destruct (slot_some sb_of c e k F Hin) as [b Hb]. assert (b ≠ 0) as Hb0 by (intros ->; by apply (Hh k)).
  destruct (fo_ptr _ _ _ F k b Hin Hb Hb0) as [(_ & _ & Hs & _) Hf]. split.
  - rewrite /path_free. destruct (decide (k < INODE_NUM_DIRECT)); [by left|right].
    destruct (decide (ie_indirect e = 0)) as [Hz|Hz].
    + rewrite slot_data // /block_index (proj2 (Z.ltb_ge _ _)) in Hb; [lia|].
      rewrite Hz in Hb. destruct (_ <? _); [|done]. simpl in Hb. congruence.
    + exact (proj2 (fo_ptr _ _ _ F (-1) _ in_file_ind eq_refl Hz)).
  - exists b. split_and!; try done. by rewrite slot_data in Hb.
Qed.

(** C4: Writing a file.  On a valid regular file or directory without holes, whose
    pointers are distinct allocated blocks and whose entry is on its block, with
    enough free blocks and log space, a write of [cnt] bytes at an offset inside
    the file or at its end returns [cnt]; the size becomes the larger of the old
    size and the end of the write; each byte of the file is then the byte written,
    inside the range, and the old byte elsewhere; the entry on the inode's block
    is the new one; no block of anything else changes; the file stays well formed
    and without holes.  Reading the range back gives the bytes written. *)
Theorem inode_write_then_read ctx s ip i src off cnt ib alerted :
  itab s !! ip = Some i → i_valid i = true → ie_type (entry i) ≠ INODE_DEVICE → 0 ≤ inode_no i →
  file_ok (icache s) (entry i) → no_holes (icache s) (entry i) → bytes_ok src →
  0 ≤ off ≤ ie_num_bytes (entry i) → 0 ≤ cnt ≤ len src → off + cnt ≤ INODE_MAX_BYTES →
  ie_num_bytes (entry i) ≤ INODE_MAX_BYTES →
  ib = to_block_no (sb_of (icache s)) (inode_no i) → at_home (icache s) (entry i) (entry i) (inode_no i) ib →
  bc_room ctx (1 + 4 * nblocks off cnt + 2 * Z.of_nat (need (entry i))) (icache s) →
  frees sb_of (icache s) (Z.to_nat (nblocks off cnt) + need (entry i)) →
  ∃ c' e' c'', inode_write sb_of ctx ip src off cnt s = Ret cnt (map_state s ip i c' e') ∧
    write_post (icache s) (entry i) off (take (Z.to_nat cnt) src) (inode_no i) ib c' e' ∧
    inode_read alerted ip off cnt (map_state s ip i c' e') =
      Ret (cnt, take (Z.to_nat cnt) src) (set_icache c'' (map_state s ip i c' e')).
Proof.
  intros Hi Hv Ht Hino F Hh Hok Ho Hc Hm Hnb Hib Hhome Hroom Hfr.
  destruct (inode_write_spec ctx s ip i src off cnt ib) as (c' & e' & R & P); try done.
  pose proof (wr_size _ _ _ _ _ _ _ _ P) as Hsz. rewrite length_take in Hsz.
  assert (Hmax : INODE_MAX_BYTES = 71680) by done.
  pose proof (wr_meta _ _ _ _ _ _ _ _ P) as Hmeta. injection Hmeta as Hty _ _ _.
  destruct (inode_read_spec sb_of alerted (map_state s ip i c' e') ip (set_entry e' i) off cnt) as
    (l & c'' & R2 & _ & Hlen & Hl); simpl.
  - apply lookup_insert_eq.
  - exact (proj1 (fo_vol _ _ _ (wr_file _ _ _ _ _ _ _ _ P))).
  - by rewrite Hty.
  - lia.
  - lia.
  - lia.
  - apply file_has_blocks; [apply P|apply P|lia].
  - simpl in *. rewrite (_ : cnt `min` (ie_num_bytes e' - off) = cnt) in R2 Hlen Hl; [lia|].
    exists c', e', c''. split_and!; [done|done|]. rewrite R2. do 2 f_equal.
    apply list_eq_same_length with (Z.to_nat cnt); [rewrite length_take; lia|lia|].
    intros j x y Hj Hx Hy. rewrite -(Nat2Z.id j) Hl in Hx; [lia|].
    rewrite (wr_byte _ _ _ _ _ _ _ _ P) in Hx; [lia|].
    rewrite length_take decide_True in Hx; [lia|]. replace (off + Z.of_nat j - off) with (Z.of_nat j) in Hx by lia.
    rewrite Nat2Z.id in Hx. congruence.
Qed.
End write.

(** Inode 1 is a file or directory of one full block of zeros, block 4, on the
    ten-block disk; blocks 7 and 8 are free. *)
Section demo3.
Context (ty : Z).
Definition demo3_entry : InodeEntry := mkEntry ty 0 0 1 512 (4 :: replicate 11 0) 0.
Definition demo3_home : list Z := splice (replicate 512 0) 64 (encode_entry demo3_entry).
Definition demo3 : cstate :=
  mkCState demo2_sb (<[5 := demo3_home]> demo2_disk) [] false [] (mkHeader 0 (replicate 63 0)) 0 [0; 0; 0; 0]
    (mkLog 2 1 10 false false 0 0) {[ 1 := 10 ]}.
Definition demo3_inodes : istate (S := cstate) :=
  mkI demo3 false [5] {[ 5 := mkInode 0 (mkRC 1) 1 true demo3_entry ]} 6 (Some 5) 5 Con.console_init.

Lemma demo3_home_ok : block_ok demo3_home.
Proof.
  split; [reflexivity|]. apply splice_ok; [apply zero_block_ok|]. by apply encode_entry_bytes.
Qed.

Lemma demo3_content b : b ≠ 5 → content demo3 b = content demo2 b.
Proof. intros Hb. rewrite /content /=. rewrite lookup_insert_ne; [congruence|done]. Qed.

Lemma demo3_wf : cache_wf demo3.
Proof.
  split_and!; try done.
  - rewrite /cache_ok. split_and!; [done|apply NoDup_nil_2|done].
  - intros b d. simpl. destruct (decide (b = 5)) as [->|].
    + rewrite lookup_insert_eq. intros [= <-]. exact demo3_home_ok.
    + rewrite lookup_insert_ne; [congruence|]. apply demo2_wf.
  - intros b Hb. by apply elem_of_nil in Hb.
Qed.

Lemma demo3_bitmap b : 0 ≤ b < 9 → bitmap_block_of (sblock demo3) b = 6.
Proof. intros. rewrite /bitmap_block_of /BIT_PER_BLOCK /BLOCK_SIZE Z.div_small /=; lia. Qed.

Lemma demo3_used b : 0 ≤ b < 9 → used demo2_sb (content demo3) b = used demo2_sb (content demo2) b.
Proof.
  intros Hb. rewrite /used (demo3_bitmap b Hb : bitmap_block_of demo2_sb b = 6).
  by rewrite (demo3_content 6).
Qed.

Lemma demo3_vol : vol_ok sblock demo3.
Proof.
  split; [exact demo3_wf|]. split; [|split; [done|reflexivity]].
  change (@bc_content cstate cache_ops) with content. change (@bc_held cstate cache_ops) with held.
  intros b Hb. change (alloc_bound (sblock demo3)) with 9 in *.
  destruct (demo2_alloc_ok b Hb) as (H1 & H2 & H3). change (alloc_bound (sblock demo2)) with 9 in H3.
  change (sblock demo2) with (sblock demo3) in *. rewrite (demo3_bitmap b Hb) in H1 H2 |- *.
  split_and!; [by rewrite (demo3_content 6)|done|]. rewrite demo3_used // => Hu.
  destruct (H3 Hu) as (? & ? & ?). split_and!; [|done|done].
  destruct (decide (b = 5)) as [->|]; [by eexists|]. by rewrite demo3_content.
Qed.

Lemma demo3_own b : b ∈ [4; 5] → own sblock demo3 b.
Proof.
  intros Hb. assert (Hb' : b = 4 ∨ b = 5) by (rewrite !elem_of_cons elem_of_nil in Hb; naive_solver).
  split; [change (alloc_bound (sblock demo3)) with 9; lia|]. split_and!.
  - destruct Hb' as [-> | ->]; reflexivity.
  - destruct Hb' as [-> | ->]; by eexists.
  - intros (b' & Hb1 & E). rewrite demo3_bitmap // in E. lia.
Qed.

Lemma demo3_slot r p : in_file r → slot demo3 demo3_entry r = Some p → p ≠ 0 → r = 0 ∧ p = 4.
Proof.
  intros Hr Hs Hp. rewrite /slot in Hs. destruct (Z.eqb_spec r (-1)); [simpl in Hs; congruence|].
  rewrite /in_file in Hr. rewrite /block_index in Hs. destruct (r <? INODE_NUM_DIRECT).
  - simpl in Hs. destruct (Z.to_nat r) as [|m] eqn:E; [simpl in Hs; split; [lia|congruence]|].
    assert (p = 0); [|done]. change ((replicate 11 0) !! m = Some p) in Hs. by apply lookup_replicate in Hs as [-> _].
  - destruct (_ <? _); simpl in Hs; congruence.
Qed.

Lemma demo3_file : file_ok sblock demo3 demo3_entry.
Proof.
  split; [exact demo3_vol|reflexivity| |].
  - intros r p Hr Hs Hp. destruct (demo3_slot r p Hr Hs Hp) as [_ ->]. split; [|reflexivity].
    apply demo3_own. by left.
  - intros r r' p Hr Hr' Hs Hs' Hp. destruct (demo3_slot r p Hr Hs Hp), (demo3_slot r' p Hr' Hs' Hp). congruence.
Qed.

Lemma demo3_at_home : at_home sblock demo3 demo3_entry demo3_entry 1 5.
Proof.
  split_and!; [done|apply demo3_own; by right; left|reflexivity| |].
  - intros r Hr Hs. destruct (demo3_slot r 5 Hr Hs) as [_ ?]; [done|done].
  - exists demo3_home. split; [reflexivity|]. vm_compute. reflexivity.
Qed.

Lemma demo3_frees : frees sblock demo3 2.
Proof.
  exists [7; 8]. split_and!; [|done|].
  - apply NoDup_cons. split; [|apply NoDup_singleton]. rewrite list_elem_of_singleton. done.
  - change (alloc_bound (sblock demo3)) with 9. repeat constructor; try lia; reflexivity.
Qed.

End demo3.

Lemma inode_write_then_read_witness :
  ∃ c' e' c'', inode_write sblock (Some 1) 5 [1; 2; 3] 512 3 (demo3_inodes 2) =
      Ret 3 (map_state (demo3_inodes 2) 5 (mkInode 0 (mkRC 1) 1 true (demo3_entry 2)) c' e') ∧
    ie_num_bytes e' = 515 ∧
    inode_read false 5 512 3 (map_state (demo3_inodes 2) 5 (mkInode 0 (mkRC 1) 1 true (demo3_entry 2)) c' e') =
      Ret (3, [1; 2; 3]) (set_icache c'' (map_state (demo3_inodes 2) 5 (mkInode 0 (mkRC 1) 1 true (demo3_entry 2)) c' e')).
Proof.
  destruct (inode_write_then_read sblock (laws := cache_laws) (Some 1) (demo3_inodes 2) 5
    (mkInode 0 (mkRC 1) 1 true (demo3_entry 2)) [1; 2; 3] 512 3 5 false) as (c' & e' & c'' & H1 & P & H2).
  - reflexivity.
  - reflexivity.
  - discriminate.
  - simpl. lia.
  - exact (demo3_file 2).
  - intros k H0 Hk. change (k * 512 < 512) in Hk. assert (k = 0) as -> by lia. discriminate.
  - repeat constructor; rewrite /byte_ok; lia.
  - simpl. lia.
  - simpl. lia.
  - change INODE_MAX_BYTES with 71680. lia.
  - change INODE_MAX_BYTES with 71680. simpl. lia.
  - reflexivity.
  - exact (demo3_at_home 2).
  - exists 10. split_and!; [reflexivity|discriminate|discriminate].
  - exact (demo3_frees 2).
  - exists c', e', c''. split_and!; [exact H1|exact (wr_size _ _ _ _ _ _ _ _ _ P)|exact H2].
Defined.
