(* ===== verification/InodeDir.v ===== *)
(** * InodeDir: directories

    A directory is a file of 16-byte entries.  [inode_lookup] finds the first
    entry in use with the name, and [inode_insert] adds an entry that a later
    lookup finds, in the first free place or at the end. *)

From stdpp Require Import base numbers list gmap.
From S2P Require Import Prelude Bitmap Spinlock Bytes Str FsDefs BlockCache Cache CacheList CacheOps CacheAlloc Console Inode InodeRead InodeMap InodeWrite.

Section dir.
Context {S : Type} `{BC : BlockCache S} (sb_of : S → SuperBlock) {laws : BlockCacheLaws S sb_of}.
Implicit Types c : S.
Implicit Types s : istate (S := S).

(** The bytes and the value of entry [k]. *)
Definition dir_bytes c (e : InodeEntry) (k : Z) : list Z :=
  (λ j, default 0 (file_byte (bc_content c) e (sizeof_DirEntry * k + j))) <$> seqZ 0 16.
Definition dirent_at c (e : InodeEntry) (k : Z) : DirEntry := decode_dirent (dir_bytes c e k).

(** A directory of [nd] entries. *)
Record dir_ok c (e : InodeEntry) (nd : Z) : Prop := {
  do_type : ie_type e = INODE_DIRECTORY;
  do_file : file_ok sb_of c e;
  do_holes : no_holes c e;
  do_size : ie_num_bytes e = sizeof_DirEntry * nd;
  do_nd : 0 ≤ nd;
  do_max : ie_num_bytes e ≤ INODE_MAX_BYTES }.

Lemma dir_not_device e : ie_type e = INODE_DIRECTORY → ie_type e ≠ INODE_DEVICE.
Proof. by intros ->. Qed.

Lemma file_byte_some c e nd n : dir_ok c e nd → 0 ≤ n < ie_num_bytes e → is_Some (file_byte (bc_content c) e n).
Proof.
  intros D Hn. pose proof (block_range n) as Hr.
  destruct (file_has_blocks sb_of c e (do_file _ _ _ D) (do_holes _ _ _ D) (do_max _ _ _ D) (n / BLOCK_SIZE)) as
    (_ & b & Hb & Hb0 & [d Hd] & _); [by apply Z.div_pos; [lia|]|lia|].
  rewrite /file_byte Hb /= (proj2 (Z.eqb_neq _ _) Hb0) Hd /=. apply lookup_lt_is_Some.
  destruct (content_law _ _ _ (proj1 (fo_vol _ _ _ (do_file _ _ _ D))) Hd) as [-> _].
  pose proof (Z.mod_pos_bound n BLOCK_SIZE ltac:(done)). assert (BLOCK_SIZE = 512) by done. lia.
Qed.

(** Reading one entry. *)
Lemma read_dirent alerted s ip i nd k :
  itab s !! ip = Some i → dir_ok (icache s) (entry i) nd → 0 ≤ k < nd →
  ∃ c', inode_read alerted ip (sizeof_DirEntry * k) sizeof_DirEntry s =
      Ret (sizeof_DirEntry, dir_bytes (icache s) (entry i) k) (set_icache c' s) ∧ same sb_of (icache s) c'.
Proof.
  intros Hi D Hk. pose proof (do_size _ _ _ D) as Hsz. pose proof (do_max _ _ _ D) as Hmx.
  assert (HM : INODE_MAX_BYTES = 71680) by done. assert (HD : sizeof_DirEntry = 16) by done.
  destruct (inode_read_spec sb_of alerted s ip i (sizeof_DirEntry * k) sizeof_DirEntry) as
    (l & c' & R & Sm & Hlen & Hl).
  - done.
  - apply D.
  - apply dir_not_device, D.
  - lia.
  - lia.
  - lia.
  - apply (file_has_blocks sb_of); apply D.
  - rewrite (_ : sizeof_DirEntry `min` _ = sizeof_DirEntry) in R Hlen Hl; [lia|].
    exists c'. split; [|done]. rewrite R. do 2 f_equal. apply list_eq_same_length with 16%nat.
    { by rewrite /dir_bytes length_fmap length_seqZ. }
    { by rewrite Hlen. }
    intros j x y Hj Hx Hy. rewrite -(Nat2Z.id j) Hl in Hx; [lia|].
    rewrite /dir_bytes list_lookup_fmap in Hy. apply fmap_Some in Hy as (z & Hz & ->).
    apply lookup_seqZ in Hz as [-> _]. rewrite Z.add_0_l Hx //.
Qed.

Lemma dir_ok_same c c' e nd : same sb_of c c' → dir_ok c e nd → dir_ok c' e nd.
Proof.
  intros Sm [Dt Df Dh Ds Dn Dm]. pose proof Sm as ((W & C & Hh) & SB & _).
  assert (A : agree sb_of c c') by (split_and!; [done|by left|by left]).
  assert (Hs : ∀ r, slot c' e r = slot c e r) by (intros r; by apply slot_ext).
  split; try done.
  - apply (file_stays sb_of c); [done|exact (agree_vol sb_of A (fo_vol _ _ _ Df) W)|intros p; apply (agree_own sb_of A)|done|done].
  - intros k ? ?. rewrite Hs. by apply Dh.
Qed.

Lemma dirent_same c c' e k : same sb_of c c' → dirent_at c' e k = dirent_at c e k.
Proof.
  intros Sm. rewrite /dirent_at /dir_bytes. f_equal. apply list_fmap_ext. intros j x _.
  by rewrite (file_byte_ext _ (bc_content c)) => [b|]; [exact (same_content _ _ _ _ Sm)|].
Qed.

(** What a scan finds from entry [k0] on. *)
Inductive scanned c e (nd : Z) (P : DirEntry → bool) (k0 : Z) : option (Z * DirEntry) → Prop :=
| scan_some k :
    k0 ≤ k < nd → P (dirent_at c e k) = true → (∀ k', k0 ≤ k' < k → P (dirent_at c e k') = false) →
    scanned c e nd P k0 (Some (sizeof_DirEntry * k, dirent_at c e k))
| scan_none : (∀ k', k0 ≤ k' < nd → P (dirent_at c e k') = false) → scanned c e nd P k0 None.

Lemma scanned_step c e nd P k0 r :
  P (dirent_at c e k0) = false → scanned c e nd P (k0 + 1) r → scanned c e nd P k0 r.
Proof.
  intros Hp [k Hk Ht Hf|Hf].
  - apply scan_some; [lia|done|]. intros k' Hk'. destruct (decide (k' = k0)) as [->|]; [done|]. apply Hf. lia.
  - apply scan_none. intros k' Hk'. destruct (decide (k' = k0)) as [->|]; [done|]. apply Hf. lia.
Qed.

Lemma scanned_same c c' e nd P k0 r : same sb_of c c' → scanned c' e nd P k0 r → scanned c e nd P k0 r.
Proof.
  intros Sm [k Hk Ht Hf|Hf].
  - rewrite (dirent_same c c') // in Ht |- *. apply scan_some; [done..|].
    intros k' Hk'. rewrite -(dirent_same c c') //. by apply Hf.
  - apply scan_none. intros k' Hk'. rewrite -(dirent_same c c') //. by apply Hf.
Qed.

Lemma dir_scan_spec n ip i nd P : ∀ s k0,
  itab s !! ip = Some i → dir_ok (icache s) (entry i) nd → 0 ≤ k0 → nd - k0 ≤ Z.of_nat n →
  ∃ r c', dir_scan n ip (sizeof_DirEntry * k0) P s = Ret r (set_icache c' s) ∧ same sb_of (icache s) c' ∧
    scanned (icache s) (entry i) nd P k0 r.
Proof.
  assert (HD : sizeof_DirEntry = 16) by done.
  induction n as [|n IH]; intros s k0 Hi D Hk0 Hn; simpl.
  - erewrite bind_run; [|exact (iget_run _ _ _ Hi)]. rewrite (proj2 (Z.ltb_ge _ _)); [rewrite (do_size _ _ _ D); lia|].
    exists None, (icache s). split_and!; [by destruct s|apply same_refl, D|apply scan_none; lia].
  - erewrite bind_run; [|exact (iget_run _ _ _ Hi)]. rewrite (do_size _ _ _ D).
    destruct (Z.ltb_spec (sizeof_DirEntry * k0) (sizeof_DirEntry * nd)) as [Hlt|Hge]; last first.
    { exists None, (icache s). split_and!; [by destruct s|apply same_refl, D|apply scan_none; lia]. }
    destruct (read_dirent false s ip i nd k0 Hi D) as (c1 & R & S1); [lia|].
    erewrite bind_run; [|exact R]. cbv beta iota. fold (dirent_at (icache s) (entry i) k0).
    destruct (P (dirent_at (icache s) (entry i) k0)) eqn:Hp.
    { exists (Some (sizeof_DirEntry * k0, dirent_at (icache s) (entry i) k0)), c1. split_and!; [done|done|].
      apply scan_some; [lia|done|lia]. }
    replace (sizeof_DirEntry * k0 + sizeof_DirEntry) with (sizeof_DirEntry * (k0 + 1)) by lia.
    destruct (IH (set_icache c1 s) (k0 + 1)) as (r & c2 & R2 & S2 & Sc); [done|by apply (dir_ok_same (icache s))|lia|lia|].
    exists r, c2. split_and!; [done|by apply (same_trans _ _ c1)|]. apply scanned_step; [done|].
    by apply (scanned_same _ c1).
Qed.

Lemma dir_fuel_enough c e nd : dir_ok c e nd → nd - 0 ≤ Z.of_nat (dir_fuel e).
Proof. intros D. rewrite /dir_fuel (do_size _ _ _ D). pose proof (do_nd _ _ _ D). assert (sizeof_DirEntry = 16) by done. lia. Qed.

(** The result of a lookup: the first entry in use with the name. *)
Lemma lookup_spec s ip i nd name :
  itab s !! ip = Some i → dir_ok (icache s) (entry i) nd →
  ∃ r c', inode_lookup ip name s =
      Ret (match r with Some (k, de) => (de_inode_no de, Some k) | None => (0, None) end) (set_icache c' s) ∧
    same sb_of (icache s) c' ∧ scanned (icache s) (entry i) nd (name_matches name) 0 r.
Proof.
  intros Hi D. rewrite /inode_lookup. erewrite bind_run; [|exact (iget_run _ _ _ Hi)].
  rewrite (do_type _ _ _ D). erewrite bind_run; [|reflexivity].
  destruct (dir_scan_spec (dir_fuel (entry i)) ip i nd (name_matches name) s 0 Hi D) as (r & c' & R & Sm & Sc);
    [lia|by apply (dir_fuel_enough _ _ _ D)|].
  erewrite bind_run; [|exact R]. by exists r, c'.
Qed.

(** ** Insertion *)
Lemma decode_encode_dirent ino name :
  0 ≤ ino < 2 ^ 16 → decode_dirent (encode_dirent (mkDirEntry ino (padded 14 name))) = mkDirEntry ino (padded 14 name).
Proof.
  intros Hi. rewrite /decode_dirent /encode_dirent. cbn [de_inode_no de_name].
  rewrite take_app_length' ?length_le_bytes // drop_app_length' ?length_le_bytes //.
  rewrite le_val_bytes // take_ge ?length_padded //.
Qed.

Lemma encode_dirent_bytes ino name :
  bytes_ok name → length (encode_dirent (mkDirEntry ino (padded 14 name))) = 16%nat ∧
  bytes_ok (encode_dirent (mkDirEntry ino (padded 14 name))).
Proof.
  intros Hn. rewrite /encode_dirent. cbn [de_inode_no de_name]. split.
  - by rewrite length_app length_le_bytes length_padded.
  - apply Forall_app. split; [apply le_bytes_ok|]. rewrite /padded. apply Forall_app. split.
    + rewrite /strn. assert (Hn' : bytes_ok (take 14 name)) by by apply Forall_take. induction Hn' as [|x l Hx Hl IH]; simpl; [constructor|].
      case_decide; [constructor|by constructor].
    + apply Forall_replicate. rewrite /byte_ok. lia.
Qed.

(** The other entries of the directory stay, and entry [kk] is the new one. *)
Lemma dir_bytes_written c e nd c' e' kk l ino ib k :
  dir_ok c e nd → write_post sb_of c e (sizeof_DirEntry * kk) l ino ib c' e' → length l = 16%nat →
  0 ≤ kk → 0 ≤ k → sizeof_DirEntry * k + 16 ≤ ie_num_bytes e' →
  dir_bytes c' e' k = if decide (k = kk) then l else dir_bytes c e k.
Proof.
  intros D P Hl Hkk Hk Hsz. assert (HD : sizeof_DirEntry = 16) by done.
  assert (Hb : ∀ j, 0 ≤ j < 16 → file_byte (bc_content c') e' (sizeof_DirEntry * k + j) =
    if decide (k = kk) then l !! Z.to_nat j else file_byte (bc_content c) e (sizeof_DirEntry * k + j)).
  { intros j Hj. rewrite (wr_byte _ _ _ _ _ _ _ _ _ P); [lia|]. rewrite Hl. repeat case_decide; try lia; try done.
    subst. f_equal. lia. }
  rewrite /dir_bytes. case_decide as E.
  - apply list_eq_same_length with 16%nat; [done|by rewrite length_fmap length_seqZ|].
    intros j x y Hj Hx Hy. rewrite list_lookup_fmap in Hx. apply fmap_Some in Hx as (z & Hz & ->).
    apply lookup_seqZ in Hz as [-> ?]. rewrite Hb; [lia|]. rewrite Z.add_0_l Nat2Z.id Hy //.
  - apply list_fmap_ext. intros j x Hx. apply lookup_seqZ in Hx as [-> ?]. rewrite Hb //. lia.
Qed.

Lemma at_home_same c c' e f ino ib : same sb_of c c' → at_home sb_of c e f ino ib → at_home sb_of c' e f ino ib.
Proof.
  intros Sm (Hib & O & Hh & Hs & d & Hd & Hsl). pose proof Sm as ((W & C & HH) & SB & _).
  assert (A : agree sb_of c c') by (split_and!; [done|by left|by left]).
  split_and!; [done|by apply (agree_own sb_of A)|by rewrite HH| |exists d; by rewrite C].
  intros r Hr. rewrite (slot_ext c c') //. by apply Hs.
Qed.

Lemma nblocks_dirent k : 0 ≤ k → nblocks (sizeof_DirEntry * k) sizeof_DirEntry = 1.
Proof.
  intros Hk. assert (HD : sizeof_DirEntry = 16) by done. assert (HB : BLOCK_SIZE = 512) by done.
  rewrite /nblocks HD HB. change (0 <? 16) with true. cbv iota. dlia.
Qed.

(** Where [inode_insert] puts the entry: the first free one, or past the end. *)
Definition insert_at c e (nd kk : Z) : Prop :=
  0 ≤ kk ≤ nd ∧ (∀ k, 0 ≤ k < kk → de_inode_no (dirent_at c e k) ≠ 0) ∧
  (kk < nd → de_inode_no (dirent_at c e kk) = 0).

Lemma scanned_insert_at c e nd r :
  dir_ok c e nd → scanned c e nd (λ de, de_inode_no de =? 0) 0 r →
  ∃ kk, insert_at c e nd kk ∧
    match r with
    | Some (k, _) => k
    | None => sizeof_DirEntry * ((ie_num_bytes e + sizeof_DirEntry - 1) / sizeof_DirEntry)
    end = sizeof_DirEntry * kk.
Proof.
  intros D [k Hk Ht Hf|Hf].
  - exists k. split; [|done]. apply Z.eqb_eq in Ht. split_and!; [lia|lia| |done].
    intros k' Hk'. by apply Z.eqb_neq, Hf.
  - exists nd. pose proof (do_nd _ _ _ D). split.
    + split_and!; [lia|lia| |lia]. intros k' Hk'. by apply Z.eqb_neq, Hf.
    + f_equal. rewrite (do_size _ _ _ D). assert (sizeof_DirEntry = 16) as -> by done. dlia.
Qed.

Definition named c e (nd : Z) (name : list Z) : Prop :=
  ∃ k, 0 ≤ k < nd ∧ name_matches name (dirent_at c e k) = true.

Lemma insert_spec ctx s ip i nd name ino ib :
  itab s !! ip = Some i → i_valid i = true → 0 ≤ inode_no i → dir_ok (icache s) (entry i) nd →
  sizeof_DirEntry * (nd + 1) ≤ INODE_MAX_BYTES → 0 < ino < 2 ^ 16 → bytes_ok name →
  ib = to_block_no (sb_of (icache s)) (inode_no i) → at_home sb_of (icache s) (entry i) (entry i) (inode_no i) ib →
  bc_room ctx (5 + 2 * Z.of_nat (need (entry i))) (icache s) → frees sb_of (icache s) (1 + need (entry i)) →
  ¬ named (icache s) (entry i) nd name →
  ∃ kk c' e', insert_at (icache s) (entry i) nd kk ∧
    inode_insert sb_of ctx ip name ino s = Ret (sizeof_DirEntry * kk) (map_state s ip i c' e') ∧
    dir_ok c' e' (Z.max nd (kk + 1)) ∧
    dirent_at c' e' kk = mkDirEntry ino (padded 14 name) ∧
    ∀ k, 0 ≤ k < nd → k ≠ kk → dirent_at c' e' k = dirent_at (icache s) (entry i) k.
Proof.
  intros Hi Hv Hn0 D Hmax Hino Hname Hib Hhome Hroom Hfr Habs.
  assert (HD : sizeof_DirEntry = 16) by done.
  destruct (lookup_spec s ip i nd name Hi D) as (r & c1 & R1 & S1 & Sc1).
  assert (r = None) as ->.
  { destruct Sc1 as [k Hk Ht _|]; [|done]. exfalso. apply Habs. by exists k. }
  destruct (dir_scan_spec (dir_fuel (entry i)) ip i nd (λ de, de_inode_no de =? 0) (set_icache c1 s) 0 Hi) as
    (r2 & c2 & R2 & S2 & Sc2); [exact (dir_ok_same _ _ _ _ S1 D)|lia|exact (dir_fuel_enough _ _ _ D)|].
  pose proof (same_trans sb_of _ _ _ S1 S2) as S12.
  apply (scanned_same _ _ _ _ _ _ _ S1) in Sc2.
  destruct (scanned_insert_at _ _ _ _ D Sc2) as (kk & Hat & Hoff). pose proof Hat as (Hkk & _ & _).
  set (de := mkDirEntry ino (padded 14 name)). destruct (encode_dirent_bytes ino name Hname) as [Hel Heb].
  pose proof (do_size _ _ _ D) as Hsz. pose proof (dir_ok_same _ _ _ _ S12 D) as D2.
  assert (A : agree sb_of (icache s) c2).
  { pose proof S12 as ((W & C & HH) & SB & _). split_and!; [done|by left|by left]. }
  destruct (inode_write_spec sb_of ctx (set_icache c2 s) ip i (encode_dirent de) (sizeof_DirEntry * kk) sizeof_DirEntry ib)
    as (c' & e' & R3 & P).
  - done.
  - done.
  - apply dir_not_device, D.
  - done.
  - apply D2.
  - apply D2.
  - done.
  - lia.
  - rewrite Hel. lia.
  - lia.
  - apply D.
  - rewrite Hib. f_equal. symmetry. apply A.
  - exact (at_home_same _ _ _ _ _ _ S12 Hhome).
  - rewrite nblocks_dirent; [lia|]. apply S12. eapply room_law; [|exact Hroom]. lia.
  - rewrite nblocks_dirent; [lia|]. by apply (agree_frees sb_of A).
  - change (icache (set_icache c2 s)) with c2 in P.
    rewrite take_ge in P; [rewrite Hel; lia|].
    assert (Hsz' : ie_num_bytes e' = sizeof_DirEntry * Z.max nd (kk + 1)) by (rewrite (wr_size _ _ _ _ _ _ _ _ _ P) Hel; lia).
    exists kk, c', e'. split_and!; [done| | | |].
    + rewrite /inode_insert. erewrite bind_run; [|exact (iget_run _ _ _ Hi)].
      rewrite (do_type _ _ _ D). erewrite bind_run; [|reflexivity].
      erewrite bind_run; [|exact R1]. cbv beta iota. change (negb (0 =? 0)) with false. cbv iota.
      erewrite bind_run; [|exact R2]. erewrite bind_run; [|exact (iget_run ip (set_icache c2 s) i Hi)].
      rewrite Hoff. rewrite /u16 wrap_small; [lia|]. erewrite bind_run; [|exact R3]. done.
    + pose proof (wr_meta _ _ _ _ _ _ _ _ _ P) as Hmeta. injection Hmeta as Hty _ _ _.
      split; [by rewrite Hty; apply D|apply P|apply P|done|lia|lia].
    + rewrite /dirent_at (dir_bytes_written c2 (entry i) nd c' e' kk _ _ _ kk D2 P Hel); [lia..|].
      rewrite decide_True //. apply decode_encode_dirent. lia.
    + intros k Hk Hne. rewrite -(dirent_same (icache s) c2) //.
      rewrite /dirent_at (dir_bytes_written c2 (entry i) nd c' e' kk _ _ _ k D2 P Hel); [lia..|].
      by rewrite decide_False.
Qed.

(** Two directories with the same entries that match give the same first match. *)
Lemma scanned_agree c e nd c' e' nd' P r r' :
  nd ≤ nd' →
  (∀ k, 0 ≤ k < nd' → P (dirent_at c' e' k) = true → k < nd ∧ dirent_at c' e' k = dirent_at c e k) →
  (∀ k, 0 ≤ k < nd → P (dirent_at c e k) = true → dirent_at c' e' k = dirent_at c e k) →
  scanned c e nd P 0 r → scanned c' e' nd' P 0 r' → r' = r.
Proof.
  intros Hle Hback Hfw [k Hk Ht Hf|Hf] [k' Hk' Ht' Hf'|Hf'].
  - destruct (Hback k' Hk' Ht') as [Hlt Heq]. assert (k' = k) as ->; [|by rewrite Heq].
    destruct (Z.lt_trichotomy k' k) as [Hc|[->|Hc]]; [|done|].
    + specialize (Hf k'). rewrite -Heq Ht' in Hf. discriminate Hf; lia.
    + specialize (Hf' k). rewrite (Hfw k) // Ht in Hf'. discriminate Hf'; lia.
  - specialize (Hf' k). rewrite (Hfw k) // Ht in Hf'. discriminate Hf'; lia.
  - destruct (Hback k' Hk' Ht') as [Hlt Heq]. specialize (Hf k'). rewrite -Heq Ht' in Hf. discriminate Hf; lia.
  - done.
Qed.

(** [inode_lookup] of the name returns the same in both states, and changes nothing but
    what the block cache holds in memory. *)
Definition same_answer (ip : Z) (name : list Z) (s s' : istate) : Prop :=
  ∃ r c1 c2, inode_lookup ip name s = Ret r (set_icache c1 s) ∧ same sb_of (icache s) c1 ∧
             inode_lookup ip name s' = Ret r (set_icache c2 s') ∧ same sb_of (icache s') c2.

Lemma other_name_kept s ip i nd s' e' kk nm name ino :
  itab s !! ip = Some i → dir_ok (icache s) (entry i) nd →
  itab s' !! ip = Some (set_entry e' i) → dir_ok (icache s') e' (Z.max nd (kk + 1)) →
  insert_at (icache s) (entry i) nd kk → dirent_at (icache s') e' kk = mkDirEntry ino (padded 14 name) →
  (∀ k, 0 ≤ k < nd → k ≠ kk → dirent_at (icache s') e' k = dirent_at (icache s) (entry i) k) →
  strn 14 nm ≠ strn 14 name → same_answer ip nm s s'.
Proof.
  intros Hi D Hi' D' (Hkk & _ & Hfree) Hnew Hold Hne.
  destruct (lookup_spec s ip i nd nm Hi D) as (r & c1 & R1 & S1 & Sc1).
  destruct (lookup_spec s' ip (set_entry e' i) _ nm Hi' D') as (r' & c2 & R2 & S2 & Sc2).
  assert (r' = r) as ->; [|eexists _, c1, c2; split_and!; [exact R1|exact S1|exact R2|exact S2]].
  refine (scanned_agree _ _ _ _ _ _ (name_matches nm) _ _ _ _ _ Sc1 Sc2); [lia| |].
  - intros k Hk Hm. destruct (decide (k = kk)) as [->|Hk'].
    + exfalso. change (entry (set_entry e' i)) with e' in Hm. rewrite Hnew in Hm.
      apply andb_true_iff in Hm as [_ Hm%bool_decide_eq_true]. simpl in Hm. rewrite strn_padded in Hm. by apply Hne.
    + split; [lia|]. apply Hold; [lia|done].
  - intros k Hk Hm. apply Hold; [done|]. intros ->. apply andb_true_iff in Hm as [Hm _].
    rewrite Hfree // in Hm. lia.
Qed.

(** C29: Directory entries.  On a well-formed directory, inode_insert of a name that
    is in use returns -1 and changes nothing.  Otherwise it puts the entry in the
    first free place or at the end, keeps the directory well formed and every other
    entry as it was; from then on inode_lookup of the name returns the inode number
    and the place of the entry, and inode_lookup of every name that differs from it
    within 14 bytes returns what it returned before.  Names are compared, here
    as in the code, up to their first 14 bytes. *)
Theorem inode_insert_then_lookup ctx s ip i nd name ino ib :
  itab s !! ip = Some i → i_valid i = true → 0 ≤ inode_no i → dir_ok (icache s) (entry i) nd →
  sizeof_DirEntry * (nd + 1) ≤ INODE_MAX_BYTES → 0 < ino < 2 ^ 16 → bytes_ok name →
  ib = to_block_no (sb_of (icache s)) (inode_no i) → at_home sb_of (icache s) (entry i) (entry i) (inode_no i) ib →
  bc_room ctx (5 + 2 * Z.of_nat (need (entry i))) (icache s) → frees sb_of (icache s) (1 + need (entry i)) →
  (named (icache s) (entry i) nd name →
   ∃ c', inode_insert sb_of ctx ip name ino s = Ret (u64 (-1)) (set_icache c' s) ∧ same sb_of (icache s) c') ∧
  (¬ named (icache s) (entry i) nd name →
   ∃ kk c' e' c'', insert_at (icache s) (entry i) nd kk ∧
     inode_insert sb_of ctx ip name ino s = Ret (sizeof_DirEntry * kk) (map_state s ip i c' e') ∧
     dir_ok c' e' (Z.max nd (kk + 1)) ∧
     (∀ k, 0 ≤ k < nd → k ≠ kk → dirent_at c' e' k = dirent_at (icache s) (entry i) k) ∧
     (inode_lookup ip name (map_state s ip i c' e') =
       Ret (ino, Some (sizeof_DirEntry * kk)) (set_icache c'' (map_state s ip i c' e')) ∧ same sb_of c' c'') ∧
     (∀ nm, strn 14 nm ≠ strn 14 name → same_answer ip nm s (map_state s ip i c' e'))).
Proof.
  intros Hi Hv Hn0 D Hmax Hino Hname Hib Hhome Hroom Hfr. split.
  - intros (k0 & Hk0 & Hm0). destruct (lookup_spec s ip i nd name Hi D) as (r & c1 & R1 & S1 & Sc1).
    exists c1. split; [|done]. rewrite /inode_insert. erewrite bind_run; [|exact (iget_run _ _ _ Hi)].
    rewrite (do_type _ _ _ D). erewrite bind_run; [|reflexivity]. erewrite bind_run; [|exact R1]. cbv beta iota.
    destruct Sc1 as [k Hk Ht _|Hf]; [|by rewrite Hf in Hm0].
    cbv beta iota. apply andb_true_iff in Ht as [Ht _]. by rewrite Ht.
  - intros Habs. destruct (insert_spec ctx s ip i nd name ino ib) as (kk & c' & e' & Hat & R & D' & Hnew & Hold); try done.
    set (s' := map_state s ip i c' e') in *.
    assert (Hi' : itab s' !! ip = Some (set_entry e' i)) by apply lookup_insert_eq.
    destruct (lookup_spec s' ip (set_entry e' i) (Z.max nd (kk + 1)) name Hi' D') as (r & c'' & R' & S' & Sc).
    exists kk, c', e', c''. split_and!; try done;
      [|intros nm Hne; by apply (other_name_kept s ip i nd s' e' kk nm name ino)].
    rewrite R'. f_equal.
    change (icache s') with c' in Sc. change (entry (set_entry e' i)) with e' in Sc.
    assert (Hnm : name_matches name (dirent_at c' e' kk) = true).
    { rewrite Hnew /name_matches /= strn_padded bool_decide_eq_true_2 // (proj2 (Z.eqb_neq _ _)) //. lia. }
    assert (Huniq : ∀ k, 0 ≤ k < Z.max nd (kk + 1) → name_matches name (dirent_at c' e' k) = true → k = kk).
    { intros k Hk Hm. destruct (decide (k = kk)) as [|Hne]; [done|]. destruct Hat as (? & _ & _).
      rewrite Hold in Hm; [lia|done|]. exfalso. apply Habs. exists k. split; [lia|done]. }
    destruct Hat as (Hkk & _ & _). destruct Sc as [k Hk Ht _|Hf].
    + rewrite (Huniq k Hk Ht) Hnew //.
    + rewrite Hf in Hnm; [lia|]. done.
Qed.
End dir.

(** The zeroed block of inode 1 is a directory of 32 free entries. *)
Lemma demo3_dir : dir_ok sblock (demo3 1) (demo3_entry 1) 32.
Proof.
  split.
  - reflexivity.
  - exact (demo3_file 1).
  - intros k H0 Hk. change (k * 512 < 512) in Hk. assert (k = 0) as -> by lia. discriminate.
  - reflexivity.
  - lia.
  - change INODE_MAX_BYTES with 71680. simpl. lia.
Qed.

Lemma demo3_no_names name : ¬ named (demo3 1) (demo3_entry 1) 32 name.
Proof.
  intros (k & Hk & Hm). apply andb_true_iff in Hm as [Hm _].
  assert (Hz : de_inode_no (dirent_at (demo3 1) (demo3_entry 1) k) = 0); [|by rewrite Hz in Hm].
  rewrite /dirent_at /dir_bytes /decode_dirent. cbn [de_inode_no].
  assert (Hb : ∀ n, 0 ≤ n < 512 → file_byte (content (demo3 1)) (demo3_entry 1) n = Some 0).
  { intros n Hn. rewrite /file_byte. assert (n / BLOCK_SIZE = 0) as -> by (apply Z.div_small; exact Hn).
    change (replicate 512 0 !! Z.to_nat (n mod 512) = Some 0). apply lookup_replicate. split; [done|].
    rewrite Z.mod_small; lia. }
  change (@bc_content cstate cache_ops) with content. change sizeof_DirEntry with 16.
  change (seqZ 0 16) with (0 :: 1 :: seqZ 2 14). cbn [fmap list_fmap take].
  rewrite !Hb; [lia|lia|]. reflexivity.
Qed.

Lemma inode_insert_then_lookup_witness :
  ∃ kk c' e' c'',
    inode_insert sblock (Some 1) 5 [104; 105] 7 (demo3_inodes 1) =
      Ret (sizeof_DirEntry * kk) (map_state (demo3_inodes 1) 5 (mkInode 0 (mkRC 1) 1 true (demo3_entry 1)) c' e') ∧
    inode_lookup 5 [104; 105] (map_state (demo3_inodes 1) 5 (mkInode 0 (mkRC 1) 1 true (demo3_entry 1)) c' e') =
      Ret (7, Some (sizeof_DirEntry * kk))
        (set_icache c'' (map_state (demo3_inodes 1) 5 (mkInode 0 (mkRC 1) 1 true (demo3_entry 1)) c' e')) ∧
    same_answer sblock 5 [104] (demo3_inodes 1)
      (map_state (demo3_inodes 1) 5 (mkInode 0 (mkRC 1) 1 true (demo3_entry 1)) c' e').
Proof.
  destruct (inode_insert_then_lookup sblock (laws := cache_laws) (Some 1) (demo3_inodes 1) 5
    (mkInode 0 (mkRC 1) 1 true (demo3_entry 1)) 32 [104; 105] 7 5) as [_ H].
  - reflexivity.
  - reflexivity.
  - simpl. lia.
  - exact demo3_dir.
  - change INODE_MAX_BYTES with 71680. change sizeof_DirEntry with 16. lia.
  - lia.
  - repeat constructor; rewrite /byte_ok; lia.
  - reflexivity.
  - exact (demo3_at_home 1).
  - exists 10. split_and!; [reflexivity|discriminate|discriminate].
  - exact (demo3_frees 1).
  - destruct (H (demo3_no_names _)) as (kk & c' & e' & c'' & _ & H1 & _ & _ & [H2 _] & H3).
    exists kk, c', e', c''. split; [exact H1|split; [exact H2|]]. by apply H3.
Defined.
