(* ===== verification/InodePath.v ===== *)
(** * InodePath: path names

    The components of a path, and [skipelem] as the function that takes them off
    one at a time; what the walk does with a path that has none. *)

From stdpp Require Import base numbers list gmap.
From S2P Require Import Prelude Bitmap Spinlock Bytes Str FsDefs BlockCache Cache CacheList CacheOps CacheAlloc Console Inode InodeRead InodeMap InodeWrite InodeDir.

(** The components of a path: its maximal runs of bytes other than a slash. *)
Fixpoint components_from (cur : list Z) (p : list Z) : list (list Z) :=
  match p with
  | [] => match cur with [] => [] | _ => [cur] end
  | c :: p =>
      if c =? slash then match cur with [] => components_from [] p | _ => cur :: components_from [] p end
      else components_from (cur ++ [c]) p
  end.
Definition components : list Z → list (list Z) := components_from [].

Lemma components_skip p : components (skip_slashes p) = components p.
Proof.
  induction p as [|c p IH]; [done|]. simpl. destruct (c =? slash) eqn:E; [|done].
  rewrite IH /components /= E //.
Qed.

Lemma skip_slashes_head p : ∀ q, skip_slashes p ≠ slash :: q.
Proof.
  induction p as [|c p IH]; [done|]. intros q. simpl. destruct (Z.eqb_spec c slash); [apply IH|congruence].
Qed.

Lemma element_app p a r : element p = (a, r) → p = a ++ r.
Proof.
  revert a r. induction p as [|c p IH]; intros a r; simpl; [by intros [= <- <-]|].
  destruct (c =? slash); [by intros [= <- <-]|].
  destruct (element p) as [a' r'] eqn:E. intros [= <- <-]. simpl. f_equal. by apply IH.
Qed.

Lemma components_element p : ∀ cur a r,
  element p = (a, r) → cur ++ a ≠ [] → components_from cur p = (cur ++ a) :: components r.
Proof.
  induction p as [|c p IH]; intros cur a r; simpl.
  { intros [= <- <-]. rewrite app_nil_r. by destruct cur. }
  destruct (c =? slash) eqn:Ec.
  { intros [= <- <-]. rewrite app_nil_r => Hne. rewrite /components /= Ec. by destruct cur. }
  destruct (element p) as [a' r'] eqn:E. intros [= <- <-] _.
  rewrite (IH (cur ++ [c]) a' r') //; [by destruct cur|]. rewrite -app_assoc //.
Qed.

Lemma element_nonempty c p a r : c ≠ slash → element (c :: p) = (a, r) → a ≠ [].
Proof.
  intros Hc. simpl. rewrite (proj2 (Z.eqb_neq _ _) Hc). by destruct (element p) as [??] => -[= <- _].
Qed.

Lemma until0_nz l : (∀ x, x ∈ l → x ≠ 0) → until0 l = l.
Proof.
  induction l as [|x l IH]; intros H; simpl; [done|]. rewrite decide_False; [apply H; by left|].
  f_equal. apply IH. intros y Hy. apply H. by right.
Qed.

Lemma until0_app l l' : (∀ x, x ∈ l → x ≠ 0) → until0 (l ++ 0 :: l') = l.
Proof.
  induction l as [|x l IH]; intros H; simpl; [done|]. rewrite decide_False; [apply H; by left|].
  f_equal. apply IH. intros y Hy. apply H. by right.
Qed.

(** Taking a path apart.  For a path (a C string, so without zero bytes) and a
    name array of 14 bytes, skipelem returns the null pointer exactly when the path
    has no component; otherwise it returns a rest that does not begin with a slash
    and has the remaining components, and the array holds the first component, cut
    at 14 bytes. *)
Theorem skipelem_takes_component path name :
  (∀ x, x ∈ path → x ≠ 0) → length name = 14%nat →
  match components path with
  | [] => skipelem path name = None
  | x :: xs => ∃ rest name', skipelem path name = Some (rest, name') ∧ components rest = xs ∧
      (∀ q, rest ≠ slash :: q) ∧ length name' = 14%nat ∧ strn 14 name' = take 14 x
  end.
Proof.
  intros Hz Hlen. rewrite -(components_skip path) /skipelem.
  assert (Hz' : ∀ x, x ∈ skip_slashes path → x ≠ 0).
  { clear Hlen. induction path as [|c p IH]; simpl; [done|]. destruct (c =? slash); [|done].
    apply IH. intros x Hx. apply Hz. by right. }
  destruct (skip_slashes path) as [|c p] eqn:Ep; [done|].
  destruct (element (c :: p)) as [a r] eqn:Ee.
  assert (Hc : c ≠ slash) by (intros ->; by apply (skip_slashes_head path p)).
  pose proof (element_nonempty c p a r Hc Ee) as Ha. pose proof (element_app _ _ _ Ee) as Happ.
  rewrite {1}/components (components_element (c :: p) [] a r Ee Ha) /=.
  assert (Haz : ∀ x, x ∈ a → x ≠ 0) by (intros x Hx; apply Hz'; rewrite Happ; apply elem_of_app; by left).
  eexists _, _. split; [done|]. split; [apply components_skip|]. split; [apply skip_slashes_head|].
  rewrite /FILE_NAME_MAX_LENGTH. destruct (Z.leb_spec 14 (Z.of_nat (length a))) as [Hl|Hl].
  - assert (Hta : length (take 14 a) = 14%nat) by (rewrite length_take; lia).
    rewrite length_splice; [lia|]. split; [done|].
    rewrite /splice /= Hta drop_ge; [lia|]. rewrite app_nil_r /strn take_ge; [lia|].
    apply until0_nz. intros x Hx. apply Haz. apply elem_of_take in Hx as (j & Hj & _). exact (list_elem_of_lookup_2 _ _ _ Hj).
  - rewrite length_splice; [rewrite length_app /=; lia|]. split; [done|].
    rewrite /splice /= /strn take_ge.
    { rewrite !length_app length_drop /=. lia. }
    rewrite -app_assoc /= until0_app // take_ge //. lia.
Qed.

Lemma skipelem_takes_component_witness :
  ∃ rest name', skipelem [47; 47; 97; 98; 47; 99] (replicate 14 0) = Some (rest, name') ∧
    components rest = [[99]] ∧ strn 14 name' = [97; 98].
Proof.
  destruct (skipelem_takes_component [47; 47; 97; 98; 47; 99] (replicate 14 0)) as (rest & name' & H1 & H2 & _ & _ & H3).
  - intros x Hx. repeat (apply elem_of_cons in Hx as [-> | Hx]; [discriminate|]). by apply elem_of_nil in Hx.
  - reflexivity.
  - exists rest, name'. split; [exact H1|]. split; [exact H2|exact H3].
Defined.

(** The root directory is inode 1, an empty directory; nobody holds its lock. *)
Definition demo_root : istate (S := cstate) :=
  mkI (demo3 1) false [5] {[ 5 := mkInode 1 (mkRC 1) 1 true (demo3_entry 1) ]} 6 (Some 5) 5 Con.console_init.

(** The root cannot be named.  A path of slashes has no component: skipelem
    returns the null pointer, and namex, which only looks at that when it resolves
    a parent, goes on to look up whatever its uninitialised name array holds.  On a
    root directory without such an entry, namei of "/" returns the null pointer
    instead of the root. *)
Theorem namei_root_null :
  (∃ s', namei sblock (replicate 14 0) [slash] (Some 1) demo_root = Ret None s') ∧
  (∃ s', namei sblock (120 :: replicate 13 0) [slash] (Some 1) demo_root = Ret None s') ∧
  ∃ s', namei sblock (replicate 14 0) [] (Some 1) demo_root = Ret (Some 5) s'.
Proof. split_and!; eexists; vm_compute; reflexivity. Qed.
