(* ===== verification/Pipe.v ===== *)
(** * Pipe: pipes, [fs/pipe.c]

    A pipe is a ring of 512 bytes between two 32-bit counters.  A call that has
    to wait stops at the call to [sched] inside [_wait_sem]: [Asleep i k] says
    that it was at byte [i] with [k] bytes transferred; [pipeWrite_wake] and
    [pipeRead_wake] are what happens when the thread runs again.  The user buffer
    is a list of bytes; an access past it is a fault. *)

From stdpp Require Import base numbers list gmap.
From S2P Require Import Prelude Spinlock Bytes Sem.

Definition PIPESIZE : Z := 512.

Record Pipe := mkPipe {
  p_lock : SpinLock;
  wlock : Semaphore;
  rlock : Semaphore;
  p_data : list Z;
  nread : Z;
  nwrite : Z;
  readopen : Z;
  writeopen : Z }.

Definition set_wlock v (p : Pipe) := mkPipe (p_lock p) v (rlock p) (p_data p) (nread p) (nwrite p) (readopen p) (writeopen p).
Definition set_rlock v (p : Pipe) := mkPipe (p_lock p) (wlock p) v (p_data p) (nread p) (nwrite p) (readopen p) (writeopen p).
Definition set_p_data v (p : Pipe) := mkPipe (p_lock p) (wlock p) (rlock p) v (nread p) (nwrite p) (readopen p) (writeopen p).
Definition set_nread v (p : Pipe) := mkPipe (p_lock p) (wlock p) (rlock p) (p_data p) v (nwrite p) (readopen p) (writeopen p).
Definition set_nwrite v (p : Pipe) := mkPipe (p_lock p) (wlock p) (rlock p) (p_data p) (nread p) v (readopen p) (writeopen p).
Definition set_readopen v (p : Pipe) := mkPipe (p_lock p) (wlock p) (rlock p) (p_data p) (nread p) (nwrite p) v (writeopen p).
Definition set_writeopen v (p : Pipe) := mkPipe (p_lock p) (wlock p) (rlock p) (p_data p) (nread p) (nwrite p) (readopen p) v.
Definition pipe_lock : Lens Pipe SpinLock :=
  mkLens p_lock (λ l p, mkPipe l (wlock p) (rlock p) (p_data p) (nread p) (nwrite p) (readopen p) (writeopen p)).

(** A semaphore operation on one of the two semaphores. *)
Definition on_sem {A} (get : Pipe → Semaphore) (set : Semaphore → Pipe → Pipe) (m : M Semaphore A) : M Pipe A := λ p,
  match m (get p) with
  | Ret a v => Ret a (set v p)
  | Panic => Panic | Fault => Fault | Hang => Hang | Fuel => Fuel
  end.
Definition on_wlock {A} : M Semaphore A → M Pipe A := on_sem wlock set_wlock.
Definition on_rlock {A} : M Semaphore A → M Pipe A := on_sem rlock set_rlock.

(** A fresh pipe, as [pipeAlloc] leaves it. *)
Definition new_pipe : Pipe := mkPipe init_spinlock (init_sem 0) (init_sem 0) (replicate 512 0) 0 0 1 1.

(** Whether the pipe is freed; it is then freed with its lock held. *)
Definition pipeClose (writable : Z) : M Pipe bool :=
  _acquire_spinlock pipe_lock;;
  (if writable =? 1 then modify (set_writeopen 0) else modify (set_readopen 0));;
  p ← get;
  if (writeopen p =? 0) && (readopen p =? 0) then mret true
  else release_spinlock pipe_lock;; mret false.

Inductive stop (A : Type) := Done (a : A) | Asleep (i : Z) (a : A).
Arguments Done {A}. Arguments Asleep {A}.

(** The end of [pipeWrite], after the loop. *)
Definition pipeWrite_end (nw : Z) : M Pipe (stop Z) :=
  release_spinlock pipe_lock;;
  _ ← on_rlock post_all_sem;
  mret (Done nw).

(** The loop from byte [i] on; [w] and [pid] are the wait record and the process
    of a wait. *)
Fixpoint pipeWrite_loop (fuel : nat) (w pid : nat) (src : list Z) (n i nw : Z) : M Pipe (stop Z) :=
  if i <? n then
    match fuel with
    | O => nofuel
    | S fuel =>
        p ← get;
        if 0 <? u32 (PIPESIZE - u32 (nwrite p - nread p)) then
          c ← of_opt (src !! Z.to_nat i);
          modify (set_p_data (<[Z.to_nat (nwrite p mod PIPESIZE) := c]> (p_data p)));;
          modify (set_nwrite (u32 (nwrite p + 1)));;
          pipeWrite_loop fuel w pid src n (i + 1) (nw + 1)
        else if readopen p =? 1 then
          on_wlock _lock_sem;;
          release_spinlock pipe_lock;;
          _ ← on_rlock post_all_sem;
          got ← on_wlock (wait_sem_before w pid);
          if got : bool then
            _acquire_spinlock pipe_lock;;
            pipeWrite_loop fuel w pid src n (i + 1) nw
          else mret (Asleep i nw)
        else pipeWrite_end nw
    end
  else pipeWrite_end nw.

Definition pipeWrite (w pid : nat) (src : list Z) (n : Z) : M Pipe (stop Z) :=
  _acquire_spinlock pipe_lock;;
  pipeWrite_loop (Z.to_nat n) w pid src n 0 0.

(** [pipeWrite] when its thread runs again after sleeping at byte [i]. *)
Definition pipeWrite_wake (w w' pid : nat) (src : list Z) (n i nw : Z) : M Pipe (stop Z) :=
  ok ← on_wlock (wait_sem_after w);
  if ok : bool then
    _acquire_spinlock pipe_lock;;
    pipeWrite_loop (Z.to_nat n) w' pid src n (i + 1) nw
  else pipeWrite_end nw.

Definition pipeRead_end (dst : list Z) (nr : Z) : M Pipe (stop (list Z * Z)) :=
  release_spinlock pipe_lock;;
  _ ← on_wlock post_all_sem;
  mret (Done (dst, nr)).

Fixpoint pipeRead_loop (fuel : nat) (w pid : nat) (dst : list Z) (n i nr : Z) : M Pipe (stop (list Z * Z)) :=
  if i <? n then
    match fuel with
    | O => nofuel
    | S fuel =>
        p ← get;
        if 0 <? u32 (nwrite p - nread p) then
          c ← of_opt (p_data p !! Z.to_nat (nread p mod PIPESIZE));
          _ ← of_opt (dst !! Z.to_nat i);
          modify (set_nread (u32 (nread p + 1)));;
          pipeRead_loop fuel w pid (<[Z.to_nat i := c]> dst) n (i + 1) (nr + 1)
        else if writeopen p =? 1 then
          on_rlock _lock_sem;;
          release_spinlock pipe_lock;;
          _ ← on_wlock post_all_sem;
          got ← on_rlock (wait_sem_before w pid);
          if got : bool then
            _acquire_spinlock pipe_lock;;
            pipeRead_loop fuel w pid dst n (i + 1) nr
          else mret (Asleep i (dst, nr))
        else pipeRead_end dst nr
    end
  else pipeRead_end dst nr.

Definition pipeRead (w pid : nat) (dst : list Z) (n : Z) : M Pipe (stop (list Z * Z)) :=
  _acquire_spinlock pipe_lock;;
  pipeRead_loop (Z.to_nat n) w pid dst n 0 0.

Definition pipeRead_wake (w w' pid : nat) (dst : list Z) (n i nr : Z) : M Pipe (stop (list Z * Z)) :=
  ok ← on_rlock (wait_sem_after w);
  if ok : bool then
    _acquire_spinlock pipe_lock;;
    pipeRead_loop (Z.to_nat n) w' pid dst n (i + 1) nr
  else pipeRead_end dst nr.

(** ** The byte stream *)
Definition avail (p : Pipe) : Z := u32 (nwrite p - nread p).

(** The bytes written and not yet read, oldest first. *)
Definition stream (p : Pipe) : list Z :=
  (λ j, default 0 (p_data p !! Z.to_nat ((nread p + j) mod PIPESIZE))) <$> seqZ 0 (avail p).

Definition sem_idle (s : Semaphore) : Prop := sem_wf s ∧ sem_lock s = false ∧ val s ≤ 0.

Record pipe_ok (p : Pipe) : Prop := {
  po_data : length (p_data p) = 512%nat;
  po_read : 0 ≤ nread p < 2 ^ 32;
  po_write : 0 ≤ nwrite p < 2 ^ 32;
  po_avail : avail p ≤ PIPESIZE;
  po_w : sem_idle (wlock p);
  po_r : sem_idle (rlock p) }.

Lemma avail_range p : 0 ≤ avail p < 2 ^ 32.
Proof. by apply wrap_range. Qed.

(** One byte in: the counters may wrap. *)
Definition put1 (c : Z) (p : Pipe) : Pipe :=
  set_nwrite (u32 (nwrite p + 1)) (set_p_data (<[Z.to_nat (nwrite p mod PIPESIZE) := c]> (p_data p)) p).
Definition take1 (p : Pipe) : Pipe := set_nread (u32 (nread p + 1)) p.

Lemma avail_put p c : avail p < PIPESIZE → avail (put1 c p) = avail p + 1.
Proof. rewrite /avail /put1 /u32 /wrap /PIPESIZE /=. dlia. Qed.
Lemma avail_take p : 0 < avail p → avail (take1 p) = avail p - 1.
Proof. rewrite /avail /take1 /u32 /wrap /=. dlia. Qed.

Lemma write_pos p : (nread p + avail p) mod PIPESIZE = nwrite p mod PIPESIZE.
Proof. rewrite /avail /u32 /wrap /PIPESIZE. dlia. Qed.

Lemma put1_ok p c : pipe_ok p → avail p < PIPESIZE → pipe_ok (put1 c p).
Proof.
  intros [] Ha. split; try done.
  - by rewrite /= length_insert.
  - by apply wrap_range.
  - rewrite avail_put //. lia.
Qed.
Lemma take1_ok p : pipe_ok p → 0 < avail p → pipe_ok (take1 p).
Proof. intros [] Ha. split; try done; [by apply wrap_range|]. rewrite avail_take //. lia. Qed.

Lemma length_stream p : length (stream p) = Z.to_nat (avail p).
Proof. by rewrite /stream length_fmap length_seqZ. Qed.

Lemma stream_put p c : pipe_ok p → avail p < PIPESIZE → stream (put1 c p) = stream p ++ [c].
Proof.
  intros P Ha. pose proof (avail_range p) as Hr. pose proof (Z.mod_pos_bound (nwrite p) PIPESIZE ltac:(done)) as Hw.
  rewrite /stream avail_put //. rewrite seqZ_app; [lia|lia|].
  rewrite (seqZ_cons (0 + avail p) 1); [lia|]. rewrite (seqZ_nil _ (Z.pred 1)); [lia|]. rewrite fmap_app /= Z.add_0_l.
  f_equal.
  - apply list_fmap_ext. intros k j Hj. apply lookup_seqZ in Hj as [-> Hk].
    rewrite list_lookup_insert_ne //. intros E.
    pose proof (write_pos p) as Hp. rewrite /PIPESIZE in E Hp Hw Ha. 
    assert (E' : nwrite p mod 512 = (nread p + (0 + Z.of_nat k)) mod 512).
    { apply Z2Nat.inj in E; [done|lia|]. apply Z.mod_pos_bound. lia. }
    clear E. dlia.
  - rewrite write_pos list_lookup_insert_eq //. rewrite (po_data _ P). rewrite /PIPESIZE in Hw |- *. lia.
Qed.

Lemma stream_take p : pipe_ok p → 0 < avail p →
  ∃ c, p_data p !! Z.to_nat (nread p mod PIPESIZE) = Some c ∧ stream p = c :: stream (take1 p).
Proof.
  intros P Ha. pose proof (Z.mod_pos_bound (nread p) PIPESIZE ltac:(done)) as Hw.
  destruct (list_lookup_Z_Some (p_data p) (nread p mod PIPESIZE)) as [c Hc].
  { rewrite (po_data _ P). rewrite /PIPESIZE in Hw |- *. lia. }
  exists c. split; [done|]. rewrite {1}/stream. rewrite (seqZ_cons 0); [lia|]. rewrite fmap_cons Z.add_0_r Hc /=. f_equal.
  rewrite /stream avail_take //. replace (avail p - 1) with (Z.pred (avail p)) by lia.
  rewrite -(fmap_add_seqZ 1 0) -list_fmap_compose. apply list_fmap_ext. intros k j _. simpl.
  do 3 f_equal. rewrite /u32 /wrap /PIPESIZE. clear. dlia.
Qed.

(** Everybody who slept on [s] is up. *)
Definition woken (s s' : Semaphore) : Prop :=
  sleeplist s' = [] ∧ ∀ w d, waits s !! w = Some d → waits s' !! w = Some (mkWait true (wproc d)).

Definition unlocked_pipe (p : Pipe) : Pipe := lset pipe_lock false p.

Lemma stream_ext p p' :
  p_data p' = p_data p → nread p' = nread p → nwrite p' = nwrite p → stream p' = stream p ∧ avail p' = avail p.
Proof. intros E1 E2 E3. rewrite /stream /avail E1 E2 E3 //. Qed.

Lemma post_all_idle s :
  sem_idle s → ∃ n s', post_all_sem s = Ret n s' ∧ sem_idle s' ∧ woken s s'.
Proof.
  intros (W & L & V). destruct (post_all_run s W L) as (s' & R & W' & L' & V' & S' & U & _).
  { rewrite /INT_MAX. lia. }
  exists (Z.max 0 (- val s)), s'. split_and!; try done. rewrite /sem_idle V'. split_and!; [done|done|lia].
Qed.

(** What a finished call leaves: the stream [l], nobody locked out, and the other
    side awake. *)
Definition settled (p p' : Pipe) (l : list Z) : Prop :=
  pipe_ok p' ∧ p_lock p' = false ∧ stream p' = l ∧ readopen p' = readopen p ∧ writeopen p' = writeopen p.

Lemma write_end_run nw p :
  pipe_ok p → ∃ p', pipeWrite_end nw p = Ret (Done nw) p' ∧ settled p p' (stream p) ∧ woken (rlock p) (rlock p').
Proof.
  intros P. destruct (post_all_idle _ (po_r _ P)) as (k & s' & R & I & Hs).
  exists (set_rlock s' (unlocked_pipe p)). split_and!; [|split_and!; [by destruct P; split|done..]|done].
  rewrite /pipeWrite_end. erewrite bind_run; [|exact (release_run _ _)].
  erewrite bind_run; [|rewrite /on_rlock /on_sem /= R; reflexivity]. done.
Qed.

Lemma read_end_run dst nr p :
  pipe_ok p → ∃ p', pipeRead_end dst nr p = Ret (Done (dst, nr)) p' ∧ settled p p' (stream p) ∧ woken (wlock p) (wlock p').
Proof.
  intros P. destruct (post_all_idle _ (po_w _ P)) as (k & s' & R & I & Hs).
  exists (set_wlock s' (unlocked_pipe p)). split_and!; [|split_and!; [by destruct P; split|done..]|done].
  rewrite /pipeRead_end. erewrite bind_run; [|exact (release_run _ _)].
  erewrite bind_run; [|rewrite /on_wlock /on_sem /= R; reflexivity]. done.
Qed.

Lemma has_space p : pipe_ok p → (0 <? u32 (PIPESIZE - u32 (nwrite p - nread p))) = (avail p <? PIPESIZE).
Proof.
  intros P. fold (avail p). pose proof (avail_range p). pose proof (po_avail _ P).
  rewrite /u32 wrap_small; [rewrite /PIPESIZE in H0 |- *; lia|].
  destruct (Z.ltb_spec (avail p) PIPESIZE); [apply Z.ltb_lt|apply Z.ltb_ge]; lia.
Qed.

Lemma write_loop_run fuel w pid src n : ∀ p i nw,
  pipe_ok p → 0 ≤ i ≤ n → n - i ≤ Z.of_nat fuel → n ≤ Z.of_nat (length src) →
  readopen p ≠ 1 ∨ n - i ≤ PIPESIZE - avail p →
  ∃ p', pipeWrite_loop fuel w pid src n i nw p = Ret (Done (nw + Z.min (n - i) (PIPESIZE - avail p))) p' ∧
    settled p p' (stream p ++ take (Z.to_nat (Z.min (n - i) (PIPESIZE - avail p))) (drop (Z.to_nat i) src)) ∧
    woken (rlock p) (rlock p').
Proof.
  assert (Hend : ∀ p i nw, pipe_ok p → Z.min (n - i) (PIPESIZE - avail p) = 0 →
    ∃ p', pipeWrite_end nw p = Ret (Done (nw + Z.min (n - i) (PIPESIZE - avail p))) p' ∧
    settled p p' (stream p ++ take (Z.to_nat (Z.min (n - i) (PIPESIZE - avail p))) (drop (Z.to_nat i) src)) ∧
    woken (rlock p) (rlock p')).
  { intros p i nw P ->. rewrite Z.add_0_r app_nil_r. by apply write_end_run. }
  induction fuel as [|fuel IH]; intros p i nw P Hi Hf Hsrc Hor; pose proof (po_avail _ P) as Hav; simpl.
  { rewrite (proj2 (Z.ltb_ge i n)); [lia|]. apply Hend; [done|lia]. }
  destruct (Z.ltb_spec i n) as [Hlt|Hge]; [|apply Hend; [done|lia]].
  erewrite bind_run; [|reflexivity]. rewrite has_space //.
  destruct (Z.ltb_spec (avail p) PIPESIZE) as [Hsp|Hfull].
  - destruct (list_lookup_Z_Some src i) as [c Hc]; [lia|].
    erewrite bind_run; [|exact (of_opt_run _ _ _ Hc)]. do 2 (erewrite bind_run; [|reflexivity]).
    change (set_nwrite _ _) with (put1 c p).
    destruct (IH (put1 c p) (i + 1) (nw + 1)) as (p' & R & (Q1 & Q2 & Q3 & Q4 & Q5) & Q6).
    + by apply put1_ok.
    + lia.
    + lia.
    + lia.
    + rewrite avail_put //. destruct Hor; [by left|right; lia].
    + rewrite avail_put // in R Q3. rewrite stream_put // in Q3. exists p'.
      replace (n - (i + 1)) with (n - i - 1) in R, Q3 by lia.
      replace (Z.min (n - i - 1) (PIPESIZE - (avail p + 1))) with (Z.min (n - i) (PIPESIZE - avail p) - 1) in R, Q3 by lia.
      replace (nw + 1 + (Z.min (n - i) (PIPESIZE - avail p) - 1)) with (nw + Z.min (n - i) (PIPESIZE - avail p)) in R by lia.
      split_and!; [done| |done]. split_and!; try done. rewrite Q3 -app_assoc. f_equal.
      rewrite (drop_S _ _ _ Hc). replace (Z.to_nat (i + 1)) with (S (Z.to_nat i)) by lia.
      replace (Z.to_nat (Z.min (n - i) (PIPESIZE - avail p))) with (S (Z.to_nat (Z.min (n - i) (PIPESIZE - avail p) - 1))) by lia.
      done.
  - destruct Hor as [Hro|]; [|lia]. rewrite (proj2 (Z.eqb_neq _ _) Hro). apply Hend; [done|lia].
Qed.

Lemma pipe_write_run w pid src n p :
  pipe_ok p → p_lock p = false → 0 ≤ n ≤ Z.of_nat (length src) → readopen p ≠ 1 ∨ n ≤ PIPESIZE - avail p →
  ∃ p', pipeWrite w pid src n p = Ret (Done (Z.min n (PIPESIZE - avail p))) p' ∧
    settled p p' (stream p ++ take (Z.to_nat (Z.min n (PIPESIZE - avail p))) src) ∧ woken (rlock p) (rlock p').
Proof.
  intros P L Hn Hor. rewrite /pipeWrite. erewrite bind_run; [|rewrite acquire_run /= L; reflexivity].
  destruct (write_loop_run (Z.to_nat n) w pid src n (lset pipe_lock true p) 0 0) as (p' & R & Q & Hs).
  - by destruct P; split.
  - lia.
  - lia.
  - lia.
  - by rewrite Z.sub_0_r.
  - rewrite Z.sub_0_r in R Q. by exists p'.
Qed.

Lemma splice_insert l n x l' :
  (n < length l)%nat → splice (<[n := x]> l) (S n) l' = splice l n (x :: l').
Proof.
  intros Hn. rewrite /splice. rewrite (take_S_r _ _ x); [by apply list_lookup_insert_eq|].
  rewrite take_insert_ge; [lia|]. rewrite drop_insert_lt; [lia|]. rewrite -app_assoc.
  by replace (n + length (x :: l'))%nat with (S n + length l')%nat by (simpl; lia).
Qed.

Lemma read_loop_run fuel w pid n : ∀ p dst i nr,
  pipe_ok p → 0 ≤ i ≤ n → n - i ≤ Z.of_nat fuel → n ≤ Z.of_nat (length dst) →
  writeopen p ≠ 1 ∨ n - i ≤ avail p →
  ∃ p', pipeRead_loop fuel w pid dst n i nr p =
      Ret (Done (splice dst (Z.to_nat i) (take (Z.to_nat (Z.min (n - i) (avail p))) (stream p)),
                 nr + Z.min (n - i) (avail p))) p' ∧
    settled p p' (drop (Z.to_nat (Z.min (n - i) (avail p))) (stream p)) ∧ woken (wlock p) (wlock p').
Proof.
  assert (Hend : ∀ p dst i nr, pipe_ok p → Z.min (n - i) (avail p) = 0 →
    ∃ p', pipeRead_end dst nr p =
      Ret (Done (splice dst (Z.to_nat i) (take (Z.to_nat (Z.min (n - i) (avail p))) (stream p)),
                 nr + Z.min (n - i) (avail p))) p' ∧
    settled p p' (drop (Z.to_nat (Z.min (n - i) (avail p))) (stream p)) ∧ woken (wlock p) (wlock p')).
  { intros p dst i nr P ->. rewrite Z.add_0_r /splice /= Nat.add_0_r take_drop. by apply read_end_run. }
  induction fuel as [|fuel IH]; intros p dst i nr P Hi Hf Hdst Hor; pose proof (avail_range p) as Hav; simpl.
  { rewrite (proj2 (Z.ltb_ge i n)); [lia|]. apply Hend; [done|lia]. }
  destruct (Z.ltb_spec i n) as [Hlt|Hge]; [|apply Hend; [done|lia]].
  erewrite bind_run; [|reflexivity]. fold (avail p).
  destruct (Z.ltb_spec 0 (avail p)) as [Hsp|Hemp].
  - destruct (stream_take p P Hsp) as (c & Hc & Hst). destruct (list_lookup_Z_Some dst i) as [c0 Hc0]; [lia|].
    erewrite bind_run; [|exact (of_opt_run _ _ _ Hc)]. erewrite bind_run; [|exact (of_opt_run _ _ _ Hc0)].
    erewrite bind_run; [|reflexivity]. change (set_nread _ _) with (take1 p).
    destruct (IH (take1 p) (<[Z.to_nat i := c]> dst) (i + 1) (nr + 1)) as (p' & R & (Q1 & Q2 & Q3 & Q4 & Q5) & Q6).
    + by apply take1_ok.
    + lia.
    + lia.
    + rewrite length_insert. lia.
    + rewrite avail_take //. destruct Hor; [by left|right; lia].
    + rewrite avail_take // in R Q3. exists p'.
      set (k := Z.min (n - i) (avail p)) in *.
      replace (Z.min (n - (i + 1)) (avail p - 1)) with (k - 1) in R, Q3 by lia.
      replace (Z.to_nat k) with (S (Z.to_nat (k - 1))) by lia. rewrite Hst. simpl.
      replace (nr + 1 + (k - 1)) with (nr + k) in R by lia.
      replace (Z.to_nat (i + 1)) with (S (Z.to_nat i)) in R by lia. rewrite splice_insert in R; [lia|].
      done.
  - destruct Hor as [Hro|]; [|lia]. rewrite (proj2 (Z.eqb_neq _ _) Hro). apply Hend; [done|lia].
Qed.

Lemma pipe_read_run w pid dst n p :
  pipe_ok p → p_lock p = false → 0 ≤ n ≤ Z.of_nat (length dst) → writeopen p ≠ 1 ∨ n ≤ avail p →
  ∃ p', pipeRead w pid dst n p =
      Ret (Done (splice dst 0 (take (Z.to_nat (Z.min n (avail p))) (stream p)), Z.min n (avail p))) p' ∧
    settled p p' (drop (Z.to_nat (Z.min n (avail p))) (stream p)) ∧ woken (wlock p) (wlock p').
Proof.
  intros P L Hn Hor. rewrite /pipeRead. erewrite bind_run; [|rewrite acquire_run /= L; reflexivity].
  destruct (read_loop_run (Z.to_nat n) w pid n (lset pipe_lock true p) dst 0 0) as (p' & R & Q & Hs).
  - by destruct P; split.
  - lia.
  - lia.
  - lia.
  - by rewrite Z.sub_0_r.
  - rewrite Z.sub_0_r in R Q. by exists p'.
Qed.

(** C28: For calls that need not wait, a pipe is a byte stream.  On a well-formed pipe, whatever its 32-bit
    counters (they may wrap), a write that fits, or any write after the reader has
    closed, puts as many bytes as fit at the end of the stream and returns their
    number; a read of no more than is there, or any read after the writer has
    closed, takes bytes off the front, stores them at the start of the buffer and
    returns their number.  Neither waits; the pipe stays well formed and unlocked,
    and nobody is left asleep on the other side.  (A call that does wait skips a
    place of the stream: [pipe_read_skips_byte].) *)
Theorem pipe_refines_stream w pid src dst n p :
  pipe_ok p → p_lock p = false → 0 ≤ n →
  (n ≤ Z.of_nat (length src) → readopen p ≠ 1 ∨ n ≤ PIPESIZE - avail p →
   ∃ p', pipeWrite w pid src n p = Ret (Done (Z.min n (PIPESIZE - avail p))) p' ∧
     settled p p' (stream p ++ take (Z.to_nat (Z.min n (PIPESIZE - avail p))) src) ∧ woken (rlock p) (rlock p')) ∧
  (n ≤ Z.of_nat (length dst) → writeopen p ≠ 1 ∨ n ≤ avail p →
   ∃ p', pipeRead w pid dst n p =
      Ret (Done (splice dst 0 (take (Z.to_nat (Z.min n (avail p))) (stream p)), Z.min n (avail p))) p' ∧
     settled p p' (drop (Z.to_nat (Z.min n (avail p))) (stream p)) ∧ woken (wlock p) (wlock p')).
Proof.
  intros P L Hn. split; intros Hlen Hor; [by apply pipe_write_run|by apply pipe_read_run].
Qed.

(** A pipe with two bytes in it and its counters about to wrap. *)
Definition wrap_pipe : Pipe :=
  mkPipe false (init_sem 0) (init_sem 0) (<[510%nat := 7]> (<[511%nat := 8]> (replicate 512 0))) (2 ^ 32 - 2) 0 1 1.
Lemma init_sem_idle : sem_idle (init_sem 0).
Proof.
  split_and!; [|done|done]. rewrite /sem_wf /INT_MIN /INT_MAX /=. split_and!; [lia|lia|done|apply NoDup_nil_2|done|].
  intros w Hw. by apply elem_of_nil in Hw.
Qed.
Lemma wrap_pipe_ok : pipe_ok wrap_pipe.
Proof.
  split; [reflexivity|simpl; lia|simpl; lia|vm_compute; discriminate|exact init_sem_idle|exact init_sem_idle].
Qed.

Lemma pipe_refines_stream_witness :
  stream wrap_pipe = [7; 8] ∧
  ∃ p', pipeRead 0 3 [0; 0; 0] 2 wrap_pipe = Ret (Done ([7; 8; 0], 2)) p' ∧ stream p' = [].
Proof.
  split; [vm_compute; reflexivity|].
  destruct (pipe_refines_stream 0 3 [] [0; 0; 0] 2 wrap_pipe wrap_pipe_ok eq_refl ltac:(lia)) as [_ H].
  destruct H as (p' & R & (_ & _ & Hs & _) & _); [simpl; lia|right; vm_compute; discriminate|].
  exists p'. split; [exact R|]. rewrite Hs. vm_compute. reflexivity.
Defined.

(** ** A call that slept *)

(** The semaphore after one process went to sleep on it. *)
Definition one_asleep (w pid : nat) : Semaphore := mkSem false (-1) [w] {[ w := mkWait false pid ]} [].

Lemma one_asleep_idle w pid : sem_idle (one_asleep w pid).
Proof.
  split_and!; [|done|done]. rewrite /sem_wf /INT_MIN /INT_MAX /=. split_and!; [lia|lia|done|apply NoDup_singleton| |].
  - intros x d [<- <-]%lookup_singleton_Some. by rewrite list_elem_of_singleton.
  - intros x ->%list_elem_of_singleton. rewrite lookup_singleton_eq. by eexists.
Qed.

Lemma read_sleeps w pid dst n p :
  pipe_ok p → p_lock p = false → avail p = 0 → writeopen p = 1 → rlock p = init_sem 0 → 1 ≤ n →
  ∃ p1, pipeRead w pid dst n p = Ret (Asleep 0 (dst, 0)) p1 ∧ settled p p1 (stream p) ∧ avail p1 = 0 ∧
    rlock p1 = one_asleep w pid.
Proof.
  intros P L Ha Hw Hr Hn. destruct (post_all_idle _ (po_w _ P)) as (k & s' & R & I & _).
  exists (set_rlock (one_asleep w pid) (set_wlock s' (unlocked_pipe p))). split_and!; try done.
  - rewrite /pipeRead. erewrite bind_run; [|rewrite acquire_run /= L; reflexivity].
    destruct (Z.to_nat n) as [|f] eqn:Ef; [lia|]. cbn [pipeRead_loop].
    rewrite (proj2 (Z.ltb_lt 0 n)); [lia|]. erewrite bind_run; [|reflexivity].
    change (u32 _) with (avail p) at 1. rewrite Ha. change (0 <? 0) with false. cbv iota.
    change (writeopen _) with (writeopen p). rewrite Hw. change (1 =? 1) with true. cbv iota.
    erewrite bind_run; [|rewrite /on_rlock /on_sem /= Hr /=; reflexivity].
    erewrite bind_run; [|exact (release_run _ _)].
    erewrite bind_run; [|rewrite /on_wlock /on_sem /= R; reflexivity].
    erewrite bind_run; [|rewrite /on_rlock /on_sem /=; reflexivity]. cbv iota. rewrite /set_rlock /set_wlock /unlocked_pipe /= Hw. reflexivity.
  - split_and!; try done. destruct P. split; try done. apply one_asleep_idle.
Qed.

(** A reader that has to wait loses a place.  When a read finds the pipe empty
    it sleeps at byte 0, and when a writer has filled the pipe and woken it, the
    loop goes on with byte 1: whatever is written, the first byte of the stream is
    stored at position 1 of the buffer, position 0 keeps its old contents, and the
    count returned is one short although the bytes were there. *)
Theorem pipe_read_skips_byte w w' pid dst n p src m wid wpid :
  pipe_ok p → p_lock p = false → avail p = 0 → writeopen p = 1 → rlock p = init_sem 0 →
  1 ≤ n ≤ Z.of_nat (length dst) → n ≤ m ≤ PIPESIZE → m ≤ Z.of_nat (length src) →
  ∃ p1 p2 p3,
    pipeRead w pid dst n p = Ret (Asleep 0 (dst, 0)) p1 ∧
    pipeWrite wid wpid src m p1 = Ret (Done m) p2 ∧
    pipeRead_wake w w' pid dst n 0 0 p2 = Ret (Done (splice dst 1 (take (Z.to_nat (n - 1)) src), n - 1)) p3.
Proof.
  intros P L Ha Hw Hr Hn Hm Hsrc.
  destruct (read_sleeps w pid dst n p P L Ha Hw Hr) as (p1 & R1 & (P1 & L1 & S1 & _ & W1) & A1 & Hr1); [lia|].
  assert (Hnil : stream p = []) by (apply nil_length_inv; rewrite length_stream Ha //).
  destruct (pipe_write_run wid wpid src m p1 P1 L1) as (p2 & R2 & (P2 & L2 & S2 & _ & W2) & _ & Hup);
    [lia|right; rewrite A1; lia|].
  rewrite A1 in R2 S2. rewrite Z.min_l in R2 S2; [lia|].
  destruct (po_r _ P2) as (Sw & Sl & Sv).
  destruct (wait_after_run w (mkWait true pid) (rlock p2) Sw Sl) as (s3 & R3 & (Sw3 & Sl3 & Sv3) & _).
  { rewrite (Hup w (mkWait false pid)) //. by rewrite Hr1 lookup_singleton_eq. }
  assert (P3 : pipe_ok (lset pipe_lock true (set_rlock s3 p2))).
  { destruct P2. split; try done. split_and!; [done|done|simpl; lia]. }
  assert (Ha2 : avail p2 = m) by (pose proof (length_stream p2) as Hl; rewrite S2 S1 Hnil /= length_take in Hl; pose proof (avail_range p2); lia).
  destruct (read_loop_run (Z.to_nat n) w' pid n (lset pipe_lock true (set_rlock s3 p2)) dst 1 0 P3) as (p3 & R4 & _);
    [lia|lia|lia|right; change (avail _) with (avail p2); lia|].
  change (avail (lset pipe_lock true (set_rlock s3 p2))) with (avail p2) in R4.
  change (stream (lset pipe_lock true (set_rlock s3 p2))) with (stream p2) in R4.
  exists p1, p2, p3. split_and!; [done|done|].
  rewrite /pipeRead_wake. change (up (mkWait true pid)) with true in R3. erewrite bind_run; [|rewrite /on_rlock /on_sem R3; reflexivity]. cbv iota.
  erewrite bind_run; [|rewrite acquire_run /= L2; reflexivity]. rewrite R4 S2 S1 Hnil /= Z.min_l; [lia|].
  rewrite take_take Nat.min_l //. lia.
Qed.

Lemma new_pipe_ok : pipe_ok new_pipe.
Proof.
  split; [reflexivity|simpl; lia|simpl; lia|vm_compute; discriminate|exact init_sem_idle|exact init_sem_idle].
Qed.

Lemma pipe_read_skips_byte_witness :
  ∃ p1 p2 p3,
    pipeRead 0 3 [0; 0; 0] 3 new_pipe = Ret (Asleep 0 ([0; 0; 0], 0)) p1 ∧
    pipeWrite 1 4 [97; 98; 99] 3 p1 = Ret (Done 3) p2 ∧
    pipeRead_wake 0 2 3 [0; 0; 0] 3 0 0 p2 = Ret (Done ([0; 97; 98], 2)) p3.
Proof.
  apply (pipe_read_skips_byte 0 2 3 [0; 0; 0] 3 new_pipe [97; 98; 99] 3 1 4 new_pipe_ok);
    first [reflexivity|simpl; lia|rewrite /PIPESIZE; lia].
Defined.
