(* ===== verification/File.v ===== *)
(** * File: open files, [fs/file.c] and [pipeAlloc] of [fs/pipe.c]

    Over the kernel's block cache.  A [File*] is an index into the table, an
    [Inode*] and a [Pipe*] identifiers (0 is the null pointer), the local
    [OpContext] of a call an identifier [ctx].  A read or write of a pipe may end
    asleep, as in [Pipe.v].  A user buffer is a list of bytes; a store past it is
    a fault. *)

From stdpp Require Import base numbers list gmap.
From S2P Require Import Prelude Spinlock Bytes FsDefs BlockCache Cache CacheList CacheOps CacheAlloc Console Inode InodeRead Sem Pipe.

Definition NFILE : Z := 1024.
Definition MAX_OP_WRITE_N : Z := (OP_MAX_NUM_BLOCKS - 1 - 1 - 2) / 2 * BLOCK_SIZE.

Inductive fd_type := FD_NONE | FD_PIPE | FD_INODE.
#[export] Instance fd_type_eq_dec : EqDecision fd_type.
Proof. solve_decision. Defined.

Record File := mkFile {
  f_type : fd_type;
  f_ref : Z;
  f_readable : Z;
  f_writable : Z;
  f_pipe : Z;
  f_ip : Z;
  f_off : Z }.

Definition set_f_type v (f : File) := mkFile v (f_ref f) (f_readable f) (f_writable f) (f_pipe f) (f_ip f) (f_off f).
Definition set_f_ref v (f : File) := mkFile (f_type f) v (f_readable f) (f_writable f) (f_pipe f) (f_ip f) (f_off f).
Definition set_f_off v (f : File) := mkFile (f_type f) (f_ref f) (f_readable f) (f_writable f) (f_pipe f) (f_ip f) v.

Record fstate := mkFS {
  ft_lock : SpinLock;
  files : list File;
  pipes : gmap Z Pipe;
  pnext : Z;
  inodes : istate (S := cstate) }.

Definition set_files v (s : fstate) := mkFS (ft_lock s) v (pipes s) (pnext s) (inodes s).
Definition set_pipes v (s : fstate) := mkFS (ft_lock s) (files s) v (pnext s) (inodes s).
Definition set_pnext v (s : fstate) := mkFS (ft_lock s) (files s) (pipes s) v (inodes s).
Definition set_inodes v (s : fstate) := mkFS (ft_lock s) (files s) (pipes s) (pnext s) v.
Definition ftable_lock : Lens fstate SpinLock := mkLens ft_lock (λ l s, mkFS l (files s) (pipes s) (pnext s) (inodes s)).

Definition zero_file : File := mkFile FD_NONE 0 0 0 0 0 0.
(** The table at boot: all zeros, and its lock free. *)
Definition init_ftable (i : istate) : fstate := mkFS init_spinlock (replicate (Z.to_nat NFILE) zero_file) ∅ 1 i.

Definition on_inodes {A} (m : M (istate (S := cstate)) A) : M fstate A := λ s,
  match m (inodes s) with
  | Ret a i => Ret a (set_inodes i s)
  | Panic => Panic | Fault => Fault | Hang => Hang | Fuel => Fuel
  end.
Definition on_pipe {A} (p : Z) (m : M Pipe A) : M fstate A := λ s,
  match pipes s !! p with
  | None => Fault
  | Some pi =>
      match m pi with
      | Ret a pi' => Ret a (set_pipes (<[p := pi']> (pipes s)) s)
      | Panic => Panic | Fault => Fault | Hang => Hang | Fuel => Fuel
      end
  end.

Definition fget (f : nat) : M fstate File := l ← gets files; of_opt (l !! f).
Definition fupd (f : nat) (g : File → File) : M fstate () :=
  l ← gets files; x ← of_opt (l !! f); modify (set_files (<[f := g x]> l)).

(** The scan of [filealloc]: the first file with no reference. *)
Fixpoint find_free (l : list File) : option nat :=
  match l with
  | [] => None
  | x :: l => if f_ref x =? 0 then Some 0%nat else S <$> find_free l
  end.

Definition filealloc : M fstate (option nat) :=
  _acquire_spinlock ftable_lock;;
  l ← gets files;
  match find_free l with
  | Some i => fupd i (set_f_ref 1);; release_spinlock ftable_lock;; mret (Some i)
  | None => release_spinlock ftable_lock;; mret None
  end.

Definition filedup (f : nat) : M fstate nat :=
  _acquire_spinlock ftable_lock;;
  x ← fget f;
  fupd f (set_f_ref (i32 (f_ref x + 1)));;
  release_spinlock ftable_lock;;
  mret f.

(** [pipeClose] of [fs/pipe.c], with the [kfree]. *)
Definition file_pipeClose (p writable : Z) : M fstate () :=
  freed ← on_pipe p (pipeClose writable);
  if freed : bool then modify (λ s, set_pipes (delete p (pipes s)) s) else mret ().

(** [bcache.begin_op], [inodes.put], [bcache.end_op]. *)
Definition put_in_op (ctx ip : Z) : M fstate () :=
  on_inodes (lift (cache_begin_op ctx));;
  on_inodes (inode_put sblock (Some ctx) ip);;
  _ ← on_inodes (lift (cache_end_op ctx));
  mret ().

(** The lock is released once more than it is taken when the last reference goes. *)
Definition fileclose (ctx : Z) (f : nat) : M fstate () :=
  x ← fget f;
  assert_ (negb (bool_decide (f_type x = FD_NONE)));;
  _acquire_spinlock ftable_lock;;
  fupd f (λ x, set_f_ref (i32 (f_ref x - 1)) x);;
  temp ← fget f;
  (if f_ref temp <=? 0 then
     fupd f (set_f_ref 0);;
     fupd f (set_f_type FD_NONE);;
     release_spinlock ftable_lock;;
     (if bool_decide (f_type temp = FD_PIPE) then
        x ← fget f; file_pipeClose (f_pipe x) (f_writable x)
      else mret ());;
     (if negb (bool_decide (f_type temp = FD_NONE)) then put_in_op ctx (f_ip temp) else mret ())
   else mret ());;
  release_spinlock ftable_lock.

Definition filestat (f : nat) : M fstate (option stat) :=
  x ← fget f;
  if bool_decide (f_type x = FD_INODE) then
    on_inodes (inode_lock (f_ip x));;
    st ← on_inodes (stati (f_ip x));
    on_inodes (inode_unlock (f_ip x));;
    mret (Some st)
  else mret None.

(** Store bytes at the start of the user's buffer. *)
Definition copy_out (dst l : list Z) : M fstate (list Z) :=
  if decide (length l ≤ length dst)%nat then mret (splice dst 0 l) else fault.

(** The buffer after the call and the value returned. *)
Definition fileread (w pid : nat) (alerted : bool) (f : nat) (dst : list Z) (n : Z) : M fstate (stop (list Z * Z)) :=
  x ← fget f;
  if negb (f_readable x =? 1) then mret (Done (dst, -1))
  else
    match f_type x with
    | FD_INODE =>
        on_inodes (inode_lock (f_ip x));;
        x ← fget f;
        '(nread, l) ← on_inodes (inode_read alerted (f_ip x) (f_off x) (u64 n));
        dst ← copy_out dst l;
        fupd f (set_f_off (u64 (f_off x + nread)));;
        on_inodes (inode_unlock (f_ip x));;
        mret (Done (dst, i64 nread))
    | FD_PIPE => on_pipe (f_pipe x) (pipeRead w pid dst (i32 n))
    | FD_NONE => panic
    end.

(** The loop of [filewrite]: at most [MAX_OP_WRITE_N] bytes per transaction. *)
Fixpoint filewrite_loop (fuel : nat) (ctx : Z) (f : nat) (src : list Z) (n nwrite : Z) : M fstate Z :=
  if nwrite <? n then
    match fuel with
    | O => nofuel
    | S fuel =>
        let op_n := Z.min (u64 (n - nwrite)) MAX_OP_WRITE_N in
        on_inodes (lift (cache_begin_op ctx));;
        x ← fget f;
        on_inodes (inode_lock (f_ip x));;
        x ← fget f;
        w ← on_inodes (inode_write sblock (Some ctx) (f_ip x) (drop (Z.to_nat nwrite) src) (f_off x) op_n);
        fupd f (set_f_off (u64 (f_off x + w)));;
        on_inodes (inode_unlock (f_ip x));;
        _ ← on_inodes (lift (cache_end_op ctx));
        filewrite_loop fuel ctx f src n (u64 (nwrite + w))
    end
  else mret nwrite.

Definition filewrite (w pid : nat) (ctx : Z) (f : nat) (src : list Z) (n : Z) : M fstate (stop Z) :=
  x ← fget f;
  if negb (f_writable x =? 1) then mret (Done (-1))
  else
    match f_type x with
    | FD_INODE =>
        let max_valid_write_n := u64 (INODE_MAX_BYTES - f_off x) in
        let n := Z.min (u64 n) max_valid_write_n in
        r ← filewrite_loop (Z.to_nat n) ctx f src n 0;
        mret (Done (i64 r))
    | FD_PIPE => on_pipe (f_pipe x) (pipeWrite w pid src (i32 n))
    | FD_NONE => panic
    end.

(** [pipeAlloc]: the read end and the write end.  [kalloc] does not fail here;
    only the type and one of the two flags of each file are set. *)
Definition pipeAlloc : M fstate (option (nat * nat)) :=
  f0 ← filealloc;
  f1 ← filealloc;
  match f0, f1 with
  | Some f0, Some f1 =>
      p ← gets pnext;
      modify (set_pnext (p + 1));;
      modify (λ s, set_pipes (<[p := new_pipe]> (pipes s)) s);;
      fupd f0 (λ x, mkFile FD_PIPE (f_ref x) 1 (f_writable x) p (f_ip x) (f_off x));;
      fupd f1 (λ x, mkFile FD_PIPE (f_ref x) (f_readable x) 1 p (f_ip x) (f_off x));;
      mret (Some (f0, f1))
  | _, _ => mret None
  end.

(** ** References *)
Lemma find_free_spec l :
  match find_free l with
  | Some i => ∃ x, l !! i = Some x ∧ f_ref x = 0 ∧ ∀ j y, (j < i)%nat → l !! j = Some y → f_ref y ≠ 0
  | None => ∀ j y, l !! j = Some y → f_ref y ≠ 0
  end.
Proof.
  induction l as [|x l IH]; simpl; [by intros j y|]. destruct (Z.eqb_spec (f_ref x) 0) as [E|E].
  { exists x. split_and!; [done|done|]. intros j y Hj. lia. }
  destruct (find_free l) as [i|]; simpl.
  - destruct IH as (x' & Hx & Hr & Hlow). exists x'. split_and!; [done|done|].
    intros [|j] y Hj Hy; simpl in Hy; [by simplify_eq|]. apply (Hlow j y); [lia|done].
  - intros [|j] y Hy; simpl in Hy; [by simplify_eq|]. by apply (IH j).
Qed.

Lemma fget_run f x s : files s !! f = Some x → fget f s = Ret x s.
Proof. intros Hx. rewrite /fget. erewrite bind_run; [|reflexivity]. exact (of_opt_run _ _ _ Hx). Qed.

Lemma fupd_run f g x s : files s !! f = Some x → fupd f g s = Ret () (set_files (<[f := g x]> (files s)) s).
Proof.
  intros Hx. rewrite /fupd. erewrite bind_run; [|reflexivity]. erewrite bind_run; [|exact (of_opt_run _ _ _ Hx)]. done.
Qed.

Lemma ft_acquire_run s : ft_lock s = false → _acquire_spinlock ftable_lock s = Ret () (lset ftable_lock true s).
Proof. intros L. by rewrite acquire_run /= L. Qed.

(** References to open files.  filealloc takes the lowest file without a
    reference, gives it one and changes nothing else, and returns null exactly when
    every file is in use.  filedup adds a reference.  fileclose of a file with
    further references takes one away and neither closes nor changes anything else.
    The lock of the table is free afterwards. *)
Theorem file_references s f x ctx :
  ft_lock s = false →
  (match find_free (files s) with
   | Some i => ∃ y, files s !! i = Some y ∧ f_ref y = 0 ∧ (∀ j z, (j < i)%nat → files s !! j = Some z → f_ref z ≠ 0) ∧
       filealloc s = Ret (Some i) (set_files (<[i := set_f_ref 1 y]> (files s)) s)
   | None => (∀ j z, files s !! j = Some z → f_ref z ≠ 0) ∧ filealloc s = Ret None s
   end) ∧
  (files s !! f = Some x → 0 ≤ f_ref x < 2 ^ 31 - 1 →
   filedup f s = Ret f (set_files (<[f := set_f_ref (f_ref x + 1) x]> (files s)) s)) ∧
  (files s !! f = Some x → f_type x ≠ FD_NONE → 2 ≤ f_ref x < 2 ^ 31 →
   fileclose ctx f s = Ret () (set_files (<[f := set_f_ref (f_ref x - 1) x]> (files s)) s)).
Proof.
  intros L. split_and!.
  - pose proof (find_free_spec (files s)) as Hf. rewrite /filealloc.
    erewrite bind_run; [|exact (ft_acquire_run s L)]. erewrite bind_run; [|reflexivity].
    change (files (lset ftable_lock true s)) with (files s).
    destruct (find_free (files s)) as [i|].
    + destruct Hf as (y & Hy & Hr & Hlow). exists y. split_and!; try done.
      erewrite bind_run; [|exact (fupd_run i _ y (lset ftable_lock true s) Hy)].
      erewrite bind_run; [|exact (release_run _ _)]. destruct s; simpl in *; by subst.
    + split; [done|]. erewrite bind_run; [|exact (release_run _ _)]. destruct s; simpl in *; by subst.
  - intros Hx Hr. rewrite /filedup. erewrite bind_run; [|exact (ft_acquire_run s L)].
    erewrite bind_run; [|exact (fget_run f x (lset ftable_lock true s) Hx)].
    erewrite bind_run; [|exact (fupd_run f _ x (lset ftable_lock true s) Hx)].
    erewrite bind_run; [|exact (release_run _ _)]. rewrite i32_small; [lia|]. destruct s; simpl in *; by subst.
  - intros Hx Ht Hr. rewrite /fileclose. erewrite bind_run; [|exact (fget_run f x s Hx)].
    rewrite (bool_decide_eq_false_2 _ Ht). erewrite bind_run; [|reflexivity].
    erewrite bind_run; [|exact (ft_acquire_run s L)].
    erewrite bind_run; [|exact (fupd_run f _ x (lset ftable_lock true s) Hx)].
    erewrite bind_run; [|apply fget_run, list_lookup_insert_eq, (lookup_lt_Some _ _ _ Hx)].
    rewrite i32_small; [lia|]. cbn [f_ref set_f_ref]. rewrite (proj2 (Z.leb_gt _ _)); [lia|].
    erewrite bind_run; [|reflexivity]. rewrite release_run. destruct s; simpl in *; by subst.
Qed.

(** Two files, one open twice. *)
Definition demo_files : fstate := mkFS false [mkFile FD_INODE 2 1 0 0 5 0; zero_file] ∅ 1 demo_inodes.

Lemma file_references_witness :
  filealloc demo_files = Ret (Some 1%nat) (set_files [mkFile FD_INODE 2 1 0 0 5 0; set_f_ref 1 zero_file] demo_files) ∧
  fileclose 1 0 demo_files = Ret () (set_files [mkFile FD_INODE 1 1 0 0 5 0; zero_file] demo_files).
Proof.
  destruct (file_references demo_files 0 (mkFile FD_INODE 2 1 0 0 5 0) 1 eq_refl) as ((y & Hy & _ & _ & H) & _ & Hc).
  injection Hy as <-. split; [exact H|]. apply Hc; [reflexivity|discriminate|simpl; lia].
Defined.

(** ** Closing a pipe *)
Lemma on_inodes_run {A} (m : M _ A) s a i : m (inodes s) = Ret a i → on_inodes m s = Ret a (set_inodes i s).
Proof. rewrite /on_inodes. by intros ->. Qed.

(** [inode_put] of a pointer that is not an inode. *)
Lemma inode_put_null ctx ip (i : istate (S := cstate)) :
  itab_lock i = false → itab i !! ip = None → inode_put sblock ctx ip i = Fault.
Proof.
  intros L Hn. rewrite /inode_put. erewrite bind_run; [|rewrite acquire_run /= L; reflexivity].
  apply bind_fault. rewrite /iget. erewrite bind_run; [|reflexivity]. by rewrite /= Hn.
Qed.

(** Closing a pipe end faults.  When the last reference to an end of a pipe is
    closed, fileclose closes the pipe and then, because the file was not FD_NONE,
    also puts the inode of the file, which a pipe end does not have: with the null
    pointer there (a file that never held an inode) the call dereferences it. *)
Theorem fileclose_pipe_faults s f x pi ctx c' :
  files s !! f = Some x → f_type x = FD_PIPE → f_ref x = 1 → f_ip x = 0 →
  ft_lock s = false → pipes s !! f_pipe x = Some pi → p_lock pi = false →
  itab_lock (inodes s) = false → itab (inodes s) !! 0 = None →
  cache_begin_op ctx (icache (inodes s)) = Ret () c' →
  fileclose ctx f s = Fault.
Proof.
  intros Hx Ht Hr Hip L Hpi Lp Li Hnull Hop. pose proof (lookup_lt_Some _ _ _ Hx) as Hlt.
  rewrite /fileclose. erewrite bind_run; [|exact (fget_run f x s Hx)].
  rewrite Ht. rewrite bool_decide_eq_false_2 //. erewrite bind_run; [|reflexivity].
  erewrite bind_run; [|exact (ft_acquire_run s L)].
  erewrite bind_run; [|exact (fupd_run f _ x (lset ftable_lock true s) Hx)].
  set (s1 := set_files _ _). assert (H1 : files s1 !! f = Some (set_f_ref (i32 (f_ref x - 1)) x)) by by apply list_lookup_insert_eq.
  erewrite bind_run; [|exact (fget_run f _ s1 H1)]. rewrite Hr. cbn [f_ref set_f_ref f_type].
  change (i32 (1 - 1) <=? 0) with true. cbv iota. rewrite Ht.
  assert (Hput : ∀ s', inodes s' = inodes s → put_in_op ctx (f_ip x) s' = Fault).
  { intros s' Hs'. rewrite /put_in_op /=.
    erewrite bind_run; [|apply on_inodes_run; rewrite Hs'; exact (lift_run _ _ _ _ Hop)].
    apply bind_fault. by rewrite /on_inodes Hip inode_put_null. }
  assert (Hcl : ∀ s', pipes s' = pipes s → ∃ s'', file_pipeClose (f_pipe x) (f_writable x) s' = Ret () s'' ∧ inodes s'' = inodes s').
  { intros s' Hs'. rewrite /file_pipeClose.
    assert (∃ b pi', pipeClose (f_writable x) pi = Ret b pi') as (b & pi' & Hb).
    { rewrite /pipeClose. erewrite bind_run; [|rewrite acquire_run /= Lp; reflexivity].
      destruct (f_writable x =? 1); (erewrite bind_run; [|reflexivity]); (erewrite bind_run; [|reflexivity]);
        destruct (_ && _); by eexists _, _. }
    erewrite bind_run; [|rewrite /on_pipe Hs' Hpi Hb; reflexivity]. destruct b; by eexists. }
  apply bind_fault. erewrite bind_run; [|exact (fupd_run f _ _ s1 H1)].
  set (s2 := set_files _ s1). assert (H2 : files s2 !! f = Some (set_f_ref 0 (set_f_ref (i32 (f_ref x - 1)) x))).
  { apply list_lookup_insert_eq. by rewrite length_insert. }
  erewrite bind_run; [|exact (fupd_run f _ _ s2 H2)]. erewrite bind_run; [|exact (release_run _ _)].
  set (s3 := lset ftable_lock false _).
  assert (H3 : files s3 !! f = Some (set_f_type FD_NONE (set_f_ref 0 (set_f_ref (i32 (f_ref x - 1)) x)))).
  { apply list_lookup_insert_eq. by rewrite !length_insert. }
  destruct (Hcl s3 eq_refl) as (s4 & R4 & Hi4).
  change (bool_decide (FD_PIPE = FD_PIPE)) with true. change (bool_decide (FD_PIPE = FD_NONE)) with false. cbv iota.
  erewrite bind_run; [|erewrite bind_run; [|exact (fget_run f _ s3 H3)]; exact R4].
  exact (Hput s4 Hi4).
Qed.

(** The two ends of a pipe in a fresh table. *)
Definition demo_idle : istate (S := cstate) := set_icache (set_log (mkLog 63 0 0 false false 0 0) demo2) demo_inodes.
Definition demo_pipe_files : fstate :=
  mkFS false [mkFile FD_PIPE 1 1 0 1 0 0; mkFile FD_PIPE 1 0 1 1 0 0] {[ 1 := new_pipe ]} 2 demo_idle.

Lemma fileclose_pipe_faults_witness :
  pipeAlloc (mkFS false [zero_file; zero_file] ∅ 1 demo_idle) = Ret (Some (0%nat, 1%nat)) demo_pipe_files ∧
  fileclose 7 0 demo_pipe_files = Fault.
Proof.
  split; [reflexivity|].
  eapply (fileclose_pipe_faults demo_pipe_files 0 (mkFile FD_PIPE 1 1 0 1 0 0) new_pipe 7); reflexivity.
Defined.
