(* ===== verification/Pt.v ===== *)
(** * Pt: page tables, [kernel/pt.c], and the zero page of [kernel/mem.c]

    Four levels of 512 entries of 64 bits, in pages of the page allocator of
    [Mem.v]; [words] of the memory state holds the tables.  A [struct pgdir] is
    [pgdir]; [ttbr0] is the register the hardware walks from.  The sections of a
    page directory are in [Paging.v]. *)

From stdpp Require Import base numbers list gmap.
From S2P Require Import Prelude Spinlock Bytes Mem.

Definition PTE_VALID : Z := 1.
Definition PTE_TABLE : Z := 3.
Definition PTE_PAGE : Z := 3.
Definition PTE_USER : Z := 64.
Definition PTE_RO : Z := 128.
Definition PTE_NORMAL : Z := Z.lor (Z.lor (Z.shiftl 1 2) (Z.shiftl 1 10)) (Z.shiftl 2 8).
Definition PTE_USER_DATA : Z := Z.lor (Z.lor PTE_USER PTE_NORMAL) PTE_PAGE.
Definition N_PTE_PER_TABLE : Z := 512.

Definition PTE_FLAG_MASK : Z := 18446462598732845055.  (* 0xFFFF000000000FFF *)
Definition PTE_ADDRESS (pte : Z) : Z := Z.land pte (2 ^ 64 - 1 - PTE_FLAG_MASK).
Definition PTE_FLAGS (pte : Z) : Z := Z.land pte PTE_FLAG_MASK.
Definition VA_PART0 (va : Z) : Z := Z.shiftr (Z.land va 280925220896768) 39.   (* 0xFF8000000000 *)
Definition VA_PART1 (va : Z) : Z := Z.shiftr (Z.land va 548682072064) 30.      (* 0x7FC0000000 *)
Definition VA_PART2 (va : Z) : Z := Z.shiftr (Z.land va 1071644672) 21.        (* 0x3FE00000 *)
Definition VA_PART3 (va : Z) : Z := Z.shiftr (Z.land va 2093056) 12.           (* 0x1FF000 *)

Record pgdir := mkPgdir { pt : Z; pd_lock : SpinLock; online : Z }.

Record vmem := mkVM { mm : mstate; pd : pgdir; ttbr0 : Z }.
Definition set_mm v (s : vmem) := mkVM v (pd s) (ttbr0 s).
Definition set_pt v (s : vmem) := mkVM (mm s) (mkPgdir v (pd_lock (pd s)) (online (pd s))) (ttbr0 s).
Definition set_online v (s : vmem) := mkVM (mm s) (mkPgdir (pt (pd s)) (pd_lock (pd s)) v) (ttbr0 s).
Definition set_ttbr0 v (s : vmem) := mkVM (mm s) (pd s) v.
Definition pd_lens : Lens vmem SpinLock :=
  mkLens (λ s, pd_lock (pd s)) (λ l s, mkVM (mm s) (mkPgdir (pt (pd s)) l (online (pd s))) (ttbr0 s)).

Definition on_mm {A} (m : M mstate A) : M vmem A := λ s,
  match m (mm s) with
  | Ret a v => Ret a (set_mm v s)
  | Panic => Panic | Fault => Fault | Hang => Hang | Fuel => Fuel
  end.

(** Loads and stores of a 64-bit word. *)
Definition load64 (a : Z) : M vmem Z := w ← gets (λ s, words (mm s)); of_opt (w !! a).
Definition store64 (a v : Z) : M vmem () :=
  w ← gets (λ s, words (mm s)); _ ← of_opt (w !! a); on_mm (modify (set_words (<[a := v]> w))).

(** [memset(p, 0, PAGE_SIZE)] on a page of the allocator. *)
Definition zero_words (p : Z) (w : gmap Z Z) : gmap Z Z :=
  foldr (λ a w, <[a := 0]> w) w (words_of (page_region p)).
Definition zero_page (p : Z) : M vmem () := on_mm (modify (λ m, set_words (zero_words p (words m)) m)).
Definition new_table : M vmem Z := p ← on_mm kalloc_page; zero_page p;; mret p.

(** One level: the table entry [idx] of [tbl] points to. *)
Definition next_table (tbl idx : Z) (alloc : bool) : M vmem (option Z) :=
  e ← load64 (tbl + 8 * idx);
  if Z.land e PTE_VALID =? 0 then
    if alloc then
      p ← new_table;
      store64 (tbl + 8 * idx) (Z.lor (K2P p) PTE_TABLE);;
      mret (Some p)
    else mret None
  else mret (Some (P2K (PTE_ADDRESS e))).

(** The address of the entry for [va], or the null pointer. *)
Definition get_pte (va : Z) (alloc : bool) : M vmem (option Z) :=
  pt0 ← gets (λ s, pt (pd s));
  ok ← (if pt0 =? 0 then
          if alloc then p ← new_table; modify (set_pt p);; mret true else mret false
        else mret true);
  if negb ok then mret None
  else
    pt0 ← gets (λ s, pt (pd s));
    o1 ← next_table pt0 (VA_PART0 va) alloc;
    match o1 with
    | None => mret None
    | Some pt1 =>
        o2 ← next_table pt1 (VA_PART1 va) alloc;
        match o2 with
        | None => mret None
        | Some pt2 =>
            o3 ← next_table pt2 (VA_PART2 va) alloc;
            match o3 with
            | None => mret None
            | Some pt3 => mret (Some (pt3 + 8 * VA_PART3 va))
            end
        end
    end.

Definition init_pgdir : M vmem () :=
  modify (set_online 0);;
  modify (lset pd_lens init_spinlock);;
  p ← new_table;
  modify (set_pt p).

(** Raise the count of the page [ka0] is the base of. *)
Definition incr_page_ref (n : Z) : M mstate () :=
  refs ← gets pages_ref;
  _ ← of_opt (refs !! n);
  _acquire_spinlock (ref_lens n);;
  modify (λ s, set_pages_ref (alter (λ q, mkPage (_increment_rc (ref q)) (ref_lock q)) n (pages_ref s)) s);;
  release_spinlock (ref_lens n).

Definition vmmap (va ka flags : Z) : M vmem () :=
  o ← get_pte va true;
  a ← of_opt o;
  let ka0 := PAGE_BASE ka in
  store64 a (K2P ka0);;
  e ← load64 a;
  store64 a (Z.lor e flags);;
  on_mm (incr_page_ref (K2P ka0 / PAGE_SIZE)).

(** For every valid entry of a table, do [f] on the table it points to. *)
Fixpoint for_valid (n : nat) (tbl i : Z) (f : Z → M vmem ()) : M vmem () :=
  match n with
  | O => mret ()
  | S n =>
      e ← load64 (tbl + 8 * i);
      (if negb (Z.land e PTE_VALID =? 0) then f (P2K (PTE_ADDRESS e)) else mret ());;
      for_valid n tbl (i + 1) f
  end.

(** [free_pgdir] after the sections have been freed. *)
Definition free_pgdir_tables : M vmem () :=
  pt0 ← gets (λ s, pt (pd s));
  for_valid (Z.to_nat N_PTE_PER_TABLE) pt0 0 (λ pt1,
    for_valid (Z.to_nat N_PTE_PER_TABLE) pt1 0 (λ pt2,
      for_valid (Z.to_nat N_PTE_PER_TABLE) pt2 0 (λ pt3, on_mm (kfree_page pt3));;
      on_mm (kfree_page pt2));;
    on_mm (kfree_page pt1));;
  on_mm (kfree_page pt0);;
  modify (set_pt 0).

(** A [struct pgdir] at address [a]: its lock is the byte at 8, [online] the byte
    at 32. *)
Definition store_byte0 (a v : Z) : M vmem () := w ← load64 a; store64 a (Z.lor (w - w mod 256) v).
Definition attach_pgdir (invalid_pt : Z) : M vmem () :=
  t ← gets ttbr0;
  let original_pgdir := P2K t in
  (if negb (original_pgdir =? 0) then
     l ← load64 (original_pgdir + 8);
     (if l mod 256 =? 0 then store_byte0 (original_pgdir + 8) 1 else hang);;
     store_byte0 (original_pgdir + 32) 0;;
     store_byte0 (original_pgdir + 8) 0
   else mret ());;
  p ← gets (λ s, pt (pd s));
  if negb (p =? 0) then
    _acquire_spinlock pd_lens;;
    modify (set_online 1);;
    release_spinlock pd_lens;;
    modify (set_ttbr0 (K2P p))
  else modify (set_ttbr0 (K2P invalid_pt)).

(** Bytes of a word. *)
Definition word_byte (w : Z) (k : Z) : Z := Z.shiftr w (8 * k) mod 256.
Definition set_word_byte (w k v : Z) : Z := w - word_byte w k * 2 ^ (8 * k) + v * 2 ^ (8 * k).
Definition store8 (a v : Z) : M vmem () :=
  let b := a - a mod 8 in w ← load64 b; store64 b (set_word_byte w (a mod 8) v).
Fixpoint store_bytes (a : Z) (l : list Z) : M vmem () :=
  match l with [] => mret () | c :: l => store8 a c;; store_bytes (a + 1) l end.

Fixpoint copyout_loop (fuel : nat) (va : Z) (p : list Z) (len : Z) : M vmem () :=
  if 0 <? len then
    match fuel with
    | O => nofuel
    | S fuel =>
        let va_off := PAGE_BASE va in
        let this_len := Z.min len (PAGE_SIZE - (va - va_off)) in
        o ← get_pte va true;
        a ← of_opt o;
        e ← load64 a;
        store_bytes (P2K (PTE_ADDRESS e) + (va - va_off)) (take (Z.to_nat this_len) p);;
        copyout_loop fuel (u64 (va + this_len)) (drop (Z.to_nat this_len) p) (len - this_len)
    end
  else mret ().
Definition copyout (va : Z) (p : list Z) (len : Z) : M vmem Z := copyout_loop (Z.to_nat len) va p len;; mret 0.

(** ** Addresses *)
Lemma PTE_ADDRESS_base x : 0 ≤ x < 2 ^ 48 → PTE_ADDRESS x = x - x mod 4096.
Proof.
  intros Hx. rewrite /PTE_ADDRESS.
  change (2 ^ 64 - 1 - PTE_FLAG_MASK) with (Z.shiftl (Z.ones 36) 12).
  assert (Z.land x (Z.shiftl (Z.ones 36) 12) = Z.shiftl (Z.land (Z.shiftr x 12) (Z.ones 36)) 12) as ->.
  { apply Z.bits_inj'. intros n Hn. rewrite Z.land_spec !Z.shiftl_spec // Z.land_spec.
    destruct (decide (n < 12)).
    - rewrite !(Z.testbit_neg_r _ (n - 12)) ?andb_false_r //; lia.
    - rewrite Z.shiftr_spec; [lia|]. by replace (n - 12 + 12) with n by lia. }
  rewrite Z.land_ones // Z.shiftl_mul_pow2 // Z.shiftr_div_pow2 //.
  change (2 ^ 12) with 4096. change (2 ^ 36) with 68719476736. change (2 ^ 48) with 281474976710656 in Hx. dlia.
Qed.

(** A page of the kernel's memory: its address survives the trip through an entry. *)
Definition page_addr (p : Z) : Prop := p mod 4096 = 0 ∧ KSPACE_MASK ≤ p < KSPACE_MASK + 2 ^ 40.

Lemma K2P_page p : page_addr p → K2P p = p - KSPACE_MASK.
Proof. intros [_ Hp]. rewrite /K2P /u64 wrap_small //. rewrite /KSPACE_MASK in Hp |- *. lia. Qed.

Lemma lor_low pa f : 0 ≤ pa → pa mod 4096 = 0 → 0 ≤ f < 4096 → Z.lor pa f = pa + f.
Proof.
  intros Hp Hm Hf. assert (Hd : Z.land pa f = 0).
  { apply Z.bits_inj'. intros n Hn. rewrite Z.land_spec Z.bits_0.
    replace pa with (pa / 4096 * 2 ^ 12) by (change (2 ^ 12) with 4096; dlia).
    destruct (decide (n < 12)); [by rewrite Z.mul_pow2_bits_low|].
    replace f with (f mod 2 ^ 12) by (apply Z.mod_small; change (2 ^ 12) with 4096; lia).
    rewrite (Z.mod_pow2_bits_high f) ?andb_false_r //. lia. }
  by rewrite -Z.lxor_lor // -Z.add_nocarry_lxor.
Qed.

Lemma K2P_range p : page_addr p → K2P p = p - KSPACE_MASK ∧ 0 ≤ K2P p < 2 ^ 40 ∧ K2P p mod 4096 = 0.
Proof.
  intros Hp. pose proof (K2P_page p Hp) as HK. destruct Hp as [Hm Hr]. rewrite HK. split_and!; [done|lia|lia|].
  rewrite /KSPACE_MASK in Hr |- *. dlia.
Qed.

(** An entry for page [p] with flags [f]. *)
Lemma entry_page p f : page_addr p → 0 ≤ f < 4096 →
  Z.lor (K2P p) f = K2P p + f ∧ P2K (PTE_ADDRESS (K2P p + f)) = p.
Proof.
  intros Hp Hf. destruct (K2P_range p Hp) as (HK & Hr & Hm). split; [apply lor_low; lia|].
  rewrite PTE_ADDRESS_base; [change (2 ^ 48) with 281474976710656; change (2 ^ 40) with 1099511627776 in Hr; lia|].
  rewrite /P2K /u64 wrap_small; [|dlia]. rewrite /KSPACE_MASK.
  change (2 ^ 40) with 1099511627776 in Hr. split; [|change (2 ^ 64) with 18446744073709551616]; dlia.
Qed.

Lemma entry_valid p : page_addr p → Z.land (K2P p + PTE_TABLE) PTE_VALID = 1.
Proof.
  intros Hp. destruct (K2P_range p Hp) as (_ & _ & Hm). rewrite /PTE_VALID /PTE_TABLE.
  change 1 with (Z.ones 1) at 1. rewrite Z.land_ones //. change (2 ^ 1) with 2. dlia.
Qed.

Lemma part_range va m k : Z.land va (Z.shiftl (Z.ones 9) k) = m → 0 ≤ k → 0 ≤ Z.shiftr m k < 512.
Proof.
  intros <- Hk. rewrite Z.shiftr_land Z.shiftr_shiftl_l // Z.sub_diag Z.shiftl_0_r Z.land_ones //.
  apply Z.mod_pos_bound. done.
Qed.
Lemma VA_PART0_range va : 0 ≤ VA_PART0 va < 512.
Proof. by apply (part_range va). Qed.
Lemma VA_PART1_range va : 0 ≤ VA_PART1 va < 512.
Proof. by apply (part_range va). Qed.
Lemma VA_PART2_range va : 0 ≤ VA_PART2 va < 512.
Proof. by apply (part_range va). Qed.
Lemma VA_PART3_range va : 0 ≤ VA_PART3 va < 512.
Proof. by apply (part_range va). Qed.
#[export] Hint Resolve VA_PART0_range VA_PART1_range VA_PART2_range VA_PART3_range : core.

(** Words of different pages, and different words of a page, are different. *)
Lemma word_inj p q i j :
  page_addr p → page_addr q → 0 ≤ i < 512 → 0 ≤ j < 512 → p + 8 * i = q + 8 * j → p = q ∧ i = j.
Proof. intros [Hp _] [Hq _] Hi Hj E. dlia. Qed.

Lemma zero_words_lookup p w a :
  zero_words p w !! a = if decide (a ∈ words_of (page_region p)) then Some 0 else w !! a.
Proof.
  rewrite /zero_words. induction (words_of (page_region p)) as [|b l IH]; cbn [foldr].
  - case_decide as H; [by apply elem_of_nil in H|done].
  - destruct (decide (a = b)) as [->|Hne].
    + rewrite lookup_insert_eq decide_True //. by left.
    + rewrite lookup_insert_ne; [congruence|]. rewrite IH. repeat case_decide; try done; set_solver.
Qed.

Lemma elem_page_words p a : a ∈ words_of (page_region p) ↔ ∃ i, 0 ≤ i < 512 ∧ a = p + 8 * i.
Proof.
  rewrite /words_of list_elem_of_fmap. split.
  - intros (i & -> & Hi%elem_of_seqZ). exists i. simpl in *. split; [lia|done].
  - intros (i & Hi & ->). exists i. split; [done|]. apply elem_of_seqZ. simpl. lia.
Qed.

Lemma zero_words_in p w i : 0 ≤ i < 512 → zero_words p w !! (p + 8 * i) = Some 0.
Proof. intros Hi. rewrite zero_words_lookup decide_True //. apply elem_page_words. eauto. Qed.
Lemma zero_words_out p w a : (∀ i, 0 ≤ i < 512 → a ≠ p + 8 * i) → zero_words p w !! a = w !! a.
Proof. intros Ha. rewrite zero_words_lookup decide_False //. intros (i & Hi & ->)%elem_page_words. by apply (Ha i). Qed.

(** ** The zero page ([kernel/mem.c])

    [zero_page_ptr] is the page [init_zero_page] returns; [check_zero_page] reads the page
    byte by byte, a word holding its bytes least significant first. *)
Definition init_zero_page : M vmem Z :=
  zero_page_ptr ← on_mm kalloc_page;
  zero_page zero_page_ptr;;
  refs ← gets (λ s, pages_ref (mm s));
  pg ← of_opt (refs !! page_num_of zero_page_ptr);
  on_mm (modify (set_pages_ref (<[page_num_of zero_page_ptr := mkPage (mkRC 1) (ref_lock pg)]> refs)));;
  mret zero_page_ptr.
Definition load8 (a : Z) : M vmem Z :=
  w ← load64 (a - a mod 8); mret (Z.land (Z.shiftr w (8 * (a mod 8))) 255).
(** [n] bytes are left, from address [a] on. *)
Fixpoint check_zero_loop (n : nat) (a : Z) : M vmem bool :=
  match n with
  | O => mret true
  | S n => c ← load8 a; if negb (c =? 0) then mret false else check_zero_loop n (a + 1)
  end.
Definition check_zero_page (zero_page_ptr : Z) : M vmem bool := check_zero_loop (Z.to_nat PAGE_SIZE) zero_page_ptr.

Lemma load8_run s a w :
  words (mm s) !! (a - a mod 8) = Some w → load8 a s = Ret (Z.land (Z.shiftr w (8 * (a mod 8))) 255) s.
Proof. intros Hw. by rewrite /load8 /load64 /mbind /M_bind /gets Hw. Qed.

(** The check says whether every byte of the page is zero. *)
Lemma check_zero_loop_spec s n : ∀ a,
  (∀ k, a ≤ k < a + Z.of_nat n → ∃ c, load8 k s = Ret c s) →
  ∃ b : bool, check_zero_loop n a s = Ret b s ∧ (b = true ↔ ∀ k, a ≤ k < a + Z.of_nat n → load8 k s = Ret 0 s).
Proof.
  induction n as [|n IH]; intros a Hl.
  { exists true. split; [done|]. split; [|done]. intros _ k Hk. lia. }
  destruct (Hl a) as [c Hc]; [lia|]. cbn [check_zero_loop]. rewrite (bind_run _ _ _ _ _ Hc).
  destruct (Z.eqb_spec c 0) as [->|Hne]; cbn [negb].
  - destruct (IH (a + 1)) as (b & Hb & Hiff); [intros k Hk; apply Hl; lia|]. exists b. split; [done|].
    rewrite Hiff. split; intros H k Hk; [|apply H; lia]. destruct (decide (k = a)) as [->|]; [done|apply H; lia].
  - exists false. split; [done|]. split; [done|]. intros H. rewrite H in Hc; [lia|]. congruence.
Qed.
Lemma check_zero_page_true s p :
  p mod 8 = 0 → (∀ i, 0 ≤ i < 512 → words (mm s) !! (p + 8 * i) = Some 0) → check_zero_page p s = Ret true s.
Proof.
  intros Hp Hz. assert (Hl : ∀ k, p ≤ k < p + Z.of_nat (Z.to_nat PAGE_SIZE) → load8 k s = Ret 0 s).
  { rewrite Z2Nat.id; [done|]. rewrite /PAGE_SIZE. intros k Hk. rewrite (load8_run s k 0); [|by rewrite Z.shiftr_0_l].
    replace (k - k mod 8) with (p + 8 * ((k - p) / 8)) by dlia. apply Hz. dlia. }
  destruct (check_zero_loop_spec s (Z.to_nat PAGE_SIZE) p) as (b & Hb & Hiff); [eauto|].
  by rewrite /check_zero_page Hb (proj2 Hiff Hl).
Qed.

(** Clearing a page in use touches no header of a block. *)
Lemma mem_inv_zero_page m lb lp p :
  mem_inv m lb lp → p ∈ lp → mem_inv (set_words (zero_words p (words m)) m) lb lp.
Proof.
  intros (H1 & H2 & H3 & Hnd & H5 & H6 & Hlb & H8) Hp. split_and!; try done.
  rewrite !Forall_forall in Hlb |- *. intros r Hr. destruct (Hlb r Hr) as (Hr2 & Hw & Hpage). split_and!; try done; try lia.
  simpl. rewrite zero_words_lookup decide_False // => Hin.
  rewrite /all_words /regions !bind_app app_assoc app_assoc in Hnd. apply NoDup_app in Hnd as (_ & Hnd & _).
  apply (Hnd r.1).
  - apply elem_of_app. right. apply list_elem_of_bind. exists r. split; [|done].
    destruct r as [b k]. apply elem_words_of. exists 0. simpl in *. split; lia.
  - apply list_elem_of_bind. exists (page_region p). split; [done|]. by apply list_elem_of_fmap_2.
Qed.

(** The reference count of a page in use is free to change. *)
Lemma mem_inv_ref m lb lp p pg :
  mem_inv m lb (p :: lp) → ref_lock pg = false →
  mem_inv (set_pages_ref (<[page_num_of p := pg]> (pages_ref m)) m) lb (p :: lp).
Proof.
  intros Hinv Hlk. pose proof Hinv as (H1 & H2 & H3 & Hnd & H5 & [Hpok H6]%Forall_cons & Hlb & H8).
  set (m' := set_pages_ref _ m).
  assert (Hother : ∀ q P, page_region q ∈ regions m lb lp → page_ok m q P → page_ok m' q P).
  { intros q P Hq. apply (page_ok_other m m' p q P in_use pg); [done..|].
    exact (page_used_fresh _ _ _ _ _ _ Hinv (regions_lp m lb p lp) Hq). }
  rewrite !Forall_forall in H5 H6 Hlb. pose proof Hpok as (_ & _ & _ & pg0 & Hpg0 & _).
  split_and!; try done; [..|exact (null_page_none m lb (p :: lp) p pg0 _ Hinv Hpg0)]; [|apply Forall_cons_2|];
    [..|by apply (page_ok_same m m' p in_use pg)| |]; apply Forall_forall.
  - intros q Hq. apply Hother; [|by apply H5]. rewrite /regions !elem_of_app. left. by apply list_elem_of_fmap_2.
  - intros q Hq. apply Hother; [|by apply H6]. rewrite /regions !elem_of_app. right; right; right. by apply list_elem_of_fmap_2.
  - intros [b k] Hr. destruct (Hlb _ Hr) as (? & ? & Hpage). split_and!; try done; try lia. simpl. intros ->.
    apply Hother; [|by apply Hpage]. rewrite /regions !elem_of_app. by right; right; left.
Qed.

(** After the initialisation the zero page is a page in use with one reference, the
    allocator is consistent, and [check_zero_page] succeeds. *)
Lemma init_zero_page_checks s lb lp p ps :
  mem_inv (mm s) lb lp → pages (mm s) = p :: ps →
  ∃ s', init_zero_page s = Ret p s' ∧ mem_inv (mm s') lb (p :: lp) ∧ pages (mm s') = ps ∧
    pages_ref (mm s') !! page_num_of p = Some (mkPage (mkRC 1) false) ∧
    check_zero_page p s' = Ret true s'.
Proof.
  intros Hinv Hp. pose proof Hinv as (_ & _ & _ & _ & Hps & _). rewrite Hp in Hps.
  apply Forall_cons in Hps as [(Hal & Hrange & Hb & pg & Hpg & _) _].
  destruct (kalloc_page_spec (mm s) lb lp p ps Hinv Hp) as (m1 & Hrun & Hinv1 & _).
  rewrite (kalloc_page_run _ p ps pg Hp Hpg) in Hrun. injection Hrun as E1.
  pose proof (mem_inv_zero_page m1 lb (p :: lp) p Hinv1 ltac:(by left)) as Hinv2.
  set (m2 := set_words (zero_words p (words m1)) m1) in *.
  assert (Hpg2 : pages_ref m2 !! page_num_of p = Some (mkPage (mkRC 0) false)).
  { rewrite /m2 -E1 /=. by rewrite lookup_insert_eq. }
  exists (set_mm (set_pages_ref (<[page_num_of p := mkPage (mkRC 1) false]> (pages_ref m2)) m2) s).
  split_and!.
  - rewrite /init_zero_page. rewrite (bind_run _ _ _ p (set_mm m1 s)); [rewrite /on_mm (kalloc_page_run _ p ps pg Hp Hpg) -E1 //|].
    rewrite (bind_run _ _ _ () (set_mm m2 s)); [done|]. erewrite bind_run; [|reflexivity].
    erewrite bind_run; [|apply of_opt_run; exact Hpg2]. done.
  - by apply mem_inv_ref.
  - by rewrite /m2 -E1.
  - simpl. by rewrite lookup_insert_eq.
  - apply check_zero_page_true.
    + rewrite /PAGE_SIZE in Hal. dlia.
    + intros k Hk. by apply zero_words_in.
Qed.

(** ** The tree of tables *)

(** The table reached from table [t] through the entries [path]. *)
Fixpoint table_at (w : gmap Z Z) (t : Z) (path : list Z) : option Z :=
  match path with
  | [] => Some t
  | i :: path =>
      e ← w !! (t + 8 * i);
      if Z.land e PTE_VALID =? 0 then None else table_at w (P2K (PTE_ADDRESS e)) path
  end.

Definition indices (path : list Z) : Prop := Forall (λ i, 0 ≤ i < 512) path.
Definition path_ok (path : list Z) : Prop := (length path ≤ 3)%nat ∧ indices path.

Lemma va_path_ok va : path_ok [VA_PART0 va; VA_PART1 va; VA_PART2 va].
Proof.
  split; [simpl; lia|]. rewrite /indices. apply Forall_cons_2; [exact (VA_PART0_range va)|].
  apply Forall_cons_2; [exact (VA_PART1_range va)|]. apply Forall_cons_2; [exact (VA_PART2_range va)|]. apply Forall_nil_2.
Qed.

(** The entry for [va], 0 when there is no table for it. *)
Definition pte_of (w : gmap Z Z) (root va : Z) : Z :=
  default 0 (t ← table_at w root [VA_PART0 va; VA_PART1 va; VA_PART2 va]; w !! (t + 8 * VA_PART3 va)).

(** The tables are pages in use, each reached on one path only. *)
Record tree_ok (m : mstate) (root : Z) : Prop := {
  to_inj π π' t : path_ok π → path_ok π' → table_at (words m) root π = Some t → table_at (words m) root π' = Some t → π = π';
  to_page π t : path_ok π → table_at (words m) root π = Some t →
    page_addr t ∧ t ∉ pages m ∧ ∀ i, 0 ≤ i < 512 → is_Some (words m !! (t + 8 * i));
  to_free : NoDup (pages m) ∧ Forall (λ p, page_addr p ∧ is_Some (pages_ref m !! page_num_of p)) (pages m) }.

Lemma table_at_app w t π ρ : table_at w t (π ++ ρ) = t' ← table_at w t π; table_at w t' ρ.
Proof.
  revert t. induction π as [|i π IH]; intros t; simpl; [done|].
  destruct (w !! (t + 8 * i)) as [e|]; simpl; [|done]. destruct (_ =? 0); [done|apply IH].
Qed.

(** Only the entries along the path matter. *)
Lemma table_at_agree w w' t ρ :
  (∀ π i σ t', ρ = π ++ i :: σ → table_at w t π = Some t' → w' !! (t' + 8 * i) = w !! (t' + 8 * i)) →
  table_at w' t ρ = table_at w t ρ.
Proof.
  revert t. induction ρ as [|i ρ IH]; intros t H; [done|]. simpl. rewrite (H [] i ρ t) //.
  destruct (w !! (t + 8 * i)) as [e|] eqn:E; simpl; [|done]. destruct (Z.land e PTE_VALID =? 0) eqn:Ev; [done|].
  apply IH. intros π j σ t' -> Ht. apply (H (i :: π) j σ t'); [done|]. simpl. by rewrite E /= Ev.
Qed.

Lemma path_prefix ρ σ j : path_ok (ρ ++ j :: σ) → path_ok ρ ∧ 0 ≤ j < 512.
Proof.
  rewrite /path_ok /indices length_app Forall_app Forall_cons /=. intros (? & ? & ? & ?). split; [split; [lia|done]|done].
Qed.

(** A free page hangs under entry [i] of the table at [π]. *)
Section new_table.
Context (m m' : mstate) (root : Z) (π : list Z) (t i p : Z).
Context (T : tree_ok m root) (Hπ : path_ok π) (Ht : table_at (words m) root π = Some t) (Hi : 0 ≤ i < 512).
Context (Hlen : (length π ≤ 2)%nat) (Hp : page_addr p) (Hfree : p ∈ pages m).
Context (Hinv : table_at (words m) root (π ++ [i]) = None).
Context (Hw : words m' = <[t + 8 * i := K2P p + PTE_TABLE]> (zero_words p (words m))).

Lemma new_table_word π' t' j : path_ok π' → 0 ≤ j < 512 → table_at (words m) root π' = Some t' →
  (π', j) ≠ (π, i) → words m' !! (t' + 8 * j) = words m !! (t' + 8 * j).
Proof.
  intros Hπ' Hj Ht' Hne. destruct (to_page _ _ T _ _ Hπ' Ht') as (Hpa & Hnf & _).
  destruct (to_page _ _ T _ _ Hπ Ht) as (Hpa0 & _ & _). rewrite Hw lookup_insert_ne.
  - intros E. apply word_inj in E as [-> ->]; [|done..].
    apply Hne. f_equal. exact (to_inj _ _ T _ _ _ Hπ' Hπ Ht' Ht).
  - apply zero_words_out. intros k Hk E. apply word_inj in E as [-> _]; done.
Qed.

(** Where [ρ] leads afterwards. *)
Lemma new_table_at_old ρ : path_ok ρ → (∀ σ, ρ ≠ π ++ i :: σ) → table_at (words m') root ρ = table_at (words m) root ρ.
Proof.
  intros Hρ Hne. apply table_at_agree. intros π' j σ t' -> Ht'.
  destruct (path_prefix _ _ _ Hρ) as [Hπ' Hj]. apply (new_table_word π'); [done|done|done|].
  intros [= -> ->]. by apply (Hne σ).
Qed.

Lemma new_table_at_new σ : table_at (words m') root (π ++ i :: σ) = table_at (words m') p σ.
Proof.
  rewrite table_at_app new_table_at_old //.
  { intros σ' E. apply (f_equal length) in E. rewrite length_app /= in E. lia. }
  rewrite Ht /= Hw lookup_insert_eq /= entry_valid //. by rewrite (proj2 (entry_page p PTE_TABLE Hp ltac:(done))).
Qed.

Lemma new_table_children j σ : 0 ≤ j < 512 → table_at (words m') p (j :: σ) = None.
Proof.
  intros Hj. destruct (to_page _ _ T _ _ Hπ Ht) as (Hpa0 & Hnf & _).
  simpl. rewrite Hw lookup_insert_ne; [|by rewrite zero_words_in].
  intros E. apply word_inj in E as [-> _]; done.
Qed.

Lemma new_table_at ρ t' : path_ok ρ → table_at (words m') root ρ = Some t' →
  (ρ = π ++ [i] ∧ t' = p) ∨ (table_at (words m) root ρ = Some t' ∧ t' ≠ p ∧ ∀ σ, ρ ≠ π ++ i :: σ).
Proof.
  intros Hρ Ht'.
  destruct (decide (take (S (length π)) ρ = π ++ [i])) as [E|E].
  - rewrite -(take_drop (S (length π)) ρ) E -app_assoc /= in Ht', Hρ |- *. rewrite new_table_at_new in Ht'.
    destruct (drop (S (length π)) ρ) as [|j σ]; [left; by simplify_eq/=|].
    rewrite new_table_children // in Ht'.
    destruct Hρ as [_ Hρ]. apply Forall_app in Hρ as [_ Hρ]. by apply Forall_cons in Hρ as [_ [? _]%Forall_cons].
  - assert (Hne : ∀ σ, ρ ≠ π ++ i :: σ).
    { intros σ ->. apply E. rewrite cons_middle app_assoc take_app_length' // length_app /=. lia. }
    right. rewrite new_table_at_old // in Ht'. split_and!; [done| |done].
    intros ->. by destruct (to_page _ _ T _ _ Hρ Ht') as (_ & ? & _).
Qed.

Lemma new_table_tree : pages m = p :: pages m' → (∀ q, q ∈ pages m' → is_Some (pages_ref m' !! page_num_of q)) → tree_ok m' root.
Proof.
  intros Hps Hrefs. destruct (to_free _ _ T) as [Hnd Hall]. rewrite Hps in Hnd, Hall.
  apply NoDup_cons in Hnd as [Hpn Hnd]. apply Forall_cons in Hall as [_ Hall]. split.
  - intros ρ ρ' t' Hρ Hρ' H1 H2.
    destruct (new_table_at ρ t' Hρ H1) as [[-> ->]|(H1' & Hne & _)];
      destruct (new_table_at ρ' _ Hρ' H2) as [[-> E]|(H2' & Hne' & _)]; try done.
    exact (to_inj _ _ T _ _ _ Hρ Hρ' H1' H2').
  - intros ρ t' Hρ H1. destruct (new_table_at ρ t' Hρ H1) as [[-> ->]|(H1' & Hne & Hne')].
    + split_and!; [done|done|]. intros j Hj. rewrite Hw.
      apply lookup_insert_is_Some'. right. rewrite zero_words_in //.
    + destruct (to_page _ _ T _ _ Hρ H1') as (Hpa & Hnf & Hsome). rewrite Hps in Hnf.
      split_and!; [done|set_solver|]. intros j Hj. rewrite Hw. apply lookup_insert_is_Some'. right.
      rewrite zero_words_lookup. case_decide; [done|]. by apply Hsome.
  - split; [done|]. apply Forall_forall. intros q Hq. rewrite Forall_forall in Hall.
    split; [by apply Hall|by apply Hrefs].
Qed.

(** Nothing is mapped or unmapped. *)
Lemma new_table_pte va : pte_of (words m') root va = pte_of (words m) root va.
Proof.
  rewrite /pte_of. set (ρ := [VA_PART0 va; VA_PART1 va; VA_PART2 va]).
  assert (Hρ : path_ok ρ) by exact (va_path_ok va).
  destruct (table_at (words m') root ρ) as [t'|] eqn:E'.
  - destruct (new_table_at ρ t' Hρ E') as [[Eρ ->]|(E & Hne & Hne')].
    + destruct (to_page _ _ T _ _ Hπ Ht) as (Hpa0 & Hnf & _).
      rewrite Eρ Hinv /= Hw lookup_insert_ne; [|by rewrite zero_words_in].
      intros E. apply word_inj in E as [-> _]; done.
    + rewrite E /=. f_equal. apply (new_table_word ρ); [done|done|done|].
      intros [= Eρ _]. pose proof Hlen as Hl. rewrite -Eρ /= in Hl. lia.
  - destruct (table_at (words m) root ρ) as [t'|] eqn:E; [|done].
    exfalso. assert (Hne : ∀ σ, ρ ≠ π ++ i :: σ).
    { intros σ Eρ. rewrite Eρ cons_middle app_assoc table_at_app Hinv in E. done. }
    rewrite new_table_at_old // in E'. congruence.
Qed.
End new_table.

(** From [m] to [m'] at most [n] pages became tables, and no mapping changed. *)
Record grown (m m' : mstate) (root : Z) (n : nat) : Prop := {
  gr_tree : tree_ok m' root;
  gr_pte va : pte_of (words m') root va = pte_of (words m) root va;
  gr_pages : ∃ l, pages m = l ++ pages m' ∧ (length l ≤ n)%nat;
  gr_old ρ t : path_ok ρ → table_at (words m) root ρ = Some t → table_at (words m') root ρ = Some t;
  gr_new ρ t : path_ok ρ → table_at (words m') root ρ = Some t → table_at (words m) root ρ = Some t ∨ t ∈ pages m;
  gr_refs k : (∀ q, q ∈ pages m → k ≠ page_num_of q) → pages_ref m' !! k = pages_ref m !! k;
  gr_frame a : (∀ q j, q ∈ pages m → 0 ≤ j < 512 → a ≠ q + 8 * j) →
    (∀ ρ t j, path_ok ρ → table_at (words m) root ρ = Some t → 0 ≤ j < 512 → a ≠ t + 8 * j) →
    words m' !! a = words m !! a;
  gr_dom a : is_Some (words m !! a) → is_Some (words m' !! a);
  gr_kend : kend m' = kend m }.

Lemma grown_refl m root n : tree_ok m root → grown m m root n.
Proof. intros T. split; try done; [exists []; split; [done|simpl; lia]|by left]. Qed.

Lemma grown_trans m1 m2 m3 root n k : grown m1 m2 root n → grown m2 m3 root k → grown m1 m3 root (n + k).
Proof.
  intros G1 G2. destruct (gr_pages _ _ _ _ G1) as (l1 & P1 & L1). destruct (gr_pages _ _ _ _ G2) as (l2 & P2 & L2).
  assert (Hsub : ∀ q, q ∈ pages m2 → q ∈ pages m1) by (intros q Hq; rewrite P1; apply elem_of_app; by right).
  split.
  - apply G2.
  - intros va. rewrite (gr_pte _ _ _ _ G2). apply G1.
  - exists (l1 ++ l2). rewrite P1 P2 app_assoc length_app. split; [done|lia].
  - intros ρ t Hρ Ht. apply (gr_old _ _ _ _ G2 ρ t Hρ). by apply (gr_old _ _ _ _ G1).
  - intros ρ t Hρ Ht. destruct (gr_new _ _ _ _ G2 ρ t Hρ Ht) as [Ht'|]; [|by right; apply Hsub].
    by apply (gr_new _ _ _ _ G1).
  - intros j Hj. rewrite (gr_refs _ _ _ _ G2); [|by apply (gr_refs _ _ _ _ G1)]. intros q Hq. by apply Hj, Hsub.
  - intros a Ha1 Ha2. rewrite (gr_frame _ _ _ _ G2); [|..|by apply (gr_frame _ _ _ _ G1)].
    + intros q j Hq Hj. by apply Ha1; [apply Hsub|].
    + intros ρ t j Hρ Ht Hj. destruct (gr_new _ _ _ _ G1 ρ t Hρ Ht) as [Ht'|Hq]; [by apply (Ha2 ρ t)|by apply Ha1].
  - intros a Ha. apply (gr_dom _ _ _ _ G2). by apply (gr_dom _ _ _ _ G1).
  - rewrite (gr_kend _ _ _ _ G2). apply (gr_kend _ _ _ _ G1).
Qed.

Lemma page_num_inj_addr p q : page_addr p → page_addr q → page_num_of p = page_num_of q → p = q.
Proof.
  intros Hp Hq. rewrite /page_num_of. destruct (K2P_range p Hp) as (E1 & _ & H1). destruct (K2P_range q Hq) as (E2 & _ & H2).
  rewrite /PAGE_SIZE. intros E. assert (K2P p = K2P q) by dlia. lia.
Qed.

(** [next_table] with allocation: the next table is there afterwards. *)
Lemma next_table_alloc s root π t i :
  tree_ok (mm s) root → path_ok π → (length π ≤ 2)%nat → table_at (words (mm s)) root π = Some t → 0 ≤ i < 512 →
  pages (mm s) ≠ [] →
  ∃ t' m', next_table t i true s = Ret (Some t') (set_mm m' s) ∧ grown (mm s) m' root 1 ∧
    table_at (words m') root (π ++ [i]) = Some t' ∧ path_ok (π ++ [i]).
Proof.
  intros T Hπ Hlen Ht Hi Hpg. set (m := mm s) in *.
  assert (Hπi : path_ok (π ++ [i])).
  { destruct Hπ as [_ Hx]. split; [rewrite length_app /=; lia|]. apply Forall_app. split; [done|]. by apply Forall_singleton. }
  destruct (to_page _ _ T _ _ Hπ Ht) as (Hpa & Hnf & Hsome). destruct (Hsome i Hi) as [e He].
  rewrite /next_table. erewrite bind_run; [|rewrite /load64; erewrite bind_run; [|reflexivity]; exact (of_opt_run _ _ _ He)].
  destruct (Z.eqb_spec (Z.land e PTE_VALID) 0) as [Ev|Ev]; last first.
  { exists (P2K (PTE_ADDRESS e)), m. split; [by destruct s|]. split; [by apply grown_refl|]. split; [|done].
    rewrite table_at_app Ht /= He /= (proj2 (Z.eqb_neq _ _) Ev) //. }
  destruct (pages m) as [|p ps] eqn:Hps; [done|].
  destruct (to_free _ _ T) as [Hnd Hall]. rewrite Hps in Hnd, Hall.
  apply NoDup_cons in Hnd as [Hpn Hnd]. apply Forall_cons in Hall as [[Hpp [pg Hpg']] Hall].
  pose proof (kalloc_page_run m p ps pg Hps Hpg') as Hk.
  set (m1 := mkMem ps (free_mem m) _ _ _ _ _ _) in Hk.
  set (m2 := set_words (zero_words p (words m)) m1).
  set (m3 := set_words (<[t + 8 * i := K2P p + PTE_TABLE]> (words m2)) m2).
  assert (Hinv : table_at (words m) root (π ++ [i]) = None) by rewrite table_at_app Ht /= He /= Ev //.
  assert (Hfree : p ∈ pages m) by (rewrite Hps; by left).
  assert (Hw : words m3 = <[t + 8 * i := K2P p + PTE_TABLE]> (zero_words p (words m))) by done.
  assert (Hrefs : ∀ k, k ≠ page_num_of p → pages_ref m3 !! k = pages_ref m !! k).
  { intros k Hk'. simpl. rewrite lookup_insert_ne; [congruence|done]. }
  assert (He2 : words m2 !! (t + 8 * i) = Some e).
  { simpl. rewrite zero_words_out //. intros k Hk' E. apply word_inj in E as [-> _]; [|done..]. apply Hnf. by left. }
  exists p, m3. split; [|split; [|split; [|done]]].
  - erewrite bind_run; [|rewrite /new_table; erewrite bind_run; [|rewrite /on_mm Hk; reflexivity]; reflexivity].
    erewrite bind_run; [reflexivity|]. rewrite /store64. erewrite bind_run; [|reflexivity].
    change (words (mm (set_mm m2 (set_mm m1 s)))) with (words m2).
    erewrite bind_run; [|exact (of_opt_run _ _ _ He2)].
    rewrite (proj1 (entry_page p PTE_TABLE Hpp ltac:(done))). done.
  - split.
    + eapply (new_table_tree m m3 root π t i p); try done. intros q Hq. rewrite Forall_forall in Hall.
      destruct (Hall q Hq) as [Hqa Hqs]. rewrite Hrefs //.
      intros E. apply page_num_inj_addr in E as ->; done.
    + intros va. by eapply (new_table_pte m m3 root π t i p).
    + exists [p]. split; [done|simpl; lia].
    + intros ρ t' Hρ Ht'. rewrite (new_table_at_old m m3 root π t i p) //.
      intros σ ->. rewrite cons_middle app_assoc table_at_app Hinv in Ht'. done.
    + intros ρ t' Hρ Ht'. destruct (new_table_at m m3 root π t i p T Hπ Ht Hi Hlen Hpp Hfree Hinv Hw ρ t' Hρ Ht') as [[_ ->]|[? _]];
        [by right|by left].
    + intros k Hk'. apply Hrefs. by apply Hk'.
    + intros a Ha1 Ha2. rewrite Hw lookup_insert_ne; [by apply not_eq_sym, (Ha2 π t)|]. apply zero_words_out. intros j Hj. by apply Ha1.
    + intros a Ha. rewrite Hw. apply lookup_insert_is_Some'. right. rewrite zero_words_lookup. case_decide; [done|exact Ha].
    + done.
  - rewrite (new_table_at_new m m3 root π t i p) //.
Qed.

(** The page a virtual address is on, of the 36 bits the walk uses. *)
Definition va_page (va : Z) : Z := (va / 4096) mod 2 ^ 36.

Lemma part_eq va m k : m = Z.shiftl (Z.ones 9) k → 0 ≤ k → Z.shiftr (Z.land va m) k = (va / 2 ^ k) mod 512.
Proof.
  intros -> Hk. rewrite Z.shiftr_land Z.shiftr_shiftl_l // Z.sub_diag Z.shiftl_0_r Z.land_ones // Z.shiftr_div_pow2 //.
Qed.

Lemma same_page va va' :
  VA_PART0 va = VA_PART0 va' ∧ VA_PART1 va = VA_PART1 va' ∧ VA_PART2 va = VA_PART2 va' ∧ VA_PART3 va = VA_PART3 va' ↔
  va_page va = va_page va'.
Proof.
  assert (E : ∀ v, va_page v = VA_PART3 v + 512 * (VA_PART2 v + 512 * (VA_PART1 v + 512 * VA_PART0 v))).
  { intros v. rewrite /VA_PART0 /VA_PART1 /VA_PART2 /VA_PART3 /va_page.
    rewrite (part_eq v _ 39) // (part_eq v _ 30) // (part_eq v _ 21) // (part_eq v _ 12) //.
    change (2 ^ 36) with 68719476736. change (2 ^ 39) with 549755813888. change (2 ^ 30) with 1073741824.
    change (2 ^ 21) with 2097152. change (2 ^ 12) with 4096. dlia. }
  rewrite !E. split; [intros (-> & -> & -> & ->); done|]. intros H.
  pose proof (VA_PART0_range va). pose proof (VA_PART1_range va). pose proof (VA_PART2_range va). pose proof (VA_PART3_range va).
  pose proof (VA_PART0_range va'). pose proof (VA_PART1_range va'). pose proof (VA_PART2_range va'). pose proof (VA_PART3_range va').
  lia.
Qed.

Lemma pages_left m m' root n k : grown m m' root n → (n + k ≤ length (pages m))%nat → (k ≤ length (pages m'))%nat.
Proof. intros G H. destruct (gr_pages _ _ _ _ G) as (l & E & L). rewrite E length_app in H. lia. Qed.

Lemma nonempty_pages m : (1 ≤ length (pages m))%nat → pages m ≠ [].
Proof. by destruct (pages m); simpl; [lia|]. Qed.

Lemma get_pte_alloc s va :
  tree_ok (mm s) (pt (pd s)) → pt (pd s) ≠ 0 → (3 ≤ length (pages (mm s)))%nat →
  ∃ t3 m', get_pte va true s = Ret (Some (t3 + 8 * VA_PART3 va)) (set_mm m' s) ∧ grown (mm s) m' (pt (pd s)) 3 ∧
    table_at (words m') (pt (pd s)) [VA_PART0 va; VA_PART1 va; VA_PART2 va] = Some t3.
Proof.
  intros T Hroot Hpg. set (root := pt (pd s)) in *.
  destruct (next_table_alloc s root [] root (VA_PART0 va) T) as (t1 & m1 & R1 & G1 & A1 & P1);
    [split; [simpl; lia|by apply Forall_nil_2]|simpl; lia|done|done|apply nonempty_pages; lia|].
  destruct (next_table_alloc (set_mm m1 s) root [VA_PART0 va] t1 (VA_PART1 va) (gr_tree _ _ _ _ G1) P1) as
    (t2 & m2 & R2 & G2 & A2 & P2); [simpl; lia|done|done|apply nonempty_pages, (pages_left _ _ _ _ _ G1); lia|].
  pose proof (grown_trans _ _ _ _ _ _ G1 G2) as G12.
  destruct (next_table_alloc (set_mm m2 s) root [VA_PART0 va; VA_PART1 va] t2 (VA_PART2 va) (gr_tree _ _ _ _ G2) P2) as
    (t3 & m3 & R3 & G3 & A3 & P3); [simpl; lia|done|done|apply nonempty_pages, (pages_left _ _ _ _ _ G12); lia|].
  exists t3, m3. split; [|split; [exact (grown_trans _ _ _ _ _ _ G12 G3)|exact A3]].
  rewrite /get_pte. erewrite bind_run; [|reflexivity]. fold root. rewrite (proj2 (Z.eqb_neq _ _) Hroot).
  erewrite bind_run; [|reflexivity]. cbv beta iota delta [negb]. erewrite bind_run; [|reflexivity]. fold root.
  erewrite bind_run; [|exact R1]. cbv beta iota. erewrite bind_run; [|exact R2]. cbv beta iota.
  erewrite bind_run; [|exact R3]. done.
Qed.

(** Without allocation the state stays and the entry is found when its tables are
    there. *)
Lemma next_table_read s root π t i :
  tree_ok (mm s) root → path_ok π → table_at (words (mm s)) root π = Some t → 0 ≤ i < 512 →
  next_table t i false s = Ret (table_at (words (mm s)) root (π ++ [i])) s.
Proof.
  intros T Hπ Ht Hi. destruct (to_page _ _ T _ _ Hπ Ht) as (_ & _ & Hsome). destruct (Hsome i Hi) as [e He].
  rewrite /next_table. erewrite bind_run; [|rewrite /load64; erewrite bind_run; [|reflexivity]; exact (of_opt_run _ _ _ He)].
  rewrite table_at_app Ht /= He /=. by destruct (Z.land e PTE_VALID =? 0).
Qed.

Lemma get_pte_read s va :
  tree_ok (mm s) (pt (pd s)) → pt (pd s) ≠ 0 →
  get_pte va false s =
    Ret ((λ t3, t3 + 8 * VA_PART3 va) <$> table_at (words (mm s)) (pt (pd s)) [VA_PART0 va; VA_PART1 va; VA_PART2 va]) s.
Proof.
  intros T Hroot. set (root := pt (pd s)) in *. destruct (va_path_ok va) as [_ Hidx].
  rewrite /get_pte. erewrite bind_run; [|reflexivity]. fold root. rewrite (proj2 (Z.eqb_neq _ _) Hroot).
  erewrite bind_run; [|reflexivity]. cbv beta iota delta [negb]. erewrite bind_run; [|reflexivity]. fold root.
  erewrite bind_run; [|apply (next_table_read s root [] root); [done|split; [simpl; lia|by apply Forall_nil_2]|done|done]].
  change ([] ++ [VA_PART0 va]) with [VA_PART0 va].
  change [VA_PART0 va; VA_PART1 va; VA_PART2 va] with ([VA_PART0 va] ++ [VA_PART1 va] ++ [VA_PART2 va]).
  rewrite table_at_app. destruct (table_at (words (mm s)) root [VA_PART0 va]) as [t1|] eqn:E1; [|done].
  erewrite bind_run; [|apply (next_table_read s root [VA_PART0 va] t1); [done|split; [simpl; lia|by apply Forall_singleton]|done|done]].
  rewrite table_at_app E1. cbn [mbind option_bind]. rewrite table_at_app.
  destruct (table_at (words (mm s)) t1 [VA_PART1 va]) as [t2|] eqn:E2; [|done].
  assert (E12 : table_at (words (mm s)) root [VA_PART0 va; VA_PART1 va] = Some t2).
  { change [VA_PART0 va; VA_PART1 va] with ([VA_PART0 va] ++ [VA_PART1 va]). by rewrite table_at_app E1. }
  erewrite bind_run; [|apply (next_table_read s root [VA_PART0 va; VA_PART1 va] t2);
    [done|split; [simpl; lia|repeat (apply Forall_cons_2; [done|]); by apply Forall_nil_2]|done|done]].
  rewrite table_at_app E12. cbn [mbind option_bind]. by destruct (table_at (words (mm s)) t2 [VA_PART2 va]).
Qed.

(** Writing a leaf entry changes that mapping only. *)
Section leaf.
Context (m m' : mstate) (root t3 va v : Z).
Context (T : tree_ok m root) (Ht : table_at (words m) root [VA_PART0 va; VA_PART1 va; VA_PART2 va] = Some t3).
Context (Hw : words m' = <[t3 + 8 * VA_PART3 va := v]> (words m)).

Lemma leaf_tables ρ : path_ok ρ → table_at (words m') root ρ = table_at (words m) root ρ.
Proof.
  intros Hρ. apply table_at_agree. intros π j σ t' -> Ht'. destruct (path_prefix _ _ _ Hρ) as [Hπ Hj].
  rewrite Hw lookup_insert_ne //. intros E.
  destruct (to_page _ _ T _ _ (va_path_ok va) Ht) as (Hp3 & _). destruct (to_page _ _ T _ _ Hπ Ht') as (Hp' & _).
  apply word_inj in E as [-> _]; [|done..]. pose proof (to_inj _ _ T _ _ _ Hπ (va_path_ok va) Ht' Ht) as Eπ.
  destruct Hρ as [Hl _]. rewrite Eπ /= in Hl. lia.
Qed.

Lemma leaf_pte va' :
  pte_of (words m') root va' = if decide (va_page va' = va_page va) then v else pte_of (words m) root va'.
Proof.
  rewrite /pte_of leaf_tables; [apply va_path_ok|]. case_decide as E.
  - apply same_page in E as (-> & -> & -> & ->). by rewrite Ht /= Hw lookup_insert_eq.
  - destruct (table_at (words m) root [VA_PART0 va'; VA_PART1 va'; VA_PART2 va']) as [t'|] eqn:Ht'; [|done]. simpl.
    rewrite Hw lookup_insert_ne //. intros E'.
    destruct (to_page _ _ T _ _ (va_path_ok va) Ht) as (Hp3 & _). destruct (to_page _ _ T _ _ (va_path_ok va') Ht') as (Hp' & _).
    apply word_inj in E' as [-> Hp]; [|done..].
    pose proof (to_inj _ _ T _ _ _ (va_path_ok va) (va_path_ok va') Ht Ht') as Eπ. injection Eπ as E0 E1 E2.
    apply E, same_page. split_and!; congruence.
Qed.

Lemma leaf_tree : pages m' = pages m → (∀ k, is_Some (pages_ref m !! k) → is_Some (pages_ref m' !! k)) → tree_ok m' root.
Proof.
  intros Hps Hrefs. destruct T as [Ti Tp [Tn Tf]]. split.
  - intros ρ ρ' t' Hρ Hρ'. rewrite !leaf_tables //. by apply Ti.
  - intros ρ t' Hρ. rewrite leaf_tables // Hps => Ht'. destruct (Tp _ _ Hρ Ht') as (? & ? & Hs). split_and!; [done|done|].
    intros i Hi. rewrite Hw. apply lookup_insert_is_Some'. right. by apply Hs.
  - rewrite Hps. split; [done|]. eapply Forall_impl; [exact Tf|]. intros q [? ?]. split; [done|by apply Hrefs].
Qed.
End leaf.

Lemma store64_run a v s x :
  words (mm s) !! a = Some x → store64 a v s = Ret () (set_mm (set_words (<[a := v]> (words (mm s))) (mm s)) s).
Proof.
  intros Hx. rewrite /store64. erewrite bind_run; [|reflexivity]. erewrite bind_run; [|exact (of_opt_run _ _ _ Hx)]. done.
Qed.
Lemma load64_run a s x : words (mm s) !! a = Some x → load64 a s = Ret x s.
Proof. intros Hx. rewrite /load64. erewrite bind_run; [|reflexivity]. exact (of_opt_run _ _ _ Hx). Qed.

Lemma incr_page_ref_run n m pg :
  pages_ref m !! n = Some pg → ref_lock pg = false →
  incr_page_ref n m = Ret () (set_pages_ref (<[n := mkPage (_increment_rc (ref pg)) false]> (pages_ref m)) m).
Proof.
  intros Hpg Hl. rewrite /incr_page_ref. erewrite bind_run; [|reflexivity].
  erewrite bind_run; [|exact (of_opt_run _ _ _ Hpg)].
  erewrite bind_run; [|rewrite acquire_run /= Hpg /= Hl; reflexivity].
  erewrite bind_run; [|reflexivity]. rewrite release_run /=. f_equal. rewrite /set_pages_ref /=. f_equal.
  apply map_eq. intros k. destruct (decide (k = n)) as [->|Hne].
  - rewrite !lookup_alter_eq lookup_insert_eq Hpg //.
  - rewrite !lookup_alter_ne ?lookup_insert_ne //; congruence.
Qed.

(** The stores of [vmmap], once the entry is found. *)
Definition mapped (m : mstate) (a ka0 flags : Z) (pg : page) : mstate :=
  set_pages_ref (<[page_num_of ka0 := mkPage (_increment_rc (ref pg)) false]> (pages_ref m))
    (set_words (<[a := K2P ka0 + flags]> (words m)) m).
Lemma vmmap_run s s1 va ka flags a e0 pg :
  get_pte va true s = Ret (Some a) s1 → words (mm s1) !! a = Some e0 → page_addr (PAGE_BASE ka) → 0 ≤ flags < 4096 →
  pages_ref (mm s1) !! page_num_of (PAGE_BASE ka) = Some pg → ref_lock pg = false →
  vmmap va ka flags s = Ret () (set_mm (mapped (mm s1) a (PAGE_BASE ka) flags pg) s1).
Proof.
  intros R He0 Hka Hfl Href Hlk. set (ka0 := PAGE_BASE ka) in *. rewrite /vmmap. erewrite bind_run; [|exact R].
  erewrite bind_run; [|reflexivity]. fold ka0. erewrite bind_run; [|exact (store64_run a _ s1 e0 He0)].
  erewrite bind_run; [|apply (load64_run a _ (K2P ka0)); apply lookup_insert_eq].
  erewrite bind_run; [|apply (store64_run a _ _ (K2P ka0)); apply lookup_insert_eq].
  rewrite (proj1 (entry_page ka0 flags Hka Hfl)) /on_mm. fold (page_num_of ka0). simpl mm.
  rewrite /set_mm /set_words /= insert_insert_eq. set (m2 := mkMem _ _ _ _ _ _ _ _).
  rewrite (incr_page_ref_run (page_num_of ka0) m2 pg Href Hlk) //.
Qed.

(** The entry written is the only mapping that changes. *)
Lemma mapped_ok m root va t3 ka0 flags pg :
  tree_ok m root → table_at (words m) root [VA_PART0 va; VA_PART1 va; VA_PART2 va] = Some t3 →
  let m' := mapped m (t3 + 8 * VA_PART3 va) ka0 flags pg in
  tree_ok m' root ∧ table_at (words m') root [VA_PART0 va; VA_PART1 va; VA_PART2 va] = Some t3 ∧
  ∀ va', pte_of (words m') root va' = if decide (va_page va' = va_page va) then K2P ka0 + flags else pte_of (words m) root va'.
Proof.
  intros T Ht m'. split_and!.
  - apply (leaf_tree m m' root t3 va (K2P ka0 + flags)); try done. intros k Hk. by apply lookup_insert_is_Some'; right.
  - rewrite (leaf_tables m m' root t3 va (K2P ka0 + flags)) //. apply va_path_ok.
  - intros va'. by apply (leaf_pte m m' root t3 va).
Qed.

Lemma vmmap_spec s va ka flags pg :
  tree_ok (mm s) (pt (pd s)) → pt (pd s) ≠ 0 → (3 ≤ length (pages (mm s)))%nat →
  page_addr (PAGE_BASE ka) → PAGE_BASE ka ∉ pages (mm s) → 0 ≤ flags < 4096 →
  pages_ref (mm s) !! page_num_of (PAGE_BASE ka) = Some pg → ref_lock pg = false →
  ∃ m' a, vmmap va ka flags s = Ret () (set_mm m' s) ∧ tree_ok m' (pt (pd s)) ∧
    (∀ va', pte_of (words m') (pt (pd s)) va' =
       if decide (va_page va' = va_page va) then K2P (PAGE_BASE ka) + flags else pte_of (words (mm s)) (pt (pd s)) va') ∧
    get_pte va false (set_mm m' s) = Ret (Some a) (set_mm m' s) ∧
    words m' !! a = Some (K2P (PAGE_BASE ka) + flags) ∧
    pages_ref m' !! page_num_of (PAGE_BASE ka) = Some (mkPage (_increment_rc (ref pg)) false) ∧
    (∀ x, (∀ q j, q ∈ pages (mm s) → 0 ≤ j < 512 → x ≠ q + 8 * j) →
      (∀ ρ t j, path_ok ρ → table_at (words (mm s)) (pt (pd s)) ρ = Some t → 0 ≤ j < 512 → x ≠ t + 8 * j) →
      words m' !! x = words (mm s) !! x) ∧
    (∃ l, pages (mm s) = l ++ pages m' ∧ (length l ≤ 3)%nat) ∧ (∀ x, is_Some (words (mm s) !! x) → is_Some (words m' !! x)) ∧
    kend m' = kend (mm s) ∧
    (∀ ρ t, path_ok ρ → table_at (words m') (pt (pd s)) ρ = Some t →
       table_at (words (mm s)) (pt (pd s)) ρ = Some t ∨ t ∈ pages (mm s)).
Proof.
  intros T Hroot Hpg Hka Hnf Hfl Href Hlk. set (root := pt (pd s)) in *. set (ka0 := PAGE_BASE ka) in *.
  destruct (get_pte_alloc s va T Hroot Hpg) as (t3 & m1 & R & G & A). fold root in G, A.
  destruct (to_page _ _ (gr_tree _ _ _ _ G) _ _ (va_path_ok va) A) as (_ & _ & Hsome).
  destruct (Hsome (VA_PART3 va) (VA_PART3_range va)) as [e0 He0]. set (a := t3 + 8 * VA_PART3 va) in *.
  assert (Href1 : pages_ref m1 !! page_num_of ka0 = Some pg).
  { rewrite -Href. apply (gr_refs _ _ _ _ G). intros q Hq E. destruct (to_free _ _ T) as [_ Hall].
    rewrite Forall_forall in Hall. destruct (Hall q Hq) as [Hqa _]. apply page_num_inj_addr in E; [|done..]. by subst q. }
  destruct (mapped_ok m1 root va t3 ka0 flags pg (gr_tree _ _ _ _ G) A) as (T3 & Htab & Hpte). set (m3 := mapped _ _ _ _ _) in *.
  exists m3, a. split_and!; [|done| | | | | |apply G| |apply G|].
  - exact (vmmap_run s (set_mm m1 s) va ka flags a e0 pg R He0 Hka Hfl Href1 Hlk).
  - intros va'. by rewrite -(gr_pte _ _ _ _ G va').
  - rewrite (get_pte_read (set_mm m3 s) va T3 Hroot). change (mm (set_mm m3 s)) with m3. change (pt (pd (set_mm m3 s))) with root.
    by rewrite Htab.
  - apply lookup_insert_eq.
  - apply lookup_insert_eq.
  - intros x Hx1 Hx2. simpl. rewrite lookup_insert_ne; [|by apply (gr_frame _ _ _ _ G)].
    intros E. destruct (gr_new _ _ _ _ G _ _ (va_path_ok va) A) as [Hold|Hnew].
    + by apply (Hx2 _ _ (VA_PART3 va) (va_path_ok va) Hold).
    + by apply (Hx1 _ (VA_PART3 va) Hnew).
  - intros x Hx. simpl. apply lookup_insert_is_Some'. right. by apply (gr_dom _ _ _ _ G).
  - intros ρ t Hρ. rewrite (leaf_tables m1 m3 root t3 va (K2P ka0 + flags) (gr_tree _ _ _ _ G) A eq_refl ρ Hρ). by apply (gr_new _ _ _ _ G).
Qed.

(** C14: Mapping a page.  On a page directory whose tables form a tree, each table a
    page in use reached on one path only, and with three free pages left, vmmap
    makes the entry of the page of [va] point to the page of [ka] with the flags
    given (get_pte without allocation then finds exactly that entry), changes the
    entry of no other page (whatever tables it had to create), keeps the tables a
    tree, counts one more reference to the page mapped, and writes to no word of
    memory outside the tables and the free pages. *)
Theorem vmmap_maps_one_page s va ka flags pg :
  tree_ok (mm s) (pt (pd s)) → pt (pd s) ≠ 0 → (3 ≤ length (pages (mm s)))%nat →
  page_addr (PAGE_BASE ka) → PAGE_BASE ka ∉ pages (mm s) → 0 ≤ flags < 4096 →
  pages_ref (mm s) !! page_num_of (PAGE_BASE ka) = Some pg → ref_lock pg = false →
  ∃ m' a, vmmap va ka flags s = Ret () (set_mm m' s) ∧ tree_ok m' (pt (pd s)) ∧
    (∀ va', pte_of (words m') (pt (pd s)) va' =
       if decide (va_page va' = va_page va) then K2P (PAGE_BASE ka) + flags else pte_of (words (mm s)) (pt (pd s)) va') ∧
    get_pte va false (set_mm m' s) = Ret (Some a) (set_mm m' s) ∧
    words m' !! a = Some (K2P (PAGE_BASE ka) + flags) ∧
    pages_ref m' !! page_num_of (PAGE_BASE ka) = Some (mkPage (_increment_rc (ref pg)) false) ∧
    (∀ x, (∀ q j, q ∈ pages (mm s) → 0 ≤ j < 512 → x ≠ q + 8 * j) →
      (∀ ρ t j, path_ok ρ → table_at (words (mm s)) (pt (pd s)) ρ = Some t → 0 ≤ j < 512 → x ≠ t + 8 * j) →
      words m' !! x = words (mm s) !! x).
Proof.
  intros T Hroot Hpg Hka Hnf Hfl Href Hlk.
  destruct (vmmap_spec s va ka flags pg T Hroot Hpg Hka Hnf Hfl Href Hlk) as (m' & a & H1 & H2 & H3 & H4 & H5 & H6 & H7 & _).
  by exists m', a.
Qed.

(** A fresh directory: the root is one zeroed page, four pages are free, and the
    page to map is the one before them. *)
Definition demo_base : Z := KSPACE_MASK + 2 ^ 20.
Definition demo_mem : mstate :=
  mkMem [demo_base + 8192; demo_base + 12288; demo_base + 16384] []
    (list_to_map ((λ i, (256 + Z.of_nat i, mkPage (mkRC 0) false)) <$> seq 0 8)) (zero_words demo_base ∅)
    (mkRC 0) (mkRC 3) false (KSPACE_MASK + 2 ^ 19).
Definition demo_vm : vmem := mkVM demo_mem (mkPgdir demo_base false 0) 0.

Lemma demo_addr k : 0 ≤ k < 8 → page_addr (demo_base + 4096 * k).
Proof.
  intros Hk. rewrite /page_addr /demo_base /KSPACE_MASK. change (2 ^ 20) with 1048576. change (2 ^ 40) with 1099511627776.
  split; [dlia|lia].
Qed.

Lemma root_only_tree m root :
  page_addr root → root ∉ pages m → (∀ i, 0 ≤ i < 512 → words m !! (root + 8 * i) = Some 0) → NoDup (pages m) →
  Forall (λ p, page_addr p ∧ is_Some (pages_ref m !! page_num_of p)) (pages m) → tree_ok m root.
Proof.
  intros Hp Hnf Hz Hnd Hall.
  assert (Hroot : ∀ π t, path_ok π → table_at (words m) root π = Some t → π = [] ∧ t = root).
  { intros [|i π] t [_ Hx]; [by intros [= <-]|]. apply Forall_cons in Hx as [Hi _]. cbn [table_at]. rewrite Hz //. }
  split; [| |done].
  - intros π π' t H1 H2 E1 E2. by destruct (Hroot π t H1 E1) as [-> _], (Hroot π' t H2 E2) as [-> _].
  - intros π t H1 E1. destruct (Hroot π t H1 E1) as [_ ->]. split_and!; [done|done|]. intros i Hi. by rewrite Hz.
Qed.

Lemma demo_tree : tree_ok demo_mem demo_base.
Proof.
  apply root_only_tree.
  - rewrite -(Z.add_0_r demo_base). apply (demo_addr 0). lia.
  - rewrite /demo_mem !not_elem_of_cons. repeat split; try lia. all: try apply not_elem_of_nil.
  - intros; by apply zero_words_in.
  - rewrite /demo_mem !NoDup_cons !not_elem_of_cons. repeat split; try lia; try apply not_elem_of_nil. apply NoDup_nil_2.
  - repeat (apply Forall_cons_2; [split; [|by vm_compute; eexists]|]); [..|by apply Forall_nil_2].
    + apply (demo_addr 2). lia.
    + apply (demo_addr 3). lia.
    + apply (demo_addr 4). lia.
Qed.

Lemma vmmap_maps_one_page_witness :
  ∃ m', vmmap 4198400 (demo_base + 4096) PTE_USER_DATA demo_vm = Ret () (set_mm m' demo_vm) ∧
    pte_of (words m') demo_base 4198400 = K2P (demo_base + 4096) + PTE_USER_DATA.
Proof.
  destruct (vmmap_maps_one_page demo_vm 4198400 (demo_base + 4096) PTE_USER_DATA (mkPage (mkRC 0) false)) as
    (m' & a & H1 & _ & H2 & _).
  - exact demo_tree.
  - discriminate.
  - simpl. lia.
  - replace (PAGE_BASE (demo_base + 4096)) with (demo_base + 4096 * 1) by (vm_compute; reflexivity). apply demo_addr. lia.
  - vm_compute. intros H. repeat (apply elem_of_cons in H as [H|H]; [discriminate H|]). by apply elem_of_nil in H.
  - split; [discriminate|reflexivity].
  - vm_compute. reflexivity.
  - reflexivity.
  - exists m'. split; [exact H1|]. etransitivity; [exact (H2 4198400)|].
    replace (PAGE_BASE (demo_base + 4096)) with (demo_base + 4096) by (vm_compute; reflexivity). reflexivity.
Defined.
