(* ===== verification/KernelPt.v ===== *)
(** * The boot page table, [aarch64/kernel_pt.c]

    The tables the kernel runs on, as they are written in the source, and what the
    hardware makes of them.  Where the linker puts them is a parameter. *)

From stdpp Require Import base numbers list gmap.
From S2P Require Import Prelude Bytes Mem Pt.

Definition PTE_BLOCK : Z := 1.
Definition PTE_KERNEL : Z := Z.shiftl 0 6.
Definition PTE_DEVICE : Z := Z.lor (Z.shiftl 0 2) (Z.shiftl 1 10).
Definition PTE_KERNEL_DATA : Z := Z.lor (Z.lor PTE_KERNEL PTE_NORMAL) PTE_BLOCK.
Definition PTE_KERNEL_DEVICE : Z := Z.lor (Z.lor PTE_KERNEL PTE_DEVICE) PTE_BLOCK.

Definition _kernel_pt_level3 : list Z := [
   Z.lor 0x0 PTE_KERNEL_DATA; Z.lor 0x200000 PTE_KERNEL_DATA; Z.lor 0x400000 PTE_KERNEL_DATA; Z.lor 0x600000 PTE_KERNEL_DATA;
   Z.lor 0x800000 PTE_KERNEL_DATA; Z.lor 0xa00000 PTE_KERNEL_DATA; Z.lor 0xc00000 PTE_KERNEL_DATA; Z.lor 0xe00000 PTE_KERNEL_DATA;
   Z.lor 0x1000000 PTE_KERNEL_DATA; Z.lor 0x1200000 PTE_KERNEL_DATA; Z.lor 0x1400000 PTE_KERNEL_DATA; Z.lor 0x1600000 PTE_KERNEL_DATA;
   Z.lor 0x1800000 PTE_KERNEL_DATA; Z.lor 0x1a00000 PTE_KERNEL_DATA; Z.lor 0x1c00000 PTE_KERNEL_DATA; Z.lor 0x1e00000 PTE_KERNEL_DATA;
   Z.lor 0x2000000 PTE_KERNEL_DATA; Z.lor 0x2200000 PTE_KERNEL_DATA; Z.lor 0x2400000 PTE_KERNEL_DATA; Z.lor 0x2600000 PTE_KERNEL_DATA;
   Z.lor 0x2800000 PTE_KERNEL_DATA; Z.lor 0x2a00000 PTE_KERNEL_DATA; Z.lor 0x2c00000 PTE_KERNEL_DATA; Z.lor 0x2e00000 PTE_KERNEL_DATA;
   Z.lor 0x3000000 PTE_KERNEL_DATA; Z.lor 0x3200000 PTE_KERNEL_DATA; Z.lor 0x3400000 PTE_KERNEL_DATA; Z.lor 0x3600000 PTE_KERNEL_DATA;
   Z.lor 0x3800000 PTE_KERNEL_DATA; Z.lor 0x3a00000 PTE_KERNEL_DATA; Z.lor 0x3c00000 PTE_KERNEL_DATA; Z.lor 0x3e00000 PTE_KERNEL_DATA;
   Z.lor 0x4000000 PTE_KERNEL_DATA; Z.lor 0x4200000 PTE_KERNEL_DATA; Z.lor 0x4400000 PTE_KERNEL_DATA; Z.lor 0x4600000 PTE_KERNEL_DATA;
   Z.lor 0x4800000 PTE_KERNEL_DATA; Z.lor 0x4a00000 PTE_KERNEL_DATA; Z.lor 0x4c00000 PTE_KERNEL_DATA; Z.lor 0x4e00000 PTE_KERNEL_DATA;
   Z.lor 0x5000000 PTE_KERNEL_DATA; Z.lor 0x5200000 PTE_KERNEL_DATA; Z.lor 0x5400000 PTE_KERNEL_DATA; Z.lor 0x5600000 PTE_KERNEL_DATA;
   Z.lor 0x5800000 PTE_KERNEL_DATA; Z.lor 0x5a00000 PTE_KERNEL_DATA; Z.lor 0x5c00000 PTE_KERNEL_DATA; Z.lor 0x5e00000 PTE_KERNEL_DATA;
   Z.lor 0x6000000 PTE_KERNEL_DATA; Z.lor 0x6200000 PTE_KERNEL_DATA; Z.lor 0x6400000 PTE_KERNEL_DATA; Z.lor 0x6600000 PTE_KERNEL_DATA;
   Z.lor 0x6800000 PTE_KERNEL_DATA; Z.lor 0x6a00000 PTE_KERNEL_DATA; Z.lor 0x6c00000 PTE_KERNEL_DATA; Z.lor 0x6e00000 PTE_KERNEL_DATA;
   Z.lor 0x7000000 PTE_KERNEL_DATA; Z.lor 0x7200000 PTE_KERNEL_DATA; Z.lor 0x7400000 PTE_KERNEL_DATA; Z.lor 0x7600000 PTE_KERNEL_DATA;
   Z.lor 0x7800000 PTE_KERNEL_DATA; Z.lor 0x7a00000 PTE_KERNEL_DATA; Z.lor 0x7c00000 PTE_KERNEL_DATA; Z.lor 0x7e00000 PTE_KERNEL_DATA;
   Z.lor 0x8000000 PTE_KERNEL_DATA; Z.lor 0x8200000 PTE_KERNEL_DATA; Z.lor 0x8400000 PTE_KERNEL_DATA; Z.lor 0x8600000 PTE_KERNEL_DATA;
   Z.lor 0x8800000 PTE_KERNEL_DATA; Z.lor 0x8a00000 PTE_KERNEL_DATA; Z.lor 0x8c00000 PTE_KERNEL_DATA; Z.lor 0x8e00000 PTE_KERNEL_DATA;
   Z.lor 0x9000000 PTE_KERNEL_DATA; Z.lor 0x9200000 PTE_KERNEL_DATA; Z.lor 0x9400000 PTE_KERNEL_DATA; Z.lor 0x9600000 PTE_KERNEL_DATA;
   Z.lor 0x9800000 PTE_KERNEL_DATA; Z.lor 0x9a00000 PTE_KERNEL_DATA; Z.lor 0x9c00000 PTE_KERNEL_DATA; Z.lor 0x9e00000 PTE_KERNEL_DATA;
   Z.lor 0xa000000 PTE_KERNEL_DATA; Z.lor 0xa200000 PTE_KERNEL_DATA; Z.lor 0xa400000 PTE_KERNEL_DATA; Z.lor 0xa600000 PTE_KERNEL_DATA;
   Z.lor 0xa800000 PTE_KERNEL_DATA; Z.lor 0xaa00000 PTE_KERNEL_DATA; Z.lor 0xac00000 PTE_KERNEL_DATA; Z.lor 0xae00000 PTE_KERNEL_DATA;
   Z.lor 0xb000000 PTE_KERNEL_DATA; Z.lor 0xb200000 PTE_KERNEL_DATA; Z.lor 0xb400000 PTE_KERNEL_DATA; Z.lor 0xb600000 PTE_KERNEL_DATA;
   Z.lor 0xb800000 PTE_KERNEL_DATA; Z.lor 0xba00000 PTE_KERNEL_DATA; Z.lor 0xbc00000 PTE_KERNEL_DATA; Z.lor 0xbe00000 PTE_KERNEL_DATA;
   Z.lor 0xc000000 PTE_KERNEL_DATA; Z.lor 0xc200000 PTE_KERNEL_DATA; Z.lor 0xc400000 PTE_KERNEL_DATA; Z.lor 0xc600000 PTE_KERNEL_DATA;
   Z.lor 0xc800000 PTE_KERNEL_DATA; Z.lor 0xca00000 PTE_KERNEL_DATA; Z.lor 0xcc00000 PTE_KERNEL_DATA; Z.lor 0xce00000 PTE_KERNEL_DATA;
   Z.lor 0xd000000 PTE_KERNEL_DATA; Z.lor 0xd200000 PTE_KERNEL_DATA; Z.lor 0xd400000 PTE_KERNEL_DATA; Z.lor 0xd600000 PTE_KERNEL_DATA;
   Z.lor 0xd800000 PTE_KERNEL_DATA; Z.lor 0xda00000 PTE_KERNEL_DATA; Z.lor 0xdc00000 PTE_KERNEL_DATA; Z.lor 0xde00000 PTE_KERNEL_DATA;
   Z.lor 0xe000000 PTE_KERNEL_DATA; Z.lor 0xe200000 PTE_KERNEL_DATA; Z.lor 0xe400000 PTE_KERNEL_DATA; Z.lor 0xe600000 PTE_KERNEL_DATA;
   Z.lor 0xe800000 PTE_KERNEL_DATA; Z.lor 0xea00000 PTE_KERNEL_DATA; Z.lor 0xec00000 PTE_KERNEL_DATA; Z.lor 0xee00000 PTE_KERNEL_DATA;
   Z.lor 0xf000000 PTE_KERNEL_DATA; Z.lor 0xf200000 PTE_KERNEL_DATA; Z.lor 0xf400000 PTE_KERNEL_DATA; Z.lor 0xf600000 PTE_KERNEL_DATA;
   Z.lor 0xf800000 PTE_KERNEL_DATA; Z.lor 0xfa00000 PTE_KERNEL_DATA; Z.lor 0xfc00000 PTE_KERNEL_DATA; Z.lor 0xfe00000 PTE_KERNEL_DATA;
   Z.lor 0x10000000 PTE_KERNEL_DATA; Z.lor 0x10200000 PTE_KERNEL_DATA; Z.lor 0x10400000 PTE_KERNEL_DATA; Z.lor 0x10600000 PTE_KERNEL_DATA;
   Z.lor 0x10800000 PTE_KERNEL_DATA; Z.lor 0x10a00000 PTE_KERNEL_DATA; Z.lor 0x10c00000 PTE_KERNEL_DATA; Z.lor 0x10e00000 PTE_KERNEL_DATA;
   Z.lor 0x11000000 PTE_KERNEL_DATA; Z.lor 0x11200000 PTE_KERNEL_DATA; Z.lor 0x11400000 PTE_KERNEL_DATA; Z.lor 0x11600000 PTE_KERNEL_DATA;
   Z.lor 0x11800000 PTE_KERNEL_DATA; Z.lor 0x11a00000 PTE_KERNEL_DATA; Z.lor 0x11c00000 PTE_KERNEL_DATA; Z.lor 0x11e00000 PTE_KERNEL_DATA;
   Z.lor 0x12000000 PTE_KERNEL_DATA; Z.lor 0x12200000 PTE_KERNEL_DATA; Z.lor 0x12400000 PTE_KERNEL_DATA; Z.lor 0x12600000 PTE_KERNEL_DATA;
   Z.lor 0x12800000 PTE_KERNEL_DATA; Z.lor 0x12a00000 PTE_KERNEL_DATA; Z.lor 0x12c00000 PTE_KERNEL_DATA; Z.lor 0x12e00000 PTE_KERNEL_DATA;
   Z.lor 0x13000000 PTE_KERNEL_DATA; Z.lor 0x13200000 PTE_KERNEL_DATA; Z.lor 0x13400000 PTE_KERNEL_DATA; Z.lor 0x13600000 PTE_KERNEL_DATA;
   Z.lor 0x13800000 PTE_KERNEL_DATA; Z.lor 0x13a00000 PTE_KERNEL_DATA; Z.lor 0x13c00000 PTE_KERNEL_DATA; Z.lor 0x13e00000 PTE_KERNEL_DATA;
   Z.lor 0x14000000 PTE_KERNEL_DATA; Z.lor 0x14200000 PTE_KERNEL_DATA; Z.lor 0x14400000 PTE_KERNEL_DATA; Z.lor 0x14600000 PTE_KERNEL_DATA;
   Z.lor 0x14800000 PTE_KERNEL_DATA; Z.lor 0x14a00000 PTE_KERNEL_DATA; Z.lor 0x14c00000 PTE_KERNEL_DATA; Z.lor 0x14e00000 PTE_KERNEL_DATA;
   Z.lor 0x15000000 PTE_KERNEL_DATA; Z.lor 0x15200000 PTE_KERNEL_DATA; Z.lor 0x15400000 PTE_KERNEL_DATA; Z.lor 0x15600000 PTE_KERNEL_DATA;
   Z.lor 0x15800000 PTE_KERNEL_DATA; Z.lor 0x15a00000 PTE_KERNEL_DATA; Z.lor 0x15c00000 PTE_KERNEL_DATA; Z.lor 0x15e00000 PTE_KERNEL_DATA;
   Z.lor 0x16000000 PTE_KERNEL_DATA; Z.lor 0x16200000 PTE_KERNEL_DATA; Z.lor 0x16400000 PTE_KERNEL_DATA; Z.lor 0x16600000 PTE_KERNEL_DATA;
   Z.lor 0x16800000 PTE_KERNEL_DATA; Z.lor 0x16a00000 PTE_KERNEL_DATA; Z.lor 0x16c00000 PTE_KERNEL_DATA; Z.lor 0x16e00000 PTE_KERNEL_DATA;
   Z.lor 0x17000000 PTE_KERNEL_DATA; Z.lor 0x17200000 PTE_KERNEL_DATA; Z.lor 0x17400000 PTE_KERNEL_DATA; Z.lor 0x17600000 PTE_KERNEL_DATA;
   Z.lor 0x17800000 PTE_KERNEL_DATA; Z.lor 0x17a00000 PTE_KERNEL_DATA; Z.lor 0x17c00000 PTE_KERNEL_DATA; Z.lor 0x17e00000 PTE_KERNEL_DATA;
   Z.lor 0x18000000 PTE_KERNEL_DATA; Z.lor 0x18200000 PTE_KERNEL_DATA; Z.lor 0x18400000 PTE_KERNEL_DATA; Z.lor 0x18600000 PTE_KERNEL_DATA;
   Z.lor 0x18800000 PTE_KERNEL_DATA; Z.lor 0x18a00000 PTE_KERNEL_DATA; Z.lor 0x18c00000 PTE_KERNEL_DATA; Z.lor 0x18e00000 PTE_KERNEL_DATA;
   Z.lor 0x19000000 PTE_KERNEL_DATA; Z.lor 0x19200000 PTE_KERNEL_DATA; Z.lor 0x19400000 PTE_KERNEL_DATA; Z.lor 0x19600000 PTE_KERNEL_DATA;
   Z.lor 0x19800000 PTE_KERNEL_DATA; Z.lor 0x19a00000 PTE_KERNEL_DATA; Z.lor 0x19c00000 PTE_KERNEL_DATA; Z.lor 0x19e00000 PTE_KERNEL_DATA;
   Z.lor 0x1a000000 PTE_KERNEL_DATA; Z.lor 0x1a200000 PTE_KERNEL_DATA; Z.lor 0x1a400000 PTE_KERNEL_DATA; Z.lor 0x1a600000 PTE_KERNEL_DATA;
   Z.lor 0x1a800000 PTE_KERNEL_DATA; Z.lor 0x1aa00000 PTE_KERNEL_DATA; Z.lor 0x1ac00000 PTE_KERNEL_DATA; Z.lor 0x1ae00000 PTE_KERNEL_DATA;
   Z.lor 0x1b000000 PTE_KERNEL_DATA; Z.lor 0x1b200000 PTE_KERNEL_DATA; Z.lor 0x1b400000 PTE_KERNEL_DATA; Z.lor 0x1b600000 PTE_KERNEL_DATA;
   Z.lor 0x1b800000 PTE_KERNEL_DATA; Z.lor 0x1ba00000 PTE_KERNEL_DATA; Z.lor 0x1bc00000 PTE_KERNEL_DATA; Z.lor 0x1be00000 PTE_KERNEL_DATA;
   Z.lor 0x1c000000 PTE_KERNEL_DATA; Z.lor 0x1c200000 PTE_KERNEL_DATA; Z.lor 0x1c400000 PTE_KERNEL_DATA; Z.lor 0x1c600000 PTE_KERNEL_DATA;
   Z.lor 0x1c800000 PTE_KERNEL_DATA; Z.lor 0x1ca00000 PTE_KERNEL_DATA; Z.lor 0x1cc00000 PTE_KERNEL_DATA; Z.lor 0x1ce00000 PTE_KERNEL_DATA;
   Z.lor 0x1d000000 PTE_KERNEL_DATA; Z.lor 0x1d200000 PTE_KERNEL_DATA; Z.lor 0x1d400000 PTE_KERNEL_DATA; Z.lor 0x1d600000 PTE_KERNEL_DATA;
   Z.lor 0x1d800000 PTE_KERNEL_DATA; Z.lor 0x1da00000 PTE_KERNEL_DATA; Z.lor 0x1dc00000 PTE_KERNEL_DATA; Z.lor 0x1de00000 PTE_KERNEL_DATA;
   Z.lor 0x1e000000 PTE_KERNEL_DATA; Z.lor 0x1e200000 PTE_KERNEL_DATA; Z.lor 0x1e400000 PTE_KERNEL_DATA; Z.lor 0x1e600000 PTE_KERNEL_DATA;
   Z.lor 0x1e800000 PTE_KERNEL_DATA; Z.lor 0x1ea00000 PTE_KERNEL_DATA; Z.lor 0x1ec00000 PTE_KERNEL_DATA; Z.lor 0x1ee00000 PTE_KERNEL_DATA;
   Z.lor 0x1f000000 PTE_KERNEL_DATA; Z.lor 0x1f200000 PTE_KERNEL_DATA; Z.lor 0x1f400000 PTE_KERNEL_DATA; Z.lor 0x1f600000 PTE_KERNEL_DATA;
   Z.lor 0x1f800000 PTE_KERNEL_DATA; Z.lor 0x1fa00000 PTE_KERNEL_DATA; Z.lor 0x1fc00000 PTE_KERNEL_DATA; Z.lor 0x1fe00000 PTE_KERNEL_DATA;
   Z.lor 0x20000000 PTE_KERNEL_DATA; Z.lor 0x20200000 PTE_KERNEL_DATA; Z.lor 0x20400000 PTE_KERNEL_DATA; Z.lor 0x20600000 PTE_KERNEL_DATA;
   Z.lor 0x20800000 PTE_KERNEL_DATA; Z.lor 0x20a00000 PTE_KERNEL_DATA; Z.lor 0x20c00000 PTE_KERNEL_DATA; Z.lor 0x20e00000 PTE_KERNEL_DATA;
   Z.lor 0x21000000 PTE_KERNEL_DATA; Z.lor 0x21200000 PTE_KERNEL_DATA; Z.lor 0x21400000 PTE_KERNEL_DATA; Z.lor 0x21600000 PTE_KERNEL_DATA;
   Z.lor 0x21800000 PTE_KERNEL_DATA; Z.lor 0x21a00000 PTE_KERNEL_DATA; Z.lor 0x21c00000 PTE_KERNEL_DATA; Z.lor 0x21e00000 PTE_KERNEL_DATA;
   Z.lor 0x22000000 PTE_KERNEL_DATA; Z.lor 0x22200000 PTE_KERNEL_DATA; Z.lor 0x22400000 PTE_KERNEL_DATA; Z.lor 0x22600000 PTE_KERNEL_DATA;
   Z.lor 0x22800000 PTE_KERNEL_DATA; Z.lor 0x22a00000 PTE_KERNEL_DATA; Z.lor 0x22c00000 PTE_KERNEL_DATA; Z.lor 0x22e00000 PTE_KERNEL_DATA;
   Z.lor 0x23000000 PTE_KERNEL_DATA; Z.lor 0x23200000 PTE_KERNEL_DATA; Z.lor 0x23400000 PTE_KERNEL_DATA; Z.lor 0x23600000 PTE_KERNEL_DATA;
   Z.lor 0x23800000 PTE_KERNEL_DATA; Z.lor 0x23a00000 PTE_KERNEL_DATA; Z.lor 0x23c00000 PTE_KERNEL_DATA; Z.lor 0x23e00000 PTE_KERNEL_DATA;
   Z.lor 0x24000000 PTE_KERNEL_DATA; Z.lor 0x24200000 PTE_KERNEL_DATA; Z.lor 0x24400000 PTE_KERNEL_DATA; Z.lor 0x24600000 PTE_KERNEL_DATA;
   Z.lor 0x24800000 PTE_KERNEL_DATA; Z.lor 0x24a00000 PTE_KERNEL_DATA; Z.lor 0x24c00000 PTE_KERNEL_DATA; Z.lor 0x24e00000 PTE_KERNEL_DATA;
   Z.lor 0x25000000 PTE_KERNEL_DATA; Z.lor 0x25200000 PTE_KERNEL_DATA; Z.lor 0x25400000 PTE_KERNEL_DATA; Z.lor 0x25600000 PTE_KERNEL_DATA;
   Z.lor 0x25800000 PTE_KERNEL_DATA; Z.lor 0x25a00000 PTE_KERNEL_DATA; Z.lor 0x25c00000 PTE_KERNEL_DATA; Z.lor 0x25e00000 PTE_KERNEL_DATA;
   Z.lor 0x26000000 PTE_KERNEL_DATA; Z.lor 0x26200000 PTE_KERNEL_DATA; Z.lor 0x26400000 PTE_KERNEL_DATA; Z.lor 0x26600000 PTE_KERNEL_DATA;
   Z.lor 0x26800000 PTE_KERNEL_DATA; Z.lor 0x26a00000 PTE_KERNEL_DATA; Z.lor 0x26c00000 PTE_KERNEL_DATA; Z.lor 0x26e00000 PTE_KERNEL_DATA;
   Z.lor 0x27000000 PTE_KERNEL_DATA; Z.lor 0x27200000 PTE_KERNEL_DATA; Z.lor 0x27400000 PTE_KERNEL_DATA; Z.lor 0x27600000 PTE_KERNEL_DATA;
   Z.lor 0x27800000 PTE_KERNEL_DATA; Z.lor 0x27a00000 PTE_KERNEL_DATA; Z.lor 0x27c00000 PTE_KERNEL_DATA; Z.lor 0x27e00000 PTE_KERNEL_DATA;
   Z.lor 0x28000000 PTE_KERNEL_DATA; Z.lor 0x28200000 PTE_KERNEL_DATA; Z.lor 0x28400000 PTE_KERNEL_DATA; Z.lor 0x28600000 PTE_KERNEL_DATA;
   Z.lor 0x28800000 PTE_KERNEL_DATA; Z.lor 0x28a00000 PTE_KERNEL_DATA; Z.lor 0x28c00000 PTE_KERNEL_DATA; Z.lor 0x28e00000 PTE_KERNEL_DATA;
   Z.lor 0x29000000 PTE_KERNEL_DATA; Z.lor 0x29200000 PTE_KERNEL_DATA; Z.lor 0x29400000 PTE_KERNEL_DATA; Z.lor 0x29600000 PTE_KERNEL_DATA;
   Z.lor 0x29800000 PTE_KERNEL_DATA; Z.lor 0x29a00000 PTE_KERNEL_DATA; Z.lor 0x29c00000 PTE_KERNEL_DATA; Z.lor 0x29e00000 PTE_KERNEL_DATA;
   Z.lor 0x2a000000 PTE_KERNEL_DATA; Z.lor 0x2a200000 PTE_KERNEL_DATA; Z.lor 0x2a400000 PTE_KERNEL_DATA; Z.lor 0x2a600000 PTE_KERNEL_DATA;
   Z.lor 0x2a800000 PTE_KERNEL_DATA; Z.lor 0x2aa00000 PTE_KERNEL_DATA; Z.lor 0x2ac00000 PTE_KERNEL_DATA; Z.lor 0x2ae00000 PTE_KERNEL_DATA;
   Z.lor 0x2b000000 PTE_KERNEL_DATA; Z.lor 0x2b200000 PTE_KERNEL_DATA; Z.lor 0x2b400000 PTE_KERNEL_DATA; Z.lor 0x2b600000 PTE_KERNEL_DATA;
   Z.lor 0x2b800000 PTE_KERNEL_DATA; Z.lor 0x2ba00000 PTE_KERNEL_DATA; Z.lor 0x2bc00000 PTE_KERNEL_DATA; Z.lor 0x2be00000 PTE_KERNEL_DATA;
   Z.lor 0x2c000000 PTE_KERNEL_DATA; Z.lor 0x2c200000 PTE_KERNEL_DATA; Z.lor 0x2c400000 PTE_KERNEL_DATA; Z.lor 0x2c600000 PTE_KERNEL_DATA;
   Z.lor 0x2c800000 PTE_KERNEL_DATA; Z.lor 0x2ca00000 PTE_KERNEL_DATA; Z.lor 0x2cc00000 PTE_KERNEL_DATA; Z.lor 0x2ce00000 PTE_KERNEL_DATA;
   Z.lor 0x2d000000 PTE_KERNEL_DATA; Z.lor 0x2d200000 PTE_KERNEL_DATA; Z.lor 0x2d400000 PTE_KERNEL_DATA; Z.lor 0x2d600000 PTE_KERNEL_DATA;
   Z.lor 0x2d800000 PTE_KERNEL_DATA; Z.lor 0x2da00000 PTE_KERNEL_DATA; Z.lor 0x2dc00000 PTE_KERNEL_DATA; Z.lor 0x2de00000 PTE_KERNEL_DATA;
   Z.lor 0x2e000000 PTE_KERNEL_DATA; Z.lor 0x2e200000 PTE_KERNEL_DATA; Z.lor 0x2e400000 PTE_KERNEL_DATA; Z.lor 0x2e600000 PTE_KERNEL_DATA;
   Z.lor 0x2e800000 PTE_KERNEL_DATA; Z.lor 0x2ea00000 PTE_KERNEL_DATA; Z.lor 0x2ec00000 PTE_KERNEL_DATA; Z.lor 0x2ee00000 PTE_KERNEL_DATA;
   Z.lor 0x2f000000 PTE_KERNEL_DATA; Z.lor 0x2f200000 PTE_KERNEL_DATA; Z.lor 0x2f400000 PTE_KERNEL_DATA; Z.lor 0x2f600000 PTE_KERNEL_DATA;
   Z.lor 0x2f800000 PTE_KERNEL_DATA; Z.lor 0x2fa00000 PTE_KERNEL_DATA; Z.lor 0x2fc00000 PTE_KERNEL_DATA; Z.lor 0x2fe00000 PTE_KERNEL_DATA;
   Z.lor 0x30000000 PTE_KERNEL_DATA; Z.lor 0x30200000 PTE_KERNEL_DATA; Z.lor 0x30400000 PTE_KERNEL_DATA; Z.lor 0x30600000 PTE_KERNEL_DATA;
   Z.lor 0x30800000 PTE_KERNEL_DATA; Z.lor 0x30a00000 PTE_KERNEL_DATA; Z.lor 0x30c00000 PTE_KERNEL_DATA; Z.lor 0x30e00000 PTE_KERNEL_DATA;
   Z.lor 0x31000000 PTE_KERNEL_DATA; Z.lor 0x31200000 PTE_KERNEL_DATA; Z.lor 0x31400000 PTE_KERNEL_DATA; Z.lor 0x31600000 PTE_KERNEL_DATA;
   Z.lor 0x31800000 PTE_KERNEL_DATA; Z.lor 0x31a00000 PTE_KERNEL_DATA; Z.lor 0x31c00000 PTE_KERNEL_DATA; Z.lor 0x31e00000 PTE_KERNEL_DATA;
   Z.lor 0x32000000 PTE_KERNEL_DATA; Z.lor 0x32200000 PTE_KERNEL_DATA; Z.lor 0x32400000 PTE_KERNEL_DATA; Z.lor 0x32600000 PTE_KERNEL_DATA;
   Z.lor 0x32800000 PTE_KERNEL_DATA; Z.lor 0x32a00000 PTE_KERNEL_DATA; Z.lor 0x32c00000 PTE_KERNEL_DATA; Z.lor 0x32e00000 PTE_KERNEL_DATA;
   Z.lor 0x33000000 PTE_KERNEL_DATA; Z.lor 0x33200000 PTE_KERNEL_DATA; Z.lor 0x33400000 PTE_KERNEL_DATA; Z.lor 0x33600000 PTE_KERNEL_DATA;
   Z.lor 0x33800000 PTE_KERNEL_DATA; Z.lor 0x33a00000 PTE_KERNEL_DATA; Z.lor 0x33c00000 PTE_KERNEL_DATA; Z.lor 0x33e00000 PTE_KERNEL_DATA;
   Z.lor 0x34000000 PTE_KERNEL_DATA; Z.lor 0x34200000 PTE_KERNEL_DATA; Z.lor 0x34400000 PTE_KERNEL_DATA; Z.lor 0x34600000 PTE_KERNEL_DATA;
   Z.lor 0x34800000 PTE_KERNEL_DATA; Z.lor 0x34a00000 PTE_KERNEL_DATA; Z.lor 0x34c00000 PTE_KERNEL_DATA; Z.lor 0x34e00000 PTE_KERNEL_DATA;
   Z.lor 0x35000000 PTE_KERNEL_DATA; Z.lor 0x35200000 PTE_KERNEL_DATA; Z.lor 0x35400000 PTE_KERNEL_DATA; Z.lor 0x35600000 PTE_KERNEL_DATA;
   Z.lor 0x35800000 PTE_KERNEL_DATA; Z.lor 0x35a00000 PTE_KERNEL_DATA; Z.lor 0x35c00000 PTE_KERNEL_DATA; Z.lor 0x35e00000 PTE_KERNEL_DATA;
   Z.lor 0x36000000 PTE_KERNEL_DATA; Z.lor 0x36200000 PTE_KERNEL_DATA; Z.lor 0x36400000 PTE_KERNEL_DATA; Z.lor 0x36600000 PTE_KERNEL_DATA;
   Z.lor 0x36800000 PTE_KERNEL_DATA; Z.lor 0x36a00000 PTE_KERNEL_DATA; Z.lor 0x36c00000 PTE_KERNEL_DATA; Z.lor 0x36e00000 PTE_KERNEL_DATA;
   Z.lor 0x37000000 PTE_KERNEL_DATA; Z.lor 0x37200000 PTE_KERNEL_DATA; Z.lor 0x37400000 PTE_KERNEL_DATA; Z.lor 0x37600000 PTE_KERNEL_DATA;
   Z.lor 0x37800000 PTE_KERNEL_DATA; Z.lor 0x37a00000 PTE_KERNEL_DATA; Z.lor 0x37c00000 PTE_KERNEL_DATA; Z.lor 0x37e00000 PTE_KERNEL_DATA;
   Z.lor 0x38000000 PTE_KERNEL_DATA; Z.lor 0x38200000 PTE_KERNEL_DATA; Z.lor 0x38400000 PTE_KERNEL_DATA; Z.lor 0x38600000 PTE_KERNEL_DATA;
   Z.lor 0x38800000 PTE_KERNEL_DATA; Z.lor 0x38a00000 PTE_KERNEL_DATA; Z.lor 0x38c00000 PTE_KERNEL_DATA; Z.lor 0x38e00000 PTE_KERNEL_DATA;
   Z.lor 0x39000000 PTE_KERNEL_DATA; Z.lor 0x39200000 PTE_KERNEL_DATA; Z.lor 0x39400000 PTE_KERNEL_DATA; Z.lor 0x39600000 PTE_KERNEL_DATA;
   Z.lor 0x39800000 PTE_KERNEL_DATA; Z.lor 0x39a00000 PTE_KERNEL_DATA; Z.lor 0x39c00000 PTE_KERNEL_DATA; Z.lor 0x39e00000 PTE_KERNEL_DATA;
   Z.lor 0x3a000000 PTE_KERNEL_DATA; Z.lor 0x3a200000 PTE_KERNEL_DATA; Z.lor 0x3a400000 PTE_KERNEL_DATA; Z.lor 0x3a600000 PTE_KERNEL_DATA;
   Z.lor 0x3a800000 PTE_KERNEL_DATA; Z.lor 0x3aa00000 PTE_KERNEL_DATA; Z.lor 0x3ac00000 PTE_KERNEL_DATA; Z.lor 0x3ae00000 PTE_KERNEL_DATA;
   Z.lor 0x3b000000 PTE_KERNEL_DATA; Z.lor 0x3b200000 PTE_KERNEL_DATA; Z.lor 0x3b400000 PTE_KERNEL_DATA; Z.lor 0x3b600000 PTE_KERNEL_DATA;
   Z.lor 0x3b800000 PTE_KERNEL_DATA; Z.lor 0x3ba00000 PTE_KERNEL_DATA; Z.lor 0x3bc00000 PTE_KERNEL_DATA; Z.lor 0x3be00000 PTE_KERNEL_DATA;
   Z.lor 0x3c000000 PTE_KERNEL_DATA; Z.lor 0x3c200000 PTE_KERNEL_DATA; Z.lor 0x3c400000 PTE_KERNEL_DATA; Z.lor 0x3c600000 PTE_KERNEL_DATA;
   Z.lor 0x3c800000 PTE_KERNEL_DATA; Z.lor 0x3ca00000 PTE_KERNEL_DATA; Z.lor 0x3cc00000 PTE_KERNEL_DATA; Z.lor 0x3ce00000 PTE_KERNEL_DATA;
   Z.lor 0x3d000000 PTE_KERNEL_DATA; Z.lor 0x3d200000 PTE_KERNEL_DATA; Z.lor 0x3d400000 PTE_KERNEL_DATA; Z.lor 0x3d600000 PTE_KERNEL_DATA;
   Z.lor 0x3d800000 PTE_KERNEL_DATA; Z.lor 0x3da00000 PTE_KERNEL_DATA; Z.lor 0x3dc00000 PTE_KERNEL_DATA; Z.lor 0x3de00000 PTE_KERNEL_DATA;
   Z.lor 0x3e000000 PTE_KERNEL_DATA; Z.lor 0x3e200000 PTE_KERNEL_DATA; Z.lor 0x3e400000 PTE_KERNEL_DATA; Z.lor 0x3e600000 PTE_KERNEL_DATA;
   Z.lor 0x3e800000 PTE_KERNEL_DATA; Z.lor 0x3ea00000 PTE_KERNEL_DATA; Z.lor 0x3ec00000 PTE_KERNEL_DATA; Z.lor 0x3ee00000 PTE_KERNEL_DATA;
   Z.lor 0x3f000000 PTE_KERNEL_DEVICE; Z.lor 0x3f200000 PTE_KERNEL_DEVICE; Z.lor 0x3f400000 PTE_KERNEL_DEVICE; Z.lor 0x3f600000 PTE_KERNEL_DEVICE;
   Z.lor 0x3f800000 PTE_KERNEL_DEVICE; Z.lor 0x3fa00000 PTE_KERNEL_DEVICE; Z.lor 0x3fc00000 PTE_KERNEL_DEVICE; Z.lor 0x3fe00000 PTE_KERNEL_DEVICE].
(** [level3] and [level2] are the kernel addresses of the arrays; entries that are not
    written are zero. *)
Definition _kernel_pt_level2 (level3 : Z) : list Z :=
  [K2P level3 + PTE_TABLE; Z.lor 0x40000000 PTE_KERNEL_DEVICE; 0; Z.lor 0xc0000000 PTE_KERNEL_DEVICE] ++ replicate 508 0.
Definition kernel_pt (level2 : Z) : list Z := [K2P level2 + PTE_TABLE] ++ replicate 511 0.
Definition invalid_pt : list Z := replicate 512 0.

(** ** The walk of the hardware

    [mem] is the word at a physical address.  An entry is valid with bit 0; bit 1 makes it a
    table, or a page at the last level; without it the entry is a block, which the first
    level cannot have. *)
Section walk.
Context (mem : Z → option Z).
Definition out_addr (e k : Z) : Z := (e mod 2 ^ 48) / 2 ^ k * 2 ^ k.
Fixpoint hw_walk (ks : list Z) (tbl va : Z) : option (Z * Z) :=
  match ks with
  | [] => None
  | k :: ks =>
      e ← mem (tbl + 8 * ((va / 2 ^ k) mod 512));
      if negb (Z.testbit e 0) then None
      else if Z.testbit e 1 then if k =? 12 then Some (out_addr e 12 + va mod 2 ^ 12, e mod 4096) else hw_walk ks (out_addr e 12) va
      else if (k =? 30) || (k =? 21) then Some (out_addr e k + va mod 2 ^ k, e mod 4096) else None
  end.
Definition LEVELS : list Z := [39; 30; 21; 12].

Definition holds (tbl : Z) (l : list Z) : Prop := ∀ i, 0 ≤ i < 512 → mem (K2P tbl + 8 * i) = l !! Z.to_nat i.

(** What the kernel's addresses stand for. *)
Definition boot_map (pa : Z) : option (Z * Z) :=
  if pa <? PHYSTOP then Some (pa, PTE_KERNEL_DATA)
  else if (pa <? 2 ^ 31) || ((3 * 2 ^ 30 <=? pa) && (pa <? 2 ^ 32)) then Some (pa, PTE_KERNEL_DEVICE)
  else None.

(** A table that points to a table, and one that ends the walk. *)
Lemma walk_table k ks tbl va p : page_addr p → k ≠ 12 → mem (tbl + 8 * ((va / 2 ^ k) mod 512)) = Some (K2P p + PTE_TABLE) →
  hw_walk (k :: ks) tbl va = hw_walk ks (K2P p) va.
Proof.
  intros Hp Hk Hm. cbn [hw_walk]. rewrite Hm. cbn [mbind option_bind]. destruct (K2P_range p Hp) as (_ & Hr & Ha). rewrite /PTE_TABLE.
  assert (E : K2P p = 4096 * (K2P p / 4096)) by dlia. set (q := K2P p / 4096) in E. rewrite E.
  replace (4096 * q + 3) with (3 + q * 4096) by lia. assert (Hb : ∀ n, 0 ≤ n < 12 → Z.testbit (3 + q * 4096) n = Z.testbit 3 n).
  { intros n Hn. rewrite -(Z.mod_pow2_bits_low (3 + q * 4096) 12 n); [lia|]. change (2 ^ 12) with 4096. by rewrite Z.mod_add. }
  rewrite !Hb; [lia|lia|]. change (Z.testbit 3 0) with true. change (Z.testbit 3 1) with true. cbn [negb]. rewrite (proj2 (Z.eqb_neq _ _) Hk). f_equal.
  rewrite /out_addr. change (2 ^ 12) with 4096. rewrite Z.mod_small; [rewrite E in Hr; lia|]. rewrite Z.div_add // Z.div_small // Z.add_0_l. lia.
Qed.
Lemma walk_zero k ks tbl va : mem (tbl + 8 * ((va / 2 ^ k) mod 512)) = Some 0 → hw_walk (k :: ks) tbl va = None.
Proof. intros Hm. cbn [hw_walk]. by rewrite Hm. Qed.
Lemma walk_block k ks tbl va q f : (k = 30 ∨ k = 21) → (f = PTE_KERNEL_DATA ∨ f = PTE_KERNEL_DEVICE) → 0 ≤ q → q * 2 ^ k < 2 ^ 48 →
  mem (tbl + 8 * ((va / 2 ^ k) mod 512)) = Some (Z.lor (q * 2 ^ k) f) → hw_walk (k :: ks) tbl va = Some (q * 2 ^ k + va mod 2 ^ k, f).
Proof.
  intros Hk Hf Hq Hlt Hm. cbn [hw_walk]. rewrite Hm. cbn [mbind option_bind]. assert (Hf' : 0 ≤ f < 4096 ∧ Z.testbit f 0 = true ∧ Z.testbit f 1 = false) by (by destruct Hf as [-> | ->]).
  destruct Hf' as (Hfr & F0 & F1). assert (Hp : 2 ^ k = 4096 * 2 ^ (k - 12)) by (rewrite -(Z.pow_add_r 2 12); [lia|destruct Hk; lia|f_equal; lia]).
  pose proof (Z.pow_pos_nonneg 2 (k - 12) ltac:(lia) ltac:(destruct Hk; lia)) as Hpos.
  rewrite lor_low; [lia|rewrite Hp; replace (q * (4096 * 2 ^ (k - 12))) with (0 + q * 2 ^ (k - 12) * 4096) by lia; by rewrite Z.mod_add|done|].
  assert (Hb : ∀ n, 0 ≤ n < 12 → Z.testbit (q * 2 ^ k + f) n = Z.testbit f n).
  { intros n Hn. rewrite -(Z.mod_pow2_bits_low (q * 2 ^ k + f) 12 n); [lia|]. rewrite Hp. change (2 ^ 12) with 4096. replace (q * (4096 * 2 ^ (k - 12)) + f) with (f + q * 2 ^ (k - 12) * 4096) by lia.
    by rewrite Z.mod_add // Z.mod_small. }
  rewrite !Hb; [lia|lia|]. rewrite F0 F1. cbn [negb]. assert (Hkb : (k =? 30) || (k =? 21) = true) by (by destruct Hk as [-> | ->]). rewrite Hkb. f_equal. f_equal.
  - rewrite /out_addr. assert (Hs : q * 2 ^ k + f < 2 ^ 48).
    { assert (Hd : 2 ^ 48 = 2 ^ (48 - k) * 2 ^ k) by (rewrite -Z.pow_add_r; [destruct Hk; lia|destruct Hk; lia|f_equal; lia]). rewrite Hd in Hlt |- *. nia. }
    rewrite Z.mod_small; [lia|]. rewrite Z.div_add_l; [lia|]. rewrite (Z.div_small f); [nia|]. lia.
  - rewrite Hp. replace (q * (4096 * 2 ^ (k - 12)) + f) with (f + q * 2 ^ (k - 12) * 4096) by lia. by rewrite Z.mod_add // Z.mod_small.
Qed.

(** Every kernel address in its first 2 MB block, and so on. *)
Lemma level3_entry i : 0 ≤ i < 512 → _kernel_pt_level3 !! Z.to_nat i = Some (Z.lor (i * 2 ^ 21) (if i <? 504 then PTE_KERNEL_DATA else PTE_KERNEL_DEVICE)).
Proof.
  intros Hi. assert (H : forallb (λ n, bool_decide (_kernel_pt_level3 !! n =
    Some (Z.lor (Z.of_nat n * 2 ^ 21) (if Z.of_nat n <? 504 then PTE_KERNEL_DATA else PTE_KERNEL_DEVICE)))) (seq 0 512) = true) by (by vm_compute).
  rewrite forallb_forall in H. specialize (H (Z.to_nat i)). rewrite in_seq in H. specialize (H ltac:(lia)). apply bool_decide_eq_true in H. rewrite Z2Nat.id in H; [lia|done].
Qed.
Lemma padded (l : list Z) i : (length l ≤ Z.to_nat i < 512)%nat → (l ++ replicate (512 - length l) 0) !! Z.to_nat i = Some 0.
Proof. intros Hi. rewrite lookup_app_r; [lia|]. apply lookup_replicate. lia. Qed.

Lemma kspace_index pa k : k ∈ [39; 30; 21] → 0 ≤ pa < 2 ^ 48 → ((KSPACE_MASK + pa) / 2 ^ k) mod 512 = (pa / 2 ^ k) mod 512 ∧ (KSPACE_MASK + pa) mod 2 ^ k = pa mod 2 ^ k.
Proof.
  intros Hk Hpa. assert (Hm : ∃ c, KSPACE_MASK = c * 512 * 2 ^ k).
  { exists (KSPACE_MASK / 512 / 2 ^ k). repeat (apply elem_of_cons in Hk as [->|Hk]; [reflexivity|]). by apply not_elem_of_nil in Hk. }
  destruct Hm as [c ->]. assert (Hp : 2 ^ k ≠ 0) by (repeat (apply elem_of_cons in Hk as [->|Hk]; [done|]); by apply not_elem_of_nil in Hk).
  split; [rewrite Z.div_add_l // Z.add_comm; by rewrite Z.mod_add|rewrite Z.add_comm; by rewrite Z.mod_add].
Qed.

(** C18: The kernel runs where it thinks.  Wherever the linker puts the three tables, the
    hardware translates the kernel address of every physical address below the top of the
    memory to that address, as normal memory; from there to 2 GB, and in the last of the
    first 4 GB, to the same address as device memory; and no other kernel address is
    mapped. *)
Theorem kernel_pt_maps k0 k2 k3 pa :
  page_addr k2 → page_addr k3 → holds k0 (kernel_pt k2) → holds k2 (_kernel_pt_level2 k3) → holds k3 _kernel_pt_level3 → 0 ≤ pa < 2 ^ 48 →
  hw_walk LEVELS (K2P k0) (KSPACE_MASK + pa) = boot_map pa.
Proof.
  intros Hp2 Hp3 H0 H2 H3 Hpa. rewrite /LEVELS. pose proof (kspace_index pa 39 ltac:(set_solver) Hpa) as [I0 _].
  pose proof (kspace_index pa 30 ltac:(set_solver) Hpa) as [I1 M1]. pose proof (kspace_index pa 21 ltac:(set_solver) Hpa) as [I2 M2].
  change (2 ^ 39) with 549755813888 in *. change (2 ^ 30) with 1073741824 in *. change (2 ^ 21) with 2097152 in *. change (2 ^ 48) with 281474976710656 in *.
  assert (Hnone : 2147483648 ≤ pa < 3221225472 ∨ 4294967296 ≤ pa → boot_map pa = None).
  { intros Hr. rewrite /boot_map. change (3 * 2 ^ 30) with 3221225472. change (2 ^ 31) with 2147483648. change (2 ^ 32) with 4294967296. change PHYSTOP with 1056964608.
    destruct (Z.ltb_spec pa 1056964608), (Z.ltb_spec pa 2147483648), (Z.leb_spec 3221225472 pa), (Z.ltb_spec pa 4294967296); try done; lia. }
  destruct (decide (pa / 549755813888 = 0)) as [E0|E0]; last first.
  { rewrite Hnone; [dlia|]. apply walk_zero. change (2 ^ 39) with 549755813888. rewrite I0. rewrite H0; [dlia|]. apply (padded [_]). simpl. dlia. }
  rewrite (walk_table 39 _ _ _ k2); [done|done| |].
  { change (2 ^ 39) with 549755813888. rewrite I0 H0; [dlia|]. by rewrite E0. }
  assert (Hi1 : (pa / 1073741824) mod 512 = pa / 1073741824) by dlia. rewrite Hi1 in I1.
  destruct (decide (pa / 1073741824 = 0)) as [E1|E1].
  - rewrite (walk_table 30 _ _ _ k3); [done|done| |].
    { change (2 ^ 30) with 1073741824. rewrite I1 H2; [dlia|]. by rewrite E1. }
    assert (Hi2 : (pa / 2097152) mod 512 = pa / 2097152) by dlia. rewrite Hi2 in I2.
    rewrite (walk_block 21 _ _ _ (pa / 2097152) (if pa / 2097152 <? 504 then PTE_KERNEL_DATA else PTE_KERNEL_DEVICE));
      [by right|by destruct (_ <? _); auto|dlia|change (2 ^ 21) with 2097152; change (2 ^ 48) with 281474976710656; dlia| |].
    { change (2 ^ 21) with 2097152. rewrite I2 H3; [dlia|]. rewrite level3_entry; [dlia|done]. }
    change (2 ^ 21) with 2097152. rewrite M2 /boot_map. change PHYSTOP with 1056964608. change (2 ^ 31) with 2147483648.
    destruct (_ <? 504) eqn:E5; [apply Z.ltb_lt in E5; rewrite (proj2 (Z.ltb_lt _ _)); [dlia|]|apply Z.ltb_ge in E5; rewrite (proj2 (Z.ltb_ge _ _)); [dlia|rewrite (proj2 (Z.ltb_lt _ _)); [dlia|]]]; f_equal; f_equal; dlia.
  - assert (Hblock : ∀ q, pa / 1073741824 = q → q = 1 ∨ q = 3 → hw_walk [30; 21; 12] (K2P k2) (KSPACE_MASK + pa) = Some (pa, PTE_KERNEL_DEVICE)).
    { intros q Eq Hq. rewrite (walk_block 30 _ _ _ q PTE_KERNEL_DEVICE); [by left|by right|lia|destruct Hq as [-> | ->]; done| |].
      - change (2 ^ 30) with 1073741824. rewrite I1 H2; [dlia|]. rewrite Eq. by destruct Hq as [-> | ->].
      - change (2 ^ 30) with 1073741824. rewrite M1. f_equal. f_equal. dlia. }
    assert (Hdev : boot_map pa = Some (pa, PTE_KERNEL_DEVICE) ∨ (pa / 1073741824 ≠ 1 ∧ pa / 1073741824 ≠ 3)).
    { destruct (decide (pa / 1073741824 = 1)); [left|destruct (decide (pa / 1073741824 = 3)); [left|by right]]; rewrite /boot_map;
        change (3 * 2 ^ 30) with 3221225472; change (2 ^ 31) with 2147483648; change (2 ^ 32) with 4294967296; change PHYSTOP with 1056964608;
        (rewrite (proj2 (Z.ltb_ge _ 1056964608)); [dlia|]); [rewrite (proj2 (Z.ltb_lt _ 2147483648)); [dlia|done]|];
        rewrite (proj2 (Z.leb_le 3221225472 _)); [dlia|]; rewrite (proj2 (Z.ltb_lt _ 4294967296)); [dlia|]; by rewrite orb_true_r. }
    destruct Hdev as [Hd|[N1 N3]].
    + destruct (decide (pa / 1073741824 = 1)) as [E|]; [by rewrite (Hblock 1 E ltac:(by left)) Hd|].
      destruct (decide (pa / 1073741824 = 3)) as [E|]; [by rewrite (Hblock 3 E ltac:(by right)) Hd|]. exfalso. rewrite Hnone in Hd; [dlia|done].
    + rewrite Hnone; [dlia|]. apply walk_zero. change (2 ^ 30) with 1073741824. rewrite I1 H2; [dlia|].
      destruct (decide (pa / 1073741824 = 2)) as [->|]; [done|]. apply (padded [_; _; _; _]). simpl. dlia.
Qed.
End walk.

(** ** Tables somewhere in the kernel *)
Definition demo_k (i : Z) : Z := KSPACE_MASK + 0x100000 + 4096 * i.
Definition boot_mem (a : Z) : option Z :=
  let at_page (p : Z) (l : list Z) := l !! Z.to_nat ((a - p) / 8) in
  if a <? 0x101000 then at_page 0x100000 (kernel_pt (demo_k 1)) else if a <? 0x102000 then at_page 0x101000 (_kernel_pt_level2 (demo_k 2)) else at_page 0x102000 _kernel_pt_level3.
Lemma boot_holds n l i : 0 ≤ i < 512 → n ∈ [0; 1; 2] → l = (if n =? 0 then kernel_pt (demo_k 1) else if n =? 1 then _kernel_pt_level2 (demo_k 2) else _kernel_pt_level3) →
  boot_mem (K2P (demo_k n) + 8 * i) = l !! Z.to_nat i.
Proof.
  intros Hi Hn ->. assert (E : K2P (demo_k n) = 0x100000 + 4096 * n) by (repeat (apply elem_of_cons in Hn as [->|Hn]; [reflexivity|]); by apply not_elem_of_nil in Hn).
  rewrite E /boot_mem. repeat (apply elem_of_cons in Hn as [->|Hn]; [simpl (_ =? _)|]); [..|by apply not_elem_of_nil in Hn].
  - rewrite (proj2 (Z.ltb_lt _ _)); [lia|]. f_equal. f_equal. dlia.
  - rewrite (proj2 (Z.ltb_ge _ 0x101000)); [lia|]. rewrite (proj2 (Z.ltb_lt _ _)); [lia|]. f_equal. f_equal. dlia.
  - rewrite (proj2 (Z.ltb_ge _ 0x101000)); [lia|]. rewrite (proj2 (Z.ltb_ge _ 0x102000)); [lia|]. f_equal. f_equal. dlia.
Qed.
Lemma demo_page i : 0 ≤ i < 3 → page_addr (demo_k i).
Proof. intros Hi. rewrite /page_addr /demo_k /KSPACE_MASK. split; [|lia]. dlia. Qed.
Lemma kernel_pt_maps_witness : hw_walk boot_mem LEVELS (K2P (demo_k 0)) (KSPACE_MASK + 0x80000) = Some (0x80000, PTE_KERNEL_DATA).
Proof.
  etransitivity; [apply (kernel_pt_maps boot_mem (demo_k 0) (demo_k 1) (demo_k 2) 0x80000)|reflexivity].
  - apply demo_page. lia.
  - apply demo_page. lia.
  - intros i Hi. apply boot_holds; [exact Hi|set_solver|reflexivity].
  - intros i Hi. apply boot_holds; [exact Hi|set_solver|reflexivity].
  - intros i Hi. apply boot_holds; [exact Hi|set_solver|reflexivity].
  - lia.
Defined.
