(* ===== verification/RBTree.v ===== *)
(** * The red-black tree of the kernel (common/rbtree.c)

    Nodes live in a heap from addresses to the three fields of [struct rb_node_];
    a tree is named by the address of its [struct rb_root_].  The colour of a node
    is the low bit of the word that holds its parent's address, as in the code.
    The two halves of the loop bodies of [__rb_insert_fix] and [__rb_erase_fix]
    are mirror images of each other, so each is one definition with the side as an
    argument: [L] gives the first half of the C text and [R] the second. *)

From S2P Require Import Prelude.

Inductive side := L | R.
#[export] Instance side_eq_dec : EqDecision side.
Proof. solve_decision. Defined.
Definition opp (d : side) : side := match d with L => R | R => L end.

Record rb_node_ := mkRB { rb_parent_color : Z; rb_right : Z; rb_left : Z }.
Definition child (d : side) (n : rb_node_) : Z := match d with L => rb_left n | R => rb_right n end.
Definition with_child (d : side) (v : Z) (n : rb_node_) : rb_node_ :=
  match d with L => mkRB (rb_parent_color n) (rb_right n) v | R => mkRB (rb_parent_color n) v (rb_left n) end.
Definition with_pc (v : Z) (n : rb_node_) : rb_node_ := mkRB v (rb_right n) (rb_left n).

Record rbheap := mkRBH { nodes : gmap Z rb_node_; roots : gmap Z Z }.
Definition set_nodes v (h : rbheap) := mkRBH v (roots h).
Definition set_roots v (h : rbheap) := mkRBH (nodes h) v.

Definition ld (a : Z) : M rbheap rb_node_ := m ← gets nodes; of_opt (m !! a).
Definition upd (a : Z) (f : rb_node_ → rb_node_) : M rbheap () :=
  n ← ld a; modify (λ h, set_nodes (<[a := f n]> (nodes h)) h).
Definition get_child (d : side) (a : Z) : M rbheap Z := n ← ld a; mret (child d n).
Definition set_child (d : side) (a v : Z) : M rbheap () := upd a (with_child d v).
Definition get_pc (a : Z) : M rbheap Z := n ← ld a; mret (rb_parent_color n).
Definition set_pc (a v : Z) : M rbheap () := upd a (with_pc v).
Definition get_root (rt : Z) : M rbheap Z := m ← gets roots; of_opt (m !! rt).
Definition set_root (rt v : Z) : M rbheap () :=
  get_root rt;; modify (λ h, set_roots (<[rt := v]> (roots h)) h).

(** ** Colours and parents *)
Definition RB_RED : Z := 0.
Definition RB_BLACK : Z := 1.
Definition __rb_parent (pc : Z) : Z := Z.land pc (Z.lnot 3).
Definition __rb_color (pc : Z) : Z := Z.land pc 1.
Definition __rb_is_black (pc : Z) : bool := negb (__rb_color pc =? 0).
Definition __rb_is_red (pc : Z) : bool := __rb_color pc =? 0.
Definition rb_parent (r : Z) : M rbheap Z := pc ← get_pc r; mret (__rb_parent pc).
Definition rb_is_red (r : Z) : M rbheap bool := pc ← get_pc r; mret (__rb_is_red pc).
Definition rb_is_black (r : Z) : M rbheap bool := pc ← get_pc r; mret (__rb_is_black pc).
Definition rb_set_black (r : Z) : M rbheap () := pc ← get_pc r; set_pc r (Z.lor pc RB_BLACK).
Definition rb_red_parent (r : Z) : M rbheap Z := get_pc r.
Definition rb_set_parent (r p : Z) : M rbheap () := pc ← get_pc r; set_pc r (Z.lor (__rb_color pc) p).
Definition rb_set_parent_color (r p color : Z) : M rbheap () := set_pc r (Z.lor p color).

Definition __rb_change_child (old new parent root : Z) : M rbheap () :=
  if decide (parent ≠ 0) then
    l ← get_child L parent;
    if decide (l = old) then set_child L parent new else set_child R parent new
  else set_root root new.

Definition __rb_rotate_set_parents (old new root color : Z) : M rbheap () :=
  parent ← rb_parent old;
  pc ← get_pc old;
  set_pc new pc;;
  rb_set_parent_color old new color;;
  __rb_change_child old new parent root.

(** [if (tmp) rb_set_parent_color(tmp, p, color);] and the same for
    [rb_set_parent]; the test of a child that may be absent. *)
Definition set_parent_color_if (tmp p color : Z) : M rbheap () :=
  if decide (tmp ≠ 0) then rb_set_parent_color tmp p color else mret ().
Definition set_parent_if (tmp p : Z) : M rbheap () :=
  if decide (tmp ≠ 0) then rb_set_parent tmp p else mret ().
Definition present_red (tmp : Z) : M rbheap bool :=
  if decide (tmp ≠ 0) then rb_is_red tmp else mret false.
Definition absent_or_black (tmp : Z) : M rbheap bool :=
  if decide (tmp = 0) then mret true else rb_is_black tmp.

(** ** Rebalancing after an insertion

    The body of the loop once [parent] is red, [parent] being the child of
    [gparent] on side [d].  [Some (node, parent)] is [continue], [None] is
    [break]. *)
Definition insert_fix_side (d : side) (root node parent gparent : Z) : M rbheap (option (Z * Z)) :=
  tmp ← get_child (opp d) gparent;
  red ← present_red tmp;
  if (red : bool) then
    rb_set_parent_color tmp gparent RB_BLACK;;
    rb_set_parent_color parent gparent RB_BLACK;;
    parent' ← rb_parent gparent;
    rb_set_parent_color gparent parent' RB_RED;;
    mret (Some (gparent, parent'))
  else
    tmp ← get_child (opp d) parent;
    '(parent, tmp) ←
      (if decide (node = tmp) then
         tmp ← get_child d node;
         set_child (opp d) parent tmp;;
         set_parent_color_if tmp parent RB_BLACK;;
         set_child d node parent;;
         rb_set_parent_color parent node RB_RED;;
         tmp ← get_child (opp d) node;
         mret (node, tmp)
       else mret (parent, tmp));
    set_child d gparent tmp;;
    set_parent_color_if tmp gparent RB_BLACK;;
    set_child (opp d) parent gparent;;
    __rb_rotate_set_parents gparent parent root RB_RED;;
    mret None.

Fixpoint insert_fix_loop (fuel : nat) (root node parent : Z) : M rbheap () :=
  match fuel with
  | O => nofuel
  | S fuel =>
      if decide (parent = 0) then rb_set_parent_color node 0 RB_BLACK;; set_root root node
      else
        black ← rb_is_black parent;
        if (black : bool) then mret ()
        else
          gparent ← rb_red_parent parent;
          tmp ← get_child R gparent;
          next ← (if decide (parent ≠ tmp) then insert_fix_side L root node parent gparent
                  else insert_fix_side R root node parent gparent);
          match next with
          | Some (node, parent) => insert_fix_loop fuel root node parent
          | None => mret ()
          end
  end.

(** A path from a node to the root has at most as many nodes as the heap. *)
Definition heap_fuel : M rbheap nat := gets (λ h, S (size (nodes h))).

Definition __rb_insert_fix (node root : Z) : M rbheap () :=
  parent ← rb_red_parent node;
  fuel ← heap_fuel;
  insert_fix_loop fuel root node parent.

(** One step of the descent from [nw] to its child on side [d], where the node is
    linked when that child is absent. *)
Definition step_to (d : side) (nw node : Z) : M rbheap Z :=
  nw' ← get_child d nw;
  (if decide (nw' = 0) then set_child d nw node;; set_pc node nw else mret ());;
  mret nw'.

Fixpoint insert_descend (fuel : nat) (cmp : Z → Z → bool) (node nw : Z) : M rbheap Z :=
  match fuel with
  | O => nofuel
  | S fuel =>
      if decide (nw = 0) then mret 0
      else if cmp node nw then nw' ← step_to L nw node; insert_descend fuel cmp node nw'
      else if cmp nw node then nw' ← step_to R nw node; insert_descend fuel cmp node nw'
      else mret (-1)
  end.

Definition _rb_insert (node rt : Z) (cmp : Z → Z → bool) : M rbheap Z :=
  nw ← get_root rt;
  set_child R node 0;;
  set_child L node 0;;
  set_pc node 0;;
  fuel ← heap_fuel;
  r ← insert_descend fuel cmp node nw;
  if decide (r = -1) then mret (-1)
  else __rb_insert_fix node rt;; mret 0.

(** ** Removal *)
Fixpoint successor_loop (fuel : nat) (parent successor tmp : Z) : M rbheap (Z * Z) :=
  match fuel with
  | O => nofuel
  | S fuel =>
      if decide (tmp = 0) then mret (parent, successor)
      else tmp' ← get_child L tmp; successor_loop fuel successor tmp tmp'
  end.

(** Find the successor of a node whose right child is [child] and unlink it from
    its parent: the parent, the successor and the successor's right child. *)
Definition splice_successor (child : Z) : M rbheap (Z * Z * Z) :=
  tmp ← get_child L child;
  if decide (tmp = 0) then
    child2 ← get_child R child;
    mret (child, child, child2)
  else
    fuel ← heap_fuel;
    '(parent, successor) ← successor_loop fuel child child tmp;
    child2 ← get_child R successor;
    set_child L parent child2;;
    set_child R successor child;;
    rb_set_parent child successor;;
    mret (parent, successor, child2).

(** The node to rebalance from, 0 when none. *)
Definition __rb_erase (node root : Z) : M rbheap Z :=
  child ← get_child R node;
  tmp ← get_child L node;
  if decide (tmp = 0) then
    pc ← get_pc node;
    let parent := __rb_parent pc in
    __rb_change_child node child parent root;;
    if decide (child ≠ 0) then set_pc child pc;; mret 0
    else mret (if __rb_is_black pc then parent else 0)
  else if decide (child = 0) then
    pc ← get_pc node;
    set_pc tmp pc;;
    let parent := __rb_parent pc in
    __rb_change_child node tmp parent root;;
    mret 0
  else
    '(parent, successor, child2) ← splice_successor child;
    tmp ← get_child L node;
    set_child L successor tmp;;
    rb_set_parent tmp successor;;
    pc ← get_pc node;
    let tmp := __rb_parent pc in
    __rb_change_child node successor tmp root;;
    if decide (child2 ≠ 0) then
      set_pc successor pc;;
      rb_set_parent_color child2 parent RB_BLACK;;
      mret 0
    else
      pc2 ← get_pc successor;
      set_pc successor pc;;
      mret (if __rb_is_black pc2 then parent else 0).

(** The body of the loop of [__rb_erase_fix] when the node that lost a black is on
    side [d] of [parent].  Case 1, a red sibling: rotate it above [parent]; the
    result is the sibling to go on with. *)
Definition erase_fix_sibling (d : side) (root parent : Z) : M rbheap Z :=
  sibling ← get_child (opp d) parent;
  red ← rb_is_red sibling;
  if (red : bool) then
    tmp1 ← get_child d sibling;
    set_child (opp d) parent tmp1;;
    rb_set_parent_color tmp1 parent RB_BLACK;;
    set_child d sibling parent;;
    __rb_rotate_set_parents parent sibling root RB_RED;;
    mret tmp1
  else mret sibling.

(** The last rotation, [tmp1] being the child of [sibling] away from the node. *)
Definition erase_fix_rotate (d : side) (root parent sibling tmp1 : Z) : M rbheap () :=
  tmp2 ← get_child d sibling;
  set_child (opp d) parent tmp2;;
  set_parent_if tmp2 parent;;
  set_child d sibling parent;;
  rb_set_parent_color tmp1 sibling RB_BLACK;;
  __rb_rotate_set_parents parent sibling root RB_BLACK.

(** [Some (node, parent)] is [continue], [None] is [break]. *)
Definition erase_fix_black (d : side) (root parent sibling : Z) : M rbheap (option (Z * Z)) :=
  tmp1 ← get_child (opp d) sibling;
  b1 ← absent_or_black tmp1;
  if (b1 : bool) then
    tmp2 ← get_child d sibling;
    b2 ← absent_or_black tmp2;
    if (b2 : bool) then
      rb_set_parent_color sibling parent RB_RED;;
      pred ← rb_is_red parent;
      if (pred : bool) then rb_set_black parent;; mret None
      else
        parent' ← rb_parent parent;
        mret (if decide (parent' ≠ 0) then Some (parent, parent') else None)
    else
      tmp1 ← get_child (opp d) tmp2;
      set_child d sibling tmp1;;
      set_parent_color_if tmp1 sibling RB_BLACK;;
      set_child (opp d) tmp2 sibling;;
      set_child (opp d) parent tmp2;;
      erase_fix_rotate d root parent tmp2 sibling;;
      mret None
  else
    erase_fix_rotate d root parent sibling tmp1;;
    mret None.

Definition erase_fix_side (d : side) (root parent : Z) : M rbheap (option (Z * Z)) :=
  sibling ← erase_fix_sibling d root parent;
  erase_fix_black d root parent sibling.

Fixpoint erase_fix_loop (fuel : nat) (root node parent : Z) : M rbheap () :=
  match fuel with
  | O => nofuel
  | S fuel =>
      sibling ← get_child R parent;
      next ← (if decide (node ≠ sibling) then erase_fix_side L root parent else erase_fix_side R root parent);
      match next with
      | Some (node, parent) => erase_fix_loop fuel root node parent
      | None => mret ()
      end
  end.

Definition __rb_erase_fix (parent root : Z) : M rbheap () :=
  fuel ← heap_fuel; erase_fix_loop fuel root 0 parent.

Definition _rb_erase (node root : Z) : M rbheap () :=
  rebalance ← __rb_erase node root;
  if decide (rebalance ≠ 0) then __rb_erase_fix rebalance root else mret ().

(** ** Search *)
Fixpoint lookup_loop (fuel : nat) (cmp : Z → Z → bool) (node nw : Z) : M rbheap Z :=
  match fuel with
  | O => nofuel
  | S fuel =>
      if decide (nw = 0) then mret 0
      else if cmp node nw then nw' ← get_child L nw; lookup_loop fuel cmp node nw'
      else if cmp nw node then nw' ← get_child R nw; lookup_loop fuel cmp node nw'
      else mret nw
  end.

Definition _rb_lookup (node rt : Z) (cmp : Z → Z → bool) : M rbheap Z :=
  nw ← get_root rt; fuel ← heap_fuel; lookup_loop fuel cmp node nw.

Fixpoint first_loop (fuel : nat) (n : Z) : M rbheap Z :=
  match fuel with
  | O => nofuel
  | S fuel => l ← get_child L n; if decide (l = 0) then mret n else first_loop fuel l
  end.

Definition _rb_first (root : Z) : M rbheap Z :=
  n ← get_root root;
  if decide (n = 0) then mret 0 else fuel ← heap_fuel; first_loop fuel n.
