(* ===== verification/RBRep.v ===== *)
(** * Red-black trees in the node heap

    The abstract trees the heap of RBTree.v represents, the red-black invariant,
    zippers (a subtree and the path above it, the view the rebalancing loops
    have), and one rule per heap access of the code. *)

From Stdlib Require Import Sorted.
From S2P Require Import Prelude RBTree.

Inductive color := Red | Black.
Definition cz (c : color) : Z := match c with Red => RB_RED | Black => RB_BLACK end.
Arguments cz : simpl never.

(** A tree, its nodes named by their addresses. *)
Inductive tree := E | T (c : color) (l : tree) (a : Z) (r : tree).
#[export] Instance color_eq_dec : EqDecision color.
Proof. solve_decision. Defined.
#[export] Instance tree_eq_dec : EqDecision tree.
Proof. solve_decision. Defined.

(** The tree with root [a], [x] on side [d] and [y] on the other side. *)
Definition mk (d : side) (c : color) (x : tree) (a : Z) (y : tree) : tree :=
  match d with L => T c x a y | R => T c y a x end.
Definition mkn (d : side) (pc x y : Z) : rb_node_ :=
  match d with L => mkRB pc y x | R => mkRB pc x y end.
Definition ptr (t : tree) : Z := match t with E => 0 | T _ _ a _ => a end.
Fixpoint inorder (t : tree) : list Z :=
  match t with E => [] | T _ l a r => inorder l ++ a :: inorder r end.
Fixpoint tsize (t : tree) : nat := match t with E => 0%nat | T _ l _ r => S (tsize l + tsize r) end.

(** The red-black invariant: [rb c n t] says the root of [t] has colour [c], no red
    node has a red child and every path has [n] black nodes. *)
Fixpoint rb (c : color) (n : nat) (t : tree) : Prop :=
  match t with
  | E => c = Black ∧ n = 0%nat
  | T Red l _ r => c = Red ∧ rb Black n l ∧ rb Black n r
  | T Black l _ r => c = Black ∧ ∃ n', n = S n' ∧ (∃ cl, rb cl n' l) ∧ ∃ cr, rb cr n' r
  end.
Definition recolor (c : color) (x : tree) : tree := match x with E => E | T _ l a r => T c l a r end.
Definition rbtree (t : tree) : Prop := ∃ n, rb Black n t.

(** ** Counting addresses

    A tree has no address twice: stated by counting, so that disjointness of the
    parts of a tree is linear arithmetic. *)
Definition eqn (z a : Z) : nat := if decide (z = a) then 1%nat else 0%nat.
Fixpoint cnt (z : Z) (t : tree) : nat :=
  match t with E => 0%nat | T _ l a r => (eqn z a + cnt z l + cnt z r)%nat end.
Fixpoint cntl (z : Z) (l : list Z) : nat :=
  match l with [] => 0%nat | a :: l => (eqn z a + cntl z l)%nat end.

Lemma eqn_refl z : eqn z z = 1%nat.
Proof. rewrite /eqn. by rewrite decide_True. Qed.
Lemma eqn_0 z a : eqn z a = 0%nat ↔ z ≠ a.
Proof. rewrite /eqn. case_decide; naive_solver. Qed.
Lemma cntl_app z l l' : cntl z (l ++ l') = (cntl z l + cntl z l')%nat.
Proof. induction l as [|a l IH]; simpl; [done|lia]. Qed.
Lemma cnt_inorder z t : cnt z t = cntl z (inorder t).
Proof. induction t as [|c l IHl a r IHr]; simpl; [done|]. rewrite cntl_app /=. lia. Qed.
Lemma cntl_elem z l : z ∈ l ↔ cntl z l ≠ 0%nat.
Proof.
  induction l as [|a l IH]; simpl; [set_solver|]. rewrite elem_of_cons IH.
  destruct (decide (z = a)) as [->|H]; [rewrite eqn_refl; naive_solver lia|].
  rewrite (proj2 (eqn_0 _ _) H). naive_solver.
Qed.
Lemma cntl_NoDup l : NoDup l ↔ ∀ z, (cntl z l ≤ 1)%nat.
Proof.
  induction l as [|a l IH]; simpl; [split; [lia|intros; apply NoDup_nil_2]|]. rewrite NoDup_cons IH cntl_elem. split.
  - intros [H1 H2] z. specialize (H2 z). destruct (decide (z = a)) as [->|Hz]; [rewrite eqn_refl; lia|].
    apply eqn_0 in Hz as ->. lia.
  - intros H. split.
    + specialize (H a). rewrite eqn_refl in H. lia.
    + intros z. specialize (H z). lia.
Qed.
Lemma cnt_mk z d c x a y : cnt z (mk d c x a y) = (eqn z a + cnt z x + cnt z y)%nat.
Proof. destruct d; simpl; lia. Qed.

(** ** The heap of a tree *)
Definition ok (a : Z) : Prop := 0 < a ∧ a mod 4 = 0.
Definition ok0 (a : Z) : Prop := 0 ≤ a ∧ a mod 4 = 0.
Fixpoint rep (m : gmap Z rb_node_) (par : Z) (t : tree) : Prop :=
  match t with
  | E => True
  | T c l a r => ok a ∧ m !! a = Some (mkRB (par + cz c) (ptr r) (ptr l)) ∧ rep m a l ∧ rep m a r
  end.

Lemma ok_ok0 a : ok a → ok0 a.
Proof. rewrite /ok /ok0. lia. Qed.
Lemma ok0_0 : ok0 0.
Proof. by split. Qed.
Lemma ok_ne a : ok a → a ≠ 0.
Proof. rewrite /ok. lia. Qed.

Lemma rep_mk m par d c x a y :
  rep m par (mk d c x a y) ↔ ok a ∧ m !! a = Some (mkn d (par + cz c) (ptr x) (ptr y)) ∧ rep m a x ∧ rep m a y.
Proof. destruct d; simpl; naive_solver. Qed.
Lemma rep_ok0 m par t : rep m par t → ok0 (ptr t).
Proof. destruct t; simpl; [intros; apply ok0_0|]. intros [? _]. by apply ok_ok0. Qed.
Lemma ptr_mk d c x a y : ptr (mk d c x a y) = a.
Proof. by destruct d. Qed.
Lemma mk_view d t : t = E ∨ ∃ c x a y, t = mk d c x a y.
Proof. destruct t as [|c l a r]; [by left|right]. destruct d; [by exists c, l, a, r|by exists c, r, a, l]. Qed.
Lemma rb_red d c n x a y : rb c n (mk d Red x a y) ↔ c = Red ∧ rb Black n x ∧ rb Black n y.
Proof. destruct d; simpl; naive_solver. Qed.
Lemma rb_black d c n x a y :
  rb c n (mk d Black x a y) ↔ c = Black ∧ ∃ n', n = S n' ∧ (∃ cx, rb cx n' x) ∧ ∃ cy, rb cy n' y.
Proof. destruct d; simpl; naive_solver. Qed.
Lemma rb_red_i d n x a y : rb Black n x → rb Black n y → rb Red n (mk d Red x a y).
Proof. intros. by apply rb_red. Qed.
Lemma rb_black_i d n cx cy x a y : rb cx n x → rb cy n y → rb Black (S n) (mk d Black x a y).
Proof. intros. apply rb_black. split; [done|]. exists n. eauto. Qed.
Lemma rb_recolor n x : rb Red n x → rb Black (S n) (recolor Black x).
Proof. destruct x as [|[] l a r]; simpl; [naive_solver|idtac|naive_solver]. intros (_ & ? & ?). split; [done|]. exists n. eauto. Qed.
Lemma rb_S_ne c n x : rb c (S n) x → x ≠ E.
Proof. intros H ->. by destruct H. Qed.
Lemma rb_Red_ne n x : rb Red n x → x ≠ E.
Proof. intros H ->. by destruct H. Qed.
Lemma ptr_cnt z t : ptr t = z → z ≠ 0 → cnt z t ≠ 0%nat.
Proof. destruct t as [|c l a r]; simpl; [by intros <-|]. intros ->. rewrite eqn_refl. lia. Qed.

Lemma rep_insert m par t a n : cnt a t = 0%nat → rep m par t → rep (<[a := n]> m) par t.
Proof.
  revert par. induction t as [|c l IHl b r IHr]; simpl; [done|]. intros par H (? & Hb & Hl & Hr).
  assert (a ≠ b) by (apply eqn_0; lia). rewrite lookup_insert_ne //.
  split_and!; [done..|apply IHl; [lia|done]|apply IHr; [lia|done]].
Qed.

(** ** Zippers

    A frame is a node above the focus: the side of the focus, the node's colour and
    address, and its other subtree.  A context lists the frames from the focus
    up. *)
Record frame := mkFr { fd : side; fc : color; fa : Z; fs : tree }.
Fixpoint plug (k : list frame) (t : tree) : tree :=
  match k with [] => t | f :: k => plug k (mk (fd f) (fc f) t (fa f) (fs f)) end.
Definition cpar (k : list frame) : Z := match k with [] => 0 | f :: _ => fa f end.
Fixpoint cntc (z : Z) (k : list frame) : nat :=
  match k with [] => 0%nat | f :: k => (eqn z (fa f) + cnt z (fs f) + cntc z k)%nat end.
Fixpoint repc (m : gmap Z rb_node_) (k : list frame) (p : Z) : Prop :=
  match k with
  | [] => True
  | f :: k => ok (fa f) ∧ m !! fa f = Some (mkn (fd f) (cpar k + cz (fc f)) p (ptr (fs f))) ∧
              rep m (fa f) (fs f) ∧ repc m k (fa f)
  end.
(** The context accepts a focus of colour [c] and black height [n]. *)
Fixpoint kok (c : color) (n : nat) (k : list frame) : Prop :=
  match k with
  | [] => c = Black
  | f :: k => match fc f with
              | Red => c = Black ∧ rb Black n (fs f) ∧ kok Red n k
              | Black => (∃ cs, rb cs n (fs f)) ∧ kok Black (S n) k
              end
  end.
Definition uniq (k : list frame) (t : tree) : Prop := ∀ z, (cnt z t + cntc z k ≤ 1)%nat.

Lemma cnt_plug z k t : cnt z (plug k t) = (cnt z t + cntc z k)%nat.
Proof. revert t. induction k as [|f k IH]; intros t; simpl; [lia|]. rewrite IH cnt_mk. lia. Qed.
Lemma rep_plug m k t : rep m 0 (plug k t) ↔ rep m (cpar k) t ∧ repc m k (ptr t).
Proof.
  revert t. induction k as [|f k IH]; intros t; simpl; [naive_solver|]. rewrite IH rep_mk ptr_mk. naive_solver.
Qed.
Lemma plug_rb k c n t : rb c n t → kok c n k → rbtree (plug k t).
Proof.
  revert c n t. induction k as [|[d [] a s] k IH]; intros c n t H; simpl.
  - intros ->. by exists n.
  - intros (-> & Hs & Hk). apply (IH Red n); [|done]. by apply rb_red.
  - intros ([cs Hs] & Hk). apply (IH Black (S n)); [|done]. apply rb_black. naive_solver.
Qed.
Lemma kok_black c n k : kok c n k → kok Black n k.
Proof. destruct k as [|[d [] a s] k]; simpl; naive_solver. Qed.
Lemma kok_red_black n k : kok Red n k → ∃ d a s k', k = mkFr d Black a s :: k'.
Proof. destruct k as [|[d [] a s] k]; simpl; naive_solver. Qed.
Lemma repc_ok0 m k p : repc m k p → ok0 (cpar k).
Proof. destruct k as [|f k]; simpl; [intros; apply ok0_0|]. intros [? _]. by apply ok_ok0. Qed.
Lemma repc_insert m k p a n : cntc a k = 0%nat → repc m k p → repc (<[a := n]> m) k p.
Proof.
  revert p. induction k as [|f k IH]; simpl; [done|]. intros p H (? & Hb & Hs & Hk).
  assert (a ≠ fa f) by (apply eqn_0; lia). rewrite lookup_insert_ne //.
  split_and!; [done..|apply rep_insert; [lia|done]|apply IH; [lia|done]].
Qed.
Lemma plug_app k k' t : plug (k ++ k') t = plug k' (plug k t).
Proof. revert t. induction k as [|f k IH]; intros t; simpl; [done|by rewrite IH]. Qed.
Lemma ptr_plug f k t t' : ptr (plug (f :: k) t) = ptr (plug (f :: k) t').
Proof. revert f t t'. induction k as [|g k IH]; intros f t t'; [simpl; by rewrite !ptr_mk|]. apply (IH g). Qed.
Lemma inorder_plug k : ∃ A B, ∀ t, inorder (plug k t) = A ++ inorder t ++ B.
Proof.
  induction k as [|[d c a s] k (A & B & IH)]; [exists [], []; intros; by rewrite app_nil_r|].
  destruct d.
  - exists A, (a :: inorder s ++ B). intros t. rewrite /= IH /= -!app_assoc. done.
  - exists (A ++ inorder s ++ [a]), B. intros t. rewrite /= IH /= -!app_assoc. done.
Qed.
Lemma inorder_cong k t t' : inorder t = inorder t' → inorder (plug k t) = inorder (plug k t').
Proof. destruct (inorder_plug k) as (A & B & H). rewrite !H. by intros ->. Qed.

(** ** The updates the code makes *)

(** The root of [x] gets the word [pc]. *)
Definition reroot (x : tree) (pc : Z) (m : gmap Z rb_node_) : gmap Z rb_node_ :=
  match x with E => m | T _ l a r => <[a := mkRB pc (ptr r) (ptr l)]> m end.
Definition tcolor (x : tree) : color := match x with E => Black | T c _ _ _ => c end.
(** The frame above the focus points to [new]. *)
Definition ctx_upd (k : list frame) (new : Z) (m : gmap Z rb_node_) : gmap Z rb_node_ :=
  match k with [] => m | f :: k => <[fa f := mkn (fd f) (cpar k + cz (fc f)) new (ptr (fs f))]> m end.
Definition root_upd (k : list frame) (rt new : Z) (rs : gmap Z Z) : gmap Z Z :=
  match k with [] => <[rt := new]> rs | _ => rs end.

Lemma lookup_reroot x pc m a : cnt a x = 0%nat → reroot x pc m !! a = m !! a.
Proof. destruct x as [|c l b r]; simpl; [done|]. intros. rewrite lookup_insert_ne //. apply not_eq_sym, eqn_0. lia. Qed.
Lemma lookup_ctx_upd k v m a : cntc a k = 0%nat → ctx_upd k v m !! a = m !! a.
Proof. destruct k as [|f k]; simpl; [done|]. intros. rewrite lookup_insert_ne //. apply not_eq_sym, eqn_0. lia. Qed.
Lemma rep_reroot x pc m par t :
  (∀ z, (cnt z t + cnt z x ≤ 1)%nat) → rep m par t → rep (reroot x pc m) par t.
Proof.
  destruct x as [|c l b r]; simpl; [done|]. intros H. apply rep_insert. specialize (H b). rewrite eqn_refl in H. lia.
Qed.
Lemma repc_reroot x pc m k p :
  (∀ z, (cnt z x + cntc z k ≤ 1)%nat) → repc m k p → repc (reroot x pc m) k p.
Proof.
  destruct x as [|c l b r]; simpl; [done|]. intros H. apply repc_insert. specialize (H b). rewrite eqn_refl in H. lia.
Qed.
Lemma rep_reroot_self x par par' c m :
  (∀ z, (cnt z x ≤ 1)%nat) → rep m par x → rep (reroot x (par' + cz c) m) par' (recolor c x).
Proof.
  destruct x as [|cx l b r]; simpl; [done|]. intros U (? & _ & Hl & Hr). specialize (U b). rewrite eqn_refl in U.
  split_and!; [done|apply lookup_insert_eq|apply rep_insert; [lia|done]..].
Qed.
Lemma rep_ctx_upd k v m par t :
  (∀ z, (cnt z t + cntc z k ≤ 1)%nat) → rep m par t → rep (ctx_upd k v m) par t.
Proof.
  destruct k as [|f k]; simpl; [done|]. intros H. apply rep_insert. specialize (H (fa f)). rewrite eqn_refl in H. lia.
Qed.
Lemma repc_ctx_upd k m p v : (∀ z, (cntc z k ≤ 1)%nat) → repc m k p → repc (ctx_upd k v m) k v.
Proof.
  destruct k as [|f k]; simpl; [done|]. intros H (? & Hb & Hs & Hk). specialize (H (fa f)). rewrite eqn_refl in H.
  split_and!; [done|apply lookup_insert_eq|apply rep_insert; [lia|done]|apply repc_insert; [lia|done]].
Qed.
Lemma inorder_recolor c x : inorder (recolor c x) = inorder x.
Proof. by destruct x. Qed.
Lemma inorder_mk_recolor d c c' x a y : inorder (mk d c x a (recolor c' y)) = inorder (mk d c x a y).
Proof. by destruct d; simpl; rewrite inorder_recolor. Qed.
Lemma inorder_rotate d c1 c2 c3 c4 x a y b z :
  inorder (mk d c1 (mk d c2 x a y) b z) = inorder (mk d c3 x a (mk d c4 y b z)).
Proof. destruct d; simpl; by repeat (rewrite -app_assoc /=). Qed.
Lemma inorder_mk d c c' x a y y' : inorder y = inorder y' → inorder (mk d c x a y) = inorder (mk d c' x a y').
Proof. destruct d; simpl; by intros ->. Qed.
Lemma recolor_id x : recolor (tcolor x) x = x.
Proof. by destruct x. Qed.
Lemma recolor_black n x : rb Black n x → recolor Black x = x.
Proof. destruct x as [|[] l a r]; simpl; naive_solver. Qed.
Lemma tcolor_rb c n x : rb c n x → tcolor x = c.
Proof. destruct x as [|[] l a r]; simpl; naive_solver. Qed.

Lemma rep_reroot_black n x par par' m :
  rb Black n x → (∀ z, (cnt z x ≤ 1)%nat) → rep m par x → rep (reroot x (par' + cz Black) m) par' x.
Proof. intros H U Hx. rewrite -{2}(recolor_black n x H). by apply (rep_reroot_self _ par). Qed.
Lemma rep_reroot_same x par par' m :
  (∀ z, (cnt z x ≤ 1)%nat) → rep m par x → rep (reroot x (par' + cz (tcolor x)) m) par' x.
Proof. intros U Hx. rewrite -{3}(recolor_id x). by apply (rep_reroot_self _ par). Qed.

(** ** One rule per heap access *)
Lemma child_mkn d pc x y : child d (mkn d pc x y) = x.
Proof. by destruct d. Qed.
Lemma child_opp_mkn d pc x y : child (opp d) (mkn d pc x y) = y.
Proof. by destruct d. Qed.
Lemma with_child_mkn d v pc x y : with_child d v (mkn d pc x y) = mkn d pc v y.
Proof. by destruct d. Qed.
Lemma with_child_opp_mkn d v pc x y : with_child (opp d) v (mkn d pc x y) = mkn d pc x v.
Proof. by destruct d. Qed.
Lemma with_pc_mkn d v pc x y : with_pc v (mkn d pc x y) = mkn d v x y.
Proof. by destruct d. Qed.
Lemma pc_mkn d pc x y : rb_parent_color (mkn d pc x y) = pc.
Proof. by destruct d. Qed.
Lemma mkn_opp d pc x y : mkn (opp d) pc x y = mkn d pc y x.
Proof. by destruct d. Qed.
Create HintDb rbn.
#[export] Hint Rewrite child_mkn child_opp_mkn with_child_mkn with_child_opp_mkn with_pc_mkn pc_mkn mkn_opp : rbn.

Lemma cz_range c : 0 ≤ cz c ≤ 1.
Proof. destruct c; rewrite /cz /RB_RED /RB_BLACK; lia. Qed.
Lemma land_not3 x : Z.land x (Z.lnot 3) = x - x mod 4.
Proof.
  change 3 with (Z.ones 2). rewrite -Z.ldiff_land Z.ldiff_ones_r; [lia|]. rewrite Z.shiftl_mul_pow2; [lia|].
  rewrite Z.shiftr_div_pow2; [lia|]. change (2 ^ 2) with 4. pose proof (Z.div_mod x 4). lia.
Qed.
Lemma parent_pc p c : ok0 p → __rb_parent (p + cz c) = p.
Proof. intros [H1 H2]. rewrite /__rb_parent land_not3. pose proof (cz_range c). dlia. Qed.
Lemma color_pc p c : ok0 p → __rb_color (p + cz c) = cz c.
Proof.
  intros [H1 H2]. rewrite /__rb_color. change 1 with (Z.ones 1). rewrite Z.land_ones; [lia|]. change (2 ^ 1) with 2.
  pose proof (cz_range c). dlia.
Qed.
Lemma lor_pc p c : ok0 p → Z.lor p (cz c) = p + cz c.
Proof.
  intros [H1 H2]. destruct c; rewrite /cz /RB_RED /RB_BLACK; [rewrite Z.lor_0_r; lia|].
  rewrite Z.add_nocarry_lxor; [|rewrite -Z.lxor_lor //].
  all: apply Z.bits_inj'; intros i Hi; rewrite Z.land_spec Z.bits_0.
  all: destruct (decide (i = 0)) as [->|]; [|rewrite (Z.bits_above_log2 1); [simpl; lia..|by rewrite andb_false_r]].
  all: rewrite Z.bit0_odd; assert (Z.odd p = false) as ->; [|done].
  all: rewrite -Z.negb_even; apply negb_false_iff, Z.even_spec; exists (2 * (p / 4)); dlia.
Qed.

Section rules.
Implicit Types (m : gmap Z rb_node_) (rs : gmap Z Z) (n : rb_node_).

Lemma wp_get_child m rs d a n (Q : Z → rbheap → Prop) :
  m !! a = Some n → Q (child d n) (mkRBH m rs) → wp (get_child d a) Q (mkRBH m rs).
Proof. intros H ?. rewrite /wp /get_child /ld. run_simpl. by rewrite H. Qed.
Lemma wp_set_child m rs d a v n (Q : () → rbheap → Prop) :
  m !! a = Some n → Q () (mkRBH (<[a := with_child d v n]> m) rs) → wp (set_child d a v) Q (mkRBH m rs).
Proof. intros H ?. rewrite /wp /set_child /upd /ld. run_simpl. by rewrite H. Qed.
Lemma wp_get_pc m rs a n (Q : Z → rbheap → Prop) :
  m !! a = Some n → Q (rb_parent_color n) (mkRBH m rs) → wp (get_pc a) Q (mkRBH m rs).
Proof. intros H ?. rewrite /wp /get_pc /ld. run_simpl. by rewrite H. Qed.
Lemma wp_set_pc m rs a v n (Q : () → rbheap → Prop) :
  m !! a = Some n → Q () (mkRBH (<[a := with_pc v n]> m) rs) → wp (set_pc a v) Q (mkRBH m rs).
Proof. intros H ?. rewrite /wp /set_pc /upd /ld. run_simpl. by rewrite H. Qed.
Lemma wp_get_root m rs rt v (Q : Z → rbheap → Prop) :
  rs !! rt = Some v → Q v (mkRBH m rs) → wp (get_root rt) Q (mkRBH m rs).
Proof. intros H ?. rewrite /wp /get_root. run_simpl. by rewrite H. Qed.
Lemma wp_set_root m rs rt v (Q : () → rbheap → Prop) :
  is_Some (rs !! rt) → Q () (mkRBH m (<[rt := v]> rs)) → wp (set_root rt v) Q (mkRBH m rs).
Proof. intros [w H] ?. rewrite /wp /set_root /get_root. run_simpl. by rewrite H. Qed.
Lemma wp_rb_parent m rs a n p c (Q : Z → rbheap → Prop) :
  m !! a = Some n → rb_parent_color n = p + cz c → ok0 p → Q p (mkRBH m rs) → wp (rb_parent a) Q (mkRBH m rs).
Proof. intros H Hp Hok ?. apply wp_bind, (wp_get_pc _ _ _ n); [done|]. apply wp_ret. by rewrite Hp parent_pc. Qed.
Lemma wp_rb_is_red m rs a n p c (Q : bool → rbheap → Prop) :
  m !! a = Some n → rb_parent_color n = p + cz c → ok0 p → Q (match c with Red => true | Black => false end) (mkRBH m rs) →
  wp (rb_is_red a) Q (mkRBH m rs).
Proof.
  intros H Hp Hok ?. apply wp_bind, (wp_get_pc _ _ _ n); [done|]. apply wp_ret. rewrite Hp /__rb_is_red color_pc //.
  by destruct c.
Qed.
Lemma wp_rb_is_black m rs a n p c (Q : bool → rbheap → Prop) :
  m !! a = Some n → rb_parent_color n = p + cz c → ok0 p → Q (match c with Red => false | Black => true end) (mkRBH m rs) →
  wp (rb_is_black a) Q (mkRBH m rs).
Proof.
  intros H Hp Hok ?. apply wp_bind, (wp_get_pc _ _ _ n); [done|]. apply wp_ret. rewrite Hp /__rb_is_black color_pc //.
  by destruct c.
Qed.
Lemma wp_set_parent_color m rs a n p color c (Q : () → rbheap → Prop) :
  m !! a = Some n → color = cz c → ok0 p → Q () (mkRBH (<[a := with_pc (p + cz c) n]> m) rs) →
  wp (rb_set_parent_color a p color) Q (mkRBH m rs).
Proof. intros H -> Hok ?. apply (wp_set_pc _ _ _ _ n); [done|]. by rewrite lor_pc. Qed.

(** The rules for a child that may be absent, over the tree it is the root of. *)
Lemma wp_set_parent_color_if m rs par x p color c (Q : () → rbheap → Prop) :
  rep m par x → color = cz c → ok0 p → Q () (mkRBH (reroot x (p + cz c) m) rs) →
  wp (set_parent_color_if (ptr x) p color) Q (mkRBH m rs).
Proof.
  destruct x as [|cx l b r]; simpl; rewrite /set_parent_color_if; [by case_decide|].
  intros ([Hb _] & Hm & _) Hc Hok HQ. rewrite decide_True; [lia|]. by apply (wp_set_parent_color _ _ _ _ _ _ c _ Hm).
Qed.
Lemma wp_set_parent_color_root m rs par x p color c (Q : () → rbheap → Prop) :
  rep m par x → x ≠ E → color = cz c → ok0 p → Q () (mkRBH (reroot x (p + cz c) m) rs) →
  wp (rb_set_parent_color (ptr x) p color) Q (mkRBH m rs).
Proof.
  destruct x as [|cx l b r]; simpl; [done|]. intros (_ & Hm & _) _ Hc Hok HQ.
  by apply (wp_set_parent_color _ _ _ _ _ _ c _ Hm).
Qed.
Lemma wp_set_parent m rs par x p (Q : () → rbheap → Prop) :
  rep m par x → x ≠ E → ok0 par → ok0 p → Q () (mkRBH (reroot x (p + cz (tcolor x)) m) rs) →
  wp (rb_set_parent (ptr x) p) Q (mkRBH m rs).
Proof.
  destruct x as [|cx l b r]; simpl; [done|]. intros (Hb & Hm & _) _ Hpar Hok HQ.
  apply wp_bind, (wp_get_pc _ _ _ _ _ Hm), (wp_set_pc _ _ _ _ _ _ Hm). simpl. by rewrite color_pc // Z.lor_comm lor_pc.
Qed.
Lemma wp_set_parent_if m rs par x p (Q : () → rbheap → Prop) :
  rep m par x → ok0 par → ok0 p → Q () (mkRBH (reroot x (p + cz (tcolor x)) m) rs) →
  wp (set_parent_if (ptr x) p) Q (mkRBH m rs).
Proof.
  destruct x as [|cx l b r]; rewrite /set_parent_if; [by case_decide|].
  intros Hr Hpar Hok HQ. pose proof Hr as [[Hb _] _]. simpl in *. rewrite decide_True; [lia|].
  by apply (wp_set_parent m rs par (T cx l b r)).
Qed.
Lemma wp_present_red m rs par x c (bh : nat) (Q : bool → rbheap → Prop) :
  rep m par x → rb c bh x → ok0 par → Q (match c with Red => true | Black => false end) (mkRBH m rs) →
  wp (present_red (ptr x)) Q (mkRBH m rs).
Proof.
  destruct x as [|cx l b r]; rewrite /present_red; [simpl; by intros _ [-> _] ?|].
  intros Hr Hrb Hpar HQ. destruct Hr as ([Hb _] & Hm & _). simpl. rewrite decide_True; [lia|].
  apply tcolor_rb in Hrb. simpl in Hrb. subst. by apply (wp_rb_is_red _ _ _ _ par c _ Hm).
Qed.
Lemma wp_absent_or_black m rs par x c (bh : nat) (Q : bool → rbheap → Prop) :
  rep m par x → rb c bh x → ok0 par → Q (match c with Red => false | Black => true end) (mkRBH m rs) →
  wp (absent_or_black (ptr x)) Q (mkRBH m rs).
Proof.
  destruct x as [|cx l b r]; rewrite /absent_or_black; [simpl; by intros _ [-> _] ?|].
  intros Hr Hrb Hpar HQ. destruct Hr as ([Hb _] & Hm & _). simpl. rewrite decide_False; [lia|].
  apply tcolor_rb in Hrb. simpl in Hrb. subst. by apply (wp_rb_is_black _ _ _ _ par c _ Hm).
Qed.

Lemma wp_change_child m rs k rt old new (Q : () → rbheap → Prop) :
  repc m k old → old ≠ 0 → cntc old k = 0%nat → is_Some (rs !! rt) →
  Q () (mkRBH (ctx_upd k new m) (root_upd k rt new rs)) → wp (__rb_change_child old new (cpar k) rt) Q (mkRBH m rs).
Proof.
  rewrite /__rb_change_child. destruct k as [|[d c a s] k]; simpl.
  - intros _ _ _ Hrt HQ. by apply wp_set_root.
  - intros (Ha & Hm & _) H0 Hcnt _ HQ. pose proof (ok_ne _ Ha). rewrite decide_True //.
    apply wp_bind, (wp_get_child _ _ _ _ _ _ Hm). destruct d; simpl.
    + rewrite decide_True //. by apply (wp_set_child _ _ _ _ _ _ _ Hm).
    + rewrite decide_False; [intros E0; apply (ptr_cnt old s) in E0; [lia|done]|]. by apply (wp_set_child _ _ _ _ _ _ _ Hm).
Qed.
Lemma wp_rotate m rs k rt old new no nn c color c' (Q : () → rbheap → Prop) :
  repc m k old → m !! old = Some no → m !! new = Some nn → rb_parent_color no = cpar k + cz c → color = cz c' →
  ok old → ok new → old ≠ new → cntc old k = 0%nat → cntc new k = 0%nat → is_Some (rs !! rt) →
  Q () (mkRBH (ctx_upd k new (<[old := with_pc (new + cz c') no]> (<[new := with_pc (cpar k + cz c) nn]> m)))
         (root_upd k rt new rs)) →
  wp (__rb_rotate_set_parents old new rt color) Q (mkRBH m rs).
Proof.
  intros Hk Ho Hn Hpc -> Hoo Hno Hne Hco Hcn Hrt HQ. pose proof (repc_ok0 _ _ _ Hk).
  apply wp_bind, (wp_rb_parent _ _ _ _ _ _ _ Ho Hpc); [done|]. apply wp_bind, (wp_get_pc _ _ _ _ _ Ho). rewrite Hpc.
  apply wp_bind, (wp_set_pc _ _ _ _ _ _ Hn). apply wp_bind, (wp_set_parent_color _ _ _ no _ _ c'); [|done|by apply ok_ok0|].
  { rewrite lookup_insert_ne; [congruence|done]. }
  apply wp_change_child; [|by apply ok_ne|done..]. by repeat (apply repc_insert; [done|]).
Qed.
End rules.

(** ** Symbolic execution

    [own z] adds what the count of [z] says: [z] is in no other part of the tree
    under the hypothesis [U].  [look] resolves a lookup through the updates made so
    far, [frames] moves a representation over them. *)
Create HintDb rbc.
#[export] Hint Rewrite cnt_mk eqn_refl : rbc.
Ltac cnts := simpl in *; autorewrite with rbc in *; simpl in *.
Ltac own U z := let H := fresh "Own" in pose proof (U z) as H; simpl in H; autorewrite with rbc in H; simpl in H.
Ltac neq := first [ assumption | apply eqn_0; lia | apply not_eq_sym, eqn_0; lia ].
Ltac count := let z := fresh "z" in intros z; repeat match goal with U : ∀ _ : Z, (_ ≤ 1)%nat |- _ => specialize (U z) end;
  simpl in *; autorewrite with rbc in *; simpl in *; lia.
Ltac look :=
  lazymatch goal with
  | |- <[?a := _]> _ !! ?a = _ => apply lookup_insert_eq
  | |- <[_ := _]> _ !! _ = _ => rewrite lookup_insert_ne; [neq|look]
  | |- reroot _ _ _ !! _ = _ => rewrite lookup_reroot; [lia|look]
  | |- ctx_upd _ _ _ !! _ = _ => rewrite lookup_ctx_upd; [lia|look]
  | |- _ => first [ eassumption | reflexivity ]
  end.
Ltac frames :=
  lazymatch goal with
  | |- rep (<[_ := _]> _) _ _ => apply rep_insert; [lia|frames]
  | |- rep (reroot ?x (_ + cz (tcolor ?x)) _) _ ?x => eapply rep_reroot_same; [count|frames]
  | |- rep (reroot ?x (_ + cz Black) _) _ ?x => eapply rep_reroot_black; [eassumption|count|frames]
  | |- rep (reroot _ _ _) _ _ => apply rep_reroot; [count|frames]
  | |- rep (ctx_upd _ _ _) _ _ => apply rep_ctx_upd; [count|frames]
  | |- repc (<[_ := _]> _) _ _ => apply repc_insert; [lia|frames]
  | |- repc (reroot _ _ _) _ _ => apply repc_reroot; [count|frames]
  | |- _ => eassumption
  end.

Lemma rep_agree m m' par t : (∀ z, cnt z t ≠ 0%nat → m' !! z = m !! z) → rep m par t → rep m' par t.
Proof.
  revert par. induction t as [|c l IHl a r IHr]; simpl; [done|]. intros par H (? & Hb & Hl & Hr).
  split_and!; [done|rewrite H //; rewrite eqn_refl; lia|apply IHl; [|done]|apply IHr; [|done]]; intros z Hz; apply H; lia.
Qed.
Lemma repc_agree m m' k p : (∀ z, cntc z k ≠ 0%nat → m' !! z = m !! z) → repc m k p → repc m' k p.
Proof.
  revert p. induction k as [|f k IH]; simpl; [done|]. intros p H (? & Hb & Hs & Hk).
  split_and!; [done|rewrite H //; rewrite eqn_refl; lia|apply (rep_agree m); [|done]|apply IH; [|done]]; intros z Hz; apply H; lia.
Qed.

(** ** Sizes and the inverse of [plug_rb] *)
Lemma tsize_inorder t : tsize t = length (inorder t).
Proof. induction t as [|c l IHl a r IHr]; simpl; [done|]. rewrite length_app /=. lia. Qed.
Lemma tsize_plug k t : (length k + tsize t ≤ tsize (plug k t))%nat.
Proof.
  revert t. induction k as [|[d c a s] k IH]; intros t; simpl; [lia|].
  specialize (IH (mk d c t a s)). destruct d; simpl in *; lia.
Qed.
Lemma rep_dom m par t z : rep m par t → z ∈ inorder t → is_Some (m !! z).
Proof.
  revert par. induction t as [|c l IHl a r IHr]; intros par; simpl; [by intros _ ?%elem_of_nil|].
  intros (_ & Hm & Hl & Hr). rewrite elem_of_app elem_of_cons. intros [?|[->|?]]; eauto.
Qed.
Lemma rep_size m par t : rep m par t → NoDup (inorder t) → (tsize t ≤ size m)%nat.
Proof.
  intros Hr Hn. rewrite tsize_inorder -size_dom -(size_list_to_set (C := gset Z) _ Hn). apply subseteq_size.
  intros z Hz. apply elem_of_list_to_set in Hz. by apply elem_of_dom, (rep_dom m par t).
Qed.
Lemma plug_rb_inv k t : rbtree (plug k t) → ∃ c n, rb c n t ∧ kok c n k.
Proof.
  revert t. induction k as [|[d [] a s] k IH]; intros t; simpl.
  - intros [n ?]. by exists Black, n.
  - intros (c & n & H & Hk)%IH. apply rb_red in H as (-> & ? & ?). by exists Black, n.
  - intros (c & n & H & Hk)%IH. apply rb_black in H as (-> & n' & -> & [cx ?] & [cy ?]). exists cx, n'. eauto.
Qed.
Lemma uniq_cnt t : NoDup (inorder t) ↔ ∀ z, (cnt z t ≤ 1)%nat.
Proof. rewrite cntl_NoDup. by setoid_rewrite cnt_inorder. Qed.
Lemma uniq_plug k t : NoDup (inorder (plug k t)) ↔ ∀ z, (cnt z t + cntc z k ≤ 1)%nat.
Proof. rewrite uniq_cnt. by setoid_rewrite cnt_plug. Qed.
Lemma cnt_notin z t : z ∉ inorder t ↔ cnt z t = 0%nat.
Proof. rewrite cntl_elem -cnt_inorder. lia. Qed.

(** ** A tree of the heap *)
Record tree_at (h : rbheap) (rt : Z) (t : tree) : Prop := {
  ta_root : roots h !! rt = Some (ptr t);
  ta_rep : rep (nodes h) 0 t;
  ta_uniq : NoDup (inorder t);
  ta_rb : rbtree t;
}.

(** The elements are in the order of [cmp]. *)
Definition sorted (cmp : Z → Z → bool) (l : list Z) : Prop := StronglySorted (λ a b, cmp a b = true) l.
Definition below (cmp : Z → Z → bool) (x : Z) (l : list Z) : Prop := Forall (λ a, cmp a x = true) l.
Definition above (cmp : Z → Z → bool) (x : Z) (l : list Z) : Prop := Forall (λ a, cmp x a = true) l.

Lemma sorted_app cmp A B : sorted cmp (A ++ B) ↔ sorted cmp A ∧ sorted cmp B ∧ ∀ a, a ∈ A → above cmp a B.
Proof.
  rewrite /sorted /above. induction A as [|a A IH]; simpl.
  - split; [intros; split_and!; [constructor|done|set_solver]|naive_solver].
  - split.
    + intros H. apply StronglySorted_inv in H as [(H1 & H2 & H3)%IH Hall]. apply Forall_app in Hall as [Ha Hb]. split_and!; [by constructor|done|].
      intros x [->|Hx]%elem_of_cons; [done|by apply H3].
    + intros (H1 & H2 & H3). apply StronglySorted_inv in H1 as [H1 Ha]. constructor.
      * apply IH. split_and!; [done..|]. intros x Hx. apply H3. by right.
      * apply Forall_app. split; [done|]. apply H3. by left.
Qed.
Lemma sorted_cons cmp a B : sorted cmp (a :: B) ↔ above cmp a B ∧ sorted cmp B.
Proof. split; [intros H; by apply StronglySorted_inv in H as [? ?]|intros [? ?]; by constructor]. Qed.
Lemma sorted_insert cmp A x B : sorted cmp (A ++ B) → below cmp x A → above cmp x B → sorted cmp (A ++ x :: B).
Proof.
  rewrite !sorted_app sorted_cons. intros (H1 & H2 & H3) Hb Ha. split_and!; [done..|].
  intros a HA. apply Forall_cons. split; [|by apply H3]. rewrite /below Forall_forall in Hb. by apply Hb.
Qed.
