(* ===== verification/RBInsert.v ===== *)
(** * Insertion into a red-black tree

    [_rb_insert] keeps the red-black invariant and puts the node at its place in
    the order of the tree. *)

From S2P Require Import Prelude RBTree RBRep.

(** What rebalancing leaves: the same nodes in the same order, the red-black
    invariant, the heap of the new tree, and everything outside it untouched. *)
Definition fixed (m : gmap Z rb_node_) (rs : gmap Z Z) (rt : Z) (t t' : tree) (h' : rbheap) : Prop :=
  inorder t' = inorder t ∧ rbtree t' ∧ rep (nodes h') 0 t' ∧ roots h' = <[rt := ptr t']> rs ∧
  ∀ z, cnt z t = 0%nat → nodes h' !! z = m !! z.

(** The root of the heap names the tree; when the focus is the root itself, it may
    still name the tree before. *)
Definition rooted (rs : gmap Z Z) (rt : Z) (k : list frame) (t : tree) : Prop :=
  match k with [] => is_Some (rs !! rt) | _ => rs !! rt = Some (ptr (plug k t)) end.
Lemma rooted_i rs rt k t : rs !! rt = Some (ptr (plug k t)) → rooted rs rt k t.
Proof. destruct k; [intros H; exact (mk_is_Some _ _ H)|done]. Qed.

Lemma fixed_plug m m' rs rt k t t' v c n :
  ptr t' = v → rooted rs rt k t → rep m' (cpar k) t' → repc m' k (ptr t') → rb c n t' → kok c n k →
  inorder t' = inorder t → (∀ z, (cnt z t + cntc z k = 0)%nat → m' !! z = m !! z) →
  fixed m rs rt (plug k t) (plug k t') (mkRBH m' (root_upd k rt v rs)).
Proof.
  intros <- Hrt Hr Hk Hrb Hok Hin Hfr. split_and!.
  - by apply inorder_cong.
  - by apply (plug_rb k c n).
  - by apply rep_plug.
  - destruct k as [|f k]; [done|]. cbn [roots root_upd]. rewrite insert_id //. by rewrite Hrt (ptr_plug _ _ t t').
  - intros z Hz. rewrite cnt_plug in Hz. by apply Hfr.
Qed.

Section insert_fix.
Context (m : gmap Z rb_node_) (rs : gmap Z Z) (rt : Z) (d : side) (k : list frame) (t s u : tree) (p g : Z) (d1 : side) (n : nat).
Context (Ht : rb Red n t) (Hs : rb Black n s) (Hkok : kok Black (S n) k).
Context (U : ∀ z, (cnt z t + cntc z (mkFr d1 Red p s :: mkFr d Black g u :: k) ≤ 1)%nat).
Context (Hrt : rs !! rt = Some (ptr (plug (mkFr d1 Red p s :: mkFr d Black g u :: k) t))).
Context (Hr : rep m p t) (Hc : repc m (mkFr d1 Red p s :: mkFr d Black g u :: k) (ptr t)).

(** The uncle is red: recolour and go on from the grandparent. *)
Lemma insert_fix_red_uncle :
  rb Red n u →
  wp (insert_fix_side d rt (ptr t) p g)
    (λ r h', r = Some (g, cpar k) ∧ ∃ m', h' = mkRBH m' rs ∧
       let t' := mk d Red (mk d1 Black t p s) g (recolor Black u) in
       rep m' (cpar k) t' ∧ repc m' k g ∧ rb Red (S n) t' ∧
       ∀ z, (cnt z t + cntc z (mkFr d1 Red p s :: mkFr d Black g u :: k) = 0)%nat → m' !! z = m !! z) (mkRBH m rs).
Proof.
  intros Hu. simpl in Hc. destruct Hc as (Hp & Hmp & Hrs & Hg & Hmg & Hru & Hk).
  own U p. own U g. pose proof (repc_ok0 _ _ _ Hk) as Hk0.
  apply wp_bind, (wp_get_child _ _ _ _ _ _ Hmg). rewrite child_opp_mkn.
  apply wp_bind, (wp_present_red _ _ g u Red n); [done..|by apply ok_ok0|].
  destruct u as [|cu ul ua ur] eqn:Eu; [by destruct Hu|]. destruct cu; [|by destruct Hu].
  destruct Hru as (Hua & Hmua & Hul & Hur). own U ua. simpl in *.
  apply wp_bind. apply (wp_set_parent_color _ _ _ _ _ _ Black _ Hmua); [done|by apply ok_ok0|].
  apply wp_bind. eapply (wp_set_parent_color _ _ _ _ _ _ Black); [look|done|by apply ok_ok0|].
  apply wp_bind. eapply wp_rb_parent; [look|rewrite pc_mkn; reflexivity|done|].
  apply wp_bind. eapply (wp_set_parent_color _ _ _ _ _ _ Red); [look|done..|].
  apply wp_ret. split; [done|]. eexists. split; [done|]. split_and!.
  - apply rep_mk. autorewrite with rbn. split_and!; [done|rewrite ptr_mk; look| |].
    + apply rep_mk. split_and!; [done|look|frames..].
    + simpl. split_and!; [done|look|frames..].
  - frames.
  - apply rb_red_i; [exact (rb_black_i _ _ _ _ _ _ _ Ht Hs)|exact (rb_recolor n (T Red ul ua ur) Hu)].
  - intros z Hz. look.
Qed.

(** The uncle is black and the node is on the outer side: one rotation. *)
Lemma insert_fix_outer :
  rb Black n u → d1 = d →
  wp (insert_fix_side d rt (ptr t) p g)
    (λ r h', r = None ∧ ∃ t', fixed m rs rt (plug (mkFr d1 Red p s :: mkFr d Black g u :: k) t) t' h') (mkRBH m rs).
Proof.
  intros Hu ->. simpl in Hc. destruct Hc as (Hp & Hmp & Hrs & Hg & Hmg & Hru & Hk).
  own U p. own U g. pose proof (repc_ok0 _ _ _ Hk) as Hk0.
  apply wp_bind, (wp_get_child _ _ _ _ _ _ Hmg). rewrite child_opp_mkn.
  apply wp_bind, (wp_present_red _ _ g u Black n); [done..|by apply ok_ok0|].
  apply wp_bind, (wp_get_child _ _ _ _ _ _ Hmp). rewrite child_opp_mkn.
  rewrite decide_False.
  { intros Ets. destruct t as [|ct tl ta tr]; [by destruct Ht|]. simpl in Ets. own U ta.
    destruct Hr as [Hta _]. apply ok_ne in Hta. symmetry in Ets. apply ptr_cnt in Ets; [lia|done]. }
  apply wp_bind, wp_ret.
  apply wp_bind. apply (wp_set_child _ _ _ _ _ _ _ Hmg).
  apply wp_bind. apply (wp_set_parent_color_if _ _ p s _ _ Black); [frames|done|by apply ok_ok0|].
  apply wp_bind. eapply wp_set_child; [look|].
  apply wp_bind. eapply (wp_rotate _ _ k _ _ _ _ _ Black _ Red); [frames|look|look| |done..|neq|lia|lia|by rewrite Hrt|].
  { by autorewrite with rbn. }
  apply wp_ret. split; [done|]. eexists. autorewrite with rbn.
  apply (fixed_plug _ _ _ _ k (mk d Black (mk d Red t p s) g u) (mk d Black t p (mk d Red s g u)) _ Black (S n));
    rewrite ?ptr_mk; [done|by apply rooted_i|..|done| |].
  - apply rep_mk. rewrite ptr_mk. split_and!; [done|look|frames|]. apply rep_mk. split_and!; [done|look|frames..].
  - apply (repc_ctx_upd _ _ g); [count|frames].
  - apply (rb_black_i _ _ Red Red); [done|by apply rb_red_i].
  - by destruct d; simpl; rewrite -!app_assoc.
  - intros z Hz. autorewrite with rbc in Hz. look.
Qed.

(** The uncle is black and the node is on the inner side: two rotations. *)
Lemma insert_fix_inner :
  rb Black n u → d1 = opp d →
  wp (insert_fix_side d rt (ptr t) p g)
    (λ r h', r = None ∧ ∃ t', fixed m rs rt (plug (mkFr d1 Red p s :: mkFr d Black g u :: k) t) t' h') (mkRBH m rs).
Proof.
  intros Hu ->. simpl in Hc. destruct Hc as (Hp & Hmp & Hrs & Hg & Hmg & Hru & Hk). rewrite mkn_opp in Hmp.
  destruct (mk_view d t) as [->|(ct & x & a & y & ->)]; [by destruct Ht|].
  destruct ct; [|apply rb_black in Ht as [? _]; done]. apply rb_red in Ht as (_ & Hx & Hy).
  apply rep_mk in Hr as (Ha & Hma & Hrx & Hry). rewrite ptr_mk in Hmp. rewrite ptr_mk.
  own U p. own U g. own U a. pose proof (repc_ok0 _ _ _ Hk) as Hk0.
  apply wp_bind, (wp_get_child _ _ _ _ _ _ Hmg). rewrite child_opp_mkn.
  apply wp_bind, (wp_present_red _ _ g u Black n); [done..|by apply ok_ok0|].
  apply wp_bind, (wp_get_child _ _ _ _ _ _ Hmp). rewrite child_opp_mkn decide_True //.
  apply wp_bind, wp_bind, (wp_get_child _ _ _ _ _ _ Hma). rewrite child_mkn.
  apply wp_bind, (wp_set_child _ _ _ _ _ _ _ Hmp).
  apply wp_bind. apply (wp_set_parent_color_if _ _ a x _ _ Black); [frames|done|by apply ok_ok0|].
  apply wp_bind. eapply wp_set_child; [look|].
  apply wp_bind. eapply (wp_set_parent_color _ _ _ _ _ _ Red); [look|done|by apply ok_ok0|].
  apply wp_bind. eapply wp_get_child; [look|]. autorewrite with rbn. apply wp_ret.
  apply wp_bind. eapply wp_set_child; [look|].
  apply wp_bind. apply (wp_set_parent_color_if _ _ a y _ _ Black); [frames|done|by apply ok_ok0|].
  apply wp_bind. eapply wp_set_child; [look|].
  apply wp_bind. eapply (wp_rotate _ _ k _ _ _ _ _ Black _ Red); [frames|look|look| |done..|neq|lia|lia|by rewrite Hrt|].
  { by autorewrite with rbn. }
  apply wp_ret. split; [done|]. eexists. autorewrite with rbn.
  apply (fixed_plug _ _ _ _ k (mk d Black (mk (opp d) Red (mk d Red x a y) p s) g u)
    (mk d Black (mk d Red s p x) a (mk d Red y g u)) _ Black (S n));
    rewrite ?ptr_mk; [done|by apply rooted_i|..|done| |].
  - apply rep_mk. rewrite !ptr_mk. split_and!; [done|look| |]; apply rep_mk; (split_and!; [done|look|frames..]).
  - apply (repc_ctx_upd _ _ g); [count|frames].
  - apply (rb_black_i _ _ Red Red); by apply rb_red_i.
  - destruct d; simpl; by repeat (rewrite -app_assoc /=).
  - intros z Hz. autorewrite with rbc in Hz. look.
Qed.
End insert_fix.

(** ** The loop

    The focus is a red node with black children; only its parent may be red. *)
Lemma insert_fix_loop_ok fuel : ∀ m rs rt k t n,
  (length k < fuel)%nat → rb Red n t → kok Black n k → (∀ z, (cnt z t + cntc z k ≤ 1)%nat) →
  rooted rs rt k t → rep m (cpar k) t → repc m k (ptr t) →
  wp (insert_fix_loop fuel rt (ptr t) (cpar k)) (λ _ h', ∃ t', fixed m rs rt (plug k t) t' h') (mkRBH m rs).
Proof.
  induction fuel as [|fuel IH]; intros m rs rt k t n Hf Ht Hk U Hrt Hr Hc; [lia|].
  destruct k as [|[d1 [] p s] k]; simpl cpar; cbn [insert_fix_loop].
  - destruct t as [|[] l a r]; [by destruct Ht| |by destruct Ht].
    destruct Hr as (Ha & Hma & Hl & Hr). own U a.
    apply wp_bind, (wp_set_parent_color _ _ _ _ _ _ Black _ Hma); [done|apply ok0_0|].
    apply wp_set_root; [done|]. exists (T Black l a r).
    apply (fixed_plug _ _ _ _ [] (T Red l a r) (T Black l a r) a Black (S n)); try done.
    + simpl. split_and!; [done|look|frames..].
    + simpl. split; [done|]. exists n. destruct Ht as (_ & ? & ?). eauto.
    + intros z Hz. simpl in Hz. look.
  - destruct Hk as (_ & Hs & Hk). destruct (kok_red_black _ _ Hk) as (d & g & u & k' & ->). destruct Hk as ([cu Hu] & Hk).
    pose proof Hc as (Hp & Hmp & _ & Hg & Hmg & _ & Hck). simpl in Hmp, Hg, Hmg. rewrite decide_False; [by apply ok_ne|].
    apply wp_bind. eapply wp_rb_is_black; [exact Hmp|rewrite pc_mkn; reflexivity|by apply ok_ok0|].
    apply wp_bind. eapply wp_get_pc; [exact Hmp|]. rewrite pc_mkn. change (g + cz Red) with (g + 0). rewrite Z.add_0_r.
    apply wp_bind. eapply wp_get_child; [exact Hmg|].
    assert (Hside : wp (insert_fix_side d rt (ptr t) p g) (λ r h', match r with
      | Some (node, parent) => wp (insert_fix_loop fuel rt node parent)
          (λ _ h', ∃ t', fixed m rs rt (plug (mkFr d1 Red p s :: mkFr d Black g u :: k') t) t' h') h'
      | None => ∃ t', fixed m rs rt (plug (mkFr d1 Red p s :: mkFr d Black g u :: k') t) t' h' end) (mkRBH m rs)).
    { destruct cu.
      - eapply wp_mono; [apply (insert_fix_red_uncle m rs rt d k' t s u p g d1 n); done|].
        intros r h' (-> & m' & -> & Hr' & Hc' & Hrb' & Hfr).
        set (t' := mk d Red (mk d1 Black t p s) g (recolor Black u)) in *.
        assert (Hin : inorder (plug k' t') = inorder (plug (mkFr d1 Red p s :: mkFr d Black g u :: k') t)).
        { apply (inorder_cong k' t' (mk d Black (mk d1 Red t p s) g u)). rewrite /t'. by destruct d, d1, u. }
        eapply wp_mono; [rewrite -{1}(ptr_mk d Red (mk d1 Black t p s) g (recolor Black u)); apply (IH m' rs rt k' t' (S n))|].
        all: try done.
        + simpl in Hf. lia.
        + intros z. specialize (U z). rewrite /t'. autorewrite with rbc. simpl in U. destruct u; simpl in *; lia.
        + apply rooted_i. rewrite Hrt. simpl. destruct k'; [|by rewrite (ptr_plug _ _ _ t')]. rewrite /t'. simpl. by rewrite !ptr_mk.
        + rewrite /t' ptr_mk. done.
        + intros _ h' (t'' & Hin' & Hrb & Hrep & Hroot & Hfr'). exists t''. split_and!; [congruence|done..|].
          intros z Hz. rewrite Hfr'; [by rewrite cnt_inorder Hin -cnt_inorder|]. apply Hfr. by rewrite cnt_plug in Hz.
      - assert (Hb : wp (insert_fix_side d rt (ptr t) p g) (λ r h', r = None ∧
          ∃ t', fixed m rs rt (plug (mkFr d1 Red p s :: mkFr d Black g u :: k') t) t' h') (mkRBH m rs)).
        { destruct (decide (d1 = d)); [by apply (insert_fix_outer m rs rt d k' t s u p g d1 n)|].
          apply (insert_fix_inner m rs rt d k' t s u p g d1 n); try done. by destruct d1, d. }
        eapply wp_mono; [exact Hb|]. intros r h' [-> H]. exact H. }
    apply wp_bind. assert (Hgo : ∀ (Q : option (Z * Z) → rbheap → Prop), wp (insert_fix_side d rt (ptr t) p g) Q (mkRBH m rs) →
      wp (if decide (p ≠ child R (mkn d (cpar k' + cz Black) p (ptr u))) then insert_fix_side L rt (ptr t) p g
          else insert_fix_side R rt (ptr t) p g) Q (mkRBH m rs)).
    { intros Q HQ. destruct d; simpl.
      - rewrite decide_True //. intros Epu. symmetry in Epu. apply ptr_cnt in Epu; [|by apply ok_ne]. own U p. lia.
      - by rewrite decide_False; [naive_solver|]. }
    apply Hgo. eapply wp_mono; [exact Hside|]. intros [[node parent]|] h'; [done|]. intros H. by apply wp_ret.
  - pose proof Hc as (Hp & Hmp & _ & Hck). simpl in Hmp, Hp, Hck. rewrite decide_False; [by apply ok_ne|].
    apply wp_bind. eapply wp_rb_is_black; [exact Hmp|rewrite pc_mkn; reflexivity|exact (repc_ok0 _ _ _ Hck)|].
    apply wp_ret. exists (plug (mkFr d1 Black p s :: k) t).
    exact (fixed_plug m m rs rt (mkFr d1 Black p s :: k) t t (ptr t) Red n eq_refl Hrt Hr Hc Ht Hk eq_refl (λ _ _, eq_refl)).
Qed.

(** ** The descent *)

(** The focus of [k] is where [x] belongs. *)
Definition gap (cmp : Z → Z → bool) (x : Z) (k : list frame) : Prop :=
  ∃ A B, (∀ t, inorder (plug k t) = A ++ inorder t ++ B) ∧ below cmp x A ∧ above cmp x B.

Section descend.
Context (cmp : Z → Z → bool) (Htr : ∀ a b c, cmp a b = true → cmp b c = true → cmp a c = true).
Context (node : Z) (m : gmap Z rb_node_) (rs : gmap Z Z) (Hnode : ok node) (Hm : m !! node = Some (mkRB 0 0 0)).

Lemma gap_L k c l a r : sorted cmp (inorder (plug k (T c l a r))) → gap cmp node k → cmp node a = true →
  gap cmp node (mkFr L c a r :: k).
Proof.
  intros Hs (A & B & Hin & HA & HB) Ha. exists A, (a :: inorder r ++ B). split_and!; [|done|].
  - intros t. rewrite /= Hin /= -app_assoc. done.
  - apply Forall_cons. split; [done|]. rewrite Hin /= in Hs. apply sorted_app in Hs as (_ & Hs & _).
    rewrite -app_assoc in Hs. apply sorted_app in Hs as (_ & Hs & _). apply sorted_cons in Hs as [Hs _].
    eapply Forall_impl; [exact Hs|]. intros x Hx. exact (Htr _ _ _ Ha Hx).
Qed.
Lemma gap_R k c l a r : sorted cmp (inorder (plug k (T c l a r))) → gap cmp node k → cmp a node = true →
  gap cmp node (mkFr R c a l :: k).
Proof.
  intros Hs (A & B & Hin & HA & HB) Ha. exists (A ++ inorder l ++ [a]), B. split_and!; [| |done].
  - intros t. rewrite /= Hin /= -!app_assoc. done.
  - apply Forall_app. split; [done|]. apply Forall_app. split; [|by constructor].
    rewrite Hin /= in Hs. apply sorted_app in Hs as (_ & Hs & _). rewrite -app_assoc in Hs. apply sorted_app in Hs as (_ & _ & Hs).
    apply Forall_forall. intros x Hx. specialize (Hs x Hx). apply Forall_cons in Hs as [Hs _]. exact (Htr _ _ _ Hs Ha).
Qed.

Lemma step_to_ok d c x a y k :
  rep m (cpar k) (mk d c x a y) → (∀ z, (cnt z (mk d c x a y) + cntc z k ≤ 1)%nat) →
  (cnt node (mk d c x a y) + cntc node k = 0)%nat →
  step_to d a node (mkRBH m rs) = Ret (ptr x) (mkRBH (match x with
    | E => <[node := mkRB (cpar (mkFr d c a y :: k)) 0 0]> (ctx_upd (mkFr d c a y :: k) node m) | _ => m end) rs).
Proof.
  intros Hr U Hn. apply rep_mk in Hr as (Ha & Hma & Hx & Hy). autorewrite with rbc in Hn.
  assert (a ≠ node) by (apply not_eq_sym, eqn_0; lia).
  assert (Hrun : wp (step_to d a node) (λ v h', v = ptr x ∧ h' = mkRBH (match x with
    | E => <[node := mkRB (cpar (mkFr d c a y :: k)) 0 0]> (ctx_upd (mkFr d c a y :: k) node m) | _ => m end) rs) (mkRBH m rs)).
  { apply wp_bind, (wp_get_child _ _ _ _ _ _ Hma). rewrite child_mkn. destruct x as [|cx xl xa xr]; cbn [ptr].
    - apply wp_bind, wp_bind, (wp_set_child _ _ _ _ _ _ _ Hma). eapply wp_set_pc; [look|].
      apply wp_ret. split; [done|]. by rewrite with_child_mkn.
    - destruct Hx as [Hxa _]. rewrite decide_False; [by apply ok_ne|]. by apply wp_bind, wp_ret, wp_ret. }
  by apply wp_run in Hrun as (? & ? & -> & -> & ->).
Qed.

(** What the descent leaves: the node found equal, or linked below [f]. *)
Definition descended (t : tree) (r : Z) (h' : rbheap) : Prop :=
  (r = -1 ∧ h' = mkRBH m rs ∧ ∃ b, b ∈ inorder t ∧ cmp node b = false ∧ cmp b node = false) ∨
  (r = 0 ∧ ∃ f k, plug (f :: k) E = t ∧ gap cmp node (f :: k) ∧
    h' = mkRBH (<[node := mkRB (cpar (f :: k)) 0 0]> (ctx_upd (f :: k) node m)) rs).

Lemma insert_descend_ok fuel : ∀ sub k,
  (tsize sub < fuel)%nat → sub ≠ E → rep m (cpar k) sub → (∀ z, (cnt z sub + cntc z k ≤ 1)%nat) →
  (cnt node sub + cntc node k = 0)%nat → sorted cmp (inorder (plug k sub)) → gap cmp node k →
  wp (insert_descend fuel cmp node (ptr sub)) (descended (plug k sub)) (mkRBH m rs).
Proof.
  induction fuel as [|fuel IH]; intros sub k Hf HE Hr U Hn Hs Hg; [lia|].
  destruct sub as [|c l a r]; [done|]. pose proof Hr as (Ha & _). cbn [insert_descend ptr].
  rewrite decide_False; [by apply ok_ne|].
  assert (Hstep : ∀ d x y, T c l a r = mk d c x a y → gap cmp node (mkFr d c a y :: k) →
    wp (nw' ← step_to d a node; insert_descend fuel cmp node nw') (descended (plug k (T c l a r))) (mkRBH m rs)).
  { intros d x y Ed Hgap. rewrite Ed in Hf, Hr, U, Hn, Hs |- *.
    apply wp_bind. eapply wp_of_run; [exact (step_to_ok d c x a y k Hr U Hn)|].
    apply rep_mk in Hr as (_ & _ & Hx & _). destruct x as [|cx xl xa xr].
    - destruct fuel; [destruct d; simpl in Hf; lia|]. cbn [insert_descend ptr]. right. split; [done|]. by exists (mkFr d c a y), k.
    - apply (IH (T cx xl xa xr) (mkFr d c a y :: k)); try done.
      + destruct d; simpl in *; lia.
      + intros z. specialize (U z). autorewrite with rbc in U. simpl in *. lia.
      + autorewrite with rbc in Hn. simpl in *. lia. }
  destruct (cmp node a) eqn:E1; [by apply (Hstep L l r), (gap_L k c l a r)|].
  destruct (cmp a node) eqn:E2; [by apply (Hstep R r l), (gap_R k c l a r)|].
  left. split_and!; [done..|]. exists a. split; [|done]. destruct (inorder_plug k) as (A & B & ->). simpl. set_solver.
Qed.
End descend.

(** ** [_rb_insert] *)

(** Once the node is linked at its place, rebalancing ends the insertion. *)
Lemma insert_linked cmp node m1 rs rt f k :
  ok node → m1 !! node = Some (mkRB 0 0 0) → rs !! rt = Some (ptr (plug (f :: k) E)) → rep m1 0 (plug (f :: k) E) →
  NoDup (inorder (plug (f :: k) E)) → rbtree (plug (f :: k) E) → cnt node (plug (f :: k) E) = 0%nat → gap cmp node (f :: k) →
  wp (__rb_insert_fix node rt) (λ _ h', (∀ z, z ≠ node → cnt z (plug (f :: k) E) = 0%nat → nodes h' !! z = m1 !! z) ∧
    ∃ t' A B, inorder (plug (f :: k) E) = A ++ B ∧ inorder t' = A ++ node :: B ∧ below cmp node A ∧ above cmp node B ∧
        tree_at h' rt t' ∧ roots h' = <[rt := ptr t']> rs)
    (mkRBH (<[node := mkRB (cpar (f :: k)) 0 0]> (ctx_upd (f :: k) node m1)) rs).
Proof.
  intros Hok Hm1 Hrt Hrep Hu Hrb Hni (A & B & Hin & HA & HB). set (K := f :: k) in *.
  set (m2 := <[node := _]> _). apply rep_plug in Hrep as [_ Hrep]. rewrite uniq_plug in Hu. rewrite cnt_plug in Hni. simpl in Hni.
  destruct (plug_rb_inv _ _ Hrb) as (c & n & [-> ->] & Hkok).
  assert (Hm2 : m2 !! node = Some (mkRB (cpar K) 0 0)) by apply lookup_insert_eq.
  set (t1 := T Red E node E).
  assert (Hr2 : rep m2 (cpar K) t1) by (simpl; split_and!; [done|rewrite Hm2 /cz /RB_RED Z.add_0_r //|done..]).
  assert (Hc2 : repc m2 K node).
  { apply repc_insert; [simpl; lia|]. apply (repc_ctx_upd _ _ 0); [intros z; specialize (Hu z); simpl in *; lia|done]. }
  assert (Hu2 : ∀ z, (cnt z t1 + cntc z K ≤ 1)%nat).
  { intros z. specialize (Hu z). simpl in *. destruct (decide (z = node)) as [->|Hz]; [rewrite eqn_refl; lia|apply eqn_0 in Hz; lia]. }
  assert (Hsz : (length K < S (size m2))%nat).
  { assert (tsize (plug K t1) ≤ size m2)%nat; [|pose proof (tsize_plug K t1); simpl in *; lia].
    apply (rep_size m2 0); [by apply rep_plug|by apply uniq_plug]. }
  apply wp_bind, (wp_get_pc _ _ _ _ _ Hm2), wp_bind, wp_gets. cbn [rb_parent_color nodes].
  eapply wp_mono; [apply (insert_fix_loop_ok _ m2 rs rt K t1 0%nat); try done|].
  - apply rooted_i. by rewrite Hrt (ptr_plug _ _ E t1).
  - intros _ h' (t' & Hin' & Hrb' & Hr' & Hroot & Hfr). split.
    + intros z Hz Hc. rewrite cnt_plug in Hc. rewrite Hfr; [rewrite cnt_plug /=; apply eqn_0 in Hz; simpl in *; lia|].
      rewrite lookup_insert_ne; [congruence|]. apply lookup_ctx_upd. simpl in *. lia.
    + exists t', A, B. rewrite Hin Hin' Hin /=. split_and!; [done..| |done]. split; [rewrite Hroot; apply lookup_insert_eq|done| |done].
      rewrite Hin'. by apply uniq_plug.
Qed.
Lemma rb_insert_spec h rt t node n0 cmp :
  tree_at h rt t → sorted cmp (inorder t) → (∀ a b c, cmp a b = true → cmp b c = true → cmp a c = true) →
  ok node → nodes h !! node = Some n0 → node ∉ inorder t →
  ∃ r h', _rb_insert node rt cmp h = Ret r h' ∧
    (∀ z, z ≠ node → z ∉ inorder t → nodes h' !! z = nodes h !! z) ∧
    ((r = -1 ∧ (∃ b, b ∈ inorder t ∧ cmp node b = false ∧ cmp b node = false) ∧ tree_at h' rt t ∧ roots h' = roots h) ∨
     (r = 0 ∧ ∃ t' A B, inorder t = A ++ B ∧ inorder t' = A ++ node :: B ∧ below cmp node A ∧ above cmp node B ∧
        tree_at h' rt t' ∧ roots h' = <[rt := ptr t']> (roots h))).
Proof.
  destruct h as [m rs]. intros [Hrt Hrep Hu Hrb] Hs Htr Hok Hn Hni. cbn [nodes roots] in *.
  set (m1 := <[node := mkRB 0 0 0]> m).
  apply cnt_notin in Hni. pose proof (rep_insert _ _ _ node (mkRB 0 0 0) Hni Hrep) as Hrep1. fold m1 in Hrep1.
  assert (Hm1 : m1 !! node = Some (mkRB 0 0 0)) by apply lookup_insert_eq.
  pose proof (rep_size _ _ _ Hrep1 Hu) as Hsz.
  cut (wp (_rb_insert node rt cmp) (λ r h', (∀ z, z ≠ node → z ∉ inorder t → nodes h' !! z = m !! z) ∧
    ((r = -1 ∧ (∃ b, b ∈ inorder t ∧ cmp node b = false ∧ cmp b node = false) ∧ tree_at h' rt t ∧ roots h' = rs) ∨
     (r = 0 ∧ ∃ t' A B, inorder t = A ++ B ∧ inorder t' = A ++ node :: B ∧ below cmp node A ∧ above cmp node B ∧
        tree_at h' rt t' ∧ roots h' = <[rt := ptr t']> rs))) (mkRBH m rs)).
  { intros (r & h' & ? & ?)%wp_run. eauto. }
  apply wp_bind, (wp_get_root _ _ _ _ _ Hrt). apply wp_bind, (wp_set_child _ _ _ _ _ _ _ Hn).
  apply wp_bind. eapply wp_set_child; [look|]. apply wp_bind. eapply wp_set_pc; [look|].
  rewrite !insert_insert_eq. change (with_pc _ _) with (mkRB 0 0 0). fold m1. apply wp_bind, wp_gets. cbn [nodes].
  destruct t as [|ct tl ta tr] eqn:Et.
  - cbn [insert_descend ptr]. apply wp_bind, wp_ret.
    apply wp_bind, wp_bind, (wp_get_pc _ _ _ _ _ Hm1), wp_bind, wp_gets. cbn [rb_parent_color nodes].
    eapply wp_mono; [apply (insert_fix_loop_ok _ m1 rs rt [] (T Red E node E) 0%nat)|].
    all: try done.
    + simpl. lia.
    + intros z. simpl. rewrite /eqn. case_decide; lia.
    + exact (mk_is_Some _ _ Hrt).
    + intros _ h' (t' & Hin & Hrb' & Hr' & Hroot & Hfr). apply wp_ret. split.
      { intros z Hz _. rewrite Hfr; [simpl; apply eqn_0 in Hz; lia|]. apply lookup_insert_ne. congruence. }
      right. split; [done|]. exists t', [], []. split_and!; [done..|constructor|constructor| |done].
      split; [rewrite Hroot; apply lookup_insert_eq|done| |done]. rewrite Hin. apply NoDup_singleton.
  - rewrite -Et in Hrt, Hrep, Hu, Hrb, Hs, Hni, Hrep1, Hsz |- *.
    apply wp_bind. eapply wp_mono; [apply (insert_descend_ok cmp Htr node m1 rs Hok Hm1 _ t [])|].
    + lia.
    + by subst.
    + done.
    + intros z. simpl. apply uniq_cnt with (z := z) in Hu. lia.
    + simpl. lia.
    + done.
    + exists [], []. split_and!; [intros; simpl; by rewrite app_nil_r|constructor..].
    + intros r h' [(-> & -> & b & Hb & Hc1 & Hc2)|(-> & f & k & Hp & Hg & ->)].
      * apply wp_ret. split; [intros z Hz _; apply lookup_insert_ne; congruence|].
        left. split_and!; [done|by exists b| |done]. by split.
      * change (plug [] t) with t in Hp. rewrite -Hp in Hrt, Hrep1, Hu, Hrb, Hni |- *. apply wp_bind. eapply wp_mono; [by apply (insert_linked cmp)|].
        intros _ h' [Hfr Hres]. apply wp_ret. split; [|by right].
        intros z Hz Hni'. rewrite Hfr; [done|by apply cnt_notin|]. apply lookup_insert_ne. congruence.
Qed.
