(* ===== verification/RBErase.v ===== *)
(** * Removal from a red-black tree

    [_rb_erase] keeps the red-black invariant and takes exactly the node out. *)

From S2P Require Import Prelude RBTree RBRep RBInsert.

Lemma fixed_trans m m' rs rs' rt t t1 t' h' :
  (∀ z, cnt z t = 0%nat → m' !! z = m !! z) → (∀ v, <[rt := v]> rs' = <[rt := v]> rs) → inorder t1 = inorder t →
  fixed m' rs' rt t1 t' h' → fixed m rs rt t t' h'.
Proof.
  intros Hfr Hrs Hin (H1 & H2 & H3 & H4 & H5). split_and!; [congruence|done|done|by rewrite H4|].
  intros z Hz. rewrite H5; [by rewrite cnt_inorder Hin -cnt_inorder|]. by apply Hfr.
Qed.
Lemma root_upd_insert k rt v w rs : <[rt := w]> (root_upd k rt v rs) = <[rt := w]> rs.
Proof. destruct k; [apply insert_insert_eq|done]. Qed.

Lemma fixed_keep m m' rs rt k t t' c n :
  rs !! rt = Some (ptr (plug k t)) → ptr t' = ptr t → rep m' (cpar k) t' → repc m' k (ptr t') → rb c n t' → kok c n k →
  inorder t' = inorder t → (∀ z, (cnt z t + cntc z k = 0)%nat → m' !! z = m !! z) →
  fixed m rs rt (plug k t) (plug k t') (mkRBH m' rs).
Proof.
  intros Hrt Hp Hr Hk Hrb Hok Hin Hfr.
  pose proof (fixed_plug m m' rs rt k t t' _ c n eq_refl (rooted_i _ _ _ _ Hrt) Hr Hk Hrb Hok Hin Hfr) as H.
  destruct k as [|f k]; [|exact H]. simpl in *. by rewrite insert_id in H; [rewrite Hp|].
Qed.

Section erase_fix.
Context (m : gmap Z rb_node_) (rs : gmap Z Z) (rt : Z) (d : side) (k : list frame) (t : tree) (p : Z) (n : nat).
Context (Ht : rb Black n t) (Hr : rep m p t).

(** A red sibling is rotated above the parent, which becomes red. *)
Lemma erase_fix_red_sibling x sa y :
  rb Black (S n) x → rb Black (S n) y →
  (∀ z, (cnt z t + cntc z (mkFr d Black p (mk d Red x sa y) :: k) ≤ 1)%nat) →
  is_Some (rs !! rt) → repc m (mkFr d Black p (mk d Red x sa y) :: k) (ptr t) →
  wp (erase_fix_sibling d rt p) (λ r h', r = ptr x ∧ ∃ m', h' = mkRBH m' (root_upd k rt sa rs) ∧
    rep m' p t ∧ repc m' (mkFr d Red p x :: mkFr d Black sa y :: k) (ptr t) ∧
    ∀ z, (cnt z t + cntc z (mkFr d Black p (mk d Red x sa y) :: k) = 0)%nat → m' !! z = m !! z) (mkRBH m rs).
Proof.
  intros Hx Hy U Hrt Hc. simpl in Hc. destruct Hc as (Hp & Hmp & Hrs & Hk). rewrite ptr_mk in Hmp.
  apply rep_mk in Hrs as (Hsa & Hmsa & Hrx & Hry). own U p. own U sa. pose proof (repc_ok0 _ _ _ Hk) as Hk0.
  apply wp_bind, (wp_get_child _ _ _ _ _ _ Hmp). rewrite child_opp_mkn.
  apply wp_bind. eapply wp_rb_is_red; [exact Hmsa|rewrite pc_mkn; reflexivity|by apply ok_ok0|].
  apply wp_bind, (wp_get_child _ _ _ _ _ _ Hmsa). rewrite child_mkn.
  apply wp_bind, (wp_set_child _ _ _ _ _ _ _ Hmp).
  apply wp_bind. apply (wp_set_parent_color_root _ _ sa x _ _ Black); [frames|exact (rb_S_ne _ _ _ Hx)|done|by apply ok_ok0|].
  apply wp_bind. eapply wp_set_child; [look|]. autorewrite with rbn.
  apply wp_bind. eapply (wp_rotate _ _ k _ _ _ _ _ Black _ Red); [frames|look|look| |done..|neq|lia|lia|done|].
  { by autorewrite with rbn. }
  apply wp_ret. split; [done|]. eexists. split; [done|]. autorewrite with rbn. split_and!.
  - frames.
  - simpl. split_and!; [done|look|frames|done|look|frames|]. apply (repc_ctx_upd _ _ p); [count|frames].
  - intros z Hz. simpl in Hz. autorewrite with rbc in Hz. look.
Qed.

(** From here the sibling is black. *)
Context (cp : color) (x y : tree) (sa : Z).
Context (U : ∀ z, (cnt z t + cntc z (mkFr d cp p (mk d Black x sa y) :: k) ≤ 1)%nat).
Context (Hrt : rs !! rt = Some (ptr (plug (mkFr d cp p (mk d Black x sa y) :: k) t))).
Context (Hkok : kok Black (S n) (mkFr d cp p (mk d Black x sa y) :: k)).
Context (Hc : repc m (mkFr d cp p (mk d Black x sa y) :: k) (ptr t)).

(** The context around the parent, whatever its colour. *)
Lemma kok_parent : kok cp (match cp with Red => S n | Black => S (S n) end) k.
Proof. destruct cp; simpl in Hkok; naive_solver. Qed.

(** Both children of the sibling are black: the sibling becomes red and the lack of
    a black moves to the parent. *)
Lemma erase_fix_recolor :
  rb Black n x → rb Black n y →
  wp (erase_fix_black d rt p sa) (λ r h',
    (r = None ∧ ∃ t', fixed m rs rt (plug (mkFr d cp p (mk d Black x sa y) :: k) t) t' h') ∨
    (cp = Black ∧ k ≠ [] ∧ r = Some (p, cpar k) ∧ ∃ m', h' = mkRBH m' rs ∧
       let t' := mk d Black t p (mk d Red x sa y) in
       rep m' (cpar k) t' ∧ repc m' k p ∧ rb Black (S n) t' ∧
       ∀ z, (cnt z t + cntc z (mkFr d cp p (mk d Black x sa y) :: k) = 0)%nat → m' !! z = m !! z)) (mkRBH m rs).
Proof.
  intros Hx Hy. pose proof kok_parent as Hkp. simpl in Hc. destruct Hc as (Hp & Hmp & Hrs & Hk). rewrite ptr_mk in Hmp.
  apply rep_mk in Hrs as (Hsa & Hmsa & Hrx & Hry). own U p. own U sa. pose proof (repc_ok0 _ _ _ Hk) as Hk0.
  apply wp_bind, (wp_get_child _ _ _ _ _ _ Hmsa). rewrite child_opp_mkn.
  apply wp_bind, (wp_absent_or_black _ _ sa y Black n); [done..|by apply ok_ok0|].
  apply wp_bind, (wp_get_child _ _ _ _ _ _ Hmsa). rewrite child_mkn.
  apply wp_bind, (wp_absent_or_black _ _ sa x Black n); [done..|by apply ok_ok0|].
  apply wp_bind, (wp_set_parent_color _ _ _ _ _ _ Red _ Hmsa); [done|by apply ok_ok0|]. rewrite with_pc_mkn.
  apply wp_bind. eapply wp_rb_is_red; [look|rewrite pc_mkn; reflexivity|done|].
  destruct cp.
  - apply wp_bind, wp_bind. eapply wp_get_pc; [look|]. rewrite pc_mkn.
    eapply wp_set_pc; [look|]. rewrite with_pc_mkn. apply wp_ret. left. split; [done|].
    change (cz Red) with 0 at 1. rewrite Z.add_0_r (lor_pc _ Black) //. eexists.
    apply (fixed_keep _ _ _ _ k (mk d Red t p (mk d Black x sa y)) (mk d Black t p (mk d Red x sa y)) Black (S n));
      rewrite ?ptr_mk; [exact Hrt|done| |frames| | | |].
    + apply rep_mk. rewrite ptr_mk. split_and!; [done|look|frames|]. apply rep_mk. split_and!; [done|look|frames..].
    + apply (rb_black_i _ _ Black Red); [done|by apply rb_red_i].
    + exact (kok_black _ _ _ Hkp).
    + by destruct d.
    + intros z Hz. autorewrite with rbc in Hz. look.
  - apply wp_bind. eapply wp_rb_parent; [look|rewrite pc_mkn; reflexivity|done|]. apply wp_ret.
    assert (Hrep' : rep (<[sa := mkn d (p + cz Red) (ptr x) (ptr y)]> m) (cpar k) (mk d Black t p (mk d Red x sa y))).
    { apply rep_mk. rewrite ptr_mk. split_and!; [done|look|frames|]. apply rep_mk. split_and!; [done|look|frames..]. }
    assert (Hrb' : rb Black (S n) (mk d Black t p (mk d Red x sa y))).
    { apply (rb_black_i _ _ Black Red); [done|by apply rb_red_i]. }
    case_decide as Hk1.
    + right. split_and!; [done|by intros ->|done|]. eexists. split; [done|]. split_and!; [done|frames|done|].
      intros z Hz. simpl in Hz. autorewrite with rbc in Hz. look.
    + destruct k as [|f k0]; [|simpl in Hk1; destruct Hk as [Hf _]; by apply ok_ne in Hf]. left. split; [done|]. eexists.
      apply (fixed_keep _ _ _ _ [] (mk d Black t p (mk d Black x sa y)) (mk d Black t p (mk d Red x sa y)) Black (S n));
        [exact Hrt|by rewrite !ptr_mk|done|done|done|done|by destruct d|].
      intros z Hz. autorewrite with rbc in Hz. look.
Qed.

(** The last rotation: the sibling [q], with the inner subtree [v] and the outer one
    [w], goes above the parent with its colour, and both its children are black. *)
Lemma erase_fix_rotate_ok (m0 : gmap Z rb_node_) (q : Z) (v w : tree) (pcq parv parw : Z) cv :
  ok q → m0 !! q = Some (mkn d pcq (ptr v) (ptr w)) → m0 !! p = Some (mkn d (cpar k + cz cp) (ptr t) q) →
  rep m0 parv v → ok0 parv → rep m0 p t → repc m0 k p → w ≠ E → rep m0 parw w → rb cv n v →
  (∀ z, (cnt z t + eqn z p + cnt z v + eqn z q + cnt z w + cntc z k ≤ 1)%nat) →
  inorder (mk d cp (mk d Black t p v) q (recolor Black w)) = inorder (mk d cp t p (mk d Black x sa y)) →
  (∀ z, (cnt z t + cntc z (mkFr d cp p (mk d Black x sa y) :: k) = 0)%nat → m0 !! z = m !! z) →
  kok cp (match cp with Red => S n | Black => S (S n) end) k → rb Black (S n) (recolor Black w) →
  wp (erase_fix_rotate d rt p q (ptr w)) (λ _ h', ∃ t', fixed m rs rt (plug (mkFr d cp p (mk d Black x sa y) :: k) t) t' h') (mkRBH m0 rs).
Proof.
  intros Hq Hmq Hmp Hrv Hpv Hrt0 Hk Hw Hrw Hv U0 Hin Hfr Hkp Hw'.
  simpl in Hc. destruct Hc as (Hp & _). own U0 p. own U0 q. pose proof (repc_ok0 _ _ _ Hk) as Hk0.
  apply wp_bind, (wp_get_child _ _ _ _ _ _ Hmq). rewrite child_mkn.
  apply wp_bind, (wp_set_child _ _ _ _ _ _ _ Hmp). rewrite with_child_opp_mkn.
  apply wp_bind, (wp_set_parent_if _ _ parv v); [frames|done|by apply ok_ok0|].
  apply wp_bind. eapply wp_set_child; [look|]. rewrite with_child_mkn.
  apply wp_bind, (wp_set_parent_color_root _ _ parw w _ _ Black); [frames|done|done|by apply ok_ok0|].
  eapply (wp_rotate _ _ k _ _ _ _ _ cp _ Black); [frames|look|look| |done..|neq|lia|lia|by rewrite Hrt|].
  { by autorewrite with rbn. }
  eexists. autorewrite with rbn.
  apply (fixed_plug _ _ _ _ k (mk d cp t p (mk d Black x sa y)) (mk d cp (mk d Black t p v) q (recolor Black w)) _
    cp (match cp with Red => S n | Black => S (S n) end)); rewrite ?ptr_mk; [done|by apply rooted_i| | | |done|done|].
  - assert (Hpw : ptr (recolor Black w) = ptr w) by (by destruct w).
    apply rep_mk. rewrite Hpw ptr_mk. split_and!; [done|look| |].
    + apply rep_mk. split_and!; [done|look|frames..].
    + apply rep_ctx_upd; [intros z; specialize (U0 z); destruct w; simpl in *; lia|].
      do 2 (apply rep_insert; [destruct w; simpl in *; lia|]). apply (rep_reroot_self _ parw); [count|frames].
  - apply (repc_ctx_upd _ _ p); [count|frames].
  - assert (rb Black (S n) (mk d Black t p v)) by (exact (rb_black_i _ _ _ _ _ _ _ Ht Hv)).
    destruct cp; [by apply rb_red_i|exact (rb_black_i _ _ _ _ _ _ _ H Hw')].
  - intros z Hz. assert (Hz' : cnt z (mk d cp (mk d Black t p v) q (recolor Black w)) = cnt z (mk d cp t p (mk d Black x sa y))).
    { by rewrite !cnt_inorder Hin. }
    autorewrite with rbc in Hz, Hz'. assert (Hcw' : cnt z (recolor Black w) = cnt z w) by (by destruct w).
    rewrite -(Hfr z); [simpl; autorewrite with rbc; lia|]. look.
Qed.

(** The outer child of the sibling is red: one rotation. *)
Lemma erase_fix_outer cx :
  rb cx n x → rb Red n y →
  wp (erase_fix_black d rt p sa) (λ r h', r = None ∧ ∃ t', fixed m rs rt (plug (mkFr d cp p (mk d Black x sa y) :: k) t) t' h')
    (mkRBH m rs).
Proof.
  intros Hx Hy. pose proof Hc as (Hp & Hmp & Hrs & Hk). simpl in Hp, Hmp, Hk. rewrite ptr_mk in Hmp.
  apply rep_mk in Hrs as (Hsa & Hmsa & Hrx & Hry).
  apply wp_bind, (wp_get_child _ _ _ _ _ _ Hmsa). rewrite child_opp_mkn.
  apply wp_bind, (wp_absent_or_black _ _ sa y Red n); [done..|by apply ok_ok0|].
  apply wp_bind. eapply wp_mono; [apply (erase_fix_rotate_ok m sa x y (p + cz Black) sa sa cx); try done|].
  - by apply ok_ok0.
  - exact (rb_Red_ne _ _ Hy).
  - intros z. specialize (U z). simpl in U. autorewrite with rbc in U. lia.
  - rewrite inorder_mk_recolor. apply inorder_rotate.
  - exact kok_parent.
  - by apply rb_recolor.
  - intros ? h' H. by apply wp_ret.
Qed.

(** The inner child of the sibling is red and the outer one black: two rotations. *)
Lemma erase_fix_inner :
  rb Red n x → rb Black n y →
  wp (erase_fix_black d rt p sa) (λ r h', r = None ∧ ∃ t', fixed m rs rt (plug (mkFr d cp p (mk d Black x sa y) :: k) t) t' h')
    (mkRBH m rs).
Proof.
  intros Hx Hy. pose proof Hc as (Hp & Hmp & Hrs & Hk). simpl in Hp, Hmp, Hk. rewrite ptr_mk in Hmp.
  apply rep_mk in Hrs as (Hsa & Hmsa & Hrx & Hry).
  apply wp_bind, (wp_get_child _ _ _ _ _ _ Hmsa). rewrite child_opp_mkn.
  apply wp_bind, (wp_absent_or_black _ _ sa y Black n); [done..|by apply ok_ok0|].
  apply wp_bind, (wp_get_child _ _ _ _ _ _ Hmsa). rewrite child_mkn.
  apply wp_bind, (wp_absent_or_black _ _ sa x Red n); [done..|by apply ok_ok0|].
  pose proof U as U'. destruct (mk_view d x) as [Ex|(cx & x1 & xa & x2 & Ex)]; rewrite Ex in Hx; [by destruct Hx|].
  rewrite Ex in Hmsa, Hrx, U'. assert (Hpx : ptr x = xa) by (by rewrite Ex ptr_mk). rewrite !Hpx. rewrite ptr_mk in Hmsa. simpl fa in Hmsa.
  destruct cx; [|apply rb_black in Hx as [? _]; done]. apply rb_red in Hx as (_ & Hx1 & Hx2).
  apply rep_mk in Hrx as (Hxa & Hmxa & Hrx1 & Hrx2). own U' p. own U' sa. own U' xa.
  apply wp_bind, (wp_get_child _ _ _ _ _ _ Hmxa). rewrite child_opp_mkn.
  apply wp_bind, (wp_set_child _ _ _ _ _ _ _ Hmsa). rewrite with_child_mkn.
  apply wp_bind, (wp_set_parent_color_if _ _ xa x2 _ _ Black); [frames|done|by apply ok_ok0|].
  apply wp_bind. eapply wp_set_child; [look|]. rewrite with_child_opp_mkn.
  apply wp_bind. eapply wp_set_child; [look|]. rewrite with_child_opp_mkn.
  apply wp_bind. eapply wp_mono; [rewrite -{1}(ptr_mk d Black x2 sa y);
    apply (erase_fix_rotate_ok _ xa x1 (mk d Black x2 sa y) (sa + cz Red) xa p Black)|].
  - done.
  - rewrite ptr_mk. look.
  - look.
  - frames.
  - by apply ok_ok0.
  - frames.
  - frames.
  - by destruct d.
  - apply rep_mk. split_and!; [done|look|frames..].
  - done.
  - intros z. specialize (U' z). simpl in U'. autorewrite with rbc in U'. autorewrite with rbc. lia.
  - rewrite Ex inorder_mk_recolor (inorder_rotate d _ _ Black Black). apply inorder_mk. symmetry. apply inorder_rotate.
  - intros z Hz. rewrite Ex in Hz. simpl in Hz. autorewrite with rbc in Hz. look.
  - exact kok_parent.
  - destruct d; simpl; (split; [done|]; exists n; eauto).
  - intros ? h' H. by apply wp_ret.
Qed.
End erase_fix.

(** ** One iteration and the loop *)
Lemma rb_view d c n s : rb c (S n) s →
  ∃ x a y, (c = Red ∧ s = mk d Red x a y ∧ rb Black (S n) x ∧ rb Black (S n) y) ∨
    (c = Black ∧ s = mk d Black x a y ∧ (∃ cx, rb cx n x) ∧ ∃ cy, rb cy n y).
Proof.
  intros H. destruct (mk_view d s) as [->|([] & x & a & y & ->)]; [by destruct H|exists x, a, y..].
  - apply rb_red in H as (-> & ? & ?). by left.
  - apply rb_black in H as (-> & n' & [= ->] & ? & ?). by right.
Qed.

Section erase_fix_loop.
Context (rt : Z).

(** What one iteration leaves: the tree is finished, or the parent is the next focus. *)
Definition iterated (m : gmap Z rb_node_) (rs : gmap Z Z) (f : frame) (k : list frame) (t : tree) (n : nat)
    (r : option (Z * Z)) (h' : rbheap) : Prop :=
  (r = None ∧ ∃ t', fixed m rs rt (plug (f :: k) t) t' h') ∨
  (fc f = Black ∧ k ≠ [] ∧ r = Some (fa f, cpar k) ∧ ∃ m' t', h' = mkRBH m' rs ∧ ptr t' = fa f ∧
     inorder t' = inorder (mk (fd f) (fc f) t (fa f) (fs f)) ∧ rep m' (cpar k) t' ∧ repc m' k (fa f) ∧ rb Black (S n) t' ∧
     ∀ z, (cnt z t + cntc z (f :: k) = 0)%nat → m' !! z = m !! z).

Lemma erase_fix_black_ok m rs d cp p k t n x sa y cx cy :
  rb Black n t → rep m p t →
  (∀ z, (cnt z t + cntc z (mkFr d cp p (mk d Black x sa y) :: k) ≤ 1)%nat) →
  rs !! rt = Some (ptr (plug (mkFr d cp p (mk d Black x sa y) :: k) t)) →
  kok Black (S n) (mkFr d cp p (mk d Black x sa y) :: k) → repc m (mkFr d cp p (mk d Black x sa y) :: k) (ptr t) →
  rb cx n x → rb cy n y →
  wp (erase_fix_black d rt p sa) (iterated m rs (mkFr d cp p (mk d Black x sa y)) k t n) (mkRBH m rs).
Proof.
  intros Ht Hr U Hrt Hkok Hc Hx Hy. destruct cy.
  - eapply wp_mono; [by apply (erase_fix_outer m rs rt d k t p n Ht Hr cp x y sa U Hrt Hkok Hc cx)|]. by left.
  - destruct cx.
    + eapply wp_mono; [by apply (erase_fix_inner m rs rt d k t p n Ht Hr cp x y sa)|]. by left.
    + eapply wp_mono; [by apply (erase_fix_recolor m rs rt d k t p n Ht Hr cp x y sa)|].
      intros r h' [?|(-> & ? & ? & m' & -> & ? & ? & ? & ?)]; [by left|right]. split_and!; [done..|].
      exists m', (mk d Black t p (mk d Red x sa y)). split_and!; [done|apply ptr_mk| |done..].
      by apply inorder_mk, inorder_mk.
Qed.

Lemma erase_fix_side_ok m rs d cp p k t n s :
  rb Black n t → rep m p t →
  (∀ z, (cnt z t + cntc z (mkFr d cp p s :: k) ≤ 1)%nat) → rs !! rt = Some (ptr (plug (mkFr d cp p s :: k) t)) →
  kok Black (S n) (mkFr d cp p s :: k) → repc m (mkFr d cp p s :: k) (ptr t) →
  wp (erase_fix_side d rt p) (iterated m rs (mkFr d cp p s) k t n) (mkRBH m rs).
Proof.
  intros Ht Hr U Hrt Hkok Hc. assert (exists cs, rb cs (S n) s ∧ (cs = Red → cp = Black)) as (cs & Hs & Hcs).
  { destruct cp; simpl in Hkok; [destruct Hkok as (_ & ? & _); by exists Black|destruct Hkok as ([cs ?] & _); by exists cs]. }
  destruct (rb_view d _ _ _ Hs) as (x & sa & y & [(-> & -> & Hx & Hy)|(-> & -> & [cx Hx] & [cy Hy])]).
  - specialize (Hcs eq_refl) as ->. apply wp_bind.
    eapply wp_mono; [apply (erase_fix_red_sibling m rs rt d k t p n Hr x sa y); try done; by rewrite Hrt|].
    intros r h' (-> & m' & -> & Hr' & Hc' & Hfr).
    destruct (rb_view d _ _ _ Hx) as (x1 & xa & x2 & [(? & _)|(_ & -> & [c1 Hx1] & [c2 Hx2])]); [done|]. rewrite ptr_mk.
    set (x := mk d Black x1 xa x2) in *.
    eapply wp_mono; [apply (erase_fix_black_ok m' (root_upd k rt sa rs) d Red p (mkFr d Black sa y :: k) t n x1 xa x2 c1 c2); try done|].
    + intros z. specialize (U z). simpl in *. autorewrite with rbc in U. fold x. lia.
    + fold x. destruct k as [|f k]; simpl; [rewrite !ptr_mk; apply lookup_insert_eq|].
      rewrite Hrt. f_equal. apply (ptr_plug f k).
    + simpl in *. naive_solver.
    + intros r h' [(-> & t' & Hfix)|(? & _)]; [left|done]. split; [done|]. exists t'.
      eapply fixed_trans; [| | |exact Hfix].
      * intros z Hz. apply Hfr. by rewrite cnt_plug in Hz.
      * intros v. apply root_upd_insert.
      * apply (inorder_cong k (mk d Black (mk d Red t p x) sa y) (mk d Black t p (mk d Red x sa y))), inorder_rotate.
  - assert (Hsib : wp (erase_fix_sibling d rt p) (λ v h', v = sa ∧ h' = mkRBH m rs) (mkRBH m rs)).
    { pose proof Hc as (Hp & Hmp & Hrs & _). simpl in Hp, Hmp. rewrite ptr_mk in Hmp. apply rep_mk in Hrs as (_ & Hmsa & _).
      apply wp_bind, (wp_get_child _ _ _ _ _ _ Hmp). rewrite child_opp_mkn.
      apply wp_bind. eapply wp_rb_is_red; [exact Hmsa|rewrite pc_mkn; reflexivity|by apply ok_ok0|]. by apply wp_ret. }
    apply wp_bind. eapply wp_mono; [exact Hsib|]. intros ? ? [-> ->]. by apply (erase_fix_black_ok m rs d cp p k t n x sa y cx cy).
Qed.

Lemma erase_fix_loop_ok fuel : ∀ m rs f k t n,
  (length k < fuel)%nat → rb Black n t → rep m (fa f) t → (∀ z, (cnt z t + cntc z (f :: k) ≤ 1)%nat) →
  rs !! rt = Some (ptr (plug (f :: k) t)) → kok Black (S n) (f :: k) → repc m (f :: k) (ptr t) →
  wp (erase_fix_loop fuel rt (ptr t) (fa f)) (λ _ h', ∃ t', fixed m rs rt (plug (f :: k) t) t' h') (mkRBH m rs).
Proof.
  induction fuel as [|fuel IH]; intros m rs f k t n Hf Ht Hr U Hrt Hkok Hc; [lia|]. cbn [erase_fix_loop].
  pose proof Hc as (Hp & Hmp & Hrs & _). apply wp_bind, (wp_get_child _ _ _ _ _ _ Hmp). apply wp_bind.
  destruct f as [d cp p s]. simpl in Hp, Hmp, Hrs, Hr |- *.
  assert (Hside : wp (erase_fix_side d rt p) (λ r h', wp (match r with Some (node, parent) => erase_fix_loop fuel rt node parent | None => mret () end)
    (λ _ h'', ∃ t', fixed m rs rt (plug (mkFr d cp p s :: k) t) t' h'') h') (mkRBH m rs)).
  { eapply wp_mono; [by apply (erase_fix_side_ok m rs d cp p k t n s)|].
    intros r h' [(-> & ?)|(? & ? & -> & m' & t' & -> & Hpt & Hin & Hr' & Hc' & Hrb' & Hfr)]; [by apply wp_ret|].
    destruct k as [|f k]; [done|]. simpl in *. subst cp. rewrite -{1}Hpt.
    eapply wp_mono; [apply (IH m' rs f k t' (S n)); try done|].
    - lia.
    - intros z. specialize (U z). assert (Hz : cnt z t' = cnt z (mk d Black t p s)) by (by rewrite !cnt_inorder Hin).
      autorewrite with rbc in Hz. simpl. lia.
    - rewrite Hrt. f_equal. apply (ptr_plug f k).
    - naive_solver.
    - by rewrite Hpt.
    - intros ? h' (t'' & Hfix). exists t''. eapply fixed_trans; [| | |exact Hfix].
      + intros z Hz. apply Hfr. rewrite cnt_plug in Hz. autorewrite with rbc in Hz. lia.
      + done.
      + by apply (inorder_cong (f :: k)). }
  assert (Hs0 : s ≠ E). { destruct cp; simpl in Hkok; [destruct Hkok as (_ & H & _)|destruct Hkok as ([? H] & _)]; exact (rb_S_ne _ _ _ H). }
  assert (Hts : ptr t ≠ ptr s).
  { destruct s as [|cs sl sa sr]; [done|]. simpl. intros Ets. own U sa. destruct Hrs as [Hsa _]. apply ptr_cnt in Ets; [lia|by apply ok_ne]. }
  destruct d; simpl; [rewrite decide_True //|rewrite decide_False; [naive_solver|exact Hside]].
Qed.
End erase_fix_loop.

(** ** The successor *)
Definition cpar_at (top : Z) (k : list frame) : Z := match k with [] => top | f :: _ => fa f end.

Lemma cpar_at_app top k d c a s : cpar_at top (k ++ [mkFr d c a s]) = cpar_at a k.
Proof. by destruct k. Qed.
Lemma cpar_app k d c a s k' : cpar (k ++ mkFr d c a s :: k') = cpar_at a k.
Proof. by destruct k. Qed.

Lemma successor_loop_ok fuel : ∀ l parent s1 m rs,
  l ≠ E → (tsize l < fuel)%nat → rep m s1 l →
  ∃ k cs sa x, l = plug k (T cs E sa x) ∧ Forall (λ f, fd f = L) k ∧
    successor_loop fuel parent s1 (ptr l) (mkRBH m rs) = Ret (cpar_at s1 k, sa) (mkRBH m rs).
Proof.
  induction fuel as [|fuel IH]; intros l parent s1 m rs HE Hf Hr; [lia|].
  destruct l as [|c l a r]; [done|]. destruct Hr as (Ha & Hma & Hl & _). cbn [successor_loop ptr].
  rewrite decide_False; [by apply ok_ne|].
  rewrite (bind_run _ _ (mkRBH m rs) (ptr l) (mkRBH m rs)); [rewrite /get_child /ld; run_simpl; by rewrite Hma|].
  destruct l as [|cl ll la lr] eqn:El.
  - exists [], c, a, r. split_and!; [done|constructor|]. destruct fuel; [simpl in Hf; lia|]. done.
  - destruct (IH l s1 a m rs) as (k & cs & sa & x & E1 & E2 & E3); [by rewrite El|rewrite El; simpl in *; lia|by rewrite El|].
    exists (k ++ [mkFr L c a r]), cs, sa, x. rewrite plug_app -E1 cpar_at_app El. split_and!; [done| |by rewrite -El].
    apply Forall_app. split; [done|by constructor].
Qed.

(** A representation below any parent, split at a focus. *)
Fixpoint repc_at (m : gmap Z rb_node_) (top : Z) (k : list frame) (p : Z) : Prop :=
  match k with
  | [] => True
  | f :: k => ok (fa f) ∧ m !! fa f = Some (mkn (fd f) (cpar_at top k + cz (fc f)) p (ptr (fs f))) ∧
              rep m (fa f) (fs f) ∧ repc_at m top k (fa f)
  end.
Lemma rep_plug_at m top k t : rep m top (plug k t) ↔ rep m (cpar_at top k) t ∧ repc_at m top k (ptr t).
Proof.
  revert t. induction k as [|f k IH]; intros t; simpl; [naive_solver|]. rewrite IH rep_mk ptr_mk. naive_solver.
Qed.
Lemma repc_at_insert m top k p a n : cntc a k = 0%nat → repc_at m top k p → repc_at (<[a := n]> m) top k p.
Proof.
  revert p. induction k as [|f k IH]; simpl; [done|]. intros p H (? & Hb & Hs & Hk).
  assert (a ≠ fa f) by (apply eqn_0; lia). rewrite lookup_insert_ne //.
  split_and!; [done..|apply rep_insert; [lia|done]|apply IH; [lia|done]].
Qed.

Lemma repc_at_reroot x pc m top k p :
  (∀ z, (cnt z x + cntc z k ≤ 1)%nat) → repc_at m top k p → repc_at (reroot x pc m) top k p.
Proof.
  destruct x as [|c l b r]; simpl; [done|]. intros H. apply repc_at_insert. specialize (H b). rewrite eqn_refl in H. lia.
Qed.
Lemma repc_at_ctx_upd k' v m top k p :
  (∀ z, (cntc z k + cntc z k' ≤ 1)%nat) → repc_at m top k p → repc_at (ctx_upd k' v m) top k p.
Proof.
  destruct k' as [|f k']; simpl; [done|]. intros H. apply repc_at_insert. specialize (H (fa f)). rewrite eqn_refl in H. lia.
Qed.
Lemma repc_at_upd m top f k p v :
  (∀ z, (cntc z (f :: k) ≤ 1)%nat) → repc_at m top (f :: k) p →
  repc_at (<[fa f := mkn (fd f) (cpar_at top k + cz (fc f)) v (ptr (fs f))]> m) top (f :: k) v.
Proof.
  simpl. intros H (? & Hb & Hs & Hk). specialize (H (fa f)). rewrite eqn_refl in H.
  split_and!; [done|apply lookup_insert_eq|apply rep_insert; [lia|done]|apply repc_at_insert; [lia|done]].
Qed.
Lemma repc_at_snoc m top k d c b s X :
  repc_at m top (k ++ [mkFr d c b s]) (ptr X) ↔
  repc_at m b k (ptr X) ∧ ok b ∧ m !! b = Some (mkn d (top + cz c) (ptr (plug k X)) (ptr s)) ∧ rep m b s.
Proof.
  revert X. induction k as [|f k IH]; intros X; simpl; [naive_solver|].
  pose proof (IH (mk (fd f) (fc f) X (fa f) (fs f))) as H. rewrite ptr_mk in H. rewrite H cpar_at_app. naive_solver.
Qed.
Lemma cntc_app z k k' : cntc z (k ++ k') = (cntc z k + cntc z k')%nat.
Proof. induction k as [|f k IH]; simpl; lia. Qed.
Lemma wp_set_parent_node m rs r n q c p (Q : () → rbheap → Prop) :
  m !! r = Some n → rb_parent_color n = q + cz c → ok0 q → ok0 p → Q () (mkRBH (<[r := with_pc (p + cz c) n]> m) rs) →
  wp (rb_set_parent r p) Q (mkRBH m rs).
Proof.
  intros Hm Hq Hok Hp HQ. apply wp_bind, (wp_get_pc _ _ _ _ _ Hm), (wp_set_pc _ _ _ _ _ _ Hm).
  by rewrite Hq color_pc // Z.lor_comm lor_pc.
Qed.

(** The writes of the splice, below the frames [k0] and the right child [b]. *)
Lemma splice_writes m rs a k0 c b r' sa x pcs (v : Z * Z * Z) :
  ok a → ok sa → m !! sa = Some (mkRB pcs (ptr x) 0) → rep m sa x →
  Forall (λ f, fd f = L) (k0 ++ [mkFr L c b r']) → repc_at m a (k0 ++ [mkFr L c b r']) sa →
  (∀ z, (eqn z sa + cnt z x + cntc z k0 + eqn z b + cnt z r' ≤ 1)%nat) →
  wp (set_child L (cpar_at b k0) (ptr x);; set_child R sa b;; rb_set_parent b sa;; mret v)
    (λ v' h', v' = v ∧ ∃ m', h' = mkRBH m' rs ∧ repc_at m' sa (k0 ++ [mkFr L c b r']) (ptr x) ∧ rep m' sa x ∧
      m' !! sa = Some (mkRB pcs b 0) ∧ ∀ z, (eqn z sa + cnt z x + cntc z k0 + eqn z b + cnt z r' = 0)%nat → m' !! z = m !! z)
    (mkRBH m rs).
Proof.
  intros Ha Hsa Hmsa Hrx HL Hk Uk.
  assert (U2 : ∀ z, (eqn z sa + cnt z x + cntc z (k0 ++ [mkFr L c b r']) ≤ 1)%nat).
  { intros z. specialize (Uk z). rewrite cntc_app /=. lia. }
  rewrite -(cpar_at_app sa k0 L c b r'). destruct (k0 ++ [mkFr L c b r']) as [|[d2 c2 a2 s2] k1] eqn:Ek; [by destruct k0|].
  apply Forall_cons in HL as [HL _]. simpl in HL. subst d2. pose proof Hk as (Ha2 & Hma2 & _). simpl in Ha2, Hma2.
  own U2 a2. own U2 sa. apply wp_bind. simpl cpar_at. apply (wp_set_child _ _ _ _ _ _ _ Hma2). simpl with_child.
  apply wp_bind. eapply wp_set_child; [look|]. simpl with_child.
  set (m2 := <[sa := _]> _).
  assert (H2 : repc_at m2 a (k0 ++ [mkFr L c b r']) (ptr x)).
  { rewrite Ek. apply repc_at_insert; [simpl; lia|]. apply (repc_at_upd m a (mkFr L c2 a2 s2) k1 sa (ptr x)); [|done].
    intros z. specialize (U2 z). lia. }
  pose proof H2 as (H2k & Hb & H2b & H2r)%repc_at_snoc. own Uk b.
  assert (Hx2 : rep m2 sa x) by (rewrite /m2; frames).
  apply wp_bind. apply (wp_set_parent_node _ _ _ _ a c _ _ H2b); [done|by apply ok_ok0..|]. simpl with_pc.
  apply wp_ret. split; [done|]. eexists. split; [done|]. rewrite -Ek. split_and!.
  - apply repc_at_snoc. split_and!; [apply repc_at_insert; [lia|done]|done|look|frames].
  - frames.
  - rewrite lookup_insert_ne; [neq|]. apply lookup_insert_eq.
  - intros z Hz. assert (cntc z (mkFr L c2 a2 s2 :: k1) = cntc z k0 + (eqn z b + cnt z r'))%nat.
    { rewrite -Ek cntc_app /=. lia. } simpl in *. rewrite /m2. look.
Qed.

(** What splicing out the successor [sa] of a node [a] with right subtree [r]
    leaves: its right subtree [x] hangs below its parent, and [sa] points to what
    remains of [r]. *)
Lemma splice_successor_ok m rs a r :
  rep m a r → (∀ z, (cnt z r ≤ 1)%nat) → ok a → r ≠ E →
  ∃ k cs sa x, r = plug k (T cs E sa x) ∧ Forall (λ f, fd f = L) k ∧ ok sa ∧
    wp (splice_successor (ptr r)) (λ v h', v = (cpar_at sa k, sa, ptr x) ∧ ∃ m', h' = mkRBH m' rs ∧
      repc_at m' sa k (ptr x) ∧ rep m' sa x ∧ m' !! sa = Some (mkRB (cpar_at a k + cz cs) (ptr (plug k x)) 0) ∧
      ∀ z, cnt z r = 0%nat → m' !! z = m !! z) (mkRBH m rs).
Proof.
  intros Hr U Ha HE. pose proof (rep_size m a r Hr (proj2 (uniq_cnt _) U)) as Hsz.
  destruct r as [|c l b r']; [done|]. pose proof Hr as (Hb & Hmb & Hl & Hr').
  destruct l as [|cl ll la lr] eqn:El.
  - exists [], c, b, r'. split_and!; [done|constructor|done|]. cbn [ptr].
    apply wp_bind, (wp_get_child _ _ _ _ _ _ Hmb), wp_bind, (wp_get_child _ _ _ _ _ _ Hmb), wp_ret.
    split; [done|]. exists m. by split_and!.
  - assert (Hla : ptr l ≠ 0) by (subst l; destruct Hl as [? _]; by apply ok_ne). rewrite -El in Hmb, Hl, Hsz, Hr, U |- *.
    destruct (successor_loop_ok (S (size m)) l b b m rs) as (k0 & cs & sa & x & E1 & E2 & E3); [by subst|simpl in *; lia|done|].
    assert (Et : T c l b r' = plug (k0 ++ [mkFr L c b r']) (T cs E sa x)) by (by rewrite plug_app -E1).
    exists (k0 ++ [mkFr L c b r']), cs, sa, x. pose proof Hr as Hr0. rewrite Et in Hr0.
    assert (Uk : ∀ z, (eqn z sa + cnt z x + cntc z k0 + eqn z b + cnt z r' ≤ 1)%nat).
    { intros z. specialize (U z). rewrite E1 /= cnt_plug /= in U. lia. }
    apply rep_plug_at in Hr0 as [(Hsa & Hmsa & _ & Hrx) Hk].
    assert (HL : Forall (λ f, fd f = L) (k0 ++ [mkFr L c b r'])) by (apply Forall_app; split; [done|by constructor]).
    split_and!; [done..|]. cbn [ptr].
    apply wp_bind, (wp_get_child _ _ _ _ _ _ Hmb). simpl child. rewrite decide_False //.
    apply wp_bind, wp_gets, wp_bind. eapply wp_of_run; [exact E3|].
    apply wp_bind, (wp_get_child _ _ _ _ _ _ Hmsa). simpl child.
    assert (Hpb : ptr (plug (k0 ++ [mkFr L c b r']) x) = b) by (by rewrite plug_app).
    rewrite Hpb. eapply wp_mono; [apply (splice_writes m rs a k0 c b r' sa x (cpar_at a (k0 ++ [mkFr L c b r']) + cz cs)); done|].
    intros v h' (-> & m' & -> & ? & ? & ? & Hfr). rewrite cpar_at_app. split; [done|]. exists m'. split_and!; [done..|].
    intros z Hz. apply Hfr. rewrite Et cnt_plug cntc_app /= in Hz. lia.
Qed.

Ltac frames_at :=
  lazymatch goal with
  | |- repc_at (<[_ := _]> _) _ _ _ => apply repc_at_insert; [lia|frames_at]
  | |- repc_at (reroot _ _ _) _ _ _ => apply repc_at_reroot; [count|frames_at]
  | |- repc_at (ctx_upd _ _ _) _ _ _ => apply repc_at_ctx_upd; [count|frames_at]
  | |- _ => eassumption
  end.

Lemma kok_addr c n k2 d c' a a' s k : kok c n (k2 ++ mkFr d c' a s :: k) → kok c n (k2 ++ mkFr d c' a' s :: k).
Proof. revert c n. induction k2 as [|[d2 [] a2 s2] k2 IH]; intros c n; simpl; naive_solver. Qed.

Lemma inorder_plug_L k : Forall (λ f, fd f = L) k → ∃ B, ∀ t, inorder (plug k t) = inorder t ++ B.
Proof.
  induction k as [|[d c a s] k IH]; [exists []; intros; by rewrite app_nil_r|]. intros [HL Hk]%Forall_cons. simpl in HL. subst d.
  destruct (IH Hk) as [B HB]. exists (a :: inorder s ++ B). intros t. rewrite /= HB /= -app_assoc. done.
Qed.
Lemma repc_at_ok0 m top top' k p : ok top' → repc_at m top k p → ok0 (cpar_at top' k).
Proof. destruct k as [|f k]; simpl; [intros ? _; by apply ok_ok0|]. intros _ [? _]. by apply ok_ok0. Qed.

(** ** [__rb_erase] *)
Section rb_erase.
Context (m : gmap Z rb_node_) (rs : gmap Z Z) (rt : Z) (k : list frame) (c : color) (l r : tree) (a : Z).
Context (Hrt : rs !! rt = Some (ptr (plug k (T c l a r)))) (Hr : rep m (cpar k) (T c l a r)) (Hc : repc m k a).
Context (U : ∀ z, (cnt z (T c l a r) + cntc z k ≤ 1)%nat) (Hrb : rbtree (plug k (T c l a r))).

(** The node is out; the tree is finished or lacks a black below the node [v]. *)
Definition erased (v : Z) (h' : rbheap) : Prop :=
  ∃ K x Y, plug K x = plug k Y ∧ inorder Y = inorder l ++ inorder r ∧ rep (nodes h') 0 (plug K x) ∧
    roots h' = <[rt := ptr (plug K x)]> rs ∧ (∀ z, cnt z (plug k (T c l a r)) = 0%nat → nodes h' !! z = m !! z) ∧
    ((v = 0 ∧ rbtree (plug K x)) ∨ (v = cpar K ∧ K ≠ [] ∧ x = E ∧ kok Black 1 K)).

Lemma root_upd_plug t : root_upd k rt (ptr t) rs = <[rt := ptr (plug k t)]> rs.
Proof. destruct k as [|f k']; [done|]. cbn [root_upd]. rewrite insert_id //. rewrite Hrt (ptr_plug _ _ _ t) //. Qed.

(** A node with one subtree [s]: the subtree takes its place and its colour. *)
Lemma erase_single s :
  s ≠ E → (l = E ∧ r = s ∨ l = s ∧ r = E) →
  rep (reroot s (cpar k + cz c) (ctx_upd k (ptr s) m)) 0 (plug k (recolor c s)) ∧ rbtree (plug k (recolor c s)) ∧
  inorder (recolor c s) = inorder l ++ inorder r ∧ ptr (recolor c s) = ptr s ∧
  ∀ z, cnt z (plug k (T c l a r)) = 0%nat → reroot s (cpar k + cz c) (ctx_upd k (ptr s) m) !! z = m !! z.
Proof.
  intros HE Hs. destruct Hr as (Ha & Hma & Hl & Hr').
  assert (Us : ∀ z, (eqn z a + cnt z s + cntc z k ≤ 1)%nat) by (intros z; specialize (U z); simpl in U; naive_solver lia).
  assert (Hrs : rep m a s) by naive_solver. own U a. split_and!.
  - apply rep_plug. split.
    + apply (rep_reroot_self _ a); [count|frames].
    + assert (ptr (recolor c s) = ptr s) as -> by (by destruct s). apply repc_reroot; [count|]. apply (repc_ctx_upd _ _ a); [count|done].
  - destruct (plug_rb_inv _ _ Hrb) as (c0 & n & Ht & Hk).
    assert (rb Red 0 s ∧ c0 = Black ∧ c = Black ∧ n = 1%nat) as (Hs1 & -> & -> & ->).
    { destruct c; simpl in Ht.
      - exfalso. destruct Ht as (-> & H1 & H2). destruct Hs as [[-> ->]|[-> ->]].
        + destruct H1 as [_ ->]. destruct s as [|[] ? ? ?]; [done|by destruct H2|destruct H2 as (_ & ? & ? & _); done].
        + destruct H2 as [_ ->]. destruct s as [|[] ? ? ?]; [done|by destruct H1|destruct H1 as (_ & ? & ? & _); done].
      - destruct Ht as (-> & n' & -> & [c1 H1] & [c2 H2]). destruct Hs as [[-> ->]|[-> ->]].
        + destruct H1 as [_ ->]. destruct s as [|[] ? ? ?]; [done|by destruct H2 as (-> & ?)|destruct H2 as (_ & ? & ? & _); done].
        + destruct H2 as [_ ->]. destruct s as [|[] ? ? ?]; [done|by destruct H1 as (-> & ?)|destruct H1 as (_ & ? & ? & _); done]. }
    apply (plug_rb k Black 1); [by apply rb_recolor|done].
  - rewrite inorder_recolor. destruct Hs as [[-> ->]|[-> ->]]; [done|]. simpl. by rewrite app_nil_r.
  - by destruct s.
  - intros z Hz. rewrite cnt_plug /= in Hz. assert (cnt z s = 0%nat) by naive_solver lia. look.
Qed.

Lemma rb_erase_no_left : l = E → wp (__rb_erase a rt) erased (mkRBH m rs).
Proof.
  intros Hl. pose proof Hr as (Ha & Hma & _ & Hr'). own U a. pose proof (repc_ok0 _ _ _ Hc) as Hk0.
  apply wp_bind, (wp_get_child _ _ _ _ _ _ Hma), wp_bind, (wp_get_child _ _ _ _ _ _ Hma). simpl child.
  rewrite decide_True; [by rewrite Hl|].
  apply wp_bind, (wp_get_pc _ _ _ _ _ Hma). simpl rb_parent_color. rewrite parent_pc //.
  apply wp_bind, wp_change_child; [done|by apply ok_ne|lia|by rewrite Hrt|].
  destruct (decide (r = E)) as [Er|Er].
  - rewrite Er. cbn [ptr]. apply wp_ret. rewrite /__rb_is_black color_pc //. exists k, E, E. split_and!.
    + done.
    + by rewrite Hl Er.
    + apply rep_plug. split; [done|]. simpl. apply (repc_ctx_upd _ _ a); [count|done].
    + apply (root_upd_plug E).
    + intros z Hz. rewrite cnt_plug /= in Hz. simpl. look.
    + destruct (plug_rb_inv _ _ Hrb) as (c0 & n & Ht & Hk). rewrite Hl Er in Ht. destruct c; simpl in Ht.
      * left. split; [done|]. destruct Ht as (-> & [_ ->] & _). exact (plug_rb _ Black 0 E (conj eq_refl eq_refl) (kok_black _ _ _ Hk)).
      * destruct Ht as (-> & n' & -> & [? [_ ->]] & _). destruct k as [|f k'] eqn:Ek; [left; split; [done|by exists 0%nat]|by right].
  - destruct (erase_single r Er (or_introl (conj Hl eq_refl))) as (H1 & H2 & H3 & H4 & H5).
    pose proof root_upd_plug as Hru. destruct r as [|cr rl ra rr] eqn:Err; [done|]. destruct Hr' as (Hra & Hmra & _). own U ra. cbn [ptr].
    rewrite decide_True; [by apply ok_ne|]. apply wp_bind. eapply wp_set_pc; [look|]. simpl with_pc. apply wp_ret.
    exists k, (T c rl ra rr), (T c rl ra rr). split_and!; [done|rewrite Err; exact H3|exact H1|apply (Hru (T c rl ra rr))|rewrite Err; exact H5|by left].
Qed.

Lemma rb_erase_no_right : l ≠ E → r = E → wp (__rb_erase a rt) erased (mkRBH m rs).
Proof.
  intros Hl Er. pose proof Hr as (Ha & Hma & Hl' & _). own U a. pose proof (repc_ok0 _ _ _ Hc) as Hk0.
  destruct (erase_single l Hl (or_intror (conj eq_refl Er))) as (H1 & H2 & H3 & H4 & H5).
  apply wp_bind, (wp_get_child _ _ _ _ _ _ Hma), wp_bind, (wp_get_child _ _ _ _ _ _ Hma). simpl child.
  pose proof root_upd_plug as Hru. destruct l as [|cl ll la lr] eqn:El; [done|]. destruct Hl' as (Hla & Hmla & _). own U la. cbn [ptr].
  rewrite decide_False; [by apply ok_ne|]. rewrite decide_True; [by rewrite Er|].
  apply wp_bind, (wp_get_pc _ _ _ _ _ Hma). simpl rb_parent_color. rewrite parent_pc //.
  apply wp_bind, (wp_set_pc _ _ _ _ _ _ Hmla). simpl with_pc.
  apply wp_bind, wp_change_child; [frames|by apply ok_ne|lia|by rewrite Hrt|]. apply wp_ret.
  assert (Hcomm : ctx_upd k la (<[la := mkRB (cpar k + cz c) (ptr lr) (ptr ll)]> m) =
    reroot (T cl ll la lr) (cpar k + cz c) (ctx_upd k la m)).
  { simpl. destruct k as [|f k']; [done|]. simpl in Own0 |- *. apply insert_insert_ne. neq. }
  exists k, (T c ll la lr), (T c ll la lr). rewrite Hcomm. 
  split_and!; [done|rewrite El; exact H3|exact H1|apply (Hru (T c ll la lr))|rewrite El; exact H5|by left].
Qed.

(** The node has two subtrees: its successor [sa] takes its place. *)
Lemma erase_two_rep m5 k2 x sa :
  ok sa → m5 !! sa = Some (mkRB (cpar k + cz c) (ptr (plug k2 x)) (ptr l)) → rep m5 sa l → repc_at m5 sa k2 (ptr x) →
  rep m5 sa x → repc m5 k sa → (∀ z, (eqn z a + cnt z l + eqn z sa + cnt z x + cntc z k2 + cntc z k ≤ 1)%nat) →
  rep (reroot x (cpar_at sa k2 + cz Black) m5) 0 (plug (k2 ++ mkFr R c sa l :: k) (recolor Black x)).
Proof.
  intros Hsa Hm Hl Hk2 Hx Hk U2. own U2 sa. rewrite plug_app. apply rep_plug.
  assert (Hp : ptr (plug k2 (recolor Black x)) = ptr (plug k2 x)) by (destruct k2; [by destruct x|apply ptr_plug]).
  split; [|simpl; split_and!; [done| |frames..]].
  - apply rep_plug_at. split; [apply (rep_reroot_self _ sa); [count|done]|].
    assert (ptr (recolor Black x) = ptr x) as -> by (by destruct x). frames_at.
  - rewrite Hp. look.
Qed.

Lemma erase_two_rb k2 cs x sa :
  r = plug k2 (T cs E sa x) → let K := k2 ++ mkFr R c sa l :: k in
  if decide (x = E) then (match cs with Red => rbtree (plug K E) | Black => kok Black 1 K end)
  else rbtree (plug K (recolor Black x)).
Proof.
  intros Er K. assert (Hrb' : rbtree (plug (k2 ++ mkFr R c a l :: k) (T cs E sa x))) by (rewrite plug_app -Er; exact Hrb).
  destruct (plug_rb_inv _ _ Hrb') as (c0 & n & Ht & Hk).
  apply (kok_addr _ _ _ _ _ _ sa) in Hk. fold K in Hk. destruct cs; simpl in Ht.
  - destruct Ht as (-> & [_ ->] & Hx). destruct x as [|[] xl xa xr]; [|by destruct Hx|destruct Hx as (_ & ? & ? & _); done].
    simpl. exact (plug_rb _ Black 0 E (conj eq_refl eq_refl) (kok_black _ _ _ Hk)).
  - destruct Ht as (-> & n' & -> & [? [_ ->]] & [cx Hx]). case_decide as Ex; [done|].
    apply (plug_rb _ Black 1); [|done]. apply rb_recolor. destruct x as [|[] xl xa xr]; [done| |destruct Hx as (_ & ? & ? & _); done].
    by destruct Hx as (-> & ?).
Qed.

Lemma rb_erase_two : l ≠ E → r ≠ E → wp (__rb_erase a rt) erased (mkRBH m rs).
Proof.
  intros Hl Hrn. pose proof Hr as (Ha & Hma & Hl' & Hr'). pose proof (repc_ok0 _ _ _ Hc) as Hk0.
  assert (Hlp : ptr l ≠ 0) by (destruct l; [done|destruct Hl' as [? _]; by apply ok_ne]).
  assert (Hrp : ptr r ≠ 0) by (destruct r; [done|destruct Hr' as [? _]; by apply ok_ne]).
  destruct (splice_successor_ok m rs a r Hr') as (k2 & cs & sa & x & Er & HL & Hsa & Hsp); [intros z; pose proof (U z) as Uz; simpl in Uz; lia|done..|].
  assert (U2 : ∀ z, (eqn z a + cnt z l + eqn z sa + cnt z x + cntc z k2 + cntc z k ≤ 1)%nat).
  { intros z. pose proof (U z) as Uz. rewrite Er /= cnt_plug /= in Uz. lia. }
  own U2 a. own U2 sa.
  apply wp_bind, (wp_get_child _ _ _ _ _ _ Hma), wp_bind, (wp_get_child _ _ _ _ _ _ Hma). simpl child.
  rewrite !decide_False //. apply wp_bind. eapply wp_mono; [exact Hsp|].
  intros v h' (-> & m1 & -> & Hk2 & Hrx & Hmsa & Hfr1).
  assert (Hcr : ∀ z, cnt z r = (eqn z sa + cnt z x + cntc z k2)%nat) by (intros z; rewrite Er cnt_plug /=; lia).
  assert (Hma1 : m1 !! a = Some (mkRB (cpar k + cz c) (ptr r) (ptr l))) by (rewrite Hfr1 // Hcr; lia).
  assert (Hl1 : rep m1 a l) by (apply (rep_agree m); [intros z Hz; apply Hfr1; rewrite Hcr; specialize (U2 z); lia|done]).
  assert (Hc1 : repc m1 k a) by (apply (repc_agree m); [intros z Hz; apply Hfr1; rewrite Hcr; specialize (U2 z); lia|done]).
  apply wp_bind, (wp_get_child _ _ _ _ _ _ Hma1). simpl child.
  apply wp_bind, (wp_set_child _ _ _ _ _ _ _ Hmsa). simpl with_child.
  apply wp_bind, (wp_set_parent _ _ a l); [frames|done|by apply ok_ok0..|].
  apply wp_bind. eapply wp_get_pc; [look|]. simpl rb_parent_color. rewrite parent_pc //.
  apply wp_bind, wp_change_child; [frames|by apply ok_ne|lia|by rewrite Hrt|].
  set (m4 := ctx_upd k sa _). assert (Hm4 : m4 !! sa = Some (mkRB (cpar_at a k2 + cz cs) (ptr (plug k2 x)) (ptr l))) by (rewrite /m4; look).
  set (m5 := <[sa := mkRB (cpar k + cz c) (ptr (plug k2 x)) (ptr l)]> m4).
  assert (Hx5 : rep m5 sa x) by (rewrite /m5 /m4; frames).
  pose proof (erase_two_rb k2 cs x sa Er) as Hrb2. cbv zeta in Hrb2. set (K := k2 ++ mkFr R c sa l :: k) in *.
  assert (HcK : cpar K = cpar_at sa k2) by apply cpar_app. assert (HKne : K ≠ []) by (by destruct k2).
  assert (Hres : ∀ v, ((v = 0 ∧ rbtree (plug K (recolor Black x))) ∨ (v = cpar K ∧ K ≠ [] ∧ recolor Black x = E ∧ kok Black 1 K)) →
    erased v (mkRBH (reroot x (cpar_at sa k2 + cz Black) m5) (root_upd k rt sa rs))).
  { intros v Hv. exists K, (recolor Black x), (T c l sa (plug k2 (recolor Black x))). split_and!; [apply plug_app| | | | |done].
    - simpl. f_equal. destruct (inorder_plug_L k2 HL) as [B HB]. by rewrite Er !HB inorder_recolor.
    - apply erase_two_rep; [done|apply lookup_insert_eq|rewrite /m5 /m4; frames| |done| |done].
      + rewrite /m5 /m4. frames_at.
      + apply repc_insert; [lia|]. apply (repc_ctx_upd _ _ a); [count|frames].
    - rewrite /K plug_app. exact (root_upd_plug (T c l sa (plug k2 (recolor Black x)))).
    - intros z Hz. rewrite cnt_plug /= Hcr in Hz. simpl. rewrite /m5 /m4 -(Hfr1 z); [rewrite Hcr; lia|]. look. }
  destruct (decide (x = E)) as [Ex|Ex].
  - rewrite decide_False; [by rewrite Ex; naive_solver|].
    apply wp_bind, (wp_get_pc _ _ _ _ _ Hm4), wp_bind, (wp_set_pc _ _ _ _ _ _ Hm4). simpl with_pc. fold m5. simpl rb_parent_color.
    apply wp_ret. rewrite /__rb_is_black color_pc; [exact (repc_at_ok0 _ _ _ _ _ Ha Hk2)|].
    rewrite Ex in Hres, Hrb2. simpl in Hres, Hrb2. apply Hres. destruct cs; [by left|right]. by rewrite HcK.
  - assert (Hx : ptr x ≠ 0) by (destruct x; [done|destruct Hx5 as [? _]; by apply ok_ne]). rewrite decide_True //.
    apply wp_bind, (wp_set_pc _ _ _ _ _ _ Hm4). simpl with_pc. fold m5.
    apply wp_bind, (wp_set_parent_color_root _ _ sa x _ _ Black); [done|done|done|exact (repc_at_ok0 _ _ _ _ _ Hsa Hk2)|].
    apply wp_ret, Hres. by left.
Qed.
End rb_erase.

(** ** [_rb_erase] *)
Lemma nodup_split {X} (A B A' B' : list X) a : NoDup (A ++ a :: B) → A ++ a :: B = A' ++ a :: B' → A = A' ∧ B = B'.
Proof.
  revert A'. induction A as [|x A IH]; intros [|y A'] Hn Heq; simplify_eq/=.
  - done.
  - apply NoDup_cons in Hn as [Hn _]. exfalso. apply Hn. set_solver.
  - apply NoDup_cons in Hn as [Hn _]. exfalso. apply Hn. set_solver.
  - apply NoDup_cons in Hn as [_ Hn]. destruct (IH A' Hn) as [-> ->]; done.
Qed.

Lemma tree_focus t a : a ∈ inorder t → ∃ k c l r, t = plug k (T c l a r).
Proof.
  induction t as [|c l IHl b r IHr]; simpl; [by intros ?%elem_of_nil|]. rewrite elem_of_app elem_of_cons.
  intros [(k & c' & l' & r' & ->)%IHl|[->|(k & c' & l' & r' & ->)%IHr]].
  - exists (k ++ [mkFr L c b r]), c', l', r'. by rewrite plug_app.
  - by exists [], c, l, r.
  - exists (k ++ [mkFr R c b l]), c', l', r'. by rewrite plug_app.
Qed.

Lemma rb_erase_ok m rs rt k c l r a :
  rs !! rt = Some (ptr (plug k (T c l a r))) → rep m 0 (plug k (T c l a r)) → NoDup (inorder (plug k (T c l a r))) →
  rbtree (plug k (T c l a r)) →
  wp (_rb_erase a rt) (λ _ h', ∃ t' Y, inorder t' = inorder (plug k Y) ∧ inorder Y = inorder l ++ inorder r ∧ rbtree t' ∧
    rep (nodes h') 0 t' ∧ roots h' = <[rt := ptr t']> rs ∧
    ∀ z, cnt z (plug k (T c l a r)) = 0%nat → nodes h' !! z = m !! z) (mkRBH m rs).
Proof.
  intros Hrt Hrep Hu Hrb. pose proof Hrep as [Hr Hc]%rep_plug. rewrite uniq_plug in Hu. apply wp_bind.
  assert (He : wp (__rb_erase a rt) (erased m rs rt k c l r a) (mkRBH m rs)).
  { destruct (decide (l = E)) as [Hl|Hl]; [by apply rb_erase_no_left|].
    destruct (decide (r = E)) as [He|He]; [by apply rb_erase_no_right|by apply rb_erase_two]. }
  eapply wp_mono; [exact He|]. intros v [m' rs'] (K & x & Y & Hp & HY & Hrep' & Hroot & Hfr & Hv). simpl in Hrep', Hroot, Hfr.
  destruct Hv as [[-> Hrb']|(-> & HK & -> & Hkok)].
  - apply wp_ret. exists (plug K x), Y. rewrite {1}Hp. by split_and!.
  - destruct K as [|f K]; [done|]. pose proof Hrep' as [Hr' Hc']%rep_plug. simpl cpar.
    rewrite decide_True; [apply ok_ne; by destruct Hc'|].
    assert (Hu' : NoDup (inorder (plug (f :: K) E))).
    { rewrite Hp. apply uniq_plug. intros z. specialize (Hu z). simpl in Hu. rewrite cnt_inorder HY cntl_app -!cnt_inorder. lia. }
    pose proof (rep_size _ _ _ Hrep' Hu') as Hsz. pose proof (tsize_plug (f :: K) E) as Hsz2.
    apply wp_bind, wp_gets. cbn [nodes].
    eapply wp_mono; [apply (erase_fix_loop_ok rt _ m' rs' f K E 0%nat); try done|].
    + simpl in *. lia.
    + by apply uniq_plug.
    + rewrite Hroot. apply lookup_insert_eq.
    + intros ? h' (t' & Hin & Hrb' & Hr'' & Hroot' & Hfr'). exists t', Y. rewrite Hin -Hp. split_and!; [done..| |].
      * by rewrite Hroot' Hroot insert_insert_eq.
      * intros z Hz. rewrite Hfr'; [|by apply Hfr].
        rewrite Hp cnt_plug cnt_inorder HY cntl_app -!cnt_inorder. rewrite cnt_plug /= in Hz. lia.
Qed.

Lemma rb_erase_spec h rt t a A B :
  tree_at h rt t → inorder t = A ++ a :: B →
  ∃ h' t', _rb_erase a rt h = Ret () h' ∧ tree_at h' rt t' ∧ inorder t' = A ++ B ∧ roots h' = <[rt := ptr t']> (roots h) ∧
    ∀ z, z ∉ inorder t → nodes h' !! z = nodes h !! z.
Proof.
  destruct h as [m rs]. intros [Hrt Hrep Hu Hrb] Hin. simpl in *.
  destruct (tree_focus t a) as (k & c & l & r & ->); [rewrite Hin; set_solver|].
  destruct (proj1 (wp_run _ _ _) (rb_erase_ok m rs rt k c l r a Hrt Hrep Hu Hrb)) as ([] & h' & Hrun & t' & Y & Hin' & HY & Hrb' & Hrep' & Hroot & Hfr).
  destruct (inorder_plug k) as (A0 & B0 & HAB). rewrite HAB in Hin'. rewrite HAB in Hin. rewrite HAB in Hu.
  assert ((A0 ++ inorder l) ++ a :: (inorder r ++ B0) = A ++ a :: B) as HE by (rewrite -Hin; simpl; by repeat (rewrite -app_assoc /=)).
  assert (NoDup ((A0 ++ inorder l) ++ a :: (inorder r ++ B0))) as Hu' by (rewrite HE -Hin; done).
  destruct (nodup_split _ _ _ _ _ Hu' HE) as [<- <-].
  assert (Hin2 : inorder t' = (A0 ++ inorder l) ++ inorder r ++ B0) by (rewrite Hin' HY -!app_assoc //).
  exists h', t'. split_and!; [done| |done|done|by intros z Hz; apply Hfr, cnt_notin].
  split; [by rewrite Hroot lookup_insert_eq|done| |done]. rewrite Hin2.
  apply (sublist_NoDup _ _ Hu'). apply sublist_app; [done|]. by apply sublist_cons.
Qed.
