(* ===== verification/RBMap.v ===== *)
(** * The red-black tree as an ordered set

    What the clients of common/rbtree.c (the run queues, the pid map, the timers) rely
    on: a tree is the list of its nodes in the order of the comparison function. *)

From S2P Require Import Prelude RBTree RBRep RBInsert RBErase.

(** The tree at [rt] holds the nodes [l], sorted by [cmp]. *)
Definition holds (h : rbheap) (rt : Z) (cmp : Z → Z → bool) (l : list Z) : Prop :=
  (∃ t, tree_at h rt t ∧ inorder t = l) ∧ sorted cmp l.
Definition transitive (cmp : Z → Z → bool) : Prop := ∀ a b c, cmp a b = true → cmp b c = true → cmp a c = true.
(** Everything outside the nodes [l] and the root [rt] is the same. *)
Definition untouched (h h' : rbheap) (rt : Z) (l : list Z) : Prop :=
  (∀ z, z ∉ l → nodes h' !! z = nodes h !! z) ∧ ∀ rt', rt' ≠ rt → roots h' !! rt' = roots h !! rt'.

(** ** Heights *)
Fixpoint height (t : tree) : nat := match t with E => 0%nat | T _ l _ r => S (Nat.max (height l) (height r)) end.

Lemma rb_height c n t : rb c n t → (height t ≤ 2 * n + match c with Red => 1 | Black => 0 end)%nat.
Proof.
  revert c n. induction t as [|[] l IHl a r IHr]; intros c n; simpl; [lia| |].
  - intros (-> & H1%IHl & H2%IHr). lia.
  - intros (-> & n' & -> & [cl H1%IHl] & [cr H2%IHr]). destruct cl, cr; lia.
Qed.
Lemma rb_size c n t : rb c n t → (2 ^ n ≤ S (tsize t))%nat.
Proof.
  revert c n. induction t as [|[] l IHl a r IHr]; intros c n; simpl.
  - intros [_ ->]. simpl. lia.
  - intros (-> & H1%IHl & H2%IHr). lia.
  - intros (-> & n' & -> & [cl H1%IHl] & [cr H2%IHr]). simpl. lia.
Qed.
Definition log_height (n : nat) : nat := (2 * Nat.log2 (S n))%nat.
Lemma rbtree_height t : rbtree t → (height t ≤ log_height (length (inorder t)))%nat.
Proof.
  intros [n H]. pose proof (rb_height _ _ _ H) as Hh. pose proof (rb_size _ _ _ H) as Hs. rewrite -tsize_inorder /log_height.
  cbn in Hh. assert (n ≤ Nat.log2 (S (tsize t)))%nat; [apply Nat.log2_le_pow2; [lia|exact Hs]|lia].
Qed.
Lemma height_size t : (height t ≤ tsize t)%nat.
Proof. induction t; simpl; lia. Qed.

(** ** Search *)
Section search.
Context (cmp : Z → Z → bool) (Htr : transitive cmp) (node : Z) (h : rbheap).

(** [b] is the node of [l] equal to [node], or 0 when there is none. *)
Definition found (l : list Z) (b : Z) : Prop :=
  (b ∈ l ∧ cmp node b = false ∧ cmp b node = false) ∨
  (b = 0 ∧ ∀ x, x ∈ l → cmp node x = true ∨ cmp x node = true).

Lemma lookup_loop_ok fuel : ∀ t par, (height t < fuel)%nat → rep (nodes h) par t → sorted cmp (inorder t) →
  ∃ b, lookup_loop fuel cmp node (ptr t) h = Ret b h ∧ found (inorder t) b.
Proof.
  induction fuel as [|fuel IH]; intros t par Hf Hr Hs; [lia|]. destruct t as [|c l a r]; cbn [lookup_loop ptr].
  - exists 0. split; [done|]. right. split; [done|]. by intros x ?%elem_of_nil.
  - pose proof Hr as (Ha & Hma & Hl & Hr'). rewrite decide_False; [by apply ok_ne|]. simpl in Hf.
    simpl in Hs. apply sorted_app in Hs as (Hs1 & Hs2 & Hs3). apply sorted_cons in Hs2 as [Hs2 Hs4].
    assert (Hchild : ∀ d, get_child d a h = Ret (match d with L => ptr l | R => ptr r end) h).
    { intros d. rewrite /get_child /ld. run_simpl. rewrite Hma. by destruct d. }
    destruct (cmp node a) eqn:E1; [|destruct (cmp a node) eqn:E2].
    + erewrite bind_run; [|apply (Hchild L)]. destruct (IH l a) as (b & Hb & Hfound); [lia|done..|]. exists b. split; [done|].
      destruct Hfound as [(H1 & H2)|[H1 H2]]; [left; set_solver|right]. split; [done|]. simpl. intros x.
      rewrite elem_of_app elem_of_cons. intros [?|[->|Hx]]; [by apply H2|by left|left].
      apply (Htr _ a); [done|]. rewrite /above Forall_forall in Hs2. by apply Hs2.
    + erewrite bind_run; [|apply (Hchild R)]. destruct (IH r a) as (b & Hb & Hfound); [lia|done..|]. exists b. split; [done|].
      destruct Hfound as [(H1 & H2)|[H1 H2]]; [left; set_solver|right]. split; [done|]. simpl. intros x.
      rewrite elem_of_app elem_of_cons. intros [Hx|[->|?]]; [right|by right|by apply H2].
      apply (Htr _ a); [|done]. specialize (Hs3 x Hx). by apply Forall_cons in Hs3 as [? _].
    + exists a. split; [done|]. left. set_solver.
Qed.
End search.

(** The fuel does not matter once the loop returns. *)
Lemma lookup_loop_det cmp node h fuel : ∀ fuel' nw b b',
  lookup_loop fuel cmp node nw h = Ret b h → lookup_loop fuel' cmp node nw h = Ret b' h → b = b'.
Proof.
  induction fuel as [|fuel IH]; intros [|fuel'] nw b b'; [done..|]. cbn [lookup_loop]. case_decide; [by intros [= <-] [= <-]|].
  assert (Hc : ∀ d, get_child d nw h = Fault ∨ ∃ v, get_child d nw h = Ret v h).
  { intros d. rewrite /get_child /ld. run_simpl. destruct (nodes h !! nw); [right; by eexists|by left]. }
  destruct (cmp node nw); [|destruct (cmp nw node); [|by intros [= <-] [= <-]]].
  - destruct (Hc L) as [HF|[v Hv]]; [by rewrite (bind_fault _ _ _ HF)|]. rewrite !(bind_run _ _ _ _ _ Hv). apply IH.
  - destruct (Hc R) as [HF|[v Hv]]; [by rewrite (bind_fault _ _ _ HF)|]. rewrite !(bind_run _ _ _ _ _ Hv). apply IH.
Qed.

Lemma first_loop_ok h fuel : ∀ t par, t ≠ E → (height t ≤ fuel)%nat → rep (nodes h) par t →
  first_loop fuel (ptr t) h = Ret (default 0 (head (inorder t))) h.
Proof.
  induction fuel as [|fuel IH]; intros t par HE Hf Hr; [by destruct t; simpl in *; [|lia]|].
  destruct t as [|c l a r]; [done|]. destruct Hr as (Ha & Hma & Hl & _). cbn [first_loop ptr].
  rewrite (bind_run _ _ h (ptr l) h); [rewrite /get_child /ld; run_simpl; by rewrite Hma|].
  destruct l as [|cl ll la lr] eqn:El; [done|]. rewrite -El in Hl, Hf |- *.
  rewrite decide_False; [subst l; destruct Hl as [? _]; by apply ok_ne|]. rewrite (IH l a); [by subst|simpl in Hf; lia|done|].
  simpl. destruct (inorder l) eqn:Ei; [|done]. subst l. simpl in Ei. by destruct (inorder ll).
Qed.

Lemma rb_first_spec h rt t : tree_at h rt t → _rb_first rt h = Ret (default 0 (head (inorder t))) h.
Proof.
  intros [Hrt Hrep Hu Hrb]. rewrite /_rb_first. erewrite bind_run; [|rewrite /get_root; run_simpl; by rewrite Hrt].
  destruct t as [|c l a r] eqn:Et; [done|]. rewrite -Et in Hrep, Hu, Hrb |- *.
  rewrite decide_False; [subst t; destruct Hrep as [? _]; by apply ok_ne|].
  rewrite (bind_run _ _ h (S (size (nodes h))) h) //. apply (first_loop_ok h _ t 0); [by subst| |done].
  pose proof (rep_size _ _ _ Hrep Hu). pose proof (height_size t). lia.
Qed.

(** ** The contract *)

(** C10: [_rb_insert] refines insertion into a sorted list: when a node equal to the
    new one is there it returns -1 and the tree is as before; otherwise it returns 0
    and the new node stands between the smaller and the greater nodes.  In both cases
    the result is a red-black tree whose heap, parent pointers and colours included,
    is well formed, and nothing but the nodes of this tree is written.  It returns on
    every such tree. *)
Theorem rb_insert_refines h rt cmp l node n0 :
  holds h rt cmp l → transitive cmp → ok node → nodes h !! node = Some n0 → node ∉ l →
  ∃ r h', _rb_insert node rt cmp h = Ret r h' ∧ untouched h h' rt (node :: l) ∧
    ((r = -1 ∧ (∃ b, b ∈ l ∧ cmp node b = false ∧ cmp b node = false) ∧ holds h' rt cmp l) ∨
     (r = 0 ∧ ∃ A B, l = A ++ B ∧ below cmp node A ∧ above cmp node B ∧ holds h' rt cmp (A ++ node :: B))).
Proof.
  intros [(t & Ht & <-) Hs] Htr Hok Hn Hni.
  destruct (rb_insert_spec h rt t node n0 cmp Ht Hs Htr Hok Hn Hni) as (r & h' & Hrun & Hfr & Hres).
  exists r, h'. split; [done|]. split.
  - split; [intros z Hz; apply Hfr; set_solver|]. intros rt' Hne.
    destruct Hres as [(_ & _ & _ & ->)|(_ & t' & A & B & _ & _ & _ & _ & _ & ->)]; [done|]. by rewrite lookup_insert_ne; [congruence|].
  - destruct Hres as [(-> & Hb & Ht' & _)|(-> & t' & A & B & Hl & Hin & HA & HB & Ht' & _)]; [left|right].
    + split_and!; [done..|]. split; [by exists t|done].
    + split; [done|]. exists A, B. split_and!; [done..|]. split; [by exists t'|]. apply sorted_insert; [by rewrite -Hl|done..].
Qed.

(** C30: [_rb_erase] refines removal from the list: exactly the node is taken out, the
    others keep their order, the result is a red-black tree with a well-formed heap,
    and nothing but the nodes of this tree is written.  It returns for every node of
    every red-black tree. *)
Theorem rb_erase_refines h rt cmp A a B :
  holds h rt cmp (A ++ a :: B) →
  ∃ h', _rb_erase a rt h = Ret () h' ∧ holds h' rt cmp (A ++ B) ∧ untouched h h' rt (A ++ a :: B).
Proof.
  intros [(t & Ht & Hin) Hs]. destruct (rb_erase_spec h rt t a A B Ht Hin) as (h' & t' & Hrun & Ht' & Hin' & Hroot & Hfr).
  exists h'. split; [done|]. split; [split; [by exists t'|]|].
  - apply sorted_app in Hs as (H1 & H2 & H3). apply sorted_cons in H2 as [_ H2]. apply sorted_app. split_and!; [done..|].
    intros x Hx. specialize (H3 x Hx). by apply Forall_cons in H3 as [_ ?].
  - split; [by rewrite -Hin|]. intros rt' Hne. by rewrite Hroot lookup_insert_ne; [congruence|].
Qed.

(** C31: [_rb_lookup] finds the node equal to its argument, or returns 0 exactly when
    there is none, and does so within twice the logarithm of the number of nodes:
    the same loop with that many steps gives the same answer.  [_rb_first] returns
    the least node.  Neither writes. *)
Theorem rb_search_logarithmic h rt cmp l node root :
  holds h rt cmp l → transitive cmp → roots h !! rt = Some root →
  _rb_first rt h = Ret (default 0 (head l)) h ∧
  ∃ b, _rb_lookup node rt cmp h = Ret b h ∧ lookup_loop (S (log_height (length l))) cmp node root h = Ret b h ∧
    found cmp node l b.
Proof.
  intros [(t & Ht & <-) Hs] Htr Hroot. split; [by apply rb_first_spec|]. destruct Ht as [Hrt Hrep Hu Hrb].
  rewrite Hroot in Hrt. injection Hrt as ->.
  destruct (lookup_loop_ok cmp Htr node h (S (log_height (length (inorder t)))) t 0) as (b & Hb & Hf); [pose proof (rbtree_height t Hrb); lia|done..|].
  exists b. split_and!; [|done..]. rewrite /_rb_lookup. erewrite bind_run; [|rewrite /get_root; run_simpl; by rewrite Hroot].
  rewrite (bind_run _ _ h (S (size (nodes h))) h) //.
  destruct (lookup_loop_ok cmp Htr node h (S (size (nodes h))) t 0) as (b' & Hb' & _).
  { pose proof (rep_size _ _ _ Hrep Hu). pose proof (height_size t). lia. }
  1-2: done.
  rewrite Hb'. f_equal. exact (lookup_loop_det cmp node h _ _ _ _ _ Hb' Hb).
Qed.

(** A tree of three nodes and a fourth one outside it. *)
Definition demo_rb : tree := T Black (T Red E 8 E) 16 (T Red E 24 E).
Definition demo_heap : rbheap :=
  mkRBH (list_to_map [(8, mkRB 16 0 0); (16, mkRB 1 24 8); (24, mkRB 16 0 0); (32, mkRB 0 0 0)]) {[ 1 := 16 ]}.
Definition demo_cmp : Z → Z → bool := Z.ltb.

Lemma demo_holds : holds demo_heap 1 demo_cmp [8; 16; 24].
Proof.
  split.
  - exists demo_rb. split; [|done]. split; [done| |(refine (bool_decide_unpack _ _); vm_compute; exact I)|].
    + repeat split.
    + exists 1%nat. simpl. split; [done|]. exists 0%nat. split; [done|]. split; exists Red; done.
  - repeat constructor.
Qed.
Lemma demo_cmp_trans : transitive demo_cmp.
Proof. intros a b c. rewrite /demo_cmp. lia. Qed.

Lemma rb_insert_refines_witness : ∃ r h', _rb_insert 32 1 demo_cmp demo_heap = Ret r h' ∧ untouched demo_heap h' 1 [32; 8; 16; 24].
Proof.
  destruct (rb_insert_refines demo_heap 1 demo_cmp [8; 16; 24] 32 (mkRB 0 0 0)) as (r & h' & H1 & H2 & _).
  - exact demo_holds.
  - exact demo_cmp_trans.
  - by split.
  - reflexivity.
  - refine (bool_decide_unpack _ _). vm_compute. exact I.
  - by exists r, h'.
Defined.

Lemma rb_erase_refines_witness : ∃ h', _rb_erase 16 1 demo_heap = Ret () h' ∧ holds h' 1 demo_cmp [8; 24].
Proof.
  destruct (rb_erase_refines demo_heap 1 demo_cmp [8] 16 [24] demo_holds) as (h' & H1 & H2 & _). by exists h'.
Defined.

Lemma rb_search_logarithmic_witness : _rb_first 1 demo_heap = Ret 8 demo_heap ∧ ∃ b, _rb_lookup 24 1 demo_cmp demo_heap = Ret b demo_heap.
Proof.
  destruct (rb_search_logarithmic demo_heap 1 demo_cmp [8; 16; 24] 24 16 demo_holds demo_cmp_trans eq_refl) as (H1 & b & H2 & _).
  split; [exact H1|by exists b].
Defined.
