(* ===== verification/RBSet.v ===== *)
(** * Red-black trees as sets of nodes

    The same contract as RBMap.v, with the nodes of a tree as a finite set; this is
    the form the scheduler and the timers use, where the order is what [_rb_first]
    sees. *)

From S2P Require Import Prelude RBTree RBRep RBInsert RBErase RBMap.

Definition rbset (h : rbheap) (rt : Z) (cmp : Z → Z → bool) (X : gset Z) : Prop :=
  ∃ l, holds h rt cmp l ∧ ∀ x, x ∈ l ↔ x ∈ X.

(** The nodes that exist still exist. *)
Definition same_nodes (h h' : rbheap) : Prop := ∀ z, is_Some (nodes h !! z) → is_Some (nodes h' !! z).

Lemma sorted_ext cmp cmp' l :
  (∀ a b, a ∈ l → b ∈ l → cmp a b = cmp' a b) → sorted cmp l → sorted cmp' l.
Proof.
  induction l as [|a l IH]; [intros; constructor|]. rewrite !sorted_cons. intros H [H1 H2]. split.
  - apply Forall_forall. intros b Hb. rewrite -H; [set_solver..|]. rewrite /above Forall_forall in H1. by apply H1.
  - apply IH; [|done]. intros; apply H; set_solver.
Qed.

Lemma tree_at_agree h h' rt t :
  tree_at h rt t → (∀ z, z ∈ inorder t → nodes h' !! z = nodes h !! z) → roots h' !! rt = roots h !! rt → tree_at h' rt t.
Proof.
  intros [H1 H2 H3 H4] Hn Hr. split; [by rewrite Hr|eapply rep_agree; [|exact H2]|done..].
  intros z Hz. apply Hn, cntl_elem. by rewrite -cnt_inorder.
Qed.

(** Every write of the tree code is to a node that exists. *)
Definition addrs (h : rbheap) : gset Z := dom (nodes h).
Lemma keeps_upd a f : keeps addrs (upd a f).
Proof.
  intros s ? s'. rewrite /upd /ld. run_simpl. destruct (nodes s !! a) eqn:Ea; [|done]. intros [= _ <-].
  rewrite /addrs /=. apply dom_insert_lookup_L. by rewrite Ea.
Qed.
Lemma keeps_set_root rt v : keeps addrs (set_root rt v).
Proof. rewrite /set_root /get_root. keeps_solve. done. Qed.
#[local] Hint Resolve keeps_upd keeps_set_root : keeps.
Lemma keeps_ld a : keeps addrs (ld a).
Proof. rewrite /ld. keeps_solve. Qed.
#[local] Hint Resolve keeps_ld : keeps.
Ltac keeps_rb := repeat (keeps_step || case_decide || (intros; progress rewrite
  /get_child /set_child /get_pc /set_pc /rb_parent /rb_is_red /rb_is_black /rb_set_black /rb_red_parent /rb_set_parent
  /rb_set_parent_color /set_parent_color_if /set_parent_if /present_red /absent_or_black /__rb_change_child
  /__rb_rotate_set_parents /heap_fuel /get_root)).
Lemma keeps_erase_fix_side d rt p : keeps addrs (erase_fix_side d rt p).
Proof. rewrite /erase_fix_side /erase_fix_sibling /erase_fix_black /erase_fix_rotate. keeps_rb. Qed.
Lemma keeps_erase_fix_loop fuel rt node p : keeps addrs (erase_fix_loop fuel rt node p).
Proof.
  revert node p. induction fuel as [|fuel IH]; intros node p; [by intros ???|]. cbn [erase_fix_loop].
  apply keeps_bind; [keeps_rb|]. intros sib. apply keeps_bind; [case_decide; apply keeps_erase_fix_side|].
  intros [[]|]; [apply IH|keeps_rb].
Qed.
Lemma keeps_successor_loop fuel p s t : keeps addrs (successor_loop fuel p s t).
Proof.
  revert p s t. induction fuel as [|fuel IH]; intros p s t; [by intros ???|]. cbn [successor_loop].
  case_decide; [keeps_rb|]. apply keeps_bind; [keeps_rb|]. intros. apply IH.
Qed.
#[local] Hint Resolve keeps_erase_fix_loop keeps_successor_loop : keeps.
Lemma keeps_rb_erase a rt : keeps addrs (_rb_erase a rt).
Proof. rewrite /_rb_erase /__rb_erase /splice_successor /__rb_erase_fix. keeps_rb. Qed.

Lemma rep_all_ok m par t z : rep m par t → z ∈ inorder t → ok z.
Proof.
  revert par. induction t as [|c l IHl a r IHr]; intros par; simpl; [by intros _ ?%elem_of_nil|].
  intros (Ha & _ & Hl & Hr). rewrite elem_of_app elem_of_cons. intros [?|[->|?]]; eauto.
Qed.

Section rbset.
Context (h : rbheap) (rt : Z) (cmp : Z → Z → bool) (X : gset Z).

Lemma rbset_dom x : rbset h rt cmp X → x ∈ X → is_Some (nodes h !! x).
Proof. intros (l & [(t & Ht & <-) _] & Hl) Hx%Hl. exact (rep_dom _ _ _ _ (ta_rep _ _ _ Ht) Hx). Qed.
Lemma rbset_ext cmp' : (∀ a b, a ∈ X → b ∈ X → cmp a b = cmp' a b) → rbset h rt cmp X → rbset h rt cmp' X.
Proof.
  intros H (l & [Ht Hs] & Hl). exists l. split; [split; [done|]|done]. eapply sorted_ext; [|exact Hs].
  intros a b Ha%Hl Hb%Hl. by apply H.
Qed.
Lemma rbset_frame h' :
  rbset h rt cmp X → (∀ z, z ∈ X → nodes h' !! z = nodes h !! z) → roots h' !! rt = roots h !! rt → rbset h' rt cmp X.
Proof.
  intros (l & [(t & Ht & Hin) Hs] & Hl) Hn Hr. exists l. split; [split; [|done]|done]. exists t. split; [|done].
  apply (tree_at_agree h); [done| |done]. intros z Hz. apply Hn, Hl. by rewrite -Hin.
Qed.

Lemma rbset_insert node :
  rbset h rt cmp X → transitive cmp → (∀ b, b ∈ X → cmp node b = true ∨ cmp b node = true) → ok node →
  is_Some (nodes h !! node) → node ∉ X →
  ∃ h', _rb_insert node rt cmp h = Ret 0 h' ∧ rbset h' rt cmp ({[ node ]} ∪ X) ∧ same_nodes h h' ∧
    (∀ z, z ≠ node → z ∉ X → nodes h' !! z = nodes h !! z) ∧ ∀ rt', rt' ≠ rt → roots h' !! rt' = roots h !! rt'.
Proof.
  intros (l & [(t & Ht & Hin) Hs] & Hl) Htr Htot Hok [n0 Hn] Hni. subst l.
  destruct (rb_insert_spec h rt t node n0 cmp Ht Hs Htr Hok Hn) as (r & h' & Hrun & Hfr & Hres); [by rewrite Hl|].
  destruct Hres as [(_ & (b & Hb%Hl%Htot & ? & ?) & _)|(-> & t' & A & B & Hl' & Hin & HA & HB & Ht' & Hroot)]; [by destruct Hb; congruence|].
  assert (Hmem : ∀ x, x ∈ inorder t' ↔ x ∈ ({[ node ]} ∪ X : gset Z)).
  { intros x. rewrite Hin elem_of_union elem_of_singleton -Hl Hl' !elem_of_app elem_of_cons. naive_solver. }
  exists h'. split_and!; [done| | | |].
  - exists (inorder t'). split; [|done]. split; [by exists t'|]. rewrite Hin. apply sorted_insert; [by rewrite -Hl'|done..].
  - intros z Hz. destruct (decide (z ∈ inorder t')) as [Hi|Hi]; [exact (rep_dom _ _ _ _ (ta_rep _ _ _ Ht') Hi)|].
    rewrite Hmem in Hi. rewrite Hfr; [set_solver|rewrite Hl; set_solver|done].
  - intros z H1 H2. apply Hfr; [done|by rewrite Hl].
  - intros rt' Hne. by rewrite Hroot lookup_insert_ne; [congruence|].
Qed.

Lemma rbset_erase a :
  rbset h rt cmp X → a ∈ X →
  ∃ h', _rb_erase a rt h = Ret () h' ∧ rbset h' rt cmp (X ∖ {[ a ]}) ∧ same_nodes h h' ∧
    (∀ z, z ∉ X → nodes h' !! z = nodes h !! z) ∧ ∀ rt', rt' ≠ rt → roots h' !! rt' = roots h !! rt'.
Proof.
  intros (l & [(t & Ht & Hin) Hs] & Hl) Ha. apply Hl in Ha. subst l. pose proof Ha as (A & B & HAB)%list_elem_of_split.
  destruct (rb_erase_spec h rt t a A B Ht HAB) as (h' & t' & Hrun & Ht' & Hin & Hroot & Hfr).
  pose proof (ta_uniq _ _ _ Ht) as Hu. rewrite HAB in Hu. apply NoDup_app in Hu as (HA & Hd & [Hna HB]%NoDup_cons).
  assert (Hmem : ∀ x, x ∈ inorder t' ↔ x ∈ X ∖ {[ a ]}).
  { intros x. rewrite elem_of_difference elem_of_singleton -Hl Hin HAB !elem_of_app elem_of_cons.
    specialize (Hd x). split; [|naive_solver]. intros [Hx|Hx]; [|naive_solver]. specialize (Hd Hx). set_solver. }
  exists h'. split_and!; [done| | | |].
  - exists (inorder t'). split; [|done]. split; [by exists t'|]. rewrite Hin. rewrite HAB in Hs.
    apply sorted_app in Hs as (H1 & H2 & H3). apply sorted_cons in H2 as [_ H2]. apply sorted_app. split_and!; [done..|].
    intros x Hx. specialize (H3 x Hx). by apply Forall_cons in H3 as [_ ?].
  - intros z Hz. apply elem_of_dom. change (z ∈ addrs h'). rewrite (keeps_rb_erase _ _ _ _ _ Hrun). by apply elem_of_dom.
  - intros z Hz. apply Hfr. by rewrite Hl.
  - intros rt' Hne. by rewrite Hroot lookup_insert_ne; [congruence|].
Qed.

Lemma rbset_first :
  rbset h rt cmp X →
  ∃ n, _rb_first rt h = Ret n h ∧ ((X = ∅ ∧ n = 0) ∨ (n ∈ X ∧ n ≠ 0 ∧ ∀ x, x ∈ X → x = n ∨ cmp n x = true)).
Proof.
  intros (l & [(t & Ht & Hin) Hs] & Hl). exists (default 0 (head l)). subst l. split; [by apply rb_first_spec|].
  destruct (inorder t) as [|a l] eqn:E0; simpl.
  - left. split; [|done]. apply set_eq. intros x. rewrite -Hl. set_solver.
  - right. split_and!; [apply Hl; set_solver| |].
    + apply ok_ne. destruct Ht as [_ Hr _ _]. apply (rep_all_ok _ _ _ _ Hr). rewrite E0. set_solver.
    + intros x Hx%Hl. apply elem_of_cons in Hx as [->|Hx]; [by left|right]. apply sorted_cons in Hs as [Hs _].
      rewrite /above Forall_forall in Hs. by apply Hs.
Qed.
End rbset.
