(* ===== verification/Cpu.v ===== *)
(** * Per-CPU timers (kernel/cpu.c) and the clock (driver/clock.c)

    Each CPU has a red-black tree of pending timers, ordered by the time they are
    due.  A timer is named by the address of its tree node, the root of the tree of
    CPU [i] by [i].  The hardware counter is the stream [ticks] of its readings, one
    per read; [alarm] is the countdown last written to the timer register. *)

From S2P Require Import Prelude Spinlock RBTree RBRep RBInsert RBErase RBMap.

Definition NCPU : nat := 4.

(** The two functions of the kernel a timer can run. *)
Inductive timer_handler := NoHandler | Hello | ProcTimer.
Record timer := mkTimer { triggered : bool; elapse : Z; _key : Z; handler : timer_handler; data : Z }.
Definition set_triggered v (t : timer) := mkTimer v (elapse t) (_key t) (handler t) (data t).
Definition set_elapse v (t : timer) := mkTimer (triggered t) v (_key t) (handler t) (data t).
Definition set_key v (t : timer) := mkTimer (triggered t) (elapse t) v (handler t) (data t).
Definition set_handler v (t : timer) := mkTimer (triggered t) (elapse t) (_key t) v (data t).
Definition set_data v (t : timer) := mkTimer (triggered t) (elapse t) (_key t) (handler t) v.

Record tstate := mkTS {
  tq : rbheap;
  timers : gmap Z timer;
  ticks : nat → Z;
  nread : nat;
  one_ms : Z;
  alarm : gmap nat Z;
  cpu_online : gmap nat bool }.
Definition set_tq v (s : tstate) := mkTS v (timers s) (ticks s) (nread s) (one_ms s) (alarm s) (cpu_online s).
Definition set_timers v (s : tstate) := mkTS (tq s) v (ticks s) (nread s) (one_ms s) (alarm s) (cpu_online s).
Definition set_nread v (s : tstate) := mkTS (tq s) (timers s) (ticks s) v (one_ms s) (alarm s) (cpu_online s).
Definition set_one_ms v (s : tstate) := mkTS (tq s) (timers s) (ticks s) (nread s) v (alarm s) (cpu_online s).
Definition set_alarm v (s : tstate) := mkTS (tq s) (timers s) (ticks s) (nread s) (one_ms s) v (cpu_online s).
Definition set_cpu_online v (s : tstate) := mkTS (tq s) (timers s) (ticks s) (nread s) (one_ms s) (alarm s) v.
Definition tq_lens : Lens tstate rbheap := mkLens tq set_tq.
Definition on_tq {X} : M rbheap X → M tstate X := zoom tq_lens.

Definition get_timer (t : Z) : M tstate timer := m ← gets timers; of_opt (m !! t).
Definition upd_timer (t : Z) (f : timer → timer) : M tstate () :=
  x ← get_timer t; modify (λ s, set_timers (<[t := f x]> (timers s)) s).

(** ** The clock *)
Definition get_timestamp : M tstate Z := s ← get; modify (set_nread (S (nread s)));; mret (ticks s (nread s)).
Definition get_timestamp_ms : M tstate Z := t ← get_timestamp; ms ← gets one_ms; mret (t / ms).
Definition reset_clock (cpu : nat) (countdown_ms : Z) : M tstate () :=
  ms ← gets one_ms;
  let t := u64 (countdown_ms * ms) in
  assert_ (t <=? 2147483647);;
  modify (λ s, set_alarm (<[cpu := t]> (alarm s)) s).
Definition init_clock (cpu : nat) (frequency : Z) : M tstate () :=
  modify (set_one_ms (frequency / 1000));; reset_clock cpu 1000.

(** ** Timers *)
Definition __timer_cmp (m : gmap Z timer) (lnode rnode : Z) : bool :=
  match m !! lnode, m !! rnode with
  | Some l, Some r =>
      let d := i64 (_key l - _key r) in
      if d <? 0 then true else if d =? 0 then lnode <? rnode else false
  | _, _ => false
  end.

Definition __timer_set_clock (cpu : nat) : M tstate () :=
  node ← on_tq (_rb_first (Z.of_nat cpu));
  if decide (node = 0) then reset_clock cpu 1000
  else
    t ← get_timer node;
    let t1 := _key t in
    t0 ← get_timestamp_ms;
    if t1 <=? t0 then reset_clock cpu 0 else reset_clock cpu (t1 - t0).

Definition set_cpu_timer (cpu : nat) (timer : Z) : M tstate () :=
  upd_timer timer (set_triggered false);;
  now ← get_timestamp_ms;
  t ← get_timer timer;
  upd_timer timer (set_key (u64 (now + elapse t)));;
  m ← gets timers;
  r ← on_tq (_rb_insert timer (Z.of_nat cpu) (__timer_cmp m));
  assert_ (0 =? r);;
  __timer_set_clock cpu.

Definition cancel_cpu_timer (cpu : nat) (timer : Z) : M tstate () :=
  t ← get_timer timer;
  assert_ (negb (triggered t));;
  on_tq (_rb_erase timer (Z.of_nat cpu));;
  __timer_set_clock cpu.

(** [hello_timer[cpuid()]] has the address [self]. *)
Definition hello (cpu : nat) (self t : Z) : M tstate () :=
  upd_timer t (λ x, set_data (u64 (data x + 1)) x);;
  set_cpu_timer cpu self.

Definition set_cpu_on (cpu : nat) (frequency hello_timer : Z) : M tstate () :=
  init_clock cpu frequency;;
  modify (λ s, set_cpu_online (<[cpu := true]> (cpu_online s)) s);;
  upd_timer hello_timer (set_elapse 5000);;
  upd_timer hello_timer (set_handler Hello);;
  set_cpu_timer cpu hello_timer.
Definition set_cpu_off (cpu : nat) : M tstate () :=
  modify (λ s, set_cpu_online (<[cpu := false]> (cpu_online s)) s).

(** The clock interrupt: the due timers, in order, each cancelled and marked before
    its handler runs.  [run] is the call through the function pointer, on a state
    [S] of which the timers are a part. *)
Section clock_handler.
Context {S : Type} (L : Lens S tstate) (run : nat → Z → timer_handler → M S ()).

Fixpoint timer_clock_loop (fuel : nat) (cpu : nat) : M S () :=
  match fuel with
  | O => nofuel
  | Datatypes.S fuel =>
      node ← zoom L (on_tq (_rb_first (Z.of_nat cpu)));
      if decide (node = 0) then mret ()
      else
        now ← zoom L get_timestamp_ms;
        t ← zoom L (get_timer node);
        if now <? _key t then mret ()
        else
          zoom L (cancel_cpu_timer cpu node);;
          zoom L (upd_timer node (set_triggered true));;
          run cpu node (handler t);;
          timer_clock_loop fuel cpu
  end.
Definition timer_clock_handler (fuel cpu : nat) : M S () :=
  zoom L (reset_clock cpu 1000);; timer_clock_loop fuel cpu.
End clock_handler.
