(* ===== verification/CpuInv.v ===== *)
(** * The contract of the timers

    Setting and cancelling a timer return and keep the trees of all CPUs well
    formed, as long as the clock is monotone and a timer is set at most 32768
    milliseconds ahead: this is what the scheduler relies on. *)

From S2P Require Import Prelude Spinlock RBTree RBRep RBInsert RBErase RBMap RBSet Cpu.

Definition MAX_ELAPSE : Z := 32768.
(** The time the next reading of the clock will show. *)
Definition next_ms (s : tstate) : Z := ticks s (nread s) / one_ms s.

Record clock_ok (s : tstate) : Prop := {
  ck_ms : 1 ≤ one_ms s < 65536;
  ck_mono : ∀ n, ticks s n ≤ ticks s (S n);
  ck_range : ∀ n, 0 ≤ ticks s n < 2 ^ 61 }.

(** [armed i] are the timers pending on CPU [i]. *)
Record timers_ok (s : tstate) (armed : nat → gset Z) : Prop := {
  tm_clock : clock_ok s;
  tm_trees : ∀ i, (i < NCPU)%nat → rbset (tq s) (Z.of_nat i) (__timer_cmp (timers s)) (armed i);
  tm_armed : ∀ i t, (i < NCPU)%nat → t ∈ armed i →
    ∃ x, timers s !! t = Some x ∧ triggered x = false ∧ _key x ≤ next_ms s + MAX_ELAPSE;
  tm_disj : ∀ i j t, (i < NCPU)%nat → (j < NCPU)%nat → t ∈ armed i → t ∈ armed j → i = j;
  tm_all : ∀ t x, timers s !! t = Some x → ok t ∧ is_Some (nodes (tq s) !! t) ∧ 0 ≤ _key x < 2 ^ 62 }.

(** ** The order of the timers *)
Definition keys_ok (m : gmap Z timer) : Prop := ∀ t x, m !! t = Some x → 0 ≤ _key x < 2 ^ 62.
Lemma timer_cmp_true m a b : keys_ok m →
  __timer_cmp m a b = true ↔ ∃ x y, m !! a = Some x ∧ m !! b = Some y ∧ (_key x < _key y ∨ _key x = _key y ∧ a < b).
Proof.
  intros K. rewrite /__timer_cmp. destruct (m !! a) as [x|] eqn:Ea; [|naive_solver]. destruct (m !! b) as [y|] eqn:Eb; [|naive_solver].
  pose proof (K _ _ Ea). pose proof (K _ _ Eb). rewrite i64_small; [lia|].
  assert ((∃ x0 y0, Some x = Some x0 ∧ Some y = Some y0 ∧ (_key x0 < _key y0 ∨ _key x0 = _key y0 ∧ a < b)) ↔
    (_key x < _key y ∨ _key x = _key y ∧ a < b)) as -> by naive_solver.
  destruct (Z.ltb_spec (_key x - _key y) 0); [lia|]. destruct (Z.eqb_spec (_key x - _key y) 0); [rewrite Z.ltb_lt; lia|lia].
Qed.
Lemma timer_cmp_trans m : keys_ok m → transitive (__timer_cmp m).
Proof.
  intros K a b c. rewrite !(timer_cmp_true m) //. intros (x & y & ? & ? & ?) (y' & z & ? & ? & ?). simplify_eq. exists x, z. split_and!; [done..|lia].
Qed.
Lemma timer_cmp_total m a b x y : keys_ok m → m !! a = Some x → m !! b = Some y → a ≠ b →
  __timer_cmp m a b = true ∨ __timer_cmp m b a = true.
Proof.
  intros K Ha Hb Hne. rewrite !(timer_cmp_true m) //.
  destruct (Z.lt_trichotomy (_key x) (_key y)) as [?|[?|?]]; [left; eauto 10| |right; eauto 10].
  destruct (Z.lt_trichotomy a b) as [?|[?|?]]; [left; eauto 10|done|right; exists y, x; eauto 10].
Qed.

Lemma tm_keys s armed : timers_ok s armed → keys_ok (timers s).
Proof. intros H t x Hx. by apply (tm_all _ _ H) in Hx as (_ & _ & ?). Qed.

(** ** The clock *)
Lemma timestamp_run s : get_timestamp_ms s = Ret (next_ms s) (set_nread (S (nread s)) s).
Proof. done. Qed.
Lemma next_ms_mono s : clock_ok s → next_ms s ≤ next_ms (set_nread (S (nread s)) s).
Proof. intros [H1 H2 _]. rewrite /next_ms /=. apply Z.div_le_mono; [lia|]. apply H2. Qed.
Lemma next_ms_range s : clock_ok s → 0 ≤ next_ms s < 2 ^ 61.
Proof.
  intros [H1 _ H3]. specialize (H3 (nread s)). split; [apply Z.div_pos; lia|].
  apply Z.div_lt_upper_bound; [lia|]. nia.
Qed.
Lemma reset_clock_ok s cpu c : clock_ok s → 0 ≤ c ≤ MAX_ELAPSE →
  reset_clock cpu c s = Ret () (set_alarm (<[cpu := c * one_ms s]> (alarm s)) s).
Proof.
  intros [H1 _ _] Hc. assert (MAX_ELAPSE = 32768) by done. rewrite /reset_clock. run_simpl.
  rewrite /u64 wrap_small; [nia|]. rewrite (proj2 (Z.leb_le _ _)); [nia|done].
Qed.

(** Reading the clock and writing the countdown keep the contract. *)
Lemma timers_ok_read s armed : timers_ok s armed → timers_ok (set_nread (S (nread s)) s) armed.
Proof.
  intros [[] H2 H3 H4 H5]. split; [by split|done| |done|done]. intros i t Hi Ht. destruct (H3 i t Hi Ht) as (x & ? & ? & ?).
  exists x. split_and!; [done..|]. pose proof (next_ms_mono s ltac:(by split)). lia.
Qed.
Lemma timers_ok_alarm s armed v : timers_ok s armed → timers_ok (set_alarm v s) armed.
Proof. intros [[] H2 H3 H4 H5]. by split. Qed.

Lemma timer_set_clock_ok s armed cpu :
  timers_ok s armed → (cpu < NCPU)%nat →
  ∃ n a, __timer_set_clock cpu s = Ret () (set_alarm a (set_nread n s)) ∧ timers_ok (set_alarm a (set_nread n s)) armed.
Proof.
  intros H Hcpu. pose proof (tm_clock _ _ H) as Hck. destruct (rbset_first _ _ _ _ (tm_trees _ _ H cpu Hcpu)) as (n & Hrun & Hn).
  rewrite /__timer_set_clock. rewrite (bind_run _ _ s n s); [rewrite /on_tq (zoom_run _ _ _ _ _ Hrun); by destruct s|].
  assert (MAX_ELAPSE = 32768) by done. case_decide as Hd.
  - rewrite (reset_clock_ok s cpu 1000); [done|lia|]. exists (nread s). eexists. split; [by destruct s|].
    replace (set_nread (nread s) s) with s by (by destruct s). by apply timers_ok_alarm.
  - destruct Hn as [[_ ?]|(Hin & _ & _)]; [done|]. destruct (tm_armed _ _ H cpu n Hcpu Hin) as (x & Hx & _ & Hk).
    rewrite (bind_run _ _ s x s); [rewrite /get_timer; run_simpl; by rewrite Hx|].
    rewrite (bind_run _ _ _ _ _ (timestamp_run s)). pose proof (timers_ok_read _ _ H) as H'.
    pose proof (tm_clock _ _ H') as Hck'. destruct (Z.leb_spec (_key x) (next_ms s)).
    + rewrite (reset_clock_ok _ cpu 0); [done|lia|]. exists (S (nread s)). eexists. split; [done|]. by apply timers_ok_alarm.
    + rewrite (reset_clock_ok _ cpu (_key x - next_ms s)); [done|lia|]. exists (S (nread s)). eexists. split; [done|]. by apply timers_ok_alarm.
Qed.

(** ** Setting and cancelling *)
Definition arm (i : nat) (t : Z) (armed : nat → gset Z) : nat → gset Z :=
  λ j, if decide (j = i) then {[ t ]} ∪ armed j else armed j.
Definition disarm (i : nat) (t : Z) (armed : nat → gset Z) : nat → gset Z :=
  λ j, if decide (j = i) then armed j ∖ {[ t ]} else armed j.

Lemma timer_cmp_insert m t y a b : a ≠ t → b ≠ t → __timer_cmp (<[t := y]> m) a b = __timer_cmp m a b.
Proof. intros. rewrite /__timer_cmp !lookup_insert_ne //; congruence. Qed.

(** A timer that is pending nowhere may be rewritten. *)
Lemma timers_ok_upd s armed t y :
  timers_ok s armed → is_Some (timers s !! t) → (∀ j, (j < NCPU)%nat → t ∉ armed j) → 0 ≤ _key y < 2 ^ 62 →
  timers_ok (set_timers (<[t := y]> (timers s)) s) armed.
Proof.
  intros [H1 H2 H3 H4 H5] [x Hx] Hno Hy. assert (Hne : ∀ j a, (j < NCPU)%nat → a ∈ armed j → a ≠ t).
  { intros j a Hj Ha ->. exact (Hno j Hj Ha). }
  split; [by destruct H1| | |done|].
  - intros j Hj. eapply rbset_ext; [|exact (H2 j Hj)]. intros a b Ha Hb. simpl. rewrite timer_cmp_insert //; by eapply (Hne j).
  - intros j a Hj Ha. destruct (H3 j a Hj Ha) as (z & Hz & ?). exists z. simpl. rewrite lookup_insert_ne; [|done].
    apply not_eq_sym. by apply (Hne j).
  - intros a z. simpl. destruct (decide (a = t)) as [->|Hat].
    + rewrite lookup_insert_eq. intros [= <-]. destruct (H5 t x Hx) as (? & ? & _). done.
    + rewrite lookup_insert_ne; [congruence|]. apply H5.
Qed.

(** The [data] of a timer plays no part. *)
Lemma timers_ok_data s armed t x v :
  timers_ok s armed → timers s !! t = Some x → timers_ok (set_timers (<[t := set_data v x]> (timers s)) s) armed.
Proof.
  intros [H1 H2 H3 H4 H5] Hx.
  split; [by destruct H1| | |done|].
  - intros j Hj. eapply rbset_ext; [|exact (H2 j Hj)]. intros a b Ha Hb. simpl. rewrite /__timer_cmp.
    destruct (H3 j a Hj Ha) as (y & Hy & _), (H3 j b Hj Hb) as (z & Hz & _). rewrite Hy Hz.
    assert (Hk : ∀ c w, timers s !! c = Some w → ∃ w', <[t := set_data v x]> (timers s) !! c = Some w' ∧ _key w' = _key w).
    { intros c w Hw. destruct (decide (c = t)) as [->|]; [|exists w; by rewrite lookup_insert_ne; [congruence|]].
      exists (set_data v x). rewrite lookup_insert_eq. by simplify_eq. }
    destruct (Hk a y Hy) as (y' & -> & ->), (Hk b z Hz) as (z' & -> & ->). done.
  - intros j a Hj Ha. destruct (H3 j a Hj Ha) as (y & Hy & ? & ?). simpl. destruct (decide (a = t)) as [->|].
    + exists (set_data v x). rewrite lookup_insert_eq. by simplify_eq.
    + exists y. by rewrite lookup_insert_ne; [congruence|].
  - intros a y. simpl. destruct (decide (a = t)) as [->|].
    + rewrite lookup_insert_eq. intros [= <-]. by apply (H5 t x).
    + rewrite lookup_insert_ne; [congruence|]. apply H5.
Qed.

Lemma tq_insert_ok s armed cpu t x :
  timers_ok s armed → (cpu < NCPU)%nat → timers s !! t = Some x → triggered x = false → _key x ≤ next_ms s + MAX_ELAPSE →
  (∀ j, (j < NCPU)%nat → t ∉ armed j) →
  ∃ h', _rb_insert t (Z.of_nat cpu) (__timer_cmp (timers s)) (tq s) = Ret 0 h' ∧ timers_ok (set_tq h' s) (arm cpu t armed).
Proof.
  intros H Hcpu Hx Htr Hk Hno. pose proof (tm_keys _ _ H) as K. destruct (tm_all _ _ H t x Hx) as (Hok & Hnode & _).
  destruct (rbset_insert (tq s) (Z.of_nat cpu) (__timer_cmp (timers s)) (armed cpu) t) as (h' & Hrun & Hset & Hdom & Hfr & Hroots).
  { by apply (tm_trees _ _ H). }
  { by apply timer_cmp_trans. }
  { intros b Hb. destruct (tm_armed _ _ H cpu b Hcpu Hb) as (y & Hy & _). apply (timer_cmp_total _ _ _ x y); try done.
    intros <-. by apply (Hno cpu Hcpu). }
  { done. }
  { done. }
  { by apply Hno. }
  exists h'. split; [done|]. destruct H as [H1 H2 H3 H4 H5]. split; [by destruct H1| | | |].
  - intros j Hj. rewrite /arm. case_decide as Hd; [by subst|]. apply (rbset_frame (tq s)); [by apply H2| |apply Hroots; lia].
    intros z Hz. apply Hfr; [intros ->; by apply (Hno j Hj)|]. intros Hz'. apply Hd. by apply (H4 j cpu z).
  - intros j a Hj. rewrite /arm. case_decide as Hd; [|by apply H3]. rewrite elem_of_union elem_of_singleton. subst j.
    intros [->|Ha]; [by exists x|by apply (H3 cpu)].
  - intros i j a Hi Hj. rewrite /arm. intros Ha Hb.
    destruct (decide (i = cpu)) as [->|], (decide (j = cpu)) as [->|]; [done| | |by apply (H4 i j a)].
    + apply elem_of_union in Ha as [->%elem_of_singleton|Ha]; [by destruct (Hno j Hj)|by apply (H4 cpu j a)].
    + apply elem_of_union in Hb as [->%elem_of_singleton|Hb]; [by destruct (Hno i Hi)|by apply (H4 i cpu a)].
  - intros a y Hy. destruct (H5 a y Hy) as (? & ? & ?). split_and!; [done|by apply Hdom|lia|lia].
Qed.

Lemma set_cpu_timer_ok s armed cpu t x :
  timers_ok s armed → (cpu < NCPU)%nat → timers s !! t = Some x → 0 ≤ elapse x ≤ MAX_ELAPSE →
  (∀ j, (j < NCPU)%nat → t ∉ armed j) →
  ∃ s' k, set_cpu_timer cpu t s = Ret () s' ∧ timers_ok s' (arm cpu t armed) ∧
    timers s' = <[t := mkTimer false (elapse x) k (handler x) (data x)]> (timers s).
Proof.
  intros H Hcpu Hx He Hno. assert (HM : MAX_ELAPSE = 32768) by done. pose proof (next_ms_range s (tm_clock _ _ H)) as Hr.
  set (k := next_ms s + elapse x). set (y := mkTimer false (elapse x) k (handler x) (data x)).
  set (s1 := set_timers (<[t := y]> (timers s)) (set_nread (S (nread s)) s)).
  assert (H1 : timers_ok s1 armed).
  { apply (timers_ok_upd (set_nread (S (nread s)) s)); [by apply timers_ok_read|exact (mk_is_Some _ _ Hx)|done|]. simpl. lia. }
  destruct (tq_insert_ok s1 armed cpu t y) as (h' & Hins & H2); [done|done|apply lookup_insert_eq|done| |done|].
  { pose proof (next_ms_mono s (tm_clock _ _ H)). change (next_ms s1) with (next_ms (set_nread (S (nread s)) s)). simpl. lia. }
  destruct (timer_set_clock_ok _ _ _ H2 Hcpu) as (n & a & Hclk & H3).
  eexists _, k. split; [|split; [exact H3|done]]. rewrite /set_cpu_timer.
  rewrite (bind_run _ _ s () (set_timers (<[t := set_triggered false x]> (timers s)) s));
    [rewrite /upd_timer /get_timer; run_simpl; by rewrite Hx|].
  rewrite (bind_run _ _ _ _ _ (timestamp_run _)).
  erewrite bind_run; [|rewrite /get_timer; run_simpl; by rewrite lookup_insert_eq].
  rewrite (bind_run _ _ _ () s1).
  { rewrite /upd_timer /get_timer. run_simpl. rewrite lookup_insert_eq /s1 /set_timers /set_nread /=. rewrite insert_insert_eq.
    rewrite /set_key /set_triggered /u64 /=. change (next_ms (mkTS _ _ _ _ _ _ _)) with (next_ms s). rewrite wrap_small; [lia|done]. }
  rewrite (bind_run _ _ s1 (timers s1) s1) //. rewrite (bind_run _ _ s1 0 (set_tq h' s1)); [exact (zoom_run tq_lens _ s1 _ _ Hins)|].
  exact Hclk.
Qed.

Lemma cancel_cpu_timer_ok s armed cpu t :
  timers_ok s armed → (cpu < NCPU)%nat → t ∈ armed cpu →
  ∃ s', cancel_cpu_timer cpu t s = Ret () s' ∧ timers_ok s' (disarm cpu t armed) ∧ timers s' = timers s.
Proof.
  intros H Hcpu Ht. destruct (tm_armed _ _ H cpu t Hcpu Ht) as (x & Hx & Htr & _).
  destruct (rbset_erase _ _ _ _ t (tm_trees _ _ H cpu Hcpu) Ht) as (h' & Hrun & Hset & Hdom & Hfr & Hroots).
  assert (H2 : timers_ok (set_tq h' s) (disarm cpu t armed)).
  { destruct H as [H1 H2 H3 H4 H5]. split; [by destruct H1| | | |].
    - intros j Hj. rewrite /disarm. case_decide as Hd; [by subst|]. apply (rbset_frame (tq s)); [by apply H2| |apply Hroots; lia].
      intros z Hz. apply Hfr. intros Hz'. apply Hd. by apply (H4 j cpu z).
    - intros j a Hj. rewrite /disarm. case_decide; [|by apply H3]. intros [Ha _]%elem_of_difference. by apply (H3 j).
    - intros i j a Hi Hj. rewrite /disarm. intros Ha Hb. apply (H4 i j a); [done..| |].
      + clear Hb. revert Ha. case_decide; [by intros [? _]%elem_of_difference|done].
      + clear Ha. revert Hb. case_decide; [by intros [? _]%elem_of_difference|done].
    - intros a y Hy. destruct (H5 a y Hy) as (? & ? & ?). split_and!; [done|by apply Hdom|lia|lia]. }
  destruct (timer_set_clock_ok _ _ _ H2 Hcpu) as (n & a & Hclk & H3).
  eexists. split; [|split; [exact H3|done]]. rewrite /cancel_cpu_timer.
  rewrite (bind_run _ _ s x s); [rewrite /get_timer; run_simpl; by rewrite Hx|]. rewrite Htr.
  rewrite (bind_run _ _ s () s) //. rewrite (bind_run _ _ s () (set_tq h' s)); [exact (zoom_run tq_lens _ s _ _ Hrun)|]. exact Hclk.
Qed.
