(* ===== verification/Sched.v ===== *)
(** * The scheduler (kernel/sched.c, kernel/schinfo.h, kernel/proc.h)

    A process or a container is named by the address of the tree node inside its
    [struct schinfo]; [container_of] is then the identity, and the order of the nodes
    is the order of the enclosing structures.  [infos] holds the [schinfo] of both.
    The run queue of a container is the tree whose root is named by the container.

    [simple_sched] runs with the scheduler lock held.  At [swtch] the CPU goes on in
    the thread it switched to, whose first action, after its own [swtch] or in
    [proc_entry], is to release the lock: the definition ends there. *)

From S2P Require Import Prelude Spinlock Pidmap Sem Mem Pt RBTree Cpu.

Inductive procstate := UNUSED | RUNNABLE | RUNNING | SLEEPING | DEEPSLEEPING | ZOMBIE.
#[export] Instance procstate_eq_dec : EqDecision procstate.
Proof. solve_decision. Defined.

Record schinfo := mkInfo { vruntime : Z; starttime : Z; prio : Z; weight : Z; is_container : bool }.
Definition set_vruntime v (i : schinfo) := mkInfo v (starttime i) (prio i) (weight i) (is_container i).
Definition set_starttime v (i : schinfo) := mkInfo (vruntime i) v (prio i) (weight i) (is_container i).
Definition set_prio v (i : schinfo) := mkInfo (vruntime i) (starttime i) v (weight i) (is_container i).
Definition set_weight v (i : schinfo) := mkInfo (vruntime i) (starttime i) (prio i) v (is_container i).

Record UserContext := mkUC { q0 : list Z; spsr : Z; elr : Z; sp : Z; tpidr0 : Z; reserved : list Z }.
Record KernelContext := mkKC { lr : Z; x0 : Z; x1 : Z; k_reserved : list Z }.

Record proc := mkProc {
  killed : bool;
  idle : bool;
  pid : Z;
  localpid : Z;
  exitcode : Z;
  state : procstate;
  childexit : Semaphore;
  children : list Z;
  p_parent : Z;
  p_pgdir : pgdir;
  p_container : Z;
  kstack : Z;
  ucontext : UserContext;
  kcontext : KernelContext;
  oftable : list (option nat);
  cwd : Z }.
Definition set_killed v p := mkProc v (idle p) (pid p) (localpid p) (exitcode p) (state p) (childexit p) (children p) (p_parent p) (p_pgdir p) (p_container p) (kstack p) (ucontext p) (kcontext p) (oftable p) (cwd p).
Definition set_idle v p := mkProc (killed p) v (pid p) (localpid p) (exitcode p) (state p) (childexit p) (children p) (p_parent p) (p_pgdir p) (p_container p) (kstack p) (ucontext p) (kcontext p) (oftable p) (cwd p).
Definition set_pid v p := mkProc (killed p) (idle p) v (localpid p) (exitcode p) (state p) (childexit p) (children p) (p_parent p) (p_pgdir p) (p_container p) (kstack p) (ucontext p) (kcontext p) (oftable p) (cwd p).
Definition set_localpid v p := mkProc (killed p) (idle p) (pid p) v (exitcode p) (state p) (childexit p) (children p) (p_parent p) (p_pgdir p) (p_container p) (kstack p) (ucontext p) (kcontext p) (oftable p) (cwd p).
Definition set_exitcode v p := mkProc (killed p) (idle p) (pid p) (localpid p) v (state p) (childexit p) (children p) (p_parent p) (p_pgdir p) (p_container p) (kstack p) (ucontext p) (kcontext p) (oftable p) (cwd p).
Definition set_state v p := mkProc (killed p) (idle p) (pid p) (localpid p) (exitcode p) v (childexit p) (children p) (p_parent p) (p_pgdir p) (p_container p) (kstack p) (ucontext p) (kcontext p) (oftable p) (cwd p).
Definition set_childexit v p := mkProc (killed p) (idle p) (pid p) (localpid p) (exitcode p) (state p) v (children p) (p_parent p) (p_pgdir p) (p_container p) (kstack p) (ucontext p) (kcontext p) (oftable p) (cwd p).
Definition set_children v p := mkProc (killed p) (idle p) (pid p) (localpid p) (exitcode p) (state p) (childexit p) v (p_parent p) (p_pgdir p) (p_container p) (kstack p) (ucontext p) (kcontext p) (oftable p) (cwd p).
Definition set_parent v p := mkProc (killed p) (idle p) (pid p) (localpid p) (exitcode p) (state p) (childexit p) (children p) v (p_pgdir p) (p_container p) (kstack p) (ucontext p) (kcontext p) (oftable p) (cwd p).
Definition set_pgdir v p := mkProc (killed p) (idle p) (pid p) (localpid p) (exitcode p) (state p) (childexit p) (children p) (p_parent p) v (p_container p) (kstack p) (ucontext p) (kcontext p) (oftable p) (cwd p).
Definition set_container v p := mkProc (killed p) (idle p) (pid p) (localpid p) (exitcode p) (state p) (childexit p) (children p) (p_parent p) (p_pgdir p) v (kstack p) (ucontext p) (kcontext p) (oftable p) (cwd p).
Definition set_kstack v p := mkProc (killed p) (idle p) (pid p) (localpid p) (exitcode p) (state p) (childexit p) (children p) (p_parent p) (p_pgdir p) (p_container p) v (ucontext p) (kcontext p) (oftable p) (cwd p).
Definition set_ucontext v p := mkProc (killed p) (idle p) (pid p) (localpid p) (exitcode p) (state p) (childexit p) (children p) (p_parent p) (p_pgdir p) (p_container p) (kstack p) v (kcontext p) (oftable p) (cwd p).
Definition set_kcontext v p := mkProc (killed p) (idle p) (pid p) (localpid p) (exitcode p) (state p) (childexit p) (children p) (p_parent p) (p_pgdir p) (p_container p) (kstack p) (ucontext p) v (oftable p) (cwd p).
Definition set_oftable v p := mkProc (killed p) (idle p) (pid p) (localpid p) (exitcode p) (state p) (childexit p) (children p) (p_parent p) (p_pgdir p) (p_container p) (kstack p) (ucontext p) (kcontext p) v (cwd p).
Definition set_cwd v p := mkProc (killed p) (idle p) (pid p) (localpid p) (exitcode p) (state p) (childexit p) (children p) (p_parent p) (p_pgdir p) (p_container p) (kstack p) (ucontext p) (kcontext p) (oftable p) v.

(** A container with its [struct cfs_rq], apart from the tree. *)
Record container := mkCont { c_parent : Z; rootproc : Z; weight_sum : Z; nr_running : Z; c_pidmap : pidmap_t }.
Definition set_cparent v c := mkCont v (rootproc c) (weight_sum c) (nr_running c) (c_pidmap c).
Definition set_rootproc v c := mkCont (c_parent c) v (weight_sum c) (nr_running c) (c_pidmap c).
Definition set_weight_sum v c := mkCont (c_parent c) (rootproc c) v (nr_running c) (c_pidmap c).
Definition set_nr_running v c := mkCont (c_parent c) (rootproc c) (weight_sum c) v (c_pidmap c).
Definition set_c_pidmap v c := mkCont (c_parent c) (rootproc c) (weight_sum c) (nr_running c) v.

(** The scheduler's part of [struct cpu], the address of the CPU's [proc_timer] and
    its translation table register. *)
Record cpu := mkCpu { idle_proc : Z; cur_proc : Z; proc_timer : Z; c_ttbr0 : Z }.
Definition set_cur_proc v c := mkCpu (idle_proc c) v (proc_timer c) (c_ttbr0 c).
Definition set_idle_proc v c := mkCpu v (cur_proc c) (proc_timer c) (c_ttbr0 c).
Definition set_c_ttbr0 v c := mkCpu (idle_proc c) (cur_proc c) (proc_timer c) v.

Record kern := mkKern {
  sched_lock : SpinLock;
  infos : gmap Z schinfo;
  rq : rbheap;
  conts : gmap Z container;
  procs : gmap Z proc;
  cpus : list cpu;
  ts : tstate;
  km : mstate;
  panic_flag : bool;
  root_container : Z;
  invalid_pt : Z }.
Definition set_infos v s := mkKern (sched_lock s) v (rq s) (conts s) (procs s) (cpus s) (ts s) (km s) (panic_flag s) (root_container s) (invalid_pt s).
Definition set_rq v s := mkKern (sched_lock s) (infos s) v (conts s) (procs s) (cpus s) (ts s) (km s) (panic_flag s) (root_container s) (invalid_pt s).
Definition set_conts v s := mkKern (sched_lock s) (infos s) (rq s) v (procs s) (cpus s) (ts s) (km s) (panic_flag s) (root_container s) (invalid_pt s).
Definition set_procs v s := mkKern (sched_lock s) (infos s) (rq s) (conts s) v (cpus s) (ts s) (km s) (panic_flag s) (root_container s) (invalid_pt s).
Definition set_cpus v s := mkKern (sched_lock s) (infos s) (rq s) (conts s) (procs s) v (ts s) (km s) (panic_flag s) (root_container s) (invalid_pt s).
Definition set_ts v s := mkKern (sched_lock s) (infos s) (rq s) (conts s) (procs s) (cpus s) v (km s) (panic_flag s) (root_container s) (invalid_pt s).
Definition set_km v s := mkKern (sched_lock s) (infos s) (rq s) (conts s) (procs s) (cpus s) (ts s) v (panic_flag s) (root_container s) (invalid_pt s).
Definition slock : Lens kern SpinLock := mkLens sched_lock
  (λ v s, mkKern v (infos s) (rq s) (conts s) (procs s) (cpus s) (ts s) (km s) (panic_flag s) (root_container s) (invalid_pt s)).
Definition on_rq {X} : M rbheap X → M kern X := zoom (mkLens rq set_rq).
Definition on_ts {X} : M tstate X → M kern X := zoom (mkLens ts set_ts).

Definition get_info (a : Z) : M kern schinfo := m ← gets infos; of_opt (m !! a).
Definition upd_info (a : Z) (f : schinfo → schinfo) : M kern () :=
  x ← get_info a; modify (λ s, set_infos (<[a := f x]> (infos s)) s).
Definition get_proc (a : Z) : M kern proc := m ← gets procs; of_opt (m !! a).
Definition upd_proc (a : Z) (f : proc → proc) : M kern () :=
  x ← get_proc a; modify (λ s, set_procs (<[a := f x]> (procs s)) s).
Definition get_cont (a : Z) : M kern container := m ← gets conts; of_opt (m !! a).
Definition upd_cont (a : Z) (f : container → container) : M kern () :=
  x ← get_cont a; modify (λ s, set_conts (<[a := f x]> (conts s)) s).
Definition get_cpu (i : nat) : M kern cpu := l ← gets cpus; of_opt (l !! i).
Definition upd_cpu (i : nat) (f : cpu → cpu) : M kern () :=
  x ← get_cpu i; modify (λ s, set_cpus (<[i := f x]> (cpus s)) s).

(** The page directory of process [p] with the memory and the register of CPU [i]. *)
Definition on_vm {X} (i : nat) (p : Z) (m : M vmem X) : M kern X := λ s,
  match procs s !! p, cpus s !! i with
  | Some x, Some c =>
      match m (mkVM (km s) (p_pgdir x) (c_ttbr0 c)) with
      | Ret a v => Ret a (set_km (mm v) (set_cpus (<[i := set_c_ttbr0 (ttbr0 v) c]> (cpus s))
                      (set_procs (<[p := set_pgdir (pd v) x]> (procs s)) s)))
      | Panic => Panic | Fault => Fault | Hang => Hang | Fuel => Fuel
      end
  | _, _ => Fault
  end.

(** ** Weights and the order of the run queue *)
Definition prio_to_weight : list Z :=
  [88761; 71755; 56483; 46273; 36291; 29154; 23254; 18705; 14949; 11916; 9548; 7620; 6100; 4904; 3906; 3121; 2501; 1991;
   1586; 1277; 1024; 820; 655; 526; 423; 335; 272; 215; 172; 137; 110; 87; 70; 56; 45; 36; 29; 23; 18; 15].
Definition weight_of (n : nat) : Z := nth n prio_to_weight 0.

Definition cfs_cmp (m : gmap Z schinfo) (lnode rnode : Z) : bool :=
  match m !! lnode, m !! rnode with
  | Some l, Some r =>
      if vruntime l =? vruntime r then
        if prio l =? prio r then lnode <? rnode else prio l <? prio r
      else vruntime l <? vruntime r
  | _, _ => false
  end.

Definition init_schqueue (c : container) : container := set_weight_sum 0 (set_nr_running 0 c).
Definition sched_min_granularity : Z := 1.
Definition sched_latency : Z := 6.
Definition init_schinfo (group : bool) : schinfo := mkInfo 0 0 21 (weight_of 21) group.

(** [_rb_insert] with [cfs_cmp] into the queue of [c], which must succeed, and
    [_rb_erase]. *)
Definition enqueue (c node : Z) : M kern () :=
  m ← gets infos; r ← on_rq (_rb_insert node c (cfs_cmp m)); assert_ (r =? 0).
Definition dequeue (c node : Z) : M kern () := on_rq (_rb_erase node c).

Definition thisproc (i : nat) : M kern Z := c ← get_cpu i; mret (cur_proc c).
Definition _acquire_sched_lock : M kern () := _acquire_spinlock slock.
Definition _release_sched_lock : M kern () := release_spinlock slock.

Definition get_minvruntime (i : nat) (c : Z) : M kern Z :=
  node ← on_rq (_rb_first c);
  if decide (node = 0) then this ← thisproc i; x ← get_info this; mret (vruntime x)
  else x ← get_info node; mret (vruntime x).
Definition get_sched_latency (c : Z) : M kern Z :=
  x ← get_cont c; mret (Z.max sched_latency (sched_min_granularity * nr_running x)).

(** The fields [define_init(scheduler)] sets in the fresh memory of an idle process,
    and in its [schinfo]. *)
Definition init_idle (fresh : proc) : proc := set_state RUNNING (set_idle true (set_pid (-1) (set_killed false fresh))).
Definition init_idle_info (fresh : schinfo) : schinfo := set_weight (weight_of 39) (set_prio 39 (set_vruntime 0 fresh)).
Fixpoint init_scheduler (i : nat) (fresh : list (Z * proc * schinfo)) : M kern () :=
  match fresh with
  | [] => mret ()
  | (a, p, x) :: fresh =>
      modify (λ s, set_procs (<[a := init_idle p]> (procs s)) s);;
      modify (λ s, set_infos (<[a := init_idle_info x]> (infos s)) s);;
      upd_cpu i (set_idle_proc a);;
      upd_cpu i (set_cur_proc a);;
      init_scheduler (S i) fresh
  end.

Definition is_state (p : Z) (st : procstate) : M kern bool :=
  _acquire_sched_lock;; x ← get_proc p; _release_sched_lock;; mret (bool_decide (state x = st)).
Definition is_zombie (p : Z) : M kern bool := is_state p ZOMBIE.
Definition is_unused (p : Z) : M kern bool := is_state p UNUSED.

(** ** Activation *)

(** A chain of parents is no longer than the number of containers. *)
Definition cont_fuel : M kern nat := gets (λ s, S (size (conts s))).

Fixpoint activate_up (fuel : nat) (i : nat) (c : Z) : M kern () :=
  match fuel with
  | O => nofuel
  | S fuel =>
      root ← gets root_container;
      x ← get_cont c;
      if decide (c ≠ root ∧ nr_running x = 1) then
        info ← get_info c;
        v ← get_minvruntime i (c_parent x);
        upd_info c (set_vruntime (Z.max (vruntime info) v));;
        enqueue (c_parent x) c;;
        upd_cont (c_parent x) (λ y, set_nr_running (u32 (nr_running y + 1)) y);;
        w ← get_info c;
        upd_cont (c_parent x) (λ y, set_weight_sum (u32 (weight_sum y + weight w)) y);;
        activate_up fuel i (c_parent x)
      else mret ()
  end.

Definition _activate_proc (i : nat) (p : Z) (onalert : bool) : M kern bool :=
  _acquire_sched_lock;;
  x ← get_proc p;
  if bool_decide (state x = RUNNING) || bool_decide (state x = RUNNABLE) || (bool_decide (state x = DEEPSLEEPING) && onalert)
  then _release_sched_lock;; mret false
  else if bool_decide (state x = SLEEPING) || bool_decide (state x = UNUSED) || (bool_decide (state x = DEEPSLEEPING) && negb onalert)
  then
    let sq := p_container x in
    upd_proc p (set_state RUNNABLE);;
    info ← get_info p;
    v ← get_minvruntime i sq;
    let delta := u64 (Z.max (vruntime info) v - vruntime info) in
    upd_info p (set_vruntime (u64 (vruntime info + delta)));;
    enqueue sq p;;
    upd_cont sq (λ y, set_weight_sum (u32 (weight_sum y + weight info)) y);;
    upd_cont sq (λ y, set_nr_running (u32 (nr_running y + 1)) y);;
    fuel ← cont_fuel;
    activate_up fuel i sq;;
    _release_sched_lock;;
    mret true
  else _release_sched_lock;; mret false.

Definition activate_group (i : nat) (group : Z) : M kern () :=
  _acquire_sched_lock;;
  info ← get_info group;
  c ← get_cont group;
  v ← get_minvruntime i (c_parent c);
  upd_info group (set_vruntime (Z.max (vruntime info) v));;
  _release_sched_lock.

(** ** Leaving the CPU *)
Fixpoint charge_up (fuel : nat) (c delta : Z) : M kern () :=
  match fuel with
  | O => nofuel
  | S fuel =>
      root ← gets root_container;
      if decide (c ≠ root) then
        x ← get_cont c;
        upd_info c (λ info, set_vruntime (u64 (vruntime info + delta)) info);;
        dequeue (c_parent x) c;;
        enqueue (c_parent x) c;;
        charge_up fuel (c_parent x) delta
      else mret ()
  end.
Fixpoint leave_up (fuel : nat) (c : Z) : M kern () :=
  match fuel with
  | O => nofuel
  | S fuel =>
      root ← gets root_container;
      x ← get_cont c;
      if decide (c ≠ root ∧ nr_running x = 0) then
        dequeue (c_parent x) c;;
        upd_cont (c_parent x) (λ y, set_nr_running (u32 (nr_running y - 1)) y);;
        info ← get_info c;
        upd_cont (c_parent x) (λ y, set_weight_sum (u32 (weight_sum y - weight info)) y);;
        leave_up fuel (c_parent x)
      else mret ()
  end.

(** Unsigned division; the divisor 0 is a fault. *)
Definition udiv {S} (a b : Z) : M S Z := if decide (b = 0) then fault else mret (a / b).

Definition update_this_state (i : nat) (new_state : procstate) : M kern () :=
  cp ← thisproc i;
  upd_proc cp (set_state new_state);;
  x ← get_proc cp;
  if idle x then upd_info cp (λ info, set_vruntime (u64 (vruntime info + sched_min_granularity)) info)
  else
    now ← on_ts get_timestamp_ms;
    info ← get_info cp;
    delta ← udiv (u64 (u64 (now - starttime info) * weight_of 21)) (weight info);
    upd_info cp (λ info, set_vruntime (u64 (vruntime info + delta)) info);;
    fuel ← cont_fuel;
    charge_up fuel (p_container x) delta;;
    let sq := p_container x in
    if bool_decide (new_state = RUNNABLE) then enqueue sq cp
    else
      info ← get_info cp;
      upd_cont sq (λ y, set_weight_sum (u32 (weight_sum y - weight info)) y);;
      upd_cont sq (λ y, set_nr_running (u32 (nr_running y - 1)) y);;
      leave_up fuel sq.

(** ** Choosing the next process *)
Fixpoint recur_get_proc (fuel : nat) (c : Z) : M kern Z :=
  match fuel with
  | O => nofuel
  | S fuel =>
      node ← on_rq (_rb_first c);
      if decide (node = 0) then mret 0
      else
        info ← get_info node;
        if is_container info then recur_get_proc fuel node
        else dequeue c node;; mret node
  end.

Definition pick_next (i : nat) : M kern Z :=
  c ← get_cpu i;
  pf ← gets panic_flag;
  if pf : bool then mret (idle_proc c)
  else
    root ← gets root_container;
    fuel ← cont_fuel;
    p ← recur_get_proc fuel root;
    if decide (p ≠ 0) then mret p else mret (idle_proc c).

Definition update_this_proc (i : nat) (p : Z) : M kern () :=
  upd_cpu i (set_cur_proc p);;
  c ← get_cpu i;
  let pt := proc_timer c in
  t ← on_ts (get_timer pt);
  (if decide (data t ≠ 0) then on_ts (cancel_cpu_timer i pt);; on_ts (upd_timer pt (set_data 0)) else mret ());;
  x ← get_proc p;
  (if idle x then on_ts (upd_timer pt (set_elapse (i32 sched_min_granularity)))
   else
     let sq := p_container x in
     lat ← get_sched_latency sq;
     info ← get_info p;
     q ← get_cont sq;
     e ← udiv (u64 (lat * weight info)) (weight_sum q);
     on_ts (upd_timer pt (set_elapse (i32 (Z.max sched_min_granularity e)))));;
  on_ts (upd_timer pt (set_handler ProcTimer));;
  on_ts (set_cpu_timer i pt);;
  on_ts (upd_timer pt (set_data 1)).

(** ** The switch *)
Definition simple_sched (i : nat) (new_state : procstate) : M kern () :=
  this ← thisproc i;
  x ← get_proc this;
  if killed x && negb (bool_decide (new_state = ZOMBIE)) then _release_sched_lock
  else
    assert_ (bool_decide (state x = RUNNING));;
    update_this_state i new_state;;
    next ← pick_next i;
    update_this_proc i next;;
    y ← get_proc next;
    assert_ (bool_decide (state y = RUNNABLE));;
    upd_proc next (set_state RUNNING);;
    now ← on_ts get_timestamp_ms;
    upd_info next (set_starttime now);;
    (if decide (next ≠ this) then ipt ← gets invalid_pt; on_vm i next (attach_pgdir ipt) else mret ());;
    _release_sched_lock.

(** [lock_for_sched] followed by [sched], and the handler of the CPU's timer. *)
Definition lock_and_sched (i : nat) (new_state : procstate) : M kern () := _acquire_sched_lock;; simple_sched i new_state.
Definition yield (i : nat) : M kern () := lock_and_sched i RUNNABLE.
Definition proc_timer_handle (i : nat) : M kern () :=
  c ← get_cpu i;
  on_ts (upd_timer (proc_timer c) (set_data 0));;
  lock_and_sched i RUNNABLE.
