(* ===== verification/SchedInv.v ===== *)
(** * The scheduler's invariant

    The containers are a tree below the root container.  The run queue of each holds
    exactly its runnable processes and the containers in it in which something is active;
    its counters are exact; and every running process is the current one of exactly one
    CPU.  [_activate_proc], [activate_group] and [sched], with their walks up and down the
    tree, return from every such state and keep it so. *)

From S2P Require Import Prelude Spinlock Pidmap Sem Mem Pt RBTree RBRep RBInsert RBErase RBMap RBSet Cpu CpuInv Sched.

(** ** Sets of processes *)
Definition pset (f : proc → bool) (m : gmap Z proc) : gset Z := dom (filter (λ kv, f kv.2 = true) m).

Lemma elem_of_pset f m p : p ∈ pset f m ↔ ∃ x, m !! p = Some x ∧ f x = true.
Proof.
  rewrite /pset elem_of_dom /is_Some. setoid_rewrite map_lookup_filter_Some. naive_solver.
Qed.
Lemma pset_insert f m p x :
  pset f (<[p := x]> m) = if f x then {[ p ]} ∪ pset f m else pset f m ∖ {[ p ]}.
Proof.
  apply set_eq. intros q. rewrite elem_of_pset. destruct (decide (q = p)) as [->|Hne].
  - rewrite lookup_insert_eq. destruct (f x) eqn:Ef; split.
    + intros _. apply elem_of_union_l, elem_of_singleton. done.
    + intros _. by exists x.
    + intros (y & [= <-] & ?). congruence.
    + intros [_ []]%elem_of_difference. by apply elem_of_singleton.
  - rewrite lookup_insert_ne; [congruence|]. rewrite -elem_of_pset. destruct (f x); set_solver.
Qed.
Lemma pset_size f m : (size (pset f m) ≤ size m)%nat.
Proof. rewrite /pset -(size_dom (D := gset Z) m). apply subseteq_size, dom_filter_subseteq. Qed.

Definition queued (x : proc) : bool := bool_decide (state x = RUNNABLE) && negb (idle x).
Definition active (x : proc) : bool := (bool_decide (state x = RUNNABLE) || bool_decide (state x = RUNNING)) && negb (idle x).

(** ** The sum of the weights of a set *)
Fixpoint zsum (f : Z → Z) (l : list Z) : Z := match l with [] => 0 | x :: l => f x + zsum f l end.
Definition pweight (m : gmap Z schinfo) (p : Z) : Z := match m !! p with Some i => weight i | None => 0 end.
Definition wsum (m : gmap Z schinfo) (X : gset Z) : Z := zsum (pweight m) (elements X).

Lemma zsum_perm (f : Z → Z) l l' : l ≡ₚ l' → zsum f l = zsum f l'.
Proof. induction 1; simpl; lia. Qed.
Lemma zsum_ext (f g : Z → Z) l : (∀ x, x ∈ l → f x = g x) → zsum f l = zsum g l.
Proof. induction l as [|x l IH]; intros H; simpl; [done|]. rewrite H; [set_solver|]. rewrite IH //. intros; apply H; set_solver. Qed.
Lemma wsum_add m p X : p ∉ X → wsum m ({[ p ]} ∪ X) = pweight m p + wsum m X.
Proof. intros H. rewrite /wsum (zsum_perm _ _ _ (elements_union_singleton X p H)). done. Qed.
Lemma wsum_del m p X : p ∈ X → wsum m X = pweight m p + wsum m (X ∖ {[ p ]}).
Proof. intros H. rewrite -wsum_add; [set_solver|]. f_equal. apply set_eq. intros q. destruct (decide (q = p)); set_solver. Qed.
Lemma wsum_ext m m' X : (∀ p, p ∈ X → pweight m p = pweight m' p) → wsum m X = wsum m' X.
Proof. intros H. apply zsum_ext. intros p Hp%elem_of_elements. by apply H. Qed.
Lemma wsum_bound m X b : (∀ p, p ∈ X → 0 ≤ pweight m p ≤ b) → 0 ≤ wsum m X ≤ b * Z.of_nat (size X).
Proof.
  intros H. rewrite /wsum /size /set_size /=. assert (∀ p, p ∈ elements X → 0 ≤ pweight m p ≤ b) as H' by (intros p Hp%elem_of_elements; by apply H).
  induction (elements X) as [|p l IH]; simpl; [lia|]. pose proof (H' p ltac:(by left)).
  assert (0 ≤ zsum (pweight m) l ≤ b * Z.of_nat (length l)) by (apply IH; intros; apply H'; by right). lia.
Qed.

(** ** The order of the run queue *)
Lemma cfs_cmp_true m a b :
  cfs_cmp m a b = true ↔ ∃ x y, m !! a = Some x ∧ m !! b = Some y ∧
    (vruntime x < vruntime y ∨ vruntime x = vruntime y ∧ (prio x < prio y ∨ prio x = prio y ∧ a < b)).
Proof.
  rewrite /cfs_cmp. destruct (m !! a) as [x|]; [|naive_solver]. destruct (m !! b) as [y|]; [|naive_solver].
  assert ((∃ x0 y0, Some x = Some x0 ∧ Some y = Some y0 ∧ (vruntime x0 < vruntime y0 ∨ vruntime x0 = vruntime y0 ∧ (prio x0 < prio y0 ∨ prio x0 = prio y0 ∧ a < b))) ↔
    (vruntime x < vruntime y ∨ vruntime x = vruntime y ∧ (prio x < prio y ∨ prio x = prio y ∧ a < b))) as -> by naive_solver.
  destruct (Z.eqb_spec (vruntime x) (vruntime y)); [|rewrite Z.ltb_lt; lia].
  destruct (Z.eqb_spec (prio x) (prio y)); rewrite Z.ltb_lt; lia.
Qed.
Lemma cfs_cmp_trans m : transitive (cfs_cmp m).
Proof.
  intros a b c. rewrite !cfs_cmp_true. intros (x & y & ? & ? & ?) (y' & z & ? & ? & ?). simplify_eq. exists x, z. split_and!; [done..|lia].
Qed.
Lemma cfs_cmp_total m a b x y : m !! a = Some x → m !! b = Some y → a ≠ b → cfs_cmp m a b = true ∨ cfs_cmp m b a = true.
Proof.
  intros Ha Hb Hne. rewrite !cfs_cmp_true. destruct (Z.lt_trichotomy (vruntime x) (vruntime y)) as [?|[?|?]]; [left; eauto 10| |right; eauto 10].
  destruct (Z.lt_trichotomy (prio x) (prio y)) as [?|[?|?]]; [left; eauto 10| |right; exists y, x; eauto 10].
  destruct (Z.lt_trichotomy a b) as [?|[?|?]]; [left; eauto 10|done|right; exists y, x; eauto 10].
Qed.
Lemma cfs_cmp_insert m p i a b : a ≠ p → b ≠ p → cfs_cmp (<[p := i]> m) a b = cfs_cmp m a b.
Proof. intros. rewrite /cfs_cmp !lookup_insert_ne //; congruence. Qed.

(** ** Rules for the accesses *)
Section access.
Implicit Types s : kern.
Lemma wp_get_info s a x Q : infos s !! a = Some x → Q x s → wp (get_info a) Q s.
Proof. intros H ?. rewrite /wp /get_info. run_simpl. by rewrite H. Qed.
Lemma wp_upd_info s a f x (Q : () → kern → Prop) :
  infos s !! a = Some x → Q () (set_infos (<[a := f x]> (infos s)) s) → wp (upd_info a f) Q s.
Proof. intros H ?. rewrite /wp /upd_info /get_info. run_simpl. by rewrite H. Qed.
Lemma wp_get_proc s a x Q : procs s !! a = Some x → Q x s → wp (get_proc a) Q s.
Proof. intros H ?. rewrite /wp /get_proc. run_simpl. by rewrite H. Qed.
Lemma wp_upd_proc s a f x (Q : () → kern → Prop) :
  procs s !! a = Some x → Q () (set_procs (<[a := f x]> (procs s)) s) → wp (upd_proc a f) Q s.
Proof. intros H ?. rewrite /wp /upd_proc /get_proc. run_simpl. by rewrite H. Qed.
Lemma wp_get_cont s a x Q : conts s !! a = Some x → Q x s → wp (get_cont a) Q s.
Proof. intros H ?. rewrite /wp /get_cont. run_simpl. by rewrite H. Qed.
Lemma wp_upd_cont s a f x (Q : () → kern → Prop) :
  conts s !! a = Some x → Q () (set_conts (<[a := f x]> (conts s)) s) → wp (upd_cont a f) Q s.
Proof. intros H ?. rewrite /wp /upd_cont /get_cont. run_simpl. by rewrite H. Qed.
Lemma wp_get_cpu s a x Q : cpus s !! a = Some x → Q x s → wp (get_cpu a) Q s.
Proof. intros H ?. rewrite /wp /get_cpu. run_simpl. by rewrite H. Qed.
Lemma wp_upd_cpu s a f x (Q : () → kern → Prop) :
  cpus s !! a = Some x → Q () (set_cpus (<[a := f x]> (cpus s)) s) → wp (upd_cpu a f) Q s.
Proof. intros H ?. rewrite /wp /upd_cpu /get_cpu. run_simpl. by rewrite H. Qed.
Lemma wp_thisproc s i c Q : cpus s !! i = Some c → Q (cur_proc c) s → wp (thisproc i) Q s.
Proof. intros H ?. by apply wp_bind, (wp_get_cpu _ _ _ _ H), wp_ret. Qed.
Lemma wp_slock s (Q : () → kern → Prop) : sched_lock s = false → Q () (lset slock true s) → wp _acquire_sched_lock Q s.
Proof. apply (wp_acquire slock). Qed.
Lemma wp_sunlock s (Q : () → kern → Prop) : Q () (lset slock false s) → wp _release_sched_lock Q s.
Proof. done. Qed.
End access.

(** ** The queues, whatever the states of the processes are *)
Definition info_ok (group : bool) (i : schinfo) : Prop := is_container i = group ∧ 15 ≤ weight i ≤ 88761.

(** The container whose run queue a process, or a container, belongs to. *)
Definition home (s : kern) (n : Z) : option Z :=
  match procs s !! n with
  | Some x => if idle x then None else Some (p_container x)
  | None => match conts s !! n with
            | Some q => if decide (n = root_container s) then None else Some (c_parent q)
            | None => None
            end
  end.
Definition within (s : kern) (c : Z) (X : gset Z) : gset Z := filter (λ n, home s n = Some c) X.
Lemma elem_of_within s c X n : n ∈ within s c X ↔ n ∈ X ∧ home s n = Some c.
Proof. rewrite /within elem_of_filter. tauto. Qed.

(** [X] is what waits in the queues: processes, and containers in which something is
    active.  The containers are a tree below the root container. *)
Record good (s : kern) (X : gset Z) : Prop := {
  g_procs : ∀ p x, procs s !! p = Some x → conts s !! p = None ∧ ok p ∧ is_Some (nodes (rq s) !! p) ∧
    (idle x = false → is_Some (conts s !! p_container x)) ∧ ∃ i, infos s !! p = Some i ∧ info_ok false i;
  g_conts : ∀ c q, conts s !! c = Some q → c ≠ root_container s → ok c ∧ is_Some (nodes (rq s) !! c) ∧
    is_Some (conts s !! c_parent q) ∧ ∃ i, infos s !! c = Some i ∧ info_ok true i;
  g_queue : ∀ c, is_Some (conts s !! c) → rbset (rq s) c (cfs_cmp (infos s)) (within s c X);
  g_sub : ∀ n, n ∈ X → is_Some (home s n);
  g_root : is_Some (conts s !! root_container s);
  g_tree : ∃ depth : Z → nat, ∀ c q, conts s !! c = Some q → c ≠ root_container s → (depth (c_parent q) < depth c)%nat }.

Lemma home_proc s p x : procs s !! p = Some x → home s p = if idle x then None else Some (p_container x).
Proof. rewrite /home. by intros ->. Qed.
Lemma home_cont s X c q : good s X → conts s !! c = Some q → home s c = if decide (c = root_container s) then None else Some (c_parent q).
Proof.
  intros H Hq. rewrite /home. destruct (procs s !! c) as [x|] eqn:E; [|by rewrite Hq]. destruct (g_procs _ _ H c x E) as [? _]. congruence.
Qed.
Lemma home_root s X : good s X → home s (root_container s) = None.
Proof. intros H. destruct (g_root _ _ H) as [q Hq]. by rewrite (home_cont _ _ _ _ H Hq) decide_True. Qed.
Lemma home_ok s X n c : good s X → home s n = Some c →
  ok n ∧ is_Some (nodes (rq s) !! n) ∧ is_Some (conts s !! c) ∧ ∃ i, infos s !! n = Some i ∧ 15 ≤ weight i ≤ 88761.
Proof.
  intros H. rewrite /home. destruct (procs s !! n) as [x|] eqn:Ex.
  - destruct (g_procs _ _ H n x Ex) as (_ & ? & ? & Hc & i & ? & _ & ?). destruct (idle x); [done|]. intros [= <-]. split_and!; eauto.
  - destruct (conts s !! n) as [q|] eqn:Eq; [|done]. case_decide as Hr; [done|]. intros [= <-].
    destruct (g_conts _ _ H n q Eq Hr) as (? & ? & ? & i & ? & _ & ?). eauto 10.
Qed.
Lemma home_not_self s X c q : good s X → conts s !! c = Some q → c ≠ root_container s → c_parent q ≠ c.
Proof. intros H Hq Hr E. destruct (g_tree _ _ H) as [d Hd]. specialize (Hd c q Hq Hr). rewrite E in Hd. lia. Qed.

(** The parts of the state [good] looks at. *)
Definition same_place (s s' : kern) : Prop :=
  (∀ p, (λ x, (idle x, p_container x)) <$> procs s' !! p = (λ x, (idle x, p_container x)) <$> procs s !! p) ∧
  (∀ c, c_parent <$> conts s' !! c = c_parent <$> conts s !! c) ∧ root_container s' = root_container s.
Lemma same_place_home s s' n : same_place s s' → home s' n = home s n.
Proof.
  intros (H1 & H2 & H3). rewrite /home. specialize (H1 n). specialize (H2 n).
  destruct (procs s' !! n) as [x'|], (procs s !! n) as [x|]; try done; simpl in H1.
  - by injection H1 as -> ->.
  - destruct (conts s' !! n), (conts s !! n); try done. simpl in H2. injection H2 as ->. by rewrite H3.
Qed.
Lemma same_place_within s s' c X : same_place s s' → within s' c X = within s c X.
Proof. intros H. apply set_eq. intros n. rewrite !elem_of_within (same_place_home _ _ n H). done. Qed.
Lemma same_place_proc s p x x' :
  procs s !! p = Some x → p_container x' = p_container x → idle x' = idle x → same_place s (set_procs (<[p := x']> (procs s)) s).
Proof.
  intros Hx Hc Hi. split_and!; [|done..]. intros q. simpl. destruct (decide (q = p)) as [->|]; [|by rewrite lookup_insert_ne; [congruence|]].
  by rewrite lookup_insert_eq Hx /= Hc Hi.
Qed.
Lemma same_place_cont s c q q' :
  conts s !! c = Some q → c_parent q' = c_parent q → same_place s (set_conts (<[c := q']> (conts s)) s).
Proof.
  intros Hq Hp. split_and!; [done| |done]. intros d. simpl. destruct (decide (d = c)) as [->|]; [|by rewrite lookup_insert_ne; [congruence|]].
  by rewrite lookup_insert_eq Hq /= Hp.
Qed.

Lemma good_same s s' X :
  good s X → same_place s s' → infos s' = infos s → rq s' = rq s → good s' X.
Proof.
  intros [H1 H2 H3 H4 H5 H6] Hs Ei Er. pose proof Hs as (E1 & E2 & E3).
  assert (Hc : ∀ c, is_Some (conts s' !! c) ↔ is_Some (conts s !! c)) by (intros c; rewrite -(fmap_is_Some c_parent (conts s' !! c)) E2 fmap_is_Some //).
  assert (Hq : ∀ c q', conts s' !! c = Some q' → ∃ q, conts s !! c = Some q ∧ c_parent q = c_parent q').
  { intros c q' Hq'. specialize (E2 c). rewrite Hq' in E2. symmetry in E2. apply fmap_Some in E2 as (q & ? & ?). eauto. }
  split; rewrite ?Ei ?Er ?E3.
  - intros p x' Hx'. specialize (E1 p). rewrite Hx' in E1. symmetry in E1. apply fmap_Some in E1 as (x & Hx & [= -> ->]).
    destruct (H1 p x Hx) as (Hn & ? & ? & ? & ?). split_and!; [|done|done|by rewrite Hc|done].
    destruct (conts s' !! p) as [q'|] eqn:Eq; [|done]. destruct (Hq p q' Eq) as (? & ? & _). congruence.
  - intros c q' Hq' Hr. destruct (Hq c q' Hq') as (q & Hcq & <-). rewrite Hc. by apply H2.
  - intros c Hcc. rewrite (same_place_within s s') //. by apply H3, Hc.
  - intros n Hn. rewrite (same_place_home s s') //. by apply H4.
  - by rewrite Hc.
  - destruct H6 as [d Hd]. exists d. intros c q' Hq' Hr. destruct (Hq c q' Hq') as (q & Hcq & <-). by apply Hd.
Qed.
Lemma good_info s X p i i' :
  good s X → p ∉ X → infos s !! p = Some i → is_container i' = is_container i → weight i' = weight i →
  good (set_infos (<[p := i']> (infos s)) s) X.
Proof.
  intros [H1 H2 H3 H4 H5 H6] Hp Hi Hc Hw.
  assert (Hb : ∀ b q, (∃ j, infos s !! q = Some j ∧ info_ok b j) → ∃ j, <[p := i']> (infos s) !! q = Some j ∧ info_ok b j).
  { intros b q (j & Hj & Hok). destruct (decide (q = p)) as [->|]; [|exists j; by rewrite lookup_insert_ne; [congruence|]].
    simplify_eq. exists i'. rewrite lookup_insert_eq /info_ok Hc Hw. done. }
  split; [| | |done..].
  - intros q x Hq. destruct (H1 q x Hq) as (? & ? & ? & ? & ?). split_and!; auto.
  - intros c q Hq Hr. destruct (H2 c q Hq Hr) as (? & ? & ? & ?). split_and!; auto.
  - intros c Hcc. eapply rbset_ext; [|exact (H3 c Hcc)]. intros a b [Ha _]%elem_of_within [Hb' _]%elem_of_within. simpl.
    rewrite cfs_cmp_insert //; by intros ->.
Qed.
Lemma good_proc s X p x x' :
  good s X → procs s !! p = Some x → p_container x' = p_container x → idle x' = idle x → good (set_procs (<[p := x']> (procs s)) s) X.
Proof. intros H Hx Hc Hi. apply (good_same s); [done|by apply (same_place_proc _ _ x)|done..]. Qed.
Lemma good_cont s X c q q' :
  good s X → conts s !! c = Some q → c_parent q' = c_parent q → good (set_conts (<[c := q']> (conts s)) s) X.
Proof. intros H Hq Hp. apply (good_same s); [done|by apply (same_place_cont _ _ q)|done..]. Qed.
Lemma good_ts s X v : good s X → good (set_ts v s) X.
Proof. by intros []. Qed.
Lemma good_lock s X v : good s X → good (lset slock v s) X.
Proof. by intros []. Qed.
Lemma good_cpus s X v : good s X → good (set_cpus v s) X.
Proof. by intros []. Qed.
Lemma good_km s X v : good s X → good (set_km v s) X.
Proof. by intros []. Qed.

Lemma good_info_of s X n : good s X → n ∈ X → ∃ i, infos s !! n = Some i ∧ 15 ≤ weight i ≤ 88761.
Proof. intros H Hn. destruct (g_sub _ _ H n Hn) as [c Hc]. by destruct (home_ok _ _ _ _ H Hc) as (_ & _ & _ & ?). Qed.

(** Only the queue of [c] and the nodes in it are written. *)
Lemma good_queue s X X' h' c :
  good s X → (∀ n, n ∈ X' → is_Some (home s n)) → (∀ d, d ≠ c → within s d X' = within s d X) →
  rbset h' c (cfs_cmp (infos s)) (within s c X') → same_nodes (rq s) h' →
  (∀ d z, d ≠ c → z ∈ within s d X → nodes h' !! z = nodes (rq s) !! z) →
  (∀ d, d ≠ c → roots h' !! d = roots (rq s) !! d) → good (set_rq h' s) X'.
Proof.
  intros [H1 H2 H3 H4 H5 H6] Hsub Hw Hc Hdom Hn Hr. split; [| | |done..].
  - intros p x Hx. destruct (H1 p x Hx) as (? & ? & ? & ? & ?). split_and!; try done; by apply Hdom.
  - intros d q Hq Hne. destruct (H2 d q Hq Hne) as (? & ? & ? & ?). split_and!; try done; by apply Hdom.
  - intros d Hd. change (within (set_rq h' s) d X') with (within s d X'). destruct (decide (d = c)) as [->|Hne]; [done|].
    rewrite Hw //. apply (rbset_frame (rq s)); [by apply H3|intros z; by apply (Hn d)|by apply Hr].
Qed.

Lemma within_other s c d n X : home s n = Some c → d ≠ c → within s d ({[ n ]} ∪ X) = within s d X.
Proof. intros Hn Hne. apply set_eq. intros m. rewrite !elem_of_within elem_of_union elem_of_singleton. split; [|naive_solver]. intros [[->|?] ?]; [congruence|done]. Qed.
Lemma within_add s c n X : home s n = Some c → within s c ({[ n ]} ∪ X) = {[ n ]} ∪ within s c X.
Proof. intros Hn. apply set_eq. intros m. rewrite elem_of_within !elem_of_union elem_of_singleton elem_of_within. naive_solver. Qed.
Lemma within_other_del s c d n X : home s n = Some c → d ≠ c → within s d (X ∖ {[ n ]}) = within s d X.
Proof. intros Hn Hne. apply set_eq. intros m. rewrite !elem_of_within elem_of_difference elem_of_singleton. split; [naive_solver|]. intros [? ?]. split; [|done]. split; [done|]. intros ->. congruence. Qed.
Lemma within_del s c n X : within s c (X ∖ {[ n ]}) = within s c X ∖ {[ n ]}.
Proof. apply set_eq. intros m. rewrite elem_of_within !elem_of_difference elem_of_within. tauto. Qed.

Lemma enqueue_ok s X n c :
  good s X → home s n = Some c → n ∉ X →
  ∃ h', enqueue c n s = Ret () (set_rq h' s) ∧ good (set_rq h' s) ({[ n ]} ∪ X).
Proof.
  intros H Hh Hn. destruct (home_ok _ _ _ _ H Hh) as (Hok & Hnode & Hc & i & Hi & _).
  assert (Hnw : ∀ d, n ∉ within s d X) by (intros d [? _]%elem_of_within; done).
  destruct (rbset_insert (rq s) c (cfs_cmp (infos s)) (within s c X) n) as (h' & Hrun & Hset & Hdom & Hfr & Hroot).
  - by apply (g_queue _ _ H).
  - apply cfs_cmp_trans.
  - intros b [Hb _]%elem_of_within. destruct (good_info_of _ _ _ H Hb) as (j & Hj & _). apply (cfs_cmp_total _ _ _ i j); [done..|]. by intros ->.
  - done.
  - done.
  - apply Hnw.
  - exists h'. split.
    + rewrite /enqueue (bind_run _ _ s (infos s) s) // (bind_run _ _ s 0 (set_rq h' s)); [|done].
      exact (zoom_run (mkLens rq set_rq) _ s _ _ Hrun).
    + apply (good_queue s X _ h' c); [done| | |by rewrite within_add|done| |done].
      * intros m [->%elem_of_singleton|Hm]%elem_of_union; [by rewrite Hh|by apply (g_sub _ _ H)].
      * intros d Hd. by apply (within_other _ c).
      * intros d z Hd Hz. apply Hfr; [intros ->; by apply (Hnw d)|]. intros [_ ?]%elem_of_within. apply elem_of_within in Hz as [_ ?]. congruence.
Qed.
Lemma dequeue_ok s X n c :
  good s X → home s n = Some c → n ∈ X →
  ∃ h', dequeue c n s = Ret () (set_rq h' s) ∧ good (set_rq h' s) (X ∖ {[ n ]}).
Proof.
  intros H Hh Hn. destruct (home_ok _ _ _ _ H Hh) as (_ & _ & Hc & _).
  destruct (rbset_erase _ _ _ _ n (g_queue _ _ H c Hc)) as (h' & Hrun & Hset & Hdom & Hfr & Hroot); [by apply elem_of_within|].
  exists h'. split; [exact (zoom_run (mkLens rq set_rq) _ s _ _ Hrun)|].
  apply (good_queue s X _ h' c); [done| | |by rewrite within_del|done| |done].
  - intros m [Hm _]%elem_of_difference. by apply (g_sub _ _ H).
  - intros d Hd. by apply (within_other_del _ c).
  - intros d z Hd [_ Hz]%elem_of_within. apply Hfr. intros [_ ?]%elem_of_within. congruence.
Qed.
(** Erasing does not compare: it works also when the key of the node has changed. *)
Lemma dequeue_stale s X n c i i' :
  good s X → home s n = Some c → n ∈ X → infos s !! n = Some i → is_container i' = is_container i → weight i' = weight i →
  let s1 := set_infos (<[n := i']> (infos s)) s in
  ∃ h', dequeue c n s1 = Ret () (set_rq h' s1) ∧ good (set_rq h' s1) (X ∖ {[ n ]}).
Proof.
  intros H Hh Hn Hi Hc Hw s1. destruct (dequeue_ok s X n c H Hh Hn) as (h' & Hrun & Hg). exists h'. split.
  - move: Hrun. rewrite /dequeue /on_rq /zoom /=. destruct (_rb_erase n c (rq s)); [|done..]. intros [= -> <-]. done.
  - apply (good_info (set_rq h' s) _ n i i' Hg); [set_solver|done..].
Qed.
Lemma first_ok s X c :
  good s X → is_Some (conts s !! c) → ∃ n, on_rq (_rb_first c) s = Ret n s ∧
    ((within s c X = ∅ ∧ n = 0) ∨ (n ∈ within s c X ∧ n ≠ 0 ∧ ∀ x, x ∈ within s c X → x = n ∨ cfs_cmp (infos s) n x = true)).
Proof.
  intros H Hc. destruct (rbset_first _ _ _ _ (g_queue _ _ H c Hc)) as (n & Hrun & Hn). exists n. split; [|done].
  rewrite /on_rq (zoom_run _ _ _ _ _ Hrun). by destruct s.
Qed.

(** ** The depth of a container *)
Definition above_of (s : kern) (depth : Z → nat) (c : Z) : gset Z := filter (λ d, (depth d < depth c)%nat) (dom (conts s)).
Definition below_of (s : kern) (depth : Z → nat) (c : Z) : gset Z := filter (λ d, (depth c < depth d)%nat) (dom (conts s)).
Lemma above_lt s depth c d : is_Some (conts s !! d) → (depth d < depth c)%nat → (size (above_of s depth d) < size (above_of s depth c))%nat.
Proof.
  intros Hd Hlt. apply subset_size. split.
  - intros e. rewrite !elem_of_filter. intros [? ?]. split; [lia|done].
  - intros Hs. assert (d ∈ above_of s depth c) as He%Hs by (apply elem_of_filter; by rewrite elem_of_dom). apply elem_of_filter in He as [? _]. lia.
Qed.
Lemma below_lt s depth c d : is_Some (conts s !! d) → (depth c < depth d)%nat → (size (below_of s depth d) < size (below_of s depth c))%nat.
Proof.
  intros Hd Hlt. apply subset_size. split.
  - intros e. rewrite !elem_of_filter. intros [? ?]. split; [lia|done].
  - intros Hs. assert (d ∈ below_of s depth c) as He%Hs by (apply elem_of_filter; by rewrite elem_of_dom). apply elem_of_filter in He as [? _]. lia.
Qed.
Lemma above_size s depth c : (size (above_of s depth c) ≤ size (conts s))%nat.
Proof. rewrite -(size_dom (D := gset Z) (conts s)). apply subseteq_size. intros e. by rewrite elem_of_filter => -[_ ?]. Qed.
Lemma below_size s depth c : (size (below_of s depth c) ≤ size (conts s))%nat.
Proof. rewrite -(size_dom (D := gset Z) (conts s)). apply subseteq_size. intros e. by rewrite elem_of_filter => -[_ ?]. Qed.

(** ** Attaching a page directory

    [attach_pgdir] treats the table the register points to as a [struct pgdir]: it
    needs the low byte of entry 1 of that table to be clear (the lock) and clears the
    low byte of entry 4.  No user address uses these entries. *)
Definition att (w : gmap Z Z) (t : Z) : Prop :=
  page_addr t ∧ (∃ v, w !! (t + 8) = Some v ∧ 0 ≤ v ∧ v mod 256 = 0) ∧ is_Some (w !! (t + 32)).

Lemma P2K_K2P p : page_addr p → P2K (K2P p) = p.
Proof.
  intros H. rewrite (K2P_page p H) /P2K. destruct H as [_ H]. rewrite /u64 Z.sub_add wrap_small; [|done].
  rewrite /KSPACE_MASK in H. lia.
Qed.

Lemma att_store w t v t' : att w t → att w t' → att (<[t + 32 := v]> w) t'.
Proof.
  intros ([Ht _] & _) (Hp' & (v' & Hv' & Hm) & H2). split; [done|]. destruct Hp' as [Ht' _]. split.
  - exists v'. rewrite lookup_insert_ne; [|done]. intros E. assert (t' = t + 24) as -> by lia. dlia.
  - destruct (decide (t + 32 = t' + 32)) as [->|]; [by rewrite lookup_insert_eq|by rewrite lookup_insert_ne].
Qed.

Lemma store_byte0_run m g t0 a w v :
  words m !! a = Some w →
  store_byte0 a v (mkVM m g t0) = Ret () (mkVM (set_words (<[a := Z.lor (w - w mod 256) v]> (words m)) m) g t0).
Proof.
  intros H. rewrite /store_byte0. rewrite (bind_run _ _ _ w (mkVM m g t0)); [rewrite /load64; run_simpl; by rewrite H|].
  rewrite /store64. rewrite (bind_run _ _ _ (words m) (mkVM m g t0)) // (bind_run _ _ _ w (mkVM m g t0)) //. by rewrite /= H.
Qed.
Lemma lor_byte v : 0 ≤ v → v mod 256 = 0 → Z.lor v 1 = v + 1.
Proof. intros H0 H. change (Z.lor v (cz Black) = v + cz Black). apply lor_pc. split; [done|dlia]. Qed.

Lemma attach_pgdir_ok m g t0 ipt :
  att (words m) (P2K t0) → pd_lock g = false →
  ∃ v, attach_pgdir ipt (mkVM m g t0) = Ret ()
    (mkVM (set_words (<[P2K t0 + 32 := v]> (words m)) m) (if decide (pt g = 0) then g else mkPgdir (pt g) false 1)
      (K2P (if decide (pt g = 0) then ipt else pt g))).
Proof.
  intros (Hp & (v & Hv & Hv0 & Hm) & [v4 Hv4]) Hl. set (t := P2K t0) in *. exists (v4 - v4 mod 256).
  assert (Ht : t ≠ 0) by (destruct Hp as [_ ?]; rewrite /KSPACE_MASK in H; lia).
  assert (Hrest : ∀ w, (p ← gets (λ s, pt (pd s)); if negb (p =? 0) then _acquire_spinlock pd_lens;; modify (set_online 1);;
      release_spinlock pd_lens;; modify (set_ttbr0 (K2P p)) else modify (set_ttbr0 (K2P ipt))) (mkVM (set_words w m) g t0) = Ret ()
    (mkVM (set_words w m) (if decide (pt g = 0) then g else mkPgdir (pt g) false 1) (K2P (if decide (pt g = 0) then ipt else pt g)))).
  { intros w. rewrite (bind_run _ _ _ (pt g) (mkVM (set_words w m) g t0)) //. destruct (Z.eqb_spec (pt g) 0) as [E|E].
    - by rewrite !decide_True.
    - rewrite !decide_False //. cbn [negb]. erewrite bind_run; [|rewrite acquire_run; simpl; by rewrite Hl]. done. }
  rewrite /attach_pgdir (bind_run _ _ _ t0 (mkVM m g t0)) //. fold t. rewrite (proj2 (Z.eqb_neq t 0) Ht). cbn [negb].
  rewrite (bind_run _ _ _ () (mkVM (set_words (<[t + 32 := v4 - v4 mod 256]> (words m)) m) g t0)); [|apply Hrest].
  assert (Hne : t + 8 ≠ t + 32) by lia. rewrite (bind_run _ _ _ v (mkVM m g t0)); [rewrite /load64; run_simpl; by rewrite Hv|].
  rewrite (proj2 (Z.eqb_eq _ _) Hm). rewrite (bind_run _ _ _ _ _ (store_byte0_run m g t0 _ v 1 Hv)).
  rewrite Hm Z.sub_0_r (lor_byte v Hv0 Hm). set (m1 := set_words _ m).
  assert (H4 : words m1 !! (t + 32) = Some v4) by (simpl; by rewrite lookup_insert_ne).
  rewrite (bind_run _ _ _ _ _ (store_byte0_run m1 g t0 _ v4 0 H4)). rewrite Z.lor_0_r. set (m2 := set_words _ m1).
  assert (H8 : words m2 !! (t + 8) = Some (v + 1)) by (simpl; rewrite lookup_insert_ne; [congruence|apply lookup_insert_eq]).
  rewrite (store_byte0_run m2 g t0 _ _ 0 H8). assert ((v + 1) mod 256 = 1) as -> by dlia. rewrite Z.lor_0_r Z.add_simpl_r.
  do 2 f_equal. rewrite /m2 /m1 /set_words /=. f_equal. apply map_eq. intros z.
  destruct (decide (z = t + 8)) as [->|]; [rewrite lookup_insert_eq lookup_insert_ne; [congruence|done]|].
  rewrite lookup_insert_ne; [congruence|]. destruct (decide (z = t + 32)) as [->|]; [by rewrite !lookup_insert_eq|].
  rewrite !lookup_insert_ne //; congruence.
Qed.

(** ** The invariant *)
Record cpu_at (ps : gmap Z proc) (l : list cpu) : Prop := {
  co_len : (length (l) ≤ NCPU)%nat;
  co_cur : ∀ i c, l !! i = Some c →
    ∃ x, ps !! cur_proc c = Some x ∧ state x = RUNNING ∧ (idle x = true → cur_proc c = idle_proc c);
  co_idle : ∀ i c, l !! i = Some c →
    ∃ y, ps !! idle_proc c = Some y ∧ idle y = true ∧ (cur_proc c ≠ idle_proc c → state y = RUNNABLE);
  co_cur_inj : ∀ i j c d, l !! i = Some c → l !! j = Some d → cur_proc c = cur_proc d → i = j;
  co_idle_inj : ∀ i j c d, l !! i = Some c → l !! j = Some d → idle_proc c = idle_proc d → i = j;
  co_running : ∀ p x, ps !! p = Some x → state x = RUNNING → ∃ i c, l !! i = Some c ∧ cur_proc c = p }.

(** The containers in which something is active. *)
Definition kset (s : kern) : gset Z := dom (filter (λ kv, kv.1 ≠ root_container s ∧ nr_running kv.2 ≠ 0) (conts s)).
(** What waits in the queues, and what counts as running or waiting. *)
Definition waiting (s : kern) : gset Z := pset queued (procs s) ∪ kset s.
Definition runs (s : kern) : gset Z := pset active (procs s) ∪ kset s.

(** The counters of every container are those of its processes and of the containers in it. *)
Definition acct (s : kern) (Y : gset Z) : Prop :=
  ∀ c q, conts s !! c = Some q →
    nr_running q = Z.of_nat (size (within s c Y)) ∧ weight_sum q = wsum (infos s) (within s c Y).

Definition tims_at (t : tstate) (l : list cpu) : Prop :=
  ∃ armed, timers_ok t armed ∧
    (∀ i c, l !! i = Some c → ∃ x, timers t !! proc_timer c = Some x ∧
      if decide (data x = 0) then ∀ j, (j < NCPU)%nat → proc_timer c ∉ armed j else proc_timer c ∈ armed i) ∧
    ∀ i j c d, l !! i = Some c → l !! j = Some d → proc_timer c = proc_timer d → i = j.

Definition vm_at (w : gmap Z Z) (ipt : Z) (ps : gmap Z proc) (l : list cpu) : Prop :=
  att w ipt ∧ (∀ i c, l !! i = Some c → att w (P2K (c_ttbr0 c))) ∧
  ∀ p x, ps !! p = Some x → pd_lock (p_pgdir x) = false ∧ (pt (p_pgdir x) = 0 ∨ att w (pt (p_pgdir x))).

Record sched_inv (s : kern) : Prop := {
  fi_lock : sched_lock s = false;
  fi_good : good s (waiting s);
  fi_acct : acct s (runs s);
  fi_cpu : cpu_at (procs s) (cpus s);
  fi_tims : tims_at (ts s) (cpus s);
  fi_vm : vm_at (words (km s)) (invalid_pt s) (procs s) (cpus s);
  fi_size : Z.of_nat (size (procs s)) + Z.of_nat (size (conts s)) ≤ 32768 }.

(** ** Facts the invariant gives *)
Lemma elem_of_kset s c : c ∈ kset s ↔ ∃ q, conts s !! c = Some q ∧ c ≠ root_container s ∧ nr_running q ≠ 0.
Proof. rewrite /kset elem_of_dom /is_Some. setoid_rewrite map_lookup_filter_Some. naive_solver. Qed.
Lemma pset_some f m p : p ∈ pset f m → is_Some (m !! p).
Proof. intros (x & -> & _)%elem_of_pset. by eexists. Qed.
Lemma pset_no_cont s X f n : good s X → n ∈ pset f (procs s) → conts s !! n = None.
Proof. intros H (x & Hx & _)%elem_of_pset. by destruct (g_procs _ _ H n x Hx). Qed.

Lemma pweight_ok s X n c : good s X → home s n = Some c → 15 ≤ pweight (infos s) n ≤ 88761.
Proof. intros H Hh. destruct (home_ok _ _ _ _ H Hh) as (_ & _ & _ & i & Hi & Hw). by rewrite /pweight Hi. Qed.
Lemma within_size s c Y : Z.of_nat (size (within s c Y)) ≤ Z.of_nat (size (procs s)) + Z.of_nat (size (conts s)).
Proof.
  assert (within s c Y ⊆ dom (procs s) ∪ dom (conts s)) as H%subseteq_size.
  { intros n [_ Hn]%elem_of_within. rewrite elem_of_union !elem_of_dom. rewrite /home in Hn.
    destruct (procs s !! n) eqn:E1; [by left|]. destruct (conts s !! n) eqn:E2; [by right|done]. }
  pose proof (size_union_alt (dom (procs s)) (dom (conts s) : gset Z)) as E. rewrite E in H.
  assert (size (dom (conts s) ∖ dom (procs s) : gset Z) ≤ size (dom (conts s) : gset Z))%nat by (apply subseteq_size; set_solver).
  rewrite !size_dom in H H0. lia.
Qed.
Lemma within_wsum s X c Y : good s X → 0 ≤ wsum (infos s) (within s c Y) ≤ 88761 * Z.of_nat (size (within s c Y)).
Proof. intros H. apply wsum_bound. intros n [_ Hn]%elem_of_within. pose proof (pweight_ok s X n c H Hn). lia. Qed.
Lemma pweight_insert m p i j q : m !! p = Some i → weight j = weight i → pweight (<[p := j]> m) q = pweight m q.
Proof.
  intros Hi Hj. rewrite /pweight. destruct (decide (q = p)) as [->|]; [by rewrite lookup_insert_eq Hi Hj|].
  by rewrite lookup_insert_ne; [congruence|].
Qed.
Lemma size_insert_same {A} (m : gmap Z A) p x y : m !! p = Some x → size (<[p := y]> m) = size m.
Proof. intros H. by rewrite map_size_insert_Some. Qed.
Lemma same_place_dom s s' : same_place s s' → dom (conts s') = dom (conts s).
Proof. intros (_ & H & _). apply set_eq. intros c. rewrite !elem_of_dom -!(fmap_is_Some c_parent (conts _ !! c)). by rewrite H. Qed.
Lemma same_place_refl s : same_place s s.
Proof. done. Qed.
Lemma same_place_trans s1 s2 s3 : same_place s1 s2 → same_place s2 s3 → same_place s1 s3.
Proof. intros (A1 & A2 & A3) (B1 & B2 & B3). split_and!; intros; by rewrite ?B1 ?B2 ?B3 ?A1 ?A2 ?A3. Qed.

(** The counters when something changes its state. *)
Lemma acct_keep s s' Y :
  acct s Y → same_place s s' → (∀ r, pweight (infos s') r = pweight (infos s) r) → conts s' = conts s → acct s' Y.
Proof.
  intros H Hs Hw Hc c q Hq. rewrite Hc in Hq. rewrite (same_place_within s s') //. destruct (H c q Hq) as [-> ->]. split; [done|].
  apply wsum_ext. intros r _. by rewrite Hw.
Qed.
Lemma acct_add s s' X Y n c q q' i :
  good s X → acct s Y → Z.of_nat (size (procs s)) + Z.of_nat (size (conts s)) ≤ 32768 → home s n = Some c → n ∉ Y →
  infos s !! n = Some i → conts s !! c = Some q → same_place s s' → (∀ r, pweight (infos s') r = pweight (infos s) r) →
  conts s' = <[c := q']> (conts s) → nr_running q' = u32 (nr_running q + 1) → weight_sum q' = u32 (weight_sum q + weight i) →
  acct s' ({[ n ]} ∪ Y).
Proof.
  intros Hg Ha Hsz Hh Hn Hi Hq Hs Hw Hc Hq1 Hq2 d r Hr. rewrite (same_place_within s s') //.
  rewrite (wsum_ext (infos s') (infos s)); [by intros; rewrite Hw|]. rewrite Hc in Hr. destruct (decide (d = c)) as [->|Hne].
  - rewrite lookup_insert_eq in Hr. injection Hr as <-. rewrite Hq1 Hq2. destruct (Ha c q Hq) as [-> ->].
    assert (Hnw : n ∉ within s c Y) by (intros [? _]%elem_of_within; done).
    pose proof (within_size s c ({[ n ]} ∪ Y)) as Hb. rewrite within_add // in Hb |- *.
    assert (Hsize : size ({[ n ]} ∪ within s c Y) = S (size (within s c Y))) by (rewrite size_union; [set_solver|by rewrite size_singleton]).
    rewrite Hsize in Hb |- *. pose proof (within_wsum s X c Y Hg). pose proof (pweight_ok s X n c Hg Hh) as Hpw.
    rewrite wsum_add //. assert (Hwp : pweight (infos s) n = weight i) by (by rewrite /pweight Hi). rewrite Hwp in Hpw |- *.
    split; rewrite /u32 wrap_small; lia.
  - rewrite lookup_insert_ne in Hr; [congruence|]. rewrite (within_other _ c) //. by apply Ha.
Qed.
Lemma acct_del s s' X Y n c q q' i :
  good s X → acct s Y → Z.of_nat (size (procs s)) + Z.of_nat (size (conts s)) ≤ 32768 → home s n = Some c → n ∈ Y →
  infos s !! n = Some i → conts s !! c = Some q → same_place s s' → (∀ r, pweight (infos s') r = pweight (infos s) r) →
  conts s' = <[c := q']> (conts s) → nr_running q' = u32 (nr_running q - 1) → weight_sum q' = u32 (weight_sum q - weight i) →
  acct s' (Y ∖ {[ n ]}).
Proof.
  intros Hg Ha Hsz Hh Hn Hi Hq Hs Hw Hc Hq1 Hq2 d r Hr. rewrite (same_place_within s s') //.
  rewrite (wsum_ext (infos s') (infos s)); [by intros; rewrite Hw|]. rewrite Hc in Hr. destruct (decide (d = c)) as [->|Hne].
  - rewrite lookup_insert_eq in Hr. injection Hr as <-. rewrite Hq1 Hq2. destruct (Ha c q Hq) as [-> ->].
    assert (Hin : n ∈ within s c Y) by (by apply elem_of_within).
    pose proof (within_size s c Y) as Hb. pose proof (within_wsum s X c Y Hg) as Hwb.
    pose proof (within_wsum s X c (Y ∖ {[ n ]}) Hg) as Hwb'. rewrite within_del in Hwb' |- *.
    assert (Hsize : size (within s c Y) = S (size (within s c Y ∖ {[ n ]}))).
    { rewrite size_difference; [set_solver|]. rewrite size_singleton. assert (size (within s c Y) ≠ 0%nat); [|lia].
      intros E. apply size_empty_inv in E. set_solver. }
    pose proof (wsum_del (infos s) n _ Hin) as Hwd. assert (Hwp : pweight (infos s) n = weight i) by (by rewrite /pweight Hi).
    rewrite Hwp in Hwd. split; rewrite /u32 wrap_small; lia.
  - rewrite lookup_insert_ne in Hr; [congruence|]. rewrite (within_other_del _ c) //. by apply Ha.
Qed.
(** A container that holds something active counts it. *)
Lemma acct_pos s Y n c q : acct s Y → n ∈ Y → home s n = Some c → conts s !! c = Some q → nr_running q ≠ 0.
Proof.
  intros Ha Hn Hh Hq. destruct (Ha c q Hq) as [-> _]. assert (Hin : n ∈ within s c Y) by (by apply elem_of_within).
  intros E. assert (size (within s c Y) = 0)%nat as E'%size_empty_inv by lia. set_solver.
Qed.

Lemma get_minvruntime_ok s X i cc c :
  good s X → is_Some (conts s !! c) → cpus s !! i = Some cc → is_Some (procs s !! cur_proc cc) →
  ∃ v, get_minvruntime i c s = Ret v s ∧ ∀ n j, n ∈ within s c X → infos s !! n = Some j → v ≤ vruntime j.
Proof.
  intros H Hcc Hc [x Hx]. destruct (first_ok s X c H Hcc) as (n & Hrun & Hn). rewrite /get_minvruntime (bind_run _ _ _ _ _ Hrun). case_decide as Hd.
  - destruct (g_procs _ _ H _ _ Hx) as (_ & _ & _ & _ & j & Hj & _). exists (vruntime j). split.
    + rewrite (bind_run _ _ s (cur_proc cc) s); [rewrite /thisproc /get_cpu; run_simpl; by rewrite Hc|].
      rewrite /get_info. run_simpl. by rewrite Hj.
    + destruct Hn as [[-> _]|(_ & ? & _)]; [|done]. intros m k Hm. set_solver.
  - destruct Hn as [[_ ?]|(Hin & _ & Hleast)]; [done|]. pose proof Hin as [Hin' _]%elem_of_within. destruct (good_info_of _ _ _ H Hin') as (j & Hj & _).
    exists (vruntime j). split; [rewrite /get_info; run_simpl; by rewrite Hj|]. intros m k Hm Hk.
    destruct (Hleast m Hm) as [->|(a & b & ? & ? & ?)%cfs_cmp_true]; simplify_eq; lia.
Qed.

(** A process that runs nowhere may change its state. *)
Lemma cpu_at_upd ps l p x x' :
  cpu_at ps l → ps !! p = Some x → state x ≠ RUNNING → state x' ≠ RUNNING → idle x = false → idle x' = false →
  cpu_at (<[p := x']> ps) l.
Proof.
  intros [H1 H2 H3 H4 H5 H6] Hx Hs Hs' Hi Hi'. split; [done| | |done|done|].
  - intros i c Hc. destruct (H2 i c Hc) as (y & Hy & ? & ?). exists y. rewrite lookup_insert_ne; [congruence|done].
  - intros i c Hc. destruct (H3 i c Hc) as (y & Hy & ? & ?). exists y. rewrite lookup_insert_ne; [congruence|done].
  - intros q y. destruct (decide (q = p)) as [->|]; [rewrite lookup_insert_eq; intros [= <-]; done|].
    rewrite lookup_insert_ne; [congruence|]. apply H6.
Qed.
Lemma vm_at_upd w ipt ps l p x x' :
  vm_at w ipt ps l → ps !! p = Some x → p_pgdir x' = p_pgdir x → vm_at w ipt (<[p := x']> ps) l.
Proof.
  intros (H1 & H2 & H3) Hx Hp. split_and!; [done..|]. intros q y. destruct (decide (q = p)) as [->|].
  - rewrite lookup_insert_eq. intros [= <-]. rewrite Hp. by apply (H3 p).
  - rewrite lookup_insert_ne; [congruence|]. apply H3.
Qed.

(** ** Walking up the containers

    While a loop goes up from container [c], the queues hold the processes [W] and the
    containers [K], the counters are those of the processes [A] and of [K], and [K] is
    right for every container but [c]. *)
Record mid (depth : Z → nat) (s : kern) (W A K : gset Z) (c : Z) : Prop := {
  m_good : good s (W ∪ K);
  m_acct : acct s (A ∪ K);
  m_procs : ∀ n, n ∈ W ∪ A → conts s !! n = None;
  m_conts : ∀ d, d ∈ K → is_Some (conts s !! d) ∧ d ≠ root_container s;
  m_but : ∀ d q, conts s !! d = Some q → d ≠ root_container s → d ≠ c → (d ∈ K ↔ nr_running q ≠ 0);
  m_depth : ∀ d q, conts s !! d = Some q → d ≠ root_container s → (depth (c_parent q) < depth d)%nat;
  m_size : Z.of_nat (size (procs s)) + Z.of_nat (size (conts s)) ≤ 32768 }.

Lemma mid_kset depth s W A K c q :
  mid depth s W A K c → conts s !! c = Some q → (c ≠ root_container s → (c ∈ K ↔ nr_running q ≠ 0)) → K = kset s.
Proof.
  intros H Hq Hc. apply set_eq. intros d. rewrite elem_of_kset. split.
  - intros Hd. destruct (m_conts _ _ _ _ _ _ H d Hd) as [[r Hr] Hne]. exists r. split_and!; [done..|].
    destruct (decide (d = c)) as [->|Hdc]; [simplify_eq; tauto|by apply (m_but _ _ _ _ _ _ H d)].
  - intros (r & Hr & Hne & Hnr). destruct (decide (d = c)) as [->|Hdc]; [simplify_eq; tauto|by apply (m_but _ _ _ _ _ _ H d r)].
Qed.
Lemma mid_cont depth s W A K c d : mid depth s W A K c → is_Some (conts s !! d) → d ∉ K → d ∉ W ∪ K ∧ d ∉ A ∪ K.
Proof.
  intros H [q Hq] Hd. split; intros [Hin|?]%elem_of_union; try done;
    assert (conts s !! d = None) by (apply (m_procs _ _ _ _ _ _ H), elem_of_union; auto); congruence.
Qed.

(** What the loops leave alone. *)
Definition rest (s : kern) := (procs s, cpus s, ts s, km s, panic_flag s, root_container s, invalid_pt s, sched_lock s).
Record walked (s s' : kern) : Prop := {
  w_place : same_place s s';
  w_rest : rest s' = rest s;
  w_weight : ∀ r, pweight (infos s') r = pweight (infos s) r;
  w_info : ∀ p, is_Some (procs s !! p) → conts s !! p = None → infos s' !! p = infos s !! p }.
Lemma walked_refl s : walked s s.
Proof. by split. Qed.
Lemma walked_trans s1 s2 s3 : walked s1 s2 → walked s2 s3 → walked s1 s3.
Proof.
  intros [A1 A2 A3 A4] [B1 B2 B3 B4]. split; [by apply (same_place_trans _ s2)|congruence|intros r; by rewrite B3|].
  intros p Hp Hc. rewrite B4; [by injection A2 as -> | |by apply A4].
  destruct A1 as (_ & E & _). specialize (E p). rewrite Hc in E. by destruct (conts s2 !! p).
Qed.
(** Three writes of one round: the key of a container, its queue, the counters of its parent. *)
Lemma walked_round s c i i' e q q' h' :
  conts s !! c ≠ None → infos s !! c = Some i → weight i' = weight i → conts s !! e = Some q → c_parent q' = c_parent q →
  walked s (set_conts (<[e := q']> (conts s)) (set_rq h' (set_infos (<[c := i']> (infos s)) s))).
Proof.
  intros Hc Hi Hw Hq Hp. split.
  - exact (same_place_cont (set_rq h' (set_infos (<[c := i']> (infos s)) s)) e q q' Hq Hp).
  - done.
  - intros r. simpl. by apply (pweight_insert _ _ i).
  - intros p _ Hn. simpl. rewrite lookup_insert_ne //. congruence.
Qed.

(** One container enters the queue of its parent. *)
Lemma mid_enter depth s W A K c e q i i' qe qe' h' :
  mid depth s W A K c → conts s !! c = Some q → c ≠ root_container s → c ∉ K → nr_running q ≠ 0 → home s c = Some e →
  infos s !! c = Some i → weight i' = weight i → conts s !! e = Some qe → c_parent qe' = c_parent qe →
  nr_running qe' = u32 (nr_running qe + 1) → weight_sum qe' = u32 (weight_sum qe + weight i) → e ≠ c →
  let s1 := set_rq h' (set_infos (<[c := i']> (infos s)) s) in good s1 ({[ c ]} ∪ (W ∪ K)) →
  let s2 := set_conts (<[e := qe']> (conts s)) s1 in
  mid depth s2 W A ({[ c ]} ∪ K) e.
Proof.
  intros H Hq Hr HcK Hnr Hh Hi Hw Hqe Hp Hn1 Hn2 Hec s1 Hg s2.
  assert (Hwalk : walked s s2) by (apply (walked_round s c i i' e qe qe' h'); [congruence|done..]). pose proof (w_place _ _ Hwalk) as Hsame.
  pose proof H as [H1 H2 H3 H4 H5 H6 H7]. split.
  - replace (W ∪ ({[ c ]} ∪ K)) with ({[ c ]} ∪ (W ∪ K)) by set_solver. exact (good_cont s1 _ e qe qe' Hg Hqe Hp).
  - replace (A ∪ ({[ c ]} ∪ K)) with ({[ c ]} ∪ (A ∪ K)) by set_solver.
    apply (acct_add s s2 (W ∪ K) (A ∪ K) c e qe qe' i); try done; [|exact (w_weight _ _ Hwalk)].
    exact (proj2 (mid_cont _ _ _ _ _ _ _ H (mk_is_Some _ _ Hq) HcK)).
  - intros n Hn. simpl. specialize (H3 n Hn). rewrite lookup_insert_ne //. congruence.
  - intros d [->%elem_of_singleton|Hd]%elem_of_union; simpl.
    + rewrite lookup_insert_ne //.
    + destruct (H4 d Hd) as [? ?]. split; [|done]. destruct (decide (d = e)) as [->|]; [by rewrite lookup_insert_eq|by rewrite lookup_insert_ne; [congruence|]].
  - intros d r Hd Hdr Hde. simpl in Hd. rewrite lookup_insert_ne in Hd; [congruence|]. rewrite elem_of_union elem_of_singleton.
    destruct (decide (d = c)) as [->|Hdc]; [simplify_eq; tauto|]. rewrite -(H5 d r Hd Hdr Hdc). tauto.
  - intros d r Hd Hdr. simpl in Hd. destruct (decide (d = e)) as [->|]; [|rewrite lookup_insert_ne in Hd; [congruence|]; by apply H6].
    rewrite lookup_insert_eq in Hd. injection Hd as <-. rewrite Hp. by apply H6.
  - simpl. by rewrite (size_insert_same _ _ qe).
Qed.

Lemma same_place_above s s' depth c : same_place s s' → above_of s' depth c = above_of s depth c.
Proof. intros H. by rewrite /above_of (same_place_dom s s'). Qed.

Lemma activate_up_ok depth i cc W A : ∀ fuel s K c q,
  mid depth s W A K c → conts s !! c = Some q → (c ≠ root_container s → nr_running q ≠ 0 ∧ (c ∈ K ↔ nr_running q ≠ 1)) →
  cpus s !! i = Some cc → is_Some (procs s !! cur_proc cc) → (size (above_of s depth c) < fuel)%nat →
  wp (activate_up fuel i c) (λ _ s', walked s s' ∧ good s' (W ∪ kset s') ∧ acct s' (A ∪ kset s')) s.
Proof.
  induction fuel as [|fuel IH]; intros s K c q H Hq Hc Hcc Hcur Hf; [lia|]. cbn [activate_up].
  apply wp_bind, wp_gets, wp_bind, (wp_get_cont _ _ q); [done|]. case_decide as Hd.
  2:{ apply wp_ret. assert (K = kset s) as <-.
      { apply (mid_kset depth s W A K c q); [done..|]. intros Hr. destruct (Hc Hr) as [? ->]. naive_solver. }
      split_and!; [apply walked_refl|apply H|apply H]. }
  destruct Hd as [Hr Hnr]. destruct (Hc Hr) as [_ HcK]. assert (HcK0 : c ∉ K) by tauto. set (e := c_parent q).
  pose proof (m_good _ _ _ _ _ _ H) as Hg.
  assert (Hh : home s c = Some e) by (by rewrite (home_cont _ _ _ _ Hg Hq) decide_False).
  destruct (g_conts _ _ Hg c q Hq Hr) as (_ & _ & [qe Hqe] & info & Hinfo & Hiok). fold e in Hqe.
  assert (Hec : e ≠ c) by exact (home_not_self _ _ _ _ Hg Hq Hr).
  assert (HcX : c ∉ W ∪ K) by exact (proj1 (mid_cont _ _ _ _ _ _ _ H (mk_is_Some _ _ Hq) HcK0)).
  apply wp_bind, (wp_get_info _ _ info); [done|].
  destruct (get_minvruntime_ok s _ i cc e Hg (mk_is_Some _ _ Hqe) Hcc Hcur) as (v & Hmin & _).
  apply wp_bind. eapply wp_of_run; [exact Hmin|]. apply wp_bind, (wp_upd_info _ _ _ info); [done|].
  set (info' := set_vruntime _ info). set (s1 := set_infos _ s).
  assert (G1 : good s1 (W ∪ K)) by (by apply (good_info s _ c info)).
  destruct (enqueue_ok s1 _ c e G1 Hh HcX) as (h' & Henq & G2). apply wp_bind. eapply wp_of_run; [exact Henq|].
  apply wp_bind, (wp_upd_cont _ _ _ qe); [done|]. apply wp_bind. eapply wp_get_info; [apply lookup_insert_eq|].
  apply wp_bind. eapply wp_upd_cont; [apply lookup_insert_eq|]. simpl conts. rewrite insert_insert_eq.
  set (qe' := set_weight_sum _ _). set (s2 := set_conts (<[e := qe']> (conts s)) _).
  assert (Hwalk : walked s s2) by (apply (walked_round s c info info' e qe qe' h'); [congruence|done..]).
  assert (M2 : mid depth s2 W A ({[ c ]} ∪ K) e).
  { apply (mid_enter depth s W A K c e q info info' qe qe' h'); try done. rewrite Hnr. lia. }
  eapply wp_mono; [apply (IH s2 ({[ c ]} ∪ K) e qe' M2)|].
  - apply lookup_insert_eq.
  - intros Her. pose proof (m_but _ _ _ _ _ _ H e qe Hqe Her Hec) as Hbut. pose proof (proj1 (m_acct _ _ _ _ _ _ H e qe Hqe)) as Hsz.
    pose proof (within_size s e (A ∪ K)) as Hb. pose proof (m_size _ _ _ _ _ _ H). simpl.
    rewrite elem_of_union elem_of_singleton Hbut /u32 wrap_small; [lia|]. split; [lia|]. split; [intros [?|?]; [done|lia]|intros; right; lia].
  - done.
  - done.
  - rewrite (same_place_above s s2); [apply Hwalk|]. pose proof (above_lt s depth c e (mk_is_Some _ _ Hqe) (m_depth _ _ _ _ _ _ H c q Hq Hr)). lia.
  - intros [] s' (Hw' & ? & ?). split_and!; [by apply (walked_trans _ s2)|done..].
Qed.

(** The walk starts at the container whose counters have just changed. *)
Lemma mid_start depth s s' W A c q q' :
  good s' (W ∪ kset s) → acct s' (A ∪ kset s) → (∀ n, n ∈ W ∪ A → conts s !! n = None) →
  conts s !! c = Some q → conts s' = <[c := q']> (conts s) → c_parent q' = c_parent q → root_container s' = root_container s →
  (∀ d q, conts s !! d = Some q → d ≠ root_container s → (depth (c_parent q) < depth d)%nat) →
  Z.of_nat (size (procs s')) + Z.of_nat (size (conts s)) ≤ 32768 → mid depth s' W A (kset s) c.
Proof.
  intros Hg Ha Hp Hq Hc Hpar Hr Hd Hsz. split; rewrite ?Hr; [done|done|..].
  - intros n Hn. specialize (Hp n Hn). rewrite Hc lookup_insert_ne //. congruence.
  - intros d (r & Hdr & Hne & _)%elem_of_kset. split; [|done]. rewrite Hc. destruct (decide (d = c)) as [->|]; [by rewrite lookup_insert_eq|].
    by rewrite lookup_insert_ne; [congruence|rewrite Hdr].
  - intros d r Hdr Hne Hdc. rewrite Hc lookup_insert_ne in Hdr; [congruence|]. rewrite elem_of_kset. naive_solver.
  - intros d r Hdr Hne. rewrite Hc in Hdr. destruct (decide (d = c)) as [->|]; [|rewrite lookup_insert_ne in Hdr; [congruence|]; by apply Hd].
    rewrite lookup_insert_eq in Hdr. injection Hdr as <-. rewrite Hpar. by apply Hd.
  - by rewrite Hc (size_insert_same _ _ q).
Qed.

(** ** Activation *)
Lemma activate_ok s i p x onalert :
  sched_inv s → (i < length (cpus s))%nat → procs s !! p = Some x → idle x = false →
  ∃ r s', _activate_proc i p onalert s = Ret r s' ∧ sched_inv s' ∧
    (r = true → ∃ y, procs s' !! p = Some y ∧ state y = RUNNABLE) ∧ (r = false → procs s' = procs s).
Proof.
  intros H Hi Hx Hid. destruct (lookup_lt_is_Some_2 _ _ Hi) as [c Hc].
  cut (wp (_activate_proc i p onalert) (λ r s', sched_inv s' ∧
    (r = true → ∃ y, procs s' !! p = Some y ∧ state y = RUNNABLE) ∧ (r = false → procs s' = procs s)) s).
  { intros (r & s' & ? & ?)%wp_run. eauto. }
  pose proof H as [Hl Hg Ha Hcpu Ht Hv Hsz].
  apply wp_bind, (wp_slock _ _ Hl), wp_bind, (wp_get_proc _ _ x); [done|].
  assert (Hsame : wp (_release_sched_lock;; mret false) (λ r s', sched_inv s' ∧
    (r = true → ∃ y, procs s' !! p = Some y ∧ state y = RUNNABLE) ∧ (r = false → procs s' = procs s)) (lset slock true s)).
  { apply wp_bind, wp_sunlock, wp_ret. split_and!; [|done..]. replace (lset slock false (lset slock true s)) with s; [done|]. destruct s; simpl in *. by subst. }
  case_match eqn:E1; [exact Hsame|]. case_match eqn:E2; [|exact Hsame]. clear Hsame E2.
  destruct (g_procs _ _ Hg p x Hx) as (Hpn & _ & _ & Hpc & info & Hinfo & Hiok). destruct (Hpc Hid) as [q Hq]. set (sq := p_container x) in *.
  assert (Hh : home s p = Some sq) by (by rewrite (home_proc _ _ _ Hx) Hid).
  assert (HpK : p ∉ kset s) by (intros (? & ? & _)%elem_of_kset; congruence).
  assert (Hna : p ∉ runs s).
  { intros [(y & Hy & Hact)%elem_of_pset|?]%elem_of_union; [|done]. simplify_eq. rewrite /active Hid in Hact. by destruct (state x). }
  assert (Hnq : p ∉ waiting s).
  { intros [(y & Hy & Hqd)%elem_of_pset|?]%elem_of_union; [|done]. simplify_eq. rewrite /queued Hid in Hqd. by destruct (state x). }
  set (x' := set_state RUNNABLE x). set (s1 := set_procs (<[p := x']> (procs s)) (lset slock true s)).
  assert (S1 : same_place s s1) by (exact (same_place_proc (lset slock true s) p x x' Hx eq_refl eq_refl)).
  assert (G1 : good s1 (waiting s)) by (apply (good_proc (lset slock true s) _ p x); [by apply good_lock|done..]).
  apply wp_bind, (wp_upd_proc _ _ _ x); [done|]. fold x' s1. apply wp_bind, (wp_get_info _ _ info); [done|].
  assert (Hcur : is_Some (procs s1 !! cur_proc c)).
  { destruct (co_cur _ _ Hcpu i c Hc) as (y & Hy & _). simpl. destruct (decide (cur_proc c = p)) as [->|]; [by rewrite lookup_insert_eq|].
    rewrite lookup_insert_ne; [congruence|]. by rewrite Hy. }
  destruct (get_minvruntime_ok s1 _ i c sq G1 (mk_is_Some _ _ Hq) Hc Hcur) as (v & Hmin & _).
  apply wp_bind. eapply wp_of_run; [exact Hmin|].
  apply wp_bind, (wp_upd_info _ _ _ info); [done|]. set (s2 := set_infos _ s1).
  assert (G2 : good s2 (waiting s)) by (by apply (good_info s1 _ p info)).
  assert (Hh2 : home s2 p = Some sq) by (rewrite -Hh; exact (same_place_home s s1 p S1)).
  destruct (enqueue_ok s2 _ p sq G2 Hh2 Hnq) as (h' & Henq & G3).
  apply wp_bind. eapply wp_of_run; [exact Henq|].
  apply wp_bind, (wp_upd_cont _ _ _ q); [done|]. apply wp_bind. eapply wp_upd_cont; [apply lookup_insert_eq|]. simpl conts. rewrite insert_insert_eq.
  set (q' := set_nr_running _ _). set (s4 := set_conts _ _).
  assert (S4 : same_place s s4) by (apply (same_place_trans _ s1); [done|]; exact (same_place_cont (set_rq h' s2) sq q q' Hq eq_refl)).
  assert (Hw4 : ∀ r, pweight (infos s4) r = pweight (infos s) r) by (intros r; by apply (pweight_insert _ _ info)).
  set (W := {[ p ]} ∪ pset queued (procs s)). set (A := {[ p ]} ∪ pset active (procs s)).
  destruct (g_tree _ _ Hg) as [depth Hdep].
  assert (M4 : mid depth s4 W A (kset s) sq).
  { apply (mid_start depth s s4 W A sq q q'); try done.
    - rewrite /W -union_assoc_L. exact (good_cont (set_rq h' s2) _ sq q q' G3 Hq eq_refl).
    - rewrite /A -union_assoc_L. by apply (acct_add s s4 (waiting s) (runs s) p sq q q' info).
    - intros n Hn. destruct (decide (n = p)) as [->|]; [done|]. assert (n ∈ pset queued (procs s) ∨ n ∈ pset active (procs s)) as [Hin|Hin] by set_solver;
        exact (pset_no_cont _ _ _ _ Hg Hin).
    - simpl. by rewrite (size_insert_same _ _ x). }
  apply wp_bind, wp_gets, wp_bind.
  eapply wp_mono; [apply (activate_up_ok depth i c W A _ s4 (kset s) sq q' M4); [apply lookup_insert_eq| |done|done|]|].
  - intros Hr. pose proof (proj1 (Ha sq q Hq)) as Hnr. pose proof (within_size s sq (runs s)). simpl. rewrite elem_of_kset /u32 wrap_small; [lia|].
    split; [lia|]. split; [intros (? & ? & _ & ?); simplify_eq; lia|]. intros. exists q. split_and!; [done..|lia].
  - pose proof (above_size s4 depth sq). simpl in *. lia.
  - intros [] s5 (Hw & G5 & A5). pose proof (w_rest _ _ Hw) as Hrest. injection Hrest as R1 R2 R3 R4 R5 R6 R7 R8. simpl in *.
    apply wp_bind, wp_sunlock, wp_ret. split_and!; [|intros _; exists x'; simpl; by rewrite R1 lookup_insert_eq|done].
    assert (HW : pset queued (<[p := x']> (procs s)) = W) by (by rewrite pset_insert /queued /= Hid).
    assert (HA : pset active (<[p := x']> (procs s)) = A) by (by rewrite pset_insert /active /= Hid).
    assert (Hst : state x ≠ RUNNING) by (revert E1; by destruct (state x)).
    split; [done| | | | | |].
    + change (good (lset slock false s5) (waiting s5)). rewrite /waiting R1 HW. by apply good_lock.
    + change (acct s5 (runs s5)). by rewrite /runs R1 HA.
    + simpl. rewrite R1 R2. by apply (cpu_at_upd _ _ p x).
    + simpl. by rewrite R2 R3.
    + simpl. rewrite R1 R2 R4 R7. by apply (vm_at_upd _ _ _ _ p x).
    + simpl. rewrite R1 (size_insert_same _ _ x) //. rewrite -(size_dom (D := gset Z) (conts s5)) (same_place_dom s4 s5); [apply Hw|].
      rewrite size_dom /= (size_insert_same _ _ q) //.
Qed.

(** [activate_group] finds the group in the queue of its parent, where its key is at least
    the least one, or not in a queue: no key of a queued node changes. *)
Lemma activate_group_ok s i g q :
  sched_inv s → (i < length (cpus s))%nat → conts s !! g = Some q → g ≠ root_container s →
  ∃ s', activate_group i g s = Ret () s' ∧ sched_inv s'.
Proof.
  intros H Hi Hq Hr. destruct (lookup_lt_is_Some_2 _ _ Hi) as [c Hc]. pose proof H as [Hl Hg Ha Hcpu Ht Hv Hsz].
  cut (wp (activate_group i g) (λ _ s', sched_inv s') s); [intros ([] & s' & ? & ?)%wp_run; eauto|].
  destruct (g_conts _ _ Hg g q Hq Hr) as (_ & _ & Hpar & info & Hinfo & Hiok).
  assert (Hh : home s g = Some (c_parent q)) by (by rewrite (home_cont _ _ _ _ Hg Hq) decide_False).
  assert (Hcur : is_Some (procs s !! cur_proc c)) by (destruct (co_cur _ _ Hcpu i c Hc) as (y & Hy & _); by rewrite Hy).
  apply wp_bind, (wp_slock _ _ Hl). set (s0 := lset slock true s). apply wp_bind, (wp_get_info _ _ info); [done|].
  apply wp_bind, (wp_get_cont _ _ q); [done|]. assert (G0 : good s0 (waiting s)) by (by apply good_lock).
  destruct (get_minvruntime_ok s0 _ i c _ G0 Hpar Hc Hcur) as (v & Hmin & Hleast). apply wp_bind. eapply wp_of_run; [exact Hmin|].
  apply wp_bind, (wp_upd_info _ _ _ info); [done|]. set (info' := set_vruntime _ info). set (s1 := set_infos _ s0). apply wp_sunlock.
  assert (G1 : good s1 (waiting s)).
  { destruct (decide (g ∈ waiting s)) as [Hin|Hin]; [|by apply (good_info s0 _ g info)].
    assert (Hle : v ≤ vruntime info) by (apply (Hleast g); [by apply elem_of_within|done]).
    assert (info' = info) as Ei by (rewrite /info' Z.max_l //; by destruct info).
    rewrite /s1 Ei insert_id //. }
  split; try done; [by apply good_lock|]. apply (acct_keep s); try done. intros r. simpl. by apply (pweight_insert _ _ info).
Qed.

(** ** Leaving the CPU *)
Lemma tims_read t l : tims_at t l → tims_at (set_nread (S (nread t)) t) l.
Proof. intros (armed & H1 & H2 & H3). exists armed. split_and!; [by apply timers_ok_read|done..]. Qed.

(** Every container above something active is in the queue of its parent; charging it moves
    it there. *)
Lemma charge_up_ok depth d0 W A : ∀ fuel s c q,
  good s (W ∪ kset s) → acct s (A ∪ kset s) →
  (∀ d q, conts s !! d = Some q → d ≠ root_container s → (depth (c_parent q) < depth d)%nat) →
  conts s !! c = Some q → (c ≠ root_container s → nr_running q ≠ 0) → (size (above_of s depth c) < fuel)%nat →
  wp (charge_up fuel c d0) (λ _ s', walked s s' ∧ conts s' = conts s ∧ good s' (W ∪ kset s')) s.
Proof.
  induction fuel as [|fuel IH]; intros s c q Hg Ha Hdep Hq Hc Hf; [lia|]. cbn [charge_up].
  apply wp_bind, wp_gets. case_decide as Hr; [|apply wp_ret; split_and!; [apply walked_refl|done..]].
  apply wp_bind, (wp_get_cont _ _ q); [done|]. set (e := c_parent q).
  assert (HcK : c ∈ kset s) by (apply elem_of_kset; eauto).
  assert (Hh : home s c = Some e) by (by rewrite (home_cont _ _ _ _ Hg Hq) decide_False).
  destruct (g_conts _ _ Hg c q Hq Hr) as (_ & _ & [qe Hqe] & info & Hinfo & Hiok). fold e in Hqe.
  apply wp_bind, (wp_upd_info _ _ _ info); [done|]. set (info' := set_vruntime _ info). set (s1 := set_infos _ s).
  destruct (dequeue_stale s _ c e info info' Hg Hh) as (h1 & Hdq & G1); [set_solver|done..|].
  apply wp_bind. eapply wp_of_run; [exact Hdq|]. fold s1 in G1 |- *. change (infos s1) with (<[c := info']> (infos s)).
  destruct (enqueue_ok (set_rq h1 s1) _ c e G1 Hh) as (h2 & Henq & G2); [set_solver|]. apply wp_bind. eapply wp_of_run; [exact Henq|].
  set (s2 := set_rq h2 (set_rq h1 s1)). replace ({[ c ]} ∪ (W ∪ kset s) ∖ {[ c ]}) with (W ∪ kset s2) in G2.
  2:{ change (kset s2) with (kset s). apply set_eq. intros n. destruct (decide (n = c)); set_solver. }
  assert (Hwalk : walked s s2).
  { split; [done|done|intros r; by apply (pweight_insert _ _ info)|]. intros p _ Hn. simpl. rewrite lookup_insert_ne //. congruence. }
  eapply wp_mono; [apply (IH s2 e qe G2)|].
  - apply (acct_keep s); [done|apply Hwalk|apply Hwalk|done].
  - done.
  - done.
  - intros _. apply (acct_pos s (A ∪ kset s) c e qe); [done|set_solver|done..].
  - pose proof (above_lt s depth c e (mk_is_Some _ _ Hqe) (Hdep c q Hq Hr)) as Hlt. change (above_of s2 depth e) with (above_of s depth e). lia.
  - intros [] s' (Hw & Hc' & Hg'). split_and!; [by apply (walked_trans _ s2)|done..].
Qed.

(** A container in which nothing is active any more leaves the queue of its parent. *)
Lemma leave_up_ok depth W A : ∀ fuel s K c q,
  mid depth s W A K c → conts s !! c = Some q → (c ≠ root_container s → c ∈ K) → (size (above_of s depth c) < fuel)%nat →
  wp (leave_up fuel c) (λ _ s', walked s s' ∧ good s' (W ∪ kset s') ∧ acct s' (A ∪ kset s')) s.
Proof.
  induction fuel as [|fuel IH]; intros s K c q H Hq Hc Hf; [lia|]. cbn [leave_up].
  apply wp_bind, wp_gets, wp_bind, (wp_get_cont _ _ q); [done|]. case_decide as Hd.
  2:{ apply wp_ret. assert (K = kset s) as <-.
      { apply (mid_kset depth s W A K c q); [done..|]. intros Hr. specialize (Hc Hr). tauto. }
      split_and!; [apply walked_refl|apply H|apply H]. }
  destruct Hd as [Hr Hnr]. specialize (Hc Hr). set (e := c_parent q). pose proof (m_good _ _ _ _ _ _ H) as Hg.
  assert (Hh : home s c = Some e) by (by rewrite (home_cont _ _ _ _ Hg Hq) decide_False).
  destruct (g_conts _ _ Hg c q Hq Hr) as (_ & _ & [qe Hqe] & info & Hinfo & Hiok). fold e in Hqe.
  assert (Hec : e ≠ c) by exact (home_not_self _ _ _ _ Hg Hq Hr).
  assert (HcW : c ∉ W ∪ A) by (intros Hin%(m_procs _ _ _ _ _ _ H); congruence).
  destruct (dequeue_ok s _ c e Hg Hh) as (h' & Hdq & G1); [set_solver|]. apply wp_bind. eapply wp_of_run; [exact Hdq|].
  apply wp_bind, (wp_upd_cont _ _ _ qe); [done|]. apply wp_bind, (wp_get_info _ _ info); [done|].
  apply wp_bind. eapply wp_upd_cont; [apply lookup_insert_eq|]. simpl conts. rewrite insert_insert_eq.
  set (qe' := set_weight_sum _ _). set (s2 := set_conts (<[e := qe']> (conts s)) _).
  assert (Hwalk : walked s s2) by (split; [exact (same_place_cont (set_rq h' s) e qe qe' Hqe eq_refl)|done..]).
  assert (M2 : mid depth s2 W A (K ∖ {[ c ]}) e).
  { pose proof H as [H1 H2 H3 H4 H5 H6 H7]. split.
    - replace (W ∪ K ∖ {[ c ]}) with ((W ∪ K) ∖ {[ c ]}) by (apply set_eq; intros n; destruct (decide (n = c)); set_solver).
      exact (good_cont (set_rq h' s) _ e qe qe' G1 Hqe eq_refl).
    - replace (A ∪ K ∖ {[ c ]}) with ((A ∪ K) ∖ {[ c ]}) by (apply set_eq; intros n; destruct (decide (n = c)); set_solver).
      apply (acct_del s s2 (W ∪ K) (A ∪ K) c e qe qe' info); try done; [set_solver|apply Hwalk].
    - intros n Hn. simpl. specialize (H3 n Hn). rewrite lookup_insert_ne //. congruence.
    - intros d [Hd _]%elem_of_difference. destruct (H4 d Hd) as [? ?]. split; [|done]. simpl.
      destruct (decide (d = e)) as [->|]; [by rewrite lookup_insert_eq|by rewrite lookup_insert_ne; [congruence|]].
    - intros d r Hd Hdr Hde. simpl in Hd. rewrite lookup_insert_ne in Hd; [congruence|]. rewrite elem_of_difference elem_of_singleton.
      destruct (decide (d = c)) as [->|Hdc]; [simplify_eq; tauto|]. rewrite -(H5 d r Hd Hdr Hdc). tauto.
    - intros d r Hd Hdr. simpl in Hd. destruct (decide (d = e)) as [->|]; [|rewrite lookup_insert_ne in Hd; [congruence|]; by apply H6].
      rewrite lookup_insert_eq in Hd. injection Hd as <-. exact (H6 e qe Hqe Hdr).
    - simpl. by rewrite (size_insert_same _ _ qe). }
  eapply wp_mono; [apply (IH s2 (K ∖ {[ c ]}) e qe' M2)|].
  - apply lookup_insert_eq.
  - intros Her. apply elem_of_difference. split; [|set_solver]. apply (m_but _ _ _ _ _ _ H e qe Hqe Her Hec).
    apply (acct_pos s (A ∪ K) c e qe); [apply H|set_solver|done..].
  - rewrite (same_place_above s s2); [apply Hwalk|]. pose proof (above_lt s depth c e (mk_is_Some _ _ Hqe) (m_depth _ _ _ _ _ _ H c q Hq Hr)). lia.
  - intros [] s' (Hw' & ? & ?). split_and!; [by apply (walked_trans _ s2)|done..].
Qed.

(** What [update_this_state] leaves. *)
Record left_cpu (s s1 : kern) (cp : Z) (x' : proc) : Prop := {
  lc_procs : procs s1 = <[cp := x']> (procs s);
  lc_cpus : cpus s1 = cpus s;
  lc_km : km s1 = km s;
  lc_root : root_container s1 = root_container s;
  lc_ipt : invalid_pt s1 = invalid_pt s;
  lc_lock : sched_lock s1 = sched_lock s;
  lc_panic : panic_flag s1 = panic_flag s;
  lc_tims : tims_at (ts s1) (cpus s);
  lc_good : good s1 (waiting s1);
  lc_acct : acct s1 (runs s1);
  lc_size : size (conts s1) = size (conts s) }.

Lemma kset_same s s' : conts s' = conts s → root_container s' = root_container s → kset s' = kset s.
Proof. intros E1 E2. by rewrite /kset E1 E2. Qed.
Lemma same_place_size s s' : same_place s s' → size (conts s') = size (conts s).
Proof. intros H. by rewrite -!(size_dom (D := gset Z)) (same_place_dom s s'). Qed.

(** The current process asks to run again. *)
Lemma stays_runnable s s3 cp x q info' :
  good s (waiting s) → acct s (runs s) → tims_at (ts s3) (cpus s) → procs s !! cp = Some x → state x = RUNNING → idle x = false →
  conts s !! p_container x = Some q →
  procs s3 = <[cp := set_state RUNNABLE x]> (procs s) → conts s3 = conts s → infos s3 !! cp = Some info' →
  cpus s3 = cpus s → km s3 = km s → root_container s3 = root_container s → invalid_pt s3 = invalid_pt s → sched_lock s3 = sched_lock s →
  panic_flag s3 = panic_flag s → (∀ r, pweight (infos s3) r = pweight (infos s) r) → good s3 (waiting s) →
  wp (enqueue (p_container x) cp) (λ _ s1, left_cpu s s1 cp (set_state RUNNABLE x)) s3.
Proof.
  intros Hg Ha Ht Hx Hrun Hid Hq E1 E2 Hi E3 E4 E5 E6 E7 E8 Hw G3. pose proof (kset_same s s3 E2 E5) as EK.
  assert (Hh : home s3 cp = Some (p_container x)) by (by rewrite (home_proc s3 cp (set_state RUNNABLE x)) ?E1 ?lookup_insert_eq //= Hid).
  assert (Hcp : cp ∉ waiting s).
  { intros [(y & Hy & Hqd)%elem_of_pset|(? & ? & _)%elem_of_kset]%elem_of_union; [simplify_eq; by rewrite /queued Hrun in Hqd|].
    destruct (g_procs _ _ Hg cp x Hx) as [? _]. congruence. }
  destruct (enqueue_ok s3 _ cp _ G3 Hh Hcp) as (h' & Henq & G4). eapply wp_of_run; [exact Henq|].
  assert (HA : pset active (<[cp := set_state RUNNABLE x]> (procs s)) = pset active (procs s)).
  { rewrite pset_insert /active /= Hid /=. assert (cp ∈ pset active (procs s)) by (apply elem_of_pset; exists x; by rewrite /active Hrun Hid). set_solver. }
  split; try done; [| |by rewrite /= E2].
  - change (waiting (set_rq h' s3)) with (waiting s3). rewrite /waiting E1 pset_insert /queued /= Hid /= EK -union_assoc_L. exact G4.
  - change (acct s3 (runs s3)). rewrite /runs E1 HA EK. apply (acct_keep s); [done| |done..].
    split_and!; [|by rewrite E2|done]. intros p. rewrite E1. destruct (decide (p = cp)) as [->|]; [by rewrite lookup_insert_eq Hx|by rewrite lookup_insert_ne; [congruence|]].
Qed.

(** The current process leaves the queues for good: its container counts one less. *)
Lemma leaves_queue s s3 fuel cp x st q info' :
  good s (waiting s) → acct s (runs s) → tims_at (ts s3) (cpus s) → procs s !! cp = Some x → state x = RUNNING → idle x = false →
  st ≠ RUNNING → st ≠ RUNNABLE → Z.of_nat (size (procs s)) + Z.of_nat (size (conts s)) ≤ 32768 → (size (conts s) < fuel)%nat →
  conts s !! p_container x = Some q →
  procs s3 = <[cp := set_state st x]> (procs s) → conts s3 = conts s → infos s3 !! cp = Some info' →
  cpus s3 = cpus s → km s3 = km s → root_container s3 = root_container s → invalid_pt s3 = invalid_pt s → sched_lock s3 = sched_lock s →
  panic_flag s3 = panic_flag s → (∀ r, pweight (infos s3) r = pweight (infos s) r) → good s3 (waiting s) →
  let sq := p_container x in
  wp (info ← get_info cp; upd_cont sq (λ y, set_weight_sum (u32 (weight_sum y - weight info)) y);;
      upd_cont sq (λ y, set_nr_running (u32 (nr_running y - 1)) y);; leave_up fuel sq)
    (λ _ s1, left_cpu s s1 cp (set_state st x)) s3.
Proof.
  intros Hg Ha Ht Hx Hrun Hid Hst Hst' Hsz Hf Hq E1 E2 Hi E3 E4 E5 E6 E7 E8 Hw G3 sq.
  apply wp_bind, (wp_get_info _ _ info'); [done|]. apply wp_bind, (wp_upd_cont _ _ _ q); [by rewrite E2|].
  apply wp_bind. eapply wp_upd_cont; [apply lookup_insert_eq|]. simpl conts. rewrite insert_insert_eq.
  set (q' := set_nr_running _ _). set (s4 := set_conts _ _).
  assert (Hh : home s cp = Some sq) by (by rewrite (home_proc _ _ _ Hx) Hid).
  assert (Hcn : conts s !! cp = None) by (by destruct (g_procs _ _ Hg cp x Hx)).
  assert (HcK : cp ∉ kset s) by (intros (? & ? & _)%elem_of_kset; congruence).
  assert (Hact : cp ∈ runs s) by (apply elem_of_union_l, elem_of_pset; exists x; by rewrite /active Hrun Hid).
  assert (S4 : same_place s s4).
  { split_and!; [|intros d; simpl; rewrite E2|done].
    - intros p. simpl. rewrite E1. destruct (decide (p = cp)) as [->|]; [by rewrite lookup_insert_eq Hx|by rewrite lookup_insert_ne; [congruence|]].
    - destruct (decide (d = sq)) as [->|]; [by rewrite lookup_insert_eq Hq|by rewrite lookup_insert_ne; [congruence|]]. }
  assert (Hwi : ∃ i, infos s !! cp = Some i ∧ weight info' = weight i).
  { destruct (g_procs _ _ Hg cp x Hx) as (_ & _ & _ & _ & i & Hi0 & _). exists i. split; [done|]. specialize (Hw cp). by rewrite /pweight Hi Hi0 in Hw. }
  destruct Hwi as (i & Hi0 & Hwi). set (A := pset active (procs s) ∖ {[ cp ]}). destruct (g_tree _ _ Hg) as [depth Hdep].
  assert (M4 : mid depth s4 (pset queued (procs s)) A (kset s) sq).
  { apply (mid_start depth s s4 _ A sq q q'); try done; [| | | |].
    - apply (good_cont s3 _ sq q q' G3); [by rewrite E2|done].
    - replace (A ∪ kset s) with (runs s ∖ {[ cp ]}) by (rewrite /A /runs; apply set_eq; intros n; destruct (decide (n = cp)); set_solver).
      apply (acct_del s s4 (waiting s) (runs s) cp sq q q' i); try done; simpl; by rewrite ?E2 ?Hwi.
    - intros n Hn. assert (n ∈ pset queued (procs s) ∨ n ∈ pset active (procs s)) as [Hin|Hin] by set_solver; exact (pset_no_cont _ _ _ _ Hg Hin).
    - simpl. by rewrite E2.
    - simpl. by rewrite E1 (size_insert_same _ _ x). }
  eapply wp_mono; [apply (leave_up_ok depth _ A _ s4 (kset s) sq q' M4)|].
  - apply lookup_insert_eq.
  - intros Hr. apply elem_of_kset. exists q. split_and!; [done|simpl in Hr; congruence|]. by apply (acct_pos s (runs s) cp sq).
  - pose proof (above_size s4 depth sq) as Hab. rewrite (same_place_size s s4 S4) in Hab. lia.
  - intros [] s5 (Hw5 & G5 & A5). pose proof (w_rest _ _ Hw5) as Hrest. injection Hrest as R1 R2 R3 R4 R5 R6 R7 R8. simpl in *.
    assert (HW : pset queued (<[cp := set_state st x]> (procs s)) = pset queued (procs s)).
    { rewrite pset_insert /queued /= bool_decide_eq_false_2 //=. assert (cp ∉ pset queued (procs s)); [|set_solver].
      intros (y & Hy & Hqd)%elem_of_pset. simplify_eq. by rewrite /queued Hrun in Hqd. }
    assert (HA : pset active (<[cp := set_state st x]> (procs s)) = A) by (rewrite pset_insert /active /=; by destruct st).
    split; try congruence; try done.

    + by rewrite /waiting R1 E1 HW.
    + by rewrite /runs R1 E1 HA.
    + rewrite (same_place_size s4 s5); [apply Hw5|]. by apply same_place_size.
Qed.

Lemma update_this_state_ok s i c x st :
  good s (waiting s) → acct s (runs s) → tims_at (ts s) (cpus s) → Z.of_nat (size (procs s)) + Z.of_nat (size (conts s)) ≤ 32768 →
  cpus s !! i = Some c → procs s !! cur_proc c = Some x → state x = RUNNING →
  st ≠ RUNNING → (idle x = true → st = RUNNABLE) →
  wp (update_this_state i st) (λ _ s1, left_cpu s s1 (cur_proc c) (set_state st x)) s.
Proof.
  intros Hg Ha Ht Hsz Hc Hx Hrun Hst Hidle. set (cp := cur_proc c) in *.
  destruct (g_procs _ _ Hg cp x Hx) as (Hcn & _ & _ & Hpc & info & Hinfo & Hiok).
  assert (Hnq : cp ∉ waiting s).
  { intros [(y & Hy & Hqd)%elem_of_pset|(? & ? & _)%elem_of_kset]%elem_of_union; [simplify_eq; by rewrite /queued Hrun in Hqd|congruence]. }
  apply wp_bind, (wp_thisproc _ _ _ _ Hc). fold cp. apply wp_bind, (wp_upd_proc _ _ _ x); [done|].
  set (s1 := set_procs _ s). assert (G1 : good s1 (waiting s)) by (by apply (good_proc s _ cp x)).
  assert (S1 : same_place s s1) by (by apply (same_place_proc _ _ x)).
  apply wp_bind, (wp_get_proc _ _ (set_state st x)); [apply lookup_insert_eq|]. simpl idle. destruct (idle x) eqn:Hid.
  - specialize (Hidle eq_refl). subst st. apply (wp_upd_info _ _ _ info); [done|]. set (s2 := set_infos _ s1).
    assert (Hq1 : pset queued (<[cp := set_state RUNNABLE x]> (procs s)) = pset queued (procs s)).
    { rewrite pset_insert /queued /= Hid /=. set_solver. }
    assert (Ha1 : pset active (<[cp := set_state RUNNABLE x]> (procs s)) = pset active (procs s)).
    { rewrite pset_insert /active /= Hid /=. assert (cp ∉ pset active (procs s)); [|set_solver].
      intros (y & Hy & Hact)%elem_of_pset. simplify_eq. by rewrite /active Hid andb_false_r in Hact. }
    split; try done.
    + replace (waiting s2) with (waiting s); [by apply (good_info s1 _ cp info)|]. rewrite /waiting. by rewrite /= Hq1.
    + replace (runs s2) with (runs s); [|by rewrite /runs /= Ha1]. apply (acct_keep s); [done..| |done]. intros r. by apply (pweight_insert _ _ info).
  - destruct (Hpc eq_refl) as [q Hq].
    apply wp_bind. eapply wp_zoom; [apply timestamp_run|]. set (s2 := lset _ _ s1).
    assert (G2 : good s2 (waiting s)) by (by apply good_ts).
    apply wp_bind, (wp_get_info _ _ info); [done|]. destruct Hiok as [Hic Hiw].
    apply wp_bind. rewrite /udiv decide_False; [lia|]. apply wp_ret.
    apply wp_bind, (wp_upd_info _ _ _ info); [done|]. set (d := u64 _ / weight info). set (info' := set_vruntime _ info). set (s3 := set_infos _ s2).
    assert (G3 : good s3 (waiting s)) by (by apply (good_info s2 _ cp info)).
    assert (Hw3 : ∀ r, pweight (infos s3) r = pweight (infos s) r) by (intros r; by apply (pweight_insert _ _ info)).
    destruct (g_tree _ _ Hg) as [depth Hdep]. apply wp_bind, wp_gets, wp_bind. simpl p_container.
    eapply wp_mono; [apply (charge_up_ok depth d (pset queued (procs s)) (pset active (procs s)) _ s3 _ q)|].
    + exact G3.
    + apply (acct_keep s); done.
    + done.
    + done.
    + intros _. apply (acct_pos s (runs s) cp (p_container x)); [done| |by rewrite (home_proc _ _ _ Hx) Hid|done].
      apply elem_of_union_l, elem_of_pset. exists x. by rewrite /active Hrun Hid.
    + pose proof (above_size s3 depth (p_container x)). simpl in *. lia.
    + intros [] s4 (Hw4 & Hc4 & G4). pose proof (w_rest _ _ Hw4) as Hrest. injection Hrest as R1 R2 R3 R4 R5 R6 R7 R8. simpl in R1, R2, R3, R4, R5, R6, R7, R8.
      assert (EK : kset s4 = kset s) by (by apply kset_same). rewrite EK in G4.
      assert (Hi4 : infos s4 !! cp = Some info').
      { rewrite (w_info _ _ Hw4 cp); [by rewrite /= lookup_insert_eq|done|]. apply lookup_insert_eq. }
      assert (Hwt : ∀ r, pweight (infos s4) r = pweight (infos s) r) by (intros r; by rewrite (w_weight _ _ Hw4)).
      assert (Ht4 : tims_at (ts s4) (cpus s)) by (rewrite R3; by apply tims_read).
      case_bool_decide as Hst'.
      * subst st. by apply (stays_runnable s s4 cp x q info').
      * apply (leaves_queue s s4 _ cp x st q info'); try done.
Qed.

(** ** Choosing the next process *)

(** [n] goes before everything else that waits in its queue, and so does each of the
    containers it is in. *)
Definition goes_first (s : kern) (X : gset Z) (n : Z) : Prop :=
  ∀ m c, rtc (λ a b, home s a = Some b) n m → home s m = Some c →
    ∀ y, y ∈ within s c X → y = m ∨ cfs_cmp (infos s) m y = true.
(** A container whose turn it is has an empty queue. *)
Definition turn_of_empty (s : kern) (X : gset Z) : Prop :=
  ∃ d, is_Some (conts s !! d) ∧ within s d X = ∅ ∧ goes_first s X d.

Lemma goes_first_in s X n c :
  home s n = Some c → goes_first s X c → (∀ y, y ∈ within s c X → y = n ∨ cfs_cmp (infos s) n y = true) → goes_first s X n.
Proof.
  intros Hh Hc Hn m e Hm He. inversion Hm as [|? b ? Hb Hrest]; subst; [|simplify_eq; by apply (Hc m)]. simplify_eq. done.
Qed.
Lemma goes_first_root s X Y : good s Y → goes_first s X (root_container s).
Proof.
  intros Hg m e Hm He. inversion Hm as [|? b ? Hb Hrest]; subst; pose proof (home_root _ _ Hg); congruence.
Qed.
Lemma goes_first_ext s s' X X' n :
  goes_first s X n → (∀ m, home s' m = home s m) → (∀ a b, cfs_cmp (infos s') a b = cfs_cmp (infos s) a b) → X' ⊆ X → goes_first s' X' n.
Proof.
  intros H Hh Hc HX m e Hm He y [Hy Hye]%elem_of_within. rewrite Hc. rewrite Hh in He. rewrite Hh in Hye.
  apply (H m e); [|done|apply elem_of_within; set_solver]. clear -Hm Hh.
  induction Hm as [|a b c Hab _ IH]; [constructor|]. econstructor; [|exact IH]. by rewrite -Hh.
Qed.

Lemma recur_get_proc_ok depth s X : good s X →
  (∀ d q, conts s !! d = Some q → d ≠ root_container s → (depth (c_parent q) < depth d)%nat) → ∀ fuel c,
  is_Some (conts s !! c) → goes_first s X c → (size (below_of s depth c) < fuel)%nat →
  wp (recur_get_proc fuel c) (λ n s', (n = 0 ∧ s' = s ∧ turn_of_empty s X) ∨
    ∃ h' x, s' = set_rq h' s ∧ procs s !! n = Some x ∧ idle x = false ∧ n ∈ X ∧ n ≠ 0 ∧ good s' (X ∖ {[ n ]}) ∧ goes_first s X n) s.
Proof.
  intros H Hdep. induction fuel as [|fuel IH]; intros c Hc Hfirst Hf; [lia|]. cbn [recur_get_proc].
  destruct (first_ok s X c H Hc) as (n & Hrun & Hn). apply wp_bind. eapply wp_of_run; [exact Hrun|]. destruct Hn as [[He ->]|(Hin & Hn0 & Hmin)].
  { apply wp_ret. left. split_and!; [done..|]. by exists c. }
  rewrite decide_False //. pose proof Hin as [HinX Hh]%elem_of_within. assert (Hn : goes_first s X n) by (by apply (goes_first_in _ _ _ c)).
  destruct (procs s !! n) as [x|] eqn:Hx.
  - destruct (g_procs _ _ H n x Hx) as (_ & _ & _ & _ & j & Hj & Hjc & _). apply wp_bind, (wp_get_info _ _ _ _ Hj). rewrite Hjc.
    destruct (dequeue_ok s X n c H Hh HinX) as (h' & Hdq & Hg'). apply wp_bind. eapply wp_of_run; [exact Hdq|]. apply wp_ret. right.
    exists h', x. split_and!; try done. rewrite (home_proc _ _ _ Hx) in Hh. by destruct (idle x).
  - rewrite /home Hx in Hh. destruct (conts s !! n) as [q|] eqn:Hq; [|done]. case_decide as Hr; [done|]. injection Hh as <-.
    destruct (g_conts _ _ H n q Hq Hr) as (_ & _ & _ & j & Hj & Hjc & _). apply wp_bind, (wp_get_info _ _ _ _ Hj). rewrite Hjc.
    apply IH; [by rewrite Hq|done|]. pose proof (below_lt s depth (c_parent q) n (mk_is_Some _ _ Hq) (Hdep n q Hq Hr)). lia.
Qed.

Lemma pick_next_ok s i c X :
  good s X → cpus s !! i = Some c →
  wp (pick_next i) (λ n s', ∃ h', s' = set_rq h' s ∧
    ((n ∈ X ∧ (∃ x, procs s !! n = Some x ∧ idle x = false) ∧ good s' (X ∖ {[ n ]}) ∧ goes_first s X n) ∨
     (n = idle_proc c ∧ h' = rq s ∧ (turn_of_empty s X ∨ panic_flag s = true)))) s.
Proof.
  intros H Hc. assert (Hself : s = set_rq (rq s) s) by (by destruct s).
  apply wp_bind, (wp_get_cpu _ _ _ _ Hc), wp_bind, wp_gets. destruct (panic_flag s) eqn:Hp.
  { apply wp_ret. exists (rq s). split; [done|]. by right; auto. }
  apply wp_bind, wp_gets, wp_bind, wp_gets, wp_bind. destruct (g_tree _ _ H) as [depth Hdep].
  eapply wp_mono; [apply (recur_get_proc_ok depth s X H Hdep _ (root_container s) (g_root _ _ H) (goes_first_root s X X H))|].
  { pose proof (below_size s depth (root_container s)). lia. }
  intros n s' [(-> & -> & He)|(h' & x & -> & Hx & Hid & Hin & Hn0 & Hg' & Hf)].
  - apply wp_ret. exists (rq s). split; [done|]. right. auto.
  - rewrite decide_True //. apply wp_ret. exists h'. split; [done|]. left. eauto 10.
Qed.

(** ** Rearming the timer of the CPU *)

(** The timer of CPU [i] is pending nowhere; those of the other CPUs are as their
    [data] says. *)
Definition tims_off (t : tstate) (l : list cpu) (i : nat) (pt : Z) (armed : nat → gset Z) : Prop :=
  timers_ok t armed ∧ (∀ j, (j < NCPU)%nat → pt ∉ armed j) ∧ is_Some (timers t !! pt) ∧
  ∀ j d, l !! j = Some d → j ≠ i → proc_timer d ≠ pt ∧ ∃ x, timers t !! proc_timer d = Some x ∧
    if decide (data x = 0) then ∀ k, (k < NCPU)%nat → proc_timer d ∉ armed k else proc_timer d ∈ armed j.

Lemma tims_off_upd t l i pt armed f x :
  tims_off t l i pt armed → timers t !! pt = Some x → _key (f x) = _key x →
  ∃ t', upd_timer pt f t = Ret () t' ∧ tims_off t' l i pt armed ∧ timers t' !! pt = Some (f x).
Proof.
  intros (H1 & H2 & H3 & H4) Hx Hk. exists (set_timers (<[pt := f x]> (timers t)) t). split_and!.
  - rewrite /upd_timer /get_timer. run_simpl. by rewrite Hx.
  - split_and!; [|done|by rewrite /= lookup_insert_eq|].
    + apply timers_ok_upd; [done..|]. rewrite Hk. by apply (tm_all _ _ H1 pt x).
    + intros j d Hd Hne. destruct (H4 j d Hd Hne) as (Hp & y & Hy & ?). split; [done|]. exists y. simpl. by rewrite lookup_insert_ne; [congruence|].
  - apply lookup_insert_eq.
Qed.

Lemma tims_cancel t l i c x :
  tims_at t l → (length l ≤ NCPU)%nat → l !! i = Some c → timers t !! proc_timer c = Some x → data x ≠ 0 →
  ∃ t' armed, cancel_cpu_timer i (proc_timer c) t = Ret () t' ∧ tims_off t' l i (proc_timer c) armed ∧ timers t' = timers t.
Proof.
  intros (armed & H1 & H2 & H3) Hlen Hc Hx Hd. assert (Hi : (i < NCPU)%nat) by (apply lookup_lt_Some in Hc; lia).
  assert (Harm : proc_timer c ∈ armed i) by (destruct (H2 i c Hc) as (y & Hy & Harm); simplify_eq; by rewrite decide_False in Harm).
  assert (Hinj : ∀ j d, l !! j = Some d → j ≠ i → proc_timer d ≠ proc_timer c) by (intros j d Hd' Hne E; apply Hne; by apply (H3 j i d c)).
  destruct (cancel_cpu_timer_ok t armed i (proc_timer c) H1 Hi Harm) as (t1 & Hrun & Hok & Htm).
  exists t1, (disarm i (proc_timer c) armed). split_and!; [done| |done]. split_and!; [done| |by rewrite Htm Hx|].
  - intros j Hj. rewrite /disarm. case_decide; [set_solver|]. intros Hin. by apply (tm_disj _ _ H1 j i (proc_timer c)) in Hin.
  - intros j d Hd' Hne. split; [by apply (Hinj j)|]. destruct (H2 j d Hd') as (z & Hz & Harm'). exists z. rewrite Htm. split; [done|].
    pose proof (Hinj j d Hd' Hne). case_decide.
    + intros k Hk. rewrite /disarm. case_decide; [intros [Hin _]%elem_of_difference; exact (Harm' k Hk Hin)|by apply Harm'].
    + by rewrite /disarm decide_False.
Qed.

Lemma tims_disarm t l i c x :
  tims_at t l → (length l ≤ NCPU)%nat → l !! i = Some c → timers t !! proc_timer c = Some x →
  ∃ t' armed x', (if decide (data x ≠ 0) then cancel_cpu_timer i (proc_timer c);; upd_timer (proc_timer c) (set_data 0) else mret ()) t = Ret () t' ∧
    tims_off t' l i (proc_timer c) armed ∧ timers t' !! proc_timer c = Some x'.
Proof.
  intros Ht Hlen Hc Hx. destruct (decide (data x = 0)) as [Hd|Hd].
  - destruct Ht as (armed & H1 & H2 & H3). exists t, armed, x. rewrite decide_False; [naive_solver|]. split_and!; [done| |done].
    split_and!; [done| |by rewrite Hx|].
    + destruct (H2 i c Hc) as (y & Hy & Harm). simplify_eq. by rewrite decide_True in Harm.
    + intros j d Hd' Hne. split; [|by apply H2]. intros E. apply Hne. by apply (H3 j i d c).
  - rewrite decide_True //. destruct (tims_cancel t l i c x Ht Hlen Hc Hx Hd) as (t1 & armed & Hrun & Hoff & Htm).
    destruct (tims_off_upd t1 l i (proc_timer c) _ (set_data 0) x Hoff) as (t2 & Hrun2 & Hoff2 & Hx2); [by rewrite Htm|done|].
    exists t2, armed, (set_data 0 x). split; [|done]. by rewrite (bind_run _ _ _ _ _ Hrun).
Qed.

Lemma tims_rearm t l i c armed x :
  tims_off t l i (proc_timer c) armed → (length l ≤ NCPU)%nat → l !! i = Some c → timers t !! proc_timer c = Some x →
  0 ≤ elapse x ≤ MAX_ELAPSE → (∀ i j c d, l !! i = Some c → l !! j = Some d → proc_timer c = proc_timer d → i = j) →
  ∃ t', (set_cpu_timer i (proc_timer c);; upd_timer (proc_timer c) (set_data 1)) t = Ret () t' ∧ tims_at t' l.
Proof.
  intros (H1 & H2 & H3 & H4) Hlen Hc Hx He Hinj. assert (Hi : (i < NCPU)%nat) by (apply lookup_lt_Some in Hc; lia).
  destruct (set_cpu_timer_ok t armed i (proc_timer c) x H1 Hi Hx He H2) as (t1 & k & Hrun & Hok & Htm).
  set (y := mkTimer false (elapse x) k (handler x) (data x)) in *. assert (Hy : timers t1 !! proc_timer c = Some y) by (by rewrite Htm lookup_insert_eq).
  exists (set_timers (<[proc_timer c := set_data 1 y]> (timers t1)) t1). split.
  { rewrite (bind_run _ _ _ _ _ Hrun). rewrite /upd_timer /get_timer. run_simpl. by rewrite Hy. }
  exists (arm i (proc_timer c) armed). split_and!; [by apply timers_ok_data|..|done].
  - intros j d Hd. destruct (decide (j = i)) as [->|Hne].
    + assert (d = c) as -> by congruence. exists (set_data 1 y). simpl. rewrite lookup_insert_eq. split; [done|].
      rewrite /arm decide_True //. set_solver.
    + destruct (H4 j d Hd Hne) as (Hp & z & Hz & Harm). exists z. simpl. rewrite lookup_insert_ne; [congruence|].
      rewrite Htm lookup_insert_ne; [congruence|]. split; [done|]. case_decide.
      * intros k' Hk'. rewrite /arm. case_decide; [intros [?%elem_of_singleton|Hin]%elem_of_union; [done|]; exact (Harm k' Hk' Hin)|by apply Harm].
      * by rewrite /arm decide_False.
Qed.

Lemma lookup_cpu (l : list cpu) i c c' j d :
  l !! i = Some c → <[i := c']> l !! j = Some d → (j = i ∧ d = c') ∨ (j ≠ i ∧ l !! j = Some d).
Proof.
  intros Hc Hd. destruct (decide (j = i)) as [->|Hne].
  - rewrite list_lookup_insert_eq in Hd; [by apply lookup_lt_Some in Hc|]. injection Hd as <-. by left.
  - rewrite list_lookup_insert_ne in Hd; [congruence|]. by right.
Qed.
Lemma tims_at_cpu t l i c c' : l !! i = Some c → proc_timer c' = proc_timer c → tims_at t l → tims_at t (<[i := c']> l).
Proof.
  intros Hc Hp (armed & H1 & H2 & H3).
  assert (Hl : ∀ j d, <[i := c']> l !! j = Some d → ∃ d0, l !! j = Some d0 ∧ proc_timer d = proc_timer d0).
  { intros j d [[-> ->]|[_ ?]]%(lookup_cpu _ _ _ _ _ _ Hc); eauto. }
  exists armed. split_and!; [done| |].
  - intros j d (d0 & Hd0 & ->)%Hl. by apply H2.
  - intros j k d e (d0 & Hd0 & ->)%Hl (e0 & He0 & ->)%Hl. by apply H3.
Qed.

(** The time slice is between one and the number of milliseconds of the latency. *)
Lemma time_slice_ok s X Y p c i q :
  good s X → acct s Y → Z.of_nat (size (procs s)) + Z.of_nat (size (conts s)) ≤ 32768 → p ∈ Y → home s p = Some c → infos s !! p = Some i →
  conts s !! c = Some q →
  let lat := Z.max sched_latency (sched_min_granularity * nr_running q) in
  weight_sum q ≠ 0 ∧ 0 ≤ i32 (Z.max sched_min_granularity (u64 (lat * weight i) / weight_sum q)) ≤ MAX_ELAPSE.
Proof.
  intros Hg Ha Hsz Hp Hh Hi Hq lat. destruct (Ha c q Hq) as [Hnr Hws]. pose proof (within_wsum s X c Y Hg) as Hb.
  pose proof (within_size s c Y) as Hs. assert (Hin : p ∈ within s c Y) by (by apply elem_of_within). pose proof (wsum_del (infos s) p _ Hin) as Hd.
  pose proof (pweight_ok s X p c Hg Hh) as Hw. assert (Hpi : pweight (infos s) p = weight i) by (by rewrite /pweight Hi).
  pose proof (within_wsum s X c (Y ∖ {[ p ]}) Hg) as Hb'. rewrite within_del in Hb'.
  assert (Hwi : weight i ≤ weight_sum q) by lia. assert (HM : MAX_ELAPSE = 32768) by done.
  assert (Hlat : 6 ≤ lat ≤ 32768) by (rewrite /lat /sched_latency /sched_min_granularity; lia).
  split; [lia|]. rewrite /u64 wrap_small; [nia|].
  assert (0 ≤ lat * weight i / weight_sum q ≤ 32768).
  { split; [apply Z.div_pos; nia|]. apply Z.div_le_upper_bound; nia. }
  rewrite /sched_min_granularity i32_small; lia.
Qed.

Lemma update_this_proc_ok s X Y i c p y :
  good s X → acct s Y → Z.of_nat (size (procs s)) + Z.of_nat (size (conts s)) ≤ 32768 → tims_at (ts s) (cpus s) → (length (cpus s) ≤ NCPU)%nat →
  cpus s !! i = Some c → procs s !! p = Some y → (idle y = false → p ∈ Y) →
  wp (update_this_proc i p) (λ _ s', ∃ t', s' = set_ts t' (set_cpus (<[i := set_cur_proc p c]> (cpus s)) s) ∧
    tims_at t' (<[i := set_cur_proc p c]> (cpus s))) s.
Proof.
  intros Hg Ha Hsz Ht Hlen Hc Hy Hact. set (l' := <[i := set_cur_proc p c]> (cpus s)).
  assert (Hc' : l' !! i = Some (set_cur_proc p c)) by (apply list_lookup_insert_eq; by apply lookup_lt_Some in Hc).
  assert (Hlen' : (length l' ≤ NCPU)%nat) by (by rewrite length_insert).
  pose proof (tims_at_cpu _ _ _ _ (set_cur_proc p c) Hc eq_refl Ht) as Ht'. fold l' in Ht'. pose proof Ht' as (_ & _ & _ & Hinj).
  assert (∃ x, timers (ts s) !! proc_timer c = Some x) as [x Hx].
  { destruct Ht as (armed & _ & H2 & _). destruct (H2 i c Hc) as (x & ? & _). by exists x. }
  apply wp_bind, (wp_upd_cpu _ _ _ _ _ Hc). fold l'. set (s1 := set_cpus l' s).
  apply wp_bind, (wp_get_cpu _ _ (set_cur_proc p c)); [done|]. simpl proc_timer.
  apply wp_bind. eapply wp_zoom; [rewrite /get_timer; run_simpl; by rewrite Hx|]. replace (lset _ _ s1) with s1 by (by destruct s).
  destruct (tims_disarm (ts s) l' i _ x Ht' Hlen' Hc' Hx) as (t1 & armed & x1 & Hrun1 & Hoff1 & Hx1). simpl proc_timer in *.
  assert (Hw1 : wp (if decide (data x ≠ 0) then on_ts (cancel_cpu_timer i (proc_timer c));; on_ts (upd_timer (proc_timer c) (set_data 0)) else mret ())
    (λ _ s', s' = set_ts t1 s1) s1).
  { case_decide; [|injection Hrun1 as <-; apply wp_ret; by destruct s]. apply bind_ret_inv in Hrun1 as ([] & t0 & H1 & H2).
    apply wp_bind. eapply wp_zoom; [exact H1|]. eapply wp_zoom; [exact H2|]. done. }
  apply wp_bind. eapply wp_mono; [exact Hw1|]. intros ? ? ->. apply wp_bind, (wp_get_proc _ _ y); [done|].
  assert (Hel : ∃ e, 0 ≤ e ≤ MAX_ELAPSE ∧ wp (if idle y then on_ts (upd_timer (proc_timer c) (set_elapse (i32 sched_min_granularity)))
     else (let sq := p_container y in lat ← get_sched_latency sq; info ← get_info p; q ← get_cont sq;
       e ← udiv (u64 (lat * weight info)) (weight_sum q);
       on_ts (upd_timer (proc_timer c) (set_elapse (i32 (Z.max sched_min_granularity e))))))
    (λ _ s', ∃ t2, s' = set_ts t2 s1 ∧ tims_off t2 l' i (proc_timer c) armed ∧ timers t2 !! proc_timer c = Some (set_elapse e x1)) (set_ts t1 s1)).
  { assert (Hup : ∀ e, wp (on_ts (upd_timer (proc_timer c) (set_elapse e))) (λ _ s', ∃ t2, s' = set_ts t2 s1 ∧
      tims_off t2 l' i (proc_timer c) armed ∧ timers t2 !! proc_timer c = Some (set_elapse e x1)) (set_ts t1 s1)).
    { intros e. destruct (tims_off_upd t1 l' i _ armed (set_elapse e) x1 Hoff1 Hx1 eq_refl) as (t2 & Hr2 & Ho2 & Hx2).
      eapply wp_zoom; [exact Hr2|]. by exists t2. }
    destruct (idle y) eqn:Hid; [eexists; split; [|apply Hup]; done|].
    destruct (g_procs _ _ Hg p y Hy) as (_ & _ & _ & Hpc & info & Hinfo & _). destruct (Hpc Hid) as [q Hq].
    assert (Hh : home s p = Some (p_container y)) by (by rewrite (home_proc _ _ _ Hy) Hid).
    destruct (time_slice_ok s X Y p _ info q Hg Ha Hsz (Hact eq_refl) Hh Hinfo Hq) as [Hne Hsl].
    eexists. split; [exact Hsl|]. cbv zeta.
    apply wp_bind, wp_bind, (wp_get_cont _ _ q); [done|]. apply wp_ret, wp_bind, (wp_get_info _ _ info); [done|].
    apply wp_bind, (wp_get_cont _ _ q); [done|]. apply wp_bind. rewrite /udiv decide_False //. apply wp_ret, Hup. }
  destruct Hel as (e & He & Hwe). apply wp_bind. eapply wp_mono; [exact Hwe|]. intros ? ? (t2 & -> & Hoff2 & Hx2).
  destruct (tims_off_upd t2 l' i _ armed (set_handler ProcTimer) _ Hoff2 Hx2 eq_refl) as (t3 & Hr3 & Hoff3 & Hx3).
  apply wp_bind. eapply wp_zoom; [exact Hr3|].
  destruct (tims_rearm t3 l' i (set_cur_proc p c) armed _ Hoff3 Hlen' Hc' Hx3 He Hinj) as (t4 & Hr4 & Ht4).
  apply bind_ret_inv in Hr4 as ([] & t5 & H5 & H6). apply wp_bind. eapply wp_zoom; [exact H5|]. eapply wp_zoom; [exact H6|].
  by exists t4.
Qed.

(** ** The switch *)

(** The current process of CPU [i] goes to state [st], and [n] runs there. *)
Lemma cpu_at_switch ps l i c x st n y y' c' :
  cpu_at ps l → l !! i = Some c → ps !! cur_proc c = Some x → st ≠ RUNNING → (idle x = true → st = RUNNABLE) →
  <[cur_proc c := set_state st x]> ps !! n = Some y → state y = RUNNABLE → (idle y = true → n = idle_proc c) →
  state y' = RUNNING → idle y' = idle y → cur_proc c' = n → idle_proc c' = idle_proc c →
  cpu_at (<[n := y']> (<[cur_proc c := set_state st x]> ps)) (<[i := c']> l).
Proof.
  intros [H1 H2 H3 H4 H5 H6] Hc Hx Hst Hix Hy Hys Hiy Hs' Hi' Hcur Hidc. set (ps1 := <[cur_proc c := set_state st x]> ps) in *.
  assert (Hxi : idle x = true → cur_proc c = idle_proc c) by (destruct (H2 i c Hc) as (? & ? & _ & ?); naive_solver).
  assert (Hother : ∀ j d, l !! j = Some d → j ≠ i → cur_proc d ≠ cur_proc c ∧ cur_proc d ≠ n).
  { intros j d Hd Hne. assert (Hdc : cur_proc d ≠ cur_proc c) by (intros E; by apply Hne, (H4 j i d c)). split; [done|].
    intros E. destruct (H2 j d Hd) as (z & Hz & Hzs & _). rewrite /ps1 -E lookup_insert_ne in Hy; [congruence|]. congruence. }
  assert (Hidle1 : ∀ j d, l !! j = Some d → ∃ z, ps1 !! idle_proc d = Some z ∧ idle z = true ∧
    (cur_proc d ≠ idle_proc d ∨ j = i → state z = RUNNABLE)).
  { intros j d Hd. destruct (H3 j d Hd) as (z & Hz & Hzi & Hzs). rewrite /ps1. destruct (decide (idle_proc d = cur_proc c)) as [E|E].
    - assert (z = x) as -> by congruence. exists (set_state st x). rewrite -E lookup_insert_eq. split_and!; [done..|].
      intros _. simpl. by apply Hix.
    - exists z. rewrite lookup_insert_ne; [congruence|]. split_and!; [done..|]. intros [?| ->]; [auto|]. apply Hzs. congruence. }
  split.
  - by rewrite length_insert.
  - intros j d [[-> ->]|[Hne Hd]]%(lookup_cpu _ _ _ _ _ _ Hc).
    + exists y'. rewrite Hcur lookup_insert_eq Hi' Hidc. done.
    + destruct (Hother j d Hd Hne) as [Ha Hb]. destruct (H2 j d Hd) as (z & Hz & ?). exists z. rewrite /ps1 !lookup_insert_ne; [congruence..|done].
  - intros j d [[-> ->]|[Hne Hd]]%(lookup_cpu _ _ _ _ _ _ Hc).
    + rewrite Hcur Hidc. destruct (Hidle1 i c Hc) as (z & Hz & Hzi & Hzs). destruct (decide (n = idle_proc c)) as [E|E].
      * exists y'. rewrite -E lookup_insert_eq. split_and!; [done| |done]. rewrite Hi'. congruence.
      * exists z. rewrite lookup_insert_ne; [done|]. split_and!; auto.
    + destruct (Hidle1 j d Hd) as (z & Hz & Hzi & Hzs). exists z. rewrite lookup_insert_ne; [|split_and!; auto].
      intros E. apply Hne, (H5 j i d c); [done..|]. rewrite -E. apply Hiy. congruence.
  - intros j k d e [[-> ->]|[Hne Hd]]%(lookup_cpu _ _ _ _ _ _ Hc) [[-> ->]|[Hne' He]]%(lookup_cpu _ _ _ _ _ _ Hc); [done| | |by apply H4].
    + rewrite Hcur. intros E. destruct (Hother k e He Hne'); congruence.
    + rewrite Hcur. intros E. destruct (Hother j d Hd Hne); congruence.
  - intros j k d e [[-> ->]|[Hne Hd]]%(lookup_cpu _ _ _ _ _ _ Hc) [[-> ->]|[Hne' He]]%(lookup_cpu _ _ _ _ _ _ Hc); [done| | |by apply H5];
      rewrite Hidc; by apply H5.
  - intros p z Hz Hzs. destruct (decide (p = n)) as [->|Hpn].
    + exists i, c'. split; [|done]. apply list_lookup_insert_eq. by apply lookup_lt_Some in Hc.
    + rewrite lookup_insert_ne in Hz; [congruence|]. rewrite /ps1 in Hz. destruct (decide (p = cur_proc c)) as [->|Hpc].
      { rewrite lookup_insert_eq in Hz. injection Hz as <-. done. }
      rewrite lookup_insert_ne in Hz; [congruence|]. destruct (H6 p z Hz Hzs) as (j & d & Hd & Hdp). exists j, d. split; [|done].
      rewrite list_lookup_insert_ne; [|done]. intros ->. congruence.
Qed.

(** The table of process [n] is attached on CPU [i]. *)
Lemma vm_at_attach w ipt ps l i c n y y' v c' :
  vm_at w ipt ps l → l !! i = Some c → ps !! n = Some y →
  p_pgdir y' = (if decide (pt (p_pgdir y) = 0) then p_pgdir y else mkPgdir (pt (p_pgdir y)) false 1) →
  c_ttbr0 c' = K2P (if decide (pt (p_pgdir y) = 0) then ipt else pt (p_pgdir y)) →
  vm_at (<[P2K (c_ttbr0 c) + 32 := v]> w) ipt (<[n := y']> ps) (<[i := c']> l).
Proof.
  intros (H1 & H2 & H3) Hc Hy Hg Ht. pose proof (H2 i c Hc) as H0. destruct (H3 n y Hy) as [Hlk Hatt].
  assert (Hst : ∀ t, att w t → att (<[P2K (c_ttbr0 c) + 32 := v]> w) t) by (intros t; by apply att_store).
  split_and!; [by apply Hst| |].
  - intros j d [[-> ->]|[Hne Hd]]%(lookup_cpu _ _ _ _ _ _ Hc); [|by apply Hst, (H2 j)]. rewrite Ht.
    case_decide as E; [rewrite P2K_K2P; [apply H1|by apply Hst]|].
    destruct Hatt as [?|Hatt]; [done|]. rewrite P2K_K2P; [apply Hatt|by apply Hst].
  - intros p z. destruct (decide (p = n)) as [->|Hne].
    + rewrite lookup_insert_eq. intros [= <-]. rewrite Hg. case_decide as E; [auto|]. simpl. split; [done|]. right. apply Hst. naive_solver.
    + rewrite lookup_insert_ne; [congruence|]. intros Hz. destruct (H3 p z Hz) as [? [?|?]]; auto.
Qed.

(** The process the CPU goes on with, as [pick_next] leaves it. *)
Record chosen (s1 : kern) (c : cpu) (n : Z) (h' : rbheap) (y : proc) : Prop := {
  ch_proc : procs s1 !! n = Some y;
  ch_state : state y = RUNNABLE;
  ch_idle : idle y = true → n = idle_proc c;
  ch_good : good (set_rq h' s1) (waiting s1 ∖ {[ n ]});
  ch_least : (idle y = false ∧ goes_first s1 (waiting s1) n) ∨
    (n = idle_proc c ∧ idle y = true ∧ (turn_of_empty s1 (waiting s1) ∨ panic_flag s1 = true)) }.

Lemma pick_chosen s s1 i c x st :
  cpu_at (procs s) (cpus s) → cpus s !! i = Some c → procs s !! cur_proc c = Some x → (idle x = true → st = RUNNABLE) →
  left_cpu s s1 (cur_proc c) (set_state st x) →
  wp (pick_next i) (λ n s', ∃ h' y, s' = set_rq h' s1 ∧ chosen s1 c n h' y) s1.
Proof.
  intros Hcpu Hc Hx Hix [Hps Hcs _ _ _ _ _ _ Hg _ _]. assert (Hc1 : cpus s1 !! i = Some c) by (by rewrite Hcs).
  eapply wp_mono; [exact (pick_next_ok s1 i c _ Hg Hc1)|]. intros n s2 (h' & -> & Hn). exists h'.
  destruct Hn as [(Hin & (y & Hy & Hyi) & Hg' & Hf)|(-> & -> & Hempty)].
  - assert (Hst : state y = RUNNABLE).
    { apply elem_of_union in Hin as [(z & Hz & [Hq1%bool_decide_eq_true _]%andb_true_iff)%elem_of_pset|(q & Hq & _)%elem_of_kset]; [by simplify_eq|].
      destruct (g_procs _ _ Hg n y Hy) as [? _]. congruence. }
    exists y. split; [done|]. split; [done..|congruence|done|by left].
  - assert (∃ y, procs s1 !! idle_proc c = Some y ∧ idle y = true ∧ state y = RUNNABLE) as (y & Hy & Hyi & Hys).
    { rewrite Hps. destruct (co_idle _ _ Hcpu i c Hc) as (z & Hz & Hzi & Hzs). destruct (decide (idle_proc c = cur_proc c)) as [E|E].
      - rewrite E. assert (z = x) as -> by congruence. exists (set_state st x). rewrite lookup_insert_eq. auto.
      - exists z. rewrite lookup_insert_ne; [congruence|]. auto. }
    assert (HX : waiting s1 ∖ {[ idle_proc c ]} = waiting s1).
    { apply set_eq. intros r. split; [set_solver|]. intros Hr. apply elem_of_difference. split; [done|]. intros ->%elem_of_singleton.
      destruct (g_sub _ _ Hg _ Hr) as [? Hh]. by rewrite (home_proc _ _ _ Hy) Hyi in Hh. }
    exists y. split; [done|]. split; [done..| |by right]. rewrite HX. by replace (set_rq (rq s1) s1) with s1 by (by destruct s1).
Qed.

(** What [sched] leaves on CPU [i]: the process that left has the state it asked for.
    The process that runs goes before everything that waits in the queue of its
    container, and so does every container it is in; or the idle process runs because
    the kernel panics or because the container whose turn it is has an empty queue. *)
Definition switched (s s' : kern) (i : nat) (c : cpu) (st : procstate) : Prop :=
  ∃ c' y, cpus s' !! i = Some c' ∧ idle_proc c' = idle_proc c ∧ procs s' !! cur_proc c' = Some y ∧ state y = RUNNING ∧
    (cur_proc c' ≠ cur_proc c → ∃ z, procs s' !! cur_proc c = Some z ∧ state z = st) ∧
    if idle y then cur_proc c' = idle_proc c ∧ (turn_of_empty s' (waiting s') ∨ panic_flag s = true)
    else goes_first s' (waiting s') (cur_proc c').

Lemma cfs_cmp_starttime m n i t a b : m !! n = Some i → cfs_cmp (<[n := set_starttime t i]> m) a b = cfs_cmp m a b.
Proof.
  intros Hi. rewrite /cfs_cmp. destruct (decide (a = n)) as [->|], (decide (b = n)) as [->|];
    rewrite ?lookup_insert_eq ?lookup_insert_ne ?Hi //; try congruence; by destruct (m !! _).
Qed.

(** The state after the switch, from the parts of [simple_sched]. *)
Lemma switch_inv s s1 i c x st n h' y y' info now t' c' w' s' :
  sched_inv s → cpus s !! i = Some c → procs s !! cur_proc c = Some x → st ≠ RUNNING → (idle x = true → st = RUNNABLE) →
  left_cpu (lset slock true s) s1 (cur_proc c) (set_state st x) → chosen s1 c n h' y → infos s1 !! n = Some info →
  state y' = RUNNING → idle y' = idle y → p_container y' = p_container y →
  cur_proc c' = n → idle_proc c' = idle_proc c → proc_timer c' = proc_timer c → tims_at t' (cpus s) →
  vm_at w' (invalid_pt s) (<[n := y']> (procs s1)) (<[i := c']> (cpus s)) →
  sched_lock s' = false → infos s' = <[n := set_starttime now info]> (infos s1) → rq s' = h' → conts s' = conts s1 →
  procs s' = <[n := y']> (procs s1) → cpus s' = <[i := c']> (cpus s) → ts s' = t' → words (km s') = w' →
  root_container s' = root_container s → invalid_pt s' = invalid_pt s →
  sched_inv s' ∧ switched s s' i c st.
Proof.
  intros [Fl Fg Fa Fc Ft Fv Fs] Hc Hx Hst Hix [Lps Lcs Lkm Lr Lip Llk Lpf Lt Lg La Lz] [Cp Cst Cid Cg Cl] Hi Hy's Hy'i Hy'c Hc1 Hc2 Hc3 Ht Hv
    Slk Sin Srq Sco Sps Scs Sts Skm Sr Sip. simpl in Lps, Lcs, Lr, Lip, Lpf, Lz.
  assert (EK : kset s' = kset s1) by (apply kset_same; [done|congruence]).
  assert (HnK : n ∉ kset s1) by (intros (? & ? & _)%elem_of_kset; destruct (g_procs _ _ Lg n y Cp) as [? _]; congruence).
  assert (HX : waiting s' = waiting s1 ∖ {[ n ]}).
  { rewrite /waiting EK Sps pset_insert /queued Hy's /=. set_solver. }
  assert (Hplace : same_place s1 s').
  { split_and!; [|by rewrite Sco|congruence]. intros p. rewrite Sps. destruct (decide (p = n)) as [->|]; [by rewrite lookup_insert_eq Cp /= Hy'i Hy'c|].
    by rewrite lookup_insert_ne; [congruence|]. }
  assert (HY : runs s' = runs s1).
  { rewrite /runs EK Sps pset_insert. f_equal. destruct (active y') eqn:E; revert E; rewrite /active Hy's Hy'i /=; intros E.
    - assert (n ∈ pset active (procs s1)) by (apply elem_of_pset; exists y; by rewrite /active Cst). set_solver.
    - assert (n ∉ pset active (procs s1)); [|set_solver]. intros (z & Hz & Ez)%elem_of_pset. simplify_eq. by rewrite /active E andb_false_r in Ez. }
  assert (Hcmp : ∀ a b, cfs_cmp (infos s') a b = cfs_cmp (infos s1) a b) by (intros a b; by rewrite Sin (cfs_cmp_starttime _ _ _ _ _ _ Hi)).
  assert (Hgf : ∀ m, goes_first s1 (waiting s1) m → goes_first s' (waiting s') m).
  { intros m Hm. apply (goes_first_ext s1 s' _ _ m Hm); [intros k; by apply same_place_home|done|rewrite HX; set_solver]. }
  split; [split; [done| | | | | |]|].
  - rewrite HX. assert (Hng : n ∉ waiting s1 ∖ {[ n ]}) by set_solver.
    pose proof (good_info _ _ n info (set_starttime now info) Cg Hng Hi eq_refl eq_refl) as G1.
    apply (good_same _ s' _ G1); [exact Hplace|done|done].
  - rewrite HY. apply (acct_keep s1); [done..| |done]. intros r. rewrite Sin. by apply (pweight_insert _ _ info).
  - rewrite Sps Scs Lps. rewrite Lps in Cp. by apply (cpu_at_switch _ _ i c x st n y).
  - rewrite Sts Scs. by apply (tims_at_cpu _ _ i c).
  - by rewrite Skm Sip Sps Scs.
  - rewrite Sps (size_insert_same _ _ y) // Lps (size_insert_same _ _ x) // Sco Lz //.
  - exists c', y'. rewrite Scs list_lookup_insert_eq; [by apply lookup_lt_Some in Hc|]. split_and!; [done..|by rewrite Hc1 Sps lookup_insert_eq|done| |].
    + rewrite Hc1 Sps Lps. intros Hne. exists (set_state st x). by rewrite lookup_insert_ne; [congruence|]; rewrite lookup_insert_eq.
    + rewrite Hc1 Hy'i. destruct Cl as [[-> Cl]|(Cl & -> & Cl')]; [by apply Hgf|]. split; [done|]. destruct Cl' as [(d & Hd1 & Hd2 & Hd3)|?]; [left|right; by rewrite -Lpf].
      exists d. split_and!; [by rewrite Sco| |by apply Hgf]. rewrite (same_place_within s1 s') // HX within_del Hd2. set_solver.
Qed.

Lemma vm_at_ttbr w ipt ps l i c c' :
  vm_at w ipt ps l → l !! i = Some c → c_ttbr0 c' = c_ttbr0 c → vm_at w ipt ps (<[i := c']> l).
Proof.
  intros (H1 & H2 & H3) Hc Ht. split_and!; [done| |done]. intros j d [[-> ->]|[_ Hd]]%(lookup_cpu _ _ _ _ _ _ Hc); [|by apply (H2 j)].
  rewrite Ht. by apply (H2 i).
Qed.

Lemma sched_ok s i c x st :
  sched_inv s → cpus s !! i = Some c → procs s !! cur_proc c = Some x → st ≠ RUNNING → (idle x = true → st = RUNNABLE) →
  wp (lock_and_sched i st) (λ _ s', sched_inv s' ∧ (if killed x && negb (bool_decide (st = ZOMBIE)) then s' = s else switched s s' i c st)) s.
Proof.
  intros H Hc Hx Hst Hix. pose proof H as [Fl Fg Fa Fc Ft Fv Fs]. set (s0 := lset slock true s).
  apply wp_bind, (wp_slock _ _ Fl). fold s0. apply wp_bind, (wp_thisproc s0 i c); [done|]. apply wp_bind, (wp_get_proc _ _ x); [done|].
  case_match eqn:Hk.
  { apply wp_sunlock. replace (lset slock false s0) with s by (destruct s; simpl in *; by subst). done. }
  assert (Hrun : state x = RUNNING) by (destruct (co_cur _ _ Fc i c Hc) as (z & ? & ? & _); congruence).
  apply wp_bind. rewrite Hrun bool_decide_eq_true_2 //. apply wp_ret, wp_bind.
  eapply wp_mono; [apply (update_this_state_ok s0 i c x st); try done; by apply good_lock|]. intros [] s1 L.
  apply wp_bind. eapply wp_mono; [exact (pick_chosen s0 s1 i c x st Fc Hc Hx Hix L)|]. intros n ? (h' & y & -> & C). set (s2 := set_rq h' s1).
  pose proof L as [Lps Lcs Lkm Lr Lip Llk Lpf Lt Lg La Lz]. pose proof C as [Cp Cst Cid Cg Cl]. simpl in Lps, Lcs, Lkm, Lr, Lip, Llk, Lpf, Lt, Lz.
  destruct (g_procs _ _ Lg n y Cp) as (_ & _ & _ & _ & info & Hinfo & _).
  assert (Hupd : wp (update_this_proc i n) (λ _ s', ∃ t', s' = set_ts t' (set_cpus (<[i := set_cur_proc n c]> (cpus s2)) s2) ∧
    tims_at t' (<[i := set_cur_proc n c]> (cpus s2))) s2).
  { apply (update_this_proc_ok s2 (waiting s1 ∖ {[ n ]}) (runs s1) i c n y); try done.
    - rewrite /s2 /= Lps (size_insert_same _ _ x) // Lz //.
    - by rewrite /s2 /= Lcs.
    - rewrite /s2 /= Lcs. apply (co_len _ _ Fc).
    - by rewrite /s2 /= Lcs.
    - intros Hidy. apply elem_of_union_l, elem_of_pset. exists y. split; [done|]. by rewrite /active Cst Hidy. }
  apply wp_bind. eapply wp_mono; [exact Hupd|]. intros [] ? (t' & -> & Ht'). simpl in Ht'. rewrite Lcs in Ht'. simpl cpus. rewrite Lcs.
  apply wp_bind, (wp_get_proc _ _ y); [done|]. apply wp_bind. rewrite Cst bool_decide_eq_true_2 //. apply wp_ret, wp_bind, (wp_upd_proc _ _ _ y); [done|].
  apply wp_bind. eapply wp_zoom; [apply timestamp_run|]. apply wp_bind, (wp_upd_info _ _ _ info); [done|].
  set (c1 := set_cur_proc n c). set (s5 := set_infos _ _). set (y1 := set_state RUNNING y).
  assert (Hc5 : cpus s5 !! i = Some c1) by (apply list_lookup_insert_eq; by apply lookup_lt_Some in Hc).
  assert (Ht5 : tims_at (set_nread (S (nread t')) t') (cpus s)).
  { apply tims_read. replace (cpus s) with (<[i := c]> (<[i := c1]> (cpus s))) by (rewrite list_insert_insert_eq list_insert_id //).
    apply (tims_at_cpu _ _ i c1); [|done..]. done. }
  assert (Hv1 : vm_at (words (km s)) (invalid_pt s) (procs s1) (cpus s)) by (rewrite Lps; by apply (vm_at_upd _ _ _ _ _ x)).
  assert (Hp5 : procs s5 !! n = Some y1) by apply lookup_insert_eq.
  assert (Hv5 : vm_at (words (km s)) (invalid_pt s) (<[n := y1]> (procs s1)) (<[i := c1]> (cpus s))).
  { apply (vm_at_ttbr _ _ _ _ i c); [|done..]. by apply (vm_at_upd _ _ _ _ _ y). }
  apply wp_bind. destruct (decide (n ≠ cur_proc c)) as [Hn|Hn].
  - apply wp_bind, wp_gets. destruct (attach_pgdir_ok (km s5) (p_pgdir y1) (c_ttbr0 c1) (invalid_pt s5)) as (v & Hrunv).
    { change (km s5) with (km s1). rewrite Lkm. by apply (proj1 (proj2 Hv1) i c). }
    { by destruct (proj2 (proj2 Hv1) n y Cp). }
    eapply wp_of_run; [by rewrite /on_vm Hp5 Hc5 Hrunv|]. apply wp_sunlock.
    set (y2 := set_pgdir _ y1). set (c2 := set_c_ttbr0 _ c1).
    apply (switch_inv s s1 i c x st n h' y y2 info (next_ms t') (set_nread (S (nread t')) t') c2
      (<[P2K (c_ttbr0 c) + 32 := v]> (words (km s)))); try done.
    + apply (vm_at_attach _ _ _ _ i c n y); try done. by rewrite /c2 /= Lip.
    + by rewrite /= insert_insert_eq.
    + by rewrite /= list_insert_insert_eq.
    + by rewrite /= Lkm.
  - apply wp_ret, wp_sunlock.
    apply (switch_inv s s1 i c x st n h' y y1 info (next_ms t') (set_nread (S (nread t')) t') c1 (words (km s))); try done. by rewrite /= Lkm.
Qed.
