(* ===== verification/Scheduler.v ===== *)
(** * Every run of the scheduler

    The steps of the CPUs as a relation: waking a process, giving up the CPU with a
    new state, the expiry of the time slice, and the activation of a container.  Each step is a whole call, made
    under the scheduler lock. *)

From S2P Require Import Prelude Spinlock Pidmap Sem Mem Pt RBTree RBRep RBInsert RBErase RBMap RBSet Cpu CpuInv Sched SchedInv.

(** The timer of CPU [i] has expired: the body of the loop of [timer_clock_handler]. *)
Definition slice_expires (i : nat) : M kern () :=
  c ← get_cpu i;
  on_ts (cancel_cpu_timer i (proc_timer c));;
  on_ts (upd_timer (proc_timer c) (set_triggered true));;
  proc_timer_handle i.

Inductive sched_step (s : kern) : kern → Prop :=
  | step_activate i p x onalert r s' :
      (i < length (cpus s))%nat → procs s !! p = Some x → idle x = false →
      _activate_proc i p onalert s = Ret r s' → sched_step s s'
  | step_group i g q s' :
      (i < length (cpus s))%nat → conts s !! g = Some q → g ≠ root_container s →
      activate_group i g s = Ret () s' → sched_step s s'
  | step_sched i c x st s' :
      cpus s !! i = Some c → procs s !! cur_proc c = Some x → st ≠ RUNNING → (idle x = true → st = RUNNABLE) →
      lock_and_sched i st s = Ret () s' → sched_step s s'
  | step_slice i c t s' :
      cpus s !! i = Some c → timers (ts s) !! proc_timer c = Some t → data t ≠ 0 →
      slice_expires i s = Ret () s' → sched_step s s'.

(** ** The expiry of the time slice *)
Lemma tims_off_at t l i c armed x :
  tims_off t l i (proc_timer c) armed → l !! i = Some c → timers t !! proc_timer c = Some x → data x = 0 →
  (∀ i j c d, l !! i = Some c → l !! j = Some d → proc_timer c = proc_timer d → i = j) → tims_at t l.
Proof.
  intros (H1 & H2 & _ & H4) Hc Hx Hd Hinj. exists armed. split_and!; [done| |done].
  intros j d Hd'. destruct (decide (j = i)) as [->|Hne]; [|by destruct (H4 j d Hd' Hne)].
  assert (d = c) as -> by congruence. exists x. split; [done|]. by rewrite decide_True.
Qed.

Lemma sched_inv_ts s t : sched_inv s → tims_at t (cpus s) → sched_inv (set_ts t s).
Proof. intros [] Ht. split; try done. by apply good_ts. Qed.

Lemma slice_expires_ok s i c t :
  sched_inv s → cpus s !! i = Some c → timers (ts s) !! proc_timer c = Some t → data t ≠ 0 →
  wp (slice_expires i) (λ _ s', sched_inv s') s.
Proof.
  intros H Hc Ht Hd. pose proof H as [Fl Fg Fa Fc Ft Fv Fs]. pose proof (co_len _ _ Fc) as Hlen.
  destruct (tims_cancel (ts s) (cpus s) i c t Ft Hlen Hc Ht Hd) as (t1 & armed & Hcan & Hoff & Htm). rewrite -Htm in Ht.
  destruct (tims_off_upd t1 _ i _ armed (set_triggered true) t Hoff Ht eq_refl) as (t2 & Hr2 & Hoff2 & Ht2).
  destruct (tims_off_upd t2 _ i _ armed (set_data 0) _ Hoff2 Ht2 eq_refl) as (t3 & Hr3 & Hoff3 & Ht3).
  assert (H3 : sched_inv (set_ts t3 s)).
  { apply sched_inv_ts; [done|]. apply (tims_off_at _ _ i c armed (set_data 0 (set_triggered true t))); try done. by destruct Ft as (? & _ & _ & ?). }
  destruct (co_cur _ _ Fc i c Hc) as (x & Hx & _).
  apply wp_bind, (wp_get_cpu _ _ _ _ Hc), wp_bind. eapply wp_zoom; [exact Hcan|]. apply wp_bind. eapply wp_zoom; [exact Hr2|].
  apply wp_bind, (wp_get_cpu _ _ c); [done|]. apply wp_bind. eapply wp_zoom; [exact Hr3|].
  eapply wp_mono; [apply (sched_ok (set_ts t3 s) i c x RUNNABLE H3 Hc Hx); done|]. by intros [] s' [? _].
Qed.

Lemma sched_step_inv s s' : sched_inv s → sched_step s s' → sched_inv s'.
Proof.
  intros H Hst. destruct Hst as [i p x al r s' Hi Hx Hid Hrun|i g q s' Hi Hq Hr Hrun|i c x st s' Hc Hx Hst Hix Hrun|i c t s' Hc Ht Hd Hrun].
  - destruct (activate_ok s i p x al H Hi Hx Hid) as (r' & s1 & Hrun' & ? & _). congruence.
  - destruct (activate_group_ok s i g q H Hi Hq Hr) as (s1 & Hrun' & ?). congruence.
  - destruct (proj1 (wp_run _ _ _) (sched_ok s i c x st H Hc Hx Hst Hix)) as ([] & s1 & Hrun' & ? & _). congruence.
  - destruct (proj1 (wp_run _ _ _) (slice_expires_ok s i c t H Hc Ht Hd)) as ([] & s1 & Hrun' & ?). congruence.
Qed.

(** ** The theorems *)

(** C5: Take any tree of containers, with processes and containers together at most
    32768, in which the run queue of every container holds exactly its runnable
    processes and the containers in it with something active, in the order of
    [cfs_cmp]; the counters of every container are exact; every running process is the
    current one of exactly one CPU; and the timers agree with the CPUs.  Every sequence of
    wake-ups, switches, expired time slices and activations of containers on any of the
    CPUs leads to such a state, and from there every further one of these calls returns:
    no assertion of the code fails, no division by zero happens and no walk over the
    containers fails to end. *)
Theorem scheduler_invariant s0 s :
  sched_inv s0 → rtc sched_step s0 s →
  sched_inv s ∧
  (∀ i p x onalert, (i < length (cpus s))%nat → procs s !! p = Some x → idle x = false →
     ∃ r s', _activate_proc i p onalert s = Ret r s') ∧
  (∀ i c x st, cpus s !! i = Some c → procs s !! cur_proc c = Some x → st ≠ RUNNING → (idle x = true → st = RUNNABLE) →
     ∃ s', lock_and_sched i st s = Ret () s') ∧
  (∀ i c t, cpus s !! i = Some c → timers (ts s) !! proc_timer c = Some t → data t ≠ 0 → ∃ s', slice_expires i s = Ret () s') ∧
  (∀ i g q, (i < length (cpus s))%nat → conts s !! g = Some q → g ≠ root_container s → ∃ s', activate_group i g s = Ret () s').
Proof.
  intros H Hs. assert (Hf : sched_inv s) by (induction Hs; eauto using sched_step_inv). split_and!; [done|..].
  - intros i p x al Hi Hx Hid. destruct (activate_ok s i p x al Hf Hi Hx Hid) as (r & s' & ? & _). eauto.
  - intros i c x st Hc Hx Hst Hix. destruct (proj1 (wp_run _ _ _) (sched_ok s i c x st Hf Hc Hx Hst Hix)) as ([] & s' & ? & _). eauto.
  - intros i c t Hc Ht Hd. destruct (proj1 (wp_run _ _ _) (slice_expires_ok s i c t Hf Hc Ht Hd)) as ([] & s' & ? & _). eauto.
  - intros i g q Hi Hq Hr. destruct (activate_group_ok s i g q Hf Hi Hq Hr) as (s' & ? & _). eauto.
Qed.


(** Two CPUs, each on its idle process, and a process that waits in a container. *)
Definition demo_sem : Semaphore := mkSem false 0 [] ∅ [].
Definition demo_proc (idl : bool) (cont : Z) (st : procstate) : proc :=
  mkProc false idl 0 0 0 st demo_sem [] 0 (mkPgdir 0 false 0) cont 0 (mkUC [] 0 0 0 0 []) (mkKC 0 0 0 []) [] 0.
Definition demo_page : Z := KSPACE_MASK + 4096.
Definition demo_kern : kern :=
  mkKern false (list_to_map [(400, mkInfo 0 0 39 15 false); (800, mkInfo 0 0 39 15 false); (1200, mkInfo 0 0 21 820 false); (2048, mkInfo 0 0 21 820 true)])
    (mkRBH (list_to_map [(400, mkRB 0 0 0); (800, mkRB 0 0 0); (1200, mkRB 1 0 0); (2048, mkRB 1 0 0)]) (list_to_map [(64, 2048); (2048, 1200)]))
    (list_to_map [(64, mkCont 0 0 820 1 (mkPidmap 0 0 false 0 [])); (2048, mkCont 64 1200 820 1 (mkPidmap 0 0 false 0 []))])
    (list_to_map [(400, demo_proc true 64 RUNNING); (800, demo_proc true 64 RUNNING); (1200, demo_proc false 2048 RUNNABLE)])
    [mkCpu 400 400 4 (K2P demo_page); mkCpu 800 800 8 (K2P demo_page)]
    (mkTS (mkRBH (list_to_map [(4, mkRB 0 0 0); (8, mkRB 0 0 0)]) (list_to_map [(0, 0); (1, 0); (2, 0); (3, 0)]))
       (list_to_map [(4, mkTimer false 0 0 NoHandler 0); (8, mkTimer false 0 0 NoHandler 0)]) (λ _, 0) 0 1 ∅ ∅)
    (mkMem [] [] ∅ (list_to_map [(demo_page + 8, 0); (demo_page + 32, 0)]) init_rc init_rc false 0) false 64 demo_page.

(** The elements of a concrete map, one case each. *)
Ltac map_cases H := apply elem_of_list_to_map_2 in H; rewrite !elem_of_cons in H; destruct_or! H; simplify_eq;
  try (by apply not_elem_of_nil in H).
Ltac list_cases H := repeat match type of H with ?l !! ?i = Some _ => destruct i; simpl in H; [injection H as <-|] end; try done.

Lemma rbset_single h rt cmp a :
  roots h !! rt = Some a → ok a → nodes h !! a = Some (mkRB 1 0 0) → rbset h rt cmp {[ a ]}.
Proof.
  intros Hr Ha Hn. exists [a]. split; [split|intros x; set_solver].
  - exists (T Black E a E). split; [|done]. split; [done| |apply NoDup_singleton|].
    + by rewrite /= Hn.
    + exists 1%nat. split; [done|]. exists 0%nat. by split_and!; [|exists Black..].
  - repeat constructor.
Qed.
Lemma rbset_none h rt cmp : roots h !! rt = Some 0 → rbset h rt cmp ∅.
Proof.
  intros Hr. exists []. split; [split|intros x; set_solver]; [|constructor].
  exists E. split; [|done]. split; [done|done|constructor|]. exists 0%nat. done.
Qed.

Lemma demo_wait : waiting demo_kern = {[ 1200; 2048 ]}.
Proof. refine (bool_decide_unpack _ _). vm_compute. exact I. Qed.
Lemma demo_kern_runs : runs demo_kern = {[ 1200; 2048 ]}.
Proof. refine (bool_decide_unpack _ _). vm_compute. exact I. Qed.

Lemma demo_timers : timers_ok (ts demo_kern) (λ _, ∅).
Proof.
  split.
  - split; [done|done|intros n; by simpl; lia].
  - intros i Hi. apply rbset_none. do 4 (destruct i; [done|]). rewrite /NCPU in Hi. lia.
  - intros i t _ Ht. by apply elem_of_empty in Ht.
  - intros i j t _ _ Ht. by apply elem_of_empty in Ht.
  - intros t x H. map_cases H; (split_and!; [split; done|by vm_compute; eexists|simpl; lia..]).
Qed.
Lemma demo_within c : is_Some (conts demo_kern !! c) →
  (c = 64 ∧ within demo_kern c {[ 1200; 2048 ]} = {[ 2048 ]}) ∨ (c = 2048 ∧ within demo_kern c {[ 1200; 2048 ]} = {[ 1200 ]}).
Proof.
  intros [q Hq]. map_cases Hq; [left|right]; (split; [done|]); refine (bool_decide_unpack _ _); vm_compute; exact I.
Qed.
Lemma demo_inv : sched_inv demo_kern.
Proof.
  split; [done| | | | | |by vm_compute].
  - rewrite demo_wait. split.
    + intros p x H. map_cases H; (split_and!; [done|done|by vm_compute; eexists|by intros _; vm_compute; eexists|eexists; split; [by vm_compute|by vm_compute]]).
    + intros c q H Hr. map_cases H. split_and!; [done|by vm_compute; eexists..|eexists; split; [by vm_compute|by vm_compute]].
    + intros c [[-> ->]|[-> ->]]%demo_within; by apply rbset_single.
    + intros n [->%elem_of_singleton| ->%elem_of_singleton]%elem_of_union; by vm_compute; eexists.
    + by vm_compute; eexists.
    + exists (λ c, if decide (c = 64) then 0%nat else 1%nat). intros c q H Hr. map_cases H. vm_compute. lia.
  - intros c q Hq. rewrite demo_kern_runs. pose proof (demo_within c (mk_is_Some _ _ Hq)) as [[-> ->]|[-> ->]];
      vm_compute in Hq; injection Hq as <-; by vm_compute.
  - split.
    + by vm_compute; lia.
    + intros i c H. list_cases H; by eexists.
    + intros i c H. list_cases H; by eexists.
    + intros i j c d Hi Hj. list_cases Hi; list_cases Hj.
    + intros i j c d Hi Hj. list_cases Hi; list_cases Hj.
    + intros p x H. map_cases H; [exists 0%nat|exists 1%nat|done]; by eexists.
  - exists (λ _, ∅). split_and!; [exact demo_timers| |].
    + intros i c H. list_cases H; by eexists.
    + intros i j c d Hi Hj. list_cases Hi; list_cases Hj.
  - assert (att (words (km demo_kern)) demo_page).
    { split_and!; [by vm_compute|exists 0; by vm_compute|by vm_compute; eexists]. }
    split_and!; [done| |].
    + intros i c Hc. list_cases Hc; by rewrite P2K_K2P; [apply H|].
    + intros p x Hp. map_cases Hp; by split; [|left].
Qed.

Lemma scheduler_invariant_witness : ∃ s', lock_and_sched 1 RUNNABLE demo_kern = Ret () s'.
Proof.
  exact (proj1 (proj2 (proj2 (scheduler_invariant demo_kern demo_kern demo_inv (rtc_refl _ _)))) 1%nat
    (mkCpu 800 800 8 (K2P demo_page)) (demo_proc true 64 RUNNING) RUNNABLE eq_refl eq_refl ltac:(done) ltac:(done)).
Defined.

(** A container takes its turn even when its only process runs on another CPU: process
    1600 waits in the root container and CPU 1 goes idle. *)
Definition two_waiting : M kern () :=
  _ ← _activate_proc 0 1600 false; lock_and_sched 0 RUNNABLE;; lock_and_sched 1 RUNNABLE.
Definition demo_two : kern :=
  let s := set_infos (<[1600 := mkInfo 5 0 21 820 false]> (infos demo_kern)) (set_procs (<[1600 := demo_proc false 64 SLEEPING]> (procs demo_kern)) demo_kern) in
  set_rq (mkRBH (<[1600 := mkRB 0 0 0]> (nodes (rq s))) (roots (rq s))) s.
Lemma idle_while_others_wait : ∃ s', two_waiting demo_two = Ret () s' ∧
  cur_proc <$> cpus s' = [1200; 800] ∧ state <$> procs s' !! 1600 = Some RUNNABLE.
Proof. eexists. split; [vm_compute; reflexivity|]. split; vm_compute; reflexivity. Qed.
