(* ===== verification/Paging.v ===== *)
(** * Paging: sections, page faults and swapping, [kernel/paging.c]

    [astate] is an address space: the page directory with the memory ([Pt.v]), the
    sections of the directory in the order of their list (each with the address
    [kalloc] gave it), and the files and the block cache below them.  The calls the
    code makes while it holds the sleep lock of a section are not interleaved with
    others; a lock that is not free is a hang.  [write_page_to_disk] and
    [read_page_from_disk] are from [kernel/mem.c]. *)

From stdpp Require Import base numbers list gmap.
From S2P Require Import Prelude Spinlock Bytes FsDefs BlockCache Cache CacheList CacheOps CacheAlloc Inode Sem File Mem Pt.

Definition ST_FILE : Z := 1.
Definition ST_SWAP : Z := 2.
Definition ST_RO : Z := 4.
Definition ST_HEAP : Z := 8.
Definition ST_TEXT : Z := Z.lor ST_FILE ST_RO.
Definition ST_DATA : Z := ST_FILE.
Definition ST_BSS : Z := ST_FILE.

Record section := mkSec {
  st_flags : Z;
  sleeplock : Semaphore;
  st_begin : Z;
  st_end : Z;
  st_fp : option nat;
  st_offset : Z;
  st_length : Z }.
Definition set_st_flags v (x : section) := mkSec v (sleeplock x) (st_begin x) (st_end x) (st_fp x) (st_offset x) (st_length x).
Definition set_sleeplock v (x : section) := mkSec (st_flags x) v (st_begin x) (st_end x) (st_fp x) (st_offset x) (st_length x).
Definition set_st_begin v (x : section) := mkSec (st_flags x) (sleeplock x) v (st_end x) (st_fp x) (st_offset x) (st_length x).
Definition set_st_end v (x : section) := mkSec (st_flags x) (sleeplock x) (st_begin x) v (st_fp x) (st_offset x) (st_length x).
Definition set_st_fp v (x : section) := mkSec (st_flags x) (sleeplock x) (st_begin x) (st_end x) v (st_offset x) (st_length x).
Definition has_flag (x : section) (f : Z) : bool := negb (Z.land (st_flags x) f =? 0).

Record astate := mkAS { av : vmem; sections : list (Z * section); afs : fstate }.
Definition set_av v (s : astate) := mkAS v (sections s) (afs s).
Definition set_sections v (s : astate) := mkAS (av s) v (afs s).
Definition set_afs v (s : astate) := mkAS (av s) (sections s) v.
Definition on_av {X} : M vmem X → M astate X := zoom (mkLens av set_av).
Definition on_afs {X} : M fstate X → M astate X := zoom (mkLens afs set_afs).
Definition on_cache {X} (m : M cstate X) : M astate X := on_afs (on_inodes (lift m)).

(** The section at position [k] of the list. *)
Definition get_sec (k : nat) : M astate section := l ← gets sections; x ← of_opt (l !! k); mret x.2.
Definition upd_sec (k : nat) (f : section → section) : M astate () :=
  l ← gets sections; x ← of_opt (l !! k); modify (set_sections (<[k := (x.1, f x.2)]> l)).
Definition sem_at (k : nat) (m : M Semaphore ()) : M astate () :=
  x ← get_sec k;
  match m (sleeplock x) with
  | Ret _ v => upd_sec k (set_sleeplock v)
  | Panic => panic | Fault => fault | Hang => hang | Fuel => nofuel
  end.
Definition unalertable_acquire_sleeplock : M Semaphore () :=
  _lock_sem;; v ← dec_val; if 0 <=? v then _unlock_sem else hang.
Definition release_sleeplock : M Semaphore () := post_sem.

(** The list walk of [sbrk] and [pgfault]: the first section with [f], or the last
    section of the list when there is none, or the null pointer for an empty list. *)
Fixpoint scan_sections (f : section → bool) (l : list (Z * section)) : option nat :=
  match l with
  | [] => None
  | x :: l => if f x.2 then Some 0%nat else Some (match scan_sections f l with Some k => S k | None => 0%nat end)
  end.

Definition load_pte (a : Z) : M astate Z := on_av (load64 a).
Definition store_pte (a v : Z) : M astate () := on_av (store64 a v).
Definition asn_kfree_page (p : Z) : M astate () := on_av (on_mm (kfree_page p)).
Definition is_valid (e : Z) : bool := negb (Z.land e PTE_VALID =? 0).

Definition alloc_page_for_user : M astate Z := on_av (on_mm kalloc_page).

(** ** Pages on the disk *)

(** Block [i] of the page at [ka]: 64 words, as 512 bytes. *)
Definition page_words (ka i : Z) : list Z := (λ j, ka + i * BLOCK_SIZE + 8 * j) <$> seqZ 0 64.
Definition load_page_block (ka i : Z) : M vmem (list Z) := λ s,
  match mapM (λ a, words (mm s) !! a) (page_words ka i) with Some ws => Ret (unwords 8 ws) s | None => Fault end.
Fixpoint store_words (l : list (Z * Z)) : M vmem () :=
  match l with [] => mret () | (a, v) :: l => store64 a v;; store_words l end.
Definition store_block (ka i : Z) (d : list Z) : M vmem () := store_words (zip (page_words ka i) (Bytes.words 8 64 d)).

Fixpoint write_page_loop (n : nat) (ka bno i : Z) : M astate () :=
  match n with
  | O => mret ()
  | S n =>
      b ← on_cache (bc_acquire (u32 (bno + i)));
      d ← on_av (load_page_block ka i);
      on_cache (bc_store b d);;
      on_cache (bc_sync None b);;
      on_cache (bc_release b);;
      write_page_loop n ka bno (i + 1)
  end.
Definition write_page_to_disk (ka : Z) : M astate Z :=
  bno ← on_cache find_and_set_8_blocks;
  write_page_loop 8 ka bno 0;;
  mret bno.

Fixpoint read_page_loop (n : nat) (ka bno i : Z) : M astate () :=
  match n with
  | O => mret ()
  | S n =>
      b ← on_cache (bc_acquire (u32 (bno + i)));
      d ← on_cache (bc_data b);
      on_av (store_block ka i d);;
      on_cache (bc_release b);;
      read_page_loop n ka bno (i + 1)
  end.
Definition read_page_from_disk (ka bno : Z) : M astate () :=
  read_page_loop 8 ka bno 0;;
  on_cache (release_8_blocks bno).

(** ** Swapping *)

(** [for(addr = a; addr < e; addr += PAGE_SIZE) f(addr)]; the fuel is enough unless
    the counter wraps around, when the loop never ends. *)
Definition range_fuel (a e : Z) : nat := S (Z.to_nat ((e - a + PAGE_SIZE - 1) / PAGE_SIZE)).
Fixpoint for_pages (fuel : nat) (a e : Z) (f : Z → M astate ()) : M astate () :=
  if a <? e then
    match fuel with
    | O => hang
    | S fuel => f a;; for_pages fuel (u64 (a + PAGE_SIZE)) e f
    end
  else mret ().

(** The caller holds the lock of the page directory, which is released. *)
Definition swapout (k : nat) : M astate () :=
  x ← get_sec k;
  assert_ (negb (has_flag x ST_SWAP));;
  upd_sec k (λ x, set_st_flags (Z.lor (st_flags x) ST_SWAP) x);;
  for_pages (range_fuel (st_begin x) (st_end x)) (st_begin x) (st_end x) (λ addr,
    o ← on_av (get_pte addr false);
    match o with
    | None => mret ()
    | Some p => e ← load_pte p; if negb (e =? 0) then store_pte p (Z.ldiff e PTE_VALID) else mret ()
    end);;
  sem_at k unalertable_acquire_sleeplock;;
  on_av (release_spinlock pd_lens);;
  y ← get_sec k;
  (if has_flag y ST_FILE then mret ()
   else for_pages (range_fuel (st_begin x) (st_end x)) (st_begin x) (st_end x) (λ addr,
     o ← on_av (get_pte addr false);
     match o with
     | None => mret ()
     | Some p =>
         e ← load_pte p;
         if e =? 0 then mret ()
         else
           let ka := P2K (PTE_ADDRESS e) in
           bno ← write_page_to_disk ka;
           asn_kfree_page ka;;
           store_pte p (u32 (Z.shiftl bno 12))
     end));;
  sem_at k release_sleeplock.

Definition swapin (k : nat) : M astate () :=
  x ← get_sec k;
  assert_ (has_flag x ST_SWAP);;
  sem_at k unalertable_acquire_sleeplock;;
  x ← get_sec k;
  for_pages (range_fuel (st_begin x) (st_end x)) (st_begin x) (st_end x) (λ addr,
    o ← on_av (get_pte addr false);
    match o with
    | None => mret ()
    | Some p =>
        e ← load_pte p;
        if e =? 0 then mret ()
        else
          let bno := u32 (Z.shiftr e 12) in
          ka ← alloc_page_for_user;
          read_page_from_disk ka bno;;
          on_av (vmmap addr ka PTE_USER_DATA)
    end);;
  sem_at k release_sleeplock;;
  upd_sec k (λ x, set_st_flags (Z.ldiff (st_flags x) ST_SWAP) x).

(** ** Growing and shrinking the heap *)
Fixpoint sbrk_unmap (n : nat) (k : nat) (i : Z) : M astate () :=
  match n with
  | O => mret ()
  | S n =>
      x ← get_sec k;
      o ← on_av (get_pte (u64 (st_end x + i * PAGE_SIZE)) false);
      (match o with
       | None => mret ()
       | Some p =>
           e ← load_pte p;
           if is_valid e then asn_kfree_page (P2K (PTE_ADDRESS e));; store_pte p 0 else mret ()
       end);;
      sbrk_unmap n k (i + 1)
  end.
Definition sbrk (size : Z) : M astate Z :=
  l ← gets sections;
  match scan_sections (λ x, has_flag x ST_HEAP) l with
  | None => panic
  | Some k =>
      x ← get_sec k;
      let ret := st_end x in
      (if 0 <=? size then upd_sec k (λ x, set_st_end (u64 (st_end x + size * PAGE_SIZE)) x)
       else
         assert_ (u64 (- size * PAGE_SIZE) <=? u64 (st_end x - st_begin x));;
         upd_sec k (λ x, set_st_end (u64 (st_end x + size * PAGE_SIZE)) x);;
         (if has_flag x ST_SWAP then swapin k else mret ());;
         sbrk_unmap (Z.to_nat (- size)) k 0);;
      mret ret
  end.

(** ** Page faults *)

(** [memcpy(dst, src, PAGE_SIZE)] on two pages, a word at a time. *)
Fixpoint copy_words (n : nat) (dst src : Z) : M vmem () :=
  match n with
  | O => mret ()
  | S n => v ← load64 src; store64 dst v;; copy_words n (dst + 8) (src + 8)
  end.
Definition memcpy_page (dst src : Z) : M vmem () := copy_words 512 dst src.

Definition pgfault (addr : Z) : M astate Z :=
  l ← gets sections;
  match scan_sections (λ x, (st_begin x <=? addr) && (addr <? st_end x)) l with
  | None => panic
  | Some k =>
      x ← get_sec k;
      assert_ ((st_begin x <=? addr) && (addr <? st_end x));;
      (if has_flag x ST_SWAP then swapin k else mret ());;
      o ← on_av (get_pte addr true);
      p ← of_opt o;
      e ← load_pte p;
      (if e =? 0 then
         new_page ← alloc_page_for_user;
         on_av (vmmap addr new_page PTE_USER_DATA)
       else if negb (Z.land (PTE_FLAGS e) PTE_RO =? 0) then
         new_page ← alloc_page_for_user;
         let original_page := P2K (PTE_ADDRESS e) in
         on_av (memcpy_page new_page original_page);;
         asn_kfree_page original_page;;
         on_av (vmmap addr new_page PTE_USER_DATA)
       else mret ());;
      e ← load_pte p;
      (if negb (is_valid (PTE_FLAGS e)) then panic else mret ());;
      mret 0
  end.

(** ** The sections of a page directory *)

(** [sizeof(struct section)] *)
Definition SECTION_SIZE : Z := 88.

(** [fresh] is what the block [kalloc] returns held before. *)
Definition init_sections (fresh : section) : M astate () :=
  a ← on_av (on_mm (kalloc SECTION_SIZE));
  modify (λ s, set_sections ((a, set_sleeplock init_sleeplock (set_st_flags ST_HEAP (set_st_end 0 (set_st_begin 0 fresh)))) :: sections s) s).

Fixpoint free_sections_loop (ctx : Z) (n : nat) : M astate () :=
  match n with
  | O => mret ()
  | S n =>
      x ← get_sec 0;
      (if has_flag x ST_SWAP then swapin 0 else mret ());;
      x ← get_sec 0;
      for_pages (range_fuel (PAGE_BASE (st_begin x)) (st_end x)) (PAGE_BASE (st_begin x)) (st_end x) (λ i,
        o ← on_av (get_pte i false);
        match o with
        | None => mret ()
        | Some p => e ← load_pte p; if is_valid e then asn_kfree_page (P2K (PTE_ADDRESS e)) else mret ()
        end);;
      (match st_fp x with Some f => on_afs (fileclose ctx f) | None => mret () end);;
      l ← gets sections;
      a ← of_opt (l !! 0%nat);
      modify (set_sections (tail l));;
      on_av (on_mm (kfree a.1));;
      free_sections_loop ctx n
  end.
Definition free_sections (ctx : Z) : M astate () := l ← gets sections; free_sections_loop ctx (length l).

(** [copy_sections] into this address space, from the list [from] of another. *)
Fixpoint copy_sections (from : list (Z * section)) : M astate () :=
  match from with
  | [] => mret ()
  | (_, x) :: from =>
      a ← on_av (on_mm (kalloc SECTION_SIZE));
      fp ← (match st_fp x with Some f => g ← on_afs (filedup f); mret (Some g) | None => mret None end);
      modify (λ s, set_sections ((a, set_st_fp fp x) :: sections s) s);;
      copy_sections from
  end.

(** [init_pgdir] and [free_pgdir] of [kernel/pt.c] on the whole address space. *)
Definition init_space : M astate () := on_av init_pgdir;; modify (set_sections []).
Definition free_pgdir (ctx : Z) : M astate () :=
  p ← gets (λ s, pt (pd (av s)));
  if p =? 0 then mret () else free_sections ctx;; on_av free_pgdir_tables.
