(* ===== verification/PagingInv.v ===== *)
(** * Page faults

    [pgfault] on an address of a section: an address without an entry gets a free
    page, an entry that is read-only gets a copy of its page. *)

From stdpp Require Import base numbers list gmap.
From S2P Require Import Prelude Spinlock Bytes FsDefs BlockCache Cache CacheList CacheOps CacheAlloc Inode Sem File Mem Pt Paging.

(** ** The section of an address *)
Definition covers (addr : Z) (x : section) : bool := (st_begin x <=? addr) && (addr <? st_end x).
(** Some section covers the address, and none that does is on the disk. *)
Definition covered (s : astate) (addr : Z) : Prop :=
  (∃ x, x ∈ sections s ∧ covers addr x.2 = true) ∧ ∀ x, x ∈ sections s → covers addr x.2 = true → has_flag x.2 ST_SWAP = false.

Lemma scan_finds f l : (∃ x, x ∈ l ∧ f x.2 = true) → ∃ k x, scan_sections f l = Some k ∧ l !! k = Some x ∧ x ∈ l ∧ f x.2 = true.
Proof.
  induction l as [|y l IH]; intros (x & Hx & Hf); [by apply elem_of_nil in Hx|]. simpl. destruct (f y.2) eqn:Ey.
  - exists 0%nat, y. split_and!; [done..|by left|done].
  - apply elem_of_cons in Hx as [->|Hx]; [congruence|]. destruct IH as (k & z & -> & ? & ? & ?); [eauto|].
    exists (S k), z. split_and!; [done..|by right|done].
Qed.

(** ** Walks that find every table *)
Lemma next_table_hit t i b s e :
  words (mm s) !! (t + 8 * i) = Some e → (Z.land e PTE_VALID =? 0) = false → next_table t i b s = Ret (Some (P2K (PTE_ADDRESS e))) s.
Proof. intros He Hv. rewrite /next_table (bind_run _ _ _ _ _ (load64_run _ s e He)). by rewrite Hv. Qed.

Lemma get_pte_there s va t3 b :
  pt (pd s) ≠ 0 → table_at (words (mm s)) (pt (pd s)) [VA_PART0 va; VA_PART1 va; VA_PART2 va] = Some t3 →
  get_pte va b s = Ret (Some (t3 + 8 * VA_PART3 va)) s.
Proof.
  intros Hroot. cbn [table_at]. destruct (words (mm s) !! (pt (pd s) + _)) as [e0|] eqn:E0; [|done]. cbn [mbind option_bind].
  destruct (Z.land e0 PTE_VALID =? 0) eqn:V0; [done|]. destruct (words (mm s) !! (P2K (PTE_ADDRESS e0) + _)) as [e1|] eqn:E1; [|done].
  cbn [mbind option_bind]. destruct (Z.land e1 PTE_VALID =? 0) eqn:V1; [done|].
  destruct (words (mm s) !! (P2K (PTE_ADDRESS e1) + _)) as [e2|] eqn:E2; [|done]. cbn [mbind option_bind].
  destruct (Z.land e2 PTE_VALID =? 0) eqn:V2; [done|]. intros [= <-].
  rewrite /get_pte (bind_run _ _ s (pt (pd s)) s) // (proj2 (Z.eqb_neq _ _) Hroot) (bind_run _ _ s true s) //. cbn [negb].
  rewrite (bind_run _ _ s (pt (pd s)) s) // (bind_run _ _ _ _ _ (next_table_hit _ _ _ _ _ E0 V0)).
  by rewrite (bind_run _ _ _ _ _ (next_table_hit _ _ _ _ _ E1 V1)) (bind_run _ _ _ _ _ (next_table_hit _ _ _ _ _ E2 V2)).
Qed.

Lemma pte_of_nonzero w root va : pte_of w root va ≠ 0 →
  ∃ t3, table_at w root [VA_PART0 va; VA_PART1 va; VA_PART2 va] = Some t3 ∧ w !! (t3 + 8 * VA_PART3 va) = Some (pte_of w root va).
Proof.
  rewrite /pte_of. destruct (table_at _ _ _) as [t3|]; [|done]. cbn [mbind option_bind]. intros H. exists t3. split; [done|]. by destruct (w !! _).
Qed.
Lemma pte_of_at w root va t3 e : table_at w root [VA_PART0 va; VA_PART1 va; VA_PART2 va] = Some t3 →
  w !! (t3 + 8 * VA_PART3 va) = Some e → pte_of w root va = e.
Proof. rewrite /pte_of. intros -> H. cbn [mbind option_bind]. by rewrite H. Qed.

(** ** Changes that leave the tables alone *)
Lemma tree_ok_ext m m' root :
  tree_ok m root → (∀ ρ, path_ok ρ → table_at (words m') root ρ = table_at (words m) root ρ) →
  (∀ a, is_Some (words m !! a) → is_Some (words m' !! a)) →
  (∀ ρ t, path_ok ρ → table_at (words m) root ρ = Some t → t ∉ pages m') → NoDup (pages m') →
  Forall (λ p, page_addr p ∧ is_Some (pages_ref m' !! page_num_of p)) (pages m') → tree_ok m' root.
Proof.
  intros [T1 T2 _] Ht Hd Hp Hnd Hall. split; [| |done].
  - intros π π' t H1 H2. rewrite !Ht //. by apply T1.
  - intros π t H1. rewrite Ht // => E. destruct (T2 π t H1 E) as (? & _ & Hi). split_and!; [done|by apply (Hp π)|]. intros i Hi'. by apply Hd, Hi.
Qed.

Lemma alloc_page_ok m root p ps :
  tree_ok m root → pages m = p :: ps →
  ∃ m', kalloc_page m = Ret p m' ∧ tree_ok m' root ∧ words m' = words m ∧ pages m' = ps ∧ kend m' = kend m ∧
    pages_ref m' = <[page_num_of p := mkPage (mkRC 0) false]> (pages_ref m) ∧ page_addr p ∧ p ∉ ps ∧
    (∀ ρ t, path_ok ρ → table_at (words m) root ρ = Some t → t ≠ p).
Proof.
  intros T Hps. pose proof T as [_ T2 [T3 T4]]. rewrite Hps in T3, T4. apply NoDup_cons in T3 as [Hn Hnd].
  apply Forall_cons in T4 as [[Hp [pg Hpg]] Hall]. eexists. split; [exact (kalloc_page_run m p ps pg Hps Hpg)|]. split_and!; try done.
  - apply (tree_ok_ext m); try done.
    + intros ρ t Hρ Ht. destruct (T2 ρ t Hρ Ht) as (_ & Hni & _). rewrite Hps in Hni. set_solver.
    + eapply Forall_impl; [exact Hall|]. intros q [? ?]. split; [done|]. by apply lookup_insert_is_Some'; right.
  - intros ρ t Hρ Ht ->. destruct (T2 ρ p Hρ Ht) as (_ & Hni & _). rewrite Hps in Hni. set_solver.
Qed.

Lemma free_page_ok m root p pg :
  tree_ok m root → page_addr p → p ∉ pages m → (∀ ρ t, path_ok ρ → table_at (words m) root ρ = Some t → t ≠ p) →
  first_page m ≤ p → pages_ref m !! page_num_of p = Some pg → ref_lock pg = false → 1 ≤ count (ref pg) < 2 ^ 63 →
  ∃ m', kfree_page p m = Ret () m' ∧ tree_ok m' root ∧ words m' = words m ∧
    pages m' = (if decide (count (ref pg) ≤ 1) then p :: pages m else pages m) ∧
    pages_ref m' = <[page_num_of p := mkPage (mkRC (count (ref pg) - 1)) false]> (pages_ref m).
Proof.
  intros T Hp Hn Hnt Hfp Hpg Hlk Hc. pose proof T as [_ T2 [T3 T4]].
  assert (Hd : (_decrement_rc (ref pg)).2 = mkRC (count (ref pg) - 1)) by (rewrite /_decrement_rc /= i64_small //; lia).
  eexists. split; [exact (kfree_page_run m p pg Hfp Hpg Hlk)|]. cbv zeta. rewrite Hd. cbn [ref count].
  assert ((count (ref pg) - 1 <=? 0) = bool_decide (count (ref pg) ≤ 1)) as -> by (case_bool_decide; lia).
  assert (Hall : Forall (λ q, page_addr q ∧ is_Some (<[page_num_of p := mkPage (mkRC (count (ref pg) - 1)) false]> (pages_ref m) !! page_num_of q)) (pages m)).
  { eapply Forall_impl; [exact T4|]. intros q [? ?]. split; [done|]. by apply lookup_insert_is_Some'; right. }
  split_and!; try done; [|by case_bool_decide; case_decide].
  apply (tree_ok_ext m); try done; simpl; case_bool_decide; try done.
  - intros ρ t Hρ Ht. apply not_elem_of_cons. split; [by apply (Hnt ρ)|by destruct (T2 ρ t Hρ Ht) as (_ & ? & _)].
  - intros ρ t Hρ Ht. by destruct (T2 ρ t Hρ Ht) as (_ & ? & _).
  - by apply NoDup_cons.
  - apply Forall_cons. split; [|done]. split; [done|]. by rewrite lookup_insert_eq.
Qed.

(** Words of a page that is no table do not matter. *)
Lemma page_words_ok m w' root p :
  tree_ok m root → page_addr p → (∀ ρ t, path_ok ρ → table_at (words m) root ρ = Some t → t ≠ p) →
  (∀ a, (∀ j, 0 ≤ j < 512 → a ≠ p + 8 * j) → w' !! a = words m !! a) →
  (∀ ρ, path_ok ρ → table_at w' root ρ = table_at (words m) root ρ) ∧ ∀ va, pte_of w' root va = pte_of (words m) root va.
Proof.
  intros T Hp Hnt Hw. assert (Hout : ∀ ρ t j, path_ok ρ → table_at (words m) root ρ = Some t → 0 ≤ j < 512 → w' !! (t + 8 * j) = words m !! (t + 8 * j)).
  { intros ρ t j Hρ Ht Hj. apply Hw. intros k Hk E. destruct (to_page _ _ T _ _ Hρ Ht) as (Hpt & _).
    apply word_inj in E as [E _]; [|done..]. by apply (Hnt ρ t). }
  assert (Htab : ∀ ρ, path_ok ρ → table_at w' root ρ = table_at (words m) root ρ).
  { intros ρ Hρ. apply table_at_agree. intros π j σ t -> Ht. destruct (path_prefix _ _ _ Hρ) as [Hπ Hj]. by apply (Hout π). }
  split; [done|]. intros va. rewrite /pte_of Htab; [apply va_path_ok|].
  destruct (table_at (words m) root _) as [t3|] eqn:E; [|done]. cbn [mbind option_bind].
  by rewrite (Hout _ _ _ (va_path_ok va) E (VA_PART3_range va)).
Qed.

Lemma copy_words_ok n : ∀ s dst src,
  (∀ j, 0 ≤ j < Z.of_nat n → is_Some (words (mm s) !! (src + 8 * j)) ∧ is_Some (words (mm s) !! (dst + 8 * j))) →
  (∀ j k, 0 ≤ j < Z.of_nat n → 0 ≤ k < Z.of_nat n → src + 8 * j ≠ dst + 8 * k) →
  ∃ w', copy_words n dst src s = Ret () (set_mm (set_words w' (mm s)) s) ∧
    (∀ j, 0 ≤ j < Z.of_nat n → w' !! (dst + 8 * j) = words (mm s) !! (src + 8 * j)) ∧
    (∀ a, (∀ j, 0 ≤ j < Z.of_nat n → a ≠ dst + 8 * j) → w' !! a = words (mm s) !! a).
Proof.
  induction n as [|n IH]; intros s dst src Hs Hd.
  { exists (words (mm s)). split_and!; [by destruct s as [[] ? ?]|lia|done]. }
  destruct (Hs 0) as [[v Hv] [u Hu]]; [lia|]. rewrite Z.mul_0_r Z.add_0_r in Hv. rewrite Z.mul_0_r Z.add_0_r in Hu.
  set (s1 := set_mm (set_words (<[dst := v]> (words (mm s))) (mm s)) s).
  assert (H0 : ∀ j, 0 ≤ j < Z.of_nat n → words (mm s1) !! (src + 8 + 8 * j) = words (mm s) !! (src + 8 * (j + 1))).
  { intros j Hj. simpl. rewrite lookup_insert_ne; [|f_equal; lia]. intros E. apply (Hd (j + 1) 0); lia. }
  destruct (IH s1 (dst + 8) (src + 8)) as (w' & Hrun & Hcp & Hfr).
  - intros j Hj. rewrite H0 //. replace (dst + 8 + 8 * j) with (dst + 8 * (j + 1)) by lia. split; [apply Hs; lia|].
    simpl. rewrite lookup_insert_ne; [lia|]. apply Hs. lia.
  - intros j k Hj Hk. replace (src + 8 + 8 * j) with (src + 8 * (j + 1)) by lia. replace (dst + 8 + 8 * k) with (dst + 8 * (k + 1)) by lia. apply Hd; lia.
  - exists w'. split_and!.
    + cbn [copy_words]. by rewrite (bind_run _ _ _ _ _ (load64_run _ s v Hv)) (bind_run _ _ _ _ _ (store64_run _ v s u Hu)).
    + intros j Hj. destruct (decide (j = 0)) as [->|Hj0].
      * rewrite !Z.mul_0_r !Z.add_0_r Hfr; [intros; lia|]. simpl. by rewrite lookup_insert_eq.
      * replace (dst + 8 * j) with (dst + 8 + 8 * (j - 1)) by lia. rewrite Hcp; [lia|]. rewrite H0; [lia|]. f_equal. lia.
    + intros a Ha. rewrite Hfr; [intros j Hj; replace (dst + 8 + 8 * j) with (dst + 8 * (j + 1)) by lia; apply Ha; lia|].
      simpl. rewrite lookup_insert_ne //. specialize (Ha 0 ltac:(lia)). lia.
Qed.

(** ** Entries *)
Lemma user_data_valid p : page_addr p → is_valid (PTE_FLAGS (K2P p + PTE_USER_DATA)) = true.
Proof.
  intros Hp. destruct (K2P_range p Hp) as (_ & _ & Hm). rewrite /is_valid /PTE_FLAGS -Z.land_assoc.
  change (Z.land PTE_FLAG_MASK PTE_VALID) with (Z.ones 1). rewrite Z.land_ones //. change PTE_USER_DATA with 1607. change (2 ^ 1) with 2.
  apply negb_true_iff, Z.eqb_neq. dlia.
Qed.
Lemma page_base_of p : page_addr p → PAGE_BASE p = p.
Proof.
  intros [Hm Hr]. rewrite /PAGE_BASE /PAGE_SIZE. change (Z.lnot (4096 - 1)) with (Z.lnot (Z.ones 12)). rewrite -Z.ldiff_land Z.ldiff_ones_r //.
  rewrite Z.shiftr_div_pow2 // Z.shiftl_mul_pow2 //. change (2 ^ 12) with 4096. dlia.
Qed.

(** ** The fault *)
Lemma wp_get_sec s k x Q : sections s !! k = Some x → Q x.2 s → wp (get_sec k) Q s.
Proof. intros H ?. rewrite /wp /get_sec. run_simpl. by rewrite H. Qed.
Lemma set_av_av s v v' : set_av v' (set_av v s) = set_av v' s.
Proof. done. Qed.
Lemma set_av_id s : set_av (av s) s = s.
Proof. by destruct s. Qed.

(** The walk, the choice of the page, and the last check: what is left is the case
    distinction on the entry. *)
Lemma pgfault_split s addr t3 v1 e np v2 :
  covered s addr → get_pte addr true (av s) = Ret (Some (t3 + 8 * VA_PART3 addr)) v1 → words (mm v1) !! (t3 + 8 * VA_PART3 addr) = Some e →
  (if e =? 0 then new_page ← on_mm kalloc_page; vmmap addr new_page PTE_USER_DATA
   else if negb (Z.land (PTE_FLAGS e) PTE_RO =? 0) then
     new_page ← on_mm kalloc_page;
     let original_page := P2K (PTE_ADDRESS e) in
     memcpy_page new_page original_page;; on_mm (kfree_page original_page);; vmmap addr new_page PTE_USER_DATA
   else mret ()) v1 = Ret () v2 →
  page_addr np → words (mm v2) !! (t3 + 8 * VA_PART3 addr) = Some (K2P np + PTE_USER_DATA) →
  pgfault addr s = Ret 0 (set_av v2 s).
Proof.
  intros [Hc Hns] Hw He Hcase Hp He2. destruct (scan_finds (covers addr) (sections s) Hc) as (k & x & Hscan & Hk & Hin & Hcov).
  assert (wp (pgfault addr) (λ r s', r = 0 ∧ s' = set_av v2 s) s) as (r & s' & -> & -> & ->)%wp_run; [|done].
  apply wp_bind, wp_gets. rewrite Hscan. apply wp_bind, (wp_get_sec _ _ x); [done|]. fold (covers addr x.2). rewrite Hcov.
  apply wp_bind, wp_ret, wp_bind. rewrite (Hns x Hin Hcov). apply wp_ret, wp_bind. eapply wp_zoom; [exact Hw|]. apply wp_bind, wp_ret.
  apply wp_bind. eapply wp_zoom; [exact (load64_run _ v1 e He)|]. simpl lset. rewrite set_av_av. set (s1 := set_av v1 s).
  apply wp_bind. apply (wp_mono _ (λ _ s', s' = set_av v2 s)).
  - destruct (e =? 0); [|destruct (negb _)].
    + apply bind_ret_inv in Hcase as (p & v3 & H1 & H2). apply wp_bind. eapply wp_zoom; [exact H1|]. by eapply wp_zoom; [exact H2|].
    + apply bind_ret_inv in Hcase as (p & v3 & H1 & (? & v4 & H2 & (? & v5 & H3 & H4)%bind_ret_inv)%bind_ret_inv).
      apply wp_bind. eapply wp_zoom; [exact H1|]. apply wp_bind. eapply wp_zoom; [exact H2|]. apply wp_bind. eapply wp_zoom; [exact H3|].
      by eapply wp_zoom; [exact H4|].
    + injection Hcase as <-. by apply wp_ret.
  - intros _ ? ->. apply wp_bind. eapply wp_zoom; [exact (load64_run _ v2 _ He2)|]. rewrite (user_data_valid _ Hp).
    apply wp_bind, wp_ret, wp_ret. done.
Qed.

Section fault.
Context (s : astate) (addr : Z).
#[local] Notation m := (mm (av s)).
#[local] Notation root := (pt (pd (av s))).
Hypothesis Hcov : covered s addr.
Hypothesis Htree : tree_ok m root.
Hypothesis Hroot : root ≠ 0.

(** The new mapping, of the page [np] that was free. *)
Definition fault_maps (np : Z) (m' : mstate) : Prop :=
  pgfault addr s = Ret 0 (set_av (set_mm m' (av s)) s) ∧ tree_ok m' root ∧ np ∈ pages m ∧ np ∉ pages m' ∧
  (∀ va, pte_of (words m') root va = if decide (va_page va = va_page addr) then K2P np + PTE_USER_DATA else pte_of (words m) root va) ∧
  pages_ref m' !! page_num_of np = Some (mkPage (mkRC 1) false).

Lemma pgfault_lazy_ok : pte_of (words m) root addr = 0 → (4 ≤ length (pages m))%nat → ∃ np m', fault_maps np m'.
Proof.
  intros He Hpg. pose proof Htree as Ht. pose proof Hroot as Hr.
  destruct (get_pte_alloc (av s) addr Ht Hr ltac:(lia)) as (t3 & m1 & Hw & G & A). pose proof (gr_tree _ _ _ _ G) as T1.
  destruct (to_page _ _ T1 _ _ (va_path_ok addr) A) as (_ & _ & Hsome). destruct (Hsome _ (VA_PART3_range addr)) as [e0 He0].
  assert (e0 = 0) as -> by (by rewrite -He -(gr_pte _ _ _ _ G addr) (pte_of_at _ _ _ _ _ A He0)).
  destruct (gr_pages _ _ _ _ G) as (l & El & Ll). destruct (pages m1) as [|np ps] eqn:Eps; [rewrite El length_app /= in Hpg; lia|].
  destruct (alloc_page_ok m1 _ np ps T1 Eps) as (m2 & Hk & T2 & W2 & P2 & _ & R2 & Hp & Hn & _).
  assert (A2 : table_at (words m2) root [VA_PART0 addr; VA_PART1 addr; VA_PART2 addr] = Some t3) by (by rewrite W2).
  pose proof (get_pte_there (set_mm m2 (av s)) addr t3 true Hr A2) as Hw2.
  destruct (mapped_ok m2 root addr t3 np PTE_USER_DATA (mkPage (mkRC 0) false) T2 A2) as (T3 & _ & Hpte).
  assert (Hv : vmmap addr np PTE_USER_DATA (set_mm m2 (av s)) =
    Ret () (set_mm (mapped m2 (t3 + 8 * VA_PART3 addr) np PTE_USER_DATA (mkPage (mkRC 0) false)) (av s))).
  { pose proof (vmmap_run (set_mm m2 (av s)) (set_mm m2 (av s)) addr np PTE_USER_DATA _ 0 (mkPage (mkRC 0) false) Hw2) as Hv.
    rewrite (page_base_of np Hp) in Hv. apply Hv; [by rewrite /= W2|done|done|by rewrite /= R2 lookup_insert_eq|done]. }
  exists np, (mapped m2 (t3 + 8 * VA_PART3 addr) np PTE_USER_DATA (mkPage (mkRC 0) false)). split_and!; [|done| | | |].
  - apply (pgfault_split s addr t3 (set_mm m1 (av s)) 0 np); [done|exact Hw|exact He0| |done|apply lookup_insert_eq].
    rewrite Z.eqb_refl (bind_run _ _ _ np (set_mm m2 (av s))); [|exact Hv]. by rewrite /on_mm Hk.
  - rewrite El. apply elem_of_app. right. by left.
  - by rewrite /= P2.
  - intros va. rewrite Hpte W2. by rewrite (gr_pte _ _ _ _ G).
  - apply lookup_insert_eq.
Qed.

(** Copy on write: [orig] is the page of the entry. *)
Lemma pgfault_cow_ok orig pg :
  Z.land (PTE_FLAGS (pte_of (words m) root addr)) PTE_RO ≠ 0 → orig = P2K (PTE_ADDRESS (pte_of (words m) root addr)) →
  page_addr orig → orig ∉ pages m → (∀ ρ t, path_ok ρ → table_at (words m) root ρ = Some t → t ≠ orig) → first_page m ≤ orig →
  pages_ref m !! page_num_of orig = Some pg → ref_lock pg = false → 1 ≤ count (ref pg) < 2 ^ 63 → pages m ≠ [] →
  (∀ p j, p ∈ orig :: pages m → 0 ≤ j < 512 → is_Some (words m !! (p + 8 * j))) →
  ∃ np m', fault_maps np m' ∧ (∀ j, 0 ≤ j < 512 → words m' !! (np + 8 * j) = words m !! (orig + 8 * j)) ∧
    (∀ j, 0 ≤ j < 512 → words m' !! (orig + 8 * j) = words m !! (orig + 8 * j)) ∧
    pages_ref m' !! page_num_of orig = Some (mkPage (mkRC (count (ref pg) - 1)) false) ∧
    (orig ∈ pages m' ↔ count (ref pg) ≤ 1).
Proof.
  intros Hro Horig Hpo Hno Hnt Hfp Hpg Hlk Hcnt Hne Hwd. pose proof Htree as Ht. pose proof Hroot as Hr. set (e := pte_of (words m) root addr) in *.
  assert (He0 : e ≠ 0) by (intros E; by rewrite E in Hro).
  destruct (pte_of_nonzero (words m) root addr He0) as (t3 & A & He). fold e in He. set (a := t3 + 8 * VA_PART3 addr) in *.
  destruct (pages m) as [|np ps] eqn:Eps; [done|].
  destruct (alloc_page_ok m root np ps Ht Eps) as (m2 & Hk & T2 & W2 & P2 & K2 & R2 & Hp & Hn & Hnp).
  assert (Hon : orig ≠ np) by (intros ->; apply Hno; by left).
  assert (Hwd2 : ∀ p j, p = orig ∨ p = np → 0 ≤ j < 512 → is_Some (words m2 !! (p + 8 * j))).
  { intros p j Hpj Hj. rewrite W2. apply Hwd; [|done]. destruct Hpj as [->| ->]; [by left|right; by left]. }
  destruct (copy_words_ok 512 (set_mm m2 (av s)) np orig) as (w3 & Hcp & Hc1 & Hc2).
  { intros j Hj. change (Z.of_nat 512) with 512 in Hj. split; apply Hwd2; auto. }
  { intros j k Hj Hk' E. change (Z.of_nat 512) with 512 in *. by apply word_inj in E as [? _]. }
  change (Z.of_nat 512) with 512 in *.
  simpl mm in *. set (m3 := set_words w3 m2) in *.
  destruct (page_words_ok m2 w3 root np T2 Hp) as [Htab3 Hpte3]; [by rewrite W2|done|].
  assert (Hpg3 : pages_ref m3 !! page_num_of orig = Some pg).
  { rewrite /= R2 lookup_insert_ne //. intros E. apply page_num_inj_addr in E; [congruence|done..]. }
  assert (Hdom3 : ∀ x, is_Some (words m2 !! x) → is_Some (w3 !! x)).
  { intros x Hx. destruct (decide (x ∈ words_of (page_region np))) as [(j & Hj & ->)%elem_page_words|Hx'].
    - rewrite Hc1 //. apply Hwd2; auto.
    - rewrite Hc2 //. intros j Hj ->. apply Hx', elem_page_words. eauto. }
  assert (T3 : tree_ok m3 root).
  { pose proof T2 as [_ T22 [T23 T24]]. apply (tree_ok_ext m2); try done. intros ρ t Hρ Ht'. by destruct (T22 ρ t Hρ Ht') as (_ & ? & _). }
  destruct (free_page_ok m3 root orig pg T3 Hpo) as (m4 & Hf & T4 & W4 & P4 & R4); try done.
  { rewrite /= P2. intros ?. apply Hno. by right. }
  { intros ρ t Hρ. rewrite /= Htab3 // W2. by apply Hnt. }
  { by rewrite /first_page /= K2. }
  simpl in W4, P4, R4. rewrite P2 in P4. rewrite R2 in R4.
  assert (A4 : table_at (words m4) root [VA_PART0 addr; VA_PART1 addr; VA_PART2 addr] = Some t3).
  { rewrite W4 Htab3; [apply va_path_ok|by rewrite W2]. }
  pose proof (get_pte_there (set_mm m4 (av s)) addr t3 true Hr A4) as Hw4. set (pg0 := mkPage (mkRC 0) false) in *.
  destruct (mapped_ok m4 root addr t3 np PTE_USER_DATA pg0 T4 A4) as (T5 & _ & Hpte5). fold a in T5, Hpte5, Hw4.
  assert (Hnum : page_num_of orig ≠ page_num_of np) by (intros E; by apply page_num_inj_addr in E).
  assert (Ha : ∀ p j, p = orig ∨ p = np → 0 ≤ j < 512 → a ≠ p + 8 * j).
  { intros p j Hpj Hj E. destruct (to_page _ _ Ht _ _ (va_path_ok addr) A) as (Hpt & _).
    apply word_inj in E as [E _]; [|done|by destruct Hpj as [->| ->]|apply VA_PART3_range|done].
    destruct Hpj as [->| ->]; [by apply (Hnt _ _ (va_path_ok addr) A)|by apply (Hnp _ _ (va_path_ok addr) A)]. }
  assert (Hea : words m4 !! a = Some e) by (rewrite W4 Hc2; [intros j Hj; by apply Ha; auto|by rewrite W2]).
  assert (Hv : vmmap addr np PTE_USER_DATA (set_mm m4 (av s)) = Ret () (set_mm (mapped m4 a np PTE_USER_DATA pg0) (av s))).
  { pose proof (vmmap_run (set_mm m4 (av s)) (set_mm m4 (av s)) addr np PTE_USER_DATA _ e pg0 Hw4) as Hv.
    rewrite (page_base_of np Hp) in Hv. apply Hv; [done..| |done]. rewrite /= R4 lookup_insert_ne // lookup_insert_eq //. }
  exists np, (mapped m4 a np PTE_USER_DATA pg0). split_and!; [split_and!|..].
  - apply (pgfault_split s addr t3 (av s) e np); [done|exact (get_pte_there (av s) addr t3 true Hr A)|exact He| |done|apply lookup_insert_eq].
    rewrite (proj2 (Z.eqb_neq _ _) He0) (proj2 (Z.eqb_neq _ _) Hro). cbn [negb]. rewrite -Horig.
    rewrite (bind_run _ _ _ np (set_mm m2 (av s))); [by rewrite /on_mm Hk|]. cbv zeta. rewrite (bind_run _ _ _ _ _ Hcp).
    rewrite (bind_run _ _ _ () (set_mm m4 (av s))); [|exact Hv]. by rewrite /on_mm /= Hf.
  - done.
  - rewrite Eps. by left.
  - rewrite /= P4. case_decide; [|done]. apply not_elem_of_cons. split; [congruence|done].
  - intros va. rewrite Hpte5 W4 Hpte3 W2. done.
  - apply lookup_insert_eq.
  - intros j Hj. rewrite /= lookup_insert_ne; [apply Ha; auto|]. by rewrite W4 Hc1 // W2.
  - intros j Hj. rewrite /= lookup_insert_ne; [apply Ha; auto|]. rewrite W4 Hc2; [|by rewrite W2].
    intros k Hk' E. by apply word_inj in E as [? _].
  - rewrite /= lookup_insert_ne; [congruence|]. by rewrite R4 lookup_insert_eq.
  - rewrite /= P4. case_decide; [by split; [|left]|]. split; [|lia]. intros ?. exfalso. apply Hno. by right.
Qed.
End fault.

(** A page fault at an address of a section that has no entry yet maps a page
    that was free to the page of that address, readable and writable by the user,
    creating the missing tables, counts its one reference, and changes no other
    mapping. *)
Theorem pgfault_allocates s addr :
  covered s addr → tree_ok (mm (av s)) (pt (pd (av s))) → pt (pd (av s)) ≠ 0 →
  pte_of (words (mm (av s))) (pt (pd (av s))) addr = 0 → (4 ≤ length (pages (mm (av s))))%nat →
  ∃ np m', fault_maps s addr np m'.
Proof. intros H1 H2 H3 H4 H5. by apply pgfault_lazy_ok. Qed.

(** C33: A page fault at an address whose entry is read-only (a page shared by fork)
    maps a free page that holds a copy of the shared page, writable, leaves the
    shared page and every other mapping as they are, drops one reference of the
    shared page, and frees it exactly when that was the last one. *)
Theorem pgfault_copies_on_write s addr orig pg :
  covered s addr → tree_ok (mm (av s)) (pt (pd (av s))) → pt (pd (av s)) ≠ 0 →
  Z.land (PTE_FLAGS (pte_of (words (mm (av s))) (pt (pd (av s))) addr)) PTE_RO ≠ 0 →
  orig = P2K (PTE_ADDRESS (pte_of (words (mm (av s))) (pt (pd (av s))) addr)) →
  page_addr orig → orig ∉ pages (mm (av s)) →
  (∀ ρ t, path_ok ρ → table_at (words (mm (av s))) (pt (pd (av s))) ρ = Some t → t ≠ orig) → first_page (mm (av s)) ≤ orig →
  pages_ref (mm (av s)) !! page_num_of orig = Some pg → ref_lock pg = false → 1 ≤ count (ref pg) < 2 ^ 63 → pages (mm (av s)) ≠ [] →
  (∀ p j, p ∈ orig :: pages (mm (av s)) → 0 ≤ j < 512 → is_Some (words (mm (av s)) !! (p + 8 * j))) →
  ∃ np m', fault_maps s addr np m' ∧
    (∀ j, 0 ≤ j < 512 → words m' !! (np + 8 * j) = words (mm (av s)) !! (orig + 8 * j)) ∧
    (∀ j, 0 ≤ j < 512 → words m' !! (orig + 8 * j) = words (mm (av s)) !! (orig + 8 * j)) ∧
    pages_ref m' !! page_num_of orig = Some (mkPage (mkRC (count (ref pg) - 1)) false) ∧
    (orig ∈ pages m' ↔ count (ref pg) ≤ 1).
Proof. intros. by apply pgfault_cow_ok. Qed.

(** A fresh address space: the directory is one zeroed page, a page of data follows
    it, then six free pages; one section. *)
Definition demo_page (k : Z) : Z := demo_base + 4096 * k.
Definition demo_amem : mstate :=
  mkMem (demo_page <$> seqZ 2 6) [] (list_to_map ((λ i, (256 + Z.of_nat i, mkPage (mkRC 0) false)) <$> seq 0 8))
    (foldr zero_words ∅ (demo_page <$> seqZ 0 8)) (mkRC 0) (mkRC 6) false (KSPACE_MASK + 2 ^ 19).
Definition demo_section : section := mkSec ST_HEAP init_sleeplock 4194304 4210688 None 0 0.
Definition demo_space (f : fstate) (m : mstate) : astate := mkAS (mkVM m (mkPgdir demo_base false 0) 0) [(8, demo_section)] f.

Lemma demo_amem_word k j : 0 ≤ k < 8 → 0 ≤ j < 512 → words demo_amem !! (demo_page k + 8 * j) = Some 0.
Proof.
  intros Hk Hj. change (words demo_amem) with (foldr zero_words ∅ (demo_page <$> seqZ 0 8)).
  assert (Hin : demo_page k ∈ demo_page <$> seqZ 0 8) by (apply list_elem_of_fmap; exists k; split; [done|]; apply elem_of_seqZ; lia).
  revert Hin. generalize (demo_page <$> seqZ 0 8). intros l. induction l as [|p l IH]; [by intros ?%elem_of_nil|]. intros Hin.
  cbn [foldr]. rewrite zero_words_lookup. case_decide; [done|]. apply elem_of_cons in Hin as [E|Hin]; [|by apply IH].
  exfalso. apply H, elem_page_words. exists j. by rewrite -E.
Qed.
Lemma demo_amem_tree : tree_ok demo_amem demo_base.
Proof.
  apply root_only_tree.
  - rewrite -(Z.add_0_r demo_base). apply (demo_addr 0). lia.
  - intros (k & E & Hk%elem_of_seqZ)%list_elem_of_fmap. rewrite /demo_page in E. lia.
  - intros i Hi. rewrite -{1}(Z.add_0_r demo_base). by apply (demo_amem_word 0).
  - apply (NoDup_fmap_2_strong _ _); [|apply NoDup_seqZ]. intros x y _ _. rewrite /demo_page. lia.
  - apply Forall_fmap, Forall_forall. intros k Hk%elem_of_seqZ. split; [apply demo_addr; lia|].
    assert (k = 2 ∨ k = 3 ∨ k = 4 ∨ k = 5 ∨ k = 6 ∨ k = 7) as Hk' by lia. destruct_or! Hk'; subst k; by vm_compute; eexists.
Qed.

Lemma demo_covered f m : covered (demo_space f m) 4198400.
Proof.
  split; [exists (8, demo_section); split; [by left|done]|]. intros x Hx _. apply elem_of_cons in Hx as [->|Hx%elem_of_nil]; done.
Qed.
Lemma demo_pages_left : (4 ≤ length (pages demo_amem))%nat.
Proof. vm_compute. lia. Qed.

Lemma pgfault_allocates_witness : ∃ np m', fault_maps (demo_space demo_files demo_amem) 4198400 np m'.
Proof.
  apply (pgfault_allocates (demo_space demo_files demo_amem) 4198400).
  - exact (demo_covered _ _).
  - exact demo_amem_tree.
  - discriminate.
  - vm_compute. reflexivity.
  - exact demo_pages_left.
Defined.

(** The page of data is mapped read-only first. *)
Lemma demo_shared :
  ∃ m, tree_ok m demo_base ∧ pte_of (words m) demo_base 4198400 = K2P (demo_page 1) + (PTE_USER_DATA + PTE_RO) ∧
    pages_ref m !! page_num_of (demo_page 1) = Some (mkPage (mkRC 1) false) ∧
    (∃ l, pages demo_amem = l ++ pages m ∧ (length l ≤ 3)%nat) ∧ (∀ x, is_Some (words demo_amem !! x) → is_Some (words m !! x)) ∧
    kend m = kend demo_amem ∧
    ∀ ρ t, path_ok ρ → table_at (words m) demo_base ρ = Some t → t ≠ demo_page 1.
Proof.
  assert (Hp1 : page_addr (demo_page 1)) by (apply demo_addr; lia).
  assert (Hnot : ∀ p, p ∈ pages demo_amem → p ≠ demo_page 1).
  { intros p (k & -> & Hk%elem_of_seqZ)%list_elem_of_fmap. rewrite /demo_page. lia. }
  destruct (vmmap_spec (av (demo_space demo_files demo_amem)) 4198400 (demo_page 1) (PTE_USER_DATA + PTE_RO) (mkPage (mkRC 0) false)) as
    (m' & a & H1 & H2 & H3 & H4 & H5 & H6 & H7 & H8 & H9 & H10 & H11).
  - exact demo_amem_tree.
  - discriminate.
  - pose proof demo_pages_left. simpl. lia.
  - by rewrite (page_base_of _ Hp1).
  - rewrite (page_base_of _ Hp1). intros H. by apply (Hnot _ H).
  - done.
  - by vm_compute.
  - done.
  - rewrite (page_base_of _ Hp1) in H3. rewrite (page_base_of _ Hp1) in H6. exists m'.
    split_and!; [exact H2| |exact H6|exact H8|exact H9|exact H10|].
    + etransitivity; [exact (H3 4198400)|reflexivity].
    + intros ρ t Hρ Ht. destruct (H11 ρ t Hρ Ht) as [Ht'|Hin]; [|by apply Hnot].
      destruct ρ as [|i ρ]; [injection Ht' as <-; by vm_compute|]. destruct Hρ as [_ [Hi _]%Forall_cons]. cbn [table_at] in Ht'.
      pose proof (demo_amem_word 0 i ltac:(lia) Hi) as Hz. rewrite /demo_page Z.mul_0_r Z.add_0_r in Hz. simpl pt in Ht'. simpl mm in Ht'.
      rewrite Hz in Ht'. done.
Qed.

Lemma pgfault_copies_on_write_witness : ∃ m np m', fault_maps (demo_space demo_files m) 4198400 np m'.
Proof.
  destruct demo_shared as (m & H1 & H2 & H3 & (l & H4 & H5) & H6 & H7 & H8).
  assert (Hp1 : page_addr (demo_page 1)) by (apply demo_addr; lia).
  assert (Horig : P2K (PTE_ADDRESS (K2P (demo_page 1) + (PTE_USER_DATA + PTE_RO))) = demo_page 1) by (vm_compute; reflexivity).
  destruct (pgfault_copies_on_write (demo_space demo_files m) 4198400 (demo_page 1) (mkPage (mkRC 1) false)) as (np & m' & H & _).
  - exact (demo_covered _ _).
  - exact H1.
  - discriminate.
  - simpl. rewrite H2. vm_compute. discriminate.
  - simpl. rewrite H2. symmetry. exact Horig.
  - exact Hp1.
  - simpl. intros Hin. assert (Hin' : demo_page 1 ∈ pages demo_amem) by (rewrite H4; apply elem_of_app; by right).
    apply list_elem_of_fmap in Hin' as (k & E & Hk%elem_of_seqZ). rewrite /demo_page in E. lia.
  - exact H8.
  - simpl. rewrite /first_page H7. vm_compute. discriminate.
  - exact H3.
  - reflexivity.
  - split; [discriminate|reflexivity].
  - simpl. intros E. pose proof demo_pages_left as Hl. rewrite H4 E length_app /= in Hl. lia.
  - simpl. intros p j Hp Hj. apply H6. assert (∃ k, 0 ≤ k < 8 ∧ p = demo_page k) as (k & Hk & ->).
    { apply elem_of_cons in Hp as [->|Hp]; [by exists 1|]. assert (Hin : p ∈ pages demo_amem) by (rewrite H4; apply elem_of_app; by right).
      apply list_elem_of_fmap in Hin as (k & -> & Hk%elem_of_seqZ). exists k. split; [lia|done]. }
    rewrite demo_amem_word //.
  - exists m, np, m'. exact H.
Defined.
