(* ===== verification/Proc.v ===== *)
(** * Processes and containers, [kernel/proc.c] and [kernel/container.c]

    [pstate] puts the scheduler's state ([Sched.v]), the files ([File.v]), the lists
    of sections ([Paging.v]), the pid bitmaps ([Pidmap.v]) and the tree from pids to
    processes ([RBTree.v]) together.  The ring [children] of a process is the list of
    the processes on it, newest first, since [_insert_into_list] inserts after the
    head.  A structure is named by the address of the tree node inside it; what
    [kalloc] returns is that address less an offset.  [i] is the CPU a call runs on,
    [ctx] its [OpContext].

    [exit] ends, and a [wait] that has to sleep is cut, where the CPU switches to
    another thread; [wait_wake] is what the waiting thread does when it runs again. *)

From stdpp Require Import base numbers list gmap.
From S2P Require Import Prelude Bitmap Spinlock Pidmap Sem Bytes FsDefs BlockCache Cache Inode File Mem Pt Paging RBTree Cpu Sched.

(** [struct pid_proc_rb_t], and the state. *)
Record pid_proc_rb_t := mkPP { pp_pid : Z; pp_proc : Z }.
Record pstate := mkPS {
  pk : kern;
  pfs : fstate;
  psecs : gmap Z (list (Z * section));
  pid_proc_map : rbheap;
  pid_procs : gmap Z pid_proc_rb_t;
  pid_proc_num : Z;
  pid_proc_tree_lock : SpinLock;
  proc_tree_lock : SpinLock;
  global_pidmap : pidmap_t;
  root_proc : Z }.
Definition set_pk v s := mkPS v (pfs s) (psecs s) (pid_proc_map s) (pid_procs s) (pid_proc_num s) (pid_proc_tree_lock s) (proc_tree_lock s) (global_pidmap s) (root_proc s).
Definition set_pfs v s := mkPS (pk s) v (psecs s) (pid_proc_map s) (pid_procs s) (pid_proc_num s) (pid_proc_tree_lock s) (proc_tree_lock s) (global_pidmap s) (root_proc s).
Definition set_psecs v s := mkPS (pk s) (pfs s) v (pid_proc_map s) (pid_procs s) (pid_proc_num s) (pid_proc_tree_lock s) (proc_tree_lock s) (global_pidmap s) (root_proc s).
Definition set_pid_proc_map v s := mkPS (pk s) (pfs s) (psecs s) v (pid_procs s) (pid_proc_num s) (pid_proc_tree_lock s) (proc_tree_lock s) (global_pidmap s) (root_proc s).
Definition set_pid_procs v s := mkPS (pk s) (pfs s) (psecs s) (pid_proc_map s) v (pid_proc_num s) (pid_proc_tree_lock s) (proc_tree_lock s) (global_pidmap s) (root_proc s).
Definition set_pid_proc_num v s := mkPS (pk s) (pfs s) (psecs s) (pid_proc_map s) (pid_procs s) v (pid_proc_tree_lock s) (proc_tree_lock s) (global_pidmap s) (root_proc s).
Definition set_global_pidmap v s := mkPS (pk s) (pfs s) (psecs s) (pid_proc_map s) (pid_procs s) (pid_proc_num s) (pid_proc_tree_lock s) (proc_tree_lock s) v (root_proc s).
Definition pid_tree_lock : Lens pstate SpinLock := mkLens pid_proc_tree_lock
  (λ v s, mkPS (pk s) (pfs s) (psecs s) (pid_proc_map s) (pid_procs s) (pid_proc_num s) v (proc_tree_lock s) (global_pidmap s) (root_proc s)).
Definition tree_lock : Lens pstate SpinLock := mkLens proc_tree_lock
  (λ v s, mkPS (pk s) (pfs s) (psecs s) (pid_proc_map s) (pid_procs s) (pid_proc_num s) (pid_proc_tree_lock s) v (global_pidmap s) (root_proc s)).
Definition on_pk {X} : M kern X → M pstate X := zoom (mkLens pk set_pk).
Definition on_pfs {X} : M fstate X → M pstate X := zoom (mkLens pfs set_pfs).
Definition on_map {X} : M rbheap X → M pstate X := zoom (mkLens pid_proc_map set_pid_proc_map).
Definition on_global {X} : M pidmap_t X → M pstate X := zoom (mkLens global_pidmap set_global_pidmap).
Definition on_km {X} : M mstate X → M pstate X := zoom (mkLens (λ s, km (pk s)) (λ v s, set_pk (set_km v (pk s)) s)).
Definition pget (p : Z) : M pstate proc := on_pk (get_proc p).
Definition pupd (p : Z) (f : proc → proc) : M pstate () := on_pk (upd_proc p f).

(** A computation on the pid map of container [c]. *)
Definition on_pidmap {X} (c : Z) (m : M pidmap_t X) : M pstate X :=
  x ← on_pk (get_cont c);
  match m (c_pidmap x) with
  | Ret a v => on_pk (upd_cont c (set_c_pidmap v));; mret a
  | Panic => panic | Fault => fault | Hang => hang | Fuel => nofuel
  end.

(** A computation on the address space of process [p], on CPU [i]. *)
Definition on_space {X} (i : nat) (p : Z) (m : M astate X) : M pstate X := λ s,
  match procs (pk s) !! p, cpus (pk s) !! i with
  | Some x, Some c =>
      match m (mkAS (mkVM (km (pk s)) (p_pgdir x) (c_ttbr0 c)) (default [] (psecs s !! p)) (pfs s)) with
      | Ret a v => Ret a (set_pfs (afs v) (set_psecs (<[p := sections v]> (psecs s))
                    (set_pk (set_km (mm (av v)) (set_cpus (<[i := set_c_ttbr0 (ttbr0 (av v)) c]> (cpus (pk s)))
                      (set_procs (<[p := set_pgdir (pd (av v)) x]> (procs (pk s))) (pk s)))) s)))
      | Panic => Panic | Fault => Fault | Hang => Hang | Fuel => Fuel
      end
  | _, _ => Fault
  end.

(** ** The map from pids to processes *)
Definition PID_ROOT : Z := 0.
Definition __pid_proc_cmp (m : gmap Z pid_proc_rb_t) (lnode rnode : Z) : bool :=
  match m !! lnode, m !! rnode with
  | Some l, Some r => pp_pid l <? pp_pid r
  | _, _ => false
  end.

(** [sizeof(struct pid_proc_rb_t)] and the offset of its node.  The fields of the new
    node are written by [_rb_insert]. *)
Definition insert_pid_proc_map (p : Z) : M pstate () :=
  a ← on_km (kalloc 40);
  x ← pget p;
  let node := a + 16 in
  modify (λ s, set_pid_procs (<[node := mkPP (u64 (pid x)) p]> (pid_procs s)) s);;
  modify (λ s, set_pid_proc_map (set_nodes (<[node := mkRB 0 0 0]> (nodes (pid_proc_map s))) (pid_proc_map s)) s);;
  _acquire_spinlock pid_tree_lock;;
  m ← gets pid_procs;
  r ← on_map (_rb_insert node PID_ROOT (__pid_proc_cmp m));
  assert_ (r =? 0);;
  modify (λ s, set_pid_proc_num (u64 (pid_proc_num s + 1)) s);;
  release_spinlock pid_tree_lock.

(** [_rb_lookup] of a node [dest] on the stack that has only its pid set; its address
    is passed to the comparison only.  0 when there is none. *)
Definition lookup_pid (pid : Z) : M pstate Z :=
  m ← gets pid_procs;
  on_map (_rb_lookup 0 PID_ROOT (__pid_proc_cmp (<[0 := mkPP (u64 pid) 0]> m))).

(** ** Semaphores of processes: a post wakes the process that waits *)
Fixpoint activate_all (i : nat) (l : list nat) : M kern () :=
  match l with [] => mret () | w :: l => _activate_proc i (Z.of_nat w) false;; activate_all i l end.
Definition post_childexit (i : nat) (p : Z) : M kern () :=
  x ← get_proc p;
  match post_sem (set_activated [] (childexit x)) with
  | Ret _ v => upd_proc p (set_childexit (set_activated [] v));; activate_all i (activated v)
  | Panic => panic | Fault => fault | Hang => hang | Fuel => nofuel
  end.

(** ** The process tree *)
Definition set_parent_to_this (i : nat) (p : Z) : M pstate () :=
  x ← pget p;
  assert_ (p_parent x =? 0);;
  _acquire_spinlock tree_lock;;
  cp ← on_pk (thisproc i);
  pupd p (set_parent cp);;
  pupd cp (λ y, set_children (p :: children y) y);;
  release_spinlock tree_lock.

(** The symbol [proc_entry], and the address of a function. *)
Definition start_proc (proc_entry : Z) (i : nat) (p entry arg : Z) : M pstate Z :=
  _acquire_spinlock tree_lock;;
  x ← pget p;
  (if p_parent x =? 0 then
     r ← gets root_proc;
     pupd p (set_parent r);;
     pupd r (λ y, set_children (p :: children y) y)
   else mret ());;
  release_spinlock tree_lock;;
  pupd p (λ y, set_kcontext (mkKC proc_entry entry arg (k_reserved (kcontext y))) y);;
  x ← pget p;
  l ← on_pidmap (p_container x) get_next_pid;
  pupd p (set_localpid l);;
  on_pk (_activate_proc i p false);;
  mret l.

Definition NOFILE : nat := 128.
Definition init_oftable : list (option nat) := replicate NOFILE None.

(** Fields [init_proc] does not set (the local pid, the working directory) keep what
    the memory held. *)
Definition init_proc (i : nat) (p : Z) : M pstate () :=
  pupd p (set_killed false);;
  pupd p (set_idle false);;
  n ← on_global get_next_pid;
  pupd p (set_pid n);;
  insert_pid_proc_map p;;
  pupd p (set_exitcode 0);;
  pupd p (set_state UNUSED);;
  pupd p (set_childexit (init_sem 0));;
  pupd p (set_children []);;
  pupd p (set_parent 0);;
  on_pk (upd_info p (λ _, init_schinfo false));;
  on_space i p init_space;;
  ks ← on_km kalloc_page;
  pupd p (set_kstack ks);;
  on_km (modify (λ m, set_words (zero_words ks (words m)) m));;
  assert_ (negb (ks =? 0));;
  pupd p (set_ucontext (mkUC [0; 0] 0 0 0 0 (replicate 32 0)));;
  pupd p (set_kcontext (mkKC 0 0 0 (replicate 11 0)));;
  rc ← gets (λ s, root_container (pk s));
  pupd p (set_container rc);;
  pupd p (set_oftable init_oftable).

(** [sizeof(struct proc)] and the offset of its node; [fresh] and [fresh_info] are what
    the memory held. *)
Definition PROC_SIZE : Z := 1248.
Definition PROC_NODE : Z := 112.
Definition new_proc (fresh : proc) (fresh_info : schinfo) : M pstate Z :=
  a ← on_km (kalloc PROC_SIZE);
  let p := a + PROC_NODE in
  on_pk (modify (λ s, set_procs (<[p := fresh]> (procs s)) s));;
  on_pk (modify (λ s, set_infos (<[p := fresh_info]> (infos s)) s));;
  on_pk (modify (λ s, set_rq (set_nodes (<[p := mkRB 0 0 0]> (nodes (rq s))) (rq s)) s));;
  modify (λ s, set_psecs (<[p := []]> (psecs s)) s);;
  mret p.
Definition create_proc (i : nat) (fresh : proc) (fresh_info : schinfo) : M pstate Z :=
  p ← new_proc fresh fresh_info; init_proc i p;; mret p.

Definition init_root_proc (proc_entry kernel_entry : Z) (i : nat) : M pstate () :=
  r ← gets root_proc;
  init_proc i r;;
  pupd r (set_parent r);;
  _ ← start_proc proc_entry i r kernel_entry 123456;
  mret ().

(** ** Exit *)
Fixpoint close_files (ctx : Z) (cp : Z) (k n : nat) : M pstate () :=
  match n with
  | O => mret ()
  | S n =>
      x ← pget cp;
      f ← of_opt (oftable x !! k);
      (match f with
       | Some f => on_pfs (fileclose ctx f);; pupd cp (λ y, set_oftable (<[k := None]> (oftable y)) y)
       | None => mret ()
       end);;
      close_files ctx cp (S k) n
  end.

(** The loop over the children: the first one is moved to the root process each time. *)
Fixpoint reparent (fuel : nat) (i : nat) (cp : Z) : M pstate () :=
  x ← pget cp;
  match children x with
  | [] => mret ()
  | child :: rest =>
      match fuel with
      | O => nofuel
      | S fuel =>
          y ← pget child;
          assert_ (p_parent y =? cp);;
          c ← on_pk (get_cont (p_container x));
          pupd child (set_parent (rootproc c));;
          pupd cp (set_children rest);;
          pupd (rootproc c) (λ z, set_children (child :: children z) z);;
          z ← on_pk (is_zombie child);
          (if z : bool then on_pk (post_childexit i (rootproc c)) else mret ());;
          reparent fuel i cp
      end
  end.

Definition exit (ctx : Z) (i : nat) (code : Z) : M pstate () :=
  cp ← on_pk (thisproc i);
  x ← pget cp;
  c ← on_pk (get_cont (p_container x));
  assert_ (negb (cp =? rootproc c) && negb (idle x));;
  pupd cp (set_exitcode code);;
  close_files ctx cp 0 NOFILE;;
  on_pfs (put_in_op ctx (cwd x));;
  pupd cp (set_cwd 0);;
  _acquire_spinlock tree_lock;;
  x ← pget cp;
  reparent (length (children x)) i cp;;
  x ← pget cp;
  assert_ (bool_decide (children x = []));;
  on_pk (post_childexit i (p_parent x));;
  on_pk _acquire_sched_lock;;
  release_spinlock tree_lock;;
  on_pk (simple_sched i ZOMBIE).

(** ** Wait *)
Definition free_proc (ctx : Z) (i : nat) (child : Z) : M pstate () :=
  on_space i child (free_pgdir ctx);;
  y ← pget child;
  on_global (free_pid (pid y));;
  on_pidmap (p_container y) (free_pid (localpid y));;
  on_km (kfree_page (kstack y));;
  on_km (kfree (child - PROC_NODE));;
  on_pk (modify (λ s, set_procs (delete child (procs s)) s));;
  modify (λ s, set_psecs (delete child (psecs s)) s).

Fixpoint find_zombie (l : list Z) : M pstate (option Z) :=
  match l with
  | [] => mret None
  | child :: l => z ← on_pk (is_zombie child); if z : bool then mret (Some child) else find_zombie l
  end.

(** The part of [wait] after the semaphore: the local pid, the exit code, the pid. *)
Definition wait_reap (ctx : Z) (i : nat) : M pstate (Z * Z * Z) :=
  cp ← on_pk (thisproc i);
  _acquire_spinlock tree_lock;;
  x ← pget cp;
  o ← find_zombie (children x);
  match o with
  | None => panic
  | Some child =>
      y ← pget child;
      assert_ (p_parent y =? cp);;
      pupd cp (λ x, set_children (filter (λ c, c ≠ child) (children x)) x);;
      pupd child (set_state UNUSED);;
      _acquire_spinlock pid_tree_lock;;
      del_node ← lookup_pid (pid y);
      assert_ (negb (del_node =? 0));;
      on_map (_rb_erase del_node PID_ROOT);;
      modify (λ s, set_pid_proc_num (u64 (pid_proc_num s - 1)) s);;
      release_spinlock pid_tree_lock;;
      free_proc ctx i child;;
      release_spinlock tree_lock;;
      mret (localpid y, exitcode y, pid y)
  end.

(** The answer of [wait], or asleep on the semaphore with the [WaitData] given. *)
Inductive wait_result := Waited (r : option (Z * Z * Z)) | Asleep.
Definition wait_sem_childexit {X} (p : Z) (m : M Semaphore X) : M pstate X :=
  x ← pget p;
  match m (childexit x) with
  | Ret a v => pupd p (set_childexit v);; mret a
  | Panic => panic | Fault => fault | Hang => hang | Fuel => nofuel
  end.
Definition wait (ctx : Z) (i : nat) (w : nat) : M pstate wait_result :=
  cp ← on_pk (thisproc i);
  _acquire_spinlock tree_lock;;
  x ← pget cp;
  match children x with
  | [] => release_spinlock tree_lock;; mret (Waited None)
  | _ =>
      release_spinlock tree_lock;;
      got ← wait_sem_childexit cp (_lock_sem;; wait_sem_before w (Z.to_nat cp));
      if got : bool then r ← wait_reap ctx i; mret (Waited (Some r))
      else on_pk (lock_and_sched i SLEEPING);; mret Asleep
  end.
Definition wait_wake (ctx : Z) (i : nat) (w : nat) : M pstate wait_result :=
  cp ← on_pk (thisproc i);
  wait_sig ← wait_sem_childexit cp (wait_sem_after w);
  if wait_sig : bool then r ← wait_reap ctx i; mret (Waited (Some r)) else mret (Waited None).

(** ** Kill *)
Definition kill (i : nat) (pid : Z) : M pstate Z :=
  _acquire_spinlock tree_lock;;
  _acquire_spinlock pid_tree_lock;;
  kill_node ← lookup_pid pid;
  release_spinlock pid_tree_lock;;
  if kill_node =? 0 then release_spinlock tree_lock;; mret (-1)
  else
    m ← gets pid_procs;
    e ← of_opt (m !! kill_node);
    let p := pp_proc e in
    x ← pget p;
    if bool_decide (state x = UNUSED) then release_spinlock tree_lock;; mret (-1)
    else
      pupd p (set_killed true);;
      on_pk (upd_info p (set_prio 0));;
      on_pk (upd_info p (set_weight 88761));;
      on_pk (_activate_proc i p true);;
      release_spinlock tree_lock;;
      mret 0.

(** ** A process that runs nowhere: its page directory stays locked *)
Definition pgdir_lens (p : Z) : Lens pstate SpinLock :=
  mkLens (λ s, default false ((λ x, pd_lock (p_pgdir x)) <$> procs (pk s) !! p))
    (λ l s, set_pk (set_procs (alter (λ x, set_pgdir (mkPgdir (pt (p_pgdir x)) l (online (p_pgdir x))) x) p (procs (pk s))) (pk s)) s).
Fixpoint _get_offline_proc (fuel : nat) (p : Z) : M pstate Z :=
  match fuel with
  | O => nofuel
  | S fuel =>
      _acquire_spinlock (pgdir_lens p);;
      x ← pget p;
      if online (p_pgdir x) =? 0 then mret p
      else
        release_spinlock (pgdir_lens p);;
        (fix walk (l : list Z) : M pstate Z :=
           match l with
           | [] => mret 0
           | child :: l => ret ← _get_offline_proc fuel child; if ret =? 0 then walk l else mret ret
           end) (children x)
  end.
Definition get_offline_proc : M pstate Z :=
  n ← gets (λ s, S (size (procs (pk s)))); r ← gets root_proc; _get_offline_proc n r.

(** ** Fork *)
Fixpoint dup_files (l : list (option nat)) : M pstate (list (option nat)) :=
  match l with
  | [] => mret []
  | f :: l =>
      g ← (match f with Some f => g ← on_pfs (filedup f); mret (Some g) | None => mret None end);
      r ← dup_files l; mret (g :: r)
  end.

(** The pages of one section, [va] on. *)
Fixpoint fork_pages (fuel : nat) (i : nat) (this child va e : Z) : M pstate () :=
  if va <? e then
    match fuel with
    | O => hang
    | S fuel =>
        o ← on_space i this (on_av (get_pte va false));
        (match o with
         | None => mret ()
         | Some p =>
             pte ← on_space i this (load_pte p);
             if is_valid pte
             then on_space i child (on_av (vmmap va (P2K (PTE_ADDRESS pte)) (Z.lor (PTE_FLAGS pte) PTE_RO)))
             else mret ()
         end);;
        fork_pages fuel i this child (u64 (va + PAGE_SIZE)) e
    end
  else mret ().
Fixpoint fork_sections (i : nat) (this child : Z) (l : list (Z * section)) : M pstate () :=
  match l with
  | [] => mret ()
  | (_, st) :: l =>
      let va := PAGE_BASE (st_begin st) in
      fork_pages (range_fuel va (st_end st)) i this child va (st_end st);;
      fork_sections i this child l
  end.

Definition fork (proc_entry trap_return : Z) (i : nat) (fresh : proc) (fresh_info : schinfo) : M pstate Z :=
  child ← create_proc i fresh fresh_info;
  this ← on_pk (thisproc i);
  set_parent_to_this i child;;
  x ← pget this;
  pupd child (set_ucontext (ucontext x));;
  pupd child (λ y, let u := ucontext y in
    set_ucontext (mkUC (q0 u) (spsr u) (elr u) (sp u) (tpidr0 u) (<[0%nat := 0]> (reserved u))) y);;
  d ← on_pfs (on_inodes (inode_share (cwd x)));
  pupd child (set_cwd d);;
  l ← dup_files (oftable x);
  pupd child (set_oftable l);;
  secs ← gets (λ s, default [] (psecs s !! this));
  fork_sections i this child secs;;
  on_space i child (copy_sections secs);;
  start_proc proc_entry i child trap_return 0.

(** ** Containers *)
Definition set_container_to_this (i : nat) (p : Z) : M pstate () :=
  cp ← on_pk (thisproc i); x ← pget cp; pupd p (set_container (p_container x)).

Definition CONTAINER_SIZE : Z := 112.
Definition CONTAINER_NODE : Z := 40.
(** [init_container] of a container that is not the root: [cells] is what the memory of
    its pid map held. *)
Definition init_container (c : Z) (cells : list BitmapCell) : M pstate () :=
  rc ← gets (λ s, root_container (pk s));
  let zeroed := mkCont 0 0 0 0 (mkPidmap 0 0 false 0 []) in
  on_pk (modify (λ s, set_infos (<[c := init_schinfo true]> (infos s)) s));;
  on_pk (modify (λ s, set_rq (set_nodes (<[c := mkRB 0 0 0]> (nodes (rq s))) (set_roots (<[c := 0]> (roots (rq s))) (rq s))) s));;
  pm ← (if decide (c ≠ rc) then
          _ ← on_km (kalloc (LOCAL_PID_MAX_DEFAULT / 8)); mret (init_pidmap LOCAL_PID_MAX_DEFAULT cells)
        else mret (init_static_pidmap 0 LOCAL_PID_MAX_DEFAULT 32));
  on_pk (modify (λ s, set_conts (<[c := set_c_pidmap pm (init_schqueue zeroed)]> (conts s)) s)).
Definition init_root_container : M pstate () :=
  rc ← gets (λ s, root_container (pk s));
  r ← gets root_proc;
  init_container rc [];;
  on_pk (upd_cont rc (set_rootproc r)).

Definition create_container (proc_entry : Z) (i : nat) (cells : list BitmapCell) (fresh : proc) (fresh_info : schinfo)
    (root_entry arg : Z) : M pstate Z :=
  a ← on_km (kalloc CONTAINER_SIZE);
  let c := a + CONTAINER_NODE in
  init_container c cells;;
  cp ← on_pk (thisproc i);
  x ← pget cp;
  on_pk (upd_cont c (set_cparent (p_container x)));;
  p ← create_proc i fresh fresh_info;
  on_pk (upd_cont c (set_rootproc p));;
  set_parent_to_this i p;;
  pupd p (set_container c);;
  _ ← start_proc proc_entry i p root_entry arg;
  on_pk (activate_group i c);;
  mret c.
