(* ===== verification/ProcTree.v ===== *)
(** * The process tree

    The links between parents and children, over every sequence of the calls that
    create, start, end and reap processes and containers. *)

From stdpp Require Import base numbers list gmap.
From S2P Require Import Prelude Bitmap Spinlock Pidmap Sem Bytes FsDefs BlockCache Cache Inode File Mem Pt Paging RBTree Cpu Sched Proc.

(** ** What is observed: links, zombies, containers and their root processes *)
Record pobs := mkObs { o_parent : Z; o_children : list Z; o_zombie : bool; o_cont : Z }.
Definition obs_of (x : proc) : pobs := mkObs (p_parent x) (children x) (bool_decide (state x = ZOMBIE)) (p_container x).
Definition kobs (k : kern) : gmap Z pobs * gmap Z Z := (obs_of <$> procs k, rootproc <$> conts k).
Definition psobs (s : pstate) : (gmap Z pobs * gmap Z Z) * Z := (kobs (pk s), root_proc s).


(** ** The scheduler *)
Lemma obs_insert (m : gmap Z proc) p x y : m !! p = Some x → obs_of y = obs_of x → obs_of <$> <[p := y]> m = obs_of <$> m.
Proof. intros Hx E. rewrite fmap_insert E insert_id // lookup_fmap Hx //. Qed.
Lemma root_insert (m : gmap Z container) c x y : m !! c = Some x → rootproc y = rootproc x → rootproc <$> <[c := y]> m = rootproc <$> m.
Proof. intros Hx E. rewrite fmap_insert E insert_id // lookup_fmap Hx //. Qed.

Lemma keeps_get_proc p : keeps kobs (get_proc p).
Proof. rewrite /get_proc. keeps_solve. Qed.
Lemma keeps_get_info p : keeps kobs (get_info p).
Proof. rewrite /get_info. keeps_solve. Qed.
Lemma keeps_get_cont p : keeps kobs (get_cont p).
Proof. rewrite /get_cont. keeps_solve. Qed.
Lemma keeps_get_cpu i : keeps kobs (get_cpu i).
Proof. rewrite /get_cpu. keeps_solve. Qed.
#[export] Hint Resolve keeps_get_proc keeps_get_info keeps_get_cont keeps_get_cpu : keeps.
Lemma keeps_upd_info p f : keeps kobs (upd_info p f).
Proof. rewrite /upd_info. keeps_solve. done. Qed.
Lemma keeps_upd_cpu p f : keeps kobs (upd_cpu p f).
Proof. rewrite /upd_cpu. keeps_solve. done. Qed.
Lemma keeps_upd_cont c f : (∀ x, rootproc (f x) = rootproc x) → keeps kobs (upd_cont c f).
Proof.
  intros H k ? k'. rewrite /upd_cont /get_cont. run_simpl. destruct (conts k !! c) as [x|] eqn:E; [|done]. intros [= _ <-].
  rewrite /kobs /=. by rewrite (root_insert _ _ x).
Qed.
Lemma keeps_upd_proc p f : (∀ x, obs_of (f x) = obs_of x) → keeps kobs (upd_proc p f).
Proof.
  intros H k ? k'. rewrite /upd_proc /get_proc. run_simpl. destruct (procs k !! p) as [x|] eqn:E; [|done]. intros [= _ <-].
  rewrite /kobs /=. by rewrite (obs_insert _ _ x).
Qed.
Lemma keeps_on_rq {X} (m : M rbheap X) : keeps kobs (on_rq m).
Proof. by apply keeps_zoom. Qed.
Lemma keeps_on_ts {X} (m : M tstate X) : keeps kobs (on_ts m).
Proof. by apply keeps_zoom. Qed.
Lemma keeps_slock : keeps kobs _acquire_sched_lock.
Proof. by apply keeps_acquire. Qed.
Lemma keeps_sunlock : keeps kobs _release_sched_lock.
Proof. by apply keeps_release. Qed.
Lemma keeps_udiv {S X} (P : S → X) a b : keeps P (udiv a b).
Proof. rewrite /udiv. keeps_solve. Qed.
#[export] Hint Resolve keeps_upd_info keeps_upd_cpu keeps_on_rq keeps_on_ts keeps_slock keeps_sunlock keeps_udiv : keeps.
#[export] Hint Extern 2 (keeps kobs (upd_cont _ _)) => apply keeps_upd_cont; reflexivity : keeps.
#[export] Hint Extern 2 (keeps kobs (upd_proc _ _)) => apply keeps_upd_proc; reflexivity : keeps.
Lemma keeps_enqueue c p : keeps kobs (enqueue c p).
Proof. rewrite /enqueue. keeps_solve. Qed.
Lemma keeps_dequeue c p : keeps kobs (dequeue c p).
Proof. apply keeps_on_rq. Qed.
Lemma keeps_thisproc i : keeps kobs (thisproc i).
Proof. rewrite /thisproc. keeps_solve. Qed.
#[export] Hint Resolve keeps_enqueue keeps_dequeue keeps_thisproc : keeps.
Lemma keeps_minvruntime i c : keeps kobs (get_minvruntime i c).
Proof. rewrite /get_minvruntime. keeps_solve. Qed.
#[export] Hint Resolve keeps_minvruntime : keeps.
Lemma keeps_activate_up fuel i : ∀ c, keeps kobs (activate_up fuel i c).
Proof. induction fuel as [|fuel IH]; intros c; cbn [activate_up]; keeps_solve. Qed.
Lemma keeps_charge_up fuel : ∀ c d, keeps kobs (charge_up fuel c d).
Proof. induction fuel as [|fuel IH]; intros c d; cbn [charge_up]; keeps_solve. Qed.
Lemma keeps_leave_up fuel : ∀ c, keeps kobs (leave_up fuel c).
Proof. induction fuel as [|fuel IH]; intros c; cbn [leave_up]; keeps_solve. Qed.
Lemma keeps_recur fuel : ∀ c, keeps kobs (recur_get_proc fuel c).
Proof. induction fuel as [|fuel IH]; intros c; cbn [recur_get_proc]; keeps_solve. Qed.
#[export] Hint Resolve keeps_activate_up keeps_charge_up keeps_leave_up keeps_recur : keeps.
Lemma keeps_pick i : keeps kobs (pick_next i).
Proof. rewrite /pick_next /cont_fuel. keeps_solve. Qed.
Lemma keeps_latency c : keeps kobs (get_sched_latency c).
Proof. rewrite /get_sched_latency. keeps_solve. Qed.
#[export] Hint Resolve keeps_pick keeps_latency : keeps.
Lemma keeps_update_proc i p : keeps kobs (update_this_proc i p).
Proof. rewrite /update_this_proc. keeps_solve. Qed.
Lemma keeps_is_state p st : keeps kobs (is_state p st).
Proof. rewrite /is_state. keeps_solve. Qed.
Lemma keeps_activate_group i c : keeps kobs (activate_group i c).
Proof. rewrite /activate_group. keeps_solve. Qed.
Lemma keeps_on_vm {X} i p (m : M vmem X) : keeps kobs (on_vm i p m).
Proof.
  intros k a k'. rewrite /on_vm. destruct (procs k !! p) as [x|] eqn:E; [|done]. destruct (cpus k !! i); [|done].
  destruct (m _); [|done..]. intros [= _ <-]. rewrite /kobs /=. by rewrite (obs_insert _ _ x).
Qed.
#[export] Hint Resolve keeps_update_proc keeps_is_state keeps_activate_group keeps_on_vm : keeps.

(** Peel the first call of a run off; the rest of a run that changes nothing observed. *)
Ltac peel H x s H1 := apply bind_ret_inv in H as (x & s & H1 & H).
Ltac rest_keeps H :=
  match type of H with
  | ?m _ = Ret _ _ => let E := fresh "E" in
      match goal with |- ?P _ = _ => assert (keeps P m) as E by keeps_solve; rewrite (E _ _ _ H); clear E end
  end.

Lemma upd_proc_inv p f k u k' : upd_proc p f k = Ret u k' → ∃ x, procs k !! p = Some x ∧ k' = set_procs (<[p := f x]> (procs k)) k.
Proof. rewrite /upd_proc /get_proc. run_simpl. destruct (procs k !! p) as [x|]; [|done]. intros [= _ <-]. eauto. Qed.
Lemma get_proc_inv p k x k' : get_proc p k = Ret x k' → procs k !! p = Some x ∧ k' = k.
Proof. rewrite /get_proc. run_simpl. destruct (procs k !! p); [|done]. by intros [= -> ->]. Qed.
Lemma set_state_obs (m : gmap Z proc) p x st : m !! p = Some x → state x ≠ ZOMBIE → st ≠ ZOMBIE → obs_of <$> <[p := set_state st x]> m = obs_of <$> m.
Proof. intros Hx H1 H2. apply (obs_insert _ _ x); [done|]. rewrite /obs_of /=. by rewrite !bool_decide_eq_false_2. Qed.

Lemma keeps_activate i p al : keeps kobs (_activate_proc i p al).
Proof.
  intros k r k' H. peel H u k1 Hl. rewrite -(keeps_slock _ _ _ Hl). clear Hl. peel H x k2 Hx. apply get_proc_inv in Hx as [Hx ->].
  destruct (_ || _) eqn:E1 in H; [rest_keeps H; done|]. destruct (_ || _) eqn:E2 in H; [|rest_keeps H; done].
  peel H v k3 Hu. apply upd_proc_inv in Hu as (y & Hy & ->). rewrite Hx in Hy. injection Hy as <-. rewrite /cont_fuel in H.
  rest_keeps H. rewrite /kobs /=. rewrite (set_state_obs _ _ x) //. by destruct (state x).
Qed.
#[export] Hint Resolve keeps_activate : keeps.
Lemma keeps_activate_all i l : keeps kobs (activate_all i l).
Proof. induction l as [|w l IH]; cbn [activate_all]; keeps_solve. Qed.
#[export] Hint Resolve keeps_activate_all : keeps.
Lemma keeps_post_childexit i p : keeps kobs (post_childexit i p).
Proof. rewrite /post_childexit. keeps_solve. Qed.
#[export] Hint Resolve keeps_post_childexit : keeps.

(** [sched] makes a zombie of the process that asks for it, and nothing else changes. *)
Definition zombify (x : pobs) : pobs := mkObs (o_parent x) (o_children x) true (o_cont x).
Lemma simple_sched_obs i st k u k' :
  simple_sched i st k = Ret u k' →
  ∃ c, cpus k !! i = Some c ∧ is_Some (procs k !! cur_proc c) ∧
    kobs k' = if decide (st = ZOMBIE) then (alter zombify (cur_proc c) (kobs k).1, (kobs k).2) else kobs k.
Proof.
  intros H. peel H this k1 Ht. peel Ht c k0 Hc. rewrite /get_cpu in Hc. revert Hc. run_simpl. destruct (cpus k !! i) as [c'|] eqn:Ec; [|done].
  intros [= <- <-]. injection Ht as <- <-. exists c'. split; [done|]. peel H x k2 Hx. apply get_proc_inv in Hx as [Hx ->].
  split; [by rewrite Hx|]. destruct (killed x && _) eqn:Ek.
  { rest_keeps H. apply andb_true_iff in Ek as [_ Ek%negb_true_iff%bool_decide_eq_false]. by rewrite decide_False. }
  clear Ek. peel H v k2 Ha. rewrite /assert_ in Ha. case_bool_decide as Hst; [|done]. injection Ha as <- <-.
  assert (Hlater : ∀ k3 k4 (w : ()), (next ← pick_next i; update_this_proc i next;; y ← get_proc next; assert_ (bool_decide (state y = RUNNABLE));;
    upd_proc next (set_state RUNNING);; now ← on_ts get_timestamp_ms; upd_info next (set_starttime now);;
    (if decide (next ≠ cur_proc c') then ipt ← gets invalid_pt; on_vm i next (attach_pgdir ipt) else mret ());; _release_sched_lock) k3 = Ret w k4 →
    kobs k4 = kobs k3).
  { clear. intros k3 k4 w H. peel H n k5 Hp. rewrite -(keeps_pick _ _ _ _ Hp). peel H v k6 Hu. rewrite -(keeps_update_proc _ _ _ _ _ Hu).
    peel H y k7 Hy. apply get_proc_inv in Hy as [Hy ->]. peel H v' k8 Ha. rewrite /assert_ in Ha. case_bool_decide as Hs; [|done].
    injection Ha as <- <-. peel H v'' k9 Hu'. apply upd_proc_inv in Hu' as (y' & Hy' & ->). rewrite Hy in Hy'. injection Hy' as <-.
    rest_keeps H. rewrite /kobs /=. rewrite (set_state_obs _ _ y) //; congruence. }
  peel H v k3 Hu. rewrite (Hlater _ _ _ H). clear H Hlater.
  (* the state of the process that leaves *)
  peel Hu this k4 Ht. rewrite /thisproc /get_cpu in Ht. revert Ht. run_simpl. rewrite Ec. intros [= <- <-].
  peel Hu v' k5 Hw. apply upd_proc_inv in Hw as (x' & Hx' & ->). rewrite Hx in Hx'. injection Hx' as <-. rewrite /cont_fuel in Hu. rest_keeps Hu. rewrite /kobs. cbn [fst snd procs conts set_procs]. destruct (decide (st = ZOMBIE)) as [E|E].
  - subst st. apply (f_equal2 pair); [|done]. rewrite fmap_insert. apply map_eq. intros q. destruct (decide (q = cur_proc c')) as [->|].
    + rewrite lookup_insert_eq lookup_alter_eq lookup_fmap Hx. done.
    + rewrite lookup_insert_ne ?lookup_alter_ne //; congruence.
  - rewrite (set_state_obs _ _ x) //. congruence.
Qed.

(** ** The calls of [kernel/proc.c] *)
Lemma pkeeps_pk {X} (m : M kern X) : keeps kobs m → keeps psobs (on_pk m).
Proof. apply keeps_zoom_in. intros v s. rewrite /psobs /=. by intros ->. Qed.
Lemma pkeeps_pfs {X} (m : M fstate X) : keeps psobs (on_pfs m).
Proof. by apply keeps_zoom. Qed.
Lemma pkeeps_map {X} (m : M rbheap X) : keeps psobs (on_map m).
Proof. by apply keeps_zoom. Qed.
Lemma pkeeps_global {X} (m : M pidmap_t X) : keeps psobs (on_global m).
Proof. by apply keeps_zoom. Qed.
Lemma pkeeps_km {X} (m : M mstate X) : keeps psobs (on_km m).
Proof. by apply keeps_zoom. Qed.
Lemma pkeeps_space {X} i p (m : M astate X) : keeps psobs (on_space i p m).
Proof.
  intros k a k'. rewrite /on_space. destruct (procs (pk k) !! p) as [x|] eqn:E; [|done]. destruct (cpus (pk k) !! i); [|done].
  destruct (m _); [|done..]. intros [= _ <-]. rewrite /psobs /kobs /=. by rewrite (obs_insert _ _ x).
Qed.
#[export] Hint Resolve pkeeps_pfs pkeeps_map pkeeps_global pkeeps_km pkeeps_space : keeps.
#[export] Hint Extern 3 (keeps psobs (on_pk _)) => apply pkeeps_pk; keeps_solve : keeps.
#[export] Hint Extern 2 (keeps psobs (_acquire_spinlock _)) => apply keeps_acquire; reflexivity : keeps.
#[export] Hint Extern 2 (keeps psobs (release_spinlock _)) => apply keeps_release; reflexivity : keeps.
Lemma pkeeps_pget p : keeps psobs (pget p).
Proof. rewrite /pget. auto with keeps. Qed.
Lemma pkeeps_pupd p f : (∀ x, obs_of (f x) = obs_of x) → keeps psobs (pupd p f).
Proof. intros. by apply pkeeps_pk, keeps_upd_proc. Qed.
Lemma pkeeps_pidmap {X} c (m : M pidmap_t X) : keeps psobs (on_pidmap c m).
Proof. rewrite /on_pidmap. keeps_solve. Qed.
#[export] Hint Resolve pkeeps_pget pkeeps_pidmap : keeps.
#[export] Hint Extern 2 (keeps psobs (pupd _ _)) => apply pkeeps_pupd; reflexivity : keeps.
Lemma pkeeps_insert_map p : keeps psobs (insert_pid_proc_map p).
Proof. rewrite /insert_pid_proc_map. keeps_solve; done. Qed.
Lemma pkeeps_lookup n : keeps psobs (lookup_pid n).
Proof. rewrite /lookup_pid. keeps_solve. Qed.
#[export] Hint Resolve pkeeps_insert_map pkeeps_lookup : keeps.
Lemma pkeeps_close_files ctx cp n : ∀ k, keeps psobs (close_files ctx cp k n).
Proof. induction n as [|n IH]; intros k; cbn [close_files]; keeps_solve. Qed.
Lemma pkeeps_find_zombie l : keeps psobs (find_zombie l).
Proof. induction l as [|c l IH]; cbn [find_zombie]; rewrite ?/is_zombie; keeps_solve. Qed.
Lemma pkeeps_dup_files l : keeps psobs (dup_files l).
Proof. induction l as [|f l IH]; cbn [dup_files]; keeps_solve. Qed.
Lemma pkeeps_fork_pages fuel i a b e : ∀ va, keeps psobs (fork_pages fuel i a b va e).
Proof. induction fuel as [|fuel IH]; intros va; cbn [fork_pages]; keeps_solve. Qed.
#[export] Hint Resolve pkeeps_close_files pkeeps_find_zombie pkeeps_dup_files pkeeps_fork_pages : keeps.
Lemma pkeeps_fork_sections i a b l : keeps psobs (fork_sections i a b l).
Proof. induction l as [|[? st] l IH]; cbn [fork_sections]; keeps_solve. Qed.
Lemma pkeeps_childexit {X} p (m : M Semaphore X) : keeps psobs (wait_sem_childexit p m).
Proof. rewrite /wait_sem_childexit. keeps_solve. Qed.
#[export] Hint Resolve pkeeps_fork_sections pkeeps_childexit : keeps.
Lemma pkeeps_kill i n : keeps psobs (kill i n).
Proof. rewrite /kill. keeps_solve. Qed.

(** ** The invariant, and the changes of the calls *)
Record linked (F : gmap Z pobs) (R : gmap Z Z) (r : Z) : Prop := {
  ln_child p x c : F !! p = Some x → c ∈ o_children x → ∃ y, F !! c = Some y ∧ o_parent y = p;
  ln_parent c y : F !! c = Some y → o_parent y ≠ 0 → c ≠ r → ∃ x, F !! o_parent y = Some x ∧ c ∈ o_children x;
  ln_nodup p x : F !! p = Some x → NoDup (o_children x);
  ln_null : F !! 0 = None;
  ln_root : ∃ x, F !! r = Some x ∧ o_parent x = r ∧ R !! o_cont x = Some r;
  ln_top p x : F !! p = Some x → r ∉ o_children x;
  ln_zombie p x : F !! p = Some x → o_zombie x = true → o_children x = [];
  ln_cont c q : R !! c = Some q → q ≠ 0 → ∃ x, F !! q = Some x ∧ o_cont x = c ∧ o_zombie x = false }.

Definition with_parent q (x : pobs) := mkObs q (o_children x) (o_zombie x) (o_cont x).
Definition with_children l (x : pobs) := mkObs (o_parent x) l (o_zombie x) (o_cont x).
Definition with_cont c (x : pobs) := mkObs (o_parent x) (o_children x) (o_zombie x) c.
Definition add_child p (x : pobs) := with_children (p :: o_children x) x.
(** [p] becomes a child of [q]. *)
Definition link (p q : Z) (F : gmap Z pobs) : gmap Z pobs := alter (add_child p) q (alter (with_parent q) p F).

(** The entry of a process after [alter]. *)
Lemma alter_inv (f : pobs → pobs) p (F : gmap Z pobs) q y :
  alter f p F !! q = Some y → ∃ x, F !! q = Some x ∧ y = if decide (q = p) then f x else x.
Proof.
  destruct (decide (q = p)) as [->|]; [rewrite lookup_alter_eq|rewrite lookup_alter_ne; [congruence|eauto]].
  destruct (F !! p) as [x|]; [|done]. intros [= <-]. eauto.
Qed.
Lemma alter_some (f : pobs → pobs) p (F : gmap Z pobs) q x :
  F !! q = Some x → alter f p F !! q = Some (if decide (q = p) then f x else x).
Proof. intros H. destruct (decide (q = p)) as [->|]; [by rewrite lookup_alter_eq H|by rewrite lookup_alter_ne; [congruence|]]. Qed.

(** One process moves below another: the links of a process to its parent and of the
    parents to it are rewritten together. *)
Lemma link_inv p q F z y :
  link p q F !! z = Some y → ∃ x, F !! z = Some x ∧
    y = mkObs (if decide (z = p) then q else o_parent x) (if decide (z = q) then p :: o_children x else o_children x) (o_zombie x) (o_cont x).
Proof.
  rewrite /link. intros (x1 & (x & Hx & ->)%alter_inv & ->)%alter_inv. exists x. split; [done|].
  destruct (decide (z = q)), (decide (z = p)); simpl; by destruct x.
Qed.
Lemma link_some p q F z x : F !! z = Some x → link p q F !! z =
  Some (mkObs (if decide (z = p) then q else o_parent x) (if decide (z = q) then p :: o_children x else o_children x) (o_zombie x) (o_cont x)).
Proof.
  intros Hx. rewrite /link (alter_some _ _ _ z (if decide (z = p) then with_parent q x else x)); [by apply alter_some|].
  destruct (decide (z = q)), (decide (z = p)); simpl; by destruct x.
Qed.

Lemma link_linked F R r p q x y :
  linked F R r → F !! p = Some x → o_parent x = 0 → F !! q = Some y → o_zombie y = false → linked (link p q F) R r.
Proof.
  intros [H1 H2 H3 H4 H5 H6 H7 H8] Hp Hx Hq Hz. assert (Hnc : ∀ z w, F !! z = Some w → p ∉ o_children w).
  { intros z w Hw Hin. destruct (H1 z w p Hw Hin) as (x' & Hx' & E). assert (z = 0) as Hz0 by congruence. by rewrite Hz0 H4 in Hw. }
  assert (Hpr : p ≠ r) by (intros ->; destruct H5 as (x' & Hx' & E & _); assert (r = 0) as Hr0 by congruence; by rewrite Hr0 H4 in Hx').
  split.
  - intros z w c (w0 & Hw0 & ->)%link_inv. simpl. intros Hc. assert (c = p ∧ z = q ∨ c ∈ o_children w0) as [[-> ->]|Hc'].
    { destruct (decide (z = q)); [apply elem_of_cons in Hc as [->|Hc]; [by left|by right]|by right]. }
    + rewrite (link_some _ _ _ p x Hp). eexists. split; [done|]. simpl. by rewrite decide_True.
    + destruct (H1 z w0 c Hw0 Hc') as (v & Hv & Ev). rewrite (link_some _ _ _ c v Hv). eexists. split; [done|]. simpl.
      rewrite decide_False //. intros ->. by apply (Hnc z w0).
  - intros c w (w0 & Hw0 & ->)%link_inv. simpl. intros Hpar Hcr. destruct (decide (c = p)) as [->|Hcp].
    + rewrite (link_some _ _ _ q y Hq). eexists. split; [done|]. simpl. rewrite decide_True //. by left.
    + destruct (H2 c w0 Hw0 Hpar Hcr) as (v & Hv & Hin). rewrite (link_some _ _ _ _ v Hv). eexists. split; [done|]. simpl.
      destruct (decide (o_parent w0 = q)); [by right|done].
  - intros z w (w0 & Hw0 & ->)%link_inv. simpl. pose proof (H3 z w0 Hw0). pose proof (Hnc z w0 Hw0).
    destruct (decide (z = q)); [by apply NoDup_cons|done].
  - destruct (link p q F !! 0) eqn:E; [|done]. apply link_inv in E as (? & E & _). by rewrite H4 in E.
  - destruct H5 as (v & Hv & Ev & Er). rewrite (link_some _ _ _ r v Hv). eexists. split; [done|]. simpl. by rewrite decide_False; [congruence|].
  - intros z w (w0 & Hw0 & ->)%link_inv. simpl. pose proof (H6 z w0 Hw0). destruct (decide (z = q)); [|done].
    apply not_elem_of_cons. split; [congruence|done].
  - intros z w (w0 & Hw0 & ->)%link_inv. simpl. intros Hzw. destruct (decide (z = q)) as [->|]; [congruence|by apply (H7 z)].
  - intros c z Hc Hz0. destruct (H8 c z Hc Hz0) as (v & Hv & ? & ?). rewrite (link_some _ _ _ z v Hv). by eexists.
Qed.

(** [c] leaves the children of [p], which become [l]. *)
Definition unlink (p c : Z) (l : list Z) (F : gmap Z pobs) : gmap Z pobs :=
  alter (with_children l) p (alter (with_parent 0) c F).
Lemma unlink_inv p c l F z y :
  unlink p c l F !! z = Some y → ∃ x, F !! z = Some x ∧
    y = mkObs (if decide (z = c) then 0 else o_parent x) (if decide (z = p) then l else o_children x) (o_zombie x) (o_cont x).
Proof.
  rewrite /unlink. intros (x1 & (x & Hx & ->)%alter_inv & ->)%alter_inv. exists x. split; [done|].
  destruct (decide (z = p)), (decide (z = c)); simpl; by destruct x.
Qed.
Lemma unlink_some p c l F z x : F !! z = Some x → unlink p c l F !! z =
  Some (mkObs (if decide (z = c) then 0 else o_parent x) (if decide (z = p) then l else o_children x) (o_zombie x) (o_cont x)).
Proof.
  intros Hx. rewrite /unlink (alter_some _ _ _ z (if decide (z = c) then with_parent 0 x else x)); [by apply alter_some|].
  destruct (decide (z = p)), (decide (z = c)); simpl; by destruct x.
Qed.
Lemma unlink_linked F R r p c l x :
  linked F R r → F !! p = Some x → c ∈ o_children x → NoDup l → (∀ z, z ∈ l ↔ z ∈ o_children x ∧ z ≠ c) → linked (unlink p c l F) R r.
Proof.
  intros [H1 H2 H3 H4 H5 H6 H7 H8] Hp Hc Hnd Hl. destruct (H1 p x c Hp Hc) as (v & Hv & Ev).
  assert (Hcr : c ≠ r) by (intros ->; by apply (H6 p x)).
  assert (Hch : ∀ z w d, F !! z = Some w → d ∈ (if decide (z = p) then l else o_children w) ↔ d ∈ o_children w ∧ d ≠ c).
  { intros z w d Hw. destruct (decide (z = p)) as [->|Hz]; [assert (w = x) as -> by congruence; apply Hl|].
    split; [|by intros [? _]]. intros Hd. split; [done|]. intros ->. destruct (H1 z w c Hw Hd) as (v' & Hv' & Ev'). congruence. }
  split.
  - intros z w d (w0 & Hw0 & ->)%unlink_inv. cbn [o_children]. rewrite (Hch z w0 d Hw0). intros [Hd Hne].
    destruct (H1 z w0 d Hw0 Hd) as (u & Hu & Eu). rewrite (unlink_some _ _ _ _ _ u Hu). eexists. split; [done|]. simpl. by rewrite decide_False.
  - intros d w (w0 & Hw0 & ->)%unlink_inv. simpl. destruct (decide (d = c)) as [->|Hd]; [done|]. intros Hpar Hdr.
    destruct (H2 d w0 Hw0 Hpar Hdr) as (u & Hu & Hin). rewrite (unlink_some _ _ _ _ _ u Hu). eexists. split; [done|]. cbn [o_children].
    by apply (Hch _ u d Hu).
  - intros z w (w0 & Hw0 & ->)%unlink_inv. simpl. destruct (decide (z = p)); [done|by apply (H3 z)].
  - destruct (unlink p c l F !! 0) eqn:E; [|done]. apply unlink_inv in E as (? & E & _). by rewrite H4 in E.
  - destruct H5 as (u & Hu & Eu & Er). rewrite (unlink_some _ _ _ _ _ u Hu). eexists. split; [done|]. simpl. by rewrite decide_False; [congruence|].
  - intros z w (w0 & Hw0 & ->)%unlink_inv. cbn [o_children]. rewrite (Hch z w0 r Hw0). intros [Hin _]. by apply (H6 z w0).
  - intros z w (w0 & Hw0 & ->)%unlink_inv. simpl. intros Hz. destruct (decide (z = p)) as [->|]; [|by apply (H7 z)].
    assert (w0 = x) as -> by congruence. exfalso. rewrite (H7 p x Hp Hz) in Hc. by apply elem_of_nil in Hc.
  - intros d z Hd Hz0. destruct (H8 d z Hd Hz0) as (u & Hu & ? & ?). rewrite (unlink_some _ _ _ _ _ u Hu). by eexists.
Qed.

(** The first child of [p] goes to [q]. *)
Lemma move_linked F R r p q c l x y :
  linked F R r → F !! p = Some x → o_children x = c :: l → p ≠ q → F !! q = Some y → o_zombie y = false →
  linked (alter (add_child c) q (alter (with_children l) p (alter (with_parent q) c F))) R r.
Proof.
  intros H Hp Hx Hpq Hq Hz. assert (Hc : c ∈ o_children x) by (rewrite Hx; by left).
  pose proof (ln_nodup _ _ _ H p x Hp) as Hnd. rewrite Hx in Hnd. apply NoDup_cons in Hnd as [Hcl Hnd].
  assert (Hl : ∀ z, z ∈ l ↔ z ∈ o_children x ∧ z ≠ c).
  { intros z. rewrite Hx elem_of_cons. split; [|naive_solver]. intros Hzl. split; [by right|]. by intros ->. }
  destruct (ln_child _ _ _ H p x c Hp Hc) as (v & Hv & _).
  pose proof (unlink_linked F R r p c l x H Hp Hc Hnd Hl) as H'.
  assert (E : alter (add_child c) q (alter (with_children l) p (alter (with_parent q) c F)) = link c q (unlink p c l F)).
  { apply map_eq. intros z. destruct (F !! z) as [w|] eqn:Ew.
    - rewrite (link_some _ _ _ z _ (unlink_some p c l F z w Ew)). rewrite (alter_some _ _ _ z _ (alter_some _ _ _ z _ (alter_some _ _ _ z _ Ew))).
      clear Ew. destruct (decide (z = q)), (decide (z = p)), (decide (z = c)); first [congruence|by destruct w].
    - trans (None : option pobs); [|symmetry]; rewrite ?/link ?/unlink !lookup_alter_None //. }
  rewrite E. eapply link_linked; [exact H'|exact (unlink_some p c l F c v Hv)|simpl; by rewrite decide_True|exact (unlink_some p c l F q y Hq)|done].
Qed.

Lemma new_linked F R r p c : linked F R r → F !! p = None → p ≠ 0 → linked (<[p := mkObs 0 [] false c]> F) R r.
Proof.
  intros [H1 H2 H3 H4 H5 H6 H7 H8] Hp Hp0.
  assert (Hin : ∀ z w, <[p := mkObs 0 [] false c]> F !! z = Some w → z = p ∧ w = mkObs 0 [] false c ∨ F !! z = Some w).
  { intros z w. destruct (decide (z = p)) as [->|]; [rewrite lookup_insert_eq; intros [= <-]; by left|].
    rewrite lookup_insert_ne; [congruence|]. by right. }
  assert (Hold : ∀ z w, F !! z = Some w → <[p := mkObs 0 [] false c]> F !! z = Some w) by (intros z w Hw; rewrite lookup_insert_ne //; congruence).
  split.
  - intros z w d [[-> ->]|Hw]%Hin Hd; [by apply elem_of_nil in Hd|]. destruct (H1 z w d Hw Hd) as (y & Hy & ?). eauto.
  - intros z w [[-> ->]|Hw]%Hin Hpar Hr; [done|]. destruct (H2 z w Hw Hpar Hr) as (x & Hx & ?). eauto.
  - intros z w [[-> ->]|Hw]%Hin; [apply NoDup_nil_2|by apply (H3 z)].
  - by rewrite lookup_insert_ne.
  - destruct H5 as (x & Hx & ?). eauto.
  - intros z w [[-> ->]|Hw]%Hin; [apply not_elem_of_nil|by apply (H6 z)].
  - intros z w [[-> ->]|Hw]%Hin; [done|by apply (H7 z)].
  - intros d q Hd Hq. destruct (H8 d q Hd Hq) as (x & Hx & ?). eauto.
Qed.

(** A change of one process that keeps its links, if it is not the root process of a
    container or stays one. *)
Lemma keep_links_linked F R r p (f : pobs → pobs) x :
  linked F R r → F !! p = Some x → o_parent (f x) = o_parent x → o_children (f x) = o_children x →
  (o_zombie (f x) = true → o_children x = []) → (∀ c, R !! c ≠ Some p) → linked (alter f p F) R r.
Proof.
  intros [H1 H2 H3 H4 H5 H6 H7 H8] Hp Ep Ec Ez Hr.
  assert (Hin : ∀ z w, alter f p F !! z = Some w → ∃ w0, F !! z = Some w0 ∧ o_parent w = o_parent w0 ∧ o_children w = o_children w0 ∧ (z ≠ p → w = w0)).
  { intros z w (w0 & Hw0 & ->)%alter_inv. exists w0. destruct (decide (z = p)) as [->|]; [|by split_and!]. assert (w0 = x) as -> by congruence. by split_and!. }
  assert (Hold : ∀ z w, F !! z = Some w → ∃ w', alter f p F !! z = Some w' ∧ o_parent w' = o_parent w ∧ o_children w' = o_children w ∧ (z ≠ p → w' = w)).
  { intros z w Hw. rewrite (alter_some f p F z w Hw). eexists. split; [done|]. destruct (decide (z = p)) as [->|]; [|by split_and!].
    assert (w = x) as -> by congruence. by split_and!. }
  split.
  - intros z w d (w0 & Hw0 & _ & -> & _)%Hin Hd. destruct (H1 z w0 d Hw0 Hd) as (y & Hy & <-). destruct (Hold d y Hy) as (y' & ? & ? & _). eauto.
  - intros z w (w0 & Hw0 & -> & _)%Hin Hpar Hzr. destruct (H2 z w0 Hw0 Hpar Hzr) as (y & Hy & ?). destruct (Hold _ y Hy) as (y' & ? & _ & Ey & _).
    exists y'. by rewrite Ey.
  - intros z w (w0 & Hw0 & _ & -> & _)%Hin. by apply (H3 z).
  - destruct (alter f p F !! 0) eqn:E; [|done]. apply alter_inv in E as (? & E & _). by rewrite H4 in E.
  - destruct H5 as (y & Hy & E1 & E2). destruct (Hold r y Hy) as (y' & Hy' & Ey & _ & En). exists y'. rewrite Ey. split_and!; [done..|].
    rewrite En //. intros ->. by apply (Hr (o_cont y)).
  - intros z w (w0 & Hw0 & _ & -> & _)%Hin. by apply (H6 z).
  - intros z w (w0 & Hw0 & ->)%alter_inv. destruct (decide (z = p)) as [->|]; [|by apply (H7 z)]. assert (w0 = x) as -> by congruence.
    rewrite Ec. apply Ez.
  - intros c q Hc Hq. destruct (H8 c q Hc Hq) as (y & Hy & E1 & E2). destruct (Hold q y Hy) as (y' & Hy' & _ & _ & En).
    assert (Hqp : q ≠ p) by (intros ->; by apply (Hr c)). rewrite (En Hqp) in Hy'. by exists y.
Qed.

Lemma delete_linked F R r p x :
  linked F R r → F !! p = Some x → o_parent x = 0 → o_children x = [] → (∀ c, R !! c ≠ Some p) → linked (delete p F) R r.
Proof.
  intros [H1 H2 H3 H4 H5 H6 H7 H8] Hp Ep Ec Hr.
  assert (Hin : ∀ z w, delete p F !! z = Some w → F !! z = Some w ∧ z ≠ p) by (intros z w [? ?]%lookup_delete_Some; split; congruence).
  assert (Hold : ∀ z w, F !! z = Some w → z ≠ p → delete p F !! z = Some w) by (intros; apply lookup_delete_Some; split; congruence).
  split.
  - intros z w d [Hw Hz]%Hin Hd. destruct (H1 z w d Hw Hd) as (y & Hy & Ey). exists y. split; [|done]. apply Hold; [done|]. intros ->.
    assert (z = 0) as -> by congruence. congruence.
  - intros z w [Hw Hz]%Hin Hpar Hzr. destruct (H2 z w Hw Hpar Hzr) as (y & Hy & Hzy). exists y. split; [|done]. apply Hold; [done|]. intros E.
    rewrite E in Hy. assert (y = x) as -> by congruence. rewrite Ec in Hzy. by apply elem_of_nil in Hzy.
  - intros z w [Hw Hz]%Hin. by apply (H3 z).
  - destruct (delete p F !! 0) eqn:E; [|done]. apply Hin in E as [E _]. by rewrite H4 in E.
  - destruct H5 as (y & Hy & E1 & E2). exists y. split; [|done]. apply Hold; [done|]. intros ->. by apply (Hr (o_cont y)).
  - intros z w [Hw Hz]%Hin. by apply (H6 z).
  - intros z w [Hw Hz]%Hin. by apply (H7 z).
  - intros c q Hc Hq. destruct (H8 c q Hc Hq) as (y & Hy & ?). exists y. split; [|done]. apply Hold; [done|]. intros ->. by apply (Hr c).
Qed.

(** A new container, first without a root process, then with one that is in it. *)
Lemma cont_linked F R r c q :
  linked F R r → R !! c = None ∨ R !! c = Some 0 → (q = 0 ∨ ∃ x, F !! q = Some x ∧ o_cont x = c ∧ o_zombie x = false) → linked F (<[c := q]> R) r.
Proof.
  intros H Hc Hq. pose proof (ln_null _ _ _ H) as Hnull. destruct H as [H1 H2 H3 H4 (y & Hy & E1 & E2) H6 H7 H8]. split; try done.
  - exists y. split_and!; [done..|]. rewrite lookup_insert_ne //. intros ->. destruct Hc as [Hc|Hc]; [congruence|]. assert (r = 0) as -> by congruence. congruence.
  - intros d z. destruct (decide (d = c)) as [->|]; [rewrite lookup_insert_eq; intros [= <-] Hz; by destruct Hq|].
    rewrite lookup_insert_ne; [congruence|]. apply H8.
Qed.
