(* ===== verification/ProcSteps.v ===== *)
(** * Processes over time

    What each call of [kernel/proc.c] and [kernel/container.c] does to the links of the
    processes, and the invariant of every run. *)

From stdpp Require Import base numbers list gmap relations.
From S2P Require Import Prelude Bitmap Spinlock Pidmap Sem Bytes FsDefs BlockCache Cache Inode InodeRead File Mem Pt Paging RBTree Cpu Sched Proc ProcTree.

Definition fobs (s : pstate) : gmap Z pobs := obs_of <$> procs (pk s).
Definition robs (s : pstate) : gmap Z Z := rootproc <$> conts (pk s).
Definition inv (s : pstate) : Prop := linked (fobs s) (robs s) (root_proc s).

(** Two states with the same observation. *)
Lemma psobs_eq s s' : psobs s' = psobs s → fobs s' = fobs s ∧ robs s' = robs s ∧ root_proc s' = root_proc s.
Proof. rewrite /psobs /kobs /fobs /robs. by intros [= -> -> ->]. Qed.

Lemma pupd_view p f g s u s' :
  pupd p f s = Ret u s' → (∀ x, obs_of (f x) = g (obs_of x)) →
  ∃ x, procs (pk s) !! p = Some x ∧ fobs s' = alter g p (fobs s) ∧ robs s' = robs s ∧ root_proc s' = root_proc s ∧ cpus (pk s') = cpus (pk s).
Proof.
  rewrite /pupd /on_pk /zoom /=. destruct (upd_proc p f (pk s)) as [? k'| | | |] eqn:E; [|done..]. intros [= _ <-] Hg.
  apply upd_proc_inv in E as (x & Hx & ->). exists x. split; [done|]. rewrite /fobs /robs /=. split; [|done]. rewrite fmap_insert Hg.
  apply map_eq. intros q. destruct (decide (q = p)) as [->|]; [by rewrite lookup_insert_eq lookup_alter_eq lookup_fmap Hx|].
  rewrite lookup_insert_ne ?lookup_alter_ne //; congruence.
Qed.
Lemma pget_inv p s x s' : pget p s = Ret x s' → procs (pk s) !! p = Some x ∧ s' = s.
Proof.
  rewrite /pget /on_pk /zoom /=. destruct (get_proc p (pk s)) as [? k'| | | |] eqn:E; [|done..]. intros [= <- <-].
  apply get_proc_inv in E as [? ->]. split; [done|]. by destruct s.
Qed.
Lemma thisproc_inv i s cp s' : on_pk (thisproc i) s = Ret cp s' → (∃ c, cpus (pk s) !! i = Some c ∧ cp = cur_proc c) ∧ s' = s.
Proof.
  rewrite /on_pk /zoom /thisproc /get_cpu /=. run_simpl. destruct (cpus (pk s) !! i) as [c|]; [|done]. intros [= <- <-].
  split; [eauto|]. by destruct s.
Qed.
Lemma acquire_inv {S} (L : Lens S SpinLock) s u s' : _acquire_spinlock L s = Ret u s' → s' = lset L true s.
Proof. rewrite acquire_run. destruct (lget L s); [done|]. by intros [= _ <-]. Qed.
Lemma assert_inv {S} b (s : S) u s' : assert_ b s = Ret u s' → b = true ∧ s' = s.
Proof. rewrite /assert_. destruct b; [|done]. by intros [= _ <-]. Qed.
Lemma fobs_some s p x : procs (pk s) !! p = Some x → fobs s !! p = Some (obs_of x).
Proof. intros H. by rewrite /fobs lookup_fmap H. Qed.

(** ** Linking *)
Lemma set_parent_view i p s u s' :
  set_parent_to_this i p s = Ret u s' →
  ∃ c x, cpus (pk s) !! i = Some c ∧ fobs s !! p = Some x ∧ o_parent x = 0 ∧
    fobs s' = link p (cur_proc c) (fobs s) ∧ robs s' = robs s ∧ root_proc s' = root_proc s.
Proof.
  intros H. peel H x s1 H1. apply pget_inv in H1 as [Hx ->]. peel H v s1 H1. apply assert_inv in H1 as [E%Z.eqb_eq ->].
  peel H v' s1 H1. apply acquire_inv in H1 as ->. peel H cp s1 H1. apply thisproc_inv in H1 as [(c & Hc & ->) ->].
  peel H v1 s1 H1. apply (pupd_view _ _ (with_parent (cur_proc c))) in H1 as (_ & _ & F1 & R1 & P1 & C1); [|done].
  peel H v2 s2 H2. apply (pupd_view _ _ (add_child p)) in H2 as (_ & _ & F2 & R2 & P2 & C2); [|done].
  injection H as _ <-. exists c, (obs_of x). split_and!; [done|by apply fobs_some|done| |exact (eq_trans R2 R1)|exact (eq_trans P2 P1)].
  change (fobs s2 = link p (cur_proc c) (fobs s)). by rewrite F2 F1.
Qed.

Lemma start_proc_view pe i p e a s l s' :
  start_proc pe i p e a s = Ret l s' →
  ∃ x, fobs s !! p = Some x ∧ robs s' = robs s ∧ root_proc s' = root_proc s ∧
    fobs s' = if decide (o_parent x = 0) then link p (root_proc s) (fobs s) else fobs s.
Proof.
  intros H. peel H v s1 H1. apply acquire_inv in H1 as ->. peel H x s1 H1. apply pget_inv in H1 as [Hx ->].
  exists (obs_of x). split; [by apply fobs_some|]. peel H v' s1 H1.
  assert (Hrest : psobs s' = psobs s1).
  { match type of H with ?m _ = _ => assert (keeps psobs m) as E by keeps_solve; by rewrite (E _ _ _ H) end. }
  apply psobs_eq in Hrest as (-> & -> & ->). clear H. simpl o_parent. destruct (Z.eqb_spec (p_parent x) 0) as [E|E].
  - peel H1 r s2 H2. injection H2 as <- <-. peel H1 v1 s2 H2. apply (pupd_view _ _ (with_parent (root_proc s))) in H2 as (_ & _ & F1 & R1 & P1 & _); [|done].
    apply (pupd_view _ _ (add_child p)) in H1 as (_ & _ & F2 & R2 & P2 & _); [|done].
    rewrite decide_True //. split_and!; [by rewrite R2 R1|by rewrite P2 P1|]. rewrite F2 F1. done.
  - injection H1 as _ <-. by rewrite decide_False.
Qed.

(** ** Creation *)

(** Skip the calls at the head of a run that change nothing observed. *)
Ltac skip H :=
  let u := fresh "u" in let s1 := fresh "s" in let H1 := fresh "H" in
  apply bind_ret_inv in H as (u & s1 & H1 & H);
  match type of H1 with
  | ?m ?s0 = Ret _ _ =>
      let E := fresh "E" in let EF := fresh "EF" in let ER := fresh "ER" in let EP := fresh "EP" in
      assert (E : keeps psobs m) by (solve [keeps_solve; done]);
      pose proof (psobs_eq _ _ (E _ _ _ H1)) as (EF & ER & EP); clear E H1
  end.
(** A change of the process [p] with the effect [g] on what is observed. *)
Ltac change_proc H g :=
  let u := fresh "u" in let s1 := fresh "s" in let H1 := fresh "H" in
  apply bind_ret_inv in H as (u & s1 & H1 & H);
  let EF := fresh "EF" in let ER := fresh "ER" in let EP := fresh "EP" in let Hx := fresh "Hx" in
  apply (pupd_view _ _ g) in H1 as (? & Hx & EF & ER & EP & _); [|done].
(** Collect what the steps of a run did. *)
Ltac collect :=
  repeat match goal with
  | E : fobs ?a = _ |- context [fobs ?a] => rewrite E
  | E : robs ?a = _ |- context [robs ?a] => rewrite E
  | E : root_proc ?a = _ |- context [root_proc ?a] => rewrite E
  end.

Lemma init_proc_view i p s u s' :
  init_proc i p s = Ret u s' →
  ∃ c, fobs s' = <[p := mkObs 0 [] false c]> (fobs s) ∧ robs s' = robs s ∧ root_proc s' = root_proc s.
Proof.
  intros H. rewrite /init_proc in H. do 6 skip H. change_proc H (λ x, mkObs (o_parent x) (o_children x) false (o_cont x)). skip H.
  change_proc H (with_children []). change_proc H (with_parent 0). do 8 skip H. peel H rc sr Hrc. injection Hrc as <- <-.
  match type of H with context [set_container ?c] => change_proc H (with_cont c); exists c end.
  assert (E : keeps psobs (pupd p (set_oftable init_oftable))) by keeps_solve. pose proof (psobs_eq _ _ (E _ _ _ H)) as (EF' & ER' & EP').
  apply fobs_some in Hx. revert Hx. collect. intros Hx. split; [|done].
  apply map_eq. intros q. destruct (decide (q = p)) as [->|]; [by rewrite lookup_insert_eq !lookup_alter_eq Hx|].
  rewrite lookup_insert_ne ?lookup_alter_ne //; congruence.
Qed.

Lemma create_proc_view i fresh info s p s' :
  create_proc i fresh info s = Ret p s' →
  ∃ c, fobs s' = <[p := mkObs 0 [] false c]> (fobs s) ∧ robs s' = robs s ∧ root_proc s' = root_proc s.
Proof.
  intros H. peel H q s1 H1. peel H v s2 H2. injection H as <- <-. apply init_proc_view in H2 as (c & F2 & R2 & P2). exists c.
  rewrite /new_proc in H1. skip H1. peel H1 w s3 H3. injection H3 as _ <-. peel H1 w' s4 H4. injection H4 as _ <-. peel H1 w'' s5 H5. injection H5 as _ <-.
  peel H1 w3 s6 H6. injection H6 as _ <-. injection H1 as <- <-. rewrite F2 R2 P2 -EF -ER -EP. rewrite /fobs /robs /=. split; [|done].
  by rewrite fmap_insert insert_insert_eq.
Qed.

Definition curs (s : pstate) : list Z := cur_proc <$> cpus (pk s).

(** ** The current processes: only [sched] changes them *)
Definition kcurs (k : kern) : list Z := cur_proc <$> cpus k.
Section current.
Lemma ck_get_proc p : keeps kcurs (get_proc p).
Proof. rewrite /get_proc. keeps_solve. Qed.
Lemma ck_get_info p : keeps kcurs (get_info p).
Proof. rewrite /get_info. keeps_solve. Qed.
Lemma ck_get_cont p : keeps kcurs (get_cont p).
Proof. rewrite /get_cont. keeps_solve. Qed.
Lemma ck_get_cpu i : keeps kcurs (get_cpu i).
Proof. rewrite /get_cpu. keeps_solve. Qed.
#[local] Hint Resolve ck_get_proc ck_get_info ck_get_cont ck_get_cpu : keeps.
Lemma ck_upd_info p f : keeps kcurs (upd_info p f).
Proof. rewrite /upd_info. keeps_solve. done. Qed.
Lemma ck_upd_cont p f : keeps kcurs (upd_cont p f).
Proof. rewrite /upd_cont. keeps_solve. done. Qed.
Lemma ck_upd_proc p f : keeps kcurs (upd_proc p f).
Proof. rewrite /upd_proc. keeps_solve. done. Qed.
Lemma ck_rq {X} (m : M rbheap X) : keeps kcurs (on_rq m).
Proof. by apply keeps_zoom. Qed.
Lemma ck_slock : keeps kcurs _acquire_sched_lock.
Proof. by apply keeps_acquire. Qed.
Lemma ck_sunlock : keeps kcurs _release_sched_lock.
Proof. by apply keeps_release. Qed.
#[local] Hint Resolve ck_upd_info ck_upd_cont ck_upd_proc ck_rq ck_slock ck_sunlock : keeps.
Lemma ck_enqueue c p : keeps kcurs (enqueue c p).
Proof. rewrite /enqueue. keeps_solve. Qed.
Lemma ck_thisproc i : keeps kcurs (thisproc i).
Proof. rewrite /thisproc. keeps_solve. Qed.
#[local] Hint Resolve ck_enqueue ck_thisproc : keeps.
Lemma ck_minvruntime i c : keeps kcurs (get_minvruntime i c).
Proof. rewrite /get_minvruntime. keeps_solve. Qed.
#[local] Hint Resolve ck_minvruntime : keeps.
Lemma ck_activate_up fuel i : ∀ c, keeps kcurs (activate_up fuel i c).
Proof. induction fuel as [|fuel IH]; intros c; cbn [activate_up]; keeps_solve. Qed.
#[local] Hint Resolve ck_activate_up : keeps.
Lemma ck_activate i p al : keeps kcurs (_activate_proc i p al).
Proof. rewrite /_activate_proc /cont_fuel. keeps_solve. Qed.
#[local] Hint Resolve ck_activate : keeps.
Lemma ck_activate_all i l : keeps kcurs (activate_all i l).
Proof. induction l as [|w l IH]; cbn [activate_all]; keeps_solve. Qed.
Lemma ck_is_state p st : keeps kcurs (is_state p st).
Proof. rewrite /is_state. keeps_solve. Qed.
#[local] Hint Resolve ck_activate_all ck_is_state : keeps.
Lemma ck_post_childexit i p : keeps kcurs (post_childexit i p).
Proof. rewrite /post_childexit. keeps_solve. Qed.
#[local] Hint Resolve ck_post_childexit : keeps.

Lemma cp_pk {X} (m : M kern X) : keeps kcurs m → keeps curs (on_pk m).
Proof. apply keeps_zoom_in. intros v s. rewrite /curs /kcurs /=. by intros ->. Qed.
Lemma cp_pfs {X} (m : M fstate X) : keeps curs (on_pfs m).
Proof. by apply keeps_zoom. Qed.
Lemma cp_map {X} (m : M rbheap X) : keeps curs (on_map m).
Proof. by apply keeps_zoom. Qed.
Lemma cp_global {X} (m : M pidmap_t X) : keeps curs (on_global m).
Proof. by apply keeps_zoom. Qed.
Lemma cp_km {X} (m : M mstate X) : keeps curs (on_km m).
Proof. by apply keeps_zoom. Qed.
Lemma cp_space {X} i p (m : M astate X) : keeps curs (on_space i p m).
Proof.
  intros k a k'. rewrite /on_space. destruct (procs (pk k) !! p) as [x|] eqn:E; [|done]. destruct (cpus (pk k) !! i) as [c|] eqn:Ec; [|done].
  destruct (m _); [|done..]. intros [= _ <-]. rewrite /curs /=. rewrite list_fmap_insert /= list_insert_id //.
  by rewrite list_lookup_fmap Ec.
Qed.
#[local] Hint Resolve cp_pfs cp_map cp_global cp_km cp_space : keeps.
#[local] Hint Extern 3 (keeps curs (on_pk _)) => apply cp_pk; keeps_solve; try reflexivity : keeps.
#[local] Hint Extern 2 (keeps curs (_acquire_spinlock _)) => apply keeps_acquire; reflexivity : keeps.
#[local] Hint Extern 2 (keeps curs (release_spinlock _)) => apply keeps_release; reflexivity : keeps.
Lemma cp_pget p : keeps curs (pget p).
Proof. rewrite /pget. auto with keeps. Qed.
Lemma cp_pupd p f : keeps curs (pupd p f).
Proof. rewrite /pupd. auto with keeps. Qed.
#[local] Hint Resolve cp_pget cp_pupd : keeps.
Lemma cp_insert_map p : keeps curs (insert_pid_proc_map p).
Proof. rewrite /insert_pid_proc_map. keeps_solve; done. Qed.
#[local] Hint Resolve cp_insert_map : keeps.
Lemma cp_create i f j : keeps curs (create_proc i f j).
Proof. rewrite /create_proc /new_proc /init_proc. keeps_solve; done. Qed.
Lemma cp_close_files ctx cp n : ∀ k, keeps curs (close_files ctx cp k n).
Proof. induction n as [|n IH]; intros k; cbn [close_files]; keeps_solve. Qed.
Lemma cp_reparent fuel i cp : keeps curs (reparent fuel i cp).
Proof. induction fuel as [|fuel IH]; cbn [reparent]; rewrite ?/is_zombie; keeps_solve. Qed.
Lemma cp_init_container c l : keeps curs (init_container c l).
Proof. rewrite /init_container. keeps_solve; done. Qed.
End current.
#[export] Hint Resolve cp_pfs cp_map cp_global cp_km cp_space cp_pget cp_pupd cp_create cp_close_files cp_reparent cp_init_container
  ck_slock ck_upd_cont ck_get_cont ck_thisproc ck_post_childexit : keeps.
#[export] Hint Extern 3 (keeps curs (on_pk _)) => apply cp_pk; keeps_solve; try reflexivity : keeps.
#[export] Hint Extern 2 (keeps curs (_acquire_spinlock _)) => apply keeps_acquire; reflexivity : keeps.
#[export] Hint Extern 2 (keeps curs (release_spinlock _)) => apply keeps_release; reflexivity : keeps.

(** ** Exit *)
Lemma get_cont_inv c s x s' : on_pk (get_cont c) s = Ret x s' → conts (pk s) !! c = Some x ∧ s' = s.
Proof.
  rewrite /on_pk /zoom /get_cont /=. run_simpl. destruct (conts (pk s) !! c); [|done]. intros [= -> <-]. split; [done|]. by destruct s.
Qed.
Lemma robs_some s c x : conts (pk s) !! c = Some x → robs s !! c = Some (rootproc x).
Proof. intros H. by rewrite /robs lookup_fmap H. Qed.

(** [cp] is not the root process of its own container. *)
Definition ordinary (s : pstate) (cp : Z) : Prop := ∀ x, fobs s !! cp = Some x → robs s !! o_cont x ≠ Some cp.

Lemma reparent_inv fuel i cp : ∀ s u s', reparent fuel i cp s = Ret u s' → inv s → ordinary s cp →
  inv s' ∧ ordinary s' cp ∧ root_proc s' = root_proc s.
Proof.
  induction fuel as [|fuel IH]; intros s u s' H Hinv Hord.
  { cbn [reparent] in H. peel H x s1 H1. apply pget_inv in H1 as [Hx ->]. destruct (children x); [injection H as _ <-; done|done]. }
  cbn [reparent] in H. peel H x s1 H1. apply pget_inv in H1 as [Hx ->]. destruct (children x) as [|child l] eqn:El; [injection H as _ <-; done|].
  peel H y s1 H1. apply pget_inv in H1 as [Hy ->]. peel H v s1 H1. apply assert_inv in H1 as [_ ->]. peel H c s1 H1. apply get_cont_inv in H1 as [Hc ->].
  change_proc H (with_parent (rootproc c)). change_proc H (with_children l).
  apply bind_ret_inv in H as (w & s3 & H3 & H). apply (pupd_view _ _ (add_child child)) in H3 as (z & Hz & EF1 & ER1 & EP1 & _); [|done].
  assert (E : keeps psobs (z ← on_pk (is_zombie child); (if z : bool then on_pk (post_childexit i (rootproc c)) else mret ()))).
  { rewrite /is_zombie. keeps_solve. }
  peel H zb s4 H4. peel H w' s5 H5.
  assert (Hobs : psobs s5 = psobs s3) by (apply (E s3 w' s5); by rewrite (bind_run _ _ _ _ _ H4)).
  apply psobs_eq in Hobs as (EF2 & ER2 & EP2). pose proof (fobs_some _ _ _ Hx) as Fx. pose proof (robs_some _ _ _ Hc) as Fc.
  assert (Hq : rootproc c ≠ cp) by (intros E'; apply (Hord _ Fx); simpl; by rewrite Fc E').
  (* the new parent is there: it has just been written *)
  assert (Hr0 : rootproc c ≠ 0).
  { intros E0. apply fobs_some in Hz. rewrite EF0 EF E0 in Hz. apply alter_inv in Hz as (? & (? & Hz & _)%alter_inv & _).
    by rewrite (ln_null _ _ _ Hinv) in Hz. }
  destruct (ln_cont _ _ _ Hinv _ _ Fc Hr0) as (q & Fq & _ & Zq).
  assert (EF' : fobs s5 = alter (add_child child) (rootproc c) (alter (with_children l) cp (alter (with_parent (rootproc c)) child (fobs s)))).
  { by rewrite EF2 EF1 EF0 EF. }
  destruct (IH s5 _ _ H) as (H' & O' & P').
  - rewrite /inv EF' ER2 ER1 ER0 ER EP2 EP1 EP0 EP. by apply (move_linked _ _ _ _ _ _ _ (obs_of x) q); auto.
  - intros w1. rewrite EF' ER2 ER1 ER0 ER. intros (w2 & (w3 & (w4 & F4 & ->)%alter_inv & ->)%alter_inv & ->)%alter_inv.
    intros Er. apply (Hord _ F4). revert Er. by repeat case_decide.
  - split_and!; [done..|]. by rewrite P' EP2 EP1 EP0 EP.
Qed.

(** As [skip], and the current processes stay too. *)
Ltac skipc H :=
  let u := fresh "u" in let s1 := fresh "s" in let H1 := fresh "H" in
  apply bind_ret_inv in H as (u & s1 & H1 & H);
  match type of H1 with
  | ?m ?s0 = Ret _ _ =>
      let E := fresh "E" in let EF := fresh "EF" in let ER := fresh "ER" in let EP := fresh "EP" in let EC := fresh "EC" in
      assert (E : keeps curs m) by (solve [keeps_solve; done]); pose proof (E _ _ _ H1) as EC; clear E;
      assert (E : keeps psobs m) by (solve [keeps_solve; done]);
      pose proof (psobs_eq _ _ (E _ _ _ H1)) as (EF & ER & EP); clear E H1
  end.
Lemma curs_cur s i c : cpus (pk s) !! i = Some c → curs s !! i = Some (cur_proc c).
Proof. intros H. by rewrite /curs list_lookup_fmap H. Qed.

Lemma exit_inv ctx i code s u s' : exit ctx i code s = Ret u s' → inv s → inv s'.
Proof.
  intros H Hinv. rewrite /exit in H. peel H cp s1 H1. apply thisproc_inv in H1 as [(c & Hc & ->) ->]. peel H x s1 H1. apply pget_inv in H1 as [Hx ->].
  peel H ct s1 H1. apply get_cont_inv in H1 as [Hct ->]. peel H v s1 H1. apply assert_inv in H1 as [[Hne%negb_true_iff%Z.eqb_neq _]%andb_true_iff ->].
  set (cp := cur_proc c) in *. assert (Hord : ordinary s cp).
  { intros y Hy E. rewrite (fobs_some _ _ _ Hx) in Hy. injection Hy as <-. rewrite (robs_some _ _ _ Hct) in E. injection E. congruence. }
  do 5 skipc H. peel H x2 sA H1. apply pget_inv in H1 as [Hx2 ->]. peel H w sB H1.
  match type of H1 with reparent _ _ _ ?sb = _ => destruct (reparent_inv _ _ _ sb _ _ H1) as (I1 & O1 & P1) end.
  { by rewrite /inv; collect. }
  { intros y. collect. apply Hord. }
  pose proof (cp_reparent _ _ _ _ _ _ H1) as EC'. clear H1. peel H x3 sC H1. apply pget_inv in H1 as [Hx3 ->].
  peel H w' sC H1. apply assert_inv in H1 as [Hnil%bool_decide_eq_true ->]. do 3 skipc H.
  rewrite /on_pk /zoom /= in H. destruct (simple_sched i ZOMBIE _) as [? k'| | | |] eqn:Es; [|done..]. injection H as _ <-.
  apply simple_sched_obs in Es as (c2 & Hc2 & _ & Hobs). simpl in Hobs. injection Hobs as Hobs1 Hobs2.
  assert (Hcur : cur_proc c2 = cp).
  { apply curs_cur in Hc2, Hc. rewrite EC6 EC5 EC4 EC' EC3 EC2 EC1 EC0 EC Hc in Hc2. by injection Hc2. }
  rewrite Hcur in Hobs1. pose proof (fobs_some _ _ _ Hx3) as F3.
  match type of Hobs1 with _ = alter _ _ (obs_of <$> procs (pk ?sZ)) =>
    change (obs_of <$> procs (pk sZ)) with (fobs sZ) in Hobs1; change (rootproc <$> conts (pk sZ)) with (robs sZ) in Hobs2 end.
  rewrite /inv. match goal with |- linked ?f ?r ?p => change f with (obs_of <$> procs k'); change r with (rootproc <$> conts k') end.
  rewrite Hobs1 Hobs2. simpl root_proc. clear P1. collect.
  apply (keep_links_linked _ _ _ _ _ (obs_of x3)); [exact I1|done|done|done|by intros _|].
  intros d Hd. assert (Hcp0 : cp ≠ 0) by (intros E0; rewrite E0 (ln_null _ _ _ I1) in F3; done).
  destruct (ln_cont _ _ _ I1 d cp Hd Hcp0) as (y & Fy & Ey & _). apply (O1 y Fy). by rewrite Ey.
Qed.

(** ** Wait *)
Lemma is_zombie_inv p s b s' : on_pk (is_zombie p) s = Ret b s' → ∃ x, procs (pk s) !! p = Some x ∧ b = bool_decide (state x = ZOMBIE).
Proof.
  rewrite /on_pk /zoom /=. destruct (is_zombie p (pk s)) as [b' k'| | | |] eqn:E; [|done..]. intros [= <- _].
  rewrite /is_zombie /is_state in E. peel E u k1 H1. apply acquire_inv in H1 as ->. peel E x k2 H2. apply get_proc_inv in H2 as [Hx ->].
  peel E v k3 H3. injection E as <- _. exists x. done.
Qed.
Lemma find_zombie_inv l : ∀ s o s', find_zombie l s = Ret o s' → ∀ c, o = Some c →
  c ∈ l ∧ ∃ y, fobs s !! c = Some y ∧ o_zombie y = true.
Proof.
  induction l as [|d l IH]; intros s o s' H c ->; cbn [find_zombie] in H; [by injection H|].
  peel H z s1 H1. pose proof (is_zombie_inv _ _ _ _ H1) as (x & Hx & ->). destruct (bool_decide _) eqn:Eb in H.
  - injection H as <- _. split; [by left|]. exists (obs_of x). split; [by apply fobs_some|done].
  - assert (E : keeps psobs (on_pk (is_zombie d))) by (rewrite /is_zombie; keeps_solve).
    pose proof (psobs_eq _ _ (E _ _ _ H1)) as (EF & _ & _). destruct (IH _ _ _ H c eq_refl) as [? Hy]. rewrite EF in Hy. split; [by right|done].
Qed.

Lemma free_proc_view ctx i child s u s' :
  free_proc ctx i child s = Ret u s' → fobs s' = delete child (fobs s) ∧ robs s' = robs s ∧ root_proc s' = root_proc s.
Proof.
  intros H. rewrite /free_proc in H. skip H. peel H y sA H1. apply pget_inv in H1 as [Hy ->]. do 4 skip H. peel H w sB H1. injection H1 as _ <-.
  injection H as _ <-. match type of EF3 with fobs ?sZ = _ =>
    split; [trans (delete child (fobs sZ)); [by rewrite /fobs /= fmap_delete|]|change (robs sZ = robs s ∧ root_proc sZ = root_proc s)] end;
  by collect.
Qed.

(** A zombie child of [cp] goes away. *)
Lemma reap_linked F R r cp child x y :
  linked F R r → F !! cp = Some x → child ∈ o_children x → F !! child = Some y → o_zombie y = true →
  linked (delete child (alter (λ x, mkObs (o_parent x) (o_children x) false (o_cont x)) child
    (alter (λ x, with_children (filter (λ c, c ≠ child) (o_children x)) x) cp F))) R r.
Proof.
  intros H Hx Hin Hy Hz. assert (Hne : child ≠ cp).
  { intros ->. assert (x = y) as -> by congruence. rewrite (ln_zombie _ _ _ H cp y Hy Hz) in Hin. by apply elem_of_nil in Hin. }
  set (l := filter (λ c, c ≠ child) (o_children x)).
  assert (Hl : ∀ z, z ∈ l ↔ z ∈ o_children x ∧ z ≠ child) by (intros z; rewrite list_elem_of_filter; naive_solver).
  pose proof (unlink_linked F R r cp child l x H Hx Hin (NoDup_filter _ _ (ln_nodup _ _ _ H cp x Hx)) Hl) as H'.
  assert (E : delete child (alter (λ x, mkObs (o_parent x) (o_children x) false (o_cont x)) child
    (alter (λ x, with_children (filter (λ c, c ≠ child) (o_children x)) x) cp F)) = delete child (unlink cp child l F)).
  { apply map_eq. intros z. destruct (decide (z = child)) as [->|Hzc]; [by rewrite !lookup_delete_eq|].
    rewrite !lookup_delete_ne; [congruence..|]. rewrite /unlink lookup_alter_ne; [congruence|]. destruct (decide (z = cp)) as [->|].
    - rewrite !lookup_alter_eq lookup_alter_ne; [congruence|]. by rewrite Hx.
    - rewrite !lookup_alter_ne //; congruence. }
  rewrite E. apply (delete_linked _ _ _ _ _ H' (unlink_some cp child l F child y Hy)); simpl.
  - by rewrite decide_True.
  - rewrite decide_False //. exact (ln_zombie _ _ _ H child y Hy Hz).
  - intros d Hd. assert (Hc0 : child ≠ 0) by (intros E0; rewrite E0 (ln_null _ _ _ H) in Hy; done).
    destruct (ln_cont _ _ _ H d child Hd Hc0) as (w & Hw & _ & Zw). congruence.
Qed.

Lemma wait_reap_inv ctx i s r s' : wait_reap ctx i s = Ret r s' → inv s → inv s'.
Proof.
  intros H Hinv. rewrite /wait_reap in H. peel H cp s1 H1. apply thisproc_inv in H1 as [(c & Hc & ->) ->]. set (cp := cur_proc c) in *.
  skip H. peel H x sA H1. apply pget_inv in H1 as [Hx ->]. peel H o sB H1. destruct o as [child|]; [|done].
  destruct (find_zombie_inv _ _ _ _ H1 child eq_refl) as (Hin & y & Fy & Zy).
  assert (E : keeps psobs (find_zombie (children x))) by keeps_solve. pose proof (psobs_eq _ _ (E _ _ _ H1)) as (EF' & ER' & EP'). clear E H1.
  peel H y' sC H1. apply pget_inv in H1 as [Hy' ->]. peel H w sC H1. apply assert_inv in H1 as [Hpar%Z.eqb_eq ->].
  change_proc H (λ x, with_children (filter (λ c, c ≠ child) (o_children x)) x).
  change_proc H (λ x, mkObs (o_parent x) (o_children x) false (o_cont x)).
  do 6 skip H. peel H w2 sD H1. apply free_proc_view in H1 as (EF'' & ER'' & EP''). skip H. injection H as _ <-.
  apply fobs_some in Hx. revert Hx Fy. rewrite /inv. collect. intros Fx Fy. by apply (reap_linked _ _ _ _ _ (obs_of x) y).
Qed.

Lemma sched_sleep_obs i st s u s' : st ≠ ZOMBIE → on_pk (lock_and_sched i st) s = Ret u s' → psobs s' = psobs s.
Proof.
  intros Hst. rewrite /on_pk /zoom /=. destruct (lock_and_sched i st (pk s)) as [v k'| | | |] eqn:E; [|done..]. intros [= _ <-].
  peel E w k1 H1. apply acquire_inv in H1 as ->. apply simple_sched_obs in E as (c & _ & _ & E). rewrite decide_False // in E. rewrite /psobs /=. by rewrite E.
Qed.
Lemma inv_psobs s s' : psobs s' = psobs s → inv s → inv s'.
Proof. intros (EF & ER & EP)%psobs_eq. by rewrite /inv EF ER EP. Qed.

Lemma wait_inv ctx i w s r s' : wait ctx i w s = Ret r s' → inv s → inv s'.
Proof.
  intros H Hinv. rewrite /wait in H. peel H cp s1 H1. apply thisproc_inv in H1 as [_ ->]. skip H. peel H x sA H1. apply pget_inv in H1 as [_ ->].
  assert (Hs : ∀ t, fobs t = fobs s → robs t = robs s → root_proc t = root_proc s → inv t) by (intros t; rewrite /inv; by intros -> -> ->).
  destruct (children x).
  - skip H. injection H as _ <-. by apply Hs; collect.
  - do 2 skip H. match type of H with (if ?b then _ else _) _ = _ => destruct b end.
    + peel H rr sB H1. injection H as _ <-. apply wait_reap_inv in H1; [done|]. by apply Hs; collect.
    + peel H v sB H1. injection H as _ <-. apply sched_sleep_obs in H1; [|done]. apply (inv_psobs _ _ H1). by apply Hs; collect.
Qed.
Lemma wait_wake_inv ctx i w s r s' : wait_wake ctx i w s = Ret r s' → inv s → inv s'.
Proof.
  intros H Hinv. rewrite /wait_wake in H. peel H cp s1 H1. apply thisproc_inv in H1 as [_ ->]. skip H.
  match type of H with (if ?b then _ else _) _ = _ => destruct b end; [|injection H as _ <-; by rewrite /inv; collect].
  peel H rr sB H1. injection H as _ <-. apply wait_reap_inv in H1; [done|]. by rewrite /inv; collect.
Qed.

(** ** Starting and forking *)

(** The process of CPU [i] is running, as the scheduler's invariant says. *)
Definition running (s : pstate) (i : nat) : Prop :=
  ∃ c x, cpus (pk s) !! i = Some c ∧ procs (pk s) !! cur_proc c = Some x ∧ state x = RUNNING.
(** The block the allocator gives next is no process. *)
Definition fresh_proc (s : pstate) : Prop :=
  ∀ a m, kalloc PROC_SIZE (km (pk s)) = Ret a m → procs (pk s) !! (a + PROC_NODE) = None ∧ a + PROC_NODE ≠ 0.

Lemma set_parent_inv i p s u s' : set_parent_to_this i p s = Ret u s' → running s i → inv s → inv s'.
Proof.
  intros (c & x & Hc & Fx & Ex & EF & ER & EP)%set_parent_view (c' & y & Hc' & Hy & Hst) Hinv. assert (c' = c) as -> by congruence.
  rewrite /inv EF ER EP. apply (link_linked _ _ _ _ _ x (obs_of y)); [done..|by apply fobs_some|]. by rewrite /= Hst.
Qed.
Lemma start_proc_inv pe i p e a s l s' : start_proc pe i p e a s = Ret l s' → inv s → inv s'.
Proof.
  intros (x & Fx & ER & EP & EF)%start_proc_view Hinv. rewrite /inv EF ER EP. case_decide as E; [|done].
  destruct (ln_root _ _ _ Hinv) as (y & Fy & _ & Ry). assert (Hr0 : root_proc s ≠ 0) by (intros E0; rewrite E0 (ln_null _ _ _ Hinv) in Fy; done).
  destruct (ln_cont _ _ _ Hinv _ _ Ry Hr0) as (y' & Fy' & _ & Zy). by apply (link_linked _ _ _ _ _ x y').
Qed.
Lemma create_proc_fresh i fresh info s p s' : create_proc i fresh info s = Ret p s' → ∃ a m, kalloc PROC_SIZE (km (pk s)) = Ret a m ∧ p = a + PROC_NODE.
Proof.
  intros H. peel H q s1 H1. peel H v s2 H2. injection H as <- _. rewrite /new_proc in H1. peel H1 a s3 H3.
  rewrite /on_km /zoom /= in H3. destruct (kalloc PROC_SIZE (km (pk s))) as [a' m'| | | |]; [|done..]. injection H3 as <- _.
  peel H1 w s4 H4. peel H1 w' s5 H5. peel H1 w2 s6 H6. peel H1 w3 s7 H7. injection H1 as <- _. by exists a', m'.
Qed.
Lemma create_proc_inv i fresh info s p s' : create_proc i fresh info s = Ret p s' → fresh_proc s → inv s → inv s' ∧
  ∃ c, fobs s' = <[p := mkObs 0 [] false c]> (fobs s) ∧ fobs s !! p = None ∧ robs s' = robs s ∧ root_proc s' = root_proc s.
Proof.
  intros H Hf Hinv. destruct (create_proc_fresh _ _ _ _ _ _ H) as (a & m & Hk & ->). destruct (Hf a m Hk) as [Hn H0].
  apply create_proc_view in H as (c & EF & ER & EP). assert (Fn : fobs s !! (a + PROC_NODE) = None) by (by rewrite /fobs lookup_fmap Hn).
  split; [|by exists c]. rewrite /inv EF ER EP. by apply new_linked.
Qed.
(** A running process stays one when others are created. *)
Lemma create_running i fresh info s p s' : create_proc i fresh info s = Ret p s' → fresh_proc s → inv s → running s i →
  ∃ c y, cpus (pk s') !! i = Some c ∧ fobs s' !! cur_proc c = Some y ∧ o_zombie y = false ∧ cur_proc c ≠ p.
Proof.
  intros H Hf Hinv (c & x & Hc & Hx & Hst). destruct (create_proc_inv _ _ _ _ _ _ H Hf Hinv) as (_ & k & EF & Fn & _).
  pose proof (cp_create _ _ _ _ _ _ H) as EC. apply curs_cur in Hc. rewrite -EC /curs list_lookup_fmap in Hc.
  destruct (cpus (pk s') !! i) as [c'|]; [|done]. injection Hc as Ec. exists c', (obs_of x). rewrite Ec.
  assert (cur_proc c ≠ p) by (intros E; rewrite -E (fobs_some _ _ _ Hx) in Fn; done).
  split_and!; [done| |by rewrite /= Hst|done]. rewrite EF lookup_insert_ne; [congruence|]. by apply fobs_some.
Qed.

Lemma fork_inv pe tr i fresh info s l s' : fork pe tr i fresh info s = Ret l s' → running s i → fresh_proc s → inv s → inv s'.
Proof.
  intros H Hrun Hf Hinv. rewrite /fork in H. peel H p s1 H1. destruct (create_running _ _ _ _ _ _ H1 Hf Hinv Hrun) as (c & y & Hc & Fy & Zy & _).
  destruct (create_proc_inv _ _ _ _ _ _ H1 Hf Hinv) as (I1 & _). clear H1. peel H this s2 H2. apply thisproc_inv in H2 as [_ ->].
  peel H u s2 H2. apply set_parent_view in H2 as (c' & x & Hc' & Fx & Ex & EF & ER & EP). assert (c' = c) as -> by congruence.
  assert (I2 : inv s2) by (rewrite /inv EF ER EP; by apply (link_linked _ _ _ _ _ x y)).
  peel H x' sA H3. apply pget_inv in H3 as [_ ->]. do 6 skip H. peel H secs sB H3. injection H3 as <- <-. do 2 skip H.
  apply start_proc_inv in H; [done|]. rewrite /inv. collect. by rewrite -EF -ER -EP.
Qed.

(** ** Containers *)
Lemma init_container_view c cells s u s' :
  init_container c cells s = Ret u s' → fobs s' = fobs s ∧ robs s' = <[c := 0]> (robs s) ∧ root_proc s' = root_proc s.
Proof.
  intros H. rewrite /init_container in H. peel H rc s1 H1. injection H1 as <- <-. cbv zeta in H. do 2 skip H. peel H pm sA H1.
  match type of H1 with ?m ?s0 = _ => assert (E : keeps psobs m) by keeps_solve; pose proof (psobs_eq _ _ (E _ _ _ H1)) as (EF' & ER' & EP') end.
  injection H as _ <-. match type of EF' with fobs ?sZ = _ => change (fobs sZ = fobs s ∧
    rootproc <$> <[c := mkCont 0 0 0 0 pm]> (conts (pk sZ)) = <[c := 0]> (robs s) ∧ root_proc sZ = root_proc s); rewrite fmap_insert;
    change (rootproc <$> conts (pk sZ)) with (robs sZ) end.
  by collect.
Qed.
Lemma upd_cont_view c f q s u s' :
  on_pk (upd_cont c f) s = Ret u s' → (∀ x, rootproc (f x) = q) → fobs s' = fobs s ∧ robs s' = <[c := q]> (robs s) ∧ root_proc s' = root_proc s.
Proof.
  rewrite /on_pk /zoom /upd_cont /get_cont /=. run_simpl. destruct (conts (pk s) !! c) as [x|]; [|done]. intros [= _ <-] Hf.
  rewrite /fobs /robs /= fmap_insert Hf. done.
Qed.

Lemma create_container_inv pe i cells fresh info e a s c s' :
  create_container pe i cells fresh info e a s = Ret c s' → running s i → robs s !! c = None →
  (∀ p, robs s' !! c = Some p → fobs s !! p = None ∧ p ≠ 0) → inv s → inv s'.
Proof.
  intros H (c0 & x0 & Hc0 & Hx0 & Hst) Hfc Hfp Hinv. rewrite /create_container in H. skipc H. cbv zeta in H. peel H v sA H1.
  pose proof (cp_init_container _ _ _ _ _ H1) as ECi. apply init_container_view in H1 as (EF1 & ER1 & EP1).
  peel H cp sB H1. apply thisproc_inv in H1 as [_ ->]. peel H x sB H1. apply pget_inv in H1 as [_ ->]. skipc H.
  peel H p sB H1. pose proof (cp_create _ _ _ _ _ _ H1) as ECc. apply create_proc_view in H1 as (rc & EFc & ERc & EPc).
  peel H v' sC H1. assert (ECr : curs sC = curs sB) by (eapply (cp_pk (upd_cont _ _)); [apply ck_upd_cont|exact H1]).
  apply (upd_cont_view _ _ p) in H1 as (EFr & ERr & EPr); [|done].
  peel H v2 sD H1. apply set_parent_view in H1 as (c1 & y & Hc1 & Fy & Ey & EFp & ERp & EPp).
  match type of H with context [set_container ?cc] => set (cn := cc) in *; change_proc H (with_cont cn) end.
  peel H l sE H1. skip H. injection H as <- <-. apply start_proc_view in H1 as (z & Fz & ERs & EPs & EFs).
  rename EF3 into EFl.
  assert (Hcur : cur_proc c1 = cur_proc c0).
  { apply curs_cur in Hc1, Hc0. rewrite ECr ECc EC0 ECi EC Hc0 in Hc1. by injection Hc1. }
  rewrite Hcur in EFp. set (new := mkObs 0 [] false rc) in *. set (F1 := <[p := new]> (fobs s)).
  assert (ERz : robs s3 = <[cn := p]> (<[cn := 0]> (robs s))) by (by collect).
  assert (EF2' : fobs s2 = alter (with_cont cn) p (link p (cur_proc c0) F1)) by (rewrite /F1; by collect).
  assert (EPz : root_proc s3 = root_proc s) by (by collect).
  destruct (Hfp p) as [Fpn Hp0]; [by rewrite ERz lookup_insert_eq|]. pose proof (fobs_some _ _ _ Hx0) as Fx0.
  assert (Hne : cur_proc c0 ≠ p) by (intros E; rewrite E Fpn in Fx0; done).
  assert (F1p : F1 !! p = Some new) by apply lookup_insert_eq.
  assert (F1c : F1 !! cur_proc c0 = Some (obs_of x0)) by (rewrite lookup_insert_ne; [congruence|done]).
  pose proof (link_some p (cur_proc c0) F1 p new F1p) as Flp. rewrite decide_True // in Flp. rewrite decide_False in Flp; [congruence|].
  assert (Hz : o_parent z ≠ 0).
  { rewrite EF2' (alter_some _ _ _ _ _ Flp) decide_True // in Fz. injection Fz as <-. simpl. intros E0.
    rewrite E0 (ln_null _ _ _ Hinv) in Fx0. done. }
  rewrite decide_False // in EFs. rewrite /inv EFl EFs EF2' ERz EPz.
  assert (L0 : linked (fobs s) (<[cn := 0]> (robs s)) (root_proc s)) by (apply cont_linked; auto).
  assert (Hnr : ∀ d, <[cn := 0]> (robs s) !! d ≠ Some p).
  { intros d Hd. destruct (ln_cont _ _ _ L0 d p Hd Hp0) as (w & Hw & _). congruence. }
  assert (L1 : linked (link p (cur_proc c0) F1) (<[cn := 0]> (robs s)) (root_proc s)).
  { apply (link_linked _ _ _ _ _ new (obs_of x0)); [by apply new_linked|done..|]. by rewrite /= Hst. }
  apply cont_linked; [|right; apply lookup_insert_eq|right].
  - by apply (keep_links_linked _ _ _ _ _ _ L1 Flp).
  - rewrite (alter_some _ _ _ _ _ Flp) decide_True //. by eexists.
Qed.

Lemma set_container_inv i p s u s' :
  set_container_to_this i p s = Ret u s' → (∀ c, robs s !! c ≠ Some p) → inv s → inv s'.
Proof.
  intros H Hr Hinv. rewrite /set_container_to_this in H. peel H cp s1 H1. apply thisproc_inv in H1 as [_ ->]. peel H x s1 H1.
  apply pget_inv in H1 as [_ ->]. apply (pupd_view _ _ (with_cont (p_container x))) in H as (y & Hy & EF & ER & EP & _); [|done].
  rewrite /inv EF ER EP. apply (keep_links_linked _ _ _ _ _ (obs_of y)); try done; [by apply fobs_some|].
  intros Hz. by apply (ln_zombie _ _ _ Hinv p (obs_of y)); [apply fobs_some|].
Qed.

(** ** Every run *)
Inductive proc_step (s : pstate) : pstate → Prop :=
  | ps_create i fresh info p s' : create_proc i fresh info s = Ret p s' → fresh_proc s → proc_step s s'
  | ps_set_parent i p s' : set_parent_to_this i p s = Ret () s' → running s i → proc_step s s'
  | ps_start pe i p e a l s' : start_proc pe i p e a s = Ret l s' → proc_step s s'
  | ps_fork pe tr i fresh info l s' : fork pe tr i fresh info s = Ret l s' → running s i → fresh_proc s → proc_step s s'
  | ps_exit ctx i code s' : exit ctx i code s = Ret () s' → proc_step s s'
  | ps_wait ctx i w r s' : wait ctx i w s = Ret r s' → proc_step s s'
  | ps_wait_wake ctx i w r s' : wait_wake ctx i w s = Ret r s' → proc_step s s'
  | ps_kill i n r s' : kill i n s = Ret r s' → proc_step s s'
  | ps_sched i st s' : on_pk (lock_and_sched i st) s = Ret () s' → st ≠ ZOMBIE → proc_step s s'
  | ps_activate i p al r s' : on_pk (_activate_proc i p al) s = Ret r s' → proc_step s s'
  | ps_container pe i cells fresh info e a c s' :
      create_container pe i cells fresh info e a s = Ret c s' → running s i → robs s !! c = None →
      (∀ p, robs s' !! c = Some p → fobs s !! p = None ∧ p ≠ 0) → proc_step s s'
  | ps_set_container i p s' : set_container_to_this i p s = Ret () s' → (∀ c, robs s !! c ≠ Some p) → proc_step s s'.

Lemma proc_step_inv s s' : proc_step s s' → inv s → inv s'.
Proof.
  intros H Hinv. destruct H.
  - eapply proj1, create_proc_inv; eassumption.
  - eapply set_parent_inv; eassumption.
  - eapply start_proc_inv; eassumption.
  - eapply fork_inv; eassumption.
  - eapply exit_inv; eassumption.
  - eapply wait_inv; eassumption.
  - eapply wait_wake_inv; eassumption.
  - apply (inv_psobs s); [eapply pkeeps_kill; eassumption|exact Hinv].
  - apply (inv_psobs s); [eapply sched_sleep_obs; eassumption|exact Hinv].
  - apply (inv_psobs s); [eapply (pkeeps_pk _ (keeps_activate _ _ _)); eassumption|exact Hinv].
  - eapply create_container_inv; eassumption.
  - eapply set_container_inv; eassumption.
Qed.

(** C6: The process tree stays well linked.  Over every sequence of creations, starts,
    forks, exits, waits, kills, switches, wake-ups and new containers on any CPU:
    every process on the list of children of [p] has [p] as its parent, and every
    process with a parent, but the root, is on that parent's list; no list has a
    process twice, the root process is on none; a zombie has no children left, so
    reaping it leaves no dangling parent; and the root process of every container is
    alive and in that container. *)
Theorem process_tree_invariant s0 s : inv s0 → rtc proc_step s0 s → inv s.
Proof. intros H Hs. induction Hs; eauto using proc_step_inv. Qed.

(** The root process, an idle process that runs, and a process just created. *)
Definition demo_kproc (par cont : Z) (idl : bool) (st : procstate) : proc :=
  mkProc false idl 0 0 0 st (init_sem 0) [] par (mkPgdir 0 false 0) cont 0 (mkUC [] 0 0 0 0 []) (mkKC 0 0 0 []) [] 0.
Definition demo_ps : pstate :=
  mkPS (mkKern false ∅ (mkRBH ∅ ∅) {[ 64 := mkCont 0 1200 0 0 (mkPidmap 0 0 false 0 []) ]}
      (list_to_map [(400, demo_kproc 0 0 true RUNNING); (1200, demo_kproc 1200 64 false RUNNABLE); (1600, demo_kproc 0 64 false UNUSED)])
      [mkCpu 400 400 4 0] (mkTS (mkRBH ∅ ∅) ∅ (λ _, 0) 0 1 ∅ ∅) demo_mem false 64 0)
    demo_files ∅ (mkRBH ∅ {[ 0 := 0 ]}) ∅ 0 false false (mkPidmap 0 0 false 0 []) 1200.
Lemma demo_ps_inv : inv demo_ps.
Proof.
  assert (Hin : ∀ p x, fobs demo_ps !! p = Some x → p = 400 ∧ x = mkObs 0 [] false 0 ∨ p = 1200 ∧ x = mkObs 1200 [] false 64 ∨ p = 1600 ∧ x = mkObs 0 [] false 64).
  { intros p x. rewrite /fobs lookup_fmap fmap_Some. intros (y & Hy%elem_of_list_to_map_2 & ->). rewrite !elem_of_cons in Hy.
    destruct_or! Hy; simplify_eq; [by left|by right; left|by right; right|by apply elem_of_nil in Hy]. }
  split.
  - intros p x c [[_ ->]|[[_ ->]|[_ ->]]]%Hin Hc; by apply elem_of_nil in Hc.
  - intros p x [[-> ->]|[[-> ->]|[-> ->]]]%Hin; done.
  - intros p x [[_ ->]|[[_ ->]|[_ ->]]]%Hin; apply NoDup_nil_2.
  - by vm_compute.
  - exists (mkObs 1200 [] false 64). by vm_compute.
  - intros p x [[_ ->]|[[_ ->]|[_ ->]]]%Hin; apply not_elem_of_nil.
  - by intros p x [[_ ->]|[[_ ->]|[_ ->]]]%Hin.
  - intros c q Hc _. assert (c = 64 ∧ q = 1200) as [-> ->].
    { revert Hc. rewrite /robs lookup_fmap fmap_Some. intros (y & Hy & ->). change (({[ 64 := mkCont 0 1200 0 0 (mkPidmap 0 0 false 0 []) ]} : gmap Z container) !! c = Some y) in Hy.
      apply lookup_singleton_Some in Hy as [<- <-]. done. }
    exists (mkObs 1200 [] false 64). by vm_compute.
Qed.

Lemma process_tree_invariant_witness : ∃ s, set_parent_to_this 0 1600 demo_ps = Ret () s ∧ inv s.
Proof.
  assert (E : ∃ s, set_parent_to_this 0 1600 demo_ps = Ret () s) by (vm_compute; eexists; reflexivity).
  destruct E as [s E]. exists s. split; [exact E|]. apply (process_tree_invariant demo_ps s demo_ps_inv).
  apply rtc_once, (ps_set_parent _ 0%nat 1600); [exact E|]. exists (mkCpu 400 400 4 0), (demo_kproc 0 0 true RUNNING).
  split; [reflexivity|]. split; reflexivity.
Defined.
