(* ===== verification/Ipc.v ===== *)
(** * Message queues, [common/ipc.c] and [common/ipc.h]

    The queues, messages, segments, waiting senders and waiting receivers live at
    addresses; their rings are pointer rings in the heap of [Lists.v].  A message and
    each of its segments fill one page of the page allocator; a segment keeps the bytes
    that were copied into it.  A caller's buffer is a list of bytes, a copy out of its
    bounds a fault.  Waking a waiter is [_activate_proc] of [Sched.v].

    A call that has to sleep ends in [Blocked] where the CPU switches away;
    [msgsnd_retry] and [msgrcv_wake] are what the thread does when it runs again. *)

From stdpp Require Import base numbers list gmap.
From S2P Require Import Prelude Spinlock Lists Bytes Mem Sched.

Definition ENOMEM : Z := -1.
Definition ENOSEQ : Z := -2.
Definition ENOENT : Z := -3.
Definition EEXIST : Z := -4.
Definition EINVAL : Z := -5.
Definition EAGAIN : Z := -6.
Definition EIDRM : Z := -7.
Definition E2BIG : Z := -8.
Definition ENOMSG : Z := -9.
Definition IPC_RMID : Z := 0.
Definition SEQ_MULTIPLIER : Z := 16.
Definition IPC_PRIVATE : Z := 0.
Definition IPC_CREATE : Z := 2.
Definition IPC_EXCL : Z := 1.
Definition IPC_NOWAIT : Z := 1.
Definition MAX_MSGNUM : Z := 256.
(** [sizeof(msg_msg)] is 32, [sizeof(msg_msgseg)] is 8, [sizeof(msg_queue)] is 64. *)
Definition MSG_MSGSZ : Z := PAGE_SIZE - 32.
Definition MSG_MSGSEGSZ : Z := PAGE_SIZE - 8.
Definition MSG_QUEUE_SIZE : Z := 64.

(** ** The data.  The heads of the three rings of a queue are at fixed offsets in it. *)
Record msg_queue := mkQ { q_key : Z; q_seq : Z; max_msg : Z; sum_msg : Z }.
Definition q_message (q : Z) : Z := q + 16.
Definition q_sender (q : Z) : Z := q + 32.
Definition q_receiver (q : Z) : Z := q + 48.
Record ipc_ids := mkIds { ids_size : Z; ids_in_use : Z; ids_seq : Z; ids_lock : SpinLock; entries : list Z }.
Record msgbuf := mkBuf { b_mtype : Z; b_data : list Z }.
Record msg_msgseg := mkSeg { s_nxt : Z; s_data : list Z }.
Record msg_msg := mkMsg { m_mtype : Z; m_size : Z; m_nxt : Z; m_data : list Z }.
Record msg_receiver := mkRcv { r_proc : Z; r_mtype : Z; r_size : Z; r_msg : Z }.

Record ipc_state := mkIS {
  ik : kern;
  ih : heap;
  msg_ids : ipc_ids;
  mqs : gmap Z msg_queue;
  msgs : gmap Z msg_msg;
  msegs : gmap Z msg_msgseg;
  senders : gmap Z Z;
  receivers : gmap Z msg_receiver }.
Definition set_ik v s := mkIS v (ih s) (msg_ids s) (mqs s) (msgs s) (msegs s) (senders s) (receivers s).
Definition set_ih v s := mkIS (ik s) v (msg_ids s) (mqs s) (msgs s) (msegs s) (senders s) (receivers s).
Definition set_ids v s := mkIS (ik s) (ih s) v (mqs s) (msgs s) (msegs s) (senders s) (receivers s).
Definition set_mqs v s := mkIS (ik s) (ih s) (msg_ids s) v (msgs s) (msegs s) (senders s) (receivers s).
Definition set_msgs v s := mkIS (ik s) (ih s) (msg_ids s) (mqs s) v (msegs s) (senders s) (receivers s).
Definition set_msegs v s := mkIS (ik s) (ih s) (msg_ids s) (mqs s) (msgs s) v (senders s) (receivers s).
Definition set_senders v s := mkIS (ik s) (ih s) (msg_ids s) (mqs s) (msgs s) (msegs s) v (receivers s).
Definition set_receivers v s := mkIS (ik s) (ih s) (msg_ids s) (mqs s) (msgs s) (msegs s) (senders s) v.
Definition set_in_use v d := mkIds (ids_size d) v (ids_seq d) (ids_lock d) (entries d).
Definition set_ids_seq v d := mkIds (ids_size d) (ids_in_use d) v (ids_lock d) (entries d).
Definition set_entries v d := mkIds (ids_size d) (ids_in_use d) (ids_seq d) (ids_lock d) v.
Definition ids_lens : Lens ipc_state SpinLock := mkLens (λ s, ids_lock (msg_ids s))
  (λ l s, set_ids (mkIds (ids_size (msg_ids s)) (ids_in_use (msg_ids s)) (ids_seq (msg_ids s)) l (entries (msg_ids s))) s).
Definition on_ik {X} : M kern X → M ipc_state X := zoom (mkLens ik set_ik).
Definition on_ih {X} : M heap X → M ipc_state X := zoom (mkLens ih set_ih).
Definition on_ikm {X} : M mstate X → M ipc_state X := zoom (mkLens (λ s, km (ik s)) (λ v s, set_ik (set_km v (ik s)) s)).

Definition get_q (q : Z) : M ipc_state msg_queue := m ← gets mqs; of_opt (m !! q).
Definition set_q (q : Z) (x : msg_queue) : M ipc_state () := modify (λ s, set_mqs (<[q := x]> (mqs s)) s).
Definition get_msg (a : Z) : M ipc_state msg_msg := m ← gets msgs; of_opt (m !! a).
Definition set_msg (a : Z) (x : msg_msg) : M ipc_state () := modify (λ s, set_msgs (<[a := x]> (msgs s)) s).
Definition get_seg (a : Z) : M ipc_state msg_msgseg := m ← gets msegs; of_opt (m !! a).
Definition set_seg (a : Z) (x : msg_msgseg) : M ipc_state () := modify (λ s, set_msegs (<[a := x]> (msegs s)) s).
Definition get_rcv (a : Z) : M ipc_state msg_receiver := m ← gets receivers; of_opt (m !! a).
Definition set_rcv (a : Z) (x : msg_receiver) : M ipc_state () := modify (λ s, set_receivers (<[a := x]> (receivers s)) s).
Definition new_node (a : Z) : M ipc_state () := modify (λ s, set_ih (<[a := mkNode 0 0]> (ih s)) s).

(** A flag of [msgflg]. *)
Definition flag (f b : Z) : bool := negb (Z.land f b =? 0).

(** [memcpy] of [n] bytes out of a buffer at an offset. *)
Definition copy_from (src : list Z) (off n : Z) : M ipc_state (list Z) :=
  if (0 <=? off) && (off + n <=? Z.of_nat (length src)) then mret (slice src (Z.to_nat off) (Z.to_nat n)) else fault.
(** [memcpy] into a buffer at an offset. *)
Definition copy_into (dst : list Z) (off : Z) (l : list Z) : M ipc_state (list Z) :=
  if (0 <=? off) && (off + Z.of_nat (length l) <=? Z.of_nat (length dst)) then mret (splice dst (Z.to_nat off) l) else fault.

(** ** Identifiers *)
Definition init_ipc : ipc_ids := mkIds 16 0 0 init_spinlock (replicate 16 0).

Fixpoint first_free (l : list Z) (id : Z) : Z :=
  match l with [] => -1 | q :: l => if q =? 0 then id else first_free l (id + 1) end.
Definition ipc_addid (que : Z) : M ipc_state Z :=
  d ← gets msg_ids;
  let id := first_free (take (Z.to_nat (ids_size d)) (entries d)) 0 in
  if id <? 0 then mret (-1)
  else
    modify (λ s, set_ids (set_in_use (ids_in_use d + 1) (msg_ids s)) s);;
    q ← get_q que;
    set_q que (mkQ (q_key q) (ids_seq d) (max_msg q) (sum_msg q));;
    modify (λ s, set_ids (set_ids_seq (u16 (ids_seq d + 1)) (msg_ids s)) s);;
    modify (λ s, set_ids (set_entries (<[Z.to_nat id := que]> (entries d)) (msg_ids s)) s);;
    mret id.
Definition ipc_buildin (id seq : Z) : Z := seq * SEQ_MULTIPLIER + id.

(** [fresh] is what the memory of the new queue held. *)
Definition newque (fresh : msg_queue) (key : Z) : M ipc_state Z :=
  que ← on_ikm (kalloc MSG_QUEUE_SIZE);
  if que =? 0 then mret ENOMEM
  else
    set_q que fresh;;
    id ← ipc_addid que;
    if id <? 0 then modify (λ s, set_mqs (delete que (mqs s)) s);; on_ikm (kfree que);; mret ENOSEQ
    else
      q ← get_q que;
      set_q que (mkQ key (q_seq q) MAX_MSGNUM 0);;
      new_node (q_message que);; new_node (q_receiver que);; new_node (q_sender que);;
      on_ih (init_list_node (q_message que));;
      on_ih (init_list_node (q_receiver que));;
      on_ih (init_list_node (q_sender que));;
      q ← get_q que;
      mret (ipc_buildin id (q_seq q)).

Fixpoint findkey_loop (l : list Z) (id key : Z) : M ipc_state Z :=
  match l with
  | [] => mret (-1)
  | q :: l =>
      if q =? 0 then findkey_loop l (id + 1) key
      else x ← get_q q; if q_key x =? key then mret id else findkey_loop l (id + 1) key
  end.
Definition ipc_findkey (key : Z) : M ipc_state Z :=
  d ← gets msg_ids; findkey_loop (take (Z.to_nat (ids_size d)) (entries d)) 0 key.

Definition sys_msgget (fresh : msg_queue) (key msgflg : Z) : M ipc_state Z :=
  _acquire_spinlock ids_lens;;
  ret ← (if key =? IPC_PRIVATE then newque fresh key
         else
           id ← ipc_findkey key;
           if id =? -1 then
             if flag msgflg IPC_CREATE then newque fresh key else mret ENOENT
           else if flag msgflg IPC_EXCL then mret EEXIST
           else
             d ← gets msg_ids;
             q ← of_opt (entries d !! Z.to_nat id);
             x ← get_q q;
             mret (ipc_buildin id (q_seq x)));
  release_spinlock ids_lens;;
  mret ret.

(** The queue with identifier [msgid], 0 when there is none.  [%] and [/] truncate, and a
    negative index is outside the array. *)
Definition get_msgq (msgid : Z) : M ipc_state Z :=
  let id := Z.rem msgid SEQ_MULTIPLIER in
  d ← gets msg_ids;
  if ids_size d <=? id then mret 0
  else if id <? 0 then fault
  else
    q ← of_opt (entries d !! Z.to_nat id);
    if q =? 0 then mret 0
    else x ← get_q q; if Z.quot msgid SEQ_MULTIPLIER =? q_seq x then mret q else mret 0.

(** ** Messages *)
Fixpoint free_segs (fuel : nat) (mseg : Z) : M ipc_state () :=
  if mseg =? 0 then mret ()
  else match fuel with
       | O => nofuel
       | S fuel =>
           x ← get_seg mseg;
           on_ikm (kfree_page mseg);;
           modify (λ s, set_msegs (delete mseg (msegs s)) s);;
           free_segs fuel (s_nxt x)
       end.
Definition free_msg (msg : Z) : M ipc_state () :=
  x ← get_msg msg;
  n ← gets (λ s, S (base.size (msegs s)));
  free_segs n (m_nxt x);;
  on_ikm (kfree_page msg);;
  modify (λ s, set_ih (delete msg (ih s)) s);;
  modify (λ s, set_msgs (delete msg (msgs s)) s).

(** [*lst = v], where [lst] is the [nxt] of the message or of a segment. *)
Definition set_nxt (lst : Z + Z) (v : Z) : M ipc_state () :=
  match lst with
  | inl a => x ← get_msg a; set_msg a (mkMsg (m_mtype x) (m_size x) v (m_data x))
  | inr a => x ← get_seg a; set_seg a (mkSeg v (s_data x))
  end.

Fixpoint load_segs (fuel : nat) (msg : Z) (lst : Z + Z) (src : list Z) (off len : Z) : M ipc_state Z :=
  if 0 <? len then
    match fuel with
    | O => nofuel
    | S fuel =>
        mseg ← on_ikm kalloc_page;
        if mseg =? 0 then free_msg msg;; mret 0
        else
          l ← copy_from src off (Z.min MSG_MSGSEGSZ len);
          set_nxt lst mseg;;
          set_seg mseg (mkSeg 0 l);;
          let len := len - Z.min MSG_MSGSEGSZ len in
          load_segs fuel msg (inr mseg) src (off + Z.min MSG_MSGSEGSZ len) len
    end
  else mret msg.
Definition load_msg (src : list Z) (len : Z) : M ipc_state Z :=
  msg ← on_ikm kalloc_page;
  if msg =? 0 then mret 0
  else
    l ← copy_from src 0 (Z.min MSG_MSGSZ len);
    let len' := len - Z.min MSG_MSGSZ len in
    new_node msg;;
    set_msg msg (mkMsg 0 0 0 l);;
    load_segs (Z.to_nat len) msg (inl msg) src (Z.min MSG_MSGSZ len') len'.

Fixpoint store_segs (fuel : nat) (sg : Z) (dst : list Z) (off msgsz : Z) : M ipc_state (list Z) :=
  if 0 <? msgsz then
    match fuel with
    | O => nofuel
    | S fuel =>
        x ← get_seg sg;
        l ← copy_from (s_data x) 0 (Z.min msgsz MSG_MSGSEGSZ);
        dst ← copy_into dst off l;
        let msgsz := msgsz - Z.min msgsz MSG_MSGSEGSZ in
        store_segs fuel (s_nxt x) dst (off + Z.min msgsz MSG_MSGSEGSZ) msgsz
    end
  else mret dst.
Definition store_msg (dstg : msgbuf) (msg msgsz : Z) : M ipc_state msgbuf :=
  x ← get_msg msg;
  l ← copy_from (m_data x) 0 (Z.min msgsz MSG_MSGSZ);
  dst ← copy_into (b_data dstg) 0 l;
  let msgsz' := msgsz - Z.min MSG_MSGSZ msgsz in
  dst ← store_segs (Z.to_nat msgsz) (m_nxt x) dst (Z.min MSG_MSGSZ msgsz') msgsz';
  mret (mkBuf (m_mtype x) dst).

Definition testmsg (rqtype type : Z) : bool :=
  if rqtype =? 0 then true
  else if rqtype <? 0 then rqtype + type <=? 0
  else rqtype =? type.

(** ** Sending *)
(** The step of [_for_in_list]. *)
Definition list_step (head node : Z) : M ipc_state Z := if node =? head then mret 0 else on_ih (get_next node).

Definition wake_receiver (i : nat) (node : Z) (r : msg_receiver) (m : Z) : M ipc_state () :=
  set_rcv node (mkRcv (r_proc r) (r_mtype r) (r_size r) m);;
  _ ← on_ik (_activate_proc i (r_proc r) false);
  mret ().
Fixpoint pipeline_loop (fuel : nat) (i : nat) (head msg node : Z) : M ipc_state bool :=
  if node =? 0 then mret false
  else if node =? head then mret false
  else match fuel with
       | O => nofuel
       | S fuel =>
           r ← get_rcv node;
           m ← get_msg msg;
           if testmsg (r_mtype r) (m_mtype m) then
             _ ← on_ih (_detach_from_list node);
             if r_size r <? m_size m then
               wake_receiver i node r 0;;
               nxt ← list_step head node;
               pipeline_loop fuel i head msg nxt
             else wake_receiver i node r msg;; mret true
           else
             nxt ← list_step head node;
             pipeline_loop fuel i head msg nxt
       end.
Definition pipeline_send (fuel : nat) (i : nat) (msgq msg : Z) : M ipc_state bool :=
  node ← on_ih (get_next (q_receiver msgq)); pipeline_loop fuel i (q_receiver msgq) msg node.

(** The result of a call, or asleep. *)
Inductive call (A : Type) := Done (a : A) | Blocked.
Arguments Done {A} a.
Arguments Blocked {A}.

(** Insert at the end of a ring. *)
Definition insert_last (head node : Z) : M ipc_state () :=
  p ← on_ih (get_prev head); _ ← on_ih (_insert_into_list p node); mret ().

(** The call from the label [retry] on; [sender] is the address of the [msg_sender] on the
    caller's stack, [fuel] bounds the walk over the receivers. *)
Definition msgsnd_retry (fuel : nat) (i : nat) (sender msgid msg msgflg : Z) : M ipc_state (call Z) :=
  _acquire_spinlock ids_lens;;
  msgq ← get_msgq msgid;
  if msgq =? 0 then release_spinlock ids_lens;; free_msg msg;; mret (Done EIDRM)
  else
    q ← get_q msgq;
    if max_msg q <? sum_msg q + 1 then
      if flag msgflg IPC_NOWAIT then release_spinlock ids_lens;; free_msg msg;; mret (Done EAGAIN)
      else
        cp ← on_ik (thisproc i);
        modify (λ s, set_senders (<[sender := cp]> (senders s)) s);;
        new_node sender;;
        insert_last (q_sender msgq) sender;;
        on_ik _acquire_sched_lock;;
        release_spinlock ids_lens;;
        on_ik (simple_sched i SLEEPING);;
        mret Blocked
    else
      sent ← pipeline_send fuel i msgq msg;
      (if sent : bool then mret ()
       else
         insert_last (q_message msgq) msg;;
         q ← get_q msgq;
         set_q msgq (mkQ (q_key q) (q_seq q) (max_msg q) (sum_msg q + 1)));;
      release_spinlock ids_lens;;
      mret (Done 0).
Definition sys_msgsnd (fuel : nat) (i : nat) (sender msgid : Z) (msgp : option msgbuf) (msgsz msgflg : Z) : M ipc_state (call Z) :=
  match msgp with
  | None => mret (Done EINVAL)
  | Some b =>
      if (msgsz <? 0) || (b_mtype b <? 1) then mret (Done EINVAL)
      else
        msg ← load_msg (b_data b) msgsz;
        if msg =? 0 then mret (Done ENOMEM)
        else
          x ← get_msg msg;
          set_msg msg (mkMsg (b_mtype b) msgsz (m_nxt x) (m_data x));;
          msgsnd_retry fuel i sender msgid msg msgflg
  end.

(** ** Receiving *)
(** The process of the [msg_sender] a node is in: the field is at the same offset in a
    [msg_receiver]. *)
Definition waiter_proc (node : Z) : M ipc_state Z :=
  s ← get;
  match senders s !! node with
  | Some p => mret p
  | None => r ← of_opt (receivers s !! node); mret (r_proc r)
  end.
Fixpoint wakeup_loop (fuel : nat) (i : nat) (head : Z) : M ipc_state () :=
  e ← on_ih (_empty_list head);
  if e : bool then mret ()
  else match fuel with
       | O => nofuel
       | S fuel =>
           node ← on_ih (get_next head);
           _ ← on_ih (_detach_from_list node);
           p ← waiter_proc node;
           _ ← on_ik (_activate_proc i p false);
           wakeup_loop fuel i head
       end.
Definition ss_wakeup (i : nat) (head : Z) : M ipc_state () := n ← gets (λ s, base.size (ih s)); wakeup_loop n i head.

(** The walk of [sys_msgrcv] over the messages: the message found, 0 for none, and the
    type asked for at the end. *)
Fixpoint find_msg (fuel : nat) (head node mtype found : Z) : M ipc_state (Z * Z) :=
  if node =? 0 then mret (found, mtype)
  else if node =? head then mret (found, mtype)
  else match fuel with
       | O => nofuel
       | S fuel =>
           m ← get_msg node;
           if testmsg mtype (m_mtype m) then
             if mtype <? -1 then nxt ← list_step head node; find_msg fuel head nxt (mtype + 1) node
             else mret (node, mtype)
           else nxt ← list_step head node; find_msg fuel head nxt mtype found
       end.

(** The end of [sys_msgrcv]. *)
Definition msgrcv_deliver (b : msgbuf) (found msgsz : Z) : M ipc_state (call (Z * msgbuf)) :=
  m ← get_msg found;
  let msgsz := Z.min msgsz (m_size m) in
  b ← store_msg b found msgsz;
  free_msg found;;
  mret (Done (msgsz, b)).

(** [receiver] is the address of the [msg_receiver] on the caller's stack and [junk] what
    its field [r_msg] held.  The result is the value returned and the buffer. *)
Definition sys_msgrcv (i : nat) (receiver junk msgid : Z) (msgp : option msgbuf) (msgsz mtype msgflg : Z)
    : M ipc_state (call (Z * msgbuf)) :=
  match msgp with
  | None => mret (Done (EINVAL, mkBuf 0 []))
  | Some b =>
      if msgsz <? 0 then mret (Done (EINVAL, b))
      else
        _acquire_spinlock ids_lens;;
        msgq ← get_msgq msgid;
        if msgq =? 0 then release_spinlock ids_lens;; mret (Done (EIDRM, b))
        else
          n ← gets (λ s, base.size (ih s));
          node ← on_ih (get_next (q_message msgq));
          '(found, mtype) ← find_msg n (q_message msgq) node mtype 0;
          if found =? 0 then
            if flag msgflg IPC_NOWAIT then release_spinlock ids_lens;; mret (Done (ENOMSG, b))
            else
              new_node receiver;;
              insert_last (q_receiver msgq) receiver;;
              cp ← on_ik (thisproc i);
              set_rcv receiver (mkRcv cp mtype msgsz junk);;
              on_ik _acquire_sched_lock;;
              release_spinlock ids_lens;;
              on_ik (simple_sched i SLEEPING);;
              mret Blocked
          else
            m ← get_msg found;
            if msgsz <? m_size m then release_spinlock ids_lens;; mret (Done (E2BIG, b))
            else
              _ ← on_ih (_detach_from_list found);
              q ← get_q msgq;
              set_q msgq (mkQ (q_key q) (q_seq q) (max_msg q) (sum_msg q - 1));;
              ss_wakeup i (q_sender msgq);;
              release_spinlock ids_lens;;
              msgrcv_deliver b found msgsz
  end.
Definition msgrcv_wake (receiver : Z) (b : msgbuf) (msgsz : Z) : M ipc_state (call (Z * msgbuf)) :=
  r ← get_rcv receiver;
  if r_msg r =? 0 then mret (Done (E2BIG, b)) else msgrcv_deliver b (r_msg r) msgsz.

(** ** Removing a queue *)
Fixpoint expunge_loop (fuel : nat) (i : nat) (head : Z) : M ipc_state () :=
  e ← on_ih (_empty_list head);
  if e : bool then mret ()
  else match fuel with
       | O => nofuel
       | S fuel =>
           node ← on_ih (get_next head);
           _ ← on_ih (_detach_from_list node);
           r ← get_rcv node;
           wake_receiver i node r 0;;
           expunge_loop fuel i head
       end.
Definition expunge_all (i : nat) (que : Z) : M ipc_state () :=
  n ← gets (λ s, base.size (ih s)); expunge_loop n i (q_receiver que).
Fixpoint drop_messages (fuel : nat) (head : Z) : M ipc_state () :=
  e ← on_ih (_empty_list head);
  if e : bool then mret ()
  else match fuel with
       | O => nofuel
       | S fuel =>
           node ← on_ih (get_next head);
           _ ← on_ih (_detach_from_list node);
           free_msg node;;
           drop_messages fuel head
       end.
Definition freeque (i : nat) (id : Z) : M ipc_state () :=
  _acquire_spinlock ids_lens;;
  msgq ← get_msgq id;
  (if msgq =? 0 then mret ()
   else
     modify (λ s, set_ids (set_entries (<[Z.to_nat (Z.rem id SEQ_MULTIPLIER) := 0]> (entries (msg_ids s))) (msg_ids s)) s);;
     ss_wakeup i (q_receiver msgq);;
     expunge_all i msgq;;
     n ← gets (λ s, base.size (ih s));
     drop_messages n (q_message msgq);;
     modify (λ s, set_ids (set_in_use (ids_in_use (msg_ids s) - 1) (msg_ids s)) s);;
     on_ikm (kfree msgq);;
     modify (λ s, set_mqs (delete msgq (mqs s)) s));;
  release_spinlock ids_lens.
Definition sys_msgctl (i : nat) (msgid cmd : Z) : M ipc_state Z :=
  if cmd =? IPC_RMID then freeque i msgid;; mret 0 else mret EINVAL.
