(* ===== verification/IpcInv.v ===== *)
(** * Message queues: what the calls do

    The rings of a queue through their three operations, waking a waiter through the
    scheduler's invariant, and the page a message lives in through the allocator's. *)

From stdpp Require Import base numbers list gmap.
From S2P Require Import Prelude Spinlock Lists Bytes Mem RBTree Cpu Sched SchedInv Ipc.

(** ** Rings *)
Lemma ring_frame h h' l : ring h l → (∀ a, a ∈ l → h' !! a = h !! a) → ring h' l.
Proof.
  destruct l as [|x l]; [done|]. intros (Hnd & Hz & Hs & Hl1 & Hl2) Hf. pose proof (plast_elem x l) as Hq.
  split_and!; [done|done| |split].
  - apply (seg_frame h); try done; intros a Ha; [intros _|]; rewrite /next_of /prev_of Hf //; set_solver.
  - rewrite /next_of Hf //.
  - rewrite /prev_of Hf //. set_solver.
Qed.

Lemma on_ih_run {X} (m : M heap X) s x h : m (ih s) = Ret x h → on_ih m s = Ret x (set_ih h s).
Proof. intros H. by rewrite /on_ih (zoom_run _ _ _ _ _ H). Qed.
Lemma on_ik_run {X} (m : M kern X) s x k : m (ik s) = Ret x k → on_ik m s = Ret x (set_ik k s).
Proof. intros H. by rewrite /on_ik (zoom_run _ _ _ _ _ H). Qed.
Lemma on_ikm_run {X} (m : M mstate X) s x k : m (km (ik s)) = Ret x k → on_ikm m s = Ret x (set_ik (set_km k (ik s)) s).
Proof. intros H. by rewrite /on_ikm (zoom_run _ _ _ _ _ H). Qed.
Lemma set_ih_id s : set_ih (ih s) s = s.
Proof. by destruct s. Qed.

Lemma next_run s x l : ring (ih s) (x :: l) → on_ih (get_next x) s = Ret (pfirst l x) s.
Proof. intros H. rewrite (on_ih_run _ _ (pfirst l x) (ih s)) ?set_ih_id //. by apply get_next_run, ring_next. Qed.
Lemma empty_run s x l : ring (ih s) (x :: l) → on_ih (_empty_list x) s = Ret (bool_decide (l = [])) s.
Proof.
  intros H. rewrite (on_ih_run _ _ (bool_decide (l = [])) (ih s)) ?set_ih_id //.
  rewrite /_empty_list (bind_run _ _ _ _ _ (get_next_run _ _ _ (ring_next _ _ _ H))). run_simpl. f_equal.
  destruct l as [|y l]; simpl; [by rewrite Z.eqb_refl|]. destruct H as (Hnd & _). apply NoDup_cons in Hnd as [Hnd _].
  apply Z.eqb_neq. change (pfirst (y :: l) x) with y. intros ->. set_solver.
Qed.

(** The ring of [head] loses one of its nodes, which becomes a ring of its own. *)
Lemma detach_node_run s head l1 node l2 :
  ring (ih s) (head :: l1 ++ node :: l2) →
  ∃ r h, on_ih (_detach_from_list node) s = Ret r (set_ih h s) ∧ ring h (head :: l1 ++ l2) ∧ ring h [node] ∧
    ∀ a, a ∉ head :: l1 ++ node :: l2 → h !! a = ih s !! a.
Proof.
  intros H. assert (H' : ring (ih s) (node :: l2 ++ head :: l1)) by (by apply ring_middle).
  destruct (detached_ring _ _ _ H') as (R1 & R2 & R3). do 2 eexists. split_and!.
  - apply on_ih_run, detach_run, H'.
  - destruct l2 as [|y l2]; [rewrite app_nil_r; by apply R2|].
    apply (ring_rotate _ (y :: l2) (head :: l1)); [done|]. by apply R2.
  - done.
  - intros a Ha. apply R3. set_solver.
Qed.

Lemma insert_last_run s head l node :
  ring (ih s) (head :: l) → node ∉ head :: l → node ≠ 0 → is_Some (ih s !! node) →
  ∃ h, insert_last head node s = Ret () (set_ih h s) ∧ ring h (head :: l ++ [node]) ∧
    ∀ a, a ∉ node :: head :: l → h !! a = ih s !! a.
Proof.
  intros Hr Hn H0 Hs. destruct (plast_split head l) as [l' El]. set (p := plast head l) in *.
  assert (Hr' : ring (ih s) (p :: l')).
  { rewrite El in Hr. destruct l' as [|y l']; [done|]. by apply (ring_rotate _ (y :: l') [p]). }
  assert (Hin : ∀ a, a ∈ p :: l' ↔ a ∈ head :: l) by (intros a; rewrite El; set_solver).
  destruct (insert_run (ih s) p l' node Hr') as (h & Hrun & Hr2 & Hf); [by rewrite Hin|done|done|].
  exists h. split_and!.
  - rewrite /insert_last (bind_run _ _ _ p s).
    { rewrite (on_ih_run _ _ p (ih s)) ?set_ih_id //. by apply get_prev_run, ring_prev. }
    by rewrite (bind_run _ _ _ _ _ (on_ih_run _ _ _ _ Hrun)).
  - apply (ring_rotate _ [p] (node :: l')) in Hr2; [|done]. simpl in Hr2. rewrite -El in Hr2.
    by apply (ring_rotate _ [node] (head :: l)) in Hr2.
  - intros a Ha. apply Hf. set_solver.
Qed.

(** ** Waking a waiter *)
Definition aobs (k : kern) := (km k, cpus k, idle <$> procs k).
Lemma keeps_upd_proc_a p f : (∀ x, idle (f x) = idle x) → keeps aobs (upd_proc p f).
Proof.
  intros H k ? k'. rewrite /upd_proc /get_proc. run_simpl. destruct (procs k !! p) as [x|] eqn:E; [|done]. intros [= _ <-].
  rewrite /aobs /=. rewrite fmap_insert H insert_id // lookup_fmap E //.
Qed.
Section wake_keeps.
Context {X : Type} (P : kern → X).
Context (Pi : ∀ v s, P (set_infos v s) = P s) (Pc : ∀ v s, P (set_conts v s) = P s) (Pq : ∀ v s, P (set_rq v s) = P s)
        (Pl : ∀ v s, P (lset slock v s) = P s).
Lemma wk_upd_info p f : keeps P (upd_info p f).
Proof. rewrite /upd_info /get_info. keeps_solve. intros. apply Pi. Qed.
Lemma wk_upd_cont p f : keeps P (upd_cont p f).
Proof. rewrite /upd_cont /get_cont. keeps_solve. intros. apply Pc. Qed.
Lemma wk_on_rq {Y} (m : M rbheap Y) : keeps P (on_rq m).
Proof. apply keeps_zoom, Pq. Qed.
Lemma wk_lock : keeps P _acquire_sched_lock.
Proof. apply keeps_acquire, Pl. Qed.
Lemma wk_unlock : keeps P _release_sched_lock.
Proof. apply keeps_release, Pl. Qed.
Lemma wk_min i c : keeps P (get_minvruntime i c).
Proof.
  rewrite /get_minvruntime /thisproc /get_cpu /get_info. keeps_solve; try apply wk_on_rq.
Qed.
#[local] Hint Resolve wk_upd_info wk_upd_cont wk_on_rq wk_lock wk_unlock wk_min : keeps.
Lemma wk_enqueue c p : keeps P (enqueue c p).
Proof. rewrite /enqueue. keeps_solve. Qed.
#[local] Hint Resolve wk_enqueue : keeps.
Lemma wk_up fuel i : ∀ c, keeps P (activate_up fuel i c).
Proof.
  induction fuel as [|fuel IH]; intros c; cbn [activate_up]; rewrite /get_cont /get_info; keeps_solve.
Qed.
#[local] Hint Resolve wk_up : keeps.
Lemma wk_activate i p al : keeps P (upd_proc p (set_state RUNNABLE)) → keeps P (_activate_proc i p al).
Proof. intros Hp. rewrite /_activate_proc /get_proc /get_info /cont_fuel. keeps_solve. Qed.
End wake_keeps.

Lemma activate_aobs i p al : keeps aobs (_activate_proc i p al).
Proof. by apply wk_activate; try done; apply keeps_upd_proc_a. Qed.
(** Only the process that is woken changes. *)
Lemma activate_others i p al : keeps (λ k, delete p (procs k)) (_activate_proc i p al).
Proof.
  apply wk_activate; try done. intros k ? k'. rewrite /upd_proc /get_proc. run_simpl.
  destruct (procs k !! p); [|done]. intros [= _ <-]. simpl. by rewrite delete_insert_eq.
Qed.

Lemma activate_not_sleeping i p al k r k' :
  _activate_proc i p al k = Ret r k' → ∃ y, procs k' !! p = Some y ∧ (al = false → state y ≠ SLEEPING).
Proof.
  intros H. apply bind_ret_inv in H as (u & k1 & Hl & H). apply bind_ret_inv in H as (x & k2 & Hx & H).
  assert (k2 = k1 ∧ procs k1 !! p = Some x) as [-> Hp].
  { move: Hx. rewrite /get_proc. run_simpl. destruct (procs k1 !! p); [|done]. by intros [= -> ->]. }
  destruct (_ || _) eqn:E1 in H; [|destruct (_ || _) eqn:E2 in H].
  - apply bind_ret_inv in H as (? & k3 & H1 & [= _ <-]). exists x. apply (wk_unlock procs) in H1 as ->; [|done]. split; [done|].
    intros -> E. rewrite E in E1. done.
  - apply bind_ret_inv in H as (? & k3 & H1 & H). exists (set_state RUNNABLE x). split; [|done].
    match type of H with ?m _ = _ => assert (keeps procs m) as Hk by (rewrite /get_info /cont_fuel; keeps_solve; try (apply wk_min; done);
      try (by apply wk_upd_info); try (by apply wk_enqueue); try (by apply wk_upd_cont); try (by apply wk_up); by apply wk_unlock) end.
    rewrite (Hk _ _ _ H). move: H1. rewrite /upd_proc /get_proc. run_simpl. rewrite Hp. intros [= _ <-]. apply lookup_insert_eq.
  - apply bind_ret_inv in H as (? & k3 & H1 & [= _ <-]). exists x. apply (wk_unlock procs) in H1 as ->; [|done]. split; [done|].
    intros -> E. rewrite E in E2. done.
Qed.

(** What the message queues need of the scheduler: CPU [i] can wake the processes [W]. *)
Record wake_ok (k : kern) (i : nat) (W : gset Z) : Prop := {
  wo_inv : sched_inv k;
  wo_cpu : (i < length (cpus k))%nat;
  wo_proc p : p ∈ W → idle <$> procs k !! p = Some false }.

Lemma wake_step k i W p :
  wake_ok k i W → p ∈ W →
  ∃ r k', _activate_proc i p false k = Ret r k' ∧ wake_ok k' i W ∧ km k' = km k ∧
    (∀ q, q ≠ p → procs k' !! q = procs k !! q) ∧ (∃ y, procs k' !! p = Some y ∧ state y ≠ SLEEPING).
Proof.
  intros [H1 H2 H3] Hp. pose proof (H3 p Hp) as (x & Hx & Hid)%fmap_Some.
  destruct (activate_ok k i p x false H1 H2 Hx (eq_sym Hid)) as (r & k' & Hrun & Hinv & _).
  pose proof (activate_aobs i p false _ _ _ Hrun) as E. injection E as E1 E2 E3.
  exists r, k'. split_and!; [done| |done| |destruct (activate_not_sleeping _ _ _ _ _ _ Hrun) as (y & ? & ?); eauto].
  - split; [done|by rewrite E2|]. intros q Hq. by rewrite -lookup_fmap E3 lookup_fmap H3.
  - intros q Hq. pose proof (activate_others i p false _ _ _ Hrun) as E. simpl in E.
    assert (p ≠ q) by congruence. rewrite -(lookup_delete_ne (procs k') p q) //. by rewrite E lookup_delete_ne.
Qed.

(** The page allocator works on the same kernel state. *)
Lemma wake_ok_km k i W m : wake_ok k i W → Mem.words m = Mem.words (km k) → wake_ok (set_km m k) i W.
Proof.
  intros [[F1 F2 F3 F4 F5 F6 F7] H2 H3] E. split; [|done..]. split; try done; [by apply good_km|]. by rewrite /= E.
Qed.

(** ** Pages *)
Lemma mem_inv_lp m lb lp lp' : lp ≡ₚ lp' → mem_inv m lb lp → mem_inv m lb lp'.
Proof. by apply mem_inv_perm. Qed.
Lemma alloc_page m lb lp p ps :
  mem_inv m lb lp → pages m = p :: ps →
  ∃ m', kalloc_page m = Ret p m' ∧ mem_inv m' lb (p :: lp) ∧ pages m' = ps ∧ Mem.words m' = Mem.words m ∧ p ∉ ps ∧ p ≠ 0.
Proof.
  intros Hinv Hp. destruct (kalloc_page_spec m lb lp p ps Hinv Hp) as (m' & Hrun & Hinv' & _).
  pose proof Hinv as (_ & _ & _ & _ & Hps & _). rewrite Hp in Hps. apply Forall_cons in Hps as [(_ & _ & Hr & pg & Hpg & _) _].
  rewrite (kalloc_page_run m p ps pg Hp Hpg) in Hrun. injection Hrun as <-. eexists. split_and!; [exact (kalloc_page_run m p ps pg Hp Hpg)|done..| |].
  - intros Hin. by apply (page_fresh m lb lp p ps p Hinv Hp); [left|].
  - rewrite /KSPACE_MASK in Hr. lia.
Qed.
Lemma free_page m lb lp p :
  mem_inv m lb (p :: lp) →
  ∃ m', kfree_page p m = Ret () m' ∧ Mem.words m' = Mem.words m ∧
    (pages m' = p :: pages m ∧ mem_inv m' lb lp ∨ pages m' = pages m ∧ mem_inv m' lb (p :: lp)).
Proof.
  intros Hinv. destruct (kfree_page_spec m lb lp p Hinv) as (m' & Hrun & H). exists m'. split_and!; [done| |naive_solver].
  pose proof Hinv as (_ & _ & _ & _ & _ & Hlp & _). apply Forall_cons in Hlp as [(_ & Hf & _ & pg & Hpg & Hl) _].
  rewrite (kfree_page_run m p pg Hf Hpg Hl) in Hrun. by injection Hrun as <-.
Qed.

(** ** Messages of one page *)
Lemma copy_from_run src n s : 0 ≤ n ≤ Z.of_nat (length src) → copy_from src 0 n s = Ret (take (Z.to_nat n) src) s.
Proof. intros H. rewrite /copy_from (proj2 (Z.leb_le _ _)); [lia|]. rewrite (proj2 (Z.leb_le _ _)); [lia|]. by rewrite /slice drop_0. Qed.
Lemma copy_into_run dst l s : (length l ≤ length dst)%nat → copy_into dst 0 l s = Ret (l ++ drop (length l) dst) s.
Proof. intros H. rewrite /copy_into (proj2 (Z.leb_le _ _)); [lia|]. rewrite (proj2 (Z.leb_le _ _)); [lia|]. done. Qed.

Definition loaded (p : Z) (bs : list Z) (m' : mstate) (s : ipc_state) : ipc_state :=
  set_msgs (<[p := mkMsg 0 0 0 bs]> (msgs s)) (set_ih (<[p := mkNode 0 0]> (ih s)) (set_ik (set_km m' (ik s)) s)).
Lemma load_short s src n p m' :
  0 ≤ n ≤ Z.of_nat (length src) → n ≤ MSG_MSGSZ → kalloc_page (km (ik s)) = Ret p m' → p ≠ 0 →
  load_msg src n s = Ret p (loaded p (take (Z.to_nat n) src) m' s).
Proof.
  intros Hn Hm Hrun Hp. rewrite /load_msg (bind_run _ _ _ _ _ (on_ikm_run _ _ _ _ Hrun)) (proj2 (Z.eqb_neq _ _) Hp).
  rewrite (bind_run _ _ _ _ _ (copy_from_run src (Z.min MSG_MSGSZ n) _ ltac:(lia))). rewrite (Z.min_r MSG_MSGSZ n Hm) Z.sub_diag.
  do 2 (erewrite bind_run; [|reflexivity]). by destruct (Z.to_nat n).
Qed.

Definition msg_at (s : ipc_state) (a : Z) (m : Z * list Z) : Prop :=
  msgs s !! a = Some (mkMsg m.1 (Z.of_nat (length m.2)) 0 m.2) ∧ Z.of_nat (length m.2) ≤ MSG_MSGSZ.
Lemma msgs_at_frame s s' nodes l :
  Forall2 (msg_at s) nodes l → (∀ a, a ∈ nodes → msgs s' !! a = msgs s !! a) → Forall2 (msg_at s') nodes l.
Proof.
  induction 1 as [|a m nodes l [Ha ?] _ IH]; intros E; constructor.
  - split; [|done]. rewrite E //. apply list_elem_of_here.
  - apply IH. intros b Hb. by apply E, list_elem_of_further.
Qed.
Lemma store_short s a t bs b :
  msg_at s a (t, bs) → (length bs ≤ length (b_data b))%nat →
  store_msg b a (Z.of_nat (length bs)) s = Ret (mkBuf t (bs ++ drop (length bs) (b_data b))) s.
Proof.
  intros [Ha Hl] Hb. simpl in *. rewrite /store_msg. erewrite bind_run; [|rewrite /get_msg; run_simpl; by rewrite Ha]. simpl m_data. rewrite (Z.min_l _ _ Hl).
  rewrite (bind_run _ _ _ _ _ (copy_from_run bs (Z.of_nat (length bs)) _ ltac:(lia))). rewrite Nat2Z.id take_ge //.
  rewrite (bind_run _ _ _ _ _ (copy_into_run _ _ _ Hb)). rewrite (Z.min_r MSG_MSGSZ _ Hl) Z.sub_diag.
  rewrite (bind_run _ _ _ (bs ++ drop (length bs) (b_data b)) s) //. by destruct (length bs).
Qed.

(** The state after [free_msg] of such a message. *)
Definition freed (a : Z) (m' : mstate) (s : ipc_state) : ipc_state :=
  set_msgs (delete a (msgs s)) (set_ih (delete a (ih s)) (set_ik (set_km m' (ik s)) s)).
Lemma free_short s a m m' :
  msg_at s a m → kfree_page a (km (ik s)) = Ret () m' → free_msg a s = Ret () (freed a m' s).
Proof.
  intros [Ha _] Hrun. rewrite /free_msg. erewrite bind_run; [|rewrite /get_msg; run_simpl; by rewrite Ha].
  erewrite bind_run; [|reflexivity]. simpl m_nxt. erewrite bind_run; [|reflexivity].
  by rewrite (bind_run _ _ _ _ _ (on_ikm_run _ _ _ _ Hrun)).
Qed.

Lemma perm_out {A} (x a : A) l1 l2 l : (x :: l1 ++ a :: l2) ++ l ≡ₚ a :: (x :: l1 ++ l2) ++ l.
Proof. change (x :: l1 ++ a :: l2) with ((x :: l1) ++ a :: l2). by rewrite -Permutation_middle. Qed.

(** ** Walks over a ring *)
Lemma ring_size h l : ring h l → (length l ≤ base.size h)%nat.
Proof.
  intros Hr. assert (Hnd : NoDup l) by (destruct l; [done|apply Hr]).
  rewrite -(size_list_to_set (C := gset Z)) // -size_dom. apply subseteq_size.
  intros a Ha%elem_of_list_to_set. apply elem_of_dom. eapply ring_in_heap; eassumption.
Qed.

Lemma list_step_run s head pre node l :
  ring (ih s) (head :: pre ++ node :: l) → list_step head node s = Ret (pfirst l head) s.
Proof.
  intros H. rewrite /list_step. assert (Hne : node ≠ head).
  { destruct H as (Hnd & _). intros ->. apply NoDup_cons in Hnd as [Hnd _]. set_solver. }
  rewrite (proj2 (Z.eqb_neq _ _) Hne). apply ring_middle in H. rewrite (next_run _ _ _ H). by destruct l.
Qed.

(** The first node that satisfies the test, as the walk finds it. *)
Definition matches (mtype : Z) (m : Z * list Z) : Prop := testmsg mtype m.1 = true.
#[export] Instance matches_dec mtype m : Decision (matches mtype m).
Proof. rewrite /matches. apply _. Defined.

Lemma ring_node_ne h head pre node l : ring h (head :: pre ++ node :: l) → node ≠ 0 ∧ node ≠ head.
Proof.
  intros (Hnd & Hz & _). split.
  - intros ->. apply Hz. apply list_elem_of_further, elem_of_app. right. apply list_elem_of_here.
  - intros ->. apply NoDup_cons in Hnd as [Hnd _]. apply Hnd, elem_of_app. right. apply list_elem_of_here.
Qed.

Lemma find_msg_run s head mtype : ∀ nodes l pre fuel,
  -1 ≤ mtype → ring (ih s) (head :: pre ++ nodes) → Forall2 (msg_at s) nodes l → (length nodes ≤ fuel)%nat →
  find_msg fuel head (pfirst nodes head) mtype 0 s =
    Ret (match list_find (matches mtype) l with Some (k, _) => nth k nodes 0 | None => 0 end, mtype) s.
Proof.
  induction nodes as [|node nodes IH]; intros l pre fuel Hm Hr Hl Hf.
  - apply Forall2_nil_inv_l in Hl as ->. destruct Hr as (_ & H0 & _). change (pfirst [] head) with head. destruct fuel; simpl.
    all: rewrite (proj2 (Z.eqb_neq head 0)); [set_solver|]; by rewrite Z.eqb_refl.
  - apply Forall2_cons_inv_l in Hl as ([t bs] & l' & Hn & Hl & ->). destruct (ring_node_ne _ _ _ _ _ Hr) as [Hn0 Hnh].
    destruct fuel as [|fuel]; [simpl in Hf; lia|]. change (pfirst (node :: nodes) head) with node. cbn [find_msg].
    rewrite (proj2 (Z.eqb_neq _ _) Hn0) (proj2 (Z.eqb_neq _ _) Hnh).
    erewrite bind_run; [|rewrite /get_msg; run_simpl; by rewrite (proj1 Hn)]. cbn [m_mtype fst list_find].
    destruct (testmsg mtype t) eqn:Et.
    + rewrite (proj2 (Z.ltb_ge mtype (-1))); [lia|]. rewrite decide_True; [exact Et|]. done.
    + rewrite decide_False; [by rewrite /matches /= Et|]. rewrite (bind_run _ _ _ _ _ (list_step_run _ _ _ _ _ Hr)).
      rewrite (IH l' (pre ++ [node]) fuel) //; [by rewrite -app_assoc|simpl in Hf; lia|].
      by destruct (list_find _ l') as [[k y]|].
Qed.

(** Every waiter of a ring is woken, in order; the ring is empty then. *)
Lemma wakeup_run i W : ∀ fuel s head ss,
  ring (ih s) (head :: ss) → wake_ok (ik s) i W →
  (∀ n, n ∈ ss → ∃ p, waiter_proc n s = Ret p s ∧ p ∈ W) → (length ss ≤ fuel)%nat →
  ∃ k h, wakeup_loop fuel i head s = Ret () (set_ik k (set_ih h s)) ∧ ring h [head] ∧ wake_ok k i W ∧ km k = km (ik s) ∧
    (∀ a, a ∉ head :: ss → h !! a = ih s !! a).
Proof.
  induction fuel as [|fuel IH]; intros s head ss Hr Hw Hss Hf; cbn [wakeup_loop];
    rewrite (bind_run _ _ _ _ _ (empty_run _ _ _ Hr)); destruct ss as [|n ss]; simpl in Hf; try lia; try (by exists (ik s), (ih s); destruct s).
  rewrite bool_decide_eq_false_2 //. rewrite (bind_run _ _ _ _ _ (next_run _ _ _ Hr)). change (pfirst (n :: ss) head) with n.
  destruct (detach_node_run s head [] n ss Hr) as (r & h1 & Hd & Hr1 & _ & Hf1). rewrite (bind_run _ _ _ _ _ Hd).
  destruct (Hss n ltac:(apply list_elem_of_here)) as (p & Hp & HpW).
  assert (Hwp : ∀ s' n q, senders s' = senders s → receivers s' = receivers s → waiter_proc n s = Ret q s → waiter_proc n s' = Ret q s').
  { intros s' m q E1 E2. rewrite /waiter_proc. run_simpl. rewrite E1 E2. destruct (senders s !! m); [by intros [= ->]|].
    destruct (receivers s !! m); [|done]. simpl. by intros [= ->]. }
  rewrite (bind_run _ _ _ p _ (Hwp (set_ih h1 s) _ _ eq_refl eq_refl Hp)).
  destruct (wake_step _ _ _ p Hw HpW) as (r' & k1 & Hk & Hw1 & Hkm & _). rewrite (bind_run _ _ _ r' (set_ik k1 (set_ih h1 s))); [by apply on_ik_run|].
  destruct (IH (set_ik k1 (set_ih h1 s)) head ss) as (k & h & Hrun & Hr2 & Hw2 & Hkm2 & Hf2); [done|done| |lia|].
  { intros m Hm. destruct (Hss m) as (q & Hq & HqW); [by apply list_elem_of_further|]. exists q. split; [|done]. by apply Hwp. }
  exists k, h. split_and!; [by rewrite Hrun|done|done|by rewrite Hkm2 -Hkm|].
  intros a Ha. rewrite Hf2; [set_solver|]. simpl. apply Hf1. set_solver.
Qed.
