(* ===== verification/IpcQueue.v ===== *)
(** * Message queues: the theorems

    A queue nobody waits on for messages refines a bounded list of typed messages;
    [pipeline_send] returns exactly when no waiting receiver is too small; what happens
    to long messages and to the senders of a removed queue. *)

From stdpp Require Import base numbers list gmap.
From S2P Require Import Prelude Spinlock Lists Bytes Mem RBTree Cpu Sched SchedInv Ipc IpcInv.

(** ** One queue, its messages and its waiting senders *)
Section channel.
Context (i : nat) (msgid q key cap : Z) (W : gset Z).

Record chan (s : ipc_state) (nodes ss lp : list Z) (lb : list region) (l : list (Z * list Z)) : Prop := {
  ch_lock : ids_lock (msg_ids s) = false;
  ch_size : ids_size (msg_ids s) = 16;
  ch_id : 0 ≤ msgid;
  ch_entry : entries (msg_ids s) !! Z.to_nat (msgid mod 16) = Some q;
  ch_null : q ≠ 0;
  ch_queue : mqs s !! q = Some (mkQ key (msgid / 16) cap (Z.of_nat (length l)));
  ch_msgs : ring (ih s) (q_message q :: nodes);
  ch_data : Forall2 (msg_at s) nodes l;
  ch_snd : ring (ih s) (q_sender q :: ss);
  ch_rcv : ring (ih s) [q_receiver q];
  ch_disj : NoDup ((q_message q :: nodes) ++ (q_sender q :: ss) ++ [q_receiver q]);
  ch_wake : wake_ok (ik s) i W;
  ch_wait n : n ∈ ss → ∃ p, senders s !! n = Some p ∧ p ∈ W;
  ch_mem : mem_inv (km (ik s)) lb (nodes ++ lp);
  ch_free p : p ∈ pages (km (ik s)) → ih s !! p = None }.

(** The queue holds the messages [l], oldest first. *)
Definition holds (s : ipc_state) (l : list (Z * list Z)) : Prop := ∃ nodes ss lp lb, chan s nodes ss lp lb l.

(** The state while a call is inside the lock. *)
Definition inside (s : ipc_state) : ipc_state := lset ids_lens true s.
Lemma inside_lock s l nodes ss lp lb : chan s nodes ss lp lb l → _acquire_spinlock ids_lens s = Ret () (inside s).
Proof. intros H. rewrite acquire_run. by rewrite /= (ch_lock _ _ _ _ _ _ H). Qed.
Lemma inside_unlock s : ids_lock (msg_ids s) = false → lset ids_lens false (inside s) = s.
Proof. destruct s as [? ? [] ? ? ? ? ?]. simpl. by intros ->. Qed.

Lemma get_msgq_run s nodes ss lp lb l : chan s nodes ss lp lb l → get_msgq msgid (inside s) = Ret q (inside s).
Proof.
  intros H. rewrite /get_msgq /SEQ_MULTIPLIER. run_simpl. pose proof (ch_id _ _ _ _ _ _ H).
  rewrite (ch_size _ _ _ _ _ _ H) Z.rem_mod_nonneg //. pose proof (Z.mod_pos_bound msgid 16 ltac:(lia)).
  rewrite (proj2 (Z.leb_gt _ _)); [lia|]. rewrite (proj2 (Z.ltb_ge _ _)); [lia|]. rewrite (ch_entry _ _ _ _ _ _ H) /=.
  rewrite (proj2 (Z.eqb_neq _ _) (ch_null _ _ _ _ _ _ H)). rewrite /get_q. run_simpl. rewrite (ch_queue _ _ _ _ _ _ H) /=.
  rewrite Z.quot_div_nonneg //. by rewrite Z.eqb_refl.
Qed.

(** No ring has a free page as a node. *)
Lemma chan_ring_alive s nodes ss lp lb l a : chan s nodes ss lp lb l →
  a ∈ (q_message q :: nodes) ++ (q_sender q :: ss) ++ [q_receiver q] → is_Some (ih s !! a).
Proof.
  intros H. rewrite !elem_of_app. intros [Ha|[Ha|Ha]].
  - exact (ring_in_heap _ _ _ (ch_msgs _ _ _ _ _ _ H) Ha).
  - exact (ring_in_heap _ _ _ (ch_snd _ _ _ _ _ _ H) Ha).
  - exact (ring_in_heap _ _ _ (ch_rcv _ _ _ _ _ _ H) Ha).
Qed.
Lemma chan_ring_ne s nodes ss lp lb l p a : chan s nodes ss lp lb l → ih s !! p = None →
  a ∈ (q_message q :: nodes) ++ (q_sender q :: ss) ++ [q_receiver q] → a ≠ p.
Proof. intros H Hp Ha ->. destruct (chan_ring_alive _ _ _ _ _ _ _ H Ha). congruence. Qed.

(** A change outside the rings and the messages of the queue. *)
Lemma chan_frame s s' nodes ss lp lp' lb l :
  chan s nodes ss lp lb l → msg_ids s' = msg_ids s → mqs s' !! q = mqs s !! q → senders s' = senders s →
  (∀ a, a ∈ (q_message q :: nodes) ++ (q_sender q :: ss) ++ [q_receiver q] → ih s' !! a = ih s !! a) →
  (∀ a, a ∈ nodes → msgs s' !! a = msgs s !! a) → wake_ok (ik s') i W → mem_inv (km (ik s')) lb (nodes ++ lp') →
  (∀ p, p ∈ pages (km (ik s')) → ih s' !! p = None) →
  chan s' nodes ss lp' lb l.
Proof.
  intros [H1 H2 H3 H4 H5 H6 H7 H8 H9 H10 H11 H12 H13 H14 H15] E1 E2 E3 Ei Em Hw Hm Hp. split; try done; rewrite ?E1 ?E2 ?E3 //.
  - apply (ring_frame (ih s)); [done|]. intros a Ha. apply Ei. set_solver.
  - by apply (msgs_at_frame s).
  - apply (ring_frame (ih s)); [done|]. intros a Ha. apply Ei. set_solver.
  - apply (ring_frame (ih s)); [done|]. intros a Ha. apply Ei. set_solver.
Qed.

(** ** Sending *)
Definition newmsg (p : Z) (m : Z * list Z) (m' : mstate) (s : ipc_state) : ipc_state :=
  set_msgs (<[p := mkMsg m.1 (Z.of_nat (length m.2)) 0 m.2]> (msgs s)) (set_ih (<[p := mkNode 0 0]> (ih s)) (set_ik (set_km m' (ik s)) s)).
Lemma newmsg_chan s nodes ss lp lb l p ps m m' :
  chan s nodes ss lp lb l → pages (km (ik s)) = p :: ps →
  mem_inv m' lb (p :: nodes ++ lp) → pages m' = ps → Mem.words m' = Mem.words (km (ik s)) → p ∉ ps →
  chan (newmsg p m m' s) nodes ss (p :: lp) lb l.
Proof.
  intros H Hp Hm' Hps Hw Hn. assert (Hnone : ih s !! p = None) by (apply (ch_free _ _ _ _ _ _ H); rewrite Hp; apply list_elem_of_here).
  apply (chan_frame s _ nodes ss lp _ lb l H); try done.
  - intros a Ha. pose proof (chan_ring_ne _ _ _ _ _ _ _ _ H Hnone Ha). simpl. rewrite lookup_insert_ne; [congruence|done].
  - intros a Ha. simpl. rewrite lookup_insert_ne //. intros ->. by apply (chan_ring_ne _ _ _ _ _ _ _ a H Hnone); [set_solver|].
  - apply wake_ok_km; [apply (ch_wake _ _ _ _ _ _ H)|done].
  - simpl. eapply mem_inv_lp; [|exact Hm']. apply Permutation_middle.
  - simpl. intros a Ha. rewrite Hps in Ha. rewrite lookup_insert_ne; [congruence|]. apply (ch_free _ _ _ _ _ _ H). rewrite Hp. by apply list_elem_of_further.
Qed.

Lemma free_chan s nodes ss lp lb l p m :
  chan s nodes ss (p :: lp) lb l → msg_at s p m → p ∉ (q_message q :: nodes) ++ (q_sender q :: ss) ++ [q_receiver q] →
  ∃ s', free_msg p s = Ret () s' ∧ holds s' l ∧ (length (pages (km (ik s))) ≤ length (pages (km (ik s'))))%nat.
Proof.
  intros H Hm Hp. destruct (free_page (km (ik s)) lb (nodes ++ lp) p) as (m' & Hrun & Hw & Hc).
  { eapply mem_inv_lp; [|apply (ch_mem _ _ _ _ _ _ H)]. symmetry. apply Permutation_middle. }
  exists (freed p m' s). split; [by apply (free_short _ _ m)|].
  assert (Hok : ∀ lp', mem_inv m' lb (nodes ++ lp') → (∀ a, a ∈ pages m' → a = p ∨ a ∈ pages (km (ik s))) → holds (freed p m' s) l).
  { intros lp' Hinv Hpg. exists nodes, ss, lp', lb. apply (chan_frame s _ _ _ _ _ _ _ H); try done.
    - intros a Ha. simpl. rewrite lookup_delete_ne //. intros ->. by apply Hp.
    - intros a Ha. simpl. rewrite lookup_delete_ne //. intros ->. apply Hp. set_solver.
    - apply wake_ok_km; [apply (ch_wake _ _ _ _ _ _ H)|done].
    - intros a Ha. simpl in *. rewrite lookup_delete_None. destruct (Hpg a Ha) as [->|?]; [by left|]. right. by apply (ch_free _ _ _ _ _ _ H). }
  simpl. destruct Hc as [[E Hinv]|[E Hinv]]; rewrite E.
  - split; [|simpl; lia]. apply (Hok lp Hinv). intros a. rewrite E. set_solver.
  - split; [|lia]. apply (Hok (p :: lp)); [|intros a; rewrite E; auto]. eapply mem_inv_lp; [|exact Hinv]. apply Permutation_middle.
Qed.

Definition delivered (l : list (Z * list Z)) (m : Z * list Z) : list (Z * list Z) := if cap <? Z.of_nat (length l) + 1 then l else l ++ [m].
Lemma retry_run fuel sender s nodes ss lp lb l p m :
  chan s nodes ss (p :: lp) lb l → msg_at s p m → is_Some (ih s !! p) → p ≠ 0 →
  p ∉ (q_message q :: nodes) ++ (q_sender q :: ss) ++ [q_receiver q] → p ∉ pages (km (ik s)) →
  ∃ s', msgsnd_retry fuel i sender msgid p IPC_NOWAIT s = Ret (Done (if cap <? Z.of_nat (length l) + 1 then EAGAIN else 0)) s' ∧
    holds s' (delivered l m) ∧ (length (pages (km (ik s))) ≤ length (pages (km (ik s'))))%nat.
Proof.
  intros H Hm Hs H0 Hp Hpg. rewrite /msgsnd_retry (bind_run _ _ _ _ _ (inside_lock _ _ _ _ _ _ H)).
  rewrite (bind_run _ _ _ _ _ (get_msgq_run _ _ _ _ _ _ H)) (proj2 (Z.eqb_neq _ _) (ch_null _ _ _ _ _ _ H)).
  assert (Hq : get_q q (inside s) = Ret (mkQ key (msgid / 16) cap (Z.of_nat (length l))) (inside s)).
  { rewrite /get_q. run_simpl. by rewrite (ch_queue _ _ _ _ _ _ H). }
  rewrite (bind_run _ _ _ _ _ Hq). cbn [max_msg sum_msg]. rewrite /delivered. destruct (cap <? _).
  - change (flag IPC_NOWAIT IPC_NOWAIT) with true. cbn iota. rewrite (bind_run _ _ _ () s).
    { rewrite release_run. by rewrite (inside_unlock s (ch_lock _ _ _ _ _ _ H)). }
    destruct (free_chan _ _ _ _ _ _ _ _ H Hm Hp) as (s' & Hrun & ? & ?). exists s'. by rewrite (bind_run _ _ _ _ _ Hrun).
  - assert (Hsend : pipeline_send fuel i q p (inside s) = Ret false (inside s)).
    { rewrite /pipeline_send (bind_run _ _ _ (q_receiver q) (inside s)).
      { rewrite (next_run (inside s) (q_receiver q) []) //. apply (ch_rcv _ _ _ _ _ _ H). }
      destruct fuel; cbn [pipeline_loop]; rewrite Z.eqb_refl; by destruct (_ =? 0). }
    rewrite (bind_run _ _ _ _ _ Hsend). cbn iota.
    destruct (insert_last_run (inside s) (q_message q) nodes p) as (h & Hins & Hr & Hf); [apply (ch_msgs _ _ _ _ _ _ H)|set_solver|done|done|].
    set (s1 := set_mqs (<[q := mkQ key (msgid / 16) cap (Z.of_nat (length l) + 1)]> (mqs s)) (set_ih h s)).
    rewrite (bind_run _ _ _ () (inside s1)).
    { rewrite (bind_run _ _ _ _ _ Hins). rewrite (bind_run _ _ _ (mkQ key (msgid / 16) cap (Z.of_nat (length l))) (set_ih h (inside s))) //.
      rewrite /get_q. run_simpl. by rewrite (ch_queue _ _ _ _ _ _ H). }
    exists s1. split_and!; [|exists (nodes ++ [p]), ss, lp, lb|done].
    + rewrite (bind_run _ _ _ () s1) //. rewrite release_run inside_unlock //. apply (ch_lock _ _ _ _ _ _ H).
    + assert (Hfr : ∀ a, a ∈ (q_sender q :: ss) ++ [q_receiver q] → h !! a = ih s !! a).
      { intros a Ha. apply Hf. pose proof (ch_disj _ _ _ _ _ _ H) as (_ & Hd & _)%NoDup_app.
        intros [->|Hin]%elem_of_cons; [set_solver|]. by apply (Hd a Hin). }
      destruct H as [H1 H2 H3 H4 H5 H6 H7 H8 H9 H10 H11 H12 H13 H14 H15]. split; try done.
      * rewrite /= lookup_insert_eq length_app /=. do 2 f_equal. lia.
      * apply Forall2_app; [done|]. by constructor.
      * apply (ring_frame (ih s)); [done|]. intros a Ha. apply Hfr. set_solver.
      * apply (ring_frame (ih s)); [done|]. intros a Ha. apply Hfr. set_solver.
      * rewrite app_comm_cons -app_assoc. rewrite app_assoc. apply NoDup_Permutation_proper with (p :: (q_message q :: nodes) ++ (q_sender q :: ss) ++ [q_receiver q]).
        { rewrite -app_assoc. symmetry. apply Permutation_middle. }
        by constructor.
      * by rewrite -app_assoc.
      * intros a Ha. simpl. rewrite Hf; [|by apply H15]. intros Hin. apply (H15 a) in Ha as Hn.
        apply elem_of_cons in Hin as [->|Hin]; [done|]. destruct (ring_in_heap _ _ _ H7 Hin). congruence.
Qed.

Lemma send_run fuel sender s l p ps t bs :
  holds s l → pages (km (ik s)) = p :: ps → 1 ≤ t → Z.of_nat (length bs) ≤ MSG_MSGSZ →
  ∃ s', sys_msgsnd fuel i sender msgid (Some (mkBuf t bs)) (Z.of_nat (length bs)) IPC_NOWAIT s
          = Ret (Done (if cap <? Z.of_nat (length l) + 1 then EAGAIN else 0)) s' ∧
    holds s' (delivered l (t, bs)) ∧ (length ps ≤ length (pages (km (ik s'))))%nat.
Proof.
  intros (nodes & ss & lp & lb & H) Hp Ht Hl.
  destruct (alloc_page _ _ _ _ _ (ch_mem _ _ _ _ _ _ H) Hp) as (m' & Hrun & Hinv & Hps & Hw & Hn & H0).
  pose proof (newmsg_chan s nodes ss lp lb l p ps (t, bs) m' H Hp Hinv Hps Hw Hn) as H2.
  rewrite /sys_msgsnd. cbn [b_mtype b_data]. rewrite (proj2 (Z.ltb_ge _ _)); [lia|]. rewrite (proj2 (Z.ltb_ge t 1)); [lia|]. cbn [orb].
  rewrite (bind_run _ _ _ _ _ (load_short s bs (Z.of_nat (length bs)) p m' ltac:(lia) Hl Hrun H0)) (proj2 (Z.eqb_neq _ _) H0). rewrite Nat2Z.id take_ge //.
  rewrite (bind_run _ _ _ (mkMsg 0 0 0 bs) (loaded p bs m' s)); [by rewrite /get_msg; run_simpl; rewrite lookup_insert_eq|].
  rewrite (bind_run _ _ _ () (newmsg p (t, bs) m' s)); [by rewrite /set_msg /modify /newmsg /loaded /set_msgs /= insert_insert_eq|].
  assert (Hpages : pages (km (ik (newmsg p (t, bs) m' s))) = ps) by done.
  destruct (retry_run fuel sender _ _ _ _ _ _ p (t, bs) H2) as (s' & Hr & Hh & Hle).
  - split; [|done]. apply lookup_insert_eq.
  - simpl. by rewrite lookup_insert_eq.
  - done.
  - intros Hin. eapply (chan_ring_ne s); [exact H| |exact Hin|done]. apply (ch_free _ _ _ _ _ _ H). rewrite Hp. apply list_elem_of_here.
  - by rewrite Hpages.
  - exists s'. by rewrite Hpages in Hle.
Qed.

(** ** Receiving *)
Lemma detach_chan s nodes1 a nodes2 ss lp lb l1 m l2 :
  chan s (nodes1 ++ a :: nodes2) ss lp lb (l1 ++ m :: l2) → length nodes1 = length l1 →
  ∃ r h s1, on_ih (_detach_from_list a) (inside s) = Ret r (set_ih h (inside s)) ∧
    s1 = set_mqs (<[q := mkQ key (msgid / 16) cap (Z.of_nat (length (l1 ++ l2)))]> (mqs s)) (set_ih h s) ∧
    chan s1 (nodes1 ++ nodes2) ss (a :: lp) lb (l1 ++ l2) ∧ msg_at s1 a m ∧
    a ∉ (q_message q :: nodes1 ++ nodes2) ++ (q_sender q :: ss) ++ [q_receiver q].
Proof.
  intros H El. destruct (detach_node_run (inside s) (q_message q) nodes1 a nodes2) as (r & h & Hrun & Hr & _ & Hf).
  { apply (ch_msgs _ _ _ _ _ _ H). }
  exists r, h. eexists. split_and!; [done|reflexivity|..].
  - assert (Hfr : ∀ b, b ∈ (q_sender q :: ss) ++ [q_receiver q] → h !! b = ih s !! b).
    { intros b Hb. apply Hf. pose proof (ch_disj _ _ _ _ _ _ H) as (_ & Hd & _)%NoDup_app. intros Hin. by apply (Hd b Hin). }
    destruct H as [H1 H2 H3 H4 H5 H6 H7 H8 H9 H10 H11 H12 H13 H14 H15]. split; try done.
    + by rewrite /= lookup_insert_eq.
    + apply Forall2_app_inv in H8 as [Ha Hb]; [|done]. apply Forall2_cons in Hb as [_ Hb]. by apply Forall2_app.
    + apply (ring_frame (ih s)); [done|]. intros b Hb. apply Hfr. set_solver.
    + apply (ring_frame (ih s)); [done|]. intros b Hb. apply Hfr. set_solver.
    + rewrite perm_out in H11. by apply NoDup_cons_1_2 in H11.
    + eapply mem_inv_lp; [|exact H14]. rewrite -!app_assoc. simpl. by rewrite -!Permutation_middle.
    + intros b Hb. simpl in *. destruct (decide (b ∈ q_message q :: nodes1 ++ a :: nodes2)) as [Hin|Hin].
      * destruct (ring_in_heap (ih s) (q_message q :: nodes1 ++ a :: nodes2) b H7 Hin) as [? E]. by rewrite (H15 b Hb) in E.
      * rewrite Hf //. by apply H15.
  - pose proof (ch_data _ _ _ _ _ _ H) as [_ Hb]%Forall2_app_inv; [|done]. by apply Forall2_cons in Hb as [? _].
  - pose proof (ch_disj _ _ _ _ _ _ H) as Hd. rewrite perm_out in Hd. by apply NoDup_cons_1_1 in Hd.
Qed.

Lemma wakeup_chan s nodes ss lp lb l :
  chan s nodes ss lp lb l →
  ∃ k h, ss_wakeup i (q_sender q) (inside s) = Ret () (set_ik k (set_ih h (inside s))) ∧
    chan (set_ik k (set_ih h s)) nodes [] lp lb l ∧ km k = km (ik s).
Proof.
  intros H. destruct (wakeup_run i W (base.size (ih s)) (inside s) (q_sender q) ss) as (k & h & Hrun & Hr & Hw & Hk & Hf).
  - apply (ch_snd _ _ _ _ _ _ H).
  - apply (ch_wake _ _ _ _ _ _ H).
  - intros n (p & Hp & HW)%(ch_wait _ _ _ _ _ _ H). exists p. split; [|done]. rewrite /waiter_proc. run_simpl. by rewrite Hp.
  - pose proof (ring_size _ _ (ch_snd _ _ _ _ _ _ H)). simpl in *. lia.
  - exists k, h. split_and!; [exact Hrun| |done].
    pose proof (ch_disj _ _ _ _ _ _ H) as Hd. apply NoDup_app in Hd as (Hd1 & Hd2 & (Hd3 & Hd4 & Hd5)%NoDup_app).
    destruct H as [H1 H2 H3 H4 H5 H6 H7 H8 H9 H10 H11 H12 H13 H14 H15]. split; try done.
    + apply (ring_frame (ih s)); [done|]. intros a Ha. apply Hf. intros Hin. apply (Hd2 a Ha), elem_of_app. by left.
    + apply (ring_frame (ih s)); [done|]. intros a Ha. apply Hf. intros Hin. by apply (Hd4 a Hin).
    + apply NoDup_app. split_and!; [done| |].
      * intros a Ha Hin. apply (Hd2 a Ha). rewrite elem_of_app elem_of_cons. set_solver.
      * apply NoDup_app. split_and!; [apply NoDup_singleton| |done]. intros a Ha. apply Hd4. set_solver.
    + intros n Hn. by apply elem_of_nil in Hn.
    + by rewrite /= Hk.
    + intros a Ha. simpl in *. rewrite Hk in Ha. destruct (decide (a ∈ q_sender q :: ss)) as [Hin|Hin].
      * destruct (ring_in_heap (ih s) (q_sender q :: ss) a H9 Hin) as [? E]. by rewrite (H15 a Ha) in E.
      * rewrite Hf //. by apply H15.
Qed.

(** What a receiver of the type [mtype] with room for [room] bytes gets. *)
Definition taken (mtype room : Z) (l : list (Z * list Z)) : Z * option (Z * list Z) * list (Z * list Z) :=
  match list_find (matches mtype) l with
  | None => (ENOMSG, None, l)
  | Some (k, m) =>
      if room <? Z.of_nat (length m.2) then (E2BIG, None, l)
      else (Z.of_nat (length m.2), Some m, delete k l)
  end.
Definition fill (b : msgbuf) (o : option (Z * list Z)) : msgbuf :=
  match o with Some (t, bs) => mkBuf t (bs ++ drop (length bs) (b_data b)) | None => b end.

Lemma deliver_run s nodes ss lp lb l a m b room :
  chan s nodes ss (a :: lp) lb l → msg_at s a m → a ∉ (q_message q :: nodes) ++ (q_sender q :: ss) ++ [q_receiver q] →
  Z.of_nat (length m.2) ≤ room ≤ Z.of_nat (length (b_data b)) →
  ∃ s', msgrcv_deliver b a room s = Ret (Done (Z.of_nat (length m.2), fill b (Some m))) s' ∧ holds s' l ∧
    (length (pages (km (ik s))) ≤ length (pages (km (ik s'))))%nat.
Proof.
  intros H Hm Ha Hroom. destruct m as [t bs]. simpl in Hroom. rewrite /msgrcv_deliver. destruct (free_chan _ _ _ _ _ _ _ _ H Hm Ha) as (s' & Hfree & ? & ?).
  exists s'. split; [|done]. rewrite (bind_run _ _ _ (mkMsg t (Z.of_nat (length bs)) 0 bs) s).
  { rewrite /get_msg. run_simpl. by rewrite (proj1 Hm). }
  cbn [m_size]. rewrite (Z.min_r room _ (proj1 Hroom)). rewrite (bind_run _ _ _ _ _ (store_short s a t bs b Hm ltac:(lia))).
  by rewrite (bind_run _ _ _ _ _ Hfree).
Qed.

Lemma receive_run receiver junk s l b mtype room :
  holds s l → -1 ≤ mtype → 0 ≤ room ≤ Z.of_nat (length (b_data b)) →
  ∃ s', sys_msgrcv i receiver junk msgid (Some b) room mtype IPC_NOWAIT s =
          Ret (Done ((taken mtype room l).1.1, fill b (taken mtype room l).1.2)) s' ∧
    holds s' (taken mtype room l).2 ∧ (length (pages (km (ik s))) ≤ length (pages (km (ik s'))))%nat.
Proof.
  intros (nodes & ss & lp & lb & H) Ht Hroom. rewrite /sys_msgrcv (proj2 (Z.ltb_ge _ _)); [lia|].
  rewrite (bind_run _ _ _ _ _ (inside_lock _ _ _ _ _ _ H)) (bind_run _ _ _ _ _ (get_msgq_run _ _ _ _ _ _ H)).
  rewrite (proj2 (Z.eqb_neq _ _) (ch_null _ _ _ _ _ _ H)). erewrite bind_run; [|reflexivity].
  rewrite (bind_run _ _ _ _ _ (next_run (inside s) _ _ (ch_msgs _ _ _ _ _ _ H))).
  assert (Hlen : (length nodes ≤ base.size (ih s))%nat) by (pose proof (ring_size _ _ (ch_msgs _ _ _ _ _ _ H)); simpl in *; lia).
  rewrite (bind_run _ _ _ _ _ (find_msg_run (inside s) _ mtype nodes l [] _ Ht (ch_msgs _ _ _ _ _ _ H) (ch_data _ _ _ _ _ _ H) Hlen)).
  assert (Hout : ∀ e : Z, (release_spinlock ids_lens;; mret (Done (e, b))) (inside s) = Ret (Done (e, b)) s).
  { intros e. rewrite (bind_run _ _ _ () s) //. by rewrite release_run (inside_unlock s (ch_lock _ _ _ _ _ _ H)). }
  assert (Hs : holds s l) by (by exists nodes, ss, lp, lb). rewrite /taken.
  destruct (list_find (matches mtype) l) as [[k m]|] eqn:E; last first.
  { rewrite Z.eqb_refl. change (flag IPC_NOWAIT IPC_NOWAIT) with true. exists s. by rewrite Hout. }
  apply list_find_Some in E as (Hk & _ & _). pose proof (ch_data _ _ _ _ _ _ H) as Hdata.
  destruct (Forall2_lookup_r _ _ _ _ _ Hdata Hk) as (a & Hka & Hm). rewrite (nth_lookup_Some nodes k 0 a Hka).
  destruct (ring_node_ne (ih s) (q_message q) (take k nodes) a (drop (S k) nodes)) as [Ha0 _].
  { rewrite take_drop_middle //. apply (ch_msgs _ _ _ _ _ _ H). }
  rewrite (proj2 (Z.eqb_neq _ _) Ha0). rewrite (bind_run _ _ _ (mkMsg m.1 (Z.of_nat (length m.2)) 0 m.2) (inside s)).
  { rewrite /get_msg. run_simpl. by rewrite (proj1 Hm). }
  cbn [m_size]. destruct (room <? Z.of_nat (length m.2)) eqn:El; [exists s; by rewrite Hout|]. apply Z.ltb_ge in El.
  rewrite -(take_drop_middle nodes k a Hka) -(take_drop_middle l k m Hk) in H.
  destruct (detach_chan _ _ _ _ _ _ _ _ _ _ H) as (r & h & s1 & Hd & Es1 & H1 & Hm1 & Ha1).
  { rewrite !length_take. apply Forall2_length in Hdata. lia. }
  rewrite (bind_run _ _ _ _ _ Hd). rewrite (bind_run _ _ _ (mkQ key (msgid / 16) cap (Z.of_nat (length (take k l ++ m :: drop (S k) l)))) (set_ih h (inside s))).
  { rewrite /get_q. run_simpl. by rewrite (ch_queue _ _ _ _ _ _ H). }
  rewrite (bind_run _ _ _ () (inside s1)).
  { rewrite /set_q /modify Es1 /inside /set_mqs /=. rewrite !length_app /= Nat.add_succ_r Nat2Z.inj_succ. by rewrite Z.sub_1_r Z.pred_succ. }
  destruct (wakeup_chan _ _ _ _ _ _ H1) as (k' & h' & Hw & H2 & Hk'). rewrite (bind_run _ _ _ _ _ Hw).
  rewrite (bind_run _ _ _ () (set_ik k' (set_ih h' s1))); [by rewrite release_run -(inside_unlock s1 (ch_lock _ _ _ _ _ _ H1))|].
  destruct (deliver_run _ _ _ _ _ _ a m b room H2) as (s' & Hrun & Hh & Hp); [done|set_solver|lia|].
  exists s'. split_and!; [exact Hrun| |].
  - by rewrite delete_take_drop.
  - simpl in Hp. rewrite Hk' in Hp. by rewrite Es1 in Hp.
Qed.

(** ** The abstract queue: calls that do not wait, on a bounded list of messages *)
Inductive mop := Snd (t : Z) (bs : list Z) | Rcv (mtype room : Z).
Definition mop_ok (op : mop) : Prop :=
  match op with Snd t bs => 1 ≤ t ∧ Z.of_nat (length bs) ≤ MSG_MSGSZ | Rcv mtype room => -1 ≤ mtype ∧ 0 ≤ room end.
Definition mop_spec (op : mop) (l : list (Z * list Z)) : (Z * msgbuf) * list (Z * list Z) :=
  match op with
  | Snd t bs => ((if cap <? Z.of_nat (length l) + 1 then EAGAIN else 0, mkBuf t bs), delivered l (t, bs))
  | Rcv mtype room =>
      let '(r, o, l') := taken mtype room l in ((r, fill (mkBuf 0 (replicate (Z.to_nat room) 0)) o), l')
  end.
Fixpoint mops_spec (ops : list mop) (l : list (Z * list Z)) : list (Z * msgbuf) * list (Z * list Z) :=
  match ops with
  | [] => ([], l)
  | op :: ops => let '(r, l) := mop_spec op l in let '(rs, l) := mops_spec ops l in (r :: rs, l)
  end.

(** The calls themselves, with [IPC_NOWAIT]. *)
Definition run_mop (fuel : nat) (sender receiver junk : Z) (op : mop) : M ipc_state (Z * msgbuf) :=
  match op with
  | Snd t bs =>
      c ← sys_msgsnd fuel i sender msgid (Some (mkBuf t bs)) (Z.of_nat (length bs)) IPC_NOWAIT;
      match c with Done r => mret (r, mkBuf t bs) | Blocked => hang end
  | Rcv mtype room =>
      c ← sys_msgrcv i receiver junk msgid (Some (mkBuf 0 (replicate (Z.to_nat room) 0))) room mtype IPC_NOWAIT;
      match c with Done r => mret r | Blocked => hang end
  end.
Fixpoint run_mops (fuel : nat) (sender receiver junk : Z) (ops : list mop) : M ipc_state (list (Z * msgbuf)) :=
  match ops with
  | [] => mret []
  | op :: ops => r ← run_mop fuel sender receiver junk op; rs ← run_mops fuel sender receiver junk ops; mret (r :: rs)
  end.

Lemma mop_run fuel sender receiver junk op s l :
  holds s l → mop_ok op → (1 ≤ length (pages (km (ik s))))%nat →
  ∃ s', run_mop fuel sender receiver junk op s = Ret (mop_spec op l).1 s' ∧ holds s' (mop_spec op l).2 ∧
    (length (pages (km (ik s))) ≤ S (length (pages (km (ik s')))))%nat.
Proof.
  intros H Hop Hp. destruct op as [t bs|mtype room]; destruct Hop as [H1 H2]; rewrite /run_mop.
  - destruct (pages (km (ik s))) as [|p ps] eqn:E; [simpl in Hp; lia|].
    destruct (send_run fuel sender s l p ps t bs H E H1 H2) as (s' & Hrun & ? & ?). exists s'.
    rewrite (bind_run _ _ _ _ _ Hrun). split_and!; [done..|simpl; lia].
  - destruct (receive_run receiver junk s l (mkBuf 0 (replicate (Z.to_nat room) 0)) mtype room H H1) as (s' & Hrun & ? & ?).
    { simpl. rewrite length_replicate. lia. }
    exists s'. rewrite (bind_run _ _ _ _ _ Hrun). simpl. destruct (taken mtype room l) as [[r o] l']. split_and!; [done..|lia].
Qed.

(** C13: A message queue is a bounded list of typed messages.  Take any sequence of sends
    of messages of at most [MSG_MSGSZ] bytes and receives of a type from -1 on, with
    [IPC_NOWAIT], on a queue that no receiver waits on, with a free page for every call.  Each call returns
    what the list gives: a send appends, or returns [EAGAIN] when the queue is full; a receive of
    type 0, or of a type [t], or of type -1, takes the oldest message of that type (any,
    [t], at most 1), copies all of its bytes and its type into the caller's buffer and
    returns their number, [E2BIG] leaves a message that does not fit where it is, and
    [ENOMSG] says there is none.  (Longer messages lose bytes, [long_message_loses_tail].) *)
Theorem message_queue_refines fuel sender receiver junk ops : ∀ s l,
  holds s l → Forall mop_ok ops → (length ops ≤ length (pages (km (ik s))))%nat →
  ∃ s', run_mops fuel sender receiver junk ops s = Ret (mops_spec ops l).1 s' ∧ holds s' (mops_spec ops l).2.
Proof.
  induction ops as [|op ops IH]; intros s l H Hok Hp; [by exists s|].
  apply Forall_cons in Hok as [Hop Hok]. simpl in Hp. destruct (mop_run fuel sender receiver junk op s l H Hop ltac:(lia)) as (s1 & Hrun & H1 & Hp1).
  destruct (IH s1 (mop_spec op l).2 H1 Hok ltac:(lia)) as (s' & Hrun' & H').
  exists s'. cbn [run_mops mops_spec]. rewrite (bind_run _ _ _ _ _ Hrun) (bind_run _ _ _ _ _ Hrun').
  destruct (mop_spec op l) as [r l1]. simpl in *. by destruct (mops_spec ops l1).
Qed.
End channel.
