(* ===== verification/IpcWait.v ===== *)
(** * Message queues: waiting receivers, long messages, removed queues *)

From stdpp Require Import base numbers list gmap.
From S2P Require Import Prelude Spinlock Lists Bytes Mem RBTree Cpu Sched SchedInv Scheduler Ipc IpcInv IpcQueue.

(** ** Handing a message to a waiting receiver *)
(** The receiver of node [a] waits for messages of the type of [m]. *)
Definition wants (s : ipc_state) (m : msg_msg) (a : Z) : Prop :=
  match receivers s !! a with Some r => testmsg (r_mtype r) (m_mtype m) = true | None => False end.
#[export] Instance wants_dec s m a : Decision (wants s m a).
Proof. rewrite /wants. destruct (receivers s !! a); apply _. Defined.
Definition room (s : ipc_state) (a : Z) : Z := default 0 (r_size <$> receivers s !! a).

Section pipeline.
Context (i : nat) (p head : Z) (m : msg_msg) (W : gset Z).

Lemma pipeline_zero a s : a ≠ 0 → a ≠ head → pipeline_loop 0 i head p a s = Fuel.
Proof. intros H0 Hh. cbn [pipeline_loop]. by rewrite (proj2 (Z.eqb_neq _ _) H0) (proj2 (Z.eqb_neq _ _) Hh). Qed.
Lemma pipeline_at fuel s a r :
  a ≠ 0 → a ≠ head → msgs s !! p = Some m → receivers s !! a = Some r →
  pipeline_loop (S fuel) i head p a s =
    (if testmsg (r_mtype r) (m_mtype m) then
       _ ← on_ih (_detach_from_list a);
       if r_size r <? m_size m then wake_receiver i a r 0;; nxt ← list_step head a; pipeline_loop fuel i head p nxt
       else wake_receiver i a r p;; mret true
     else nxt ← list_step head a; pipeline_loop fuel i head p nxt) s.
Proof.
  intros H0 Hh Hm Ha. cbn [pipeline_loop]. rewrite (proj2 (Z.eqb_neq _ _) H0) (proj2 (Z.eqb_neq _ _) Hh).
  rewrite (bind_run _ _ _ r s); [by rewrite /get_rcv; run_simpl; rewrite Ha|].
  by rewrite (bind_run _ _ _ m s); [by rewrite /get_msg; run_simpl; rewrite Hm|].
Qed.
Lemma wake_receiver_run s a r v :
  wake_ok (ik s) i W → r_proc r ∈ W →
  ∃ k, wake_receiver i a r v s = Ret () (set_ik k (set_receivers (<[a := mkRcv (r_proc r) (r_mtype r) (r_size r) v]> (receivers s)) s)) ∧
    wake_ok k i W ∧ km k = km (ik s) ∧ (∀ q, q ≠ r_proc r → procs k !! q = procs (ik s) !! q) ∧
    ∃ y, procs k !! r_proc r = Some y ∧ state y ≠ SLEEPING.
Proof.
  intros Hw HW. destruct (wake_step _ _ _ (r_proc r) Hw HW) as (b & k & Hk & ?). exists k. split; [|done].
  rewrite /wake_receiver. erewrite bind_run; [|reflexivity]. rewrite (bind_run _ _ _ b (set_ik k (set_receivers (<[a := mkRcv (r_proc r) (r_mtype r) (r_size r) v]> (receivers s)) s))) //.
  by apply on_ik_run.
Qed.

(** A receiver that is too small is taken off its ring, and is its own successor then. *)
Lemma pipeline_again fuel s a r d h :
  a ≠ 0 → a ≠ head → wake_ok (ik s) i W → msgs s !! p = Some m → receivers s !! a = Some r → r_proc r ∈ W →
  testmsg (r_mtype r) (m_mtype m) = true → (r_size r <? m_size m) = true →
  on_ih (_detach_from_list a) s = Ret d (set_ih h s) → ring h [a] →
  ∃ k, wake_ok k i W ∧ pipeline_loop (S fuel) i head p a s = pipeline_loop fuel i head p a
    (set_ik k (set_receivers (<[a := mkRcv (r_proc r) (r_mtype r) (r_size r) 0]> (receivers s)) (set_ih h s))).
Proof.
  intros H0 Hh Hw Hm Ha HW Ht Hs Hd R1. rewrite (pipeline_at _ _ _ r) // Ht (bind_run _ _ _ _ _ Hd) Hs.
  destruct (wake_receiver_run (set_ih h s) a r 0 Hw HW) as (k & Hk & Hw' & _). exists k. split; [done|].
  rewrite (bind_run _ _ _ _ _ Hk). rewrite (bind_run _ _ _ a (set_ik k (set_receivers (<[a := mkRcv (r_proc r) (r_mtype r) (r_size r) 0]> (receivers s)) (set_ih h s)))) //.
  rewrite /list_step (proj2 (Z.eqb_neq _ _) Hh). by apply (next_run _ a []).
Qed.
Lemma pipeline_stuck fuel : ∀ s a r,
  ring (ih s) [a] → a ≠ head → wake_ok (ik s) i W → msgs s !! p = Some m → receivers s !! a = Some r → r_proc r ∈ W →
  testmsg (r_mtype r) (m_mtype m) = true → (r_size r <? m_size m) = true → pipeline_loop fuel i head p a s = Fuel.
Proof.
  induction fuel as [|fuel IH]; intros s a r Hr Hh Hw Hm Ha HW Ht Hs.
  all: assert (a ≠ 0) as H0 by (destruct Hr as (_ & Hz & _); set_solver).
  - by apply pipeline_zero.
  - destruct (detached_ring _ _ _ Hr) as (R1 & _).
    destruct (pipeline_again fuel s a r _ _ H0 Hh Hw Hm Ha HW Ht Hs (on_ih_run _ _ _ _ (detach_run _ _ _ Hr)) R1) as (k & Hw' & ->).
    apply (IH _ a (mkRcv (r_proc r) (r_mtype r) (r_size r) 0)); try done. apply lookup_insert_eq.
Qed.
Lemma pipeline_small fuel s pre a rs r :
  ring (ih s) (head :: pre ++ a :: rs) → wake_ok (ik s) i W → msgs s !! p = Some m → receivers s !! a = Some r → r_proc r ∈ W →
  testmsg (r_mtype r) (m_mtype m) = true → (r_size r <? m_size m) = true → pipeline_loop fuel i head p a s = Fuel.
Proof.
  intros Hr Hw Hm Ha HW Ht Hs. destruct (ring_node_ne _ _ _ _ _ Hr) as [H0 Hh]. destruct fuel as [|fuel]; [by apply pipeline_zero|].
  destruct (detach_node_run s head pre a rs Hr) as (d & h & Hd & _ & R1 & _).
  destruct (pipeline_again fuel s a r d h H0 Hh Hw Hm Ha HW Ht Hs Hd R1) as (k & Hw' & ->).
  apply (pipeline_stuck _ _ a (mkRcv (r_proc r) (r_mtype r) (r_size r) 0)); try done. apply lookup_insert_eq.
Qed.

(** One step over a receiver that waits for something else. *)
Lemma pipeline_skip fuel s pre a rs r :
  ring (ih s) (head :: pre ++ a :: rs) → msgs s !! p = Some m → receivers s !! a = Some r →
  testmsg (r_mtype r) (m_mtype m) = false →
  pipeline_loop (S fuel) i head p a s = pipeline_loop fuel i head p (pfirst rs head) s.
Proof.
  intros Hr Hm Ha Ht. destruct (ring_node_ne _ _ _ _ _ Hr) as [H0 Hh]. rewrite (pipeline_at _ _ _ r) // Ht.
  by rewrite (bind_run _ _ _ _ _ (list_step_run _ _ _ _ _ Hr)).
Qed.

(** The receiver that gets the message. *)
Lemma pipeline_found fuel s pre a rs r :
  ring (ih s) (head :: pre ++ a :: rs) → wake_ok (ik s) i W → msgs s !! p = Some m → receivers s !! a = Some r → r_proc r ∈ W →
  testmsg (r_mtype r) (m_mtype m) = true → m_size m ≤ r_size r →
  ∃ s', pipeline_loop (S fuel) i head p a s = Ret true s' ∧ ring (ih s') (head :: pre ++ rs) ∧
    receivers s' = <[a := mkRcv (r_proc r) (r_mtype r) (r_size r) p]> (receivers s) ∧ msgs s' = msgs s ∧ mqs s' = mqs s ∧
    ∃ y, procs (ik s') !! r_proc r = Some y ∧ state y ≠ SLEEPING.
Proof.
  intros Hr Hw Hm Ha HW Ht Hs. destruct (ring_node_ne _ _ _ _ _ Hr) as [H0 Hh]. rewrite (pipeline_at _ _ _ r) // Ht.
  destruct (detach_node_run s head pre a rs Hr) as (d & h & Hd & Hr' & _). rewrite (bind_run _ _ _ _ _ Hd) (proj2 (Z.ltb_ge _ _) Hs).
  destruct (wake_receiver_run (set_ih h s) a r p Hw HW) as (k & Hk & _ & _ & _ & Hy).
  exists (set_ik k (set_receivers (<[a := mkRcv (r_proc r) (r_mtype r) (r_size r) p]> (receivers s)) (set_ih h s))).
  split; [|done]. by rewrite (bind_run _ _ _ _ _ Hk).
Qed.

Lemma pipeline_walk rs : ∀ s pre,
  ring (ih s) (head :: pre ++ rs) → wake_ok (ik s) i W → msgs s !! p = Some m →
  (∀ a, a ∈ rs → ∃ r, receivers s !! a = Some r ∧ r_proc r ∈ W) →
  match list_find (wants s m) rs with
  | None => ∀ fuel, (length rs ≤ fuel)%nat → pipeline_loop fuel i head p (pfirst rs head) s = Ret false s
  | Some (k, a) =>
      if room s a <? m_size m then ∀ fuel, pipeline_loop fuel i head p (pfirst rs head) s = Fuel
      else ∀ fuel, (length rs ≤ fuel)%nat → ∃ s' r, pipeline_loop fuel i head p (pfirst rs head) s = Ret true s' ∧
        receivers s !! a = Some r ∧ ring (ih s') (head :: pre ++ delete k rs) ∧
        receivers s' = <[a := mkRcv (r_proc r) (r_mtype r) (r_size r) p]> (receivers s) ∧ msgs s' = msgs s ∧ mqs s' = mqs s ∧
        ∃ y, procs (ik s') !! r_proc r = Some y ∧ state y ≠ SLEEPING
  end.
Proof.
  induction rs as [|a rs IH]; intros s pre Hr Hw Hm Hrs.
  - intros fuel _. destruct Hr as (_ & H0 & _). change (pfirst [] head) with head. destruct fuel; simpl.
    all: rewrite (proj2 (Z.eqb_neq head 0)); [set_solver|]; by rewrite Z.eqb_refl.
  - destruct (Hrs a) as (r & Ha & HW); [apply list_elem_of_here|]. change (pfirst (a :: rs) head) with a.
    destruct (ring_node_ne _ _ _ _ _ Hr) as [H0 Hh]. cbn [list_find]. destruct (testmsg (r_mtype r) (m_mtype m)) eqn:Ht.
    + rewrite decide_True; [by rewrite /wants Ha|]. assert (Er : room s a = r_size r) by (by rewrite /room Ha). rewrite Er.
      destruct (r_size r <? m_size m) eqn:Es.
      * intros fuel. by apply (pipeline_small fuel s pre a rs r).
      * intros fuel Hf. apply Z.ltb_ge in Es. destruct fuel as [|fuel]; [simpl in Hf; lia|].
        destruct (pipeline_found fuel s pre a rs r Hr Hw Hm Ha HW Ht Es) as (s' & H1 & H2 & H3). exists s', r. split; [exact H1|]. split; [exact Ha|]. split; [exact H2|exact H3].
    + rewrite decide_False; [by rewrite /wants Ha Ht|].
      assert (Hr' : ring (ih s) (head :: (pre ++ [a]) ++ rs)) by (by rewrite -app_assoc).
      specialize (IH s (pre ++ [a]) Hr' Hw Hm (λ b Hb, Hrs b (list_elem_of_further _ _ _ Hb))).
      destruct (list_find (wants s m) rs) as [[k b]|]; simpl.
      * destruct (room s b <? m_size m).
        -- intros [|fuel]; [by apply pipeline_zero|].
           rewrite (pipeline_skip fuel s pre a rs r Hr Hm Ha Ht). apply IH.
        -- intros [|fuel] Hf; [simpl in Hf; lia|]. rewrite (pipeline_skip fuel s pre a rs r Hr Hm Ha Ht).
           destruct (IH fuel ltac:(simpl in Hf; lia)) as (s' & r' & H1 & H2 & H3 & H4). exists s', r'. rewrite -app_assoc in H3. done.
      * intros [|fuel] Hf; [simpl in Hf; lia|]. rewrite (pipeline_skip fuel s pre a rs r Hr Hm Ha Ht). apply IH. simpl in Hf. lia.
Qed.
End pipeline.

(** C34: Handing a message to a waiting receiver.  [pipeline_send] looks at the receivers
    in the order in which they came to wait.  When none asks for the type of the message
    it returns false and changes nothing.  When the first that does has room for it, it
    returns true: exactly that receiver is taken off the ring, it has the message and its
    process does not sleep any more.  When the first that does has too little room, the
    call never returns, whatever its fuel: the receiver is taken off its ring, which makes
    it its own successor, and the walk over the receivers stays on it for ever, with the
    lock of all queues held. *)
Theorem pipeline_send_terminates i q p m W s rs :
  ring (ih s) (q_receiver q :: rs) → wake_ok (ik s) i W → msgs s !! p = Some m →
  (∀ a, a ∈ rs → ∃ r, receivers s !! a = Some r ∧ r_proc r ∈ W) →
  match list_find (wants s m) rs with
  | None => ∀ fuel, (length rs ≤ fuel)%nat → pipeline_send fuel i q p s = Ret false s
  | Some (k, a) =>
      if room s a <? m_size m then ∀ fuel, pipeline_send fuel i q p s = Fuel
      else ∀ fuel, (length rs ≤ fuel)%nat → ∃ s' r, pipeline_send fuel i q p s = Ret true s' ∧
        receivers s !! a = Some r ∧ ring (ih s') (q_receiver q :: delete k rs) ∧
        receivers s' = <[a := mkRcv (r_proc r) (r_mtype r) (r_size r) p]> (receivers s) ∧ msgs s' = msgs s ∧ mqs s' = mqs s ∧
        ∃ y, procs (ik s') !! r_proc r = Some y ∧ state y ≠ SLEEPING
  end.
Proof.
  intros Hr Hw Hm Hrs. pose proof (pipeline_walk i p (q_receiver q) m W rs s [] Hr Hw Hm Hrs) as H.
  assert (Hs : ∀ fuel, pipeline_send fuel i q p s = pipeline_loop fuel i (q_receiver q) p (pfirst rs (q_receiver q)) s).
  { intros fuel. by rewrite /pipeline_send (bind_run _ _ _ _ _ (next_run _ _ _ Hr)). }
  destruct (list_find _ rs) as [[k a]|]; [destruct (_ <? _)|]; intros; rewrite Hs; by apply H.
Qed.

(** ** Messages longer than a page *)
Lemma slice_lookup (l : list Z) n k j : (j < k)%nat → slice l n k !! j = l !! (n + j)%nat.
Proof. intros Hj. rewrite /slice lookup_take_lt // lookup_drop //. Qed.

(** The second copy lands inside the first [r + r] bytes. *)
Lemma splice_tail (src dst : list Z) (M r : nat) :
  (r < M)%nat → (M + r ≤ length src)%nat → (M + r ≤ length dst)%nat →
  splice (take M src ++ drop M dst) r (slice src r r) = take (M `max` (r + r)) src ++ drop (M `max` (r + r)) dst.
Proof.
  intros Hr Hs Hd. apply list_eq. intros j. rewrite lookup_splice; [rewrite length_slice; [lia|]; rewrite length_app length_take length_drop; lia|].
  rewrite length_slice; [lia|]. rewrite !lookup_app !length_take !lookup_drop.
  case_decide as Hj; [rewrite slice_lookup; [lia|]; rewrite lookup_take_lt; [lia|]; replace (r + (j - r))%nat with j by lia; by destruct (src !! j) eqn:E; [|apply lookup_ge_None in E; lia]|].
  destruct (decide (j < M)%nat).
  - rewrite !lookup_take_lt; [lia..|]. destruct (src !! j) eqn:E; [done|]. apply lookup_ge_None in E. lia.
  - rewrite !lookup_take_ge; [lia..|]. f_equal. lia.
Qed.

Lemma copy_from_at src off n s :
  0 ≤ off → off + n ≤ Z.of_nat (length src) → copy_from src off n s = Ret (slice src (Z.to_nat off) (Z.to_nat n)) s.
Proof. intros H1 H2. by rewrite /copy_from (proj2 (Z.leb_le _ _) H1) (proj2 (Z.leb_le _ _) H2). Qed.

Lemma load_long s src r p1 p2 m1 m2 :
  0 < r < MSG_MSGSZ → MSG_MSGSZ + r ≤ Z.of_nat (length src) →
  kalloc_page (km (ik s)) = Ret p1 m1 → kalloc_page m1 = Ret p2 m2 → p1 ≠ 0 → p2 ≠ 0 →
  ∃ s', load_msg src (MSG_MSGSZ + r) s = Ret p1 s' ∧
    msgs s' !! p1 = Some (mkMsg 0 0 p2 (take (Z.to_nat MSG_MSGSZ) src)) ∧
    msegs s' !! p2 = Some (mkSeg 0 (slice src (Z.to_nat r) (Z.to_nat r))).
Proof.
  intros Hr Hs H1 H2 Hp1 Hp2. rewrite /load_msg (bind_run _ _ _ _ _ (on_ikm_run _ _ _ _ H1)) (proj2 (Z.eqb_neq _ _) Hp1).
  assert (HM : 0 < MSG_MSGSZ) by done. assert (HS : MSG_MSGSZ ≤ MSG_MSGSEGSZ) by done. generalize dependent MSG_MSGSZ. intros M Hr Hs HM HS.
  rewrite (Z.min_l M (M + r)); [lia|]. rewrite (bind_run _ _ _ _ _ (copy_from_run src M _ ltac:(lia))).
  do 2 (erewrite bind_run; [|reflexivity]). replace (M + r - M) with r by lia. rewrite (Z.min_r M r); [lia|].
  destruct (Z.to_nat (M + r)) as [|fuel] eqn:Ef; [lia|]. cbn [load_segs]. rewrite (proj2 (Z.ltb_lt 0 r)); [lia|].
  erewrite bind_run; [|apply on_ikm_run; exact H2]. rewrite (proj2 (Z.eqb_neq _ _) Hp2). rewrite (Z.min_r MSG_MSGSEGSZ r); [lia|].
  rewrite (bind_run _ _ _ _ _ (copy_from_at src r r _ ltac:(lia) ltac:(lia))). rewrite Z.sub_diag.
  erewrite bind_run; last first. { rewrite /set_nxt /get_msg. run_simpl. rewrite lookup_insert_eq. reflexivity. }
  erewrite bind_run; [|reflexivity]. eexists. split_and!; [by destruct fuel| |]; simpl; by rewrite ?lookup_insert_eq.
Qed.

(** Messages of more than one page lose their end.  [load_msg] and [store_msg] move
    their pointer by the number of bytes that are left instead of the number they have
    copied.  For a message of [MSG_MSGSZ + r] bytes, less than two pages, the copy out of
    the copy in gives the receiver the first [max MSG_MSGSZ (2 r)] bytes only: the rest of
    its buffer keeps what it had, although all the bytes are reported as received. *)
Theorem long_message_loses_tail s src r b p1 p2 ps lb lp :
  0 < r < MSG_MSGSZ → MSG_MSGSZ + r ≤ Z.of_nat (length src) → MSG_MSGSZ + r ≤ Z.of_nat (length (b_data b)) →
  mem_inv (km (ik s)) lb lp → pages (km (ik s)) = p1 :: p2 :: ps →
  let n := Z.to_nat (MSG_MSGSZ `max` (2 * r)) in
  ∃ s', load_msg src (MSG_MSGSZ + r) s = Ret p1 s' ∧
    store_msg b p1 (MSG_MSGSZ + r) s' = Ret (mkBuf 0 (take n src ++ drop n (b_data b))) s' ∧ (n < Z.to_nat (MSG_MSGSZ + r))%nat.
Proof.
  intros Hr Hs Hb Hinv Hp n. destruct (alloc_page _ _ _ _ _ Hinv Hp) as (m1 & H1 & Hinv1 & Hp1 & _ & _ & Hn1).
  destruct (alloc_page _ _ _ _ _ Hinv1 Hp1) as (m2 & H2 & _ & _ & _ & _ & Hn2).
  destruct (load_long s src r p1 p2 m1 m2 Hr Hs H1 H2 Hn1 Hn2) as (s' & Hload & Hmsg & Hseg).
  exists s'. split_and!; [done| |lia].
  assert (HM : 0 < MSG_MSGSZ) by done. assert (HS : MSG_MSGSZ ≤ MSG_MSGSEGSZ) by done. clear Hload. subst n.
  rewrite /store_msg (bind_run _ _ _ (mkMsg 0 0 p2 (take (Z.to_nat MSG_MSGSZ) src)) s'); [by rewrite /get_msg; run_simpl; rewrite Hmsg|].
  cbn [m_data m_nxt m_mtype]. generalize dependent MSG_MSGSZ. intros M Hr Hs Hb Hmsg HM HS.
  rewrite (Z.min_r (M + r) M); [lia|]. rewrite (Z.min_l M (M + r)); [lia|]. replace (M + r - M) with r by lia. rewrite (Z.min_r M r); [lia|].
  rewrite (bind_run _ _ _ _ _ (copy_from_run (take (Z.to_nat M) src) M _ ltac:(rewrite length_take; lia))). rewrite take_take Nat.min_id.
  rewrite (bind_run _ _ _ _ _ (copy_into_run (b_data b) (take (Z.to_nat M) src) _ ltac:(rewrite length_take; lia))).
  destruct (Z.to_nat (M + r)) as [|fuel] eqn:Ef; [lia|].
  set (d := take (Z.to_nat M `max` (Z.to_nat r + Z.to_nat r)) src ++ drop (Z.to_nat M `max` (Z.to_nat r + Z.to_nat r)) (b_data b)).
  rewrite (bind_run _ _ _ d s'); [|by rewrite /d; replace (Z.to_nat (M `max` (2 * r))) with (Z.to_nat M `max` (Z.to_nat r + Z.to_nat r))%nat by lia].
  cbn [store_segs]. rewrite (proj2 (Z.ltb_lt 0 r)); [lia|].
  rewrite (bind_run _ _ _ (mkSeg 0 (slice src (Z.to_nat r) (Z.to_nat r))) s'); [by rewrite /get_seg; run_simpl; rewrite Hseg|].
  cbn [s_data s_nxt]. rewrite (Z.min_l r MSG_MSGSEGSZ); [lia|].
  rewrite (bind_run _ _ _ (slice src (Z.to_nat r) (Z.to_nat r)) s').
  { rewrite copy_from_run; [rewrite length_slice; lia|]. by rewrite take_ge; [rewrite length_slice; lia|]. }
  rewrite (bind_run _ _ _ d s').
  { rewrite /copy_into length_slice; [lia|]. rewrite length_app length_drop !length_take. rewrite (proj2 (Z.leb_le 0 r)); [lia|]. rewrite (proj2 (Z.leb_le _ _)); [lia|].
    cbn [andb]. replace (Z.to_nat M `min` length src)%nat with (Z.to_nat M) by lia. rewrite splice_tail //; lia. }
  rewrite Z.sub_diag. by destruct fuel.
Qed.




(** ** An example: one queue, and the scheduler's example below it *)
Lemma att_mono w w' t : w ⊆ w' → att w t → att w' t.
Proof.
  intros Hw (H1 & (v & Hv & H2) & [u Hu]). split_and!; [done|exists v; split; [exact (lookup_weaken _ _ _ _ Hv Hw)|done]|exists u; exact (lookup_weaken _ _ _ _ Hu Hw)].
Qed.
Lemma vm_at_mono w w' ipt ps l : w ⊆ w' → vm_at w ipt ps l → vm_at w' ipt ps l.
Proof.
  intros Hw (H1 & H2 & H3). split_and!; [exact (att_mono _ _ _ Hw H1)|intros j c Hc; exact (att_mono _ _ _ Hw (H2 j c Hc))|].
  intros p x Hx. destruct (H3 p x Hx) as [? [?|?]]; split; auto. right. by apply (att_mono w).
Qed.

(** Two free pages and the block of the queue. *)
Definition demo_kmem : mstate :=
  mkMem [KSPACE_MASK + 2097152; KSPACE_MASK + 2101248] (replicate 512 []) (list_to_map [(512, mkPage (mkRC 0) false); (513, mkPage (mkRC 0) false)])
    (<[992 := 8]> (Mem.words (km demo_kern))) init_rc init_rc false (KSPACE_MASK + 1048576).
Lemma demo_kmem_inv : mem_inv demo_kmem [(992, 8)] [].
Proof.
  rewrite /mem_inv /all_words /regions. cbn [pages free_mem mem_list_lock pages_ref demo_kmem].
  rewrite free_from_empty app_nil_l app_nil_r bind_app. split_and!; try done; try (by constructor).
  - apply NoDup_app. split_and!.
    + apply pages_nodup; [|by repeat constructor]. apply NoDup_cons. split; [|apply NoDup_singleton]. by intros ?%list_elem_of_singleton.
    + intros x ([a k] & Hx & Hr)%list_elem_of_bind Hy. change (x ∈ words_of (992, 8) ++ []) in Hy. rewrite app_nil_r in Hy. apply elem_words_of in Hy as (j & Hj & ->).
      apply elem_words_of in Hx as (j' & Hj' & E). apply list_elem_of_fmap in Hr as (p & [= -> ->] & Hp).
      rewrite /KSPACE_MASK !elem_of_cons in Hp. destruct Hp as [->|[->|Hp%elem_of_nil]]; [lia..|done].
    + change (NoDup (words_of (992, 8) ++ [])). rewrite app_nil_r /words_of. apply NoDup_fmap_2; [intros x y; simpl; lia|apply NoDup_seqZ].
  - repeat constructor; try done; by eexists.
Qed.
Definition demo_ik : kern := set_km demo_kmem demo_kern.
Lemma demo_ik_wake : wake_ok demo_ik 0 {[ 1200 ]}.
Proof.
  destruct demo_inv as [F1 F2 F3 F4 F5 F6 F7]. split; [|simpl; lia|by intros p ->%elem_of_singleton].
  split; [done|by apply good_km|done|done|done| |done]. eapply vm_at_mono; [|exact F6]. by apply insert_subseteq.
Qed.
Definition demo_ipc : ipc_state :=
  mkIS demo_ik (list_to_map [(1016, mkNode 1016 1016); (1032, mkNode 1032 1032); (1048, mkNode 1048 1048)])
    (mkIds 16 1 1 false (1000 :: replicate 15 0)) {[ 1000 := mkQ 7 0 256 0 ]} ∅ ∅ ∅ ∅.
Lemma self_ring (h : heap) a : a ≠ 0 → h !! a = Some (mkNode a a) → ring h [a].
Proof.
  intros H0 H. split_and!; [apply NoDup_singleton|set_solver|done|]. by rewrite /link /next_of /prev_of /= H.
Qed.
Lemma demo_chan : chan 0 0 1000 7 256 {[ 1200 ]} demo_ipc [] [] [] [(992, 8)] [].
Proof.
  split; try done.
  - by apply self_ring.
  - by apply self_ring.
  - by apply self_ring.
  - by apply (bool_decide_unpack _); vm_compute.
  - exact demo_ik_wake.
  - intros n Hn. by apply elem_of_nil in Hn.
  - exact demo_kmem_inv.
  - intros p Hp. rewrite /= !elem_of_cons in Hp. destruct Hp as [->|[->|Hp%elem_of_nil]]; [by vm_compute..|done].
Qed.

Lemma message_queue_refines_witness :
  ∃ s', run_mops 0 0 0 10 20 30 [Snd 3 [65; 66]; Rcv 3 4] demo_ipc = Ret [(0, mkBuf 3 [65; 66]); (2, mkBuf 3 [65; 66; 0; 0])] s' ∧
    holds 0 0 1000 7 256 {[ 1200 ]} s' [].
Proof.
  exact (message_queue_refines 0 0 1000 7 256 {[ 1200 ]} 0 10 20 30 [Snd 3 [65; 66]; Rcv 3 4] demo_ipc []
    (ex_intro _ [] (ex_intro _ [] (ex_intro _ [] (ex_intro _ [(992, 8)] demo_chan))))
    ltac:(repeat constructor; vm_compute; congruence) ltac:(simpl; lia)).
Defined.

(** A receiver with room for four bytes, and a message of eight. *)
Definition demo_small : ipc_state :=
  mkIS demo_ik (list_to_map [(1048, mkNode 2000 2000); (2000, mkNode 1048 1048)]) (msg_ids demo_ipc) (mqs demo_ipc)
    {[ 3000 := mkMsg 1 8 0 [1; 2; 3; 4; 5; 6; 7; 8] ]} ∅ ∅ {[ 2000 := mkRcv 1200 0 4 0 ]}.
Lemma pipeline_send_terminates_witness : pipeline_send 2 0 1000 3000 demo_small = Fuel ∧ pipeline_send 100 0 1000 3000 demo_small = Fuel.
Proof.
  enough (∀ fuel, pipeline_send fuel 0 1000 3000 demo_small = Fuel) as H by (exact (conj (H 2%nat) (H 100%nat))).
  refine (pipeline_send_terminates 0 1000 3000 (mkMsg 1 8 0 [1; 2; 3; 4; 5; 6; 7; 8]) {[ 1200 ]} demo_small [2000] _ demo_ik_wake eq_refl _).
  - split_and!; [apply (bool_decide_unpack _); by vm_compute|set_solver|split; [by split|done]|by split].
  - intros a ->%list_elem_of_singleton. exists (mkRcv 1200 0 4 0). split; [done|set_solver].
Defined.

(** A message of one byte more than a page holds: the last byte is not delivered. *)
Lemma long_message_loses_tail_witness :
  ∃ s', load_msg (replicate 4065 7) 4065 demo_ipc = Ret (KSPACE_MASK + 2097152) s' ∧
    store_msg (mkBuf 0 (replicate 4065 0)) (KSPACE_MASK + 2097152) 4065 s' = Ret (mkBuf 0 (replicate 4064 7 ++ [0])) s'.
Proof.
  destruct (long_message_loses_tail demo_ipc (replicate 4065 7) 1 (mkBuf 0 (replicate 4065 0)) (KSPACE_MASK + 2097152) (KSPACE_MASK + 2101248) [] [(992, 8)] []
    ltac:(done) ltac:(by vm_compute) ltac:(by vm_compute) demo_kmem_inv eq_refl) as (s' & H1 & H2 & _).
  exists s'. split; [exact H1|exact H2].
Defined.

