(* ===== verification/Sh.v ===== *)
(** * The command parser of the shell, [user/sh/main.c]

    The line is the array [sbuf] of characters, a pointer into it an index; [sheap] holds
    the command structures at the addresses [malloc1] gives out of its static array, whose
    index is [sbrk] (an address is the offset in the array plus one, so that none is
    null).  [PANIC] and running out of that memory end the process: they are [Panic].
    The flags of [open] come from the C library and are parameters.

    [ShRun] and [ShMain] hold the rest of the program: [runcmd], [getcmd] and [main]. *)

From stdpp Require Import base numbers list gmap.
From S2P Require Import Prelude.

Definition MAXARGS : nat := 10.
Definition MAXN : Z := 10000.

Inductive cmd :=
  | ExecCmd (argv eargv : list (option nat))
  | RedirCmd (c : Z) (file efile : nat) (mode fd : Z)
  | PipeCmd (left right : Z)
  | ListCmd (left right : Z)
  | BackCmd (c : Z).

Record sh := mkSh { sbuf : list Z; spos : nat; sheap : gmap Z cmd; sbrk : Z }.
Definition set_sbuf v s := mkSh v (spos s) (sheap s) (sbrk s).
Definition set_spos v s := mkSh (sbuf s) v (sheap s) (sbrk s).
Definition set_sheap v s := mkSh (sbuf s) (spos s) v (sbrk s).
Definition set_sbrk v s := mkSh (sbuf s) (spos s) (sheap s) v.

(** [*s] *)
Definition at_ (s : nat) : M sh Z := b ← gets sbuf; of_opt (b !! s).
Definition get_cmd (a : Z) : M sh cmd := h ← gets sheap; of_opt (h !! a).
Definition set_cmd (a : Z) (c : cmd) : M sh () := modify (λ s, set_sheap (<[a := c]> (sheap s)) s).

(** ** Memory and constructors.  The sizes are those of the structures. *)
Definition malloc1 (sz : Z) : M sh Z :=
  i ← gets sbrk;
  let i := i + sz in
  modify (set_sbrk i);;
  if MAXN <? i then panic else mret (i - sz + 1).
Definition new_cmd (sz : Z) (c : cmd) : M sh Z := a ← malloc1 sz; set_cmd a c;; mret a.
Definition execcmd : M sh Z := new_cmd 168 (ExecCmd (replicate MAXARGS None) (replicate MAXARGS None)).
Definition redircmd (subcmd : Z) (file efile : nat) (mode fd : Z) : M sh Z := new_cmd 40 (RedirCmd subcmd file efile mode fd).
Definition pipecmd (l r : Z) : M sh Z := new_cmd 24 (PipeCmd l r).
Definition listcmd (l r : Z) : M sh Z := new_cmd 24 (ListCmd l r).
Definition backcmd (subcmd : Z) : M sh Z := new_cmd 16 (BackCmd subcmd).

(** ** Characters *)
Definition whitespace : list Z := [32; 9; 13; 10; 11].
Definition symbols : list Z := [60; 124; 62; 38; 59; 40; 41].
(** [strchr] finds the terminating zero too. *)
Definition strchr (l : list Z) (c : Z) : bool := bool_decide (c ∈ l) || (c =? 0).
Definition is_ws (c : Z) : bool := strchr whitespace c.
Definition is_word (c : Z) : bool := negb (strchr whitespace c) && negb (strchr symbols c).

(** [while (s < es && p( *s)) s++], with [n] the characters before [es]. *)
Fixpoint skip_while (p : Z → bool) (n : nat) (s : nat) : M sh nat :=
  match n with
  | O => mret s
  | S n => c ← at_ s; if p c then skip_while p n (S s) else mret s
  end.

(** ** Tokens: the code of the token, its first character and the one after its last. *)
Definition gettoken (es : nat) : M sh (Z * nat * nat) :=
  s ← gets spos;
  s ← skip_while is_ws (es - s) s;
  c ← at_ s;
  '(ret, e) ← (if c =? 0 then mret (c, s)
               else if bool_decide (c ∈ [124; 40; 41; 59; 38; 60]) then mret (c, S s)
               else if c =? 62 then
                 d ← at_ (S s); if d =? 62 then mret (43, S (S s)) else mret (c, S s)
               else e ← skip_while is_word (es - s) s; mret (97, e));
  e' ← skip_while is_ws (es - e) e;
  modify (set_spos e');;
  mret (ret, s, e).
Definition peek (es : nat) (toks : list Z) : M sh bool :=
  s ← gets spos;
  s ← skip_while is_ws (es - s) s;
  modify (set_spos s);;
  c ← at_ s;
  mret (negb (c =? 0) && strchr toks c).

(** ** The parser *)
Section parser.
Context (O_RDONLY O_WRONLY O_CREAT : Z).

Fixpoint parseredirs (fuel : nat) (es : nat) (cmd : Z) : M sh Z :=
  b ← peek es [60; 62];
  if b : bool then
    match fuel with
    | O => nofuel
    | S fuel =>
        '(tok, _, _) ← gettoken es;
        '(t, q, eq) ← gettoken es;
        if negb (t =? 97) then panic
        else
          cmd ← (if tok =? 60 then redircmd cmd q eq O_RDONLY 0
                 else if tok =? 62 then redircmd cmd q eq (Z.lor O_WRONLY O_CREAT) 1
                 else if tok =? 43 then redircmd cmd q eq (Z.lor O_WRONLY O_CREAT) 1
                 else mret cmd);
          parseredirs fuel es cmd
    end
  else mret cmd.

(** [cmd->argv[argc] = q; cmd->eargv[argc] = eq] *)
Definition set_arg (a : Z) (argc : nat) (q eq : option nat) : M sh () :=
  c ← get_cmd a;
  match c with
  | ExecCmd argv eargv =>
      if (argc <? length argv)%nat then set_cmd a (ExecCmd (<[argc := q]> argv) (<[argc := eq]> eargv)) else fault
  | _ => fault
  end.
Fixpoint exec_loop (fuel : nat) (es : nat) (cmd ret : Z) (argc : nat) : M sh Z :=
  b ← peek es [124; 41; 38; 59];
  if b : bool then set_arg cmd argc None None;; mret ret
  else
    match fuel with
    | O => nofuel
    | S fuel =>
        '(tok, q, eq) ← gettoken es;
        if tok =? 0 then set_arg cmd argc None None;; mret ret
        else if negb (tok =? 97) then panic
        else
          set_arg cmd argc (Some q) (Some eq);;
          let argc := S argc in
          if (MAXARGS <=? argc)%nat then panic
          else ret ← parseredirs (S es) es ret; exec_loop fuel es cmd ret argc
    end.
Fixpoint back_loop (fuel : nat) (es : nat) (cmd : Z) : M sh Z :=
  b ← peek es [38];
  if b : bool then
    match fuel with
    | O => nofuel
    | S fuel => _ ← gettoken es; cmd ← backcmd cmd; back_loop fuel es cmd
    end
  else mret cmd.

Fixpoint parseline (fuel : nat) (es : nat) : M sh Z :=
  match fuel with
  | O => nofuel
  | S fuel =>
      cmd ← parsepipe fuel es;
      cmd ← back_loop (S es) es cmd;
      b ← peek es [59];
      if b : bool then _ ← gettoken es; r ← parseline fuel es; listcmd cmd r else mret cmd
  end
with parsepipe (fuel : nat) (es : nat) : M sh Z :=
  match fuel with
  | O => nofuel
  | S fuel =>
      cmd ← parseexec fuel es;
      b ← peek es [124];
      if b : bool then _ ← gettoken es; r ← parsepipe fuel es; pipecmd cmd r else mret cmd
  end
with parseexec (fuel : nat) (es : nat) : M sh Z :=
  match fuel with
  | O => nofuel
  | S fuel =>
      b ← peek es [40];
      if b : bool then parseblock fuel es
      else
        cmd ← execcmd;
        ret ← parseredirs (S es) es cmd;
        exec_loop (S es) es cmd ret 0
  end
with parseblock (fuel : nat) (es : nat) : M sh Z :=
  match fuel with
  | O => nofuel
  | S fuel =>
      b ← peek es [40];
      if negb b then panic
      else
        _ ← gettoken es;
        cmd ← parseline fuel es;
        b ← peek es [41];
        if negb b then panic
        else _ ← gettoken es; parseredirs (S es) es cmd
  end.

(** ** Terminating the strings *)
Definition put_nul (e : nat) : M sh () :=
  b ← gets sbuf; if (e <? length b)%nat then modify (set_sbuf (<[e := 0]> b)) else fault.
(** The loop over the arguments, [argv] and [eargv] from index [i] on. *)
Fixpoint nul_args (argv eargv : list (option nat)) : M sh () :=
  match argv, eargv with
  | Some _ :: argv, Some e :: eargv => put_nul e;; nul_args argv eargv
  | None :: _, _ => mret ()
  | _, _ => fault
  end.
Fixpoint nulterminate (fuel : nat) (a : Z) : M sh () :=
  if a =? 0 then mret ()
  else
    match fuel with
    | O => nofuel
    | S fuel =>
        c ← get_cmd a;
        match c with
        | ExecCmd argv eargv => nul_args argv eargv
        | RedirCmd c _ efile _ _ => nulterminate fuel c;; put_nul efile
        | PipeCmd l r | ListCmd l r => nulterminate fuel l;; nulterminate fuel r
        | BackCmd c => nulterminate fuel c
        end
    end.

(** [strlen] *)
Fixpoint sh_strlen (l : list Z) : nat := match l with [] => 0%nat | c :: l => if c =? 0 then 0%nat else S (sh_strlen l) end.

(** The fuel: a call consumes a character before it calls itself again through at most
    three others, and a command is at a higher address than its parts. *)
Definition parsecmd : M sh Z :=
  modify (set_spos 0);;
  b ← gets sbuf;
  let es := sh_strlen b in
  cmd ← parseline (4 * es + 4) es;
  _ ← peek es [];
  s ← gets spos;
  if negb (s =? es)%nat then panic
  else
    n ← gets (λ s, S (Z.to_nat (sbrk s)));
    nulterminate n cmd;; mret cmd.
End parser.
