(* ===== verification/ShLex.v ===== *)
(** * The tokens of a command line

    What a line consists of, and that [gettoken] and [peek] walk over it. *)

From stdpp Require Import base numbers list gmap.
From S2P Require Import Prelude Sh.

(** A symbol, [>], [>>], or a word. *)
Inductive token := Sym (c : Z) | Gt | GtGt | Word (w : list Z).
Definition code (t : token) : Z := match t with Sym c => c | Gt => 62 | GtGt => 43 | Word _ => 97 end.
Definition chars (t : token) : list Z := match t with Sym c => [c] | Gt => [62] | GtGt => [62; 62] | Word w => w end.
Definition first_char (t : token) : Z := hd 0 (chars t).

(** Token [t] followed by the characters [r]: it ends where they begin. *)
Definition ends (p : Z → bool) (r : list Z) : Prop := match r with c :: _ => p c = false | [] => True end.
Definition tok_ok (t : token) (r : list Z) : Prop :=
  match t with
  | Sym c => c ∈ [124; 40; 41; 59; 38; 60]
  | Gt => ends (λ c, c =? 62) r
  | GtGt => True
  | Word w => w ≠ [] ∧ Forall (λ c, is_word c = true) w ∧ ends is_word r
  end.

(** The characters consist of these tokens, with whitespace around them. *)
Inductive lexes : list Z → list token → Prop :=
  | lex_end ws : Forall (λ c, is_ws c = true) ws → lexes ws []
  | lex_tok ws t r ts : Forall (λ c, is_ws c = true) ws → tok_ok t r → lexes r ts → lexes (ws ++ chars t ++ r) (t :: ts).

Lemma is_word_ws c : is_word c = true → is_ws c = false.
Proof. rewrite /is_word /is_ws. by destruct (strchr whitespace c). Qed.
Lemma is_word_sym c : is_word c = true → c ∉ [124; 40; 41; 59; 38; 60] ∧ c ≠ 62 ∧ c ≠ 0.
Proof.
  rewrite /is_word /strchr. intros (_ & H)%andb_true_iff. apply negb_true_iff, orb_false_iff in H as [H H0].
  apply bool_decide_eq_false in H. apply Z.eqb_neq in H0. rewrite /symbols in H. set_solver.
Qed.
Lemma chars_cons t r : tok_ok t r → ∃ c l, chars t = c :: l ∧ first_char t = c ∧ is_ws c = false ∧ c ≠ 0.
Proof.
  destruct t as [c| | |w]; simpl.
  - intros H. exists c, []. split_and!; [done..| |]; rewrite !elem_of_cons in H; destruct_or! H; subst; try done; by apply elem_of_nil in H.
  - intros _. by exists 62, [].
  - intros _. by exists 62, [62].
  - intros (Hw & Hf & _). destruct w as [|c w]; [done|]. exists c, w. apply Forall_cons in Hf as [Hc _].
    split_and!; [done..|by apply is_word_ws|]. by apply is_word_sym in Hc as (_ & _ & ?).
Qed.

Section line.
Context (str junk : list Z).
Notation es := (length str).

(** The pointer is at the last [length r] characters [r] of the line. *)
Definition here (s : sh) (r : list Z) : Prop :=
  sbuf s = str ++ 0 :: junk ∧ ∃ pre, str = pre ++ r ∧ length pre = spos s.

Lemma at_run s i c : sbuf s = str ++ 0 :: junk → (str ++ [0]) !! i = Some c → at_ i s = Ret c s.
Proof.
  intros Hb Hi. rewrite /at_. run_simpl. rewrite Hb. assert (E : (str ++ 0 :: junk) !! i = Some c); [|by rewrite E].
  change (0 :: junk) with ([0] ++ junk). rewrite (assoc_L (++)). by apply lookup_app_l_Some.
Qed.
Lemma lookup_end : (str ++ [0]) !! es = Some 0.
Proof. rewrite lookup_app_r // Nat.sub_diag //. Qed.

Lemma skip_while_run p : ∀ a b pre s,
  str = pre ++ a ++ b → sbuf s = str ++ 0 :: junk → Forall (λ c, p c = true) a → ends p b →
  skip_while p (es - length pre) (length pre) s = Ret (length pre + length a)%nat s.
Proof.
  induction a as [|c a IH]; intros b pre s Hs Hb Ha He.
  - rewrite Nat.add_0_r. destruct b as [|c b].
    { rewrite Hs /= !app_nil_r Nat.sub_diag //. }
    assert (E : (es - length pre = S (length b))%nat) by (rewrite Hs length_app /=; lia). rewrite E. cbn [skip_while].
    rewrite (bind_run _ _ _ c s); [|by simpl in He; rewrite He]. apply at_run; [done|].
    by rewrite Hs -app_assoc lookup_app_r // Nat.sub_diag.
  - apply Forall_cons in Ha as [Hc Ha].
    assert (E : (es - length pre = S (es - length (pre ++ [c])))%nat) by (rewrite Hs !length_app /=; lia). rewrite E. cbn [skip_while].
    rewrite (bind_run _ _ _ c s); [apply at_run; [done|]; by rewrite Hs -app_assoc lookup_app_r // Nat.sub_diag|]. rewrite Hc.
    specialize (IH b (pre ++ [c]) s). rewrite -app_assoc in IH. specialize (IH Hs Hb Ha He).
    replace (S (length pre)) with (length (pre ++ [c])) by (rewrite length_app /=; lia). rewrite IH. f_equal. rewrite length_app /=. lia.
Qed.

(** Whitespace at the pointer, then characters that are not. *)
Lemma lexes_split r ts : lexes r ts → ∃ ws r', r = ws ++ r' ∧ Forall (λ c, is_ws c = true) ws ∧ ends is_ws r' ∧
  match ts with [] => r' = [] | t :: ts' => ∃ r'', r' = chars t ++ r'' ∧ tok_ok t r'' ∧ lexes r'' ts' end.
Proof.
  destruct 1 as [ws H|ws t r ts H Ht Hl]; [exists ws, []; by rewrite app_nil_r|].
  exists ws, (chars t ++ r). split_and!; [done|done| |by exists r]. destruct (chars_cons t r Ht) as (c & l & E & _ & Hc & _). by rewrite E.
Qed.
Lemma lexes_trim ws r ts : Forall (λ c, is_ws c = true) ws → lexes (ws ++ r) ts → ends is_ws r → lexes r ts.
Proof.
  intros Hw Hl He. apply lexes_split in Hl as (ws' & r' & E & Hw' & He' & Hts).
  assert (ws = ws' ∧ r = r') as [<- <-].
  { clear Hts. revert ws' Hw' E. induction ws as [|c ws IH]; intros [|c' ws'] Hw' E; simpl in *; simplify_eq; try done.
    - exfalso. apply Forall_cons in Hw' as [Hc _]. simpl in He. congruence.
    - exfalso. apply Forall_cons in Hw as [Hc _]. simpl in He'. congruence.
    - apply Forall_cons in Hw as [_ Hw]. apply Forall_cons in Hw' as [_ Hw']. by destruct (IH Hw ws' Hw' H0) as [-> ->]. }
  destruct ts as [|t ts]; [subst; by constructor|]. destruct Hts as (r'' & -> & Ht & Hl). by apply (lex_tok [] t r'' ts).
Qed.

Definition test (toks : list Z) (ts : list token) : bool := match ts with t :: _ => strchr toks (first_char t) | [] => false end.
Lemma here_spos s pre r : sbuf s = str ++ 0 :: junk → str = pre ++ r → here (set_spos (length pre) s) r.
Proof. intros Hb Hs. split; [done|]. by exists pre. Qed.

Lemma skip_ws_run s r ts : here s r → lexes r ts →
  ∃ pre r', skip_while is_ws (es - spos s) (spos s) s = Ret (length pre) s ∧ str = pre ++ r' ∧ lexes r' ts ∧ ends is_ws r' ∧
    match ts with [] => r' = [] | t :: ts' => ∃ r'', r' = chars t ++ r'' ∧ tok_ok t r'' ∧ lexes r'' ts' end.
Proof.
  intros (Hb & pre & Hs & Hp) Hl. pose proof (lexes_split _ _ Hl) as (ws & r' & -> & Hw & He & Hts).
  exists (pre ++ ws), r'. rewrite -Hp (skip_while_run is_ws ws r' pre s) // length_app. split_and!; [done|by rewrite -app_assoc| |done|done].
  by apply lexes_trim in Hl.
Qed.
Lemma head_run s pre r : sbuf s = str ++ 0 :: junk → str = pre ++ r → at_ (length pre) s = Ret (hd 0 r) s.
Proof.
  intros Hb Hs. apply at_run; [done|]. rewrite Hs -app_assoc lookup_app_r // Nat.sub_diag. by destruct r.
Qed.

Lemma peek_run s r ts toks : here s r → lexes r ts →
  ∃ p r', peek es toks s = Ret (test toks ts) (set_spos p s) ∧ here (set_spos p s) r' ∧ lexes r' ts ∧ ends is_ws r'.
Proof.
  intros H Hl. destruct (skip_ws_run s r ts H Hl) as (pre & r' & Hrun & Hs & Hl' & He & Hts). destruct H as [Hb _].
  exists (length pre), r'. split_and!; [|by apply here_spos|done|done].
  rewrite /peek (bind_run _ _ _ (spos s) s) // (bind_run _ _ _ _ _ Hrun). rewrite (bind_run _ _ _ () (set_spos (length pre) s)) //.
  rewrite (bind_run _ _ _ _ _ (head_run (set_spos (length pre) s) pre r' Hb Hs)). destruct ts as [|t ts]; [by subst|].
  destruct Hts as (r'' & -> & Ht & _). destruct (chars_cons t r'' Ht) as (c & l & E & Ec & _ & H0). rewrite E /=.
  by rewrite (proj2 (Z.eqb_neq _ _) H0) /= Ec.
Qed.

(** Where a token stands in the line. *)
Definition tok_at (q e : nat) (t : token) : Prop :=
  ∃ pre post, str = pre ++ chars t ++ post ∧ q = length pre ∧ e = (length pre + length (chars t))%nat ∧ tok_ok t post.

Lemma gettoken_end s r : here s r → lexes r [] →
  gettoken es s = Ret (0, es, es) (set_spos es s) ∧ here (set_spos es s) [].
Proof.
  intros H Hl. destruct (skip_ws_run s r [] H Hl) as (pre & r' & Hrun & Hs & _ & _ & ->). destruct H as [Hb _].
  rewrite app_nil_r in Hs. subst pre. split; [|apply here_spos; [done|by rewrite app_nil_r]].
  rewrite /gettoken (bind_run _ _ _ (spos s) s) // (bind_run _ _ _ _ _ Hrun).
  rewrite (bind_run _ _ _ _ _ (head_run s str [] Hb (eq_sym (app_nil_r str)))). cbn [hd]. rewrite Z.eqb_refl.
  rewrite (bind_run _ _ _ (0, es) s) // Nat.sub_diag. done.
Qed.

Lemma gettoken_run s r t ts : here s r → lexes r (t :: ts) →
  ∃ q e p r', gettoken es s = Ret (code t, q, e) (set_spos p s) ∧ here (set_spos p s) r' ∧ lexes r' ts ∧ tok_at q e t.
Proof.
  intros H Hl. destruct (skip_ws_run s r _ H Hl) as (pre & r' & Hrun & Hs & _ & _ & r'' & -> & Ht & Hl''). destruct H as [Hb _].
  set (e := (length pre + length (chars t))%nat).
  assert (He : str = (pre ++ chars t) ++ r'') by (by rewrite -app_assoc).
  pose proof (lexes_split _ _ Hl'') as (ws & r3 & -> & Hw & He3 & _).
  exists (length pre), e, (length ((pre ++ chars t) ++ ws)), r3.
  split_and!; [|apply here_spos; [done|by rewrite He -!app_assoc]|by apply lexes_trim in Hl''|by exists pre, (ws ++ r3)].
  rewrite /gettoken (bind_run _ _ _ (spos s) s) // (bind_run _ _ _ _ _ Hrun).
  rewrite (bind_run _ _ _ _ _ (head_run s pre _ Hb Hs)).
  match goal with |- (?m ≫= _) s = _ => assert (Hm : m s = Ret (code t, e) s) end.
  { destruct (chars_cons t _ Ht) as (c & l & E & _ & _ & H0). destruct t as [c'| | |w]; simpl in Ht, e |- *.
    - injection E as <- _. rewrite (proj2 (Z.eqb_neq _ _) H0) bool_decide_eq_true_2 // /e Nat.add_1_r //.
    - rewrite (bind_run _ _ _ (hd 0 (ws ++ r3)) s); [|].
      { replace (S (length pre)) with (length (pre ++ [62])) by (rewrite length_app /=; lia). by apply head_run. }
      replace (hd 0 (ws ++ r3) =? 62) with false; [by rewrite /e Nat.add_1_r|]. destruct (ws ++ r3); [done|]. by simpl in Ht.
    - rewrite (bind_run _ _ _ 62 s).
      { replace (S (length pre)) with (length (pre ++ [62])) by (rewrite length_app /=; lia).
        apply (head_run s (pre ++ [62]) (62 :: ws ++ r3)); [done|]. by rewrite He -!app_assoc. }
      simpl. do 2 f_equal. rewrite /e. lia.
    - destruct Ht as (_ & Hw1 & Hw2). simpl in E. subst w. pose proof Hw1 as [Hc _]%Forall_cons. simpl.
      destruct (is_word_sym c Hc) as (H1 & H2 & _). rewrite (proj2 (Z.eqb_neq _ _) H0) bool_decide_eq_false_2 // (proj2 (Z.eqb_neq _ _) H2).
      rewrite (bind_run _ _ _ e s) //. by apply (skip_while_run is_word (c :: l) (ws ++ r3)). }
  rewrite (bind_run _ _ _ _ _ Hm).
  assert (Ee : e = length (pre ++ chars t)) by (rewrite length_app //).
  rewrite (bind_run _ _ _ (length ((pre ++ chars t) ++ ws)) s) //. rewrite Ee (length_app (pre ++ chars t)).
  apply (skip_while_run is_ws ws r3); [by rewrite He -!app_assoc|done..].
Qed.
End line.

(** ** Every line has tokens *)
Lemma span_exists (p : Z → bool) r : ∃ a b, r = a ++ b ∧ Forall (λ c, p c = true) a ∧ ends p b.
Proof.
  induction r as [|c r (a & b & -> & Ha & Hb)]; [by exists [], []|]. destruct (p c) eqn:E.
  - exists (c :: a), b. by split_and!; [|constructor|].
  - by exists [], (c :: a ++ b).
Qed.
Lemma not_word c : is_ws c = false → is_word c = false → c ≠ 62 → c ∈ [124; 40; 41; 59; 38; 60].
Proof.
  rewrite /is_word /is_ws. intros Hw H Hc. rewrite Hw in H. simpl in H. apply negb_false_iff, orb_true_iff in H as [H|H].
  - apply bool_decide_eq_true in H. rewrite /symbols in H. set_solver.
  - apply Z.eqb_eq in H as ->. done.
Qed.
Lemma lexes_total n : ∀ r, (length r ≤ n)%nat → Forall (λ c, c ≠ 0) r → ∃ ts, lexes r ts.
Proof.
  induction n as [|n IH]; intros r Hr Hnz; [destruct r; [|simpl in Hr; lia]; exists []; by constructor|].
  destruct (span_exists is_ws r) as (ws & r1 & -> & Hws & He). destruct r1 as [|c r1]; [exists []; constructor; by rewrite app_nil_r|].
  apply Forall_app in Hnz as [_ [Hc Hnz]%Forall_cons]. rewrite length_app in Hr. simpl in Hr, He.
  assert (Hgo : ∀ t r2, chars t ++ r2 = c :: r1 → tok_ok t r2 → (length r2 ≤ n)%nat → Forall (λ c, c ≠ 0) r2 → ∃ ts, lexes (ws ++ c :: r1) ts).
  { intros t r2 <- Ht Hl Hf. destruct (IH r2 Hl Hf) as [ts Hts]. exists (t :: ts). by constructor. }
  destruct (decide (c = 62)) as [->|Hn].
  - destruct r1 as [|d r1]; [apply (Hgo Gt []); done || (simpl; lia)|]. destruct (decide (d = 62)) as [->|Hd].
    + apply (Hgo GtGt r1); [done|done|simpl in Hr; lia|]. by apply Forall_cons in Hnz as [_ ?].
    + apply (Hgo Gt (d :: r1)); [done| |lia|done]. by apply Z.eqb_neq.
  - destruct (is_word c) eqn:Ew.
    + destruct (span_exists is_word (c :: r1)) as (w & r2 & E & Hw & He2). destruct w as [|c' w]; [simpl in E; subst r2; simpl in He2; congruence|].
      injection E as <- E. apply (Hgo (Word (c :: w)) r2); [by rewrite E|by split_and!|subst r1; rewrite length_app in Hr; lia|]. subst r1. by apply Forall_app in Hnz as [_ ?].
    + apply (Hgo (Sym c) r1); [done|by apply not_word|lia|done].
Qed.
Lemma lexes_length r ts : lexes r ts → (length ts ≤ length r)%nat.
Proof.
  induction 1 as [|ws t r ts _ Ht _ IH]; simpl; [lia|]. destruct (chars_cons t r Ht) as (c & l & E & _). rewrite !length_app E /=. lia.
Qed.
