(* ===== verification/ShGrammar.v ===== *)
(** * The grammar of command lines

    Lines, pipelines and simple commands, the tokens they consist of, the commands they
    stand for, and a parser on lists of tokens that decides the grammar. *)

From stdpp Require Import base numbers list gmap.
From S2P Require Import Prelude Sh ShLex.

Inductive redir := RIn (w : list Z) | ROut (w : list Z) | RApp (w : list Z).
Inductive item := Arg (w : list Z) | Red (r : redir).
Inductive line := LEnd (p : pipe) (bg : nat) | LSeq (p : pipe) (bg : nat) (l : line)
with pipe := PEnd (e : exec) | PPipe (e : exec) (p : pipe)
with exec := Simple (its : list item) | Block (l : line) (rs : list redir).

Scheme line_mut := Induction for line Sort Prop
with pipe_mut := Induction for pipe Sort Prop
with exec_mut := Induction for exec Sort Prop.
Combined Scheme line_pipe_exec_ind from line_mut, pipe_mut, exec_mut.

(** ** Tokens *)
Definition redir_toks (r : redir) : list token :=
  match r with RIn w => [Sym 60; Word w] | ROut w => [Gt; Word w] | RApp w => [GtGt; Word w] end.
Definition item_toks (i : item) : list token := match i with Arg w => [Word w] | Red r => redir_toks r end.
Fixpoint line_toks (l : line) : list token :=
  match l with
  | LEnd p bg => pipe_toks p ++ replicate bg (Sym 38)
  | LSeq p bg l => pipe_toks p ++ replicate bg (Sym 38) ++ Sym 59 :: line_toks l
  end
with pipe_toks (p : pipe) : list token :=
  match p with PEnd e => exec_toks e | PPipe e p => exec_toks e ++ Sym 124 :: pipe_toks p end
with exec_toks (e : exec) : list token :=
  match e with
  | Simple its => its ≫= item_toks
  | Block l rs => Sym 40 :: line_toks l ++ Sym 41 :: (rs ≫= redir_toks)
  end.

(** ** Commands *)
Inductive tree :=
  | TExec (argv : list (list Z))
  | TRedir (c : tree) (file : list Z) (mode fd : Z)
  | TPipe (l r : tree)
  | TList (l r : tree)
  | TBack (c : tree).
Definition args (its : list item) : list (list Z) := its ≫= λ i, match i with Arg w => [w] | Red _ => [] end.
Definition redirs (its : list item) : list redir := its ≫= λ i, match i with Arg _ => [] | Red r => [r] end.

(** The bytes of the structures a line needs. *)
Definition exec_cost (rs : list redir) : Z := 40 * Z.of_nat (length rs).
Fixpoint line_size (l : line) : Z :=
  match l with
  | LEnd p bg => pipe_size p + 16 * Z.of_nat bg
  | LSeq p bg l => pipe_size p + 16 * Z.of_nat bg + line_size l + 24
  end
with pipe_size (p : pipe) : Z := match p with PEnd e => exec_size e | PPipe e p => exec_size e + pipe_size p + 24 end
with exec_size (e : exec) : Z :=
  match e with Simple its => 168 + 40 * Z.of_nat (length (redirs its)) | Block l rs => line_size l + 40 * Z.of_nat (length rs) end.

Section commands.
Context (O_RDONLY O_WRONLY O_CREAT : Z).
Definition redirected (t : tree) (r : redir) : tree :=
  match r with
  | RIn w => TRedir t w O_RDONLY 0
  | ROut w | RApp w => TRedir t w (Z.lor O_WRONLY O_CREAT) 1
  end.
Fixpoint backs (n : nat) (t : tree) : tree := match n with O => t | S n => backs n (TBack t) end.
Fixpoint line_tree (l : line) : tree :=
  match l with
  | LEnd p bg => backs bg (pipe_tree p)
  | LSeq p bg l => TList (backs bg (pipe_tree p)) (line_tree l)
  end
with pipe_tree (p : pipe) : tree :=
  match p with PEnd e => exec_tree e | PPipe e p => TPipe (exec_tree e) (pipe_tree p) end
with exec_tree (e : exec) : tree :=
  match e with
  | Simple its => foldl redirected (TExec (args its)) (redirs its)
  | Block l rs => foldl redirected (line_tree l) rs
  end.
End commands.

(** ** A parser on tokens *)
Inductive parsed (A : Type) := POk (a : A) (ts : list token) | PErr | PFuel.
Arguments POk {A} a ts.
Arguments PErr {A}.
Arguments PFuel {A}.
Definition pbind {A B} (k : A → list token → parsed B) (m : parsed A) : parsed B :=
  match m with POk a ts => k a ts | PErr => PErr | PFuel => PFuel end.

Fixpoint p_redirs (ts : list token) : parsed (list redir) :=
  match ts with
  | Sym c :: ts' =>
      if c =? 60 then
        match ts' with Word w :: ts'' => pbind (λ rs ts, POk (RIn w :: rs) ts) (p_redirs ts'') | _ => PErr end
      else POk [] ts
  | Gt :: ts' => match ts' with Word w :: ts'' => pbind (λ rs ts, POk (ROut w :: rs) ts) (p_redirs ts'') | _ => PErr end
  | GtGt :: ts' => match ts' with Word w :: ts'' => pbind (λ rs ts, POk (RApp w :: rs) ts) (p_redirs ts'') | _ => PErr end
  | _ => POk [] ts
  end.
(** The token ends a simple command. *)
Definition stops (t : token) : bool := strchr [124; 41; 38; 59] (first_char t).
Fixpoint p_args (fuel : nat) (argc : nat) (ts : list token) : parsed (list item) :=
  match ts with
  | [] => POk [] []
  | t :: ts' =>
      if stops t then POk [] ts
      else
        match fuel with
        | O => PFuel
        | S fuel =>
            match t with
            | Word w =>
                if (MAXARGS <=? S argc)%nat then PErr
                else pbind (λ rs ts, pbind (λ its ts, POk (Arg w :: (Red <$> rs) ++ its) ts) (p_args fuel (S argc) ts)) (p_redirs ts')
            | _ => PErr
            end
        end
  end.
Fixpoint p_back (ts : list token) : nat * list token :=
  match ts with
  | Sym c :: ts' => if c =? 38 then let '(n, ts) := p_back ts' in (S n, ts) else (0%nat, ts)
  | _ => (0%nat, ts)
  end.
Fixpoint p_line (fuel : nat) (ts : list token) : parsed line :=
  match fuel with
  | O => PFuel
  | S fuel =>
      pbind (λ p ts,
        let '(bg, ts) := p_back ts in
        if test [59] ts then pbind (λ l ts, POk (LSeq p bg l) ts) (p_line fuel (tail ts)) else POk (LEnd p bg) ts) (p_pipe fuel ts)
  end
with p_pipe (fuel : nat) (ts : list token) : parsed pipe :=
  match fuel with
  | O => PFuel
  | S fuel =>
      pbind (λ e ts, if test [124] ts then pbind (λ p ts, POk (PPipe e p) ts) (p_pipe fuel (tail ts)) else POk (PEnd e) ts) (p_exec fuel ts)
  end
with p_exec (fuel : nat) (ts : list token) : parsed exec :=
  match fuel with
  | O => PFuel
  | S fuel =>
      if test [40] ts then p_block fuel ts
      else pbind (λ rs ts, pbind (λ its ts, POk (Simple ((Red <$> rs) ++ its)) ts) (p_args (length ts) 0 ts)) (p_redirs ts)
  end
with p_block (fuel : nat) (ts : list token) : parsed exec :=
  match fuel with
  | O => PFuel
  | S fuel =>
      pbind (λ l ts, if test [41] ts then pbind (λ rs ts, POk (Block l rs) ts) (p_redirs (tail ts)) else PErr) (p_line fuel (tail ts))
  end.

(** ** Tokens of lines *)
(** Words have characters of words, and symbols are symbols. *)
Definition tok_wf (t : token) : Prop :=
  match t with Sym c => c ∈ [124; 40; 41; 59; 38; 60] | Word w => w ≠ [] ∧ Forall (λ c, is_word c = true) w | _ => True end.
Lemma lexes_wf r ts : lexes r ts → Forall tok_wf ts.
Proof. induction 1 as [|ws t r ts _ Ht _ IH]; [done|]. constructor; [|done]. destruct t; naive_solver. Qed.

Lemma test_word toks w ts : Forall (λ c, c ∈ [124; 40; 41; 59; 38; 60; 62]) toks → tok_wf (Word w) → test toks (Word w :: ts) = false.
Proof.
  intros Ht [Hw Hf]. destruct w as [|c w]; [done|]. apply Forall_cons in Hf as [Hc _]. apply is_word_sym in Hc as (H1 & H2 & H3).
  rewrite /test /strchr /first_char /=. rewrite (proj2 (Z.eqb_neq _ _) H3) orb_false_r. apply bool_decide_eq_false. intros Hin.
  rewrite Forall_forall in Ht. apply Ht in Hin. set_solver.
Qed.
Lemma sym_nonzero c : tok_wf (Sym c) → c ≠ 0.
Proof. intros H ->. simpl in H. set_solver. Qed.
Lemma test_sym toks c ts : tok_wf (Sym c) → test toks (Sym c :: ts) = bool_decide (c ∈ toks).
Proof. intros H%sym_nonzero. rewrite /test /strchr /first_char /=. by rewrite (proj2 (Z.eqb_neq _ _) H) orb_false_r. Qed.

(** ** The parser reads the tokens of what it returns *)
Definition no_redir (ts : list token) : Prop := test [60; 62] ts = false.
Lemma p_redirs_sound n : ∀ ts rs ts', (length ts ≤ n)%nat → p_redirs ts = POk rs ts' → ts = (rs ≫= redir_toks) ++ ts'.
Proof.
  induction n as [|n IH]; intros ts rs ts' Hn; [by destruct ts; [intros [= <- <-]|simpl in Hn; lia]|].
  assert (Hr : ∀ (r : redir) ts2, (length ts2 ≤ n)%nat → pbind (λ rs ts, POk (r :: rs) ts) (p_redirs ts2) = POk rs ts' →
    redir_toks r ++ ts2 = (rs ≫= redir_toks) ++ ts').
  { intros r ts2 H2. destruct (p_redirs ts2) as [rs2 ts3| |] eqn:E; [|done..]. intros [= <- <-].
    rewrite (IH _ _ _ H2 E). by rewrite bind_cons app_assoc. }
  destruct ts as [|[c| | |w] ts]; cbn [p_redirs]; try (by intros [= <- <-]).
  - destruct (c =? 60) eqn:Ec; [|by intros [= <- <-]]. apply Z.eqb_eq in Ec as ->.
    destruct ts as [|[]ts]; try done. intros H. apply (Hr (RIn w) ts); [simpl in Hn; lia|done].
  - destruct ts as [|[]ts]; try done. intros H. apply (Hr (ROut w) ts); [simpl in Hn; lia|done].
  - destruct ts as [|[]ts]; try done. intros H. apply (Hr (RApp w) ts); [simpl in Hn; lia|done].
Qed.
Lemma p_redirs_complete rs ts : no_redir ts → p_redirs ((rs ≫= redir_toks) ++ ts) = POk rs ts.
Proof.
  intros Hn. induction rs as [|r rs IH].
  - destruct ts as [|[c| | |w] ts]; try done. rewrite /no_redir /test /strchr /first_char /= in Hn.
    simpl. destruct (c =? 60) eqn:Ec; [|done]. by apply Z.eqb_eq in Ec as ->.
  - rewrite bind_cons -app_assoc. destruct r; simpl; by rewrite IH.
Qed.
Lemma p_redirs_fuel n : ∀ ts, (length ts ≤ n)%nat → p_redirs ts ≠ PFuel.
Proof.
  induction n as [|n IH]; intros ts Hn; [by destruct ts; [|simpl in Hn; lia]|].
  assert (Hr : ∀ (r : redir) ts2, (length ts2 ≤ n)%nat → pbind (λ rs ts, POk (r :: rs) ts) (p_redirs ts2) ≠ PFuel).
  { intros r ts2 H2. specialize (IH ts2 H2). by destruct (p_redirs ts2). }
  destruct ts as [|[c| | |w] ts]; cbn [p_redirs]; try done; [destruct (c =? 60); [|done]|..];
    (destruct ts as [|[]ts]; [done..|apply Hr; simpl in Hn; lia]).
Qed.
Lemma p_redirs_length ts rs ts' : p_redirs ts = POk rs ts' → (length ts' ≤ length ts)%nat.
Proof. intros H. apply (p_redirs_sound _ _ _ _ (le_n _)) in H as ->. rewrite length_app. lia. Qed.

(** ** Arguments *)
Definition starts_arg (its : list item) : Prop := match its with Red _ :: _ => False | _ => True end.
Definition follows (cs : list Z) (ts : list token) : Prop := match ts with [] => True | Sym c :: _ => c ∈ cs | _ => False end.
Lemma split_reds its : ∃ rs its', its = (Red <$> rs) ++ its' ∧ starts_arg its'.
Proof.
  induction its as [|[w|r] its (rs & its' & -> & H)]; [by exists [], []|by exists [], (Arg w :: (Red <$> rs) ++ its')|].
  by exists (r :: rs), its'.
Qed.
Lemma reds_toks rs : (Red <$> rs) ≫= item_toks = rs ≫= redir_toks.
Proof. induction rs as [|r rs IH]; [done|]. rewrite fmap_cons !bind_cons. by rewrite IH. Qed.
Lemma args_app a b : args (a ++ b) = args a ++ args b.
Proof. apply bind_app. Qed.
Lemma args_reds rs : args (Red <$> rs) = [].
Proof. induction rs as [|r rs IH]; [done|]. rewrite fmap_cons /args bind_cons. by rewrite /args in IH. Qed.
Lemma redirs_app a b : redirs (a ++ b) = redirs a ++ redirs b.
Proof. apply bind_app. Qed.
Lemma redirs_reds rs : redirs (Red <$> rs) = rs.
Proof. induction rs as [|r rs IH]; [done|]. rewrite fmap_cons /redirs bind_cons /=. f_equal. exact IH. Qed.

Lemma stops_sym t : tok_wf t → stops t = true → ∃ c, t = Sym c ∧ c ∈ [124; 41; 38; 59].
Proof.
  intros Hw H. destruct t as [c| | |w]; try done.
  - exists c. split; [done|]. revert H.
    rewrite /stops /strchr /first_char /=. rewrite (proj2 (Z.eqb_neq _ _) (sym_nonzero _ Hw)) orb_false_r. by intros ?%bool_decide_eq_true.
  - rewrite /stops in H. pose proof (test_word [124; 41; 38; 59] w []) as E. rewrite /test in E. rewrite E in H; [|done|done].
    by repeat constructor; set_solver.
Qed.
Lemma stops_of c : c ∈ [124; 41; 38; 59] → stops (Sym c) = true.
Proof. intros H. rewrite /stops /strchr /first_char /=. by rewrite bool_decide_eq_true_2. Qed.
Lemma word_stops w : tok_wf (Word w) → stops (Word w) = false.
Proof. intros H. apply (test_word [124; 41; 38; 59] w []); [|done]. by repeat constructor; set_solver. Qed.

Lemma p_args_sound fuel : ∀ argc ts its ts', Forall tok_wf ts → p_args fuel argc ts = POk its ts' →
  ts = (its ≫= item_toks) ++ ts' ∧ follows [124; 41; 38; 59] ts' ∧ ((argc ≤ 9)%nat → (argc + length (args its) ≤ 9)%nat).
Proof.
  induction fuel as [|fuel IH]; intros argc ts its ts' Hwf; destruct ts as [|t ts]; cbn [p_args]; try (by intros [= <- <-]; split_and!; simpl; try lia).
  all: apply Forall_cons in Hwf as [Ht Hwf]; destruct (stops t) eqn:Es;
    [destruct (stops_sym t Ht Es) as (c & -> & Hc); intros [= <- <-]; split_and!; simpl; [done|done|lia]|try done].
  destruct t as [| | |w]; try done. destruct (MAXARGS <=? S argc)%nat eqn:Ea; [done|]. apply Nat.leb_gt in Ea. rewrite /MAXARGS in Ea.
  destruct (p_redirs ts) as [rs ts1| |] eqn:Er; try done. cbn [pbind]. pose proof (p_redirs_sound _ _ _ _ (le_n _) Er) as Ets.
  assert (Hwf1 : Forall tok_wf ts1) by (rewrite Ets in Hwf; by apply Forall_app in Hwf as [_ ?]).
  destruct (p_args fuel (S argc) ts1) as [its1 ts2| |] eqn:E1; try done. intros [= <- <-].
  destruct (IH _ _ _ _ Hwf1 E1) as (E2 & Hf & Hl). split_and!; [|done|].
  - rewrite bind_cons bind_app reds_toks. simpl. by rewrite -!app_assoc -E2 -Ets.
  - intros _. rewrite /args bind_cons -/(args _) /= args_app args_reds /=. specialize (Hl ltac:(lia)). lia.
Qed.

Lemma no_redir_follows cs ts : Forall tok_wf ts → follows cs ts → 60 ∉ cs → no_redir ts.
Proof.
  destruct ts as [|[c| | |w] ts]; try done. intros [Hw _]%Forall_cons Hc H1. rewrite /no_redir test_sym //. apply bool_decide_eq_false.
  simpl in Hc, Hw. rewrite !elem_of_cons. intros [->|[->|?%elem_of_nil]]; [done|set_solver|done].
Qed.
Lemma p_args_complete fuel : ∀ argc its ts,
  starts_arg its → Forall tok_wf ((its ≫= item_toks) ++ ts) → follows [124; 41; 38; 59] ts → (argc + length (args its) ≤ 9)%nat →
  (length its ≤ fuel)%nat → p_args fuel argc ((its ≫= item_toks) ++ ts) = POk its ts.
Proof.
  induction fuel as [|fuel IH]; intros argc its ts Hs Hwf Hf Hl Hn; destruct its as [|i its]; simpl in Hn; try lia.
  1,2: destruct ts as [|[c| | |w] ts]; try done; cbn [p_args]; simpl in Hf; by rewrite /= stops_of.
  destruct i as [w|]; [|done]. rewrite bind_cons -app_assoc in Hwf |- *. cbn [item_toks app] in Hwf |- *. apply Forall_cons in Hwf as [Hw Hwf]. cbn [p_args].
  rewrite (word_stops w Hw). rewrite /args bind_cons -/(args _) /= in Hl.
  replace (MAXARGS <=? S argc)%nat with false; [|symmetry; apply Nat.leb_gt; rewrite /MAXARGS; lia].
  destruct (split_reds its) as (rs & its' & -> & Hs'). rewrite bind_app reds_toks -app_assoc in Hwf |- *.
  apply Forall_app in Hwf as [Hwr Hwf]. rewrite p_redirs_complete.
  - destruct its' as [|[w'|] its']; [|rewrite bind_cons in Hwf |- *|done].
    + by apply (no_redir_follows [124; 41; 38; 59]); [..|set_solver].
    + simpl in Hwf |- *. apply Forall_cons in Hwf as [Hw' _]. rewrite /no_redir. apply test_word; [by repeat constructor; set_solver|done].
  - cbn [pbind]. rewrite length_app length_fmap in Hn. rewrite args_app args_reds app_nil_l in Hl.
    rewrite (IH (S argc) its' ts Hs' Hwf Hf ltac:(lia) ltac:(lia)). done.
Qed.
Lemma p_args_fuel fuel : ∀ argc ts, (length ts ≤ fuel)%nat → p_args fuel argc ts ≠ PFuel.
Proof.
  induction fuel as [|fuel IH]; intros argc ts Hn; destruct ts as [|t ts]; simpl in Hn; try lia; try done.
  cbn [p_args]. destruct (stops t); [done|]. destruct t; try done. destruct (MAXARGS <=? S argc)%nat; [done|].
  destruct (p_redirs ts) as [rs ts1| |] eqn:E; [|done|by apply (p_redirs_fuel _ ts (le_n _)) in E]. cbn [pbind].
  apply p_redirs_length in E. specialize (IH (S argc) ts1 ltac:(lia)). by destruct (p_args fuel (S argc) ts1).
Qed.

(** ** Lines *)
Lemma p_back_eq ts n ts' : p_back ts = (n, ts') → ts = replicate n (Sym 38) ++ ts' ∧ (∀ ts0, ts' ≠ Sym 38 :: ts0).
Proof.
  revert n. induction ts as [|t ts IH]; intros n; [by intros [= <- <-]|]. destruct t as [c| | |w]; try (by intros [= <- <-]). cbn [p_back].
  destruct (c =? 38) eqn:E; [|apply Z.eqb_neq in E; intros [= <- <-]; split; [done|congruence]]. apply Z.eqb_eq in E as ->.
  destruct (p_back ts) as [n' ts1]. intros [= <- <-]. destruct (IH n' eq_refl) as [-> ?]. done.
Qed.
Lemma p_back_complete n ts : (∀ ts0, ts ≠ Sym 38 :: ts0) → p_back (replicate n (Sym 38) ++ ts) = (n, ts).
Proof.
  intros H. induction n as [|n IH]; [|by rewrite /= IH]. destruct ts as [|[c| | |w] ts]; try done. cbn [replicate app p_back].
  destruct (c =? 38) eqn:E; [|done]. apply Z.eqb_eq in E as ->. by destruct (H ts).
Qed.
Lemma test_is c ts : Forall tok_wf ts → c ∈ [124; 40; 41; 59; 38] → test [c] ts = true → ∃ ts0, ts = Sym c :: ts0.
Proof.
  intros Hw Hc H. destruct ts as [|t ts]; [done|]. apply Forall_cons in Hw as [Ht _]. destruct t as [d| | |w].
  - rewrite test_sym // in H. apply bool_decide_eq_true, list_elem_of_singleton in H as ->. by exists ts.
  - rewrite /test /strchr /first_char /= in H. rewrite orb_false_r in H. apply bool_decide_eq_true, list_elem_of_singleton in H as <-. set_solver.
  - rewrite /test /strchr /first_char /= in H. rewrite orb_false_r in H. apply bool_decide_eq_true, list_elem_of_singleton in H as <-. set_solver.
  - rewrite test_word // in H. constructor; [set_solver|done].
Qed.
Lemma test_here c ts : tok_wf (Sym c) → test [c] (Sym c :: ts) = true.
Proof. intros H. rewrite test_sym //. apply bool_decide_eq_true. by apply list_elem_of_singleton. Qed.
Lemma test_follows c cs ts : Forall tok_wf ts → follows cs ts → c ∉ cs → test [c] ts = false.
Proof.
  destruct ts as [|[d| | |w] ts]; try done. intros [Hw _]%Forall_cons Hd Hc. rewrite test_sym //. apply bool_decide_eq_false.
  intros ->%list_elem_of_singleton. done.
Qed.

(** No command has too many arguments. *)
Fixpoint line_ok (l : line) : Prop :=
  match l with LEnd p _ => pipe_ok p | LSeq p _ l => pipe_ok p ∧ line_ok l end
with pipe_ok (p : pipe) : Prop := match p with PEnd e => exec_ok e | PPipe e p => exec_ok e ∧ pipe_ok p end
with exec_ok (e : exec) : Prop :=
  match e with Simple its => (length (args its) < MAXARGS)%nat | Block l _ => line_ok l end.

Lemma p_sound fuel :
  (∀ ts l ts', Forall tok_wf ts → p_line fuel ts = POk l ts' → ts = line_toks l ++ ts' ∧ line_ok l) ∧
  (∀ ts p ts', Forall tok_wf ts → p_pipe fuel ts = POk p ts' → ts = pipe_toks p ++ ts' ∧ pipe_ok p) ∧
  (∀ ts e ts', Forall tok_wf ts → p_exec fuel ts = POk e ts' → ts = exec_toks e ++ ts' ∧ exec_ok e) ∧
  (∀ ts e ts', Forall tok_wf ts → p_block fuel (Sym 40 :: ts) = POk e ts' → Sym 40 :: ts = exec_toks e ++ ts' ∧ exec_ok e).
Proof.
  induction fuel as [|fuel (IHl & IHp & IHe & IHb)]; [done|]. split_and!; intros ts x ts' Hwf; cbn [p_line p_pipe p_exec p_block].
  - destruct (p_pipe fuel ts) as [p ts1| |] eqn:E1; try done. cbn [pbind]. apply IHp in E1 as [-> Hok1]; [|done].
    apply Forall_app in Hwf as [_ Hwf]. destruct (p_back ts1) as [bg ts2] eqn:E2. apply p_back_eq in E2 as [-> _]. apply Forall_app in Hwf as [_ Hwf].
    destruct (test [59] ts2) eqn:E3; [|intros [= <- <-]; by rewrite /= -app_assoc].
    apply test_is in E3 as [ts3 ->]; [|done|set_solver]. apply Forall_cons in Hwf as [_ Hwf]. cbn [tail].
    destruct (p_line fuel ts3) as [l ts4| |] eqn:E4; try done. apply IHl in E4 as [-> Hok2]; [|done]. intros [= <- <-]. by rewrite /= -!app_assoc.
  - destruct (p_exec fuel ts) as [e ts1| |] eqn:E1; try done. cbn [pbind]. apply IHe in E1 as [-> Hok1]; [|done]. apply Forall_app in Hwf as [_ Hwf].
    destruct (test [124] ts1) eqn:E3; [|by intros [= <- <-]].
    apply test_is in E3 as [ts3 ->]; [|done|set_solver]. apply Forall_cons in Hwf as [_ Hwf]. cbn [tail].
    destruct (p_pipe fuel ts3) as [l ts4| |] eqn:E4; try done. apply IHp in E4 as [-> Hok2]; [|done]. intros [= <- <-]. by rewrite /= -!app_assoc.
  - destruct (test [40] ts) eqn:E3.
    + apply test_is in E3 as [ts3 ->]; [|done|set_solver]. apply Forall_cons in Hwf as [_ Hwf]. by apply IHb.
    + destruct (p_redirs ts) as [rs ts1| |] eqn:E1; try done. apply (p_redirs_sound _ _ _ _ (le_n _)) in E1 as ->. cbn [pbind].
      apply Forall_app in Hwf as [_ Hwf]. destruct (p_args _ 0 ts1) as [its ts2| |] eqn:E2; try done. apply p_args_sound in E2 as (-> & _ & Hl); [|done].
      intros [= <- <-]. rewrite /= bind_app reds_toks args_app args_reds /MAXARGS. split; [by rewrite -app_assoc|]. specialize (Hl ltac:(lia)). simpl in *. lia.
  - cbn [tail]. destruct (p_line fuel ts) as [l ts1| |] eqn:E1; try done. cbn [pbind]. apply IHl in E1 as [-> Hok1]; [|done]. apply Forall_app in Hwf as [_ Hwf].
    destruct (test [41] ts1) eqn:E3; [|done]. apply test_is in E3 as [ts3 ->]; [|done|set_solver]. cbn [tail].
    destruct (p_redirs ts3) as [rs ts4| |] eqn:E4; try done. apply (p_redirs_sound _ _ _ _ (le_n _)) in E4 as ->.
    intros [= <- <-]. by rewrite /= -!app_assoc.
Qed.

(** Enough fuel. *)
Lemma p_fuel fuel :
  (∀ ts, Forall tok_wf ts → (4 * length ts + 4 ≤ fuel)%nat → p_line fuel ts ≠ PFuel) ∧
  (∀ ts, Forall tok_wf ts → (4 * length ts + 3 ≤ fuel)%nat → p_pipe fuel ts ≠ PFuel) ∧
  (∀ ts, Forall tok_wf ts → (4 * length ts + 2 ≤ fuel)%nat → p_exec fuel ts ≠ PFuel) ∧
  (∀ ts, Forall tok_wf ts → (4 * length ts + 5 ≤ fuel)%nat → p_block fuel (Sym 40 :: ts) ≠ PFuel).
Proof.
  induction fuel as [|fuel (IHl & IHp & IHe & IHb)]; [split_and!; intros; lia|].
  destruct (p_sound fuel) as (Sl & Sp & Se & _). split_and!; intros ts Hwf Hn; cbn [p_line p_pipe p_exec p_block].
  - specialize (IHp ts Hwf ltac:(lia)). destruct (p_pipe fuel ts) as [p ts1| |] eqn:E1; try done. cbn [pbind]. apply Sp in E1 as [-> _]; [|done].
    apply Forall_app in Hwf as [_ Hwf]. destruct (p_back ts1) as [bg ts2] eqn:E2. apply p_back_eq in E2 as [-> _]. apply Forall_app in Hwf as [_ Hwf].
    destruct (test [59] ts2) eqn:E3; [|done]. apply test_is in E3 as [ts3 ->]; [|done|set_solver]. apply Forall_cons in Hwf as [_ Hwf]. cbn [tail].
    rewrite !length_app /= in Hn. specialize (IHl ts3 Hwf ltac:(lia)). by destruct (p_line fuel ts3).
  - specialize (IHe ts Hwf ltac:(lia)). destruct (p_exec fuel ts) as [p ts1| |] eqn:E1; try done. cbn [pbind]. apply Se in E1 as [-> _]; [|done].
    apply Forall_app in Hwf as [_ Hwf].
    destruct (test [124] ts1) eqn:E3; [|done]. apply test_is in E3 as [ts3 ->]; [|done|set_solver]. apply Forall_cons in Hwf as [_ Hwf]. cbn [tail].
    rewrite !length_app /= in Hn. specialize (IHp ts3 Hwf ltac:(lia)). by destruct (p_pipe fuel ts3).
  - destruct (test [40] ts) eqn:E3.
    + apply test_is in E3 as [ts3 ->]; [|done|set_solver]. apply Forall_cons in Hwf as [_ Hwf]. apply IHb; [done|simpl in Hn; lia].
    + destruct (p_redirs ts) as [rs ts1| |] eqn:E1; [|done|by apply (p_redirs_fuel _ ts (le_n _)) in E1]. cbn [pbind].
      pose proof (p_args_fuel (length ts1) 0 ts1 (le_n _)). by destruct (p_args _ 0 ts1).
  - cbn [tail]. specialize (IHl ts Hwf ltac:(lia)). destruct (p_line fuel ts) as [l ts1| |] eqn:E1; try done. cbn [pbind].
    destruct (test [41] ts1); [|done]. pose proof (p_redirs_fuel _ (tail ts1) (le_n _)). by destruct (p_redirs (tail ts1)).
Qed.

(** ** The parser is complete: it reads every line of the grammar *)
Definition reads {A} (m : parsed A) (a : A) (ts : list token) : Prop := m = POk a ts ∨ m = PFuel.
Lemma reads_bind {A B} (m : parsed A) (k : A → list token → parsed B) a ts b ts' :
  reads m a ts → reads (k a ts) b ts' → reads (pbind k m) b ts'.
Proof. intros [->| ->]; [done|by right]. Qed.

Lemma follows_mono cs cs' ts : follows cs ts → cs ⊆ cs' → follows cs' ts.
Proof. destruct ts as [|[]]; try done. simpl. set_solver. Qed.
Lemma follows_back bg ts : follows [41] ts → follows [41; 38; 59] (replicate bg (Sym 38) ++ ts).
Proof. intros H. destruct bg; [eapply follows_mono; [exact H|set_solver]|simpl; set_solver]. Qed.
Lemma follows_not_back cs ts : follows cs ts → 38 ∉ cs → ∀ ts0, ts ≠ Sym 38 :: ts0.
Proof. intros H Hc ts0 ->. done. Qed.
Lemma items_not_block its ts : Forall tok_wf ((its ≫= item_toks) ++ ts) → follows [124; 41; 38; 59] ts → test [40] ((its ≫= item_toks) ++ ts) = false.
Proof.
  intros Hwf Hf. destruct its as [|[w|[]] its]; try done.
  - by apply (test_follows 40 [124; 41; 38; 59]); [..|set_solver].
  - rewrite bind_cons in Hwf |- *. cbn [item_toks app] in Hwf |- *. apply Forall_cons in Hwf as [Hw _]. apply test_word; [constructor; [set_solver|done]|done].
Qed.

Lemma p_complete :
  (∀ l fuel ts, line_ok l → Forall tok_wf (line_toks l ++ ts) → follows [41] ts → reads (p_line fuel (line_toks l ++ ts)) l ts) ∧
  (∀ p fuel ts, pipe_ok p → Forall tok_wf (pipe_toks p ++ ts) → follows [41; 38; 59] ts → reads (p_pipe fuel (pipe_toks p ++ ts)) p ts) ∧
  (∀ e fuel ts, exec_ok e → Forall tok_wf (exec_toks e ++ ts) → follows [124; 41; 38; 59] ts → reads (p_exec fuel (exec_toks e ++ ts)) e ts).
Proof.
  apply line_pipe_exec_ind.
  - intros p IH bg [|fuel] ts Hok Hwf Hf; [by right|]. cbn [line_toks p_line]. rewrite -app_assoc in Hwf |- *.
    eapply reads_bind; [apply (IH fuel _ Hok Hwf); by apply follows_back|]. rewrite p_back_complete.
    + apply (follows_not_back [41]); [done|set_solver].
    + apply Forall_app in Hwf as [_ [_ Hwf]%Forall_app]. rewrite (test_follows 59 [41]) //; [set_solver|by left].
  - intros p IHp bg l IHl [|fuel] ts [Hok1 Hok2] Hwf Hf; [by right|]. cbn [line_toks p_line]. rewrite -!app_assoc in Hwf |- *.
    eapply reads_bind; [apply (IHp fuel _ Hok1 Hwf); destruct bg; simpl; set_solver|]. rewrite -app_comm_cons p_back_complete; [done|].
    apply Forall_app in Hwf as [_ [_ Hwf]%Forall_app]. rewrite -app_comm_cons in Hwf. apply Forall_cons in Hwf as [H59 Hwf].
    rewrite test_here //. cbn [tail]. eapply reads_bind; [by apply IHl|by left].
  - intros e IH [|fuel] ts Hok Hwf Hf; [by right|]. cbn [pipe_toks p_pipe].
    eapply reads_bind; [apply (IH fuel _ Hok Hwf); eapply follows_mono; [exact Hf|set_solver]|].
    apply Forall_app in Hwf as [_ Hwf]. rewrite (test_follows 124 [41; 38; 59]) //; [set_solver|by left].
  - intros e IHe p IHp [|fuel] ts [Hok1 Hok2] Hwf Hf; [by right|]. cbn [pipe_toks p_pipe]. rewrite -app_assoc in Hwf |- *.
    eapply reads_bind; [apply (IHe fuel _ Hok1 Hwf); simpl; set_solver|]. apply Forall_app in Hwf as [_ Hwf].
    rewrite -app_comm_cons in Hwf |- *. apply Forall_cons in Hwf as [H124 Hwf]. rewrite test_here //. cbn [tail]. eapply reads_bind; [by apply IHp|by left].
  - intros its [|fuel] ts Hok Hwf Hf; [by right|]. cbn [exec_toks p_exec] in *. rewrite items_not_block //.
    destruct (split_reds its) as (rs & its' & -> & Hs). rewrite bind_app reds_toks -app_assoc in Hwf |- *. apply Forall_app in Hwf as [_ Hwf].
    rewrite p_redirs_complete.
    { destruct its' as [|[w|] its']; [by apply (no_redir_follows [124; 41; 38; 59]); [..|set_solver]| |done].
      rewrite bind_cons in Hwf |- *. cbn [item_toks app] in Hwf |- *. apply Forall_cons in Hwf as [Hw _]. apply test_word; [by repeat constructor; set_solver|done]. }
    cbn [pbind exec_ok] in *. rewrite args_app args_reds app_nil_l /MAXARGS in Hok. rewrite p_args_complete //; [lia| |by left].
    rewrite length_app. enough (length its' ≤ length (its' ≫= item_toks))%nat by lia. clear. induction its' as [|i its IH]; [done|].
    rewrite bind_cons length_app /=. destruct i as [|[]]; simpl; lia.
  - intros l IHl rs [|[|fuel]] ts Hok Hwf Hf; [by right..|]. cbn [exec_toks p_exec p_block] in *. rewrite -app_comm_cons in Hwf |- *.
    pose proof Hwf as [H40 Hwf']%Forall_cons. rewrite test_here //. cbn [tail]. rewrite -app_assoc -app_comm_cons in Hwf' |- *.
    eapply reads_bind; [apply IHl; [done|done|simpl; set_solver]|]. apply Forall_app in Hwf' as [_ [H41 Hwf']%Forall_cons]. rewrite test_here //. cbn [tail].
    apply Forall_app in Hwf' as [_ Hwf']. rewrite p_redirs_complete; [by apply (no_redir_follows [124; 41; 38; 59]); [..|set_solver]|by left].
Qed.
