(* ===== verification/ShParse.v ===== *)
(** * The parser of the shell builds the command a line stands for *)

From stdpp Require Import base numbers list gmap.
From S2P Require Import Prelude Sh ShLex ShGrammar.

Section parser.
Context (O_RDONLY O_WRONLY O_CREAT : Z) (str junk : list Z).
Notation es := (length str).
Notation here := (here str junk).
Notation redirected := (redirected O_RDONLY O_WRONLY O_CREAT).
Notation line_tree := (line_tree O_RDONLY O_WRONLY O_CREAT).
Notation pipe_tree := (pipe_tree O_RDONLY O_WRONLY O_CREAT).
Notation exec_tree := (exec_tree O_RDONLY O_WRONLY O_CREAT).

(** ** Commands in memory, with the place of each word *)
Definition word_at (q e : nat) (w : list Z) : Prop := tok_at str q e (Word w).
Section cmd_at.
Context (W : nat → nat → list Z → Prop) (h : gmap Z cmd).
Definition exec_node (a : Z) (ps : list (nat * nat)) : Prop :=
  (length ps < MAXARGS)%nat ∧
  h !! a = Some (ExecCmd ((Some ∘ fst <$> ps) ++ replicate (MAXARGS - length ps) None) ((Some ∘ snd <$> ps) ++ replicate (MAXARGS - length ps) None)).
Fixpoint cmd_at (a : Z) (t : tree) : Prop :=
  match t with
  | TExec ws => ∃ ps, exec_node a ps ∧ Forall2 (λ p w, W p.1 p.2 w) ps ws
  | TRedir t w mode fd => ∃ b q e, h !! a = Some (RedirCmd b q e mode fd) ∧ 0 < b < a ∧ W q e w ∧ cmd_at b t
  | TPipe t1 t2 => ∃ b c, h !! a = Some (PipeCmd b c) ∧ 0 < b < a ∧ 0 < c < a ∧ cmd_at b t1 ∧ cmd_at c t2
  | TList t1 t2 => ∃ b c, h !! a = Some (ListCmd b c) ∧ 0 < b < a ∧ 0 < c < a ∧ cmd_at b t1 ∧ cmd_at c t2
  | TBack t => ∃ b, h !! a = Some (BackCmd b) ∧ 0 < b < a ∧ cmd_at b t
  end.
End cmd_at.

Lemma cmd_at_mono (W W' : nat → nat → list Z → Prop) h h' t : (∀ q e w, W q e w → W' q e w) → h ⊆ h' → ∀ a, cmd_at W h a t → cmd_at W' h' a t.
Proof.
  intros HW Hh. induction t as [ws|t IH w mode fd|t1 IH1 t2 IH2|t1 IH1 t2 IH2|t IH]; intros a; cbn [cmd_at].
  - intros (ps & [Hl Hn] & Hws). exists ps. split; [split; [done|exact (lookup_weaken _ _ _ _ Hn Hh)]|]. eapply Forall2_impl; [exact Hws|]. auto.
  - intros (b & q & e & Hn & ? & ? & ?). exists b, q, e. split_and!; [exact (lookup_weaken _ _ _ _ Hn Hh)|lia..|auto|auto].
  - intros (b & c & Hn & ? & ? & ? & ?). exists b, c. split_and!; [exact (lookup_weaken _ _ _ _ Hn Hh)|lia..|auto|auto].
  - intros (b & c & Hn & ? & ? & ? & ?). exists b, c. split_and!; [exact (lookup_weaken _ _ _ _ Hn Hh)|lia..|auto|auto].
  - intros (b & Hn & ? & ?). exists b. split_and!; [exact (lookup_weaken _ _ _ _ Hn Hh)|lia..|auto].
Qed.

Lemma cmd_at_weaken W h h' a t : h ⊆ h' → cmd_at W h a t → cmd_at W h' a t.
Proof. intros H. by apply cmd_at_mono. Qed.

(** ** Allocation *)
Definition hok (s : sh) : Prop := 0 ≤ sbrk s ≤ MAXN ∧ ∀ a c, sheap s !! a = Some c → 0 < a ≤ sbrk s.
Lemma hok_spos s p : hok s → hok (set_spos p s).
Proof. done. Qed.
Definition allocated (sz : Z) (c : cmd) (s : sh) : sh := set_sheap (<[sbrk s + 1 := c]> (sheap s)) (set_sbrk (sbrk s + sz) s).
Lemma allocated_sub sz c s : hok s → sheap s ⊆ sheap (allocated sz c s).
Proof.
  intros [_ Hh]. apply insert_subseteq. destruct (sheap s !! (sbrk s + 1)) as [c'|] eqn:E; [|done]. specialize (Hh _ _ E). lia.
Qed.
Lemma new_cmd_run sz c s : 0 < sz → hok s →
  (if sbrk s + sz <=? MAXN then
     new_cmd sz c s = Ret (sbrk s + 1) (allocated sz c s) ∧ hok (allocated sz c s) ∧ sheap s ⊆ sheap (allocated sz c s)
   else new_cmd sz c s = Panic).
Proof.
  intros Hsz Hok. pose proof Hok as [H0 Hh]. rewrite /new_cmd /malloc1. run_simpl. rewrite Z.ltb_antisym.
  destruct (sbrk s + sz <=? MAXN) eqn:E; simpl; [|done]. apply Z.leb_le in E.
  replace (sbrk s + sz - sz + 1) with (sbrk s + 1) by lia. split_and!; [done| |by apply (allocated_sub sz c)].
  split; simpl; [lia|]. intros a c' [[<- <-]|[_ Ha]]%lookup_insert_Some; [lia|]. specialize (Hh a c' Ha). lia.
Qed.

(** What a parsing function does, from [b0] bytes in use, when the tokens need [cost] bytes:
    the commands [h0] are still there, and the result is as [R] says. *)
Record parses (h0 : gmap Z cmd) (s' : sh) (b : Z) (ts' : list token) : Prop := {
  pa_here : ∃ r', here s' r' ∧ lexes r' ts';
  pa_hok : hok s';
  pa_heap : h0 ⊆ sheap s';
  pa_brk : sbrk s' = b }.
Definition outcome_ok (o : outcome sh Z) (b0 : Z) (h0 : gmap Z cmd) (cost : Z) (ts' : list token) (R : Z → gmap Z cmd → Prop) : Prop :=
  if b0 + cost <=? MAXN then ∃ a s', o = Ret a s' ∧ parses h0 s' (b0 + cost) ts' ∧ 0 < a ≤ sbrk s' ∧ R a (sheap s') else o = Panic.

Lemma ok_bind (m : M sh Z) (k : Z → M sh Z) s b0 h0 h1 c1 c2 ts1 ts2 R1 R2 :
  0 ≤ c2 → outcome_ok (m s) b0 h1 c1 ts1 R1 →
  (∀ a s1, parses h1 s1 (b0 + c1) ts1 → 0 < a ≤ sbrk s1 → R1 a (sheap s1) → outcome_ok (k a s1) (sbrk s1) h0 c2 ts2 R2) →
  outcome_ok ((m ≫= k) s) b0 h0 (c1 + c2) ts2 R2.
Proof.
  intros Hc. rewrite /outcome_ok. destruct (b0 + c1 <=? MAXN) eqn:E1.
  - intros (a & s1 & Hrun & Hp & Ha & HR) Hk. specialize (Hk a s1 Hp Ha HR). rewrite (bind_run _ _ _ _ _ Hrun).
    rewrite (pa_brk _ _ _ _ Hp) -Z.add_assoc in Hk. exact Hk.
  - intros Hrun _. apply Z.leb_gt in E1. rewrite (proj2 (Z.leb_gt _ _)); [lia|]. rewrite /mbind /M_bind. by rewrite Hrun.
Qed.
(** A failure of the first part is one of the whole. *)
Lemma bind_panic {A} (m : M sh Z) (k : Z → M sh A) s : m s = Panic → (m ≫= k) s = Panic.
Proof. rewrite /mbind /M_bind. by intros ->. Qed.
Lemma ok_panic {A} (m : M sh Z) (k : Z → M sh A) s b0 h1 c1 ts1 R1 :
  outcome_ok (m s) b0 h1 c1 ts1 R1 →
  (∀ a s1, parses h1 s1 (b0 + c1) ts1 → 0 < a ≤ sbrk s1 → R1 a (sheap s1) → k a s1 = Panic) → (m ≫= k) s = Panic.
Proof.
  rewrite /outcome_ok. destruct (_ <=? _); [|by intros ? _; apply bind_panic].
  intros (a & s1 & Hrun & Hp & Ha & HR) Hk. rewrite (bind_run _ _ _ _ _ Hrun). by apply Hk.
Qed.
Lemma ok_new sz c s r ts h0 R : 0 < sz → hok s → here s r → lexes r ts → h0 ⊆ sheap s → R (sbrk s + 1) (sheap (allocated sz c s)) →
  outcome_ok (new_cmd sz c s) (sbrk s) h0 sz ts R.
Proof.
  intros Hsz Hh Hr Hl Hh0 HR. pose proof (new_cmd_run sz c s Hsz Hh) as H. rewrite /outcome_ok. destruct (_ <=? _); [|done].
  destruct H as (Hrun & Hh' & Hs). exists (sbrk s + 1), (allocated sz c s). destruct Hh as [H0 _]. split; [done|].
  split; [split; [by exists r|done|exact (transitivity Hh0 Hs)|done]|]. split; [simpl; lia|done].
Qed.
Lemma ok_ret a s r ts h0 (R : Z → gmap Z cmd → Prop) : hok s → here s r → lexes r ts → h0 ⊆ sheap s → 0 < a ≤ sbrk s → R a (sheap s) →
  outcome_ok (Ret a s) (sbrk s) h0 0 ts R.
Proof.
  intros Hh Hr Hl Hh0 Ha HR. rewrite /outcome_ok Z.add_0_r (proj2 (Z.leb_le _ _) (proj2 (proj1 Hh))). exists a, s. split; [done|]. split; [|done].
  split; [by exists r|done|done|lia].
Qed.

(** A run agrees with the result of the parser on tokens. *)
Definition agrees {X} (o : outcome sh Z) (b0 : Z) (h0 : gmap Z cmd) (res : parsed X) (cost : X → Z) (R : X → Z → gmap Z cmd → Prop) : Prop :=
  match res with POk x ts' => outcome_ok o b0 h0 (cost x) ts' (R x) | PErr => o = Panic | PFuel => True end.

Lemma agrees_bind {X Y} (m : M sh Z) (k : Z → M sh Z) s b0 h0 h1 (res1 : parsed X) (kk : X → list token → parsed Y) c1 cY R1 RY :
  agrees (m s) b0 h1 res1 c1 R1 →
  (∀ x ts1 a s1, res1 = POk x ts1 → parses h1 s1 (b0 + c1 x) ts1 → 0 < a ≤ sbrk s1 → R1 x a (sheap s1) →
     agrees (k a s1) (sbrk s1) h0 (kk x ts1) (λ y, cY y - c1 x) RY) →
  (∀ x ts1 y ts2, res1 = POk x ts1 → kk x ts1 = POk y ts2 → c1 x ≤ cY y) →
  agrees ((m ≫= k) s) b0 h0 (pbind kk res1) cY RY.
Proof.
  intros H1 Hk Hc. destruct res1 as [x ts1| |]; [|by apply bind_panic|done]. cbn [pbind agrees] in *.
  specialize (Hk x ts1). specialize (Hc x ts1). destruct (kk x ts1) as [y ts2| |] eqn:Ek;
    [|eapply ok_panic; [exact H1|]; intros a s1 ???; by apply (Hk a s1)|done].
  specialize (Hc y ts2 eq_refl eq_refl). pose proof (ok_bind m k s b0 h0 h1 (c1 x) (cY y - c1 x) ts1 ts2 (R1 x) (RY y) ltac:(lia) H1) as Hb.
  rewrite Zplus_minus in Hb. apply Hb. intros a s1 Hp Ha HR. exact (Hk a s1 eq_refl Hp Ha HR).
Qed.

Lemma agrees_peek {X} toks (k : bool → M sh Z) s r ts b0 h0 (res : parsed X) c R :
  hok s → here s r → lexes r ts →
  (∀ s1 r1, hok s1 → here s1 r1 → lexes r1 ts → sheap s1 = sheap s → sbrk s1 = sbrk s → agrees (k (test toks ts) s1) b0 h0 res c R) →
  agrees ((peek es toks ≫= k) s) b0 h0 res c R.
Proof.
  intros Hh Hr Hl Hk. destruct (peek_run str junk s r ts toks Hr Hl) as (p & r' & Hrun & Hr' & Hl' & _).
  rewrite (bind_run _ _ _ _ _ Hrun). by apply (Hk (set_spos p s) r').
Qed.
Lemma agrees_tok {X} (k : Z * nat * nat → M sh Z) s r t ts b0 h0 (res : parsed X) c R :
  hok s → here s r → lexes r (t :: ts) →
  (∀ q e s1 r1, hok s1 → here s1 r1 → lexes r1 ts → tok_at str q e t → sheap s1 = sheap s → sbrk s1 = sbrk s →
     agrees (k (code t, q, e) s1) b0 h0 res c R) →
  agrees ((gettoken es ≫= k) s) b0 h0 res c R.
Proof.
  intros Hh Hr Hl Hk. destruct (gettoken_run str junk s r t ts Hr Hl) as (q & e & p & r' & Hrun & Hr' & Hl' & Ht).
  rewrite (bind_run _ _ _ _ _ Hrun). by apply (Hk q e (set_spos p s) r').
Qed.
Lemma agrees_tok_end {X} (k : Z * nat * nat → M sh Z) s r b0 h0 (res : parsed X) c R :
  hok s → here s r → lexes r [] →
  (∀ q e s1, hok s1 → here s1 [] → sheap s1 = sheap s → sbrk s1 = sbrk s → agrees (k (0, q, e) s1) b0 h0 res c R) →
  agrees ((gettoken es ≫= k) s) b0 h0 res c R.
Proof.
  intros Hh Hr Hl Hk. destruct (gettoken_end str junk s r Hr Hl) as [Hrun Hr'].
  rewrite (bind_run _ _ _ _ _ Hrun). by apply Hk.
Qed.

Lemma agrees_map {X Y} o b0 h0 (res : parsed X) c R (f : X → Y) c' R' :
  agrees o b0 h0 res c R → (∀ x, c x = c' (f x)) → (∀ x a h, R x a h → R' (f x) a h) → agrees o b0 h0 (pbind (λ x ts, POk (f x) ts) res) c' R'.
Proof.
  intros H Hc HR. destruct res as [x ts| |]; [|done..]. cbn [pbind agrees] in *. rewrite /outcome_ok -Hc in H |- *. destruct (_ <=? _); [|done].
  destruct H as (a & s' & H1 & H2 & H3 & H4). exists a, s'. split; [done|]. split; [done|]. split; [done|]. by apply HR.
Qed.
Lemma here_length s r ts : here s r → lexes r ts → (length ts ≤ es)%nat.
Proof. intros (_ & pre & -> & _) Hl%lexes_length. rewrite length_app. lia. Qed.

(** ** Redirections: a chain of nodes from [a], the last one first, down to [c] *)
Definition r_word (r : redir) : list Z := match r with RIn w | ROut w | RApp w => w end.
Definition r_mode (r : redir) : Z := match r with RIn _ => O_RDONLY | _ => Z.lor O_WRONLY O_CREAT end.
Definition r_fd (r : redir) : Z := match r with RIn _ => 0 | _ => 1 end.
Fixpoint chain (h : gmap Z cmd) (a : Z) (rs : list redir) (c : Z) : Prop :=
  match rs with
  | [] => a = c
  | r :: rs => ∃ b q e, h !! a = Some (RedirCmd b q e (r_mode r) (r_fd r)) ∧ 0 < b < a ∧ word_at q e (r_word r) ∧ chain h b rs c
  end.
Lemma chain_mono h h' rs c : (∀ x b q e mo fd, h !! x = Some (RedirCmd b q e mo fd) → h' !! x = Some (RedirCmd b q e mo fd)) →
  ∀ a, chain h a rs c → chain h' a rs c.
Proof.
  intros Hh. induction rs as [|r rs IH]; intros a; [done|]. cbn [chain]. intros (b & q & e & Hn & ? & ? & ?). exists b, q, e. split_and!; auto; lia.
Qed.
Lemma chain_tree h rs c t : cmd_at word_at h c t → ∀ a, chain h a (reverse rs) c → cmd_at word_at h a (foldl redirected t rs).
Proof.
  intros Hc. induction rs as [|r rs IH] using rev_ind; intros a; [by intros ->|]. rewrite reverse_app foldl_app. cbn [chain reverse rev_append app].
  intros (b & q & e & Hn & Hb & Hw & Hch). cbn [foldl]. apply IH in Hch. destruct r; by exists b, q, e.
Qed.

Notation parseredirs := (parseredirs O_RDONLY O_WRONLY O_CREAT).
Definition redirs_spec (fuel : nat) (ts : list token) : Prop := ∀ s r ret rrs c h0,
  hok s → here s r → lexes r ts → 0 < ret ≤ sbrk s → chain (sheap s) ret rrs c → h0 ⊆ sheap s →
  agrees (parseredirs fuel es ret s) (sbrk s) h0 (p_redirs ts) (λ rs, 40 * Z.of_nat (length rs)) (λ rs a h, chain h a (reverse rs ++ rrs) c).

Definition word_of (ts : list token) : option (list Z * list token) := match ts with Word w :: ts => Some (w, ts) | _ => None end.
(** The file name after the symbol. *)
Lemma redir_word fuel s r ts ret rrs c h0 (mk : list Z → redir) (k : nat → nat → M sh Z) :
  (∀ q e w, k q e = redircmd ret q e (r_mode (mk w)) (r_fd (mk w))) → (∀ w, r_word (mk w) = w) →
  (∀ w ts', word_of ts = Some (w, ts') → redirs_spec fuel ts') →
  hok s → here s r → lexes r ts → 0 < ret ≤ sbrk s → chain (sheap s) ret rrs c → h0 ⊆ sheap s →
  agrees ((x ← gettoken es; let '(t, q, eq) := x in if negb (t =? 97) then panic else cmd ← k q eq; parseredirs fuel es cmd) s) (sbrk s) h0
    (match word_of ts with Some (w, ts') => pbind (λ rs ts, POk (mk w :: rs) ts) (p_redirs ts') | None => PErr end)
    (λ rs, 40 * Z.of_nat (length rs)) (λ rs a h, chain h a (reverse rs ++ rrs) c).
Proof.
  intros Hk Hw IH Hh Hr Hl Hret Hch Hh0. destruct ts as [|t ts]; [eapply agrees_tok_end; try eassumption; done|].
  eapply agrees_tok; try eassumption. intros q e s1 r1 Hh1 Hr1 Hl1 Ht E1 E2. destruct t as [d| | |w]; try done; cbn [word_of code].
  - apply lexes_wf, Forall_cons in Hl as [Hd _]. simpl in Hd. replace (d =? 97) with false; [done|]. symmetry. apply Z.eqb_neq. intros ->. set_solver.
  - change (negb (97 =? 97)) with false. cbn iota. rewrite (Hk q e w).
    eapply (agrees_bind _ _ s1 _ h0 h0 (POk (mk w) ts) (λ r ts, pbind (λ rs ts, POk (r :: rs) ts) (p_redirs ts)) (λ _, 40) _
      (λ r a h, chain h a (r :: rrs) c)).
    + cbn [agrees]. rewrite -E2. apply (ok_new 40 _ s1 r1); [done|done|done|done|by rewrite E1|]. cbn [chain]. exists ret, q, e. rewrite /allocated /= E1 E2.
      split_and!; [apply lookup_insert_eq|lia|lia|by rewrite Hw|]. eapply chain_mono; [|exact Hch]. intros x b q' e' mo fd Hx.
      rewrite /= lookup_insert_ne; [|done]. destruct Hh as [_ Hh]. specialize (Hh _ _ Hx). lia.
    + intros x ts1 a s2 [= <- <-] Hp Ha Hc. destruct (pa_here _ _ _ _ Hp) as (r2 & Hr2 & Hl2).
      pose proof (IH w ts eq_refl s2 r2 a (mk w :: rrs) c h0 (pa_hok _ _ _ _ Hp) Hr2 Hl2 Ha Hc (pa_heap _ _ _ _ Hp)) as H.
      destruct (p_redirs ts) as [rs ts2| |]; [|done..]. cbn [pbind agrees] in *.
      replace (40 * Z.of_nat (length (mk w :: rs)) - 40) with (40 * Z.of_nat (length rs)) by (simpl length; lia).
      rewrite reverse_cons -app_assoc. exact H.
    + intros x ts1 y ts2 [= <- <-]. destruct (p_redirs ts); [|done..]. intros [= <- <-]. simpl length. lia.
Qed.

Lemma redirs_none fuel ts : Forall tok_wf ts → no_redir ts → redirs_spec fuel ts.
Proof.
  intros Hwf Hn s r ret rrs c h0 Hh Hr Hl Hret Hch Hh0. destruct fuel; cbn [Sh.parseredirs]; eapply agrees_peek; try eassumption;
    intros s1 r1 Hh1 Hr1 Hl1 E1 E2; rewrite Hn; rewrite (p_redirs_complete [] ts Hn) //; cbn [agrees]; rewrite -E2;
    apply (ok_ret _ _ r1); rewrite ?E1 ?E2; done.
Qed.
Lemma parseredirs_run n : ∀ fuel ts, (length ts ≤ n)%nat → (length ts ≤ fuel)%nat → Forall tok_wf ts → redirs_spec fuel ts.
Proof.
  induction n as [|n IH]; intros fuel ts Hn Hf Hwf; (destruct (test [60; 62] ts) eqn:Et; [|by apply redirs_none]);
    (destruct ts as [|t ts]; [done|]); simpl in Hn, Hf; [lia|]. destruct fuel as [|fuel]; [lia|].
  assert (Hwf' : Forall tok_wf ts) by (by apply Forall_cons in Hwf as [_ ?]).
  assert (IH' : ∀ w ts', word_of ts = Some (w, ts') → redirs_spec fuel ts').
  { intros w ts' E. destruct ts as [|[]ts]; simplify_eq/=. apply IH; [lia|lia|]. by apply Forall_cons in Hwf' as [_ ?]. }
  intros s r ret rrs c h0 Hh Hr Hl Hret Hch Hh0. cbn [Sh.parseredirs]. eapply agrees_peek; try eassumption; intros s1 r1 Hh1 Hr1 Hl1 E1 E2. rewrite Et.
  eapply agrees_tok; try eassumption. intros q e s2 r2 Hh2 Hr2 Hl2 _ E3 E4. rewrite -E2 -E4 in Hret |- *. rewrite -E1 -E3 in Hch, Hh0.
  assert (Hpr : ∀ mk (k : nat → nat → M sh Z), p_redirs (t :: ts) = match word_of ts with Some (w, ts') => pbind (λ rs ts, POk (mk w :: rs) ts) (p_redirs ts') | None => PErr end →
    (∀ q e w, k q e = redircmd ret q e (r_mode (mk w)) (r_fd (mk w))) → (∀ w, r_word (mk w) = w) →
    agrees ((x ← gettoken es; let '(t, q, eq) := x in if negb (t =? 97) then panic else cmd ← k q eq; parseredirs fuel es cmd) s2) (sbrk s2) h0
      (p_redirs (t :: ts)) (λ rs, 40 * Z.of_nat (length rs)) (λ rs a h, chain h a (reverse rs ++ rrs) c)).
  { intros mk k -> Hk Hm. exact (redir_word fuel s2 r2 ts ret rrs c h0 mk k Hk Hm IH' Hh2 Hr2 Hl2 Hret Hch Hh0). }
  destruct t as [d| | |w]; cbn [code].
  - apply Forall_cons in Hwf as [Hd _]. rewrite test_sym // in Et. apply bool_decide_eq_true in Et. assert (d = 60) as ->.
    { simpl in Hd. rewrite !elem_of_cons in Et. destruct Et as [->|[->|?%elem_of_nil]]; [done|set_solver|done]. }
    apply (Hpr RIn); [by destruct ts as [|[]]|done|done].
  - apply (Hpr ROut); [by destruct ts as [|[]]|done|done].
  - apply (Hpr RApp); [by destruct ts as [|[]]|done|done].
  - apply Forall_cons in Hwf as [Hd _]. rewrite test_word // in Et. by repeat constructor; set_solver.
Qed.

(** ** Simple commands *)
Notation exec_loop := (exec_loop O_RDONLY O_WRONLY O_CREAT).
Definition node (ps : list (nat * nat)) : cmd :=
  ExecCmd ((Some ∘ fst <$> ps) ++ replicate (MAXARGS - length ps) None) ((Some ∘ snd <$> ps) ++ replicate (MAXARGS - length ps) None).
Lemma insert_arg (ps : list (nat * nat)) (f : nat * nat → nat) x :
  (length ps < MAXARGS)%nat →
  <[length ps := Some (f x)]> ((Some ∘ f <$> ps) ++ replicate (MAXARGS - length ps) None) = (Some ∘ f <$> ps ++ [x]) ++ replicate (MAXARGS - length (ps ++ [x])) None.
Proof.
  intros Hl. rewrite fmap_app length_app /= -app_assoc. rewrite -{1}(Nat.add_0_r (length ps)) -{1}(length_fmap (Some ∘ f) ps) insert_app_r. f_equal.
  replace (MAXARGS - length ps)%nat with (S (MAXARGS - (length ps + 1))) by lia. done.
Qed.
Lemma insert_none (ps : list (nat * nat)) (f : nat * nat → nat) :
  <[length ps := None]> ((Some ∘ f <$> ps) ++ replicate (MAXARGS - length ps) None) = (Some ∘ f <$> ps) ++ replicate (MAXARGS - length ps) None.
Proof.
  rewrite -{1}(Nat.add_0_r (length ps)) -{1}(length_fmap (Some ∘ f) ps) insert_app_r. f_equal. by destruct (MAXARGS - length ps)%nat.
Qed.
Lemma set_arg_run s a ps q e : exec_node (sheap s) a ps →
  set_arg a (length ps) (Some q) (Some e) s = Ret () (set_sheap (<[a := node (ps ++ [(q, e)])]> (sheap s)) s).
Proof.
  intros [Hl Hn]. rewrite /set_arg (bind_run _ _ _ (node ps) s); [rewrite /get_cmd; run_simpl; by rewrite Hn|].
  rewrite /node. rewrite (proj2 (Nat.ltb_lt _ _)).
  { rewrite length_app length_fmap length_replicate. lia. }
  rewrite (insert_arg ps fst (q, e) Hl) (insert_arg ps snd (q, e) Hl). done.
Qed.
Lemma set_arg_end s a ps : exec_node (sheap s) a ps → set_arg a (length ps) None None s = Ret () s.
Proof.
  intros [Hl Hn]. rewrite /set_arg (bind_run _ _ _ (node ps) s); [rewrite /get_cmd; run_simpl; by rewrite Hn|].
  rewrite /node. rewrite (proj2 (Nat.ltb_lt _ _)).
  { rewrite length_app length_fmap length_replicate. lia. }
  rewrite !insert_none /set_cmd /modify insert_id //. by destruct s.
Qed.

Definition exec_spec (fuel n : nat) (ts : list token) : Prop := ∀ s r ret rrs c ps h0,
  hok s → here s r → lexes r ts → 0 < ret ≤ sbrk s → chain (sheap s) ret rrs c → exec_node (sheap s) c ps → h0 ⊆ sheap s → h0 !! c = None →
  agrees (exec_loop fuel es c ret (length ps) s) (sbrk s) h0 (p_args n (length ps) ts) (λ its, 40 * Z.of_nat (length (redirs its)))
    (λ its a h, chain h a (reverse (redirs its) ++ rrs) c ∧ ∃ ps', exec_node h c (ps ++ ps') ∧ Forall2 (λ p w, word_at p.1 p.2 w) ps' (args its)).

(** The end of the arguments. *)
Lemma exec_done s r ts ret rrs c ps h0 : hok s → here s r → lexes r ts → 0 < ret ≤ sbrk s → chain (sheap s) ret rrs c → exec_node (sheap s) c ps → h0 ⊆ sheap s →
  agrees ((set_arg c (length ps) None None;; mret ret) s) (sbrk s) h0 (POk [] ts) (λ its, 40 * Z.of_nat (length (redirs its)))
    (λ its a h, chain h a (reverse (redirs its) ++ rrs) c ∧ ∃ ps', exec_node h c (ps ++ ps') ∧ Forall2 (λ p w, word_at p.1 p.2 w) ps' (args its)).
Proof.
  intros Hh Hr Hl Hret Hch Hn Hh0. rewrite (bind_run _ _ _ _ _ (set_arg_end s c ps Hn)). cbn [agrees]. apply (ok_ret _ _ r); try done.
  split; [done|]. exists []. by rewrite app_nil_r.
Qed.
Lemma exec_loop_run n : ∀ fuel ts, (length ts < fuel)%nat → Forall tok_wf ts → exec_spec fuel n ts.
Proof.
  induction n as [|n IH]; intros fuel ts Hf Hwf s r ret rrs c ps h0 Hh Hr Hl Hret Hch Hn Hh0 Hc.
  all: destruct fuel as [|fuel]; [lia|]; cbn [Sh.exec_loop]; eapply agrees_peek; try eassumption; intros s1 r1 Hh1 Hr1 Hl1 E1 E2.
  all: rewrite -E2 in Hret |- *; rewrite -E1 in Hch, Hn, Hh0; destruct ts as [|t ts]; cbn [test p_args].
  1,3: eapply agrees_tok_end; try eassumption; intros q e s2 Hh2 Hr2 E3 E4; rewrite -E4 in Hret |- *; rewrite -E3 in Hch, Hn, Hh0; cbn [Z.eqb];
    apply (exec_done _ []); try done; constructor; constructor.
  all: change (strchr [124; 41; 38; 59] (first_char t)) with (stops t); destruct (stops t); [by apply (exec_done _ r1)|].
  - eapply agrees_tok; try eassumption. done.
  - eapply agrees_tok; try eassumption. intros q e s2 r2 Hh2 Hr2 Hl2 Ht E3 E4. rewrite -E4 in Hret |- *. rewrite -E3 in Hch, Hn, Hh0.
    pose proof Hwf as [Hwt Hwf']%Forall_cons. destruct t as [d| | |w]; try done.
    + cbn [code agrees]. simpl in Hwt. replace (d =? 0) with false; [|symmetry; apply Z.eqb_neq; intros ->; set_solver].
      replace (d =? 97) with false; [done|]. symmetry. apply Z.eqb_neq. intros ->. set_solver.
    + cbn [code]. change (97 =? 0) with false. change (negb (97 =? 97)) with false. cbn iota.
      rewrite (bind_run _ _ _ _ _ (set_arg_run s2 c ps q e Hn)). destruct (MAXARGS <=? S (length ps))%nat eqn:Em; [done|]. apply Nat.leb_gt in Em.
      set (s3 := set_sheap _ s2). assert (Hb : sbrk s3 = sbrk s2) by done. rewrite -Hb in Hret |- *.
      assert (Hnc : ∀ x b q e mo fd, sheap s2 !! x = Some (RedirCmd b q e mo fd) → x ≠ c) by (intros x b q' e' mo fd Hx ->; destruct Hn as [_ Hn]; congruence).
      assert (Hh3 : hok s3).
      { destruct Hh2 as [? Hh2]. split; [done|]. intros x y Hx. rewrite /s3 /= in Hx. apply lookup_insert_Some in Hx as [[<- <-]|[_ Hx]]; [|exact (Hh2 _ _ Hx)]. destruct Hn as [_ Hn]. exact (Hh2 _ _ Hn). }
      assert (Hch3 : chain (sheap s3) ret rrs c).
      { eapply chain_mono; [|exact Hch]. intros x b q' e' mo fd Hx. rewrite /s3 /= lookup_insert_ne //. pose proof (Hnc _ _ _ _ _ _ Hx). congruence. }
      pose proof (here_length _ _ _ Hr2 Hl2) as Hlen.
      eapply (agrees_bind _ _ s3 _ h0 (sheap s3)).
      * apply (parseredirs_run (length ts) (S es) ts (le_n _) ltac:(lia) Hwf' s3 r2 ret rrs c); done.
      * intros rs ts1 a s4 Er Hp Ha Hch4. destruct (pa_here _ _ _ _ Hp) as (r4 & Hr4 & Hl4). pose proof (p_redirs_length _ _ _ Er) as Hlen1. simpl in Hf.
        assert (Hn4 : exec_node (sheap s4) c (ps ++ [(q, e)])).
        { split; [rewrite length_app /=; lia|]. eapply lookup_weaken; [|exact (pa_heap _ _ _ _ Hp)]. apply lookup_insert_eq. }
        assert (Hh04 : h0 ⊆ sheap s4).
        { etrans; [|exact (pa_heap _ _ _ _ Hp)]. apply insert_subseteq_r; done. }
        pose proof (IH fuel ts1 ltac:(lia) (lexes_wf _ _ Hl4) s4 r4 a (reverse rs ++ rrs) c (ps ++ [(q, e)]) h0 (pa_hok _ _ _ _ Hp) Hr4 Hl4 Ha Hch4 Hn4 Hh04 Hc) as H.
        rewrite length_app Nat.add_1_r in H. eapply (agrees_map _ _ _ _ _ _ (λ its, Arg w :: (Red <$> rs) ++ its)); [exact H| |].
        -- intros its. simpl. rewrite redirs_app redirs_reds length_app. lia.
        -- intros its a' h' [H1 (ps' & H2 & H3)]. simpl. rewrite redirs_app redirs_reds reverse_app -app_assoc. split; [done|].
           exists ((q, e) :: ps'). rewrite -app_assoc in H2. split; [done|]. rewrite args_app args_reds. by constructor.
      * intros rs ts1 y ts2 _. destruct (p_args n (S (length ps)) ts1) as [its ts3| |]; [|done..]. intros [= <- <-]. simpl.
        rewrite redirs_app redirs_reds length_app. lia.
Qed.

(** ** Lines *)
Lemma back_loop_run n : ∀ fuel ts s r cmd t h0, (length ts ≤ n)%nat → (length ts ≤ fuel)%nat → Forall tok_wf ts →
  hok s → here s r → lexes r ts → 0 < cmd ≤ sbrk s → cmd_at word_at (sheap s) cmd t → h0 ⊆ sheap s →
  agrees (back_loop fuel es cmd s) (sbrk s) h0 (POk (p_back ts).1 (p_back ts).2) (λ n, 16 * Z.of_nat n) (λ n a h, cmd_at word_at h a (backs n t)).
Proof.
  induction n as [|n IH]; intros fuel ts s r cmd t h0 Hn Hf Hwf Hh Hr Hl Hcmd Ht Hh0.
  all: destruct fuel as [|fuel]; cbn [back_loop]; eapply agrees_peek; try eassumption; intros s1 r1 Hh1 Hr1 Hl1 E1 E2; rewrite -E2 in Hcmd |- *; rewrite -E1 in Ht, Hh0.
  all: destruct (test [38] ts) eqn:Et;
    [apply test_is in Et as [ts0 ->]; [|done|set_solver]; simpl in Hn, Hf; try lia
    |assert (Hb : p_back ts = (0%nat, ts)) by (apply (p_back_complete 0); intros ts0 ->; rewrite test_here // in Et; by apply Forall_cons in Hwf as [? _]);
     rewrite Hb; cbn [fst snd]; by apply (ok_ret _ _ r1)].
  eapply agrees_tok; try eassumption. intros q e s2 r2 Hh2 Hr2 Hl2 _ E3 E4. rewrite -E4 in Hcmd |- *. rewrite -E3 in Ht, Hh0. cbn [p_back]. change (38 =? 38) with true. cbn iota.
  destruct (p_back ts0) as [m ts'] eqn:Eb. cbn [fst snd].
  apply (agrees_bind (backcmd cmd) _ s2 (sbrk s2) h0 (sheap s2) (POk () ts0) (λ _ _, POk (S m) ts') (λ _, 16) _ (λ _ a h, cmd_at word_at h a (TBack t))).
  - cbn [agrees]. apply (ok_new 16 _ s2 r2); try done. exists cmd. split; [apply lookup_insert_eq|]. split; [lia|].
    exact (cmd_at_weaken _ _ _ _ _ (allocated_sub 16 _ s2 Hh2) Ht).
  - intros [] ts1 a s3 [= <-] Hp Ha Hc. destruct (pa_here _ _ _ _ Hp) as (r3 & Hr3 & Hl3). apply Forall_cons in Hwf as [_ Hwf].
    pose proof (IH fuel ts0 s3 r3 a (TBack t) h0 ltac:(lia) ltac:(lia) Hwf (pa_hok _ _ _ _ Hp) Hr3 Hl3 Ha Hc (transitivity Hh0 (pa_heap _ _ _ _ Hp))) as H.
    rewrite Eb in H. cbn [agrees fst snd] in *. replace (16 * Z.of_nat (S m) - 16) with (16 * Z.of_nat m) by lia. exact H.
  - intros [] ts1 y ts2 _ [= <- _]. lia.
Qed.

Notation parseline := (parseline O_RDONLY O_WRONLY O_CREAT).
Notation parsepipe := (parsepipe O_RDONLY O_WRONLY O_CREAT).
Notation parseexec := (parseexec O_RDONLY O_WRONLY O_CREAT).
Notation parseblock := (parseblock O_RDONLY O_WRONLY O_CREAT).

(** A command made of two that have been parsed. *)
Lemma two_cmds sz (mk : Z → Z → cmd) (T : tree → tree → tree) s r ts h0 a b t1 t2 :
  0 < sz → (∀ h x, h !! x = Some (mk a b) → 0 < a < x → 0 < b < x → cmd_at word_at h a t1 → cmd_at word_at h b t2 → cmd_at word_at h x (T t1 t2)) →
  hok s → here s r → lexes r ts → h0 ⊆ sheap s → 0 < a ≤ sbrk s → 0 < b ≤ sbrk s → cmd_at word_at (sheap s) a t1 → cmd_at word_at (sheap s) b t2 →
  outcome_ok (new_cmd sz (mk a b) s) (sbrk s) h0 sz ts (λ x h, cmd_at word_at h x (T t1 t2)).
Proof.
  intros Hsz HT Hh Hr Hl Hh0 Ha Hb H1 H2. apply (ok_new sz _ s r); try done. pose proof (allocated_sub sz (mk a b) s Hh) as Hs.
  apply HT; [apply lookup_insert_eq|lia|lia|exact (cmd_at_weaken _ _ _ _ _ Hs H1)|exact (cmd_at_weaken _ _ _ _ _ Hs H2)].
Qed.

Lemma sizes_pos : (∀ l, 0 ≤ line_size l) ∧ (∀ p, 0 ≤ pipe_size p) ∧ (∀ e, 0 ≤ exec_size e).
Proof. apply line_pipe_exec_ind; intros; simpl; lia. Qed.

Definition line_spec (fuel : nat) (ts : list token) : Prop := ∀ s r h0, hok s → here s r → lexes r ts → h0 ⊆ sheap s →
  agrees (parseline fuel es s) (sbrk s) h0 (p_line fuel ts) line_size (λ l a h, cmd_at word_at h a (line_tree l)).
Definition pipe_spec (fuel : nat) (ts : list token) : Prop := ∀ s r h0, hok s → here s r → lexes r ts → h0 ⊆ sheap s →
  agrees (parsepipe fuel es s) (sbrk s) h0 (p_pipe fuel ts) pipe_size (λ p a h, cmd_at word_at h a (pipe_tree p)).
Definition exec_cmd_spec (fuel : nat) (ts : list token) : Prop := ∀ s r h0, hok s → here s r → lexes r ts → h0 ⊆ sheap s →
  agrees (parseexec fuel es s) (sbrk s) h0 (p_exec fuel ts) exec_size (λ e a h, cmd_at word_at h a (exec_tree e)).
Definition block_spec (fuel : nat) (ts : list token) : Prop := ∀ s r h0, hok s → here s r → lexes r (Sym 40 :: ts) → h0 ⊆ sheap s →
  agrees (parseblock fuel es s) (sbrk s) h0 (p_block fuel (Sym 40 :: ts)) exec_size (λ e a h, cmd_at word_at h a (exec_tree e)).

Lemma line_step fuel : (∀ ts, pipe_spec fuel ts) → (∀ ts, line_spec fuel ts) → ∀ ts, line_spec (S fuel) ts.
Proof.
  intros IHp IHl ts s r h0 Hh Hr Hl Hh0. cbn [Sh.parseline p_line].
  eapply (agrees_bind _ _ s (sbrk s) h0 (sheap s)); [by apply IHp with r| |].
  - intros p ts1 a s1 _ Hp1 Ha1 Hc1. destruct (pa_here _ _ _ _ Hp1) as (r1 & Hr1 & Hl1). pose proof (lexes_wf _ _ Hl1) as Hwf.
    pose proof (here_length _ _ _ Hr1 Hl1) as Hlen. destruct (p_back ts1) as [bg ts2] eqn:Eb.
    pose proof (back_loop_run (length ts1) (S es) ts1 s1 r1 a (pipe_tree p) (sheap s1) (le_n _) ltac:(lia) Hwf (pa_hok _ _ _ _ Hp1) Hr1 Hl1 Ha1 Hc1 (reflexivity _)) as Hback.
    rewrite Eb in Hback. cbn [fst snd] in Hback.
    pose proof (proj1 (proj2 sizes_pos) p) as Hps. pose proof (proj1 sizes_pos) as Hls.
    assert (H01 : h0 ⊆ sheap s1) by exact (transitivity Hh0 (pa_heap _ _ _ _ Hp1)).
    apply (agrees_bind _ _ s1 (sbrk s1) h0 (sheap s1) (POk bg ts2) (λ bg ts, if test [59] ts then pbind (λ l ts, POk (LSeq p bg l) ts) (p_line fuel (tail ts)) else POk (LEnd p bg) ts)
      (λ n, 16 * Z.of_nat n) _ (λ n a h, cmd_at word_at h a (backs n (pipe_tree p))) _ Hback); last first.
    { intros n ts3 y ts4 [= <- <-]. destruct (test [59] ts2); [destruct (p_line fuel (tail ts2)) as [l ts5| |]; [|done..]|]; intros [= <- <-]; simpl; [|lia].
      specialize (Hls l). lia. }
    intros n ts3 b s2 [= <- <-] Hp2 Ha2 Hc2. destruct (pa_here _ _ _ _ Hp2) as (r2 & Hr2 & Hl2). pose proof (lexes_wf _ _ Hl2) as Hwf2.
    assert (H02 : h0 ⊆ sheap s2) by exact (transitivity H01 (pa_heap _ _ _ _ Hp2)).
    eapply agrees_peek; [exact (pa_hok _ _ _ _ Hp2)|exact Hr2|exact Hl2|]. intros s3 r3 Hh3 Hr3 Hl3 E3 E3'. rewrite -E3' -E3 in Ha2, Hc2, H02 |- *.
    destruct (test [59] ts2) eqn:Et.
    + apply test_is in Et as [ts4 ->]; [|done|set_solver]. cbn [tail]. eapply agrees_tok; [exact Hh3|exact Hr3|exact Hl3|].
      intros q e s4 r4 Hh4 Hr4 Hl4 _ E4 E4'. rewrite -E4' -E4 in Ha2, Hc2, H02 |- *.
      eapply (agrees_bind _ _ s4 (sbrk s4) h0 (sheap s4)); [by apply IHl with r4| |].
      * intros l ts5 x s5 _ Hp5 Hx Hc5. destruct (pa_here _ _ _ _ Hp5) as (r5 & Hr5 & Hl5). cbn [agrees line_size line_tree].
        replace (pipe_size p + 16 * Z.of_nat bg + line_size l + 24 - pipe_size p - 16 * Z.of_nat bg - line_size l) with 24 by lia.
        apply (two_cmds 24 ListCmd TList s5 r5); try done; [|exact (pa_hok _ _ _ _ Hp5)|exact (transitivity H02 (pa_heap _ _ _ _ Hp5))| |exact (cmd_at_weaken _ _ _ _ _ (pa_heap _ _ _ _ Hp5) Hc2)].
        -- intros h y Hy ? ? ? ?. by exists b, x.
        -- rewrite (pa_brk _ _ _ _ Hp5). pose proof (Hls l). lia.
      * intros l ts5 y ts6 _ [= <- <-]. simpl. lia.
    + cbn [agrees line_size line_tree]. replace (pipe_size p + 16 * Z.of_nat bg - pipe_size p - 16 * Z.of_nat bg) with 0 by lia. by apply (ok_ret _ _ r3).
  - intros p ts1 y ts2 _. destruct (p_back ts1) as [bg ts3]. pose proof (proj1 sizes_pos) as Hls.
    destruct (test [59] ts3); [destruct (p_line fuel (tail ts3)) as [l ts5| |]; [|done..]|]; intros [= <- <-]; simpl; [specialize (Hls l)|]; lia.
Qed.

Lemma pipe_step fuel : (∀ ts, exec_cmd_spec fuel ts) → (∀ ts, pipe_spec fuel ts) → ∀ ts, pipe_spec (S fuel) ts.
Proof.
  intros IHe IHp ts s r h0 Hh Hr Hl Hh0. cbn [Sh.parsepipe p_pipe]. pose proof (proj1 (proj2 sizes_pos)) as Hps.
  eapply (agrees_bind _ _ s (sbrk s) h0 (sheap s)); [by apply IHe with r| |].
  - intros e ts1 a s1 _ Hp1 Ha1 Hc1. destruct (pa_here _ _ _ _ Hp1) as (r1 & Hr1 & Hl1). pose proof (lexes_wf _ _ Hl1) as Hwf.
    assert (H01 : h0 ⊆ sheap s1) by exact (transitivity Hh0 (pa_heap _ _ _ _ Hp1)).
    eapply agrees_peek; [exact (pa_hok _ _ _ _ Hp1)|exact Hr1|exact Hl1|]. intros s3 r3 Hh3 Hr3 Hl3 E3 E3'. rewrite -E3' -E3 in Ha1, Hc1, H01 |- *.
    destruct (test [124] ts1) eqn:Et.
    + apply test_is in Et as [ts4 ->]; [|done|set_solver]. cbn [tail]. eapply agrees_tok; [exact Hh3|exact Hr3|exact Hl3|].
      intros q f s4 r4 Hh4 Hr4 Hl4 _ E4 E4'. rewrite -E4' -E4 in Ha1, Hc1, H01 |- *.
      eapply (agrees_bind _ _ s4 (sbrk s4) h0 (sheap s4)); [by apply IHp with r4| |].
      * intros p ts5 x s5 _ Hp5 Hx Hc5. destruct (pa_here _ _ _ _ Hp5) as (r5 & Hr5 & Hl5). cbn [agrees pipe_size pipe_tree].
        replace (exec_size e + pipe_size p + 24 - exec_size e - pipe_size p) with 24 by lia.
        apply (two_cmds 24 PipeCmd TPipe s5 r5); try done; [|exact (pa_hok _ _ _ _ Hp5)|exact (transitivity H01 (pa_heap _ _ _ _ Hp5))| |exact (cmd_at_weaken _ _ _ _ _ (pa_heap _ _ _ _ Hp5) Hc1)].
        -- intros h y Hy ? ? ? ?. by exists a, x.
        -- rewrite (pa_brk _ _ _ _ Hp5). pose proof (Hps p). lia.
      * intros p ts5 y ts6 _ [= <- <-]. simpl. lia.
    + cbn [agrees pipe_size pipe_tree]. rewrite Z.sub_diag. by apply (ok_ret _ _ r3).
  - intros e ts1 y ts2 _. destruct (test [124] ts1); [destruct (p_pipe fuel (tail ts1)) as [p ts5| |]; [|done..]|]; intros [= <- <-]; simpl; [specialize (Hps p)|]; lia.
Qed.

(** A command in parentheses and its redirections. *)
Lemma block_step fuel : (∀ ts, line_spec fuel ts) → ∀ ts, block_spec (S fuel) ts.
Proof.
  intros IHl ts s r h0 Hh Hr Hl Hh0. cbn [Sh.parseblock p_block tail]. pose proof (lexes_wf _ _ Hl) as [H40 _]%Forall_cons.
  eapply agrees_peek; [exact Hh|exact Hr|exact Hl|]. intros s1 r1 Hh1 Hr1 Hl1 E1 E1'. rewrite -E1' -E1 in Hh0 |- *. rewrite test_here //. cbn [negb].
  eapply agrees_tok; [exact Hh1|exact Hr1|exact Hl1|]. intros q f s2 r2 Hh2 Hr2 Hl2 _ E2 E2'. rewrite -E2' -E2 in Hh0 |- *.
  eapply (agrees_bind _ _ s2 (sbrk s2) h0 (sheap s2)); [by apply IHl with r2| |].
  - intros l ts1 a s3 _ Hp3 Ha3 Hc3. destruct (pa_here _ _ _ _ Hp3) as (r3 & Hr3 & Hl3). pose proof (lexes_wf _ _ Hl3) as Hwf.
    assert (H03 : h0 ⊆ sheap s3) by exact (transitivity Hh0 (pa_heap _ _ _ _ Hp3)).
    eapply agrees_peek; [exact (pa_hok _ _ _ _ Hp3)|exact Hr3|exact Hl3|]. intros s4 r4 Hh4 Hr4 Hl4 E4 E4'. rewrite -E4' -E4 in Ha3, Hc3, H03 |- *.
    destruct (test [41] ts1) eqn:Et; [|done]. cbn [negb]. apply test_is in Et as [ts4 ->]; [|done|set_solver]. cbn [tail].
    eapply agrees_tok; [exact Hh4|exact Hr4|exact Hl4|]. intros q' f' s5 r5 Hh5 Hr5 Hl5 _ E5 E5'. rewrite -E5' -E5 in Ha3, Hc3, H03 |- *.
    pose proof (here_length _ _ _ Hr5 Hl5) as Hlen.
    pose proof (parseredirs_run (length ts4) (S es) ts4 (le_n _) ltac:(lia) (lexes_wf _ _ Hl5) s5 r5 a [] a (sheap s5) Hh5 Hr5 Hl5 Ha3 eq_refl (reflexivity _)) as Hred.
    destruct (p_redirs ts4) as [rs ts6| |] eqn:Er; [|done|done]. cbn [pbind agrees] in *. cbn [exec_size exec_tree].
    replace (line_size l + 40 * Z.of_nat (length rs) - line_size l) with (40 * Z.of_nat (length rs)) by lia. revert Hred. rewrite /outcome_ok. destruct (_ <=? _); [|done].
    intros (x & s6 & Hrun & [P1 P2 P3 P4] & Hx & Hch). exists x, s6. split; [done|]. split; [split; [done|done|exact (transitivity H03 P3)|done]|]. split; [done|].
    rewrite app_nil_r in Hch. eapply chain_tree; [|exact Hch]. exact (cmd_at_weaken _ _ _ _ _ P3 Hc3).
  - intros l ts1 y ts2 _. destruct (test [41] ts1); [|done]. destruct (p_redirs (tail ts1)); [|done..]. intros [= <- <-]. simpl. lia.
Qed.

Lemma exec_step fuel : (∀ ts, block_spec fuel ts) → ∀ ts, exec_cmd_spec (S fuel) ts.
Proof.
  intros IHb ts s r h0 Hh Hr Hl Hh0. cbn [Sh.parseexec p_exec]. pose proof (lexes_wf _ _ Hl) as Hwf.
  eapply agrees_peek; [exact Hh|exact Hr|exact Hl|]. intros s1 r1 Hh1 Hr1 Hl1 E1 E1'. rewrite -E1' -E1 in Hh0 |- *.
  destruct (test [40] ts) eqn:Et; [apply test_is in Et as [ts4 ->]; [|done|set_solver]; by apply IHb with r1|].
  set (kk := λ (_ : ()) ts, pbind (λ rs ts, pbind (λ its ts, POk (Simple ((Red <$> rs) ++ its)) ts) (p_args (length ts) 0 ts)) (p_redirs ts)).
  assert (Hcost : ∀ rs its, 168 + 40 * Z.of_nat (length rs) ≤ exec_size (Simple ((Red <$> rs) ++ its))).
  { intros rs its. simpl. rewrite redirs_app redirs_reds length_app. lia. }
  apply (agrees_bind execcmd _ s1 (sbrk s1) h0 (sheap s1) (POk () ts) kk (λ _, 168) _ (λ _ a h, a = sbrk s1 + 1 ∧ exec_node h a [])).
  - cbn [agrees]. apply (ok_new 168 _ s1 r1); try done. split; [done|]. split; [rewrite /MAXARGS; simpl; lia|apply lookup_insert_eq].
  - intros [] ts1 c s2 [= <-] Hp2 Hc2 [-> Hn2]. destruct (pa_here _ _ _ _ Hp2) as (r2 & Hr2 & Hl2). pose proof (here_length _ _ _ Hr2 Hl2) as Hlen.
    set (c := sbrk s1 + 1) in *. assert (Hc0 : h0 !! c = None).
    { destruct (h0 !! c) as [x|] eqn:E; [|done]. pose proof (lookup_weaken _ _ _ _ E Hh0) as Hx. destruct Hh1 as [_ Hh1]. specialize (Hh1 _ _ Hx). lia. }
    rewrite /kk. eapply (agrees_bind _ _ s2 (sbrk s2) h0 (sheap s2)).
    + apply (parseredirs_run (length ts) (S es) ts (le_n _) ltac:(lia) Hwf s2 r2 c [] c); [exact (pa_hok _ _ _ _ Hp2)|done..].
    + intros rs ts1 a s3 Er Hp3 Ha3 Hch3. destruct (pa_here _ _ _ _ Hp3) as (r3 & Hr3 & Hl3). pose proof (here_length _ _ _ Hr3 Hl3) as Hlen3.
      rewrite app_nil_r in Hch3. assert (Hn3 : exec_node (sheap s3) c []) by (destruct Hn2 as [? Hn2]; split; [done|exact (lookup_weaken _ _ _ _ Hn2 (pa_heap _ _ _ _ Hp3))]).
      pose proof (exec_loop_run (length ts1) (S es) ts1 ltac:(lia) (lexes_wf _ _ Hl3) s3 r3 a (reverse rs) c [] h0 (pa_hok _ _ _ _ Hp3) Hr3 Hl3 Ha3 Hch3 Hn3
        (transitivity Hh0 (transitivity (pa_heap _ _ _ _ Hp2) (pa_heap _ _ _ _ Hp3))) Hc0) as H.
      eapply (agrees_map _ _ _ _ _ _ (λ its, Simple ((Red <$> rs) ++ its))); [exact H| |].
      * intros its. simpl. rewrite redirs_app redirs_reds length_app. lia.
      * intros its x h [H1 (ps & H2 & H3)]. cbn [exec_tree]. rewrite redirs_app redirs_reds args_app args_reds. eapply chain_tree; [|by rewrite reverse_app; exact H1].
        exists ps. done.
    + intros rs ts1 y ts2 _. destruct (p_args (length ts1) 0 ts1) as [its ts3| |]; [|done..]. intros [= <- <-]. specialize (Hcost rs its). lia.
  - intros [] ts1 y ts2 [= <-]. rewrite /kk. destruct (p_redirs ts) as [rs ts3| |]; [|done..]. cbn [pbind]. destruct (p_args _ 0 ts3) as [its ts4| |]; [|done..].
    intros [= <- <-]. specialize (Hcost rs its). lia.
Qed.

(** The parser of the shell does what the parser on tokens does. *)
Lemma parse_run fuel : (∀ ts, line_spec fuel ts) ∧ (∀ ts, pipe_spec fuel ts) ∧ (∀ ts, exec_cmd_spec fuel ts) ∧ (∀ ts, block_spec fuel ts).
Proof.
  induction fuel as [|fuel (IHl & IHp & IHe & IHb)]; [done|].
  split_and!; [by apply line_step|by apply pipe_step|by apply exec_step|by apply block_step].
Qed.
End parser.
