(* ===== verification/ShCmd.v ===== *)
(** * The shell's [parsecmd]: the strings, and the theorems *)

From stdpp Require Import base numbers list gmap.
From S2P Require Import Prelude Sh ShLex ShGrammar ShParse.

(** The C string at an index of a buffer. *)
Definition cstr (b : list Z) (q : nat) : list Z := take (sh_strlen (drop q b)) (drop q b).

Section strings.
Context (str junk : list Z).
Notation es := (length str).
Notation word_at := (word_at str).

(** ** Terminating the strings only overwrites characters that are not part of a word *)
Definition nulled (b : list Z) : Prop :=
  length b = length (str ++ 0 :: junk) ∧
  ∀ i, b !! i = (str ++ 0 :: junk) !! i ∨ (b !! i = Some 0 ∧ ∀ c, (str ++ [0]) !! i = Some c → is_word c = false).
Definition zeros (b b' : list Z) : Prop := ∀ i, b !! i = Some 0 → b' !! i = Some 0.
(** A word that has been terminated. *)
Definition ended (b : list Z) (q e : nat) (w : list Z) : Prop := word_at q e w ∧ b !! e = Some 0.
Lemma ended_mono b b' q e w : zeros b b' → ended b q e w → ended b' q e w.
Proof. intros H [? ?]. split; auto. Qed.

Lemma nulled_put b q e w : word_at q e w → nulled b →
  (e < length b)%nat ∧ nulled (<[e := 0]> b) ∧ zeros b (<[e := 0]> b) ∧ ended (<[e := 0]> b) q e w.
Proof.
  intros Hw [Hl Hb]. pose proof Hw as (pre & post & Hs & _ & He & (_ & _ & Hpost)). simpl in He, Hs.
  assert (Hlt : (e < length b)%nat) by (rewrite Hl length_app /=; rewrite Hs !length_app; lia). split_and!; [done| | |].
  - split; [by rewrite length_insert|]. intros i. destruct (decide (i = e)) as [->|Hne].
    + right. split; [by rewrite list_lookup_insert_eq|]. intros c. rewrite He Hs -!app_assoc app_assoc lookup_app_r; [rewrite length_app; lia|].
      rewrite length_app Nat.sub_diag. destruct post; simpl; intros [= <-]; [done|exact Hpost].
    + rewrite list_lookup_insert_ne; [congruence|apply Hb].
  - intros i Hi. destruct (decide (i = e)) as [->|Hne]; [by rewrite list_lookup_insert_eq|rewrite list_lookup_insert_ne; [congruence|done]].
  - split; [done|]. by rewrite list_lookup_insert_eq.
Qed.
Lemma put_nul_run s q e w : word_at q e w → nulled (sbuf s) → put_nul e s = Ret () (set_sbuf (<[e := 0]> (sbuf s)) s).
Proof.
  intros Hw Hb. destruct (nulled_put _ q e w Hw Hb) as (Hlt & _). rewrite /put_nul (bind_run _ _ _ (sbuf s) s) //.
  by rewrite (proj2 (Nat.ltb_lt _ _) Hlt).
Qed.

Lemma nul_args_run ps : ∀ ws k s, Forall2 (λ p w, word_at p.1 p.2 w) ps ws → nulled (sbuf s) → (0 < k)%nat →
  ∃ b, nul_args ((Some ∘ fst <$> ps) ++ replicate k None) ((Some ∘ snd <$> ps) ++ replicate k None) s = Ret () (set_sbuf b s) ∧
    nulled b ∧ zeros (sbuf s) b ∧ Forall2 (λ p w, ended b p.1 p.2 w) ps ws.
Proof.
  induction ps as [|[q e] ps IH]; intros ws k s Hf Hb Hk.
  - apply Forall2_nil_inv_l in Hf as ->. exists (sbuf s). destruct k; [lia|]. split_and!; [by destruct s|done|by intros i|constructor].
  - apply Forall2_cons_inv_l in Hf as (w & ws' & Hw & Hf & ->). simpl in Hw. destruct (nulled_put _ q e w Hw Hb) as (_ & Hb1 & Hz1 & He1).
    destruct (IH ws' k (set_sbuf (<[e := 0]> (sbuf s)) s) Hf Hb1 Hk) as (b & Hrun & Hb2 & Hz2 & Hf2). exists b. split_and!; [|done|intros i Hi; by apply Hz2, Hz1|].
    + cbn [fmap list_fmap app nul_args compose fst snd]. rewrite (bind_run _ _ _ _ _ (put_nul_run s q e w Hw Hb)). exact Hrun.
    + constructor; [|done]. by apply (ended_mono (<[e := 0]> (sbuf s))).
Qed.

Lemma nulterminate_run h t : ∀ fuel a s, sheap s = h → cmd_at word_at h a t → nulled (sbuf s) → 0 < a → a ≤ Z.of_nat fuel →
  ∃ b, nulterminate fuel a s = Ret () (set_sbuf b s) ∧ nulled b ∧ zeros (sbuf s) b ∧ cmd_at (ended b) h a t.
Proof.
  assert (Htwo : ∀ t1 t2 a1 a2 fuel s, sheap s = h →
    (∀ fuel a s, sheap s = h → cmd_at word_at h a t1 → nulled (sbuf s) → 0 < a → a ≤ Z.of_nat fuel →
      ∃ b, nulterminate fuel a s = Ret () (set_sbuf b s) ∧ nulled b ∧ zeros (sbuf s) b ∧ cmd_at (ended b) h a t1) →
    (∀ fuel a s, sheap s = h → cmd_at word_at h a t2 → nulled (sbuf s) → 0 < a → a ≤ Z.of_nat fuel →
      ∃ b, nulterminate fuel a s = Ret () (set_sbuf b s) ∧ nulled b ∧ zeros (sbuf s) b ∧ cmd_at (ended b) h a t2) →
    cmd_at word_at h a1 t1 → cmd_at word_at h a2 t2 → nulled (sbuf s) → 0 < a1 ≤ Z.of_nat fuel → 0 < a2 ≤ Z.of_nat fuel →
    ∃ b, (nulterminate fuel a1;; nulterminate fuel a2) s = Ret () (set_sbuf b s) ∧ nulled b ∧ zeros (sbuf s) b ∧ cmd_at (ended b) h a1 t1 ∧ cmd_at (ended b) h a2 t2).
  { intros t1 t2 a1 a2 fuel s Hh IH1 IH2 H1 H2 Hb Ha1 Ha2. destruct (IH1 fuel a1 s Hh H1 Hb ltac:(lia) ltac:(lia)) as (b1 & R1 & N1 & Z1 & C1).
    destruct (IH2 fuel a2 (set_sbuf b1 s) Hh H2 N1 ltac:(lia) ltac:(lia)) as (b2 & R2 & N2 & Z2 & C2).
    exists b2. split_and!; [by rewrite (bind_run _ _ _ _ _ R1) R2|done|intros i Hi; by apply Z2, Z1| |done].
    eapply cmd_at_mono; [|done|exact C1]. intros q e w. by apply ended_mono. }
  induction t as [ws|t IH w mode fd|t1 IH1 t2 IH2|t1 IH1 t2 IH2|t IH]; intros [|fuel] a s Hh Hc Hb Ha Hf; try lia; cbn [nulterminate cmd_at] in *.
  all: rewrite (proj2 (Z.eqb_neq a 0)); [lia|].
  - destruct Hc as (ps & [Hl Hn] & Hws). destruct (nul_args_run ps ws (MAXARGS - length ps) s Hws Hb ltac:(lia)) as (b & Hrun & Hb' & Hz & Hf').
    exists b. rewrite (bind_run _ _ _ (node ps) s); [rewrite /get_cmd; run_simpl; by rewrite Hh Hn|]. split_and!; [done..|]. by exists ps.
  - destruct Hc as (b & q & e & Hn & Hb' & Hw & Hc). rewrite (bind_run _ _ _ (RedirCmd b q e mode fd) s); [rewrite /get_cmd; run_simpl; by rewrite Hh Hn|].
    destruct (IH fuel b s Hh Hc Hb ltac:(lia) ltac:(lia)) as (b1 & R1 & N1 & Z1 & C1). destruct (nulled_put _ q e w Hw N1) as (_ & N2 & Z2 & E2).
    exists (<[e := 0]> b1). split_and!; [|done|intros i Hi; by apply Z2, Z1|].
    + by rewrite (bind_run _ _ _ _ _ R1) (put_nul_run _ q e w).
    + exists b, q, e. split_and!; [done|lia|lia|done|]. eapply cmd_at_mono; [|done|exact C1]. intros q' e' w'. by apply ended_mono.
  - destruct Hc as (b & c & Hn & Hb' & Hc' & H1 & H2). rewrite (bind_run _ _ _ (PipeCmd b c) s); [rewrite /get_cmd; run_simpl; by rewrite Hh Hn|].
    destruct (Htwo t1 t2 b c fuel s Hh IH1 IH2 H1 H2 Hb ltac:(lia) ltac:(lia)) as (b2 & R & N & Z & C1 & C2). exists b2. split_and!; [done..|]. by exists b, c.
  - destruct Hc as (b & c & Hn & Hb' & Hc' & H1 & H2). rewrite (bind_run _ _ _ (ListCmd b c) s); [rewrite /get_cmd; run_simpl; by rewrite Hh Hn|].
    destruct (Htwo t1 t2 b c fuel s Hh IH1 IH2 H1 H2 Hb ltac:(lia) ltac:(lia)) as (b2 & R & N & Z & C1 & C2). exists b2. split_and!; [done..|]. by exists b, c.
  - destruct Hc as (b & Hn & Hb' & H1). rewrite (bind_run _ _ _ (BackCmd b) s); [rewrite /get_cmd; run_simpl; by rewrite Hh Hn|].
    destruct (IH fuel b s Hh H1 Hb ltac:(lia) ltac:(lia)) as (b2 & R & N & Z & C1). exists b2. split_and!; [done..|]. by exists b.
Qed.

(** A terminated word is a C string. *)
Lemma strlen_word w r : Forall (λ c, c ≠ 0) w → sh_strlen (w ++ 0 :: r) = length w.
Proof. induction 1 as [|c w Hc _ IH]; [done|]. simpl. by rewrite (proj2 (Z.eqb_neq _ _) Hc) IH. Qed.
Lemma ended_cstr b q e w : nulled b → ended b q e w → cstr b q = w.
Proof.
  intros [Hl Hb] [(pre & post & Hs & Hq & He & (_ & Hw & _)) H0]. simpl in *.
  assert (E : drop q b = w ++ 0 :: drop (S e) b).
  { apply list_eq. intros j. rewrite lookup_drop lookup_app. destruct (w !! j) as [c|] eqn:Ej.
    - pose proof (lookup_lt_Some _ _ _ Ej) as Hj. rewrite Forall_lookup in Hw. specialize (Hw j c Ej).
      assert (Ec : str !! (q + j)%nat = Some c).
      { rewrite Hs Hq lookup_app_r; [lia|]. replace (length pre + j - length pre)%nat with j by lia. by apply lookup_app_l_Some. }
      destruct (Hb (q + j)%nat) as [->|[_ Hn]]; [by apply lookup_app_l_Some|]. rewrite (Hn c) in Hw; [by apply lookup_app_l_Some|done].
    - apply lookup_ge_None in Ej. destruct (j - length w)%nat as [|k] eqn:Ek; simpl.
      + replace (q + j)%nat with e by lia. done.
      + rewrite lookup_drop. f_equal. lia. }
  rewrite /cstr E. rewrite strlen_word; [|by rewrite take_app_length].
  eapply Forall_impl; [exact Hw|]. intros c Hc. simpl in Hc. by apply is_word_sym in Hc as (_ & _ & ?).
Qed.
End strings.

(** ** [parsecmd] *)
Section parsecmd.
Context (O_RDONLY O_WRONLY O_CREAT : Z) (str junk : list Z).
Notation parsecmd := (parsecmd O_RDONLY O_WRONLY O_CREAT).
Notation line_tree := (line_tree O_RDONLY O_WRONLY O_CREAT).

(** The process right after the fork: the line in its buffer, nothing allocated. *)
Definition sh_start : sh := mkSh (str ++ 0 :: junk) 0 ∅ 0.

(** The structures at [a] are the command [t], with its words as C strings. *)
Definition builds (s : sh) (a : Z) (t : tree) : Prop := cmd_at (λ q _ w, cstr (sbuf s) q = w) (sheap s) a t.

Lemma strlen_line : Forall (λ c, c ≠ 0) str → sh_strlen (str ++ 0 :: junk) = length str.
Proof. apply strlen_word. Qed.

(** The run, from the result of the parser on tokens. *)
Lemma parsecmd_run ts : Forall (λ c, c ≠ 0) str → lexes str ts →
  match p_line (4 * length str + 4) ts with
  | POk l [] =>
      if line_size l <=? MAXN then ∃ a s', parsecmd sh_start = Ret a s' ∧ builds s' a (line_tree l) ∧ 0 < a else parsecmd sh_start = Panic
  | _ => parsecmd sh_start = Panic
  end.
Proof.
  intros Hnz Hl. set (n := (4 * length str + 4)%nat).
  assert (Hh : hok sh_start) by (split; [done|intros a c Hx; by rewrite lookup_empty in Hx]).
  assert (Hr : here str junk sh_start str) by (split; [done|by exists []]).
  pose proof (proj1 (parse_run O_RDONLY O_WRONLY O_CREAT str junk n) ts sh_start str ∅ Hh Hr Hl (map_empty_subseteq _)) as H.
  assert (Hrun : parsecmd sh_start = (cmd ← parseline O_RDONLY O_WRONLY O_CREAT n (length str);
    _ ← peek (length str) []; s ← gets spos; if negb (s =? length str)%nat then panic
    else k ← gets (λ s, S (Z.to_nat (sbrk s))); nulterminate k cmd;; mret cmd) sh_start).
  { rewrite /Sh.parsecmd (bind_run _ _ _ () sh_start) // (bind_run _ _ _ (str ++ 0 :: junk) sh_start) //. by rewrite strlen_line. }
  rewrite !Hrun. destruct (p_line n ts) as [l ts'| |] eqn:Ep; last first.
  { exfalso. pose proof (lexes_length _ _ Hl). by apply (proj1 (p_fuel n) ts (lexes_wf _ _ Hl)); [rewrite /n; lia|]. }
  { by apply bind_panic. }
  cbn [agrees] in H. rewrite /outcome_ok in H. change (sbrk sh_start + line_size l) with (0 + line_size l) in H. rewrite Z.add_0_l in H.
  destruct (line_size l <=? MAXN); last first.
  { destruct ts'; by apply bind_panic. }
  destruct H as (a & s1 & Hrun1 & [(r1 & Hr1 & Hl1) Hh1 _ _] & Ha & Hc). rewrite (bind_run _ _ _ _ _ Hrun1).
  destruct (peek_run str junk s1 r1 ts' [] Hr1 Hl1) as (p & r2 & Hpeek & Hr2 & Hl2 & He2). rewrite (bind_run _ _ _ _ _ Hpeek).
  rewrite (bind_run _ _ _ p (set_spos p s1)) //. destruct Hr2 as (Hb2 & pre & Hs & Hp). simpl in Hp. destruct ts' as [|t ts'].
  - assert (r2 = []) as ->.
    { apply lexes_split in Hl2 as (ws & r3 & -> & Hws & _ & ->). rewrite app_nil_r in He2 |- *. destruct ws as [|c ws]; [done|].
      apply Forall_cons in Hws as [Hc' _]. simpl in He2. congruence. }
    rewrite app_nil_r in Hs. subst pre p. rewrite Nat.eqb_refl. cbn [negb].
    rewrite (bind_run _ _ _ (S (Z.to_nat (sbrk s1))) (set_spos (length str) s1)) //.
    destruct (nulterminate_run str junk (sheap s1) (line_tree l) (S (Z.to_nat (sbrk s1))) a (set_spos (length str) s1)) as (b & Hn & Nb & _ & Cb); [done|done| |lia|lia|].
    { simpl in Hb2 |- *. rewrite Hb2. split; [done|]. auto. }
    exists a, (set_sbuf b (set_spos (length str) s1)). split; [by rewrite (bind_run _ _ _ _ _ Hn)|].
    split; [|lia]. eapply cmd_at_mono; [|done|exact Cb]. intros q e w. by apply ended_cstr with junk.
  - replace (p =? length str)%nat with false; [done|]. symmetry. apply Nat.eqb_neq. intros ->. apply lexes_length in Hl2. simpl in Hl2.
    rewrite {1}Hs length_app in Hp. lia.
Qed.

Lemma line_parsed l : lexes str (line_toks l) → line_ok l → p_line (4 * length str + 4) (line_toks l) = POk l [].
Proof.
  intros Hl Hok. pose proof (lexes_wf _ _ Hl) as Hwf. pose proof (lexes_length _ _ Hl).
  pose proof (proj1 p_complete l (4 * length str + 4)%nat [] Hok) as Hc. rewrite app_nil_r in Hc.
  destruct (Hc Hwf I) as [E|E]; [done|]. exfalso. exact (proj1 (p_fuel (4 * length str + 4)) _ Hwf ltac:(lia) E).
Qed.

Lemma parsecmd_cases :
  Forall (λ c, c ≠ 0) str →
  (∃ l a s', lexes str (line_toks l) ∧ line_ok l ∧ line_size l ≤ MAXN ∧ parsecmd sh_start = Ret a s' ∧ builds s' a (line_tree l) ∧ 0 < a) ∨
  (parsecmd sh_start = Panic ∧ ∀ l, lexes str (line_toks l) → line_ok l → MAXN < line_size l).
Proof.
  intros Hnz. destruct (lexes_total _ str (le_n _) Hnz) as [ts Hl]. pose proof (parsecmd_run ts Hnz Hl) as H.
  assert (Hno : parsecmd sh_start = Panic → ∀ l, lexes str (line_toks l) → line_ok l → MAXN < line_size l).
  { intros Hp l Hll Hok. pose proof (parsecmd_run _ Hnz Hll) as H'. rewrite line_parsed // in H'. destruct (line_size l <=? MAXN) eqn:E; [|by apply Z.leb_gt].
    destruct H' as (a & s' & Hr & _). congruence. }
  destruct (p_line _ ts) as [l [|]| |] eqn:Ep; [|right; exact (conj H (Hno H))..]. destruct (line_size l <=? MAXN) eqn:E; [|right; exact (conj H (Hno H))].
  left. destruct H as (a & s' & Hrun & Hb & Ha). destruct (proj1 (p_sound _) _ _ _ (lexes_wf _ _ Hl) Ep) as [-> Hok]. rewrite app_nil_r in Hl.
  exists l, a, s'. by apply Z.leb_le in E.
Qed.

(** C11: [parsecmd] is a parser of the grammar of command lines.  For every line without
    zero bytes it ends: it neither runs for ever nor reads or writes outside the line and
    its structures.  It returns exactly when the characters of the line are, up to
    whitespace, the tokens of a line of the grammar whose commands have less than
    [MAXARGS] arguments and whose structures fit in the memory, and it exits with an error
    for every other line.  What it returns are the structures of such a line. *)
Theorem parsecmd_decides :
  Forall (λ c, c ≠ 0) str →
  (∃ l a s', lexes str (line_toks l) ∧ line_ok l ∧ line_size l ≤ MAXN ∧ parsecmd sh_start = Ret a s' ∧ builds s' a (line_tree l)) ∨
  (parsecmd sh_start = Panic ∧ ∀ l, lexes str (line_toks l) → line_ok l → MAXN < line_size l).
Proof. intros Hnz. destruct (parsecmd_cases Hnz) as [(l & a & s' & ? & ? & ? & ? & ? & _)|H]; [left; by exists l, a, s'|by right]. Qed.

(** Parsing a line gives the command it was written for.  However a line of the
    grammar is written, with whatever whitespace between its tokens, [parsecmd] returns
    the structures of that command: the pipes, lists, background commands and
    redirections in their order, and every argument and file name as a C string with
    exactly its characters, although the strings share the buffer of the line and are
    only terminated in it after the whole line has been read. *)
Theorem parsecmd_roundtrip l :
  Forall (λ c, c ≠ 0) str → lexes str (line_toks l) → line_ok l → line_size l ≤ MAXN →
  ∃ a s', parsecmd sh_start = Ret a s' ∧ builds s' a (line_tree l).
Proof.
  intros Hnz Hl Hok Hs. pose proof (parsecmd_run _ Hnz Hl) as H. rewrite line_parsed // in H. rewrite (proj2 (Z.leb_le _ _) Hs) in H.
  destruct H as (a & s' & ? & ? & _). by exists a, s'.
Qed.
End parsecmd.

(** [ls  -l>out | wc&] *)
Definition example_line : line :=
  LEnd (PPipe (Simple [Arg [108; 115]; Arg [45; 108]; Red (ROut [111; 117; 116])]) (PEnd (Simple [Arg [119; 99]]))) 1.
Definition example_str : list Z := [108; 115; 32; 32; 45; 108; 62; 111; 117; 116; 32; 124; 32; 119; 99; 38].
Ltac tok ws t := apply (lex_tok ws t); [by repeat constructor|repeat split; try done; by repeat constructor|].
Lemma example_lexes : lexes example_str (line_toks example_line).
Proof.
  tok (@nil Z) (Word [108; 115]). tok [32; 32] (Word [45; 108]). tok (@nil Z) Gt. tok (@nil Z) (Word [111; 117; 116]).
  tok [32] (Sym 124). tok [32] (Word [119; 99]). tok (@nil Z) (Sym 38). by constructor.
Qed.

Lemma parsecmd_decides_witness : ∃ l a s', lexes example_str (line_toks l) ∧ parsecmd 0 1 512 (sh_start example_str []) = Ret a s' ∧ builds s' a (line_tree 0 1 512 l).
Proof.
  assert (Hnz : Forall (λ c, c ≠ 0) example_str) by (by repeat constructor).
  destruct (parsecmd_decides 0 1 512 example_str [] Hnz) as [(l & a & s' & Hl & _ & _ & Hr & Hb)|[_ H]]; [exists l, a, s'; exact (conj Hl (conj Hr Hb))|].
  exfalso. assert (Hs : line_size example_line ≤ MAXN) by (vm_compute; discriminate).
  assert (Hok : line_ok example_line) by (cbn; rewrite /MAXARGS; lia). specialize (H example_line example_lexes Hok). lia.
Defined.

Lemma parsecmd_roundtrip_witness : ∃ a s', parsecmd 0 1 512 (sh_start example_str [7; 7]) = Ret a s' ∧ builds s' a (line_tree 0 1 512 example_line).
Proof.
  apply (parsecmd_roundtrip 0 1 512 example_str [7; 7] example_line); [by repeat constructor|exact example_lexes| |vm_compute; discriminate].
  cbn. rewrite /MAXARGS. lia.
Defined.
