(* ===== verification/Mkfs.v ===== *)
(** * Making a file system, [user/mkfs/main.c]

    The image is the list of its blocks; writing past its end extends it.  The structures
    are written as bytes on a little-endian machine, as in [FsDefs.v].  [exit(1)] and a
    failed [assert] are [Panic].  A file of the host that is copied into the image is its
    path and, when it can be opened, the pieces its reads return until one is empty. *)

From stdpp Require Import base numbers list.
From S2P Require Import Prelude Bytes FsDefs.

Definition FSSIZE : Z := 1000.
Definition NINODES : Z := 200.
Definition BSIZE : Z := BLOCK_SIZE.
Definition LOGSIZE : Z := LOG_MAX_SIZE.
Definition NDIRECT : Z := INODE_NUM_DIRECT.
Definition DIRSIZ : Z := FILE_NAME_MAX_LENGTH.
Definition IPB : Z := BSIZE / sizeof_InodeEntry.
Definition nbitmap : Z := FSSIZE / (BSIZE * 8) + 1.
Definition ninodeblocks : Z := NINODES / IPB + 1.
Definition nmeta : Z := 2 + LOGSIZE + ninodeblocks + nbitmap.

Record mkfs := mkMkfs { img : list (list Z); freeinode : Z; freeblock : Z; fs_sb : SuperBlock }.
Definition set_img v s := mkMkfs v (freeinode s) (freeblock s) (fs_sb s).
Definition set_freeinode v s := mkMkfs (img s) v (freeblock s) (fs_sb s).
Definition set_freeblock v s := mkMkfs (img s) (freeinode s) v (fs_sb s).
Definition set_fs_sb v s := mkMkfs (img s) (freeinode s) (freeblock s) v.

Definition zeroes : list Z := replicate 512 0.
Definition IBLOCK (i : Z) (sb : SuperBlock) : Z := u32 (i / IPB + inode_start sb).
(** The bytes of the integer, least significant first, read as an integer. *)
Definition xshort (x : Z) : Z := le_val (le_bytes 2 x).
Definition xint (x : Z) : Z := le_val (le_bytes 4 x).

(** ** Blocks and inodes *)
Definition sector (sec : Z) : nat := Z.to_nat (u32 (sec * BSIZE) / BSIZE).
Definition write_at {A} (k : nat) (d z : A) (l : list A) : list A :=
  if (k <? length l)%nat then <[k := d]> l else l ++ replicate (k - length l) z ++ [d].
Definition wsect (sec : Z) (buf : list Z) : M mkfs () :=
  modify (λ s, set_img (write_at (sector sec) buf zeroes (img s)) s).
Definition rsect (sec : Z) : M mkfs (list Z) :=
  l ← gets img; match l !! sector sec with Some d => mret d | None => panic end.

Definition entry_pos (inum : Z) : nat := Z.to_nat (64 * (inum mod IPB)).
Definition winode (inum : Z) (ip : InodeEntry) : M mkfs () :=
  sb ← gets fs_sb;
  let bn := IBLOCK inum sb in
  buf ← rsect bn;
  wsect bn (splice buf (entry_pos inum) (encode_entry ip)).
Definition rinode (inum : Z) : M mkfs InodeEntry :=
  sb ← gets fs_sb;
  buf ← rsect (IBLOCK inum sb);
  mret (decode_entry (slice buf (entry_pos inum) 64)).
Definition ialloc (type : Z) : M mkfs Z :=
  inum ← gets freeinode;
  modify (set_freeinode (u32 (inum + 1)));;
  winode inum (mkEntry (xshort type) 0 0 (xshort 1) (xint 0) (replicate 12 0) 0);;
  mret inum.

(** The bits [i], ..., [i + n - 1]. *)
Fixpoint set_bits (n : nat) (i : Z) (buf : list Z) : list Z :=
  match n with
  | O => buf
  | S n =>
      let c := default 0 (buf !! Z.to_nat (i / 8)) in
      set_bits n (i + 1) (<[Z.to_nat (i / 8) := u8 (Z.lor c (Z.shiftl 1 (i mod 8)))]> buf)
  end.
Definition balloc (used : Z) : M mkfs () :=
  assert_ (used <? BSIZE * 8);;
  sb ← gets fs_sb;
  wsect (bitmap_start sb) (set_bits (Z.to_nat used) 0 zeroes).

(** ** Appending to a file *)
Definition put_addr (k : nat) (a : Z) (e : InodeEntry) : InodeEntry :=
  mkEntry (ie_type e) (ie_major e) (ie_minor e) (ie_num_links e) (ie_num_bytes e) (<[k := a]> (ie_addrs e)) (ie_indirect e).
Definition put_indirect (a : Z) (e : InodeEntry) : InodeEntry :=
  mkEntry (ie_type e) (ie_major e) (ie_minor e) (ie_num_links e) (ie_num_bytes e) (ie_addrs e) a.
Definition put_size (n : Z) (e : InodeEntry) : InodeEntry :=
  mkEntry (ie_type e) (ie_major e) (ie_minor e) (ie_num_links e) n (ie_addrs e) (ie_indirect e).

(** [freeblock++] *)
Definition next_block : M mkfs Z := b ← gets freeblock; modify (set_freeblock (u32 (b + 1)));; mret b.
(** The block of the file block [fbn], allocated when it has none. *)
Definition direct_block (din : InodeEntry) (fbn : Z) : M mkfs (InodeEntry * Z) :=
  a ← of_opt (ie_addrs din !! Z.to_nat fbn);
  din ← (if xint a =? 0 then b ← next_block; mret (put_addr (Z.to_nat fbn) (xint b) din) else mret din);
  x ← of_opt (ie_addrs din !! Z.to_nat fbn);
  mret (din, xint x).
Definition indirect_block (din : InodeEntry) (fbn : Z) : M mkfs (InodeEntry * Z) :=
  let k := Z.to_nat (fbn - NDIRECT) in
  din ← (if xint (ie_indirect din) =? 0 then b ← next_block; mret (put_indirect (xint b) din) else mret din);
  d ← rsect (xint (ie_indirect din));
  let indirect := words 4 128 d in
  a ← of_opt (indirect !! k);
  indirect ← (if a =? 0 then
                b ← next_block;
                let indirect := <[k := xint b]> indirect in
                wsect (xint (ie_indirect din)) (unwords 4 indirect);; mret indirect
              else mret indirect);
  x ← of_opt (indirect !! k);
  mret (din, xint x).
Fixpoint iappend_loop (fuel : nat) (din : InodeEntry) (off : Z) (p : list Z) (n : Z) : M mkfs (InodeEntry * Z) :=
  if 0 <? n then
    match fuel with
    | O => nofuel
    | S fuel =>
        let fbn := off / BSIZE in
        assert_ (fbn <? INODE_MAX_BLOCKS);;
        '(din, x) ← (if fbn <? NDIRECT then direct_block din fbn else indirect_block din fbn);
        let n1 := Z.min n (u32 ((fbn + 1) * BSIZE - off)) in
        buf ← rsect x;
        wsect x (splice buf (Z.to_nat (off - fbn * BSIZE)) (take (Z.to_nat n1) p));;
        iappend_loop fuel din (u32 (off + n1)) (drop (Z.to_nat n1) p) (n - n1)
    end
  else mret (din, off).
(** Every turn of the loop takes at least one byte: [n] turns are enough. *)
Definition iappend (inum : Z) (p : list Z) (n : Z) : M mkfs () :=
  din ← rinode inum;
  '(din, off) ← iappend_loop (Z.to_nat n) din (xint (ie_num_bytes din)) p n;
  winode inum (put_size (xint off) din).

(** ** The program *)
(** [strcpy] or [strncpy] into a cleared name *)
Definition dirent (inum : Z) (name : list Z) : list Z :=
  encode_dirent (mkDirEntry (xshort inum) (take (Z.to_nat DIRSIZ) (name ++ replicate (Z.to_nat DIRSIZ) 0))).

Record host_file := mkHost { path : list Z; reads : option (list (list Z)) }.

(** The loop that counts the characters after the last slash. *)
Fixpoint base_len (l : list Z) (j : Z) : Z :=
  match l with [] => j | c :: l => base_len l ((if c =? 47 then -1 else j) + 1) end.
Definition base_name (p : list Z) : list Z := drop (length p - Z.to_nat (base_len p 0)) p.
(** Skip a leading [_]. *)
Definition fs_name (p : list Z) : list Z :=
  match base_name p with c :: l => if c =? 95 then l else c :: l | [] => [] end.

Fixpoint copy_reads (inum : Z) (l : list (list Z)) : M mkfs () :=
  match l with
  | [] => mret ()
  | b :: l => if 0 <? Z.of_nat (length b) then iappend inum b (Z.of_nat (length b));; copy_reads inum l else mret ()
  end.
Definition add_file (rootino : Z) (f : host_file) : M mkfs () :=
  assert_ (bool_decide (47 ∉ base_name (path f)));;
  match reads f with
  | None => panic
  | Some l =>
      inum ← ialloc INODE_REGULAR;
      iappend rootino (dirent inum (fs_name (path f))) sizeof_DirEntry;;
      copy_reads inum l
  end.
Fixpoint add_files (rootino : Z) (l : list host_file) : M mkfs () :=
  match l with [] => mret () | f :: l => add_file rootino f;; add_files rootino l end.

Fixpoint clear_blocks (n : nat) (i : Z) : M mkfs () :=
  match n with O => mret () | S n => wsect i zeroes;; clear_blocks n (i + 1) end.
Definition encode_super (sb : SuperBlock) : list Z :=
  unwords 4 [num_blocks sb; num_data_blocks sb; num_inodes sb; num_log_blocks sb; log_start sb; inode_start sb; bitmap_start sb].
Definition the_super : SuperBlock :=
  mkSuper (xint FSSIZE) (xint (FSSIZE - nmeta)) (xint NINODES) (xint LOGSIZE) (xint 2) (xint (2 + LOGSIZE)) (xint (2 + LOGSIZE + ninodeblocks)).

(** The arguments after the name of the image. *)
Definition main (files : list host_file) : M mkfs () :=
  modify (set_img []);;
  modify (set_fs_sb the_super);;
  modify (set_freeblock nmeta);;
  clear_blocks (Z.to_nat FSSIZE) 0;;
  wsect 1 (splice zeroes 0 (encode_super the_super));;
  rootino ← ialloc INODE_DIRECTORY;
  assert_ (rootino =? ROOT_INODE_NO);;
  iappend rootino (dirent rootino [46]) sizeof_DirEntry;;
  iappend rootino (dirent rootino [46; 46]) sizeof_DirEntry;;
  add_files rootino files;;
  din ← rinode rootino;
  let off := xint (ie_num_bytes din) in
  winode rootino (put_size (xint (u32 ((off / BSIZE + 1) * BSIZE))) din);;
  n ← gets freeblock;
  balloc n.
Definition mkfs_start : mkfs := mkMkfs [] 1 0 (mkSuper 0 0 0 0 0 0 0).
