(* ===== verification/MkfsInv.v ===== *)
(** * The files of an image being made

    What holds of the image between the steps of [iappend]: which file owns which block,
    what the files contain, and that the blocks from [freeblock] on are empty. *)

From stdpp Require Import base numbers list.
From S2P Require Import Prelude Bytes FsDefs BlockCache Inode InodeRead Mkfs.

Definition blk (s : mkfs) (b : Z) : option (list Z) := if 0 <=? b then img s !! Z.to_nat b else None.

(** Pointer [r] of a file: a data block, or the indirect block for -1. *)
Definition fslot (c : Z → option (list Z)) (e : InodeEntry) (r : Z) : option Z :=
  if r =? -1 then Some (ie_indirect e) else block_index c e r.
Definition ptr (r : Z) : Prop := -1 ≤ r < 140.

(** A file in the making: its entry, whether it has an indirect block, up to which byte it
    has blocks, and its bytes. *)
Record fdata := mkF { f_ent : InodeEntry; f_ind : bool; f_cap : Z; f_bytes : list Z }.
Definition len (f : fdata) : Z := Z.of_nat (length (f_bytes f)).
Definition nblk (f : fdata) : Z := (f_cap f + 511) / 512 + Z.b2z (f_ind f).
Definition total (fl : list fdata) : Z := foldr (λ f n, nblk f + n) 0 fl.

Record body (c : Z → option (list Z)) (f : fdata) : Prop := mkBody {
  b_addrs : length (ie_addrs (f_ent f)) = 12%nat;
  b_cap : 0 ≤ f_cap f ≤ 71680;
  b_ind : ie_indirect (f_ent f) ≠ 0 ↔ f_ind f = true;
  b_need : 6144 < f_cap f → f_ind f = true;
  b_slot k : 0 ≤ k < 140 → ∃ b, fslot c (f_ent f) k = Some b ∧ (b ≠ 0 ↔ k * 512 < f_cap f);
  b_len : len f ≤ f_cap f;
  b_bytes n : 0 ≤ n < len f → file_byte c (f_ent f) n = f_bytes f !! Z.to_nat n }.

(** Block [92 + i] is what pointer [(own !! i).2] of file [(own !! i).1] names. *)
Record data_inv (s : mkfs) (fl : list fdata) (own : list (nat * Z)) : Prop := mkData {
  di_len : length (img s) = 1000%nat;
  di_ok : Forall block_ok (img s);
  di_free : freeblock s = 92 + total fl;
  di_room : freeblock s ≤ 1000;
  di_own : length own = Z.to_nat (total fl);
  di_total : 0 ≤ total fl;
  di_zero b : freeblock s ≤ b < 1000 → blk s b = Some zeroes;
  di_body k f : fl !! k = Some f → body (blk s) f;
  di_ptr k f r b : fl !! k = Some f → ptr r → fslot (blk s) (f_ent f) r = Some b → b ≠ 0 →
    92 ≤ b < freeblock s ∧ own !! Z.to_nat (b - 92) = Some (k, r) }.

Lemma blk_block_ok s b d : Forall block_ok (img s) → blk s b = Some d → block_ok d.
Proof. rewrite /blk. intros H. destruct (0 <=? b); [|done]. by apply Forall_lookup_1. Qed.
Lemma blk_some s b : length (img s) = 1000%nat → 0 ≤ b < 1000 → is_Some (blk s b).
Proof. intros Hl Hb. rewrite /blk (proj2 (Z.leb_le 0 b)); [lia|]. apply lookup_lt_is_Some. lia. Qed.

(** ** Reading and writing blocks *)
Lemma sector_small b : 0 ≤ b < 1000 → sector b = Z.to_nat b.
Proof.
  intros Hb. rewrite /sector /BSIZE /BLOCK_SIZE /u32 wrap_small; [lia|]. by rewrite Z.div_mul.
Qed.
Lemma rsect_run s b d : 0 ≤ b < 1000 → blk s b = Some d → rsect b s = Ret d s.
Proof.
  rewrite /blk. intros Hb. rewrite (proj2 (Z.leb_le 0 b)); [lia|]. intros Hd.
  rewrite /rsect (bind_run _ _ _ (img s) s) // sector_small // Hd //.
Qed.
Definition put_blk (b : Z) (d : list Z) (s : mkfs) : mkfs := set_img (<[Z.to_nat b := d]> (img s)) s.
Lemma wsect_run s b d : length (img s) = 1000%nat → 0 ≤ b < 1000 → wsect b d s = Ret () (put_blk b d s).
Proof.
  intros Hl Hb. rewrite /wsect /modify /put_blk /write_at sector_small // (proj2 (Nat.ltb_lt _ _)) //. lia.
Qed.
Lemma blk_put_eq s b d : length (img s) = 1000%nat → 0 ≤ b < 1000 → blk (put_blk b d s) b = Some d.
Proof. intros Hl Hb. rewrite /blk (proj2 (Z.leb_le 0 b)); [lia|]. simpl. apply list_lookup_insert_eq. lia. Qed.
Lemma blk_put_ne s b d b' : 0 ≤ b → b' ≠ b → blk (put_blk b d s) b' = blk s b'.
Proof.
  intros Hb Hne. rewrite /blk. destruct (Z.leb_spec 0 b'); [|done]. simpl. apply list_lookup_insert_ne. lia.
Qed.

(** ** The pointers of a file *)
Lemma xint_small x : 0 ≤ x < 2 ^ 32 → xint x = x.
Proof. apply (le_val_bytes 4). Qed.
Lemma xshort_small x : 0 ≤ x < 2 ^ 16 → xshort x = x.
Proof. apply (le_val_bytes 2). Qed.

Lemma fslot_data c e k : 0 ≤ k → fslot c e k = block_index c e k.
Proof. intros. rewrite /fslot. destruct (Z.eqb_spec k (-1)); [lia|done]. Qed.
(** A pointer only depends on the entry and the indirect block. *)
Lemma fslot_frame c c' e r : (ie_indirect e ≠ 0 → c' (ie_indirect e) = c (ie_indirect e)) → fslot c' e r = fslot c e r.
Proof.
  intros H. rewrite /fslot. destruct (r =? -1); [done|]. rewrite /block_index.
  destruct (r <? _); [done|]. destruct (_ <? _); [|done]. destruct (Z.eqb_spec (ie_indirect e) 0); [done|]. by rewrite H.
Qed.
Lemma byte_frame c c' e e' n b :
  0 ≤ n → fslot c e (n / 512) = Some b → fslot c' e' (n / 512) = Some b → c' b = c b → file_byte c' e' n = file_byte c e n.
Proof.
  intros Hn. pose proof (Z.div_pos n 512 Hn ltac:(lia)) as Hk. rewrite !fslot_data //. intros H H' E.
  rewrite /file_byte. change BLOCK_SIZE with 512. rewrite H H' /=. by rewrite E.
Qed.

Section inv.
Context {s : mkfs} {fl : list fdata} {own : list (nat * Z)} (I : data_inv s fl own).
Implicit Types (f : fdata) (k : nat).

Lemma ptr_range k f r b : fl !! k = Some f → ptr r → fslot (blk s) (f_ent f) r = Some b → b ≠ 0 → 92 ≤ b < 1000.
Proof. intros Hf Hr Hs Hb. pose proof (di_room _ _ _ I). destruct (di_ptr _ _ _ I k f r b Hf Hr Hs Hb). lia. Qed.
Lemma ptr_inj k f r k' f' r' b : fl !! k = Some f → fl !! k' = Some f' → ptr r → ptr r' →
  fslot (blk s) (f_ent f) r = Some b → fslot (blk s) (f_ent f') r' = Some b → b ≠ 0 → k = k' ∧ r = r'.
Proof.
  intros Hf Hf' Hr Hr' Hs Hs' Hb. destruct (di_ptr _ _ _ I k f r b Hf Hr Hs Hb) as [_ E].
  destruct (di_ptr _ _ _ I k' f' r' b Hf' Hr' Hs' Hb) as [_ E']. rewrite E in E'. by injection E' as -> ->.
Qed.
Lemma ind_ptr k f : fl !! k = Some f → fslot (blk s) (f_ent f) (-1) = Some (ie_indirect (f_ent f)).
Proof. done. Qed.

(** [c'] differs from the image only in blocks no other file than [k] owns. *)
Definition only (k : nat) (c' : Z → option (list Z)) : Prop :=
  ∀ b, c' b = blk s b ∨ b < 92 ∨ freeblock s ≤ b ∨ ∃ r, own !! Z.to_nat (b - 92) = Some (k, r).
Lemma only_ptr k c' k' f' r b : only k c' → k' ≠ k → fl !! k' = Some f' → ptr r → fslot (blk s) (f_ent f') r = Some b → b ≠ 0 →
  c' b = blk s b.
Proof.
  intros Ho Hne Hf Hr Hs Hb. destruct (di_ptr _ _ _ I k' f' r b Hf Hr Hs Hb) as [? E].
  destruct (Ho b) as [?|[?|[?|(r' & E')]]]; [done|lia|lia|]. rewrite E in E'. congruence.
Qed.
Lemma only_slot k c' k' f' r : only k c' → k' ≠ k → fl !! k' = Some f' → fslot c' (f_ent f') r = fslot (blk s) (f_ent f') r.
Proof.
  intros Ho Hne Hf. apply fslot_frame. intros Hi. by apply (only_ptr k c' k' f' (-1)).
Qed.
Lemma body_byte c f n : body c f → 0 ≤ n < f_cap f → ∃ b, fslot c (f_ent f) (n / 512) = Some b ∧ b ≠ 0 ∧ 0 ≤ n / 512 < 140.
Proof.
  intros B Hn. pose proof (b_cap _ _ B). assert (0 ≤ n / 512 < 140) as Hk by (clear - Hn H; dlia).
  destruct (b_slot _ _ B (n / 512) Hk) as (b' & Hs & Hb). exists b'. split_and!; [done| |lia|lia]. apply Hb. dlia.
Qed.
Lemma only_body k c' k' f' : only k c' → k' ≠ k → fl !! k' = Some f' → body c' f'.
Proof.
  intros Ho Hne Hf. pose proof (di_body _ _ _ I k' f' Hf) as B. pose proof B as [B1 B2 B3 B4 B5 B6 B7]. split; try done.
  - intros j Hj. by rewrite (only_slot k c' k' f' j Ho Hne Hf); auto.
  - intros n Hn. rewrite -B7 //. destruct (body_byte (blk s) f' n) as (b & Hs & Hb & Hk); [done|lia|]. apply (byte_frame _ _ _ _ _ b); [lia|done|by rewrite (only_slot k c' k' f' _ Ho Hne Hf)|].
    apply (only_ptr k c' k' f' (n / 512)); [done..|rewrite /ptr; lia|done|done].
Qed.
End inv.

Lemma total_insert fl k f f' : fl !! k = Some f → total (<[k := f']> fl) = total fl + nblk f' - nblk f.
Proof.
  revert k. induction fl as [|g fl IH]; intros [|k]; simpl; [done..| |].
  - intros [= ->]. lia.
  - intros Hk. rewrite (IH k Hk). lia.
Qed.

(** Naming the first free block by pointer [r] of file [k]. *)
Lemma grow s fl own k f r f' s' :
  data_inv s fl own → fl !! k = Some f → ptr r → fslot (blk s) (f_ent f) r = Some 0 → freeblock s < 1000 →
  length (img s') = 1000%nat → Forall block_ok (img s') → freeblock s' = freeblock s + 1 →
  (∀ b, blk s' b = blk s b ∨ 12 ≤ r ∧ b = ie_indirect (f_ent f) ∧ b ≠ 0) →
  (∀ r', ptr r' → fslot (blk s') (f_ent f') r' = if decide (r' = r) then Some (freeblock s) else fslot (blk s) (f_ent f) r') →
  nblk f' = nblk f + 1 → body (blk s') f' →
  data_inv s' (<[k := f']> fl) (own ++ [(k, r)]).
Proof.
  intros I Hf Hr H0 Hlt Hl Hok Hfb Hc Hs Hn B. pose proof (di_total _ _ _ I) as Ht. pose proof (di_free _ _ _ I) as Hfree. pose proof (di_own _ _ _ I) as Hown.
  pose proof (total_insert fl k f f' Hf) as Htot.
  assert (Ho : only (s := s) (own := own) k (blk s')).
  { intros b. destruct (Hc b) as [?|(? & -> & Hb)]; [by left|]. right; right; right. exists (-1).
    by apply (di_ptr _ _ _ I k f (-1)). }
  split; [done|done|lia|lia|rewrite length_app /=; lia|lia| | |].
  - intros b Hb. destruct (Hc b) as [->|(_ & -> & Hi)]; [apply (di_zero _ _ _ I); lia|]. exfalso.
    destruct (di_ptr _ _ _ I k f (-1) _ Hf ltac:(rewrite /ptr; lia) (ind_ptr k f Hf) Hi). lia.
  - intros k' g Hg. destruct (decide (k' = k)) as [->|Hne].
    + rewrite list_lookup_insert_eq in Hg; [exact (lookup_lt_Some _ _ _ Hf)|]. by injection Hg as <-.
    + rewrite list_lookup_insert_ne in Hg; [congruence|]. by apply (only_body I k (blk s') k').
  - intros k' g r' b Hg Hr' Hb Hb0. destruct (decide (k' = k)) as [->|Hne].
    + rewrite list_lookup_insert_eq in Hg; [exact (lookup_lt_Some _ _ _ Hf)|]. injection Hg as <-. rewrite Hs // in Hb. case_decide as E.
      * injection Hb as <-. subst r'. split; [lia|]. rewrite lookup_app_r; [lia|]. by replace (Z.to_nat (freeblock s - 92) - length own)%nat with 0%nat by lia.
      * destruct (di_ptr _ _ _ I k f r' b Hf Hr' Hb Hb0). split; [lia|]. by apply lookup_app_l_Some.
    + rewrite list_lookup_insert_ne in Hg; [congruence|]. rewrite (only_slot I k (blk s') k') // in Hb.
      destruct (di_ptr _ _ _ I k' g r' b Hg Hr' Hb Hb0). split; [lia|]. by apply lookup_app_l_Some.
Qed.

(** Changing the contents of a block of file [k], or of a block of no file, when the
    pointers stay. *)
Lemma rewrite_blocks s fl own k f f' s' :
  data_inv s fl own → fl !! k = Some f → length (img s') = 1000%nat → Forall block_ok (img s') → freeblock s' = freeblock s →
  (∀ b, blk s' b = blk s b ∨ b < 92 ∨ ∃ r, ptr r ∧ fslot (blk s) (f_ent f) r = Some b ∧ b ≠ 0) →
  (∀ r', ptr r' → fslot (blk s') (f_ent f') r' = fslot (blk s) (f_ent f) r') →
  nblk f' = nblk f → body (blk s') f' → data_inv s' (<[k := f']> fl) own.
Proof.
  intros I Hf Hl Hok Hfb Hc Hs Hn B. pose proof (di_total _ _ _ I) as Ht. pose proof (di_free _ _ _ I) as Hfree. pose proof (di_own _ _ _ I) as Hown.
  pose proof (di_room _ _ _ I) as Hroom. pose proof (total_insert fl k f f' Hf) as Htot.
  assert (Ho : only (s := s) (own := own) k (blk s')).
  { intros b. destruct (Hc b) as [?|[?|(r & Hr & Hb & Hb0)]]; [by left|by right; left|]. right; right; right. exists r.
    by apply (di_ptr _ _ _ I k f r). }
  split; [done|done|lia|lia|lia|lia| | |].
  - intros b Hb. destruct (Hc b) as [->|[?|(r & Hr & Hbb & Hb0)]]; [apply (di_zero _ _ _ I); lia|lia|]. exfalso.
    destruct (di_ptr _ _ _ I k f r b Hf Hr Hbb Hb0). lia.
  - intros k' g Hg. destruct (decide (k' = k)) as [->|Hne].
    + rewrite list_lookup_insert_eq in Hg; [exact (lookup_lt_Some _ _ _ Hf)|]. by injection Hg as <-.
    + rewrite list_lookup_insert_ne in Hg; [congruence|]. by apply (only_body I k (blk s') k').
  - intros k' g r' b Hg Hr' Hb Hb0. rewrite Hfb. destruct (decide (k' = k)) as [->|Hne].
    + rewrite list_lookup_insert_eq in Hg; [exact (lookup_lt_Some _ _ _ Hf)|]. injection Hg as <-. rewrite Hs // in Hb. by apply (di_ptr _ _ _ I k f).
    + rewrite list_lookup_insert_ne in Hg; [congruence|]. rewrite (only_slot I k (blk s') k') // in Hb. by apply (di_ptr _ _ _ I k' g).
Qed.

(** ** What a new pointer changes in its file *)
Definition points (c c' : Z → option (list Z)) (e e' : InodeEntry) (r b : Z) : Prop :=
  ∀ r', ptr r' → fslot c' e' r' = if decide (r' = r) then Some b else fslot c e r'.
Lemma body_points c c' f e' r b ind cap :
  body c f → points c c' (f_ent f) e' r b → ptr r → fslot c (f_ent f) r = Some 0 → b ≠ 0 → length (ie_addrs e') = 12%nat →
  (∀ k p, 0 ≤ k < 140 → fslot c (f_ent f) k = Some p → p ≠ 0 → c' p = c p) →
  (if r =? -1 then ind = true ∧ cap = f_cap f else ind = f_ind f ∧ f_cap f = r * 512 ∧ cap = f_cap f + 1 ∧ (12 ≤ r → ind = true)) →
  body c' (mkF e' ind cap (f_bytes f)) ∧ nblk (mkF e' ind cap (f_bytes f)) = nblk f + 1.
Proof.
  intros B Hp Hr H0 Hb Hl Hd Hcase. destruct B as [B1 B2 B3 B4 B5 B6 B7].
  assert (Hi : fslot c' e' (-1) = Some (ie_indirect e')) by done. rewrite Hp in Hi; [rewrite /ptr; lia|]. rewrite /ptr in Hr.
  assert (Hbytes : ∀ n, 0 ≤ n < len f → file_byte c' e' n = f_bytes f !! Z.to_nat n).
  { intros n Hn. rewrite -B7 //. assert (Hk : 0 ≤ n / 512 < 140) by (clear - Hn B2 B6; dlia). destruct (B5 _ Hk) as (p & Hs & Hp0).
    assert (Hpn : p ≠ 0) by (apply Hp0; clear - Hn B6; dlia).
    apply (byte_frame _ _ _ _ _ p); [lia|done| |by apply (Hd (n / 512))]. rewrite Hp; [rewrite /ptr; lia|]. rewrite decide_False; [intros E; rewrite E in Hs; congruence|done]. }
  destruct (Z.eqb_spec r (-1)) as [->|Hne].
  - destruct Hcase as [-> ->]. destruct (decide (-1 = -1)) as [_|]; [|done]. injection Hi as Hi. simpl in H0. injection H0 as H0.
    assert (f_ind f = false) as E by (destruct (f_ind f); [by destruct (proj2 B3 eq_refl)|done]). split.
    + split; simpl; try done; [split; [done|congruence]| ].
      intros k Hk. destruct (B5 k Hk) as (p & Hs & Hp'). exists p. rewrite Hp; [rewrite /ptr; lia|]. rewrite decide_False; [lia|]. done.
    + rewrite /nblk /= E /=. lia.
  - destruct Hcase as (-> & Hcap & -> & Hind). destruct (decide (-1 = r)) as [E|_]; [by destruct Hne|]. injection Hi as Hi. split.
    + split; simpl; [done|clear - Hcap Hr Hne; lia|by rewrite -Hi|intros; apply Hind; lia| |rewrite /len /= in B6 |- *; lia|done].
      intros k Hk. rewrite Hp; [rewrite /ptr; lia|]. case_decide as E.
      * subst k. exists b. split; [done|]. split; [lia|done].
      * destruct (B5 k Hk) as (p & Hs & Hp'). exists p. split; [done|]. rewrite Hp' Hcap. lia.
    + rewrite /nblk /= Hcap. clear. dlia.
Qed.

(** The parts of an entry and of the program that a new pointer leaves alone. *)
Definition meta_of (e : InodeEntry) := (ie_type e, ie_major e, ie_minor e, ie_num_links e, ie_num_bytes e).
Record rest (s s' : mkfs) : Prop := mkRest {
  r_ino : freeinode s' = freeinode s; r_sb : fs_sb s' = fs_sb s; r_meta b : b < 92 → blk s' b = blk s b }.
Lemma rest_trans s1 s2 s3 : rest s1 s2 → rest s2 s3 → rest s1 s3.
Proof. intros [A1 A2 A3] [B1 B2 B3]. split; [congruence..|]. intros b Hb. rewrite B3 // A3 //. Qed.
#[export] Instance rest_refl : Reflexive rest.
Proof. by intros s. Qed.

Lemma next_block_run s : 0 ≤ freeblock s < 1000 → next_block s = Ret (freeblock s) (set_freeblock (freeblock s + 1) s).
Proof.
  intros Hb. rewrite /next_block (bind_run _ _ _ (freeblock s) s) // (bind_run _ _ _ () (set_freeblock (u32 (freeblock s + 1)) s)) //.
  by rewrite /u32 wrap_small; [lia|].
Qed.

Section alloc.
Context {s : mkfs} {fl : list fdata} {own : list (nat * Z)} (I : data_inv s fl own) {k : nat} {f : fdata} (Hf : fl !! k = Some f).
Notation e := (f_ent f).

Lemma free_range : 92 ≤ freeblock s ≤ 1000.
Proof. pose proof (di_free _ _ _ I). pose proof (di_total _ _ _ I). pose proof (di_room _ _ _ I). lia. Qed.
Lemma data_ptr_not_ind j p : 0 ≤ j < 140 → fslot (blk s) e j = Some p → p ≠ 0 → p ≠ ie_indirect e.
Proof.
  intros Hj Hs Hp ->. destruct (ptr_inj I k f j k f (-1) (ie_indirect e)) as [_ E]; try done; rewrite /ptr; lia.
Qed.
Lemma blk_free c b : blk (set_freeblock c s) b = blk s b.
Proof. done. Qed.

(** A direct block. *)
Lemma direct_run fbn : 0 ≤ fbn < 12 → f_cap f = fbn * 512 → freeblock s < 1000 →
  let e' := put_addr (Z.to_nat fbn) (freeblock s) e in
  ∃ s', direct_block e fbn s = Ret (e', freeblock s) s' ∧ rest s s' ∧ fslot (blk s') e' fbn = Some (freeblock s) ∧
    freeblock s' = freeblock s + 1 ∧
    data_inv s' (<[k := mkF e' (f_ind f) (f_cap f + 1) (f_bytes f)]> fl) (own ++ [(k, fbn)]).
Proof.
  intros Hb Hcap Hlt e'. pose proof free_range as Hfr. pose proof (di_body _ _ _ I k f Hf) as B. pose proof (b_addrs _ _ B) as Hl.
  destruct (b_slot _ _ B fbn ltac:(lia)) as (p & Hs & Hp). assert (p = 0) as -> by (destruct (decide (p = 0)); [done|]; exfalso; apply Hp in n; lia).
  pose proof Hs as Ha. rewrite fslot_data /block_index in Ha; [lia|]. rewrite (proj2 (Z.ltb_lt fbn INODE_NUM_DIRECT)) in Ha; [rewrite /INODE_NUM_DIRECT; lia|].
  set (s' := set_freeblock (freeblock s + 1) s).
  assert (He' : ie_addrs e' !! Z.to_nat fbn = Some (freeblock s)) by (apply list_lookup_insert_eq; lia).
  assert (Hpt : points (blk s) (blk s') e e' fbn (freeblock s)).
  { intros r' Hr'. rewrite /fslot. destruct (Z.eqb_spec r' (-1)) as [->|Hne]; [by rewrite decide_False; [lia|]|].
    rewrite /block_index. destruct (Z.ltb_spec r' INODE_NUM_DIRECT) as [Hd|Hd]; rewrite /ptr in Hr'; rewrite /INODE_NUM_DIRECT in Hd.
    - case_decide; [by subst|]. simpl. rewrite list_lookup_insert_ne //. lia.
    - rewrite decide_False; [lia|]. done. }
  exists s'. split; [|split; [|split; [|split; [done|]]]].
  - rewrite /direct_block (bind_run _ _ _ 0 s); [by apply of_opt_run|]. change (xint 0 =? 0) with true. cbv iota.
    rewrite (bind_run _ _ _ e' s').
    + rewrite (bind_run _ _ _ _ _ (next_block_run s ltac:(lia))). rewrite xint_small; [lia|]. done.
    + rewrite (bind_run _ _ _ (freeblock s) s'); [by apply of_opt_run|]. rewrite xint_small; [lia|]. done.
  - by split.
  - rewrite Hpt; [rewrite /ptr; lia|]. by rewrite decide_True.
  - destruct (body_points (blk s) (blk s') f e' fbn (freeblock s) (f_ind f) (f_cap f + 1)) as [B' Hn]; try done.
    + rewrite /ptr; lia.
    + lia.
    + simpl. by rewrite length_insert.
    + rewrite (proj2 (Z.eqb_neq fbn (-1))); [lia|]. split_and!; [done..|]. lia.
    + apply (grow s fl own k f fbn _ s'); try done; [rewrite /ptr; lia|apply (di_len _ _ _ I)|apply (di_ok _ _ _ I)|by left].
Qed.

(** The indirect block. *)
Lemma zero_words j : (j < 128)%nat → words 4 128 zeroes !! j = Some 0.
Proof. intros Hj. replace (words 4 128 zeroes) with (replicate 128 0) by (by vm_compute). by rewrite lookup_replicate_2. Qed.
Lemma fslot_ind c e' r d : 12 ≤ r < 140 → ie_indirect e' ≠ 0 → c (ie_indirect e') = Some d →
  fslot c e' r = words 4 128 d !! Z.to_nat (r - 12).
Proof.
  intros Hr Hi Hd. rewrite fslot_data /block_index; [lia|]. rewrite /INODE_NUM_DIRECT (proj2 (Z.ltb_ge r 12)); [lia|].
  rewrite (proj2 (Z.ltb_lt _ _)); [rewrite /INODE_NUM_INDIRECT /BLOCK_SIZE; change (512 / 4) with 128; lia|].
  by rewrite (proj2 (Z.eqb_neq _ _) Hi) Hd.
Qed.
Lemma ind_new : f_ind f = false → freeblock s < 1000 →
  let e' := put_indirect (freeblock s) e in let s' := set_freeblock (freeblock s + 1) s in
  data_inv s' (<[k := mkF e' true (f_cap f) (f_bytes f)]> fl) (own ++ [(k, -1)]).
Proof.
  intros Hi Hlt e' s'. pose proof free_range as Hfr. pose proof (di_body _ _ _ I k f Hf) as B. pose proof (b_addrs _ _ B) as Hl.
  assert (E0 : ie_indirect e = 0) by (destruct (decide (ie_indirect e = 0)) as [|H0]; [done|]; apply (b_ind _ _ B) in H0; congruence).
  assert (Hpt : points (blk s) (blk s') e e' (-1) (freeblock s)).
  { intros r' Hr'. case_decide as Er; [by subst r'|]. rewrite /ptr in Hr'. destruct (decide (r' < 12)) as [Hd|Hd].
    - rewrite !fslot_data /block_index; [lia..|]. by rewrite !(proj2 (Z.ltb_lt r' INODE_NUM_DIRECT)); [rewrite /INODE_NUM_DIRECT; lia|].
    - rewrite (fslot_ind (blk s') e' r' zeroes); [lia|simpl; lia|exact (di_zero _ _ _ I (freeblock s) ltac:(lia))|]. rewrite zero_words; [lia|].
      rewrite fslot_data /block_index; [lia|]. rewrite (proj2 (Z.ltb_ge r' INODE_NUM_DIRECT)); [rewrite /INODE_NUM_DIRECT; lia|].
      rewrite (proj2 (Z.ltb_lt _ _)); [rewrite /INODE_NUM_INDIRECT /INODE_NUM_DIRECT /BLOCK_SIZE; change (512 / 4) with 128; lia|]. by rewrite E0. }
  assert (H0 : fslot (blk s) e (-1) = Some 0) by (rewrite (ind_ptr k f Hf) E0 //).
  destruct (body_points (blk s) (blk s') f e' (-1) (freeblock s) true (f_cap f)) as [B' Hn]; try done; [lia|].
  apply (grow s fl own k f (-1) _ s'); try done; [apply (di_len _ _ _ I)|apply (di_ok _ _ _ I)|by left].
Qed.

(** A block through the indirect block. *)
Lemma indirect_run fbn : 12 ≤ fbn < 140 → f_cap f = fbn * 512 → f_ind f = true → freeblock s < 1000 →
  ∃ s', indirect_block e fbn s = Ret (e, freeblock s) s' ∧ rest s s' ∧ fslot (blk s') e fbn = Some (freeblock s) ∧
    freeblock s' = freeblock s + 1 ∧
    data_inv s' (<[k := mkF e true (f_cap f + 1) (f_bytes f)]> fl) (own ++ [(k, fbn)]).
Proof.
  intros Hb Hcap Hi Hlt. pose proof free_range as Hfr. pose proof (di_body _ _ _ I k f Hf) as B.
  pose proof (proj2 (b_ind _ _ B) Hi) as Hi0. pose proof (ptr_range I k f (-1) _ Hf ltac:(rewrite /ptr; lia) (ind_ptr k f Hf) Hi0) as Hir.
  destruct (blk_some s (ie_indirect e) (di_len _ _ _ I) ltac:(lia)) as [d Hd]. pose proof (blk_block_ok _ _ _ (di_ok _ _ _ I) Hd) as Hdok.
  destruct (b_slot _ _ B fbn ltac:(lia)) as (p & Hs & Hp). assert (p = 0) as -> by (destruct (decide (p = 0)) as [|n]; [done|]; exfalso; apply Hp in n; lia).
  set (j := Z.to_nat (fbn - 12)). assert (Hj : (j < 128)%nat) by lia.
  assert (Hw : words 4 128 d !! j = Some 0) by (by rewrite -(fslot_ind (blk s) e fbn d)).
  set (w' := <[j := freeblock s]> (words 4 128 d)). set (s' := put_blk (ie_indirect e) (unwords 4 w') (set_freeblock (freeblock s + 1) s)).
  assert (Hw' : length w' = 128%nat) by (by rewrite length_insert length_words).
  assert (Hwr : words 4 128 (unwords 4 w') = w').
  { apply words_unwords; [done|]. apply Forall_insert; [|change (256 ^ Z.of_nat 4) with 4294967296; lia].
    destruct Hdok as [Hdl Hdb]. by apply (words_range 4 128). }
  assert (Hblk : blk s' (ie_indirect e) = Some (unwords 4 w')) by (apply blk_put_eq; [apply (di_len _ _ _ I)|lia]).
  assert (Hoth : ∀ b, b ≠ ie_indirect e → blk s' b = blk s b) by (intros b Hne; rewrite /s' blk_put_ne; [lia|done|done]).
  assert (Hpt : points (blk s) (blk s') e e fbn (freeblock s)).
  { intros r' Hr'. rewrite /ptr in Hr'. destruct (decide (r' < 12)) as [Hd'|Hd'].
    - rewrite decide_False; [lia|]. rewrite /fslot. destruct (r' =? -1); [done|]. rewrite /block_index.
      by rewrite (proj2 (Z.ltb_lt r' INODE_NUM_DIRECT)); [rewrite /INODE_NUM_DIRECT; lia|].
    - rewrite (fslot_ind _ _ r' _ ltac:(lia) Hi0 Hblk) Hwr. case_decide as Er.
      + subst r'. apply list_lookup_insert_eq. by rewrite length_words.
      + rewrite (fslot_ind _ _ r' _ ltac:(lia) Hi0 Hd). apply list_lookup_insert_ne. lia. }
  exists s'. split; [|split; [|split; [|split; [done|]]]].
  - rewrite /indirect_block. change (fbn - NDIRECT) with (fbn - 12). fold j.
    rewrite xint_small; [lia|]. rewrite (proj2 (Z.eqb_neq _ _) Hi0) (bind_run _ _ _ e s) //. rewrite xint_small; [lia|].
    rewrite (bind_run _ _ _ _ _ (rsect_run s (ie_indirect e) d ltac:(lia) Hd)). rewrite (bind_run _ _ _ 0 s); [by apply of_opt_run|].
    change (0 =? 0) with true. cbv iota. rewrite (bind_run _ _ _ w' s').
    + rewrite (bind_run _ _ _ _ _ (next_block_run s ltac:(lia))). rewrite xint_small; [lia|]. fold w'.
      rewrite (bind_run _ _ _ () s') //. apply wsect_run; [apply (di_len _ _ _ I)|lia].
    + rewrite (bind_run _ _ _ (freeblock s) s'); [apply of_opt_run, list_lookup_insert_eq; by rewrite length_words|]. by rewrite xint_small; [lia|].
  - split; [done..|]. intros b Hb92. apply Hoth. lia.
  - rewrite Hpt; [rewrite /ptr; lia|]. by rewrite decide_True.
  - destruct (body_points (blk s) (blk s') f e fbn (freeblock s) true (f_cap f + 1)) as [B' Hn]; try done.
    + rewrite /ptr; lia.
    + lia.
    + apply (b_addrs _ _ B).
    + intros k' p Hk' Hs' Hp'. apply Hoth. by apply (data_ptr_not_ind k').
    + rewrite (proj2 (Z.eqb_neq fbn (-1))); [lia|]. by split_and!.
    + apply (grow s fl own k f fbn _ s'); try done; [rewrite /ptr; lia| | |].
      * simpl. rewrite length_insert. apply (di_len _ _ _ I).
      * apply Forall_insert; [apply (di_ok _ _ _ I)|]. split; [by rewrite length_unwords Hw'|apply unwords_ok].
      * intros b. destruct (decide (b = ie_indirect e)) as [->|Hne]; [right; split_and!; [lia|done|done]|left; by apply Hoth].
Qed.
Lemma indirect_first : ie_indirect e = 0 → freeblock s < 1000 → ∀ fbn,
  indirect_block e fbn s = indirect_block (put_indirect (freeblock s) e) fbn (set_freeblock (freeblock s + 1) s).
Proof.
  intros H0 Hlt fbn. pose proof free_range as Hfr. rewrite /indirect_block H0. change (xint 0 =? 0) with true. cbv iota.
  rewrite (bind_run _ _ _ (put_indirect (freeblock s) e) (set_freeblock (freeblock s + 1) s)).
  - rewrite (bind_run _ _ _ _ _ (next_block_run s ltac:(lia))). by rewrite xint_small; [lia|].
  - symmetry. rewrite (bind_run _ _ _ (put_indirect (freeblock s) e) (set_freeblock (freeblock s + 1) s)); [|reflexivity].
    cbn [ie_indirect put_indirect]. rewrite xint_small; [lia|]. by rewrite (proj2 (Z.eqb_neq (freeblock s) 0)); [lia|].
Qed.
(** A block that is there. *)
Lemma present_run fbn x : 0 ≤ fbn < 140 → fslot (blk s) e fbn = Some x → x ≠ 0 → (12 ≤ fbn → f_ind f = true) →
  (if fbn <? NDIRECT then direct_block e fbn else indirect_block e fbn) s = Ret (e, x) s.
Proof.
  intros Hb Hs Hx Hi. pose proof (di_body _ _ _ I k f Hf) as B. pose proof (ptr_range I k f fbn x Hf ltac:(rewrite /ptr; lia) Hs Hx) as Hxr.
  change NDIRECT with 12. destruct (Z.ltb_spec fbn 12) as [Hd|Hd].
  - rewrite fslot_data /block_index in Hs; [lia|]. rewrite (proj2 (Z.ltb_lt fbn INODE_NUM_DIRECT)) in Hs; [rewrite /INODE_NUM_DIRECT; lia|].
    rewrite /direct_block (bind_run _ _ _ x s); [by apply of_opt_run|]. rewrite xint_small; [lia|]. rewrite (proj2 (Z.eqb_neq _ _) Hx).
    rewrite (bind_run _ _ _ e s) // (bind_run _ _ _ x s); [by apply of_opt_run|]. by rewrite xint_small; [lia|].
  - pose proof (proj2 (b_ind _ _ B) (Hi ltac:(lia))) as Hi0. pose proof (ptr_range I k f (-1) _ Hf ltac:(rewrite /ptr; lia) (ind_ptr k f Hf) Hi0) as Hir.
    destruct (blk_some s (ie_indirect e) (di_len _ _ _ I) ltac:(lia)) as [d Hblk]. rewrite (fslot_ind _ _ fbn _ ltac:(lia) Hi0 Hblk) in Hs.
    rewrite /indirect_block. change (fbn - NDIRECT) with (fbn - 12). rewrite xint_small; [lia|]. rewrite (proj2 (Z.eqb_neq _ _) Hi0) (bind_run _ _ _ e s) //.
    rewrite xint_small; [lia|]. rewrite (bind_run _ _ _ _ _ (rsect_run s (ie_indirect e) d ltac:(lia) Hblk)). rewrite (bind_run _ _ _ x s); [by apply of_opt_run|].
    rewrite (proj2 (Z.eqb_neq _ _) Hx) (bind_run _ _ _ (words 4 128 d) s) // (bind_run _ _ _ x s); [by apply of_opt_run|]. by rewrite xint_small; [lia|].
Qed.
End alloc.
