(* ===== verification/MkfsAppend.v ===== *)
(** * Appending to the files of an image

    One turn of the loop of [iappend], the loop, and [iappend]. *)

From stdpp Require Import base numbers list.
From S2P Require Import Prelude Bytes FsDefs BlockCache Inode InodeRead Mkfs MkfsInv.

(** The blocks a file of [n] bytes needs, its indirect block included. *)
Definition nbl (n : Z) : Z := (n + 511) / 512 + Z.b2z (6144 <? n).
(** A finished file. *)
Definition whole (e : InodeEntry) (l : list Z) : fdata := mkF e (6144 <? Z.of_nat (length l)) (Z.of_nat (length l)) l.
Lemma nblk_whole e l : nblk (whole e l) = nbl (Z.of_nat (length l)).
Proof. done. Qed.
Lemma nbl_mono a b : 0 ≤ a ≤ b → nbl a ≤ nbl b.
Proof.
  intros H. rewrite /nbl. assert (Z.b2z (6144 <? a) ≤ Z.b2z (6144 <? b)) by (destruct (Z.ltb_spec 6144 a), (Z.ltb_spec 6144 b); simpl; lia).
  assert ((a + 511) / 512 ≤ (b + 511) / 512) by (apply Z.div_le_mono; lia). lia.
Qed.

Lemma body_cap c f ind cap : body c f → ind = f_ind f → len f ≤ cap ≤ 71680 → (cap + 511) / 512 = (f_cap f + 511) / 512 → (6144 < cap → ind = true) →
  body c (mkF (f_ent f) ind cap (f_bytes f)) ∧ nblk (mkF (f_ent f) ind cap (f_bytes f)) = nblk f.
Proof.
  intros [B1 B2 B3 B4 B5 B6 B7] -> Hc He Hi. split; [|rewrite /nblk /= He //]. split; simpl; try done.
  - rewrite /len in Hc. lia.
  - intros k Hk. destruct (B5 k Hk) as (b & Hs & Hb). exists b. split; [done|]. rewrite Hb. split; intros; dlia.
  - rewrite /len /=. rewrite /len in Hc. lia.
Qed.

Section step.
Context {s : mkfs} {fl : list fdata} {own : list (nat * Z)} (I : data_inv s fl own) {k : nat} {f : fdata} (Hf : fl !! k = Some f).
Notation e := (f_ent f).
Notation get_block e fbn := (if fbn <? NDIRECT then direct_block e fbn else indirect_block e fbn).

(** Finding or allocating the block of the next byte. *)
Lemma block_run off (ind' := 6144 <? off + 1) :
  0 ≤ off < 71680 → f_cap f = off → f_ind f = (6144 <? off) → len f ≤ off → freeblock s + (nbl (off + 1) - nbl off) ≤ 1000 →
  ∃ e' x s' own', get_block e (off / 512) s = Ret (e', x) s' ∧ rest s s' ∧ meta_of e' = meta_of e ∧ fslot (blk s') e' (off / 512) = Some x ∧ x ≠ 0 ∧
    freeblock s' = freeblock s + (nbl (off + 1) - nbl off) ∧ data_inv s' (<[k := mkF e' ind' (off + 1) (f_bytes f)]> fl) own'.
Proof.
  intros Ho Hcap Hind Hlen Hroom. pose proof (di_body _ _ _ I k f Hf) as B. pose proof (free_range I) as Hfr. change NDIRECT with 12.
  destruct (decide (off mod 512 = 0)) as [Hm|Hm].
  - assert (Hn : nbl (off + 1) - nbl off = if decide (off = 6144) then 2 else 1).
    { rewrite /nbl. case_decide as E; [by rewrite E|]. destruct (Z.ltb_spec 6144 off), (Z.ltb_spec 6144 (off + 1)); simpl; dlia. }
    rewrite Hn in Hroom |- *. assert (Hc : f_cap f = off / 512 * 512) by (rewrite Hcap; clear - Hm; dlia).
    destruct (Z.ltb_spec (off / 512) 12) as [Hd|Hd].
    + rewrite decide_False in Hroom |- *; [intros ->; by vm_compute in Hd|].
      destruct (direct_run I Hf (off / 512) ltac:(clear - Ho Hd; dlia) Hc ltac:(lia)) as (s' & Hrun & Hrest & Hs & Hfb & I').
      exists (put_addr (Z.to_nat (off / 512)) (freeblock s) e), (freeblock s), s', (own ++ [(k, off / 512)]). split_and!; [done|done|done|done|lia|lia|]. rewrite Hcap Hind in I'.
      replace ind' with (6144 <? off); [exact I'|]. assert (off < 6144) by (clear - Hd; dlia). by rewrite /ind' !(proj2 (Z.ltb_ge _ _)); [lia..|].
    + assert (E : ind' = true) by (apply Z.ltb_lt; clear - Hd; dlia). rewrite E. case_decide as E6.
      * rewrite E6 in Hind, Hcap, Hroom, Hlen |- *. assert (Hi : f_ind f = false) by (rewrite Hind; reflexivity).
        assert (E0 : ie_indirect e = 0) by (destruct (decide (ie_indirect e = 0)) as [|H0]; [done|]; apply (b_ind _ _ B) in H0; congruence).
        pose proof (ind_new I Hf Hi ltac:(lia)) as I1. set (s1 := set_freeblock (freeblock s + 1) s) in I1.
        set (f1 := mkF (put_indirect (freeblock s) e) true (f_cap f) (f_bytes f)) in I1.
        assert (Hf1 : <[k := f1]> fl !! k = Some f1) by (apply list_lookup_insert_eq; exact (lookup_lt_Some _ _ _ Hf)).
        destruct (indirect_run I1 Hf1 12 ltac:(lia) Hcap eq_refl ltac:(simpl; lia)) as (s' & Hrun & Hrest & Hs & Hfb & I').
        exists (put_indirect (freeblock s) e), (freeblock s1), s', ((own ++ [(k, -1)]) ++ [(k, 12)]). split_and!; [|by apply (rest_trans s s1)|done|done|simpl; lia|rewrite Hfb; simpl; lia|].
        -- change (6144 / 512) with 12. rewrite (indirect_first I E0 ltac:(lia)). exact Hrun.
        -- rewrite list_insert_insert_eq in I'. simpl in I'. rewrite Hcap in I'. exact I'.
      * assert (Hi : f_ind f = true) by (rewrite Hind; apply Z.ltb_lt; clear - Hd E6; dlia).
        destruct (indirect_run I Hf (off / 512) ltac:(clear - Ho Hd; dlia) Hc Hi ltac:(lia)) as (s' & Hrun & Hrest & Hs & Hfb & I').
        exists e, (freeblock s), s', (own ++ [(k, off / 512)]). rewrite Hcap in I'. split_and!; [done|done|done|done|lia|lia|exact I'].
  - assert (Hn : nbl (off + 1) = nbl off ∧ ind' = (6144 <? off) ∧ (off + 1 + 511) / 512 = (off + 511) / 512).
    { rewrite /nbl /ind'. destruct (Z.ltb_spec 6144 off), (Z.ltb_spec 6144 (off + 1)); simpl; split_and!; try done; clear -Hm H H0; dlia. }
    destruct Hn as (Hn & Hi & Hdiv). rewrite Hn in Hroom |- *.
    destruct (b_slot _ _ B (off / 512) ltac:(clear - Ho; dlia)) as (x & Hs & Hx). assert (Hx0 : x ≠ 0) by (apply Hx; rewrite Hcap; clear - Hm; dlia).
    exists e, x, s, own. split_and!; [|done|done|done|done|lia|].
    + apply (present_run I Hf); [clear - Ho; dlia|done|done|]. intros. rewrite Hind. apply Z.ltb_lt. clear - H Hm. dlia.
    + destruct (body_cap (blk s) f ind' (off + 1)) as [B' Hnb]; [done|congruence|lia|by rewrite Hcap| |].
      { intros. by apply Z.ltb_lt. }
      apply (rewrite_blocks s fl own k f _ s); try done; [apply (di_len _ _ _ I)|apply (di_ok _ _ _ I)|by left].
Qed.

(** Writing the next bytes into it. *)
Lemma put_run off x d bs (ind' := 6144 <? off + 1) :
  f_cap f = off + 1 → f_ind f = ind' → len f = off → fslot (blk s) e (off / 512) = Some x → x ≠ 0 → blk s x = Some d →
  bytes_ok bs → (0 < length bs)%nat → off mod 512 + Z.of_nat (length bs) ≤ 512 →
  let s' := put_blk x (splice d (Z.to_nat (off - off / 512 * 512)) bs) s in
  data_inv s' (<[k := whole e (f_bytes f ++ bs)]> fl) own.
Proof.
  intros Hcap Hind Hlen Hs Hx Hd Hbs Hn0 Hn s'. pose proof (di_body _ _ _ I k f Hf) as B. pose proof (b_cap _ _ B) as Hmax.
  assert (Ho : 0 ≤ off) by (rewrite -Hlen /len; lia). assert (Hk : 0 ≤ off / 512 < 140) by (clear - Ho Hmax Hcap; dlia).
  pose proof (ptr_range I k f (off / 512) x Hf ltac:(rewrite /ptr; lia) Hs Hx) as Hxr. pose proof (di_len _ _ _ I) as Himg.
  pose proof (blk_block_ok _ _ _ (di_ok _ _ _ I) Hd) as [Hdl Hdb]. set (o := Z.to_nat (off - off / 512 * 512)).
  assert (Hoz : Z.of_nat o = off mod 512) by (rewrite /o; clear - Ho; dlia).
  assert (Hfit : (o + length bs ≤ length d)%nat) by (rewrite Hdl; lia).
  assert (Hslot : ∀ r', fslot (blk s') e r' = fslot (blk s) e r').
  { intros r'. apply fslot_frame. intros _. apply blk_put_ne; [lia|]. intros E. by apply (data_ptr_not_ind I Hf (off / 512) x). }
  assert (Hl' : length (f_bytes f ++ bs) = (length (f_bytes f) + length bs)%nat) by (by rewrite length_app).
  rewrite /len in Hlen. set (m := Z.of_nat (length bs)) in *.
  assert (Hdiv : (off + m + 511) / 512 = (off + 1 + 511) / 512) by (clear - Hn Hn0 Ho m; subst m; dlia).
  destruct (body_cap (blk s) f ind' (off + m)) as [B' Hnb]; [done|done|rewrite /len Hlen; clear - Hn Hn0 Hmax Hcap Ho m; subst m; dlia|by rewrite Hcap| |].
  { intros. apply Z.ltb_lt. clear - H Hn Ho. dlia. }
  assert (Ei : (6144 <? off + m) = ind').
  { rewrite /ind'. destruct (Z.ltb_spec 6144 (off + m)), (Z.ltb_spec 6144 (off + 1)); try done; exfalso; clear - H H0 Hn Hn0 Ho m; subst m; dlia. }
  assert (Ew : whole e (f_bytes f ++ bs) = mkF e ind' (off + m) (f_bytes f ++ bs)).
  { rewrite /whole Hl'. replace (Z.of_nat (length (f_bytes f) + length bs)) with (off + m) by lia. by rewrite Ei. }
  apply (rewrite_blocks s fl own k f _ s'); try done.
  - simpl. by rewrite length_insert.
  - apply Forall_insert; [apply (di_ok _ _ _ I)|]. split; [rewrite length_splice //|by apply splice_ok].
  - intros b. destruct (decide (b = x)) as [->|Hne]; [right; right; exists (off / 512); split_and!; [rewrite /ptr; lia|done|done]|left; apply blk_put_ne; [lia|done]].
  - by rewrite Ew -Hnb.
  - rewrite Ew. destruct B' as [B1 B2 B3 B4 B5 B6 B7]. split; simpl; try done.
    + intros j Hj. rewrite Hslot. by apply B5.
    + rewrite /len /= Hl'. lia.
    + intros n Hnn. rewrite /len /= Hl' in Hnn. destruct (body_byte (blk s) (mkF e ind' (off + m) (f_bytes f)) n) as (p & Hp & Hp0 & Hnk); [by split|simpl; lia|]. simpl in Hp.
      destruct (decide (p = x)) as [->|Hne].
      * destruct (ptr_inj I k f (n / 512) k f (off / 512) x) as [_ Eq]; try done; [rewrite /ptr; lia..|].
        rewrite /file_byte. change BLOCK_SIZE with 512. rewrite fslot_data in Hp; [lia|]. rewrite -(fslot_data (blk s') e); [lia|]. rewrite Hslot fslot_data; [lia|].
        rewrite Hp /= (proj2 (Z.eqb_neq _ _) Hx) /s' blk_put_eq //; [lia|]. simpl. rewrite lookup_splice //. destruct (decide (n < off)) as [Hlt|Hge].
        -- rewrite decide_False; [rewrite Eq in Hnk; clear - Hlt Eq Hoz Ho Hnn; dlia|]. rewrite lookup_app_l; [lia|]. rewrite -(b_bytes _ _ B n); [rewrite /len; lia|].
           rewrite /file_byte. change BLOCK_SIZE with 512. by rewrite Hp /= (proj2 (Z.eqb_neq _ _) Hx) Hd.
        -- rewrite decide_True; [clear - Hge Eq Hoz Ho Hnn Hlen; dlia|]. rewrite lookup_app_r; [lia|]. f_equal. clear - Hge Eq Hoz Ho Hnn Hlen. dlia.
      * assert (Hlt : n < off).
        { destruct (decide (n < off)); [done|]. exfalso. apply Hne. assert (n / 512 = off / 512) as Eq by (clear - n0 Hnn Hlen Hn Ho m; subst m; dlia). rewrite Eq in Hp. congruence. }
        rewrite lookup_app_l; [lia|]. rewrite -(b_bytes _ _ B n); [rewrite /len; lia|]. apply (byte_frame _ _ _ _ _ p); [lia|done|by rewrite Hslot|].
        apply blk_put_ne; [lia|done].
Qed.
End step.

(** The loop. *)
Lemma loop_run fuel : ∀ s fl own k e l p n off,
  data_inv s fl own → fl !! k = Some (whole e l) → off = Z.of_nat (length l) → n = Z.of_nat (length p) → n ≤ Z.of_nat fuel → bytes_ok p → off + n ≤ 71680 →
  freeblock s + (nbl (off + n) - nbl off) ≤ 1000 →
  ∃ e' s' own', iappend_loop fuel e off p n s = Ret (e', off + n) s' ∧ rest s s' ∧ meta_of e' = meta_of e ∧
    data_inv s' (<[k := whole e' (l ++ p)]> fl) own'.
Proof.
  induction fuel as [|fuel IH]; intros s fl own k e l p n off I Hf Eo En Hn Hp Hmax Hroom.
  - assert (E0 : n = 0) by lia. assert (p = []) as -> by (destruct p; [done|simpl in En; lia]). rewrite E0. exists e, s, own.
    rewrite Z.add_0_r app_nil_r list_insert_id //.
  - cbn [iappend_loop]. destruct (Z.ltb_spec 0 n) as [Hpos|Hneg]; last first.
    { assert (E0 : n = 0) by lia. assert (p = []) as -> by (destruct p; [done|simpl in En; lia]). rewrite E0. exists e, s, own.
      rewrite Z.add_0_r app_nil_r list_insert_id //. }
    change BSIZE with 512. assert (Hk : 0 ≤ off / 512 < 140) by (clear - Eo Hpos Hmax; dlia).
    rewrite (proj2 (Z.ltb_lt (off / 512) INODE_MAX_BLOCKS)); [change INODE_MAX_BLOCKS with 140; lia|]. rewrite (bind_run _ _ _ () s) //.
    pose proof (nbl_mono (off + 1) (off + n) ltac:(lia)) as Hm1.
    destruct (block_run I Hf off) as (e1 & x & s1 & own1 & Hrun & Hr1 & He1 & Hs1 & Hx & Hfb & I1); [lia|by rewrite /= Eo|by rewrite /= Eo|rewrite /len /= Eo; lia|lia|].
    simpl in Hrun, I1. rewrite (bind_run _ _ _ _ _ Hrun). cbv beta iota.
    set (f1 := mkF e1 (6144 <? off + 1) (off + 1) l) in I1. assert (Hf1 : <[k := f1]> fl !! k = Some f1) by (apply list_lookup_insert_eq; exact (lookup_lt_Some _ _ _ Hf)).
    pose proof (ptr_range I1 k f1 (off / 512) x Hf1 ltac:(rewrite /ptr; lia) Hs1 Hx) as Hxr.
    destruct (blk_some s1 x (di_len _ _ _ I1) ltac:(lia)) as [d Hd].
    set (n1 := Z.min n ((off / 512 + 1) * 512 - off)). assert (Hn1 : 0 < n1 ≤ n ∧ off mod 512 + n1 ≤ 512) by (rewrite /n1; clear - Hpos Eo; dlia).
    rewrite /u32 (wrap_small 32 ((off / 512 + 1) * 512 - off)); [clear - Eo; dlia|]. fold n1. rewrite (wrap_small 32 (off + n1)); [lia|].
    rewrite (bind_run _ _ _ _ _ (rsect_run s1 x d ltac:(lia) Hd)). rewrite (bind_run _ _ _ _ _ (wsect_run s1 x _ (di_len _ _ _ I1) ltac:(lia))).
    assert (Hlt : length (take (Z.to_nat n1) p) = Z.to_nat n1) by (rewrite length_take; lia).
    pose proof (put_run I1 Hf1 off x d (take (Z.to_nat n1) p) eq_refl eq_refl ltac:(by rewrite /len /= Eo) Hs1 Hx Hd
      ltac:(by apply Forall_take) ltac:(lia) ltac:(rewrite Hlt; lia)) as I2. cbv zeta in I2. rewrite list_insert_insert_eq in I2. simpl in I2.
    set (s2 := put_blk x _ s1) in I2 |- *. set (l1 := l ++ take (Z.to_nat n1) p) in I2.
    assert (Hl1 : Z.of_nat (length l1) = off + n1) by (rewrite /l1 length_app Hlt; lia).
    destruct (IH s2 (<[k := whole e1 l1]> fl) own1 k e1 l1 (drop (Z.to_nat n1) p) (n - n1) (off + n1)) as (e' & s' & own' & Hrun' & Hr' & He' & I'); try done.
    + apply list_lookup_insert_eq. exact (lookup_lt_Some _ _ _ Hf).
    + rewrite length_drop. lia.
    + lia.
    + by apply Forall_drop.
    + lia.
    + replace (off + n1 + (n - n1)) with (off + n) by lia. change (freeblock s2) with (freeblock s1). rewrite Hfb.
      assert (nbl (off + n1) = nbl (off + 1)); [|lia]. clear - Hn1 Eo. rewrite /nbl. f_equal; [dlia|]. f_equal.
      destruct (Z.ltb_spec 6144 (off + n1)), (Z.ltb_spec 6144 (off + 1)); try done; exfalso; dlia.
    + exists e', s', own'. rewrite Hrun'. replace (off + n1 + (n - n1)) with (off + n) by lia. split_and!; [done| |by rewrite He' He1|].
      * apply (rest_trans s s1); [done|]. apply (rest_trans s1 s2); [|done]. split; [done..|]. intros b Hb. apply blk_put_ne; lia.
      * rewrite list_insert_insert_eq /l1 -app_assoc take_drop in I'. exact I'.
Qed.
