(* ===== verification/MkfsImage.v ===== *)
(** * Making an image

    The whole of the program: the inodes it writes, the files, the root directory and the
    bitmap, and what the kernel reads back. *)

From stdpp Require Import base numbers list.
From S2P Require Import Prelude Bitmap Bytes FsDefs BlockCache Cache CacheOps CacheAlloc Console Inode InodeRead InodeWrite Mkfs MkfsInv MkfsAppend.

Notation zlen l := (Z.of_nat (length l)).

(** ** Inodes on the image *)
Definition ient (s : mkfs) (inum : Z) : InodeEntry := decode_entry (slice (default [] (blk s (65 + inum / 8))) (entry_pos inum) 64).
Definition blank : InodeEntry := mkEntry 0 0 0 0 0 (replicate 12 0) 0.

Lemma IBLOCK_super inum : 0 ≤ inum < 208 → IBLOCK inum the_super = 65 + inum / 8.
Proof.
  intros H. rewrite /IBLOCK. change IPB with 8. change (inode_start the_super) with 65. rewrite /u32 wrap_small; [clear - H; dlia|lia].
Qed.
Lemma entry_pos_fits inum : (entry_pos inum + 64 ≤ 512)%nat.
Proof. rewrite /entry_pos. change IPB with 8. dlia. Qed.
Lemma entry_pos_other i j : 0 ≤ i → 0 ≤ j → i ≠ j → i / 8 = j / 8 → (entry_pos j + 64 ≤ entry_pos i ∨ entry_pos i + 64 ≤ entry_pos j)%nat.
Proof. intros. rewrite /entry_pos. change IPB with 8. dlia. Qed.

(** What makes the image one the operations work on. *)
Record base_ok (s : mkfs) : Prop := { bo_len : length (img s) = 1000%nat; bo_ok : Forall block_ok (img s); bo_sb : fs_sb s = the_super }.
Lemma base_block s b : base_ok s → 0 ≤ b < 1000 → ∃ d, blk s b = Some d ∧ block_ok d.
Proof. intros B Hb. destruct (blk_some s b (bo_len _ B) Hb) as [d Hd]. exists d. split; [done|]. by apply (blk_block_ok s b d (bo_ok _ B)). Qed.

Lemma rinode_run s inum : base_ok s → 0 ≤ inum < 208 → rinode inum s = Ret (ient s inum) s.
Proof.
  intros B Hi. rewrite /rinode (bind_run _ _ _ (fs_sb s) s) // (bo_sb _ B) IBLOCK_super //.
  destruct (base_block s (65 + inum / 8) B ltac:(clear - Hi; dlia)) as (d & Hd & _).
  rewrite (bind_run _ _ _ _ _ (rsect_run s (65 + inum / 8) d ltac:(clear - Hi; dlia) Hd)). by rewrite /ient Hd.
Qed.
Lemma winode_run s inum e : base_ok s → 0 ≤ inum < 208 → entry_ok e →
  ∃ s', winode inum e s = Ret () s' ∧ base_ok s' ∧ freeinode s' = freeinode s ∧ freeblock s' = freeblock s ∧
    (∀ b, b ≠ 65 + inum / 8 → blk s' b = blk s b) ∧ ient s' inum = e ∧ (∀ j, 0 ≤ j < 208 → j ≠ inum → ient s' j = ient s j).
Proof.
  intros B Hi He. assert (Hb : 65 ≤ 65 + inum / 8 < 91) by (clear - Hi; dlia). destruct (base_block s (65 + inum / 8) B ltac:(lia)) as (d & Hd & Hdl & Hdb).
  pose proof (entry_pos_fits inum) as Hfit. pose proof (length_encode_entry e He) as Hle.
  pose proof (encode_entry_bytes e) as Heb. destruct He as (H1 & H2 & H3 & H4 & H5 & H6 & H7). specialize (Heb H6) as [_ Heb].
  set (d' := splice d (entry_pos inum) (encode_entry e)).
  assert (Hd' : blk (put_blk (65 + inum / 8) d' s) (65 + inum / 8) = Some d') by (apply blk_put_eq; [apply B|lia]).
  exists (put_blk (65 + inum / 8) d' s). split_and!.
  - rewrite /winode (bind_run _ _ _ (fs_sb s) s) // (bo_sb _ B) IBLOCK_super // (bind_run _ _ _ _ _ (rsect_run s (65 + inum / 8) d ltac:(lia) Hd)).
    apply wsect_run; [apply B|lia].
  - split; [simpl; rewrite length_insert; apply B| |apply B]. apply Forall_insert; [apply B|]. split; [rewrite length_splice ?Hle ?Hdl //|by apply splice_ok].
  - done.
  - done.
  - intros b Hne. apply blk_put_ne; [lia|done].
  - rewrite /ient Hd' /= -Hle /d' slice_splice_same; [rewrite Hle Hdl; lia|]. by apply decode_encode_entry.
  - intros j Hj Hne. rewrite /ient. destruct (decide (j / 8 = inum / 8)) as [E|E].
    + rewrite E Hd' Hd /= /d' slice_splice_other //; [rewrite Hle Hdl; lia|]. rewrite Hle. apply entry_pos_other; lia.
    + rewrite blk_put_ne //; lia.
Qed.

(** ** The invariant of the program *)
Implicit Types files : list (Z * list Z).
Definition fdatas (s : mkfs) files : list fdata := imap (λ k f, whole (ient s (1 + Z.of_nat k)) f.2) files.
Definition ftotal files : Z := foldr (λ f n, nbl (zlen f.2) + n) 0 files.

Record fs_inv (s : mkfs) files (own : list (nat * Z)) : Prop := mkFs {
  fi_base : base_ok s;
  fi_ino : freeinode s = 1 + zlen files;
  fi_few : zlen files ≤ 207;
  fi_data : data_inv s (fdatas s files) own;
  fi_ent k t l : files !! k = Some (t, l) → 0 ≤ t < 2 ^ 16 ∧ meta_of (ient s (1 + Z.of_nat k)) = (t, 0, 0, 1, zlen l);
  fi_blank j : freeinode s ≤ j < 208 → ient s j = blank;
  fi_super : blk s 1 = Some (splice zeroes 0 (encode_super the_super));
  fi_zero b : b = 0 ∨ 2 ≤ b < 65 ∨ b = 91 → blk s b = Some zeroes }.

Lemma data_meta s s' fl own : data_inv s fl own → base_ok s' → freeblock s' = freeblock s → (∀ b, 92 ≤ b → blk s' b = blk s b) → data_inv s' fl own.
Proof.
  intros I B Hf Hb. pose proof (free_range I) as Hfr.
  assert (Ho : only (s := s) (own := own) (length fl) (blk s')) by (intros b; destruct (decide (92 ≤ b)); [left; auto|right; left; lia]).
  assert (Hne : ∀ k f, fl !! k = Some f → k ≠ length fl) by (intros k f Hk; apply lookup_lt_Some in Hk; lia).
  destruct I as [I1 I2 I3 I4 I5 I6 I7 I8 I9] eqn:E. split; try (rewrite ?Hf; done); [apply B|apply B| | |].
  - intros b Hbb. rewrite Hf in Hbb. rewrite Hb; [lia|auto].
  - intros k f Hk. apply (only_body (mkData _ _ _ I1 I2 I3 I4 I5 I6 I7 I8 I9) (length fl) (blk s') k f Ho (Hne _ _ Hk) Hk).
  - intros k f r b Hk Hr Hs Hb0. rewrite (only_slot (mkData _ _ _ I1 I2 I3 I4 I5 I6 I7 I8 I9) (length fl) (blk s') k f r Ho (Hne _ _ Hk) Hk) in Hs.
    rewrite Hf. by apply (I9 k f).
Qed.
Lemma total_imap files : ∀ g, total (imap (λ k f, whole (g k) f.2) files) = ftotal files.
Proof.
  induction files as [|f files IH]; intros g; [done|]. cbn [imap total foldr ftotal]. f_equal. exact (IH (λ k, g (S k))).
Qed.
Lemma total_fdatas s files : total (fdatas s files) = ftotal files.
Proof. exact (total_imap files (λ k, ient s (1 + Z.of_nat k))). Qed.
Lemma fs_free s files own : fs_inv s files own → freeblock s = 92 + ftotal files.
Proof. intros I. rewrite -(total_fdatas s). apply (di_free _ _ _ (fi_data _ _ _ I)). Qed.
Lemma fdatas_lookup s files k f : files !! k = Some f → fdatas s files !! k = Some (whole (ient s (1 + Z.of_nat k)) f.2).
Proof. intros H. by rewrite /fdatas list_lookup_imap H. Qed.

(** The pointers of a file fit in its entry. *)
Lemma ent_ok s fl own k f t n : data_inv s fl own → fl !! k = Some f → meta_of (f_ent f) = (t, 0, 0, 1, n) → 0 ≤ t < 2 ^ 16 → 0 ≤ n < 2 ^ 32 → entry_ok (f_ent f).
Proof.
  intros I Hk [= E1 E2 E3 E4 E5] Ht Hn. pose proof (di_body _ _ _ I k f Hk) as B. pose proof (b_addrs _ _ B) as Hl.
  assert (Hp : ∀ r p, ptr r → fslot (blk s) (f_ent f) r = Some p → 0 ≤ p < 2 ^ 32).
  { intros r p Hr Hs. destruct (decide (p = 0)); [lia|]. pose proof (ptr_range I k f r p Hk Hr Hs n0). lia. }
  split_and!; try lia; [|apply (Hp (-1) (ie_indirect (f_ent f))); [rewrite /ptr; lia|done]..].
  apply Forall_lookup. intros j a Ha. pose proof (lookup_lt_Some _ _ _ Ha) as Hj. apply (Hp (Z.of_nat j)); [rewrite /ptr; lia|].
  rewrite fslot_data /block_index; [lia|]. rewrite (proj2 (Z.ltb_lt _ _)); [rewrite /INODE_NUM_DIRECT; lia|]. by rewrite Nat2Z.id.
Qed.

Lemma base_rest s s' fl own : base_ok s → data_inv s' fl own → rest s s' → base_ok s'.
Proof. intros B I R. split; [apply (di_len _ _ _ I)|apply (di_ok _ _ _ I)|]. by rewrite (r_sb _ _ R) (bo_sb _ B). Qed.
Lemma ient_rest s s' j : rest s s' → 0 ≤ j < 208 → ient s' j = ient s j.
Proof. intros R Hj. rewrite /ient (r_meta _ _ R) //. clear - Hj. dlia. Qed.

Lemma iappend_run s files own k t l p :
  fs_inv s files own → files !! k = Some (t, l) → bytes_ok p → zlen l + zlen p ≤ 71680 →
  freeblock s + (nbl (zlen l + zlen p) - nbl (zlen l)) ≤ 1000 →
  ∃ s' own', iappend (1 + Z.of_nat k) p (zlen p) s = Ret () s' ∧ fs_inv s' (<[k := (t, l ++ p)]> files) own'.
Proof.
  intros I Hk Hp Hmax Hroom. pose proof (fi_base _ _ _ I) as B. pose proof (fi_few _ _ _ I) as Hfew. pose proof (lookup_lt_Some _ _ _ Hk) as Hlt.
  set (inum := 1 + Z.of_nat k). assert (Hi : 0 ≤ inum < 208) by lia. destruct (fi_ent _ _ _ I k t l Hk) as [Ht Hm].
  pose proof (fdatas_lookup s files k _ Hk) as Hf. simpl in Hf. fold inum in Hm, Hf.
  assert (Hnb : ie_num_bytes (ient s inum) = zlen l) by (by injection Hm).
  rewrite /iappend (bind_run _ _ _ _ _ (rinode_run s inum B Hi)). rewrite xint_small; [lia|]. rewrite Hnb.
  destruct (loop_run (Z.to_nat (zlen p)) s (fdatas s files) own k (ient s inum) l p (zlen p) (zlen l)) as (e' & s1 & own1 & Hrun & Hr & He & I1);
    [apply I|done|done|done|lia|done|done|done|].
  rewrite (bind_run _ _ _ _ _ Hrun). cbv beta iota. rewrite xint_small; [lia|].
  set (e2 := put_size (zlen l + zlen p) e'). set (f2 := whole e2 (l ++ p)).
  assert (Hkl : (k < length (fdatas s files))%nat) by (rewrite length_imap; done).
  assert (I2 : data_inv s1 (<[k := f2]> (fdatas s files)) own1).
  { rewrite -(list_insert_insert_eq (fdatas s files) k f2 (whole e' (l ++ p))).
    apply (rewrite_blocks s1 _ own1 k (whole e' (l ++ p)) f2 s1 I1); try done; [by apply list_lookup_insert_eq|apply (di_len _ _ _ I1)|apply (di_ok _ _ _ I1)|by left|].
    destruct (di_body _ _ _ I1 k (whole e' (l ++ p)) (list_lookup_insert_eq _ _ _ Hkl)) as [B1 B2 B3 B4 B5 B6 B7]. by split. }
  assert (Hf2 : <[k := f2]> (fdatas s files) !! k = Some f2) by (by apply list_lookup_insert_eq).
  assert (Hm2 : meta_of e2 = (t, 0, 0, 1, zlen l + zlen p)) by (rewrite Hm in He; injection He as E1 E2 E3 E4 _; by rewrite /e2 /meta_of /= E1 E2 E3 E4).
  assert (Hok2 : entry_ok e2) by (apply (ent_ok s1 _ own1 k f2 t (zlen l + zlen p) I2 Hf2 Hm2 Ht); lia).
  pose proof (base_rest s s1 _ _ B I1 Hr) as Bs1.
  destruct (winode_run s1 inum e2 Bs1 Hi Hok2) as (s2 & Hrun2 & Bs2 & Hino2 & Hfb2 & Hblk2 & He2 & Hoth2).
  exists s2, own1. split; [done|].
  assert (Hent : ∀ j, 0 ≤ j < 208 → j ≠ inum → ient s2 j = ient s j) by (intros j Hj Hne; rewrite Hoth2 // (ient_rest s s1) //).
  assert (Hdiv : 65 ≤ 65 + inum / 8 < 91) by (clear - Hi; dlia).
  assert (Hlow : ∀ b, b < 92 → b ≠ 65 + inum / 8 → blk s2 b = blk s b) by (intros b Hb Hne; rewrite Hblk2 //; by apply (r_meta _ _ Hr)).
  split.
  - done.
  - rewrite Hino2 (r_ino _ _ Hr) length_insert. apply (fi_ino _ _ _ I).
  - by rewrite length_insert.
  - replace (fdatas s2 (<[k := (t, l ++ p)]> files)) with (<[k := f2]> (fdatas s files)).
    + apply (data_meta s1); [done..|]. intros b Hb. apply Hblk2. lia.
    + apply list_eq. intros j. rewrite list_lookup_imap. destruct (decide (j = k)) as [->|Hne].
      * rewrite !list_lookup_insert_eq //. by rewrite /= -/inum He2.
      * rewrite !list_lookup_insert_ne; [congruence..|]. rewrite list_lookup_imap. destruct (files !! j) as [[t' l']|] eqn:Ej; [|done]. simpl.
        apply lookup_lt_Some in Ej. by rewrite Hent; [lia|rewrite /inum; lia|].
  - intros j t' l' Hj. destruct (decide (j = k)) as [->|Hne].
    + rewrite list_lookup_insert_eq // in Hj. injection Hj as <- <-. rewrite -/inum He2. split; [done|]. by rewrite Hm2 length_app Nat2Z.inj_add.
    + rewrite list_lookup_insert_ne in Hj; [congruence|]. pose proof (lookup_lt_Some _ _ _ Hj). rewrite Hent; [lia|rewrite /inum; lia|]. by apply (fi_ent _ _ _ I).
  - intros j Hj. rewrite Hino2 (r_ino _ _ Hr) in Hj. pose proof (fi_ino _ _ _ I). rewrite Hent; [lia|rewrite /inum; lia|]. by apply (fi_blank _ _ _ I).
  - rewrite Hlow; [lia..|]. apply (fi_super _ _ _ I).
  - intros b Hb. rewrite Hlow; [lia..|]. by apply (fi_zero _ _ _ I).
Qed.

Lemma data_snoc s fl own e : data_inv s fl own → ie_indirect e = 0 → ie_addrs e = replicate 12 0 → data_inv s (fl ++ [whole e []]) own.
Proof.
  intros I Hi Ha. assert (Htot : total (fl ++ [whole e []]) = total fl).
  { clear. induction fl as [|f fl IH]; [done|]. simpl. by rewrite IH. }
  assert (Hs : ∀ r, ptr r → fslot (blk s) e r = Some 0).
  { intros r Hr. rewrite /ptr in Hr. rewrite /fslot Hi. destruct (Z.eqb_spec r (-1)); [done|]. rewrite /block_index Ha Hi.
    destruct (Z.ltb_spec r INODE_NUM_DIRECT) as [Hd|Hd]; rewrite /INODE_NUM_DIRECT in Hd; [apply lookup_replicate_2; lia|].
    rewrite (proj2 (Z.ltb_lt _ _)); [|done]. change INODE_NUM_INDIRECT with 128. rewrite /INODE_NUM_DIRECT. lia. }
  destruct I as [I1 I2 I3 I4 I5 I6 I7 I8 I9]. split; rewrite ?Htot; try done.
  - intros k f [Hk|[Hk Hf]]%lookup_app_Some; [by apply (I8 k)|]. apply list_lookup_singleton_Some in Hf as [_ <-].
    split; cbn [f_ent f_cap f_ind f_bytes whole length]; [by rewrite Ha|lia|by rewrite Hi|lia| |by rewrite /len /=|intros n; rewrite /len /=; lia]. intros j Hj. exists 0. rewrite Hs; [rewrite /ptr; lia|]. split; [done|lia].
  - intros k f r b [Hk|[Hk Hf]]%lookup_app_Some Hr Hsl Hb; [by apply (I9 k f)|]. apply list_lookup_singleton_Some in Hf as [_ <-]. simpl in Hsl.
    rewrite Hs // in Hsl. congruence.
Qed.

Lemma ialloc_run s files own t :
  fs_inv s files own → zlen files < 207 → 0 ≤ t < 2 ^ 16 →
  ∃ s', ialloc t s = Ret (1 + zlen files) s' ∧ fs_inv s' (files ++ [(t, [])]) own.
Proof.
  intros I Hn Ht. pose proof (fi_base _ _ _ I) as B. pose proof (fi_ino _ _ _ I) as Hino. set (inum := 1 + zlen files). assert (Hi : 0 ≤ inum < 208) by lia.
  set (e := mkEntry t 0 0 1 0 (replicate 12 0) 0).
  assert (Hok : entry_ok e) by (split_and!; simpl; try lia; repeat constructor; lia).
  set (s1 := set_freeinode (inum + 1) s). assert (B1 : base_ok s1) by (by destruct B).
  destruct (winode_run s1 inum e B1 Hi Hok) as (s2 & Hrun2 & Bs2 & Hino2 & Hfb2 & Hblk2 & He2 & Hoth2).
  assert (Hdiv : 65 ≤ 65 + inum / 8 < 91) by (clear - Hi; dlia). exists s2. split.
  - rewrite /ialloc (bind_run _ _ _ inum s); [by rewrite /gets Hino|]. rewrite /u32 (wrap_small 32 (inum + 1)); [lia|].
    rewrite (bind_run _ _ _ () s1) //. rewrite xshort_small //. rewrite (bind_run _ _ _ () s2) //.
  - split.
    + done.
    + rewrite Hino2 length_app /=. lia.
    + rewrite length_app /=. lia.
    + rewrite /fdatas imap_app /= Nat.add_0_r -/inum He2. apply data_snoc; [|done|done].
      replace (imap _ files) with (fdatas s files).
      * apply (data_meta s); [apply I|done|done|]. intros b Hb. apply Hblk2. lia.
      * apply imap_ext. intros j f Hj. apply lookup_lt_Some in Hj. rewrite Hoth2 //; rewrite /inum; lia.
    + intros j t' l' [Hj|[Hj Hf]]%lookup_app_Some.
      * pose proof (lookup_lt_Some _ _ _ Hj). rewrite Hoth2; [lia|rewrite /inum; lia|]. by apply (fi_ent _ _ _ I).
      * apply list_lookup_singleton_Some in Hf as [Hj0 [= <- <-]]. replace (1 + Z.of_nat j) with inum by (rewrite /inum; lia). by rewrite He2.
    + intros j Hj. rewrite Hino2 in Hj. simpl in Hj. rewrite Hoth2; [lia..|]. apply (fi_blank _ _ _ I). rewrite Hino. lia.
    + rewrite Hblk2; [lia|]. apply (fi_super _ _ _ I).
    + intros b Hb. rewrite Hblk2; [lia|]. by apply (fi_zero _ _ _ I).
Qed.
