(* ===== verification/MkfsMain.v ===== *)
(** * The image [mkfs] makes *)

From stdpp Require Import base numbers list.
From S2P Require Import Prelude Bitmap Bytes FsDefs BlockCache Cache CacheOps CacheAlloc Console Inode InodeRead Mkfs MkfsInv MkfsAppend MkfsImage.

(** ** The bitmap *)
Lemma byte_high b n : byte_ok b → 8 ≤ n → Z.testbit b n = false.
Proof.
  rewrite /byte_ok. intros Hb Hn. apply Z.bits_above_log2; [lia|]. destruct (decide (b = 0)) as [->|]; [simpl; lia|]. apply Z.log2_lt_pow2; [lia|].
  apply Z.lt_le_trans with (2 ^ 8); [lia|]. apply Z.pow_le_mono_r; lia.
Qed.
Lemma testbit_le_val l : bytes_ok l → ∀ i, 0 ≤ i → Z.testbit (le_val l) i = Z.testbit (default 0 (l !! Z.to_nat (i / 8))) (i mod 8).
Proof.
  induction 1 as [|b l Hb Hl IH]; intros i Hi; [by rewrite lookup_nil /= !Z.testbit_0_l|]. cbn [le_val].
  assert (E : b + 256 * le_val l = Z.lor b (Z.shiftl (le_val l) 8)).
  { rewrite Z.shiftl_mul_pow2 // (Z.mul_comm _ (2 ^ 8)). change 256 with (2 ^ 8). symmetry. rewrite -Z.add_lor_land.
    replace (Z.land b (2 ^ 8 * le_val l)) with 0; [lia|]. symmetry. apply Z.bits_inj'. intros n Hn. rewrite Z.land_spec Z.testbit_0_l.
    rewrite (Z.mul_comm (2 ^ 8)) -Z.shiftl_mul_pow2 // Z.shiftl_spec //. destruct (decide (n < 8)).
    - rewrite (Z.testbit_neg_r _ (n - 8)); [lia|]. by rewrite andb_false_r.
    - by rewrite (byte_high b n Hb); [lia|]. }
  rewrite E Z.lor_spec Z.shiftl_spec //. destruct (decide (i < 8)) as [Hlt|Hge].
  - rewrite (Z.testbit_neg_r _ (i - 8)); [lia|]. rewrite orb_false_r Z.div_small; [lia|]. by rewrite Z.mod_small; [lia|].
  - rewrite (byte_high b i Hb); [lia|]. rewrite orb_false_l IH; [lia|]. replace (i mod 8) with ((i - 8) mod 8) by (clear - Hge; dlia).
    replace (Z.to_nat (i / 8)) with (S (Z.to_nat ((i - 8) / 8))) by (clear - Hge; dlia). done.
Qed.
Lemma words_lookup w n l i : (i < n)%nat → words w n l !! i = Some (le_val (slice l (w * i) w)).
Proof.
  revert l i. induction n as [|n IH]; intros l [|i] Hi; [lia..| |].
  - simpl. by rewrite Nat.mul_0_r /slice drop_0.
  - change (words w n (drop w l) !! i = Some (le_val (slice l (w * S i) w))). rewrite IH; [lia|]. rewrite /slice drop_drop.
    by replace (w * S i)%nat with (w + w * i)%nat by lia.
Qed.

Lemma set_bits_spec n : ∀ i buf, 0 ≤ i → i + Z.of_nat n ≤ 4096 → length buf = 512%nat → bytes_ok buf →
  block_ok (set_bits n i buf) ∧ ∀ j, 0 ≤ j < 4096 →
    Z.testbit (default 0 (set_bits n i buf !! Z.to_nat (j / 8))) (j mod 8) = Z.testbit (default 0 (buf !! Z.to_nat (j / 8))) (j mod 8) || ((i <=? j) && (j <? i + Z.of_nat n)).
Proof.
  induction n as [|n IH]; intros i buf Hi Hn Hl Hb.
  - split; [done|]. intros j Hj. cbn [set_bits]. destruct (Z.leb_spec i j), (Z.ltb_spec j (i + Z.of_nat 0)); try lia; by rewrite /= orb_false_r.
  - cbn [set_bits]. set (c := default 0 (buf !! Z.to_nat (i / 8))). set (c' := u8 (Z.lor c (Z.shiftl 1 (i mod 8)))).
    assert (Hc' : byte_ok c') by (apply (wrap_range 8); lia).
    destruct (IH (i + 1) (<[Z.to_nat (i / 8) := c']> buf)) as [Hok Hbit]; [lia|lia|by rewrite length_insert|by apply Forall_insert|].
    split; [done|]. intros j Hj. rewrite Hbit //.
    assert (E : Z.testbit (default 0 (<[Z.to_nat (i / 8) := c']> buf !! Z.to_nat (j / 8))) (j mod 8) = Z.testbit (default 0 (buf !! Z.to_nat (j / 8))) (j mod 8) || (j =? i)).
    { assert (Hmj : 0 ≤ j mod 8 < 8) by (apply Z.mod_pos_bound; lia). assert (Hmi : 0 ≤ i mod 8 < 8) by (apply Z.mod_pos_bound; lia).
      destruct (decide (j / 8 = i / 8)) as [Ed|Ed].
      - rewrite Ed list_lookup_insert_eq; [rewrite Hl; clear - Hi Hn; dlia|]. rewrite /= /c' /u8 /wrap Z.mod_pow2_bits_low; [lia|].
        rewrite Z.lor_spec -/c. f_equal. rewrite Z.shiftl_spec; [lia|]. destruct (Z.eqb_spec j i) as [->|Hne].
        + by rewrite Z.sub_diag.
        + assert (j mod 8 ≠ i mod 8) by (clear - Ed Hne; dlia). destruct (decide (j mod 8 < i mod 8)); [by rewrite Z.testbit_neg_r; [lia|]|].
          rewrite Z.bits_above_log2 //. simpl. lia.
      - rewrite list_lookup_insert_ne; [clear - Ed Hi Hj; dlia|]. rewrite (proj2 (Z.eqb_neq j i)); [by intros ->|]. by rewrite orb_false_r. }
    rewrite E. destruct (Z.eqb_spec j i), (Z.leb_spec (i + 1) j), (Z.leb_spec i j), (Z.ltb_spec j (i + 1 + Z.of_nat n)), (Z.ltb_spec j (i + Z.of_nat (S n)));
      simpl; rewrite ?orb_true_r ?orb_false_r; try done; lia.
Qed.
Lemma zeroes_ok : block_ok zeroes.
Proof. split; [done|]. by apply Forall_replicate. Qed.
Lemma zeroes_lookup i : default 0 (zeroes !! i) = 0.
Proof. rewrite /zeroes. destruct (decide (i < 512)%nat) as [H|H]; [by rewrite lookup_replicate_2|]. by rewrite lookup_ge_None_2; [rewrite length_replicate; lia|]. Qed.

Lemma bitmap_used n c b : 0 ≤ n ≤ 4096 → 0 ≤ b < 4096 → c 91 = Some (set_bits (Z.to_nat n) 0 zeroes) → used the_super c b = Some (b <? n).
Proof.
  intros Hn Hb Hc. destruct (set_bits_spec (Z.to_nat n) 0 zeroes) as [[Hl Hok] Hbit]; [lia|lia|done|apply zeroes_ok|].
  rewrite /used /bitmap_block_of /BIT_PER_BLOCK /BLOCK_SIZE. change (512 * 8) with 4096. rewrite Z.div_small // Z.mod_small //. change (0 + bitmap_start the_super) with 91.
  rewrite Hc /=. rewrite bitmap_get_testbit; [lia|]. rewrite /data_cells words_lookup; [clear - Hb; dlia|]. cbn [fmap option_fmap option_map]. f_equal.
  set (d := set_bits _ _ _) in *. assert (Hcell : (8 * Z.to_nat (b / 64) + 8 ≤ 512)%nat) by (clear - Hb; dlia).
  rewrite testbit_le_val; [by apply slice_ok|clear - Hb; dlia|].
  rewrite lookup_slice decide_True; [clear - Hb; dlia|].
  replace (8 * Z.to_nat (b / 64) + Z.to_nat (b mod 64 / 8))%nat with (Z.to_nat (b / 8)) by (clear - Hb; dlia).
  replace ((b mod 64) mod 8) with (b mod 8) by (clear - Hb; dlia). rewrite Hbit // zeroes_lookup Z.testbit_0_l.
  rewrite orb_false_l (proj2 (Z.leb_le 0 b)); [lia|]. by rewrite Z.add_0_l Z2Nat.id; [lia|].
Qed.

(** ** The files that are copied *)
(** The bytes of a file: its reads up to the first empty one. *)
Fixpoint copied (l : list (list Z)) : list Z := match l with [] => [] | b :: l => if bool_decide (b = []) then [] else b ++ copied l end.
Definition contents (f : host_file) : list Z := copied (default [] (reads f)).
Fixpoint dirents (i : Z) (l : list host_file) : list Z :=
  match l with [] => [] | f :: l => dirent i (fs_name (path f)) ++ dirents (i + 1) l end.
Definition new_files (hs : list host_file) : list (Z * list Z) := (λ f, (INODE_REGULAR, contents f)) <$> hs.
Definition mk_files (hs : list host_file) : list (Z * list Z) :=
  (INODE_DIRECTORY, dirent 1 [46] ++ dirent 1 [46; 46] ++ dirents 2 hs) :: new_files hs.

(** A file of the host that can be read, consists of bytes and is not too long. *)
Definition host_ok (f : host_file) : Prop :=
  is_Some (reads f) ∧ Forall bytes_ok (default [] (reads f)) ∧ bytes_ok (path f) ∧ zlen (contents f) ≤ 71680.

Lemma nbl_pos n : 0 ≤ n → 0 ≤ nbl n.
Proof. intros. pose proof (nbl_mono 0 n ltac:(lia)). change (nbl 0) with 0 in *. lia. Qed.
Lemma ftotal_cons t l (a : list (Z * list Z)) : ftotal ((t, l) :: a) = nbl (zlen l) + ftotal a.
Proof. done. Qed.
Lemma ftotal_app (a b : list (Z * list Z)) : ftotal (a ++ b) = ftotal a + ftotal b.
Proof. induction a as [|x a IH]; [done|]. simpl. rewrite IH. lia. Qed.
Lemma ftotal_pos (a : list (Z * list Z)) : 0 ≤ ftotal a.
Proof. induction a as [|x a IH]; [done|]. simpl. pose proof (nbl_pos (zlen x.2) ltac:(lia)). lia. Qed.
Lemma ftotal_insert k t l t' l' (a : list (Z * list Z)) : a !! k = Some (t, l) → ftotal (<[k := (t', l')]> a) = ftotal a + nbl (zlen l') - nbl (zlen l).
Proof. revert k. induction a as [|x a IH]; intros [|k]; simpl; [done..|intros [= ->]; simpl; lia|]. intros H. rewrite (IH k H). lia. Qed.

(** [iappend] when the files after it fit. *)
Lemma append_run s files own k t l p (files' := <[k := (t, l ++ p)]> files) :
  fs_inv s files own → files !! k = Some (t, l) → bytes_ok p → zlen l + zlen p ≤ 71680 → 92 + ftotal files' ≤ 1000 →
  ∃ s' own', iappend (1 + Z.of_nat k) p (zlen p) s = Ret () s' ∧ fs_inv s' files' own'.
Proof.
  intros I Hk Hp Hmax Hroom. apply (iappend_run s files own k t l p I Hk Hp Hmax). rewrite (fs_free _ _ _ I).
  rewrite /files' (ftotal_insert k t l) // length_app Nat2Z.inj_add in Hroom. lia.
Qed.

Lemma copy_run rs : ∀ s files own k t l, fs_inv s files own → files !! k = Some (t, l) → Forall bytes_ok rs →
  zlen l + zlen (copied rs) ≤ 71680 → 92 + ftotal (<[k := (t, l ++ copied rs)]> files) ≤ 1000 →
  ∃ s' own', copy_reads (1 + Z.of_nat k) rs s = Ret () s' ∧ fs_inv s' (<[k := (t, l ++ copied rs)]> files) own'.
Proof.
  induction rs as [|b rs IH]; intros s files own k t l I Hk Hb Hmax Hroom; cbn [copied copy_reads] in *.
  { exists s, own. rewrite app_nil_r list_insert_id //. }
  apply Forall_cons in Hb as [Hb Hbs]. case_bool_decide as Eb.
  { subst b. exists s, own. rewrite app_nil_r list_insert_id //. }
  assert (Hpos : 0 < zlen b) by (destruct b; [done|simpl; lia]). rewrite (proj2 (Z.ltb_lt _ _) Hpos).
  rewrite length_app in Hmax. pose proof (lookup_lt_Some _ _ _ Hk) as Hlt.
  destruct (append_run s files own k t l b) as (s1 & own1 & Hrun & I1); [done..|lia| |].
  { rewrite (ftotal_insert k t l) // in Hroom. rewrite (ftotal_insert k t l) //. rewrite !length_app in Hroom |- *.
    pose proof (nbl_mono (Z.of_nat (length l + length b)) (Z.of_nat (length l + (length b + length (copied rs)))) ltac:(lia)). lia. }
  rewrite (bind_run _ _ _ _ _ Hrun).
  destruct (IH s1 _ own1 k t (l ++ b) I1) as (s2 & own2 & Hrun2 & I2); [by apply list_lookup_insert_eq|done|rewrite length_app; lia| |].
  { rewrite list_insert_insert_eq -app_assoc. exact Hroom. }
  exists s2, own2. split; [done|]. rewrite list_insert_insert_eq -app_assoc in I2. exact I2.
Qed.

(** ** Names *)
Lemma base_len_spec l : ∀ j, 0 ≤ j → 0 ≤ base_len l j ≤ j + zlen l ∧ 47 ∉ drop (length l - Z.to_nat (base_len l j)) l.
Proof.
  induction l as [|c l IH]; intros j Hj; cbn [base_len].
  - rewrite drop_nil. split; [simpl; lia|set_solver].
  - set (j' := (if c =? 47 then -1 else j) + 1). assert (Hj' : 0 ≤ j' ≤ j + 1) by (rewrite /j'; destruct (c =? 47); lia).
    destruct (IH j' ltac:(lia)) as [Hm Hd]. set (m := base_len l j') in *. split; [simpl; lia|].
    destruct (decide (Z.to_nat m ≤ length l)%nat) as [Hle|Hgt].
    + simpl. destruct (Z.to_nat m) as [|m'] eqn:Em; [rewrite drop_ge //=; set_solver|].
      replace (S (length l) - S m')%nat with (S (length l - S m')) by lia. exact Hd.
    + replace (length (c :: l) - Z.to_nat m)%nat with 0%nat by (simpl; lia). replace (length l - Z.to_nat m)%nat with 0%nat in Hd by lia.
      rewrite drop_0 in Hd |- *. apply not_elem_of_cons. split; [|done]. intros <-. rewrite /j' /= in Hm. lia.
Qed.
Lemma base_name_no_slash p : 47 ∉ base_name p.
Proof. apply base_len_spec. lia. Qed.
Lemma fs_name_ok p : bytes_ok p → bytes_ok (fs_name p).
Proof.
  intros H. assert (Hb : bytes_ok (base_name p)) by (by apply Forall_drop). rewrite /fs_name. destruct (base_name p) as [|c l]; [done|].
  destruct (c =? 95); [by apply Forall_cons in Hb as [_ ?]|done].
Qed.
Lemma dirent_ok i name : bytes_ok name → bytes_ok (dirent i name) ∧ length (dirent i name) = 16%nat.
Proof.
  intros Hn. rewrite /dirent /encode_dirent. cbn [de_inode_no de_name]. split.
  - apply Forall_app. split; [apply le_bytes_ok|]. apply Forall_take, Forall_app. split; [done|]. by apply Forall_replicate.
  - rewrite length_app length_le_bytes length_take length_app length_replicate. change (Z.to_nat DIRSIZ) with 14%nat. lia.
Qed.
Lemma dirents_length hs : Forall host_ok hs → ∀ i, zlen (dirents i hs) = 16 * zlen hs.
Proof.
  induction 1 as [|f hs (_ & _ & Hp & _) _ IH]; intros i; [done|]. cbn [dirents]. rewrite length_app Nat2Z.inj_add IH.
  rewrite (proj2 (dirent_ok i _ (fs_name_ok _ Hp))). cbn [length]. lia.
Qed.

Lemma add_files_run hs : ∀ s root fs own,
  fs_inv s ((INODE_DIRECTORY, root) :: fs) own → Forall host_ok hs → zlen fs + zlen hs ≤ 206 → zlen root = 16 * (2 + zlen fs) →
  92 + ftotal ((INODE_DIRECTORY, root ++ dirents (2 + zlen fs) hs) :: fs ++ new_files hs) ≤ 1000 →
  ∃ s' own', add_files 1 hs s = Ret () s' ∧ fs_inv s' ((INODE_DIRECTORY, root ++ dirents (2 + zlen fs) hs) :: fs ++ new_files hs) own'.
Proof.
  induction hs as [|f hs IH]; intros s root fs own I Hok Hn Hroot Hroom; cbn [add_files dirents new_files fmap list_fmap].
  { exists s, own. by rewrite !app_nil_r. }
  apply Forall_cons in Hok as [Hf Hok]. pose proof Hf as ([rs Hrs] & Hb & Hp & Hmax). rewrite Hrs in Hb. simpl in Hb. rewrite /contents Hrs /= in Hmax.
  destruct (dirent_ok (2 + zlen fs) _ (fs_name_ok _ Hp)) as [Hdb Hdl]. pose proof (dirents_length hs Hok (2 + zlen fs + 1)) as Hdr.
  set (de := dirent (2 + zlen fs) (fs_name (path f))) in *. set (rest := dirents (2 + zlen fs + 1) hs) in *.
  cbn [length] in Hn. set (fs1 := fs ++ [(INODE_REGULAR, contents f)]).
  assert (Ed : dirents (2 + zlen fs) (f :: hs) = de ++ rest) by done. rewrite Ed in Hroom.
  assert (En : fs ++ new_files (f :: hs) = fs1 ++ new_files hs) by (rewrite /fs1 -app_assoc //). rewrite En in Hroom.
  assert (Hfit : ∀ l0, zlen l0 ≤ zlen (contents f) → 92 + ftotal ((INODE_DIRECTORY, root ++ de) :: fs ++ [(INODE_REGULAR, l0)]) ≤ 1000).
  { intros l0 Hl0. revert Hroom. rewrite /fs1 !ftotal_cons !ftotal_app !ftotal_cons. change (ftotal []) with 0.
    pose proof (ftotal_pos (new_files hs)). pose proof (nbl_mono (zlen l0) (zlen (contents f)) ltac:(lia)).
    pose proof (nbl_mono (zlen (root ++ de)) (zlen (root ++ de ++ rest)) ltac:(rewrite !length_app; lia)). lia. }
  destruct (ialloc_run s _ own INODE_REGULAR I) as (s1 & Hrun1 & I1); [cbn [length]; lia|done|].
  assert (Hino : 1 + zlen ((INODE_DIRECTORY, root) :: fs) = 2 + zlen fs) by (cbn [length]; lia). rewrite Hino in Hrun1.
  rewrite -app_comm_cons in I1.
  destruct (append_run s1 _ own 0 INODE_DIRECTORY root de I1) as (s2 & own2 & Hrun2 & I2); [done|done|rewrite Hdl; lia|apply (Hfit []); simpl; lia|].
  cbn [list_insert insert] in I2. rewrite Hdl in Hrun2. change (1 + Z.of_nat 0) with 1 in Hrun2. change (Z.of_nat 16) with sizeof_DirEntry in Hrun2.
  destruct (copy_run rs s2 _ own2 (S (length fs)) INODE_REGULAR [] I2) as (s3 & own3 & Hrun3 & I3); [|done|simpl; lia| |].
  { simpl. rewrite lookup_app_r // Nat.sub_diag //. }
  { cbn. rewrite (insert_app_r_alt fs _ (length fs)) // Nat.sub_diag. apply (Hfit (copied rs)). rewrite /contents Hrs /=. lia. }
  cbn [app] in I3. assert (E3 : <[S (length fs) := (INODE_REGULAR, copied rs)]> ((INODE_DIRECTORY, root ++ de) :: fs ++ [(INODE_REGULAR, [])]) = (INODE_DIRECTORY, root ++ de) :: fs1).
  { cbn. rewrite (insert_app_r_alt fs _ (length fs)) // Nat.sub_diag. by rewrite /fs1 /contents Hrs. }
  rewrite E3 in I3. replace (1 + Z.of_nat (S (length fs))) with (2 + zlen fs) in Hrun3 by lia.
  assert (Hl1 : zlen fs1 = zlen fs + 1) by (rewrite /fs1 length_app /=; lia).
  destruct (IH s3 (root ++ de) fs1 own3 I3 Hok) as (s4 & own4 & Hrun4 & I4); [lia|rewrite length_app Hdl; lia| |].
  { replace (2 + zlen fs1) with (2 + zlen fs + 1) by lia. rewrite -app_assoc. exact Hroom. }
  replace (2 + zlen fs1) with (2 + zlen fs + 1) in I4 by lia. rewrite -app_assoc in I4. exists s4, own4. split.
  - rewrite (bind_run _ _ _ () s3) //. rewrite /add_file bool_decide_eq_true_2; [apply base_name_no_slash|]. rewrite (bind_run _ _ _ () s) // Hrs.
    rewrite (bind_run _ _ _ _ _ Hrun1) (bind_run _ _ _ _ _ Hrun2). exact Hrun3.
  - rewrite -/(new_files _). cbn [fmap list_fmap] in En. rewrite -En in I4. exact I4.
Qed.
