(* ===== verification/MkfsBoot.v ===== *)
(** * [mkfs]: the theorems

    The image the program makes, and that the kernel reads the files back from it. *)

From stdpp Require Import base numbers list gmap.
From S2P Require Import Prelude Bitmap Spinlock Bytes FsDefs BlockCache Cache CacheList CacheOps CacheAlloc Console Inode InodeRead Mkfs MkfsInv MkfsAppend MkfsImage MkfsMain.

Lemma clear_run n : ∀ i s, 0 ≤ i → zlen (img s) = i → i + Z.of_nat n ≤ 1000 →
  clear_blocks n i s = Ret () (set_img (img s ++ replicate n zeroes) s).
Proof.
  induction n as [|n IH]; intros i s Hi Hl Hn; cbn [clear_blocks replicate]; [rewrite app_nil_r; by destruct s|].
  rewrite (bind_run _ _ _ () (set_img (img s ++ [zeroes]) s)).
  - rewrite /wsect /modify /write_at sector_small; [lia|]. rewrite (proj2 (Nat.ltb_ge _ _)); [lia|].
    replace (Z.to_nat i - length (img s))%nat with 0%nat by lia. done.
  - rewrite IH; [lia|simpl; rewrite length_app /=; lia|lia|]. simpl. by rewrite -app_assoc.
Qed.

(** The cleared image. *)
Definition clear_img : mkfs := put_blk 1 (splice zeroes 0 (encode_super the_super)) (mkMkfs (replicate 1000 zeroes) 1 92 the_super).
Lemma super_ok : block_ok (splice zeroes 0 (encode_super the_super)).
Proof. split; [done|]. apply splice_ok; [apply zeroes_ok|apply unwords_ok]. Qed.
Lemma clear_blk b : 0 ≤ b < 1000 → b ≠ 1 → blk clear_img b = Some zeroes.
Proof.
  intros Hb Hne. rewrite /clear_img blk_put_ne; [lia|done|]. rewrite /blk (proj2 (Z.leb_le 0 b)); [lia|]. apply lookup_replicate_2. lia.
Qed.
Lemma clear_inv : fs_inv clear_img [] [].
Proof.
  assert (B : base_ok clear_img).
  { split; [by vm_compute| |done]. change (img clear_img) with (<[1%nat := splice zeroes 0 (encode_super the_super)]> (replicate 1000 zeroes)).
    apply Forall_insert; [apply Forall_replicate, zeroes_ok|apply super_ok]. }
  split; try done.
  - split; [exact (bo_len _ B)|exact (bo_ok _ B)|done|by vm_compute|done|done| |done|done]. intros b Hb. change (freeblock clear_img) with 92 in Hb. apply clear_blk; lia.
  - intros j Hj. change (freeinode clear_img) with 1 in Hj. rewrite /ient clear_blk; [clear - Hj; dlia..|]. rewrite /= /slice /zeroes drop_replicate take_replicate.
    pose proof (entry_pos_fits j) as Hp. replace (min 64 (512 - entry_pos j)) with 64%nat by lia. by vm_compute.
  - intros b Hb. apply clear_blk; lia.
Qed.

(** The size in the entry of the root directory, inode 1, is rounded up. *)
Definition size_of (k : nat) (l : list Z) : Z := if decide (k = 0%nat) then (zlen l / 512 + 1) * 512 else zlen l.

(** An image with these files. *)
Record image (s : mkfs) (files : list (Z * list Z)) : Prop := {
  im_len : length (img s) = 1000%nat;
  im_ok : Forall block_ok (img s);
  im_super : blk s 1 = Some (splice zeroes 0 (encode_super the_super));
  im_log b : 2 ≤ b < 65 → blk s b = Some zeroes;
  im_used b : 0 ≤ b < 4096 → used the_super (blk s) b = Some (b <? freeblock s);
  im_free : freeblock s = 92 + ftotal files ∧ freeblock s ≤ 1000;
  im_entry k t l : files !! k = Some (t, l) → meta_of (ient s (1 + Z.of_nat k)) = (t, 0, 0, 1, size_of k l);
  im_bytes k t l n : files !! k = Some (t, l) → 0 ≤ n < zlen l → file_byte (blk s) (ient s (1 + Z.of_nat k)) n = l !! Z.to_nat n;
  im_slot k t l j : files !! k = Some (t, l) → 0 ≤ j < 140 →
    ∃ b, fslot (blk s) (ient s (1 + Z.of_nat k)) j = Some b ∧ (b ≠ 0 ↔ j * 512 < zlen l);
  im_range k f r b : files !! k = Some f → ptr r → fslot (blk s) (ient s (1 + Z.of_nat k)) r = Some b → b ≠ 0 → 92 ≤ b < freeblock s;
  im_inj k f r k' f' r' b : files !! k = Some f → files !! k' = Some f' → ptr r → ptr r' →
    fslot (blk s) (ient s (1 + Z.of_nat k)) r = Some b → fslot (blk s) (ient s (1 + Z.of_nat k')) r' = Some b → b ≠ 0 → k = k' ∧ r = r';
  im_blank j : 1 + zlen files ≤ j < 208 → ient s j = blank }.

(** The size of the root directory and the bitmap. *)
Lemma finish s files own root fs n :
  fs_inv s files own → files = (INODE_DIRECTORY, root) :: fs → n = zlen root → n < 71680 → 0 < n →
  ∃ s', (winode 1 (put_size (xint (u32 ((n / BSIZE + 1) * BSIZE))) (ient s 1));; m ← gets freeblock; balloc m) s = Ret () s' ∧ image s' files.
Proof.
  intros I Ef En Hmax Hpos. assert (H0 : files !! 0%nat = Some (INODE_DIRECTORY, root)) by (by rewrite Ef).
  destruct (fi_ent _ _ _ I 0 _ _ H0) as [Ht Hm]. change (1 + Z.of_nat 0) with 1 in Hm. pose proof (fi_data _ _ _ I) as D.
  pose proof (fdatas_lookup s files 0 _ H0) as Hf0. change (1 + Z.of_nat 0) with 1 in Hf0. simpl in Hf0.
  assert (Hok : entry_ok (ient s 1)) by (apply (ent_ok s _ own 0 _ INODE_DIRECTORY (zlen root) D Hf0 Hm Ht); lia).
  assert (Hsz : 0 ≤ (n / 512 + 1) * 512 < 2 ^ 32) by (clear - Hmax Hpos; dlia).
  change BSIZE with 512. rewrite /u32 wrap_small //. rewrite xint_small //. set (e := put_size ((n / 512 + 1) * 512) (ient s 1)).
  assert (Hoke : entry_ok e) by (destruct Hok as (?&?&?&?&?&?&?&?); rewrite /entry_ok /=; tauto).
  destruct (winode_run s 1 e (fi_base _ _ _ I) ltac:(lia) Hoke) as (s1 & Hrun & B1 & Hino & Hfb & Hblk & He & Hoth). change (65 + 1 / 8) with 65 in Hblk.
  pose proof (fs_free _ _ _ I) as Hfree. pose proof (di_room _ _ _ D) as Hroom. pose proof (ftotal_pos files) as Htot.
  set (d := set_bits (Z.to_nat (freeblock s)) 0 zeroes). set (s2 := put_blk 91 d s1).
  assert (Hd : block_ok d) by (apply set_bits_spec; [lia|lia|done|apply zeroes_ok]).
  assert (Hb91 : blk s2 91 = Some d) by (apply blk_put_eq; [apply B1|lia]).
  assert (Hb : ∀ b, b ≠ 65 → b ≠ 91 → blk s2 b = blk s b) by (intros b H1 H2; rewrite /s2 blk_put_ne //; auto).
  assert (Hent1 : ient s2 1 = e) by (rewrite /ient /s2 blk_put_ne //).
  assert (Hent : ∀ j, 0 ≤ j < 208 → j ≠ 1 → ient s2 j = ient s j).
  { intros j Hj Hne. rewrite -Hoth //. rewrite /ient /s2 blk_put_ne //. clear - Hj. dlia. }
  pose proof (fi_few _ _ _ I) as Hfew.
  (* The pointers and the bytes of the files only depend on blocks from 92 on. *)
  assert (D2 : data_inv s2 (fdatas s files) own).
  { apply (data_meta s); [done| |done|intros b Hbb; apply Hb; lia]. split; [simpl; rewrite length_insert; apply B1| |apply B1]. by apply Forall_insert; [apply B1|]. }
  assert (Hsl : ∀ k f r, files !! k = Some f → fslot (blk s2) (ient s2 (1 + Z.of_nat k)) r = fslot (blk s2) (ient s (1 + Z.of_nat k)) r).
  { intros [|k] f r Hk; [change (1 + Z.of_nat 0) with 1; by rewrite Hent1|]. pose proof (lookup_lt_Some _ _ _ Hk). rewrite Hent //; lia. }
  exists s2. split.
  { rewrite (bind_run _ _ _ () s1) // (bind_run _ _ _ (freeblock s) s1); [by rewrite /gets Hfb|]. rewrite /balloc.
    rewrite (proj2 (Z.ltb_lt _ _)); [change (BSIZE * 8) with 4096; lia|]. rewrite (bind_run _ _ _ () s1) // (bind_run _ _ _ the_super s1); [by rewrite /gets (bo_sb _ B1)|].
    apply wsect_run; [apply B1|done]. }
  split.
  - apply (di_len _ _ _ D2).
  - apply (di_ok _ _ _ D2).
  - rewrite Hb //. apply (fi_super _ _ _ I).
  - intros b Hbb. rewrite Hb; [lia..|]. apply (fi_zero _ _ _ I). lia.
  - intros b Hbb. change (freeblock s2) with (freeblock s1). rewrite Hfb. apply bitmap_used; [lia|done|done].
  - change (freeblock s2) with (freeblock s1). lia.
  - intros [|k] t l Hk.
    + rewrite Ef in Hk. injection Hk as <- <-. change (1 + Z.of_nat 0) with 1. rewrite Hent1 /e /size_of. injection Hm as E1 E2 E3 E4 E5.
      by rewrite /meta_of /= E1 E2 E3 E4 En.
    + pose proof (lookup_lt_Some _ _ _ Hk). rewrite Hent; [lia..|]. by apply (fi_ent _ _ _ I).
  - intros k t l m Hk Hmm. pose proof (fdatas_lookup s files k _ Hk) as Hf. pose proof (di_body _ _ _ D2 _ _ Hf) as Bd.
    rewrite -(b_bytes _ _ Bd m) //. destruct (body_byte _ _ m Bd) as (p & Hs & Hp & Hj); [simpl; lia|]. simpl in Hs.
    apply (byte_frame _ _ _ _ _ p); [lia|done|by rewrite (Hsl k (t, l))|done].
  - intros k t l j Hk Hj. pose proof (fdatas_lookup s files k _ Hk) as Hf. rewrite (Hsl k (t, l)) //. by apply (b_slot _ _ (di_body _ _ _ D2 _ _ Hf)).
  - intros k f r b Hk Hr Hs Hb0. rewrite (Hsl k f) // in Hs. pose proof (fdatas_lookup s files k _ Hk) as Hf.
    destruct (di_ptr _ _ _ D2 k _ r b Hf Hr Hs Hb0). done.
  - intros k f r k' f' r' b Hk Hk' Hr Hr' Hs Hs' Hb0. rewrite (Hsl k f) // in Hs. rewrite (Hsl k' f') // in Hs'.
    apply (ptr_inj D2 k _ r k' _ r' b (fdatas_lookup s files k _ Hk) (fdatas_lookup s files k' _ Hk')); done.
  - intros j Hj. rewrite Hent; [lia| |]; [rewrite Ef /= in Hj; lia|]. apply (fi_blank _ _ _ I). rewrite (fi_ino _ _ _ I). lia.
Qed.

Lemma dot_ok : bytes_ok [46] ∧ bytes_ok [46; 46].
Proof. split; repeat constructor; rewrite /byte_ok; lia. Qed.

Lemma main_run hs :
  Forall host_ok hs → zlen hs ≤ 206 → 92 + ftotal (mk_files hs) ≤ 1000 →
  ∃ s, main hs mkfs_start = Ret () s ∧ image s (mk_files hs).
Proof.
  intros Hok Hn Hroom. destruct dot_ok as [Hd1 Hd2]. destruct (dirent_ok 1 [46] Hd1) as [Hb1 Hl1]. destruct (dirent_ok 1 [46; 46] Hd2) as [Hb2 Hl2].
  pose proof (dirents_length hs Hok 2) as Hdl. rewrite /mk_files in Hroom |- *.
  remember (dirent 1 [46]) as d1 eqn:Ed1. remember (dirent 1 [46; 46]) as d2 eqn:Ed2. remember (new_files hs) as fs eqn:Efs. remember (dirents 2 hs) as ds eqn:Eds.
  assert (Hfit : ∀ l, zlen l ≤ zlen (d1 ++ d2 ++ ds) → 92 + ftotal [(INODE_DIRECTORY, l)] ≤ 1000).
  { intros l Hl. rewrite ftotal_cons in Hroom. pose proof (ftotal_pos fs).
    pose proof (nbl_mono (zlen l) (zlen (d1 ++ d2 ++ ds)) ltac:(lia)). rewrite ftotal_cons. change (ftotal []) with 0. lia. }
  assert (Hsum : zlen (d1 ++ d2 ++ ds) = 32 + 16 * zlen hs) by (rewrite (length_app d1) (length_app d2) Hl1 Hl2; lia). rewrite Hsum in Hfit.
  destruct (ialloc_run clear_img [] [] INODE_DIRECTORY clear_inv ltac:(done) ltac:(done)) as (s1 & R1 & I1). cbn [app] in I1.
  destruct (append_run s1 _ [] 0 INODE_DIRECTORY [] d1 I1) as (s2 & own2 & R2 & I2); [done|done|rewrite Hl1; cbn [length]; lia|apply Hfit; rewrite app_nil_l Hl1; lia|]. cbn [list_insert insert app] in I2.
  destruct (append_run s2 _ own2 0 INODE_DIRECTORY d1 d2 I2) as (s3 & own3 & R3 & I3); [done|done|lia|apply Hfit; rewrite (length_app d1) Hl1 Hl2; lia|]. cbn [list_insert insert app] in I3.
  change (1 + Z.of_nat 0) with 1 in R2, R3. rewrite Hl1 in R2. rewrite Hl2 in R3. change (Z.of_nat 16) with sizeof_DirEntry in R2, R3.
  destruct (add_files_run hs s3 (d1 ++ d2) [] own3 I3 Hok) as (s4 & own4 & R4 & I4); [cbn [length]; lia|rewrite (length_app d1) Hl1 Hl2; cbn [length]; lia|rewrite -app_assoc -Eds -Efs; exact Hroom|].
  change (2 + zlen []) with 2 in I4. rewrite -app_assoc -Eds -Efs in I4. cbn [app] in I4.
  destruct (finish s4 _ own4 (d1 ++ d2 ++ ds) fs (zlen (d1 ++ d2 ++ ds)) I4 eq_refl eq_refl) as (s5 & R5 & Him); [lia|lia|].
  exists s5. split; [|exact Him]. destruct (fi_ent _ _ _ I4 0 _ _ eq_refl) as [_ Hm]. change (1 + Z.of_nat 0) with 1 in Hm. assert (Hnb : ie_num_bytes (ient s4 1) = zlen (d1 ++ d2 ++ ds)) by (by injection Hm).
  rewrite /main (bind_run _ _ _ () (mkMkfs [] 1 0 (mkSuper 0 0 0 0 0 0 0))); [reflexivity|].
  rewrite (bind_run _ _ _ () (mkMkfs [] 1 0 the_super)); [reflexivity|]. rewrite (bind_run _ _ _ () (mkMkfs [] 1 92 the_super)); [reflexivity|].
  rewrite (bind_run _ _ _ () (mkMkfs (replicate 1000 zeroes) 1 92 the_super)); [rewrite (clear_run (Z.to_nat FSSIZE) 0); [lia|done|by vm_compute|reflexivity]|].
  rewrite (bind_run _ _ _ () clear_img); [apply wsect_run; [by vm_compute|lia]|].
  rewrite (bind_run _ _ _ _ _ R1). change (1 + zlen []) with 1. change (1 =? ROOT_INODE_NO) with true. rewrite (bind_run _ _ _ () s1); [reflexivity|]. rewrite -Ed1 -Ed2.
  rewrite (bind_run _ _ _ _ _ R2) (bind_run _ _ _ _ _ R3) (bind_run _ _ _ _ _ R4) (bind_run _ _ _ _ _ (rinode_run s4 1 (fi_base _ _ _ I4) ltac:(lia))).
  cbv beta zeta. rewrite Hnb (xint_small (zlen (d1 ++ d2 ++ ds))); [lia|]. exact R5.
Qed.

(** C36: For at most 206 files that can be read and are no longer than an inode allows, and
    that fit on the disk with their indirect blocks and the root directory, [mkfs] ends
    with an image that holds them: the super block and an empty log, the root directory as
    inode 1 with the entries [.], [..] and one for each file in their order, under its name
    without the directories of its path and without a leading underscore, and file [k] as
    inode [k + 2] with exactly its bytes.  Every pointer of every file names a block of its
    own behind the metadata, the bitmap marks exactly the blocks up to the last one of
    them, and every other inode is free. *)
Theorem mkfs_makes_image hs :
  Forall host_ok hs → zlen hs ≤ 206 → 92 + ftotal (mk_files hs) ≤ 1000 →
  ∃ s, main hs mkfs_start = Ret () s ∧ image s (mk_files hs).
Proof. exact (main_run hs). Qed.

(** ** Reading the image back *)
Lemma image_has_block s files k t l c :
  image s files → files !! k = Some (t, l) → (∀ b, content c b = blk s b) → (∀ b, held c b = false) →
  ∀ j, 0 ≤ j → j * BLOCK_SIZE < zlen l → has_block c (ient s (1 + Z.of_nat k)) j.
Proof.
  intros Im Hk Hc Hh j Hj Hlt. change BLOCK_SIZE with 512 in Hlt.
  assert (Hj' : 0 ≤ j < 140).
  { split; [done|]. destruct (decide (j < 140)); [done|]. exfalso. destruct (im_slot _ _ Im k t l 139 Hk ltac:(lia)) as (b & Hs & Hb).
    pose proof (im_bytes _ _ Im k t l (140 * 512) Hk ltac:(lia)) as Hby. destruct (lookup_lt_is_Some_2 l (Z.to_nat (140 * 512)) ltac:(lia)) as [x Hx]. rewrite Hx in Hby.
    by vm_compute in Hby. }
  destruct (im_slot _ _ Im k t l j Hk Hj') as (b & Hs & Hb). split; [right; apply Hh|]. exists b. assert (Hb0 : b ≠ 0) by (by apply Hb).
  pose proof (im_range _ _ Im k _ j b Hk ltac:(rewrite /ptr; lia) Hs Hb0) as Hr. pose proof (im_free _ _ Im).
  split_and!; [|done| |apply Hh].
  - rewrite -Hs fslot_data; [lia|]. by apply block_index_ext.
  - change (is_Some (content c b)). rewrite Hc. apply blk_some; [apply Im|lia].
Qed.

(** C37: The kernel reads back what [mkfs] wrote.  With the image as the disk, seen through
    the block cache, and the inode of file [k] loaded from it, [inode_read] of any part of
    the file returns exactly the bytes of the host's file there and changes no block: the
    two programs agree on the layout of the disk, of inodes and of indirect blocks. *)
Theorem kernel_reads_image hs s alerted (st : istate (S := cstate)) ip i k f off cnt :
  main hs mkfs_start = Ret () s → Forall host_ok hs → zlen hs ≤ 206 → 92 + ftotal (mk_files hs) ≤ 1000 →
  hs !! k = Some f → cache_wf (icache st) → (∀ b, content (icache st) b = blk s b) → (∀ b, held (icache st) b = false) →
  itab st !! ip = Some i → entry i = ient s (2 + Z.of_nat k) → 0 ≤ off → 0 ≤ cnt → off + cnt ≤ zlen (contents f) →
  ∃ c', inode_read alerted ip off cnt st = Ret (cnt, slice (contents f) (Z.to_nat off) (Z.to_nat cnt)) (set_icache c' st) ∧
    (∀ b, content c' b = blk s b).
Proof.
  intros Hrun Hok Hn Hroom Hf W Hc Hh Hi He Ho Hcnt Hend. destruct (main_run hs Hok Hn Hroom) as (s' & Hrun' & Im).
  rewrite Hrun in Hrun'. injection Hrun' as <-. set (l := contents f) in *.
  assert (Hk : mk_files hs !! S k = Some (INODE_REGULAR, l)) by (rewrite /mk_files /= list_lookup_fmap Hf //).
  replace (2 + Z.of_nat k) with (1 + Z.of_nat (S k)) in He by lia. pose proof (im_entry _ _ Im _ _ _ Hk) as Hm. rewrite -He in Hm. change (size_of (S k) l) with (zlen l) in Hm. injection Hm as Et _ _ _ En.
  assert (Hlen : zlen l ≤ 71680) by (rewrite Forall_lookup in Hok; by destruct (Hok k f Hf) as (_ & _ & _ & ?)).
  destruct (inode_read_spec (BC := cache_ops) sblock (laws := cache_ops_laws) alerted st ip i off cnt Hi W) as (r & c' & Hr & ((_ & Hc' & _) & _) & Hrl & Hrb);
    [by rewrite Et|lia|lia|lia| |].
  { intros j Hj Hlt. rewrite En in Hlt. rewrite He. exact (image_has_block s (mk_files hs) (S k) INODE_REGULAR l (icache st) Im Hk Hc Hh j Hj Hlt). }
  rewrite En in Hr, Hrl, Hrb. rewrite Z.min_l in Hr, Hrl, Hrb; [lia..|]. exists c'. split; [|intros b; rewrite -Hc; apply Hc'].
  rewrite Hr. f_equal. f_equal. apply list_eq. intros j. rewrite lookup_slice. case_decide as Hj; [|apply lookup_ge_None; lia].
  specialize (Hrb (Z.of_nat j) ltac:(lia)). rewrite Nat2Z.id in Hrb. rewrite Hrb He (file_byte_ext _ (blk s)); [exact Hc|].
  rewrite (im_bytes _ _ Im (S k) INODE_REGULAR l (off + Z.of_nat j) Hk); [lia|]. f_equal. lia.
Qed.

(** With 30 files, or any number that fills the blocks of the root directory exactly,
    the size [mkfs] writes into the entry of the root directory covers one more block,
    which it does not allocate: the directory ends in a hole. *)
Theorem mkfs_root_hole hs :
  Forall host_ok hs → zlen hs ≤ 206 → 92 + ftotal (mk_files hs) ≤ 1000 → (zlen hs + 2) mod 32 = 0 →
  ∃ s, main hs mkfs_start = Ret () s ∧ ie_num_bytes (ient s 1) = 16 * (zlen hs + 2) + 512 ∧
    block_index (blk s) (ient s 1) ((zlen hs + 2) / 32) = Some 0.
Proof.
  intros Hok Hn Hroom Hm. destruct (main_run hs Hok Hn Hroom) as (s & Hrun & Im). exists s. split; [exact Hrun|].
  destruct dot_ok as [Hd1 Hd2]. set (root := dirent 1 [46] ++ dirent 1 [46; 46] ++ dirents 2 hs).
  assert (Hl : zlen root = 16 * (zlen hs + 2)).
  { rewrite /root (length_app (dirent _ _)) (length_app (dirent _ _)) (proj2 (dirent_ok _ _ Hd1)) (proj2 (dirent_ok _ _ Hd2)).
    pose proof (dirents_length hs Hok 2). lia. }
  pose proof (im_entry _ _ Im 0 INODE_DIRECTORY root eq_refl) as He. change (size_of 0 root) with ((zlen root / 512 + 1) * 512) in He.
  split.
  - assert (En : ie_num_bytes (ient s 1) = (zlen root / 512 + 1) * 512) by (by injection He). rewrite En Hl. clear - Hm. dlia.
  - destruct (im_slot _ _ Im 0 INODE_DIRECTORY root ((zlen hs + 2) / 32) eq_refl) as (b & Hs & Hb); [clear - Hn; dlia|].
    rewrite -(fslot_data (blk s)); [clear; dlia|]. change (1 + Z.of_nat 0) with 1 in Hs. rewrite Hs. f_equal. destruct (decide (b = 0)) as [|Hb0]; [done|].
    apply Hb in Hb0. rewrite Hl in Hb0. clear - Hm Hb0. dlia.
Qed.

(** ** Examples *)
(** [/a/_ls], of 612 bytes in two reads *)
Definition demo_host : host_file := mkHost [47; 97; 47; 95; 108; 115] (Some [replicate 512 7; replicate 100 8]).
Lemma demo_host_ok : Forall host_ok [demo_host].
Proof.
  constructor; [|done]. split_and!; [by eexists| |by repeat constructor|by vm_compute].
  constructor; [by apply Forall_replicate|]. constructor; [by apply Forall_replicate|done].
Qed.
Lemma demo_fits : 92 + ftotal (mk_files [demo_host]) ≤ 1000.
Proof. by vm_compute. Qed.

Lemma mkfs_makes_image_witness : ∃ s, main [demo_host] mkfs_start = Ret () s ∧ image s (mk_files [demo_host]).
Proof. exact (mkfs_makes_image [demo_host] demo_host_ok ltac:(done) demo_fits). Defined.

(** The kernel on the image, with file 0 as the in-memory inode 5. *)
Definition boot_cache (s : mkfs) : cstate :=
  mkCState the_super (map_seqZ 0 (img s)) [] false [] (mkHeader 0 (replicate 63 0)) 0 [0; 0; 0; 0] (mkLog 62 0 0 false false 0 0) ∅.
Definition boot (s : mkfs) : istate (S := cstate) :=
  mkI (boot_cache s) false [5] {[ 5 := mkInode 0 (mkRC 1) 2 true (ient s 2) ]} 6 (Some 5) 5 Con.console_init.
Lemma boot_content s b : content (boot_cache s) b = blk s b.
Proof.
  rewrite /content /boot_cache /= lookup_map_seqZ /blk. destruct (Z.leb_spec 0 b); [|by rewrite option_guard_False; [lia|]].
  rewrite option_guard_True; [lia|]. by rewrite /= Z.sub_0_r.
Qed.
Lemma boot_wf s : Forall block_ok (img s) → cache_wf (boot_cache s).
Proof.
  intros Hok. split_and!; try done.
  - rewrite /cache_ok. split_and!; [done|apply NoDup_nil_2|done].
  - intros b d Hd. apply (blk_block_ok s b d Hok). rewrite -boot_content. exact Hd.
  - intros b Hb. by apply elem_of_nil in Hb.
Qed.
Lemma kernel_reads_image_witness : ∃ s c', main [demo_host] mkfs_start = Ret () s ∧
  inode_read false 5 500 100 (boot s) = Ret (100, replicate 12 7 ++ replicate 88 8) (set_icache c' (boot s)).
Proof.
  destruct (main_run [demo_host] demo_host_ok ltac:(done) demo_fits) as (s & Hrun & Im).
  destruct (kernel_reads_image [demo_host] s false (boot s) 5 (mkInode 0 (mkRC 1) 2 true (ient s 2)) 0 demo_host 500 100 Hrun demo_host_ok ltac:(done) demo_fits
    eq_refl (boot_wf s (im_ok _ _ Im)) (boot_content s) (λ _, eq_refl) eq_refl eq_refl ltac:(done) ltac:(done) ltac:(by vm_compute)) as (c' & Hr & _).
  exists s, c'. split; [exact Hrun|exact Hr].
Defined.

Definition empty_host : host_file := mkHost [97] (Some []).
Lemma mkfs_root_hole_witness : ∃ s, main (replicate 30 empty_host) mkfs_start = Ret () s ∧ block_index (blk s) (ient s 1) 1 = Some 0.
Proof.
  assert (Hok : Forall host_ok (replicate 30 empty_host)).
  { apply Forall_replicate. split_and!; [by eexists|done|by repeat constructor|by vm_compute]. }
  destruct (mkfs_root_hole (replicate 30 empty_host) Hok ltac:(by vm_compute) ltac:(by vm_compute) ltac:(by vm_compute)) as (s & Hrun & _ & Hb).
  exists s. split; [exact Hrun|exact Hb].
Defined.
