(* ===== verification/SdDefs.v ===== *)
(** * The SD card: constants, commands and the descriptor ([driver/sddef.h])

    The registers and their bits that the driver uses, the table of the commands, and the
    description of the card. *)

From stdpp Require Import base numbers list strings.
From S2P Require Import Prelude.

(** ** Registers of the controller, of the pins and of the mailbox *)
Definition MMIO_BASE : Z := 0xffff00003f000000.
Definition EMMC_BLKSIZECNT : Z := MMIO_BASE + 0x00300004.
Definition EMMC_ARG1 : Z := MMIO_BASE + 0x00300008.
Definition EMMC_CMDTM : Z := MMIO_BASE + 0x0030000c.
Definition EMMC_RESP0 : Z := MMIO_BASE + 0x00300010.
Definition EMMC_RESP1 : Z := MMIO_BASE + 0x00300014.
Definition EMMC_RESP2 : Z := MMIO_BASE + 0x00300018.
Definition EMMC_RESP3 : Z := MMIO_BASE + 0x0030001c.
Definition EMMC_DATA : Z := MMIO_BASE + 0x00300020.
Definition EMMC_STATUS : Z := MMIO_BASE + 0x00300024.
Definition EMMC_CONTROL0 : Z := MMIO_BASE + 0x00300028.
Definition EMMC_CONTROL1 : Z := MMIO_BASE + 0x0030002c.
Definition EMMC_INTERRUPT : Z := MMIO_BASE + 0x00300030.
Definition EMMC_IRPT_MASK : Z := MMIO_BASE + 0x00300034.
Definition EMMC_IRPT_EN : Z := MMIO_BASE + 0x00300038.
Definition EMMC_SLOTISR_VER : Z := MMIO_BASE + 0x003000fc.
Definition GPIO_BASE : Z := MMIO_BASE + 0x200000.
Definition GPFSEL4 : Z := GPIO_BASE + 0x10.
Definition GPFSEL5 : Z := GPIO_BASE + 0x14.
Definition GPEDS1 : Z := GPIO_BASE + 0x44.
Definition GPHEN1 : Z := GPIO_BASE + 0x68.
Definition GPPUD : Z := GPIO_BASE + 0x94.
Definition GPPUDCLK1 : Z := GPIO_BASE + 0x9c.

(** ** Flags of a command, of the interrupt register and of the controls *)
Definition CMD_IS_DATA : Z := 0x00200000.
Definition CMD_RSPNS_NO : Z := 0x00000000.
Definition CMD_RSPNS_136 : Z := 0x00010000.
Definition CMD_RSPNS_48 : Z := 0x00020000.
Definition CMD_RSPNS_48B : Z := 0x00030000.
Definition TM_MULTI_BLOCK : Z := 0x00000020.
Definition TM_DAT_DIR_HC : Z := 0x00000000.
Definition TM_DAT_DIR_CH : Z := 0x00000010.
Definition TM_BLKCNT_EN : Z := 0x00000002.
Definition INT_AUTO_ERROR : Z := 0x01000000.
Definition INT_DATA_END_ERR : Z := 0x00400000.
Definition INT_DATA_CRC_ERR : Z := 0x00200000.
Definition INT_DATA_TIMEOUT : Z := 0x00100000.
Definition INT_INDEX_ERROR : Z := 0x00080000.
Definition INT_END_ERROR : Z := 0x00040000.
Definition INT_CRC_ERROR : Z := 0x00020000.
Definition INT_CMD_TIMEOUT : Z := 0x00010000.
Definition INT_ERR : Z := 0x00008000.
Definition INT_READ_RDY : Z := 0x00000020.
Definition INT_WRITE_RDY : Z := 0x00000010.
Definition INT_DATA_DONE : Z := 0x00000002.
Definition INT_CMD_DONE : Z := 0x00000001.

(** ** Controls, status and clock *)
Definition C0_HCTL_DWITDH : Z := 0x00000002.
Definition C1_SRST_HC : Z := 0x01000000.
Definition C1_TOUNIT_MAX : Z := 0x000e0000.
Definition C1_CLK_EN : Z := 0x00000004.
Definition C1_CLK_STABLE : Z := 0x00000002.
Definition C1_CLK_INTLEN : Z := 0x00000001.
Definition FREQ_SETUP : Z := 400000.
Definition FREQ_NORMAL : Z := 25000000.
Definition HOST_SPEC_NUM : Z := 0x00ff0000.
Definition HOST_SPEC_NUM_SHIFT : Z := 16.
Definition HOST_SPEC_V2 : Z := 1.
Definition SR_READ_AVAILABLE : Z := 0x00000800.
Definition SR_DAT_INHIBIT : Z := 0x00000002.
Definition SR_CMD_INHIBIT : Z := 0x00000001.

(** ** Arguments and responses *)
Definition ACMD41_HCS : Z := 0x40000000.
Definition ACMD41_SDXC_POWER : Z := 0x10000000.
Definition ACMD41_S18R : Z := 0x01000000.
Definition ACMD41_VOLTAGE : Z := 0x00ff8000.
Definition ST_CARD_STATE : Z := 0x00001e00.
Definition ST_APP_CMD : Z := 0x00000020.
Definition R1_CARD_STATE_SHIFT : Z := 9.
Definition R1_ERRORS_MASK : Z := 0xfff9c004.
Definition R3_COMPLETE : Z := 0x80000000.
Definition R3_CCS : Z := 0x40000000.
Definition R3_S18A : Z := 0x01000000.
Definition R6_RCA_MASK : Z := 0xffff0000.
Definition RESP_NO : Z := 0.
Definition RESP_R1 : Z := 1.
Definition RESP_R1b : Z := 11.
Definition RESP_R2I : Z := 2.
Definition RESP_R2S : Z := 12.
Definition RESP_R3 : Z := 3.
Definition RESP_R6 : Z := 6.
Definition RESP_R7 : Z := 7.
Definition RCA_NO : Z := 1.
Definition RCA_YES : Z := 2.

(** ** Places in the table of commands *)
Definition IX_GO_IDLE_STATE : Z := 0.
Definition IX_ALL_SEND_CID : Z := 1.
Definition IX_SEND_REL_ADDR : Z := 2.
Definition IX_CARD_SELECT : Z := 5.
Definition IX_SEND_IF_COND : Z := 6.
Definition IX_SEND_CSD : Z := 7.
Definition IX_SET_BLOCKLEN : Z := 13.
Definition IX_READ_SINGLE : Z := 14.
Definition IX_WRITE_SINGLE : Z := 19.
Definition IX_APP_CMD : Z := 29.
Definition IX_APP_CMD_RCA : Z := 30.
Definition IX_APP_CMD_START : Z := 32.
Definition IX_SET_BUS_WIDTH : Z := 32.
Definition IX_APP_SEND_OP_COND : Z := 36.
Definition IX_SEND_SCR : Z := 38.

(** ** The registers of the card *)
Definition CSD0_VERSION : Z := 0x00c00000.
Definition CSD0_V1 : Z := 0x00000000.
Definition CSD1VN_READ_BL_LEN : Z := 0x00000f00.
Definition CSD1VN_READ_BL_LEN_SHIFT : Z := 8.
Definition CSD3VN_FILE_FORMAT : Z := 0x0000000c.
Definition CSD3VN_FILE_FORMAT_HDD : Z := 0x00000000.
Definition CSD3VN_FILE_FORMAT_DOSFAT : Z := 0x00000004.
Definition CSD1V1_C_SIZEH : Z := 0x00000003.
Definition CSD1V1_C_SIZEH_SHIFT : Z := 10.
Definition CSD2V1_C_SIZEL : Z := 0xffc00000.
Definition CSD2V1_C_SIZEL_SHIFT : Z := 22.
Definition CSD2V1_C_SIZE_MULT : Z := 0x00000380.
Definition CSD2V1_C_SIZE_MULT_SHIFT : Z := 7.
Definition CSD2V2_C_SIZE : Z := 0x3fffff00.
Definition CSD2V2_C_SIZE_SHIFT : Z := 8.
Definition SCR_SD_BUS_WIDTH_1 : Z := 0x00000100.
Definition SCR_SD_BUS_WIDTH_4 : Z := 0x00000400.
Definition SCR_CMD_SUPP_SET_BLKCNT : Z := 0x02000000.
Definition SCR_CMD_SUPP_SPEED_CLASS : Z := 0x01000000.
Definition SD_TYPE_1 : Z := 2.
Definition SD_TYPE_2_SC : Z := 3.
Definition SD_TYPE_2_HC : Z := 4.
Definition SD_SUPP_SET_BLOCK_COUNT : Z := 0x80000000.
Definition SD_SUPP_SPEED_CLASS : Z := 0x40000000.
Definition SD_SUPP_BUS_WIDTH_4 : Z := 0x20000000.
Definition SD_SUPP_BUS_WIDTH_1 : Z := 0x10000000.

Definition TM_MULTI_DATA : Z := Z.lor (Z.lor CMD_IS_DATA TM_MULTI_BLOCK) TM_BLKCNT_EN.
Definition INT_ERROR_MASK : Z := foldr Z.lor 0
  [INT_CRC_ERROR; INT_END_ERROR; INT_INDEX_ERROR; INT_DATA_TIMEOUT; INT_DATA_CRC_ERR; INT_DATA_END_ERR; INT_ERR; INT_AUTO_ERROR].
Definition ACMD41_ARG_HC : Z := Z.lor (Z.lor (Z.lor ACMD41_HCS ACMD41_SDXC_POWER) ACMD41_VOLTAGE) ACMD41_S18R.
Definition ACMD41_ARG_SC : Z := Z.lor ACMD41_VOLTAGE ACMD41_S18R.

(** ** Results *)
Definition SD_OK : Z := 0.
Definition SD_ERROR : Z := 1.
Definition SD_TIMEOUT : Z := 2.
Definition SD_BUSY : Z := 3.
Definition SD_ERROR_RESET : Z := 6.
Definition SD_ERROR_CLOCK : Z := 7.
Definition SD_ERROR_VOLTAGE : Z := 8.
Definition SD_ERROR_APP_CMD : Z := 9.
Definition SD_CARD_CHANGED : Z := 10.
Definition SD_CARD_ABSENT : Z := 11.
Definition SD_CARD_REINSERTED : Z := 12.

(** ** Commands *)
Record EMMCCommand := mkCmd { cmd_name : string; code : Z; resp : Z; rca_kind : Z; cmd_delay : Z }.
Definition sdCommandTable : list EMMCCommand := [
   mkCmd "GO_IDLE_STATE" (Z.lor 0x00000000 CMD_RSPNS_NO) RESP_NO RCA_NO 0;
   mkCmd "ALL_SEND_CID" (Z.lor 0x02000000 CMD_RSPNS_136) RESP_R2I RCA_NO 0;
   mkCmd "SEND_REL_ADDR" (Z.lor 0x03000000 CMD_RSPNS_48) RESP_R6 RCA_NO 0;
   mkCmd "SET_DSR" (Z.lor 0x04000000 CMD_RSPNS_NO) RESP_NO RCA_NO 0;
   mkCmd "SWITCH_FUNC" (Z.lor 0x06000000 CMD_RSPNS_48) RESP_R1 RCA_NO 0;
   mkCmd "CARD_SELECT" (Z.lor 0x07000000 CMD_RSPNS_48B) RESP_R1b RCA_YES 0;
   mkCmd "SEND_IF_COND" (Z.lor 0x08000000 CMD_RSPNS_48) RESP_R7 RCA_NO 100;
   mkCmd "SEND_CSD" (Z.lor 0x09000000 CMD_RSPNS_136) RESP_R2S RCA_YES 0;
   mkCmd "SEND_CID" (Z.lor 0x0a000000 CMD_RSPNS_136) RESP_R2I RCA_YES 0;
   mkCmd "VOLT_SWITCH" (Z.lor 0x0b000000 CMD_RSPNS_48) RESP_R1 RCA_NO 0;
   mkCmd "STOP_TRANS" (Z.lor 0x0c000000 CMD_RSPNS_48B) RESP_R1b RCA_NO 0;
   mkCmd "SEND_STATUS" (Z.lor 0x0d000000 CMD_RSPNS_48) RESP_R1 RCA_YES 0;
   mkCmd "GO_INACTIVE" (Z.lor 0x0f000000 CMD_RSPNS_NO) RESP_NO RCA_YES 0;
   mkCmd "SET_BLOCKLEN" (Z.lor 0x10000000 CMD_RSPNS_48) RESP_R1 RCA_NO 0;
   mkCmd "READ_SINGLE" (Z.lor (Z.lor (Z.lor 0x11000000 CMD_RSPNS_48) CMD_IS_DATA) TM_DAT_DIR_CH) RESP_R1 RCA_NO 0;
   mkCmd "READ_MULTI" (Z.lor (Z.lor (Z.lor 0x12000000 CMD_RSPNS_48) TM_MULTI_DATA) TM_DAT_DIR_CH) RESP_R1 RCA_NO 0;
   mkCmd "SEND_TUNING" (Z.lor 0x13000000 CMD_RSPNS_48) RESP_R1 RCA_NO 0;
   mkCmd "SPEED_CLASS" (Z.lor 0x14000000 CMD_RSPNS_48B) RESP_R1b RCA_NO 0;
   mkCmd "SET_BLOCKCNT" (Z.lor 0x17000000 CMD_RSPNS_48) RESP_R1 RCA_NO 0;
   mkCmd "WRITE_SINGLE" (Z.lor (Z.lor (Z.lor 0x18000000 CMD_RSPNS_48) CMD_IS_DATA) TM_DAT_DIR_HC) RESP_R1 RCA_NO 0;
   mkCmd "WRITE_MULTI" (Z.lor (Z.lor (Z.lor 0x19000000 CMD_RSPNS_48) TM_MULTI_DATA) TM_DAT_DIR_HC) RESP_R1 RCA_NO 0;
   mkCmd "PROGRAM_CSD" (Z.lor 0x1b000000 CMD_RSPNS_48) RESP_R1 RCA_NO 0;
   mkCmd "SET_WRITE_PR" (Z.lor 0x1c000000 CMD_RSPNS_48B) RESP_R1b RCA_NO 0;
   mkCmd "CLR_WRITE_PR" (Z.lor 0x1d000000 CMD_RSPNS_48B) RESP_R1b RCA_NO 0;
   mkCmd "SND_WRITE_PR" (Z.lor 0x1e000000 CMD_RSPNS_48) RESP_R1 RCA_NO 0;
   mkCmd "ERASE_WR_ST" (Z.lor 0x20000000 CMD_RSPNS_48) RESP_R1 RCA_NO 0;
   mkCmd "ERASE_WR_END" (Z.lor 0x21000000 CMD_RSPNS_48) RESP_R1 RCA_NO 0;
   mkCmd "ERASE" (Z.lor 0x26000000 CMD_RSPNS_48B) RESP_R1b RCA_NO 0;
   mkCmd "LOCK_UNLOCK" (Z.lor 0x2a000000 CMD_RSPNS_48) RESP_R1 RCA_NO 0;
   mkCmd "APP_CMD" (Z.lor 0x37000000 CMD_RSPNS_NO) RESP_NO RCA_NO 100;
   mkCmd "APP_CMD" (Z.lor 0x37000000 CMD_RSPNS_48) RESP_R1 RCA_YES 0;
   mkCmd "GEN_CMD" (Z.lor 0x38000000 CMD_RSPNS_48) RESP_R1 RCA_NO 0;
   mkCmd "SET_BUS_WIDTH" (Z.lor 0x06000000 CMD_RSPNS_48) RESP_R1 RCA_NO 0;
   mkCmd "SD_STATUS" (Z.lor 0x0d000000 CMD_RSPNS_48) RESP_R1 RCA_YES 0;
   mkCmd "SEND_NUM_WRBL" (Z.lor 0x16000000 CMD_RSPNS_48) RESP_R1 RCA_NO 0;
   mkCmd "SEND_NUM_ERS" (Z.lor 0x17000000 CMD_RSPNS_48) RESP_R1 RCA_NO 0;
   mkCmd "SD_SENDOPCOND" (Z.lor 0x29000000 CMD_RSPNS_48) RESP_R3 RCA_NO 1000;
   mkCmd "SET_CLR_DET" (Z.lor 0x2a000000 CMD_RSPNS_48) RESP_R1 RCA_NO 0;
   mkCmd "SEND_SCR" (Z.lor (Z.lor (Z.lor 0x33000000 CMD_RSPNS_48) CMD_IS_DATA) TM_DAT_DIR_CH) RESP_R1 RCA_NO 0].

(** ** The card *)
Record SDDescriptor := mkCard {
  capacity : Z; cid : list Z; csd : list Z; scr : list Z; ocr : Z; support : Z; fileFormat : Z; ctype : Z; uhsi : Z; cinit : Z; absent : Z;
  rca : Z; cardState : Z; status : Z; lastCmd : option EMMCCommand; lastArg : Z }.
Definition set_capacity v (c : SDDescriptor) := mkCard v (cid c) (csd c) (scr c) (ocr c) (support c) (fileFormat c) (ctype c) (uhsi c) (cinit c) (absent c) (rca c) (cardState c) (status c) (lastCmd c) (lastArg c).
Definition set_cid v (c : SDDescriptor) := mkCard (capacity c) v (csd c) (scr c) (ocr c) (support c) (fileFormat c) (ctype c) (uhsi c) (cinit c) (absent c) (rca c) (cardState c) (status c) (lastCmd c) (lastArg c).
Definition set_csd v (c : SDDescriptor) := mkCard (capacity c) (cid c) v (scr c) (ocr c) (support c) (fileFormat c) (ctype c) (uhsi c) (cinit c) (absent c) (rca c) (cardState c) (status c) (lastCmd c) (lastArg c).
Definition set_scr v (c : SDDescriptor) := mkCard (capacity c) (cid c) (csd c) v (ocr c) (support c) (fileFormat c) (ctype c) (uhsi c) (cinit c) (absent c) (rca c) (cardState c) (status c) (lastCmd c) (lastArg c).
Definition set_ocr v (c : SDDescriptor) := mkCard (capacity c) (cid c) (csd c) (scr c) v (support c) (fileFormat c) (ctype c) (uhsi c) (cinit c) (absent c) (rca c) (cardState c) (status c) (lastCmd c) (lastArg c).
Definition set_support v (c : SDDescriptor) := mkCard (capacity c) (cid c) (csd c) (scr c) (ocr c) v (fileFormat c) (ctype c) (uhsi c) (cinit c) (absent c) (rca c) (cardState c) (status c) (lastCmd c) (lastArg c).
Definition set_fileFormat v (c : SDDescriptor) := mkCard (capacity c) (cid c) (csd c) (scr c) (ocr c) (support c) v (ctype c) (uhsi c) (cinit c) (absent c) (rca c) (cardState c) (status c) (lastCmd c) (lastArg c).
Definition set_ctype v (c : SDDescriptor) := mkCard (capacity c) (cid c) (csd c) (scr c) (ocr c) (support c) (fileFormat c) v (uhsi c) (cinit c) (absent c) (rca c) (cardState c) (status c) (lastCmd c) (lastArg c).
Definition set_uhsi v (c : SDDescriptor) := mkCard (capacity c) (cid c) (csd c) (scr c) (ocr c) (support c) (fileFormat c) (ctype c) v (cinit c) (absent c) (rca c) (cardState c) (status c) (lastCmd c) (lastArg c).
Definition set_cinit v (c : SDDescriptor) := mkCard (capacity c) (cid c) (csd c) (scr c) (ocr c) (support c) (fileFormat c) (ctype c) (uhsi c) v (absent c) (rca c) (cardState c) (status c) (lastCmd c) (lastArg c).
Definition set_absent v (c : SDDescriptor) := mkCard (capacity c) (cid c) (csd c) (scr c) (ocr c) (support c) (fileFormat c) (ctype c) (uhsi c) (cinit c) v (rca c) (cardState c) (status c) (lastCmd c) (lastArg c).
Definition set_rca v (c : SDDescriptor) := mkCard (capacity c) (cid c) (csd c) (scr c) (ocr c) (support c) (fileFormat c) (ctype c) (uhsi c) (cinit c) (absent c) v (cardState c) (status c) (lastCmd c) (lastArg c).
Definition set_cardState v (c : SDDescriptor) := mkCard (capacity c) (cid c) (csd c) (scr c) (ocr c) (support c) (fileFormat c) (ctype c) (uhsi c) (cinit c) (absent c) (rca c) v (status c) (lastCmd c) (lastArg c).
Definition set_status v (c : SDDescriptor) := mkCard (capacity c) (cid c) (csd c) (scr c) (ocr c) (support c) (fileFormat c) (ctype c) (uhsi c) (cinit c) (absent c) (rca c) (cardState c) v (lastCmd c) (lastArg c).
Definition set_lastCmd v (c : SDDescriptor) := mkCard (capacity c) (cid c) (csd c) (scr c) (ocr c) (support c) (fileFormat c) (ctype c) (uhsi c) (cinit c) (absent c) (rca c) (cardState c) (status c) v (lastArg c).
Definition set_lastArg v (c : SDDescriptor) := mkCard (capacity c) (cid c) (csd c) (scr c) (ocr c) (support c) (fileFormat c) (ctype c) (uhsi c) (cinit c) (absent c) (rca c) (cardState c) (status c) (lastCmd c) v.
