(* ===== verification/Sd.v ===== *)
(** * The SD card driver: commands and initialisation ([driver/sddef.h], [driver/mbox.c])

    The hardware is a parameter: a type of its states with what reading and writing a
    register and waiting do to it.  The functions below are the code on top of that, with
    every access to a register in its order, also those in the arguments of [printk]
    (what is printed is left out, and so are the barriers).  The loops count as the
    code does, so each one is bounded by its own counter; only the mailbox is polled
    without a limit, and there the fuel is a parameter. *)

From stdpp Require Import base numbers list strings.
From S2P Require Import Prelude SdDefs.

(** ** The hardware *)
Class Emmc (D : Type) := {
  reg_get : Z → D → Z * D;
  reg_put : Z → Z → D → D;
  delay_us : Z → D → D;
  delay : Z → D → D;
  (** the interrupt line of the controller *)
  irq_line : D → bool;
  (** what the buffer of a mailbox request holds after the answer *)
  mbox_answer : list Z → D → list Z }.

Record sdst (D : Type) := mkSd { sdCard : SDDescriptor; sdHostVer : Z; sdBaseClock : Z; dev : D }.
Arguments mkSd {D}. Arguments sdCard {D}. Arguments sdHostVer {D}. Arguments sdBaseClock {D}. Arguments dev {D}.

Section driver.
Context {D : Type} `{!Emmc D}.
Notation St := (sdst D).
Definition set_sdCard v (s : St) := mkSd v (sdHostVer s) (sdBaseClock s) (dev s).
Definition set_sdHostVer v (s : St) := mkSd (sdCard s) v (sdBaseClock s) (dev s).
Definition set_sdBaseClock v (s : St) := mkSd (sdCard s) (sdHostVer s) v (dev s).
Definition set_dev (v : D) (s : St) := mkSd (sdCard s) (sdHostVer s) (sdBaseClock s) v.

Definition rd (r : Z) : M St Z := d ← gets dev; let '(v, d) := reg_get r d in modify (set_dev d);; mret v.
Definition wr (r v : Z) : M St () := modify (λ s, set_dev (reg_put r v (dev s)) s).
Definition card (f : SDDescriptor → SDDescriptor) : M St () := modify (λ s, set_sdCard (f (sdCard s)) s).
Definition getcard {A} (f : SDDescriptor → A) : M St A := gets (λ s, f (sdCard s)).
(** The registers read for a message. *)
Fixpoint printk_regs (rs : list Z) : M St () := match rs with [] => mret () | r :: rs => rd r;; printk_regs rs end.
(** Some bit of [m] is set. *)
Definition has (v m : Z) : bool := negb (Z.land v m =? 0).

(** Delay 3 times longer on rpi3. *)
Definition sd_delayus (c : Z) : M St () := modify (λ s, set_dev (delay_us (c * 3) (dev s)) s).
Definition sd_delay (n : Z) : M St () := modify (λ s, set_dev (delay n (dev s)) s).
Definition sdDebugResponse (r : Z) : M St Z :=
  c ← getcard lastCmd;
  of_opt c;;
  printk_regs [EMMC_RESP3; EMMC_RESP2; EMMC_RESP1; EMMC_RESP0];;
  printk_regs [EMMC_STATUS; EMMC_CONTROL1; EMMC_INTERRUPT];;
  mret r.

(** [while (c && count--) sd_delayus(us)], from [count = n]; the result is [count]. *)
Fixpoint while_count (us : Z) (c : M St bool) (n : nat) : M St Z :=
  b ← c;
  if (b : bool) then match n with O => mret (-1) | S n => sd_delayus us;; while_count us c n end
  else mret (Z.of_nat n).

Definition sdWaitForInterrupt (mask : Z) : M St Z :=
  let waitMask := Z.lor mask INT_ERROR_MASK in
  count ← while_count 1 (v ← rd EMMC_INTERRUPT; mret (negb (has v waitMask))) (Z.to_nat 1000000);
  ival ← rd EMMC_INTERRUPT;
  if (count <=? 0) || has ival INT_CMD_TIMEOUT || has ival INT_DATA_TIMEOUT then
    wr EMMC_INTERRUPT ival;; mret SD_TIMEOUT
  else if has ival INT_ERROR_MASK then
    printk_regs [EMMC_STATUS; EMMC_RESP0];;
    wr EMMC_INTERRUPT ival;; mret SD_ERROR
  else
    wr EMMC_INTERRUPT mask;; mret SD_OK.

(** A bit of [m] in the status, and no error among the interrupts. *)
Definition in_progress (m : Z) : M St bool :=
  v ← rd EMMC_STATUS;
  if has v m then i ← rd EMMC_INTERRUPT; mret (negb (has i INT_ERROR_MASK)) else mret false.
(** Late, or an error among the interrupts. *)
Definition failed (late : bool) : M St bool := if late then mret true else i ← rd EMMC_INTERRUPT; mret (has i INT_ERROR_MASK).

Definition sdWaitForCommand : M St Z :=
  count ← while_count 1 (in_progress SR_CMD_INHIBIT) (Z.to_nat 1000000);
  bad ← failed (count <=? 0);
  if (bad : bool) then printk_regs [EMMC_STATUS; EMMC_INTERRUPT; EMMC_RESP0];; mret SD_BUSY else mret SD_OK.

(** [while (c && ++count < limit) sd_delayus(1)], with [n] the iterations that are left. *)
Fixpoint while_below (c : M St bool) (limit : Z) (n : nat) : M St Z :=
  b ← c;
  if (b : bool) then match n with O => mret limit | S n => sd_delayus 1;; while_below c limit n end
  else mret (limit - 1 - Z.of_nat n).
Definition sdWaitForData : M St Z :=
  count ← while_below (in_progress SR_DAT_INHIBIT) 500000 (Z.to_nat 499999);
  bad ← failed (500000 <=? count);
  if (bad : bool) then printk_regs [EMMC_STATUS; EMMC_INTERRUPT; EMMC_RESP0];; mret SD_BUSY else mret SD_OK.

(** ** Commands *)
(** The [switch] on the kind of the response. *)
Definition sdHandleResponse (cmd : EMMCCommand) (arg resp0 : Z) : M St Z :=
  let k := resp cmd in
  if k =? RESP_NO then mret SD_OK
  else if (k =? RESP_R1) || (k =? RESP_R1b) then
    card (set_status (u32 resp0));;
    card (set_cardState (Z.shiftr (Z.land resp0 ST_CARD_STATE) R1_CARD_STATE_SHIFT));;
    mret (Z.land resp0 (i32 R1_ERRORS_MASK))
  else if (k =? RESP_R2I) || (k =? RESP_R2S) then
    card (set_status 0);;
    d0 ← rd EMMC_RESP3; d1 ← rd EMMC_RESP2; d2 ← rd EMMC_RESP1;
    let data := [d0; d1; d2; u32 resp0] in
    card (if k =? RESP_R2I then set_cid data else set_csd data);;
    mret SD_OK
  else if k =? RESP_R3 then
    card (set_status 0);; card (set_ocr (u32 resp0));; mret SD_OK
  else if k =? RESP_R6 then
    card (set_rca (Z.land (u32 resp0) R6_RCA_MASK));;
    let st := foldr Z.lor 0
      [Z.land resp0 0x00001fff; Z.shiftl (Z.land resp0 0x00002000) 6; Z.shiftl (Z.land resp0 0x00004000) 8; Z.shiftl (Z.land resp0 0x00008000) 8] in
    card (set_status st);;
    card (set_cardState (Z.shiftr (Z.land resp0 ST_CARD_STATE) R1_CARD_STATE_SHIFT));;
    mret (i32 (Z.land st R1_ERRORS_MASK))
  else if k =? RESP_R7 then
    card (set_status 0);; mret (if resp0 =? arg then SD_OK else SD_ERROR)
  else panic.

Definition sdSendCommandP (cmd : EMMCCommand) (arg : Z) : M St Z :=
  busy ← sdWaitForCommand;
  if negb (busy =? 0) then mret SD_BUSY
  else
    card (set_lastCmd (Some cmd));;
    card (set_lastArg (u32 arg));;
    i ← rd EMMC_INTERRUPT;
    wr EMMC_INTERRUPT i;;
    wr EMMC_ARG1 (u32 arg);;
    wr EMMC_CMDTM (code cmd);;
    (if cmd_delay cmd =? 0 then mret () else sd_delayus (cmd_delay cmd));;
    result ← sdWaitForInterrupt INT_CMD_DONE;
    if negb (result =? 0) then mret result
    else v ← rd EMMC_RESP0; sdHandleResponse cmd arg (i32 v).

Definition command (index : Z) : M St EMMCCommand := of_opt (sdCommandTable !! Z.to_nat index).

Definition sdSendAppCommand : M St Z :=
  r ← getcard rca;
  if r =? 0 then c ← command IX_APP_CMD; _ ← sdSendCommandP c 0; mret SD_OK
  else
    c ← command IX_APP_CMD_RCA;
    resp ← sdSendCommandP c (i32 r);
    if negb (resp =? 0) then sdDebugResponse resp
    else st ← getcard status; if has st ST_APP_CMD then mret SD_OK else mret SD_ERROR.

(** [APP_CMD] before the command where it is needed, and the check after it. *)
Definition sdAppFirst (index : Z) (send : M St Z) : M St Z :=
  resp ← (if IX_APP_CMD_START <=? index then sdSendAppCommand else mret 0);
  if negb (resp =? 0) then sdDebugResponse resp
  else
    resp ← send;
    if negb (resp =? 0) then mret resp
    else
      r ← getcard rca;
      st ← getcard status;
      if (IX_APP_CMD_START <=? index) && negb (r =? 0) && negb (has st ST_APP_CMD) then mret SD_ERROR_APP_CMD else mret resp.

Definition sdSendCommand (index : Z) : M St Z :=
  sdAppFirst index (
    cmd ← command index;
    r ← getcard rca;
    sdSendCommandP cmd (if rca_kind cmd =? RCA_YES then i32 r else 0)).

Definition sdSendCommandA (index arg : Z) : M St Z :=
  sdAppFirst index (cmd ← command index; sdSendCommandP cmd arg).

(** [if ((resp = m)) return sdDebugResponse(resp)], and then [k] *)
Definition or_debug (m : M St Z) (k : M St Z) : M St Z := resp ← m; if negb (resp =? 0) then sdDebugResponse resp else k.
(** [if ((resp = m)) return resp], and then [k] *)
Definition or_return (m : M St Z) (k : M St Z) : M St Z := resp ← m; if negb (resp =? 0) then mret resp else k.

(** ** Reading the configuration register of the card *)
(** [fuel] is the counter and the words that are left. *)
Fixpoint scr_loop (fuel : nat) (numRead : nat) (count : Z) : M St nat :=
  if (numRead <? 2)%nat then
    match fuel with
    | O => nofuel
    | S fuel =>
        st ← rd EMMC_STATUS;
        if has st SR_READ_AVAILABLE then
          v ← rd EMMC_DATA;
          card (λ c, set_scr (<[numRead := v]> (scr c)) c);;
          scr_loop fuel (S numRead) count
        else
          sd_delayus 1;;
          if count - 1 =? 0 then mret numRead else scr_loop fuel numRead (count - 1)
    end
  else mret numRead.

Definition supp (bit flag : Z) (c : SDDescriptor) : SDDescriptor :=
  if has (default 0 (scr c !! 0%nat)) bit then set_support (Z.lor (support c) flag) c else c.

Definition sdReadSCR : M St Z :=
  busy ← sdWaitForData;
  if negb (busy =? 0) then mret SD_TIMEOUT
  else
    wr EMMC_BLKSIZECNT (Z.lor (Z.shiftl 1 16) 8);;
    or_debug (sdSendCommand IX_SEND_SCR) (
    or_debug (sdWaitForInterrupt INT_READ_RDY) (
      numRead ← scr_loop (Z.to_nat 100002) 0 100000;
      if negb (numRead =? 2)%nat then printk_regs [EMMC_STATUS; EMMC_INTERRUPT; EMMC_RESP0];; mret SD_TIMEOUT
      else
        card (supp SCR_SD_BUS_WIDTH_4 SD_SUPP_BUS_WIDTH_4);;
        card (supp SCR_SD_BUS_WIDTH_1 SD_SUPP_BUS_WIDTH_1);;
        card (supp SCR_CMD_SUPP_SET_BLKCNT SD_SUPP_SET_BLOCK_COUNT);;
        card (supp SCR_CMD_SUPP_SPEED_CLASS SD_SUPP_SPEED_CLASS);;
        mret SD_OK)).

(** ** The clock *)
(** One of the steps of [fls_long]. *)
Definition fls_step (mask : Z) (k : Z) (xr : Z * Z) : Z * Z :=
  let '(x, r) := xr in if Z.land x mask =? 0 then (u64 (Z.shiftl x k), r - k) else (x, r).
Definition fls_long (x : Z) : Z :=
  if x =? 0 then 0
  else
    (fls_step 0x80000000 1 (fls_step 0xc0000000 2 (fls_step 0xf0000000 4 (fls_step 0xff000000 8 (fls_step 0xffff0000 16 (x, 32)))))).2.
Definition roundup_pow_of_two (x : Z) : Z := u64 (Z.shiftl 1 (fls_long (u64 (x - 1)))).

Definition sdGetClockDivider (hostVer freq : Z) : Z :=
  let closest := 41666666 / freq in
  let shiftcount := fls_long (u32 (closest - 1)) in
  let shiftcount := if 0 <? shiftcount then shiftcount - 1 else shiftcount in
  let shiftcount := if 7 <? shiftcount then 7 else shiftcount in
  let divisor := if HOST_SPEC_V2 <? hostVer then closest else Z.shiftl 1 shiftcount in
  let divisor := if divisor <=? 2 then 2 else divisor in
  let hi := if HOST_SPEC_V2 <? hostVer then Z.shiftr (Z.land divisor 0x300) 2 else 0 in
  let lo := Z.land divisor 0x0ff in
  Z.shiftl lo 8 + hi.

(** [while (c && --count) sd_delayus(1)], from [count = n + 1]. *)
Fixpoint while_predec (c : M St bool) (n : nat) : M St Z :=
  b ← c;
  if (b : bool) then match n with O => mret 0 | S n => sd_delayus 1;; while_predec c n end
  else mret (Z.of_nat n + 1).

Definition sdSetClock (freq : Z) : M St Z :=
  count ← while_predec (v ← rd EMMC_STATUS; mret (has v (Z.lor SR_CMD_INHIBIT SR_DAT_INHIBIT))) (Z.to_nat 99999);
  if count <=? 0 then printk_regs [EMMC_STATUS];; mret SD_ERROR_CLOCK
  else
    v ← rd EMMC_CONTROL1; wr EMMC_CONTROL1 (Z.land v (u32 (Z.lnot C1_CLK_EN)));;
    sd_delayus 10;;
    ver ← gets sdHostVer;
    let cdiv := sdGetClockDivider ver freq in
    v ← rd EMMC_CONTROL1; wr EMMC_CONTROL1 (Z.lor (Z.land v 0xffff003f) cdiv);;
    sd_delayus 10;;
    v ← rd EMMC_CONTROL1; wr EMMC_CONTROL1 (Z.lor v C1_CLK_EN);;
    sd_delayus 10;;
    count ← while_count 10 (v ← rd EMMC_CONTROL1; mret (negb (has v C1_CLK_STABLE))) (Z.to_nat 10000);
    if count <=? 0 then mret SD_ERROR_CLOCK
    else printk_regs [EMMC_STATUS; EMMC_CONTROL1];; mret SD_OK.

(** ** Initialisation *)
Definition sdResetCard (resetType : Z) : M St Z :=
  wr EMMC_CONTROL0 0;;
  v ← rd EMMC_CONTROL1; wr EMMC_CONTROL1 (Z.lor v resetType);;
  sd_delayus 10;;
  count ← while_count 10 (v ← rd EMMC_CONTROL1; mret (has v resetType)) (Z.to_nat 10000);
  if count <=? 0 then mret SD_ERROR_RESET
  else
    v ← rd EMMC_CONTROL1; wr EMMC_CONTROL1 (Z.lor v (Z.lor C1_CLK_INTLEN C1_TOUNIT_MAX));;
    sd_delayus 10;;
    resp ← sdSetClock FREQ_SETUP;
    if negb (resp =? 0) then mret resp
    else
      wr EMMC_IRPT_EN (Z.land (Z.land 0xffffffff (u32 (Z.lnot INT_CMD_DONE))) (u32 (Z.lnot INT_WRITE_RDY)));;
      wr EMMC_IRPT_MASK 0xffffffff;;
      card (set_rca 0 ∘ set_ocr 0 ∘ set_lastArg 0 ∘ set_lastCmd None ∘ set_status 0 ∘ set_ctype 0 ∘ set_uhsi 0);;
      sdSendCommand IX_GO_IDLE_STATE.

(** [while (!(ocr & R3_COMPLETE) && count--)], with an early return; [None] when it ended. *)
Fixpoint op_cond_loop (arg : Z) (count : nat) : M St (option Z) :=
  o ← getcard ocr;
  if negb (has o R3_COMPLETE) then
    match count with
    | O => mret None
    | S count =>
        printk_regs [EMMC_STATUS];;
        sd_delay 50000;;
        resp ← sdSendCommandA IX_APP_SEND_OP_COND arg;
        if negb (resp =? 0) && negb (resp =? SD_TIMEOUT) then mret (Some resp) else op_cond_loop arg count
    end
  else mret None.
Definition sdAppSendOpCond (arg : Z) : M St Z :=
  printk_regs [EMMC_STATUS];;
  resp ← sdSendCommandA IX_APP_SEND_OP_COND arg;
  if negb (resp =? 0) && negb (resp =? SD_TIMEOUT) then mret resp
  else
    early ← op_cond_loop arg 6;
    match early with
    | Some resp => mret resp
    | None =>
        o ← getcard ocr;
        if negb (has o R3_COMPLETE) then mret SD_TIMEOUT
        else if negb (has o ACMD41_VOLTAGE) then mret SD_ERROR_VOLTAGE
        else mret SD_OK
    end.

Definition sdSwitchVoltage : M St Z := mret SD_OK.

(** One group of pins: pull up, clock them in, release. *)
Definition pull_up (clk : Z) : M St () :=
  wr GPPUD 2;; sd_delay 150;; wr GPPUDCLK1 clk;; sd_delay 150;; wr GPPUD 0;; wr GPPUDCLK1 0.
Definition sdInitGPIO : M St () :=
  r ← rd GPFSEL4; wr GPFSEL4 (Z.land r (u32 (Z.lnot (Z.shiftl 7 21))));;
  pull_up (Z.shiftl 1 15);;
  r ← rd GPHEN1; wr GPHEN1 (Z.lor r (Z.shiftl 1 15));;
  r ← rd GPFSEL4; wr GPFSEL4 (Z.lor r (u32 (Z.lor (Z.shiftl 7 24) (Z.shiftl 7 27))));;
  pull_up (Z.lor (Z.shiftl 1 16) (Z.shiftl 1 17));;
  r ← rd GPFSEL5; wr GPFSEL5 (Z.lor r (foldr Z.lor 0 [Z.shiftl 7 0; Z.shiftl 7 3; Z.shiftl 7 6; Z.shiftl 7 9]));;
  pull_up (foldr Z.lor 0 [Z.shiftl 1 18; Z.shiftl 1 19; Z.shiftl 1 20; Z.shiftl 1 21]).

(** ** The mailbox ([driver/mbox.c]) *)
Definition VIDEOCORE_MBOX : Z := MMIO_BASE + 0xb880.
Definition MBOX_READ : Z := VIDEOCORE_MBOX.
Definition MBOX_STATUS : Z := VIDEOCORE_MBOX + 0x18.
Definition MBOX_WRITE : Z := VIDEOCORE_MBOX + 0x20.
Definition MBOX_FULL : Z := 0x80000000.
Definition MBOX_EMPTY : Z := 0x40000000.
Definition MBOX_TAG_GET_CLOCK_RATE : Z := 0x00030002.
Definition MBOX_TAG_GET_ARM_MEMORY : Z := 0x00010005.
Definition MBOX_TAG_END : Z := 0.

(** [while ( *MBOX_STATUS & m);] *)
Fixpoint mbox_poll (fuel : nat) (m : Z) : M St () :=
  match fuel with O => nofuel | S fuel => v ← rd MBOX_STATUS; if has v m then mbox_poll fuel m else mret () end.
Fixpoint mbox_read (fuel : nat) (chan : Z) : M St Z :=
  match fuel with
  | O => nofuel
  | S n => mbox_poll fuel MBOX_EMPTY;; r ← rd MBOX_READ; if Z.land r 0xf =? chan then mret (i32 (Z.shiftr r 4)) else mbox_read n chan
  end.
Definition mbox_write (fuel : nat) (buf chan : Z) : M St () :=
  if negb ((Z.land buf 0xf =? 0) && (Z.land chan (Z.lnot 0xf) =? 0)) then panic
  else mbox_poll fuel MBOX_FULL;; wr MBOX_WRITE (Z.lor (Z.land buf (u32 (Z.lnot 0xf))) chan).
(** A request in the buffer at physical address [addr], and the buffer after the answer. *)
Definition mbox_call (fuel : nat) (addr : Z) (buf : list Z) : M St (list Z) :=
  if negb (Z.land addr 0xf =? 0) then panic
  else
    mbox_write fuel (u32 addr) 8;;
    _ ← mbox_read fuel 8;
    gets (λ s, mbox_answer buf (dev s)).
Definition mbox_get_arm_memory (fuel : nat) (addr : Z) : M St Z :=
  buf ← mbox_call fuel addr [36; 0; MBOX_TAG_GET_ARM_MEMORY; 8; 0; 0; 0; MBOX_TAG_END];
  b5 ← of_opt (buf !! 5%nat);
  b6 ← of_opt (buf !! 6%nat);
  if negb (b5 =? 0) then panic else if b6 =? 0 then panic else mret (i32 b6).
Definition mbox_get_clock_rate (fuel : nat) (addr : Z) : M St Z :=
  buf ← mbox_call fuel addr [36; 0; MBOX_TAG_GET_CLOCK_RATE; 8; 0; 1; 0; MBOX_TAG_END];
  b6 ← of_opt (buf !! 6%nat);
  mret (i32 b6).

Definition sdGetBaseClock (fuel : nat) (addr : Z) : M St Z :=
  r ← mbox_get_clock_rate fuel addr;
  modify (set_sdBaseClock r);;
  if r =? -1 then mret SD_ERROR else mret SD_OK.

(** ** The registers of the card *)
Definition word (l : list Z) (i : nat) : Z := default 0 (l !! i).
Definition sdParseCSD (c : SDDescriptor) : SDDescriptor :=
  let w := word (csd c) in
  let csdVersion := Z.land (w 0%nat) CSD0_VERSION in
  let cap :=
    if csdVersion =? CSD0_V1 then
      let csize := Z.shiftl (Z.land (w 1%nat) CSD1V1_C_SIZEH) CSD1V1_C_SIZEH_SHIFT + Z.shiftr (Z.land (w 2%nat) CSD2V1_C_SIZEL) CSD2V1_C_SIZEL_SHIFT in
      let mult := Z.shiftl 1 (Z.shiftr (Z.land (w 2%nat) CSD2V1_C_SIZE_MULT) CSD2V1_C_SIZE_MULT_SHIFT + 2) in
      let blockSize := Z.shiftl 1 (Z.shiftr (Z.land (w 1%nat) CSD1VN_READ_BL_LEN) CSD1VN_READ_BL_LEN_SHIFT) in
      u64 ((csize + 1) * mult * blockSize)
    else
      let csize := Z.shiftr (Z.land (w 2%nat) CSD2V2_C_SIZE) CSD2V2_C_SIZE_SHIFT in
      u64 ((csize + 1) * 512 * 1024) in
  set_fileFormat (Z.land (w 3%nat) CSD3VN_FILE_FORMAT) (set_capacity cap c).

(** From the voltage on to the end; the parts of the card's name are only printed. *)
Definition sdInitCard (oldCID : list Z) : M St Z :=
  o ← getcard ocr;
  or_return (if has o R3_S18A then sdSwitchVoltage else mret 0) (
  or_debug (sdSendCommand IX_ALL_SEND_CID) (
  or_debug (sdSendCommand IX_SEND_REL_ADDR) (
  or_debug (sdSendCommand IX_SEND_CSD) (
    card sdParseCSD;;
    ff ← getcard fileFormat;
    if negb (ff =? CSD3VN_FILE_FORMAT_DOSFAT) && negb (ff =? CSD3VN_FILE_FORMAT_HDD) then mret SD_ERROR
    else
      or_debug (sdSetClock FREQ_NORMAL) (
      or_debug (sdSendCommand IX_CARD_SELECT) (
      or_debug sdReadSCR (
        sp ← getcard support;
        r ← getcard rca;
        or_debug
          (if has sp SD_SUPP_BUS_WIDTH_4 then
             or_return (sdSendCommandA IX_SET_BUS_WIDTH (Z.lor (i32 r) 2)) (v ← rd EMMC_CONTROL0; wr EMMC_CONTROL0 (Z.lor v C0_HCTL_DWITDH);; mret 0)
           else mret 0) (
        or_debug (sdSendCommandA IX_SET_BLOCKLEN 512) (
          card (set_cinit 1);;
          new ← getcard cid;
          if bool_decide (oldCID = new) then mret SD_CARD_REINSERTED else mret SD_CARD_CHANGED))))))))).

Definition sdInit (fuel : nat) (addr : Z) : M St Z :=
  i ← getcard cinit;
  (if i =? 0 then sdInitGPIO else mret ());;
  let cardAbsent := false in
  ev ← rd GPEDS1;
  let cardEjected := has ev (Z.shiftl 1 15) in
  if (cardAbsent : bool) then
    card (set_cinit 0);; card (set_absent 1);; mret SD_CARD_ABSENT
  else
    card (set_absent 0);;
    old ← getcard cid;
    let oldCID := if i =? 0 then replicate 4 0 else old in
    (if cardEjected && negb (i =? 0) then card (set_cinit 0) else mret ());;
    i ← getcard cinit;
    if negb (i =? 0) then mret SD_OK
    else
      v ← rd EMMC_SLOTISR_VER;
      modify (set_sdHostVer (Z.shiftr (Z.land v HOST_SPEC_NUM) HOST_SPEC_NUM_SHIFT));;
      or_return (sdGetBaseClock fuel addr) (
      or_return (sdResetCard C1_SRST_HC) (
        resp ← sdSendCommandA IX_SEND_IF_COND 0x000001aa;
        if resp =? SD_OK then
          sd_delay 50;;
          or_debug (sdAppSendOpCond ACMD41_ARG_HC) (
            o ← getcard ocr;
            card (set_ctype (if has o R3_CCS then SD_TYPE_2_HC else SD_TYPE_2_SC));;
            sdInitCard oldCID)
        else if resp =? SD_BUSY then mret resp
        else
          st ← rd EMMC_STATUS;
          or_return (if has st SR_CMD_INHIBIT then sdResetCard C1_SRST_HC else mret 0) (
          or_debug (sdAppSendOpCond ACMD41_ARG_SC) (
            card (set_ctype SD_TYPE_1);;
            sdInitCard oldCID)))).
End driver.
