(* ===== verification/SdInit.v ===== *)
(** * Initialising the SD card, for every behaviour of the hardware

    Nothing is assumed of the controller and of the card in this file: whatever the
    registers show, the driver comes to an end.  At the end, what the divider of the clock
    is. *)

From stdpp Require Import base numbers list strings.
From S2P Require Import Prelude SdDefs Sd.

Section total.
Context {D : Type} `{!Emmc D}.
Implicit Types s : sdst D.

(** ** Code that only touches the hardware *)
Definition quiet {A} (m : M (sdst D) A) : Prop := ∀ s, wp m (λ _ s', sdCard s' = sdCard s) s.
Lemma quiet_ret {A} (a : A) : quiet (mret a).
Proof. by intros s. Qed.
Lemma quiet_seq {A B} (m : M (sdst D) A) (k : A → M (sdst D) B) : quiet m → (∀ a, quiet (k a)) → quiet (m ≫= k).
Proof.
  intros Hm Hk s. apply wp_bind. eapply wp_mono; [apply Hm|]. intros a s' E. simpl. eapply wp_mono; [apply Hk|]. intros b s'' E'. congruence.
Qed.
Lemma quiet_if {A} (b : bool) (m1 m2 : M (sdst D) A) : quiet m1 → quiet m2 → quiet (if b then m1 else m2).
Proof. by destruct b. Qed.
Lemma quiet_rd r : quiet (rd r).
Proof. intros s. rewrite /wp /rd. run_simpl. by destruct (reg_get r (dev s)). Qed.
Lemma quiet_modify f : (∀ s, sdCard (f s) = sdCard s) → quiet (modify f).
Proof. intros H s. by apply wp_modify. Qed.
Lemma quiet_wr r v : quiet (wr r v).
Proof. by apply quiet_modify. Qed.
Lemma quiet_delayus c : quiet (sd_delayus c).
Proof. by apply quiet_modify. Qed.
Lemma quiet_delay c : quiet (sd_delay c).
Proof. by apply quiet_modify. Qed.
Lemma quiet_gets {A} (f : sdst D → A) : quiet (gets f).
Proof. by intros s. Qed.
Hint Resolve quiet_ret quiet_seq quiet_if quiet_rd quiet_wr quiet_delayus quiet_delay quiet_gets : quiet.
Ltac quiet_solve := repeat first [intros; solve [eauto with quiet]|apply quiet_seq; [|intros ?]|apply quiet_if|progress cbv zeta].

Lemma quiet_printk rs : quiet (printk_regs rs).
Proof. induction rs; simpl; quiet_solve. Qed.
Lemma quiet_while_count us c n : quiet c → quiet (while_count us c n).
Proof. intros Hc. induction n as [|n IH]; simpl; quiet_solve. Qed.
Lemma quiet_while_below c l n : quiet c → quiet (while_below c l n).
Proof. intros Hc. induction n as [|n IH]; simpl; quiet_solve. Qed.
Lemma quiet_while_predec c n : quiet c → quiet (while_predec c n).
Proof. intros Hc. induction n as [|n IH]; simpl; quiet_solve. Qed.
Hint Resolve quiet_printk quiet_while_count quiet_while_below quiet_while_predec : quiet.
Lemma quiet_wait_interrupt mask : quiet (sdWaitForInterrupt mask).
Proof. rewrite /sdWaitForInterrupt. quiet_solve. Qed.
Lemma quiet_in_progress m : quiet (in_progress m).
Proof. rewrite /in_progress. quiet_solve. Qed.
Lemma quiet_failed b : quiet (failed b).
Proof. rewrite /failed. quiet_solve. Qed.
Hint Resolve quiet_wait_interrupt quiet_in_progress quiet_failed : quiet.
Lemma quiet_wait_command : quiet sdWaitForCommand.
Proof. rewrite /sdWaitForCommand. quiet_solve. Qed.
Lemma quiet_wait_data : quiet sdWaitForData.
Proof. rewrite /sdWaitForData. quiet_solve. Qed.
Lemma quiet_set_clock f : quiet (sdSetClock f).
Proof. rewrite /sdSetClock. quiet_solve. Qed.
Lemma quiet_init_gpio : quiet sdInitGPIO.
Proof. rewrite /sdInitGPIO /pull_up. quiet_solve. Qed.
Hint Resolve quiet_wait_command quiet_wait_data quiet_set_clock quiet_init_gpio : quiet.

(** ** Commands *)
(** What a command leaves alone in the descriptor, and that the last command stays known. *)
Record adv (c c' : SDDescriptor) : Prop := {
  adv_init : cinit c' = cinit c; adv_type : ctype c' = ctype c; adv_format : fileFormat c' = fileFormat c;
  adv_last : lastCmd c ≠ None → lastCmd c' ≠ None;
  adv_rca : rca c' ≠ rca c → lastCmd c' ≠ None }.
Lemma adv_refl c : adv c c.
Proof. by split. Qed.
Lemma adv_trans c1 c2 c3 : adv c1 c2 → adv c2 c3 → adv c1 c3.
Proof.
  intros [? ? ? H1 H2] [? ? ? H3 H4]. split; [congruence..|auto|]. intros Hr. destruct (decide (rca c2 = rca c1)) as [E|E]; [apply H4; congruence|auto].
Qed.
(** A card with an address has been sent a command. *)
Definition addressed (c : SDDescriptor) : Prop := rca c ≠ 0 → lastCmd c ≠ None.
Lemma adv_addressed c c' : adv c c' → addressed c → addressed c'.
Proof. intros [? ? ? H1 H2] H Hr. destruct (decide (rca c' = rca c)) as [E|E]; [apply H1, H; congruence|auto]. Qed.

(** An error of a command is never one of the results for a card that is ready. *)
Definition no_card (r : Z) : Prop := r ≠ SD_CARD_CHANGED ∧ r ≠ SD_CARD_REINSERTED.
Definition sends (m : M (sdst D) Z) : Prop := ∀ s, addressed (sdCard s) →
  wp m (λ r s', adv (sdCard s) (sdCard s') ∧ no_card r ∧ (r = 0 → lastCmd (sdCard s') ≠ None)) s.

Lemma no_card_land x m : Z.testbit m 3 = false → no_card (Z.land x m).
Proof. intros Hm. split; intros E; apply (f_equal (λ z, Z.testbit z 3)) in E; rewrite Z.land_spec Hm andb_false_r in E; done. Qed.
Lemma no_card_i32 v : Z.testbit v 3 = false → no_card (i32 v).
Proof.
  intros Hv. assert (H : i32 v mod 2 ^ 32 = v mod 2 ^ 32) by (rewrite /i32 /swrap; dlia).
  assert (Hb : Z.testbit (i32 v) 3 = false).
  { rewrite -(Z.mod_pow2_bits_low (i32 v) 32 3); [lia|]. rewrite H Z.mod_pow2_bits_low; [lia|done]. }
  split; intros E; rewrite E in Hb; done.
Qed.

Definition known_resp (k : Z) : bool := bool_decide (k ∈ [RESP_NO; RESP_R1; RESP_R1b; RESP_R2I; RESP_R2S; RESP_R3; RESP_R6; RESP_R7]).
Lemma handle_response cmd arg r s : known_resp (resp cmd) = true → lastCmd (sdCard s) ≠ None →
  wp (sdHandleResponse cmd arg r) (λ v s', cinit (sdCard s') = cinit (sdCard s) ∧ ctype (sdCard s') = ctype (sdCard s) ∧
    fileFormat (sdCard s') = fileFormat (sdCard s) ∧ lastCmd (sdCard s') = lastCmd (sdCard s) ∧ no_card v) s.
Proof.
  intros Hk Hl. rewrite /sdHandleResponse /wp. cbv zeta. destruct (resp cmd =? RESP_NO) eqn:E0; [done|].
  destruct ((resp cmd =? RESP_R1) || _) eqn:E1; [run_simpl; split_and!; [done..|by apply no_card_land]|].
  destruct ((resp cmd =? RESP_R2I) || _) eqn:E2.
  { rewrite /card /rd. run_simpl. destruct (reg_get EMMC_RESP3 _) as [v3 d3]. simpl. destruct (reg_get EMMC_RESP2 _) as [v2 d2]. simpl.
    destruct (reg_get EMMC_RESP1 _) as [v1 d1]. simpl. by destruct (resp cmd =? RESP_R2I). }
  destruct (resp cmd =? RESP_R3) eqn:E3; [done|].
  destruct (resp cmd =? RESP_R6) eqn:E6; [run_simpl; split_and!; [done..|]; apply no_card_i32; by rewrite Z.land_spec andb_false_r|].
  destruct (resp cmd =? RESP_R7) eqn:E7; [run_simpl; by destruct (r =? arg)|]. exfalso. apply bool_decide_eq_true in Hk.
  apply orb_false_elim in E1 as [? ?], E2 as [? ?]. repeat (apply elem_of_cons in Hk as [Hk|Hk]; [rewrite Hk in E0, H, H0, H1, H2, E3, E6, E7; done|]).
  by apply not_elem_of_nil in Hk.
Qed.

Lemma wp_quiet {A B} (m : M (sdst D) A) (k : A → M (sdst D) B) Q s :
  quiet m → (∀ a s', sdCard s' = sdCard s → wp (k a) Q s') → wp (m ≫= k) Q s.
Proof. intros Hm Hk. apply wp_bind. eapply wp_mono; [apply Hm|]. intros a s' E. by apply Hk. Qed.
Lemma wp_card {B} f (k : () → M (sdst D) B) Q s : wp (k ()) Q (set_sdCard (f (sdCard s)) s) → wp (card f ≫= k) Q s.
Proof. done. Qed.
Lemma wp_getcard {A B} (f : SDDescriptor → A) (k : A → M (sdst D) B) Q s : wp (k (f (sdCard s))) Q s → wp (getcard f ≫= k) Q s.
Proof. done. Qed.
Lemma wp_sends {B} (m : M (sdst D) Z) (k : Z → M (sdst D) B) Q s : sends m → addressed (sdCard s) →
  (∀ r s', adv (sdCard s) (sdCard s') → addressed (sdCard s') → no_card r → (r = 0 → lastCmd (sdCard s') ≠ None) → wp (k r) Q s') → wp (m ≫= k) Q s.
Proof. intros Hm Hs Hk. apply wp_bind. eapply wp_mono; [by apply Hm|]. intros r s' (Ha & Hn & Hl). apply Hk; [done|by apply (adv_addressed (sdCard s))|done..]. Qed.

Lemma wait_interrupt_code mask s : wp (sdWaitForInterrupt mask) (λ r s', sdCard s' = sdCard s ∧ (r = SD_OK ∨ r = SD_ERROR ∨ r = SD_TIMEOUT)) s.
Proof.
  rewrite /sdWaitForInterrupt. cbv zeta. apply wp_quiet; [quiet_solve|]. intros count s1 E1. apply wp_quiet; [quiet_solve|]. intros ival s2 E2.
  destruct (_ || _); [|destruct (has ival INT_ERROR_MASK)].
  - apply wp_quiet; [quiet_solve|]. intros [] s3 E3. apply wp_ret. split; [congruence|by right; right].
  - apply wp_quiet; [quiet_solve|]. intros [] s3 E3. apply wp_quiet; [quiet_solve|]. intros [] s4 E4. apply wp_ret. split; [congruence|by right; left].
  - apply wp_quiet; [quiet_solve|]. intros [] s3 E3. apply wp_ret. split; [congruence|by left].
Qed.

Lemma sends_p cmd arg : known_resp (resp cmd) = true → sends (sdSendCommandP cmd arg).
Proof.
  intros Hk s Hs. rewrite /sdSendCommandP. apply wp_quiet; [apply quiet_wait_command|]. intros busy s1 E1.
  destruct (negb (busy =? 0)); [apply wp_ret; rewrite E1; split_and!; [apply adv_refl|done|done]|].
  do 2 apply wp_card. set (s2 := set_sdCard _ _). assert (L2 : lastCmd (sdCard s2) ≠ None) by done.
  assert (A2 : cinit (sdCard s2) = cinit (sdCard s) ∧ ctype (sdCard s2) = ctype (sdCard s) ∧ fileFormat (sdCard s2) = fileFormat (sdCard s)) by (by rewrite /s2 /= E1).
  clearbody s2. apply wp_quiet; [apply quiet_rd|]. intros i s3 E3. apply wp_quiet; [apply quiet_wr|]. intros [] s4 E4.
  apply wp_quiet; [apply quiet_wr|]. intros [] s5 E5. apply wp_quiet; [apply quiet_wr|]. intros [] s6 E6.
  apply wp_quiet; [apply quiet_if; [apply quiet_ret|apply quiet_delayus]|]. intros [] s7 E7.
  apply wp_bind. eapply wp_mono; [apply wait_interrupt_code|]. intros result s8 [E8 Hr]. assert (E : sdCard s8 = sdCard s2) by congruence.
  destruct A2 as (A1 & A2 & A3).
  assert (Hadv : ∀ c, cinit c = cinit (sdCard s2) → ctype c = ctype (sdCard s2) → fileFormat c = fileFormat (sdCard s2) → lastCmd c = lastCmd (sdCard s2) → adv (sdCard s) c).
  { intros c H1 H2 H3 H4. split; [congruence..|by rewrite H4|by rewrite H4]. }
  destruct (negb (result =? 0)).
  - apply wp_ret. split_and!; [by apply Hadv; rewrite E|by destruct Hr as [->|[->| ->]]|by rewrite E].
  - apply wp_quiet; [apply quiet_rd|]. intros v s9 E9. eapply wp_mono; [apply handle_response; [done|by rewrite E9 E]|].
    intros r s' (B1 & B2 & B3 & B4 & Hn). rewrite E9 E in B1, B2, B3, B4. split_and!; [by apply Hadv|done|by rewrite B4].
Qed.

Lemma wp_debug r s : lastCmd (sdCard s) ≠ None → wp (sdDebugResponse r) (λ r' s', r' = r ∧ sdCard s' = sdCard s) s.
Proof.
  intros Hl. rewrite /sdDebugResponse. apply wp_getcard. destruct (lastCmd (sdCard s)) as [c|] eqn:El; [|done].
  apply wp_bind, wp_ret. apply wp_quiet; [apply quiet_printk|]. intros [] s1 E1. apply wp_quiet; [apply quiet_printk|]. intros [] s2 E2.
  apply wp_ret. split; congruence.
Qed.

Lemma command_run index c (k : EMMCCommand → M (sdst D) Z) Q s : sdCommandTable !! Z.to_nat index = Some c → wp (k c) Q s → wp (command index ≫= k) Q s.
Proof. intros H Hk. rewrite /command H. by apply wp_bind, wp_ret. Qed.

Lemma wp_app_command s : addressed (sdCard s) →
  wp sdSendAppCommand (λ r s', adv (sdCard s) (sdCard s') ∧ no_card r ∧ (r ≠ 0 → lastCmd (sdCard s') ≠ None)) s.
Proof.
  intros Hs. rewrite /sdSendAppCommand. apply wp_getcard. destruct (rca (sdCard s) =? 0) eqn:Er.
  - eapply command_run; [reflexivity|]. apply wp_sends; [by apply sends_p|done|]. intros r s' Ha _ _ _. by apply wp_ret.
  - apply Z.eqb_neq in Er. specialize (Hs Er). eapply command_run; [reflexivity|]. apply wp_sends; [by apply sends_p|done|]. intros r s' Ha _ Hn Hl.
    assert (Hl' : lastCmd (sdCard s') ≠ None) by (by apply (adv_last _ _ Ha)).
    destruct (negb (r =? 0)).
    + eapply wp_mono; [by apply wp_debug|]. intros r' s2 [-> E2]. by rewrite E2.
    + apply wp_getcard. by destruct (has _ _); apply wp_ret.
Qed.

Lemma sends_app_first index m : sends m → sends (sdAppFirst index m).
Proof.
  intros Hm s Hs. rewrite /sdAppFirst. apply wp_bind.
  assert (H : wp (if IX_APP_CMD_START <=? index then sdSendAppCommand else mret 0)
    (λ r s', adv (sdCard s) (sdCard s') ∧ no_card r ∧ (r ≠ 0 → lastCmd (sdCard s') ≠ None)) s).
  { destruct (_ <=? _); [by apply wp_app_command|]. apply wp_ret. split_and!; [apply adv_refl|done|done]. }
  eapply wp_mono; [exact H|]. intros r s1 (Ha & Hn & Hl). cbn beta. destruct (r =? 0) eqn:Er; cbn [negb].
  - apply wp_sends; [done|by apply (adv_addressed (sdCard s))|]. intros r2 s2 Ha2 _ Hn2 Hl2. pose proof (adv_trans _ _ _ Ha Ha2) as Ha3.
    destruct (negb (r2 =? 0)); [by apply wp_ret|]. do 2 apply wp_getcard. destruct (_ && _); by apply wp_ret.
  - apply Z.eqb_neq in Er. eapply wp_mono; [by apply wp_debug, Hl|]. intros r' s2 [-> E2]. rewrite E2. split_and!; [done|done|]. auto.
Qed.

Definition sendable (index : Z) : bool := match sdCommandTable !! Z.to_nat index with Some c => known_resp (resp c) | None => false end.
Lemma sends_command index : sendable index = true → sends (sdSendCommand index).
Proof.
  rewrite /sendable. intros Hi. apply sends_app_first. intros s Hs. destruct (sdCommandTable !! Z.to_nat index) as [c|] eqn:Ec; [|done].
  eapply command_run; [exact Ec|]. apply wp_getcard. by apply sends_p.
Qed.
Lemma sends_command_a index arg : sendable index = true → sends (sdSendCommandA index arg).
Proof.
  rewrite /sendable. intros Hi. apply sends_app_first. intros s Hs. destruct (sdCommandTable !! Z.to_nat index) as [c|] eqn:Ec; [|done].
  eapply command_run; [exact Ec|]. by apply sends_p.
Qed.

(** ** The parts of the initialisation *)
Definition calm (m : M (sdst D) Z) : Prop := ∀ s, addressed (sdCard s) → wp m (λ r s', adv (sdCard s) (sdCard s') ∧ no_card r) s.
Lemma sends_calm m : sends m → calm m.
Proof. intros Hm s Hs. eapply wp_mono; [by apply Hm|]. by intros r s' (? & ? & _). Qed.
Lemma calm_ret r : no_card r → calm (mret r).
Proof. intros Hr s Hs. apply wp_ret. split; [apply adv_refl|done]. Qed.
Lemma calm_quiet {A} (m : M (sdst D) A) k : quiet m → (∀ a, calm (k a)) → calm (m ≫= k).
Proof. intros Hm Hk s Hs. apply wp_quiet; [done|]. intros a s' E. rewrite -E. apply Hk. by rewrite E. Qed.
Lemma calm_getcard {A} (f : SDDescriptor → A) k : (∀ a, calm (k a)) → calm (getcard f ≫= k).
Proof. intros Hk s Hs. by apply wp_getcard, Hk. Qed.
Lemma calm_if (b : bool) m1 m2 : calm m1 → calm m2 → calm (if b then m1 else m2).
Proof. by destruct b. Qed.
Lemma calm_card {A} (f : SDDescriptor → SDDescriptor) (m : M (sdst D) A) (k : M (sdst D) Z) :
  (∀ c, adv c (f c)) → calm k → calm (card f;; k).
Proof.
  intros Hf Hk s Hs. apply wp_card. eapply wp_mono; [apply Hk; by apply (adv_addressed (sdCard s))|]. intros r s' [Ha Hn]. split; [|done].
  by apply (adv_trans _ (f (sdCard s))).
Qed.
Lemma calm_sends m k : sends m → (∀ r, no_card r → calm (k r)) → calm (m ≫= k).
Proof.
  intros Hm Hk s Hs. apply wp_sends; [done..|]. intros r s' Ha Hs' Hn _. eapply wp_mono; [by apply Hk|]. intros r' s2 [Ha' Hn']. split; [|done].
  by apply (adv_trans _ (sdCard s')).
Qed.

Lemma calm_set_clock f : calm (sdSetClock f).
Proof.
  rewrite /sdSetClock. apply calm_quiet; [quiet_solve|]. intros count. apply calm_if; [apply calm_quiet; [quiet_solve|]; intros; by apply calm_ret|].
  do 11 (apply calm_quiet; [quiet_solve|]; intros ?). apply calm_if; [by apply calm_ret|]. apply calm_quiet; [quiet_solve|]. intros. by apply calm_ret.
Qed.

Lemma scr_loop_runs fuel : ∀ n count s, (Z.to_nat count + (2 - n) ≤ fuel)%nat → 1 ≤ count →
  wp (scr_loop fuel n count) (λ _ s', adv (sdCard s) (sdCard s') ∧ lastCmd (sdCard s') = lastCmd (sdCard s)) s.
Proof.
  induction fuel as [|fuel IH]; intros n count s Hf Hc; cbn [scr_loop]; (destruct (n <? 2)%nat eqn:En; [|apply wp_ret; split; [apply adv_refl|done]]); [lia|].
  apply Nat.ltb_lt in En. apply wp_quiet; [quiet_solve|]. intros st s1 E1. rewrite -E1. destruct (has st SR_READ_AVAILABLE).
  - apply wp_quiet; [quiet_solve|]. intros v s2 E2. rewrite -E2. apply wp_card. eapply wp_mono; [apply IH; [lia|done]|]. intros k s' [Ha Hl]. split; [|done].
    eapply adv_trans; [|exact Ha]. by split.
  - apply wp_quiet; [quiet_solve|]. intros [] s2 E2. rewrite -E2. destruct (count - 1 =? 0) eqn:Ez; [apply wp_ret; split; [apply adv_refl|done]|].
    apply Z.eqb_neq in Ez. apply IH; lia.
Qed.

Lemma adv_supp b f c : adv c (supp b f c).
Proof. rewrite /supp. destruct (has _ _); by split. Qed.

(** The same once a command has been sent. *)
Definition calm_after (m : M (sdst D) Z) : Prop := ∀ s, lastCmd (sdCard s) ≠ None → wp m (λ r s', adv (sdCard s) (sdCard s') ∧ no_card r) s.
Lemma calm_calm_after m : calm m → calm_after m.
Proof. intros Hm s Hs. apply Hm. by intros _. Qed.

(** A step with a message when it fails. *)
Lemma wp_or_debug m k Q s : calm_after m → lastCmd (sdCard s) ≠ None →
  (∀ r s', adv (sdCard s) (sdCard s') → no_card r → Q r s') →
  (∀ s', adv (sdCard s) (sdCard s') → lastCmd (sdCard s') ≠ None → wp k Q s') → wp (or_debug m k) Q s.
Proof.
  intros Hm Hl Hq Hk. rewrite /or_debug. apply wp_bind. eapply wp_mono; [by apply Hm|]. intros r s' [Ha Hn]. cbn beta.
  assert (Hl' : lastCmd (sdCard s') ≠ None) by (by apply (adv_last _ _ Ha)).
  destruct (negb (r =? 0)); [|by apply Hk]. eapply wp_mono; [by apply wp_debug|]. intros r' s2 [-> E2]. apply Hq; by rewrite ?E2.
Qed.
Lemma calm_after_or_debug m k : calm_after m → calm_after k → calm_after (or_debug m k).
Proof.
  intros Hm Hk s Hs. apply wp_or_debug; [done..|]. intros s' Ha Hl. eapply wp_mono; [by apply Hk|]. intros r s2 [Ha' Hn]. split; [|done].
  by apply (adv_trans _ (sdCard s')).
Qed.
Lemma calm_after_or_return m k : calm_after m → calm_after k → calm_after (or_return m k).
Proof.
  intros Hm Hk s Hs. rewrite /or_return. apply wp_bind. eapply wp_mono; [by apply Hm|]. intros r s' [Ha Hn]. cbn beta.
  destruct (negb (r =? 0)); [by apply wp_ret|]. eapply wp_mono; [apply Hk; by apply (adv_last _ _ Ha)|]. intros r' s2 [Ha' Hn']. split; [|done].
  by apply (adv_trans _ (sdCard s')).
Qed.

Lemma calm_wait_interrupt mask : calm (sdWaitForInterrupt mask).
Proof.
  intros s _. eapply wp_mono; [apply wait_interrupt_code|]. intros r s' [-> Hr]. split; [apply adv_refl|]. by destruct Hr as [->|[->| ->]].
Qed.

Lemma calm_read_scr : calm_after sdReadSCR.
Proof.
  intros s Hs. rewrite /sdReadSCR. apply wp_quiet; [quiet_solve|]. intros busy s1 E1. rewrite -E1. rewrite -E1 in Hs.
  destruct (negb (busy =? 0)); [apply wp_ret; split; [apply adv_refl|done]|].
  apply wp_quiet; [quiet_solve|]. intros [] s2 E2. rewrite -E2. rewrite -E2 in Hs. clear E1 E2.
  apply wp_or_debug; [by apply calm_calm_after, sends_calm, sends_command|done|done|]. intros s3 A3 L3.
  apply wp_or_debug; [apply calm_calm_after, calm_wait_interrupt|done|intros r s4 A4 Hn; split; [by apply (adv_trans _ (sdCard s3))|done]|].
  intros s4 A4 L4. pose proof (adv_trans _ _ _ A3 A4) as A. apply wp_bind. eapply wp_mono; [apply scr_loop_runs; lia|]. intros n s5 [A5 _]. cbn beta.
  pose proof (adv_trans _ _ _ A A5) as B. destruct (negb (n =? 2)%nat); [apply wp_quiet; [quiet_solve|]; intros [] s6 E6; apply wp_ret; by rewrite E6|].
  do 4 apply wp_card. apply wp_ret. split; [|done]. cbn [sdCard set_sdCard]. repeat (eapply adv_trans; [|apply adv_supp]). done.
Qed.

Lemma calm_op_cond_loop arg n : ∀ s, addressed (sdCard s) →
  wp (op_cond_loop arg n) (λ r s', adv (sdCard s) (sdCard s') ∧ addressed (sdCard s') ∧ ∀ x, r = Some x → no_card x) s.
Proof.
  induction n as [|n IH]; intros s Hs; cbn [op_cond_loop]; apply wp_getcard; (destruct (negb (has _ _)); [|apply wp_ret; split_and!; [apply adv_refl|done|done]]).
  - apply wp_ret. split_and!; [apply adv_refl|done|done].
  - apply wp_quiet; [quiet_solve|]. intros [] s1 E1. apply wp_quiet; [quiet_solve|]. intros [] s2 E2. rewrite -E1 -E2. rewrite -E1 -E2 in Hs.
    apply wp_sends; [by apply sends_command_a|done|]. intros r s3 A3 H3 Hn _. destruct (_ && _); [apply wp_ret; split_and!; [done|done|by intros x [= <-]]|].
    eapply wp_mono; [by apply IH|]. intros o s4 (A4 & H4 & Ho). split_and!; [by apply (adv_trans _ (sdCard s3))|done|done].
Qed.
Lemma calm_app_send_op_cond arg : calm (sdAppSendOpCond arg).
Proof.
  rewrite /sdAppSendOpCond. apply calm_quiet; [quiet_solve|]. intros []. apply calm_sends; [by apply sends_command_a|]. intros r Hr.
  apply calm_if; [by apply calm_ret|]. intros s Hs. apply wp_bind. eapply wp_mono; [by apply calm_op_cond_loop|]. intros [x|] s' (Ha & _ & Hx); cbn beta iota.
  - apply wp_ret. split; [done|by apply Hx].
  - apply wp_getcard. destruct (negb (has _ R3_COMPLETE)); [by apply wp_ret|]. by destruct (negb (has _ ACMD41_VOLTAGE)); apply wp_ret.
Qed.

Lemma wp_reset_card t s : addressed (sdCard s) →
  wp (sdResetCard t) (λ r s', cinit (sdCard s') = cinit (sdCard s) ∧ addressed (sdCard s') ∧ no_card r ∧ (r = 0 → lastCmd (sdCard s') ≠ None)) s.
Proof.
  intros Hs. rewrite /sdResetCard. do 5 (apply wp_quiet; [quiet_solve|]; intros ? ? ?). match goal with |- wp _ _ ?x => assert (E : sdCard x = sdCard s) by congruence end.
  destruct (_ <=? 0); [apply wp_ret; by rewrite E|].
  do 3 (apply wp_quiet; [quiet_solve|]; intros ? ? ?). match goal with |- wp _ _ ?x => assert (E' : sdCard x = sdCard s) by congruence end.
  apply wp_bind. eapply wp_mono; [apply calm_set_clock; by rewrite E'|]. intros r s1 [A1 Hn]. cbn beta. rewrite E' in A1.
  destruct (r =? 0) eqn:Er; cbn [negb]; last first.
  { apply wp_ret. split_and!; [apply A1|by apply (adv_addressed (sdCard s))|done|]. by apply Z.eqb_neq in Er. }
  apply wp_quiet; [quiet_solve|]. intros [] s2 E2. apply wp_quiet; [quiet_solve|]. intros [] s3 E3. apply wp_card.
  eapply wp_mono; [by apply sends_command|]. intros r' s4 (A4 & Hn4 & Hl4). split_and!; [|by eapply adv_addressed; [exact A4|]|done|done].
  rewrite (adv_init _ _ A4) -(adv_init _ _ A1) -E2 -E3. done.
Qed.

(** ** [sdInit] *)
(** What is known at the end. *)
Definition init_result (t r : Z) (s' : sdst D) : Prop :=
  (no_card r ∧ cinit (sdCard s') = 0) ∨
  ((r = SD_CARD_CHANGED ∨ r = SD_CARD_REINSERTED) ∧ cinit (sdCard s') = 1 ∧ ctype (sdCard s') = t ∧
   (fileFormat (sdCard s') = CSD3VN_FILE_FORMAT_DOSFAT ∨ fileFormat (sdCard s') = CSD3VN_FILE_FORMAT_HDD)).

Lemma or_debug_result t m k s : calm_after m → lastCmd (sdCard s) ≠ None → cinit (sdCard s) = 0 →
  (∀ s', adv (sdCard s) (sdCard s') → lastCmd (sdCard s') ≠ None → wp k (init_result t) s') → wp (or_debug m k) (init_result t) s.
Proof. intros Hm Hl Hi Hk. apply wp_or_debug; [done..| |done]. intros r s' Ha Hn. left. by rewrite (adv_init _ _ Ha). Qed.

Lemma calm_bus_width sp r : calm_after (if has sp SD_SUPP_BUS_WIDTH_4 then
  or_return (sdSendCommandA IX_SET_BUS_WIDTH r) (v ← rd EMMC_CONTROL0; wr EMMC_CONTROL0 (Z.lor v C0_HCTL_DWITDH);; mret 0) else mret 0).
Proof.
  destruct (has _ _); [|by apply calm_calm_after, calm_ret]. apply calm_after_or_return; [by apply calm_calm_after, sends_calm, sends_command_a|].
  apply calm_calm_after. do 2 (apply calm_quiet; [quiet_solve|]; intros ?). by apply calm_ret.
Qed.

Lemma wp_init_card old s : lastCmd (sdCard s) ≠ None → cinit (sdCard s) = 0 → wp (sdInitCard old) (init_result (ctype (sdCard s))) s.
Proof.
  intros Hl Hi. rewrite /sdInitCard. apply wp_getcard. rewrite /or_return /sdSwitchVoltage. apply wp_bind.
  assert (H : wp (if has (ocr (sdCard s)) R3_S18A then mret SD_OK else mret 0) (λ r s', r = 0 ∧ s' = s) s) by (by destruct (has _ _); apply wp_ret).
  eapply wp_mono; [exact H|]. intros r s' [-> ->]. clear H. cbn beta. change (negb (0 =? 0)) with false. cbv iota.
  apply or_debug_result; [by apply calm_calm_after, sends_calm, sends_command|done..|]. intros s1 A1 L1.
  apply or_debug_result; [by apply calm_calm_after, sends_calm, sends_command|done|by rewrite (adv_init _ _ A1)|]. intros s2 A2 L2. pose proof (adv_trans _ _ _ A1 A2) as B2.
  apply or_debug_result; [by apply calm_calm_after, sends_calm, sends_command|done|by rewrite (adv_init _ _ B2)|]. intros s3 A3 L3. pose proof (adv_trans _ _ _ B2 A3) as B3.
  apply wp_card, wp_getcard. set (s4 := set_sdCard _ s3). assert (I4 : cinit (sdCard s4) = 0) by (rewrite -Hi -(adv_init _ _ B3); done).
  assert (T4 : ctype (sdCard s4) = ctype (sdCard s)) by (rewrite -(adv_type _ _ B3); done). assert (L4 : lastCmd (sdCard s4) ≠ None) by done. clearbody s4. rewrite -T4.
  destruct (negb (fileFormat _ =? _) && _) eqn:Ef; [apply wp_ret; by left|]. clear -Ef I4 L4 Emmc0.
  assert (F4 : fileFormat (sdCard s4) = CSD3VN_FILE_FORMAT_DOSFAT ∨ fileFormat (sdCard s4) = CSD3VN_FILE_FORMAT_HDD).
  { apply andb_false_iff in Ef as [Ef|Ef]; apply negb_false_iff, Z.eqb_eq in Ef; auto. }
  apply or_debug_result; [apply calm_calm_after, calm_set_clock|done..|]. intros s5 A5 L5.
  apply or_debug_result; [by apply calm_calm_after, sends_calm, sends_command|done|by rewrite (adv_init _ _ A5)|]. intros s6 A6 L6. pose proof (adv_trans _ _ _ A5 A6) as B6.
  apply or_debug_result; [apply calm_read_scr|done|by rewrite (adv_init _ _ B6)|]. intros s7 A7 L7. pose proof (adv_trans _ _ _ B6 A7) as B7. do 2 apply wp_getcard.
  apply or_debug_result; [apply calm_bus_width|done|by rewrite (adv_init _ _ B7)|]. intros s8 A8 L8. pose proof (adv_trans _ _ _ B7 A8) as B8.
  apply or_debug_result; [by apply calm_calm_after, sends_calm, sends_command_a|done|by rewrite (adv_init _ _ B8)|]. intros s9 A9 L9. pose proof (adv_trans _ _ _ B8 A9) as B9.
  apply wp_card, wp_getcard. assert (Hd : ∀ r, r = SD_CARD_CHANGED ∨ r = SD_CARD_REINSERTED → init_result (ctype (sdCard s4)) r (set_sdCard (set_cinit 1 (sdCard s9)) s9)).
  { intros r Hr. right. split_and!; [done|done|exact (adv_type _ _ B9)|]. cbn. by rewrite (adv_format _ _ B9). }
  by destruct (bool_decide _); apply wp_ret, Hd; [right|left].
Qed.

(** The mailbox: after at most [n] reads of the status it takes a request and has an
    answer, in the buffer of the request and for its channel. *)
Fixpoint clears (n : nat) (m : Z) (d : D) : Prop :=
  let '(v, d) := reg_get MBOX_STATUS d in has v m = false ∨ match n with O => False | S n => clears n m d end.
Record mbox_ready (n : nat) (addr : Z) : Prop := {
  mb_addr : 0 ≤ addr < 2 ^ 32 ∧ Z.land addr 0xf = 0;
  mb_full : ∀ d, clears n MBOX_FULL d;
  mb_empty : ∀ d, clears n MBOX_EMPTY d;
  mb_channel : ∀ d, Z.land (reg_get MBOX_READ d).1 0xf = 8;
  mb_answer : ∀ buf d, length (mbox_answer buf d) = length buf }.

Lemma wp_mbox_poll fuel m : ∀ n s, clears n m (dev s) → (n < fuel)%nat → wp (mbox_poll fuel m) (λ _ s', sdCard s' = sdCard s) s.
Proof.
  induction fuel as [|fuel IH]; intros n s Hc Hn; [lia|]. cbn [mbox_poll]. rewrite /wp /rd. run_simpl.
  assert (Hc' : let '(v, d) := reg_get MBOX_STATUS (dev s) in has v m = false ∨ match n with O => False | S n => clears n m d end) by (by destruct n).
  destruct (reg_get MBOX_STATUS (dev s)) as [v d]. simpl. destruct (has v m) eqn:Ev; [|done]. destruct Hc' as [?|Hc']; [done|]. destruct n as [|n]; [done|].
  apply (IH n (set_dev d s)); [done|lia].
Qed.

Lemma wp_base_clock n fuel addr s : mbox_ready n addr → (n < fuel)%nat →
  wp (sdGetBaseClock fuel addr) (λ r s', sdCard s' = sdCard s ∧ (r = 0 ∨ r = 1)) s.
Proof.
  intros [[Hr Ha] Hf He Hc Hb] Hn. rewrite /sdGetBaseClock /mbox_get_clock_rate /mbox_call Ha. change (negb (0 =? 0)) with false. cbv iota.
  do 2 apply wp_bind. apply wp_bind. rewrite /mbox_write. assert (Hu : u32 addr = addr) by (rewrite /u32 /wrap Z.mod_small //).
  rewrite Hu Ha. change (negb _) with false. cbv iota. apply wp_bind. eapply wp_mono; [by eapply wp_mbox_poll; [apply Hf|]|]. intros [] s1 E1. cbn beta.
  eapply wp_mono; [apply quiet_wr|]. intros [] s2 E2. cbn beta. apply wp_bind. destruct fuel as [|fuel]; [lia|]. cbn [mbox_read]. apply wp_bind.
  eapply wp_mono; [by eapply wp_mbox_poll; [apply He|]|]. intros [] s3 E3. cbn beta. rewrite /wp /rd. run_simpl. pose proof (Hc (dev s3)) as Hch.
  destruct (reg_get MBOX_READ (dev s3)) as [v d]. simpl in *. rewrite Hch /=. run_simpl.
  pose proof (Hb [36; 0; MBOX_TAG_GET_CLOCK_RATE; 8; 0; 1; 0; MBOX_TAG_END] d) as Hl.
  destruct (mbox_answer _ d) as [|b0 [|b1 [|b2 [|b3 [|b4 [|b5 [|b6 bs]]]]]]] eqn:Eb; try (simpl in Hl; lia). simpl.
  destruct (i32 b6 =? -1); run_simpl; (split; [congruence|auto]).
Qed.

Lemma wp_init n fuel addr s : mbox_ready n addr → (n < fuel)%nat → addressed (sdCard s) →
  wp (sdInit fuel addr) (λ r s',
    (r = SD_OK ∧ cinit (sdCard s) ≠ 0 ∧ sdCard s' = set_absent 0 (sdCard s)) ∨
    ∃ t, t ∈ [SD_TYPE_1; SD_TYPE_2_SC; SD_TYPE_2_HC] ∧ init_result t r s') s.
Proof.
  intros Hmb Hn Hs. rewrite /sdInit. apply wp_getcard, wp_quiet; [apply quiet_if; quiet_solve|]. intros [] s1 E1. cbv zeta.
  apply wp_quiet; [quiet_solve|]. intros ev s2 E2. cbv iota. apply wp_card, wp_getcard. cbn [sdCard set_sdCard].
  set (s3 := set_sdCard (set_absent 0 (sdCard s2)) s2). assert (E3 : sdCard s3 = set_absent 0 (sdCard s)) by (rewrite /s3 /=; congruence).
  assert (H3 : addressed (sdCard s3)) by (rewrite E3; exact Hs). clearbody s3. set (old := if cinit (sdCard s) =? 0 then _ else _). clearbody old. clear E1 E2 s1 s2.
  apply wp_bind. assert (H : wp (if has ev (Z.shiftl 1 15) && negb (cinit (sdCard s) =? 0) then card (set_cinit 0) else mret ())
    (λ _ s', addressed (sdCard s') ∧ ((cinit (sdCard s') ≠ 0 ∧ sdCard s' = sdCard s3) ∨ cinit (sdCard s') = 0)) s3).
  { destruct (_ && _) eqn:Eb; [split; [exact H3|by right]|]. apply wp_ret. split; [done|]. destruct (decide (cinit (sdCard s3) = 0)); auto. }
  eapply wp_mono; [exact H|]. clear H. intros [] s4 (H4 & Hi). cbn beta. apply wp_getcard. destruct (cinit (sdCard s4) =? 0) eqn:Ei; cbn [negb]; last first.
  { apply Z.eqb_neq in Ei. apply wp_ret. left. destruct Hi as [[_ E4]|?]; [|done]. rewrite E4 E3 in Ei |- *. done. }
  apply Z.eqb_eq in Ei. eapply wp_mono; [|intros r s' H; right; exact H]. clear dependent s3. rename s4 into s0, H4 into H0.
  apply wp_quiet; [quiet_solve|]. intros v s1 E1. apply wp_bind, wp_modify. cbn beta. set (s2 := set_sdHostVer _ s1). assert (E2 : sdCard s2 = sdCard s0) by exact E1. clearbody s2.
  rewrite {1}/or_return. apply wp_bind. eapply wp_mono; [exact (wp_base_clock n fuel addr s2 Hmb Hn)|]. intros r s3 [E3 Hr]. cbn beta. assert (E : sdCard s3 = sdCard s0) by congruence. clear E1 E2 E3.
  destruct (r =? 0) eqn:Er; cbn [negb]; [|apply wp_ret; exists SD_TYPE_1; split; [set_solver|left; rewrite E; split; [by destruct Hr as [-> | ->]|done]]].
  rewrite {1}/or_return. apply wp_bind. eapply wp_mono; [apply wp_reset_card; by rewrite E|]. intros r2 s4 (I4 & H4 & N4 & L4). cbn beta. rewrite E Ei in I4.
  destruct (r2 =? 0) eqn:Er2; cbn [negb]; [|apply wp_ret; exists SD_TYPE_1; split; [set_solver|by left]]. apply Z.eqb_eq in Er2. specialize (L4 Er2).
  apply wp_sends; [by apply sends_command_a|done|]. intros r3 s5 A5 H5 N5 _. pose proof (adv_last _ _ A5 L4) as L5.
  assert (I5 : cinit (sdCard s5) = 0) by (by rewrite (adv_init _ _ A5)). clear -Hmb Hn N5 L5 I5 H5 Emmc0. destruct (r3 =? SD_OK).
  - apply wp_quiet; [quiet_solve|]. intros [] s6 E6. rewrite -E6 in I5, L5. apply wp_or_debug; [apply calm_calm_after, calm_app_send_op_cond|done| |].
    + intros r s' Ha Hnc. exists SD_TYPE_1. split; [set_solver|]. left. by rewrite (adv_init _ _ Ha).
    + intros s7 A7 L7. apply wp_getcard, wp_card. set (s8 := set_sdCard _ s7).
      eapply wp_mono; [apply wp_init_card; [exact L7|rewrite -I5 -(adv_init _ _ A7); done]|]. intros r s' Hd. exists (ctype (sdCard s8)). split; [|done].
      rewrite /s8 /=. destruct (has _ _); set_solver.
  - destruct (r3 =? SD_BUSY); [apply wp_ret; exists SD_TYPE_1; split; [set_solver|by left]|].
    apply wp_quiet; [quiet_solve|]. intros st s6 E6. rewrite -E6 in I5, L5, H5. rewrite {1}/or_return. apply wp_bind.
    assert (H : wp (if has st SR_CMD_INHIBIT then sdResetCard C1_SRST_HC else mret 0)
      (λ r s', cinit (sdCard s') = 0 ∧ no_card r ∧ (r = 0 → lastCmd (sdCard s') ≠ None)) s6).
    { destruct (has st _); [|by apply wp_ret]. eapply wp_mono; [by apply wp_reset_card|]. intros r s' (Hi & _ & ? & ?). split_and!; [congruence|done..]. }
    eapply wp_mono; [exact H|]. clear H. intros r s7 (I7 & N7 & L7). cbn beta.
    destruct (r =? 0) eqn:Er; cbn [negb]; [|apply wp_ret; exists SD_TYPE_1; split; [set_solver|by left]]. apply Z.eqb_eq in Er. specialize (L7 Er).
    apply wp_or_debug; [apply calm_calm_after, calm_app_send_op_cond|done| |].
    + intros r' s' Ha Hnc. exists SD_TYPE_1. split; [set_solver|]. left. by rewrite (adv_init _ _ Ha).
    + intros s8 A8 L8. apply wp_card. set (s9 := set_sdCard _ s8).
      eapply wp_mono; [apply wp_init_card; [exact L8|rewrite -I7 -(adv_init _ _ A8); done]|]. intros r' s' Hd. exists (ctype (sdCard s9)). split; [|done]. rewrite /s9 /=. set_solver.
Qed.

(** C17: Initialising the SD card ends for every behaviour of the controller and of the card.
    Whatever the registers show at each access, provided only that the mailbox answers,
    [sdInit] returns: every wait runs out by its own counter, no command has an unexpected
    kind of response, and no message is printed about a command that was never sent.  A
    card that was ready stays as it was.  Otherwise the result says that a card is there
    exactly when the descriptor is marked as initialised, and then the card has a known
    type and a known file format; after every error it is marked as not initialised. *)
Theorem sdInit_ends n fuel addr s :
  mbox_ready n addr → (n < fuel)%nat → addressed (sdCard s) →
  ∃ r s', sdInit fuel addr s = Ret r s' ∧
    ((r = SD_OK ∧ cinit (sdCard s) ≠ 0 ∧ sdCard s' = set_absent 0 (sdCard s)) ∨
     (no_card r ∧ cinit (sdCard s') = 0) ∨
     ((r = SD_CARD_CHANGED ∨ r = SD_CARD_REINSERTED) ∧ cinit (sdCard s') = 1 ∧
      ctype (sdCard s') ∈ [SD_TYPE_1; SD_TYPE_2_SC; SD_TYPE_2_HC] ∧
      (fileFormat (sdCard s') = CSD3VN_FILE_FORMAT_DOSFAT ∨ fileFormat (sdCard s') = CSD3VN_FILE_FORMAT_HDD))).
Proof.
  intros Hmb Hn Hs. apply wp_run. eapply wp_mono; [exact (wp_init n fuel addr s Hmb Hn Hs)|]. intros r s' [H|(t & Ht & [H|(Hr & Hi & Hty & Hf)])]; [by left|by right; left|].
  right; right. rewrite Hty. done.
Qed.
End total.

(** ** The clock divider: [fls_long], [roundup_pow_of_two], [sdGetClockDivider] *)
(** The top [k] of 32 bits. *)
Lemma land_top x k : 0 ≤ x < 2 ^ 32 → 0 < k ≤ 32 → Z.land x (Z.shiftl (Z.ones k) (32 - k)) = 0 ↔ x < 2 ^ (32 - k).
Proof.
  intros Hx Hk. split; intros H.
  - apply (f_equal (λ z, Z.shiftr z (32 - k))) in H. rewrite Z.shiftr_land Z.shiftr_shiftl_l in H; [lia|]. rewrite Z.sub_diag Z.shiftl_0_r Z.land_ones in H; [lia|].
    rewrite Z.shiftr_0_l Z.shiftr_div_pow2 in H; [lia|].
    assert (Hp : 2 ^ 32 = 2 ^ (32 - k) * 2 ^ k) by (rewrite -Z.pow_add_r; [lia|lia|f_equal; lia]). pose proof (Z.pow_pos_nonneg 2 (32 - k) ltac:(lia) ltac:(lia)).
    rewrite Z.mod_small in H; [split; [apply Z.div_pos; lia|apply Z.div_lt_upper_bound; lia]|]. apply Z.div_small_iff in H; lia.
  - apply Z.bits_inj'. intros i Hi. rewrite Z.land_spec Z.bits_0. destruct (decide (i < 32 - k)).
    + rewrite (Z.shiftl_spec_low _ _ _); [lia|]. apply andb_false_r.
    + assert (E : Z.testbit x i = false); [|by rewrite E]. destruct (decide (x = 0)) as [->|]; [apply Z.bits_0|]. apply Z.bits_above_log2; [lia|].
      apply Z.log2_lt_pow2; [lia|]. apply (Z.lt_le_trans _ (2 ^ (32 - k))); [done|]. apply Z.pow_le_mono_r; lia.
Qed.

Lemma fls_step_spec mask k x r : mask = Z.shiftl (Z.ones k) (32 - k) → 0 < k ≤ 16 → 2 ^ (32 - 2 * k) ≤ x < 2 ^ 32 →
  ∃ x' r', fls_step mask k (x, r) = (x', r') ∧ 2 ^ (32 - k) ≤ x' < 2 ^ 32 ∧ r' + Z.log2 x' = r + Z.log2 x.
Proof.
  intros -> Hk Hx. rewrite /fls_step. pose proof (Z.pow_pos_nonneg 2 (32 - 2 * k) ltac:(lia) ltac:(lia)).
  pose proof (land_top x k ltac:(lia) ltac:(lia)) as Hl. destruct (_ =? 0) eqn:E.
  - apply Z.eqb_eq, Hl in E. assert (Hp : 2 ^ (32 - k) = 2 ^ (32 - 2 * k) * 2 ^ k) by (rewrite -Z.pow_add_r; [lia|lia|f_equal; lia]).
    assert (Hp2 : 2 ^ 32 = 2 ^ (32 - k) * 2 ^ k) by (rewrite -Z.pow_add_r; [lia|lia|f_equal; lia]).
    assert (Hs : Z.shiftl x k = x * 2 ^ k) by (apply Z.shiftl_mul_pow2; lia). pose proof (Z.pow_pos_nonneg 2 k ltac:(lia) ltac:(lia)).
    assert (Hb : 2 ^ (32 - k) ≤ x * 2 ^ k < 2 ^ 32) by nia.
    exists (x * 2 ^ k), (r - k). rewrite Hs /u64 /wrap Z.mod_small; [change (2 ^ 64) with (2 ^ 32 * 2 ^ 32); nia|]. split_and!; [done|lia|lia|].
    rewrite Z.log2_mul_pow2; lia.
  - apply Z.eqb_neq in E. exists x, r. split_and!; [done| |lia|lia]. destruct (Z_lt_le_dec x (2 ^ (32 - k))) as [Hlt|]; [|done]. by apply Hl in Hlt.
Qed.

(** [fls_long] is the number of the highest bit, counted from one. *)
Lemma fls_long_spec x : 0 ≤ x < 2 ^ 32 → fls_long x = if decide (x = 0) then 0 else Z.log2 x + 1.
Proof.
  intros Hx. rewrite /fls_long. destruct (decide (x = 0)) as [->|Hn]; [done|]. rewrite (proj2 (Z.eqb_neq _ _) Hn).
  destruct (fls_step_spec 0xffff0000 16 x 32) as (x1 & r1 & -> & H1 & E1); [done|lia|change (32 - 2 * 16) with 0; lia|].
  destruct (fls_step_spec 0xff000000 8 x1 r1) as (x2 & r2 & -> & H2 & E2); [done|lia|exact H1|].
  destruct (fls_step_spec 0xf0000000 4 x2 r2) as (x3 & r3 & -> & H3 & E3); [done|lia|exact H2|].
  destruct (fls_step_spec 0xc0000000 2 x3 r3) as (x4 & r4 & -> & H4 & E4); [done|lia|exact H3|].
  destruct (fls_step_spec 0x80000000 1 x4 r4) as (x5 & r5 & -> & H5 & E5); [done|lia|exact H4|].
  assert (L : Z.log2 x5 = 31) by (apply Z.log2_unique; [lia|exact H5]). simpl. lia.
Qed.

(** The least power of two that is not smaller. *)
Lemma roundup_least x : 1 ≤ x ≤ 2 ^ 31 → ∃ n, 0 ≤ n ∧ roundup_pow_of_two x = 2 ^ n ∧ x ≤ 2 ^ n ∧ ∀ m, 0 ≤ m → x ≤ 2 ^ m → n ≤ m.
Proof.
  intros Hx. rewrite /roundup_pow_of_two. assert (E : u64 (x - 1) = x - 1) by (rewrite /u64 /wrap Z.mod_small; lia). rewrite E fls_long_spec; [lia|].
  assert (Hu : ∀ n, 0 ≤ n ≤ 31 → u64 (Z.shiftl 1 n) = 2 ^ n).
  { intros n Hn. rewrite Z.shiftl_1_l /u64 /wrap Z.mod_small; [|done]. split; [apply Z.pow_nonneg; lia|]. apply Z.pow_lt_mono_r; lia. }
  destruct (decide (x - 1 = 0)) as [E0|E0].
  - exists 0. rewrite Hu; [lia|]. split_and!; [lia|done|simpl; lia|]. intros; lia.
  - pose proof (Z.log2_spec (x - 1) ltac:(lia)) as [Hl1 Hl2]. pose proof (Z.log2_nonneg (x - 1)).
    assert (Hb : Z.log2 (x - 1) < 31) by (apply Z.log2_lt_pow2; lia).
    exists (Z.log2 (x - 1) + 1). rewrite Hu; [lia|]. split_and!; [lia|done|rewrite -Z.add_1_r in Hl2; lia|]. intros m Hm Hxm.
    apply Z.lt_pred_le, (Z.pow_lt_mono_r_iff 2); [lia|lia|]. replace (Z.pred (Z.log2 (x - 1) + 1)) with (Z.log2 (x - 1)) by lia. lia.
Qed.

(** The divisor that the two parts of the register stand for.  The clock of the card is
    the base clock divided by twice the divisor. *)
Definition divisor_of (hostVer cdiv : Z) : Z := Z.shiftr cdiv 8 + if HOST_SPEC_V2 <? hostVer then Z.shiftl (Z.land cdiv 0xff) 2 else 0.
Definition split_divisor (hostVer d : Z) : Z :=
  Z.shiftl (Z.land d 0x0ff) 8 + if HOST_SPEC_V2 <? hostVer then Z.shiftr (Z.land d 0x300) 2 else 0.
Lemma split_join hostVer d : 0 ≤ d < (if HOST_SPEC_V2 <? hostVer then 1024 else 256) → divisor_of hostVer (split_divisor hostVer d) = d.
Proof.
  intros Hd. rewrite /divisor_of /split_divisor. destruct (HOST_SPEC_V2 <? hostVer).
  - assert (H : forallb (λ n, let d := Z.of_nat n in let c := Z.shiftl (Z.land d 0x0ff) 8 + Z.shiftr (Z.land d 0x300) 2 in
      Z.shiftr c 8 + Z.shiftl (Z.land c 0xff) 2 =? d) (seq 0 1024) = true) by (by vm_compute).
    rewrite forallb_forall in H. specialize (H (Z.to_nat d)). rewrite in_seq in H. specialize (H ltac:(lia)). cbv zeta in H. rewrite Z2Nat.id in H; [lia|]. by apply Z.eqb_eq in H.
  - rewrite (Z.land_ones _ 8) // Z.mod_small // Z.add_0_r Z.add_0_r Z.shiftr_shiftl_l //.
Qed.

(** The clock of the card is at most the frequency asked for, up to the rounding of the
    quotient: for every host version and every frequency the register can express. *)
Lemma clock_not_faster hostVer freq : 162761 ≤ freq ≤ 41666666 →
  41666666 < (2 * divisor_of hostVer (sdGetClockDivider hostVer freq) + 1) * freq.
Proof.
  intros Hf. set (q := 41666666 / freq). assert (Hq : q * freq ≤ 41666666 < (q + 1) * freq) by (rewrite /q; dlia).
  assert (Hq1 : 1 ≤ q ≤ 256) by nia. change (sdGetClockDivider hostVer freq) with
    (split_divisor hostVer (let k := fls_long (u32 (q - 1)) in let k := if 0 <? k then k - 1 else k in let k := if 7 <? k then 7 else k in
      let d := if HOST_SPEC_V2 <? hostVer then q else Z.shiftl 1 k in if d <=? 2 then 2 else d)).
  assert (Hu : u32 (q - 1) = q - 1) by (rewrite /u32 /wrap Z.mod_small; lia). rewrite Hu fls_long_spec; [lia|]. cbv zeta.
  set (k := if 7 <? _ then _ else _). assert (Hk : 0 ≤ k ≤ 7 ∧ q ≤ 2 * Z.max 2 (2 ^ k)).
  { rewrite /k. destruct (decide (q - 1 = 0)); [simpl; lia|]. pose proof (Z.log2_spec (q - 1) ltac:(lia)) as [_ Hl]. pose proof (Z.log2_nonneg (q - 1)) as Hn.
    rewrite (proj2 (Z.ltb_lt 0 (Z.log2 (q - 1) + 1))); [lia|]. rewrite Z.add_simpl_r. rewrite Z.pow_succ_r // in Hl. destruct (7 <? Z.log2 (q - 1)) eqn:E7; [apply Z.ltb_lt in E7|apply Z.ltb_ge in E7; lia].
    assert (2 ^ 7 ≤ 2 ^ Z.log2 (q - 1)) by (apply Z.pow_le_mono_r; lia). change (2 ^ 7) with 128 in *. lia. }
  clearbody k. assert (Hp : 2 ^ k ≤ 128) by (change 128 with (2 ^ 7); apply Z.pow_le_mono_r; lia). pose proof (Z.pow_pos_nonneg 2 k ltac:(lia) ltac:(lia)).
  rewrite Z.shiftl_1_l. set (d := if _ <=? 2 then 2 else _). assert (Hd : q ≤ 2 * d ∧ 2 ≤ d ≤ 256 ∧ ((HOST_SPEC_V2 <? hostVer) = false → d ≤ 128)).
  { rewrite /d. destruct (HOST_SPEC_V2 <? hostVer); destruct (_ <=? 2) eqn:E2; [apply Z.leb_le in E2|apply Z.leb_gt in E2|apply Z.leb_le in E2|apply Z.leb_gt in E2]; split_and!; try done; lia. }
  clearbody d. rewrite split_join; [destruct (HOST_SPEC_V2 <? hostVer); [lia|destruct Hd as (? & ? & Hd); specialize (Hd eq_refl); lia]|]. nia.
Qed.
