(* ===== verification/SdReq.v ===== *)
(** * Requests to the SD card ([driver/sd.c], [fs/block_device.c])

    The requests wait in a queue, the first of them is with the card; the interrupt handler
    completes it and starts the next.  The queue is the list of the buffers in it (what
    [Lists] shows of the locked queue).  [sdrw] is the submission and the wait: other
    threads and the interrupt run in between.  The interrupt is taken on one core only, and
    the parts that hold a lock are single steps. *)

From stdpp Require Import base numbers list gmap.
From S2P Require Import Prelude Bytes Spinlock FsDefs SdDefs Sd.

Definition B_VALID : Z := 2.
Definition B_DIRTY : Z := 4.
(** The semaphore is the number of its units: nobody else waits on it. *)
Record buf := mkBuf { bflags : Z; blockno : Z; bdata : list Z; sd_sem : Z }.
Definition set_bflags v (b : buf) := mkBuf v (blockno b) (bdata b) (sd_sem b).
Definition set_bdata v (b : buf) := mkBuf (bflags b) (blockno b) v (sd_sem b).
Definition set_sd_sem v (b : buf) := mkBuf (bflags b) (blockno b) (bdata b) v.

Record drv (D : Type) := mkDrv { core : sdst D; bufs : gmap Z buf; buf_queue : list Z }.
Arguments mkDrv {D}. Arguments core {D}. Arguments bufs {D}. Arguments buf_queue {D}.

Section requests.
Context {D : Type} `{!Emmc D}.
Notation St := (drv D).
Definition set_core v (s : St) : St := mkDrv v (bufs s) (buf_queue s).
Definition set_bufs v (s : St) : St := mkDrv (core s) v (buf_queue s).
Definition set_buf_queue v (s : St) : St := mkDrv (core s) (bufs s) v.
Definition core_lens : Lens St (sdst D) := mkLens core set_core.
Definition on_core {X} (m : M (sdst D) X) : M St X := zoom core_lens m.

Definition get_buf (b : Z) : M St buf := l ← gets bufs; of_opt (l !! b).
Definition upd_buf (b : Z) (f : buf → buf) : M St () := x ← get_buf b; modify (λ s, set_bufs (<[b := f x]> (bufs s)) s).

(** The address a card is given: the number of the block, or that of its first byte. *)
Definition block_arg (type bno : Z) : Z := if type =? SD_TYPE_2_HC then i32 bno else i32 (Z.shiftl (i32 bno) 9).

Fixpoint put_words (ws : list Z) : M (sdst D) () := match ws with [] => mret () | w :: ws => wr EMMC_DATA w;; put_words ws end.
Fixpoint get_words (n : nat) : M (sdst D) (list Z) := match n with O => mret [] | S n => w ← rd EMMC_DATA; ws ← get_words n; mret (w :: ws) end.

(** The data of a buffer is word-aligned: it is at offset 8 of an aligned structure. *)
Definition sd_start (x : buf) : M (sdst D) () :=
  ty ← getcard ctype;
  let bno := block_arg ty (blockno x) in
  let write := has (bflags x) B_DIRTY in
  i ← rd EMMC_INTERRUPT;
  if negb (i =? 0) then panic
  else
    wr EMMC_BLKSIZECNT 512;;
    resp ← sdSendCommandA (if write then IX_WRITE_SINGLE else IX_READ_SINGLE) bno;
    if negb (resp =? 0) then panic
    else if write then
      resp ← sdWaitForInterrupt INT_WRITE_RDY;
      if negb (resp =? 0) then panic
      else
        i ← rd EMMC_INTERRUPT;
        if negb (i =? 0) then panic else put_words (words 4 128 (bdata x))
    else mret ().

(** [queue_front] and [queue_pop] of an empty queue panic. *)
Definition bq_front : M St Z := q ← gets buf_queue; match q with b :: _ => mret b | [] => panic end.
Definition bq_pop : M St () := q ← gets buf_queue; match q with _ :: q => modify (set_buf_queue q) | [] => panic end.
Definition bq_push (b : Z) : M St () := modify (λ s, set_buf_queue (buf_queue s ++ [b]) s).
Definition bq_empty : M St bool := gets (λ s, bool_decide (buf_queue s = [])).

(** Waiting for an interrupt that has to come. *)
Definition must_wait (mask : Z) : M St () := r ← on_core (sdWaitForInterrupt mask); if negb (r =? 0) then panic else mret ().

Definition sd_intr : M St () :=
  b ← bq_front;
  x ← get_buf b;
  (if has (bflags x) B_DIRTY then must_wait INT_DATA_DONE
   else
     must_wait INT_READ_RDY;;
     ws ← on_core (get_words 128);
     upd_buf b (set_bdata (unwords 4 ws));;
     must_wait INT_DATA_DONE);;
  upd_buf b (set_bflags B_VALID);;
  upd_buf b (λ x, set_sd_sem (sd_sem x + 1) x);;
  bq_pop;;
  e ← bq_empty;
  if (e : bool) then mret () else b ← bq_front; x ← get_buf b; on_core (sd_start x).

(** [sdrw] up to its loop *)
Definition sdrw_submit (b : Z) : M St () :=
  upd_buf b (set_sd_sem 0);;
  e ← bq_empty;
  bq_push b;;
  if (e : bool) then x ← get_buf b; on_core (sd_start x) else mret ().

(** The loop of [sdrw], of a thread that waits alone: as long as the flags are not set,
    the interrupt is handled when it comes, and time passes until then.  A unit of the
    semaphore is taken when there is one. *)
Fixpoint sdrw_wait (fuel : nat) (b : Z) : M St () :=
  x ← get_buf b;
  if bflags x =? B_VALID then mret ()
  else
    match fuel with
    | O => nofuel
    | S fuel =>
        if 0 <? sd_sem x then upd_buf b (set_sd_sem (sd_sem x - 1));; sdrw_wait fuel b
        else
          line ← gets (λ s, irq_line (dev (core s)));
          (if (line : bool) then sd_intr else on_core (sd_delayus 1));;
          sdrw_wait fuel b
    end.
Definition sdrw (fuel : nat) (b : Z) : M St () := sdrw_submit b;; sdrw_wait fuel b.

(** ** The block device; [b] is the address of the buffer on the stack, [junk] what is in it *)
Definition BLOCKNO_OFFSET : Z := 0x20800.
Definition sd_read (fuel : nat) (b : Z) (junk : list Z) (block_no : Z) : M St (list Z) :=
  modify (λ s, set_bufs (<[b := mkBuf 0 (u32 (u32 block_no + BLOCKNO_OFFSET)) junk 0]> (bufs s)) s);;
  sdrw fuel b;;
  x ← get_buf b;
  mret (take (Z.to_nat BLOCK_SIZE) (bdata x)).
Definition sd_write (fuel : nat) (b : Z) (block_no : Z) (buffer : list Z) : M St () :=
  modify (λ s, set_bufs (<[b := mkBuf (Z.lor B_DIRTY B_VALID) (u32 (u32 block_no + BLOCKNO_OFFSET)) (take (Z.to_nat BLOCK_SIZE) buffer) 0]> (bufs s)) s);;
  sdrw fuel b.

(** [sd_init]: the result of [sdInit] is not looked at.  The second partition of the boot
    record is read and printed. *)
Definition sd_init (mfuel fuel : nat) (addr b : Z) : M St (Z * Z) :=
  _ ← on_core (sdInit mfuel addr);
  modify (set_buf_queue []);;
  modify (λ s, set_bufs (<[b := mkBuf 0 0 (replicate 512 0) 0]> (bufs s)) s);;
  sdrw fuel b;;
  x ← get_buf b;
  mret (le_val (slice (bdata x) 470 4), le_val (slice (bdata x) 474 4)).
(** [init_block_device]: the super block is block 1. *)
Definition init_block_device (mfuel fuel : nat) (addr b : Z) (junk : list Z) : M St (list Z) :=
  _ ← sd_init mfuel fuel addr b;
  sd_read fuel b junk 1.
End requests.
