(* ===== verification/SdCard.v ===== *)
(** * A card that answers: the laws of the hardware, and the commands on it

    What the driver relies on, as a class: a view of the state of the hardware, and what
    the registers do to it.  The card holds blocks of 128 words by the address that the
    command carries.  A command makes the interrupt bits come in their order after delays
    that the hardware chooses, each below the limit of the driver's loops. *)

From stdpp Require Import base numbers list gmap functions strings.
From S2P Require Import Prelude Bytes Spinlock SdDefs Sd SdReq.

Inductive transfer := NoXfer | Rd (ws : list Z) | Wr (a : Z) (ws : list Z).
Record cardst := mkCS { blocks : Z → list Z; carg : Z; irq : Z; todo : list (nat * Z); xfer : transfer }.
Definition set_blocks v c := mkCS v (carg c) (irq c) (todo c) (xfer c).
Definition set_carg v c := mkCS (blocks c) v (irq c) (todo c) (xfer c).
Definition set_irq v c := mkCS (blocks c) (carg c) v (todo c) (xfer c).
Definition set_todo v c := mkCS (blocks c) (carg c) (irq c) v (xfer c).
Definition set_xfer v c := mkCS (blocks c) (carg c) (irq c) (todo c) v.

(** The interrupts whose time has come. *)
Fixpoint due (t : list (nat * Z)) : Z := match t with (O, b) :: t => Z.lor b (due t) | _ => 0 end.
Fixpoint later (t : list (nat * Z)) : list (nat * Z) := match t with (O, _) :: t => later t | _ => t end.
(** Interrupts [t] are to come. *)
Definition expect (t : list (nat * Z)) (c : cardst) : cardst := set_irq (Z.lor (irq c) (due t)) (set_todo (later t) c).
Definition tick (c : cardst) : cardst := match todo c with (S n, b) :: t => expect ((n, b) :: t) c | _ => c end.

Definition READ_CODE : Z := 0x11220010.
Definition WRITE_CODE : Z := 0x18220000.
(** The delays are below this. *)
Definition LIMIT : nat := Z.to_nat 999999.
Definition idle (c : cardst) : Prop := irq c = 0 ∧ todo c = [] ∧ xfer c = NoXfer.
Definition words_ok (ws : list Z) : Prop := length ws = 128%nat ∧ Forall (λ w, 0 ≤ w < 256 ^ Z.of_nat 4) ws.

Class SdCard (D : Type) `{!Emmc D} := {
  view : D → cardst;
  int_get d : (reg_get EMMC_INTERRUPT d).1 = irq (view d) ∧ view (reg_get EMMC_INTERRUPT d).2 = view d;
  int_put v d : view (reg_put EMMC_INTERRUPT v d) = set_irq (Z.land (irq (view d)) (Z.lnot v)) (view d);
  delay_view n d : view (delay_us n d) = tick (view d);
  arg_put v d : view (reg_put EMMC_ARG1 v d) = set_carg v (view d);
  blksize_put v d : view (reg_put EMMC_BLKSIZECNT v d) = view d;
  (** no command is in progress when nothing is expected *)
  status_get d : view (reg_get EMMC_STATUS d).2 = view d ∧ (todo (view d) = [] → has (reg_get EMMC_STATUS d).1 SR_CMD_INHIBIT = false);
  (** the response of a command that is done has no error bits *)
  resp_get d : view (reg_get EMMC_RESP0 d).2 = view d ∧ 0 ≤ (reg_get EMMC_RESP0 d).1 < 2 ^ 32 ∧ Z.land (reg_get EMMC_RESP0 d).1 R1_ERRORS_MASK = 0;
  cmd_read d : idle (view d) → ∃ n1 n2, (n1 < LIMIT)%nat ∧ (n2 < LIMIT)%nat ∧
    view (reg_put EMMC_CMDTM READ_CODE d) = expect [(n1, INT_CMD_DONE); (n2, INT_READ_RDY)] (set_xfer (Rd (blocks (view d) (carg (view d)))) (view d));
  cmd_write d : idle (view d) → ∃ n1 n2, (n1 < LIMIT)%nat ∧ (n2 < LIMIT)%nat ∧
    view (reg_put EMMC_CMDTM WRITE_CODE d) = expect [(n1, INT_CMD_DONE); (n2, INT_WRITE_RDY)] (set_xfer (Wr (carg (view d)) []) (view d));
  (** the words of a block, one after the other; the transfer is done after the last *)
  data_get d w ws : xfer (view d) = Rd (w :: ws) → (reg_get EMMC_DATA d).1 = w ∧
    (ws ≠ [] → view (reg_get EMMC_DATA d).2 = set_xfer (Rd ws) (view d)) ∧
    (ws = [] → ∃ n, (n < LIMIT)%nat ∧ view (reg_get EMMC_DATA d).2 = expect [(n, INT_DATA_DONE)] (set_xfer NoXfer (view d)));
  data_put d a ws w : xfer (view d) = Wr a ws →
    ((length ws < 127)%nat → view (reg_put EMMC_DATA w d) = set_xfer (Wr a (ws ++ [w])) (view d)) ∧
    (length ws = 127%nat → ∃ n, (n < LIMIT)%nat ∧
       view (reg_put EMMC_DATA w d) = expect [(n, INT_DATA_DONE)] (set_xfer NoXfer (set_blocks (<[a := ws ++ [w]]> (blocks (view d))) (view d))));
  (** the interrupts of a command and of a card that is ready to be written are masked *)
  line_view d : irq_line d = has (irq (view d)) (Z.lor INT_READ_RDY INT_DATA_DONE) }.

Section card.
Context {D : Type} `{!Emmc D, !SdCard D}.
Implicit Types s : sdst D.
Notation sv s := (view (dev s)).

(** ** Registers *)
Lemma rd_int s : ∃ d, rd EMMC_INTERRUPT s = Ret (irq (sv s)) (set_dev d s) ∧ view d = sv s.
Proof. pose proof (int_get (dev s)) as [H1 H2]. rewrite /rd. run_simpl. destruct (reg_get EMMC_INTERRUPT (dev s)) as [v d]. simpl in *. subst v. by exists d. Qed.
Lemma rd_status s : ∃ v d, rd EMMC_STATUS s = Ret v (set_dev d s) ∧ view d = sv s ∧ (todo (sv s) = [] → has v SR_CMD_INHIBIT = false).
Proof. pose proof (status_get (dev s)) as [H1 H2]. rewrite /rd. run_simpl. destruct (reg_get EMMC_STATUS (dev s)) as [v d]. simpl in *. by exists v, d. Qed.
Lemma rd_resp s : ∃ v d, rd EMMC_RESP0 s = Ret v (set_dev d s) ∧ view d = sv s ∧ 0 ≤ v < 2 ^ 32 ∧ Z.land v R1_ERRORS_MASK = 0.
Proof. pose proof (resp_get (dev s)) as (H1 & H2 & H3). rewrite /rd. run_simpl. destruct (reg_get EMMC_RESP0 (dev s)) as [v d]. simpl in *. by exists v, d. Qed.

(** ** Waiting *)
(** [b] is there now, or it is the one that is expected. *)
Definition pending (b : Z) (c : cardst) : Prop :=
  (irq c = b ∧ todo c = []) ∨ (irq c = 0 ∧ ∃ n, (n < LIMIT)%nat ∧ todo c = [(S n, b)]).
(** The bits the driver waits for. *)
Definition plain (b : Z) : Prop := b ∈ [INT_CMD_DONE; INT_READ_RDY; INT_WRITE_RDY; INT_DATA_DONE].

(** After [n] polls that show no bit of the mask there is one. *)
Fixpoint ticks (n : nat) (c : cardst) : cardst := match n with O => c | S n => ticks n (tick c) end.
Lemma while_ticks us mask n : ∀ count s, (n < count)%nat → (∀ k, (k < n)%nat → has (irq (ticks k (sv s))) mask = false) → has (irq (ticks n (sv s))) mask = true →
  ∃ d, while_count us (v ← rd EMMC_INTERRUPT; mret (negb (has v mask))) count s = Ret (Z.of_nat (count - n)) (set_dev d s) ∧ view d = ticks n (sv s).
Proof.
  induction n as [|n IH]; intros count s Hn Hk Hb.
  - destruct (rd_int s) as (d & Hr & Hv). exists d. split; [|done]. simpl in Hb.
    destruct count as [|count]; [lia|]. cbn [while_count]. rewrite (bind_run _ _ _ (negb (has (irq (sv s)) mask)) (set_dev d s)); [by rewrite (bind_run _ _ _ _ _ Hr)|]. by rewrite Hb.
  - destruct count as [|count]; [lia|]. destruct (rd_int s) as (d & Hr & Hv). cbn [while_count].
    rewrite (bind_run _ _ _ (negb (has (irq (sv s)) mask)) (set_dev d s)); [by rewrite (bind_run _ _ _ _ _ Hr)|]. rewrite (Hk 0%nat); [lia|]. cbn [negb].
    rewrite (bind_run _ _ _ () (set_dev (delay_us (us * 3) d) s)) //. set (s1 := set_dev (delay_us (us * 3) d) s).
    assert (V1 : sv s1 = tick (sv s)) by (rewrite /s1 /= delay_view Hv //). destruct (IH count s1) as (d' & Hr' & Hv').
    + lia.
    + intros k Hk'. rewrite V1. by apply (Hk (S k)); lia.
    + by rewrite V1.
    + exists d'. rewrite Hr' Hv' V1. split; [|done]. by replace (count - n)%nat with (S count - S n)%nat by lia.
Qed.

Lemma tick_eq n b t c : todo c = (S n, b) :: t → tick c = expect ((n, b) :: t) c.
Proof. rewrite /tick. by intros ->. Qed.
Lemma ticks_last n b c t : irq c = 0 → todo c = (S n, b) :: t → ticks (S n) c = expect ((O, b) :: t) (set_todo [] c).
Proof.
  revert c. induction n as [|n IH]; intros c Hi Ht; [cbn [ticks]; by rewrite (tick_eq _ _ _ _ Ht); destruct c|].
  cbn [ticks] in *. rewrite (tick_eq _ _ _ _ Ht). rewrite IH; [destruct c; simpl in *; by rewrite Hi|by destruct c|]. destruct c; simpl in *. rewrite Hi. done.
Qed.
Lemma ticks_before k n b t c : irq c = 0 → todo c = (S n, b) :: t → (k ≤ n)%nat → irq (ticks k c) = 0.
Proof.
  revert n c. induction k as [|k IH]; intros n c Hi Ht Hk; [done|]. destruct n as [|n]; [lia|].
  cbn [ticks]. rewrite (tick_eq _ _ _ _ Ht). apply (IH n); [destruct c; simpl in *; by rewrite Hi|by destruct c|lia].
Qed.

(** The checks after the loop, for a value without an error. *)
Definition fine (v : Z) : Prop := has v INT_CMD_TIMEOUT = false ∧ has v INT_DATA_TIMEOUT = false ∧ has v INT_ERROR_MASK = false.
Lemma wait_after n b s : (n < Z.to_nat 1000000)%nat → (∀ k, (k < n)%nat → irq (ticks k (sv s)) = 0) → has (irq (ticks n (sv s))) b = true → fine (irq (ticks n (sv s))) →
  ∃ d, sdWaitForInterrupt b s = Ret SD_OK (set_dev d s) ∧ view d = set_irq (Z.land (irq (ticks n (sv s))) (Z.lnot b)) (ticks n (sv s)).
Proof.
  intros Hn Hk Hb (F1 & F2 & F3). rewrite /sdWaitForInterrupt. cbv zeta.
  destruct (while_ticks 1 (Z.lor b INT_ERROR_MASK) n (Z.to_nat 1000000) s Hn) as (d & Hr & Hv).
  - intros k Hk'. by rewrite Hk.
  - rewrite /has in Hb |- *. rewrite Z.land_lor_distr_r. apply negb_true_iff, Z.eqb_neq. apply negb_true_iff, Z.eqb_neq in Hb. intros [? ?]%Z.lor_eq_0_iff. done.
  - rewrite (bind_run _ _ _ _ _ Hr). destruct (rd_int (set_dev d s)) as (d' & Hr' & Hv'). rewrite (bind_run _ _ _ _ _ Hr'). cbn [dev set_dev] in *.
    rewrite Hv F1 F2 F3 !orb_false_r (proj2 (Z.leb_gt _ _)); [lia|]. exists (reg_put EMMC_INTERRUPT b d'). split; [done|]. by rewrite int_put Hv' Hv.
Qed.

Lemma wait_pending b s : plain b → pending b (sv s) → ∃ d, sdWaitForInterrupt b s = Ret SD_OK (set_dev d s) ∧ view d = set_irq 0 (set_todo [] (sv s)).
Proof.
  intros Hb Hp. assert (Hf : fine b ∧ has b b = true ∧ Z.land b (Z.lnot b) = 0 ∧ b ≠ 0) by (rewrite /plain in Hb; repeat (apply elem_of_cons in Hb as [->|Hb]; [by vm_compute|]); by apply not_elem_of_nil in Hb).
  destruct Hf as (Hf & Hbb & Hz & _). destruct Hp as [[Hi Ht]|(Hi & n & Hn & Ht)].
  - destruct (wait_after 0 b s) as (d & Hr & Hv); [lia|lia|by simpl; rewrite Hi|by simpl; rewrite Hi|]. exists d. split; [done|]. rewrite Hv /=. rewrite Hi Hz.
    destruct (sv s); simpl in *. by rewrite Ht.
  - pose proof (ticks_last n b _ _ Hi Ht) as E. destruct (wait_after (S n) b s) as (d & Hr & Hv).
    + rewrite /LIMIT in Hn. lia.
    + intros k Hk. apply (ticks_before k n b []); [done|done|lia].
    + rewrite E /=. rewrite Hi Z.lor_0_r. done.
    + rewrite E /=. rewrite Hi Z.lor_0_r. done.
    + exists d. split; [done|]. rewrite Hv E /=. rewrite Hi Z.lor_0_r Z.lor_0_l Hz. by destruct (sv s).
Qed.

(** The end of a command; what it leaves to come is the bit [b]. *)
Lemma wait_command n1 n2 b c0 s : plain b → b ≠ INT_CMD_DONE → irq c0 = 0 → (n1 < LIMIT)%nat → (n2 < LIMIT)%nat → sv s = expect [(n1, INT_CMD_DONE); (n2, b)] c0 →
  ∃ d, sdWaitForInterrupt INT_CMD_DONE s = Ret SD_OK (set_dev d s) ∧ pending b (view d) ∧
    blocks (view d) = blocks c0 ∧ carg (view d) = carg c0 ∧ xfer (view d) = xfer c0.
Proof.
  intros Hb Hne Hi H1 H2 Hs. pose (v := Z.lor INT_CMD_DONE (due [(n2, b)])).
  assert (Hv : fine v ∧ has v INT_CMD_DONE = true ∧ Z.land v (Z.lnot INT_CMD_DONE) = due [(n2, b)]).
  { rewrite /v. rewrite /plain in Hb. destruct n2; repeat (apply elem_of_cons in Hb as [->|Hb]; [try done; by vm_compute|]); by apply not_elem_of_nil in Hb. }
  destruct Hv as (Hf & Hd & Hc).
  assert (Hgo : ∀ n c, (n < Z.to_nat 1000000)%nat → (∀ k, (k < n)%nat → irq (ticks k (sv s)) = 0) → ticks n (sv s) = c → irq c = v → todo c = later [(n2, b)] →
    blocks c = blocks c0 → carg c = carg c0 → xfer c = xfer c0 → ∃ d, sdWaitForInterrupt INT_CMD_DONE s = Ret SD_OK (set_dev d s) ∧ pending b (view d) ∧
    blocks (view d) = blocks c0 ∧ carg (view d) = carg c0 ∧ xfer (view d) = xfer c0).
  { intros n c Hn Hk Ht Hic Htc Hb1 Hb2 Hb3. destruct (wait_after n INT_CMD_DONE s) as (d & Hr & Hvd); [done|done|by rewrite Ht Hic|by rewrite Ht Hic|].
    exists d. rewrite Hvd Ht Hic Hc. split_and!; [done| |by destruct c..]. rewrite /pending. destruct n2 as [|n2]; simpl in *.
    - left. by rewrite Z.lor_0_r.
    - right. split; [done|]. exists n2. split; [lia|done]. }
  destruct n1 as [|n1].
  - apply (Hgo 0%nat (sv s)); [lia|lia|done|by rewrite Hs /= Hi|by rewrite Hs|by rewrite Hs..].
  - assert (Ei : irq (sv s) = 0) by (by rewrite Hs /= Hi). assert (Et : todo (sv s) = [(S n1, INT_CMD_DONE); (n2, b)]) by (by rewrite Hs).
    pose proof (ticks_last n1 _ _ _ Ei Et) as E. eapply (Hgo (S n1)); [rewrite /LIMIT in H1; lia|intros k Hk; exact (ticks_before k n1 _ _ _ Ei Et ltac:(lia))|exact E|..].
    + rewrite /= Ei. done.
    + done.
    + by rewrite /= Hs.
    + by rewrite /= Hs.
    + by rewrite /= Hs.
Qed.

(** ** Commands *)
Lemma while_count_stop us c n s s' : c s = Ret false s' → while_count us c n s = Ret (Z.of_nat n) s'.
Proof. intros H. destruct n; cbn [while_count]; by rewrite (bind_run _ _ _ _ _ H). Qed.

Lemma wait_for_command s : idle (sv s) → ∃ d, sdWaitForCommand s = Ret SD_OK (set_dev d s) ∧ view d = sv s.
Proof.
  intros (Hi & Ht & Hx). rewrite /sdWaitForCommand. destruct (rd_status s) as (v & d & Hr & Hv & Hb). specialize (Hb Ht).
  rewrite (bind_run _ _ _ (Z.of_nat (Z.to_nat 1000000)) (set_dev d s)).
  { apply while_count_stop. rewrite /in_progress (bind_run _ _ _ _ _ Hr). by rewrite Hb. }
  rewrite (proj2 (Z.leb_gt _ _)); [lia|]. destruct (rd_int (set_dev d s)) as (d' & Hr' & Hv'). cbn [dev set_dev] in *.
  exists d'. rewrite (bind_run _ _ _ false (set_dev d' s)); [|by rewrite Hv' Hv]. rewrite /failed (bind_run _ _ _ _ _ Hr'). by rewrite Hv Hi.
Qed.

Lemma no_errors v : 0 ≤ v < 2 ^ 32 → Z.land v R1_ERRORS_MASK = 0 → Z.land (i32 v) (i32 R1_ERRORS_MASK) = 0.
Proof.
  intros Hv H. assert (Hb : Z.testbit v 31 = false).
  { apply (f_equal (λ z, Z.testbit z 31)) in H. rewrite Z.land_spec in H. by rewrite andb_true_r in H. }
  assert (Hlt : v < 2 ^ 31).
  { destruct (Z_lt_le_dec v (2 ^ 31)) as [|Hge]; [done|]. exfalso. assert (Hl : Z.log2 v = 31) by (apply Z.log2_unique; lia).
    pose proof (Z.bit_log2 v ltac:(lia)) as Hbit. rewrite Hl in Hbit. congruence. }
  rewrite i32_small; [lia|]. assert (Ev : v = Z.land v (Z.ones 32)) by (rewrite Z.land_ones; [lia|]; by rewrite Z.mod_small). rewrite {1}Ev -Z.land_assoc.
  by change (Z.land (Z.ones 32) (i32 R1_ERRORS_MASK)) with R1_ERRORS_MASK.
Qed.

(** A command to read or to write a block. *)
Definition cmd_of (w : bool) : Z := if w then IX_WRITE_SINGLE else IX_READ_SINGLE.
Definition ready_bit (w : bool) : Z := if w then INT_WRITE_RDY else INT_READ_RDY.
Definition xfer_of (w : bool) (c : cardst) (a : Z) : transfer := if w then Wr a [] else Rd (blocks c a).
Lemma cmd_put (w : bool) d : idle (view d) → ∃ n1 n2, (n1 < LIMIT)%nat ∧ (n2 < LIMIT)%nat ∧
  view (reg_put EMMC_CMDTM (if w then WRITE_CODE else READ_CODE) d) =
    expect [(n1, INT_CMD_DONE); (n2, ready_bit w)] (set_xfer (xfer_of w (view d) (carg (view d))) (view d)).
Proof. destruct w; [apply cmd_write|apply cmd_read]. Qed.

Lemma send_command (w : bool) arg s : idle (sv s) → ∃ s', sdSendCommandA (cmd_of w) arg s = Ret 0 s' ∧ pending (ready_bit w) (sv s') ∧
  xfer (sv s') = xfer_of w (sv s) (u32 arg) ∧ blocks (sv s') = blocks (sv s) ∧ ctype (sdCard s') = ctype (sdCard s).
Proof.
  intros Hidle. pose (cmd := mkCmd (if w then "WRITE_SINGLE"%string else "READ_SINGLE"%string) (if w then WRITE_CODE else READ_CODE) RESP_R1 RCA_NO 0).
  assert (Hsend : ∃ s', sdSendCommandP cmd arg s = Ret 0 s' ∧ pending (ready_bit w) (sv s') ∧
    xfer (sv s') = xfer_of w (sv s) (u32 arg) ∧ blocks (sv s') = blocks (sv s) ∧ ctype (sdCard s') = ctype (sdCard s)).
  { rewrite /sdSendCommandP. destruct (wait_for_command s Hidle) as (d & Hr & Hv). rewrite (bind_run _ _ _ _ _ Hr). change (negb (SD_OK =? 0)) with false. cbv iota.
    set (s1 := set_sdCard (set_lastArg (u32 arg) (set_lastCmd (Some cmd) (sdCard s))) (set_dev d s)).
    rewrite (bind_run _ _ _ () (set_sdCard (set_lastCmd (Some cmd) (sdCard s)) (set_dev d s))) //. rewrite (bind_run _ _ _ () s1) //.
    destruct (rd_int s1) as (d1 & Hr1 & Hv1). rewrite (bind_run _ _ _ _ _ Hr1). assert (V1 : view d1 = sv s) by (by rewrite Hv1). clear Hv1.
    set (d2 := reg_put EMMC_INTERRUPT (irq (sv s1)) d1). assert (V2 : view d2 = sv s).
    { rewrite /d2 int_put V1. destruct Hidle as (Hi & _). rewrite Hi Z.land_0_l. destruct (sv s); simpl in *. by rewrite Hi. }
    rewrite (bind_run _ _ _ () (set_dev d2 s1)) //. set (d3 := reg_put EMMC_ARG1 (u32 arg) d2). assert (V3 : view d3 = set_carg (u32 arg) (sv s)) by (by rewrite /d3 arg_put V2).
    rewrite (bind_run _ _ _ () (set_dev d3 s1)) //. destruct (cmd_put w d3) as (n1 & n2 & H1 & H2 & V4); [by rewrite V3|]. rewrite V3 in V4.
    set (d4 := reg_put EMMC_CMDTM _ d3) in V4. rewrite (bind_run _ _ _ () (set_dev d4 s1)) //. rewrite (bind_run _ _ _ () (set_dev d4 s1)) //.
    destruct (wait_command n1 n2 (ready_bit w) (set_xfer (xfer_of w (sv s) (u32 arg)) (set_carg (u32 arg) (sv s))) (set_dev d4 s1)) as (d5 & Hr5 & P5 & B5 & _ & X5);
      [by destruct w; vm_compute; repeat constructor|by destruct w|by destruct Hidle|done|done|by rewrite V4; destruct w|].
    rewrite (bind_run _ _ _ _ _ Hr5). change (negb (SD_OK =? 0)) with false. cbv iota. destruct (rd_resp (set_dev d5 s1)) as (v & d6 & Hr6 & V6 & Rv & Ev).
    change (set_dev d5 (set_dev d4 s1)) with (set_dev d5 s1). rewrite (bind_run _ _ _ _ _ Hr6). cbn [dev set_dev] in V6. rewrite /sdHandleResponse. cbv zeta. cbn [resp cmd].
    change (RESP_R1 =? RESP_NO) with false. change ((RESP_R1 =? RESP_R1) || (RESP_R1 =? RESP_R1b)) with true. cbv iota. rewrite (no_errors v Rv Ev).
    eexists. split; [reflexivity|]. cbn. rewrite V6. done. }
  destruct Hsend as (s' & Hr & H). exists s'. split; [|exact H]. rewrite /sdSendCommandA /sdAppFirst.
  assert (Hlt : IX_APP_CMD_START <=? cmd_of w = false) by (by destruct w). rewrite Hlt. rewrite (bind_run _ _ _ 0 s) //. change (negb (0 =? 0)) with false. cbv iota.
  rewrite (bind_run _ _ _ 0 s'); [|done]. rewrite (bind_run _ _ _ cmd s); [by destruct w|done].
Qed.

(** ** The words of a block *)
Lemma pending_expect n b c : (n < LIMIT)%nat → irq c = 0 → pending b (expect [(n, b)] c).
Proof. intros Hn Hi. rewrite /pending /=. destruct n as [|n]; simpl; rewrite Hi; [left; by rewrite Z.lor_0_r|right]. split; [done|]. exists n. split; [lia|done]. Qed.

Lemma get_words_run ws : ∀ s, ws ≠ [] → xfer (sv s) = Rd ws → irq (sv s) = 0 →
  ∃ d, get_words (length ws) s = Ret ws (set_dev d s) ∧ pending INT_DATA_DONE (view d) ∧ xfer (view d) = NoXfer ∧ blocks (view d) = blocks (sv s).
Proof.
  induction ws as [|w ws IH]; intros s Hne Hx Hi; [done|]. destruct (data_get (dev s) w ws Hx) as (Hw & Hm & Hl). cbn [length get_words].
  assert (Hr : rd EMMC_DATA s = Ret w (set_dev (reg_get EMMC_DATA (dev s)).2 s)) by (rewrite /rd; run_simpl; destruct (reg_get EMMC_DATA (dev s)); simpl in *; by subst).
  rewrite (bind_run _ _ _ _ _ Hr). set (d1 := (reg_get EMMC_DATA (dev s)).2) in *. destruct (decide (ws = [])) as [->|Hws].
  - destruct (Hl eq_refl) as (n & Hn & V1). exists d1. split; [done|]. rewrite V1. split_and!; [by apply pending_expect|done|done].
  - destruct (IH (set_dev d1 s)) as (d & Hr' & Hp & Hx' & Hb); [done|cbn [dev set_dev]; by rewrite (Hm Hws)..|].
    exists d. rewrite (bind_run _ _ _ _ _ Hr'). cbn [dev set_dev] in Hb. rewrite (Hm Hws) in Hb. done.
Qed.

Lemma put_words_run ws : ∀ ws0 a s, ws ≠ [] → xfer (sv s) = Wr a ws0 → (length ws0 + length ws = 128)%nat → irq (sv s) = 0 →
  ∃ d, put_words ws s = Ret () (set_dev d s) ∧ pending INT_DATA_DONE (view d) ∧ xfer (view d) = NoXfer ∧ blocks (view d) = <[a := ws0 ++ ws]> (blocks (sv s)).
Proof.
  induction ws as [|w ws IH]; intros ws0 a s Hne Hx Hl Hi; [done|]. destruct (data_put (dev s) a ws0 w Hx) as (Hm & Hlast). cbn [put_words]. simpl in Hl.
  set (d1 := reg_put EMMC_DATA w (dev s)) in *. rewrite (bind_run _ _ _ () (set_dev d1 s)) //. destruct (decide (ws = [])) as [->|Hws].
  - destruct Hlast as (n & Hn & V1); [simpl in Hl; lia|]. exists d1. split; [done|]. rewrite V1. split_and!; [by apply pending_expect|done|done].
  - assert (Hm' : view d1 = set_xfer (Wr a (ws0 ++ [w])) (sv s)) by (apply Hm; destruct ws; [done|simpl in Hl; lia]).
    destruct (IH (ws0 ++ [w]) a (set_dev d1 s)) as (d & Hr' & Hp & Hx' & Hb); [done|cbn [dev set_dev]; by rewrite Hm'|rewrite length_app /=; lia|cbn [dev set_dev]; by rewrite Hm'|].
    exists d. rewrite Hr'. cbn [dev set_dev] in Hb. rewrite Hm' -app_assoc in Hb. done.
Qed.

(** ** Starting a request *)
(** The card is busy with the request [x], which began with the blocks [bl]. *)
Definition key (t : Z) (x : buf) : Z := u32 (block_arg t (blockno x)).
Definition busy_with (t : Z) (x : buf) (bl : Z → list Z) (c : cardst) : Prop :=
  if has (bflags x) B_DIRTY then pending INT_DATA_DONE c ∧ xfer c = NoXfer ∧ blocks c = <[key t x := words 4 128 (bdata x)]> bl
  else pending INT_READ_RDY c ∧ xfer c = Rd (bl (key t x)) ∧ blocks c = bl.

Lemma sd_start_run x s : idle (sv s) → ∃ s', sd_start x s = Ret () s' ∧ busy_with (ctype (sdCard s)) x (blocks (sv s)) (sv s') ∧ ctype (sdCard s') = ctype (sdCard s).
Proof.
  intros Hidle. pose proof Hidle as (Hi & _). rewrite /sd_start (bind_run _ _ _ (ctype (sdCard s)) s) //. destruct (rd_int s) as (d & Hr & V). rewrite (bind_run _ _ _ _ _ Hr) Hi.
  change (negb (0 =? 0)) with false. cbv iota zeta. set (d1 := reg_put EMMC_BLKSIZECNT 512 d). rewrite (bind_run _ _ _ () (set_dev d1 s)) //.
  assert (V1 : view d1 = sv s) by (by rewrite /d1 blksize_put). set (arg := block_arg _ _).
  change (if has (bflags x) B_DIRTY then IX_WRITE_SINGLE else IX_READ_SINGLE) with (cmd_of (has (bflags x) B_DIRTY)).
  destruct (send_command (has (bflags x) B_DIRTY) arg (set_dev d1 s)) as (s2 & Hr2 & P2 & X2 & B2 & T2); [by cbn [dev set_dev]; rewrite V1|].
  rewrite (bind_run _ _ _ _ _ Hr2). change (negb (0 =? 0)) with false. cbv iota. cbn [dev set_dev] in X2, B2. rewrite V1 in X2, B2. rewrite /busy_with.
  destruct (has (bflags x) B_DIRTY).
  - destruct (wait_pending INT_WRITE_RDY s2) as (d3 & Hr3 & V3); [by vm_compute; repeat constructor|done|]. rewrite (bind_run _ _ _ _ _ Hr3). change (negb (SD_OK =? 0)) with false. cbv iota.
    destruct (rd_int (set_dev d3 s2)) as (d4 & Hr4 & V4). rewrite (bind_run _ _ _ _ _ Hr4). cbn [dev set_dev] in V4 |- *. rewrite V3. change (negb (irq (set_irq 0 _) =? 0)) with false. cbv iota.
    destruct (put_words_run (words 4 128 (bdata x)) [] (u32 arg) (set_dev d4 s2)) as (d5 & Hr5 & P5 & X5 & B5);
      [done|cbn [dev set_dev]; by rewrite V4 V3 /= X2|by rewrite length_words|cbn [dev set_dev]; by rewrite V4 V3|].
    eexists. split; [exact Hr5|]. cbn [dev set_dev sdCard]. cbn [dev set_dev] in B5. rewrite B5 V4 V3. cbn [blocks set_irq set_todo]. by rewrite B2.
  - exists s2. split; [done|]. done.
Qed.
End card.
