(* ===== verification/SdSteps.v ===== *)
(** * The request queue of the SD card refines a list of requests

    The specification: the requests are served one at a time in the order they were made,
    each of them as one step that reads or writes the whole block. *)

From stdpp Require Import base numbers list gmap functions.
From S2P Require Import Prelude Bytes Spinlock SdDefs Sd SdReq SdCard.

(** ** The specification *)
Record sdspec := mkSS { disk : Z → list Z; sbufs : gmap Z buf; waiting : list Z }.
Definition served (t : Z) (dk : Z → list Z) (x : buf) : buf :=
  mkBuf B_VALID (blockno x) (if has (bflags x) B_DIRTY then bdata x else unwords 4 (dk (key t x))) (sd_sem x + 1).
Definition written (t : Z) (x : buf) (dk : Z → list Z) : Z → list Z :=
  if has (bflags x) B_DIRTY then <[key t x := words 4 128 (bdata x)]> dk else dk.
Definition buf_ok (x : buf) : Prop := length (bdata x) = 512%nat ∧ bytes_ok (bdata x).
Inductive spec_step (t : Z) (a : sdspec) : sdspec → Prop :=
  | spec_client b x : b ∉ waiting a → buf_ok x → spec_step t a (mkSS (disk a) (<[b := x]> (sbufs a)) (waiting a))
  | spec_request b x : sbufs a !! b = Some x → b ∉ waiting a → spec_step t a (mkSS (disk a) (<[b := set_sd_sem 0 x]> (sbufs a)) (waiting a ++ [b]))
  | spec_serve b q x : waiting a = b :: q → sbufs a !! b = Some x →
      spec_step t a (mkSS (written t x (disk a)) (<[b := served t (disk a) x]> (sbufs a)) q).

Section steps.
Context {D : Type} `{!Emmc D, !SdCard D}.
Implicit Types s : drv D.
Notation dv s := (view (dev (core s))).
Notation ty s := (ctype (sdCard (core s))).

(** ** The driver: its clients, its requests, time and the interrupt *)
Inductive drv_step s : drv D → Prop :=
  | step_client b x : b ∉ buf_queue s → buf_ok x → drv_step s (set_bufs (<[b := x]> (bufs s)) s)
  | step_request b x s' : bufs s !! b = Some x → b ∉ buf_queue s → sdrw_submit b s = Ret () s' → drv_step s s'
  | step_time n : drv_step s (set_core (set_dev (delay_us n (dev (core s))) (core s)) s)
  | step_irq s' : irq_line (dev (core s)) = true → sd_intr s = Ret () s' → drv_step s s'.

(** ** The simulation *)
Record sim (t : Z) s (a : sdspec) : Prop := {
  sim_bufs : sbufs a = bufs s;
  sim_queue : waiting a = buf_queue s;
  sim_type : ty s = t;
  sim_in : ∀ b, b ∈ buf_queue s → is_Some (bufs s !! b);
  sim_nodup : NoDup (buf_queue s);
  sim_ok : ∀ b x, bufs s !! b = Some x → buf_ok x;
  sim_disk : ∀ k, words_ok (disk a k);
  sim_card : match buf_queue s with
    | [] => idle (dv s) ∧ blocks (dv s) = disk a
    | b :: _ => ∃ x, bufs s !! b = Some x ∧ busy_with t x (disk a) (dv s)
    end }.

Lemma on_core_run {X} (m : M (sdst D) X) s r c : m (core s) = Ret r c → on_core m s = Ret r (set_core c s).
Proof. intros H. by rewrite /on_core (zoom_run core_lens m s r c). Qed.
Lemma get_buf_run b x s : bufs s !! b = Some x → get_buf b s = Ret x s.
Proof. intros H. rewrite /get_buf. run_simpl. by rewrite H. Qed.
Lemma upd_buf_run b f x s : bufs s !! b = Some x → upd_buf b f s = Ret () (set_bufs (<[b := f x]> (bufs s)) s).
Proof. intros H. by rewrite /upd_buf (bind_run _ _ _ _ _ (get_buf_run _ _ _ H)). Qed.

Lemma busy_step_time t x bl c : busy_with t x bl c → busy_with t x bl (tick c).
Proof.
  assert (Hp : ∀ b, pending b c → pending b (tick c) ∧ xfer (tick c) = xfer c ∧ blocks (tick c) = blocks c).
  { intros b [[Hi Ht]|(Hi & n & Hn & Ht)].
    - assert (E : tick c = c) by (by rewrite /tick Ht). rewrite E. split_and!; [by left|done|done].
    - rewrite (tick_eq _ _ _ _ Ht). split_and!; [by apply pending_expect|done|done]. }
  rewrite /busy_with. destruct (has _ _); intros (P & X & B); destruct (Hp _ P) as (P' & X' & B'); rewrite X' B'; done.
Qed.

(** A request of a buffer that is not queued is taken. *)
Lemma submit_sim t s a b x : sim t s a → bufs s !! b = Some x → b ∉ buf_queue s →
  ∃ s', sdrw_submit b s = Ret () s' ∧ sim t s' (mkSS (disk a) (<[b := set_sd_sem 0 x]> (sbufs a)) (waiting a ++ [b])).
Proof.
  intros [Hb Hq Ht Hin Hnd Hok Hdk Hc] Hx Hnb. rewrite /sdrw_submit (bind_run _ _ _ _ _ (upd_buf_run b (set_sd_sem 0) x s Hx)).
  set (s1 := set_bufs _ s). rewrite (bind_run _ _ _ (bool_decide (buf_queue s = [])) s1) //. set (s2 := set_buf_queue (buf_queue s ++ [b]) s1). rewrite (bind_run _ _ _ () s2) //.
  assert (Hx2 : bufs s2 !! b = Some (set_sd_sem 0 x)) by (by rewrite /= lookup_insert_eq).
  assert (Hpre : (∀ b', b' ∈ buf_queue s2 → is_Some (bufs s2 !! b')) ∧ NoDup (buf_queue s2) ∧ (∀ b' y, bufs s2 !! b' = Some y → buf_ok y)).
  { split_and!.
    - intros b' [Hb'|Hb']%elem_of_app; simpl; [|apply list_elem_of_singleton in Hb' as ->; by rewrite lookup_insert_eq].
      rewrite lookup_insert_ne; [intros ->; done|]. by apply Hin.
    - apply NoDup_app. split_and!; [done|intros b' Hb'; rewrite list_elem_of_singleton; by intros ->|apply NoDup_singleton].
    - intros b' y. simpl. destruct (decide (b' = b)) as [->|Hne]; [rewrite lookup_insert_eq; intros [= <-]; exact (Hok b x Hx)|rewrite lookup_insert_ne; [congruence|apply Hok]]. }
  destruct Hpre as (Hin2 & Hnd2 & Hok2). case_bool_decide as Hempty.
  - rewrite Hempty in Hc. destruct Hc as [Hidle Hbl]. rewrite (bind_run _ _ _ _ _ (get_buf_run _ _ _ Hx2)).
    destruct (sd_start_run (set_sd_sem 0 x) (core s2)) as (c & Hr & Hbusy & Htc); [done|]. rewrite (on_core_run _ _ _ _ Hr). eexists. split; [reflexivity|].
    split; cbn; [by rewrite Hb|by rewrite Hq|by rewrite Htc|done..|]. rewrite Hempty /=. exists (set_sd_sem 0 x). split; [done|]. cbn in Hbusy. rewrite Ht Hbl in Hbusy. exact Hbusy.
  - exists s2. split; [done|]. split; [by rewrite /= Hb|by rewrite /= Hq|done..|]. simpl. destruct (buf_queue s) as [|b0 q] eqn:Eq; [done|]. simpl.
    destruct Hc as (y & Hy & Hbusy). exists y. rewrite lookup_insert_ne; [|done]. intros ->. apply Hnb. by left.
Qed.

Lemma must_wait_run b s : plain b → pending b (dv s) →
  ∃ d, must_wait b s = Ret () (set_core (set_dev d (core s)) s) ∧ view d = set_irq 0 (set_todo [] (dv s)).
Proof.
  intros Hb Hp. destruct (wait_pending b (core s) Hb Hp) as (d & Hr & Hv). exists d. split; [|done].
  by rewrite /must_wait (bind_run _ _ _ _ _ (on_core_run _ _ _ _ Hr)).
Qed.

(** The transfer at the head of the queue is completed: the card is idle. *)
Lemma transfer_run t s dk b x : bufs s !! b = Some x → busy_with t x dk (dv s) → words_ok (dk (key t x)) →
  ∃ d, (if has (bflags x) B_DIRTY then must_wait INT_DATA_DONE
    else must_wait INT_READ_RDY;; ws ← on_core (get_words 128); upd_buf b (set_bdata (unwords 4 ws));; must_wait INT_DATA_DONE) s =
    Ret () (mkDrv (set_dev d (core s)) (<[b := set_bdata (bdata (served t dk x)) x]> (bufs s)) (buf_queue s)) ∧
    idle (view d) ∧ blocks (view d) = written t x dk.
Proof.
  intros Hx Hbusy Hw. rewrite /busy_with in Hbusy. rewrite /served /written. destruct (has (bflags x) B_DIRTY); destruct Hbusy as (P & X & B).
  - destruct (must_wait_run INT_DATA_DONE s) as (d & Hr & V); [by vm_compute; repeat constructor|done|]. exists d. rewrite Hr V. split; [|split; [exact (conj eq_refl (conj eq_refl X))|exact B]].
    rewrite /set_core. do 2 f_equal. symmetry. apply insert_id. rewrite Hx. by destruct x.
  - destruct (must_wait_run INT_READ_RDY s) as (d1 & Hr1 & V1); [by vm_compute; repeat constructor|done|]. rewrite (bind_run _ _ _ _ _ Hr1).
    set (s1 := set_core (set_dev d1 (core s)) s). destruct (get_words_run (dk (key t x)) (core s1)) as (d2 & Hr2 & P2 & X2 & B2).
    { destruct Hw as [Hl _]. intros E. by rewrite E in Hl. }
    { cbn. by rewrite V1. }
    { cbn. by rewrite V1. }
    rewrite (proj1 Hw) in Hr2. rewrite (bind_run _ _ _ _ _ (on_core_run _ _ _ _ Hr2)). set (s2 := set_core _ s1).
    rewrite (bind_run _ _ _ _ _ (upd_buf_run b (set_bdata (unwords 4 (dk (key t x)))) x s2 Hx)). set (s3 := set_bufs _ s2).
    destruct (must_wait_run INT_DATA_DONE s3) as (d4 & Hr4 & V4); [by vm_compute; repeat constructor|done|]. exists d4. rewrite Hr4 V4. split; [done|]. split; [exact (conj eq_refl (conj eq_refl X2))|].
    cbn [blocks set_irq set_todo]. change (dv s3) with (view d2). rewrite B2. cbn. by rewrite V1.
Qed.

(** The interrupt handler serves the first request. *)
Lemma intr_sim t s a b q : sim t s a → buf_queue s = b :: q →
  ∃ s' x, sd_intr s = Ret () s' ∧ sbufs a !! b = Some x ∧ sim t s' (mkSS (written t x (disk a)) (<[b := served t (disk a) x]> (sbufs a)) q).
Proof.
  intros [Hb Hq Ht Hin Hnd Hok Hdk Hc] Eq. rewrite Eq in Hc. destruct Hc as (x & Hx & Hbusy).
  destruct (transfer_run t s (disk a) b x Hx Hbusy (Hdk _)) as (d & Hr & Hidle & Hbl).
  rewrite /sd_intr (bind_run _ _ _ b s); [by rewrite /bq_front (bind_run _ _ _ (b :: q) s) //; rewrite -Eq|]. rewrite (bind_run _ _ _ _ _ (get_buf_run _ _ _ Hx)) (bind_run _ _ _ _ _ Hr).
  set (s1 := mkDrv _ _ _). set (x1 := set_bdata _ x) in s1. assert (Hx1 : bufs s1 !! b = Some x1) by (apply lookup_insert_eq).
  rewrite (bind_run _ _ _ _ _ (upd_buf_run b (set_bflags B_VALID) x1 s1 Hx1)). set (s2 := set_bufs _ s1).
  assert (Hx2 : bufs s2 !! b = Some (set_bflags B_VALID x1)) by (apply lookup_insert_eq).
  rewrite (bind_run _ _ _ _ _ (upd_buf_run b (λ x, set_sd_sem (sd_sem x + 1) x) _ s2 Hx2)). set (s3 := set_bufs _ s2). set (s4 := set_buf_queue q s3).
  rewrite (bind_run _ _ _ () s4); [by rewrite /bq_pop (bind_run _ _ _ (b :: q) s3) //; rewrite -Eq|]. rewrite (bind_run _ _ _ (bool_decide (q = [])) s4) //.
  assert (E4 : bufs s4 = <[b := served t (disk a) x]> (bufs s)) by (rewrite /s4 /s3 /s2 /s1 /= !insert_insert_eq; done).
  assert (Hpre : (∀ b', b' ∈ q → is_Some (bufs s4 !! b')) ∧ NoDup q ∧ (∀ b' y, bufs s4 !! b' = Some y → buf_ok y) ∧ (∀ k, words_ok (written t x (disk a) k)) ∧ b ∉ q).
  { rewrite Eq in Hnd, Hin. apply NoDup_cons in Hnd as [Hnb Hnd]. pose proof (Hok b x Hx) as [Hlen Hby]. split_and!; [| | | |done].
    - intros b' Hb'. rewrite E4 lookup_insert_ne; [congruence|]. apply Hin. by right.
    - done.
    - intros b' y. rewrite E4. destruct (decide (b' = b)) as [->|Hne]; [rewrite lookup_insert_eq; intros [= <-]|rewrite lookup_insert_ne; [congruence|apply Hok]].
      rewrite /buf_ok /served /=. destruct (has _ _); [done|]. split; [rewrite length_unwords; by rewrite (proj1 (Hdk _))|apply unwords_ok].
    - intros k. rewrite /written. destruct (has _ _); [|done]. destruct (decide (k = key t x)) as [->|Hne].
      + rewrite fn_lookup_insert. split; [apply length_words|by apply words_range].
      + rewrite fn_lookup_insert_ne; [congruence|done]. }
  destruct Hpre as (Hin4 & Hnd4 & Hok4 & Hdk4 & Hnb). case_bool_decide as Hempty.
  - subst q. exists s4, x. split; [done|]. split; [by rewrite Hb|]. split; cbn [sbufs waiting disk]; [by rewrite E4 Hb|done|exact Ht|done..|]. by split.
  - destruct q as [|b' q]; [done|]. destruct (Hin4 b' ltac:(by left)) as [y Hy].
    rewrite (bind_run _ _ _ b' s4) // (bind_run _ _ _ _ _ (get_buf_run _ _ _ Hy)).
    destruct (sd_start_run y (core s4)) as (c & Hrc & Hbusy' & Htc); [exact Hidle|]. rewrite (on_core_run _ _ _ _ Hrc). exists (set_core c s4), x. split; [done|]. split; [by rewrite Hb|].
    split; cbn [sbufs waiting disk set_core bufs buf_queue core]; [by rewrite E4 Hb|done|by rewrite Htc|done..|]. exists y. split; [done|].
    change (ctype (sdCard (core s4))) with (ty s) in Hbusy'. change (view (dev (core s4))) with (view d) in Hbusy'. by rewrite Ht Hbl in Hbusy'.
Qed.

Lemma line_busy t s a : sim t s a → irq_line (dev (core s)) = true → ∃ b q, buf_queue s = b :: q.
Proof.
  intros [_ _ _ _ _ _ _ Hc] Hl. destruct (buf_queue s) as [|b q]; [|by exists b, q]. destruct Hc as [(Hi & _) _]. rewrite line_view Hi in Hl. done.
Qed.

(** The interrupt of a request comes. *)
Lemma irq_comes t s a : sim t s a → buf_queue s ≠ [] → ∃ n, (n ≤ LIMIT)%nat ∧ has (irq (ticks n (dv s))) (Z.lor INT_READ_RDY INT_DATA_DONE) = true.
Proof.
  intros [_ _ _ _ _ _ _ Hc] Hne. destruct (buf_queue s) as [|b q]; [done|]. destruct Hc as (x & _ & Hbusy).
  assert (Hp : ∃ v, has v (Z.lor INT_READ_RDY INT_DATA_DONE) = true ∧ pending v (dv s)).
  { rewrite /busy_with in Hbusy. destruct (has (bflags x) B_DIRTY); destruct Hbusy as (P & _); by eexists; split; [|exact P]. }
  destruct Hp as (v & Hv & [[Hi Ht]|(Hi & n & Hn & Ht)]); [exists 0%nat; split; [lia|by rewrite /= Hi]|].
  exists (S n). split; [lia|]. rewrite (ticks_last n v _ [] Hi Ht). cbn [irq expect set_irq set_todo due]. by rewrite Hi Z.lor_0_r.
Qed.

Lemma sim_step t s s' a : sim t s a → drv_step s s' → ∃ a', rtc (spec_step t) a a' ∧ sim t s' a'.
Proof.
  intros Hs [b x Hnb Hx|b x s1 Hx Hnb Hr|n|s1 Hl Hr].
  - destruct Hs as [Hb Hq Ht Hin Hnd Hok Hdk Hc]. exists (mkSS (disk a) (<[b := x]> (sbufs a)) (waiting a)). split; [apply rtc_once, spec_client; [by rewrite Hq|done]|].
    split; cbn; [by rewrite Hb|done|done| |done| |done|].
    + intros b' Hb'. rewrite lookup_insert_ne; [by intros ->|]. by apply Hin.
    + intros b' y. destruct (decide (b' = b)) as [->|Hne]; [rewrite lookup_insert_eq; by intros [= <-]|rewrite lookup_insert_ne; [congruence|apply Hok]].
    + destruct (buf_queue s) as [|b0 q]; [done|]. destruct Hc as (y & Hy & Hbusy). exists y. rewrite lookup_insert_ne; [|done]. intros ->. apply Hnb. by left.
  - destruct (submit_sim t s a b x Hs Hx Hnb) as (s2 & Hr2 & Hs2). assert (s1 = s2) as -> by congruence. eexists. split; [|exact Hs2].
    destruct Hs as [Hb Hq _ _ _ _ _ _]. apply rtc_once, spec_request; [by rewrite Hb|by rewrite Hq].
  - exists a. split; [apply rtc_refl|]. destruct Hs as [Hb Hq Ht Hin Hnd Hok Hdk Hc]. split; try done. cbn. rewrite delay_view. destruct (buf_queue s) as [|b q].
    + destruct Hc as [(Hi & Htd & Hx) Hbl]. assert (E : tick (dv s) = dv s) by (by rewrite /tick Htd). by rewrite E.
    + destruct Hc as (x & Hx & Hbusy). exists x. split; [done|]. by apply busy_step_time.
  - destruct (line_busy t s a Hs Hl) as (b & q & Eq). destruct (intr_sim t s a b q Hs Eq) as (s2 & x & Hr2 & Hx & Hs2). assert (s1 = s2) as -> by congruence.
    eexists. split; [|exact Hs2]. apply rtc_once, spec_serve; [|done]. by rewrite (sim_queue _ _ _ Hs).
Qed.

(** A driver with nothing to do, on a card with the blocks [dk]. *)
Definition sd_idle (t : Z) (dk : Z → list Z) s : Prop :=
  ty s = t ∧ buf_queue s = [] ∧ idle (dv s) ∧ blocks (dv s) = dk ∧ (∀ k, words_ok (dk k)) ∧ ∀ b x, bufs s !! b = Some x → buf_ok x.
Lemma idle_sim t dk s : sd_idle t dk s → sim t s (mkSS dk (bufs s) []).
Proof. intros (Ht & Hq & Hi & Hb & Hdk & Hok). split; cbn; rewrite ?Hq; try done; [intros b Hb'; by apply not_elem_of_nil in Hb'|constructor]. Qed.

(** C9: The driver of the SD card serves its requests one after the other.  Start with a card
    that answers, and let threads make requests and work on buffers that are not queued,
    let time pass and the interrupt handler run whenever the interrupt line is up, in any
    order.  Then the buffers, the queue and the card are those of a machine that serves
    whole blocks in the order of the requests; a request is never refused, the interrupt
    handler never panics, and as long as a request waits the interrupt comes within the
    limit of the delays. *)
Theorem sd_requests_refine t dk s0 s :
  sd_idle t dk s0 → rtc drv_step s0 s →
  (∃ a, rtc (spec_step t) (mkSS dk (bufs s0) []) a ∧ sim t s a) ∧
  (∀ b x, bufs s !! b = Some x → b ∉ buf_queue s → ∃ s', sdrw_submit b s = Ret () s') ∧
  (irq_line (dev (core s)) = true → ∃ s', sd_intr s = Ret () s') ∧
  (buf_queue s ≠ [] → ∃ n, (n ≤ LIMIT)%nat ∧ has (irq (ticks n (dv s))) (Z.lor INT_READ_RDY INT_DATA_DONE) = true).
Proof.
  intros Hi Hr. assert (H : ∀ a0, sim t s0 a0 → ∃ a, rtc (spec_step t) a0 a ∧ sim t s a).
  { clear Hi. induction Hr as [|s0 s1 s H1 _ IH]; intros a0 H0; [exists a0; split; [apply rtc_refl|done]|]. destruct (sim_step t s0 s1 a0 H0 H1) as (a1 & R1 & S1).
    destruct (IH a1 S1) as (a & R & S). exists a. split; [by trans a1|done]. }
  destruct (H _ (idle_sim t dk s0 Hi)) as (a & Ha & Hs). split_and!.
  - by exists a.
  - intros b x Hx Hnb. destruct (submit_sim t s a b x Hs Hx Hnb) as (s' & ? & _). by exists s'.
  - intros Hl. destruct (line_busy t s a Hs Hl) as (b & q & Eq). destruct (intr_sim t s a b q Hs Eq) as (s' & x & ? & _). by exists s'.
  - by apply (irq_comes t s a).
Qed.
End steps.
