(* ===== verification/SdBlock.v ===== *)
(** * The block device on the SD card ([sd_read] and [sd_write] of [fs/block_device.c])

    One thread at a time: a request is submitted, and the thread waits for it.  The file
    ends with a card on which everything can be run. *)

From stdpp Require Import base numbers list gmap functions.
From S2P Require Import Prelude Bytes Spinlock FsDefs SdDefs Sd SdReq SdCard SdSteps SdInit.

Section block.
Context {D : Type} `{!Emmc D, !SdCard D}.
Implicit Types s : drv D.
Notation dv s := (view (dev (core s))).
Notation passed s := (set_core (set_dev (delay_us (1 * 3) (dev (core s))) (core s)) s).

Lemma sdrw_wait_run t b n : ∀ fuel s a x, sim t s a → buf_queue s = [b] → bufs s !! b = Some x → sd_sem x = 0 → bflags x ≠ B_VALID →
  has (irq (ticks n (dv s))) (Z.lor INT_READ_RDY INT_DATA_DONE) = true → (n + 1 ≤ fuel)%nat →
  ∃ s', sdrw_wait fuel b s = Ret () s' ∧ sim t s' (mkSS (written t x (disk a)) (<[b := served t (disk a) x]> (sbufs a)) []).
Proof.
  induction n as [|n IH]; intros [|fuel] s a x Hs Hq Hx Hsem Hfl Hirq Hf; try lia; cbn [sdrw_wait]; rewrite (bind_run _ _ _ _ _ (get_buf_run _ _ _ Hx)).
  all: rewrite (proj2 (Z.eqb_neq _ _) Hfl) Hsem; change (0 <? 0) with false; cbv iota; rewrite (bind_run _ _ _ (irq_line (dev (core s))) s) //; rewrite line_view.
  all: assert (Hintr : ∃ s', (sd_intr;; sdrw_wait fuel b) s = Ret () s' ∧ sim t s' (mkSS (written t x (disk a)) (<[b := served t (disk a) x]> (sbufs a)) []));
    [destruct (intr_sim t s a b [] Hs Hq) as (s1 & x1 & Hr1 & Hx1 & Hs1); assert (x1 = x) as -> by (rewrite (sim_bufs _ _ _ Hs) Hx in Hx1; congruence);
     exists s1; split; [|done]; rewrite (bind_run _ _ _ _ _ Hr1); pose proof (sim_bufs _ _ _ Hs1) as E1; cbn [sbufs] in E1;
     destruct fuel; cbn [sdrw_wait]; rewrite (bind_run _ _ _ (served t (disk a) x) s1) //; apply get_buf_run; rewrite -E1; apply lookup_insert_eq|].
  - simpl in Hirq. by rewrite Hirq.
  - destruct (has (irq (dv s)) _); [done|]. rewrite (bind_run _ _ _ () (passed s)) //.
    assert (Hs1 : sim t (passed s) a).
    { destruct Hs as [H1 H2 H3 H4 H5 H6 H7 Hc]. split; try done. cbn. rewrite delay_view Hq. rewrite Hq in Hc. destruct Hc as (y & Hy & Hbusy). exists y. split; [done|]. by apply busy_step_time. }
    apply (IH fuel (passed s) a x Hs1); [done..| |lia]. cbn. by rewrite delay_view.
Qed.

(** A whole request on an idle driver. *)
Lemma sdrw_run t dk b x fuel s : sd_idle t dk s → bufs s !! b = Some x → bflags x ≠ B_VALID → (LIMIT < fuel)%nat →
  ∃ s', sdrw fuel b s = Ret () s' ∧ sd_idle t (written t x dk) s' ∧ bufs s' = <[b := served t dk (set_sd_sem 0 x)]> (bufs s).
Proof.
  intros Hi Hx Hfl Hf. pose proof Hi as (_ & Hq & _). destruct (submit_sim t s _ b x (idle_sim t dk s Hi) Hx) as (s1 & Hr1 & Hs1); [rewrite Hq; by apply not_elem_of_nil|].
  pose proof (sim_bufs _ _ _ Hs1) as E1. pose proof (sim_queue _ _ _ Hs1) as Q1. cbn [sbufs waiting app] in E1, Q1.
  destruct (irq_comes t s1 _ Hs1) as (n & Hn & Hirq); [by rewrite -Q1|].
  destruct (sdrw_wait_run t b n fuel s1 _ (set_sd_sem 0 x) Hs1) as (s2 & Hr2 & Hs2); [by rewrite -Q1|rewrite -E1; apply lookup_insert_eq|done|done|done|lia|].
  exists s2. split; [by rewrite /sdrw (bind_run _ _ _ _ _ Hr1)|]. destruct Hs2 as [H1 H2 H3 _ _ H6 H7 Hc]. cbn [disk sbufs waiting] in *. rewrite -H2 in Hc.
  split; [|by rewrite -H1 insert_insert_eq]. split_and!; [done|done|apply Hc|apply Hc|exact H7|done].
Qed.

(** The card's key of a block. *)
Definition block_key (t n : Z) : Z := u32 (block_arg t (u32 (u32 n + BLOCKNO_OFFSET))).

Lemma idle_buf t dk s b x : sd_idle t dk s → buf_ok x → sd_idle t dk (set_bufs (<[b := x]> (bufs s)) s).
Proof.
  intros (H1 & H2 & H3 & H4 & H5 & H6) Hx. split_and!; try done; [apply H3..|]. intros b' y. cbn. destruct (decide (b' = b)) as [->|Hne].
  - rewrite lookup_insert_eq. by intros [= <-].
  - rewrite lookup_insert_ne; [congruence|]. apply H6.
Qed.

Lemma sd_read_run t dk fuel b junk n s : sd_idle t dk s → length junk = 512%nat → bytes_ok junk → (LIMIT < fuel)%nat →
  ∃ s', sd_read fuel b junk n s = Ret (unwords 4 (dk (block_key t n))) s' ∧ sd_idle t dk s'.
Proof.
  intros Hi Hl Hj Hf. rewrite /sd_read. set (x := mkBuf 0 _ junk 0). set (s1 := set_bufs (<[b := x]> (bufs s)) s). rewrite (bind_run _ _ _ () s1) //.
  destruct (sdrw_run t dk b x fuel s1) as (s2 & Hr & Hi2 & Hb); [by apply idle_buf|apply lookup_insert_eq|done|done|].
  rewrite (bind_run _ _ _ _ _ Hr) (bind_run _ _ _ (served t dk (set_sd_sem 0 x)) s2); [apply get_buf_run; rewrite Hb; apply lookup_insert_eq|].
  exists s2. split; [|done]. rewrite take_ge; [|done]. change (Z.to_nat BLOCK_SIZE) with 512%nat. cbn [served bdata]. change (has (bflags (set_sd_sem 0 x)) B_DIRTY) with false. cbv iota.
  rewrite length_unwords. destruct Hi as (_ & _ & _ & _ & Hw & _). by rewrite (proj1 (Hw _)).
Qed.
Lemma sd_write_run t dk fuel b n buffer s : sd_idle t dk s → length buffer = 512%nat → bytes_ok buffer → (LIMIT < fuel)%nat →
  ∃ s', sd_write fuel b n buffer s = Ret () s' ∧ sd_idle t (<[block_key t n := words 4 128 buffer]> dk) s'.
Proof.
  intros Hi Hl Hj Hf. rewrite /sd_write. set (x := mkBuf _ _ _ 0). set (s1 := set_bufs (<[b := x]> (bufs s)) s). rewrite (bind_run _ _ _ () s1) //.
  assert (Ed : bdata x = buffer) by (apply take_ge; change (Z.to_nat BLOCK_SIZE) with 512%nat; lia).
  destruct (sdrw_run t dk b x fuel s1) as (s2 & Hr & Hi2 & _); [apply idle_buf; [done|by rewrite /buf_ok Ed]|apply lookup_insert_eq|done|done|].
  exists s2. rewrite Hr. split; [done|]. rewrite /written in Hi2. change (has (bflags x) B_DIRTY) with true in Hi2. by rewrite Ed in Hi2.
Qed.

(** The blocks that a card can address. *)
Definition on_card (t n : Z) : Prop := 0 ≤ n ∧ n + BLOCKNO_OFFSET < (if t =? SD_TYPE_2_HC then 2 ^ 32 else 2 ^ 22).
Lemma block_key_eq t n : on_card t n → block_key t n = (n + BLOCKNO_OFFSET) * (if t =? SD_TYPE_2_HC then 1 else 512).
Proof.
  rewrite /on_card /block_key /block_arg /BLOCKNO_OFFSET. intros Hn. assert (Hm : n + 0x20800 < 2 ^ 32) by (destruct (t =? _); lia).
  assert (Hw : ∀ x, 0 ≤ x < 2 ^ 32 → u32 x = x) by (intros x Hx; by rewrite /u32 /wrap Z.mod_small).
  rewrite (Hw n); [lia|]. rewrite (Hw (n + _)); [lia|]. assert (Hu : ∀ x, 0 ≤ x < 2 ^ 32 → u32 (i32 x) = x) by (intros x Hx; rewrite /u32 /i32 /wrap /swrap; dlia).
  destruct (t =? SD_TYPE_2_HC); [rewrite Hu; lia|]. rewrite (i32_small (n + _)); [lia|]. rewrite Z.shiftl_mul_pow2 // Hu //. lia.
Qed.
Lemma block_key_inj t n m : on_card t n → on_card t m → block_key t n = block_key t m → n = m.
Proof. intros Hn Hm. rewrite !block_key_eq //. destruct (t =? _); lia. Qed.

(** C40: The SD card is a block device.  On a card that answers, with nothing in progress,
    [sd_write] ends and leaves the card idle with exactly that block changed, and a
    [sd_read] afterwards returns, for every block the card can address, the bytes written
    last: those of the buffer for the block, and what was there before for all others.
    This holds for cards with block and with byte addresses, and for all delays below the
    limit of the driver. *)
Theorem sd_block_device t dk fuel b n buffer s :
  sd_idle t dk s → length buffer = 512%nat → bytes_ok buffer → (LIMIT < fuel)%nat → on_card t n →
  ∃ s1 dk1, sd_write fuel b n buffer s = Ret () s1 ∧ sd_idle t dk1 s1 ∧ (∀ k, k ≠ block_key t n → dk1 k = dk k) ∧
    ∀ b' junk m, length junk = 512%nat → bytes_ok junk → on_card t m →
      ∃ s2, sd_read fuel b' junk m s1 = Ret (if decide (m = n) then buffer else unwords 4 (dk (block_key t m))) s2 ∧ sd_idle t dk1 s2.
Proof.
  intros Hi Hl Hb Hf Hn. destruct (sd_write_run t dk fuel b n buffer s Hi Hl Hb Hf) as (s1 & Hr & Hi1).
  exists s1, (<[block_key t n := words 4 128 buffer]> dk). split_and!; [done|done|intros k Hk; rewrite fn_lookup_insert_ne; [congruence|done]|].
  intros b' junk m Hjl Hjb Hm. destruct (sd_read_run t _ fuel b' junk m s1 Hi1 Hjl Hjb Hf) as (s2 & Hr2 & Hi2). exists s2. split; [|done]. rewrite Hr2. f_equal.
  destruct (decide (m = n)) as [->|Hne]; [rewrite fn_lookup_insert; by apply unwords_words|].
  rewrite fn_lookup_insert_ne; [|done]. intros E. exact (Hne (eq_sym (block_key_inj t n m Hn Hm E))).
Qed.
End block.

(** ** A card *)
Definition finish (c : cardst) : cardst := expect [(2%nat, INT_DATA_DONE)] (set_xfer NoXfer c).
Definition card_get (r : Z) (c : cardst) : Z * cardst :=
  if r =? EMMC_INTERRUPT then (irq c, c)
  else if r =? EMMC_DATA then
    match xfer c with Rd (w :: ws) => (w, match ws with [] => finish c | _ => set_xfer (Rd ws) c end) | _ => (0, c) end
  else if r =? MBOX_READ then (8, c) else (0, c).
Definition card_put (r v : Z) (c : cardst) : cardst :=
  if r =? EMMC_INTERRUPT then set_irq (Z.land (irq c) (Z.lnot v)) c
  else if r =? EMMC_ARG1 then set_carg v c
  else if r =? EMMC_CMDTM then
    if v =? READ_CODE then expect [(3%nat, INT_CMD_DONE); (0%nat, INT_READ_RDY)] (set_xfer (Rd (blocks c (carg c))) c)
    else if v =? WRITE_CODE then expect [(1%nat, INT_CMD_DONE); (1%nat, INT_WRITE_RDY)] (set_xfer (Wr (carg c) []) c)
    else expect [(1%nat, INT_CMD_DONE)] c
  else if r =? EMMC_DATA then
    match xfer c with
    | Wr a ws => if (length ws <? 127)%nat then set_xfer (Wr a (ws ++ [v])) c else finish (set_blocks (<[a := ws ++ [v]]> (blocks c)) c)
    | _ => c
    end
  else c.
#[export] Instance plain_hardware : Emmc cardst := {|
  reg_get := card_get; reg_put := card_put; delay_us := λ _, tick; delay := λ _ c, c;
  irq_line := λ c, has (irq c) (Z.lor INT_READ_RDY INT_DATA_DONE); mbox_answer := λ buf _, buf |}.
Lemma limit_large n : Z.of_nat n < 999999 → (n < LIMIT)%nat.
Proof. rewrite /LIMIT. lia. Qed.
#[export, refine] Instance plain_card : SdCard cardst := {| view := λ c, c |}.
Proof.
  all: try done.
  - intros d _. exists 3%nat, 0%nat. split_and!; [apply limit_large; lia..|done].
  - intros d _. exists 1%nat, 1%nat. split_and!; [apply limit_large; lia..|done].
  - intros d w ws Hx. change (reg_get EMMC_DATA d) with (match xfer d with Rd (w :: ws) => (w, match ws with [] => finish d | _ => set_xfer (Rd ws) d end) | _ => (0, d) end).
    rewrite Hx. split_and!; [done|by destruct ws|]. intros ->. exists 2%nat. split; [apply limit_large; lia|done].
  - intros d a ws w Hx. change (reg_put EMMC_DATA w d) with (match xfer d with
      | Wr a ws => if (length ws <? 127)%nat then set_xfer (Wr a (ws ++ [w])) d else finish (set_blocks (<[a := ws ++ [w]]> (blocks d)) d) | _ => d end).
    rewrite Hx. split.
    + intros Hl. by rewrite (proj2 (Nat.ltb_lt _ _) Hl).
    + intros Hl. rewrite Hl. exists 2%nat. split; [apply limit_large; lia|done].
Defined.

(** ** The theorems at work *)
Definition zero_block : list Z := replicate 128 0.
Definition demo_desc : SDDescriptor := mkCard 0 (replicate 4 0) (replicate 4 0) (replicate 2 0) 0 0 0 SD_TYPE_2_HC 0 0 0 0 0 0 None 0.
Definition demo_drv : drv cardst := mkDrv (mkSd demo_desc 2 0 (mkCS (λ _, zero_block) 0 0 [] NoXfer)) ∅ [].
Lemma zero_card_ok : words_ok zero_block.
Proof. split; [done|]. apply Forall_replicate. lia. Qed.
Lemma demo_idle : sd_idle SD_TYPE_2_HC (λ _, zero_block) demo_drv.
Proof. split_and!; try done. intros _. apply zero_card_ok. Qed.

Definition demo_buffer : list Z := replicate 512 7.
Lemma demo_bytes : bytes_ok demo_buffer.
Proof. apply Forall_replicate. rewrite /byte_ok. lia. Qed.

Lemma sd_block_device_witness : ∃ s1 s2,
  sd_write (S LIMIT) 1 5 demo_buffer demo_drv = Ret () s1 ∧ sd_read (S LIMIT) 1 demo_buffer 5 s1 = Ret demo_buffer s2.
Proof.
  assert (Hon : on_card SD_TYPE_2_HC 5) by (rewrite /on_card /BLOCKNO_OFFSET; simpl; lia).
  destruct (sd_block_device SD_TYPE_2_HC (λ _, zero_block) (S LIMIT) 1 5 demo_buffer demo_drv demo_idle eq_refl demo_bytes (Nat.lt_succ_diag_r _) Hon)
    as (s1 & dk1 & Hw & _ & _ & Hread).
  destruct (Hread 1 demo_buffer 5 eq_refl demo_bytes Hon) as (s2 & Hr & _). exists s1, s2. exact (conj Hw Hr).
Defined.

(** A thread prepares a buffer, time passes, and its request is taken. *)
Definition demo_x : buf := mkBuf 0 9 demo_buffer 0.
Definition demo_later : drv cardst := set_bufs {[1 := demo_x]} demo_drv.
Lemma sd_requests_refine_witness : ∃ s', sdrw_submit 1 demo_later = Ret () s'.
Proof.
  assert (Hr : rtc drv_step demo_drv demo_later).
  { apply rtc_l with demo_later; [apply step_client; [by apply not_elem_of_nil|exact (conj eq_refl demo_bytes)]|]. apply rtc_once. exact (step_time demo_later 1). }
  destruct (sd_requests_refine SD_TYPE_2_HC (λ _, zero_block) demo_drv demo_later demo_idle Hr) as (_ & Hs & _).
  apply (Hs 1 demo_x); [done|by apply not_elem_of_nil].
Defined.

Lemma plain_mbox : mbox_ready (D := cardst) 0 64.
Proof. split; try done. - by left. - by left. Qed.
Lemma sdInit_ends_witness : ∃ r s', sdInit 1 64 (core demo_drv) = Ret r s' ∧ (cinit (sdCard s') = 0 ∨ cinit (sdCard s') = 1).
Proof.
  destruct (sdInit_ends 0 1 64 (core demo_drv) plain_mbox (Nat.lt_succ_diag_r _)) as (r & s' & Hr & H); [by intros H|].
  exists r, s'. split; [exact Hr|]. destruct H as [(_ & Hc & _)|[[_ Hi]|(_ & Hi & _)]]; [by destruct (Hc eq_refl)|by left|by right].
Defined.
