(* ===== verification/SysFile.v ===== *)
(** * System calls: [kernel/syscall.c], [kernel/sysfile.c], [kernel/sysproc.c]

    Every call runs on CPU [i] for the current process, over the state of [Proc.v].  A
    string of the user is its address and its characters, without the terminating zero; a
    buffer of the user is its address and the bytes it holds, and a call that stores into
    it returns the new bytes.  [ctx] is the [OpContext] of the call, [garbage] what an array
    on the stack holds.  The results are 64-bit unsigned, as [define_syscall] declares.
    A call that goes to sleep in a pipe is cut there, as in [Pipe.v].

    The flags of the C library are parameters.  [sys_execve] is in [Exec.v]. *)

From stdpp Require Import base numbers list gmap.
From S2P Require Import Prelude Bitmap Spinlock Pidmap Sem Bytes Str FsDefs BlockCache Cache CacheAlloc Inode Pipe File Mem Pt Paging RBTree Cpu Sched Proc.

Definition ERR : Z := u64 (-1).

Definition this_proc (i : nat) : M pstate Z := on_pk (thisproc i).
Definition on_in {X} (m : M (istate (S := cstate)) X) : M pstate X := on_pfs (on_inodes m).

(** ** [kernel/syscall.c] *)
(** The table of the calls, and the registers; the entry is read before the number is
    checked. *)
Definition NR_SYSCALL : nat := 512.
Definition syscall_entry {S} (syscall_table : list (option (list Z → M S Z))) (regs : list Z) : M S (list Z) :=
  id ← of_opt (regs !! 8%nat);
  sys_func ← of_opt (syscall_table !! Z.to_nat id);
  if id <? Z.of_nat NR_SYSCALL then
    match sys_func with
    | Some f => ret ← f (take 6 regs); mret (<[0%nat := ret]> regs)
    | None => panic
    end
  else mret regs.

(** The section holds [start, start + size), the sum wrapping around. *)
Definition holds_range (start size : Z) (st : section) : bool := (st_begin st <=? start) && (u64 (start + size) <? st_end st).
Definition sections_of (i : nat) : M pstate (list section) :=
  cp ← this_proc i; m ← gets psecs; mret (snd <$> default [] (m !! cp)).
Fixpoint any_section (P : section → bool) (l : list section) : bool :=
  match l with [] => false | st :: l => if P st then true else any_section P l end.
Definition user_readable (i : nat) (start size : Z) : M pstate bool :=
  if KSPACE_MASK <=? start then mret true
  else l ← sections_of i; mret (any_section (holds_range start size) l).
Definition user_writeable (i : nat) (start size : Z) : M pstate bool :=
  if KSPACE_MASK <=? start then mret true
  else l ← sections_of i; mret (any_section (λ st, if has_flag st ST_RO then false else holds_range start size st) l).

(** A string of the user: its address and its characters. *)
Record ustring := mkUS { us_addr : Z; us_chars : list Z }.
Fixpoint user_strlen_loop (n : nat) (i : nat) (str : ustring) (k : Z) : M pstate Z :=
  match n with
  | O => mret 0
  | S n =>
      b ← user_readable i (u64 (us_addr str + k)) 1;
      if b : bool then
        if k =? Z.of_nat (length (us_chars str)) then mret (k + 1) else user_strlen_loop n i str (k + 1)
      else mret 0
  end.
Definition user_strlen (i : nat) (str : ustring) (maxlen : nat) : M pstate Z := user_strlen_loop maxlen i str 0.

(** ** Descriptors *)
Definition fd2file (i : nat) (fd : Z) : M pstate (option nat) :=
  if (fd <? 0) || (Z.of_nat NOFILE <=? fd) then mret None
  else cp ← this_proc i; x ← pget cp; of_opt (oftable x !! Z.to_nat fd).

(** The first free descriptor. *)
Fixpoint free_fd {A} (l : list (option A)) : option nat :=
  match l with [] => None | None :: _ => Some 0%nat | Some _ :: l => S <$> free_fd l end.
Definition fdalloc (i : nat) (f : nat) : M pstate Z :=
  cp ← this_proc i;
  x ← pget cp;
  match free_fd (oftable x) with
  | Some k => pupd cp (λ y, set_oftable (<[k := Some f]> (oftable y)) y);; mret (Z.of_nat k)
  | None => mret (-1)
  end.

Definition sys_ioctl (fd request : Z) : M pstate Z := assert_ (request =? 21523);; mret 0.
Definition sys_mmap : M pstate Z := mret 0.
Definition sys_munmap : M pstate Z := mret 0.

Definition sys_dup (i : nat) (fd : Z) : M pstate Z :=
  o ← fd2file i fd;
  match o with
  | None => mret ERR
  | Some f =>
      fd ← fdalloc i f;
      if fd <? 0 then mret ERR else _ ← on_pfs (filedup f); mret (u64 fd)
  end.

(** The value of a call that came to an end. *)
Definition finish_read (r : stop (list Z * Z)) : stop (list Z * Z) := match r with Done (b, v) => Done (b, u64 v) | _ => r end.
Definition finish_write (r : stop Z) : stop Z := match r with Done v => Done (u64 v) | _ => r end.

Definition sys_read (w pid : nat) (alerted : bool) (i : nat) (fd buffer : Z) (bytes : list Z) (size : Z) : M pstate (stop (list Z * Z)) :=
  o ← fd2file i fd;
  match o with
  | None => mret (Done (bytes, ERR))
  | Some f =>
      if size <=? 0 then mret (Done (bytes, ERR))
      else
        ok ← user_writeable i buffer (u64 size);
        if ok : bool then r ← on_pfs (fileread w pid alerted f bytes size); mret (finish_read r) else mret (Done (bytes, ERR))
  end.
Definition sys_write (w pid : nat) (ctx : Z) (i : nat) (fd buffer : Z) (bytes : list Z) (size : Z) : M pstate (stop Z) :=
  o ← fd2file i fd;
  match o with
  | None => mret (Done ERR)
  | Some f =>
      if size <=? 0 then mret (Done ERR)
      else
        ok ← user_readable i buffer (u64 size);
        if ok : bool then r ← on_pfs (filewrite w pid ctx f bytes size); mret (finish_write r) else mret (Done ERR)
  end.

(** [struct iovec], with the bytes at [iov_base]. *)
Record iovec := mkIov { iov_base : Z; iov_bytes : list Z; iov_len : Z }.
Fixpoint writev_loop (w pid : nat) (ctx : Z) (i : nat) (f : nat) (l : list iovec) (tot : Z) : M pstate (stop Z) :=
  match l with
  | [] => mret (Done tot)
  | p :: l =>
      ok ← user_readable i (iov_base p) (iov_len p);
      if ok : bool then
        r ← on_pfs (filewrite w pid ctx f (iov_bytes p) (i64 (iov_len p)));
        match r with
        | Done v => writev_loop w pid ctx i f l (u64 (tot + v))
        | _ => mret r
        end
      else mret (Done ERR)
  end.
Definition sys_writev (w pid : nat) (ctx : Z) (i : nat) (fd iov : Z) (l : list iovec) (iovcnt : Z) : M pstate (stop Z) :=
  o ← fd2file i fd;
  match o with
  | None => mret (Done ERR)
  | Some f =>
      if iovcnt <=? 0 then mret (Done ERR)
      else
        ok ← user_readable i iov (u64 (16 * iovcnt));
        if ok : bool then writev_loop w pid ctx i f (take (Z.to_nat iovcnt) l) 0 else mret (Done ERR)
  end.

(** The file of a descriptor that is not open is the null pointer, which [fileclose]
    reads. *)
Definition sys_close (ctx : Z) (i : nat) (fd : Z) : M pstate Z :=
  if (fd <? 0) || (Z.of_nat NOFILE <=? fd) then mret ERR
  else
    cp ← this_proc i;
    x ← pget cp;
    f ← of_opt (oftable x !! Z.to_nat fd);
    pupd cp (λ y, set_oftable (<[Z.to_nat fd := None]> (oftable y)) y);;
    match f with
    | Some f => on_pfs (fileclose ctx f);; mret 0
    | None => fault
    end.

Definition sys_fstat (i : nat) (fd st : Z) : M pstate (Z * option stat) :=
  o ← fd2file i fd;
  match o with
  | None => mret (ERR, None)
  | Some f =>
      ok ← user_writeable i st 128;
      if ok : bool then r ← on_pfs (filestat f); mret (match r with Some v => (0, Some v) | None => (ERR, None) end)
      else mret (ERR, None)
  end.

(** ** Paths *)
(** A path is looked up from the working directory of the current process. *)
Definition set_icwd v (s : istate (S := cstate)) := mkI (icache s) (itab_lock s) (ihead s) (itab s) (inext s) (iroot s) v (icons s).
Definition in_cwd {X} (i : nat) (m : M (istate (S := cstate)) X) : M pstate X :=
  cp ← this_proc i; x ← pget cp; on_in (modify (set_icwd (cwd x));; m).
Definition begin_op (ctx : Z) : M pstate () := on_in (lift (cache_begin_op ctx)).
Definition end_op (ctx : Z) : M pstate () := _ ← on_in (lift (cache_end_op ctx)); mret ().
Definition iput (ctx ip : Z) : M pstate () := on_in (inode_put sblock (Some ctx) ip).

Section calls.
Context (AT_FDCWD O_WRONLY O_RDWR O_CREAT : Z).

Definition sys_newfstatat (garbage : list Z) (ctx : Z) (i : nat) (dirfd : Z) (path : ustring) (st flags : Z) : M pstate (Z * option stat) :=
  n ← user_strlen i path 256;
  if n =? 0 then mret (ERR, None)
  else
    ok ← user_writeable i st 128;
    if negb ok then mret (ERR, None)
    else if negb (dirfd =? AT_FDCWD) then mret (ERR, None)
    else if negb (flags =? 0) then mret (ERR, None)
    else
      begin_op ctx;;
      o ← in_cwd i (namei sblock garbage (us_chars path) (Some ctx));
      match o with
      | None => end_op ctx;; mret (ERR, None)
      | Some ip =>
          on_in (inode_lock ip);;
          v ← on_in (stati ip);
          on_in (inode_unlock ip);;
          iput ctx ip;;
          end_op ctx;;
          mret (0, Some v)
      end.

(** The loop of [isdirempty] from byte [off]. *)
Fixpoint isdirempty_loop (fuel : nat) (dp off : Z) : M (istate (S := cstate)) bool :=
  d ← iget dp;
  if off <? ie_num_bytes (entry d) then
    match fuel with
    | O => nofuel
    | S fuel =>
        '(n, l) ← inode_read false dp off sizeof_DirEntry;
        if negb (n =? sizeof_DirEntry) then panic
        else if negb (de_inode_no (decode_dirent l) =? 0) then mret false
        else isdirempty_loop fuel dp (off + sizeof_DirEntry)
    end
  else mret true.
Definition isdirempty (dp : Z) : M (istate (S := cstate)) bool :=
  d ← iget dp; isdirempty_loop (Z.to_nat (ie_num_bytes (entry d))) dp (2 * sizeof_DirEntry).

Definition upd_links (ip : Z) (d : Z) : M (istate (S := cstate)) () :=
  iupd ip (λ i, set_entry (let e := entry i in
    mkEntry (ie_type e) (ie_major e) (ie_minor e) (u16 (ie_num_links e + d)) (ie_num_bytes e) (ie_addrs e) (ie_indirect e)) i).

(** The end of [sys_unlinkat] after an error. *)
Definition unlink_bad (ctx dp : Z) : M pstate Z := on_in (inode_unlock dp);; iput ctx dp;; end_op ctx;; mret ERR.
Definition sys_unlinkat (garbage : list Z) (ctx : Z) (i : nat) (fd : Z) (path : ustring) (flag : Z) : M pstate Z :=
  assert_ ((fd =? AT_FDCWD) && (flag =? 0));;
  n ← user_strlen i path 256;
  if n =? 0 then mret ERR
  else
    begin_op ctx;;
    '(o, name) ← in_cwd i (nameiparent sblock (us_chars path) garbage (Some ctx));
    match o with
    | None => end_op ctx;; mret ERR
    | Some dp =>
        on_in (inode_lock dp);;
        if bool_decide (strn 14 name = [46]) || bool_decide (strn 14 name = [46; 46]) then unlink_bad ctx dp
        else
          '(inumber, off) ← on_in (inode_lookup dp (until0 name));
          if inumber =? 0 then unlink_bad ctx dp
          else
            ip ← on_in (inode_get sblock inumber);
            on_in (inode_lock ip);;
            x ← on_in (iget ip);
            if ie_num_links (entry x) <? 1 then panic
            else
              empty ← (if ie_type (entry x) =? INODE_DIRECTORY then on_in (isdirempty ip) else mret true);
              if negb empty then on_in (inode_unlock ip);; iput ctx ip;; unlink_bad ctx dp
              else
                off ← of_opt off;
                n ← on_in (inode_write sblock (Some ctx) dp (encode_dirent (mkDirEntry 0 (replicate 14 0))) off sizeof_DirEntry);
                if negb (n =? sizeof_DirEntry) then panic
                else
                  x ← on_in (iget ip);
                  (if ie_type (entry x) =? INODE_DIRECTORY then
                     on_in (upd_links dp (-1));; on_in (inode_sync sblock (Some ctx) dp true)
                   else mret ());;
                  on_in (inode_unlock dp);;
                  iput ctx dp;;
                  on_in (upd_links ip (-1));;
                  on_in (inode_sync sblock (Some ctx) ip true);;
                  on_in (inode_unlock ip);;
                  iput ctx ip;;
                  end_op ctx;;
                  mret 0
    end.

(** The inode that was found or made, locked. *)
Definition create (i : nat) (path : list Z) (type major minor : Z) (ctx : Z) : M pstate (option Z) :=
  '(parent_dir, filename) ← in_cwd i (nameiparent sblock path (replicate 14 0) (Some ctx));
  match parent_dir with
  | None => mret None
  | Some parent_dir =>
      on_in (inode_lock parent_dir);;
      '(inode_no_, _) ← on_in (inode_lookup parent_dir (until0 filename));
      cur ← (if negb (inode_no_ =? 0) then
               ip ← on_in (inode_get sblock inode_no_);
               on_in (inode_lock ip);; mret ip
             else
               n ← on_in (inode_alloc sblock (Some ctx) type);
               ip ← on_in (inode_get sblock n);
               on_in (inode_lock ip);;
               on_in (iupd ip (λ i, set_entry (let e := entry i in
                 mkEntry (ie_type e) (u16 major) (u16 minor) 1 (ie_num_bytes e) (ie_addrs e) (ie_indirect e)) i));;
               on_in (inode_sync sblock (Some ctx) ip true);;
               x ← on_in (iget ip);
               p ← on_in (iget parent_dir);
               (if type =? INODE_DIRECTORY then
                  ret1 ← on_in (inode_insert sblock (Some ctx) ip [46] (inode_no x));
                  ret2 ← on_in (inode_insert sblock (Some ctx) ip [46; 46] (inode_no p));
                  assert_ (negb (ret1 =? u64 (-1)) && negb (ret2 =? u64 (-1)));;
                  on_in (upd_links parent_dir 1);;
                  on_in (inode_sync sblock (Some ctx) parent_dir true)
                else mret ());;
               ret ← on_in (inode_insert sblock (Some ctx) parent_dir (until0 filename) (inode_no x));
               assert_ (negb (ret =? u64 (-1)));;
               mret ip);
      on_in (inode_unlock parent_dir);;
      iput ctx parent_dir;;
      mret (Some cur)
  end.

Definition has (flags f : Z) : bool := negb (Z.land flags f =? 0).
Definition sys_openat (garbage : list Z) (ctx : Z) (i : nat) (dirfd : Z) (path : ustring) (omode : Z) : M pstate Z :=
  n ← user_strlen i path 256;
  if n =? 0 then mret ERR
  else if negb (dirfd =? AT_FDCWD) then mret ERR
  else
    begin_op ctx;;
    o ← (if has omode O_CREAT then create i (us_chars path) INODE_REGULAR 0 0 ctx
         else
           o ← in_cwd i (namei sblock garbage (us_chars path) (Some ctx));
           match o with Some ip => on_in (inode_lock ip);; mret (Some ip) | None => mret None end);
    match o with
    | None => end_op ctx;; mret ERR
    | Some ip =>
        f ← on_pfs filealloc;
        fd ← (match f with Some f => fdalloc i f | None => mret (-1) end);
        if fd <? 0 then
          (match f with Some f => on_pfs (fileclose ctx f) | None => mret () end);;
          on_in (inode_unlock ip);; iput ctx ip;; end_op ctx;; mret ERR
        else
          on_in (inode_unlock ip);;
          end_op ctx;;
          match f with
          | None => fault
          | Some f =>
              on_pfs (fupd f (λ x, mkFile FD_INODE (f_ref x) (Z.b2z (negb (has omode O_WRONLY)))
                (Z.b2z (has omode O_WRONLY || has omode O_RDWR)) (f_pipe x) ip 0));;
              mret (u64 fd)
          end
    end.

(** [create], and let go of the inode: the end of [sys_mkdirat] and [sys_mknodat]. *)
Definition create_put (i : nat) (path : list Z) (type major minor ctx : Z) : M pstate Z :=
  begin_op ctx;;
  o ← create i path type major minor ctx;
  match o with
  | None => end_op ctx;; mret ERR
  | Some ip => on_in (inode_unlock ip);; iput ctx ip;; end_op ctx;; mret 0
  end.
Definition sys_mkdirat (ctx : Z) (i : nat) (dirfd : Z) (path : ustring) (mode : Z) : M pstate Z :=
  n ← user_strlen i path 256;
  if n =? 0 then mret ERR
  else if negb (dirfd =? AT_FDCWD) then mret ERR
  else if negb (mode =? 0) then mret ERR
  else create_put i (us_chars path) INODE_DIRECTORY 0 0 ctx.
Definition sys_mknodat (ctx : Z) (i : nat) (dirfd : Z) (path : ustring) (major minor : Z) : M pstate Z :=
  n ← user_strlen i path 256;
  if n =? 0 then mret ERR
  else if negb (dirfd =? AT_FDCWD) then mret ERR
  else create_put i (us_chars path) INODE_DEVICE major minor ctx.
End calls.

Definition sys_chdir (garbage : list Z) (ctx : Z) (i : nat) (path : ustring) : M pstate Z :=
  begin_op ctx;;
  o ← in_cwd i (namei sblock garbage (us_chars path) (Some ctx));
  match o with
  | None => end_op ctx;; mret ERR
  | Some ip =>
      on_in (inode_lock ip);;
      x ← on_in (iget ip);
      if negb (ie_type (entry x) =? INODE_DIRECTORY) then
        on_in (inode_unlock ip);; iput ctx ip;; end_op ctx;; mret ERR
      else
        on_in (inode_unlock ip);;
        cp ← this_proc i;
        p ← pget cp;
        iput ctx (cwd p);;
        end_op ctx;;
        pupd cp (set_cwd ip);;
        mret 0
  end.

Definition sys_pipe2 (ctx : Z) (i : nat) (flags : Z) : M pstate (Z * option (Z * Z)) :=
  o ← on_pfs pipeAlloc;
  match o with
  | None => mret (ERR, None)
  | Some (f0, f1) =>
      fd0 ← fdalloc i f0;
      fd1 ← fdalloc i f1;
      if (fd0 =? -1) || (fd1 =? -1) then
        (if negb (fd0 =? -1) then _ ← sys_close ctx i fd0; mret () else mret ());;
        (if negb (fd1 =? -1) then _ ← sys_close ctx i fd1; mret () else mret ());;
        mret (ERR, None)
      else mret (u64 (Z.land flags 0), Some (fd0, fd1))
  end.

(** ** [kernel/sysproc.c] *)
Definition sys_gettid (i : nat) : M pstate Z := cp ← this_proc i; x ← pget cp; mret (u64 (localpid x)).
Definition sys_set_tid_address (i : nat) : M pstate Z := cp ← this_proc i; x ← pget cp; mret (u64 (localpid x)).
Definition sys_sigprocmask : M pstate Z := mret 0.
Definition sys_yield (i : nat) : M pstate Z := on_pk (yield i);; mret 0.
Definition sys_pstat : M pstate Z := on_km left_page_cnt.
Definition sys_sbrk (i : nat) (size : Z) : M pstate Z := cp ← this_proc i; r ← on_space i cp (sbrk size); mret (u64 r).
Definition sys_clone (proc_entry trap_return : Z) (i : nat) (fresh : proc) (fresh_info : schinfo) (flag : Z) : M pstate Z :=
  if negb (flag =? 17) then mret ERR else r ← fork proc_entry trap_return i fresh fresh_info; mret (u64 r).
Definition sys_exit (ctx : Z) (i : nat) (n : Z) : M pstate () := exit ctx i n.
(** Other arguments loop for ever. *)
Definition sys_wait4 (ctx : Z) (i : nat) (w : nat) (pid options wstatus rusage : Z) : M pstate wait_result :=
  if negb (pid =? -1) || negb (wstatus =? 0) || negb (options =? 0) || negb (rusage =? 0) then hang
  else wait ctx i w.
