(* ===== verification/Trap.v ===== *)
(** * Traps and interrupts ([aarch64/trap.c], [driver/interrupt.c])

    The dispatch of an exception, over the state of the processes.  The registers that
    describe the exception are arguments.  When a call has given the CPU to another process
    the thread of the trap goes on only after it is scheduled again; the model ends there. *)

From stdpp Require Import base numbers list gmap.
From S2P Require Import Prelude Bitmap Spinlock Pidmap Sem Bytes Str FsDefs BlockCache Cache CacheAlloc Inode Pipe File Mem Pt Paging RBTree Cpu Sched Proc ProcTree ProcSteps SysFile.

(** ** Interrupts *)
Definition IRQ_SRC_GPU : Z := 256.
Definition IRQ_SRC_CNTPNSIRQ : Z := 2.
Definition NUM_IRQ_TYPES : nat := 64.
Definition ENABLE_IRQS_1 : Z := 0xffff00003f00b210.

Section interrupts.
Context {S : Type}.
(** [int_handler], and what has been written to the controller. *)
Record ictl := mkIC { int_handler : list (option (M S ())); ic_writes : list (Z * Z) }.
Definition init_interrupt : ictl := mkIC (replicate NUM_IRQ_TYPES None) [].
Definition set_interrupt_handler (type : nat) (h : M S ()) (c : ictl) : ictl :=
  mkIC (<[type := Some h]> (int_handler c))
    (ic_writes c ++ [(ENABLE_IRQS_1 + 4 * (Z.of_nat type / 32), Z.shiftl 1 (Z.of_nat type mod 32))]).
(** [clock.handler] *)
Definition set_clock_handler (h : M S ()) (handler : option (M S ())) : option (M S ()) := Some h.
Definition invoke_clock_handler (handler : option (M S ())) : M S () := match handler with Some h => h | None => panic end.

(** The loop over the types, with [n] of them left from [i] on. *)
Fixpoint irq_loop (c : ictl) (map : Z) (n i : nat) : M S () :=
  match n with
  | O => mret ()
  | Datatypes.S n =>
      (if negb (Z.land (Z.shiftr map (Z.of_nat i)) 1 =? 0) then match int_handler c !! i with Some (Some h) => h | _ => panic end else mret ());;
      irq_loop c map n (Datatypes.S i)
  end.
Definition interrupt_global_handler (clock : option (M S ())) (c : ictl) (source pending1 pending2 : Z) : M S () :=
  (if negb (Z.land source IRQ_SRC_CNTPNSIRQ =? 0) then invoke_clock_handler clock else mret ());;
  let source := if negb (Z.land source IRQ_SRC_CNTPNSIRQ =? 0) then Z.lxor source IRQ_SRC_CNTPNSIRQ else source in
  (if negb (Z.land source IRQ_SRC_GPU =? 0) then irq_loop c (Z.lor pending1 (Z.shiftl pending2 32)) NUM_IRQ_TYPES 0 else mret ());;
  let source := if negb (Z.land source IRQ_SRC_GPU =? 0) then Z.lxor source IRQ_SRC_GPU else source in
  if negb (source =? 0) then panic else mret ().

(** The handlers of the lines that are up, in their order. *)
Fixpoint run_all (hs : list (M S ())) : M S () := match hs with [] => mret () | h :: hs => h;; run_all hs end.
Definition handler_of (c : ictl) (i : nat) : M S () := match int_handler c !! i with Some (Some h) => h | _ => panic end.
Lemma irq_loop_runs c map n : ∀ i s, irq_loop c map n i s = run_all (handler_of c <$> filter (λ i, Z.testbit map (Z.of_nat i) = true) (seq i n)) s.
Proof.
  induction n as [|n IH]; intros i s; [done|]. cbn [irq_loop seq]. rewrite filter_cons.
  assert (E : negb (Z.land (Z.shiftr map (Z.of_nat i)) 1 =? 0) = Z.testbit map (Z.of_nat i)).
  { change 1 with (Z.ones 1). rewrite Z.land_ones // -Z.bit0_mod. rewrite Z.shiftr_spec // Z.add_0_l. by destruct (Z.testbit map (Z.of_nat i)). }
  rewrite E. destruct (decide (Z.testbit map (Z.of_nat i) = true)) as [Ht|Hf].
  - rewrite Ht. cbn [fmap list_fmap run_all]. rewrite /mbind /M_bind /handler_of. destruct (match int_handler c !! i with Some (Some h) => h | _ => panic end s); [apply IH|done..].
  - apply not_true_iff_false in Hf. rewrite Hf. rewrite (bind_run _ _ _ () s) //.
Qed.
(** The interrupt of the timer alone runs the clock handler last set, and nothing else. *)
Lemma clock_interrupt c h handler pending1 pending2 s :
  interrupt_global_handler (set_clock_handler h handler) c IRQ_SRC_CNTPNSIRQ pending1 pending2 s = h s.
Proof. rewrite /interrupt_global_handler /= /mbind /M_bind. by destruct (h s) as [[] ?| | | |]. Qed.
(** A handler is found where it was set, and nowhere else. *)
Lemma handler_set c type h i : (type < length (int_handler c))%nat →
  handler_of (set_interrupt_handler type h c) i = if decide (i = type) then h else handler_of c i.
Proof.
  intros Ht. rewrite /handler_of /=. destruct (decide (i = type)) as [->|Hne]; [by rewrite list_lookup_insert_eq|by rewrite list_lookup_insert_ne; [congruence|]].
Qed.
End interrupts.
Arguments ictl : clear implicits.

(** ** The trap handler *)
Definition ESR_EC_SHIFT : Z := 26.
Definition ESR_IR_MASK : Z := Z.shiftl 1 25.
Definition ESR_EC_UNKNOWN : Z := 0.
Definition ESR_EC_SVC64 : Z := 0x15.
Definition ESR_ABORTS : list Z := [0x20; 0x21; 0x24; 0x25].
Definition set_x0 (v : Z) (x : proc) : proc :=
  let u := ucontext x in set_ucontext (mkUC (q0 u) (spsr u) (elr u) (sp u) (tpidr0 u) (<[0%nat := v]> (reserved u))) x.
(** The process returns to user space. *)
Definition to_user (x : proc) : bool := Z.land (elr (ucontext x)) KSPACE_MASK =? 0.

(** [irq] is [interrupt_global_handler], [far] the address [pgfault] reads. *)
Definition trap_global_handler (ctx : Z) (i : nat) (syscall_table : list (option (list Z → M pstate Z))) (irq : M pstate ()) (esr far : Z) (context : UserContext) : M pstate () :=
  cp ← this_proc i;
  pupd cp (set_ucontext context);;
  let ec := Z.shiftr esr ESR_EC_SHIFT in
  let ir := Z.land esr ESR_IR_MASK in
  (if ec =? ESR_EC_UNKNOWN then if negb (ir =? 0) then panic else irq
   else if ec =? ESR_EC_SVC64 then
     regs ← syscall_entry syscall_table (reserved context);
     v ← of_opt (regs !! 0%nat);
     pupd cp (set_x0 v)
   else if bool_decide (ec ∈ ESR_ABORTS) then _ ← on_space i cp (pgfault far); mret ()
   else panic);;
  now ← this_proc i;
  if negb (now =? cp) then mret ()
  else
    x ← pget cp;
    if killed x && to_user x then exit ctx i (-1) else mret ().

Lemma exit_zombie ctx i code s u s' c : exit ctx i code s = Ret u s' → cpus (pk s) !! i = Some c →
  ∃ x, procs (pk s') !! cur_proc c = Some x ∧ state x = ZOMBIE.
Proof.
  intros H Hc. rewrite /exit in H. peel H cp s1 H1. apply thisproc_inv in H1 as [(c' & Hc' & ->) ->]. rewrite Hc in Hc'. injection Hc' as <-.
  peel H x s1 H1. apply pget_inv in H1 as [Hx ->]. peel H ct s1 H1. apply get_cont_inv in H1 as [Hct ->]. peel H v s1 H1. apply assert_inv in H1 as [_ ->].
  set (cp := cur_proc c) in *. do 5 skipc H. peel H x2 sA H1. apply pget_inv in H1 as [Hx2 ->]. peel H w sB H1.
  pose proof (cp_reparent _ _ _ _ _ _ H1) as EC'. clear H1. peel H x3 sC H1. apply pget_inv in H1 as [Hx3 ->].
  peel H w' sC H1. apply assert_inv in H1 as [_ ->]. do 3 skipc H.
  rewrite /on_pk /zoom /= in H. destruct (simple_sched i ZOMBIE _) as [? k'| | | |] eqn:Es; [|done..]. injection H as _ <-.
  apply simple_sched_obs in Es as (c2 & Hc2 & _ & Hobs). simpl in Hobs. injection Hobs as Hobs1 _.
  assert (Hcur : cur_proc c2 = cp).
  { apply curs_cur in Hc2, Hc. rewrite EC6 EC5 EC4 EC' EC3 EC2 EC1 EC0 EC Hc in Hc2. by injection Hc2. }
  rewrite Hcur in Hobs1. pose proof (fobs_some _ _ _ Hx3) as F3.
  match type of Hobs1 with _ = alter _ _ (obs_of <$> procs (pk ?sZ)) => change (obs_of <$> procs (pk sZ)) with (fobs sZ) in Hobs1 end.
  assert (Hz : (obs_of <$> procs k') !! cp = Some (zombify (obs_of x3))).
  { rewrite Hobs1 lookup_alter_eq EF6 EF5 EF4 F3. done. }
  rewrite lookup_fmap in Hz. simpl. destruct (procs k' !! cp) as [y|]; [|done]. exists y. split; [done|]. injection Hz as _ _ Hz _. by apply bool_decide_eq_true in Hz.
Qed.

(** A killed process does not go back to user space: at the end of the handler the CPU has
    been given away, or the process is not to return to user space, or it was not killed,
    or it has become a zombie. *)
Lemma killed_ends ctx i table irq esr far u s s' c :
  trap_global_handler ctx i table irq esr far u s = Ret () s' → cpus (pk s) !! i = Some c →
  (∃ c', cpus (pk s') !! i = Some c' ∧ cur_proc c' ≠ cur_proc c) ∨
  (∃ x, procs (pk s') !! cur_proc c = Some x ∧ (killed x = false ∨ to_user x = false ∨ state x = ZOMBIE)).
Proof.
  intros H Hc. rewrite /trap_global_handler in H. peel H cp s1 H1. apply thisproc_inv in H1 as [(c0 & Hc0 & ->) ->]. rewrite Hc in Hc0. injection Hc0 as <-.
  peel H v1 s1 H1. peel H v2 s2 H2. peel H now s3 H3. apply thisproc_inv in H3 as [(c3 & Hc3 & ->) ->].
  destruct (negb (cur_proc c3 =? cur_proc c)) eqn:En.
  - injection H as <-. left. exists c3. split; [done|]. by apply negb_true_iff, Z.eqb_neq in En.
  - right. apply negb_false_iff, Z.eqb_eq in En. peel H y s4 H4. apply pget_inv in H4 as [Hy ->]. destruct (killed y && to_user y) eqn:Eb.
    + destruct (exit_zombie _ _ _ _ _ _ _ H Hc3) as (z & Hz & Hst). rewrite En in Hz. exists z. auto.
    + injection H as <-. exists y. split; [done|]. apply andb_false_iff in Eb as [?|?]; auto.
Qed.
