(* ===== verification/ShRun.v ===== *)
(** * Running commands: [runcmd], [getcmd] and [main] of [user/sh/main.c]

    A process of the shell is its table of descriptors and its place in the tree of
    forks: the numbers of the forks that lead to it, and how often it has forked.  What it
    does is the list of its calls of the system, a fork with what the child does.  A
    descriptor names what it was opened for.  The calls give the lowest free descriptor,
    as [fdalloc] of the kernel does.  Whether a file can be opened, a program executed, a
    pipe or a process be made is a parameter, which may answer differently in every
    process and after every fork.  What is printed is left out. *)

From stdpp Require Import base numbers list gmap.
From S2P Require Import Prelude Sh ShLex ShGrammar ShParse ShCmd SysFile.

Inductive ofile := Given (k : nat) | Opened (file : list Z) (mode : Z) | PipeEnd (p : list nat) (write : bool).
Notation table := (list (option ofile)).
Record uproc := mkUP { utab : table; upath : list nat; uforks : nat }.
Definition set_utab t (u : uproc) := mkUP t (upath u) (uforks u).
(** The child of the next fork, and the process after it. *)
Definition child_of (u : uproc) : uproc := mkUP (utab u) (upath u ++ [uforks u]) 0.
Definition after_fork (u : uproc) : uproc := mkUP (utab u) (upath u) (S (uforks u)).

Inductive act :=
  | Execv (argv : list (list Z)) (t : table)
  | Fork (child : list act)
  | Wait (t : table)
  | Chdir (dir : list Z)
  | Exit (code : Z).

(** ** Calls on descriptors *)
Definition u_close (k : nat) (t : table) : table := <[k := None]> t.
Definition u_new (f : ofile) (t : table) : option (nat * table) := k ← free_fd t; Some (k, <[k := Some f]> t).
(** The shell does not look at the result of [dup]. *)
Definition u_dup (k : nat) (t : table) : table :=
  match t !! k with Some (Some f) => match u_new f t with Some (_, t) => t | None => t end | _ => t end.
Definition u_pipe (p : list nat) (t : table) : option (nat * nat * table) :=
  '(r, t) ← u_new (PipeEnd p false) t; '(w, t) ← u_new (PipeEnd p true) t; Some (r, w, t).

(** The answers of the system to a process: by its place in the tree of processes, the
    number of its forks so far and the arguments.  So a call repeated between two forks
    of a process has the same answer both times. *)
Record services := mkServ {
  can_open : list nat → nat → list Z → Z → bool;
  can_exec : list nat → nat → list (list Z) → bool;
  can_fork : list nat → nat → bool;
  can_pipe : list nat → nat → bool }.

Section run.
Context (E : services).
(** The arguments up to the null pointer. *)
Fixpoint args_of (b : list Z) (argv : list (option nat)) : list (list Z) :=
  match argv with Some q :: argv => cstr b q :: args_of b argv | _ => [] end.

(** The ends of a pipe in the children: [k] is the descriptor that becomes the end [e]. *)
Definition wire (k e r w : nat) (t : table) : table := u_close w (u_close r (u_dup e (u_close k t))).

Fixpoint runcmd (fuel : nat) (a : Z) (u : uproc) : M sh (list act) :=
  let p := upath u in
  let n := uforks u in
  if a =? 0 then mret [Exit 0]
  else
    match fuel with
    | O => nofuel
    | S fuel =>
        c ← get_cmd a;
        b ← gets sbuf;
        match c with
        | ExecCmd argv _ =>
            match argv with
            | Some _ :: _ => let ws := args_of b argv in mret (Execv ws (utab u) :: if can_exec E p n ws then [] else [Exit 0])
            | _ => mret [Exit 0]
            end
        | RedirCmd c file _ mode fd =>
            let t := u_close (Z.to_nat fd) (utab u) in
            let f := cstr b file in
            if can_open E p n f mode then
              match u_new (Opened f mode) t with
              | Some (_, t) => runcmd fuel c (set_utab t u)
              | None => mret [Exit 1]
              end
            else mret [Exit 1]
        | ListCmd l r =>
            if can_fork E p n then
              child ← runcmd fuel l (child_of u);
              rest ← runcmd fuel r (after_fork u);
              mret (Fork child :: Wait (utab u) :: rest)
            else mret [Exit 1]
        | PipeCmd l r =>
            if can_pipe E p n then
              match u_pipe p (utab u) with
              | Some (p0, p1, t) =>
                  let u := set_utab t u in
                  if can_fork E p n then
                    left ← runcmd fuel l (set_utab (wire 1 p1 p0 p1 t) (child_of u));
                    if can_fork E p (S n) then
                      right ← runcmd fuel r (set_utab (wire 0 p0 p0 p1 t) (child_of (after_fork u)));
                      let t := u_close p1 (u_close p0 t) in
                      mret [Fork left; Fork right; Wait t; Wait t; Exit 0]
                    else mret [Fork left; Exit 1]
                  else mret [Exit 1]
              | None => mret [Exit 1]
              end
            else mret [Exit 1]
        | BackCmd c =>
            if can_fork E p n then child ← runcmd fuel c (child_of u); mret [Fork child; Exit 0] else mret [Exit 1]
        end
    end.

(** What a command is to do: every program runs with the table of the shell, in which a
    redirection or a pipe replaces one descriptor and nothing else. *)
Fixpoint plan (t : tree) (T : table) (p : list nat) (n : nat) : list act :=
  match t with
  | TExec ws => match ws with [] => [Exit 0] | _ => Execv ws T :: if can_exec E p n ws then [] else [Exit 0] end
  | TRedir c f mode fd => if can_open E p n f mode then plan c (<[Z.to_nat fd := Some (Opened f mode)]> T) p n else [Exit 1]
  | TList l r => if can_fork E p n then Fork (plan l T (p ++ [n]) 0) :: Wait T :: plan r T p (S n) else [Exit 1]
  | TPipe l r =>
      if can_pipe E p n && can_fork E p n then
        Fork (plan l (<[1%nat := Some (PipeEnd p true)]> T) (p ++ [n]) 0) ::
        if can_fork E p (S n) then [Fork (plan r (<[0%nat := Some (PipeEnd p false)]> T) (p ++ [S n]) 0); Wait T; Wait T; Exit 0] else [Exit 1]
      else [Exit 1]
  | TBack c => if can_fork E p n then [Fork (plan c T (p ++ [n]) 0); Exit 0] else [Exit 1]
  end.
End run.

(** ** [runcmd] follows the plan *)
Fixpoint frees (t : table) : nat := match t with [] => 0 | None :: t => S (frees t) | Some _ :: t => frees t end.
(** Standard input and output are open, and there is room for a pipe. *)
Definition ready (T : table) : Prop := ∃ f0 f1 R, T = Some f0 :: Some f1 :: R ∧ (2 ≤ frees R)%nat.
(** The redirections of a command are of standard input and output. *)
Fixpoint std_redirs (t : tree) : Prop :=
  match t with
  | TExec _ => True
  | TRedir c _ _ fd => (fd = 0 ∨ fd = 1) ∧ std_redirs c
  | TPipe l r | TList l r => std_redirs l ∧ std_redirs r
  | TBack c => std_redirs c
  end.

Lemma frees_free t : (0 < frees t)%nat → ∃ i, free_fd t = Some i ∧ t !! i = Some None ∧ ∀ f, S (frees (<[i := Some f]> t)) = frees t.
Proof.
  induction t as [|[g|] t IH]; intros H; simpl in H; [lia| |by exists 0%nat]. destruct (IH H) as (i & E & Hi & Hf). exists (S i). simpl. by rewrite E.
Qed.

Lemma ready_insert T k f : ready T → (k = 0%nat ∨ k = 1%nat) → ready (<[k := Some f]> T).
Proof. intros (f0 & f1 & R & -> & Hf) [-> | ->]; simpl; [by exists f, f1, R|by exists f0, f, R]. Qed.
Lemma u_new_redir T k f : ready T → (k = 0%nat ∨ k = 1%nat) → u_new f (u_close k T) = Some (k, <[k := Some f]> T).
Proof. by intros (f0 & f1 & R & -> & _) [-> | ->]. Qed.

(** After [pipe] the children have one end each, and the shell has none left. *)
Lemma pipe_wired T p : ready T → ∃ p0 p1 t, u_pipe p T = Some (p0, p1, t) ∧
  wire 1 p1 p0 p1 t = <[1%nat := Some (PipeEnd p true)]> T ∧ wire 0 p0 p0 p1 t = <[0%nat := Some (PipeEnd p false)]> T ∧ u_close p1 (u_close p0 t) = T.
Proof.
  intros (f0 & f1 & R & -> & Hf). destruct (frees_free R) as (i & Ei & Hi & Fi); [lia|]. specialize (Fi (PipeEnd p false)).
  set (R1 := <[i := Some (PipeEnd p false)]> R) in *. destruct (frees_free R1) as (j & Ej & Hj & _); [lia|].
  assert (Hij : i ≠ j). { intros <-. rewrite /R1 list_lookup_insert_eq in Hj; [by apply lookup_lt_Some in Hi|done]. }
  set (R2 := <[j := Some (PipeEnd p true)]> R1). exists (S (S i)), (S (S j)), (Some f0 :: Some f1 :: R2).
  assert (Hback : <[j := None]> (<[i := None]> R2) = R).
  { apply list_eq. intros x. rewrite /R2 /R1. destruct (decide (x = j)) as [->|Hx].
    - rewrite list_lookup_insert_eq; [by rewrite !length_insert -(length_insert R i (Some (PipeEnd p false))); apply lookup_lt_Some in Hj|].
      by rewrite /R1 list_lookup_insert_ne in Hj.
    - rewrite list_lookup_insert_ne; [congruence|]. destruct (decide (x = i)) as [->|Hy].
      + rewrite list_lookup_insert_eq; [|done]. rewrite !length_insert. by apply lookup_lt_Some in Hi.
      + rewrite !list_lookup_insert_ne; congruence. }
  assert (L1 : R2 !! j = Some (Some (PipeEnd p true))) by (apply list_lookup_insert_eq; by apply lookup_lt_Some in Hj).
  assert (L0 : R2 !! i = Some (Some (PipeEnd p false))).
  { rewrite /R2 list_lookup_insert_ne; [congruence|]. rewrite /R1. apply list_lookup_insert_eq. by apply lookup_lt_Some in Hi. }
  split_and!.
  - rewrite /u_pipe /u_new /= Ei /= -/R1 Ej /=. done.
  - rewrite /wire /u_close /u_dup /= L1 /=. by rewrite Hback.
  - rewrite /wire /u_close /u_dup /= L0 /=. by rewrite Hback.
  - rewrite /u_close /=. by rewrite Hback.
Qed.

(** The arguments of a command in memory are its words. *)
Lemma args_words b (ps : list (nat * nat)) ws k : Forall2 (λ p w, cstr b p.1 = w) ps ws → args_of b ((Some ∘ fst <$> ps) ++ replicate k None) = ws.
Proof. induction 1 as [|[q e] w ps ws <- _ IH]; [by destruct k|]. cbn. by rewrite -IH. Qed.

Lemma get_cmd_run s a c : sheap s !! a = Some c → get_cmd a s = Ret c s.
Proof. intros H. rewrite /get_cmd. run_simpl. by rewrite H. Qed.

Lemma gets_sbuf_run s : gets sbuf s = Ret (sbuf s) s.
Proof. done. Qed.

(** One step into the command at an address. *)
Ltac run_node Hn :=
  cbn [runcmd plan upath uforks utab]; rewrite (proj2 (Z.eqb_neq _ 0)); [lia|];
  rewrite (bind_run _ _ _ _ _ (get_cmd_run _ _ _ Hn)) (bind_run _ _ _ _ _ (gets_sbuf_run _)); cbv beta iota zeta.

Lemma runcmd_plan E s t : ∀ fuel a T p n, builds s a t → std_redirs t → ready T → 0 < a → a ≤ Z.of_nat fuel →
  runcmd E fuel a (mkUP T p n) s = Ret (plan E t T p n) s.
Proof.
  rewrite /builds.
  induction t as [ws|t IH w mode fd|t1 IH1 t2 IH2|t1 IH1 t2 IH2|t IH]; intros [|fuel] a T p n Hc Hs HT Ha Hf; try lia; cbn [cmd_at std_redirs] in Hc, Hs.
  - destruct Hc as (ps & [Hl Hn] & Hws). run_node Hn. rewrite -(args_words _ _ _ (MAXARGS - length ps) Hws). by destruct ps as [|[q e] ps]; [destruct MAXARGS|].
  - destruct Hc as (b & q & e & Hn & Hb & Hw & Hc), Hs as [Hfd Hs]. run_node Hn. rewrite Hw.
    assert (Hk : Z.to_nat fd = 0%nat ∨ Z.to_nat fd = 1%nat) by lia. rewrite u_new_redir //.
    destruct (can_open E p n w mode); [|done]. apply IH; [done|done|by apply ready_insert|lia|lia].
  - destruct Hc as (b & c & Hn & Hb & Hc & H1 & H2), Hs as [Hs1 Hs2]. run_node Hn. destruct (can_pipe E p n); [|done].
    destruct (pipe_wired T p HT) as (p0 & p1 & t & -> & W1 & W0 & Wn). cbn [andb]. destruct (can_fork E p n); [|done].
    rewrite /set_utab /child_of /after_fork. cbn [upath uforks utab]. rewrite W1 W0 Wn.
    rewrite (bind_run _ _ _ _ _ (IH1 fuel b _ _ _ H1 Hs1 (ready_insert _ _ _ HT (or_intror eq_refl)) ltac:(lia) ltac:(lia))).
    destruct (can_fork E p (S n)); [|done].
    by rewrite (bind_run _ _ _ _ _ (IH2 fuel c _ _ _ H2 Hs2 (ready_insert _ _ _ HT (or_introl eq_refl)) ltac:(lia) ltac:(lia))).
  - destruct Hc as (b & c & Hn & Hb & Hc & H1 & H2), Hs as [Hs1 Hs2]. run_node Hn. destruct (can_fork E p n); [|done].
    rewrite /child_of /after_fork. cbn [upath uforks utab]. rewrite (bind_run _ _ _ _ _ (IH1 fuel b _ _ _ H1 Hs1 HT ltac:(lia) ltac:(lia))).
    by rewrite (bind_run _ _ _ _ _ (IH2 fuel c _ _ _ H2 Hs2 HT ltac:(lia) ltac:(lia))).
  - destruct Hc as (b & Hn & Hb & H1). run_node Hn. destruct (can_fork E p n); [|done].
    rewrite /child_of. cbn [upath uforks utab]. by rewrite (bind_run _ _ _ _ _ (IH fuel b _ _ _ H1 Hs HT ltac:(lia) ltac:(lia))).
Qed.

(** The commands of the grammar redirect standard input and output only. *)
Lemma std_redirected O_RDONLY O_WRONLY O_CREAT rs : ∀ t, std_redirs t → std_redirs (foldl (redirected O_RDONLY O_WRONLY O_CREAT) t rs).
Proof. induction rs as [|[w|w|w] rs IH]; intros t Ht; [done|..]; apply IH; split; auto. Qed.
Lemma std_backs n : ∀ t, std_redirs t → std_redirs (backs n t).
Proof. induction n as [|n IH]; intros t Ht; [done|]. by apply IH. Qed.
Lemma std_trees O_RDONLY O_WRONLY O_CREAT :
  (∀ l, std_redirs (line_tree O_RDONLY O_WRONLY O_CREAT l)) ∧ (∀ p, std_redirs (pipe_tree O_RDONLY O_WRONLY O_CREAT p)) ∧
  (∀ e, std_redirs (exec_tree O_RDONLY O_WRONLY O_CREAT e)).
Proof.
  apply line_pipe_exec_ind; simpl; intros; try split; auto using std_backs; by apply std_redirected.
Qed.
