(* ===== verification/ShMain.v ===== *)
(** * The main loop of the shell: [getcmd] and [main] of [user/sh/main.c]

    The input is the list of the characters still to be read; [fgets] of the C library
    takes a line of it, or as much of one as fits.  A child works on a copy of the memory
    of the shell and ends, so the shell itself never allocates a command. *)

From stdpp Require Import base numbers list gmap.
From S2P Require Import Prelude Sh ShLex ShGrammar ShParse ShCmd SysFile ShRun.

Definition NBUF : nat := 100.

(** [n] is one less than the size of the buffer: there is a terminating zero. *)
Fixpoint fgets (n : nat) (inp : list Z) : list Z * list Z :=
  match n, inp with
  | S n, c :: inp => if c =? 10 then ([c], inp) else let '(l, rest) := fgets n inp in (c :: l, rest)
  | _, _ => ([], inp)
  end.

(** The result is false at the end of the input. *)
Definition getcmd (nbuf : nat) (inp : list Z) : M sh (bool * list Z) :=
  let '(l, rest) := fgets (nbuf - 1) inp in
  modify (set_sbuf (l ++ replicate (nbuf - length l) 0));;
  c ← at_ 0;
  mret (negb (c =? 0), rest).

(** [fork] copies the memory; a child that panics has called [exit(1)]. *)
Definition in_child (m : M sh (list act)) : M sh (list act) := λ s,
  match m s with Ret acts _ => Ret acts s | Panic => Ret [Exit 1] s | Fault => Fault | Hang => Hang | Fuel => Fuel end.

Definition is_cd (b : list Z) : bool :=
  match b with c0 :: c1 :: c2 :: _ => (c0 =? 99) && (c1 =? 100) && (c2 =? 32) | _ => false end.

Section main.
Context (O_RDONLY O_WRONLY O_RDWR O_CREAT : Z) (E : services).
(** ["console"] *)
Definition console : list Z := [99; 111; 110; 115; 111; 108; 101].

(** [while ((fd = open("console", O_RDWR)) >= 0)] *)
Fixpoint open_console (fuel : nat) (t : table) : M sh table :=
  match fuel with
  | O => nofuel
  | S fuel =>
      if can_open E [] 0 console O_RDWR then
        match u_new (Opened console O_RDWR) t with
        | Some (fd, t) => if (3 <=? fd)%nat then mret (u_close fd t) else open_console fuel t
        | None => mret t
        end
      else mret t
  end.

(** [while (getcmd(buf, sizeof(buf)) >= 0)] *)
Fixpoint sh_loop (fuel : nat) (inp : list Z) (u : uproc) : M sh (list act) :=
  '(more, inp) ← getcmd NBUF inp;
  if negb more then mret [Exit 0]
  else
    match fuel with
    | O => nofuel
    | S fuel =>
        b ← gets sbuf;
        if is_cd b then
          put_nul (sh_strlen b - 1);;
          b ← gets sbuf;
          rest ← sh_loop fuel inp u;
          mret (Chdir (cstr b 3) :: rest)
        else if can_fork E (upath u) (uforks u) then
          child ← in_child (a ← parsecmd O_RDONLY O_WRONLY O_CREAT; runcmd E (Z.to_nat a) a (child_of u));
          rest ← sh_loop fuel inp (after_fork u);
          mret (Fork child :: Wait (utab u) :: rest)
        else mret [Exit 1]
    end.

Definition sh_main (inp : list Z) (t : table) : M sh (list act) :=
  t ← open_console (S (length t)) t;
  sh_loop (length inp) inp (mkUP t [] 0).

(** ** What the shell is to do *)
(** One read takes a line with its newline, or 99 characters, or what is left. *)
Definition one_read (l rest : list Z) : Prop :=
  hd 0 l ≠ 0 ∧ (length l < NBUF)%nat ∧ 10 ∉ removelast l ∧ (rest = [] ∨ last l = Some 10 ∨ S (length l) = NBUF).
(** The child that runs a line. *)
Definition line_does (str : list Z) (T : table) (p : list nat) (acts : list act) : Prop :=
  (∃ l, lexes str (line_toks l) ∧ line_ok l ∧ line_size l ≤ MAXN ∧ acts = plan E (line_tree O_RDONLY O_WRONLY O_CREAT l) T p 0) ∨
  ((∀ l, lexes str (line_toks l) → line_ok l → MAXN < line_size l) ∧ acts = [Exit 1]).
Inductive shell_does (T : table) : list Z → nat → list act → Prop :=
  | does_end inp n : hd 0 inp = 0 → shell_does T inp n [Exit 0]
  | does_cd l rest n d acts : one_read l rest → cstr l 0 = 99 :: 100 :: 32 :: d → shell_does T rest n acts →
      shell_does T (l ++ rest) n (Chdir (removelast d) :: acts)
  | does_no_fork l rest n : one_read l rest → is_cd (cstr l 0) = false → can_fork E [] n = false → shell_does T (l ++ rest) n [Exit 1]
  | does_line l rest n child acts : one_read l rest → is_cd (cstr l 0) = false → can_fork E [] n = true →
      line_does (cstr l 0) T [n] child → shell_does T rest (S n) acts →
      shell_does T (l ++ rest) n (Fork child :: Wait T :: acts).

(** ** Lines and strings *)
Lemma fgets_read n : ∀ inp l rest, fgets n inp = (l, rest) →
  inp = l ++ rest ∧ (length l ≤ n)%nat ∧ 10 ∉ removelast l ∧ (rest = [] ∨ last l = Some 10 ∨ length l = n).
Proof.
  induction n as [|n IH]; intros [|c inp] l rest; simpl; try (intros [= <- <-]; split_and!; [done|simpl; lia|by apply not_elem_of_nil|by auto]).
  destruct (c =? 10) eqn:Ec.
  - intros [= <- <-]. apply Z.eqb_eq in Ec as ->. split_and!; [done|simpl; lia|by apply not_elem_of_nil|by auto].
  - destruct (fgets n inp) as [l' r'] eqn:Ef. intros [= <- <-]. destruct (IH inp l' r' Ef) as (-> & Hl & Hn & Hc). apply Z.eqb_neq in Ec.
    split_and!; [done|simpl; lia| |].
    + destruct l' as [|c' l']; [by apply not_elem_of_nil|]. change (10 ∉ c :: removelast (c' :: l')). apply not_elem_of_cons. split; [congruence|done].
    + destruct Hc as [->|[Hc|Hc]]; [by auto| |right; right; simpl; lia]. right; left. destruct l' as [|c' l']; [done|exact Hc].
Qed.

Lemma strlen_le b : (sh_strlen b ≤ length b)%nat.
Proof. induction b as [|c b IH]; [done|]. simpl. destruct (c =? 0); lia. Qed.
Lemma cstr_nonzero b : Forall (λ c, c ≠ 0) (cstr b 0).
Proof. rewrite /cstr drop_0. induction b as [|c b IH]; [done|]. simpl. destruct (c =? 0) eqn:Ec; [done|]. constructor; [by apply Z.eqb_neq|done]. Qed.
(** The buffer holds the string, whatever follows its zero. *)
Lemma buffer_string l k : ∃ junk, l ++ replicate (S k) 0 = cstr l 0 ++ 0 :: junk.
Proof.
  rewrite /cstr drop_0. induction l as [|c l [junk IH]]; [by eexists|]. simpl. destruct (c =? 0) eqn:Ec.
  - apply Z.eqb_eq in Ec as ->. by eexists.
  - exists junk. simpl. by rewrite -IH.
Qed.
Lemma is_cd_string str junk : is_cd (str ++ 0 :: junk) = is_cd str.
Proof.
  destruct str as [|a [|b [|c str]]]; [by destruct junk as [|x [|y junk]]| | |done].
  - destruct junk as [|x junk]; [done|]. simpl. by rewrite andb_false_r.
  - simpl. by rewrite andb_false_r.
Qed.
Lemma is_cd_cons str : is_cd str = true → ∃ d, str = 99 :: 100 :: 32 :: d.
Proof.
  destruct str as [|a [|b [|c str]]]; [done..|]. simpl. intros H. apply andb_prop in H as [H Hc]. apply andb_prop in H as [Ha Hb].
  apply Z.eqb_eq in Ha as ->, Hb as ->, Hc as ->. by eexists.
Qed.
(** Chopping the last character of the string of a [cd]. *)
Lemma chop_cd (d junk : list Z) : Forall (λ c, c ≠ 0) d →
  cstr (<[S (S (length d)) := 0]> ((99 :: 100 :: 32 :: d) ++ 0 :: junk)) 3 = removelast d.
Proof.
  intros Hd. destruct d as [|c d _] using rev_ind; [done|]. rewrite removelast_last. apply Forall_app in Hd as [Hd _].
  rewrite length_app Nat.add_1_r /cstr. simpl.
  rewrite -app_assoc insert_app_r_alt // Nat.sub_diag /= strlen_word //. by rewrite take_app_length.
Qed.

(** ** The loop *)
Definition shell_mem (b : list Z) : sh := mkSh b 0 ∅ 0.

Lemma getcmd_run inp b : ∃ l rest,
  inp = l ++ rest ∧ getcmd NBUF inp (shell_mem b) = Ret (negb (hd 0 inp =? 0), rest) (shell_mem (l ++ replicate (NBUF - length l) 0)) ∧
  (hd 0 inp ≠ 0 → one_read l rest).
Proof.
  rewrite /getcmd. destruct (fgets (NBUF - 1) inp) as [l rest] eqn:Ef. pose proof (fgets_read _ _ _ _ Ef) as (-> & Hl & Hn & Hc).
  change (NBUF - 1)%nat with 99%nat in Hl, Hc. exists l, rest.
  assert (Hhd : hd 0 (l ++ rest) = hd 0 l).
  { destruct l as [|c l]; [|done]. destruct Hc as [->|[?|?]]; [done..|]. simpl in *. lia. }
  assert (Hbuf : (l ++ replicate (NBUF - length l) 0) !! 0%nat = Some (hd 0 l)) by (by destruct l).
  rewrite Hhd. split_and!; [done| |].
  - rewrite (bind_run _ _ _ () (shell_mem (l ++ replicate (NBUF - length l) 0))) //. rewrite (bind_run _ _ _ (hd 0 l) (shell_mem (l ++ replicate (NBUF - length l) 0))) //.
    rewrite /at_. run_simpl. by rewrite Hbuf.
  - intros H0. rewrite /one_read. split_and!; [done|rewrite /NBUF; lia|done|]. change NBUF with 100%nat. destruct Hc as [?|[?|?]]; auto.
Qed.

Lemma child_line str junk T p : Forall (λ c, c ≠ 0) str → ready T → ∃ acts,
  in_child (a ← parsecmd O_RDONLY O_WRONLY O_CREAT; runcmd E (Z.to_nat a) a (mkUP T p 0)) (shell_mem (str ++ 0 :: junk)) =
    Ret acts (shell_mem (str ++ 0 :: junk)) ∧ line_does str T p acts.
Proof.
  intros Hnz HT. destruct (parsecmd_cases O_RDONLY O_WRONLY O_CREAT str junk Hnz) as [(l & a & s' & Hl & Hok & Hs & Hr & Hb & Ha)|[Hr Hno]].
  - exists (plan E (line_tree O_RDONLY O_WRONLY O_CREAT l) T p 0). split; [|left; by exists l].
    rewrite /in_child (bind_run _ _ _ _ _ Hr) (runcmd_plan E s' _ _ _ _ _ _ Hb) //; [apply std_trees|lia].
  - exists [Exit 1]. split; [|by right]. by rewrite /in_child (bind_panic _ _ _ Hr).
Qed.

Lemma sh_loop_run T fuel : ready T → ∀ inp n b, (length inp ≤ fuel)%nat →
  ∃ acts b', sh_loop fuel inp (mkUP T [] n) (shell_mem b) = Ret acts (shell_mem b') ∧ shell_does T inp n acts.
Proof.
  intros HT. induction fuel as [|fuel IH]; intros inp n b Hf; destruct (getcmd_run inp b) as (l & rest & Hinp & Hrun & Hone); cbn [sh_loop].
  all: rewrite (bind_run _ _ _ _ _ Hrun); cbv beta iota; rewrite negb_involutive; destruct (hd 0 inp =? 0) eqn:Ez.
  1,3: apply Z.eqb_eq in Ez; eexists _, _; split; [reflexivity|by constructor].
  { destruct inp; [done|simpl in Hf; lia]. }
  apply Z.eqb_neq in Ez. specialize (Hone Ez). pose proof Hone as (Hhd & Hlen & _). rewrite Hinp length_app in Hf. rewrite Hinp.
  assert (Hrest : (length rest ≤ fuel)%nat) by (destruct l; [done|simpl in Hf; lia]).
  destruct (buffer_string l (NBUF - length l - 1)) as [junk Hbuf]. replace (S (NBUF - length l - 1)) with (NBUF - length l)%nat in Hbuf by lia. rewrite Hbuf.
  pose proof (cstr_nonzero l) as Hnz. rewrite (bind_run _ _ _ _ _ (gets_sbuf_run _)). cbn [sbuf shell_mem]. rewrite is_cd_string.
  destruct (is_cd (cstr l 0)) eqn:Ecd.
  - destruct (is_cd_cons _ Ecd) as [d Hd]. rewrite strlen_word // Hd. rewrite Hd in Hnz. change (length (99%Z :: 100%Z :: 32%Z :: d) - 1)%nat with (S (S (length d))).
    set (b1 := <[S (S (length d)) := 0]> ((99 :: 100 :: 32 :: d) ++ 0 :: junk)).
    rewrite (bind_run _ _ _ () (shell_mem b1)).
    { rewrite /put_nul (bind_run _ _ _ _ _ (gets_sbuf_run _)) (proj2 (Nat.ltb_lt _ _)) //. cbn [sbuf shell_mem]. rewrite length_app. simpl. lia. }
    rewrite (bind_run _ _ _ _ _ (gets_sbuf_run _)). destruct (IH rest n b1 Hrest) as (acts & b' & Hrun' & Hdoes).
    exists (Chdir (cstr b1 3) :: acts), b'. split; [by rewrite (bind_run _ _ _ _ _ Hrun')|]. rewrite /b1 chop_cd; [by do 3 apply Forall_cons in Hnz as [_ Hnz]|]. by apply does_cd.
  - cbn [upath uforks]. destruct (can_fork E [] n) eqn:Efk; [|eexists _, _; split; [reflexivity|by apply does_no_fork]].
    destruct (child_line (cstr l 0) junk T [n] Hnz HT) as (child & Hchild & Hline). rewrite (bind_run _ _ _ _ _ Hchild).
    destruct (IH rest (S n) (cstr l 0 ++ 0 :: junk) Hrest) as (acts & b' & Hrun' & Hdoes).
    eexists _, b'. split; [rewrite (bind_run _ _ _ _ _ Hrun'); reflexivity|]. by apply does_line.
Qed.

(** The console is opened for every standard descriptor that was closed. *)
Definition with_console (o : option ofile) : option ofile := Some (default (Opened console O_RDWR) o).
Lemma open_console_run a b c R fuel s : can_open E [] 0 console O_RDWR = true → (0 < frees R)%nat → (3 < fuel)%nat →
  open_console fuel (a :: b :: c :: R) s = Ret (with_console a :: with_console b :: with_console c :: R) s.
Proof.
  intros Hop HR Hf. do 4 (destruct fuel as [|fuel]; [lia|]). clear Hf. destruct (frees_free R HR) as (i & Ei & Hi & _).
  assert (Hc : <[i := None]> (<[i := Some (Opened console O_RDWR)]> R) = R) by (rewrite list_insert_insert_eq; by apply list_insert_id).
  destruct a, b, c; cbn [open_console]; rewrite Hop /u_new /u_close /= Ei /= Hc //.
Qed.

(** C12: The shell runs its input.  Assume that the console can be opened and that two
    descriptors from the third on are free.  Then whatever the input is, [main] ends: it opens the console
    for each of the first three descriptors that is closed, and then for every line that
    [fgets] gives it, up to an empty string, it either changes its directory to what
    follows [cd] without the last character, or forks a child and waits.  The child of a
    line that is written as a line of the grammar, with whatever whitespace, does what the
    line means: pipes, lists, background commands and redirections in their order, and
    every program is executed with its words as the arguments and with the descriptors of
    the shell, in which only the standard input or output that is redirected or piped is
    replaced and no end of a pipe is left open.  For every other line, and when a pipe, a
    process or a file cannot be had, the process exits with 1.  Apart from the console,
    this holds for every answer [services] can give to [open], [exec], [fork] and [pipe]. *)
Theorem shell_runs_input a b c R inp buf :
  can_open E [] 0 console O_RDWR = true → (2 ≤ frees R)%nat →
  ∃ acts buf', sh_main inp (a :: b :: c :: R) (shell_mem buf) = Ret acts (shell_mem buf') ∧
    shell_does (with_console a :: with_console b :: with_console c :: R) inp 0 acts.
Proof.
  intros Hop HR. rewrite /sh_main (bind_run _ _ _ _ _ (open_console_run a b c R (S (length (a :: b :: c :: R))) (shell_mem buf) Hop ltac:(lia) ltac:(simpl; lia))).
  apply sh_loop_run; [|done]. rewrite /with_console. eexists _, _, _. split; [reflexivity|]. done.
Qed.
End main.

(** [ls  -l>out | wc&], a change of the directory, and a line that is not of the grammar. *)
Definition demo_input : list Z := example_str ++ [10] ++ [99; 100; 32; 47; 97; 10] ++ [40; 97; 10].
Definition all_well : services := mkServ (λ _ _ _ _, true) (λ _ _ _, true) (λ _ _, true) (λ _ _, true).
Lemma shell_runs_input_witness : ∃ acts buf',
  sh_main 0 1 2 512 all_well demo_input (replicate 16 None) (shell_mem []) = Ret acts (shell_mem buf') ∧
  shell_does 0 1 512 all_well (replicate 3 (Some (Opened console 2)) ++ replicate 13 None) demo_input 0 acts.
Proof. apply (shell_runs_input 0 1 2 512 all_well None None None (replicate 13 None)); [done|simpl; lia]. Defined.

(** The calls of that run. *)
Example demo_calls : ∃ m,
  let con := Some (Opened console 2) in
  let T := [con; con; con] ++ replicate 13 None in
  let pipeline := [0%nat; 0%nat] in
  sh_main 0 1 2 512 all_well demo_input (replicate 16 None) (shell_mem []) = Ret
    [Fork [Fork [Fork [Execv [[108; 115]; [45; 108]] ([con; Some (Opened [111; 117; 116] 513); con] ++ replicate 13 None)];
                 Fork [Execv [[119; 99]] ([Some (PipeEnd pipeline false); con; con] ++ replicate 13 None)]; Wait T; Wait T; Exit 0]; Exit 0]; Wait T;
     Chdir [47; 97];
     Fork [Exit 1]; Wait T;
     Exit 0] m.
Proof. eexists. vm_compute. reflexivity. Qed.
