(* ===== verification/SysErr.v ===== *)
(** * Arguments the system calls check

    The ranges of user memory that [user_readable] and [user_writeable] of
    [kernel/syscall.c] accept, the strings of [user_strlen], and the calls on a descriptor
    that is not open. *)

From stdpp Require Import base numbers list gmap.
From S2P Require Import Prelude Bitmap Spinlock Pidmap Sem Bytes Str FsDefs BlockCache Cache CacheAlloc Inode Pipe File Mem Pt Paging RBTree Cpu Sched Proc ProcTree ProcSteps SysFile.

(** ** Ranges of user memory *)
(** The sections of the process on CPU [i]. *)
Definition cur_sections (s : pstate) (i : nat) : list section :=
  snd <$> default [] (psecs s !! default 0 (cur_proc <$> cpus (pk s) !! i)).
Lemma any_section_spec P l : any_section P l = existsb P l.
Proof. induction l as [|st l IH]; [done|]. simpl. by destruct (P st). Qed.
Lemma sections_of_run i s c : cpus (pk s) !! i = Some c → sections_of i s = Ret (cur_sections s i) s.
Proof.
  intros Hc. rewrite /sections_of /this_proc /on_pk /zoom /thisproc /get_cpu /cur_sections. run_simpl. rewrite Hc. run_simpl. by destruct s.
Qed.
Lemma readable_run i a n s c : cpus (pk s) !! i = Some c →
  user_readable i a n s = Ret ((KSPACE_MASK <=? a) || existsb (holds_range a n) (cur_sections s i)) s.
Proof.
  intros Hc. rewrite /user_readable. destruct (KSPACE_MASK <=? a); [done|]. erewrite bind_run; [|exact (sections_of_run i s c Hc)]. by rewrite any_section_spec.
Qed.
Definition holds_rw_range (a n : Z) (st : section) : bool := negb (has_flag st ST_RO) && holds_range a n st.
Lemma writeable_run i a n s c : cpus (pk s) !! i = Some c →
  user_writeable i a n s = Ret ((KSPACE_MASK <=? a) || existsb (holds_rw_range a n) (cur_sections s i)) s.
Proof.
  intros Hc. rewrite /user_writeable. destruct (KSPACE_MASK <=? a); [done|]. erewrite bind_run; [|exact (sections_of_run i s c Hc)]. rewrite any_section_spec.
  f_equal. simpl. induction (cur_sections s i) as [|st l IH]; [done|]. simpl. rewrite IH. rewrite {2}/holds_rw_range. by destruct (has_flag st ST_RO).
Qed.

(** The byte at [b] belongs to the section. *)
Definition holds_byte (b : Z) (st : section) : Prop := st_begin st ≤ b < st_end st.
Definition writable (st : section) : Prop := has_flag st ST_RO = false.

(** A sum that does not wrap: the comparison asks for the bytes from [a] to [a + n], the
    last one included. *)
Lemma range_bytes a n st : 0 ≤ a → 0 ≤ n → a + n < 2 ^ 64 →
  holds_range a n st = true ↔ (∀ b, a ≤ b ≤ a + n → holds_byte b st).
Proof.
  intros Ha Hn Hw. rewrite /holds_range /holds_byte /u64 wrap_small; [lia|]. rewrite andb_true_iff Z.leb_le Z.ltb_lt. split.
  - intros H b Hb. lia.
  - intros H. split; [apply (H a); lia|apply (H (a + n)); lia].
Qed.
(** A sum that wraps lands before [a], so any section of [a] passes. *)
Lemma range_wraps a n st : 0 ≤ a < 2 ^ 64 → 0 ≤ n < 2 ^ 64 → 2 ^ 64 ≤ a + n → holds_byte a st → holds_range a n st = true.
Proof.
  intros Ha Hn Hw [Hb He]. rewrite /holds_range /u64 /wrap. replace (a + n) with (a + n - 2 ^ 64 + 1 * 2 ^ 64) by lia.
  rewrite Z_mod_plus_full Z.mod_small; [lia|]. apply andb_true_iff. split; [by apply Z.leb_le|apply Z.ltb_lt; lia].
Qed.
Lemma rw_range a n st : holds_rw_range a n st = true ↔ holds_range a n st = true ∧ writable st.
Proof. rewrite /holds_rw_range /writable andb_true_iff negb_true_iff. tauto. Qed.
Lemma existsb_elem (P : section → bool) l : existsb P l = true ↔ ∃ st, st ∈ l ∧ P st = true.
Proof. rewrite existsb_exists. split; intros (st & Hin%list_elem_of_In & H); by exists st. Qed.
Lemma readable_iff i a n s c : cpus (pk s) !! i = Some c → a < KSPACE_MASK →
  user_readable i a n s = Ret true s ↔ ∃ st, st ∈ cur_sections s i ∧ holds_range a n st = true.
Proof.
  intros Hc Ha. rewrite (readable_run _ _ _ _ _ Hc) (proj2 (Z.leb_gt KSPACE_MASK a) Ha) orb_false_l -existsb_elem.
  split; [by intros [= H]|by intros ->].
Qed.
Lemma writeable_iff i a n s c : cpus (pk s) !! i = Some c → a < KSPACE_MASK →
  user_writeable i a n s = Ret true s ↔ ∃ st, st ∈ cur_sections s i ∧ holds_range a n st = true ∧ writable st.
Proof.
  intros Hc Ha. rewrite (writeable_run _ _ _ _ _ Hc) (proj2 (Z.leb_gt KSPACE_MASK a) Ha) orb_false_l.
  assert (Hiff : existsb (holds_rw_range a n) (cur_sections s i) = true ↔ ∃ st, st ∈ cur_sections s i ∧ holds_range a n st = true ∧ writable st).
  { rewrite existsb_elem. by setoid_rewrite rw_range. }
  rewrite -Hiff. split; [by intros [= H]|by intros ->].
Qed.

(** C39: What the checks of user memory accept.  For an address below the kernel's and a
    size whose sum does not wrap around, [user_readable] accepts the range exactly when
    every byte from the start to start + size, the byte after the range included, belongs
    to one and the same section of the current process, and [user_writeable] exactly when
    such a section is not read-only.  So every byte of an accepted range belongs to a section of the
    process, and a range that ends with its section is refused.  Two kinds of arguments
    escape the check: every address of the kernel is accepted, whatever the size; and
    from an address in a section (not read-only, for writing) every size whose sum wraps
    around 2^64 is accepted. *)
Theorem user_ranges_checked i s c : cpus (pk s) !! i = Some c →
  (∀ a n, 0 ≤ a < KSPACE_MASK → 0 ≤ n → a + n < 2 ^ 64 →
    (user_readable i a n s = Ret true s ↔
       ∃ st, st ∈ cur_sections s i ∧ (∀ b, a ≤ b ≤ a + n → holds_byte b st)) ∧
    (user_writeable i a n s = Ret true s ↔
       ∃ st, st ∈ cur_sections s i ∧ (∀ b, a ≤ b ≤ a + n → holds_byte b st) ∧ writable st)) ∧
  (∀ a n, KSPACE_MASK ≤ a → user_readable i a n s = Ret true s ∧ user_writeable i a n s = Ret true s) ∧
  (∀ a n st, 0 ≤ a < KSPACE_MASK → 0 ≤ n < 2 ^ 64 → 2 ^ 64 ≤ a + n → st ∈ cur_sections s i → holds_byte a st →
    user_readable i a n s = Ret true s ∧ (writable st → user_writeable i a n s = Ret true s)).
Proof.
  intros Hc. split_and!.
  - intros a n Ha Hn Hw. rewrite (readable_iff _ _ _ _ _ Hc); [lia|]. rewrite (writeable_iff _ _ _ _ _ Hc); [lia|].
    setoid_rewrite range_bytes; [|lia..]. done.
  - intros a n Ha. rewrite (readable_run _ _ _ _ _ Hc) (writeable_run _ _ _ _ _ Hc). by rewrite (proj2 (Z.leb_le KSPACE_MASK a)).
  - intros a n st Ha Hn Hw Hin Hb. assert (a < 2 ^ 64) by (rewrite /KSPACE_MASK in Ha; lia).
    pose proof (range_wraps a n st ltac:(lia) Hn Hw Hb) as Hr. split.
    + apply (readable_iff _ _ _ _ _ Hc); [lia|]. by exists st.
    + intros Hrw. apply (writeable_iff _ _ _ _ _ Hc); [lia|]. by exists st.
Qed.
Definition demo_user : pstate := set_psecs {[ 400 := [(8, mkSec ST_TEXT init_sleeplock 4096 8192 None 0 0); (16, mkSec ST_HEAP init_sleeplock 8192 12288 None 0 0)] ]} demo_ps.
Lemma user_ranges_checked_witness :
  user_readable 0 4096 4095 demo_user = Ret true demo_user ∧ user_readable 0 4096 4096 demo_user = Ret false demo_user ∧
  user_writeable 0 8192 100 demo_user = Ret true demo_user ∧ user_writeable 0 8192 (2 ^ 64 - 1) demo_user = Ret true demo_user.
Proof.
  destruct (user_ranges_checked 0 demo_user (mkCpu 400 400 4 0) eq_refl) as (H1 & _ & H3).
  split; [|split; [vm_compute; reflexivity|split]].
  - apply (H1 4096 4095); [done|done|done|]. exists (mkSec ST_TEXT init_sleeplock 4096 8192 None 0 0).
    split; [left|rewrite /holds_byte; simpl; lia].
  - apply (H1 8192 100); [done|done|done|]. exists (mkSec ST_HEAP init_sleeplock 8192 12288 None 0 0).
    split; [right; left|split; [rewrite /holds_byte; simpl; lia|reflexivity]].
  - apply (H3 8192 (2 ^ 64 - 1) (mkSec ST_HEAP init_sleeplock 8192 12288 None 0 0)); try done. right; left.
Defined.

(** ** Descriptors that are not open *)
Definition out_of_range (fd : Z) : bool := (fd <? 0) || (Z.of_nat NOFILE <=? fd).
Definition not_open (x : proc) (fd : Z) : Prop := out_of_range fd = true ∨ oftable x !! Z.to_nat fd = Some None.
Lemma this_run i s c : cpus (pk s) !! i = Some c → this_proc i s = Ret (cur_proc c) s.
Proof. intros Hc. rewrite /this_proc /on_pk /zoom /thisproc /get_cpu. run_simpl. rewrite Hc. run_simpl. by destruct s. Qed.
Lemma pget_run p s x : procs (pk s) !! p = Some x → pget p s = Ret x s.
Proof. intros Hx. rewrite /pget /on_pk /zoom /get_proc. run_simpl. rewrite Hx. run_simpl. by destruct s. Qed.
Lemma fd2file_not_open i s c x fd : cpus (pk s) !! i = Some c → procs (pk s) !! cur_proc c = Some x → not_open x fd → fd2file i fd s = Ret None s.
Proof.
  intros Hc Hx H. rewrite /fd2file -/(out_of_range fd). destruct (out_of_range fd) eqn:E; [done|]. destruct H as [?|H]; [congruence|].
  erewrite bind_run; [|exact (this_run _ _ _ Hc)]. erewrite bind_run; [|exact (pget_run _ _ _ Hx)]. by rewrite H.
Qed.

(** Calls on a descriptor that is not open.  When the number is out of range or names
    nothing in the table of the current process, [dup], [read], [write], [writev] and
    [fstat] return -1, and neither the state nor the buffer changes, whatever the other
    arguments.  [close] does so only for a number out of range: a free descriptor it hands
    to [fileclose] as a null pointer, and the kernel faults. *)
Theorem calls_on_closed_descriptors i s c x fd :
  cpus (pk s) !! i = Some c → procs (pk s) !! cur_proc c = Some x → not_open x fd →
  sys_dup i fd s = Ret ERR s ∧
  (∀ w pid al b l n, sys_read w pid al i fd b l n s = Ret (Done (l, ERR)) s) ∧
  (∀ w pid ctx b l n, sys_write w pid ctx i fd b l n s = Ret (Done ERR) s) ∧
  (∀ w pid ctx iov l n, sys_writev w pid ctx i fd iov l n s = Ret (Done ERR) s) ∧
  (∀ st, sys_fstat i fd st s = Ret (ERR, None) s) ∧
  ∀ ctx, sys_close ctx i fd s = if out_of_range fd then Ret ERR s else Fault.
Proof.
  intros Hc Hx H. pose proof (fd2file_not_open i s c x fd Hc Hx H) as E.
  split_and!; intros; rewrite ?/sys_dup ?/sys_read ?/sys_write ?/sys_writev ?/sys_fstat; try (erewrite bind_run; [|exact E]; reflexivity).
  rewrite /sys_close -/(out_of_range fd). destruct (out_of_range fd) eqn:Er; [done|]. destruct H as [?|H]; [congruence|].
  erewrite bind_run; [|exact (this_run _ _ _ Hc)]. erewrite bind_run; [|exact (pget_run _ _ _ Hx)]. erewrite bind_run; [|by rewrite H]. rewrite /pupd /on_pk /zoom /upd_proc /get_proc. run_simpl. by rewrite Hx.
Qed.
Definition demo_open : pstate :=
  set_pk (set_procs {[ 400 := set_oftable (replicate NOFILE None) (demo_kproc 0 0 true RUNNING) ]} (pk demo_ps)) demo_ps.
Lemma calls_on_closed_descriptors_witness : sys_dup 0 200 demo_open = Ret ERR demo_open ∧ sys_close 7 0 200 demo_open = Ret ERR demo_open ∧ sys_close 7 0 3 demo_open = Fault.
Proof.
  destruct (calls_on_closed_descriptors 0 demo_open (mkCpu 400 400 4 0) (set_oftable (replicate NOFILE None) (demo_kproc 0 0 true RUNNING)) 200 eq_refl eq_refl (or_introl eq_refl))
    as (H1 & _ & _ & _ & _ & H2).
  destruct (calls_on_closed_descriptors 0 demo_open (mkCpu 400 400 4 0) (set_oftable (replicate NOFILE None) (demo_kproc 0 0 true RUNNING)) 3 eq_refl eq_refl (or_intror eq_refl))
    as (_ & _ & _ & _ & _ & H3).
  split; [exact H1|]. split; [exact (H2 7)|exact (H3 7)].
Defined.
