(* ===== verification/Exec.v ===== *)
(** * Loading a program, [kernel/exec.c] and [sys_execve] of [kernel/sysproc.c]

    [execve] builds a second address space beside the one of the process and replaces the
    latter at the very end.  [estate] is the state of the kernel with the new page
    directory and its list of sections, in the order of the list.

    The format of [elf.h] is a parameter, [elf_format]: the sizes of the two headers, the
    fields as functions of the bytes of a header, and the constants.  [ehdr0] and [phdr0] are what
    the buffers of the headers on the stack held, [argv0] and [envp0] the two arrays of 32
    pointers, [fresh_pd] the memory of the new [struct pgdir], [zero_page_ptr] the page of
    zeros of [kernel/mem.c].  The path and the strings of the arguments are given by their
    characters; [None] is a null pointer. *)

From stdpp Require Import base numbers list gmap.
From S2P Require Import Prelude Bitmap Spinlock Pidmap Sem Bytes Str FsDefs BlockCache Cache CacheAlloc Inode Pipe File Mem Pt Paging RBTree Cpu Sched Proc SysFile.

Record estate := mkES { eps : pstate; epd : pgdir; esecs : list (Z * section) }.
Definition set_eps v (e : estate) := mkES v (epd e) (esecs e).
Definition set_esecs v (e : estate) := mkES (eps e) (epd e) v.
Definition on_eps {X} : M pstate X → M estate X := zoom (mkLens eps set_eps).
(** A computation on the new address space, on CPU [i]. *)
Definition on_es {X} (i : nat) (m : M astate X) : M estate X := λ e,
  let s := eps e in
  match cpus (pk s) !! i with
  | Some c =>
      match m (mkAS (mkVM (km (pk s)) (epd e) (c_ttbr0 c)) (esecs e) (pfs s)) with
      | Ret a v => Ret a (mkES (set_pfs (afs v) (set_pk (set_km (mm (av v)) (set_cpus (<[i := set_c_ttbr0 (ttbr0 (av v)) c]> (cpus (pk s))) (pk s))) s))
                    (pd (av v)) (sections v))
      | Panic => Panic | Fault => Fault | Hang => Hang | Fuel => Fuel
      end
  | None => Fault
  end.
Definition in_exec {X} (fresh_pd : pgdir) (m : M estate X) : M pstate X := λ s,
  match m (mkES s fresh_pd []) with
  | Ret a e => Ret a (eps e)
  | Panic => Panic | Fault => Fault | Hang => Hang | Fuel => Fuel
  end.
Definition on_ein {X} (m : M (istate (S := cstate)) X) : M estate X := on_eps (on_in m).
Definition on_evm {X} (i : nat) (m : M vmem X) : M estate X := on_es i (on_av m).

Definition PGDIR_SIZE : Z := 40.
Definition STACK_PAGES : nat := 10.
Definition ST_STACK : Z := 1024.

(** What the read of a header leaves in its buffer. *)
Definition read_into (buf l : list Z) : list Z := l ++ drop (length l) buf.

(** [elf.h] *)
Record elf_format := mkElf {
  Ehdr_size : Z; Phdr_size : Z;
  e_ident : list Z → list Z; e_entry : list Z → Z; e_phoff : list Z → Z; e_phnum : list Z → Z;
  p_type : list Z → Z; p_flags : list Z → Z; p_offset : list Z → Z; p_vaddr : list Z → Z; p_filesz : list Z → Z; p_memsz : list Z → Z;
  ELFMAG : list Z; PT_LOAD : Z; PF_R : Z; PF_W : Z; PF_X : Z }.

Section exec.
Context (F : elf_format) (i : nat) (ctx : Z) (alerted : bool) (zero_page_ptr : Z).

(** The exits on an error, before and after the new directory is made. *)
Definition exec_put (ip : Z) : M pstate () := on_in (inode_unlock ip);; iput ctx ip;; end_op ctx.
Definition exec_bad (ip : Z) : M estate Z := on_eps (exec_put ip);; on_es i (free_pgdir ctx);; mret (-1).

(** The number of pages a range of [n] bytes touches, at most. *)
Definition pages_fuel (n : Z) : nat := S (S (Z.to_nat (n / PAGE_SIZE))).
(** The bytes of the file, page by page; the address after them, or nothing when a read
    falls short. *)
Fixpoint load_pages (fuel : nat) (ip section_flag va off file_sz : Z) : M estate (option Z) :=
  if 0 <? file_sz then
    match fuel with
    | O => nofuel
    | S fuel =>
        let va0 := PAGE_BASE va in
        let sz := Z.min (PAGE_SIZE - (va - va0)) file_sz in
        dest ← on_evm i (on_mm kalloc_page);
        on_evm i (zero_page dest);;
        on_evm i (vmmap va0 dest (if section_flag =? ST_TEXT then Z.lor PTE_USER_DATA PTE_RO else PTE_USER_DATA));;
        '(n, l) ← on_ein (inode_read alerted ip off sz);
        on_evm i (store_bytes (dest + (va - va0)) l);;
        if negb (n =? sz) then mret None
        else load_pages fuel ip section_flag (u64 (va + sz)) (u64 (off + sz)) (file_sz - sz)
    end
  else mret (Some va).
Fixpoint map_zero (fuel : nat) (va file_sz : Z) : M estate () :=
  if 0 <? file_sz then
    match fuel with
    | O => nofuel
    | S fuel =>
        let va0 := PAGE_BASE va in
        let sz := Z.min (PAGE_SIZE - (va - va0)) file_sz in
        on_evm i (vmmap va0 zero_page_ptr (Z.lor PTE_USER_DATA PTE_RO));;
        map_zero fuel (u64 (va + sz)) (file_sz - sz)
    end
  else mret ().

Definition add_section (flags b e : Z) : M estate () :=
  a ← on_evm i (on_mm (kalloc SECTION_SIZE));
  modify (λ s, set_esecs ((a, mkSec flags init_sleeplock b e None 0 0) :: esecs s) s).

(** The flag and the end of the section of a program header. *)
Definition section_kind (ph : list Z) : option (Z * Z) :=
  if p_flags F ph =? Z.lor (PF_R F) (PF_X F) then Some (ST_TEXT, u64 (p_vaddr F ph + p_filesz F ph))
  else if p_flags F ph =? Z.lor (PF_R F) (PF_W F) then Some (ST_FILE, u64 (p_vaddr F ph + p_memsz F ph))
  else None.
Definition load_segment (ip : Z) (ph : list Z) (max_end : Z) : M estate (option Z) :=
  match section_kind ph with
  | None => mret None
  | Some (section_flag, end_) =>
      add_section section_flag (p_vaddr F ph) end_;;
      let max_end := if max_end <? end_ then end_ else max_end in
      o ← load_pages (pages_fuel (p_filesz F ph)) ip section_flag (p_vaddr F ph) (p_offset F ph) (p_filesz F ph);
      match o with
      | None => mret None
      | Some va =>
          let va := if negb (va =? PAGE_BASE va) then u64 (PAGE_BASE va + PAGE_SIZE) else va in
          (if (section_flag =? ST_FILE) && (u64 (va - p_vaddr F ph) <? p_memsz F ph) then
             let file_sz := p_memsz F ph - u64 (va - p_vaddr F ph) in map_zero (pages_fuel file_sz) va file_sz
           else mret ());;
          mret (Some max_end)
      end
  end.
(** The loop over the program headers, [n] of them left; the end of the highest section. *)
Fixpoint load_segments (n : nat) (ip : Z) (phdr : list Z) (ph_off max_end : Z) : M estate (option Z) :=
  match n with
  | O => mret (Some max_end)
  | S n =>
      '(k, l) ← on_ein (inode_read alerted ip ph_off (Phdr_size F));
      if k <? Phdr_size F then mret None
      else
        let ph := read_into phdr l in
        if negb (p_type F ph =? PT_LOAD F) then load_segments n ip ph (u64 (ph_off + Phdr_size F)) max_end
        else
          o ← load_segment ip ph max_end;
          match o with
          | None => mret None
          | Some max_end => load_segments n ip ph (u64 (ph_off + Phdr_size F)) max_end
          end
  end.

(** ** The stack *)
Fixpoint map_stack (n : nat) (sp k : Z) : M estate () :=
  match n with
  | O => mret ()
  | S n =>
      p ← on_evm i (on_mm kalloc_page);
      on_evm i (zero_page p);;
      on_evm i (vmmap (u64 (sp - k * PAGE_SIZE)) p PTE_USER_DATA);;
      map_stack n sp (k + 1)
  end.
Definition put_bytes (sp : Z) (l : list Z) : M estate () := _ ← on_evm i (copyout sp l (Z.of_nat (length l))); mret ().

(** Where a string of [n] characters goes below [sp]. *)
Definition string_at (sp : Z) (n : nat) : Z := let sp := u64 (sp - (Z.of_nat n + 1)) in u64 (sp - sp mod 8).
(** The strings from the last to the first; [k] are left, and [arr] takes their addresses. *)
Fixpoint push_strings (k : nat) (strs : list (list Z)) (sp : Z) (arr : list Z) : M estate (Z * list Z) :=
  match k with
  | O => mret (sp, arr)
  | S k =>
      str ← of_opt (strs !! k);
      let sp := string_at sp (length str) in
      put_bytes sp (str ++ [0]);;
      _ ← of_opt (arr !! k);
      push_strings k strs sp (<[k := sp]> arr)
  end.
(** One vector of strings: the stack pointer, the array with its terminator. *)
Definition push_vector (o : option (list (list Z))) (sp : Z) (arr : list Z) : M estate (Z * list Z) :=
  let strs := default [] o in
  '(sp, arr) ← push_strings (length strs) strs sp arr;
  _ ← of_opt (arr !! length strs);
  mret (sp, <[length strs := 0]> arr).

Definition set_reserved (k : nat) (v : Z) (x : proc) : proc :=
  let u := ucontext x in set_ucontext (mkUC (q0 u) (spsr u) (elr u) (sp u) (tpidr0 u) (<[k := v]> (reserved u))) x.
Definition set_start (v pc : Z) (x : proc) : proc :=
  let u := ucontext x in set_ucontext (mkUC (q0 u) (spsr u) pc v (tpidr0 u) (reserved u)) x.

(** The arguments on the stack; the final stack pointer. *)
Definition push_args (this sp : Z) (argv envp : option (list (list Z))) (argv0 envp0 : list Z) : M estate Z :=
  let sp := u64 (sp - 16) in
  put_bytes sp (replicate 8 0);;
  '(sp, envp_p) ← push_vector envp sp envp0;
  let sp := u64 (sp - 8) in
  put_bytes sp (replicate 8 0);;
  '(sp, argv_p) ← push_vector argv sp argv0;
  let argc := length (default [] argv) in
  on_eps (pupd this (set_reserved 0 (Z.of_nat argc)));;
  let sp := u64 (sp - Z.of_nat (argc + 1) * 8) in
  put_bytes sp (unwords 8 (take (argc + 1) envp_p));;
  let sp := u64 (sp - Z.of_nat (argc + 1) * 8) in
  on_eps (pupd this (set_reserved 1 sp));;
  put_bytes sp (unwords 8 (take (argc + 1) argv_p));;
  let sp := u64 (sp - 8) in
  put_bytes sp (le_bytes 8 (Z.of_nat argc));;
  mret sp.

(** The change to the new address space; [a] is the block of the new directory. *)
Definition switch_space (this a sp entry : Z) : M estate () :=
  on_eps (on_space i this (free_pgdir ctx));;
  on_eps (pupd this (set_start sp entry));;
  e ← get;
  on_eps (pupd this (set_pgdir (epd e)));;
  on_eps (modify (λ s, set_psecs (<[this := esecs e]> (psecs s)) s));;
  on_eps (on_km (kfree a));;
  ipt ← on_eps (gets (λ s, invalid_pt (pk s)));
  on_eps (on_space i this (on_av (attach_pgdir ipt))).

(** From the new directory on. *)
Definition exec_image (ip : Z) (eh phdr : list Z) (argv envp : option (list (list Z))) (argv0 envp0 : list Z) : M estate Z :=
  a ← on_eps (on_km (kalloc PGDIR_SIZE));
  on_es i init_space;;
  o ← load_segments (Z.to_nat (e_phnum F eh)) ip phdr (e_phoff F eh) 0;
  match o with
  | None => exec_bad ip
  | Some max_end =>
      on_eps (exec_put ip);;
      let sp := u64 (PAGE_BASE max_end + PAGE_SIZE + Z.of_nat STACK_PAGES * PAGE_SIZE) in
      map_stack STACK_PAGES sp 1;;
      add_section ST_STACK (u64 (sp - Z.of_nat STACK_PAGES * PAGE_SIZE)) sp;;
      this ← on_eps (this_proc i);
      sp ← push_args this sp argv envp argv0 envp0;
      switch_space this a sp (e_entry F eh);;
      mret 0
  end.
Definition execve (garbage ehdr0 phdr0 argv0 envp0 : list Z) (fresh_pd : pgdir) (path : list Z) (argv envp : option (list (list Z))) : M pstate Z :=
  begin_op ctx;;
  o ← in_cwd i (namei sblock garbage path (Some ctx));
  match o with
  | None => end_op ctx;; mret (-1)
  | Some ip =>
      on_in (inode_lock ip);;
      '(n, l) ← on_in (inode_read alerted ip 0 (Ehdr_size F));
      if n <? Ehdr_size F then exec_put ip;; mret (-1)
      else
        let eh := read_into ehdr0 l in
        assert_ (bool_decide (strn 4 (e_ident F eh) = strn 4 (ELFMAG F)));;
        in_exec fresh_pd (exec_image ip eh phdr0 argv envp argv0 envp0)
  end.
Definition sys_execve (garbage ehdr0 phdr0 argv0 envp0 : list Z) (fresh_pd : pgdir) (p : ustring) (argv envp : option (list (list Z))) : M pstate Z :=
  n ← user_strlen i p 256;
  if n =? 0 then mret ERR
  else r ← execve garbage ehdr0 phdr0 argv0 envp0 fresh_pd (us_chars p) argv envp; mret (u64 r).
End exec.
