(* ===== verification/SysFd.v ===== *)
(** * Descriptors

    Over every sequence of the system calls on files, a descriptor names an open file and
    the references of a file are the descriptors that name it. *)

From stdpp Require Import base numbers list gmap relations.
From S2P Require Import Prelude Bitmap Spinlock Pidmap Sem Bytes FsDefs BlockCache Cache CacheAlloc Inode InodeRead Pipe File Mem Pt Paging RBTree Cpu Sched Proc ProcTree ProcSteps SysFile.

(** ** What is observed: references and types of the files, and the descriptors *)
Definition fref (x : File) : Z * fd_type := (f_ref x, f_type x).
Definition fsobs (s : fstate) : list (Z * fd_type) := fref <$> files s.
Definition refs (s : pstate) : list (Z * fd_type) := fsobs (pfs s).
Definition descs (s : pstate) : gmap Z (list (option nat)) := oftable <$> procs (pk s).
Definition dobs (s : pstate) := (refs s, descs s).

Section keeps.
Lemma dk_pfs {X} (m : M fstate X) : keeps fsobs m → keeps dobs (on_pfs m).
Proof. apply keeps_zoom_in. intros v s. rewrite /dobs /refs /descs /=. by intros ->. Qed.
Lemma dk_in {X} (m : M (istate (S := cstate)) X) : keeps dobs (on_in m).
Proof. apply dk_pfs. intros s a s'. rewrite /on_inodes. destruct (m (inodes s)); [|done..]. by intros [= _ <-]. Qed.
Lemma dk_on_pipe {X} p (m : M Pipe X) : keeps fsobs (on_pipe p m).
Proof. intros s a s'. rewrite /on_pipe. destruct (pipes s !! p); [|done]. destruct (m p0); [|done..]. by intros [= _ <-]. Qed.
Lemma dk_on_inodes {X} (m : M (istate (S := cstate)) X) : keeps fsobs (on_inodes m).
Proof. intros s a s'. rewrite /on_inodes. destruct (m (inodes s)); [|done..]. by intros [= _ <-]. Qed.
Lemma dk_fget f : keeps fsobs (fget f).
Proof. rewrite /fget. keeps_solve. Qed.
Lemma dk_fupd f g : (∀ x, fref (g x) = fref x) → keeps fsobs (fupd f g).
Proof.
  intros Hg s a s'. rewrite /fupd. run_simpl. destruct (files s !! f) as [x|] eqn:Ex; [|done]. intros [= _ <-]. rewrite /fsobs /=.
  rewrite list_fmap_insert Hg list_insert_id // list_lookup_fmap Ex //.
Qed.
Lemma dk_get_proc p : keeps dobs (pget p).
Proof. intros s x s' [_ ->]%pget_inv. done. Qed.
Lemma dk_this i : keeps dobs (this_proc i).
Proof. intros s x s' [_ ->]%thisproc_inv. done. Qed.
End keeps.
#[export] Hint Resolve dk_in dk_on_pipe dk_on_inodes dk_fget dk_get_proc dk_this : keeps.
#[export] Hint Extern 2 (keeps fsobs (fupd _ _)) => apply dk_fupd; reflexivity : keeps.
#[export] Hint Extern 3 (keeps dobs (on_pfs _)) => apply dk_pfs; keeps_solve : keeps.

Lemma dk_readable i a n : keeps dobs (user_readable i a n).
Proof. rewrite /user_readable /sections_of. keeps_solve. Qed.
Lemma dk_writeable i a n : keeps dobs (user_writeable i a n).
Proof. rewrite /user_writeable /sections_of. keeps_solve. Qed.
#[export] Hint Resolve dk_readable dk_writeable : keeps.
Lemma dk_strlen i str n : ∀ k, keeps dobs (user_strlen_loop n i str k).
Proof. induction n as [|n IH]; intros k; cbn [user_strlen_loop]; keeps_solve. Qed.
Lemma dk_user_strlen i str n : keeps dobs (user_strlen i str n).
Proof. apply dk_strlen. Qed.
Lemma dk_cwd {X} i (m : M (istate (S := cstate)) X) : keeps dobs (in_cwd i m).
Proof. rewrite /in_cwd. keeps_solve. Qed.
Lemma dk_begin ctx : keeps dobs (begin_op ctx).
Proof. apply dk_in. Qed.
Lemma dk_end ctx : keeps dobs (end_op ctx).
Proof. rewrite /end_op. keeps_solve. Qed.
Lemma dk_put ctx ip : keeps dobs (iput ctx ip).
Proof. apply dk_in. Qed.
Lemma dk_fd2file i fd : keeps dobs (fd2file i fd).
Proof. rewrite /fd2file. keeps_solve. Qed.
#[export] Hint Resolve dk_user_strlen dk_cwd dk_begin dk_end dk_put dk_fd2file : keeps.
Lemma dk_create i p t a b ctx : keeps dobs (create i p t a b ctx).
Proof. rewrite /create. keeps_solve. Qed.
#[export] Hint Resolve dk_create : keeps.
Lemma dk_create_put i p t a b ctx : keeps dobs (create_put i p t a b ctx).
Proof. rewrite /create_put. keeps_solve. Qed.
#[export] Hint Resolve dk_create_put : keeps.
Lemma dk_copy_out d l : keeps fsobs (copy_out d l).
Proof. rewrite /copy_out. keeps_solve. Qed.
#[export] Hint Resolve dk_copy_out : keeps.
Lemma dk_fileread w pid al f d n : keeps fsobs (fileread w pid al f d n).
Proof. rewrite /fileread. keeps_solve. Qed.
Lemma dk_filewrite_loop ctx f src n fuel : ∀ k, keeps fsobs (filewrite_loop fuel ctx f src n k).
Proof. induction fuel as [|fuel IH]; intros k; cbn [filewrite_loop]; keeps_solve. Qed.
#[export] Hint Resolve dk_filewrite_loop : keeps.
Lemma dk_filewrite w pid ctx f src n : keeps fsobs (filewrite w pid ctx f src n).
Proof. rewrite /filewrite. keeps_solve. Qed.
Lemma dk_filestat f : keeps fsobs (filestat f).
Proof. rewrite /filestat. keeps_solve. Qed.
#[export] Hint Resolve dk_fileread dk_filewrite dk_filestat : keeps.
Lemma dk_writev w pid ctx i f l : ∀ tot, keeps dobs (writev_loop w pid ctx i f l tot).
Proof. induction l as [|p l IH]; intros tot; cbn [writev_loop]; keeps_solve. Qed.
#[export] Hint Resolve dk_writev : keeps.

(** The calls that neither open nor close anything. *)
Lemma dk_sys_read w pid al i fd b l n : keeps dobs (sys_read w pid al i fd b l n).
Proof. rewrite /sys_read. keeps_solve. Qed.
Lemma dk_sys_write w pid ctx i fd b l n : keeps dobs (sys_write w pid ctx i fd b l n).
Proof. rewrite /sys_write. keeps_solve. Qed.
Lemma dk_sys_writev w pid ctx i fd v l n : keeps dobs (sys_writev w pid ctx i fd v l n).
Proof. rewrite /sys_writev. keeps_solve. Qed.
Lemma dk_sys_fstat i fd st : keeps dobs (sys_fstat i fd st).
Proof. rewrite /sys_fstat. keeps_solve. Qed.
Lemma dk_sys_mkdirat at_ ctx i d p m : keeps dobs (sys_mkdirat at_ ctx i d p m).
Proof. rewrite /sys_mkdirat. keeps_solve. Qed.
Lemma dk_sys_mknodat at_ ctx i d p a b : keeps dobs (sys_mknodat at_ ctx i d p a b).
Proof. rewrite /sys_mknodat. keeps_solve. Qed.
Lemma dk_sys_unlinkat at_ g ctx i d p f : keeps dobs (sys_unlinkat at_ g ctx i d p f).
Proof. rewrite /sys_unlinkat /unlink_bad. keeps_solve. Qed.
Lemma dk_sys_newfstatat at_ g ctx i d p st f : keeps dobs (sys_newfstatat at_ g ctx i d p st f).
Proof. rewrite /sys_newfstatat. keeps_solve. Qed.
Lemma dk_set_cwd p v : keeps dobs (pupd p (set_cwd v)).
Proof.
  intros s u s'. rewrite /pupd /on_pk /zoom /=. destruct (upd_proc p _ (pk s)) as [? k'| | | |] eqn:E; [|done..]. intros [= _ <-].
  apply upd_proc_inv in E as (x & Hx & ->). rewrite /dobs /refs /descs /=. rewrite fmap_insert /= insert_id //. rewrite lookup_fmap Hx //.
Qed.
#[export] Hint Resolve dk_set_cwd : keeps.
Lemma dk_sys_chdir g ctx i p : keeps dobs (sys_chdir g ctx i p).
Proof. rewrite /sys_chdir. keeps_solve. Qed.

(** ** Counting descriptors *)
Definition cnt (f : nat) (l : list (option nat)) : nat := length (filter (λ o, o = Some f) l).
Definition named (f : nat) (D : gmap Z (list (option nat))) : nat := map_fold (λ _ l n, (cnt f l + n)%nat) 0%nat D.

Lemma named_fresh f p l D : D !! p = None → named f (<[p := l]> D) = (cnt f l + named f D)%nat.
Proof. intros H. rewrite /named map_fold_insert_L //. intros. lia. Qed.
Lemma named_insert f p l l' D : D !! p = Some l → (named f (<[p := l']> D) + cnt f l = named f D + cnt f l')%nat.
Proof.
  intros H. assert (E : named f D = (cnt f l + named f (delete p D))%nat).
  { rewrite -{1}(insert_delete_id D p l H). apply named_fresh, lookup_delete_eq. }
  rewrite E -(insert_delete_eq D p l') named_fresh ?lookup_delete_eq //. lia.
Qed.
Lemma cnt_insert f k o o' l : l !! k = Some o →
  (cnt f (<[k := o']> l) + (if decide (o = Some f) then 1 else 0) = cnt f l + (if decide (o' = Some f) then 1 else 0))%nat.
Proof.
  revert k. induction l as [|a l IH]; intros [|k]; [done..| |]; rewrite /cnt.
  - intros [= ->]. simpl. rewrite !filter_cons. repeat case_decide; simplify_eq; simpl; first [lia|congruence].
  - intros H. specialize (IH k H). rewrite /cnt in IH. simpl. rewrite !filter_cons. repeat case_decide; simpl in *; first [lia|congruence].
Qed.
Lemma named_pos f p l k D : D !! p = Some l → l !! k = Some (Some f) → (0 < named f D)%nat.
Proof.
  intros H Hk. pose proof (named_insert f p l [] D H) as Hn. change (cnt f []) with 0%nat in Hn. enough (0 < cnt f l)%nat by lia.
  rewrite /cnt. destruct (filter _ l) eqn:E; [|simpl; lia]. exfalso. assert (Some f ∈ filter (λ o, o = Some f) l) as Hin by (apply list_elem_of_filter; split; [done|by apply list_elem_of_lookup_2 with k]).
  rewrite E in Hin. by apply elem_of_nil in Hin.
Qed.
Lemma cnt_length f l : (cnt f l ≤ length l)%nat.
Proof. apply length_filter. Qed.
Lemma named_bound f n D : map_Forall (λ _ l, length l = n) D → (named f D ≤ n * size D)%nat.
Proof.
  rewrite /named. revert D. apply (map_ind (λ D, map_Forall (λ _ l, length l = n) D → (_ ≤ n * size D)%nat)).
  - intros _. rewrite map_fold_empty. lia.
  - intros p l D Hp IH H. rewrite map_Forall_insert // in H. destruct H as [Hl H]. rewrite map_fold_insert_L //; [intros; lia|].
    rewrite map_size_insert_None //. specialize (IH H). pose proof (cnt_length f l). lia.
Qed.

(** Every descriptor names a file that is open, and a file has as many references as
    descriptors name it, and one more when it is in [L]: the files no descriptor names
    that still have the reference [filealloc] gave them.  [X] are the files whose type is
    still to be set. *)
Definition lost (L : gset nat) (f : nat) : Z := if decide (f ∈ L) then 1 else 0.
Record fd_ok (L : gset nat) (R : list (Z * fd_type)) (D : gmap Z (list (option nat))) (X : nat → Prop) : Prop := {
  fo_len : map_Forall (λ _ l, length l = NOFILE) D;
  fo_small : Z.of_nat (128 * size D) < 2 ^ 31;
  fo_dom f : (0 < named f D)%nat → is_Some (R !! f);
  fo_ref f r t : R !! f = Some (r, t) → r = Z.of_nat (named f D) + lost L f;
  fo_lost f : f ∈ L → named f D = 0%nat;
  fo_type f r t : R !! f = Some (r, t) → (0 < named f D)%nat → t = FD_NONE → X f }.
Definition fd_inv (L : gset nat) (s : pstate) : Prop := fd_ok L (refs s) (descs s) (λ _, False).
Lemma lost_in L f : f ∈ L → lost L f = 1.
Proof. intros H. by rewrite /lost decide_True. Qed.
Lemma lost_out L f : f ∉ L → lost L f = 0.
Proof. intros H. by rewrite /lost decide_False. Qed.

Lemma dobs_inv {L} s s' : dobs s' = dobs s → fd_inv L s → fd_inv L s'.
Proof. rewrite /dobs /fd_inv. by intros [= -> ->]. Qed.

(** ** What the calls on files and descriptors do *)
Lemma filealloc_view s o s' : filealloc s = Ret o s' →
  match o with
  | Some f => ∃ t, fsobs s !! f = Some (0, t) ∧ fsobs s' = <[f := (1, t)]> (fsobs s)
  | None => fsobs s' = fsobs s
  end.
Proof.
  intros H. peel H u s1 H1. apply acquire_inv in H1 as ->. peel H l s2 H2. injection H2 as <- <-. pose proof (find_free_spec (files s)) as Hf.
  change (files (lset ftable_lock true s)) with (files s) in H. destruct (find_free (files s)) as [f|].
  - destruct Hf as (x & Hx & Hr & _). peel H u1 s1 H1. rewrite (fupd_run f _ x (lset ftable_lock true s) Hx) in H1. injection H1 as _ <-.
    peel H u2 s2 H2. rewrite release_run in H2. injection H2 as _ <-. injection H as <- <-. exists (f_type x). rewrite /fsobs list_lookup_fmap Hx /=.
    split; [by rewrite /fref Hr|]. by rewrite list_fmap_insert.
  - peel H u2 s2 H2. rewrite release_run in H2. injection H2 as _ <-. by injection H as <- <-.
Qed.
Lemma filedup_view f s g s' : filedup f s = Ret g s' → g = f ∧ ∃ r t, fsobs s !! f = Some (r, t) ∧ fsobs s' = <[f := (i32 (r + 1), t)]> (fsobs s).
Proof.
  intros H. peel H u s1 H1. apply acquire_inv in H1 as ->. peel H x s2 H2. revert H2. rewrite /fget. run_simpl. destruct (files s !! f) as [y|] eqn:Ey; [|done].
  intros [= <- <-]. peel H u1 s1 H1. rewrite (fupd_run f _ y (lset ftable_lock true s) Ey) in H1. injection H1 as _ <-.
  peel H u2 s2 H2. rewrite release_run in H2. injection H2 as _ <-. injection H as <- <-. split; [done|]. exists (f_ref y), (f_type y). rewrite /fsobs list_lookup_fmap Ey. split; [done|].
  by rewrite /= list_fmap_insert.
Qed.
Lemma dk_release : keeps fsobs (release_spinlock ftable_lock).
Proof. by apply keeps_release. Qed.
Lemma dk_put_in_op ctx ip : keeps fsobs (put_in_op ctx ip).
Proof. rewrite /put_in_op. keeps_solve. Qed.
Lemma dk_pipe_close p v : keeps fsobs (file_pipeClose p v).
Proof. rewrite /file_pipeClose. keeps_solve. done. Qed.
#[export] Hint Resolve dk_release dk_put_in_op dk_pipe_close : keeps.
Lemma fileclose_view ctx f s u s' : fileclose ctx f s = Ret u s' →
  ∃ r t, fsobs s !! f = Some (r, t) ∧ fsobs s' = <[f := if i32 (r - 1) <=? 0 then (0, FD_NONE) else (i32 (r - 1), t)]> (fsobs s).
Proof.
  intros H. peel H x s1 H1. revert H1. rewrite /fget. run_simpl. destruct (files s !! f) as [y|] eqn:Ey; [|done]. intros [= <- <-].
  peel H u1 s1 H1. apply assert_inv in H1 as [_ ->]. peel H u2 s2 H2. apply acquire_inv in H2 as ->.
  peel H u3 s3 H3. rewrite (fupd_run f _ y (lset ftable_lock true s) Ey) in H3. injection H3 as _ <-. set (s3 := set_files _ _) in H.
  pose proof (lookup_lt_Some _ _ _ Ey) as Hlt. assert (E3 : files s3 !! f = Some (set_f_ref (i32 (f_ref y - 1)) y)) by (by apply list_lookup_insert_eq).
  peel H t s4 H4. rewrite (fget_run f _ s3 E3) in H4. injection H4 as <- <-. cbn [f_ref f_type f_ip set_f_ref] in H.
  exists (f_ref y), (f_type y). rewrite /fsobs list_lookup_fmap Ey. split; [done|]. change (fref <$> files s') with (fsobs s').
  peel H u5 s5 H5. rewrite release_run in H. injection H as _ <-. trans (fsobs s5); [done|].
  destruct (i32 (f_ref y - 1) <=? 0).
  - peel H5 u6 s6 H6. rewrite (fupd_run f _ _ s3 E3) in H6. injection H6 as _ <-. set (s6 := set_files _ s3) in H5.
    assert (E6 : files s6 !! f = Some (set_f_ref 0 (set_f_ref (i32 (f_ref y - 1)) y))) by (apply list_lookup_insert_eq; by rewrite length_insert).
    peel H5 u7 s7 H7. rewrite (fupd_run f _ _ s6 E6) in H7. injection H7 as _ <-. set (s7 := set_files _ s6) in H5.
    rest_keeps H5. rewrite /s7 /s6 /s3 /fsobs /=. by rewrite !list_insert_insert_eq list_fmap_insert.
  - injection H5 as _ <-. by rewrite /fsobs /s3 /= list_fmap_insert.
Qed.

(** ** The changes keep the invariant *)
Section changes.
Context {L : gset nat} {R : list (Z * fd_type)} {D : gmap Z (list (option nat))} {X : nat → Prop} (I : fd_ok L R D X).

Lemma named_put p l k o o' g : D !! p = Some l → l !! k = Some o →
  (named g (<[p := <[k := o']> l]> D) + (if decide (o = Some g) then 1 else 0) = named g D + (if decide (o' = Some g) then 1 else 0))%nat.
Proof. intros Hp Hk. pose proof (named_insert g p l (<[k := o']> l) D Hp). pose proof (cnt_insert g k o o' l Hk). lia. Qed.
Lemma put_shape p l k o' : D !! p = Some l →
  map_Forall (λ _ l, length l = NOFILE) (<[p := <[k := o']> l]> D) ∧ Z.of_nat (128 * size (<[p := <[k := o']> l]> D)) < 2 ^ 31.
Proof.
  intros Hp. split.
  - apply map_Forall_insert_2; [rewrite length_insert; apply (fo_len _ _ _ _ I p l Hp)|apply (fo_len _ _ _ _ I)].
  - rewrite map_size_insert_Some; [exact (ex_intro _ l Hp)|]. apply (fo_small _ _ _ _ I).
Qed.
(** The types that are still to be set do not matter for a file that is not named. *)
Lemma ref_ok L' f v : (∀ g, g ≠ f → g ∈ L' ↔ g ∈ L) → (f ∈ L' → named f D = 0%nat) → fst v = Z.of_nat (named f D) + lost L' f →
  ((0 < named f D)%nat → snd v = FD_NONE → X f) → fd_ok L' (<[f := v]> R) D X.
Proof.
  intros HL Hl Hr Ht. split; try apply I.
  - intros g Hg. destruct (fo_dom _ _ _ _ I g Hg) as [y Hy]. apply lookup_lt_is_Some. rewrite length_insert. exact (lookup_lt_Some _ _ _ Hy).
  - intros g r t Hg. destruct (decide (g = f)) as [->|Hne].
    + apply list_lookup_insert_Some in Hg as [(_ & -> & _)|[]]; [exact Hr|done].
    + rewrite list_lookup_insert_ne in Hg; [congruence|]. rewrite (fo_ref _ _ _ _ I g r t Hg) /lost. do 2 case_decide; try done; exfalso; specialize (HL g Hne); tauto.
  - intros g Hg. destruct (decide (g = f)) as [->|Hne]; [by apply Hl|]. by apply (fo_lost _ _ _ _ I g), HL.
  - intros g r t Hg. destruct (decide (g = f)) as [->|Hne].
    + apply list_lookup_insert_Some in Hg as [(_ & -> & _)|[]]; [exact Ht|done].
    + rewrite list_lookup_insert_ne in Hg; [congruence|]. by apply (fo_type _ _ _ _ I g r t).
Qed.
Lemma alloc_ok f t : R !! f = Some (0, t) → fd_ok ({[ f ]} ∪ L) (<[f := (1, t)]> R) D X ∧ f ∉ L.
Proof.
  intros Hf. pose proof (fo_ref _ _ _ _ I f 0 t Hf) as Hr. rewrite /lost in Hr. case_decide as HL; [lia|]. split; [|done].
  assert (Hn : named f D = 0%nat) by lia. apply ref_ok; simpl; [set_solver|done|rewrite lost_in; [set_solver|lia]|lia].
Qed.
Lemma open_ok p l k f t : D !! p = Some l → l !! k = Some None → R !! f = Some (1, t) → f ∈ L →
  fd_ok (L ∖ {[ f ]}) R (<[p := <[k := Some f]> l]> D) (λ g, X g ∨ g = f).
Proof.
  intros Hp Hk Hf HfL. destruct (put_shape p l k (Some f) Hp) as [S1 S2]. pose proof (fo_lost _ _ _ _ I f HfL) as Hn.
  assert (E : ∀ g, named g (<[p := <[k := Some f]> l]> D) = (named g D + (if decide (g = f) then 1 else 0))%nat).
  { intros g. pose proof (named_put p l k None (Some f) g Hp Hk) as En. repeat case_decide; simplify_eq; lia. }
  split; [done|done| | | |].
  - intros g. rewrite E. case_decide as Eg; [subst g; eauto|]. intros. apply (fo_dom _ _ _ _ I). lia.
  - intros g r u Hg. rewrite E. case_decide as Eg.
    + subst g. assert (r = 1) as -> by congruence. rewrite lost_out; [set_solver|lia].
    + rewrite Nat.add_0_r (fo_ref _ _ _ _ I g r u Hg) /lost. do 2 case_decide; set_solver.
  - intros g [Hg Hne]%elem_of_difference. rewrite E decide_False; [set_solver|]. rewrite (fo_lost _ _ _ _ I g Hg). done.
  - intros g r u Hg. rewrite E. case_decide as Eg; [by right|]. rewrite Nat.add_0_r. left. by apply (fo_type _ _ _ _ I g r u).
Qed.
Lemma not_lost f : (0 < named f D)%nat → f ∉ L.
Proof. intros Hf Hin. rewrite (fo_lost _ _ _ _ I f Hin) in Hf. lia. Qed.
Lemma dup_ok p l k f r t : D !! p = Some l → l !! k = Some None → R !! f = Some (r, t) → (0 < named f D)%nat →
  fd_ok L (<[f := (i32 (r + 1), t)]> R) (<[p := <[k := Some f]> l]> D) X.
Proof.
  intros Hp Hk Hf Hpos. destruct (put_shape p l k (Some f) Hp) as [S1 S2]. set (D' := <[p := _]> D) in *.
  assert (E : ∀ g, named g D' = (named g D + (if decide (g = f) then 1 else 0))%nat).
  { intros g. pose proof (named_put p l k None (Some f) g Hp Hk) as En. fold D' in En. repeat case_decide; simplify_eq; lia. }
  pose proof (fo_ref _ _ _ _ I f r t Hf) as Hr. rewrite (lost_out _ _ (not_lost f Hpos)) in Hr.
  assert (Hb : Z.of_nat (named f D') < 2 ^ 31) by (pose proof (named_bound f NOFILE D' S1) as Hb; rewrite /NOFILE in Hb; lia).
  rewrite E decide_True // in Hb. rewrite i32_small; [lia|]. pose proof (lookup_lt_Some _ _ _ Hf) as Hlt.
  split; [done|done| | | |].
  - intros g. rewrite E. intros Hg. apply lookup_lt_is_Some. rewrite length_insert. case_decide as Eg; [by subst|].
    destruct (fo_dom _ _ _ _ I g) as [y Hy]; [lia|]. exact (lookup_lt_Some _ _ _ Hy).
  - intros g r' u Hg. rewrite E. case_decide as Eg.
    + subst g. rewrite list_lookup_insert_eq // in Hg. injection Hg as <- <-. rewrite (lost_out _ _ (not_lost f Hpos)). lia.
    + rewrite list_lookup_insert_ne in Hg; [congruence|]. rewrite Nat.add_0_r. by apply (fo_ref _ _ _ _ I g r' u).
  - intros g Hg. pose proof (fo_lost _ _ _ _ I g Hg) as H0. rewrite E decide_False; [intros ->; lia|lia].
  - intros g r' u Hg. rewrite E. case_decide as Eg.
    + subst g. rewrite list_lookup_insert_eq // in Hg. injection Hg as <- <-. intros _ ->. by apply (fo_type _ _ _ _ I f r FD_NONE).
    + rewrite list_lookup_insert_ne in Hg; [congruence|]. rewrite Nat.add_0_r. by apply (fo_type _ _ _ _ I g r' u).
Qed.
Lemma close_ok p l k f r t : D !! p = Some l → l !! k = Some (Some f) → R !! f = Some (r, t) →
  fd_ok L (<[f := if i32 (r - 1) <=? 0 then (0, FD_NONE) else (i32 (r - 1), t)]> R) (<[p := <[k := None]> l]> D) X.
Proof.
  intros Hp Hk Hf. destruct (put_shape p l k None Hp) as [S1 S2]. set (D' := <[p := _]> D) in *. pose proof (named_pos f p l k D Hp Hk) as Hpos.
  assert (E : ∀ g, (named g D' + (if decide (g = f) then 1 else 0) = named g D)%nat).
  { intros g. pose proof (named_put p l k (Some f) None g Hp Hk) as En. fold D' in En. repeat case_decide; simplify_eq; lia. }
  pose proof (fo_ref _ _ _ _ I f r t Hf) as Hr. rewrite (lost_out _ _ (not_lost f Hpos)) in Hr. pose proof (E f) as Ef. rewrite decide_True // in Ef.
  pose proof (named_bound f NOFILE D (fo_len _ _ _ _ I)) as Hb. pose proof (fo_small _ _ _ _ I) as Hs. rewrite /NOFILE in Hb.
  rewrite i32_small; [lia|]. pose proof (lookup_lt_Some _ _ _ Hf) as Hlt. split; [done|done| | | |].
  - intros g Hg. pose proof (E g) as Eg. apply lookup_lt_is_Some. rewrite length_insert. destruct (fo_dom _ _ _ _ I g) as [y Hy]; [lia|]. exact (lookup_lt_Some _ _ _ Hy).
  - intros g r' u Hg. pose proof (E g) as Eg. case_decide as Egf.
    + subst g. rewrite list_lookup_insert_eq // in Hg. rewrite (lost_out _ _ (not_lost f Hpos)). destruct (Z.leb_spec (r - 1) 0); injection Hg as <- <-; lia.
    + rewrite list_lookup_insert_ne in Hg; [congruence|]. rewrite Nat.add_0_r in Eg. rewrite Eg. by apply (fo_ref _ _ _ _ I g r' u).
  - intros g Hg. pose proof (fo_lost _ _ _ _ I g Hg) as H0. pose proof (E g). lia.
  - intros g r' u Hg Hg0. pose proof (E g) as Eg. case_decide as Egf.
    + subst g. rewrite list_lookup_insert_eq // in Hg. destruct (Z.leb_spec (r - 1) 0); injection Hg as <- <-; [lia|]. intros ->. by apply (fo_type _ _ _ _ I f r FD_NONE).
    + rewrite list_lookup_insert_ne in Hg; [congruence|]. apply (fo_type _ _ _ _ I g r' u); [done|lia].
Qed.
End changes.
Lemma type_ok L R D (X : nat → Prop) f r t t' : fd_ok L R D (λ g, X g ∨ g = f) → R !! f = Some (r, t) → t' ≠ FD_NONE → fd_ok L (<[f := (r, t')]> R) D X.
Proof.
  intros I Hf Ht. pose proof (lookup_lt_Some _ _ _ Hf) as Hlt. split; try apply I.
  - intros g Hg. destruct (fo_dom _ _ _ _ I g Hg) as [y Hy]. apply lookup_lt_is_Some. rewrite length_insert. exact (lookup_lt_Some _ _ _ Hy).
  - intros g r' u Hg. destruct (decide (g = f)) as [->|Hne].
    + rewrite list_lookup_insert_eq // in Hg. injection Hg as <- <-. by apply (fo_ref _ _ _ _ I f r t).
    + rewrite list_lookup_insert_ne in Hg; [congruence|]. by apply (fo_ref _ _ _ _ I g r' u).
  - intros g r' u Hg Hp ->. destruct (decide (g = f)) as [->|Hne].
    + rewrite list_lookup_insert_eq // in Hg. congruence.
    + rewrite list_lookup_insert_ne in Hg; [congruence|]. destruct (fo_type _ _ _ _ I g r' FD_NONE Hg Hp eq_refl); [done|done].
Qed.
Lemma fd_weaken L R D (X Y : nat → Prop) : (∀ f, X f → Y f) → fd_ok L R D X → fd_ok L R D Y.
Proof. intros H [? ? ? ? ? F]. split; try done. intros f r t Hf Hp Ht. apply H. by apply (F f r t). Qed.

(** ** The calls that open and close *)
Lemma on_pfs_inv {X} (m : M fstate X) s a s' : on_pfs m s = Ret a s' → m (pfs s) = Ret a (pfs s') ∧ descs s' = descs s.
Proof. rewrite /on_pfs /zoom /=. destruct (m (pfs s)) as [b k| | | |]; [|done..]. by intros [= -> <-]. Qed.
Lemma free_fd_spec {A} (l : list (option A)) k : free_fd l = Some k → l !! k = Some None.
Proof. revert k. induction l as [|[f|] l IH]; intros k; simpl; [done| |by intros [= <-]]. intros (j & Hj & ->)%fmap_Some. by apply IH. Qed.
Lemma descs_some s p x : procs (pk s) !! p = Some x → descs s !! p = Some (oftable x).
Proof. intros H. by rewrite /descs lookup_fmap H. Qed.
Lemma set_fd_view p k o s u s' : pupd p (λ y, set_oftable (<[k := o]> (oftable y)) y) s = Ret u s' →
  ∃ l, descs s !! p = Some l ∧ refs s' = refs s ∧ descs s' = <[p := <[k := o]> l]> (descs s).
Proof.
  rewrite /pupd /on_pk /zoom /=. destruct (upd_proc p _ (pk s)) as [? k'| | | |] eqn:E; [|done..]. intros [= _ <-].
  apply upd_proc_inv in E as (x & Hx & ->). exists (oftable x). split_and!; [by apply descs_some|done|]. by rewrite /descs /= fmap_insert.
Qed.
Lemma fdalloc_view i f s fd s' : fdalloc i f s = Ret fd s' →
  fd = -1 ∧ s' = s ∨ ∃ p l k, fd = Z.of_nat k ∧ descs s !! p = Some l ∧ l !! k = Some None ∧ refs s' = refs s ∧ descs s' = <[p := <[k := Some f]> l]> (descs s).
Proof.
  intros H. rewrite /fdalloc in H. peel H cp s1 H1. apply thisproc_inv in H1 as [_ ->]. peel H x s1 H1. apply pget_inv in H1 as [Hx ->].
  destruct (free_fd (oftable x)) as [k|] eqn:Ek; [|injection H as <- <-; by left]. peel H u s1 H1. injection H as <- <-. right.
  apply set_fd_view in H1 as (l & Hl & ER & ED). exists cp, l, k. split_and!; try done. rewrite (descs_some _ _ _ Hx) in Hl. injection Hl as <-. by apply free_fd_spec.
Qed.
Lemma fd2file_view i fd s f s' : fd2file i fd s = Ret (Some f) s' → s' = s ∧ ∃ p l k, descs s !! p = Some l ∧ l !! k = Some (Some f).
Proof.
  rewrite /fd2file. destruct (_ || _); [done|]. intros H. peel H cp s1 H1. apply thisproc_inv in H1 as [_ ->]. peel H x s1 H1. apply pget_inv in H1 as [Hx ->].
  destruct (oftable x !! Z.to_nat fd) as [o|] eqn:E; [|done]. injection H as -> <-. split; [done|]. exists cp, (oftable x), (Z.to_nat fd). split; [by apply descs_some|done].
Qed.

Lemma sys_dup_ok {L} i fd s r s' : sys_dup i fd s = Ret r s' → fd_inv L s → fd_inv L s'.
Proof.
  intros H I. rewrite /sys_dup in H. peel H o s1 H1. destruct o as [f|]; [|injection H as _ <-; by apply (dobs_inv s s1 (dk_fd2file _ _ _ _ _ H1))].
  apply fd2file_view in H1 as (-> & p0 & l0 & k0 & Hp0 & Hk0). pose proof (named_pos f _ _ _ _ Hp0 Hk0) as Hpos.
  peel H n s1 H1. apply fdalloc_view in H1 as [[-> ->]|(p & l & k & -> & Hp & Hk & ER & ED)]; [by injection H as _ <-|].
  rewrite (proj2 (Z.ltb_ge (Z.of_nat k) 0) (Nat2Z.is_nonneg k)) in H. peel H g s2 H2. injection H as _ <-. apply on_pfs_inv in H2 as [H2 ED2].
  apply filedup_view in H2 as (_ & rr & t & Hf & ER2). rewrite /fd_inv ED2 ED. change (fsobs (pfs s2)) with (refs s2) in ER2. rewrite ER2.
  change (fsobs (pfs s1)) with (refs s1) in *. rewrite ER in Hf |- *. exact (dup_ok I p l k f rr t Hp Hk Hf Hpos).
Qed.
Lemma sys_close_ok {L} ctx i fd s r s' : sys_close ctx i fd s = Ret r s' → fd_inv L s → fd_inv L s'.
Proof.
  intros H I. rewrite /sys_close in H. destruct (_ || _); [by injection H as _ <-|]. peel H cp s1 H1. apply thisproc_inv in H1 as [_ ->].
  peel H x s1 H1. apply pget_inv in H1 as [Hx ->]. peel H o s1 H1. destruct (oftable x !! Z.to_nat fd) as [o'|] eqn:Ek; [|done]. injection H1 as <- <-.
  peel H u s1 H1. apply set_fd_view in H1 as (l & Hl & ER & ED). rewrite (descs_some _ _ _ Hx) in Hl. injection Hl as <-.
  destruct o' as [f|]; [|done]. peel H v s2 H2. injection H as _ <-. apply on_pfs_inv in H2 as [H2 ED2]. apply fileclose_view in H2 as (rr & t & Hf & ER2).
  rewrite /fd_inv ED2 ED. change (fsobs (pfs s2)) with (refs s2) in ER2. rewrite ER2. change (fsobs (pfs s1)) with (refs s1) in *. rewrite ER in Hf |- *.
  exact (close_ok I cp (oftable x) (Z.to_nat fd) f rr t (descs_some _ _ _ Hx) Ek Hf).
Qed.

Lemma fupd_view f g s u s' : fupd f g s = Ret u s' → ∃ x, files s !! f = Some x ∧ fsobs s' = <[f := fref (g x)]> (fsobs s).
Proof.
  rewrite /fupd. run_simpl. destruct (files s !! f) as [x|] eqn:Ex; [|done]. intros [= _ <-]. exists x. split; [done|]. by rewrite /fsobs /= list_fmap_insert.
Qed.
Lemma fsobs_some s f x : files s !! f = Some x → fsobs s !! f = Some (fref x).
Proof. intros H. by rewrite /fsobs list_lookup_fmap H. Qed.
(** The file of a successful [filealloc] is not named yet: it is lost until it is. *)
Lemma filealloc_ok {L} s o s' D X : filealloc s = Ret o s' → fd_ok L (fsobs s) D X →
  match o with
  | Some f => fd_ok ({[ f ]} ∪ L) (fsobs s') D X ∧ f ∉ L ∧ (∃ t, fsobs s' !! f = Some (1, t)) ∧ ∀ g r u, fsobs s !! g = Some (r, u) → r ≠ 0 → g ≠ f ∧ fsobs s' !! g = Some (r, u)
  | None => fd_ok L (fsobs s') D X
  end.
Proof.
  intros H I. apply filealloc_view in H. destruct o as [f|]; [|by rewrite H]. destruct H as (t & Hf & E). destruct (alloc_ok I f t Hf) as [I' Hn].
  rewrite E. split; [done|]. split; [done|]. split.
  - exists t. apply list_lookup_insert_eq. exact (lookup_lt_Some _ _ _ Hf).
  - intros g r u Hg Hr. assert (g ≠ f) as Hne by (intros ->; congruence). split; [done|]. rewrite list_lookup_insert_ne; [congruence|exact Hg].
Qed.
Lemma type_view {L} s f g u s' D X : fupd f g s = Ret u s' → (∀ x, f_ref (g x) = f_ref x) → f ∈ L → (∃ t, fsobs s !! f = Some (1, t)) → fd_ok L (fsobs s) D X →
  fd_ok L (fsobs s') D X ∧ (∃ x, fsobs s' !! f = Some (1, f_type (g x))) ∧ ∀ h, h ≠ f → fsobs s' !! h = fsobs s !! h.
Proof.
  intros H Hg HL [t Ht] I. apply fupd_view in H as (x & Hx & ->). pose proof (fsobs_some _ _ _ Hx) as E. rewrite Ht in E. injection E as E _.
  assert (Ef : fref (g x) = (1, f_type (g x))) by (by rewrite /fref Hg -E). rewrite Ef. pose proof (fo_lost _ _ _ _ I f HL) as Hn. split_and!.
  - apply (ref_ok I); simpl; [done|done|rewrite (lost_in _ _ HL); lia|lia].
  - exists x. apply list_lookup_insert_eq. exact (lookup_lt_Some _ _ _ Ht).
  - intros h Hh. apply list_lookup_insert_ne. congruence.
Qed.
(** [pipeAlloc] with one free file left takes it and fails. *)
Lemma pipeAlloc_ok {L} s o s' D X : pipeAlloc s = Ret o s' → fd_ok L (fsobs s) D X →
  match o with
  | Some (f0, f1) => fd_ok ({[ f1 ]} ∪ ({[ f0 ]} ∪ L)) (fsobs s') D X ∧ f0 ≠ f1 ∧ f0 ∉ L ∧ f1 ∉ L ∧ fsobs s' !! f0 = Some (1, FD_PIPE) ∧ fsobs s' !! f1 = Some (1, FD_PIPE)
  | None => ∃ L', fd_ok L' (fsobs s') D X ∧ L ⊆ L' ∧ (size L' ≤ size L + 2)%nat
  end.
Proof.
  intros H I. rewrite /pipeAlloc in H. peel H o0 s1 H1. apply (filealloc_ok (L := L) _ _ _ D X) in H1; [|done].
  peel H o1 s2 H2. assert (Hadd : ∀ f (K : gset nat), (size ({[ f ]} ∪ K) ≤ size K + 1)%nat).
  { intros f K. pose proof (size_union_alt {[ f ]} K) as E. rewrite E size_singleton. assert (size (K ∖ {[ f ]}) ≤ size K)%nat by (apply subseteq_size; set_solver). lia. }
  destruct o0 as [f0|].
  2:{ apply (filealloc_ok (L := L) _ _ _ D X) in H2; [|exact H1]. injection H as <- <-. destruct o1 as [f1|]; [destruct H2 as [H2 _]|]; [|exists L; split_and!; [done|done|lia]].
      exists ({[ f1 ]} ∪ L). pose proof (Hadd f1 L). split_and!; [done|set_solver|lia]. }
  destruct H1 as (I1 & N0 & [t0 T0] & _). apply (filealloc_ok (L := {[ f0 ]} ∪ L) _ _ _ D X) in H2; [|exact I1]. destruct o1 as [f1|].
  2:{ injection H as <- <-. exists ({[ f0 ]} ∪ L). pose proof (Hadd f0 L). split_and!; [done|set_solver|lia]. }
  destruct H2 as (I2 & N1 & T1 & V2). destruct (V2 f0 1 t0 T0) as [Hne T0']; [done|].
  peel H p s3 H3. injection H3 as <- <-. peel H u3 s3 H3. injection H3 as _ <-. peel H u4 s4 H4. injection H4 as _ <-.
  peel H u5 s5 H5. apply (type_view (L := {[ f1 ]} ∪ ({[ f0 ]} ∪ L)) _ f0 _ _ _ D X) in H5 as (I5 & [x5 T5] & V5); [|done|set_solver|by exists t0|done].
  peel H u6 s6 H6. injection H as <- <-. apply (type_view (L := {[ f1 ]} ∪ ({[ f0 ]} ∪ L)) _ f1 _ _ _ D X) in H6 as (I6 & [x6 T6] & V6); [|done|set_solver| |done].
  - split_and!; try done; [set_solver|by rewrite V6].
  - rewrite V5; [by intros <-|]. exact T1.
Qed.
Lemma typed L R D (X : nat → Prop) f r t : fd_ok L R D (λ g, X g ∨ g = f) → R !! f = Some (r, t) → t ≠ FD_NONE → fd_ok L R D X.
Proof. intros I Hf Ht. pose proof (type_ok L R D X f r t t I Hf Ht) as I'. by rewrite list_insert_id in I'. Qed.

(** Giving a descriptor to a file that is not named. *)
Definition given (L : gset nat) (fd : Z) (f : nat) : gset nat := if decide (fd < 0) then L else L ∖ {[ f ]}.
Lemma fdalloc_ok {L} i f s fd s' t (X : nat → Prop) : fdalloc i f s = Ret fd s' → fd_ok L (refs s) (descs s) X → refs s !! f = Some (1, t) → f ∈ L →
  refs s' = refs s ∧ fd_ok (given L fd f) (refs s') (descs s') (λ g, X g ∨ 0 ≤ fd ∧ g = f) ∧ (fd < 0 → fd = -1 ∧ s' = s).
Proof.
  intros H I Hf HL. apply fdalloc_view in H as [[-> ->]|(p & l & k & -> & Hp & Hk & ER & ED)].
  - split_and!; try done. apply (fd_weaken _ _ _ X); [by left|done].
  - rewrite /given decide_False; [lia|]. rewrite ER ED. split_and!; [done| |lia].
    apply (fd_weaken _ _ _ (λ g, X g ∨ g = f)); [intros g [?|?]; [by left|right; split; [lia|done]]|]. exact (open_ok I p l k f t Hp Hk Hf HL).
Qed.
Lemma fdalloc_typed {L} i f s fd s' t : fdalloc i f s = Ret fd s' → fd_inv L s → refs s !! f = Some (1, t) → f ∈ L → t ≠ FD_NONE →
  fd_inv (given L fd f) s' ∧ refs s' = refs s ∧ (fd < 0 → fd = -1).
Proof.
  intros H I Hf HL Ht. destruct (fdalloc_ok _ _ _ _ _ _ _ H I Hf HL) as (ER & I' & Hfd). split_and!; [|done|intros; by apply Hfd].
  apply (typed _ _ _ _ f 1 t); [|by rewrite ER|done]. apply (fd_weaken _ _ _ _ _) with (2 := I'). intros g [?|[_ ?]]; [by left|by right].
Qed.

(** [pipe2] gives both files their descriptors, or it fails and may lose one or both. *)
Lemma sys_pipe2_ok {L} ctx i fl s r s' : sys_pipe2 ctx i fl s = Ret r s' → fd_inv L s →
  ∃ L', fd_inv L' s' ∧ L ⊆ L' ∧ (size L' ≤ size L + 2)%nat ∧ (r.1 ≠ ERR → L' = L).
Proof.
  intros H I. rewrite /sys_pipe2 in H. peel H o s1 H1. apply on_pfs_inv in H1 as [H1 ED1]. apply (pipeAlloc_ok (L := L) _ _ _ (descs s) (λ _, False)) in H1; [|exact I].
  change (fsobs (pfs s1)) with (refs s1) in *. rewrite -ED1 in H1. destruct o as [[f0 f1]|].
  2:{ injection H as <- <-. destruct H1 as (L' & ? & ? & ?). exists L'. split_and!; [done..|]. by intros []. }
  destruct H1 as (I1 & Hne & N0 & N1 & T0 & T1). set (L2 := {[ f1 ]} ∪ ({[ f0 ]} ∪ L)) in *.
  peel H fd0 s2 H2. destruct (fdalloc_typed _ _ _ _ _ _ H2 I1 T0) as (I2 & ER2 & F0); [set_solver|done|].
  peel H fd1 s3 H3. destruct (fdalloc_typed (L := given L2 fd0 f0) _ _ _ _ _ FD_PIPE H3 I2) as (I3 & _ & F1); [by rewrite ER2|rewrite /given; case_decide; set_solver|done|]. clear H2 H3.
  set (L3 := given (given L2 fd0 f0) fd1 f1) in *.
  assert (Hsub : L ⊆ L3) by (rewrite /L3 /given; repeat case_decide; set_solver).
  assert (Hsize : (size L3 ≤ size L + 2)%nat).
  { assert (L3 ⊆ {[ f0; f1 ]} ∪ L) as Hs%subseteq_size by (rewrite /L3 /given; repeat case_decide; set_solver).
    rewrite size_union_alt size_union in Hs; [set_solver|]. rewrite !size_singleton in Hs.
    assert (size (L ∖ {[ f0; f1 ]}) ≤ size L)%nat by (apply subseteq_size; set_solver). lia. }
  destruct ((fd0 =? -1) || (fd1 =? -1)) eqn:Efd.
  - peel H u4 s4 H4. peel H u5 s5 H5. injection H as <- <-.
    assert (K : ∀ b fd s u s', (if negb b then _ ← sys_close ctx i fd; mret () else mret ()) s = Ret u s' → fd_inv L3 s → fd_inv L3 s').
    { intros [] fd t u t' Ht It; [by injection Ht as _ <-|]. peel Ht v t1 Ht1. injection Ht as _ <-. exact (sys_close_ok _ _ _ _ _ _ Ht1 It). }
    exists L3. split_and!; [exact (K _ _ _ _ _ H5 (K _ _ _ _ _ H4 I3))|done..|]. by intros [].
  - injection H as <- <-. exists L3. split_and!; [done..|]. intros _. apply orb_false_iff in Efd as [E0%Z.eqb_neq E1%Z.eqb_neq].
    rewrite /L3 /given !decide_False; [intros ?; by apply E1, F1|intros ?; by apply E0, F0|]. set_solver.
Qed.

(** Keeping the observation carries an invariant with pending types too. *)
Lemma dobs_carry {A L} (m : M pstate A) s a s' X : keeps dobs m → m s = Ret a s' → fd_ok L (refs s) (descs s) X → fd_ok L (refs s') (descs s') X.
Proof. intros K H I. pose proof (K _ _ _ H) as E. injection E as -> ->. exact I. Qed.
Lemma dobs_keep {A L} (m : M pstate A) s a s' : keeps dobs m → m s = Ret a s' → fd_inv L s → fd_inv L s'.
Proof. apply dobs_carry. Qed.

Lemma sys_openat_ok {L} at_ wr rw cr g ctx i d p om s r s' : sys_openat at_ wr rw cr g ctx i d p om s = Ret r s' → fd_inv L s → fd_inv L s'.
Proof.
  intros H I. rewrite /sys_openat in H. peel H n s1 H1. apply (dobs_keep _ _ _ _ (dk_user_strlen _ _ _) H1) in I. clear H1.
  destruct (n =? 0); [by injection H as _ <-|]. destruct (negb _); [by injection H as _ <-|].
  peel H u s2 H2. apply (dobs_keep _ _ _ _ (dk_begin _) H2) in I. clear H2. peel H o s3 H3.
  assert (K : keeps dobs (if has om cr then create i (us_chars p) INODE_REGULAR 0 0 ctx
    else o ← in_cwd i (namei sblock g (us_chars p) (Some ctx)); match o with Some ip => on_in (inode_lock ip);; mret (Some ip) | None => mret None end)) by keeps_solve.
  apply (dobs_keep _ _ _ _ K H3) in I. clear H3 K. destruct o as [ip|].
  2:{ refine (dobs_keep (end_op ctx;; mret ERR) _ _ _ _ H I). keeps_solve. }
  peel H f s4 H4. apply on_pfs_inv in H4 as [H4 ED4]. apply (filealloc_ok (L := L) _ _ _ (descs s3) (λ _, False)) in H4; [|exact I].
  change (fsobs (pfs s4)) with (refs s4) in *. rewrite -ED4 in H4. peel H fd s5 H5. destruct f as [f|].
  2:{ injection H5 as <- <-. simpl in H. refine (dobs_keep _ _ _ _ _ H H4). keeps_solve. }
  destruct H4 as (I4 & N4 & [t T4] & _). assert (HL : ({[ f ]} ∪ L) ∖ {[ f ]} = L) by set_solver.
  destruct (fdalloc_ok _ _ _ _ _ _ _ H5 I4 T4) as (ER5 & I5 & C5); [set_solver|]. destruct (Z.ltb_spec fd 0) as [Hfd|Hfd].
  - destruct (C5 Hfd) as [_ ->]. peel H u6 s6 H6. apply on_pfs_inv in H6 as [H6 ED6]. apply fileclose_view in H6 as (rr & t' & Hf & ER6).
    refine (dobs_keep _ _ _ _ _ H _); [keeps_solve|]. rewrite /fd_inv ED6. change (fsobs (pfs s6)) with (refs s6) in ER6. rewrite ER6.
    change (fsobs (pfs s4)) with (refs s4) in *. rewrite T4 in Hf. injection Hf as <- <-. pose proof (fo_lost _ _ _ _ I4 f ltac:(set_solver)) as Hn.
    apply (ref_ok I4); simpl; [set_solver|done|by rewrite Hn (lost_out _ _ N4)|lia].
  - rewrite -ER5 in T4. rewrite /given decide_False in I5; [lia|]. rewrite HL in I5.
    apply (fd_weaken _ _ _ _ (λ g, False ∨ g = f)) in I5; [|intros h [?|[_ ?]]; [by left|by right]].
    peel H u6 s6 H6. pose proof (dk_in _ _ _ _ H6) as E6. injection E6 as ER6 ED6. peel H u7 s7 H7. pose proof (dk_end _ _ _ _ H7) as E7. injection E7 as ER7 ED7.
    peel H v8 s8 H8. injection H as _ <-. apply on_pfs_inv in H8 as [H8 ED8]. apply fupd_view in H8 as (x & Hx & ER8). change (fsobs (pfs s8)) with (refs s8) in ER8.
    apply fsobs_some in Hx. change (fsobs (pfs s7)) with (refs s7) in *. rewrite /fd_inv ED8 ER8 ED7 ED6. rewrite ER7 ER6 in Hx |- *.
    rewrite T4 in Hx. injection Hx as Hr _. rewrite /fref /= -Hr. by apply (type_ok _ _ _ _ f 1 t).
Qed.
