(* ===== verification/FdProc.v ===== *)
(** * Descriptors over forks, exits and waits

    The rest of the kernel leaves the descriptors alone: the scheduler, the process tree
    and the address spaces.  Together with [SysFd.v] this gives the invariant of the
    descriptors over every sequence of system calls. *)

From stdpp Require Import base numbers list gmap relations.
From S2P Require Import Prelude Bitmap Spinlock Pidmap Sem Bytes FsDefs BlockCache Cache CacheAlloc Inode InodeRead Pipe File Mem Pt Paging RBTree Cpu Sched Proc ProcTree ProcSteps SysFile SysFd.

(** ** The scheduler *)
Definition kfd (k : kern) : gmap Z (list (option nat)) := oftable <$> procs k.
Lemma fd_insert (m : gmap Z proc) p x y : m !! p = Some x → oftable y = oftable x → oftable <$> <[p := y]> m = oftable <$> m.
Proof. intros Hx E. rewrite fmap_insert E insert_id // lookup_fmap Hx //. Qed.
Section sched.
Lemma fk_get_proc p : keeps kfd (get_proc p).
Proof. rewrite /get_proc. keeps_solve. Qed.
Lemma fk_get_info p : keeps kfd (get_info p).
Proof. rewrite /get_info. keeps_solve. Qed.
Lemma fk_get_cont p : keeps kfd (get_cont p).
Proof. rewrite /get_cont. keeps_solve. Qed.
Lemma fk_get_cpu i : keeps kfd (get_cpu i).
Proof. rewrite /get_cpu. keeps_solve. Qed.
Lemma fk_upd_proc p f : (∀ x, oftable (f x) = oftable x) → keeps kfd (upd_proc p f).
Proof. intros H k u k' (x & Hx & ->)%upd_proc_inv. by apply (fd_insert _ _ x). Qed.
#[local] Hint Resolve fk_get_proc fk_get_info fk_get_cont fk_get_cpu : keeps.
#[local] Hint Extern 2 (keeps kfd (upd_proc _ _)) => apply fk_upd_proc; reflexivity : keeps.
Lemma fk_upd_info p f : keeps kfd (upd_info p f).
Proof. rewrite /upd_info. keeps_solve. done. Qed.
Lemma fk_upd_cpu p f : keeps kfd (upd_cpu p f).
Proof. rewrite /upd_cpu. keeps_solve. done. Qed.
Lemma fk_upd_cont p f : keeps kfd (upd_cont p f).
Proof. rewrite /upd_cont. keeps_solve. done. Qed.
Lemma fk_rq {X} (m : M rbheap X) : keeps kfd (on_rq m).
Proof. by apply keeps_zoom. Qed.
Lemma fk_ts {X} (m : M tstate X) : keeps kfd (on_ts m).
Proof. by apply keeps_zoom. Qed.
Lemma fk_slock : keeps kfd _acquire_sched_lock.
Proof. by apply keeps_acquire. Qed.
Lemma fk_sunlock : keeps kfd _release_sched_lock.
Proof. by apply keeps_release. Qed.
#[local] Hint Resolve fk_upd_info fk_upd_cpu fk_upd_cont fk_rq fk_ts fk_slock fk_sunlock : keeps.
Lemma fk_on_vm {X} i p (m : M vmem X) : keeps kfd (on_vm i p m).
Proof.
  intros k a k'. rewrite /on_vm. destruct (procs k !! p) as [x|] eqn:E; [|done]. destruct (cpus k !! i); [|done].
  destruct (m _); [|done..]. intros [= _ <-]. by apply (fd_insert _ _ x).
Qed.
Lemma fk_thisproc i : keeps kfd (thisproc i).
Proof. rewrite /thisproc. keeps_solve. Qed.
#[local] Hint Resolve fk_on_vm fk_thisproc : keeps.
Lemma fk_minvruntime i c : keeps kfd (get_minvruntime i c).
Proof. rewrite /get_minvruntime. keeps_solve. Qed.
#[local] Hint Resolve fk_minvruntime : keeps.
Lemma fk_activate_up fuel i : ∀ c, keeps kfd (activate_up fuel i c).
Proof. induction fuel as [|fuel IH]; intros c; cbn [activate_up]; rewrite ?/enqueue; keeps_solve. Qed.
Lemma fk_charge_up fuel : ∀ c d, keeps kfd (charge_up fuel c d).
Proof. induction fuel as [|fuel IH]; intros c d; cbn [charge_up]; rewrite ?/dequeue ?/enqueue; keeps_solve. Qed.
Lemma fk_leave_up fuel : ∀ c, keeps kfd (leave_up fuel c).
Proof. induction fuel as [|fuel IH]; intros c; cbn [leave_up]; rewrite ?/dequeue; keeps_solve. Qed.
Lemma fk_recur fuel : ∀ c, keeps kfd (recur_get_proc fuel c).
Proof. induction fuel as [|fuel IH]; intros c; cbn [recur_get_proc]; rewrite ?/dequeue; keeps_solve. Qed.
#[local] Hint Resolve fk_activate_up fk_charge_up fk_leave_up fk_recur : keeps.
Lemma fk_pick i : keeps kfd (pick_next i).
Proof. rewrite /pick_next /cont_fuel /enqueue /dequeue. keeps_solve. Qed.
Lemma fk_update_proc i p : keeps kfd (update_this_proc i p).
Proof. rewrite /update_this_proc /get_sched_latency. keeps_solve. Qed.
Lemma fk_activate i p al : keeps kfd (_activate_proc i p al).
Proof. rewrite /_activate_proc /cont_fuel /enqueue. keeps_solve. Qed.
#[local] Hint Resolve fk_pick fk_update_proc fk_activate : keeps.
Lemma fk_activate_group i c : keeps kfd (activate_group i c).
Proof. rewrite /activate_group /enqueue. keeps_solve. Qed.
Lemma fk_activate_all i l : keeps kfd (activate_all i l).
Proof. induction l as [|w l IH]; cbn [activate_all]; keeps_solve. Qed.
Lemma fk_is_zombie p : keeps kfd (is_zombie p).
Proof. rewrite /is_zombie /is_state. keeps_solve. Qed.
#[local] Hint Resolve fk_activate_all : keeps.
Lemma fk_post_childexit i p : keeps kfd (post_childexit i p).
Proof. rewrite /post_childexit. keeps_solve. Qed.
Lemma fk_simple_sched i st : keeps kfd (simple_sched i st).
Proof. rewrite /simple_sched /update_this_state /cont_fuel /enqueue /dequeue. keeps_solve. Qed.
#[local] Hint Resolve fk_simple_sched : keeps.
Lemma fk_lock_sched i st : keeps kfd (lock_and_sched i st).
Proof. rewrite /lock_and_sched. keeps_solve. Qed.
Lemma fk_yield i : keeps kfd (yield i).
Proof. apply fk_lock_sched. Qed.
End sched.
#[export] Hint Resolve fk_get_proc fk_get_info fk_get_cont fk_get_cpu fk_upd_info fk_upd_cpu fk_upd_cont fk_rq fk_ts fk_slock fk_sunlock fk_on_vm
  fk_thisproc fk_activate fk_activate_group fk_is_zombie fk_post_childexit fk_simple_sched fk_lock_sched fk_yield : keeps.
#[export] Hint Extern 2 (keeps kfd (upd_proc _ _)) => apply fk_upd_proc; reflexivity : keeps.

(** ** Address spaces: no section names a file *)
Definition fps (l : list (Z * section)) : list (option nat) := (λ st, st_fp st.2) <$> l.
Definition nofile (l : list (Z * section)) : Prop := Forall (λ o, o = None) (fps l).
Definition aobs (z : astate) := (fsobs (afs z), fps (sections z)).
(** [m] leaves the files alone and gives no section one. *)
Definition quiet {X} (m : M astate X) : Prop :=
  ∀ z a z', m z = Ret a z' → nofile (sections z) → fsobs (afs z') = fsobs (afs z) ∧ nofile (sections z').
Section spaces.
Lemma keeps_quiet {X} (m : M astate X) : keeps aobs m → quiet m.
Proof. intros K z a z' H N. pose proof (K _ _ _ H) as E. injection E as E1 E2. split; [done|]. by rewrite /nofile E2. Qed.
Lemma quiet_bind {X Y} (m : M astate X) (f : X → M astate Y) : quiet m → (∀ a, quiet (f a)) → quiet (m ≫= f).
Proof.
  intros Hm Hf z b z' H N. peel H a z1 H1. destruct (Hm _ _ _ H1 N) as [E1 N1]. destruct (Hf a _ _ _ H N1) as [E2 N2]. split; [by rewrite E2|done].
Qed.
Lemma ak_av {X} (m : M vmem X) : keeps aobs (on_av m).
Proof. by apply keeps_zoom. Qed.
Lemma ak_cache {X} (m : M cstate X) : keeps aobs (on_cache m).
Proof. rewrite /on_cache /on_afs. apply (keeps_zoom_in aobs fsobs); [intros v z; rewrite /aobs /=; by intros ->|]. apply dk_on_inodes. Qed.
Lemma ak_get_sec k : keeps aobs (get_sec k).
Proof. rewrite /get_sec. keeps_solve. Qed.
Lemma ak_upd_sec k f : (∀ x, st_fp (f x) = st_fp x) → keeps aobs (upd_sec k f).
Proof.
  intros Hf z u z'. rewrite /upd_sec. run_simpl. destruct (sections z !! k) as [x|] eqn:E; [|done]. intros [= _ <-]. rewrite /aobs /fps /=.
  rewrite list_fmap_insert /= Hf list_insert_id //. by rewrite list_lookup_fmap E.
Qed.
#[local] Hint Resolve ak_av ak_cache ak_get_sec : keeps.
#[local] Hint Extern 2 (keeps aobs (upd_sec _ _)) => apply ak_upd_sec; reflexivity : keeps.
Lemma ak_sem_at k m : keeps aobs (sem_at k m).
Proof. rewrite /sem_at. keeps_solve. Qed.
Lemma ak_for_pages fuel e f : (∀ a, keeps aobs (f a)) → ∀ a, keeps aobs (for_pages fuel a e f).
Proof. intros Hf. induction fuel as [|fuel IH]; intros a; cbn [for_pages]; keeps_solve. Qed.
#[local] Hint Resolve ak_sem_at : keeps.
#[local] Hint Extern 2 (keeps aobs (for_pages _ _ _ _)) => apply ak_for_pages; keeps_solve : keeps.
Lemma ak_load a : keeps aobs (load_pte a).
Proof. apply ak_av. Qed.
Lemma ak_store a v : keeps aobs (store_pte a v).
Proof. apply ak_av. Qed.
Lemma ak_free a : keeps aobs (asn_kfree_page a).
Proof. apply ak_av. Qed.
Lemma ak_alloc : keeps aobs alloc_page_for_user.
Proof. apply ak_av. Qed.
#[local] Hint Resolve ak_load ak_store ak_free ak_alloc : keeps.
Lemma ak_read_loop ka b n : ∀ j, keeps aobs (read_page_loop n ka b j).
Proof. induction n as [|n IH]; intros j; cbn [read_page_loop]; keeps_solve. Qed.
#[local] Hint Resolve ak_read_loop : keeps.
Lemma ak_read ka b : keeps aobs (read_page_from_disk ka b).
Proof. rewrite /read_page_from_disk. keeps_solve. Qed.
#[local] Hint Resolve ak_read : keeps.
Lemma ak_swapin k : keeps aobs (swapin k).
Proof. rewrite /swapin. keeps_solve. Qed.
Lemma ak_unmap k n : ∀ j, keeps aobs (sbrk_unmap n k j).
Proof. induction n as [|n IH]; intros j; cbn [sbrk_unmap]; keeps_solve. Qed.
#[local] Hint Resolve ak_swapin ak_unmap : keeps.
Lemma ak_sbrk n : keeps aobs (sbrk n).
Proof. rewrite /sbrk. keeps_solve. Qed.
Lemma ak_pgfault a : keeps aobs (pgfault a).
Proof. rewrite /pgfault. keeps_solve. Qed.

Lemma quiet_init : quiet init_space.
Proof. apply quiet_bind; [apply keeps_quiet, ak_av|]. intros _ z a z' [= _ <-] _. split; [done|apply Forall_nil_2]. Qed.
Lemma quiet_copy l : nofile l → quiet (copy_sections l).
Proof.
  induction l as [|[b x] l IH]; intros N; cbn [copy_sections]; [apply keeps_quiet; keeps_solve|]. apply Forall_cons in N as [Hx N]. simpl in Hx. rewrite Hx.
  apply quiet_bind; [apply keeps_quiet, ak_av|]. intros a z v z' H Nz. peel H fp z1 H1. injection H1 as <- <-. peel H u z2 H2. injection H2 as _ <-.
  apply (IH N _ _ _) in H as [E N']; [done|]. by apply Forall_cons.
Qed.
Lemma quiet_free_loop ctx n : quiet (free_sections_loop ctx n).
Proof.
  induction n as [|n IH]; cbn [free_sections_loop]; [apply keeps_quiet; keeps_solve|].
  apply quiet_bind; [apply keeps_quiet; keeps_solve|]. intros x0. apply quiet_bind; [apply keeps_quiet; keeps_solve|]. intros _ z v z' H N.
  peel H x z1 H1. assert (st_fp x = None) as Ex.
  { revert H1. rewrite /get_sec. run_simpl. destruct (sections z !! 0%nat) as [y|] eqn:E; [|done]. intros [= <- _].
    rewrite /nofile /fps Forall_fmap in N. exact (proj1 (Forall_lookup _ _) N 0%nat y E). }
  destruct (keeps_quiet _ (ak_get_sec 0) _ _ _ H1 N) as [E1 N1]. rewrite Ex in H. revert N1. rewrite -E1. clear E1 H1 N. revert H. revert z1 v z'.
  change (quiet (for_pages (range_fuel (PAGE_BASE (st_begin x)) (st_end x)) (PAGE_BASE (st_begin x)) (st_end x) (λ i,
        o ← on_av (get_pte i false);
        match o with
        | None => mret ()
        | Some p => e ← load_pte p; if is_valid e then asn_kfree_page (P2K (PTE_ADDRESS e)) else mret ()
        end);; mret ();; l ← gets sections; a ← of_opt (l !! 0%nat); modify (set_sections (tail l));; on_av (on_mm (kfree a.1));; free_sections_loop ctx n)).
  apply quiet_bind; [apply keeps_quiet; keeps_solve|]. intros _. apply quiet_bind; [apply keeps_quiet; keeps_solve|]. intros _ z1 v z' H N.
  peel H l z2 H2. injection H2 as <- <-. peel H a z2 H2. destruct (sections z1 !! 0%nat); [|done]. injection H2 as _ <-. peel H u z2 H2. injection H2 as _ <-.
  refine (quiet_bind _ _ (keeps_quiet _ (ak_av _)) (λ _, IH) _ _ _ H _). simpl. destruct (sections z1); [done|]. by apply Forall_cons in N as [_ N].
Qed.
Lemma quiet_free ctx : quiet (free_pgdir ctx).
Proof.
  rewrite /free_pgdir /free_sections. apply quiet_bind; [apply keeps_quiet; keeps_solve|]. intros p. destruct (p =? 0); [apply keeps_quiet; keeps_solve|].
  apply quiet_bind; [|intros; apply keeps_quiet, ak_av]. apply quiet_bind; [apply keeps_quiet; keeps_solve|]. intros l. apply quiet_free_loop.
Qed.
Lemma quiet_av {X} (m : M vmem X) : quiet (on_av m).
Proof. apply keeps_quiet, ak_av. Qed.
Lemma quiet_load a : quiet (load_pte a).
Proof. apply quiet_av. Qed.
Lemma quiet_sbrk n : quiet (sbrk n).
Proof. apply keeps_quiet, ak_sbrk. Qed.
Lemma quiet_pgfault a : quiet (pgfault a).
Proof. apply keeps_quiet, ak_pgfault. Qed.
End spaces.
#[export] Hint Resolve quiet_init quiet_copy quiet_free quiet_av quiet_load quiet_sbrk quiet_pgfault : keeps.

(** ** The state of the processes *)
Definition nofp (s : pstate) : Prop := map_Forall (λ _ l, nofile l) (psecs s).
Definition sobs (s : pstate) := (dobs s, psecs s).
(** [m] changes no descriptor, no reference, and gives no section a file. *)
Definition still {X} (m : M pstate X) : Prop := ∀ s a s', m s = Ret a s' → nofp s → dobs s' = dobs s ∧ nofp s'.
Section processes.
Lemma keeps_still {X} (m : M pstate X) : keeps sobs m → still m.
Proof. intros K s a s' H N. pose proof (K _ _ _ H) as E. rewrite /sobs in E. injection E as E1 E2 E3. split; [by rewrite /dobs E1 E2|]. by rewrite /nofp E3. Qed.
Lemma still_bind {X Y} (m : M pstate X) (f : X → M pstate Y) : still m → (∀ a, still (f a)) → still (m ≫= f).
Proof.
  intros Hm Hf s b s' H N. peel H a s1 H1. destruct (Hm _ _ _ H1 N) as [E1 N1]. destruct (Hf a _ _ _ H N1) as [E2 N2]. split; [by rewrite E2|done].
Qed.
Lemma still_space {X} i p (m : M astate X) : quiet m → still (on_space i p m).
Proof.
  intros Q s a s'. rewrite /on_space. destruct (procs (pk s) !! p) as [x|] eqn:Ex; [|done]. destruct (cpus (pk s) !! i) as [c|]; [|done].
  destruct (m _) as [b z| | | |] eqn:Em; [|done..]. intros [= _ <-] N. destruct (Q _ _ _ Em) as [E1 N1].
  { simpl. destruct (psecs s !! p) as [l|] eqn:El; [exact (N p l El)|apply Forall_nil_2]. }
  split; [rewrite /dobs /refs /descs /=; rewrite E1 (fd_insert _ _ x) //|]. by apply map_Forall_insert_2.
Qed.
Lemma sk_pk {X} (m : M kern X) : keeps kfd m → keeps sobs (on_pk m).
Proof. apply keeps_zoom_in. intros v s. rewrite /sobs /dobs /refs /descs /kfd /=. by intros ->. Qed.
Lemma sk_map {X} (m : M rbheap X) : keeps sobs (on_map m).
Proof. by apply keeps_zoom. Qed.
Lemma sk_global {X} (m : M pidmap_t X) : keeps sobs (on_global m).
Proof. by apply keeps_zoom. Qed.
Lemma sk_km {X} (m : M mstate X) : keeps sobs (on_km m).
Proof. by apply keeps_zoom. Qed.
Lemma sk_pfs {X} (m : M fstate X) : keeps fsobs m → keeps sobs (on_pfs m).
Proof. apply keeps_zoom_in. intros v s. rewrite /sobs /dobs /refs /descs /=. by intros ->. Qed.
Lemma sk_pupd p f : (∀ x, oftable (f x) = oftable x) → keeps sobs (pupd p f).
Proof. intros. by apply sk_pk, fk_upd_proc. Qed.
Lemma sk_pget p : keeps sobs (pget p).
Proof. apply sk_pk, fk_get_proc. Qed.
End processes.
#[export] Hint Resolve sk_map sk_global sk_km sk_pget : keeps.
#[export] Hint Extern 3 (keeps sobs (on_pk _)) => apply sk_pk; keeps_solve; try reflexivity : keeps.
#[export] Hint Extern 3 (keeps sobs (on_pfs _)) => apply sk_pfs; keeps_solve : keeps.
#[export] Hint Extern 2 (keeps sobs (pupd _ _)) => apply sk_pupd; reflexivity : keeps.
#[export] Hint Extern 2 (keeps sobs (_acquire_spinlock _)) => apply keeps_acquire; reflexivity : keeps.
#[export] Hint Extern 2 (keeps sobs (release_spinlock _)) => apply keeps_release; reflexivity : keeps.
(** Walk through a body; what no section is read or written by is left to [keeps]. *)
Ltac still_step :=
  intros;
  lazymatch goal with
  | |- still (_ ≫= _) => apply still_bind
  | |- still (match ?x with _ => _ end) => destruct x
  | |- still (on_space _ _ _) => apply still_space; solve [auto with keeps]
  | |- still _ => first [solve [auto with keeps]|apply keeps_still; solve [keeps_solve; try reflexivity]]
  end.
Ltac still_solve := repeat still_step.

Section bodies.
Lemma sk_pidmap {X} c (m : M pidmap_t X) : keeps sobs (on_pidmap c m).
Proof. rewrite /on_pidmap. keeps_solve. Qed.
Lemma sk_insert_map p : keeps sobs (insert_pid_proc_map p).
Proof. rewrite /insert_pid_proc_map. keeps_solve; done. Qed.
Lemma sk_lookup n : keeps sobs (lookup_pid n).
Proof. rewrite /lookup_pid. keeps_solve. Qed.
Lemma sk_set_parent i p : keeps sobs (set_parent_to_this i p).
Proof. rewrite /set_parent_to_this. keeps_solve. Qed.
Lemma sk_childexit {X} p (m : M Semaphore X) : keeps sobs (wait_sem_childexit p m).
Proof. rewrite /wait_sem_childexit. keeps_solve. Qed.
#[local] Hint Resolve sk_pidmap sk_insert_map sk_lookup : keeps.
Lemma sk_start pe i p e a : keeps sobs (start_proc pe i p e a).
Proof. rewrite /start_proc. keeps_solve. Qed.
Lemma sk_reparent fuel i cp : keeps sobs (reparent fuel i cp).
Proof. induction fuel as [|fuel IH]; cbn [reparent]; keeps_solve. Qed.
Lemma sk_find_zombie l : keeps sobs (find_zombie l).
Proof. induction l as [|c l IH]; cbn [find_zombie]; keeps_solve. Qed.
Lemma sk_kill i n : keeps sobs (kill i n).
Proof. rewrite /kill. keeps_solve. Qed.
Lemma sk_init_container c l : keeps sobs (init_container c l).
Proof. rewrite /init_container. keeps_solve; done. Qed.
Lemma still_fork_pages fuel i a b e : ∀ va, still (fork_pages fuel i a b va e).
Proof. induction fuel as [|fuel IH]; intros va; cbn [fork_pages]; still_solve. Qed.
#[local] Hint Resolve still_fork_pages : keeps.
Lemma still_fork_sections i a b l : still (fork_sections i a b l).
Proof. induction l as [|[? st] l IH]; cbn [fork_sections]; still_solve. Qed.
End bodies.
#[export] Hint Resolve sk_pidmap sk_insert_map sk_lookup sk_set_parent sk_childexit sk_start sk_reparent sk_find_zombie sk_kill sk_init_container still_fork_sections : keeps.

(** ** What the file calls leave alone *)
(** An observation that no change of the files, of the descriptors of the process on CPU
    [i] or of a working directory shows in. *)
Class FilesHidden {Y} (P : pstate → Y) (i : nat) := {
  fh_pfs {X} (m : M fstate X) : keeps P (on_pfs m);
  fh_fdalloc f : keeps P (fdalloc i f);
  fh_close ctx fd : keeps P (sys_close ctx i fd);
  fh_cwd p v : keeps P (pupd p (set_cwd v)) }.
Section filecalls.
Context {Y} (P : pstate → Y) (i : nat) `{!FilesHidden P i}.
Lemma fh_pget p : keeps P (pget p).
Proof. by intros s x s' [_ ->]%pget_inv. Qed.
Lemma fh_this : keeps P (this_proc i).
Proof. by intros s x s' [_ ->]%thisproc_inv. Qed.
Lemma fh_files {X} (m : M fstate X) : keeps P (on_pfs m).
Proof. apply (fh_pfs (i := i)). Qed.
Lemma fh_set_cwd p v : keeps P (pupd p (set_cwd v)).
Proof. apply (fh_cwd (i := i)). Qed.
#[local] Hint Resolve fh_files fh_fdalloc fh_close fh_set_cwd fh_pget fh_this : keeps.
Lemma fh_in {X} (m : M (istate (S := cstate)) X) : keeps P (on_in m).
Proof. apply fh_files. Qed.
#[local] Hint Resolve fh_in : keeps.
Lemma fh_in_cwd {X} (m : M (istate (S := cstate)) X) : keeps P (in_cwd i m).
Proof. rewrite /in_cwd. keeps_solve. Qed.
Lemma fh_begin ctx : keeps P (begin_op ctx).
Proof. apply fh_in. Qed.
Lemma fh_end ctx : keeps P (end_op ctx).
Proof. rewrite /end_op. keeps_solve. Qed.
Lemma fh_put ctx ip : keeps P (iput ctx ip).
Proof. apply fh_in. Qed.
Lemma fh_readable a n : keeps P (user_readable i a n).
Proof. rewrite /user_readable /sections_of. keeps_solve. Qed.
Lemma fh_writeable a n : keeps P (user_writeable i a n).
Proof. rewrite /user_writeable /sections_of. keeps_solve. Qed.
Lemma fh_fd2file fd : keeps P (fd2file i fd).
Proof. rewrite /fd2file. keeps_solve. Qed.
#[local] Hint Resolve fh_in_cwd fh_begin fh_end fh_put fh_readable fh_writeable fh_fd2file : keeps.
Lemma fh_strlen_loop str n : ∀ k, keeps P (user_strlen_loop n i str k).
Proof. induction n as [|n IH]; intros k; cbn [user_strlen_loop]; keeps_solve. Qed.
Lemma fh_strlen str n : keeps P (user_strlen i str n).
Proof. apply fh_strlen_loop. Qed.
Lemma fh_writev w pid ctx f l : ∀ tot, keeps P (writev_loop w pid ctx i f l tot).
Proof. induction l as [|p l IH]; intros tot; cbn [writev_loop]; keeps_solve. Qed.
Lemma fh_create p t a b ctx : keeps P (create i p t a b ctx).
Proof. rewrite /create. keeps_solve. Qed.
#[local] Hint Resolve fh_strlen fh_writev fh_create : keeps.
Lemma fh_create_put p t a b ctx : keeps P (create_put i p t a b ctx).
Proof. rewrite /create_put. keeps_solve. Qed.
#[local] Hint Resolve fh_create_put : keeps.
Lemma fh_sys_dup fd : keeps P (sys_dup i fd).
Proof. rewrite /sys_dup. keeps_solve. Qed.
Lemma fh_sys_pipe2 ctx fl : keeps P (sys_pipe2 ctx i fl).
Proof. rewrite /sys_pipe2. keeps_solve. Qed.
Lemma fh_sys_openat at_ wr rw cr g ctx d p om : keeps P (sys_openat at_ wr rw cr g ctx i d p om).
Proof. rewrite /sys_openat. keeps_solve. Qed.
Lemma fh_sys_read w pid al fd b l n : keeps P (sys_read w pid al i fd b l n).
Proof. rewrite /sys_read. keeps_solve. Qed.
Lemma fh_sys_write w pid ctx fd b l n : keeps P (sys_write w pid ctx i fd b l n).
Proof. rewrite /sys_write. keeps_solve. Qed.
Lemma fh_sys_writev w pid ctx fd v l n : keeps P (sys_writev w pid ctx i fd v l n).
Proof. rewrite /sys_writev. keeps_solve. Qed.
Lemma fh_sys_fstat fd st : keeps P (sys_fstat i fd st).
Proof. rewrite /sys_fstat. keeps_solve. Qed.
Lemma fh_sys_mkdirat at_ ctx d p m : keeps P (sys_mkdirat at_ ctx i d p m).
Proof. rewrite /sys_mkdirat. keeps_solve. Qed.
Lemma fh_sys_mknodat at_ ctx d p a b : keeps P (sys_mknodat at_ ctx i d p a b).
Proof. rewrite /sys_mknodat. keeps_solve. Qed.
Lemma fh_sys_unlinkat at_ g ctx d p f : keeps P (sys_unlinkat at_ g ctx i d p f).
Proof. rewrite /sys_unlinkat /unlink_bad. keeps_solve. Qed.
Lemma fh_sys_newfstatat at_ g ctx d p st f : keeps P (sys_newfstatat at_ g ctx i d p st f).
Proof. rewrite /sys_newfstatat. keeps_solve. Qed.
Lemma fh_sys_chdir g ctx p : keeps P (sys_chdir g ctx i p).
Proof. rewrite /sys_chdir. keeps_solve. Qed.
End filecalls.

(** The links of the processes and the sections. *)
Definition zs (s : pstate) := (psobs s, psecs s).
#[export] Instance zs_hidden i : FilesHidden zs i.
Proof.
  assert (Kpk : ∀ X (m : M kern X), keeps kobs m → keeps zs (on_pk m)) by (intros X m; apply keeps_zoom_in; intros v s; rewrite /zs /psobs /=; by intros ->).
  assert (Kup : ∀ p f, (∀ x, obs_of (f x) = obs_of x) → keeps zs (pupd p f)) by (intros p f Hf; by apply Kpk, keeps_upd_proc).
  assert (Kfs : ∀ X (m : M fstate X), keeps zs (on_pfs m)) by (intros X m; by apply keeps_zoom).
  pose proof (fh_pget zs) as Kget. pose proof (fh_this zs i) as Kthis.
  split; [done| | |by intros p v; apply Kup]; intros; rewrite ?/fdalloc ?/sys_close; keeps_solve.
Qed.

(** The descriptors of the processes that do not run on CPU [i]. *)
Definition others (i : nat) (s : pstate) := (cpus (pk s), delete (default 0 (cur_proc <$> cpus (pk s) !! i)) (descs s)).
Lemma others_set i k o s cp x u s' : this_proc i s = Ret cp s → pupd cp (λ y, set_oftable (<[k := o]> (oftable y)) y) x = Ret u s' → x = s → others i s' = others i s.
Proof.
  intros [(c & Hc & ->) _]%thisproc_inv H ->. pose proof H as (l & Hl & _ & ED)%set_fd_view. revert H. rewrite /pupd /on_pk /zoom /=.
  destruct (upd_proc _ _ (pk s)) as [? k'| | | |] eqn:E; [|done..]. intros [= _ <-]. apply upd_proc_inv in E as (y & Hy & ->).
  rewrite /others ED /= Hc /=. by rewrite delete_insert_eq.
Qed.
#[export] Instance others_hidden i : FilesHidden (others i) i.
Proof.
  assert (Kfs : ∀ X (m : M fstate X), keeps (others i) (on_pfs m)) by (intros X m; by apply keeps_zoom).
  split; [done| | |].
  - intros f s n s' H. rewrite /fdalloc in H. peel H cp s1 H1. pose proof H1 as [_ ->]%thisproc_inv. peel H x s1 H2. apply pget_inv in H2 as [_ ->].
    destruct (free_fd _) as [k|]; [|by injection H as _ <-]. peel H u s1 H2. injection H as _ <-. by apply (others_set i k (Some f) s cp s u s1 H1 H2).
  - intros ctx fd s n s' H. rewrite /sys_close in H. destruct (_ || _); [by injection H as _ <-|]. peel H cp s1 H1. pose proof H1 as [_ ->]%thisproc_inv.
    peel H x s1 H2. apply pget_inv in H2 as [_ ->]. peel H o s1 H2. destruct (oftable x !! _) as [o0|]; [|done]. injection H2 as -> <-. peel H u s1 H2.
    rewrite -(others_set i (Z.to_nat fd) None s cp s u s1 H1 H2 eq_refl). destruct o as [f|]; [|done]. peel H v s2 H3. injection H as _ <-. exact (Kfs _ _ _ _ _ H3).
  - intros p v s u s' H. revert H. rewrite /pupd /on_pk /zoom /=. destruct (upd_proc p _ (pk s)) as [? k'| | | |] eqn:E; [|done..]. intros [= _ <-].
    apply upd_proc_inv in E as (x & Hx & ->). rewrite /others /descs /=. by rewrite (fd_insert _ _ x).
Qed.

(** ** Which processes are zombies *)
Definition zobs (s : pstate) : gmap Z bool := o_zombie <$> fobs s.
Lemma zobs_of {X} (m : M pstate X) : keeps psobs m → keeps zobs m.
Proof. intros K s a s' H. pose proof (psobs_eq _ _ (K _ _ _ H)) as (E & _). by rewrite /zobs E. Qed.
Lemma zobs_pupd p f : (∀ x, o_zombie (obs_of (f x)) = o_zombie (obs_of x)) → keeps zobs (pupd p f).
Proof.
  intros Hf s u s'. rewrite /pupd /on_pk /zoom /=. destruct (upd_proc p f (pk s)) as [? k'| | | |] eqn:E; [|done..]. intros [= _ <-].
  apply upd_proc_inv in E as (x & Hx & ->). rewrite /zobs /fobs /= !fmap_insert insert_id // Hf !lookup_fmap Hx //.
Qed.
(** The calls that leave alone which processes are zombies. *)
#[export] Hint Extern 2 (keeps zobs (pupd _ _)) => apply zobs_pupd; reflexivity : keeps.
#[export] Hint Extern 4 (keeps zobs _) => apply zobs_of; solve [keeps_solve; try reflexivity] : keeps.
Lemma zk_set_parent i p : keeps zobs (set_parent_to_this i p).
Proof. rewrite /set_parent_to_this. keeps_solve. Qed.
Lemma zk_start pe i p e a : keeps zobs (start_proc pe i p e a).
Proof. rewrite /start_proc. keeps_solve. Qed.
Lemma zk_reparent fuel i cp : keeps zobs (reparent fuel i cp).
Proof. induction fuel as [|fuel IH]; cbn [reparent]; rewrite ?/is_zombie; keeps_solve. Qed.
#[export] Hint Resolve zk_set_parent zk_start zk_reparent : keeps.
(** The current process, through calls that switch none. *)
Lemma this_cur i s cp s' c : on_pk (thisproc i) s = Ret cp s' → ∀ s0, curs s = curs s0 → cpus (pk s0) !! i = Some c → cp = cur_proc c.
Proof.
  intros [(c' & Hc' & ->) _]%thisproc_inv s0 E Hc. apply curs_cur in Hc, Hc'. rewrite E in Hc'. congruence.
Qed.
