(* ===== verification/ExecSafe.v ===== *)
(** * What [execve] leaves alone

    A call that fails leaves the process and its address space as they were; a call that
    succeeds leaves the descriptors alone and gives no section a file.  And the fuel of
    the loops over pages is enough. *)

From stdpp Require Import base numbers list gmap relations.
From S2P Require Import Prelude Bitmap Spinlock Pidmap Sem Bytes Str FsDefs BlockCache Cache CacheAlloc Inode InodeRead Pipe File Mem Pt Paging RBTree Cpu Sched Proc ProcTree ProcSteps SysFile Exec SysFd FdProc.

(** ** Failures *)
Definition robj (s : pstate) := (procs (pk s), psecs s, curs s).
Definition eobs (e : estate) := robj (eps e).
Section failures.
Lemma rk_pfs {X} (m : M fstate X) : keeps robj (on_pfs m).
Proof. by apply keeps_zoom. Qed.
Lemma rk_in {X} (m : M (istate (S := cstate)) X) : keeps robj (on_in m).
Proof. apply rk_pfs. Qed.
Lemma rk_km {X} (m : M mstate X) : keeps robj (on_km m).
Proof. by apply keeps_zoom. Qed.
Lemma rk_cwd {X} i (m : M (istate (S := cstate)) X) : keeps robj (in_cwd i m).
Proof.
  apply keeps_bind; [apply fh_this|]. intros cp. apply keeps_bind; [apply fh_pget|]. intros x. apply rk_in.
Qed.
#[local] Hint Resolve rk_in rk_km rk_cwd : keeps.
Lemma rk_begin ctx : keeps robj (begin_op ctx).
Proof. apply rk_in. Qed.
Lemma rk_end ctx : keeps robj (end_op ctx).
Proof. rewrite /end_op. keeps_solve. Qed.
Lemma rk_put ctx ip : keeps robj (iput ctx ip).
Proof. apply rk_in. Qed.
#[local] Hint Resolve rk_begin rk_end rk_put : keeps.
Lemma rk_exec_put ctx ip : keeps robj (exec_put ctx ip).
Proof. rewrite /exec_put. keeps_solve. Qed.
Lemma ek_eps {X} (m : M pstate X) : keeps robj m → keeps eobs (on_eps m).
Proof. apply keeps_zoom_in. intros v e. rewrite /eobs /=. done. Qed.
Lemma ek_es {X} i (m : M astate X) : keeps eobs (on_es i m).
Proof.
  intros e a e'. rewrite /on_es. destruct (cpus (pk (eps e)) !! i) as [c|] eqn:Ec; [|done]. destruct (m _); [|done..]. intros [= _ <-]. rewrite /eobs /robj /curs /=.
  rewrite list_fmap_insert /= list_insert_id //. by rewrite list_lookup_fmap Ec.
Qed.
Lemma ek_evm {X} i (m : M vmem X) : keeps eobs (on_evm i m).
Proof. apply ek_es. Qed.
Lemma ek_ein {X} (m : M (istate (S := cstate)) X) : keeps eobs (on_ein m).
Proof. apply ek_eps, rk_in. Qed.
#[local] Hint Resolve rk_exec_put ek_es ek_evm ek_ein : keeps.
#[local] Hint Extern 3 (keeps eobs (on_eps _)) => apply ek_eps; keeps_solve : keeps.
Lemma ek_load_pages i al fuel ip fl : ∀ va off n, keeps eobs (load_pages i al fuel ip fl va off n).
Proof. induction fuel as [|fuel IH]; intros va off n; cbn [load_pages]; keeps_solve. Qed.
Lemma ek_map_zero i z fuel : ∀ va n, keeps eobs (map_zero i z fuel va n).
Proof. induction fuel as [|fuel IH]; intros va n; cbn [map_zero]; keeps_solve. Qed.
Lemma ek_add_section i fl b e : keeps eobs (add_section i fl b e).
Proof. rewrite /add_section. keeps_solve. done. Qed.
#[local] Hint Resolve ek_load_pages ek_map_zero ek_add_section : keeps.
Lemma ek_load_segment F i al z ip ph m : keeps eobs (load_segment F i al z ip ph m).
Proof. rewrite /load_segment. keeps_solve. Qed.
#[local] Hint Resolve ek_load_segment : keeps.
Lemma ek_load_segments F i al z ip n : ∀ ph off m, keeps eobs (load_segments F i al z n ip ph off m).
Proof. induction n as [|n IH]; intros ph off m; cbn [load_segments]; keeps_solve. Qed.
Lemma ek_bad i ctx ip : keeps eobs (exec_bad i ctx ip).
Proof. rewrite /exec_bad. keeps_solve. Qed.
End failures.
#[export] Hint Resolve rk_in rk_cwd rk_begin rk_end rk_put rk_exec_put ek_load_segments ek_es ek_evm ek_ein ek_add_section ek_bad : keeps.

(** Only a call that succeeds returns 0, and a call that fails has changed neither a
    process nor a list of sections. *)
Lemma exec_image_fails F i ctx al z ip eh ph argv envp argv0 envp0 e r e' :
  exec_image F i ctx al z ip eh ph argv envp argv0 envp0 e = Ret r e' → r = 0 ∨ r = -1 ∧ eobs e' = eobs e.
Proof.
  intros H. rewrite /exec_image in H. peel H a e1 H1. pose proof (ek_eps _ (rk_km _) _ _ _ H1) as E1. peel H u e2 H2. pose proof (ek_es _ _ _ _ _ H2) as E2.
  peel H o e3 H3. pose proof (ek_load_segments _ _ _ _ _ _ _ _ _ _ _ _ H3) as E3. destruct o as [mx|].
  - left. do 3 (let v := fresh "v" in let x := fresh "x" in let Hx := fresh "Hx" in peel H v x Hx). peel H this e7 H7. peel H sp' e8 H8. peel H w e9 H9. by injection H as <- _.
  - right. pose proof (ek_bad _ _ _ _ _ _ H) as E4. split; [|by rewrite E4 E3 E2].
    rewrite /exec_bad in H. peel H v e4 H4. peel H w e5 H5. by injection H as <- _.
Qed.

(** C38: A program that cannot be loaded leaves the process as it was.  [execve] returns 0 or
    -1, and when it returns -1 (the path names no file, the file is too short for its
    header or for a program header, a segment has other rights than the two the loader
    knows, or its bytes run past the end of the file), no process has changed: neither its
    page directory, its registers, its descriptors nor its working directory, and no
    address space has lost or gained a section. *)
Theorem execve_failure_keeps_process F i ctx al z garbage ehdr0 phdr0 argv0 envp0 fresh_pd path argv envp s r s' :
  execve F i ctx al z garbage ehdr0 phdr0 argv0 envp0 fresh_pd path argv envp s = Ret r s' →
  r = 0 ∨ r = -1 ∧ procs (pk s') = procs (pk s) ∧ psecs s' = psecs s.
Proof.
  intros H. rewrite /execve in H. peel H u s1 H1. pose proof (rk_begin _ _ _ _ H1) as E1. peel H o s2 H2. pose proof (rk_cwd _ _ _ _ _ H2) as E2. rewrite E1 in E2.
  destruct o as [ip|].
  2:{ peel H v s3 H3. injection H as <- <-. pose proof (rk_end _ _ _ _ H3) as E3. rewrite E2 in E3. injection E3 as E3 E3' _. by right. }
  peel H v s3 H3. pose proof (rk_in _ _ _ _ H3) as E3. rewrite E2 in E3. peel H nl s4 H4. pose proof (rk_in _ _ _ _ H4) as E4. rewrite E3 in E4. destruct nl as [n l].
  destruct (n <? Ehdr_size F).
  - peel H w s5 H5. injection H as <- <-. pose proof (rk_exec_put _ _ _ _ _ H5) as E5. rewrite E4 in E5. injection E5 as E5 E5' _. by right.
  - peel H w s5 H5. apply assert_inv in H5 as [_ ->]. rewrite /in_exec in H. destruct (exec_image _ _ _ _ _ _ _ _ _ _ _ _ _) as [r' e'| | | |] eqn:E; [|done..]. injection H as <- <-.
    apply exec_image_fails in E as [->|[-> E]]; [by left|]. right. rewrite /eobs /= E4 in E. injection E as E E' _. done.
Qed.

(** ** Descriptors *)
(** Nothing changes but registers and address spaces: neither the files and the
    descriptors, nor which processes are zombies; no section gets a file. *)
Definition estill {X} (m : M estate X) : Prop := ∀ e a e', m e = Ret a e' → nofp (eps e) → nofile (esecs e) →
  dobs (eps e') = dobs (eps e) ∧ zobs (eps e') = zobs (eps e) ∧ nofp (eps e') ∧ nofile (esecs e').
Section descriptors.
Lemma estill_bind {X Y} (m : M estate X) (f : X → M estate Y) : estill m → (∀ a, estill (f a)) → estill (m ≫= f).
Proof.
  intros Hm Hf e b e' H N1 N2. peel H a e1 H1. destruct (Hm _ _ _ H1 N1 N2) as (E1 & Z1 & N3 & N4). destruct (Hf a _ _ _ H N3 N4) as (E2 & Z2 & N5 & N6).
  split_and!; [by rewrite E2|by rewrite Z2|done|done].
Qed.
Lemma estill_ret {X} (x : X) : estill (mret x).
Proof. by intros e a e' [= _ <-]. Qed.
Lemma estill_get : estill get.
Proof. by intros e a e' [= _ <-]. Qed.
Lemma estill_of_opt {X} (o : option X) : estill (of_opt o).
Proof. intros e a e' H. destruct o; [|done]. by injection H as _ <-. Qed.
Lemma estill_nofuel {X} : estill (nofuel (A := X)).
Proof. done. Qed.
Lemma estill_eps {X} (m : M pstate X) : still m → keeps zobs m → estill (on_eps m).
Proof.
  intros S K e a e' H N1 N2. rewrite /on_eps /zoom /= in H. destruct (m (eps e)) as [b s'| | | |] eqn:E; [|done..]. injection H as _ <-.
  destruct (S _ _ _ E N1) as [E1 N]. by rewrite /= E1 (K _ _ _ E).
Qed.
Lemma estill_es {X} i (m : M astate X) : quiet m → estill (on_es i m).
Proof.
  intros Q e a e'. rewrite /on_es. destruct (cpus (pk (eps e)) !! i) as [c|]; [|done]. destruct (m _) as [b z| | | |] eqn:E; [|done..]. intros [= _ <-] N1 N2.
  destruct (Q _ _ _ E N2) as [E1 N3]. split_and!; [|done|done|done]. by rewrite /dobs /refs /= E1.
Qed.
Lemma estill_evm {X} i (m : M vmem X) : estill (on_evm i m).
Proof. apply estill_es, quiet_av. Qed.
Lemma estill_ein {X} (m : M (istate (S := cstate)) X) : estill (on_ein m).
Proof.
  apply estill_eps; [apply keeps_still, sk_pfs, dk_on_inodes|]. apply zobs_of, pkeeps_pfs.
Qed.
End descriptors.
Create HintDb estill.
#[export] Hint Resolve estill_ret estill_get estill_of_opt estill_nofuel estill_evm estill_ein : estill.
Ltac estill_step :=
  intros;
  lazymatch goal with
  | |- estill (_ ≫= _) => apply estill_bind
  | |- estill (match ?x with _ => _ end) => destruct x
  | |- estill (on_es _ _) => apply estill_es; solve [auto with keeps]
  | |- estill (on_eps _) => first [solve [auto with estill]|apply estill_eps; [solve [still_solve]|solve [keeps_solve; try reflexivity]]]
  | |- estill _ => solve [auto with estill]
  end.
Ltac estill_solve := repeat estill_step.

Section exec.
Context (F : elf_format) (i : nat) (ctx : Z) (al : bool) (z : Z).
Lemma es_load_pages fuel ip fl : ∀ va off n, estill (load_pages i al fuel ip fl va off n).
Proof. induction fuel as [|fuel IH]; intros va off n; cbn [load_pages]; estill_solve. Qed.
Lemma es_map_zero fuel : ∀ va n, estill (map_zero i z fuel va n).
Proof. induction fuel as [|fuel IH]; intros va n; cbn [map_zero]; estill_solve. Qed.
Lemma es_add_section fl b e : estill (add_section i fl b e).
Proof.
  rewrite /add_section. apply estill_bind; [apply estill_evm|]. intros a x u x' [= _ <-] N1 N2. split_and!; try done. by apply Forall_cons.
Qed.
Lemma es_exec_put ip : estill (on_eps (exec_put ctx ip)).
Proof.
  assert (K : ∀ {Y} (P : pstate → Y), FilesHidden P i → keeps P (exec_put ctx ip)) by
    (intros Y P HP; rewrite /exec_put; keeps_solve; intros; first [apply (fh_in P i)|apply (fh_put P i)|apply (fh_end P i)]).
  intros x a x' H. rewrite /on_eps /zoom /= in H. destruct (exec_put ctx ip (eps x)) as [b s'| | | |] eqn:E; [|done..]. injection H as _ <-. intros N1 N2.
  assert (Kd : keeps dobs (exec_put ctx ip)) by (rewrite /exec_put; keeps_solve). pose proof (K _ zs _ _ _ _ E) as Ez. injection Ez as EF _ _ EP.
  split_and!; [exact (Kd _ _ _ E)|by rewrite /= /zobs /fobs EF|by rewrite /nofp /= EP|done].
Qed.
#[local] Hint Resolve es_load_pages es_map_zero es_add_section es_exec_put : estill.
Lemma es_load_segment ip ph m : estill (load_segment F i al z ip ph m).
Proof. rewrite /load_segment. estill_solve. Qed.
#[local] Hint Resolve es_load_segment : estill.
Lemma es_load_segments ip n : ∀ ph off m, estill (load_segments F i al z n ip ph off m).
Proof. induction n as [|n IH]; intros ph off m; cbn [load_segments]; estill_solve. Qed.
Lemma es_map_stack sp n : ∀ k, estill (map_stack i n sp k).
Proof. induction n as [|n IH]; intros k; cbn [map_stack]; estill_solve. Qed.
Lemma es_put_bytes sp l : estill (put_bytes i sp l).
Proof. rewrite /put_bytes. estill_solve. Qed.
#[local] Hint Resolve es_load_segments es_map_stack es_put_bytes : estill.
Lemma es_push_strings strs k : ∀ sp arr, estill (push_strings i k strs sp arr).
Proof. induction k as [|k IH]; intros sp arr; cbn [push_strings]; estill_solve. Qed.
#[local] Hint Resolve es_push_strings : estill.
Lemma es_push_vector o sp arr : estill (push_vector i o sp arr).
Proof. rewrite /push_vector. estill_solve. Qed.
#[local] Hint Resolve es_push_vector : estill.
Lemma es_push_args this sp argv envp argv0 envp0 : estill (push_args i this sp argv envp argv0 envp0).
Proof. rewrite /push_args. estill_solve. Qed.
Lemma es_switch this a sp entry : estill (switch_space i ctx this a sp entry).
Proof.
  rewrite /switch_space. do 2 (apply estill_bind; [estill_solve|intros _]). intros x r x' H N1 N2. peel H e e1 H1. injection H1 as <- <-. revert x r x' H N1 N2.
  intros x. enough (K : nofile (esecs x) → estill (on_eps (pupd this (set_pgdir (epd x)));; on_eps (modify (λ s, set_psecs (<[this := esecs x]> (psecs s)) s));;
    on_eps (on_km (kfree a));; ipt ← on_eps (gets (λ s, invalid_pt (pk s))); on_eps (on_space i this (on_av (attach_pgdir ipt))))) by (intros r x' H N1 N2; exact (K N2 _ _ _ H N1 N2)).
  intros Nx. apply estill_bind; [estill_solve|]. intros _. apply estill_bind; [|estill_solve].
  apply estill_eps; [|apply zobs_of; keeps_solve; try reflexivity]. intros s u s' [= _ <-] N. split; [done|]. by apply map_Forall_insert_2.
Qed.
#[local] Hint Resolve es_push_args es_switch : estill.
Lemma es_exec_image ip eh ph argv envp argv0 envp0 : estill (exec_image F i ctx al z ip eh ph argv envp argv0 envp0).
Proof. rewrite /exec_image /exec_bad /this_proc. estill_solve. Qed.

(** [execve] leaves the descriptors alone. *)
Definition calm {X} (m : M pstate X) : Prop := ∀ s a s', m s = Ret a s' → nofp s → dobs s' = dobs s ∧ zobs s' = zobs s ∧ nofp s'.
Lemma calm_files {X} (m : M pstate X) : keeps dobs m → keeps zs m → calm m.
Proof.
  intros Kd Kz s a s' H N. pose proof (Kz _ _ _ H) as Ez. injection Ez as EF _ _ EP. split_and!; [exact (Kd _ _ _ H)|by rewrite /zobs /fobs EF|by rewrite /nofp EP].
Qed.
Lemma calm_bind {X Y} (m : M pstate X) (f : X → M pstate Y) : calm m → (∀ a, calm (f a)) → calm (m ≫= f).
Proof.
  intros Hm Hf s b s' H N. peel H a s1 H1. destruct (Hm _ _ _ H1 N) as (E1 & Z1 & N1). destruct (Hf a _ _ _ H N1) as (E2 & Z2 & N2). split_and!; [by rewrite E2|by rewrite Z2|done].
Qed.
Lemma calm_in_exec {X} pd0 (m : M estate X) : estill m → calm (in_exec pd0 m).
Proof.
  intros Hm s a s' H N. rewrite /in_exec in H. destruct (m _) as [b e| | | |] eqn:E; [|done..]. injection H as _ <-.
  destruct (Hm _ _ _ E N) as (E1 & Z1 & N1 & _); [apply Forall_nil_2|]. done.
Qed.
Lemma calm_execve garbage ehdr0 phdr0 argv0 envp0 fresh_pd path argv envp : calm (execve F i ctx al z garbage ehdr0 phdr0 argv0 envp0 fresh_pd path argv envp).
Proof.
  assert (Kin : ∀ X (m : M (istate (S := cstate)) X), calm (on_in m)) by (intros X m; apply calm_files; [apply dk_in|apply (fh_in zs i)]).
  assert (Kend : calm (end_op ctx)) by (apply calm_files; [apply dk_end|apply (fh_end zs i)]).
  assert (Kret : ∀ X (x : X), calm (mret x)) by (intros X x; apply calm_files; apply keeps_ret).
  assert (Kput : ∀ ip, calm (exec_put ctx ip)) by (intros ip; apply calm_bind; [apply Kin|]; intros; apply calm_bind; [apply Kin|by intros]).
  rewrite /execve. apply calm_bind; [apply Kin|]. intros _. apply calm_bind; [apply calm_files; [apply dk_cwd|apply (fh_in_cwd zs i)]|]. intros [ip|].
  - apply calm_bind; [apply Kin|]. intros _. apply calm_bind; [apply Kin|]. intros [n l]. destruct (n <? Ehdr_size F); [apply calm_bind; [apply Kput|intros; apply Kret]|].
    apply calm_bind; [apply calm_files; apply keeps_assert|]. intros _. apply calm_in_exec, es_exec_image.
  - apply calm_bind; [apply Kend|intros; apply Kret].
Qed.
Lemma calm_sys_execve garbage ehdr0 phdr0 argv0 envp0 fresh_pd path argv envp : calm (sys_execve F i ctx al z garbage ehdr0 phdr0 argv0 envp0 fresh_pd path argv envp).
Proof.
  apply calm_bind; [apply calm_files; [apply dk_user_strlen|apply (fh_strlen zs i)]|]. intros n. destruct (n =? 0); [apply calm_files; apply keeps_ret|].
  apply calm_bind; [apply calm_execve|]. intros r. apply calm_files; apply keeps_ret.
Qed.
End exec.
