(* ===== verification/ExecRun.v ===== *)
(** * The program that [execve] starts

    The registers, the stack and the arguments of the new program, and a run of the kernel
    on an image that mkfs made. *)

From stdpp Require Import base numbers list gmap relations.
From S2P Require Import Prelude Bitmap Spinlock Pidmap Sem Bytes Str FsDefs BlockCache Cache CacheOps CacheAlloc Console Inode InodeRead Pipe File Mem Pt Paging RBTree Cpu Sched Proc ProcTree ProcSteps SysFile Exec SysFd FdProc ExecSafe.

(** ** Where the arguments go *)
(** The stack pointer after the strings, which are pushed from the last to the first. *)
Definition strings_sp (strs : list (list Z)) (sp : Z) : Z := foldr (λ str sp, string_at sp (length str)) sp strs.
(** Where the strings of the environment and of the arguments start. *)
Definition envs_sp (top : Z) (envp : option (list (list Z))) : Z := strings_sp (default [] envp) (u64 (top - 16)).
Definition argvs_sp (top : Z) (argv envp : option (list (list Z))) : Z := strings_sp (default [] argv) (u64 (envs_sp top envp - 8)).
(** The stack pointer of the new program: below the strings are the two vectors, of
    [argc + 1] entries each, and the count. *)
Definition argv_at (top : Z) (argv envp : option (list (list Z))) : Z :=
  let n := Z.of_nat (length (default [] argv) + 1) in u64 (u64 (argvs_sp top argv envp - n * 8) - n * 8).
Definition args_sp (top : Z) (argv envp : option (list (list Z))) : Z := u64 (argv_at top argv envp - 8).

Lemma strings_sp_take strs k str sp : strs !! k = Some str → strings_sp (take (S k) strs) sp = strings_sp (take k strs) (string_at sp (length str)).
Proof. intros H. rewrite /strings_sp (take_S_r _ _ str) // foldr_app. done. Qed.

Section run.
Context (i : nat).
Lemma put_bytes_eobs sp l : keeps eobs (put_bytes i sp l).
Proof. rewrite /put_bytes. keeps_solve. Qed.
Lemma push_strings_spec strs k : ∀ sp arr e sp' arr' e', push_strings i k strs sp arr e = Ret (sp', arr') e' →
  sp' = strings_sp (take k strs) sp ∧ eobs e' = eobs e ∧ length arr' = length arr ∧ (∀ j, (k ≤ j)%nat → arr' !! j = arr !! j) ∧
  ∀ j, (j < k)%nat → arr' !! j = Some (strings_sp (drop j (take k strs)) sp).
Proof.
  induction k as [|k IH]; intros sp arr e sp' arr' e' H; cbn [push_strings] in H.
  { injection H as <- <- <-. split_and!; try done. intros j Hj. lia. }
  peel H str e1 H1. destruct (strs !! k) as [str'|] eqn:Ek; [|done]. injection H1 as <- <-. peel H u e2 H2. pose proof (put_bytes_eobs _ _ _ _ _ H2) as E2.
  peel H v e3 H3. destruct (arr !! k) as [v'|] eqn:Ea; [|done]. injection H3 as <- <-. apply IH in H as (-> & E & HL & Hhi & Hlo). rewrite (strings_sp_take _ _ _ _ Ek).
  pose proof (lookup_lt_Some _ _ _ Ea) as Hlt. split_and!; [done|by rewrite E E2|by rewrite HL length_insert| |].
  - intros j Hj. rewrite Hhi; [lia|]. rewrite list_lookup_insert_ne; [lia|done].
  - intros j Hj. rewrite (take_S_r _ _ _ Ek). destruct (decide (j = k)) as [->|Hne].
    + rewrite Hhi; [lia|]. rewrite list_lookup_insert_eq //. rewrite drop_app_length'; [rewrite length_take; pose proof (lookup_lt_Some _ _ _ Ek); lia|done].
    + rewrite Hlo; [lia|]. rewrite drop_app_le; [rewrite length_take; pose proof (lookup_lt_Some _ _ _ Ek); lia|]. by rewrite /strings_sp foldr_app.
Qed.
Lemma push_vector_spec o sp arr e sp' arr' e' : push_vector i o sp arr e = Ret (sp', arr') e' →
  sp' = strings_sp (default [] o) sp ∧ eobs e' = eobs e ∧ (length (default [] o) < length arr)%nat ∧ arr' !! length (default [] o) = Some 0 ∧
  ∀ j, (j < length (default [] o))%nat → arr' !! j = Some (strings_sp (drop j (default [] o)) sp).
Proof.
  intros H. rewrite /push_vector in H. peel H q e1 H1. destruct q as [sp1 arr1]. apply push_strings_spec in H1 as (-> & E & HL & Hhi & Hlo). pose proof (firstn_all (default [] o)) as Et. rewrite Et in H, Hlo.
  peel H v e2 H2. destruct (arr1 !! length (default [] o)) as [v'|] eqn:Ea; [|done]. injection H2 as <- <-. injection H as <- <- <-. pose proof (lookup_lt_Some _ _ _ Ea) as Hlt.
  split_and!; [done|done|by rewrite -HL|by apply list_lookup_insert_eq|]. intros j Hj. rewrite list_lookup_insert_ne; [lia|]. by apply Hlo.
Qed.
End run.

(** ** The registers *)
Lemma on_eps_inv {X} (m : M pstate X) e a e' : on_eps m e = Ret a e' → m (eps e) = Ret a (eps e') ∧ epd e' = epd e ∧ esecs e' = esecs e.
Proof. rewrite /on_eps /zoom /=. destruct (m (eps e)) as [b s'| | | |]; [|done..]. by intros [= -> <-]. Qed.
Lemma pupd_inv p f s u s' : pupd p f s = Ret u s' → ∃ x, procs (pk s) !! p = Some x ∧ procs (pk s') = <[p := f x]> (procs (pk s)) ∧ psecs s' = psecs s ∧ curs s' = curs s.
Proof.
  rewrite /pupd /on_pk /zoom /=. destruct (upd_proc p f (pk s)) as [? k'| | | |] eqn:E; [|done..]. intros [= _ <-]. apply upd_proc_inv in E as (x & Hx & ->). by exists x.
Qed.
Lemma on_space_inv {X} i p (m : M astate X) s a s' : on_space i p m s = Ret a s' →
  ∃ x y c v, procs (pk s) !! p = Some x ∧ procs (pk s') = <[p := set_pgdir y x]> (procs (pk s)) ∧ curs s' = curs s ∧
    m (mkAS (mkVM (km (pk s)) (p_pgdir x) (c_ttbr0 c)) (default [] (psecs s !! p)) (pfs s)) = Ret a v ∧ y = pd (av v) ∧ psecs s' = <[p := sections v]> (psecs s).
Proof.
  rewrite /on_space. destruct (procs (pk s) !! p) as [x|] eqn:Ex; [|done]. destruct (cpus (pk s) !! i) as [c|] eqn:Ec; [|done].
  destruct (m _) as [b v| | | |] eqn:Em; [|done..]. intros [= -> <-]. exists x, (pd (av v)), c, v. split_and!; try done.
  rewrite /curs /= list_fmap_insert /= list_insert_id //. by rewrite list_lookup_fmap Ec.
Qed.

Section args.
Context (i : nat).
Lemma nk_evm {X} (m : M vmem X) : keeps esecs (on_evm i m).
Proof.
  intros e a e'. rewrite /on_evm /on_es /on_av /zoom. destruct (cpus _ !! i); [|done]. simpl. destruct (m _); [|done..]. by intros [= _ <-].
Qed.
Lemma nk_eps {X} (m : M pstate X) : keeps esecs (on_eps m).
Proof. by apply keeps_zoom. Qed.
#[local] Hint Resolve nk_evm nk_eps : keeps.
Lemma nk_put_bytes sp l : keeps esecs (put_bytes i sp l).
Proof. rewrite /put_bytes. keeps_solve. Qed.
#[local] Hint Resolve nk_put_bytes : keeps.
Lemma nk_push_strings strs k : ∀ sp arr, keeps esecs (push_strings i k strs sp arr).
Proof. induction k as [|k IH]; intros sp arr; cbn [push_strings]; keeps_solve. Qed.
#[local] Hint Resolve nk_push_strings : keeps.
Lemma nk_push_args this top argv envp argv0 envp0 : keeps esecs (push_args i this top argv envp argv0 envp0).
Proof. rewrite /push_args /push_vector. keeps_solve. Qed.
Lemma push_args_spec this top argv envp argv0 envp0 e sp e' : push_args i this top argv envp argv0 envp0 e = Ret sp e' →
  sp = args_sp top argv envp ∧ psecs (eps e') = psecs (eps e) ∧ curs (eps e') = curs (eps e) ∧
  ∃ x, procs (pk (eps e)) !! this = Some x ∧
    procs (pk (eps e')) = <[this := set_reserved 1 (argv_at top argv envp)
      (set_reserved 0 (Z.of_nat (length (default [] argv))) x)]> (procs (pk (eps e))) ∧ esecs e' = esecs e.
Proof.
  intros H. pose proof (nk_push_args _ _ _ _ _ _ _ _ _ H) as ES. rewrite /push_args in H. peel H u e1 H1. pose proof (put_bytes_eobs _ _ _ _ _ _ H1) as E1. peel H q e2 H2. destruct q as [sp1 envp_p].
  apply push_vector_spec in H2 as (-> & E2 & _). rewrite E1 in E2. peel H v e3 H3. pose proof (put_bytes_eobs _ _ _ _ _ _ H3) as E3. rewrite E2 in E3.
  peel H q e4 H4. destruct q as [sp2 argv_p]. apply push_vector_spec in H4 as (-> & E4 & _). rewrite E3 in E4. injection E4 as EP4 ES4 EC4.
  change (strings_sp _ (u64 (strings_sp _ (u64 (top - 16)) - 8))) with (argvs_sp top argv envp) in H.
  peel H w e5 H5. apply on_eps_inv in H5 as (H5 & _). apply pupd_inv in H5 as (x & Hx & EP5 & ES5 & EC5). rewrite EP4 in Hx, EP5.
  peel H w6 e6 H6. pose proof (put_bytes_eobs _ _ _ _ _ _ H6) as E6. injection E6 as EP6 ES6 EC6.
  peel H w7 e7 H7. apply on_eps_inv in H7 as (H7 & _). apply pupd_inv in H7 as (y & Hy & EP7 & ES7 & EC7). rewrite EP6 EP5 lookup_insert_eq in Hy. injection Hy as <-.
  peel H w8 e8 H8. pose proof (put_bytes_eobs _ _ _ _ _ _ H8) as E8. injection E8 as EP8 ES8 EC8.
  peel H w9 e9 H9. pose proof (put_bytes_eobs _ _ _ _ _ _ H9) as E9. injection E9 as EP9 ES9 EC9. injection H as <- <-.
  split_and!; [done|congruence|congruence|]. exists x. split_and!; [done|by rewrite EP9 EP8 EP7 EP6 EP5 insert_insert_eq|done].
Qed.
End args.

Lemma attach_pt ipt : keeps (λ s, pt (pd s)) (attach_pgdir ipt).
Proof.
  assert (Kmm : ∀ X (m : M mstate X), keeps (λ s, pt (pd s)) (on_mm m)) by (intros X m s b s'; rewrite /on_mm; destruct (m (mm s)); [|done..]; by intros [= _ <-]).
  assert (Kst : ∀ a v, keeps (λ s, pt (pd s)) (store_byte0 a v)) by (intros a v; rewrite /store_byte0 /load64 /store64; keeps_solve).
  rewrite /attach_pgdir /load64. keeps_solve; try (by apply keeps_acquire); try (by apply keeps_release); try done.
Qed.
Section switch.
Context (i : nat) (ctx : Z).
(** The process that is started: [x] with its registers, its address space the new one. *)
Lemma switch_space_spec this a v entry e u e' x : switch_space i ctx this a v entry e = Ret u e' → procs (pk (eps e)) !! this = Some x →
  curs (eps e') = curs (eps e) ∧ psecs (eps e') = <[this := esecs e]> (psecs (eps e)) ∧
  ∃ y, pt y = pt (epd e) ∧ procs (pk (eps e')) = <[this := set_pgdir y (set_start v entry x)]> (procs (pk (eps e))).
Proof.
  intros H Hx. rewrite /switch_space in H. peel H u1 e1 H1. apply on_eps_inv in H1 as (H1 & D1 & S1). apply on_space_inv in H1 as (x1' & y1 & c1 & v1 & Hx1 & P1 & C1 & _ & _ & Q1).
  rewrite Hx in Hx1. injection Hx1 as <-. peel H u2 e2 H2. apply on_eps_inv in H2 as (H2 & D2 & S2). apply pupd_inv in H2 as (x2' & Hx2 & P2 & Q2 & C2).
  rewrite P1 lookup_insert_eq in Hx2. injection Hx2 as <-. peel H ee e3 H3. injection H3 as <- <-.
  peel H u4 e4 H4. apply on_eps_inv in H4 as (H4 & D4 & S4). apply pupd_inv in H4 as (x4' & Hx4 & P4 & Q4 & C4). rewrite P2 lookup_insert_eq in Hx4. injection Hx4 as <-.
  peel H u5 e5 H5. apply on_eps_inv in H5 as (H5 & D5 & S5). injection H5 as _ H5. peel H u6 e6 H6. apply on_eps_inv in H6 as (H6 & D6 & S6). pose proof (rk_km _ _ _ _ H6) as E6.
  injection E6 as P6 Q6 C6. peel H ipt e7 H7. apply on_eps_inv in H7 as (H7 & _). injection H7 as _ H7. apply on_eps_inv in H as (H & _). rewrite -H7 in H.
  apply on_space_inv in H as (x8 & y8 & c8 & v8 & Hx8 & P8 & C8 & H8 & -> & Q8).
  assert (EQ : psecs (eps e6) = <[this := esecs e]> (psecs (eps e))) by (by rewrite Q6 -H5 /= Q4 Q2 Q1 insert_insert_eq S2 S1). rewrite EQ lookup_insert_eq /= in H8.
  assert (EP : procs (pk (eps e6)) = procs (pk (eps e4))) by (by rewrite P6 -H5). rewrite EP P4 lookup_insert_eq in Hx8. injection Hx8 as <-.
  assert (EC : curs (eps e6) = curs (eps e4)) by (by rewrite C6 -H5). revert H8. rewrite /on_av /zoom /=. destruct (attach_pgdir _ _) as [? w| | | |] eqn:Ea; [|done..]. intros [= _ <-].
  apply attach_pt in Ea. simpl in Ea. split_and!; [congruence|by rewrite Q8 EQ insert_insert_eq|].
  exists (pd w). split; [by rewrite Ea /= D2 D1|]. rewrite P8 EP P4 P2 P1 !insert_insert_eq. done.
Qed.
End switch.

Lemma add_section_view i fl b e x u x' : add_section i fl b e x = Ret u x' → ∃ a, esecs x' = (a, mkSec fl init_sleeplock b e None 0 0) :: esecs x.
Proof.
  intros H. rewrite /add_section in H. peel H a x1' H1. injection H as _ <-. exists a. f_equal. revert H1. rewrite /on_evm /on_es. destruct (cpus _ !! i); [|done].
  rewrite /on_av /zoom /=. destruct (on_mm _ _); [|done..]. by intros [= _ <-].
Qed.

(** ** What the loader reads *)
(** [stays I m]: whenever [m] returns from a state with [I], the new state has [I]. *)
Definition stays {S A} (I : S → Prop) (m : M S A) : Prop := ∀ s a s', m s = Ret a s' → I s → I s'.
Section stays_rules.
Context {S : Type} (I : S → Prop).
Lemma stays_bind {A B} (m : M S A) (k : A → M S B) : stays I m → (∀ a, stays I (k a)) → stays I (m ≫= k).
Proof. intros Hm Hk s b s' (a & t & H1 & H2)%bind_ret_inv Hs. exact (Hk a t b s' H2 (Hm _ _ _ H1 Hs)). Qed.
Lemma stays_keeps {A X} (f : S → X) (J : X → Prop) (m : M S A) : keeps f m → stays (λ s, J (f s)) m.
Proof. intros Hm s a s' H. by rewrite (Hm _ _ _ H). Qed.
Lemma stays_pure {A} (m : M S A) : keeps (λ s, s) m → stays I m.
Proof. intros Hm s a s' H. by rewrite (Hm _ _ _ H). Qed.
End stays_rules.
Create HintDb stays.
#[export] Hint Extern 9 (stays _ _) => apply stays_pure; solve [auto with keeps] : stays.
Ltac stays_step :=
  intros;
  lazymatch goal with
  | |- stays _ (_ ≫= _) => apply stays_bind
  | |- stays _ (match ?x with _ => _ end) => destruct x
  | |- stays _ _ => solve [auto with stays]
  end.
Ltac stays_solve := repeat stays_step.

(** The root of a page table, once it is there, stays. *)
Section root.
Context (p : Z) (Hp : p ≠ 0).
Definition rooted (v : vmem) : Prop := pt (pd v) = p.
Lemma root_mm {X} (m : M mstate X) : keeps (λ v, pt (pd v)) (on_mm m).
Proof. intros v a v'. rewrite /on_mm. destruct (m (mm v)); [|done..]. by intros [= _ <-]. Qed.
#[local] Hint Resolve root_mm : keeps.
Lemma root_load a : keeps (λ v, pt (pd v)) (load64 a).
Proof. rewrite /load64. keeps_solve. Qed.
Lemma root_store a x : keeps (λ v, pt (pd v)) (store64 a x).
Proof. rewrite /store64. keeps_solve. Qed.
#[local] Hint Resolve root_load root_store : keeps.
Lemma root_zero q : keeps (λ v, pt (pd v)) (zero_page q).
Proof. apply root_mm. Qed.
#[local] Hint Resolve root_zero : keeps.
Lemma root_new : keeps (λ v, pt (pd v)) new_table.
Proof. rewrite /new_table. keeps_solve. Qed.
#[local] Hint Resolve root_new : keeps.
Lemma root_next t k al : keeps (λ v, pt (pd v)) (next_table t k al).
Proof. rewrite /next_table. keeps_solve. Qed.
Lemma root_bytes l : ∀ a, keeps (λ v, pt (pd v)) (store_bytes a l).
Proof. induction l as [|x l IH]; intros a; cbn [store_bytes]; rewrite /store8; keeps_solve. Qed.
#[local] Hint Resolve root_next root_bytes : keeps.
#[local] Hint Extern 5 (stays rooted _) => apply (stays_keeps (λ v, pt (pd v)) (λ x, x = p)); solve [auto with keeps] : stays.
Lemma rooted_pte va al : stays rooted (get_pte va al).
Proof.
  intros v o v' H Hv. rewrite /get_pte in H. peel H x v1 H1. injection H1 as <- <-.
  peel H ok v2 H2. rewrite (proj2 (Z.eqb_neq (pt (pd v)) 0)) in H2; [by rewrite Hv|]. injection H2 as <- <-.
  revert v o v' H Hv. change (stays rooted (pt0 ← gets (λ s, pt (pd s));
    o1 ← next_table pt0 (VA_PART0 va) al;
    match o1 with None => mret None | Some pt1 =>
      o2 ← next_table pt1 (VA_PART1 va) al;
      match o2 with None => mret None | Some pt2 =>
        o3 ← next_table pt2 (VA_PART2 va) al;
        match o3 with None => mret None | Some pt3 => mret (Some (pt3 + 8 * VA_PART3 va)) end end end)). stays_solve.
Qed.
#[local] Hint Resolve rooted_pte : stays.
Lemma rooted_vmmap va ka fl : stays rooted (vmmap va ka fl).
Proof. rewrite /vmmap. stays_solve. Qed.
Lemma rooted_copyout_loop fuel : ∀ va l n, stays rooted (copyout_loop fuel va l n).
Proof. induction fuel as [|fuel IH]; intros va l n; cbn [copyout_loop]; stays_solve. Qed.
#[local] Hint Resolve rooted_vmmap rooted_copyout_loop : stays.
Lemma rooted_copyout va l n : stays rooted (copyout va l n).
Proof. rewrite /copyout. stays_solve. Qed.

Context (i : nat).
Definition erooted (e : estate) : Prop := pt (epd e) = p.
Lemma erooted_evm {X} (m : M vmem X) : stays rooted m → stays erooted (on_evm i m).
Proof.
  intros Hm e a e'. rewrite /on_evm /on_es. destruct (cpus _ !! i) as [c|]; [|done]. rewrite /on_av /zoom /=. destruct (m _) as [b v| | | |] eqn:E; [|done..].
  intros [= _ <-] He. by apply (Hm _ _ _ E).
Qed.
Lemma erooted_eps {X} (m : M pstate X) : stays erooted (on_eps m).
Proof. apply (stays_keeps epd (λ d, pt d = p)). by apply keeps_zoom. Qed.
Lemma erooted_modify f : (∀ e, epd (f e) = epd e) → stays erooted (modify f).
Proof. intros H e a e' [= _ <-]. by rewrite /erooted H. Qed.
#[local] Hint Resolve rooted_copyout erooted_eps : stays.
#[local] Hint Extern 4 (stays erooted (on_ein _)) => apply erooted_eps : stays.
#[local] Hint Extern 4 (stays erooted (on_evm _ _)) => apply erooted_evm; auto with stays : stays.
#[local] Hint Extern 4 (stays erooted (modify _)) => apply erooted_modify; done : stays.
Lemma erooted_add fl b e : stays erooted (add_section i fl b e).
Proof. rewrite /add_section. stays_solve. Qed.
Lemma erooted_pages al fuel ip fl : ∀ va off n, stays erooted (load_pages i al fuel ip fl va off n).
Proof. induction fuel as [|fuel IH]; intros va off n; cbn [load_pages]; stays_solve. Qed.
Lemma erooted_zero z fuel : ∀ va n, stays erooted (map_zero i z fuel va n).
Proof. induction fuel as [|fuel IH]; intros va n; cbn [map_zero]; stays_solve. Qed.
#[local] Hint Resolve erooted_add erooted_pages erooted_zero : stays.
Lemma erooted_segments F al z ip n : ∀ ph off m, stays erooted (load_segments F i al z n ip ph off m).
Proof. induction n as [|n IH]; intros ph off m; cbn [load_segments]; rewrite /load_segment; stays_solve. Qed.
Lemma erooted_stack n sp : ∀ k, stays erooted (map_stack i n sp k).
Proof. induction n as [|n IH]; intros k; cbn [map_stack]; stays_solve. Qed.
Lemma erooted_strings k strs : ∀ sp arr, stays erooted (push_strings i k strs sp arr).
Proof. induction k as [|k IH]; intros sp arr; cbn [push_strings]; rewrite /put_bytes; stays_solve. Qed.
#[local] Hint Resolve erooted_strings : stays.
Lemma erooted_args this top argv envp argv0 envp0 : stays erooted (push_args i this top argv envp argv0 envp0).
Proof. rewrite /push_args /push_vector /put_bytes. stays_solve. Qed.
End root.

(** The file while it is open: the inode [it] in the table, a block of the cache, held by
    nobody, for every byte of its size. *)
Record file_open (st : istate (S := cstate)) (ip : Z) (it : Inode) : Prop := {
  op_inode : itab st !! ip = Some it;
  op_cache : cache_wf (icache st);
  op_type : ie_type (entry it) ≠ INODE_DEVICE;
  op_size : ie_num_bytes (entry it) < 2 ^ 32;
  op_blocks k : 0 ≤ k → k * BLOCK_SIZE < ie_num_bytes (entry it) → has_block (icache st) (entry it) k }.
(** The [n] bytes of the file at [off]. *)
Definition file_at (st : istate (S := cstate)) (it : Inode) (off n : Z) : list Z :=
  (λ j, default 0 (file_byte (content (icache st)) (entry it) (off + j))) <$> seqZ 0 n.

(** What is assumed of [elf.h]: the headers have a size, and offsets are not negative. *)
Record elf_ok (F : elf_format) : Prop := {
  eo_ehdr : 0 < Ehdr_size F < 2 ^ 32;
  eo_phdr : 0 < Phdr_size F < 2 ^ 32;
  eo_phoff l : bytes_ok l → 0 ≤ e_phoff F l;
  eo_offset l : bytes_ok l → 0 ≤ p_offset F l }.
(** The program headers, [n] of them from [off] on, and those that are loaded. *)
Fixpoint headers (F : elf_format) (st : istate (S := cstate)) (it : Inode) (n : nat) (off : Z) : list (list Z) :=
  match n with O => [] | S n => file_at st it off (Phdr_size F) :: headers F st it n (u64 (off + Phdr_size F)) end.
Definition loaded (F : elf_format) (phs : list (list Z)) : list (list Z) := filter (λ ph, p_type F ph = PT_LOAD F) phs.
(** The section of a segment and where it ends. *)
Definition segment_section (F : elf_format) (ph : list Z) (r : Z * section) : Prop :=
  ∃ fl e, section_kind F ph = Some (fl, e) ∧ r.2 = mkSec fl init_sleeplock (p_vaddr F ph) e None 0 0.
Definition segment_end (F : elf_format) (ph : list Z) : Z := match section_kind F ph with Some (_, e) => e | None => 0 end.
Definition last_end (F : elf_format) (mx : Z) (phs : list (list Z)) : Z := foldl (λ m ph, Z.max m (segment_end F ph)) mx phs.

Section file.
Context (st0 : istate (S := cstate)) (ip : Z) (it : Inode) (Hopen : file_open st0 ip it).
(** The loader's view of the file does not change. *)
Definition backed (st : istate (S := cstate)) : Prop := itab st !! ip = Some it ∧ same sblock (icache st0) (icache st).
Lemma read_bound al off cnt st r st' : itab st !! ip = Some it → inode_read al ip off cnt st = Ret r st' → off ≤ ie_num_bytes (entry it).
Proof.
  intros Hi H. rewrite /inode_read in H. peel H x s1 H1. rewrite (iget_run _ _ _ Hi) in H1. injection H1 as <- <-.
  rewrite (proj2 (Z.eqb_neq _ _) (op_type _ _ _ Hopen)) in H. peel H u s2 H2. apply assert_inv in H2 as [H2 _]. by apply Z.leb_le.
Qed.
Lemma read_backed al off cnt st n l st' :
  backed st → 0 ≤ off → 0 ≤ cnt < 2 ^ 32 → inode_read al ip off cnt st = Ret (n, l) st' →
  backed st' ∧ n = Z.min cnt (ie_num_bytes (entry it) - off) ∧ l = file_at st0 it off n.
Proof.
  intros [Hi Hs] H0 Hc H. pose proof (read_bound _ _ _ _ _ _ Hi H) as Ho.
  pose proof Hs as ((W & _) & _).
  destruct (inode_read_spec (BC := cache_ops) sblock (laws := cache_ops_laws) al st ip it off cnt Hi W) as (l' & c' & R & Hs' & Hlen & Hl).
  - apply Hopen.
  - lia.
  - apply Hopen.
  - done.
  - intros k Hk Hlt. apply (has_block_same sblock _ _ _ _ Hs). by apply Hopen.
  - rewrite R in H. injection H as <- <- <-. split_and!; [|done|].
    + split; [done|]. exact (same_trans sblock _ _ _ Hs Hs').
    + rewrite /file_at. set (m := Z.min cnt _) in *. apply list_eq. intros j. destruct (decide (Z.of_nat j < m)) as [Hj|Hj].
      * specialize (Hl (Z.of_nat j) ltac:(lia)). rewrite Nat2Z.id in Hl. rewrite list_lookup_fmap lookup_seqZ_lt //= Z.add_0_l.
        rewrite -(file_byte_ext (content (icache st))); [exact (λ b, same_content sblock _ _ b Hs)|].
        destruct (lookup_lt_is_Some_2 l' j ltac:(lia)) as [x Hx]. rewrite Hx in Hl |- *. by rewrite -Hl.
      * rewrite list_lookup_fmap lookup_seqZ_ge /=; [lia|]. apply lookup_ge_None. lia.
Qed.
(** *** The pages of a segment *)
Context (i : nat) (al : bool) (z : Z).
Definition eback (e : estate) : Prop := backed (inodes (pfs (eps e))).
Lemma fs_evm {X} (m : M vmem X) : keeps (λ e, pfs (eps e)) (on_evm i m).
Proof.
  intros e a e'. rewrite /on_evm /on_es. destruct (cpus _ !! i); [|done]. rewrite /on_av /zoom /=. destruct (m _); [|done..]. by intros [= _ <-].
Qed.
Lemma eback_evm {X} (m : M vmem X) : stays eback (on_evm i m).
Proof. apply (stays_keeps (λ e, pfs (eps e)) (λ f, backed (inodes f))), fs_evm. Qed.
Lemma eback_secs f : stays eback (modify (λ e, set_esecs (f e) e)).
Proof. by intros e a e' [= _ <-]. Qed.
#[local] Hint Resolve eback_evm eback_secs : stays.
Lemma ein_inv {X} (m : M (istate (S := cstate)) X) e a e' : on_ein m e = Ret a e' → m (inodes (pfs (eps e))) = Ret a (inodes (pfs (eps e'))).
Proof.
  rewrite /on_ein. intros (H & _ & _)%on_eps_inv. revert H. rewrite /on_in /on_pfs /zoom /= /on_inodes. destruct (m _) as [b st| | | |]; [|done..]. by intros [= -> <-].
Qed.
Lemma eread off cnt e n l e' :
  eback e → 0 ≤ off → 0 ≤ cnt < 2 ^ 32 → on_ein (inode_read al ip off cnt) e = Ret (n, l) e' →
  eback e' ∧ n = Z.min cnt (ie_num_bytes (entry it) - off) ∧ l = file_at st0 it off n.
Proof. intros He H0 Hc H%ein_inv. by apply (read_backed al off cnt _ _ _ _ He). Qed.
Lemma page_part va : 0 ≤ va - PAGE_BASE va < 4096.
Proof.
  rewrite /PAGE_BASE /PAGE_SIZE. change (4096 - 1) with (Z.ones 12). rewrite -Z.ldiff_land Z.ldiff_ones_r // Z.shiftl_mul_pow2 // Z.shiftr_div_pow2 //.
  change (2 ^ 12) with 4096. dlia.
Qed.
Lemma eback_pages fuel fl : ∀ va off n e a e', 0 ≤ off → load_pages i al fuel ip fl va off n e = Ret a e' → eback e → eback e'.
Proof.
  induction fuel as [|fuel IH]; intros va off n e a e' H0 H He; cbn [load_pages] in H; destruct (Z.ltb_spec 0 n) as [Hn|Hn]; try done; try (by injection H as _ <-).
  peel H d e1 H1. pose proof (eback_evm _ _ _ _ H1 He) as B1. peel H u e2 H2. pose proof (eback_evm _ _ _ _ H2 B1) as B2. peel H w e3 H3. pose proof (eback_evm _ _ _ _ H3 B2) as B3.
  peel H r e4 H4. destruct r as [k l]. pose proof (page_part va) as Hpp. apply (eread _ _ _ _ _ _ B3) in H4 as (B4 & _ & _); [|done|change PAGE_SIZE with 4096; lia].
  peel H x e5 H5. pose proof (eback_evm _ _ _ _ H5 B4) as B5. destruct (negb _); [by injection H as _ <-|]. exact (IH _ _ _ _ _ _ (proj1 (wrap_range 64 _ ltac:(lia))) H B5).
Qed.
Lemma eback_zero fuel : ∀ va n, stays eback (map_zero i z fuel va n).
Proof. induction fuel as [|fuel IH]; intros va n; cbn [map_zero]; stays_solve. Qed.
Lemma eback_add fl b e : stays eback (add_section i fl b e).
Proof. rewrite /add_section. stays_solve. Qed.
Lemma nk_pages fuel fl : ∀ va off n, keeps esecs (load_pages i al fuel ip fl va off n).
Proof. induction fuel as [|fuel IH]; intros va off n; cbn [load_pages]; keeps_solve; try apply nk_evm; apply nk_eps. Qed.
Lemma nk_zero fuel : ∀ va n, keeps esecs (map_zero i z fuel va n).
Proof. induction fuel as [|fuel IH]; intros va n; cbn [map_zero]; keeps_solve; apply nk_evm. Qed.
(** *** The segments *)
Context (F : elf_format) (HF : elf_ok F).
Lemma file_at_bytes off n : bytes_ok (file_at st0 it off n).
Proof.
  apply Forall_fmap, Forall_true. intros j. rewrite /= /file_byte. destruct (block_index _ _ _) as [b|]; [|done]. simpl. destruct (b =? 0); [done|].
  destruct (content (icache st0) b) as [d|] eqn:E; [|done]. apply content_ok in E as [_ Hd]; [|apply Hopen]. simpl.
  destruct (d !! _) as [x|] eqn:Ex; [|done]. exact (Forall_lookup_1 _ _ _ _ Hd Ex).
Qed.
Lemma file_at_length off n : 0 ≤ n → length (file_at st0 it off n) = Z.to_nat n.
Proof. intros Hn. rewrite /file_at length_fmap length_seqZ. done. Qed.
Lemma load_segment_spec ph mx e mx' e' : load_segment F i al z ip ph mx e = Ret (Some mx') e' → eback e → 0 ≤ p_offset F ph →
  eback e' ∧ mx' = Z.max mx (segment_end F ph) ∧ ∃ r, segment_section F ph r ∧ esecs e' = r :: esecs e.
Proof.
  intros H He H0. rewrite /load_segment in H. destruct (section_kind F ph) as [[fl en]|] eqn:Ek; [|by injection H].
  peel H u e1 H1. pose proof (eback_add _ _ _ _ _ _ H1 He) as B1. apply add_section_view in H1 as [a S1].
  peel H o e2 H2. pose proof (eback_pages _ _ _ _ _ _ _ _ H0 H2 B1) as B2. apply nk_pages in H2 as S2. destruct o as [va|]; [|by injection H].
  peel H v e3 H3. assert (eback e3 ∧ esecs e3 = esecs e2) as [B3 S3].
  { destruct (_ && _); [|by injection H3 as _ <-]. split; [exact (eback_zero _ _ _ _ _ _ H3 B2)|exact (nk_zero _ _ _ _ _ _ H3)]. }
  injection H as <- <-. rewrite /segment_end Ek. split_and!; [done|destruct (Z.ltb_spec mx en); lia|].
  exists (a, mkSec fl init_sleeplock (p_vaddr F ph) en None 0 0). split; [by exists fl, en|]. by rewrite S3 S2 S1.
Qed.
Lemma load_segments_spec n : ∀ phdr off mx e mx' e',
  load_segments F i al z n ip phdr off mx e = Ret (Some mx') e' → eback e → 0 ≤ off → Z.of_nat (length phdr) = Phdr_size F →
  let phs := loaded F (headers F st0 it n off) in
  eback e' ∧ mx' = last_end F mx phs ∧ ∃ segs, Forall2 (segment_section F) (reverse phs) segs ∧ esecs e' = segs ++ esecs e.
Proof.
  induction n as [|n IH]; intros phdr off mx e mx' e' H He H0 Hlen; cbn [load_segments] in H.
  { injection H as <- <-. split_and!; [done|done|]. by exists []. }
  peel H r e1 H1. destruct r as [k l]. pose proof (nk_eps _ _ _ _ H1) as S1. pose proof (eo_phdr F HF) as Hsz. apply (eread _ _ _ _ _ _ He H0) in H1 as (B1 & Hk & ->); [|lia].
  destruct (Z.ltb_spec k (Phdr_size F)) as [Hlt|Hge]; [by injection H|]. assert (k = Phdr_size F) as -> by lia. clear Hk Hge.
  set (ph := file_at st0 it off (Phdr_size F)) in *. assert (Hph : length ph = length phdr) by (rewrite file_at_length; lia).
  assert (read_into phdr ph = ph) as E by (by rewrite /read_into Hph drop_all app_nil_r). rewrite E in H.
  assert (H0' : 0 ≤ u64 (off + Phdr_size F)) by (apply (wrap_range 64); lia). cbn [headers]. fold ph. rewrite /loaded.
  destruct (Z.eqb_spec (p_type F ph) (PT_LOAD F)) as [Ht|Ht]; cbn [negb] in H.
  - rewrite filter_cons_True //. peel H o e2 H2. destruct o as [mx1|]; [|by injection H].
    apply load_segment_spec in H2 as (B2 & -> & r & Hr & S2); [|done|apply (eo_offset F HF), file_at_bytes].
    apply IH in H as (B3 & -> & segs & Hsegs & S3); [|done|done|by rewrite Hph]. split_and!; [done|done|].
    exists (segs ++ [r]). rewrite S3 S2 S1. split; [|by rewrite -app_assoc]. rewrite reverse_cons. apply Forall2_app; [done|]. by repeat constructor.
  - rewrite filter_cons_False //. apply IH in H as (B3 & -> & segs & Hsegs & S3); [|done|done|by rewrite Hph]. split_and!; [done|done|]. exists segs. by rewrite S3 S1.
Qed.
End file.

(** ** The whole call *)
Lemma nk_stack i n sp : ∀ k, keeps esecs (map_stack i n sp k).
Proof. induction n as [|n IH]; intros k; cbn [map_stack]; keeps_solve; apply nk_evm. Qed.
Lemma ek_map_stack i sp n : ∀ k, keeps eobs (map_stack i n sp k).
Proof. induction n as [|n IH]; intros k; cbn [map_stack]; keeps_solve. Qed.
Lemma PAGE_BASE_aligned a : PAGE_BASE a mod 4096 = 0.
Proof.
  rewrite /PAGE_BASE /PAGE_SIZE. change (4096 - 1) with (Z.ones 12). rewrite -Z.ldiff_land Z.ldiff_ones_r // Z.shiftl_mul_pow2 //. change (2 ^ 12) with 4096. apply Z.mod_mul. done.
Qed.
Lemma u64_mod n x : (n | 2 ^ 64) → u64 x mod n = x mod n.
Proof. intros Hn. rewrite /u64 /wrap. by apply Z.mod_mod_divide. Qed.
Lemma u64_aligned x : u64 x mod 8 = x mod 8.
Proof. apply u64_mod. by exists (2 ^ 61). Qed.
Lemma string_at_aligned sp n : string_at sp n mod 8 = 0.
Proof. rewrite /string_at u64_aligned. set (x := u64 _). clearbody x. dlia. Qed.
Lemma strings_sp_aligned strs sp : sp mod 8 = 0 → strings_sp strs sp mod 8 = 0.
Proof. intros H. destruct strs as [|str strs]; [done|]. apply string_at_aligned. Qed.
Lemma below_aligned v n : v mod 8 = 0 → u64 (v - n * 8) mod 8 = 0.
Proof. intros H. rewrite u64_aligned Zminus_mod H Z.mod_mul //. Qed.
Lemma args_sp_aligned top argv envp : top mod 8 = 0 → args_sp top argv envp mod 8 = 0.
Proof.
  intros H. apply (below_aligned _ 1), below_aligned, below_aligned, strings_sp_aligned, (below_aligned _ 1), strings_sp_aligned, (below_aligned _ 2), H.
Qed.

Lemma top_aligned mx : u64 (PAGE_BASE mx + PAGE_SIZE + Z.of_nat STACK_PAGES * PAGE_SIZE) mod 4096 = 0.
Proof.
  rewrite u64_mod; [by exists (2 ^ 52)|]. pose proof (PAGE_BASE_aligned mx) as H. change (Z.of_nat STACK_PAGES) with 10. change PAGE_SIZE with 4096. revert H. generalize (PAGE_BASE mx). intros v H. dlia.
Qed.

(** *** The page table of the new program *)
Lemma mem_page_fresh m lb lp p m' : mem_inv m lb lp → kalloc_page m = Ret p m' → p ∉ lp ∧ p ≠ 0.
Proof.
  intros Hinv Hrun. destruct (pages m) as [|q ps] eqn:E; [by destruct (kalloc_page_empty m lb lp p m' Hinv E)|].
  destruct (kalloc_page_spec m lb lp q ps Hinv E) as (m1 & Hrun' & (_ & _ & _ & Hnd & _ & Hlp & _) & _). rewrite Hrun in Hrun'. injection Hrun' as <- <-.
  apply Forall_cons in Hlp as [(_ & _ & Hr & _) _]. split; [|rewrite /KSPACE_MASK in Hr; lia].
  intros Hin. rewrite /all_words /regions fmap_cons !bind_app in Hnd. do 3 apply NoDup_app in Hnd as (_ & _ & Hnd). rewrite bind_cons in Hnd. apply NoDup_app in Hnd as (_ & Hd & _).
  apply (Hd p); [apply elem_words_of; exists 0; lia|]. apply list_elem_of_bind. exists (page_region p). split; [apply elem_words_of; exists 0; lia|]. by apply list_elem_of_fmap_2.
Qed.
Lemma root_fresh n m lb lp a m1 p m2 : mem_inv m lb lp → 0 ≤ n ≤ 4088 → kalloc n m = Ret a m1 → kalloc_page m1 = Ret p m2 → p ∉ lp ∧ p ≠ 0.
Proof.
  intros Hinv Hn H1 H2. destruct (kalloc_cases m lb lp n Hinv Hn) as [(r & m1' & Hrun & Hpost)|[_ Hf]]; [|congruence].
  rewrite H1 in Hrun. injection Hrun as <- <-. destruct (kalloc_post_idx n m lb lp a m1 Hn Hpost) as [Hinv1 _]. exact (mem_page_fresh _ _ _ _ _ Hinv1 H2).
Qed.
Lemma init_space_inv i e u e' : on_es i init_space e = Ret u e' →
  (∃ m, kalloc_page (km (pk (eps e))) = Ret (pt (epd e')) m) ∧ esecs e' = [] ∧ pfs (eps e') = pfs (eps e).
Proof.
  rewrite /on_es. destruct (cpus _ !! i) as [c|]; [|done]. destruct (init_space _) as [b v| | | |] eqn:H; [|done..]. intros [= _ <-]. simpl.
  rewrite /init_space in H. peel H w v1 H1. injection H as _ <-. revert H1. rewrite /on_av /zoom /=. destruct (init_pgdir _) as [? vm| | | |] eqn:H; [|done..]. intros [= _ <-]. simpl.
  split; [|done]. rewrite /init_pgdir in H. peel H u1 t1 H1. injection H1 as _ <-. peel H u2 t2 H2. injection H2 as _ <-. peel H p t3 H3. injection H as _ <-. simpl.
  rewrite /new_table in H3. peel H3 q t4 H4. peel H3 u5 t5 H5. injection H3 as <- _. revert H4. rewrite /on_mm /=. destruct (kalloc_page _) as [? m| | | |] eqn:E; [|done..].
  intros [= <- _]. by exists m.
Qed.
Lemma km_in {X} (m : M (istate (S := cstate)) X) : keeps (λ s, km (pk s)) (on_in m).
Proof. by apply keeps_zoom. Qed.
Lemma km_cwd {X} i (m : M (istate (S := cstate)) X) : keeps (λ s, km (pk s)) (in_cwd i m).
Proof.
  rewrite /in_cwd /this_proc /pget /on_pk. apply keeps_bind; [|intros cp; apply keeps_bind; [|intros x; apply km_in]].
  - apply (keeps_zoom_in _ km); [done|]. rewrite /thisproc /get_cpu. keeps_solve.
  - apply (keeps_zoom_in _ km); [done|]. rewrite /get_proc. keeps_solve.
Qed.

(** The end of the stack: ten pages above the page after the last section. *)
Definition stack_top (F : elf_format) (phs : list (list Z)) : Z :=
  u64 (PAGE_BASE (last_end F 0 phs) + PAGE_SIZE + Z.of_nat STACK_PAGES * PAGE_SIZE).
(** The process [x] with its new registers and the page directory [y]. *)
Definition started (y : pgdir) (top entry : Z) (argv envp : option (list (list Z))) (x : proc) : proc :=
  set_pgdir y (set_start (args_sp top argv envp) entry
    (set_reserved 1 (argv_at top argv envp) (set_reserved 0 (Z.of_nat (length (default [] argv))) x))).
(** The stack's section before those of the segments, the last segment first. *)
Definition image_sections (F : elf_format) (phs : list (list Z)) (secs : list (Z * section)) : Prop :=
  ∃ a segs, secs = (a, mkSec ST_STACK init_sleeplock (u64 (stack_top F phs - 40960)) (stack_top F phs) None 0 0) :: segs ∧
    Forall2 (segment_section F) (reverse phs) segs.

Lemma exec_image_spec F i ctx al z st0 ip it eh phdr0 argv envp argv0 envp0 fresh_pd s e' c x lb lp :
  exec_image F i ctx al z ip eh phdr0 argv envp argv0 envp0 (mkES s fresh_pd []) = Ret 0 e' →
  cpus (pk s) !! i = Some c → procs (pk s) !! cur_proc c = Some x → file_open st0 ip it → elf_ok F →
  backed st0 ip it (inodes (pfs s)) → 0 ≤ e_phoff F eh → Z.of_nat (length phdr0) = Phdr_size F → mem_inv (km (pk s)) lb lp →
  let phs := loaded F (headers F st0 it (Z.to_nat (e_phnum F eh)) (e_phoff F eh)) in
  ∃ y secs, pt y ∉ lp ∧ pt y ≠ 0 ∧ image_sections F phs secs ∧
    procs (pk (eps e')) = <[cur_proc c := started y (stack_top F phs) (e_entry F eh) argv envp x]> (procs (pk s)) ∧
    psecs (eps e') = <[cur_proc c := secs]> (psecs s) ∧ curs (eps e') = curs s.
Proof.
  intros H Hc Hx Hopen HF Hb Hoff Hlen Hmem phs. set (e := mkES s fresh_pd []) in H. rewrite /exec_image in H.
  peel H b e1 H1. pose proof (ek_eps _ (rk_km _) _ _ _ H1) as E1. apply on_eps_inv in H1 as (H1 & _).
  peel H u2 e2 H2. pose proof (ek_es _ _ _ _ _ H2) as E2. rewrite E1 in E2. apply init_space_inv in H2 as ((m2 & Hpt) & S2 & F2).
  assert (Hroot : pt (epd e2) ∉ lp ∧ pt (epd e2) ≠ 0 ∧ pfs (eps e1) = pfs s).
  { revert H1. rewrite /on_km /zoom /=. destruct (kalloc _ _) as [? m1| | | |] eqn:Ek; [|done..]. intros [= -> He1]. rewrite -He1 in Hpt |- *. simpl in Hpt.
    destruct (root_fresh PGDIR_SIZE _ _ _ _ _ _ _ Hmem ltac:(done) Ek Hpt). done. }
  destruct Hroot as (Hlp & Hnz & F1).
  peel H o e3 H3. pose proof (ek_load_segments _ _ _ _ _ _ _ _ _ _ _ _ H3) as E3. rewrite E2 in E3.
  pose proof (erooted_segments _ Hnz _ _ _ _ _ _ _ _ _ _ _ _ H3 eq_refl) as R3. destruct o as [mx|].
  2:{ apply bind_ret_inv in H as (? & ? & ? & H). apply bind_ret_inv in H as (? & ? & ? & H). by injection H as ?. }
  apply (load_segments_spec st0 ip it Hopen i al z F HF) in H3 as (_ & -> & segs & Hsegs & S3); [|by rewrite /eback F2 F1|done|done].
  fold phs in Hsegs, H. rewrite S2 app_nil_r in S3. fold (stack_top F phs) in H. set (top := stack_top F phs) in *.
  peel H u4 e4 H5. pose proof (ek_eps _ (rk_exec_put _ _) _ _ _ H5) as E5. rewrite E3 in E5. apply on_eps_inv in H5 as (_ & R4 & S4).
  peel H u5 e5 H6. pose proof (ek_map_stack _ _ _ _ _ _ _ H6) as E6. rewrite E5 in E6. pose proof (nk_stack _ _ _ _ _ _ _ H6) as S5.
  pose proof (erooted_stack _ Hnz _ _ _ _ _ _ _ H6 ltac:(by rewrite /erooted R4)) as R5.
  peel H u6 e6 H7. pose proof (ek_add_section _ _ _ _ _ _ _ H7) as E7. rewrite E6 in E7. pose proof (erooted_add _ _ _ _ _ _ _ _ H7 R5) as R6. apply add_section_view in H7 as [a S6].
  peel H this e7 H8. apply on_eps_inv in H8 as (H8 & R7 & S7). assert (E8 : robj (eps e7) = robj s).
  { apply thisproc_inv in H8 as [_ H8]. rewrite H8. exact E7. }
  assert (C7 : curs (eps e6) = curs s) by (by injection E7 as _ _ C7).
  assert (this = cur_proc c) as -> by exact (this_cur _ _ _ _ _ H8 s C7 Hc). injection E8 as P8 Q8 C8.
  peel H sp1 e8 H9. pose proof (erooted_args _ Hnz _ _ _ _ _ _ _ _ _ _ H9 ltac:(by rewrite /erooted R7)) as R8.
  apply push_args_spec in H9 as (-> & Q9 & C9 & x0 & Hx0 & P9 & S9). rewrite P8 Hx in Hx0. injection Hx0 as <-. rewrite P8 in P9.
  peel H u9 e9 H10. injection H as <-.
  apply (switch_space_spec _ _ _ _ _ _ _ _ _ (set_reserved 1 (argv_at top argv envp) (set_reserved 0 (Z.of_nat (length (default [] argv))) x))) in H10
    as (C10 & Q10 & y & Ey & P10); [|by rewrite P9 lookup_insert_eq].
  rewrite R8 in Ey. exists y, (esecs e8). rewrite Ey. split_and!; [done|done| |by rewrite P10 P9 insert_insert_eq|by rewrite Q10 Q9 Q8|congruence].
  exists a, segs. split; [|done]. by rewrite S9 S7 S6 S5 S4 S3.
Qed.

(** The file at the path: what [execve] does before it reads. *)
Definition opens (i : nat) (ctx : Z) (garbage path : list Z) (s : pstate) (ip : Z) (s3 : pstate) : Prop :=
  ∃ s1 s2, begin_op ctx s = Ret () s1 ∧ in_cwd i (namei sblock garbage path (Some ctx)) s1 = Ret (Some ip) s2 ∧ on_in (inode_lock ip) s2 = Ret () s3.

(** C8: What a successful [execve] starts.  Let [ip] be the inode that the path names, [it]
    its entry in the table of inodes once it is locked, of a well-formed file; [eh] the
    first bytes of this file, and [phs] the program headers to load, as [eh] says where
    they are in the file.  Then the file begins with the ELF magic, and the process on the
    CPU, and no other, is changed: it runs from the entry point of [eh]; its first argument
    register holds the number of arguments and its second one the address of the argument
    vector, just above the stack pointer, which is a multiple of 8; it has a page directory
    whose root is a page that nobody used before the call; and its sections, which replace
    the old ones, are those of [phs], one for each, with the address, size and rights of the
    header, and in front of them a stack of ten pages, at a page boundary, above the end of
    all of them.  The descriptors, the working directory, the parent and everything else of
    the process stay.  What the pages of the new address space hold is not stated here
    ([demo_checks_hold] looks at them for an example). *)
Theorem execve_starts_program F i ctx al z garbage ehdr0 phdr0 argv0 envp0 fresh_pd path argv envp s s' c x ip it s3 lb lp :
  execve F i ctx al z garbage ehdr0 phdr0 argv0 envp0 fresh_pd path argv envp s = Ret 0 s' →
  cpus (pk s) !! i = Some c → procs (pk s) !! cur_proc c = Some x →
  opens i ctx garbage path s ip s3 → file_open (inodes (pfs s3)) ip it → elf_ok F →
  Z.of_nat (length ehdr0) = Ehdr_size F → Z.of_nat (length phdr0) = Phdr_size F → mem_inv (km (pk s)) lb lp →
  let f := inodes (pfs s3) in
  let eh := file_at f it 0 (Ehdr_size F) in
  let phs := loaded F (headers F f it (Z.to_nat (e_phnum F eh)) (e_phoff F eh)) in
  let top := stack_top F phs in
  strn 4 (e_ident F eh) = strn 4 (ELFMAG F) ∧
  args_sp top argv envp = u64 (argv_at top argv envp - 8) ∧ args_sp top argv envp mod 8 = 0 ∧ top mod 4096 = 0 ∧
  ∃ y secs, pt y ∉ lp ∧ pt y ≠ 0 ∧ image_sections F phs secs ∧
    procs (pk s') = <[cur_proc c := started y top (e_entry F eh) argv envp x]> (procs (pk s)) ∧
    psecs s' = <[cur_proc c := secs]> (psecs s) ∧ curs s' = curs s.
Proof.
  intros H Hc Hx (s1 & s2 & O1 & O2 & O3) Hopen HF Hle Hlp Hmem f eh phs top. rewrite /execve in H.
  rewrite (bind_run _ _ _ _ _ O1) (bind_run _ _ _ _ _ O2) (bind_run _ _ _ _ _ O3) in H.
  pose proof (rk_begin _ _ _ _ O1) as E1. pose proof (rk_cwd _ _ _ _ _ O2) as E2. pose proof (rk_in _ _ _ _ O3) as E3. rewrite E2 E1 in E3.
  pose proof (km_in _ _ _ _ O1) as K1. pose proof (km_cwd _ _ _ _ _ O2) as K2. pose proof (km_in _ _ _ _ O3) as K3.
  peel H nl s4 H4. pose proof (rk_in _ _ _ _ H4) as E4. rewrite E3 in E4. pose proof (km_in _ _ _ _ H4) as K4. simpl in K1, K2, K3, K4.
  destruct nl as [n l]. assert (H4' : inode_read al ip 0 (Ehdr_size F) f = Ret (n, l) (inodes (pfs s4))).
  { revert H4. rewrite /on_in /on_pfs /zoom /= /on_inodes. fold f. destruct (inode_read _ _ _ _ f) as [r st| | | |]; [|done..]. by intros [= -> <-]. }
  pose proof (eo_ehdr F HF) as Hsz. apply (read_backed f ip it Hopen) in H4' as (B4 & Hn & ->); [|split; [apply Hopen|apply (same_refl sblock), Hopen]|done|lia].
  destruct (Z.ltb_spec n (Ehdr_size F)) as [Hlt|Hge]; [by peel H w s5 H5; injection H as ?|]. assert (n = Ehdr_size F) as -> by lia. clear Hn Hge. fold eh in H.
  assert (read_into ehdr0 eh = eh) as E by (rewrite /read_into drop_ge ?app_nil_r // file_at_length; lia). rewrite E in H.
  peel H w s5 H5. apply assert_inv in H5 as [Hm%bool_decide_eq_true ->].
  rewrite /in_exec in H. destruct (exec_image _ _ _ _ _ _ _ _ _ _ _ _ _) as [r' e'| | | |] eqn:Ei; [|done..]. injection H as -> <-.
  injection E4 as P4 Q4 C4. assert (Hc4 : ∃ c4, cpus (pk s4) !! i = Some c4 ∧ cur_proc c4 = cur_proc c).
  { assert (Hl : curs s4 !! i = Some (cur_proc c)) by (by rewrite C4 /curs list_lookup_fmap Hc). rewrite /curs list_lookup_fmap in Hl.
    destruct (cpus (pk s4) !! i) as [c4|]; [|done]. exists c4. by injection Hl. }
  destruct Hc4 as (c4 & Hc4 & Ec4).
  destruct (exec_image_spec F i ctx al z f ip it eh phdr0 argv envp argv0 envp0 fresh_pd s4 e' c4 x lb lp Ei) as (y & secs & Y1 & Y2 & Y3 & Y4 & Y5 & Y6); try done.
  { by rewrite Ec4 P4. } { apply (eo_phoff F HF), (file_at_bytes f ip it Hopen). } { by rewrite K4 K3 K2 K1. }
  rewrite Ec4 in Y4, Y5. split_and!; [done|done| |exact (top_aligned _)|].
  - apply args_sp_aligned. assert (T : top mod 4096 = 0) by exact (top_aligned _). clearbody top. dlia.
  - exists y, secs. split_and!; [done|done|done|by rewrite Y4 P4|by rewrite Y5 Q4|by rewrite Y6].
Qed.
