(* ===== verification/FdSteps.v ===== *)
(** * Every run of the system calls keeps the descriptors safe

    The calls on files of [kernel/sysfile.c] together with the calls of
    [kernel/proc.c] that copy, close and drop the descriptors of a process. *)

From stdpp Require Import base numbers list gmap relations.
From S2P Require Import Prelude Bitmap Spinlock Pidmap Sem Bytes FsDefs BlockCache Cache CacheAlloc Inode InodeRead Pipe File Mem Pt Paging RBTree Cpu Sched Proc ProcTree ProcSteps SysFile SysFd FdProc Exec ExecSafe.

Definition closed (l : list (option nat)) : Prop := Forall (λ o, o = None) l.
(** A process that has exited has no descriptor left. *)
Definition zclosed (s : pstate) : Prop := ∀ p l, zobs s !! p = Some true → descs s !! p = Some l → closed l.
Record files_ok (L : gset nat) (s : pstate) : Prop := { fk_fd : fd_inv L s; fk_fp : nofp s; fk_z : zclosed s }.

(** ** Calls that leave the descriptors alone, and calls on the files *)
Lemma still_ok {X L} (m : M pstate X) s a s' : still m → keeps zobs m → m s = Ret a s' → files_ok L s → files_ok L s'.
Proof.
  intros S K H [I N Z]. destruct (S _ _ _ H N) as [E N']. pose proof E as E'. injection E' as ER ED. split; [exact (dobs_inv _ _ E I)|done|].
  rewrite /zclosed (K _ _ _ H) ED. exact Z.
Qed.
Lemma calm_ok {X L} (m : M pstate X) s a s' : calm m → m s = Ret a s' → files_ok L s → files_ok L s'.
Proof.
  intros K H [I N Z]. destruct (K _ _ _ H N) as (E & EZ & N'). pose proof E as E'. injection E' as ER ED. split; [exact (dobs_inv _ _ E I)|done|].
  rewrite /zclosed EZ ED. exact Z.
Qed.
Lemma running_alive s i c : running s i → cpus (pk s) !! i = Some c → zobs s !! cur_proc c = Some false.
Proof. intros (c' & x & Hc & Hx & Hst) Hc'. assert (c' = c) as -> by congruence. by rewrite /zobs lookup_fmap (fobs_some _ _ _ Hx) /= Hst. Qed.
Lemma file_call_ok {X L L'} (m : M pstate X) i s a s' : keeps zs m → keeps (others i) m → m s = Ret a s' → running s i → (fd_inv L s → fd_inv L' s') → files_ok L s → files_ok L' s'.
Proof.
  intros Kz Ko H Hrun Hfd [I N Z]. pose proof (Kz _ _ _ H) as Ez. injection Ez as EF _ _ EP. split; [by apply Hfd|by rewrite /nofp EP|].
  assert (EZ : zobs s' = zobs s) by (by rewrite /zobs /fobs EF). intros p l Hp Hl. rewrite EZ in Hp. apply (Z p l Hp). rewrite -Hl.
  pose proof Hrun as (c & x & Hc & _). pose proof (running_alive _ _ _ Hrun Hc) as Hcur. pose proof (Ko _ _ _ H) as Eo. rewrite /others in Eo.
  injection Eo as EC ED. rewrite EC Hc /= in ED. assert (p ≠ cur_proc c) as Hne by (intros ->; congruence).
  assert (Ep : delete (cur_proc c) (descs s') !! p = delete (cur_proc c) (descs s) !! p) by (by rewrite ED). rewrite !lookup_delete_ne in Ep; congruence.
Qed.

(** ** Creation *)
(** Pass over the first call of a run. *)
Ltac pass H E N :=
  let u := fresh "u" in let s1 := fresh "s" in let H1 := fresh "H" in
  apply bind_ret_inv in H as (u & s1 & H1 & H);
  match type of H1 with
  | ?m _ = Ret _ _ =>
      let S := fresh "S" in let E' := fresh "E" in let N' := fresh "N" in
      assert (S : still m) by still_solve;
      destruct (S _ _ _ H1 N) as [E' N']; try rewrite E in E'; clear H1 S E N; rename E' into E; rename N' into N
  end.

Lemma set_oftable_view p l s u s' : pupd p (set_oftable l) s = Ret u s' → is_Some (descs s !! p) ∧ refs s' = refs s ∧ descs s' = <[p := l]> (descs s) ∧ psecs s' = psecs s.
Proof.
  rewrite /pupd /on_pk /zoom /=. destruct (upd_proc p _ (pk s)) as [? k'| | | |] eqn:E; [|done..]. intros [= _ <-].
  apply upd_proc_inv in E as (x & Hx & ->). split_and!; [by rewrite (descs_some _ _ _ Hx)|done| |done]. by rewrite /descs /= fmap_insert.
Qed.
Lemma init_proc_files i p s u s' : init_proc i p s = Ret u s' → nofp s → refs s' = refs s ∧ descs s' = <[p := init_oftable]> (descs s) ∧ nofp s'.
Proof.
  intros H N. rewrite /init_proc in H. assert (E : dobs s = dobs s) by done. do 20 pass H E N.
  apply set_oftable_view in H as (_ & ER & ED & EP). injection E as ER' ED'. split_and!; [by rewrite ER ER'|by rewrite ED ED'|by rewrite /nofp EP].
Qed.
Lemma create_proc_files i fresh info s p s' : create_proc i fresh info s = Ret p s' → nofp s →
  refs s' = refs s ∧ descs s' = <[p := init_oftable]> (descs s) ∧ nofp s' ∧ zobs s' = <[p := false]> (zobs s).
Proof.
  intros H N. pose proof H as (c & EF & _ & _)%create_proc_view. assert (EZ : zobs s' = <[p := false]> (zobs s)) by (by rewrite /zobs EF fmap_insert). clear EF.
  peel H q s1 H1. peel H v s2 H2. injection H as <- <-. rewrite /new_proc in H1. assert (E : dobs s = dobs s) by done. pass H1 E N.
  peel H1 w s4 H4. injection H4 as _ <-. peel H1 w1 s4 H4. injection H4 as _ <-. peel H1 w2 s4 H4. injection H4 as _ <-.
  peel H1 w3 s4 H4. injection H4 as _ <-. injection H1 as <- <-. injection E as ER ED. apply init_proc_files in H2 as (ER2 & ED2 & N2).
  - split_and!; [by rewrite ER2 -ER|rewrite ED2 -ED|done|done]. rewrite /descs /= fmap_insert. by rewrite insert_insert_eq.
  - rewrite /nofp /=. apply map_Forall_insert_2; [apply Forall_nil_2|exact N].
Qed.
Lemma cnt_closed f l : closed l → cnt f l = 0%nat.
Proof. rewrite /cnt. induction 1 as [|o l -> H IH]; [done|]. rewrite filter_cons. case_decide; [done|]. exact IH. Qed.
Lemma add_proc_ok L R D X p l : fd_ok L R D X → D !! p = None → closed l → length l = NOFILE → Z.of_nat (128 * S (size D)) < 2 ^ 31 → fd_ok L R (<[p := l]> D) X.
Proof.
  intros [I1 I2 I3 I4 I6 I5] Hp Hc Hl Hs. assert (E : ∀ f, named f (<[p := l]> D) = named f D) by (intros f; rewrite named_fresh // cnt_closed //).
  split; [by apply map_Forall_insert_2|by rewrite map_size_insert_None| | | |]; intros f; rewrite E; [apply I3|apply I4|apply I6|apply I5].
Qed.
Lemma drop_proc_ok L R D X p l : fd_ok L R D X → D !! p = Some l → closed l → fd_ok L R (delete p D) X.
Proof.
  intros [I1 I2 I3 I4 I6 I5] Hp Hc. assert (E : ∀ f, named f (delete p D) = named f D).
  { intros f. rewrite -{2}(insert_delete_id D p l Hp) named_fresh ?lookup_delete_eq // cnt_closed //. }
  split; [by apply map_Forall_delete|rewrite map_size_delete_Some //; lia| | | |]; intros f; rewrite E; [apply I3|apply I4|apply I6|apply I5].
Qed.
Lemma init_closed : closed init_oftable.
Proof. apply Forall_replicate. done. Qed.

(** ** Fork *)
Lemma cnt_cons f o l : cnt f (o :: l) = ((if decide (o = Some f) then 1 else 0) + cnt f l)%nat.
Proof. rewrite /cnt filter_cons. by case_decide. Qed.
Lemma dup_files_view l : ∀ s r s', dup_files l s = Ret r s' → (∀ f c t, refs s !! f = Some (c, t) → 0 ≤ c ∧ c + Z.of_nat (cnt f l) < 2 ^ 31) →
  r = l ∧ descs s' = descs s ∧ psecs s' = psecs s ∧ length (refs s') = length (refs s) ∧
  ∀ f c t, refs s !! f = Some (c, t) → refs s' !! f = Some (c + Z.of_nat (cnt f l), t).
Proof.
  induction l as [|o l IH]; intros s r s' H B; cbn [dup_files] in H.
  { injection H as <- <-. split_and!; try done. intros f c t Hf. by rewrite Z.add_0_r. }
  peel H g s1 H1. peel H r' s2 H2. injection H as <- <-. destruct o as [f|].
  - peel H1 g' s3 H3. injection H1 as <- <-. pose proof (zs_hidden 0) as Kz. pose proof (fh_pfs (i := 0%nat) _ _ _ _ H3) as Ez. injection Ez as _ _ _ EP.
    apply on_pfs_inv in H3 as [H3 ED]. apply filedup_view in H3 as (-> & c0 & t0 & Hf & ER). change (fsobs (pfs s3)) with (refs s3) in ER. change (fsobs (pfs s)) with (refs s) in *.
    pose proof (lookup_lt_Some _ _ _ Hf) as Hlt. destruct (B f c0 t0 Hf) as [B1 B2]. rewrite cnt_cons decide_True // in B2. rewrite i32_small in ER; [lia|].
    apply IH in H2 as (-> & ED2 & EP2 & EL2 & E2).
    + split_and!; [done|by rewrite ED2|by rewrite EP2|by rewrite EL2 ER length_insert|]. intros f' c t Hf'. rewrite cnt_cons. destruct (decide (f' = f)) as [->|Hne].
      * rewrite decide_True //. rewrite Hf in Hf'. injection Hf' as <- <-. rewrite (E2 f (c0 + 1) t0); [|f_equal; f_equal; lia]. rewrite ER. by apply list_lookup_insert_eq.
      * rewrite decide_False; [congruence|]. apply E2. rewrite ER list_lookup_insert_ne; [congruence|done].
    + intros f' c t. rewrite ER. destruct (decide (f' = f)) as [->|Hne].
      * rewrite list_lookup_insert_eq //. intros [= <- <-]. lia.
      * rewrite list_lookup_insert_ne; [congruence|]. intros Hf'. destruct (B f' c t Hf') as [? B4]. rewrite cnt_cons decide_False in B4; [congruence|]. done.
  - injection H1 as <- <-. apply IH in H2 as (-> & ED2 & EP2 & EL2 & E2).
    + split_and!; try done.
    + exact B.
Qed.
Lemma dup_all_ok L R R' D X p q l l0 : fd_ok L R D X → D !! p = Some l0 → closed l0 → D !! q = Some l → length R' = length R →
  (∀ f c t, R !! f = Some (c, t) → R' !! f = Some (c + Z.of_nat (cnt f l), t)) → fd_ok L R' (<[p := l]> D) X.
Proof.
  intros [I1 I2 I3 I4 I6 I5] Hp Hc Hq HL HR.
  assert (E : ∀ f, named f (<[p := l]> D) = (named f D + cnt f l)%nat) by (intros f; pose proof (named_insert f p l0 l D Hp); rewrite (cnt_closed f l0 Hc) in H; lia).
  assert (Hpos : ∀ f, named f D = 0%nat → cnt f l = 0%nat) by (intros f Hf; pose proof (named_insert f q l [] D Hq) as H; change (cnt f []) with 0%nat in H; lia).
  assert (Hback : ∀ f r t, R' !! f = Some (r, t) → ∃ c, R !! f = Some (c, t) ∧ r = c + Z.of_nat (cnt f l)).
  { intros f r t Hf. destruct (lookup_lt_is_Some_2 R f) as [[c u] Hc']; [rewrite -HL; exact (lookup_lt_Some _ _ _ Hf)|].
    pose proof (HR _ _ _ Hc') as Hf'. rewrite Hf in Hf'. injection Hf' as -> ->. eauto. }
  split.
  - apply map_Forall_insert_2; [exact (I1 q l Hq)|done].
  - rewrite map_size_insert_Some; [by rewrite Hp|done].
  - intros f. rewrite E. intros Hf. destruct (I3 f) as [[c t] Hf']; [destruct (Nat.eq_dec (named f D) 0) as [Z|]; [rewrite (Hpos f Z) in Hf; lia|lia]|]. rewrite (HR _ _ _ Hf'). done.
  - intros f r t Hf. rewrite E. destruct (Hback _ _ _ Hf) as (c & Hc' & ->). rewrite (I4 f c t Hc'). lia.
  - intros f Hf. pose proof (I6 f Hf) as Z. by rewrite E Z (Hpos f Z).
  - intros f r t Hf. rewrite E. destruct (Hback _ _ _ Hf) as (c & Hc' & ->). intros Hn. apply (I5 f c t Hc'). destruct (Nat.eq_dec (named f D) 0) as [Z|]; [rewrite (Hpos f Z) in Hn; lia|lia].
Qed.
(** The references stay small while a table is copied. *)
Lemma dup_room L R D X p q l l0 : fd_ok L R D X → D !! p = Some l0 → closed l0 → D !! q = Some l →
  ∀ f c t, R !! f = Some (c, t) → 0 ≤ c ∧ c + Z.of_nat (cnt f l) < 2 ^ 31.
Proof.
  intros [I1 I2 I3 I4 I6 I5] Hp Hc Hq f c t Hf. pose proof (named_insert f p l0 l D Hp) as E. rewrite (cnt_closed f l0 Hc) in E.
  pose proof (named_insert f q l [] D Hq) as E'. change (cnt f []) with 0%nat in E'.
  assert (HL : map_Forall (λ _ l, length l = NOFILE) (<[p := l]> D)) by (apply map_Forall_insert_2; [exact (I1 q l Hq)|done]).
  pose proof (named_bound f NOFILE _ HL) as Hb. rewrite /NOFILE map_size_insert_Some in Hb; [by rewrite Hp|]. rewrite (I4 f c t Hf) /lost. case_decide as HL'; [pose proof (I6 f HL')|]; lia.
Qed.

(** Pass over the first call of a run, with the zombies. *)
Ltac passz H E N Z :=
  let u := fresh "u" in let s1 := fresh "s" in let H1 := fresh "H" in
  apply bind_ret_inv in H as (u & s1 & H1 & H);
  match type of H1 with
  | ?m _ = Ret _ _ =>
      let S := fresh "S" in let K := fresh "K" in let E' := fresh "E" in let N' := fresh "N" in let Z' := fresh "Z" in
      assert (S : still m) by still_solve; assert (K : keeps zobs m) by (solve [keeps_solve; try reflexivity]);
      destruct (S _ _ _ H1 N) as [E' N']; pose proof (K _ _ _ H1) as Z'; try rewrite E in E'; try rewrite Z in Z'; clear H1 S K E N Z;
      rename E' into E; rename N' into N; rename Z' into Z
  end.
Definition room (s : pstate) : Prop := Z.of_nat (128 * S (size (procs (pk s)))) < 2 ^ 31.
Lemma create_ok {L} i fresh info s p s' : create_proc i fresh info s = Ret p s' → fresh_proc s → room s → files_ok L s → files_ok L s' ∧ descs s !! p = None ∧ descs s' = <[p := init_oftable]> (descs s).
Proof.
  intros H Hf Hroom [I N Z]. destruct (create_proc_fresh _ _ _ _ _ _ H) as (a & m & Hk & ->). destruct (Hf a m Hk) as [Hn _].
  assert (Dn : descs s !! (a + PROC_NODE) = None) by (by rewrite /descs lookup_fmap Hn). apply create_proc_files in H as (ER & ED & N' & EZ); [|done].
  split; [|done]. split; [|done|].
  - rewrite /fd_inv ER ED. apply add_proc_ok; [done|done|apply init_closed|by rewrite length_replicate|]. rewrite /descs map_size_fmap. exact Hroom.
  - intros q l. rewrite EZ ED. destruct (decide (q = a + PROC_NODE)) as [->|Hne]; [by rewrite lookup_insert_eq|]. rewrite !lookup_insert_ne; [congruence..|]. apply Z.
Qed.
Lemma fork_ok {L} pe tr i fresh info s r s' : fork pe tr i fresh info s = Ret r s' → running s i → fresh_proc s → room s → files_ok L s → files_ok L s'.
Proof.
  intros H (c & x & Hc & Hx & Hst) Hf Hroom Hok. rewrite /fork in H. peel H p s1 H1. pose proof (cp_create _ _ _ _ _ _ H1) as EC.
  destruct (create_ok _ _ _ _ _ _ H1 Hf Hroom Hok) as ([I N Z0] & Dn & ED). assert (EZ0 : zobs s1 !! p = Some false).
  { apply create_proc_files in H1 as (_ & _ & _ & EZ); [|apply Hok]. by rewrite EZ lookup_insert_eq. }
  clear H1. peel H this s2 H2. pose proof (this_cur _ _ _ _ _ H2 s EC Hc) as ->. apply thisproc_inv in H2 as [_ ->].
  pose proof (descs_some _ _ _ Hx) as Dx. assert (Hne : cur_proc c ≠ p) by congruence.
  assert (E : dobs s1 = dobs s1) by done. assert (Z : zobs s1 = zobs s1) by done. passz H E N Z. peel H y s3 H3. apply pget_inv in H3 as [Hy ->].
  apply descs_some in Hy. pose proof E as E0. injection E0 as _ ED0. rewrite ED0 in Hy. clear ED0. do 4 passz H E N Z. injection E as ER1 ED1. peel H l sL HL.
  assert (Dp : descs s1 !! p = Some init_oftable) by (by rewrite ED lookup_insert_eq). pose proof (zobs_of _ (pkeeps_dup_files _) _ _ _ HL) as ZL.
  apply dup_files_view in HL as (-> & DL & PL & LL & RL); [|intros f k t; rewrite ER1; exact (dup_room L _ _ _ p (cur_proc c) _ _ I Dp init_closed Hy f k t)].
  rewrite ER1 in LL RL. peel H uM sM HM. assert (ZM : zobs sM = zobs sL) by (refine (zobs_pupd p (set_oftable (oftable y)) _ _ _ _ HM); reflexivity). apply set_oftable_view in HM as (_ & RM & DM & PM).
  assert (IM : fd_inv L sM). { rewrite /fd_inv RM DM DL ED1. by apply (dup_all_ok L (refs s1) _ _ _ p (cur_proc c) _ init_oftable); [| |apply init_closed| | |]. }
  assert (NM : nofp sM) by (by rewrite /nofp PM PL). assert (OM : files_ok L sM).
  { split; [done|done|]. intros q k. rewrite ZM ZL Z DM DL ED1. destruct (decide (q = p)) as [->|Hqp]; [congruence|]. rewrite lookup_insert_ne; [congruence|]. apply Z0. }
  clear -H OM. peel H secs s2 H2. injection H2 as <- <-.
  assert (Hsecs : nofile (default [] (psecs sM !! cur_proc c))). { destruct (psecs sM !! cur_proc c) as [k|] eqn:Ek; [exact (fk_fp _ _ OM _ _ Ek)|apply Forall_nil_2]. }
  refine (still_ok _ _ _ _ _ _ H OM); [still_solve|keeps_solve].
Qed.

(** ** Exit *)
Definition closed_to (k : nat) (l : list (option nat)) : Prop := ∀ j o, (j < k)%nat → l !! j = Some o → o = None.
Lemma close_files_ok {L} ctx cp n : ∀ k s u s', close_files ctx cp k n s = Ret u s' → fd_inv L s →
  fd_inv L s' ∧ (∀ q, q ≠ cp → descs s' !! q = descs s !! q) ∧ ∀ l, descs s !! cp = Some l → closed_to k l → ∃ l', descs s' !! cp = Some l' ∧ closed_to (k + n) l'.
Proof.
  induction n as [|n IH]; intros k s u s' H I; cbn [close_files] in H.
  { injection H as _ <-. split_and!; [done|done|]. intros l Hl Hc. exists l. by rewrite Nat.add_0_r. }
  peel H x s1 H1. apply pget_inv in H1 as [Hx ->]. apply descs_some in Hx. peel H o s1 H1. destruct (oftable x !! k) as [o'|] eqn:Ek; [|done]. injection H1 as -> <-.
  peel H u1 s1 H1. destruct o as [f|].
  - peel H1 u2 s2 H2. apply on_pfs_inv in H2 as [H2 ED2]. apply fileclose_view in H2 as (r & t & Hf & ER2). apply set_fd_view in H1 as (l & Hl & ER1 & ED1).
    rewrite ED2 Hx in Hl. injection Hl as <-. change (fsobs (pfs s2)) with (refs s2) in ER2. change (fsobs (pfs s)) with (refs s) in *.
    destruct (IH _ _ _ _ H) as (I' & Q & C). { rewrite /fd_inv ER1 ED1 ER2 ED2. exact (close_ok I cp (oftable x) k f r t Hx Ek Hf). }
    split_and!; [done| |].
    + intros q Hq. rewrite (Q q Hq) ED1 ED2. rewrite lookup_insert_ne; [congruence|done].
    + intros l Hl Hc. rewrite Hx in Hl. injection Hl as <-. destruct (C (<[k := None]> (oftable x))) as (l' & Hl' & Hc'); [by rewrite ED1 ED2 lookup_insert_eq| |exists l'; by rewrite Nat.add_succ_r].
      intros j o Hj. destruct (decide (j = k)) as [->|Hne]; [rewrite list_lookup_insert_eq; [exact (lookup_lt_Some _ _ _ Ek)|by intros [= <-]]|].
      rewrite list_lookup_insert_ne; [congruence|]. apply Hc. lia.
  - injection H1 as _ <-. destruct (IH _ _ _ _ H I) as (I' & Q & C). split_and!; [done|done|]. intros l Hl Hc. rewrite Hx in Hl. injection Hl as <-.
    destruct (C (oftable x) Hx) as (l' & Hl' & Hc'); [|exists l'; by rewrite Nat.add_succ_r]. intros j o Hj. destruct (decide (j = k)) as [->|Hne]; [rewrite Ek; by intros [= <-]|]. apply Hc. lia.
Qed.
Lemma closed_all l : length l = NOFILE → closed_to NOFILE l → closed l.
Proof. intros HL HC. apply Forall_lookup. intros j o Hj. apply (HC j o); [|done]. rewrite -HL. exact (lookup_lt_Some _ _ _ Hj). Qed.
Lemma psecs_close ctx cp n k : keeps psecs (close_files ctx cp k n).
Proof.
  revert k. induction n as [|n IH]; intros k; cbn [close_files]; [apply keeps_ret|]. apply keeps_bind; [by apply keeps_zoom|]. intros x. apply keeps_bind; [apply keeps_of_opt|]. intros [f|].
  - apply keeps_bind; [|done]. apply keeps_bind; [by apply keeps_zoom|]. intros _. by apply keeps_zoom.
  - apply keeps_bind; [apply keeps_ret|done].
Qed.
(** Pass over the first call of a run, with the zombies and the current processes. *)
Ltac passzc H E N Z C :=
  let u := fresh "u" in let s1 := fresh "s" in let H1 := fresh "H" in
  pose proof H as H1; apply bind_ret_inv in H1 as (u & s1 & H1 & _);
  match type of H1 with
  | ?m _ = Ret _ _ =>
      let K := fresh "K" in let C' := fresh "C" in
      assert (K : keeps curs m) by (solve [keeps_solve; try done]); clear H1 s1 u;
      apply bind_ret_inv in H as (u & s1 & H1 & H); pose proof (K _ _ _ H1) as C'; try rewrite C in C'; clear C K; rename C' into C;
      assert (still m) as K by still_solve; let E' := fresh "E" in let N' := fresh "N" in destruct (K _ _ _ H1 N) as [E' N']; try rewrite E in E'; clear E N K; rename E' into E; rename N' into N;
      assert (keeps zobs m) as K by (solve [keeps_solve]); let Z' := fresh "Z" in pose proof (K _ _ _ H1) as Z'; try rewrite Z in Z'; clear Z K H1; rename Z' into Z
  end.
Lemma sched_zombie i s u s' c : on_pk (simple_sched i ZOMBIE) s = Ret u s' → cpus (pk s) !! i = Some c → zobs s' = alter (λ _, true) (cur_proc c) (zobs s).
Proof.
  intros H Hc. revert H. rewrite /on_pk /zoom /=. destruct (simple_sched i ZOMBIE (pk s)) as [? k'| | | |] eqn:Es; [|done..]. intros [= _ <-].
  apply simple_sched_obs in Es as (c2 & Hc2 & _ & Hobs). assert (c2 = c) as -> by congruence. simpl in Hobs. injection Hobs as Hobs _.
  rewrite /zobs /fobs /= Hobs. apply map_eq. intros q. destruct (decide (q = cur_proc c)) as [->|Hne].
  - rewrite lookup_alter_eq !lookup_fmap lookup_alter_eq lookup_fmap. by destruct (procs (pk s) !! cur_proc c).
  - rewrite lookup_fmap !lookup_alter_ne; [congruence..|]. by rewrite !lookup_fmap.
Qed.
Lemma exit_ok {L} ctx i code s u s' : exit ctx i code s = Ret u s' → files_ok L s → files_ok L s'.
Proof.
  intros H [I N Z0]. rewrite /exit in H. peel H cp s1 H1. apply thisproc_inv in H1 as [(c & Hc & ->) ->]. peel H x s1 H1. apply pget_inv in H1 as [Hx ->].
  apply descs_some in Hx. assert (E : dobs s = dobs s) by done. assert (Z : zobs s = zobs s) by done. assert (EC : curs s = curs s) by done.
  do 3 passzc H E N Z EC. match type of H with _ ?sA = _ => set (sa := sA) in * end. assert (IA : fd_inv L sa) by exact (dobs_inv _ _ E I). injection E as _ EDA.
  peel H v sB HB. destruct (close_files_ok _ _ _ _ _ _ _ HB IA) as (IB & QB & CB). rewrite EDA in QB, CB. destruct (CB _ Hx) as (lB & DB & CB'); [intros j o Hj; lia|].
  assert (Hlen : length lB = NOFILE) by exact (fo_len _ _ _ _ IB _ _ DB). pose proof (closed_all _ Hlen CB') as Hcl.
  assert (NB : nofp sB) by (by rewrite /nofp (psecs_close _ _ _ _ _ _ _ HB)). pose proof (zobs_of _ (pkeeps_close_files _ _ _ _) _ _ _ HB) as ZB. pose proof (cp_close_files _ _ _ _ _ _ _ HB) as ECB.
  rewrite Z in ZB. rewrite EC in ECB. clear HB Z EC N. assert (E : dobs sB = dobs sB) by done. rename NB into N. do 10 passzc H E N ZB ECB.
  match type of H with _ ?sC = _ => set (sc := sC) in * end. injection E as ERC EDC.
  destruct (cpus (pk sc) !! i) as [c2|] eqn:Hc2; [|by rewrite /on_pk /zoom /simple_sched /thisproc /get_cpu /= in H; revert H; run_simpl; rewrite Hc2].
  assert (Hcur : cur_proc c2 = cur_proc c) by (apply curs_cur in Hc, Hc2; rewrite ECB in Hc2; congruence).
  pose proof (sched_zombie _ _ _ _ _ H Hc2) as ZD. rewrite Hcur ZB in ZD. destruct (keeps_still _ (sk_pk _ (fk_simple_sched _ _)) _ _ _ H N) as [ED ND]. injection ED as ERD EDD.
  split; [by rewrite /fd_inv ERD EDD ERC EDC|done|]. intros q l. rewrite ZD EDD EDC. destruct (decide (q = cur_proc c)) as [->|Hne]; [rewrite DB; by intros _ [= <-]|].
  rewrite lookup_alter_ne; [congruence|]. rewrite (QB q Hne). apply Z0.
Qed.

(** ** Wait *)
Lemma free_proc_files ctx i child s u s' : free_proc ctx i child s = Ret u s' → nofp s → refs s' = refs s ∧ descs s' = delete child (descs s) ∧ nofp s'.
Proof.
  intros H N. rewrite /free_proc in H. assert (E : dobs s = dobs s) by done. do 6 pass H E N. peel H w sB H1. injection H1 as _ <-. injection H as _ <-. injection E as ER ED.
  split_and!; [done| |].
  - rewrite -ED /descs /=. by rewrite fmap_delete.
  - rewrite /nofp /=. by apply map_Forall_delete.
Qed.
Lemma zobs_descs s p b : zobs s !! p = Some b → ∃ l, descs s !! p = Some l.
Proof. rewrite /zobs /fobs /descs !lookup_fmap. destruct (procs (pk s) !! p); [eauto|done]. Qed.
Lemma wait_reap_ok {L} ctx i s r s' : wait_reap ctx i s = Ret r s' → files_ok L s → files_ok L s'.
Proof.
  intros H [I N Z0]. rewrite /wait_reap in H. assert (E : dobs s = dobs s) by done. assert (Z : zobs s = zobs s) by done. do 3 passz H E N Z. peel H o sB HB. destruct o as [child|]; [|done].
  destruct (find_zombie_inv _ _ _ _ HB child eq_refl) as (_ & y & Fy & Zy). match type of HB with _ ?sa = _ => assert (Hz : zobs sa !! child = Some true) by (by rewrite /zobs lookup_fmap Fy /= Zy) end.
  rewrite Z in Hz. destruct (keeps_still _ (sk_find_zombie _) _ _ _ HB N) as [EB NB]. pose proof (zobs_of _ (pkeeps_find_zombie _) _ _ _ HB) as ZB. rewrite E in EB. rewrite Z in ZB.
  clear HB E Z N Fy Zy. do 3 passz H EB NB ZB. peel H v sC HC. destruct (keeps_still _ (sk_pupd child (set_state UNUSED) (λ _, eq_refl)) _ _ _ HC NB) as [EC NC]. rewrite EB in EC.
  apply (pupd_view _ _ (λ x, mkObs (o_parent x) (o_children x) false (o_cont x))) in HC as (x' & Hx' & FC & _); [|done].
  match type of FC with fobs ?a = alter _ _ (fobs ?b) => assert (ZC : ∀ q, q ≠ child → zobs a !! q = zobs s !! q)
    by (intros q Hq; rewrite -ZB /zobs FC !lookup_fmap lookup_alter_ne; [congruence|]; by rewrite /fobs lookup_fmap) end.
  assert (Z : zobs sC = zobs sC) by done. clear EB NB ZB. do 6 passz H EC NC Z. peel H w sD HD. pose proof HD as (FD & _)%free_proc_view.
  apply free_proc_files in HD as (RD & DD & ND); [|done]. assert (ED : dobs sD = dobs sD) by done. assert (ZD : zobs sD = zobs sD) by done. passz H ED ND ZD.
  injection H as _ <-. injection EC as RC DC. injection ED as RE DE. rewrite RC in RD. rewrite DC in DD. rewrite RD in RE. rewrite DD in DE.
  destruct (zobs_descs _ _ _ Hz) as [l Hl]. split; [rewrite /fd_inv RE DE; exact (drop_proc_ok _ _ _ _ _ _ I Hl (Z0 _ _ Hz Hl))|done|].
  intros q k. rewrite ZD DE /zobs FD. destruct (decide (q = child)) as [->|Hq]; [by rewrite lookup_delete_eq|]. rewrite lookup_delete_ne; [congruence|].
  rewrite fmap_delete lookup_delete_ne; [congruence|]. match goal with |- (o_zombie <$> fobs ?a) !! q = _ → _ => change (o_zombie <$> fobs a) with (zobs a) end. rewrite Z (ZC q Hq). apply Z0.
Qed.
Lemma still_sched i st : st ≠ ZOMBIE → still (on_pk (lock_and_sched i st)) ∧ keeps zobs (on_pk (lock_and_sched i st)).
Proof. intros Hst. split; [apply keeps_still, sk_pk, fk_lock_sched|]. intros s u s' H. pose proof (psobs_eq _ _ (sched_sleep_obs _ _ _ _ _ Hst H)) as (E & _). by rewrite /zobs E. Qed.
Lemma wait_ok {L} ctx i w s r s' : wait ctx i w s = Ret r s' → files_ok L s → files_ok L s'.
Proof.
  intros H Hok. rewrite /wait in H. peel H cp s1 H1. apply thisproc_inv in H1 as [_ ->]. peel H u s1 H1. apply (still_ok (L := L) _ _ _ _) in H1; [|still_solve|keeps_solve|done].
  peel H x s2 H2. apply pget_inv in H2 as [_ ->]. destruct (children x) as [|ch l].
  { refine (still_ok _ _ _ _ _ _ H H1); [still_solve|keeps_solve]. }
  peel H v s2 H2. apply (still_ok (L := L) _ _ _ _) in H2; [|still_solve|keeps_solve|done]. peel H got s3 H3. apply (still_ok (L := L) _ _ _ _) in H3; [|still_solve|keeps_solve|done].
  destruct got; [peel H q s4 H4; injection H as _ <-; exact (wait_reap_ok _ _ _ _ _ H4 H3)|]. peel H v2 s4 H4. injection H as _ <-.
  destruct (still_sched i SLEEPING) as [S K]; [done|]. exact (still_ok _ _ _ _ S K H4 H3).
Qed.
Lemma wait_wake_ok {L} ctx i w s r s' : wait_wake ctx i w s = Ret r s' → files_ok L s → files_ok L s'.
Proof.
  intros H Hok. rewrite /wait_wake in H. peel H cp s1 H1. apply thisproc_inv in H1 as [_ ->]. peel H b s1 H1. apply (still_ok (L := L) _ _ _ _) in H1; [|still_solve|keeps_solve|done].
  destruct b; [|by injection H as _ <-]. peel H q s2 H2. injection H as _ <-. exact (wait_reap_ok _ _ _ _ _ H2 H1).
Qed.

(** ** Every run *)
Section runs.
Context (AT_FDCWD O_WRONLY O_RDWR O_CREAT : Z).
(** One call; the label says whether it is a [pipe2] that fails. *)
Inductive sys_step (s : pstate) : bool → pstate → Prop :=
  | st_dup i fd r s' : sys_dup i fd s = Ret r s' → running s i → sys_step s false s'
  | st_close ctx i fd r s' : sys_close ctx i fd s = Ret r s' → running s i → sys_step s false s'
  | st_pipe2 ctx i flags r s' : sys_pipe2 ctx i flags s = Ret r s' → running s i → sys_step s (bool_decide (r.1 = ERR)) s'
  | st_openat g ctx i dirfd path omode r s' :
      sys_openat AT_FDCWD O_WRONLY O_RDWR O_CREAT g ctx i dirfd path omode s = Ret r s' → running s i → sys_step s false s'
  | st_read w pid al i fd b l n r s' : sys_read w pid al i fd b l n s = Ret r s' → running s i → sys_step s false s'
  | st_write w pid ctx i fd b l n r s' : sys_write w pid ctx i fd b l n s = Ret r s' → running s i → sys_step s false s'
  | st_writev w pid ctx i fd v l n r s' : sys_writev w pid ctx i fd v l n s = Ret r s' → running s i → sys_step s false s'
  | st_fstat i fd st r s' : sys_fstat i fd st s = Ret r s' → running s i → sys_step s false s'
  | st_newfstatat g ctx i dirfd path st fl r s' : sys_newfstatat AT_FDCWD g ctx i dirfd path st fl s = Ret r s' → running s i → sys_step s false s'
  | st_unlinkat g ctx i fd path fl r s' : sys_unlinkat AT_FDCWD g ctx i fd path fl s = Ret r s' → running s i → sys_step s false s'
  | st_mkdirat ctx i dirfd path mode r s' : sys_mkdirat AT_FDCWD ctx i dirfd path mode s = Ret r s' → running s i → sys_step s false s'
  | st_mknodat ctx i dirfd path a b r s' : sys_mknodat AT_FDCWD ctx i dirfd path a b s = Ret r s' → running s i → sys_step s false s'
  | st_chdir g ctx i path r s' : sys_chdir g ctx i path s = Ret r s' → running s i → sys_step s false s'
  | st_clone pe tr i fresh info flag r s' : sys_clone pe tr i fresh info flag s = Ret r s' → running s i → fresh_proc s → room s → sys_step s false s'
  | st_execve F i ctx al z g eh ph av ev pd p argv envp r s' : sys_execve F i ctx al z g eh ph av ev pd p argv envp s = Ret r s' → sys_step s false s'
  | st_exit ctx i n s' : sys_exit ctx i n s = Ret () s' → sys_step s false s'
  | st_wait4 ctx i w pid o ws ru r s' : sys_wait4 ctx i w pid o ws ru s = Ret r s' → sys_step s false s'
  | st_wait_wake ctx i w r s' : wait_wake ctx i w s = Ret r s' → sys_step s false s'
  | st_sbrk i n r s' : sys_sbrk i n s = Ret r s' → sys_step s false s'
  | st_yield i r s' : sys_yield i s = Ret r s' → sys_step s false s'
  | st_pgfault i p a r s' : on_space i p (pgfault a) s = Ret r s' → sys_step s false s'
  | st_kill i pid r s' : kill i pid s = Ret r s' → sys_step s false s'.

(** A run with [n] calls of [pipe2] that failed. *)
Inductive sys_run (s : pstate) : nat → pstate → Prop :=
  | run_none : sys_run s 0 s
  | run_call n s1 b s2 : sys_run s n s1 → sys_step s1 b s2 → sys_run s (if b then S n else n) s2.

(** A call on files that leaves descriptors and references alone. *)
Lemma quiet_call_ok {X L} (m : M pstate X) i s a s' : keeps zs m → keeps (others i) m → keeps dobs m → m s = Ret a s' → running s i → files_ok L s → files_ok L s'.
Proof. intros Kz Ko Kd H Hr. exact (file_call_ok m i s a s' Kz Ko H Hr (dobs_keep m s a s' Kd H)). Qed.
Lemma sys_step_ok L s b s' : sys_step s b s' → files_ok L s →
  ∃ L', files_ok L' s' ∧ L ⊆ L' ∧ (size L' ≤ size L + if b then 2 else 0)%nat.
Proof.
  intros Hstep Hok. cut (if b then ∃ L', files_ok L' s' ∧ L ⊆ L' ∧ (size L' ≤ size L + 2)%nat else files_ok L s').
  { destruct b; [done|]. intros ?. exists L. split_and!; [done..|lia]. }
  destruct Hstep as [| |ctx i flags r s' H H0| | | | | | | | | | | | | | | | | | |].
  3:{ destruct (sys_pipe2_ok _ _ _ _ _ _ H (fk_fd _ _ Hok)) as (L' & I' & HL & Hs & Hr).
      assert (Hf : files_ok L' s') by exact (file_call_ok _ _ _ _ _ (fh_sys_pipe2 zs i ctx flags) (fh_sys_pipe2 (others i) i ctx flags) H H0 (λ _, I') Hok).
      case_bool_decide as E; [by exists L'|]. by rewrite -(Hr E). }
  - exact (file_call_ok _ _ _ _ _ (fh_sys_dup zs i fd) (fh_sys_dup (others i) i fd) H H0 (sys_dup_ok _ _ _ _ _ H) Hok).
  - exact (file_call_ok _ _ _ _ _ (fh_close (P := zs) ctx fd) (fh_close (P := others i) ctx fd) H H0 (sys_close_ok _ _ _ _ _ _ H) Hok).
  - exact (file_call_ok _ _ _ _ _ (fh_sys_openat zs i _ _ _ _ _ _ _ _ _) (fh_sys_openat (others i) i _ _ _ _ _ _ _ _ _) H H0 (sys_openat_ok _ _ _ _ _ _ _ _ _ _ _ _ _ H) Hok).
  - exact (quiet_call_ok _ _ _ _ _ (fh_sys_read zs i _ _ _ _ _ _ _) (fh_sys_read (others i) i _ _ _ _ _ _ _) (dk_sys_read _ _ _ _ _ _ _ _) H H0 Hok).
  - exact (quiet_call_ok _ _ _ _ _ (fh_sys_write zs i _ _ _ _ _ _ _) (fh_sys_write (others i) i _ _ _ _ _ _ _) (dk_sys_write _ _ _ _ _ _ _ _) H H0 Hok).
  - exact (quiet_call_ok _ _ _ _ _ (fh_sys_writev zs i _ _ _ _ _ _ _) (fh_sys_writev (others i) i _ _ _ _ _ _ _) (dk_sys_writev _ _ _ _ _ _ _ _) H H0 Hok).
  - exact (quiet_call_ok _ _ _ _ _ (fh_sys_fstat zs i _ _) (fh_sys_fstat (others i) i _ _) (dk_sys_fstat _ _ _) H H0 Hok).
  - exact (quiet_call_ok _ _ _ _ _ (fh_sys_newfstatat zs i _ _ _ _ _ _ _) (fh_sys_newfstatat (others i) i _ _ _ _ _ _ _) (dk_sys_newfstatat _ _ _ _ _ _ _ _) H H0 Hok).
  - exact (quiet_call_ok _ _ _ _ _ (fh_sys_unlinkat zs i _ _ _ _ _ _) (fh_sys_unlinkat (others i) i _ _ _ _ _ _) (dk_sys_unlinkat _ _ _ _ _ _ _) H H0 Hok).
  - exact (quiet_call_ok _ _ _ _ _ (fh_sys_mkdirat zs i _ _ _ _ _) (fh_sys_mkdirat (others i) i _ _ _ _ _) (dk_sys_mkdirat _ _ _ _ _ _) H H0 Hok).
  - exact (quiet_call_ok _ _ _ _ _ (fh_sys_mknodat zs i _ _ _ _ _ _) (fh_sys_mknodat (others i) i _ _ _ _ _ _) (dk_sys_mknodat _ _ _ _ _ _ _) H H0 Hok).
  - exact (quiet_call_ok _ _ _ _ _ (fh_sys_chdir zs i _ _ _) (fh_sys_chdir (others i) i _ _ _) (dk_sys_chdir _ _ _ _) H H0 Hok).
  - rewrite /sys_clone in H. destruct (negb _); [by injection H as _ <-|]. peel H q s1 H3. injection H as _ <-. exact (fork_ok _ _ _ _ _ _ _ _ H3 H0 H1 H2 Hok).
  - exact (calm_ok _ _ _ _ (calm_sys_execve _ _ _ _ _ _ _ _ _ _ _ _ _ _) H Hok).
  - exact (exit_ok _ _ _ _ _ _ H Hok).
  - rewrite /sys_wait4 in H. destruct (_ || _); [done|]. exact (wait_ok _ _ _ _ _ _ H Hok).
  - exact (wait_wake_ok _ _ _ _ _ _ H Hok).
  - refine (still_ok _ _ _ _ _ _ H Hok); rewrite /sys_sbrk /this_proc; [still_solve|keeps_solve].
  - rewrite /sys_yield in H. peel H u s1 H1. injection H as _ <-. destruct (still_sched i RUNNABLE) as [S K]; [done|]. exact (still_ok _ _ _ _ S K H1 Hok).
  - refine (still_ok _ _ _ _ _ _ H Hok); [still_solve|keeps_solve].
  - refine (still_ok _ _ _ _ _ _ H Hok); [still_solve|apply zobs_of, pkeeps_kill].
Qed.
End runs.

(** C7: Descriptors stay safe.  Over every sequence of the system calls on files
    ([dup], [close], [pipe2], [openat], [read], [write], [writev], [fstat],
    [newfstatat], [unlinkat], [mkdirat], [mknodat], [chdir]) and on processes
    ([clone], [execve], [exit], [wait4], [sbrk], [yield]), of kills and of page faults, on any
    CPU: the reference count of every file is the number of descriptors, over all
    processes, that name it, apart from the files lost by a [pipe2] that failed, at most
    two for each such call, which keep one reference and are named by no descriptor; a
    process that has exited has no descriptor left; and every descriptor names a file of
    the table that is open, that is, referenced and of a type other than [FD_NONE].  So
    when no [pipe2] fails the count of every file is exact. *)
Theorem descriptors_safe AT_FDCWD O_WRONLY O_RDWR O_CREAT s0 n s :
  files_ok ∅ s0 → sys_run AT_FDCWD O_WRONLY O_RDWR O_CREAT s0 n s →
  ∃ L : gset nat, (size L ≤ 2 * n)%nat ∧
    (∀ f F, files (pfs s) !! f = Some F → f_ref F = Z.of_nat (named f (descs s)) + if decide (f ∈ L) then 1 else 0) ∧
    (∀ f, f ∈ L → named f (descs s) = 0%nat) ∧
    (∀ p x, procs (pk s) !! p = Some x → state x = ZOMBIE → Forall (λ o, o = None) (oftable x)) ∧
    ∀ p x k f, procs (pk s) !! p = Some x → oftable x !! k = Some (Some f) →
      ∃ F, files (pfs s) !! f = Some F ∧ f_type F ≠ FD_NONE ∧ f_ref F = Z.of_nat (named f (descs s)) ∧ 0 < f_ref F.
Proof.
  intros H0 Hs. assert (∃ L : gset nat, (size L ≤ 2 * n)%nat ∧ files_ok L s) as (L & HL & Hok).
  { induction Hs as [|n s1 b s2 _ (L & HL & Hok) Hstep]; [exists ∅; by rewrite size_empty|].
    destruct (sys_step_ok _ _ _ _ L s1 b s2 Hstep Hok) as (L' & ? & _ & ?). exists L'. split; [destruct b; lia|done]. }
  exists L. pose proof (fk_fd _ _ Hok) as I.
  assert (Href : ∀ f F, files (pfs s) !! f = Some F → refs s !! f = Some (f_ref F, f_type F)) by (intros f F HF; by rewrite /refs /fsobs list_lookup_fmap HF).
  split_and!; [done| |exact (fo_lost _ _ _ _ I)| |].
  - intros f F HF. exact (fo_ref _ _ _ _ I f _ _ (Href f F HF)).
  - intros p x Hx Hz. apply (fk_z _ _ Hok p); [|by apply descs_some]. by rewrite /zobs lookup_fmap (fobs_some _ _ _ Hx) /= Hz.
  - intros p x k f Hp Hk. pose proof (named_pos f p (oftable x) k (descs s) (descs_some _ _ _ Hp) Hk) as Hn. destruct (fo_dom _ _ _ _ I f Hn) as [[r t] Hf].
    pose proof Hf as Hf'. rewrite /refs /fsobs list_lookup_fmap in Hf'. destruct (files (pfs s) !! f) as [F|] eqn:EF; [|done]. injection Hf' as <- <-. exists F. split; [done|].
    pose proof (fo_ref _ _ _ _ I f _ _ Hf) as Hr. rewrite (lost_out _ _ (not_lost I f Hn)) Z.add_0_r in Hr.
    split_and!; [intros Ht; exact (fo_type _ _ _ _ I f _ _ Hf Hn Ht)|done|lia].
Qed.

(** A process with descriptor 0 on a file, and the read and write ends to come. *)
Definition demo_table : list (option nat) := Some 0%nat :: replicate 127 None.
Definition demo_fd : pstate :=
  mkPS (mkKern false ∅ (mkRBH ∅ ∅) ∅
      {[ 400 := mkProc false false 0 0 0 RUNNING (init_sem 0) [] 0 (mkPgdir 0 false 0) 0 0 (mkUC [] 0 0 0 0 []) (mkKC 0 0 0 []) demo_table 0 ]}
      [mkCpu 400 400 4 0] (mkTS (mkRBH ∅ ∅) ∅ (λ _, 0) 0 1 ∅ ∅) demo_mem false 64 0)
    (mkFS false [mkFile FD_INODE 1 1 0 0 5 0; zero_file; zero_file] ∅ 1 demo_inodes) ∅ (mkRBH ∅ {[ 0 := 0 ]}) ∅ 0 false false (mkPidmap 0 0 false 0 []) 1200.
Lemma demo_fd_running s x : cpus (pk s) = [mkCpu 400 400 4 0] → procs (pk s) !! 400 = Some x → state x = RUNNING → running s 0.
Proof. intros Hc Hx Hst. exists (mkCpu 400 400 4 0), x. by rewrite Hc. Qed.
Lemma demo_fd_ok : files_ok ∅ demo_fd.
Proof.
  assert (ED : descs demo_fd = {[ 400 := demo_table ]}) by (by rewrite /descs /= map_fmap_singleton).
  assert (EN : ∀ f, named f {[ 400 := demo_table ]} = match f with 0%nat => 1%nat | _ => 0%nat end).
  { intros f. change ({[ 400 := demo_table ]} : gmap Z _) with (<[ 400 := demo_table ]> (∅ : gmap Z (list (option nat)))). rewrite named_fresh //. rewrite /named map_fold_empty.
    by destruct f as [|f]. }
  split.
  - rewrite /fd_inv ED. split; [by apply map_Forall_singleton|by rewrite map_size_singleton| | |set_solver|]; intros f; rewrite EN.
    + destruct f as [|f]; [eauto|lia].
    + intros r t. rewrite lost_out; [set_solver|]. destruct f as [|[|[|f]]]; [by intros [= <- <-]..|done].
    + intros r t. destruct f as [|f]; [by intros [= <- <-]|lia].
  - done.
  - intros p l Hz _. revert Hz. rewrite /zobs /fobs lookup_fmap /= map_fmap_singleton. rewrite fmap_Some. intros (y & [_ <-]%lookup_singleton_Some & ?). done.
Qed.
Definition demo_running (s : pstate) : bool :=
  match cpus (pk s), procs (pk s) !! 400 with
  | [c], Some x => (cur_proc c =? 400) && bool_decide (state x = RUNNING)
  | _, _ => false
  end.
Lemma demo_running_spec s : demo_running s = true → running s 0.
Proof.
  rewrite /demo_running. destruct (cpus (pk s)) as [|c [|]] eqn:Ec; [done| |done]. destruct (procs (pk s) !! 400) as [x|] eqn:Ex; [|done].
  intros [E1%Z.eqb_eq E2%bool_decide_eq_true]%andb_true_iff. exists c, x. rewrite Ec E1. done.
Qed.
Definition demo_run : bool :=
  match sys_dup 0 0 demo_fd with
  | Ret 1 s1 => demo_running demo_fd && demo_running s1 && match sys_pipe2 7 0 0 s1 with Ret (0, Some (2, 3)) _ => true | _ => false end
  | _ => false
  end.
Lemma demo_run_spec : ∃ s1 s2, sys_dup 0 0 demo_fd = Ret 1 s1 ∧ sys_pipe2 7 0 0 s1 = Ret (0, Some (2, 3)) s2 ∧ running demo_fd 0 ∧ running s1 0.
Proof.
  assert (E : demo_run = true) by (vm_compute; reflexivity). revert E. rewrite /demo_run.
  destruct (sys_dup 0 0 demo_fd) as [[|[]|] s1| | | |]; try done. intros [[E1 E2]%andb_true_iff E3]%andb_true_iff. exists s1.
  destruct (sys_pipe2 7 0 0 s1) as [[[] [[a b]|]] s2| | | |]; try done. exists s2. apply demo_running_spec in E1, E2.
  assert (a = 2 ∧ b = 3) as [-> ->]. { destruct a as [|[|[]|]|]; try done. by destruct b as [|[[]|[]|]|]. }
  done.
Qed.
(** Descriptors 0 and 1 name file 0, which has two references. *)
Lemma descriptors_safe_witness : ∃ s1 s2, sys_dup 0 0 demo_fd = Ret 1 s1 ∧ sys_pipe2 7 0 0 s1 = Ret (0, Some (2, 3)) s2 ∧
  ∀ f F, files (pfs s2) !! f = Some F → f_ref F = Z.of_nat (named f (descs s2)).
Proof.
  destruct demo_run_spec as (s1 & s2 & E1 & E2 & R0 & R1). exists s1, s2. split; [exact E1|]. split; [exact E2|].
  destruct (descriptors_safe 0 1 2 64 demo_fd 0 s2 demo_fd_ok) as (L & HL & Href & _).
  - refine (run_call _ _ _ _ _ 0%nat s1 false s2 (run_call _ _ _ _ _ 0%nat demo_fd false s1 (run_none _ _ _ _ _) _) _).
    + exact (st_dup _ _ _ _ _ 0%nat 0 1 _ E1 R0).
    + exact (st_pipe2 _ _ _ _ _ 7 0%nat 0 (0, Some (2, 3)) _ E2 R1).
  - assert (L = ∅) as -> by (apply leibniz_equiv, size_empty_inv; lia). intros f F HF. rewrite (Href f F HF). case_decide as Hin; [by apply elem_of_empty in Hin|lia].
Defined.
