(* ===== verification/ExecDemo.v ===== *)
(** * From an image to a running program

    A program of eight bytes is put on an image with the model of mkfs, and the model of
    the kernel executes it. *)

From stdpp Require Import base numbers list gmap.
From S2P Require Import Prelude Bitmap Spinlock Pidmap Sem Bytes Str FsDefs BlockCache Cache CacheList CacheOps CacheAlloc Console Inode InodeRead Pipe File Mem Pt Paging RBTree Cpu Sched Proc SysFile Exec ExecSafe ExecRun.
From S2P Require Mkfs MkfsImage MkfsBoot.

(** ELF for 64 bits, little endian. *)
Definition field (o n : nat) (l : list Z) : Z := le_val (slice l o n).
Definition elf64 : elf_format :=
  mkElf 64 56 (take 16) (field 24 8) (field 32 8) (field 56 2) (field 0 4) (field 4 4) (field 8 8) (field 16 8) (field 32 8) (field 40 8)
    [127; 69; 76; 70] 1 4 2 1.
(** One segment, readable and executable: the eight bytes at 0x400060. *)
Definition demo_code : list Z := [1; 2; 3; 4; 5; 6; 7; 8].
Definition demo_prog : list Z :=
  [127; 69; 76; 70] ++ replicate 20 0 ++ le_bytes 8 4194400 ++ le_bytes 8 64 ++ replicate 16 0 ++ le_bytes 2 1 ++ replicate 6 0 ++
  le_bytes 4 1 ++ le_bytes 4 5 ++ le_bytes 8 120 ++ le_bytes 8 4194400 ++ le_bytes 8 0 ++ le_bytes 8 8 ++ le_bytes 8 8 ++ le_bytes 8 0 ++ demo_code.
Definition demo_sh : Mkfs.host_file := Mkfs.mkHost [47; 97; 47; 95; 115; 104] (Some [demo_prog]).

(** Twenty-four pages from 1 MB on: the page table of the process, the page of zeros and
    free ones. *)
Definition exec_page (k : Z) : Z := KSPACE_MASK + 2 ^ 20 + 4096 * k.
Definition exec_mem : mstate :=
  mkMem (exec_page <$> seqZ 2 22) (replicate 512 []) (list_to_map ((λ i, (256 + Z.of_nat i, mkPage (mkRC 0) false)) <$> seq 0 32))
    (foldr zero_words ∅ (exec_page <$> seqZ 0 24)) (mkRC 0) (mkRC 22) false (KSPACE_MASK + 2 ^ 19).
Definition exec_proc : proc :=
  mkProc false false 0 0 0 RUNNING (init_sem 0) [] 0 (mkPgdir (exec_page 0) false 1) 0 0 (mkUC [] 0 0 0 0 (replicate 32 0)) (mkKC 0 0 0 []) (replicate 128 None) 5.
Definition exec_state (s : Mkfs.mkfs) : pstate :=
  mkPS (mkKern false ∅ (mkRBH ∅ ∅) ∅ {[ 400 := exec_proc ]} [mkCpu 400 400 4 (2 ^ 20)] (mkTS (mkRBH ∅ ∅) ∅ (λ _, 0) 0 1 ∅ ∅) exec_mem false 64 (exec_page 1))
    (mkFS false [] ∅ 1 (mkI (MkfsBoot.boot_cache s) false [5] {[ 5 := mkInode 1 (mkRC 1) 1 true (MkfsImage.ient s 1) ]} 6 (Some 5) 5 Con.console_init))
    ∅ (mkRBH ∅ {[ 0 := 0 ]}) ∅ 0 false false (mkPidmap 0 0 false 0 []) 1200.
(** [execve] of a path with two arguments, on the image with [/sh]. *)
Definition demo_argv : option (list (list Z)) := Some [[115; 104]; [97]].
Definition demo_exec (path : list Z) (s : pstate) : outcome pstate Z :=
  execve elf64 0 7 false (exec_page 1) (replicate 14 0) (replicate 64 0) (replicate 56 0) (replicate 32 0) (replicate 32 0) (mkPgdir 0 false 0) path demo_argv None s.
Definition demo_boot : option pstate := match Mkfs.main [demo_sh] Mkfs.mkfs_start with Ret _ s => Some (exec_state s) | _ => None end.

(** A byte of the memory of process 400, through its page table. *)
Definition user_byte (s : pstate) (va : Z) : option Z :=
  x ← procs (pk s) !! 400;
  match get_pte va false (mkVM (km (pk s)) (p_pgdir x) 0) with
  | Ret (Some a) v =>
      e ← words (mm v) !! a;
      let p := P2K (PTE_ADDRESS e) + va mod 4096 in
      w ← words (mm v) !! (p - p mod 8); Some (word_byte w (p mod 8))
  | _ => None
  end.
Definition user_bytes (s : pstate) (va : Z) (n : nat) : list (option Z) := (λ k, user_byte s (va + k)) <$> seqZ 0 (Z.of_nat n).

(** The program starts at its entry point with two arguments; the bytes of the file are at
    the address of the segment, the argument vector is behind the second register, and its
    entries point to the strings. *)
Definition demo_checks (boot : option pstate) (run : list Z → pstate → outcome pstate Z) : bool :=
  match boot with
  | Some s =>
      match run [47; 115; 104] s, run [47; 120] s with
      | Ret 0 s', Ret r _ =>
          (r =? -1) &&
          bool_decide ((λ x, (elr (ucontext x), sp (ucontext x), take 2 (reserved (ucontext x)))) <$> procs (pk s') !! 400 = Some (4194400, 4239264, [2; 4239272])) &&
          bool_decide (user_bytes s' 4194400 8 = Some <$> demo_code) &&
          bool_decide (user_bytes s' 4239264 8 = Some <$> le_bytes 8 2) &&
          bool_decide (user_bytes s' 4239272 24 = Some <$> le_bytes 8 4239320 ++ le_bytes 8 4239328 ++ le_bytes 8 0) &&
          bool_decide (user_bytes s' 4239320 3 = Some <$> [115; 104; 0]) &&
          bool_decide (user_bytes s' 4239328 2 = Some <$> [97; 0])
      | _, _ => false
      end
  | None => false
  end.
Example demo_checks_hold : demo_checks demo_boot demo_exec = true.
Proof. vm_compute. reflexivity. Qed.
Lemma demo_checks_spec boot run : demo_checks boot run = true → ∃ s s1 s2, boot = Some s ∧ run [47; 115; 104] s = Ret 0 s1 ∧ run [47; 120] s = Ret (-1) s2.
Proof.
  rewrite /demo_checks. destruct boot as [s|]; [|done]. destruct (run [47; 115; 104] s) as [[] s1| | | |] eqn:E1; try done. destruct (run [47; 120] s) as [r s2| | | |] eqn:E2; try done.
  intros H. do 6 apply andb_true_iff in H as [H _]. apply Z.eqb_eq in H as ->. by exists s, s1, s2.
Qed.
Lemma demo_runs : ∃ s s1 s2, demo_boot = Some s ∧ demo_exec [47; 115; 104] s = Ret 0 s1 ∧ demo_exec [47; 120] s = Ret (-1) s2.
Proof. exact (demo_checks_spec demo_boot demo_exec demo_checks_hold). Qed.
Lemma demo_boot_proc s : demo_boot = Some s → cpus (pk s) !! 0%nat = Some (mkCpu 400 400 4 (2 ^ 20)) ∧ procs (pk s) !! 400 = Some exec_proc.
Proof. rewrite /demo_boot. destruct (Mkfs.main _ _) as [? m| | | |]; [|done..]. by intros [= <-]. Qed.

Lemma execve_failure_keeps_process_witness : ∃ s s', demo_boot = Some s ∧ demo_exec [47; 120] s = Ret (-1) s' ∧ procs (pk s') = procs (pk s) ∧ psecs s' = psecs s.
Proof.
  destruct demo_runs as (s & s1 & s2 & E & _ & E2). exists s, s2. split; [exact E|]. split; [exact E2|].
  destruct (execve_failure_keeps_process elf64 0 7 false (exec_page 1) (replicate 14 0) (replicate 64 0) (replicate 56 0) (replicate 32 0) (replicate 32 0) (mkPgdir 0 false 0)
    [47; 120] demo_argv None s (-1) s2 E2) as [Hr|(_ & H1 & H2)]; [discriminate|]. split; [exact H1|exact H2].
Defined.
(** *** The state the program is loaded from *)
Lemma elf64_ok : elf_ok elf64.
Proof. split; [done|done| |]; intros l Hl; apply le_val_range; rewrite /slice; by apply Forall_take, Forall_drop. Qed.
Lemma exec_pages_ok : Forall (λ p, p mod 4096 = 0 ∧ first_page exec_mem ≤ p ∧ KSPACE_MASK ≤ p ∧ p < 2 ^ 64 ∧
  ref_lock <$> pages_ref exec_mem !! page_num_of p = Some false) (exec_page <$> seqZ 0 24).
Proof. apply (bool_decide_unpack _). vm_compute. done. Qed.
Lemma exec_page_ok p P : (∀ pg, ref_lock pg = false → P pg) → p ∈ exec_page <$> seqZ 0 24 → page_ok exec_mem p P.
Proof.
  intros HP Hp. pose proof exec_pages_ok as H. rewrite Forall_forall in H. destruct (H p Hp) as (H1 & H2 & H3 & H4 & (pg & H5 & H6)%fmap_Some).
  split_and!; [done|done|done|done|]. exists pg. split; [done|]. by apply HP.
Qed.
Lemma exec_mem_inv : mem_inv exec_mem [] [exec_page 0; exec_page 1].
Proof.
  rewrite /mem_inv /all_words /regions. change (free_mem exec_mem) with (replicate 512 (@nil Z)). rewrite free_from_empty !app_nil_l -fmap_app.
  change (pages exec_mem) with (exec_page <$> seqZ 2 22). split_and!; try done.
  - apply pages_nodup; apply (bool_decide_unpack _); by vm_compute.
  - apply Forall_forall. intros p (k & -> & Hk%elem_of_seqZ)%list_elem_of_fmap. apply exec_page_ok; [done|]. apply list_elem_of_fmap_2, elem_of_seqZ. lia.
  - do 2 (constructor; [apply exec_page_ok; [done|]; apply list_elem_of_fmap_2, elem_of_seqZ; lia|]). constructor.
Qed.

(** Whether the cache is well formed, with an empty log, and the file has its blocks. *)
Definition block_check (d : list Z) : bool := (length d =? 512)%nat && forallb (λ b, (0 <=? b) && (b <? 256)) d.
Definition cache_check (s : cstate) : bool :=
  negb (lock s) && bool_decide (NoDup (block_nos (head s))) && (cache_cnt s =? Z.of_nat (length (head s))) && negb (log_lock (log s)) &&
  forallb (λ p : Z * list Z, block_check p.2) (map_to_list (disk s)) && forallb (λ x, block_check (Cache.data x) && bool_decide (disk s !! block_no x = Some (Cache.data x))) (head s) &&
  (length (lh_block_no (header s)) =? 63)%nat && (lh_num_blocks (header s) =? 0).
Definition file_check (st : istate (S := cstate)) (it : Inode) : bool :=
  let e := entry it in
  cache_check (icache st) && negb (ie_type e =? INODE_DEVICE) && (ie_num_bytes e <=? 6144) &&
  forallb (λ k, if k * BLOCK_SIZE <? ie_num_bytes e then
    match block_index (content (icache st)) e k with
    | Some b => negb (b =? 0) && bool_decide (is_Some (content (icache st) b)) && negb (held (icache st) b)
    | None => false
    end else true) (seqZ 0 12).
Lemma block_check_ok d : block_check d = true → block_ok d.
Proof.
  intros [Hl%Nat.eqb_eq Hb]%andb_true_iff. split; [done|]. apply Forall_forall. intros x Hx%list_elem_of_In.
  apply (proj1 (forallb_forall _ _) Hb) in Hx as [H1%Z.leb_le H2%Z.ltb_lt]%andb_true_iff. done.
Qed.
Lemma cache_check_ok s : cache_check s = true → cache_wf s.
Proof.
  rewrite /cache_check !andb_true_iff. intros (((((((H1%negb_true_iff & H2%bool_decide_eq_true) & H3%Z.eqb_eq) & H4%negb_true_iff) & H5) & H6) & H7%Nat.eqb_eq) & H8%Z.eqb_eq).
  split_and!; try done; try lia.
  - intros b d Hd%elem_of_map_to_list%list_elem_of_In. by apply block_check_ok, (proj1 (forallb_forall _ _) H5 (b, d)).
  - intros b x [Hx%list_elem_of_In <-]%find_block_Some. apply (proj1 (forallb_forall _ _) H6) in Hx as [Hd Hk%bool_decide_eq_true]%andb_true_iff.
    split_and!; [by apply block_check_ok|by rewrite Hk|done].
  - intros b Hb. rewrite /logged H8 in Hb. by apply elem_of_nil in Hb.
Qed.
Lemma file_check_ok st ip it : itab st !! ip = Some it → file_check st it = true → file_open st ip it.
Proof.
  rewrite /file_check. intros Hi [[[H1%cache_check_ok H2%negb_true_iff%Z.eqb_neq]%andb_true_iff H3%Z.leb_le]%andb_true_iff H4]%andb_true_iff. split; [done|done|done|lia|].
  intros k Hk Hlt. change BLOCK_SIZE with 512 in Hlt. assert (Hin : k ∈ seqZ 0 12) by (apply elem_of_seqZ; lia). apply list_elem_of_In in Hin.
  pose proof (proj1 (forallb_forall _ _) H4 k Hin) as Hb. simpl in Hb. change BLOCK_SIZE with 512 in Hb. rewrite (proj2 (Z.ltb_lt _ _) Hlt) in Hb.
  split; [left; change INODE_NUM_DIRECT with 12; lia|].
  destruct (block_index _ _ k) as [b|] eqn:Eb; [|done]. rewrite !andb_true_iff in Hb. destruct Hb as ((B1%negb_true_iff%Z.eqb_neq & B2%bool_decide_eq_true) & B3%negb_true_iff).
  by exists b.
Qed.
(** The file [/sh], open. *)
Definition demo_opened (s : pstate) : option (Z * Inode * pstate) :=
  match begin_op 7 s with
  | Ret _ s1 =>
      match in_cwd 0 (namei sblock (replicate 14 0) [47; 115; 104] (Some 7)) s1 with
      | Ret (Some ip) s2 => match on_in (inode_lock ip) s2 with Ret _ s3 => it ← itab (inodes (pfs s3)) !! ip; Some (ip, it, s3) | _ => None end
      | _ => None
      end
  | _ => None
  end.
Lemma demo_opened_inv s ip it s3 : demo_opened s = Some (ip, it, s3) → opens 0 7 (replicate 14 0) [47; 115; 104] s ip s3 ∧ itab (inodes (pfs s3)) !! ip = Some it.
Proof.
  rewrite /demo_opened. destruct (begin_op 7 s) as [[] s1| | | |] eqn:E1; try done. destruct (in_cwd _ _ s1) as [[ip'|] s2| | | |] eqn:E2; try done.
  destruct (on_in _ s2) as [[] s3'| | | |] eqn:E3; try done. destruct (itab _ !! ip') as [it'|] eqn:E4; [|done]. intros [= <- <- <-]. split; [by exists s1, s2|done].
Qed.
Definition opened_check (boot : option pstate) : bool :=
  match boot with Some s => match demo_opened s with Some (ip, it, s3) => file_check (inodes (pfs s3)) it | None => false end | None => false end.
Example opened_check_holds : opened_check demo_boot = true.
Proof. vm_compute. reflexivity. Qed.
Lemma demo_open s : demo_boot = Some s → ∃ ip it s3, opens 0 7 (replicate 14 0) [47; 115; 104] s ip s3 ∧ file_open (inodes (pfs s3)) ip it.
Proof.
  intros E. pose proof opened_check_holds as H. rewrite E /opened_check in H. destruct (demo_opened s) as [[[ip it] s3]|] eqn:E1; [|done].
  apply demo_opened_inv in E1 as [H1 H2]. exists ip, it, s3. split; [done|]. by apply file_check_ok.
Qed.
Lemma demo_boot_mem s : demo_boot = Some s → km (pk s) = exec_mem.
Proof. rewrite /demo_boot. destruct (Mkfs.main _ _) as [? m| | | |]; [|done..]. by intros [= <-]. Qed.

Lemma execve_starts_program_witness : ∃ s s' ip it s3 y secs, demo_boot = Some s ∧ demo_exec [47; 115; 104] s = Ret 0 s' ∧
  opens 0 7 (replicate 14 0) [47; 115; 104] s ip s3 ∧
  let f := inodes (pfs s3) in
  let eh := file_at f it 0 64 in
  let phs := loaded elf64 (headers elf64 f it (Z.to_nat (e_phnum elf64 eh)) (e_phoff elf64 eh)) in
  pt y ∉ [exec_page 0; exec_page 1] ∧ image_sections elf64 phs secs ∧ psecs s' = <[400 := secs]> (psecs s) ∧
  procs (pk s') = <[400 := started y (stack_top elf64 phs) (e_entry elf64 eh) demo_argv None exec_proc]> (procs (pk s)).
Proof.
  destruct demo_runs as (s & s1 & s2 & E & E1 & _). destruct (demo_boot_proc s E) as [Hc Hx]. destruct (demo_open s E) as (ip & it & s3 & Ho & Hf).
  assert (Hm : mem_inv (km (pk s)) [] [exec_page 0; exec_page 1]) by (rewrite (demo_boot_mem s E); exact exec_mem_inv).
  destruct (execve_starts_program elf64 0 7 false (exec_page 1) (replicate 14 0) (replicate 64 0) (replicate 56 0) (replicate 32 0) (replicate 32 0) (mkPgdir 0 false 0)
    [47; 115; 104] demo_argv None s s1 (mkCpu 400 400 4 (2 ^ 20)) exec_proc ip it s3 [] [exec_page 0; exec_page 1] E1 Hc Hx Ho Hf elf64_ok eq_refl eq_refl Hm)
    as (_ & _ & _ & _ & y & secs & H1 & _ & H2 & H3 & H4 & _).
  exists s, s1, ip, it, s3, y, secs. split; [exact E|]. split; [exact E1|]. split; [exact Ho|]. split; [exact H1|]. split; [exact H2|]. split; [exact H4|exact H3].
Defined.
